(* ===== verification/_CoqProject ===== *)
-Q . S2P
Prelude.v
Serializer.v
Codec.v
ByteArray.v
CommonDefs.v
WireBase.v
NsMessages.v
WireTheorems.v
StdMap.v
Subscribe.v
EventObject.v
SocketFactory.v
AddressAllocator.v
SvcAddrUtils.v
NameServer.v
NsProofs.v
NsReach.v
FdWatch.v
Framing.v
Message.v
Session.v
SessionProofs.v
Json.v
Security.v
UdpSession.v
Worker.v
EventLoop.v
FdLoop.v
Watchdog.v
Endpoint.v
EndpointProofs.v
EndpointReach.v
Context.v
Dispatcher.v
Answer.v
HostServer.v
HostProxy.v
IntraNameProxy.v
Registration.v
Query.v
HostLink.v
EventRouter.v
TopicTables.v
DataPool.v
DataPoolReach.v
LogCache.v
LogFiles.v
LogMessages.v
LogPrinter.v
LogProducer.v
LogServer.v
Options.v
