(* ===== verification/Prelude.v ===== *)
(** * FDBus: a verification development

    FDBus is a message bus: servers offer services by name, clients invoke them and
    subscribe to their events, and a name server on every host gives services their
    addresses and tells everybody else about them.  Host servers connect the name servers
    of a domain and domains with each other.  This library models the parts of the C++
    implementation that carry this logic and proves what makes them correct.  All paths
    below are relative to src/.

    ** The parts and how they interact

    A message is a prefix, a header and a payload; header and payload are built by a
    serializer and read by a deserializer.  A session turns messages into bytes on a socket
    and back, numbers requests and matches replies.  An endpoint (client or server) owns
    sockets, sessions and objects; objects have tables of subscriptions, an event cache,
    tables of handlers and a watchdog.  All of this runs in workers: threads with queues of
    jobs and event loops with timers and descriptors.  The name server and the host server
    are servers of this kind, name proxies and host proxies the clients that connect to
    them, and data pools, event routers and the log service are applications of it.

    The wire.
    - [Prelude]: machine integers with their wrap-around, C strings as bytes, hint databases
      and tactics shared by all files.
    - [Serializer]: fdbus/CFdbSimpleSerializer.cpp, public/fdbus/CFdbSimpleSerializer.h and
      CFdbSimpleMsgBuilder.h.  [SerM] and [DesM] are the operators [<<] and [>>] as state
      transformers that fail ([None]) where C++ would access memory outside of a block or
      overflow.  [Parcelable] is [IFdbParcelable].
    - [Codec]: the invariant of the serializer ([ser_ok]), what it means to write and to read
      a byte string ([writes], [reads], [codec]), safety of a reader on any bytes
      ([des_safe]), and the class [ParcelableLaws] that every message class meets.
    - [ByteArray]: [CFdbByteArray], [CFdbByteArrayExt] and [abool].
    - [CommonDefs]: public/fdbus/common_defs.h, event and group codes, enumerations.
    - [WireBase], [NsMessages], [LogMessages]: the message classes of
      utils/CFdbIfMessageHeader.h, public/fdbus/CFdbMsgSubscribe.h, CFdbIfMsgTokens.h,
      CFdbIfNameServer.h and CLogProducer.h, each with its [serialize] and [deserialize] and
      an instance of [ParcelableLaws].
    - [WireTheorems]: the theorems about the wire format.
    - [Message]: fdbus/CFdbMessage.cpp, the message object with its buffer as memory.

    Sessions and threads.
    - [FdWatch], [Framing]: worker/CSysFdWatch.cpp, the output queue, the input buffer and the
      cutting of the byte stream into messages.
    - [Session], [SessionProofs]: fdbus/CBaseSession.cpp and CFdbSession.cpp, the table of
      pending requests, timeouts, and the handling of every kind of incoming message.
    - [UdpSession]: fdbus/CFdbSessionContainer.cpp and CFdbUDPSession.cpp.
    - [Answer]: how a request is answered (reply, status, automatic reply) under the threads
      that hold it, fdbus/CFdbMessage.cpp and CFdbBaseObject.cpp.
    - [Worker], [EventLoop], [FdLoop]: worker/CBaseWorker.cpp, CBaseEventLoop.cpp and
      CFdEventLoop.cpp.
    - [Watchdog], [Dispatcher], [EventRouter]: fdbus/CFdbWatchdog.cpp, CFdbMsgDispatcher.cpp
      and CFdbEventRouter.cpp.

    Objects and endpoints.
    - [StdMap]: [std::map] and [std::set] as sorted association lists, since the code
      iterates over them in key order.
    - [Subscribe]: fdbus/CEventSubscribeHandle.cpp, the table of subscriptions by event,
      session, object and topic.  A session is its number, sending is a [Delivery].
    - [EventObject]: the event cache, broadcast and publish of fdbus/CFdbBaseObject.cpp.
    - [Endpoint], [EndpointProofs], [EndpointReach], [Context]: fdbus/CBaseEndpoint.cpp,
      CBaseServer.cpp, CBaseClient.cpp and CFdbBaseContext.cpp.  Sessions are shared, so the
      model has a heap; following a pointer to what was destroyed is [None].
    - [Json], [Security]: security/ and the accessors of utils/cJSON it uses.

    Names and hosts.
    - [SocketFactory]: URLs and IPv4 text of platform/socket/CBaseSocketFactory.cpp, with the
      number conversions of the C library they use.
    - [AddressAllocator]: server/CAddressAllocator.cpp and utils/CNsConfig.h; the class
      [AllocatorLaws] is what an allocator promises to the name server.
    - [SvcAddrUtils]: server/CSvcAddrUtils.cpp, service tables between hosts.
    - [NameServer], [NsProofs], [NsReach]: server/CNameServer.cpp.  [CNameServer] is its state,
      every handler a function to the new state and the list of what it sends ([NsOut]).
    - [HostServer]: server/CHostServer.cpp, CInterHostProxy.cpp and CBaseHostProxy.cpp.
    - [HostProxy], [HostLink]: server/CIntraHostProxy.cpp, CNameProxyContainer.cpp and
      CInterNameProxy.cpp: the connections of a name server to host servers and to other name
      servers.
    - [IntraNameProxy], [Registration]: fdbus/CIntraNameProxy.cpp, the connection of a process
      to its name server, and the two of them together.
    - [Query]: the requests for tables of services and hosts, and those that are passed on to
      other hosts; the class [GatherQuery] is what both kinds have in common.

    Applications.
    - [TopicTables], [DataPool], [DataPoolReach]: datapool/ and
      public/fdbus/CNotificationCenter.h.
    - [LogProducer], [LogPrinter], [LogServer], [LogCache], [LogFiles], [Options]: log/ and
      utils/fdb_option_parser.cpp.

    ** What the theorems show

    The numbered theorems carry their claim id in their comment; the others are steps towards
    them or further facts.

    - Names.  [reachable_ok]: in every state reachable through any sequence of handlers
      ([ns_reach], a step relation) the registry is well formed and handlers end.
      [onOffline_spec], [onAllocServiceAddressReq_spec], [onRegisterServiceReq_spec]: what
      losing a session, asking for addresses and registering do to the registry, as functions
      on its abstract view [reg_get], and what is announced.  [tokens_never_broadcast],
      [domain_boundary]: who gets tokens and which addresses leave the host.
      [service_comes_online], [clients_follow_service]: name server and processes together.
    - Hosts.  [views_current]: what every name server and host server was last sent is what
      the host server would send now, but for what it takes out in silence.  [host_boundary],
      [host_tokens_granted]: which services and tokens cross the boundary of a domain.
      [online_hosts_have_proxies], [host_joins]:
      the connections of a name server.  [queries_answered]: queries under errors of any kind.
    - Sessions.  [requests_end_once], [requests_do_not_linger]: every request ends exactly
      once and in bounded time.  [framing_independent], [large_messages_framed], [output_fifo],
      [message_roundtrip]: bytes and messages; a message larger than half the input buffer
      needs a [memcpy] that copes with overlapping blocks.  [request_answered]: every request
      that asks for an answer gets one.
    - Endpoints.  [endpoint_safe], [endpoint_announces], [client_one_connection],
      [endpoint_numbers]: no dangling pointers, what the user is told, and numbering.
    - Events.  [subscribe_spec], [unsubscribe_spec], [broadcast_delivers], [dispatch_exact]:
      tables of subscriptions and of handlers; [listeners_placed]: listeners of a data pool;
      [routed_once_in_trees]: routers.
    - Threads.  [worker_jobs_once], [round_drains], [processTimers_exact], [watches_safe],
      [unfed_dog_barks].
    - Security.  [policy_enforced], [tokens_prove_levels], [untrusted_requests_decode].
    - Logging.  [log_config_agreed]: the log server and its clients.  [logs_printed_as_written]:
      the lines that are printed.  [log_disk_bounded]: the directory of the log files, as the
      operations of their manager on files leave it.  [command_line_sendable]: options.

    Where the code does not do what its comments say or what it means to do, the theorem or an
    example states what it does: among others [default_entry_drops_policy], [rejected_session_counted],
    [announced_again_dangles], [auto_reply_lost], [clip_all_ignored], [unreachable_host_blocks],
    [ring_never_ends], [group_reflection_lost], [ipc_url_colon],
    [crowded_allocation_fails], [unregister_empty_name], [traces_stay_on],
    [endless_text_read], [absolute_mode_unreachable].

    ** Bounds and fuel

    Integers are kept at their width where the code can reach its limits: the 16-bit lengths
    of strings, the 32-bit positions of the serializer ([SER_LIMIT], 2 GB) and of the
    deserializer, event codes, instance ids, numbers of endpoints and sessions, sizes of log
    caches.  The loop that looks for an instance id runs on [instance_fuel], twice the ids of
    a group and three more, and the loop of [onOffline] of the name server on one more than
    the number of services; both are shown to be enough.  Loops that count their attempts in
    the code count the same in the model.  Other loops whose recursion is not structural run on
    fuel too, and the theorems about them show how much suffices.  Threads are interleavings
    of steps; the locks of the code make each step atomic.

    ** Parameters

    What comes from outside is an argument: the byte order of the host, values of
    uninitialised members ([Indet]), the outcome of system calls (connecting, binding,
    sending, reading, polling, opening files), the clock, random numbers, the user database,
    text parsed as JSON, callbacks of the application, and, where a component is modelled
    without its surroundings, what these answer: [NsEnv], [HsEnv], [HpEnv], [SessEnv],
    [MsgEnv].  The build modelled is the default one for Linux (local sockets, ports handed
    out by the name server, UDP ports left to the system, no compression of logs).

    ** Not modelled

    - platform/ apart from URLs and addresses: system calls on sockets, threads, signals, and
      the Windows variants.
    - The parser and printer of the vendored cJSON: only its values and accessors matter to
      the configuration code.
    - Rendering of messages and tables as text, and log output of the components themselves.
    - Waiting for the end of a job or of a request in another thread (condition variables of
      CBaseWorker.cpp, the synchronous wrappers of CFdbBaseObject.cpp), thread start-up, and
      the many overloads that only fill in a message and send it.
    - Sideband requests that list sessions for debugging tools, keep-alive settings and SSL.
    - Compressed log files.
    - The main programs in server/ and log/, the bindings (jni/, python/, c/) and the
      examples. *)
From Stdlib Require Export ZArith Lia Ascii.
From stdpp Require Export prelude strings list list_numbers pretty.

Declare Scope fdb_scope.
Delimit Scope fdb_scope with fdb.
Open Scope Z_scope.
Open Scope fdb_scope.

(** ** Machine integers *)

(** Conversion of a mathematical integer to an unsigned and to a two's
    complement integer of [w] bits. *)
Definition wrap_u (w z : Z) : Z := z `mod` 2 ^ w.
Definition wrap_s (w z : Z) : Z := (z + 2 ^ (w - 1)) `mod` 2 ^ w - 2 ^ (w - 1).

(** The values of an unsigned, respectively signed, type of [w] bits. *)
Definition in_u (w z : Z) : Prop := 0 <= z < 2 ^ w.
Definition in_s (w z : Z) : Prop := - 2 ^ (w - 1) <= z < 2 ^ (w - 1).

Abbreviation u8 := (wrap_u 8).
Abbreviation u16 := (wrap_u 16).
Abbreviation u32 := (wrap_u 32).
Abbreviation i32 := (wrap_s 32).

Definition INT32_MAX : Z := 2147483647.

#[export] Instance in_u_dec w z : Decision (in_u w z).
Proof. unfold in_u; apply _. Defined.

#[export] Instance in_s_dec w z : Decision (in_s w z).
Proof. unfold in_s; apply _. Defined.

Lemma wrap_u_small w z : in_u w z -> wrap_u w z = z.
Proof. intros H. apply Z.mod_small, H. Qed.

Lemma wrap_u_range w z : 0 <= w -> in_u w (wrap_u w z).
Proof. intros H. apply Z.mod_pos_bound. apply Z.pow_pos_nonneg; lia. Qed.

Lemma wrap_s_range w z : 0 < w -> in_s w (wrap_s w z).
Proof.
  intros H. unfold in_s, wrap_s.
  assert (2 ^ w = 2 * 2 ^ (w - 1)) as E
    by (rewrite <- Z.pow_succ_r by lia; f_equal; lia).
  pose proof (Z.mod_pos_bound (z + 2 ^ (w - 1)) (2 ^ w)) as B.
  assert (0 < 2 ^ (w - 1)) by (apply Z.pow_pos_nonneg; lia). lia.
Qed.

Lemma wrap_s_small w z : 0 < w -> in_s w z -> wrap_s w z = z.
Proof.
  intros H [? ?]. unfold wrap_s.
  assert (2 ^ w = 2 * 2 ^ (w - 1)) as E
    by (rewrite <- Z.pow_succ_r by lia; f_equal; lia).
  rewrite Z.mod_small; lia.
Qed.

(** Reading back a signed value from its unsigned image of the same width. *)
Lemma wrap_s_wrap_u w z : 0 < w -> in_s w z -> wrap_s w (wrap_u w z) = z.
Proof.
  intros Hw Hz. rewrite <- (wrap_s_small w z Hw Hz) at 2.
  unfold wrap_s, wrap_u. rewrite Zplus_mod_idemp_l. reflexivity.
Qed.

Lemma in_u_ones w a : 0 <= w -> in_u w a <-> Z.land a (Z.ones w) = a.
Proof.
  intros Hw. rewrite Z.land_ones by lia. split; [apply wrap_u_small|].
  intros <-. by apply wrap_u_range.
Qed.

Lemma in_u_lor w a b : 0 <= w -> in_u w a -> in_u w b -> in_u w (Z.lor a b).
Proof.
  intros Hw. rewrite !in_u_ones by done. intros Ha Hb. by rewrite Z.land_lor_distr_l, Ha, Hb.
Qed.

Lemma in_u_land w a b : 0 <= w -> in_u w b -> in_u w (Z.land a b).
Proof. intros Hw. rewrite !in_u_ones by done. intros Hb. by rewrite <- Z.land_assoc, Hb. Qed.

(** ** Strings, C strings and bytes *)

Definition byte_of_ascii (c : ascii) : Z := Z.of_N (N_of_ascii c).
Definition ascii_of_byte (b : Z) : ascii := ascii_of_N (Z.to_N b).

Fixpoint str_bytes (s : string) : list Z :=
  match s with
  | EmptyString => []
  | String c s' => byte_of_ascii c :: str_bytes s'
  end.

Fixpoint bytes_str (bs : list Z) : string :=
  match bs with
  | [] => EmptyString
  | b :: bs' => String (ascii_of_byte b) (bytes_str bs')
  end.

(** The bytes a C function sees at a pointer: everything before the first
    NUL, or nothing when the memory holds none. *)
Fixpoint scan_cstr (mem : list Z) : option (list Z) :=
  match mem with
  | [] => None
  | b :: mem' => if b =? 0 then Some [] else (b ::.) <$> scan_cstr mem'
  end.

Definition nul_free (s : string) : Prop := Forall (fun b => b <> 0) (str_bytes s).

#[export] Instance nul_free_dec s : Decision (nul_free s).
Proof. unfold nul_free; apply _. Defined.

Lemma ascii_byte_inv c : ascii_of_byte (byte_of_ascii c) = c.
Proof.
  unfold ascii_of_byte, byte_of_ascii. rewrite N2Z.id. apply ascii_N_embedding.
Qed.

Lemma byte_of_ascii_range c : 0 <= byte_of_ascii c < 256.
Proof.
  unfold byte_of_ascii. pose proof (N_ascii_bounded c). lia.
Qed.

Lemma bytes_str_bytes s : bytes_str (str_bytes s) = s.
Proof. induction s as [|c s IH]; simpl; [done|]. by rewrite ascii_byte_inv, IH. Qed.

Lemma length_str_bytes s : length (str_bytes s) = String.length s.
Proof. induction s; simpl; congruence. Qed.

Lemma scan_cstr_app (s : string) (rest : list Z) :
  nul_free s -> scan_cstr (str_bytes s ++ 0 :: rest) = Some (str_bytes s).
Proof.
  unfold nul_free. induction s as [|c s IH]; simpl; intros H; [done|].
  inversion_clear H. destruct (Z.eqb_spec (byte_of_ascii c) 0); [done|].
  by rewrite IH.
Qed.

(** A NUL at offset [n] bounds the scan. *)
Lemma scan_cstr_found (mem : list Z) (n : nat) :
  mem !! n = Some 0 -> exists bs, scan_cstr mem = Some bs /\ (length bs <= n)%nat.
Proof.
  revert n. induction mem as [|b mem IH]; intros n; [done|]. simpl.
  destruct (Z.eqb_spec b 0) as [->|]; [exists []; simpl; split; [done|lia]|].
  destruct n as [|n]; simpl; intros H; [by simplify_eq|].
  destruct (IH n H) as (bs & -> & ?). exists (b :: bs). simpl. split; [done|lia].
Qed.

(** ** Automation *)

Create HintDb fdb discriminated.
#[export] Hint Resolve wrap_u_small wrap_s_small wrap_s_wrap_u : fdb.

(** Splits the boolean tests of the goal and of the context into the
    propositions they decide. *)
Ltac bool_cases :=
  repeat match goal with
  | |- context [?a =? ?b] => destruct (Z.eqb_spec a b)
  | |- context [?a <? ?b] => destruct (Z.ltb_spec a b)
  | |- context [?a <=? ?b] => destruct (Z.leb_spec a b)
  | |- context [?a >? ?b] => rewrite (Z.gtb_ltb a b)
  | |- context [?a >=? ?b] => rewrite (Z.geb_leb a b)
  end.

Ltac destruct_bool_hyp :=
  repeat match goal with
  | H : andb _ _ = true |- _ => apply andb_true_iff in H as [? ?]
  | H : (_ =? _) = true |- _ => apply Z.eqb_eq in H
  | H : (_ =? _) = false |- _ => apply Z.eqb_neq in H
  | H : (_ <? _) = true |- _ => apply Z.ltb_lt in H
  | H : (_ <? _) = false |- _ => apply Z.ltb_ge in H
  | H : (_ <=? _) = true |- _ => apply Z.leb_le in H
  | H : (_ <=? _) = false |- _ => apply Z.leb_gt in H
  end.
