(* ===== verification/Serializer.v ===== *)
(** The binary serializer and deserializer every fdbus control message goes
    through: [CFdbSimpleSerializer] and [CFdbSimpleDeserializer]
    (src/public/fdbus/CFdbSimpleSerializer.h, src/fdbus/CFdbSimpleSerializer.cpp).

    Memory is explicit. A buffer is a list of bytes, one per addressable byte;
    an access outside it is undefined behaviour and is the result [None] of
    the operation. The bytes of a fresh [malloc] block are unspecified; they are
    0 here and no operation reads one it has not written. [malloc] and
    [realloc] are taken to succeed. *)
From S2P Require Import Prelude.

Definition FDB_SCRATCH_CACHE_SIZE : Z := 2048.
Definition FDB_SER_BUFFER_BLOCK_SIZE : Z := 1024.

(** ** Integers in memory *)

(** The [n] bytes of the integer [v], least significant first, and the object
    representation of an [n]-byte integer on a host of the given byte order. *)
Definition le_bytes (n v : Z) : list Z := Z_to_little_endian n 8 v.
Definition native_bytes (le : bool) (n v : Z) : list Z :=
  if le then le_bytes n v else reverse (le_bytes n v).

Arguments le_bytes : simpl never.

(** The value of an [n]-byte integer object, read as unsigned or signed. *)
Definition int_of_le (sg : bool) (n : Z) (bs : list Z) : Z :=
  let z := little_endian_to_Z 8 bs in if sg then wrap_s (8 * n) z else z.
Definition int_of_native (le sg : bool) (n : Z) (p : list Z) : Z :=
  int_of_le sg n (if le then p else reverse p).

(** The values of an [n]-byte integer type. *)
Definition in_int (sg : bool) (n v : Z) : Prop :=
  if sg then in_s (8 * n) v else in_u (8 * n) v.

#[export] Instance in_int_dec sg n v : Decision (in_int sg n v).
Proof. unfold in_int; destruct sg; apply _. Defined.

(** ** The serializer *)

(** [mHeap = None] when [mBuffer == mScratchCache]; otherwise it is the heap
    block [mBuffer] points to. [s_le] is the byte order of the host. *)
Record CFdbSimpleSerializer := mkSerializer {
  mScratchCache : list Z;
  mHeap : option (list Z);
  mTotalSize : Z;
  mPos : Z;
  s_le : bool }.

Definition mBuffer (s : CFdbSimpleSerializer) : list Z :=
  match mHeap s with Some blk => blk | None => mScratchCache s end.

Definition set_mBuffer (s : CFdbSimpleSerializer) (mem : list Z) : CFdbSimpleSerializer :=
  match mHeap s with
  | Some _ => mkSerializer (mScratchCache s) (Some mem) (mTotalSize s) (mPos s) (s_le s)
  | None => mkSerializer mem None (mTotalSize s) (mPos s) (s_le s)
  end.

Definition set_mPos (s : CFdbSimpleSerializer) (pos : Z) : CFdbSimpleSerializer :=
  mkSerializer (mScratchCache s) (mHeap s) (mTotalSize s) pos (s_le s).

(** The constructor; the scratch array starts with arbitrary contents. *)
Definition serializer_new (le : bool) (scratch : list Z) : CFdbSimpleSerializer :=
  mkSerializer scratch None FDB_SCRATCH_CACHE_SIZE 0 le.

Definition ser_reset (s : CFdbSimpleSerializer) : CFdbSimpleSerializer :=
  mkSerializer (mScratchCache s) None FDB_SCRATCH_CACHE_SIZE 0 (s_le s).

Definition bufferSize (s : CFdbSimpleSerializer) : Z := i32 (mPos s).

(** The bytes written so far: what [buffer()] and [bufferSize()] expose. *)
Definition content (s : CFdbSimpleSerializer) : list Z := take (Z.to_nat (mPos s)) (mBuffer s).

(** [toBuffer]: the bytes copied out and their number. [memcpy] of a negative
    size is undefined. *)
Definition toBuffer (s : CFdbSimpleSerializer) (size : Z) : option (list Z * Z) :=
  let size := if size >? i32 (mPos s) then i32 (mPos s) else size in
  if (0 <=? size) && (size <=? Z.of_nat (length (mBuffer s)))
  then Some (take (Z.to_nat size) (mBuffer s), size)
  else None.

Definition malloc (n : Z) : list Z := replicate (Z.to_nat n) 0.
Definition realloc (blk : list Z) (n : Z) : list Z :=
  take (Z.to_nat n) blk ++ replicate (Z.to_nat n - length blk) 0.

(** [memcpy] of the first [n] bytes of [src] over the first [n] of [dst]. *)
Definition memcpy_prefix (dst src : list Z) (n : Z) : option (list Z) :=
  if (0 <=? n) && (n <=? Z.of_nat (length dst)) && (n <=? Z.of_nat (length src))
  then Some (take (Z.to_nat n) src ++ drop (Z.to_nat n) dst) else None.

Definition addMemory (size : Z) (s : CFdbSimpleSerializer) : option CFdbSimpleSerializer :=
  let new_pos := u32 (mPos s + size) in
  match mHeap s with
  | None =>
      if new_pos >? FDB_SCRATCH_CACHE_SIZE then
        let total := u32 (mTotalSize s + u32 (size + FDB_SER_BUFFER_BLOCK_SIZE)) in
        blk ← memcpy_prefix (malloc total) (mScratchCache s) (mPos s);
        Some (mkSerializer (mScratchCache s) (Some blk) total (mPos s) (s_le s))
      else Some s
  | Some blk =>
      let old_total := mTotalSize s in
      let total :=
        if new_pos >? old_total then
          if size <? FDB_SER_BUFFER_BLOCK_SIZE
          then u32 (old_total + FDB_SER_BUFFER_BLOCK_SIZE)
          else u32 (old_total + u32 (size + FDB_SER_BUFFER_BLOCK_SIZE))
        else old_total in
      let blk := if total >? old_total then realloc blk total else blk in
      Some (mkSerializer (mScratchCache s) (Some blk) total (mPos s) (s_le s))
  end.

(** The copy loops: byte [i] of the source goes to [mBuffer[pos + i]]. *)
Fixpoint store_loop (mem : list Z) (pos : Z) (src : list Z) : option (list Z) :=
  match src with
  | [] => Some mem
  | b :: src' =>
      if (0 <=? pos) && (pos <? Z.of_nat (length mem))
      then store_loop (<[Z.to_nat pos := b]> mem) (u32 (pos + 1)) src'
      else None
  end.

Definition addBasicType (p_data : list Z) (size : Z) (s : CFdbSimpleSerializer)
  : option CFdbSimpleSerializer :=
  s1 ← addMemory (u32 size) s;
  mem ← store_loop (mBuffer s1) (mPos s1) (if s_le s then p_data else reverse p_data);
  Some (set_mPos (set_mBuffer s1 mem) (u32 (mPos s1 + size))).

(** The loop runs [size] times, so not at all for a negative [size]; reading
    past the end of [p_data] is undefined. *)
Definition addRawData (p_data : list Z) (size : Z) (s : CFdbSimpleSerializer)
  : option CFdbSimpleSerializer :=
  s1 ← addMemory (u32 size) s;
  src ← (if size <=? Z.of_nat (length p_data)
         then Some (take (Z.to_nat size) p_data) else None);
  mem ← store_loop (mBuffer s1) (mPos s1) src;
  Some (set_mPos (set_mBuffer s1 mem) (u32 (mPos s1 + size))).

(** A statement [serializer << ...]. *)
Definition SerM : Type := CFdbSimpleSerializer -> option CFdbSimpleSerializer.

Definition ser_skip : SerM := Some.
Definition ser_seq (m1 m2 : SerM) : SerM := fun s => s1 ← m1 s; m2 s1.
Notation "m1 ;;; m2" := (ser_seq m1 m2) (at level 60, right associativity) : fdb_scope.

(** [serializeScalar] of an [n]-byte integer. *)
Definition put_int (n v : Z) : SerM := fun s => addBasicType (native_bytes (s_le s) n v) n s.

Definition put_bool (b : bool) : SerM := put_int 1 (if b then 1 else 0).

Definition addString (str : list Z) (str_len : Z) : SerM :=
  let l := u16 (str_len + 1) in
  put_int 2 l ;;; addRawData str l.

(** [operator<<] for [std::string]; [c_str()] is followed by a NUL. *)
Definition put_string (data : string) : SerM :=
  addString (str_bytes data ++ [0]) (u16 (Z.of_nat (String.length data))).

(** [operator<<] for [const char *]: the argument is the memory at the pointer. *)
Definition put_cstr (mem : list Z) : SerM := fun s =>
  bs ← scan_cstr mem; addString mem (u16 (Z.of_nat (length bs))) s.

(** ** The deserializer *)

(** [d_mBuffer = None] is the null pointer. [d_le] is the byte order of the host. *)
Record CFdbSimpleDeserializer := mkDeserializer {
  d_mBuffer : option (list Z);
  d_mSize : Z;
  d_mPos : Z;
  d_mError : bool;
  d_le : bool }.

(** The constructor and [reset]. *)
Definition deserializer_new (le : bool) (buffer : option (list Z)) (size : Z)
  : CFdbSimpleDeserializer :=
  mkDeserializer buffer size 0 (match buffer with Some _ => false | None => true end) le.

Definition des_set_pos (d : CFdbSimpleDeserializer) (pos : Z) : CFdbSimpleDeserializer :=
  mkDeserializer (d_mBuffer d) (d_mSize d) pos (d_mError d) (d_le d).
Definition des_set_error (d : CFdbSimpleDeserializer) (e : bool) : CFdbSimpleDeserializer :=
  mkDeserializer (d_mBuffer d) (d_mSize d) (d_mPos d) e (d_le d).

(** A computation over the deserializer; [None] is undefined behaviour (a read
    outside the buffer, a signed overflow). *)
Definition DesM (A : Type) : Type := CFdbSimpleDeserializer -> option (A * CFdbSimpleDeserializer).

#[export] Instance DesM_ret : MRet DesM := fun _ x d => Some (x, d).
#[export] Instance DesM_bind : MBind DesM := fun _ _ k m d =>
  match m d with Some (x, d') => k x d' | None => None end.

Definition des_error : DesM bool := fun d => Some (d_mError d, d).
Definition des_raise : DesM unit := fun d => Some (tt, des_set_error d true).

(** The [n] bytes at [mBuffer + pos]. *)
Definition load (d : CFdbSimpleDeserializer) (pos n : Z) : option (list Z) :=
  match d_mBuffer d with
  | Some buf =>
      if (0 <=? pos) && (0 <=? n) && (pos + n <=? Z.of_nat (length buf))
      then Some (take (Z.to_nat n) (drop (Z.to_nat pos) buf)) else None
  | None => None
  end.

(** [mPos + size] in 32-bit signed arithmetic. *)
Definition add_i32 (a b : Z) : option Z :=
  if (- INT32_MAX - 1 <=? a + b) && (a + b <=? INT32_MAX) then Some (a + b) else None.

Definition retrieveBasicData (size : Z) : DesM (list Z) := fun d =>
  bs ← load d (d_mPos d) size;
  pos ← add_i32 (d_mPos d) size;
  Some (if d_le d then bs else reverse bs, des_set_pos d pos).

(** [deserializeScalar] into an [n]-byte integer variable that holds [old]. *)
Definition get_int (sg : bool) (n old : Z) : DesM Z := fun d =>
  if d_mError d then Some (old, d) else
  fin ← add_i32 (d_mPos d) n;
  if negb (d_mSize d =? 0) && (fin >? d_mSize d)
  then Some (old, des_set_error d true)
  else '(p, d') ← retrieveBasicData n d;
       Some (int_of_native (d_le d) sg n p, d').

Definition get_bool : DesM bool := v ← get_int false 1 0; mret (negb (v =? 0)).

(** [operator>>] for [std::string]: [data] keeps its value on every early return. *)
Definition get_string (data : string) : DesM string := fun d =>
  '(len, d1) ← get_int false 2 0 d;
  if d_mError d1 || (len =? 0) then Some (data, d1) else
  fin ← add_i32 (d_mPos d1) len;
  if negb (d_mSize d1 =? 0) && (fin >? d_mSize d1)
  then Some (data, des_set_error d1 true) else
  last ← load d1 (fin - 1) 1;
  if negb (bool_decide (last = [0])) then Some (data, des_set_error d1 true) else
  buf ← d_mBuffer d1;
  bs ← scan_cstr (drop (Z.to_nat (d_mPos d1)) buf);
  Some (bytes_str bs, des_set_pos d1 fin).

(** [retrieveRawData]: [false] when the buffer is too short, without raising
    the error flag. [memcpy] of a negative size is undefined. *)
Definition retrieveRawData (size : Z) : DesM (option (list Z)) := fun d =>
  fin ← add_i32 (d_mPos d) size;
  if negb (d_mSize d =? 0) && (fin >? d_mSize d)
  then Some (None, d)
  else bs ← load d (d_mPos d) size; Some (Some bs, des_set_pos d fin).

(** ** Parcelables *)

(** The value found in uninitialised memory. Every theorem quantifies over it. *)
Class Indet := indet : Z.

(** [IFdbParcelable], with the value [std::vector::resize] puts in a new element. *)
Class Parcelable (T : Type) := {
  p_default : Indet -> T;
  p_serialize : T -> SerM;
  p_deserialize : Indet -> T -> DesM T }.

Definition serialize {T} `{Parcelable T} (x : T) : SerM := p_serialize x.
Definition deserialize {T} `{Parcelable T} {I : Indet} (old : T) : DesM T := p_deserialize I old.
Definition dflt {T} `{Parcelable T} {I : Indet} : T := p_default I.

(** [CFdbRepeatedParcelable]: [serialize], [vector::resize] and [deserialize]. *)
Fixpoint ser_each {T} `{Parcelable T} (pool : list T) : SerM :=
  match pool with
  | [] => ser_skip
  | x :: pool' => serialize x ;;; ser_each pool'
  end.

Definition array_serialize {T} `{Parcelable T} (pool : list T) : SerM :=
  put_int 2 (u16 (Z.of_nat (length pool))) ;;; ser_each pool.

Definition vec_resize {T} `{Parcelable T} {I : Indet} (n : nat) (pool : list T) : list T :=
  take n pool ++ replicate (n - length pool) dflt.

(** The element loop; it stops at the first error and leaves the remaining
    elements as [resize] made them. *)
Fixpoint des_each {T} `{Parcelable T} {I : Indet} (pool : list T) : DesM (list T) :=
  match pool with
  | [] => mret []
  | x :: pool' =>
      e ← des_error;
      if e : bool then mret (x :: pool') else
      y ← deserialize x;
      rest ← des_each pool';
      mret (y :: rest)
  end.

Definition array_deserialize {T} `{Parcelable T} {I : Indet} (pool : list T) : DesM (list T) :=
  e ← des_error;
  if e : bool then mret pool else
  size ← get_int false 2 0;
  des_each (vec_resize (Z.to_nat size) pool).

(** [CFdbBaseSimpleMsgBuilder::build]: the payload of a message. *)
Definition builder_build {T} `{Parcelable T} (s : CFdbSimpleSerializer) (x : T)
  : option (list Z * Z) :=
  s' ← serialize x (ser_reset s); Some (content s', bufferSize s').

(** [CFdbSimpleMsgParser::parse] into an object holding [old]. *)
Definition parser_parse {T} `{Parcelable T} {I : Indet} (le : bool)
  (buffer : option (list Z)) (size : Z) (old : T) : option (T * bool) :=
  '(y, d) ← deserialize old (deserializer_new le buffer size);
  Some (y, negb (d_mError d)).
