(* ===== verification/Codec.v ===== *)
(** What the serializer and the deserializer promise: the buffer refines an
    append-only byte string, decoding inverts encoding, and decoding arbitrary
    bytes stays inside the buffer. [Codec] and [ParcelableLaws] are the
    interface the message classes are proved against. *)
From S2P Require Import Prelude Serializer.

(** ** The buffer as an append-only byte string *)

(** Invariant of the serializer: the block has the recorded size, the position
    is inside it, and growth stays proportional to the contents, which keeps
    the 32-bit sizes from wrapping below 2 GB. *)
Record ser_ok (s : CFdbSimpleSerializer) : Prop := {
  so_scratch : Z.of_nat (length (mScratchCache s)) = FDB_SCRATCH_CACHE_SIZE;
  so_block : Z.of_nat (length (mBuffer s)) = mTotalSize s;
  so_pos : 0 <= mPos s <= mTotalSize s;
  so_growth : mTotalSize s <= 2 * mPos s + 3072 }.

(** The position up to which the 32-bit sizes cannot wrap. *)
Definition SER_LIMIT : Z := 2 ^ 31 - 4096.

Lemma store_loop_spec (mem src : list Z) (pos : Z) :
  0 <= pos -> pos + Z.of_nat (length src) <= Z.of_nat (length mem) ->
  Z.of_nat (length mem) < 2 ^ 32 ->
  store_loop mem pos src =
    Some (take (Z.to_nat pos) mem ++ src ++ drop (Z.to_nat pos + length src) mem).
Proof.
  revert mem pos. induction src as [|b src IH]; intros mem pos H0 Hle Hlt; simpl in *.
  { by rewrite Nat.add_0_r, take_drop. }
  destruct (Z.leb_spec 0 pos); [|lia].
  destruct (Z.ltb_spec pos (Z.of_nat (length mem))); [|lia]. simpl.
  assert (u32 (pos + 1) = pos + 1) as -> by (apply wrap_u_small; unfold in_u; lia).
  rewrite IH by (rewrite ?length_insert; lia).
  f_equal. replace (Z.to_nat (pos + 1)) with (S (Z.to_nat pos)) by lia.
  rewrite (take_S_r _ _ b) by (apply list_lookup_insert_eq; lia).
  rewrite take_insert_ge by lia.
  rewrite <- app_assoc. simpl. do 2 f_equal. f_equal.
  rewrite drop_insert_lt by lia. f_equal. lia.
Qed.

Lemma length_realloc blk n :
  0 <= n -> Z.of_nat (length (realloc blk n)) = n.
Proof. intros H. unfold realloc. rewrite length_app, length_take, length_replicate. lia. Qed.

Lemma length_malloc n : 0 <= n -> Z.of_nat (length (malloc n)) = n.
Proof. intros H. unfold malloc. rewrite length_replicate. lia. Qed.

Lemma memcpy_prefix_spec dst src n :
  0 <= n <= Z.of_nat (length dst) -> n <= Z.of_nat (length src) ->
  memcpy_prefix dst src n = Some (take (Z.to_nat n) src ++ drop (Z.to_nat n) dst).
Proof.
  intros H1 H2. unfold memcpy_prefix.
  destruct (Z.leb_spec 0 n); [|lia].
  destruct (Z.leb_spec n (Z.of_nat (length dst))); [|lia].
  destruct (Z.leb_spec n (Z.of_nat (length src))); [done|lia].
Qed.

(** What [addMemory] leaves: room for [size] more bytes and the same contents. *)
Record grown (s s1 : CFdbSimpleSerializer) (size : Z) : Prop := {
  gr_pos : mPos s1 = mPos s;
  gr_le : s_le s1 = s_le s;
  gr_scratch : mScratchCache s1 = mScratchCache s;
  gr_content : content s1 = content s;
  gr_block : Z.of_nat (length (mBuffer s1)) = mTotalSize s1;
  gr_room : mPos s + size <= mTotalSize s1;
  gr_growth : mTotalSize s1 <= 2 * (mPos s + size) + 3072 }.

Lemma addMemory_scratch s size :
  ser_ok s -> mHeap s = None -> 0 <= size -> mPos s + size <= SER_LIMIT ->
  exists s1, addMemory size s = Some s1 /\ grown s s1 size.
Proof.
  intros [Hs Hb Hp Hg] Hh H0 Hlim. unfold addMemory, SER_LIMIT in *. rewrite Hh.
  assert (mBuffer s = mScratchCache s) as Eb by (unfold mBuffer; by rewrite Hh).
  rewrite Eb in Hb. rewrite Hs in Hb. unfold FDB_SCRATCH_CACHE_SIZE in *.
  rewrite (wrap_u_small 32 (mPos s + size)) by (unfold in_u; lia).
  rewrite Z.gtb_ltb. destruct (Z.ltb_spec 2048 (mPos s + size)).
  - rewrite (wrap_u_small 32 (size + _)) by (unfold in_u, FDB_SER_BUFFER_BLOCK_SIZE; lia).
    rewrite (wrap_u_small 32) by (unfold in_u, FDB_SER_BUFFER_BLOCK_SIZE; lia).
    unfold FDB_SER_BUFFER_BLOCK_SIZE in *.
    rewrite memcpy_prefix_spec by (rewrite ?length_malloc; lia).
    eexists; split; [done|]. split; try done; simpl.
    + unfold content, mBuffer; simpl. rewrite Hh.
      rewrite take_app_le by (rewrite length_take; lia). by rewrite take_take, Nat.min_id.
    + unfold mBuffer; simpl. rewrite length_app, length_take, length_drop.
      pose proof (length_malloc (mTotalSize s + (size + 1024))). lia.
    + lia.
    + lia.
  - exists s. split; [done|]. split; try done; try lia. rewrite Eb. lia.
Qed.

Lemma addMemory_heap s blk size :
  ser_ok s -> mHeap s = Some blk -> 0 <= size -> mPos s + size <= SER_LIMIT ->
  exists s1, addMemory size s = Some s1 /\ grown s s1 size.
Proof.
  intros [Hs Hb Hp Hg] Hh H0 Hlim. unfold addMemory, SER_LIMIT in *. rewrite Hh.
  assert (mBuffer s = blk) as Eb by (unfold mBuffer; by rewrite Hh).
  rewrite Eb in Hb.
  rewrite (wrap_u_small 32 (mPos s + size)) by (unfold in_u; lia).
  eexists; split; [done|]. unfold FDB_SER_BUFFER_BLOCK_SIZE.
  rewrite (wrap_u_small 32 (size + 1024)) by (unfold in_u; lia).
  rewrite (wrap_u_small 32 (mTotalSize s + 1024)) by (unfold in_u; lia).
  rewrite !Z.gtb_ltb. destruct (Z.ltb_spec (mTotalSize s) (mPos s + size)).
  2: { rewrite Z.ltb_irrefl. split; try done; simpl; try lia.
       unfold content, mBuffer; simpl. by rewrite Hh. }
  rewrite (wrap_u_small 32 (mTotalSize s + (size + 1024))) by (unfold in_u; lia).
  set (total := if size <? 1024 then _ else _).
  assert (mPos s + size <= total <= 2 * (mPos s + size) + 3072 /\ mTotalSize s < total) as [Ht Hgt].
  { subst total. destruct (Z.ltb_spec size 1024); lia. }
  destruct (Z.ltb_spec (mTotalSize s) total); [|lia].
  split; try done; simpl; try lia.
  - unfold content, mBuffer; simpl. rewrite Hh. unfold realloc.
    rewrite take_app_le by (rewrite length_take; lia).
    by rewrite take_take, Nat.min_l by lia.
  - unfold mBuffer; simpl. rewrite length_realloc; lia.
Qed.

Lemma addMemory_grown s size :
  ser_ok s -> 0 <= size -> mPos s + size <= SER_LIMIT ->
  exists s1, addMemory size s = Some s1 /\ grown s s1 size.
Proof.
  intros. destruct (mHeap s) eqn:E; eauto using addMemory_scratch, addMemory_heap.
Qed.

(** The common end of [addBasicType] and [addRawData]. *)
Lemma store_grown s s1 src :
  ser_ok s -> grown s s1 (Z.of_nat (length src)) ->
  mPos s + Z.of_nat (length src) <= SER_LIMIT ->
  exists mem s2, store_loop (mBuffer s1) (mPos s1) src = Some mem /\
    s2 = set_mPos (set_mBuffer s1 mem) (u32 (mPos s1 + Z.of_nat (length src))) /\
    ser_ok s2 /\ content s2 = content s ++ src /\ s_le s2 = s_le s /\
    mPos s2 = mPos s + Z.of_nat (length src).
Proof.
  intros [Hs Hb Hp Hg] [Gp Gl Gs Gc Gb Gr Gg] Hlim. unfold SER_LIMIT in *.
  rewrite Gp. eexists _, _. split; [apply store_loop_spec; lia|]. split; [done|].
  set (mem := take _ _ ++ _). set (s2 := set_mPos _ _).
  assert (length mem = length (mBuffer s1)) as Lm.
  { subst mem. rewrite !length_app, length_take, length_drop. lia. }
  assert (mBuffer s2 = mem) as Eb by (subst s2; unfold mBuffer, set_mPos, set_mBuffer; by destruct (mHeap s1)).
  assert (mPos s2 = mPos s + Z.of_nat (length src)) as Ep.
  { subst s2. simpl. apply wrap_u_small. unfold in_u. lia. }
  assert (mTotalSize s2 = mTotalSize s1) as Et by (subst s2; unfold set_mPos, set_mBuffer; by destruct (mHeap s1)).
  assert (s_le s2 = s_le s1) as El by (subst s2; unfold set_mPos, set_mBuffer; by destruct (mHeap s1)).
  split; [split|split; [|split]]; rewrite ?Ep, ?Et, ?Eb, ?El, ?Lm; try done; try lia.
  - subst s2. unfold set_mPos, set_mBuffer. destruct (mHeap s1) eqn:E; simpl; [by rewrite Gs|].
    rewrite Lm. unfold mBuffer. rewrite E, Gs. done.
  - unfold content at 1. rewrite Eb, Ep. subst mem.
    rewrite app_assoc, take_app_length'.
    + f_equal. rewrite <- Gc. unfold content. by rewrite Gp.
    + rewrite length_app, length_take. lia.
Qed.

(** ** Writing and reading as relations on byte strings *)

(** [m] appends exactly the bytes [bs] to the contents. *)
Definition writes (m : SerM) (bs : list Z) : Prop := forall s,
  ser_ok s -> mPos s + Z.of_nat (length bs) <= SER_LIMIT ->
  exists s', m s = Some s' /\ ser_ok s' /\ content s' = content s ++ bs /\ s_le s' = s_le s /\
             mPos s' = mPos s + Z.of_nat (length bs).

(** [m] started in front of the bytes [bs] consumes exactly them and returns [y],
    also when the memory goes on behind the limit of the deserializer. *)
Definition reads {A} (m : DesM A) (bs : list Z) (y : A) : Prop := forall d pre post,
  d_mBuffer d = Some (pre ++ bs ++ post) ->
  Z.of_nat (length (pre ++ bs)) <= d_mSize d -> d_mSize d <> 0 ->
  d_mSize d <= INT32_MAX - 65536 ->
  d_mPos d = Z.of_nat (length pre) -> d_mError d = false ->
  m d = Some (y, des_set_pos d (Z.of_nat (length pre + length bs))).

(** [m] encodes to the bytes [bs], which [r] decodes to the value [y]. *)
Definition codec {A} (m : SerM) (r : DesM A) (bs : list Z) (y : A) : Prop :=
  writes m bs /\ reads r bs y.

Lemma writes_skip : writes ser_skip [].
Proof.
  intros s Hs _. exists s. rewrite app_nil_r. simpl. repeat split; try done; try apply Hs; lia.
Qed.

Lemma writes_seq m1 m2 b1 b2 :
  writes m1 b1 -> writes m2 b2 -> writes (m1 ;;; m2) (b1 ++ b2).
Proof.
  intros H1 H2 s Hs Hl. rewrite length_app in Hl.
  destruct (H1 s Hs) as (s1 & E1 & O1 & C1 & L1 & P1); [lia|].
  destruct (H2 s1 O1) as (s2 & E2 & O2 & C2 & L2 & P2); [lia|].
  exists s2. unfold ser_seq. rewrite E1. simpl. rewrite E2, C2, C1, app_assoc, L2, L1, P2, length_app.
  repeat split; try done; try apply O2. lia.
Qed.

Lemma reads_ret {A} (y : A) : reads (mret y) [] y.
Proof.
  intros d pre post _ _ _ _ Hp He. unfold mret, DesM_ret. do 2 f_equal.
  destruct d; simpl in *. unfold des_set_pos; simpl. f_equal. lia.
Qed.

Lemma reads_bind {A B} (m : DesM A) (k : A -> DesM B) b1 b2 y z :
  reads m b1 y -> reads (k y) b2 z -> reads (m ≫= k) (b1 ++ b2) z.
Proof.
  intros H1 H2 d pre post Hb Hs H0 Hl Hp He. unfold mbind, DesM_bind.
  rewrite !length_app in Hs.
  rewrite (H1 d pre (b2 ++ post)); try done; [|by rewrite Hb, <- app_assoc|rewrite length_app; lia].
  rewrite (H2 _ (pre ++ b1) post); simpl; try done;
    rewrite ?length_app, ?Hb, <- ?app_assoc, ?length_app; try done; try lia.
  by rewrite Nat.add_assoc.
Qed.

Lemma codec_skip {A} (y : A) : codec ser_skip (mret y) [] y.
Proof. split; [apply writes_skip | apply reads_ret]. Qed.

Lemma codec_seq {A B} m1 m2 (r : DesM A) (k : A -> DesM B) b1 b2 y z :
  codec m1 r b1 y -> codec m2 (k y) b2 z -> codec (m1 ;;; m2) (r ≫= k) (b1 ++ b2) z.
Proof. intros [W1 R1] [W2 R2]. split; eauto using writes_seq, reads_bind. Qed.

(** The last statement of a message, followed only by the construction of the
    result. *)
Lemma codec_last {A B} m (r : DesM A) (k : A -> DesM B) b y z :
  codec m r b y -> k y = mret z -> codec m (r ≫= k) b z.
Proof.
  intros [W R] E. split; [done|]. rewrite <- (app_nil_r b).
  eapply reads_bind; [done|]. rewrite E. apply reads_ret.
Qed.

(** ** Scalars, booleans and strings *)

Lemma length_le_bytes n v : 0 <= n -> Z.of_nat (length (le_bytes n v)) = n.
Proof. intros H. apply length_Z_to_little_endian; lia. Qed.

Lemma native_bytes_to_le (le : bool) n v :
  (if le then native_bytes le n v else reverse (native_bytes le n v)) = le_bytes n v.
Proof. unfold native_bytes. destruct le; [done|]. by rewrite reverse_involutive. Qed.

Lemma int_of_native_of_le (le sg : bool) n bs :
  int_of_native le sg n (if le then bs else reverse bs) = int_of_le sg n bs.
Proof. unfold int_of_native. destruct le; [done|]. by rewrite reverse_involutive. Qed.

Lemma int_of_le_bytes sg n v : 0 < n -> in_int sg n v -> int_of_le sg n (le_bytes n v) = v.
Proof.
  intros Hn Hv. unfold int_of_le, le_bytes.
  rewrite little_endian_to_Z_to_little_endian by lia.
  replace (n * 8) with (8 * n) by lia. destruct sg; simpl in Hv.
  - apply wrap_s_wrap_u; [lia|done].
  - by apply Z.mod_small.
Qed.

Lemma writes_int n v : 0 < n -> n <= 8 -> writes (put_int n v) (le_bytes n v).
Proof.
  intros H0 H8 s Hs Hl. pose proof (length_le_bytes n v ltac:(lia)) as L.
  unfold put_int, addBasicType. rewrite (wrap_u_small 32 n) by (unfold in_u; lia).
  destruct (addMemory_grown s n) as (s1 & -> & G); [done|lia|lia|]. simpl.
  rewrite native_bytes_to_le. generalize dependent (le_bytes n v). intros bs Hl <-.
  destruct (store_grown s s1 _ Hs G Hl) as (mem & s2 & E & -> & O & C & Le & P).
  rewrite E. simpl. eexists; eauto.
Qed.

Lemma load_app d pre bs post :
  d_mBuffer d = Some (pre ++ bs ++ post) ->
  load d (Z.of_nat (length pre)) (Z.of_nat (length bs)) = Some bs.
Proof.
  intros E. unfold load. rewrite E, !length_app.
  repeat (rewrite (proj2 (Z.leb_le _ _)) by lia). simpl.
  rewrite !Nat2Z.id, drop_app_length, take_app_length. done.
Qed.

Lemma add_i32_ok a b : 0 <= a + b <= INT32_MAX -> add_i32 a b = Some (a + b).
Proof.
  intros H. unfold add_i32, INT32_MAX in *.
  rewrite (proj2 (Z.leb_le _ _)) by lia. by rewrite (proj2 (Z.leb_le _ _)) by lia.
Qed.

Lemma reads_int sg n old v :
  0 < n -> n <= 8 -> in_int sg n v -> reads (get_int sg n old) (le_bytes n v) v.
Proof.
  intros H0 H8 Hv d pre post Hb Hs Hnz Hl Hp He.
  pose proof (length_le_bytes n v ltac:(lia)) as L.
  rewrite !length_app in Hs. unfold INT32_MAX in Hl.
  unfold get_int, retrieveBasicData. rewrite He, Hp.
  rewrite add_i32_ok by (unfold INT32_MAX; lia). simpl.
  rewrite Z.gtb_ltb, (proj2 (Z.ltb_ge _ _)), andb_false_r by lia.
  rewrite <- L at 1. rewrite (load_app d pre (le_bytes n v) post Hb). simpl.
  rewrite int_of_native_of_le, int_of_le_bytes by done.
  do 3 f_equal. lia.
Qed.

Lemma codec_int sg n old v :
  0 < n -> n <= 8 -> in_int sg n v -> codec (put_int n v) (get_int sg n old) (le_bytes n v) v.
Proof. intros. split; [by apply writes_int | by apply reads_int]. Qed.

Definition bool_wire (b : bool) : list Z := le_bytes 1 (if b then 1 else 0).

Lemma codec_bool b : codec (put_bool b) get_bool (bool_wire b) b.
Proof.
  eapply codec_last; [apply codec_int; try lia; unfold in_int, in_u; destruct b; simpl; lia|].
  by destruct b.
Qed.

Lemma writes_raw (p : list Z) : writes (addRawData p (Z.of_nat (length p))) p.
Proof.
  intros s Hs Hl. unfold addRawData.
  assert (in_u 32 (Z.of_nat (length p))) as Hu
    by (unfold in_u, SER_LIMIT in *; pose proof (so_pos _ Hs); lia).
  rewrite (wrap_u_small 32 _ Hu).
  destruct (addMemory_grown s (Z.of_nat (length p))) as (s1 & -> & G); [done|lia|lia|]. simpl.
  rewrite Z.leb_refl, Nat2Z.id, firstn_all. simpl.
  destruct (store_grown s s1 p Hs G Hl) as (mem & s2 & -> & -> & O & C & Le & P).
  eexists; eauto.
Qed.

(** The strings the wire format can carry: no embedded NUL and a length, with
    the terminator, that fits 16 bits. *)
Definition str_ok (s : string) : Prop := nul_free s /\ Z.of_nat (String.length s) <= 65534.

#[export] Instance str_ok_dec s : Decision (str_ok s).
Proof. unfold str_ok; apply _. Defined.

Definition str_wire (s : string) : list Z :=
  le_bytes 2 (Z.of_nat (String.length s) + 1) ++ str_bytes s ++ [0].

Lemma writes_string s : str_ok s -> writes (put_string s) (str_wire s).
Proof.
  intros [_ Hl]. unfold put_string, addString, str_wire.
  rewrite (wrap_u_small 16 (Z.of_nat _)) by (unfold in_u; lia).
  rewrite (wrap_u_small 16) by (unfold in_u; lia).
  apply writes_seq; [apply writes_int; lia|].
  replace (Z.of_nat (String.length s) + 1) with (Z.of_nat (length (str_bytes s ++ [0])))
    by (rewrite length_app, length_str_bytes; simpl; lia).
  apply writes_raw.
Qed.

Lemma reads_string old s : str_ok s -> reads (get_string old) (str_wire s) s.
Proof.
  intros [Hnf Hsl] d pre post Hb Hs Hnz Hl Hp He. unfold str_wire in *.
  set (n := Z.of_nat (String.length s) + 1) in *.
  pose proof (length_le_bytes 2 n ltac:(lia)) as L2.
  assert (Z.of_nat (length (str_bytes s ++ [0])) = n) as Ln
    by (rewrite length_app, length_str_bytes; subst n; simpl; lia).
  assert (reads (get_int false 2 0) (le_bytes 2 n) n) as Rn
    by (apply reads_int; try lia; unfold in_int, in_u; lia).
  unfold get_string. generalize dependent (le_bytes 2 n). intros lb Hb Hs L2 Rn.
  rewrite (Rn d pre ((str_bytes s ++ [0]) ++ post));
    [|by rewrite Hb, <- ?app_assoc|rewrite !length_app in *; lia|done..].
  simpl. rewrite He, (proj2 (Z.eqb_neq n 0)) by lia. simpl.
  rewrite !length_app in Hs. rewrite length_app in Ln. simpl in Ln, Hs.
  rewrite add_i32_ok by (unfold INT32_MAX in *; lia). simpl.
  rewrite Z.gtb_ltb, (proj2 (Z.ltb_ge _ _)), andb_false_r by lia.
  set (d1 := des_set_pos _ _).
  assert (load d1 (Z.of_nat (length pre + length lb) + n - 1) 1 = Some [0]) as ->.
  { replace (_ + n - 1) with (Z.of_nat (length (pre ++ lb ++ str_bytes s)))
      by (rewrite !length_app; lia).
    apply (load_app d1 _ [0] post). subst d1. simpl. rewrite Hb, <- !app_assoc. done. }
  simpl. rewrite Hb. simpl.
  rewrite Nat2Z.id, <- !app_assoc, app_assoc, <- length_app, drop_app_length. simpl.
  rewrite scan_cstr_app by done. simpl. rewrite bytes_str_bytes.
  unfold d1, des_set_pos. simpl. do 3 f_equal. rewrite !length_app. simpl. lia.
Qed.

Lemma codec_string old s : str_ok s -> codec (put_string s) (get_string old) (str_wire s) s.
Proof. intros. split; [by apply writes_string | by apply reads_string]. Qed.

(** ** Decoding untrusted bytes *)

(** A deserializer on a non-empty buffer of the declared size, or on none. *)
Definition des_ok (d : CFdbSimpleDeserializer) : Prop :=
  0 <= d_mPos d /\
  match d_mBuffer d with
  | None => d_mError d = true
  | Some buf =>
      Forall (in_u 8) buf /\ d_mSize d = Z.of_nat (length buf) /\
      0 < d_mSize d <= INT32_MAX - 65536 /\ d_mPos d <= d_mSize d
  end.

(** Decoding only moves forward and never clears the error flag. *)
Record des_ext (d d' : CFdbSimpleDeserializer) : Prop := {
  de_buffer : d_mBuffer d' = d_mBuffer d;
  de_size : d_mSize d' = d_mSize d;
  de_le : d_le d' = d_le d;
  de_pos : d_mPos d <= d_mPos d';
  de_sticky : d_mError d = true -> d_mError d' = true }.

(** [m] never reads outside the buffer, whatever the bytes are. *)
Definition des_safe {A} (m : DesM A) : Prop := forall d, des_ok d ->
  exists y d', m d = Some (y, d') /\ des_ok d' /\ des_ext d d'.

#[export] Instance des_ext_preorder : PreOrder des_ext.
Proof.
  split; [by split|]. intros a b c [] []. split; try congruence; try lia. eauto.
Qed.

(** The computation left the deserializer as it was. *)
Ltac des_stay := eexists _, _; split; [reflexivity|split; [assumption|reflexivity]].

Lemma des_safe_ret {A} (y : A) : des_safe (mret y).
Proof. intros d Hd. des_stay. Qed.

Lemma des_safe_bind {A B} (m : DesM A) (k : A -> DesM B) :
  des_safe m -> (forall y, des_safe (k y)) -> des_safe (m ≫= k).
Proof.
  intros Hm Hk d Hd. destruct (Hm d Hd) as (y & d1 & E1 & O1 & X1).
  destruct (Hk y d1 O1) as (z & d2 & E2 & O2 & X2).
  exists z, d2. unfold mbind, DesM_bind. rewrite E1. split; [done|]. split; [done|].
  by etrans.
Qed.

Lemma des_safe_error : des_safe des_error.
Proof. intros d Hd. des_stay. Qed.

Lemma des_ok_set_error d : des_ok d -> des_ok (des_set_error d true).
Proof. intros [? H]. split; [done|]. simpl. by destruct (d_mBuffer d). Qed.

Lemma des_ext_set_error d : des_ext d (des_set_error d true).
Proof. by split. Qed.

(** The computation raised the error flag. *)
Ltac des_fail :=
  eexists _, _; split; [reflexivity|eauto using des_ok_set_error, des_ext_set_error].

Lemma des_safe_raise : des_safe des_raise.
Proof. intros d Hd. des_fail. Qed.

(** The state of a deserializer that has not failed. *)
Lemma des_ok_alive d : des_ok d -> d_mError d = false ->
  exists buf, d_mBuffer d = Some buf /\ Forall (in_u 8) buf /\
    d_mSize d = Z.of_nat (length buf) /\ 0 < d_mSize d <= INT32_MAX - 65536 /\ 0 <= d_mPos d <= d_mSize d.
Proof. intros [? H] E. destruct (d_mBuffer d) as [buf|]; [|congruence]. exists buf. destruct H as (? & ? & ? & ?).
  repeat split; (done || lia). Qed.

Lemma load_in d buf pos n :
  d_mBuffer d = Some buf -> 0 <= pos -> 0 <= n -> pos + n <= Z.of_nat (length buf) ->
  load d pos n = Some (take (Z.to_nat n) (drop (Z.to_nat pos) buf)).
Proof.
  intros E ? ? ?. unfold load. rewrite E.
  by rewrite !(proj2 (Z.leb_le _ _)) by lia.
Qed.

(** Advancing inside the buffer. *)
Lemma des_advance d buf fin :
  d_mBuffer d = Some buf -> des_ok d -> d_mPos d <= fin <= d_mSize d ->
  des_ok (des_set_pos d fin) /\ des_ext d (des_set_pos d fin).
Proof.
  intros E [? H] Hf. rewrite E in H. split.
  - split; simpl; [lia|]. rewrite E. destruct H as (? & ? & ? & ?). repeat split; (done || lia).
  - split; simpl; try done; lia.
Qed.

Lemma des_safe_int sg n old : 0 < n <= 65536 -> des_safe (get_int sg n old).
Proof.
  intros Hn d Hd. unfold get_int, retrieveBasicData. destruct (d_mError d) eqn:Ee.
  { des_stay. }
  destruct (des_ok_alive d Hd Ee) as (buf & Eb & _ & Es & Hs & Hp). unfold INT32_MAX in *.
  rewrite add_i32_ok by (unfold INT32_MAX; lia). simpl.
  rewrite (proj2 (Z.eqb_neq (d_mSize d) 0)) by lia. simpl.
  rewrite Z.gtb_ltb. destruct (Z.ltb_spec (d_mSize d) (d_mPos d + n)).
  { des_fail. }
  rewrite (load_in d buf) by (done || lia). simpl.
  eexists _, _. split; [done|]. apply (des_advance d buf); (done || lia).
Qed.

Lemma des_safe_bool : des_safe get_bool.
Proof. apply des_safe_bind; [apply des_safe_int; lia | intros; apply des_safe_ret]. Qed.

(** A scalar read from a well-formed deserializer is a value of its type. *)
Lemma get_int_range n old d v d' :
  0 < n -> des_ok d -> in_u (8 * n) old -> get_int false n old d = Some (v, d') -> in_u (8 * n) v.
Proof.
  intros Hn [_ Hd] Ho. unfold get_int, retrieveBasicData, load.
  destruct (d_mError d); [intros [= <- _]; exact Ho|]. destruct (add_i32 _ _); [|done]. simpl.
  destruct (negb _ && (_ >? _)); [intros [= <- _]; exact Ho|]. destruct (d_mBuffer d) as [buf|]; [|done].
  destruct (_ && _) eqn:Hb; [|done]. intros [= <- _].
  assert (forall (le : bool) (p : list Z),
    (if le then if le then p else reverse p else reverse (if le then p else reverse p)) = p) as ->
    by (intros [] p; [done|apply reverse_involutive]).
  unfold in_u.
  destruct_bool_hyp. set (bs := take _ _).
  replace (8 * n) with (Z.of_nat (length bs) * 8)
    by (subst bs; rewrite length_take, length_drop; lia).
  apply little_endian_to_Z_bound; [lia|]. subst bs.
  apply Forall_take, Forall_drop. apply Hd.
Qed.

Lemma des_safe_string old : des_safe (get_string old).
Proof.
  intros d Hd. unfold get_string.
  destruct (des_safe_int false 2 0 ltac:(lia) d Hd) as (len & d1 & E1 & O1 & X1).
  assert (in_u 16 len) as Hlen 
    by (apply (get_int_range 2 0 d len d1); [lia|done|unfold in_u; lia|done]).
  unfold in_u in Hlen. rewrite E1. simpl.
  destruct (d_mError d1) eqn:Ee; [eexists _, _; eauto|]. simpl.
  destruct (Z.eqb_spec len 0); [eexists _, _; eauto|].
  destruct (des_ok_alive d1 O1 Ee) as (buf & Eb & _ & Es & Hs & Hp). unfold INT32_MAX in *.
  rewrite add_i32_ok by (unfold INT32_MAX; lia). simpl.
  rewrite (proj2 (Z.eqb_neq (d_mSize d1) 0)) by lia. simpl.
  assert (des_ok (des_set_error d1 true) /\ des_ext d (des_set_error d1 true)) as Hraise.
  { split; [auto using des_ok_set_error|]. etrans; [done|]. apply des_ext_set_error. }
  rewrite Z.gtb_ltb. destruct (Z.ltb_spec (d_mSize d1) (d_mPos d1 + len)); [eexists _, _; eauto|].
  rewrite (load_in d1 buf) by (done || lia). simpl. case_bool_decide as Hz; [|eexists _, _; eauto].
  simpl. rewrite Eb. simpl.
  destruct (scan_cstr_found (drop (Z.to_nat (d_mPos d1)) buf) (Z.to_nat (len - 1))) as (bs & -> & _).
  { rewrite lookup_drop. apply (f_equal (.!! 0%nat)) in Hz. simpl in Hz.
    rewrite lookup_take_lt, lookup_drop in Hz by lia. rewrite <- Hz. f_equal. lia. }
  simpl. eexists _, _. split; [done|].
  destruct (des_advance d1 buf (d_mPos d1 + len)) as [? ?]; try (done || lia).
  split; [done|]. by etrans.
Qed.

(** ** The interface of a parcelable class *)

(** What a message class promises: [p_wire] is its wire format, [p_wf] are the
    values the format can carry, [p_eq] identifies objects that differ only in members the class does not
    transmit (an optional member whose presence bit is clear). *)
Class ParcelableLaws (T : Type) `{Parcelable T} := {
  p_wire : T -> list Z;
  p_wf : T -> Prop;
  p_eq : T -> T -> Prop;
  p_codec : forall (I : Indet) (x old : T), p_wf x ->
    exists y, p_eq x y /\ codec (serialize x) (deserialize old) (p_wire x) y;
  p_safe : forall (I : Indet) (old : T), des_safe (deserialize old) }.

(** Arrays of scalars and strings use the element's own operators. *)
#[export] Instance string_parcelable : Parcelable string := {|
  p_default := fun _ => EmptyString;
  p_serialize := put_string;
  p_deserialize := fun _ => get_string |}.

#[export] Program Instance string_laws : ParcelableLaws string := {|
  p_wire := str_wire; p_wf := str_ok; p_eq := eq |}.
Next Obligation. intros I x old H. exists x. split; [done|]. by apply codec_string. Qed.
Next Obligation. intros. apply des_safe_string. Qed.

#[export] Instance array_parcelable {T} `{Parcelable T} : Parcelable (list T) := {|
  p_default := fun _ => [];
  p_serialize := array_serialize;
  p_deserialize := fun I => array_deserialize |}.

Lemma reads_error : reads des_error [] false.
Proof.
  intros d pre post _ _ _ _ Hp He. unfold des_error. rewrite He. do 2 f_equal.
  destruct d; simpl in *. unfold des_set_pos; simpl. f_equal. lia.
Qed.

Section Arrays.
Context {T : Type} `{ParcelableLaws T} {I : Indet}.

Definition each_wire (xs : list T) : list Z := mjoin (p_wire <$> xs).
Definition array_wire (xs : list T) : list Z :=
le_bytes 2 (Z.of_nat (length xs)) ++ each_wire xs.

(** Element by element, into whatever [resize] left in the pool. *)
Lemma each_codec (xs pool : list T) :
Forall p_wf xs -> length pool = length xs ->
exists ys, Forall2 p_eq xs ys /\ codec (ser_each xs) (des_each pool) (each_wire xs) ys.
Proof.
intros Hwf. revert pool. induction Hwf as [|x xs Hx Hwf IH]; intros [|o pool] Hl; try done.
{ exists []. split; [constructor|]. apply codec_skip. }
destruct (p_codec I x o Hx) as (y & Ey & W1 & R1).
destruct (IH pool) as (ys & Eys & W2 & R2); [simpl in Hl; lia|].
exists (y :: ys). split; [by constructor|]. split; [by apply writes_seq|].
apply (reads_bind _ _ [] (each_wire (x :: xs)) _ _ reads_error).
apply (reads_bind _ _ (p_wire x) (each_wire xs) _ _ R1).
rewrite <- (app_nil_r (each_wire xs)). apply (reads_bind _ _ _ _ _ _ R2), reads_ret.
Qed.

Lemma length_vec_resize n (pool : list T) : length (vec_resize n pool) = n.
Proof. unfold vec_resize. rewrite length_app, length_take, length_replicate. lia. Qed.

Lemma array_codec (xs pool : list T) :
Forall p_wf xs -> Z.of_nat (length xs) <= 65535 ->
exists ys, Forall2 p_eq xs ys /\
  codec (array_serialize xs) (array_deserialize pool) (array_wire xs) ys.
Proof.
intros Hwf Hl.
destruct (each_codec xs (vec_resize (length xs) pool) Hwf) as (ys & Ey & W2 & R2);
  [apply length_vec_resize|].
exists ys. split; [done|]. unfold array_serialize, array_deserialize, array_wire.
rewrite wrap_u_small by (unfold in_u; lia).
split; [apply writes_seq; [apply writes_int; lia|done]|].
apply (reads_bind _ _ [] (_ ++ _) _ _ reads_error).
eapply reads_bind; [apply reads_int; [lia|lia|unfold in_int, in_u; lia]|]. by rewrite Nat2Z.id.
Qed.

Lemma each_safe (pool : list T) : des_safe (des_each pool).
Proof.
induction pool as [|x pool IH]; simpl; [apply des_safe_ret|].
apply des_safe_bind; [apply des_safe_error|]. intros []; [apply des_safe_ret|].
apply des_safe_bind; [apply p_safe|]. intros y.
apply des_safe_bind; [apply IH|]. intros. apply des_safe_ret.
Qed.

Lemma array_safe (pool : list T) : des_safe (array_deserialize pool).
Proof.
apply des_safe_bind; [apply des_safe_error|]. intros []; [apply des_safe_ret|].
apply des_safe_bind; [apply des_safe_int; lia|]. intros. apply each_safe.
Qed.
End Arrays.

(** The arrays the wire format can carry: the count is 16 bits wide. *)
#[export] Program Instance array_laws {T} `{ParcelableLaws T} : ParcelableLaws (list T) := {|
  p_wire := array_wire;
  p_wf := fun xs => Forall p_wf xs /\ Z.of_nat (length xs) <= 65535;
  p_eq := Forall2 p_eq |}.
Next Obligation. intros T ? ? I x old [? ?]. by apply array_codec. Qed.
Next Obligation. intros. apply array_safe. Qed.

(** ** Building and parsing a message *)

Lemma ser_reset_ok s :
  Z.of_nat (length (mScratchCache s)) = FDB_SCRATCH_CACHE_SIZE -> ser_ok (ser_reset s).
Proof. intros E. unfold FDB_SCRATCH_CACHE_SIZE in *. split; simpl; try done; lia. Qed.

(** [builder_build] produces exactly the wire format of a well-formed message. *)
Lemma build_wire {T} `{ParcelableLaws T} (s : CFdbSimpleSerializer) (x : T) :
  Z.of_nat (length (mScratchCache s)) = FDB_SCRATCH_CACHE_SIZE -> p_wf x ->
  Z.of_nat (length (p_wire x)) <= SER_LIMIT ->
  builder_build s x = Some (p_wire x, Z.of_nat (length (p_wire x))).
Proof.
  intros Hs Hwf Hl. destruct (p_codec 0 x x Hwf) as (y & _ & W & _).
  destruct (W (ser_reset s) (ser_reset_ok s Hs)) as (s' & E & O & C & _ & P); [simpl; lia|].
  unfold builder_build. rewrite E. simpl. rewrite C. unfold bufferSize. rewrite P. simpl.
  rewrite wrap_s_small; [done|lia|]. unfold in_s, SER_LIMIT in *. lia.
Qed.

(** [parser_parse] recovers the message from its wire format, on a host of
    either byte order, whatever the object held before and whatever follows. *)
Lemma parse_wire_in {T} `{ParcelableLaws T} (I : Indet) (le : bool) (x old : T) (more : list Z) :
  p_wf x -> 0 < Z.of_nat (length (p_wire x)) <= INT32_MAX - 65536 ->
  exists y, p_eq x y /\
    parser_parse le (Some (p_wire x ++ more)) (Z.of_nat (length (p_wire x))) old = Some (y, true).
Proof.
  intros Hwf Hl. destruct (p_codec I x old Hwf) as (y & Ey & _ & R). exists y. split; [done|].
  unfold parser_parse.
  rewrite (R (deserializer_new le (Some (p_wire x ++ more)) (Z.of_nat (length (p_wire x)))) [] more); simpl;
    try done; try lia.
Qed.

Lemma parse_wire {T} `{ParcelableLaws T} (I : Indet) (le : bool) (x old : T) :
  p_wf x -> 0 < Z.of_nat (length (p_wire x)) <= INT32_MAX - 65536 ->
  exists y, p_eq x y /\
    parser_parse le (Some (p_wire x)) (Z.of_nat (length (p_wire x))) old = Some (y, true).
Proof.
  intros Hwf Hl. destruct (parse_wire_in I le x old [] Hwf Hl) as (y & Ey & E).
  rewrite app_nil_r in E. by exists y.
Qed.

(** Parsing any bytes terminates inside the buffer. *)
Lemma parse_safe {T} `{ParcelableLaws T} (I : Indet) (old : T) (le : bool) (buf : list Z) :
  Forall (in_u 8) buf -> 0 < Z.of_nat (length buf) <= INT32_MAX - 65536 ->
  exists y ok, parser_parse le (Some buf) (Z.of_nat (length buf)) old = Some (y, ok).
Proof.
  intros Hb Hl. unfold parser_parse.
  destruct (p_safe I old (deserializer_new le (Some buf) (Z.of_nat (length buf))))
    as (y & d' & -> & _); [|by eexists _, _].
  split; simpl; [lia|]. repeat split; (done || lia).
Qed.
