(* ===== verification/ByteArray.v ===== *)
(** The byte-array parcelables [CFdbByteArray], [CFdbByteArrayExt] and the array
    element [abool] of src/public/fdbus/CFdbSimpleSerializer.h: round trips, and
    the inputs on which their decoders leave the buffer or accept a truncated
    payload. *)
From S2P Require Import Prelude Serializer Codec.

(** ** [CFdbByteArray<SIZE>] *)

(** [SIZE] is the template argument; the member array has that length. *)
Record CFdbByteArray := mkByteArray { ba_SIZE : Z; ba_mSize : Z; ba_mBuffer : list Z }.

Definition CFdbByteArray_new (SIZE size : Z) (junk : list Z) : CFdbByteArray :=
  mkByteArray SIZE (if size <? SIZE then size else SIZE) junk.

(** [size()] is the capacity; [size(n)] sets the number of bytes in use. *)
Definition CFdbByteArray_size (a : CFdbByteArray) : Z := ba_SIZE a.
Definition CFdbByteArray_set_size (a : CFdbByteArray) (size : Z) : CFdbByteArray :=
  mkByteArray (ba_SIZE a) size (ba_mBuffer a).

Definition CFdbByteArray_serialize (a : CFdbByteArray) : SerM :=
  put_int 4 (ba_mSize a) ;;; addRawData (ba_mBuffer a) (ba_mSize a).

(** Bytes copied to the front of a block; [None] when they do not fit. *)
Definition copy_into (blk bs : list Z) : option (list Z) :=
  if (length bs <=? length blk)%nat then Some (bs ++ drop (length bs) blk) else None.

Definition retrieve_into (blk : list Z) (size : Z) : DesM (list Z) := fun d =>
  '(r, d') ← retrieveRawData size d;
  match r with
  | Some bs => blk' ← copy_into blk bs; Some (blk', d')
  | None => Some (blk, d')
  end.

Definition CFdbByteArray_deserialize (a : CFdbByteArray) : DesM CFdbByteArray :=
  e ← des_error;
  if e : bool then mret a else
  size ← get_int true 4 0;
  if size <=? ba_SIZE a then
    buf ← retrieve_into (ba_mBuffer a) size;
    mret (mkByteArray (ba_SIZE a) size buf)
  else
    _ ← des_raise;
    mret a.

(** ** [CFdbByteArrayExt] *)

(** [bx_mBuffer] is the caller's memory, [bx_mVBuffer] the block the decoder
    allocated. *)
Record CFdbByteArrayExt := mkByteArrayExt {
  bx_mSize : Z; bx_mBuffer : option (list Z); bx_mVBuffer : option (list Z) }.

Definition CFdbByteArrayExt_new : CFdbByteArrayExt := mkByteArrayExt 0 None None.
Definition CFdbByteArrayExt_of (size : Z) (buffer : option (list Z)) : CFdbByteArrayExt :=
  mkByteArrayExt size buffer None.

(** [vbuffer(remove)]: the decoded block, given up when [remove] is set. *)
Definition CFdbByteArrayExt_vbuffer (a : CFdbByteArrayExt) (remove : bool)
  : option (list Z) * CFdbByteArrayExt :=
  (bx_mVBuffer a,
   if remove then mkByteArrayExt (bx_mSize a) (bx_mBuffer a) None else a).

Definition CFdbByteArrayExt_serialize (a : CFdbByteArrayExt) : SerM :=
  if (bx_mSize a =? 0) || (match bx_mBuffer a with Some _ => true | None => false end) then
    put_int 4 (bx_mSize a) ;;;
    match bx_mBuffer a with
    | Some buf => addRawData buf (bx_mSize a)
    | None => ser_skip
    end
  else ser_skip.

(** [new uint8_t[size]] throws for a negative size, and the handler raises the
    error flag. *)
Definition CFdbByteArrayExt_deserialize (a : CFdbByteArrayExt) : DesM CFdbByteArrayExt :=
  e ← des_error;
  if e : bool then mret a else
  size ← get_int true 4 0;
  if size =? 0 then mret a else
  match bx_mVBuffer a with
  | Some blk =>
      blk' ← retrieve_into blk size;
      mret (mkByteArrayExt (bx_mSize a) (bx_mBuffer a) (Some blk'))
  | None =>
      if size <? 0 then _ ← des_raise; mret a
      else
        blk' ← retrieve_into (malloc size) size;
        mret (mkByteArrayExt size (bx_mBuffer a) (Some blk'))
  end.

(** ** [abool] *)

Definition abool_serialize (b : bool) : SerM := put_int 1 (if b then 1 else 0).
Definition abool_deserialize (b : bool) : DesM bool :=
  v ← get_int false 1 0; mret (negb (v =? 0)).

#[export] Instance abool_parcelable : Parcelable bool := {|
  p_default := fun I => negb (indet =? 0);
  p_serialize := abool_serialize;
  p_deserialize := fun _ => abool_deserialize |}.

#[export] Program Instance abool_laws : ParcelableLaws bool := {|
  p_wire := bool_wire; p_wf := fun _ => True; p_eq := eq |}.
Next Obligation. intros I x old _. exists x. split; [done|]. apply codec_bool. Qed.
Next Obligation. intros. apply des_safe_bool. Qed.

(** ** Round trips *)

Lemma reads_raw (bs : list Z) : reads (retrieveRawData (Z.of_nat (length bs))) bs (Some bs).
Proof.
  intros d pre post Hb Hs Hnz Hl Hp He. unfold retrieveRawData. rewrite Hp.
  rewrite !length_app in Hs. rewrite add_i32_ok by lia. simpl.
  rewrite Z.gtb_ltb, (proj2 (Z.ltb_ge _ _)), andb_false_r by lia.
  rewrite (load_app d pre bs post Hb). simpl. do 3 f_equal. lia.
Qed.

Lemma reads_into (blk bs : list Z) :
  (length bs <= length blk)%nat ->
  reads (retrieve_into blk (Z.of_nat (length bs))) bs (bs ++ drop (length bs) blk).
Proof.
  intros Hle d pre post ? ? ? ? ? ?. unfold retrieve_into.
  rewrite (reads_raw bs d pre post) by done. simpl.
  unfold copy_into. rewrite (proj2 (Nat.leb_le _ _) Hle). done.
Qed.

(** The bytes in use of a decoded array are the bytes in use of the source. *)
Lemma CFdbByteArray_codec (a old : CFdbByteArray) (used : list Z) :
  ba_mSize a = Z.of_nat (length used) -> used = take (length used) (ba_mBuffer a) ->
  Z.of_nat (length used) <= ba_SIZE old <= INT32_MAX ->
  Z.of_nat (length (ba_mBuffer old)) = ba_SIZE old ->
  codec (CFdbByteArray_serialize a) (CFdbByteArray_deserialize old)
    (le_bytes 4 (ba_mSize a) ++ used)
    (mkByteArray (ba_SIZE old) (ba_mSize a) (used ++ drop (length used) (ba_mBuffer old))).
Proof.
  intros Ha Hu Hle Hb. unfold CFdbByteArray_serialize, CFdbByteArray_deserialize, INT32_MAX in *.
  split.
  - apply writes_seq; [apply writes_int; lia|].
    intros s Hs Hl. destruct (writes_raw used s Hs Hl) as (s' & E & R). exists s'. split; [|done].
    rewrite <- E. unfold addRawData. rewrite Ha.
    assert (length used <= length (ba_mBuffer a))%nat as Hl'.
    { rewrite Hu at 1. rewrite length_take. lia. }
    rewrite (proj2 (Z.leb_le _ (Z.of_nat (length (ba_mBuffer a))))) by lia.
    rewrite Z.leb_refl, !Nat2Z.id, <- Hu, firstn_all. done.
  - apply (reads_bind _ _ [] (_ ++ _) _ _ reads_error).
    apply (reads_bind _ _ (le_bytes 4 (ba_mSize a)) used (ba_mSize a));
      [apply reads_int; [lia|lia|unfold in_int, in_s; lia]|].
    rewrite (proj2 (Z.leb_le _ _)) by lia. rewrite Ha.
    rewrite <- (app_nil_r used) at 2. apply (reads_bind _ _ used [] (used ++ drop (length used) (ba_mBuffer old)));
      [apply reads_into; lia|]. apply reads_ret.
Qed.

(** ** Malformed lengths *)

Definition len_wire (n : Z) : list Z := le_bytes 4 n.

Lemma length_len_wire n : Z.of_nat (length (len_wire n)) = 4.
Proof. by apply length_le_bytes. Qed.

Lemma get_len (le : bool) (n : Z) (rest : list Z) :
  in_s 32 n -> 4 + Z.of_nat (length rest) <= INT32_MAX - 65536 ->
  get_int true 4 0 (deserializer_new le (Some (len_wire n ++ rest)) (4 + Z.of_nat (length rest)))
  = Some (n, mkDeserializer (Some (len_wire n ++ rest)) (4 + Z.of_nat (length rest)) 4 false le).
Proof.
  intros Hn Hl. pose proof (length_len_wire n) as L.
  rewrite (reads_int true 4 0 n ltac:(lia) ltac:(lia) Hn
    (deserializer_new le _ _) [] rest); simpl; rewrite ?length_app; try done; try lia.
Qed.

(** The state of the decoders right after the length prefix. *)
Definition after_len (le : bool) (n : Z) (rest : list Z) : CFdbSimpleDeserializer :=
  mkDeserializer (Some (len_wire n ++ rest)) (4 + Z.of_nat (length rest)) 4 false le.

Lemma retrieve_negative le n m rest :
  in_s 32 n -> n < 0 -> 0 <= Z.of_nat (length rest) -> retrieveRawData n (after_len le m rest) = None.
Proof.
  intros [? ?] Hn _. unfold retrieveRawData, after_len. simpl.
  unfold add_i32, INT32_MAX. rewrite !(proj2 (Z.leb_le _ _)) by lia. simpl.
  rewrite (proj2 (Z.eqb_neq _ 0)) by lia. simpl.
  rewrite Z.gtb_ltb, (proj2 (Z.ltb_ge _ _)) by lia. unfold load. simpl.
  by rewrite (proj2 (Z.leb_gt 0 n)) by lia.
Qed.

Lemma retrieve_short le n m rest :
  4 + n <= INT32_MAX -> Z.of_nat (length rest) < n ->
  retrieveRawData n (after_len le m rest) = Some (None, after_len le m rest).
Proof.
  intros H1 H2. unfold retrieveRawData, after_len. simpl. rewrite add_i32_ok by lia. simpl.
  rewrite (proj2 (Z.eqb_neq _ 0)) by lia. simpl.
  by rewrite Z.gtb_ltb, (proj2 (Z.ltb_lt _ _)) by lia.
Qed.

Definition ba_parse (le : bool) (a : CFdbByteArray) (buf : list Z)
  : option (CFdbByteArray * CFdbSimpleDeserializer) :=
  CFdbByteArray_deserialize a (deserializer_new le (Some buf) (Z.of_nat (length buf))).

Definition bx_parse (le : bool) (a : CFdbByteArrayExt) (buf : list Z)
  : option (CFdbByteArrayExt * CFdbSimpleDeserializer) :=
  CFdbByteArrayExt_deserialize a (deserializer_new le (Some buf) (Z.of_nat (length buf))).

Lemma ba_parse_len le a n rest :
  in_s 32 n -> 4 + Z.of_nat (length rest) <= INT32_MAX - 65536 ->
  ba_parse le a (len_wire n ++ rest) =
    (if n <=? ba_SIZE a then
       buf ← retrieve_into (ba_mBuffer a) n;
       mret (mkByteArray (ba_SIZE a) n buf)
     else _ ← des_raise; mret a) (after_len le n rest).
Proof.
  intros Hn Hl. unfold ba_parse, CFdbByteArray_deserialize.
  rewrite length_app, Nat2Z.inj_add, length_len_wire.
  unfold mbind, DesM_bind, des_error.
  change (d_mError (deserializer_new _ _ _)) with false. cbv iota beta. by rewrite get_len.
Qed.

Lemma bx_parse_len le a n rest :
  in_s 32 n -> n <> 0 -> 4 + Z.of_nat (length rest) <= INT32_MAX - 65536 ->
  bx_parse le a (len_wire n ++ rest) =
    (match bx_mVBuffer a with
     | Some blk =>
         blk' ← retrieve_into blk n;
         mret (mkByteArrayExt (bx_mSize a) (bx_mBuffer a) (Some blk'))
     | None =>
         if n <? 0 then _ ← des_raise; mret a
         else
           blk' ← retrieve_into (malloc n) n;
           mret (mkByteArrayExt n (bx_mBuffer a) (Some blk'))
     end) (after_len le n rest).
Proof.
  intros Hn H0 Hl. unfold bx_parse, CFdbByteArrayExt_deserialize.
  rewrite length_app, Nat2Z.inj_add, length_len_wire.
  unfold mbind, DesM_bind, des_error.
  change (d_mError (deserializer_new _ _ _)) with false. cbv iota beta. rewrite get_len by done.
  by rewrite (proj2 (Z.eqb_neq n 0)) by done.
Qed.

(** A received negative length passes the [size <= SIZE] test and reaches
    [memcpy] with a negative count: the decoder of a byte array has undefined
    behaviour on such a payload. *)
Theorem byte_array_negative_length (le : bool) (a : CFdbByteArray) (n : Z) (rest : list Z) :
  0 <= ba_SIZE a -> in_s 32 n -> n < 0 -> 4 + Z.of_nat (length rest) <= INT32_MAX - 65536 ->
  ba_parse le a (len_wire n ++ rest) = None.
Proof.
  intros Ha Hn Hneg Hl. rewrite ba_parse_len by done.
  rewrite (proj2 (Z.leb_le _ _)) by lia.
  unfold mbind, DesM_bind, retrieve_into. rewrite retrieve_negative by (done || lia). done.
Qed.

Lemma byte_array_negative_length_witness :
  ba_parse true (mkByteArray 4 4 [0; 0; 0; 0]) (len_wire (-1) ++ [7]) = None.
Proof.
  apply byte_array_negative_length; [by simpl|unfold in_s; lia|lia|unfold INT32_MAX; simpl; lia].
Defined.

(** A payload that announces more bytes than it carries is accepted: the
    result of [retrieveRawData] is ignored, so the decoder reports no error and
    leaves the stale bytes of the object under the announced size. *)
Theorem byte_array_truncated_accepted (le : bool) (a : CFdbByteArray) (n : Z) (rest : list Z) :
  in_s 32 n -> n <= ba_SIZE a -> 4 + n <= INT32_MAX -> Z.of_nat (length rest) < n ->
  4 + Z.of_nat (length rest) <= INT32_MAX - 65536 ->
  exists d, ba_parse le a (len_wire n ++ rest) =
              Some (mkByteArray (ba_SIZE a) n (ba_mBuffer a), d) /\ d_mError d = false.
Proof.
  intros Hn HS Hmax Hshort Hl. rewrite ba_parse_len by done.
  rewrite (proj2 (Z.leb_le _ _)) by lia.
  unfold mbind, DesM_bind, retrieve_into. rewrite retrieve_short by done. simpl. eauto.
Qed.

Lemma byte_array_truncated_accepted_witness :
  exists d, ba_parse true (mkByteArray 4 4 [9; 9; 9; 9]) (len_wire 3 ++ [7]) =
              Some (mkByteArray 4 3 [9; 9; 9; 9], d) /\ d_mError d = false.
Proof.
  apply (byte_array_truncated_accepted true (mkByteArray 4 4 [9; 9; 9; 9]) 3 [7]);
    unfold in_s, INT32_MAX; simpl; lia.
Defined.

(** Decoding twice into one [CFdbByteArrayExt] copies the second payload
    into the block allocated for the first: a longer second payload writes past
    its end. *)
Theorem byte_array_ext_reuse_overflow (le : bool) (a : CFdbByteArrayExt) (blk : list Z)
    (rest : list Z) :
  bx_mVBuffer a = Some blk -> (length blk < length rest)%nat ->
  4 + Z.of_nat (length rest) <= INT32_MAX - 65536 ->
  bx_parse le a (len_wire (Z.of_nat (length rest)) ++ rest) = None.
Proof.
  intros Hb Hlt Hl. unfold INT32_MAX in Hl.
  rewrite bx_parse_len by (unfold in_s, INT32_MAX; lia). rewrite Hb.
  unfold mbind, DesM_bind, retrieve_into.
  rewrite (reads_raw rest (after_len le _ rest) (len_wire (Z.of_nat (length rest))) []); simpl;
    rewrite ?app_nil_r, ?length_app; try done; try (unfold INT32_MAX; lia);
    try (rewrite ?Nat2Z.inj_add, length_len_wire; lia).
  unfold copy_into. rewrite (proj2 (Nat.leb_gt _ _)) by done. done.
Qed.

Lemma byte_array_ext_reuse_overflow_witness :
  bx_parse true (mkByteArrayExt 1 None (Some [5])) (len_wire 3 ++ [7; 8; 9]) = None.
Proof.
  apply (byte_array_ext_reuse_overflow true (mkByteArrayExt 1 None (Some [5])) [5] [7; 8; 9]);
    unfold INT32_MAX; simpl; (reflexivity || lia).
Defined.
