(* ===== verification/CommonDefs.v ===== *)
(** Shared constants, enumerations and the event/instance code arithmetic of
    src/public/fdbus/common_defs.h, src/public/fdbus/CFdbMessage.h,
    src/public/fdbus/CSocketImp.h and src/public/fdbus/CBaseNameProxy.h. *)
From S2P Require Import Prelude.

(** ** Enumerations *)

(** A C++ enumeration holds any value of its underlying type: the constructor
    [_raw] stands for a value that is no enumerator, which a cast can produce. *)
Class CEnum (E : Type) := { e_val : E -> Z; e_of : Z -> E }.

Arguments e_val : simpl never.
Arguments e_of : simpl never.

(** An enumeration object in canonical form that fits one unsigned byte. *)
Definition enum_ok {E} `{CEnum E} (e : E) : Prop := e_of (e_val e) = e /\ in_u 8 (e_val e).

Inductive EFdbSocketType :=
  | FDB_SOCKET_TCP | FDB_SOCKET_UDP | FDB_SOCKET_IPC | FDB_SOCKET_SVC | FDB_SOCKET_MAX
  | FDB_SOCKET_raw (v : Z).

#[export] Instance EFdbSocketType_dec : EqDecision EFdbSocketType.
Proof. solve_decision. Defined.

#[export] Instance EFdbSocketType_enum : CEnum EFdbSocketType := {|
  e_val t := match t with
    | FDB_SOCKET_TCP => 0 | FDB_SOCKET_UDP => 1 | FDB_SOCKET_IPC => 2
    | FDB_SOCKET_SVC => 3 | FDB_SOCKET_MAX => 4 | FDB_SOCKET_raw v => v end;
  e_of v := match v with
    | 0 => FDB_SOCKET_TCP | 1 => FDB_SOCKET_UDP | 2 => FDB_SOCKET_IPC
    | 3 => FDB_SOCKET_SVC | 4 => FDB_SOCKET_MAX | _ => FDB_SOCKET_raw v end |}.

Inductive EFdbMessageType :=
  | FDB_MT_UNKNOWN | FDB_MT_REQUEST | FDB_MT_REPLY | FDB_MT_SUBSCRIBE_REQ | FDB_MT_BROADCAST
  | FDB_MT_SIDEBAND_REQUEST | FDB_MT_SIDEBAND_REPLY | FDB_MT_STATUS | FDB_MT_GET_EVENT
  | FDB_MT_RETURN_EVENT | FDB_MT_PUBLISH | FDB_MT_SET_EVENT
  | FDB_MT_raw (v : Z).

#[export] Instance EFdbMessageType_dec : EqDecision EFdbMessageType.
Proof. solve_decision. Defined.

#[export] Instance EFdbMessageType_enum : CEnum EFdbMessageType := {|
  e_val t := match t with
    | FDB_MT_UNKNOWN => 0 | FDB_MT_REQUEST => 1 | FDB_MT_REPLY => 2
    | FDB_MT_SUBSCRIBE_REQ => 3 | FDB_MT_BROADCAST => 4 | FDB_MT_SIDEBAND_REQUEST => 5
    | FDB_MT_SIDEBAND_REPLY => 6 | FDB_MT_STATUS => 7 | FDB_MT_GET_EVENT => 8
    | FDB_MT_RETURN_EVENT => 9 | FDB_MT_PUBLISH => 10 | FDB_MT_SET_EVENT => 11
    | FDB_MT_raw v => v end;
  e_of v := match v with
    | 0 => FDB_MT_UNKNOWN | 1 => FDB_MT_REQUEST | 2 => FDB_MT_REPLY
    | 3 => FDB_MT_SUBSCRIBE_REQ | 4 => FDB_MT_BROADCAST | 5 => FDB_MT_SIDEBAND_REQUEST
    | 6 => FDB_MT_SIDEBAND_REPLY | 7 => FDB_MT_STATUS | 8 => FDB_MT_GET_EVENT
    | 9 => FDB_MT_RETURN_EVENT | 10 => FDB_MT_PUBLISH | 11 => FDB_MT_SET_EVENT
    | _ => FDB_MT_raw v end |}.

Inductive EFdbQOS :=
  | FDB_QOS_LOCAL | FDB_QOS_RELIABLE | FDB_QOS_BEST_EFFORTS | FDB_QOS_SECURE_RELIABLE
  | FDB_QOS_SECURE_BEST_EFFORTS | FDB_QOS_TRY_SECURE_RELIABLE | FDB_QOS_TRY_SECURE_BEST_EFFORTS
  | FDB_QOS_INVALID | FDB_QOS_raw (v : Z).

#[export] Instance EFdbQOS_dec : EqDecision EFdbQOS.
Proof. solve_decision. Defined.

#[export] Instance EFdbQOS_enum : CEnum EFdbQOS := {|
  e_val t := match t with
    | FDB_QOS_LOCAL => 0 | FDB_QOS_RELIABLE => 1 | FDB_QOS_BEST_EFFORTS => 2
    | FDB_QOS_SECURE_RELIABLE => 3 | FDB_QOS_SECURE_BEST_EFFORTS => 4
    | FDB_QOS_TRY_SECURE_RELIABLE => 5 | FDB_QOS_TRY_SECURE_BEST_EFFORTS => 6
    | FDB_QOS_INVALID => 7 | FDB_QOS_raw v => v end;
  e_of v := match v with
    | 0 => FDB_QOS_LOCAL | 1 => FDB_QOS_RELIABLE | 2 => FDB_QOS_BEST_EFFORTS
    | 3 => FDB_QOS_SECURE_RELIABLE | 4 => FDB_QOS_SECURE_BEST_EFFORTS
    | 5 => FDB_QOS_TRY_SECURE_RELIABLE | 6 => FDB_QOS_TRY_SECURE_BEST_EFFORTS
    | 7 => FDB_QOS_INVALID | _ => FDB_QOS_raw v end |}.

Inductive FdbMsgDogStatus :=
  | FDB_DOG_ST_DIE | FDB_DOG_ST_OK | FDB_DOG_ST_NON_EXIST | FDB_DOG_ST_raw (v : Z).

#[export] Instance FdbMsgDogStatus_enum : CEnum FdbMsgDogStatus := {|
  e_val t := match t with
    | FDB_DOG_ST_DIE => -1 | FDB_DOG_ST_OK => 0 | FDB_DOG_ST_NON_EXIST => 1
    | FDB_DOG_ST_raw v => v end;
  e_of v := match v with
    | -1 => FDB_DOG_ST_DIE | 0 => FDB_DOG_ST_OK | 1 => FDB_DOG_ST_NON_EXIST
    | _ => FDB_DOG_ST_raw v end |}.

(** A watchdog status that fits its signed byte. *)
Definition dog_ok (s : FdbMsgDogStatus) : Prop := e_of (e_val s) = s /\ in_s 8 (e_val s).

(** The status codes the name server and the host server reply with. *)
Inductive FdbMsgStatusCode :=
  | FDB_ST_NON_EXIST | FDB_ST_ALREADY_EXIST | FDB_ST_MSG_DECODE_FAIL | FDB_ST_BAD_PARAMETER
  | FDB_ST_NOT_AVAILABLE | FDB_ST_NOT_IMPLEMENTED | FDB_ST_NO_RESOURCE.

(** The object id of the publisher a service subscription is addressed to. *)
Inductive SubscribeType :=
  | INTRA_NORMAL | INTRA_MONITOR | INTER_NORMAL | INTER_MONITOR | MORE_ADDRESS.

#[export] Instance SubscribeType_dec : EqDecision SubscribeType.
Proof. solve_decision. Defined.

(** ** Names and constants *)

Open Scope string_scope.
Definition FDB_NAME_SERVER_NAME : string := "org.fdbus.name-server".
Definition FDB_HOST_SERVER_NAME : string := "org.fdbus.host-server".
Definition FDB_LOCAL_HOST : string := "127.0.0.1".
Definition FDB_IP_ALL_INTERFACE : string := "0".
Definition FDB_URL_TCP : string := "tcp://".
Definition FDB_URL_TCPS : string := "tcps://".
Definition FDB_URL_UDP : string := "udp://".
Definition FDB_URL_UDPS : string := "udps://".
Definition FDB_URL_IPC : string := "ipc://".
Definition FDB_URL_SVC : string := "svc://".
Close Scope string_scope.

Definition FDB_INVALID_ID : Z := -1.
Definition FDB_INET_PORT_INVALID : Z := -2.
Definition FDB_INET_PORT_AUTO : Z := 0.
Definition FDB_EXPORTABLE_NODE_INTERNAL : Z := 0.
Definition FDB_EXPORTABLE_DOMAIN : Z := 1.
Definition FDB_EXPORTABLE_ANY : Z := INT32_MAX.
Definition FDB_DEFAULT_INSTANCE : Z := 0.

(** ** Socket addresses *)

Record CFdbSocketAddr := mkSocketAddr {
  sa_mUrl : string;
  sa_mType : EFdbSocketType;
  sa_mAddr : string;
  sa_mAddrDigit : Z;
  sa_mPort : Z;
  sa_mSecure : bool }.

Definition CFdbSocketAddr_new : CFdbSocketAddr :=
  mkSocketAddr EmptyString FDB_SOCKET_MAX EmptyString 0 FDB_INET_PORT_INVALID false.

(** ** Event and instance codes *)

(** An event code, and an instance id, is a 32-bit value: the group in the top
    byte, the event in the other 24 bits; all ones there is the whole group. *)
Definition FDB_EVENT_GROUP_SHIFT : Z := 24.
Definition FDB_EVENT_GROUP_BITS : Z := 0xFF.
Definition FDB_EVENT_GROUP_MASK : Z := 0xFF000000.
Definition FDB_EVENT_ID_MASK : Z := 0x00FFFFFF.
Definition FDB_EVENT_ALL_GROUPS : Z := FDB_EVENT_GROUP_BITS.
Definition FDB_AUTO_INSTANCE_BEGIN : Z := 0x00ff0000.
Definition FDB_AUTO_INSTANCE_END : Z := FDB_EVENT_ID_MASK - 1.

Definition fdbMakeEventCode (group event : Z) : Z :=
  i32 (Z.lor (Z.shiftl (Z.land (u32 group) FDB_EVENT_GROUP_BITS) FDB_EVENT_GROUP_SHIFT)
             (Z.land (u32 event) FDB_EVENT_ID_MASK)).
Definition fdbMakeGroupEvent (group : Z) : Z := fdbMakeEventCode group FDB_EVENT_ID_MASK.
Definition fdbMakeGroup (event : Z) : Z := i32 (Z.lor (u32 event) FDB_EVENT_ID_MASK).
Definition fdbMergeEventCode (group event : Z) : Z :=
  Z.lor (Z.land (u32 group) FDB_EVENT_GROUP_MASK) (u32 event).
Definition fdbIsGroup (event : Z) : bool := Z.land event FDB_EVENT_ID_MASK =? FDB_EVENT_ID_MASK.
Definition fdbEventGroup (event : Z) : Z :=
  u8 (Z.land (Z.shiftr (u32 event) FDB_EVENT_GROUP_SHIFT) FDB_EVENT_GROUP_BITS).
Definition fdbEventCode (event : Z) : Z := i32 (Z.land event FDB_EVENT_ID_MASK).
Definition fdbEventInGroup (event group : Z) : bool :=
  Z.land (u32 event) FDB_EVENT_GROUP_MASK
  =? Z.shiftl (Z.land (u32 group) FDB_EVENT_GROUP_BITS) FDB_EVENT_GROUP_SHIFT.
Definition fdbSameGroup (event1 event2 : Z) : bool :=
  Z.land (u32 event1) FDB_EVENT_GROUP_MASK =? Z.land (u32 event2) FDB_EVENT_GROUP_MASK.
Definition FDB_OBJECT_GET_CLASS (id : Z) : Z := Z.land id 0xFFFF.

(** Each macro in arithmetic form, for 32-bit codes. *)
Lemma land_id_mask x : Z.land x FDB_EVENT_ID_MASK = x mod 2 ^ 24.
Proof. change FDB_EVENT_ID_MASK with (Z.ones 24). by rewrite Z.land_ones. Qed.

Lemma land_group_bits x : Z.land x FDB_EVENT_GROUP_BITS = x mod 2 ^ 8.
Proof. change FDB_EVENT_GROUP_BITS with (Z.ones 8). by rewrite Z.land_ones. Qed.

Lemma u32_range x : 0 <= u32 x < 2 ^ 32.
Proof. apply wrap_u_range. lia. Qed.

Lemma land_group_mask x : Z.land (u32 x) FDB_EVENT_GROUP_MASK = 2 ^ 24 * (u32 x / 2 ^ 24).
Proof.
  pose proof (u32_range x). set (y := u32 x) in *.
  change FDB_EVENT_GROUP_MASK with (Z.shiftl (Z.ones 8) 24).
  rewrite (Z.mul_comm (2 ^ 24)), <- Z.shiftl_mul_pow2, <- Z.shiftr_div_pow2 by lia.
  apply Z.bits_inj'. intros n Hn. rewrite Z.land_spec.
  destruct (Z.lt_ge_cases n 24).
  { rewrite !(Z.shiftl_spec_low _ _ n) by lia. by rewrite andb_false_r. }
  rewrite !Z.shiftl_spec, Z.shiftr_spec, Z.testbit_ones by lia.
  replace (n - 24 + 24) with n by lia. rewrite (proj2 (Z.leb_le 0 (n - 24))) by lia. simpl.
  destruct (Z.ltb_spec (n - 24) 8); [by rewrite andb_true_r|].
  rewrite andb_false_r. symmetry. destruct (Z.eq_dec y 0) as [->|]; [apply Z.bits_0|].
  apply Z.bits_above_log2; [lia|]. apply Z.log2_lt_pow2; [lia|].
  apply Z.lt_le_trans with (2 ^ 32); [lia|]. apply Z.pow_le_mono_r; lia.
Qed.

Lemma lor_add_24 a b : 0 <= b < 2 ^ 24 -> Z.lor (2 ^ 24 * a) b = 2 ^ 24 * a + b.
Proof.
  intros H. rewrite <- Z.lxor_lor, <- Z.add_nocarry_lxor; try done;
    (apply Z.bits_inj'; intros n Hn; rewrite Z.land_spec, Z.bits_0, Z.mul_comm, <- Z.shiftl_mul_pow2 by lia;
     destruct (Z.lt_ge_cases n 24);
     [by rewrite Z.shiftl_spec_low by lia
     |destruct (Z.eq_dec b 0) as [->|]; [by rewrite Z.bits_0, andb_false_r|];
      rewrite (Z.bits_above_log2 b), andb_false_r; [done|lia|];
      apply Z.log2_lt_pow2; [lia|]; apply Z.lt_le_trans with (2 ^ 24); [lia|];
      apply Z.pow_le_mono_r; lia]).
Qed.

Lemma fdbMakeEventCode_arith g e :
  fdbMakeEventCode g e = i32 (2 ^ 24 * (g mod 2 ^ 8) + e mod 2 ^ 24).
Proof.
  unfold fdbMakeEventCode. rewrite land_group_bits, land_id_mask, Z.shiftl_mul_pow2 by done.
  unfold FDB_EVENT_GROUP_SHIFT. rewrite (Z.mul_comm _ (2 ^ 24)), lor_add_24 by (apply Z.mod_pos_bound; lia).
  unfold wrap_u. f_equal. Z.div_mod_to_equations. lia.
Qed.

Lemma lor_ones_24 x : Z.lor x (Z.ones 24) = 2 ^ 24 * (x / 2 ^ 24) + Z.ones 24.
Proof.
  transitivity (Z.lor (2 ^ 24 * (x / 2 ^ 24)) (Z.ones 24)); [|by apply lor_add_24].
  apply Z.bits_inj'. intros n Hn. rewrite !Z.lor_spec, Z.testbit_ones by lia.
  destruct (Z.leb_spec 0 n); [|lia]. destruct (Z.ltb_spec n 24); simpl; [by rewrite !orb_true_r|].
  rewrite !orb_false_r, (Z.mul_comm (2 ^ 24)), <- Z.shiftl_mul_pow2, <- Z.shiftr_div_pow2 by lia.
  rewrite Z.shiftl_spec, Z.shiftr_spec by lia. f_equal. lia.
Qed.

Lemma fdbIsGroup_arith c : fdbIsGroup c = (c mod 2 ^ 24 =? 2 ^ 24 - 1).
Proof. unfold fdbIsGroup. by rewrite land_id_mask. Qed.

Lemma fdbEventGroup_arith c : fdbEventGroup c = u32 c / 2 ^ 24.
Proof.
  pose proof (u32_range c). unfold fdbEventGroup.
  rewrite land_group_bits, Z.shiftr_div_pow2 by done. unfold FDB_EVENT_GROUP_SHIFT, wrap_u in *.
  Z.div_mod_to_equations. lia.
Qed.

Lemma fdbMakeGroup_arith c : fdbMakeGroup c = i32 (2 ^ 24 * fdbEventGroup c + (2 ^ 24 - 1)).
Proof.
  unfold fdbMakeGroup. change FDB_EVENT_ID_MASK with (Z.ones 24).
  rewrite lor_ones_24, fdbEventGroup_arith. done.
Qed.

Lemma fdbEventCode_arith c : fdbEventCode c = c mod 2 ^ 24.
Proof.
  unfold fdbEventCode. rewrite land_id_mask. apply wrap_s_small; [lia|].
  unfold in_s. Z.div_mod_to_equations. lia.
Qed.

Lemma fdbSameGroup_arith a b : fdbSameGroup a b = (fdbEventGroup a =? fdbEventGroup b).
Proof.
  unfold fdbSameGroup. rewrite !land_group_mask, !fdbEventGroup_arith.
  destruct (Z.eqb_spec (u32 a / 2 ^ 24) (u32 b / 2 ^ 24)) as [->|]; [by apply Z.eqb_refl|].
  apply Z.eqb_neq. lia.
Qed.

Lemma fdbEventInGroup_arith e g : fdbEventInGroup e g = (fdbEventGroup e =? g mod 2 ^ 8).
Proof.
  unfold fdbEventInGroup. rewrite land_group_mask, fdbEventGroup_arith, land_group_bits.
  rewrite Z.shiftl_mul_pow2 by done. unfold FDB_EVENT_GROUP_SHIFT.
  assert (u32 g mod 2 ^ 8 = g mod 2 ^ 8) as -> by (unfold wrap_u; Z.div_mod_to_equations; lia).
  destruct (Z.eqb_spec (u32 e / 2 ^ 24) (g mod 2 ^ 8)) as [->|]; [apply Z.eqb_eq; lia|].
  apply Z.eqb_neq. lia.
Qed.

Lemma fdbMergeEventCode_arith g e :
  0 <= e < 2 ^ 24 -> fdbMergeEventCode g e = 2 ^ 24 * fdbEventGroup g + e.
Proof.
  intros H. unfold fdbMergeEventCode. rewrite land_group_mask, fdbEventGroup_arith.
  rewrite (wrap_u_small 32 e) by (unfold in_u; lia). by apply lor_add_24.
Qed.

Lemma fdbEventGroup_range c : 0 <= fdbEventGroup c < 256.
Proof. pose proof (u32_range c). rewrite fdbEventGroup_arith. Z.div_mod_to_equations. lia. Qed.

(** A code is exactly its group and its event: taking a code apart and
    making it again gives it back, and every group in 0..255 and event in
    0..2^24-1 are recovered from the code made of them. *)
Theorem event_code_roundtrip :
  (forall c, in_s 32 c -> fdbMakeEventCode (fdbEventGroup c) (fdbEventCode c) = c) /\
  (forall g e, 0 <= g < 256 -> 0 <= e < 2 ^ 24 ->
     fdbEventGroup (fdbMakeEventCode g e) = g /\ fdbEventCode (fdbMakeEventCode g e) = e).
Proof.
  split.
  - intros c Hc. rewrite fdbMakeEventCode_arith, fdbEventGroup_arith, fdbEventCode_arith.
    rewrite <- (wrap_s_wrap_u 32 c) at 3 by (done || lia). f_equal. unfold wrap_u, in_s in *.
    Z.div_mod_to_equations. lia.
  - intros g e Hg He.
    rewrite fdbEventGroup_arith, fdbEventCode_arith, fdbMakeEventCode_arith.
    unfold wrap_u, wrap_s. Z.div_mod_to_equations. lia.
Qed.

Lemma event_code_roundtrip_witness :
  fdbMakeEventCode (fdbEventGroup (-1)) (fdbEventCode (-1)) = -1 /\
  fdbEventGroup (fdbMakeEventCode 200 77) = 200.
Proof.
  destruct event_code_roundtrip as [H1 H2]. split; [apply H1; unfold in_s; lia|apply H2; lia].
Defined.
