(* ===== verification/WireBase.v ===== *)
(** The message header and the messages exchanged on every connection:
    src/utils/CFdbIfMessageHeader.h, src/public/fdbus/CFdbIfMsgTokens.h and
    src/public/fdbus/CFdbMsgSubscribe.h. Each class is a record of its members, its
    [serialize] and [deserialize], and its [ParcelableLaws]. *)
From S2P Require Import Prelude Serializer Codec CommonDefs.

(** ** Optional members *)

(** A presence bit of an option byte. *)
Definition has_bit (options mask : Z) : bool := negb (Z.land options mask =? 0).
Definition set_bit (options mask : Z) : Z := u8 (Z.lor options mask).

Definition ser_if (b : bool) (m : SerM) : SerM := if b then m else ser_skip.
Definition des_if {A} (b : bool) (r : DesM A) (old : A) : DesM A := if b then r else mret old.

Definition wire_if (b : bool) (bs : list Z) : list Z := if b then bs else [].

Lemma codec_if {A} (b : bool) m (r : DesM A) bs old y :
  (b = true -> codec m r bs y) ->
  codec (ser_if b m) (des_if b r old) (wire_if b bs) (if b then y else old).
Proof. intros H. destruct b; simpl; [by apply H | apply codec_skip]. Qed.

Lemma des_safe_if {A} (b : bool) (r : DesM A) old : des_safe r -> des_safe (des_if b r old).
Proof. intros H. destruct b; [done | apply des_safe_ret]. Qed.

Lemma set_bit_twice options mask : set_bit (set_bit options mask) mask = set_bit options mask.
Proof.
  unfold set_bit, wrap_u. rewrite <- !Z.land_ones by lia. apply Z.bits_inj'. intros n _.
  rewrite !Z.land_spec, !Z.lor_spec, Z.land_spec, Z.lor_spec.
  by destruct (Z.testbit options n), (Z.testbit mask n), (Z.testbit (Z.ones 8) n).
Qed.

Lemma has_set_bit options mask :
  in_u 8 mask -> mask <> 0 -> has_bit (set_bit options mask) mask = true.
Proof.
  intros Hm H0. unfold has_bit, set_bit, wrap_u. apply negb_true_iff, Z.eqb_neq.
  rewrite <- Z.land_ones by lia.
  assert (Z.land (Z.land (Z.lor options mask) (Z.ones 8)) mask = Z.land mask (Z.ones 8)) as ->.
  { apply Z.bits_inj'. intros n _. rewrite !Z.land_spec, Z.lor_spec.
    by destruct (Z.testbit options n), (Z.testbit mask n), (Z.testbit (Z.ones 8) n). }
  rewrite Z.land_ones by lia. by rewrite Z.mod_small.
Qed.

(** ** Automation for message classes *)

Create HintDb codec discriminated.
#[export] Hint Resolve des_safe_ret des_safe_bool des_safe_string des_safe_if : codec.
#[export] Hint Extern 1 (des_safe (get_int _ _ _)) => apply des_safe_int; lia : codec.
#[export] Hint Extern 2 (des_safe (deserialize _)) => apply p_safe : codec.

(** Safety of a [deserialize] that reads one member after the other. *)
Ltac solve_safe :=
  intros; repeat first
    [ apply des_safe_bind; [solve [auto with codec]|intros ?]
    | solve [auto with codec] ].

(** One member: by its width, by the laws of its class found in the context, or
    guarded by its presence bit. *)
Ltac codec_member :=
  lazymatch goal with
  | |- codec (put_bool _) _ _ _ => apply codec_bool
  | |- codec (put_string _) _ _ _ => apply codec_string; assumption
  | |- codec (put_int _ _) _ _ _ =>
      apply codec_int; [lia|lia|first [assumption | apply wrap_u_range; lia]]
  | |- codec (ser_if _ _) _ _ _ => apply codec_if; intros ?; codec_member
  | |- _ => eassumption
  end.

(** A whole message: members in order, then the construction of the object. *)
Ltac solve_codec :=
  repeat lazymatch goal with
  | |- codec (_ ;;; _) _ _ _ => eapply codec_seq; [codec_member|]
  | |- codec _ _ _ _ => eapply codec_last; [codec_member|reflexivity]
  end.

(** The law of a member whose class is a parcelable, at its old value. *)
Tactic Notation "member" constr(x) constr(old) "as" simple_intropattern(pat) :=
  let L := fresh in
  pose proof (fun I H => p_codec I x old H) as L;
  edestruct L as pat; [eassumption|]; clear L.

(** The round trip of a class whose bodies are in the unfold database [codec],
    once the laws of its parcelable members are in the context: the decoded
    object is built by [solve_codec], then compared member by member. *)
Ltac compare_members :=
  cbn in *; first
    [ assumption
    | match goal with |- ?x = _ => is_var x; destruct x; cbn in *; f_equal end
    | split; cbn in *]; try done; try congruence;
  try (symmetry; first [apply wrap_s_wrap_u | apply wrap_s_small]; [lia|assumption]);
  try (autounfold with codec in *; intros Hb; rewrite Hb; first [reflexivity|assumption|congruence]).

(** Casts that do not change the value. *)
Ltac unwrap :=
  repeat match goal with
  | |- context [wrap_u ?w ?z] => rewrite (wrap_u_small w z) by assumption
  | |- context [wrap_s ?w ?z] => rewrite (wrap_s_small w z) by (lia || assumption)
  end.

Ltac solve_class :=
  unfold enum_ok, dog_ok in *; destruct_and?;
  eexists; split;
  [|unfold serialize, deserialize; simpl;
    autounfold with codec; unwrap; solve_codec];
  compare_members.

Ltac solve_class_safe :=
  unfold deserialize; simpl; autounfold with codec; solve_safe.

(** ** [FdbMsgTokens] *)

Record FdbMsgTokens := mkTokens { tk_mTokens : list string }.

Definition FdbMsgTokens_add (t : FdbMsgTokens) (token : string) : FdbMsgTokens :=
  mkTokens (tk_mTokens t ++ [token]).
Definition FdbMsgTokens_clear (t : FdbMsgTokens) : FdbMsgTokens := mkTokens [].

Definition FdbMsgTokens_serialize (t : FdbMsgTokens) : SerM := serialize (tk_mTokens t).
Definition FdbMsgTokens_deserialize {I : Indet} (t : FdbMsgTokens) : DesM FdbMsgTokens :=
  tokens ← deserialize (tk_mTokens t); mret (mkTokens tokens).

#[export] Instance FdbMsgTokens_parcelable : Parcelable FdbMsgTokens := {|
  p_default := fun _ => mkTokens [];
  p_serialize := FdbMsgTokens_serialize;
  p_deserialize := @FdbMsgTokens_deserialize |}.

Lemma Forall2_eq {A} (xs ys : list A) : Forall2 eq xs ys -> xs = ys.
Proof. induction 1; congruence. Qed.

(** The wire format of the class. *)
Definition FdbMsgTokens_wire (t : FdbMsgTokens) : list Z := p_wire (tk_mTokens t).

#[export] Hint Unfold FdbMsgTokens_wire : codec.

#[export] Program Instance FdbMsgTokens_laws : ParcelableLaws FdbMsgTokens := {|
  p_wire := FdbMsgTokens_wire; p_wf := fun t => p_wf (tk_mTokens t);
  p_eq := eq |}.
Next Obligation.
  intros I [x] [old] H. simpl in *.
  member x old as (y & E & C). apply Forall2_eq in E as <-.
  eexists; split; [reflexivity|]. eapply codec_last; [exact C|done].
Qed.
Next Obligation. unfold deserialize; simpl; unfold FdbMsgTokens_deserialize. solve_safe. Qed.

(** ** [CFdbMessageHeader] *)

Record CFdbMessageHeader := mkHeader {
  mh_mType : EFdbMessageType;
  mh_mSn : Z;
  mh_mCode : Z;
  mh_mFlag : Z;
  mh_mObjId : Z;
  mh_mPayloadSize : Z;
  mh_mTopic : string;
  mh_mSendArriveTime : Z;
  mh_mReplyTime : Z;
  mh_mQOS : EFdbQOS;
  mh_mOptions : Z }.

Definition mMaskHeadFilter : Z := 2.
Definition mMaskSenderArriveTime : Z := 4.
Definition mMaskReplyTime : Z := 8.

Definition has_broadcast_topic (h : CFdbMessageHeader) : bool :=
  has_bit (mh_mOptions h) mMaskHeadFilter.
Definition has_send_or_arrive_time (h : CFdbMessageHeader) : bool :=
  has_bit (mh_mOptions h) mMaskSenderArriveTime.
Definition has_reply_time (h : CFdbMessageHeader) : bool :=
  has_bit (mh_mOptions h) mMaskReplyTime.

Definition set_broadcast_topic (h : CFdbMessageHeader) (topic : string) : CFdbMessageHeader :=
  mkHeader (mh_mType h) (mh_mSn h) (mh_mCode h) (mh_mFlag h) (mh_mObjId h) (mh_mPayloadSize h)
    topic (mh_mSendArriveTime h) (mh_mReplyTime h) (mh_mQOS h)
    (set_bit (mh_mOptions h) mMaskHeadFilter).
Definition set_send_or_arrive_time (h : CFdbMessageHeader) (t : Z) : CFdbMessageHeader :=
  mkHeader (mh_mType h) (mh_mSn h) (mh_mCode h) (mh_mFlag h) (mh_mObjId h) (mh_mPayloadSize h)
    (mh_mTopic h) t (mh_mReplyTime h) (mh_mQOS h)
    (set_bit (mh_mOptions h) mMaskSenderArriveTime).
Definition set_reply_time (h : CFdbMessageHeader) (t : Z) : CFdbMessageHeader :=
  mkHeader (mh_mType h) (mh_mSn h) (mh_mCode h) (mh_mFlag h) (mh_mObjId h) (mh_mPayloadSize h)
    (mh_mTopic h) (mh_mSendArriveTime h) t (mh_mQOS h)
    (set_bit (mh_mOptions h) mMaskReplyTime).

Definition CFdbMessageHeader_serialize (h : CFdbMessageHeader) : SerM :=
  put_int 1 (u8 (e_val (mh_mType h))) ;;;
  put_int 4 (mh_mSn h) ;;;
  put_int 4 (mh_mCode h) ;;;
  put_int 4 (mh_mFlag h) ;;;
  put_int 4 (mh_mObjId h) ;;;
  put_int 4 (mh_mPayloadSize h) ;;;
  put_int 1 (u8 (e_val (mh_mQOS h))) ;;;
  put_int 1 (mh_mOptions h) ;;;
  ser_if (has_bit (mh_mOptions h) mMaskHeadFilter) (put_string (mh_mTopic h)) ;;;
  ser_if (has_bit (mh_mOptions h) mMaskSenderArriveTime) (put_int 8 (mh_mSendArriveTime h)) ;;;
  ser_if (has_bit (mh_mOptions h) mMaskReplyTime) (put_int 8 (mh_mReplyTime h)).

Definition CFdbMessageHeader_deserialize {I : Indet} (h : CFdbMessageHeader)
  : DesM CFdbMessageHeader :=
  msg_type ← get_int false 1 indet;
  sn ← get_int true 4 (mh_mSn h);
  code ← get_int true 4 (mh_mCode h);
  flag ← get_int false 4 (mh_mFlag h);
  obj_id ← get_int false 4 (mh_mObjId h);
  payload_size ← get_int false 4 (mh_mPayloadSize h);
  qos ← get_int false 1 indet;
  options ← get_int false 1 (mh_mOptions h);
  topic ← des_if (has_bit options mMaskHeadFilter) (get_string (mh_mTopic h)) (mh_mTopic h);
  send_time ← des_if (has_bit options mMaskSenderArriveTime)
                (get_int false 8 (mh_mSendArriveTime h)) (mh_mSendArriveTime h);
  reply_time ← des_if (has_bit options mMaskReplyTime)
                (get_int false 8 (mh_mReplyTime h)) (mh_mReplyTime h);
  mret (mkHeader (e_of msg_type) sn code flag obj_id payload_size topic send_time reply_time
          (e_of qos) options).

#[export] Hint Unfold has_broadcast_topic has_send_or_arrive_time has_reply_time
  CFdbMessageHeader_serialize CFdbMessageHeader_deserialize : codec.

#[export] Instance CFdbMessageHeader_parcelable : Parcelable CFdbMessageHeader := {|
  p_default := fun I => mkHeader (e_of I) I I I I I EmptyString I I (e_of I) 0;
  p_serialize := CFdbMessageHeader_serialize;
  p_deserialize := @CFdbMessageHeader_deserialize |}.

Record CFdbMessageHeader_wf (h : CFdbMessageHeader) : Prop := {
  mhw_type : enum_ok (mh_mType h);
  mhw_sn : in_s 32 (mh_mSn h);
  mhw_code : in_s 32 (mh_mCode h);
  mhw_flag : in_u 32 (mh_mFlag h);
  mhw_obj : in_u 32 (mh_mObjId h);
  mhw_size : in_u 32 (mh_mPayloadSize h);
  mhw_topic : str_ok (mh_mTopic h);
  mhw_send : in_u 64 (mh_mSendArriveTime h);
  mhw_reply : in_u 64 (mh_mReplyTime h);
  mhw_qos : enum_ok (mh_mQOS h);
  mhw_options : in_u 8 (mh_mOptions h) }.

(** Equal headers, the optional members compared only when present. *)
Record CFdbMessageHeader_eq (x y : CFdbMessageHeader) : Prop := {
  mhe_type : mh_mType x = mh_mType y;
  mhe_sn : mh_mSn x = mh_mSn y;
  mhe_code : mh_mCode x = mh_mCode y;
  mhe_flag : mh_mFlag x = mh_mFlag y;
  mhe_obj : mh_mObjId x = mh_mObjId y;
  mhe_size : mh_mPayloadSize x = mh_mPayloadSize y;
  mhe_qos : mh_mQOS x = mh_mQOS y;
  mhe_options : mh_mOptions x = mh_mOptions y;
  mhe_topic : has_broadcast_topic x = true -> mh_mTopic x = mh_mTopic y;
  mhe_send : has_send_or_arrive_time x = true -> mh_mSendArriveTime x = mh_mSendArriveTime y;
  mhe_reply : has_reply_time x = true -> mh_mReplyTime x = mh_mReplyTime y }.

(** The wire format of the class. *)
Definition CFdbMessageHeader_wire (h : CFdbMessageHeader) : list Z :=
  le_bytes 1 (u8 (e_val (mh_mType h))) ++ le_bytes 4 (mh_mSn h) ++ le_bytes 4 (mh_mCode h) ++
  le_bytes 4 (mh_mFlag h) ++ le_bytes 4 (mh_mObjId h) ++ le_bytes 4 (mh_mPayloadSize h) ++
  le_bytes 1 (u8 (e_val (mh_mQOS h))) ++ le_bytes 1 (mh_mOptions h) ++
  wire_if (has_bit (mh_mOptions h) mMaskHeadFilter) (str_wire (mh_mTopic h)) ++
  wire_if (has_bit (mh_mOptions h) mMaskSenderArriveTime) (le_bytes 8 (mh_mSendArriveTime h)) ++
  wire_if (has_bit (mh_mOptions h) mMaskReplyTime) (le_bytes 8 (mh_mReplyTime h)).

#[export] Hint Unfold CFdbMessageHeader_wire : codec.

#[export] Program Instance CFdbMessageHeader_laws : ParcelableLaws CFdbMessageHeader := {|
  p_wire := CFdbMessageHeader_wire; p_wf := CFdbMessageHeader_wf; p_eq := CFdbMessageHeader_eq |}.
Next Obligation.
  intros I x old []. solve_class.
Qed.
Next Obligation. solve_class_safe. Qed.

(** ** [FdbMsgErrorInfo] *)

Record FdbMsgErrorInfo := mkErrorInfo {
  er_mErrorCode : Z; er_mDescription : string; er_mOptions : Z }.

Definition mMaskDescription : Z := 1.

Definition FdbMsgErrorInfo_set_description (e : FdbMsgErrorInfo) (d : string) : FdbMsgErrorInfo :=
  mkErrorInfo (er_mErrorCode e) d (set_bit (er_mOptions e) mMaskDescription).
Definition FdbMsgErrorInfo_has_description (e : FdbMsgErrorInfo) : bool :=
  has_bit (er_mOptions e) mMaskDescription.

Definition FdbMsgErrorInfo_serialize (e : FdbMsgErrorInfo) : SerM :=
  put_int 4 (er_mErrorCode e) ;;;
  put_int 1 (er_mOptions e) ;;;
  ser_if (has_bit (er_mOptions e) mMaskDescription) (put_string (er_mDescription e)).

Definition FdbMsgErrorInfo_deserialize {I : Indet} (e : FdbMsgErrorInfo) : DesM FdbMsgErrorInfo :=
  code ← get_int true 4 (er_mErrorCode e);
  options ← get_int false 1 (er_mOptions e);
  description ← des_if (has_bit options mMaskDescription)
                  (get_string (er_mDescription e)) (er_mDescription e);
  mret (mkErrorInfo code description options).

#[export] Hint Unfold FdbMsgErrorInfo_has_description FdbMsgErrorInfo_serialize
  FdbMsgErrorInfo_deserialize : codec.

#[export] Instance FdbMsgErrorInfo_parcelable : Parcelable FdbMsgErrorInfo := {|
  p_default := fun I => mkErrorInfo I EmptyString 0;
  p_serialize := FdbMsgErrorInfo_serialize;
  p_deserialize := @FdbMsgErrorInfo_deserialize |}.

Record FdbMsgErrorInfo_wf (e : FdbMsgErrorInfo) : Prop := {
  erw_code : in_s 32 (er_mErrorCode e);
  erw_description : str_ok (er_mDescription e);
  erw_options : in_u 8 (er_mOptions e) }.

Record FdbMsgErrorInfo_eq (x y : FdbMsgErrorInfo) : Prop := {
  ere_code : er_mErrorCode x = er_mErrorCode y;
  ere_options : er_mOptions x = er_mOptions y;
  ere_description : FdbMsgErrorInfo_has_description x = true ->
    er_mDescription x = er_mDescription y }.

(** The wire format of the class. *)
Definition FdbMsgErrorInfo_wire (e : FdbMsgErrorInfo) : list Z :=
  le_bytes 4 (er_mErrorCode e) ++ le_bytes 1 (er_mOptions e) ++
  wire_if (has_bit (er_mOptions e) mMaskDescription) (str_wire (er_mDescription e)).

#[export] Hint Unfold FdbMsgErrorInfo_wire : codec.

#[export] Program Instance FdbMsgErrorInfo_laws : ParcelableLaws FdbMsgErrorInfo := {|
  p_wire := FdbMsgErrorInfo_wire; p_wf := FdbMsgErrorInfo_wf; p_eq := FdbMsgErrorInfo_eq |}.
Next Obligation. intros I x old []. solve_class. Qed.
Next Obligation. solve_class_safe. Qed.

(** ** [FdbAuthentication] *)

Record FdbAuthentication := mkAuthentication { au_mTokenList : FdbMsgTokens; au_mOptions : Z }.

Definition mMaskTokenList : Z := 1.

(** [token_list()]: access for writing marks the list as present. *)
Definition FdbAuthentication_token_list (a : FdbAuthentication) : FdbAuthentication :=
  mkAuthentication (au_mTokenList a) (set_bit (au_mOptions a) mMaskTokenList).
Definition FdbAuthentication_has_token_list (a : FdbAuthentication) : bool :=
  has_bit (au_mOptions a) mMaskTokenList.

Definition FdbAuthentication_serialize (a : FdbAuthentication) : SerM :=
  put_int 1 (au_mOptions a) ;;;
  ser_if (has_bit (au_mOptions a) mMaskTokenList) (serialize (au_mTokenList a)).

Definition FdbAuthentication_deserialize {I : Indet} (a : FdbAuthentication)
  : DesM FdbAuthentication :=
  options ← get_int false 1 (au_mOptions a);
  tokens ← des_if (has_bit options mMaskTokenList) (deserialize (au_mTokenList a)) (au_mTokenList a);
  mret (mkAuthentication tokens options).

#[export] Hint Unfold FdbAuthentication_has_token_list FdbAuthentication_serialize
  FdbAuthentication_deserialize : codec.

#[export] Instance FdbAuthentication_parcelable : Parcelable FdbAuthentication := {|
  p_default := fun I => mkAuthentication (mkTokens []) 0;
  p_serialize := FdbAuthentication_serialize;
  p_deserialize := @FdbAuthentication_deserialize |}.

Record FdbAuthentication_wf (a : FdbAuthentication) : Prop := {
  auw_tokens : p_wf (au_mTokenList a);
  auw_options : in_u 8 (au_mOptions a) }.

Record FdbAuthentication_eq (x y : FdbAuthentication) : Prop := {
  aue_options : au_mOptions x = au_mOptions y;
  aue_tokens : FdbAuthentication_has_token_list x = true -> au_mTokenList x = au_mTokenList y }.

(** The wire format of the class. *)
Definition FdbAuthentication_wire (a : FdbAuthentication) : list Z :=
  le_bytes 1 (au_mOptions a) ++
  wire_if (has_bit (au_mOptions a) mMaskTokenList) (p_wire (au_mTokenList a)).

#[export] Hint Unfold FdbAuthentication_wire : codec.

#[export] Program Instance FdbAuthentication_laws : ParcelableLaws FdbAuthentication := {|
  p_wire := FdbAuthentication_wire; p_wf := FdbAuthentication_wf; p_eq := FdbAuthentication_eq |}.
Next Obligation.
  intros I x old []. member (au_mTokenList x) (au_mTokenList old) as (y & E & C).
  solve_class.
Qed.
Next Obligation. solve_class_safe. Qed.

(** ** [FdbSessionInfo] *)

Record FdbSessionInfo := mkSessionInfo {
  si_mSenderName : string; si_mUDPPort : Z; si_mPid : Z; si_mOptions : Z }.

Definition mMaskHasUDPPort : Z := 1.

Definition FdbSessionInfo_set_udp_port (i : FdbSessionInfo) (port : Z) : FdbSessionInfo :=
  mkSessionInfo (si_mSenderName i) port (si_mPid i) (set_bit (si_mOptions i) mMaskHasUDPPort).
Definition FdbSessionInfo_has_udp_port (i : FdbSessionInfo) : bool :=
  has_bit (si_mOptions i) mMaskHasUDPPort.

Definition FdbSessionInfo_serialize (i : FdbSessionInfo) : SerM :=
  put_string (si_mSenderName i) ;;;
  put_int 4 (si_mPid i) ;;;
  put_int 1 (si_mOptions i) ;;;
  ser_if (has_bit (si_mOptions i) mMaskHasUDPPort) (put_int 4 (si_mUDPPort i)).

Definition FdbSessionInfo_deserialize {I : Indet} (i : FdbSessionInfo) : DesM FdbSessionInfo :=
  name ← get_string (si_mSenderName i);
  pid ← get_int false 4 (si_mPid i);
  options ← get_int false 1 (si_mOptions i);
  port ← des_if (has_bit options mMaskHasUDPPort) (get_int true 4 (si_mUDPPort i)) (si_mUDPPort i);
  mret (mkSessionInfo name port pid options).

#[export] Hint Unfold FdbSessionInfo_has_udp_port FdbSessionInfo_serialize
  FdbSessionInfo_deserialize : codec.

#[export] Instance FdbSessionInfo_parcelable : Parcelable FdbSessionInfo := {|
  p_default := fun I => mkSessionInfo EmptyString I I 0;
  p_serialize := FdbSessionInfo_serialize;
  p_deserialize := @FdbSessionInfo_deserialize |}.

Record FdbSessionInfo_wf (i : FdbSessionInfo) : Prop := {
  siw_name : str_ok (si_mSenderName i);
  siw_port : in_s 32 (si_mUDPPort i);
  siw_pid : in_u 32 (si_mPid i);
  siw_options : in_u 8 (si_mOptions i) }.

Record FdbSessionInfo_eq (x y : FdbSessionInfo) : Prop := {
  sie_name : si_mSenderName x = si_mSenderName y;
  sie_pid : si_mPid x = si_mPid y;
  sie_options : si_mOptions x = si_mOptions y;
  sie_port : FdbSessionInfo_has_udp_port x = true -> si_mUDPPort x = si_mUDPPort y }.

(** The wire format of the class. *)
Definition FdbSessionInfo_wire (i : FdbSessionInfo) : list Z :=
  str_wire (si_mSenderName i) ++ le_bytes 4 (si_mPid i) ++ le_bytes 1 (si_mOptions i) ++
  wire_if (has_bit (si_mOptions i) mMaskHasUDPPort) (le_bytes 4 (si_mUDPPort i)).

#[export] Hint Unfold FdbSessionInfo_wire : codec.

#[export] Program Instance FdbSessionInfo_laws : ParcelableLaws FdbSessionInfo := {|
  p_wire := FdbSessionInfo_wire; p_wf := FdbSessionInfo_wf; p_eq := FdbSessionInfo_eq |}.
Next Obligation. intros I x old []. solve_class. Qed.
Next Obligation. solve_class_safe. Qed.

(** ** [CFdbMsgSubscribeItem] and [CFdbMsgTable] *)

Record CFdbMsgSubscribeItem := mkSubscribeItem {
  su_mCode : Z; su_mFilter : string; su_mFlag : Z; su_mOptions : Z }.

Definition mMaskFilter : Z := 1.

Definition CFdbMsgSubscribeItem_has_topic (i : CFdbMsgSubscribeItem) : bool :=
  has_bit (su_mOptions i) mMaskFilter.
Definition CFdbMsgSubscribeItem_set_topic (i : CFdbMsgSubscribeItem) (topic : string)
  : CFdbMsgSubscribeItem :=
  mkSubscribeItem (su_mCode i) topic (su_mFlag i) (set_bit (su_mOptions i) mMaskFilter).

Definition CFdbMsgSubscribeItem_serialize (i : CFdbMsgSubscribeItem) : SerM :=
  put_int 4 (su_mCode i) ;;;
  put_int 4 (su_mFlag i) ;;;
  put_int 1 (su_mOptions i) ;;;
  ser_if (has_bit (su_mOptions i) mMaskFilter) (put_string (su_mFilter i)).

Definition CFdbMsgSubscribeItem_deserialize {I : Indet} (i : CFdbMsgSubscribeItem)
  : DesM CFdbMsgSubscribeItem :=
  code ← get_int true 4 (su_mCode i);
  flag ← get_int false 4 (su_mFlag i);
  options ← get_int false 1 (su_mOptions i);
  filter ← des_if (has_bit options mMaskFilter) (get_string (su_mFilter i)) (su_mFilter i);
  mret (mkSubscribeItem code filter flag options).

#[export] Hint Unfold CFdbMsgSubscribeItem_has_topic CFdbMsgSubscribeItem_serialize
  CFdbMsgSubscribeItem_deserialize : codec.

#[export] Instance CFdbMsgSubscribeItem_parcelable : Parcelable CFdbMsgSubscribeItem := {|
  p_default := fun I => mkSubscribeItem I EmptyString 0 0;
  p_serialize := CFdbMsgSubscribeItem_serialize;
  p_deserialize := @CFdbMsgSubscribeItem_deserialize |}.

Record CFdbMsgSubscribeItem_wf (i : CFdbMsgSubscribeItem) : Prop := {
  suw_code : in_s 32 (su_mCode i);
  suw_filter : str_ok (su_mFilter i);
  suw_flag : in_u 32 (su_mFlag i);
  suw_options : in_u 8 (su_mOptions i) }.

Record CFdbMsgSubscribeItem_eq (x y : CFdbMsgSubscribeItem) : Prop := {
  sue_code : su_mCode x = su_mCode y;
  sue_flag : su_mFlag x = su_mFlag y;
  sue_options : su_mOptions x = su_mOptions y;
  sue_filter : CFdbMsgSubscribeItem_has_topic x = true -> su_mFilter x = su_mFilter y }.

(** The wire format of the class. *)
Definition CFdbMsgSubscribeItem_wire (i : CFdbMsgSubscribeItem) : list Z :=
  le_bytes 4 (su_mCode i) ++ le_bytes 4 (su_mFlag i) ++ le_bytes 1 (su_mOptions i) ++
  wire_if (has_bit (su_mOptions i) mMaskFilter) (str_wire (su_mFilter i)).

#[export] Hint Unfold CFdbMsgSubscribeItem_wire : codec.

#[export] Program Instance CFdbMsgSubscribeItem_laws : ParcelableLaws CFdbMsgSubscribeItem := {|
  p_wire := CFdbMsgSubscribeItem_wire; p_wf := CFdbMsgSubscribeItem_wf; p_eq := CFdbMsgSubscribeItem_eq |}.
Next Obligation. intros I x old []. solve_class. Qed.
Next Obligation. solve_class_safe. Qed.

Record CFdbMsgTable := mkMsgTable { mt_mSubscribeTbl : list CFdbMsgSubscribeItem }.

Definition CFdbMsgTable_serialize (t : CFdbMsgTable) : SerM := serialize (mt_mSubscribeTbl t).
Definition CFdbMsgTable_deserialize {I : Indet} (t : CFdbMsgTable) : DesM CFdbMsgTable :=
  tbl ← deserialize (mt_mSubscribeTbl t); mret (mkMsgTable tbl).

#[export] Hint Unfold CFdbMsgTable_serialize CFdbMsgTable_deserialize : codec.

#[export] Instance CFdbMsgTable_parcelable : Parcelable CFdbMsgTable := {|
  p_default := fun _ => mkMsgTable [];
  p_serialize := CFdbMsgTable_serialize;
  p_deserialize := @CFdbMsgTable_deserialize |}.

(** The wire format of the class. *)
Definition CFdbMsgTable_wire (t : CFdbMsgTable) : list Z := p_wire (mt_mSubscribeTbl t).

#[export] Hint Unfold CFdbMsgTable_wire : codec.

#[export] Program Instance CFdbMsgTable_laws : ParcelableLaws CFdbMsgTable := {|
  p_wire := CFdbMsgTable_wire; p_wf := fun t => p_wf (mt_mSubscribeTbl t);
  p_eq := fun x y => p_eq (mt_mSubscribeTbl x) (mt_mSubscribeTbl y) |}.
Next Obligation.
  intros I x old H. member (mt_mSubscribeTbl x) (mt_mSubscribeTbl old) as (y & E & C).
  solve_class.
Qed.
Next Obligation. solve_class_safe. Qed.
