(* ===== verification/NsMessages.v ===== *)
(** The name-server and host-server messages of
    src/public/fdbus/CFdbIfNameServer.h: every class of the header as a record of its
    members with its [serialize], [deserialize] and [ParcelableLaws], and the
    operations of the address messages the servers use. *)
From S2P Require Import Prelude Serializer Codec CommonDefs WireBase.

Definition mMaskCred : Z := 1.
Definition mMaskHasContext : Z := 1.
Definition mMaskHasWorker : Z := 2.

(** ** [FdbMsgAddressItem]: one address of a service. *)

Record FdbMsgAddressItem := mkAddressItem {
  ai_mTCPIPCAddress : string;
  ai_mTCPPort : Z;
  ai_mType : EFdbSocketType;
  ai_mTCPIPCUrl : string;
  ai_mUDPPort : Z;
  ai_mIsSecure : bool;
  ai_mExportableLevel : Z;
  ai_mInterfaceId : Z;
  ai_mOptions : Z }.

Definition FdbMsgAddressItem_has_udp_port (m : FdbMsgAddressItem) : bool :=
  has_bit (ai_mOptions m) mMaskHasUDPPort.

Definition FdbMsgAddressItem_serialize (m : FdbMsgAddressItem) : SerM :=
  put_string (ai_mTCPIPCAddress m) ;;;
  put_int 4 (ai_mTCPPort m) ;;;
  put_int 1 (u8 (e_val (ai_mType m))) ;;;
  put_string (ai_mTCPIPCUrl m) ;;;
  put_bool (ai_mIsSecure m) ;;;
  put_int 4 (ai_mExportableLevel m) ;;;
  put_int 4 (ai_mInterfaceId m) ;;;
  put_int 1 (ai_mOptions m) ;;;
  ser_if (has_bit (ai_mOptions m) mMaskHasUDPPort) (put_int 4 (ai_mUDPPort m)).

Definition FdbMsgAddressItem_deserialize {I : Indet} (m : FdbMsgAddressItem)
  : DesM FdbMsgAddressItem :=
  tcpipc_address ← get_string (ai_mTCPIPCAddress m);
  tcp_port ← get_int true 4 (ai_mTCPPort m);
  type_ ← get_int false 1 indet;
  tcpipc_url ← get_string (ai_mTCPIPCUrl m);
  is_secure ← get_bool;
  exportable_level ← get_int true 4 (ai_mExportableLevel m);
  interface_id ← get_int true 4 (ai_mInterfaceId m);
  options ← get_int false 1 (ai_mOptions m);
  udp_port ← des_if (has_bit options mMaskHasUDPPort)
      (get_int true 4 (ai_mUDPPort m)) (ai_mUDPPort m);
  mret (mkAddressItem tcpipc_address tcp_port (e_of type_) tcpipc_url udp_port is_secure
          exportable_level interface_id options).

#[export] Hint Unfold FdbMsgAddressItem_has_udp_port
  FdbMsgAddressItem_serialize FdbMsgAddressItem_deserialize : codec.

#[export] Instance FdbMsgAddressItem_parcelable : Parcelable FdbMsgAddressItem := {|
  p_default := fun I => mkAddressItem EmptyString I (e_of I) EmptyString I false I I 0;
  p_serialize := FdbMsgAddressItem_serialize;
  p_deserialize := @FdbMsgAddressItem_deserialize |}.

Record FdbMsgAddressItem_wf (m : FdbMsgAddressItem) : Prop := {
  aiw_TCPIPCAddress : str_ok (ai_mTCPIPCAddress m);
  aiw_TCPPort : in_s 32 (ai_mTCPPort m);
  aiw_Type : enum_ok (ai_mType m);
  aiw_TCPIPCUrl : str_ok (ai_mTCPIPCUrl m);
  aiw_UDPPort : in_s 32 (ai_mUDPPort m);
  aiw_ExportableLevel : in_s 32 (ai_mExportableLevel m);
  aiw_InterfaceId : in_s 32 (ai_mInterfaceId m);
  aiw_Options : in_u 8 (ai_mOptions m) }.

Record FdbMsgAddressItem_eq (x y : FdbMsgAddressItem) : Prop := {
  aie_TCPIPCAddress : ai_mTCPIPCAddress x = ai_mTCPIPCAddress y;
  aie_TCPPort : ai_mTCPPort x = ai_mTCPPort y;
  aie_Type : ai_mType x = ai_mType y;
  aie_TCPIPCUrl : ai_mTCPIPCUrl x = ai_mTCPIPCUrl y;
  aie_UDPPort : FdbMsgAddressItem_has_udp_port x = true ->
    ai_mUDPPort x = ai_mUDPPort y;
  aie_IsSecure : ai_mIsSecure x = ai_mIsSecure y;
  aie_ExportableLevel : ai_mExportableLevel x = ai_mExportableLevel y;
  aie_InterfaceId : ai_mInterfaceId x = ai_mInterfaceId y;
  aie_Options : ai_mOptions x = ai_mOptions y }.

Definition FdbMsgAddressItem_wire (m : FdbMsgAddressItem) : list Z :=
  str_wire (ai_mTCPIPCAddress m) ++ le_bytes 4 (ai_mTCPPort m) ++
  le_bytes 1 (u8 (e_val (ai_mType m))) ++ str_wire (ai_mTCPIPCUrl m) ++
  bool_wire (ai_mIsSecure m) ++ le_bytes 4 (ai_mExportableLevel m) ++
  le_bytes 4 (ai_mInterfaceId m) ++ le_bytes 1 (ai_mOptions m) ++
  wire_if (has_bit (ai_mOptions m) mMaskHasUDPPort) (le_bytes 4 (ai_mUDPPort m)).

#[export] Hint Unfold FdbMsgAddressItem_wire : codec.

#[export] Program Instance FdbMsgAddressItem_laws : ParcelableLaws FdbMsgAddressItem := {|
  p_wire := FdbMsgAddressItem_wire; p_wf := FdbMsgAddressItem_wf; p_eq := FdbMsgAddressItem_eq |}.
Next Obligation. intros I x old []. solve_class. Qed.
Next Obligation. solve_class_safe. Qed.

(** ** [FdbMsgAddressList]: the addresses of one service instance. *)

Record FdbMsgAddressList := mkAddressList {
  al_mServiceName : string;
  al_mHostName : string;
  al_mEndpointName : string;
  al_mDomainName : string;
  al_mInstanceId : Z;
  al_mIsLocal : bool;
  al_mPid : Z;
  al_mAddressList : list FdbMsgAddressItem;
  al_mTokenList : FdbMsgTokens;
  al_mOptions : Z }.

Definition FdbMsgAddressList_has_token_list (m : FdbMsgAddressList) : bool :=
  has_bit (al_mOptions m) mMaskTokenList.

Definition FdbMsgAddressList_serialize (m : FdbMsgAddressList) : SerM :=
  put_string (al_mServiceName m) ;;;
  put_string (al_mHostName m) ;;;
  put_string (al_mEndpointName m) ;;;
  put_string (al_mDomainName m) ;;;
  put_int 4 (al_mInstanceId m) ;;;
  put_bool (al_mIsLocal m) ;;;
  put_int 4 (u32 (al_mPid m)) ;;;
  serialize (al_mAddressList m) ;;;
  put_int 1 (al_mOptions m) ;;;
  ser_if (has_bit (al_mOptions m) mMaskTokenList) (serialize (al_mTokenList m)).

Definition FdbMsgAddressList_deserialize {I : Indet} (m : FdbMsgAddressList)
  : DesM FdbMsgAddressList :=
  service_name ← get_string (al_mServiceName m);
  host_name ← get_string (al_mHostName m);
  endpoint_name ← get_string (al_mEndpointName m);
  domain_name ← get_string (al_mDomainName m);
  instance_id ← get_int true 4 (al_mInstanceId m);
  is_local ← get_bool;
  pid ← get_int false 4 indet;
  address_list ← deserialize (al_mAddressList m);
  options ← get_int false 1 (al_mOptions m);
  token_list ← des_if (has_bit options mMaskTokenList)
      (deserialize (al_mTokenList m)) (al_mTokenList m);
  mret (mkAddressList service_name host_name endpoint_name domain_name instance_id is_local
          (i32 pid) address_list token_list options).

#[export] Hint Unfold FdbMsgAddressList_has_token_list
  FdbMsgAddressList_serialize FdbMsgAddressList_deserialize : codec.

#[export] Instance FdbMsgAddressList_parcelable : Parcelable FdbMsgAddressList := {|
  p_default := fun I => mkAddressList EmptyString EmptyString EmptyString EmptyString I true
    I [] (p_default I) 0;
  p_serialize := FdbMsgAddressList_serialize;
  p_deserialize := @FdbMsgAddressList_deserialize |}.

Record FdbMsgAddressList_wf (m : FdbMsgAddressList) : Prop := {
  alw_ServiceName : str_ok (al_mServiceName m);
  alw_HostName : str_ok (al_mHostName m);
  alw_EndpointName : str_ok (al_mEndpointName m);
  alw_DomainName : str_ok (al_mDomainName m);
  alw_InstanceId : in_s 32 (al_mInstanceId m);
  alw_Pid : in_s 32 (al_mPid m);
  alw_AddressList : p_wf (al_mAddressList m);
  alw_TokenList : p_wf (al_mTokenList m);
  alw_Options : in_u 8 (al_mOptions m) }.

Record FdbMsgAddressList_eq (x y : FdbMsgAddressList) : Prop := {
  ale_ServiceName : al_mServiceName x = al_mServiceName y;
  ale_HostName : al_mHostName x = al_mHostName y;
  ale_EndpointName : al_mEndpointName x = al_mEndpointName y;
  ale_DomainName : al_mDomainName x = al_mDomainName y;
  ale_InstanceId : al_mInstanceId x = al_mInstanceId y;
  ale_IsLocal : al_mIsLocal x = al_mIsLocal y;
  ale_Pid : al_mPid x = al_mPid y;
  ale_AddressList : p_eq (al_mAddressList x) (al_mAddressList y);
  ale_TokenList : FdbMsgAddressList_has_token_list x = true ->
    p_eq (al_mTokenList x) (al_mTokenList y);
  ale_Options : al_mOptions x = al_mOptions y }.

Definition FdbMsgAddressList_wire (m : FdbMsgAddressList) : list Z :=
  str_wire (al_mServiceName m) ++ str_wire (al_mHostName m) ++
  str_wire (al_mEndpointName m) ++ str_wire (al_mDomainName m) ++
  le_bytes 4 (al_mInstanceId m) ++ bool_wire (al_mIsLocal m) ++
  le_bytes 4 (u32 (al_mPid m)) ++ p_wire (al_mAddressList m) ++
  le_bytes 1 (al_mOptions m) ++
  wire_if (has_bit (al_mOptions m) mMaskTokenList) (p_wire (al_mTokenList m)).

#[export] Hint Unfold FdbMsgAddressList_wire : codec.

#[export] Program Instance FdbMsgAddressList_laws : ParcelableLaws FdbMsgAddressList := {|
  p_wire := FdbMsgAddressList_wire; p_wf := FdbMsgAddressList_wf; p_eq := FdbMsgAddressList_eq |}.
Next Obligation.
  intros I x old [].
  member (al_mAddressList x) (al_mAddressList old) as (y0 & E0 & C0).
  member (al_mTokenList x) (al_mTokenList old) as (y1 & E1 & C1).
  solve_class.
Qed.
Next Obligation. solve_class_safe. Qed.

(** ** [FdbAddrBindStatus]: the outcome of binding one address. *)

Record FdbAddrBindStatus := mkAddrBindStatus {
  bs_mRequestAddr : string;
  bs_mBindAddr : string;
  bs_mUDPPort : Z }.

Definition FdbAddrBindStatus_serialize (m : FdbAddrBindStatus) : SerM :=
  put_string (bs_mRequestAddr m) ;;;
  put_string (bs_mBindAddr m) ;;;
  put_int 4 (bs_mUDPPort m).

Definition FdbAddrBindStatus_deserialize {I : Indet} (m : FdbAddrBindStatus)
  : DesM FdbAddrBindStatus :=
  request_addr ← get_string (bs_mRequestAddr m);
  bind_addr ← get_string (bs_mBindAddr m);
  udp_port ← get_int true 4 (bs_mUDPPort m);
  mret (mkAddrBindStatus request_addr bind_addr udp_port).

#[export] Hint Unfold FdbAddrBindStatus_serialize FdbAddrBindStatus_deserialize : codec.

#[export] Instance FdbAddrBindStatus_parcelable : Parcelable FdbAddrBindStatus := {|
  p_default := fun _ => mkAddrBindStatus EmptyString EmptyString 0;
  p_serialize := FdbAddrBindStatus_serialize;
  p_deserialize := @FdbAddrBindStatus_deserialize |}.

Record FdbAddrBindStatus_wf (m : FdbAddrBindStatus) : Prop := {
  bsw_RequestAddr : str_ok (bs_mRequestAddr m);
  bsw_BindAddr : str_ok (bs_mBindAddr m);
  bsw_UDPPort : in_s 32 (bs_mUDPPort m) }.

Definition FdbAddrBindStatus_wire (m : FdbAddrBindStatus) : list Z :=
  str_wire (bs_mRequestAddr m) ++ str_wire (bs_mBindAddr m) ++ le_bytes 4 (bs_mUDPPort m).

#[export] Hint Unfold FdbAddrBindStatus_wire : codec.

#[export] Program Instance FdbAddrBindStatus_laws : ParcelableLaws FdbAddrBindStatus := {|
  p_wire := FdbAddrBindStatus_wire; p_wf := FdbAddrBindStatus_wf; p_eq := eq |}.
Next Obligation. intros I x old []. solve_class. Qed.
Next Obligation. solve_class_safe. Qed.

(** ** [FdbMsgAddrBindResults]: body of [REQ_REGISTER_SERVICE]. *)

Record FdbMsgAddrBindResults := mkAddrBindResults {
  br_mServiceName : string;
  br_mAddrList : list FdbAddrBindStatus;
  br_mInstanceId : Z }.

Definition FdbMsgAddrBindResults_serialize (m : FdbMsgAddrBindResults) : SerM :=
  put_string (br_mServiceName m) ;;;
  serialize (br_mAddrList m) ;;;
  put_int 4 (br_mInstanceId m).

Definition FdbMsgAddrBindResults_deserialize {I : Indet} (m : FdbMsgAddrBindResults)
  : DesM FdbMsgAddrBindResults :=
  service_name ← get_string (br_mServiceName m);
  addr_list ← deserialize (br_mAddrList m);
  instance_id ← get_int true 4 (br_mInstanceId m);
  mret (mkAddrBindResults service_name addr_list instance_id).

#[export] Hint Unfold FdbMsgAddrBindResults_serialize FdbMsgAddrBindResults_deserialize : codec.

#[export] Instance FdbMsgAddrBindResults_parcelable : Parcelable FdbMsgAddrBindResults := {|
  p_default := fun _ => mkAddrBindResults EmptyString [] 0;
  p_serialize := FdbMsgAddrBindResults_serialize;
  p_deserialize := @FdbMsgAddrBindResults_deserialize |}.

Record FdbMsgAddrBindResults_wf (m : FdbMsgAddrBindResults) : Prop := {
  brw_ServiceName : str_ok (br_mServiceName m);
  brw_AddrList : p_wf (br_mAddrList m);
  brw_InstanceId : in_s 32 (br_mInstanceId m) }.

Record FdbMsgAddrBindResults_eq (x y : FdbMsgAddrBindResults) : Prop := {
  bre_ServiceName : br_mServiceName x = br_mServiceName y;
  bre_AddrList : p_eq (br_mAddrList x) (br_mAddrList y);
  bre_InstanceId : br_mInstanceId x = br_mInstanceId y }.

Definition FdbMsgAddrBindResults_wire (m : FdbMsgAddrBindResults) : list Z :=
  str_wire (br_mServiceName m) ++ p_wire (br_mAddrList m) ++ le_bytes 4 (br_mInstanceId m).

#[export] Hint Unfold FdbMsgAddrBindResults_wire : codec.

#[export] Program Instance FdbMsgAddrBindResults_laws : ParcelableLaws FdbMsgAddrBindResults := {|
  p_wire := FdbMsgAddrBindResults_wire; p_wf := FdbMsgAddrBindResults_wf; p_eq := FdbMsgAddrBindResults_eq |}.
Next Obligation.
  intros I x old [].
  member (br_mAddrList x) (br_mAddrList old) as (y0 & E0 & C0).
  solve_class.
Qed.
Next Obligation. solve_class_safe. Qed.

(** ** [FdbMsgServerName]: body of [REQ_ALLOC_SERVICE_ADDRESS] and [REQ_UNREGISTER_SERVICE]. *)

Record FdbMsgServerName := mkServerName {
  sn_mName : string;
  sn_mEndpointName : string;
  sn_mFlag : Z;
  sn_mExportableLevel : Z;
  sn_mInstanceId : Z }.

Definition FdbMsgServerName_serialize (m : FdbMsgServerName) : SerM :=
  put_string (sn_mName m) ;;;
  put_int 1 (sn_mFlag m) ;;;
  put_string (sn_mEndpointName m) ;;;
  put_int 4 (sn_mExportableLevel m) ;;;
  put_int 4 (sn_mInstanceId m).

Definition FdbMsgServerName_deserialize {I : Indet} (m : FdbMsgServerName)
  : DesM FdbMsgServerName :=
  name ← get_string (sn_mName m);
  flag ← get_int false 1 (sn_mFlag m);
  endpoint_name ← get_string (sn_mEndpointName m);
  exportable_level ← get_int true 4 (sn_mExportableLevel m);
  instance_id ← get_int true 4 (sn_mInstanceId m);
  mret (mkServerName name endpoint_name flag exportable_level instance_id).

#[export] Hint Unfold FdbMsgServerName_serialize FdbMsgServerName_deserialize : codec.

#[export] Instance FdbMsgServerName_parcelable : Parcelable FdbMsgServerName := {|
  p_default := fun I => mkServerName EmptyString EmptyString 0 FDB_EXPORTABLE_NODE_INTERNAL
    FDB_DEFAULT_INSTANCE;
  p_serialize := FdbMsgServerName_serialize;
  p_deserialize := @FdbMsgServerName_deserialize |}.

Record FdbMsgServerName_wf (m : FdbMsgServerName) : Prop := {
  snw_Name : str_ok (sn_mName m);
  snw_EndpointName : str_ok (sn_mEndpointName m);
  snw_Flag : in_u 8 (sn_mFlag m);
  snw_ExportableLevel : in_s 32 (sn_mExportableLevel m);
  snw_InstanceId : in_s 32 (sn_mInstanceId m) }.

Definition FdbMsgServerName_wire (m : FdbMsgServerName) : list Z :=
  str_wire (sn_mName m) ++ le_bytes 1 (sn_mFlag m) ++ str_wire (sn_mEndpointName m) ++
  le_bytes 4 (sn_mExportableLevel m) ++ le_bytes 4 (sn_mInstanceId m).

#[export] Hint Unfold FdbMsgServerName_wire : codec.

#[export] Program Instance FdbMsgServerName_laws : ParcelableLaws FdbMsgServerName := {|
  p_wire := FdbMsgServerName_wire; p_wf := FdbMsgServerName_wf; p_eq := eq |}.
Next Obligation. intros I x old []. solve_class. Qed.
Next Obligation. solve_class_safe. Qed.

(** ** [FdbMsgExportableSvcAddress]: a table of service addresses. *)

Record FdbMsgExportableSvcAddress := mkExportableSvcAddress {
  ex_mSvcAddrList : list FdbMsgAddressList }.

Definition FdbMsgExportableSvcAddress_serialize (m : FdbMsgExportableSvcAddress) : SerM :=
  serialize (ex_mSvcAddrList m).

Definition FdbMsgExportableSvcAddress_deserialize {I : Indet} (m : FdbMsgExportableSvcAddress)
  : DesM FdbMsgExportableSvcAddress :=
  svc_addr_list ← deserialize (ex_mSvcAddrList m);
  mret (mkExportableSvcAddress svc_addr_list).

#[export] Hint Unfold FdbMsgExportableSvcAddress_serialize FdbMsgExportableSvcAddress_deserialize : codec.

#[export] Instance FdbMsgExportableSvcAddress_parcelable : Parcelable FdbMsgExportableSvcAddress := {|
  p_default := fun _ => mkExportableSvcAddress [];
  p_serialize := FdbMsgExportableSvcAddress_serialize;
  p_deserialize := @FdbMsgExportableSvcAddress_deserialize |}.

Record FdbMsgExportableSvcAddress_wf (m : FdbMsgExportableSvcAddress) : Prop := {
  exw_SvcAddrList : p_wf (ex_mSvcAddrList m) }.

Record FdbMsgExportableSvcAddress_eq (x y : FdbMsgExportableSvcAddress) : Prop := {
  exe_SvcAddrList : p_eq (ex_mSvcAddrList x) (ex_mSvcAddrList y) }.

Definition FdbMsgExportableSvcAddress_wire (m : FdbMsgExportableSvcAddress) : list Z :=
  p_wire (ex_mSvcAddrList m).

#[export] Hint Unfold FdbMsgExportableSvcAddress_wire : codec.

#[export] Program Instance FdbMsgExportableSvcAddress_laws : ParcelableLaws FdbMsgExportableSvcAddress := {|
  p_wire := FdbMsgExportableSvcAddress_wire; p_wf := FdbMsgExportableSvcAddress_wf; p_eq := FdbMsgExportableSvcAddress_eq |}.
Next Obligation.
  intros I x old [].
  member (ex_mSvcAddrList x) (ex_mSvcAddrList old) as (y0 & E0 & C0).
  solve_class.
Qed.
Next Obligation. solve_class_safe. Qed.

(** ** [FdbMsgHostRegisterReq]: body of [REQ_REGISTER_LOCAL_HOST]. *)

Record FdbMsgHostRegisterReq := mkHostRegisterReq {
  hr_mIpAddress : string;
  hr_mHostName : string;
  hr_mCred : string;
  hr_mOptions : Z }.

Definition FdbMsgHostRegisterReq_has_cred (m : FdbMsgHostRegisterReq) : bool :=
  has_bit (hr_mOptions m) mMaskCred.

Definition FdbMsgHostRegisterReq_serialize (m : FdbMsgHostRegisterReq) : SerM :=
  put_string (hr_mIpAddress m) ;;;
  put_string (hr_mHostName m) ;;;
  put_int 1 (hr_mOptions m) ;;;
  ser_if (has_bit (hr_mOptions m) mMaskCred) (put_string (hr_mCred m)).

Definition FdbMsgHostRegisterReq_deserialize {I : Indet} (m : FdbMsgHostRegisterReq)
  : DesM FdbMsgHostRegisterReq :=
  ip_address ← get_string (hr_mIpAddress m);
  host_name ← get_string (hr_mHostName m);
  options ← get_int false 1 (hr_mOptions m);
  cred ← des_if (has_bit options mMaskCred)
      (get_string (hr_mCred m)) (hr_mCred m);
  mret (mkHostRegisterReq ip_address host_name cred options).

#[export] Hint Unfold FdbMsgHostRegisterReq_has_cred
  FdbMsgHostRegisterReq_serialize FdbMsgHostRegisterReq_deserialize : codec.

#[export] Instance FdbMsgHostRegisterReq_parcelable : Parcelable FdbMsgHostRegisterReq := {|
  p_default := fun I => mkHostRegisterReq EmptyString EmptyString EmptyString 0;
  p_serialize := FdbMsgHostRegisterReq_serialize;
  p_deserialize := @FdbMsgHostRegisterReq_deserialize |}.

Record FdbMsgHostRegisterReq_wf (m : FdbMsgHostRegisterReq) : Prop := {
  hrw_IpAddress : str_ok (hr_mIpAddress m);
  hrw_HostName : str_ok (hr_mHostName m);
  hrw_Cred : str_ok (hr_mCred m);
  hrw_Options : in_u 8 (hr_mOptions m) }.

Record FdbMsgHostRegisterReq_eq (x y : FdbMsgHostRegisterReq) : Prop := {
  hre_IpAddress : hr_mIpAddress x = hr_mIpAddress y;
  hre_HostName : hr_mHostName x = hr_mHostName y;
  hre_Cred : FdbMsgHostRegisterReq_has_cred x = true ->
    hr_mCred x = hr_mCred y;
  hre_Options : hr_mOptions x = hr_mOptions y }.

Definition FdbMsgHostRegisterReq_wire (m : FdbMsgHostRegisterReq) : list Z :=
  str_wire (hr_mIpAddress m) ++ str_wire (hr_mHostName m) ++ le_bytes 1 (hr_mOptions m) ++
  wire_if (has_bit (hr_mOptions m) mMaskCred) (str_wire (hr_mCred m)).

#[export] Hint Unfold FdbMsgHostRegisterReq_wire : codec.

#[export] Program Instance FdbMsgHostRegisterReq_laws : ParcelableLaws FdbMsgHostRegisterReq := {|
  p_wire := FdbMsgHostRegisterReq_wire; p_wf := FdbMsgHostRegisterReq_wf; p_eq := FdbMsgHostRegisterReq_eq |}.
Next Obligation. intros I x old []. solve_class. Qed.
Next Obligation. solve_class_safe. Qed.

(** ** [FdbMsgHostAddress]: a host and the addresses of its name server. *)

Record FdbMsgHostAddress := mkHostAddress {
  ha_mIpAddress : string;
  ha_mHostName : string;
  ha_mAddressList : list FdbMsgAddressItem;
  ha_mTokenList : FdbMsgTokens;
  ha_mSvcAddrList : FdbMsgExportableSvcAddress;
  ha_mOptions : Z }.

Definition FdbMsgHostAddress_has_token_list (m : FdbMsgHostAddress) : bool :=
  has_bit (ha_mOptions m) mMaskTokenList.

Definition FdbMsgHostAddress_serialize (m : FdbMsgHostAddress) : SerM :=
  put_string (ha_mIpAddress m) ;;;
  put_string (ha_mHostName m) ;;;
  serialize (ha_mAddressList m) ;;;
  serialize (ha_mSvcAddrList m) ;;;
  put_int 1 (ha_mOptions m) ;;;
  ser_if (has_bit (ha_mOptions m) mMaskTokenList) (serialize (ha_mTokenList m)).

Definition FdbMsgHostAddress_deserialize {I : Indet} (m : FdbMsgHostAddress)
  : DesM FdbMsgHostAddress :=
  ip_address ← get_string (ha_mIpAddress m);
  host_name ← get_string (ha_mHostName m);
  address_list ← deserialize (ha_mAddressList m);
  svc_addr_list ← deserialize (ha_mSvcAddrList m);
  options ← get_int false 1 (ha_mOptions m);
  token_list ← des_if (has_bit options mMaskTokenList)
      (deserialize (ha_mTokenList m)) (ha_mTokenList m);
  mret (mkHostAddress ip_address host_name address_list token_list svc_addr_list options).

#[export] Hint Unfold FdbMsgHostAddress_has_token_list
  FdbMsgHostAddress_serialize FdbMsgHostAddress_deserialize : codec.

#[export] Instance FdbMsgHostAddress_parcelable : Parcelable FdbMsgHostAddress := {|
  p_default := fun I => mkHostAddress EmptyString EmptyString [] (p_default I) (p_default I)
    0;
  p_serialize := FdbMsgHostAddress_serialize;
  p_deserialize := @FdbMsgHostAddress_deserialize |}.

Record FdbMsgHostAddress_wf (m : FdbMsgHostAddress) : Prop := {
  haw_IpAddress : str_ok (ha_mIpAddress m);
  haw_HostName : str_ok (ha_mHostName m);
  haw_AddressList : p_wf (ha_mAddressList m);
  haw_TokenList : p_wf (ha_mTokenList m);
  haw_SvcAddrList : p_wf (ha_mSvcAddrList m);
  haw_Options : in_u 8 (ha_mOptions m) }.

Record FdbMsgHostAddress_eq (x y : FdbMsgHostAddress) : Prop := {
  hae_IpAddress : ha_mIpAddress x = ha_mIpAddress y;
  hae_HostName : ha_mHostName x = ha_mHostName y;
  hae_AddressList : p_eq (ha_mAddressList x) (ha_mAddressList y);
  hae_TokenList : FdbMsgHostAddress_has_token_list x = true ->
    p_eq (ha_mTokenList x) (ha_mTokenList y);
  hae_SvcAddrList : p_eq (ha_mSvcAddrList x) (ha_mSvcAddrList y);
  hae_Options : ha_mOptions x = ha_mOptions y }.

Definition FdbMsgHostAddress_wire (m : FdbMsgHostAddress) : list Z :=
  str_wire (ha_mIpAddress m) ++ str_wire (ha_mHostName m) ++ p_wire (ha_mAddressList m) ++
  p_wire (ha_mSvcAddrList m) ++ le_bytes 1 (ha_mOptions m) ++
  wire_if (has_bit (ha_mOptions m) mMaskTokenList) (p_wire (ha_mTokenList m)).

#[export] Hint Unfold FdbMsgHostAddress_wire : codec.

#[export] Program Instance FdbMsgHostAddress_laws : ParcelableLaws FdbMsgHostAddress := {|
  p_wire := FdbMsgHostAddress_wire; p_wf := FdbMsgHostAddress_wf; p_eq := FdbMsgHostAddress_eq |}.
Next Obligation.
  intros I x old [].
  member (ha_mAddressList x) (ha_mAddressList old) as (y0 & E0 & C0).
  member (ha_mTokenList x) (ha_mTokenList old) as (y1 & E1 & C1).
  member (ha_mSvcAddrList x) (ha_mSvcAddrList old) as (y2 & E2 & C2).
  solve_class.
Qed.
Next Obligation. solve_class_safe. Qed.

(** ** [FdbMsgDomainRegisterReq]: body of [REQ_REGISTER_EXTERNAL_DOMAIN]. *)

Record FdbMsgDomainRegisterReq := mkDomainRegisterReq {
  dr_mDomainName : string;
  dr_mCred : string;
  dr_mOptions : Z }.

Definition FdbMsgDomainRegisterReq_has_cred (m : FdbMsgDomainRegisterReq) : bool :=
  has_bit (dr_mOptions m) mMaskCred.

Definition FdbMsgDomainRegisterReq_serialize (m : FdbMsgDomainRegisterReq) : SerM :=
  put_string (dr_mDomainName m) ;;;
  put_int 1 (dr_mOptions m) ;;;
  ser_if (has_bit (dr_mOptions m) mMaskCred) (put_string (dr_mCred m)).

Definition FdbMsgDomainRegisterReq_deserialize {I : Indet} (m : FdbMsgDomainRegisterReq)
  : DesM FdbMsgDomainRegisterReq :=
  domain_name ← get_string (dr_mDomainName m);
  options ← get_int false 1 (dr_mOptions m);
  cred ← des_if (has_bit options mMaskCred)
      (get_string (dr_mCred m)) (dr_mCred m);
  mret (mkDomainRegisterReq domain_name cred options).

#[export] Hint Unfold FdbMsgDomainRegisterReq_has_cred
  FdbMsgDomainRegisterReq_serialize FdbMsgDomainRegisterReq_deserialize : codec.

#[export] Instance FdbMsgDomainRegisterReq_parcelable : Parcelable FdbMsgDomainRegisterReq := {|
  p_default := fun I => mkDomainRegisterReq EmptyString EmptyString 0;
  p_serialize := FdbMsgDomainRegisterReq_serialize;
  p_deserialize := @FdbMsgDomainRegisterReq_deserialize |}.

Record FdbMsgDomainRegisterReq_wf (m : FdbMsgDomainRegisterReq) : Prop := {
  drw_DomainName : str_ok (dr_mDomainName m);
  drw_Cred : str_ok (dr_mCred m);
  drw_Options : in_u 8 (dr_mOptions m) }.

Record FdbMsgDomainRegisterReq_eq (x y : FdbMsgDomainRegisterReq) : Prop := {
  dre_DomainName : dr_mDomainName x = dr_mDomainName y;
  dre_Cred : FdbMsgDomainRegisterReq_has_cred x = true ->
    dr_mCred x = dr_mCred y;
  dre_Options : dr_mOptions x = dr_mOptions y }.

Definition FdbMsgDomainRegisterReq_wire (m : FdbMsgDomainRegisterReq) : list Z :=
  str_wire (dr_mDomainName m) ++ le_bytes 1 (dr_mOptions m) ++
  wire_if (has_bit (dr_mOptions m) mMaskCred) (str_wire (dr_mCred m)).

#[export] Hint Unfold FdbMsgDomainRegisterReq_wire : codec.

#[export] Program Instance FdbMsgDomainRegisterReq_laws : ParcelableLaws FdbMsgDomainRegisterReq := {|
  p_wire := FdbMsgDomainRegisterReq_wire; p_wf := FdbMsgDomainRegisterReq_wf; p_eq := FdbMsgDomainRegisterReq_eq |}.
Next Obligation. intros I x old []. solve_class. Qed.
Next Obligation. solve_class_safe. Qed.

(** ** [FdbMsgDomainAddress]: the services a domain exports. *)

Record FdbMsgDomainAddress := mkDomainAddress {
  da_mDomainName : string;
  da_mSvcAddrList : FdbMsgExportableSvcAddress;
  da_mTokenList : FdbMsgTokens;
  da_mOptions : Z }.

Definition FdbMsgDomainAddress_has_token_list (m : FdbMsgDomainAddress) : bool :=
  has_bit (da_mOptions m) mMaskTokenList.

Definition FdbMsgDomainAddress_serialize (m : FdbMsgDomainAddress) : SerM :=
  put_string (da_mDomainName m) ;;;
  serialize (da_mSvcAddrList m) ;;;
  put_int 1 (da_mOptions m) ;;;
  ser_if (has_bit (da_mOptions m) mMaskTokenList) (serialize (da_mTokenList m)).

Definition FdbMsgDomainAddress_deserialize {I : Indet} (m : FdbMsgDomainAddress)
  : DesM FdbMsgDomainAddress :=
  domain_name ← get_string (da_mDomainName m);
  svc_addr_list ← deserialize (da_mSvcAddrList m);
  options ← get_int false 1 (da_mOptions m);
  token_list ← des_if (has_bit options mMaskTokenList)
      (deserialize (da_mTokenList m)) (da_mTokenList m);
  mret (mkDomainAddress domain_name svc_addr_list token_list options).

#[export] Hint Unfold FdbMsgDomainAddress_has_token_list
  FdbMsgDomainAddress_serialize FdbMsgDomainAddress_deserialize : codec.

#[export] Instance FdbMsgDomainAddress_parcelable : Parcelable FdbMsgDomainAddress := {|
  p_default := fun I => mkDomainAddress EmptyString (p_default I) (p_default I) 0;
  p_serialize := FdbMsgDomainAddress_serialize;
  p_deserialize := @FdbMsgDomainAddress_deserialize |}.

Record FdbMsgDomainAddress_wf (m : FdbMsgDomainAddress) : Prop := {
  daw_DomainName : str_ok (da_mDomainName m);
  daw_SvcAddrList : p_wf (da_mSvcAddrList m);
  daw_TokenList : p_wf (da_mTokenList m);
  daw_Options : in_u 8 (da_mOptions m) }.

Record FdbMsgDomainAddress_eq (x y : FdbMsgDomainAddress) : Prop := {
  dae_DomainName : da_mDomainName x = da_mDomainName y;
  dae_SvcAddrList : p_eq (da_mSvcAddrList x) (da_mSvcAddrList y);
  dae_TokenList : FdbMsgDomainAddress_has_token_list x = true ->
    p_eq (da_mTokenList x) (da_mTokenList y);
  dae_Options : da_mOptions x = da_mOptions y }.

Definition FdbMsgDomainAddress_wire (m : FdbMsgDomainAddress) : list Z :=
  str_wire (da_mDomainName m) ++ p_wire (da_mSvcAddrList m) ++ le_bytes 1 (da_mOptions m) ++
  wire_if (has_bit (da_mOptions m) mMaskTokenList) (p_wire (da_mTokenList m)).

#[export] Hint Unfold FdbMsgDomainAddress_wire : codec.

#[export] Program Instance FdbMsgDomainAddress_laws : ParcelableLaws FdbMsgDomainAddress := {|
  p_wire := FdbMsgDomainAddress_wire; p_wf := FdbMsgDomainAddress_wf; p_eq := FdbMsgDomainAddress_eq |}.
Next Obligation.
  intros I x old [].
  member (da_mSvcAddrList x) (da_mSvcAddrList old) as (y0 & E0 & C0).
  member (da_mTokenList x) (da_mTokenList old) as (y1 & E1 & C1).
  solve_class.
Qed.
Next Obligation. solve_class_safe. Qed.

(** ** [FdbMsgHostRegisterAck]: reply to a host registration. *)

Record FdbMsgHostRegisterAck := mkHostRegisterAck {
  hk_mDomainName : string;
  hk_mTokenList : FdbMsgTokens;
  hk_mOptions : Z }.

Definition FdbMsgHostRegisterAck_has_token_list (m : FdbMsgHostRegisterAck) : bool :=
  has_bit (hk_mOptions m) mMaskTokenList.

Definition FdbMsgHostRegisterAck_serialize (m : FdbMsgHostRegisterAck) : SerM :=
  put_string (hk_mDomainName m) ;;;
  put_int 1 (hk_mOptions m) ;;;
  ser_if (has_bit (hk_mOptions m) mMaskTokenList) (serialize (hk_mTokenList m)).

Definition FdbMsgHostRegisterAck_deserialize {I : Indet} (m : FdbMsgHostRegisterAck)
  : DesM FdbMsgHostRegisterAck :=
  domain_name ← get_string (hk_mDomainName m);
  options ← get_int false 1 (hk_mOptions m);
  token_list ← des_if (has_bit options mMaskTokenList)
      (deserialize (hk_mTokenList m)) (hk_mTokenList m);
  mret (mkHostRegisterAck domain_name token_list options).

#[export] Hint Unfold FdbMsgHostRegisterAck_has_token_list
  FdbMsgHostRegisterAck_serialize FdbMsgHostRegisterAck_deserialize : codec.

#[export] Instance FdbMsgHostRegisterAck_parcelable : Parcelable FdbMsgHostRegisterAck := {|
  p_default := fun I => mkHostRegisterAck EmptyString (p_default I) 0;
  p_serialize := FdbMsgHostRegisterAck_serialize;
  p_deserialize := @FdbMsgHostRegisterAck_deserialize |}.

Record FdbMsgHostRegisterAck_wf (m : FdbMsgHostRegisterAck) : Prop := {
  hkw_DomainName : str_ok (hk_mDomainName m);
  hkw_TokenList : p_wf (hk_mTokenList m);
  hkw_Options : in_u 8 (hk_mOptions m) }.

Record FdbMsgHostRegisterAck_eq (x y : FdbMsgHostRegisterAck) : Prop := {
  hke_DomainName : hk_mDomainName x = hk_mDomainName y;
  hke_TokenList : FdbMsgHostRegisterAck_has_token_list x = true ->
    p_eq (hk_mTokenList x) (hk_mTokenList y);
  hke_Options : hk_mOptions x = hk_mOptions y }.

Definition FdbMsgHostRegisterAck_wire (m : FdbMsgHostRegisterAck) : list Z :=
  str_wire (hk_mDomainName m) ++ le_bytes 1 (hk_mOptions m) ++
  wire_if (has_bit (hk_mOptions m) mMaskTokenList) (p_wire (hk_mTokenList m)).

#[export] Hint Unfold FdbMsgHostRegisterAck_wire : codec.

#[export] Program Instance FdbMsgHostRegisterAck_laws : ParcelableLaws FdbMsgHostRegisterAck := {|
  p_wire := FdbMsgHostRegisterAck_wire; p_wf := FdbMsgHostRegisterAck_wf; p_eq := FdbMsgHostRegisterAck_eq |}.
Next Obligation.
  intros I x old [].
  member (hk_mTokenList x) (hk_mTokenList old) as (y0 & E0 & C0).
  solve_class.
Qed.
Next Obligation. solve_class_safe. Qed.

(** ** [FdbMsgHostInfo]: body of [NTF_HOST_INFO]. *)

Record FdbMsgHostInfo := mkHostInfo {
  hi_mName : string }.

Definition FdbMsgHostInfo_serialize (m : FdbMsgHostInfo) : SerM :=
  put_string (hi_mName m).

Definition FdbMsgHostInfo_deserialize {I : Indet} (m : FdbMsgHostInfo)
  : DesM FdbMsgHostInfo :=
  name ← get_string (hi_mName m);
  mret (mkHostInfo name).

#[export] Hint Unfold FdbMsgHostInfo_serialize FdbMsgHostInfo_deserialize : codec.

#[export] Instance FdbMsgHostInfo_parcelable : Parcelable FdbMsgHostInfo := {|
  p_default := fun _ => mkHostInfo EmptyString;
  p_serialize := FdbMsgHostInfo_serialize;
  p_deserialize := @FdbMsgHostInfo_deserialize |}.

Record FdbMsgHostInfo_wf (m : FdbMsgHostInfo) : Prop := {
  hiw_Name : str_ok (hi_mName m) }.

Definition FdbMsgHostInfo_wire (m : FdbMsgHostInfo) : list Z :=
  str_wire (hi_mName m).

#[export] Hint Unfold FdbMsgHostInfo_wire : codec.

#[export] Program Instance FdbMsgHostInfo_laws : ParcelableLaws FdbMsgHostInfo := {|
  p_wire := FdbMsgHostInfo_wire; p_wf := FdbMsgHostInfo_wf; p_eq := eq |}.
Next Obligation. intros I x old []. solve_class. Qed.
Next Obligation. solve_class_safe. Qed.

(** ** [FdbMsgHostAddressList]: the known hosts. *)

Record FdbMsgHostAddressList := mkHostAddressList {
  hl_mAddressList : list FdbMsgHostAddress;
  hl_mSvcAddrList : FdbMsgExportableSvcAddress }.

Definition FdbMsgHostAddressList_serialize (m : FdbMsgHostAddressList) : SerM :=
  serialize (hl_mAddressList m) ;;;
  serialize (hl_mSvcAddrList m).

Definition FdbMsgHostAddressList_deserialize {I : Indet} (m : FdbMsgHostAddressList)
  : DesM FdbMsgHostAddressList :=
  address_list ← deserialize (hl_mAddressList m);
  svc_addr_list ← deserialize (hl_mSvcAddrList m);
  mret (mkHostAddressList address_list svc_addr_list).

#[export] Hint Unfold FdbMsgHostAddressList_serialize FdbMsgHostAddressList_deserialize : codec.

#[export] Instance FdbMsgHostAddressList_parcelable : Parcelable FdbMsgHostAddressList := {|
  p_default := fun _ => mkHostAddressList [] (p_default 0);
  p_serialize := FdbMsgHostAddressList_serialize;
  p_deserialize := @FdbMsgHostAddressList_deserialize |}.

Record FdbMsgHostAddressList_wf (m : FdbMsgHostAddressList) : Prop := {
  hlw_AddressList : p_wf (hl_mAddressList m);
  hlw_SvcAddrList : p_wf (hl_mSvcAddrList m) }.

Record FdbMsgHostAddressList_eq (x y : FdbMsgHostAddressList) : Prop := {
  hle_AddressList : p_eq (hl_mAddressList x) (hl_mAddressList y);
  hle_SvcAddrList : p_eq (hl_mSvcAddrList x) (hl_mSvcAddrList y) }.

Definition FdbMsgHostAddressList_wire (m : FdbMsgHostAddressList) : list Z :=
  p_wire (hl_mAddressList m) ++ p_wire (hl_mSvcAddrList m).

#[export] Hint Unfold FdbMsgHostAddressList_wire : codec.

#[export] Program Instance FdbMsgHostAddressList_laws : ParcelableLaws FdbMsgHostAddressList := {|
  p_wire := FdbMsgHostAddressList_wire; p_wf := FdbMsgHostAddressList_wf; p_eq := FdbMsgHostAddressList_eq |}.
Next Obligation.
  intros I x old [].
  member (hl_mAddressList x) (hl_mAddressList old) as (y0 & E0 & C0).
  member (hl_mSvcAddrList x) (hl_mSvcAddrList old) as (y1 & E1 & C1).
  solve_class.
Qed.
Next Obligation. solve_class_safe. Qed.

(** ** [FdbMsgServiceInfo]: a service and the host it runs on. *)

Record FdbMsgServiceInfo := mkServiceInfo {
  vi_mServiceAddr : FdbMsgAddressList;
  vi_mHostAddr : FdbMsgHostAddress }.

Definition FdbMsgServiceInfo_serialize (m : FdbMsgServiceInfo) : SerM :=
  serialize (vi_mServiceAddr m) ;;;
  serialize (vi_mHostAddr m).

Definition FdbMsgServiceInfo_deserialize {I : Indet} (m : FdbMsgServiceInfo)
  : DesM FdbMsgServiceInfo :=
  service_addr ← deserialize (vi_mServiceAddr m);
  host_addr ← deserialize (vi_mHostAddr m);
  mret (mkServiceInfo service_addr host_addr).

#[export] Hint Unfold FdbMsgServiceInfo_serialize FdbMsgServiceInfo_deserialize : codec.

#[export] Instance FdbMsgServiceInfo_parcelable : Parcelable FdbMsgServiceInfo := {|
  p_default := fun _ => mkServiceInfo (p_default 0) (p_default 0);
  p_serialize := FdbMsgServiceInfo_serialize;
  p_deserialize := @FdbMsgServiceInfo_deserialize |}.

Record FdbMsgServiceInfo_wf (m : FdbMsgServiceInfo) : Prop := {
  viw_ServiceAddr : p_wf (vi_mServiceAddr m);
  viw_HostAddr : p_wf (vi_mHostAddr m) }.

Record FdbMsgServiceInfo_eq (x y : FdbMsgServiceInfo) : Prop := {
  vie_ServiceAddr : p_eq (vi_mServiceAddr x) (vi_mServiceAddr y);
  vie_HostAddr : p_eq (vi_mHostAddr x) (vi_mHostAddr y) }.

Definition FdbMsgServiceInfo_wire (m : FdbMsgServiceInfo) : list Z :=
  p_wire (vi_mServiceAddr m) ++ p_wire (vi_mHostAddr m).

#[export] Hint Unfold FdbMsgServiceInfo_wire : codec.

#[export] Program Instance FdbMsgServiceInfo_laws : ParcelableLaws FdbMsgServiceInfo := {|
  p_wire := FdbMsgServiceInfo_wire; p_wf := FdbMsgServiceInfo_wf; p_eq := FdbMsgServiceInfo_eq |}.
Next Obligation.
  intros I x old [].
  member (vi_mServiceAddr x) (vi_mServiceAddr old) as (y0 & E0 & C0).
  member (vi_mHostAddr x) (vi_mHostAddr old) as (y1 & E1 & C1).
  solve_class.
Qed.
Next Obligation. solve_class_safe. Qed.

(** ** [FdbMsgServiceTable]: reply to a service query. *)

Record FdbMsgServiceTable := mkServiceTable {
  vt_mServiceTbl : list FdbMsgServiceInfo;
  vt_mExportedSvcTbl : FdbMsgExportableSvcAddress }.

Definition FdbMsgServiceTable_serialize (m : FdbMsgServiceTable) : SerM :=
  serialize (vt_mServiceTbl m) ;;;
  serialize (vt_mExportedSvcTbl m).

Definition FdbMsgServiceTable_deserialize {I : Indet} (m : FdbMsgServiceTable)
  : DesM FdbMsgServiceTable :=
  service_tbl ← deserialize (vt_mServiceTbl m);
  exported_svc_tbl ← deserialize (vt_mExportedSvcTbl m);
  mret (mkServiceTable service_tbl exported_svc_tbl).

#[export] Hint Unfold FdbMsgServiceTable_serialize FdbMsgServiceTable_deserialize : codec.

#[export] Instance FdbMsgServiceTable_parcelable : Parcelable FdbMsgServiceTable := {|
  p_default := fun _ => mkServiceTable [] (p_default 0);
  p_serialize := FdbMsgServiceTable_serialize;
  p_deserialize := @FdbMsgServiceTable_deserialize |}.

Record FdbMsgServiceTable_wf (m : FdbMsgServiceTable) : Prop := {
  vtw_ServiceTbl : p_wf (vt_mServiceTbl m);
  vtw_ExportedSvcTbl : p_wf (vt_mExportedSvcTbl m) }.

Record FdbMsgServiceTable_eq (x y : FdbMsgServiceTable) : Prop := {
  vte_ServiceTbl : p_eq (vt_mServiceTbl x) (vt_mServiceTbl y);
  vte_ExportedSvcTbl : p_eq (vt_mExportedSvcTbl x) (vt_mExportedSvcTbl y) }.

Definition FdbMsgServiceTable_wire (m : FdbMsgServiceTable) : list Z :=
  p_wire (vt_mServiceTbl m) ++ p_wire (vt_mExportedSvcTbl m).

#[export] Hint Unfold FdbMsgServiceTable_wire : codec.

#[export] Program Instance FdbMsgServiceTable_laws : ParcelableLaws FdbMsgServiceTable := {|
  p_wire := FdbMsgServiceTable_wire; p_wf := FdbMsgServiceTable_wf; p_eq := FdbMsgServiceTable_eq |}.
Next Obligation.
  intros I x old [].
  member (vt_mServiceTbl x) (vt_mServiceTbl old) as (y0 & E0 & C0).
  member (vt_mExportedSvcTbl x) (vt_mExportedSvcTbl old) as (y1 & E1 & C1).
  solve_class.
Qed.
Next Obligation. solve_class_safe. Qed.

(** ** [FdbMsgStatisticsData]: message counters of a session. *)

Record FdbMsgStatisticsData := mkStatisticsData {
  sd_mSyncRequest : Z;
  sd_mSyncReply : Z;
  sd_mAsyncRequest : Z;
  sd_mAsyncReply : Z;
  sd_mBroadcast : Z;
  sd_mPublish : Z;
  sd_mSend : Z;
  sd_mGetEvent : Z;
  sd_mReturnEvent : Z;
  sd_mSyncStatus : Z;
  sd_mAsyncStatus : Z }.

Definition FdbMsgStatisticsData_serialize (m : FdbMsgStatisticsData) : SerM :=
  put_int 4 (sd_mSyncRequest m) ;;;
  put_int 4 (sd_mSyncReply m) ;;;
  put_int 4 (sd_mAsyncRequest m) ;;;
  put_int 4 (sd_mAsyncReply m) ;;;
  put_int 4 (sd_mBroadcast m) ;;;
  put_int 4 (sd_mPublish m) ;;;
  put_int 4 (sd_mSend m) ;;;
  put_int 4 (sd_mGetEvent m) ;;;
  put_int 4 (sd_mReturnEvent m) ;;;
  put_int 4 (sd_mSyncStatus m) ;;;
  put_int 4 (sd_mAsyncStatus m).

Definition FdbMsgStatisticsData_deserialize {I : Indet} (m : FdbMsgStatisticsData)
  : DesM FdbMsgStatisticsData :=
  sync_request ← get_int false 4 (sd_mSyncRequest m);
  sync_reply ← get_int false 4 (sd_mSyncReply m);
  async_request ← get_int false 4 (sd_mAsyncRequest m);
  async_reply ← get_int false 4 (sd_mAsyncReply m);
  broadcast ← get_int false 4 (sd_mBroadcast m);
  publish ← get_int false 4 (sd_mPublish m);
  send ← get_int false 4 (sd_mSend m);
  get_event ← get_int false 4 (sd_mGetEvent m);
  return_event ← get_int false 4 (sd_mReturnEvent m);
  sync_status ← get_int false 4 (sd_mSyncStatus m);
  async_status ← get_int false 4 (sd_mAsyncStatus m);
  mret (mkStatisticsData sync_request sync_reply async_request async_reply broadcast publish
          send get_event return_event sync_status async_status).

#[export] Hint Unfold FdbMsgStatisticsData_serialize FdbMsgStatisticsData_deserialize : codec.

#[export] Instance FdbMsgStatisticsData_parcelable : Parcelable FdbMsgStatisticsData := {|
  p_default := fun I => mkStatisticsData 0 0 0 0 0 0 0 0 0 0 0;
  p_serialize := FdbMsgStatisticsData_serialize;
  p_deserialize := @FdbMsgStatisticsData_deserialize |}.

Record FdbMsgStatisticsData_wf (m : FdbMsgStatisticsData) : Prop := {
  sdw_SyncRequest : in_u 32 (sd_mSyncRequest m);
  sdw_SyncReply : in_u 32 (sd_mSyncReply m);
  sdw_AsyncRequest : in_u 32 (sd_mAsyncRequest m);
  sdw_AsyncReply : in_u 32 (sd_mAsyncReply m);
  sdw_Broadcast : in_u 32 (sd_mBroadcast m);
  sdw_Publish : in_u 32 (sd_mPublish m);
  sdw_Send : in_u 32 (sd_mSend m);
  sdw_GetEvent : in_u 32 (sd_mGetEvent m);
  sdw_ReturnEvent : in_u 32 (sd_mReturnEvent m);
  sdw_SyncStatus : in_u 32 (sd_mSyncStatus m);
  sdw_AsyncStatus : in_u 32 (sd_mAsyncStatus m) }.

Definition FdbMsgStatisticsData_wire (m : FdbMsgStatisticsData) : list Z :=
  le_bytes 4 (sd_mSyncRequest m) ++ le_bytes 4 (sd_mSyncReply m) ++
  le_bytes 4 (sd_mAsyncRequest m) ++ le_bytes 4 (sd_mAsyncReply m) ++
  le_bytes 4 (sd_mBroadcast m) ++ le_bytes 4 (sd_mPublish m) ++ le_bytes 4 (sd_mSend m) ++
  le_bytes 4 (sd_mGetEvent m) ++ le_bytes 4 (sd_mReturnEvent m) ++
  le_bytes 4 (sd_mSyncStatus m) ++ le_bytes 4 (sd_mAsyncStatus m).

#[export] Hint Unfold FdbMsgStatisticsData_wire : codec.

#[export] Program Instance FdbMsgStatisticsData_laws : ParcelableLaws FdbMsgStatisticsData := {|
  p_wire := FdbMsgStatisticsData_wire; p_wf := FdbMsgStatisticsData_wf; p_eq := eq |}.
Next Obligation. intros I x old []. solve_class. Qed.
Next Obligation. solve_class_safe. Qed.

(** ** [FdbMsgClientInfo]: a client connected to a server. *)

Record FdbMsgClientInfo := mkClientInfo {
  ci_mPeerName : string;
  ci_mPeerAddress : string;
  ci_mSecurityLevel : Z;
  ci_mUDPPort : Z;
  ci_mDogStatus : FdbMsgDogStatus;
  ci_mPid : Z;
  ci_mTcpTxStatistics : FdbMsgStatisticsData;
  ci_mTcpRxStatistics : FdbMsgStatisticsData;
  ci_mQOS : EFdbQOS;
  ci_mSid : Z;
  ci_mTxQueueSize : Z }.

Definition FdbMsgClientInfo_serialize (m : FdbMsgClientInfo) : SerM :=
  put_string (ci_mPeerName m) ;;;
  put_string (ci_mPeerAddress m) ;;;
  put_int 4 (ci_mSecurityLevel m) ;;;
  put_int 4 (ci_mUDPPort m) ;;;
  put_int 1 (wrap_s 8 (e_val (ci_mDogStatus m))) ;;;
  put_int 4 (u32 (ci_mPid m)) ;;;
  serialize (ci_mTcpTxStatistics m) ;;;
  serialize (ci_mTcpRxStatistics m) ;;;
  put_int 1 (u8 (e_val (ci_mQOS m))) ;;;
  put_int 4 (i32 (ci_mSid m)) ;;;
  put_int 4 (ci_mTxQueueSize m).

Definition FdbMsgClientInfo_deserialize {I : Indet} (m : FdbMsgClientInfo)
  : DesM FdbMsgClientInfo :=
  peer_name ← get_string (ci_mPeerName m);
  peer_address ← get_string (ci_mPeerAddress m);
  security_level ← get_int true 4 (ci_mSecurityLevel m);
  udp_port ← get_int true 4 (ci_mUDPPort m);
  dog_status ← get_int true 1 indet;
  pid ← get_int false 4 indet;
  tcp_tx_statistics ← deserialize (ci_mTcpTxStatistics m);
  tcp_rx_statistics ← deserialize (ci_mTcpRxStatistics m);
  qos ← get_int false 1 indet;
  sid ← get_int true 4 indet;
  tx_queue_size ← get_int false 4 (ci_mTxQueueSize m);
  mret (mkClientInfo peer_name peer_address security_level udp_port (e_of dog_status)
          (i32 pid) tcp_tx_statistics tcp_rx_statistics (e_of qos) (i32 sid) tx_queue_size).

#[export] Hint Unfold FdbMsgClientInfo_serialize FdbMsgClientInfo_deserialize : codec.

#[export] Instance FdbMsgClientInfo_parcelable : Parcelable FdbMsgClientInfo := {|
  p_default := fun _ => mkClientInfo EmptyString EmptyString 0 0 (e_of 0) 0 (p_default 0)
    (p_default 0) (e_of 0) 0 0;
  p_serialize := FdbMsgClientInfo_serialize;
  p_deserialize := @FdbMsgClientInfo_deserialize |}.

Record FdbMsgClientInfo_wf (m : FdbMsgClientInfo) : Prop := {
  ciw_PeerName : str_ok (ci_mPeerName m);
  ciw_PeerAddress : str_ok (ci_mPeerAddress m);
  ciw_SecurityLevel : in_s 32 (ci_mSecurityLevel m);
  ciw_UDPPort : in_s 32 (ci_mUDPPort m);
  ciw_DogStatus : dog_ok (ci_mDogStatus m);
  ciw_Pid : in_s 32 (ci_mPid m);
  ciw_TcpTxStatistics : p_wf (ci_mTcpTxStatistics m);
  ciw_TcpRxStatistics : p_wf (ci_mTcpRxStatistics m);
  ciw_QOS : enum_ok (ci_mQOS m);
  ciw_Sid : in_s 32 (ci_mSid m);
  ciw_TxQueueSize : in_u 32 (ci_mTxQueueSize m) }.

Definition FdbMsgClientInfo_wire (m : FdbMsgClientInfo) : list Z :=
  str_wire (ci_mPeerName m) ++ str_wire (ci_mPeerAddress m) ++
  le_bytes 4 (ci_mSecurityLevel m) ++ le_bytes 4 (ci_mUDPPort m) ++
  le_bytes 1 (wrap_s 8 (e_val (ci_mDogStatus m))) ++ le_bytes 4 (u32 (ci_mPid m)) ++
  p_wire (ci_mTcpTxStatistics m) ++ p_wire (ci_mTcpRxStatistics m) ++
  le_bytes 1 (u8 (e_val (ci_mQOS m))) ++ le_bytes 4 (i32 (ci_mSid m)) ++
  le_bytes 4 (ci_mTxQueueSize m).

#[export] Hint Unfold FdbMsgClientInfo_wire : codec.

#[export] Program Instance FdbMsgClientInfo_laws : ParcelableLaws FdbMsgClientInfo := {|
  p_wire := FdbMsgClientInfo_wire; p_wf := FdbMsgClientInfo_wf; p_eq := eq |}.
Next Obligation.
  intros I x old [].
  member (ci_mTcpTxStatistics x) (ci_mTcpTxStatistics old) as (y0 & E0 & C0).
  member (ci_mTcpRxStatistics x) (ci_mTcpRxStatistics old) as (y1 & E1 & C1).
  solve_class.
Qed.
Next Obligation. solve_class_safe. Qed.

(** ** [FdbMsgClientTable]: the clients of a server. *)

Record FdbMsgClientTable := mkClientTable {
  ct_mEndpointName : string;
  ct_mServerName : string;
  ct_mContextJobQueueSize : Z;
  ct_mWorkerJobQueueSize : Z;
  ct_mClientTbl : list FdbMsgClientInfo;
  ct_mInstanceId : Z;
  ct_mOption : Z }.

Definition FdbMsgClientTable_has_context_job_queue_size (m : FdbMsgClientTable) : bool :=
  has_bit (ct_mOption m) mMaskHasContext.
Definition FdbMsgClientTable_has_worker_job_queue_size (m : FdbMsgClientTable) : bool :=
  has_bit (ct_mOption m) mMaskHasWorker.

Definition FdbMsgClientTable_serialize (m : FdbMsgClientTable) : SerM :=
  put_string (ct_mEndpointName m) ;;;
  put_string (ct_mServerName m) ;;;
  serialize (ct_mClientTbl m) ;;;
  put_int 4 (ct_mInstanceId m) ;;;
  put_int 1 (ct_mOption m) ;;;
  ser_if (has_bit (ct_mOption m) mMaskHasContext) (put_int 4 (ct_mContextJobQueueSize m)) ;;;
  ser_if (has_bit (ct_mOption m) mMaskHasWorker) (put_int 4 (ct_mWorkerJobQueueSize m)).

Definition FdbMsgClientTable_deserialize {I : Indet} (m : FdbMsgClientTable)
  : DesM FdbMsgClientTable :=
  endpoint_name ← get_string (ct_mEndpointName m);
  server_name ← get_string (ct_mServerName m);
  client_tbl ← deserialize (ct_mClientTbl m);
  instance_id ← get_int true 4 (ct_mInstanceId m);
  option ← get_int false 1 (ct_mOption m);
  context_job_queue_size ← des_if (has_bit option mMaskHasContext)
      (get_int false 4 (ct_mContextJobQueueSize m)) (ct_mContextJobQueueSize m);
  worker_job_queue_size ← des_if (has_bit option mMaskHasWorker)
      (get_int false 4 (ct_mWorkerJobQueueSize m)) (ct_mWorkerJobQueueSize m);
  mret (mkClientTable endpoint_name server_name context_job_queue_size worker_job_queue_size
          client_tbl instance_id option).

#[export] Hint Unfold FdbMsgClientTable_has_context_job_queue_size FdbMsgClientTable_has_worker_job_queue_size
  FdbMsgClientTable_serialize FdbMsgClientTable_deserialize : codec.

#[export] Instance FdbMsgClientTable_parcelable : Parcelable FdbMsgClientTable := {|
  p_default := fun I => mkClientTable EmptyString EmptyString 0 0 [] I 0;
  p_serialize := FdbMsgClientTable_serialize;
  p_deserialize := @FdbMsgClientTable_deserialize |}.

Record FdbMsgClientTable_wf (m : FdbMsgClientTable) : Prop := {
  ctw_EndpointName : str_ok (ct_mEndpointName m);
  ctw_ServerName : str_ok (ct_mServerName m);
  ctw_ContextJobQueueSize : in_u 32 (ct_mContextJobQueueSize m);
  ctw_WorkerJobQueueSize : in_u 32 (ct_mWorkerJobQueueSize m);
  ctw_ClientTbl : p_wf (ct_mClientTbl m);
  ctw_InstanceId : in_s 32 (ct_mInstanceId m);
  ctw_Option : in_u 8 (ct_mOption m) }.

Record FdbMsgClientTable_eq (x y : FdbMsgClientTable) : Prop := {
  cte_EndpointName : ct_mEndpointName x = ct_mEndpointName y;
  cte_ServerName : ct_mServerName x = ct_mServerName y;
  cte_ContextJobQueueSize : FdbMsgClientTable_has_context_job_queue_size x = true ->
    ct_mContextJobQueueSize x = ct_mContextJobQueueSize y;
  cte_WorkerJobQueueSize : FdbMsgClientTable_has_worker_job_queue_size x = true ->
    ct_mWorkerJobQueueSize x = ct_mWorkerJobQueueSize y;
  cte_ClientTbl : p_eq (ct_mClientTbl x) (ct_mClientTbl y);
  cte_InstanceId : ct_mInstanceId x = ct_mInstanceId y;
  cte_Option : ct_mOption x = ct_mOption y }.

Definition FdbMsgClientTable_wire (m : FdbMsgClientTable) : list Z :=
  str_wire (ct_mEndpointName m) ++ str_wire (ct_mServerName m) ++
  p_wire (ct_mClientTbl m) ++ le_bytes 4 (ct_mInstanceId m) ++ le_bytes 1 (ct_mOption m) ++
  wire_if (has_bit (ct_mOption m) mMaskHasContext) (le_bytes 4 (ct_mContextJobQueueSize m)) ++
  wire_if (has_bit (ct_mOption m) mMaskHasWorker) (le_bytes 4 (ct_mWorkerJobQueueSize m)).

#[export] Hint Unfold FdbMsgClientTable_wire : codec.

#[export] Program Instance FdbMsgClientTable_laws : ParcelableLaws FdbMsgClientTable := {|
  p_wire := FdbMsgClientTable_wire; p_wf := FdbMsgClientTable_wf; p_eq := FdbMsgClientTable_eq |}.
Next Obligation.
  intros I x old [].
  member (ct_mClientTbl x) (ct_mClientTbl old) as (y0 & E0 & C0).
  solve_class.
Qed.
Next Obligation. solve_class_safe. Qed.

(** ** [FdbMsgQueryPeerInfo]: a session to describe. *)

Record FdbMsgQueryPeerInfo := mkQueryPeerInfo {
  qp_mSid : Z }.

Definition FdbMsgQueryPeerInfo_serialize (m : FdbMsgQueryPeerInfo) : SerM :=
  put_int 4 (i32 (qp_mSid m)).

Definition FdbMsgQueryPeerInfo_deserialize {I : Indet} (m : FdbMsgQueryPeerInfo)
  : DesM FdbMsgQueryPeerInfo :=
  sid ← get_int true 4 indet;
  mret (mkQueryPeerInfo (i32 sid)).

#[export] Hint Unfold FdbMsgQueryPeerInfo_serialize FdbMsgQueryPeerInfo_deserialize : codec.

#[export] Instance FdbMsgQueryPeerInfo_parcelable : Parcelable FdbMsgQueryPeerInfo := {|
  p_default := fun _ => mkQueryPeerInfo 0;
  p_serialize := FdbMsgQueryPeerInfo_serialize;
  p_deserialize := @FdbMsgQueryPeerInfo_deserialize |}.

Record FdbMsgQueryPeerInfo_wf (m : FdbMsgQueryPeerInfo) : Prop := {
  qpw_Sid : in_s 32 (qp_mSid m) }.

Definition FdbMsgQueryPeerInfo_wire (m : FdbMsgQueryPeerInfo) : list Z :=
  le_bytes 4 (i32 (qp_mSid m)).

#[export] Hint Unfold FdbMsgQueryPeerInfo_wire : codec.

#[export] Program Instance FdbMsgQueryPeerInfo_laws : ParcelableLaws FdbMsgQueryPeerInfo := {|
  p_wire := FdbMsgQueryPeerInfo_wire; p_wf := FdbMsgQueryPeerInfo_wf; p_eq := eq |}.
Next Obligation. intros I x old []. solve_class. Qed.
Next Obligation. solve_class_safe. Qed.

(** ** [FdbMsgEventCacheItem]: a cached event. *)

Record FdbMsgEventCacheItem := mkEventCacheItem {
  ei_mEvent : Z;
  ei_mTopic : string;
  ei_mSize : Z }.

Definition FdbMsgEventCacheItem_serialize (m : FdbMsgEventCacheItem) : SerM :=
  put_int 4 (ei_mEvent m) ;;;
  put_string (ei_mTopic m) ;;;
  put_int 4 (ei_mSize m).

Definition FdbMsgEventCacheItem_deserialize {I : Indet} (m : FdbMsgEventCacheItem)
  : DesM FdbMsgEventCacheItem :=
  event ← get_int true 4 (ei_mEvent m);
  topic ← get_string (ei_mTopic m);
  size ← get_int true 4 (ei_mSize m);
  mret (mkEventCacheItem event topic size).

#[export] Hint Unfold FdbMsgEventCacheItem_serialize FdbMsgEventCacheItem_deserialize : codec.

#[export] Instance FdbMsgEventCacheItem_parcelable : Parcelable FdbMsgEventCacheItem := {|
  p_default := fun _ => mkEventCacheItem 0 EmptyString 0;
  p_serialize := FdbMsgEventCacheItem_serialize;
  p_deserialize := @FdbMsgEventCacheItem_deserialize |}.

Record FdbMsgEventCacheItem_wf (m : FdbMsgEventCacheItem) : Prop := {
  eiw_Event : in_s 32 (ei_mEvent m);
  eiw_Topic : str_ok (ei_mTopic m);
  eiw_Size : in_s 32 (ei_mSize m) }.

Definition FdbMsgEventCacheItem_wire (m : FdbMsgEventCacheItem) : list Z :=
  le_bytes 4 (ei_mEvent m) ++ str_wire (ei_mTopic m) ++ le_bytes 4 (ei_mSize m).

#[export] Hint Unfold FdbMsgEventCacheItem_wire : codec.

#[export] Program Instance FdbMsgEventCacheItem_laws : ParcelableLaws FdbMsgEventCacheItem := {|
  p_wire := FdbMsgEventCacheItem_wire; p_wf := FdbMsgEventCacheItem_wf; p_eq := eq |}.
Next Obligation. intros I x old []. solve_class. Qed.
Next Obligation. solve_class_safe. Qed.

(** ** [FdbMsgEventCache]: the event cache of a server. *)

Record FdbMsgEventCache := mkEventCache {
  ec_mCache : list FdbMsgEventCacheItem }.

Definition FdbMsgEventCache_serialize (m : FdbMsgEventCache) : SerM :=
  serialize (ec_mCache m).

Definition FdbMsgEventCache_deserialize {I : Indet} (m : FdbMsgEventCache)
  : DesM FdbMsgEventCache :=
  cache ← deserialize (ec_mCache m);
  mret (mkEventCache cache).

#[export] Hint Unfold FdbMsgEventCache_serialize FdbMsgEventCache_deserialize : codec.

#[export] Instance FdbMsgEventCache_parcelable : Parcelable FdbMsgEventCache := {|
  p_default := fun _ => mkEventCache [];
  p_serialize := FdbMsgEventCache_serialize;
  p_deserialize := @FdbMsgEventCache_deserialize |}.

Record FdbMsgEventCache_wf (m : FdbMsgEventCache) : Prop := {
  ecw_Cache : p_wf (ec_mCache m) }.

Record FdbMsgEventCache_eq (x y : FdbMsgEventCache) : Prop := {
  ece_Cache : p_eq (ec_mCache x) (ec_mCache y) }.

Definition FdbMsgEventCache_wire (m : FdbMsgEventCache) : list Z :=
  p_wire (ec_mCache m).

#[export] Hint Unfold FdbMsgEventCache_wire : codec.

#[export] Program Instance FdbMsgEventCache_laws : ParcelableLaws FdbMsgEventCache := {|
  p_wire := FdbMsgEventCache_wire; p_wf := FdbMsgEventCache_wf; p_eq := FdbMsgEventCache_eq |}.
Next Obligation.
  intros I x old [].
  member (ec_mCache x) (ec_mCache old) as (y0 & E0 & C0).
  solve_class.
Qed.
Next Obligation. solve_class_safe. Qed.

(** ** [FdbMsgAllExportableService]: the exported services seen by a host server. *)

Record FdbMsgAllExportableService := mkAllExportableService {
  ae_mUpstreamTable : FdbMsgExportableSvcAddress;
  ae_mLocalTable : FdbMsgExportableSvcAddress;
  ae_mDownstreamTable : FdbMsgExportableSvcAddress }.

Definition FdbMsgAllExportableService_serialize (m : FdbMsgAllExportableService) : SerM :=
  serialize (ae_mUpstreamTable m) ;;;
  serialize (ae_mLocalTable m) ;;;
  serialize (ae_mDownstreamTable m).

Definition FdbMsgAllExportableService_deserialize {I : Indet} (m : FdbMsgAllExportableService)
  : DesM FdbMsgAllExportableService :=
  upstream_table ← deserialize (ae_mUpstreamTable m);
  local_table ← deserialize (ae_mLocalTable m);
  downstream_table ← deserialize (ae_mDownstreamTable m);
  mret (mkAllExportableService upstream_table local_table downstream_table).

#[export] Hint Unfold FdbMsgAllExportableService_serialize FdbMsgAllExportableService_deserialize : codec.

#[export] Instance FdbMsgAllExportableService_parcelable : Parcelable FdbMsgAllExportableService := {|
  p_default := fun _ => mkAllExportableService (p_default 0) (p_default 0) (p_default 0);
  p_serialize := FdbMsgAllExportableService_serialize;
  p_deserialize := @FdbMsgAllExportableService_deserialize |}.

Record FdbMsgAllExportableService_wf (m : FdbMsgAllExportableService) : Prop := {
  aew_UpstreamTable : p_wf (ae_mUpstreamTable m);
  aew_LocalTable : p_wf (ae_mLocalTable m);
  aew_DownstreamTable : p_wf (ae_mDownstreamTable m) }.

Record FdbMsgAllExportableService_eq (x y : FdbMsgAllExportableService) : Prop := {
  aee_UpstreamTable : p_eq (ae_mUpstreamTable x) (ae_mUpstreamTable y);
  aee_LocalTable : p_eq (ae_mLocalTable x) (ae_mLocalTable y);
  aee_DownstreamTable : p_eq (ae_mDownstreamTable x) (ae_mDownstreamTable y) }.

Definition FdbMsgAllExportableService_wire (m : FdbMsgAllExportableService) : list Z :=
  p_wire (ae_mUpstreamTable m) ++ p_wire (ae_mLocalTable m) ++
  p_wire (ae_mDownstreamTable m).

#[export] Hint Unfold FdbMsgAllExportableService_wire : codec.

#[export] Program Instance FdbMsgAllExportableService_laws : ParcelableLaws FdbMsgAllExportableService := {|
  p_wire := FdbMsgAllExportableService_wire; p_wf := FdbMsgAllExportableService_wf; p_eq := FdbMsgAllExportableService_eq |}.
Next Obligation.
  intros I x old [].
  member (ae_mUpstreamTable x) (ae_mUpstreamTable old) as (y0 & E0 & C0).
  member (ae_mLocalTable x) (ae_mLocalTable old) as (y1 & E1 & C1).
  member (ae_mDownstreamTable x) (ae_mDownstreamTable old) as (y2 & E2 & C2).
  solve_class.
Qed.
Next Obligation. solve_class_safe. Qed.

(** ** Operations of the address messages *)

Definition FdbMsgAddressItem_new {I : Indet} : FdbMsgAddressItem := p_default I.

(** [set_udp_port] also marks the port as present. *)
Definition set_udp_port (m : FdbMsgAddressItem) (port : Z) : FdbMsgAddressItem :=
  mkAddressItem (ai_mTCPIPCAddress m) (ai_mTCPPort m) (ai_mType m) (ai_mTCPIPCUrl m) port
    (ai_mIsSecure m) (ai_mExportableLevel m) (ai_mInterfaceId m)
    (set_bit (ai_mOptions m) mMaskHasUDPPort).

Definition set_secure (m : FdbMsgAddressItem) (secure : bool) : FdbMsgAddressItem :=
  mkAddressItem (ai_mTCPIPCAddress m) (ai_mTCPPort m) (ai_mType m) (ai_mTCPIPCUrl m)
    (ai_mUDPPort m) secure (ai_mExportableLevel m) (ai_mInterfaceId m) (ai_mOptions m).

Definition set_exportable_level (m : FdbMsgAddressItem) (level : Z) : FdbMsgAddressItem :=
  mkAddressItem (ai_mTCPIPCAddress m) (ai_mTCPPort m) (ai_mType m) (ai_mTCPIPCUrl m)
    (ai_mUDPPort m) (ai_mIsSecure m) level (ai_mInterfaceId m) (ai_mOptions m).

Definition set_interface_id (m : FdbMsgAddressItem) (id : Z) : FdbMsgAddressItem :=
  mkAddressItem (ai_mTCPIPCAddress m) (ai_mTCPPort m) (ai_mType m) (ai_mTCPIPCUrl m)
    (ai_mUDPPort m) (ai_mIsSecure m) (ai_mExportableLevel m) id (ai_mOptions m).

(** Replaces the address and the url. *)
Definition set_tcp_ipc_address_url (m : FdbMsgAddressItem) (addr url : string)
  : FdbMsgAddressItem :=
  mkAddressItem addr (ai_mTCPPort m) (ai_mType m) url (ai_mUDPPort m) (ai_mIsSecure m)
    (ai_mExportableLevel m) (ai_mInterfaceId m) (ai_mOptions m).

Definition fromSocketAddress (m : FdbMsgAddressItem) (a : CFdbSocketAddr) : FdbMsgAddressItem :=
  mkAddressItem (sa_mAddr a) (sa_mPort a) (sa_mType a) (sa_mUrl a) (ai_mUDPPort m)
    (sa_mSecure a) (ai_mExportableLevel m) (ai_mInterfaceId m) (ai_mOptions m).

(** [mAddrDigit] of the target keeps its value. *)
Definition toSocketAddress (m : FdbMsgAddressItem) (a : CFdbSocketAddr) : CFdbSocketAddr :=
  mkSocketAddr (ai_mTCPIPCUrl m) (ai_mType m) (ai_mTCPIPCAddress m) (sa_mAddrDigit a)
    (ai_mTCPPort m) (ai_mIsSecure m).

Definition FdbMsgAddressList_new {I : Indet} : FdbMsgAddressList := p_default I.

Definition al_set_addresses (m : FdbMsgAddressList) (l : list FdbMsgAddressItem)
  : FdbMsgAddressList :=
  mkAddressList (al_mServiceName m) (al_mHostName m) (al_mEndpointName m) (al_mDomainName m)
    (al_mInstanceId m) (al_mIsLocal m) (al_mPid m) l (al_mTokenList m) (al_mOptions m).

(** [*add_address_list() = item]. *)
Definition add_address_list (m : FdbMsgAddressList) (item : FdbMsgAddressItem)
  : FdbMsgAddressList := al_set_addresses m (al_mAddressList m ++ [item]).

Definition set_is_local (m : FdbMsgAddressList) (local : bool) : FdbMsgAddressList :=
  mkAddressList (al_mServiceName m) (al_mHostName m) (al_mEndpointName m) (al_mDomainName m)
    (al_mInstanceId m) local (al_mPid m) (al_mAddressList m) (al_mTokenList m) (al_mOptions m).

(** Assignment through [token_list()], which marks the list as present. *)
Definition al_set_tokens (m : FdbMsgAddressList) (tokens : list string) : FdbMsgAddressList :=
  mkAddressList (al_mServiceName m) (al_mHostName m) (al_mEndpointName m) (al_mDomainName m)
    (al_mInstanceId m) (al_mIsLocal m) (al_mPid m) (al_mAddressList m) (mkTokens tokens)
    (set_bit (al_mOptions m) mMaskTokenList).

Definition populateTokens (m : FdbMsgAddressList) (tokens : list string) : FdbMsgAddressList :=
  al_set_tokens m tokens.

Definition dumpTokens (m : FdbMsgAddressList) (tokens : list string) : list string :=
  tokens ++ tk_mTokens (al_mTokenList m).

(** The flags of a [FdbMsgServerName]. *)
Definition FDB_NS_LOCAL_ONLY : Z := 1.
Definition FDB_NS_ALLOW_TCP_NORMAL : Z := 2.
Definition FDB_NS_ALLOW_TCP_SECURE : Z := 4.

Definition sn_set_flag (m : FdbMsgServerName) (flag : Z) (on : bool) : FdbMsgServerName :=
  mkServerName (sn_mName m) (sn_mEndpointName m)
    (u8 (if on then Z.lor (sn_mFlag m) flag else Z.land (sn_mFlag m) (Z.lnot flag)))
    (sn_mExportableLevel m) (sn_mInstanceId m).
Definition sn_has_flag (m : FdbMsgServerName) (flag : Z) : bool := has_bit (sn_mFlag m) flag.

Lemma set_udp_port_present m port :
  FdbMsgAddressItem_has_udp_port (set_udp_port m port) = true /\
  ai_mUDPPort (set_udp_port m port) = port.
Proof. split; [apply has_set_bit; [unfold in_u, mMaskHasUDPPort; lia|done] | done]. Qed.

(** A socket address survives the message except for its numeric form. *)
Lemma socket_address_roundtrip m a b :
  toSocketAddress (fromSocketAddress m a) b =
  mkSocketAddr (sa_mUrl a) (sa_mType a) (sa_mAddr a) (sa_mAddrDigit b) (sa_mPort a) (sa_mSecure a).
Proof. done. Qed.
