(* ===== verification/WireTheorems.v ===== *)
(** The properties of the wire format: round trips of the message header and of
    the name-server messages, safety of decoding untrusted payloads, agreement
    between hosts of different byte order, and the values the format loses. *)
From S2P Require Import Prelude Serializer Codec CommonDefs WireBase NsMessages.

(** [CFdbMessage::deserialize]: parsing the payload of a received message. An
    absent or empty payload is rejected before the parser sees it. *)
Definition msg_deserialize {T} `{Parcelable T} {I : Indet} (le : bool)
  (payload : option (list Z)) (payload_size : Z) (old : T) : option (T * bool) :=
  match payload with
  | None => Some (old, false)
  | Some _ => if payload_size =? 0 then Some (old, false)
              else parser_parse le payload payload_size old
  end.

Lemma msg_deserialize_safe {T} `{ParcelableLaws T} (I : Indet) (old : T) (le : bool)
    (buf : list Z) :
  Forall (in_u 8) buf -> Z.of_nat (length buf) <= INT32_MAX - 65536 ->
  exists y ok, msg_deserialize le (Some buf) (Z.of_nat (length buf)) old = Some (y, ok).
Proof.
  intros Hb Hl. unfold msg_deserialize.
  destruct (Z.eqb_spec (Z.of_nat (length buf)) 0); [by eexists _, _|].
  apply parse_safe; [done|lia].
Qed.

(** The serializer is an append-only byte string: on a serializer in a valid
    state every scalar, raw block and string is appended to the contents without
    a write outside the buffer, whether the scratch array, a first heap block or a
    grown one holds them, as long as the contents stay below 2 GB. *)
Theorem serializer_appends (s : CFdbSimpleSerializer) (n v : Z) (raw : list Z) (str : string) :
  ser_ok s -> 0 < n <= 8 -> str_ok str ->
  mPos s + n + Z.of_nat (length raw) + Z.of_nat (length (str_wire str)) <= SER_LIMIT ->
  exists s', (put_int n v ;;; addRawData raw (Z.of_nat (length raw)) ;;; put_string str) s = Some s' /\
    ser_ok s' /\ content s' = content s ++ le_bytes n v ++ raw ++ str_wire str.
Proof.
  intros Hs Hn Hstr Hl.
  destruct (writes_seq _ _ _ _ (writes_int n v ltac:(lia) ltac:(lia))
    (writes_seq _ _ _ _ (writes_raw raw) (writes_string str Hstr)) s Hs) as (s' & E & O & C & _).
  { rewrite !length_app. pose proof (length_le_bytes n v). lia. }
  eauto.
Qed.

Lemma serializer_appends_witness :
  exists s', (put_int 4 (-2) ;;; addRawData [1; 2] 2 ;;; put_string "ab")
               (serializer_new false (replicate 2048 0)) = Some s' /\
    ser_ok s' /\ content s' = [] ++ le_bytes 4 (-2) ++ [1; 2] ++ str_wire "ab".
Proof.
  apply (serializer_appends (serializer_new false (replicate 2048 0)) 4 (-2) [1; 2] "ab").
  - by split; vm_compute.
  - lia.
  - apply (bool_decide_unpack _). vm_compute. exact Logic.I.
  - vm_compute. discriminate.
Defined.

(** Every well-formed message header is recovered from the bytes the builder
    makes of it, on a host of either byte order, up to the optional members the
    header announces as absent. *)
Theorem message_header_roundtrip (I : Indet) (s : CFdbSimpleSerializer) (le : bool)
    (h old : CFdbMessageHeader) :
  Z.of_nat (length (mScratchCache s)) = FDB_SCRATCH_CACHE_SIZE -> CFdbMessageHeader_wf h ->
  exists bs h', builder_build s h = Some (bs, Z.of_nat (length bs)) /\
    parser_parse le (Some bs) (Z.of_nat (length bs)) old = Some (h', true) /\
    CFdbMessageHeader_eq h h'.
Proof.
  intros Hs Hwf. assert (0 < Z.of_nat (length (p_wire h)) <= INT32_MAX - 65536) as Hl.
  { simpl. unfold CFdbMessageHeader_wire, wire_if, str_wire.
    destruct Hwf as [_ _ _ _ _ _ [_ Ht] _ _ _ _].
    rewrite !length_app.
    pose proof (length_le_bytes 1 (u8 (e_val (mh_mType h)))). pose proof (length_le_bytes 4 (mh_mSn h)).
    pose proof (length_le_bytes 4 (mh_mCode h)). pose proof (length_le_bytes 4 (mh_mFlag h)).
    pose proof (length_le_bytes 4 (mh_mObjId h)). pose proof (length_le_bytes 4 (mh_mPayloadSize h)).
    pose proof (length_le_bytes 1 (u8 (e_val (mh_mQOS h)))). pose proof (length_le_bytes 1 (mh_mOptions h)).
    pose proof (length_le_bytes 8 (mh_mSendArriveTime h)). pose proof (length_le_bytes 8 (mh_mReplyTime h)).
    pose proof (length_le_bytes 2 (Z.of_nat (String.length (mh_mTopic h)) + 1)).
    pose proof (length_str_bytes (mh_mTopic h)). unfold INT32_MAX.
    repeat case_match; rewrite ?length_app; simpl length; lia. }
  edestruct (parse_wire I le h old) as (h' & E & P); [exact Hwf|exact Hl|].
  exists (p_wire h), h'. split; [|done].
  apply build_wire; [done|done|]. unfold SER_LIMIT, INT32_MAX in *. lia.
Qed.

Definition sample_header : CFdbMessageHeader :=
  mkHeader FDB_MT_BROADCAST 7 3 1 2 0 "weather" 0 0 FDB_QOS_RELIABLE 2.

Lemma sample_header_wf : CFdbMessageHeader_wf sample_header.
Proof.
  split; try (vm_compute; done); split; try (vm_compute; done).
  apply (bool_decide_unpack _). vm_compute. exact Logic.I.
Qed.

Lemma message_header_roundtrip_witness :
  exists bs h',
    builder_build (serializer_new true (replicate 2048 0)) sample_header = Some (bs, Z.of_nat (length bs)) /\
    @parser_parse _ _ 0 false (Some bs) (Z.of_nat (length bs)) sample_header = Some (h', true) /\
    CFdbMessageHeader_eq sample_header h'.
Proof.
  apply (message_header_roundtrip 0 (serializer_new true (replicate 2048 0)) false).
  - reflexivity.
  - exact sample_header_wf.
Defined.

(** A service table, the deepest of the name-server messages (services, each
    with its addresses and tokens, its host, and the exported services), is
    recovered from its wire form: the builder emits exactly the wire form and
    the parser, on a host of either byte order and into an object with any
    previous contents, accepts it and yields an equal table. *)
Theorem service_table_roundtrip (I : Indet) (s : CFdbSimpleSerializer) (le : bool)
    (t old : FdbMsgServiceTable) :
  Z.of_nat (length (mScratchCache s)) = FDB_SCRATCH_CACHE_SIZE -> FdbMsgServiceTable_wf t ->
  Z.of_nat (length (FdbMsgServiceTable_wire t)) <= INT32_MAX - 65536 ->
  builder_build s t =
    Some (FdbMsgServiceTable_wire t, Z.of_nat (length (FdbMsgServiceTable_wire t))) /\
  exists t', parser_parse le (Some (FdbMsgServiceTable_wire t))
               (Z.of_nat (length (FdbMsgServiceTable_wire t))) old = Some (t', true) /\
    FdbMsgServiceTable_eq t t'.
Proof.
  intros Hs Hwf Hl. split.
  - apply (@build_wire _ _ FdbMsgServiceTable_laws s t); [done|done|].
    etrans; [exact Hl|]. unfold SER_LIMIT, INT32_MAX. lia.
  - edestruct (@parse_wire _ _ FdbMsgServiceTable_laws I le t old) as (t' & E & P); [exact Hwf| |by eauto].
    split; [|exact Hl]. cbn -[le_bytes length]. unfold FdbMsgServiceTable_wire.
    cbn -[le_bytes length]. unfold array_wire. rewrite !length_app.
    pose proof (length_le_bytes 2 (Z.of_nat (length (vt_mServiceTbl t)))). lia.
Qed.

Definition sample_item : FdbMsgAddressItem :=
  mkAddressItem "10.0.0.1" 60010 FDB_SOCKET_TCP "tcp://10.0.0.1:60010" 6000 false 1 0 1.
Definition sample_list : FdbMsgAddressList :=
  mkAddressList "media" "host" "player" "" 0 true 42 [sample_item] (mkTokens ["tok"]) 1.
Definition sample_table : FdbMsgServiceTable :=
  mkServiceTable
    [mkServiceInfo sample_list
       (mkHostAddress "10.0.0.1" "host" [] (mkTokens []) (mkExportableSvcAddress []) 0)]
    (mkExportableSvcAddress [sample_list]).

(** Decides the well-formedness of a concrete message. *)
Ltac solve_wf :=
  repeat first
    [ apply Forall_nil; exact Logic.I
    | apply Forall_cons; split
    | exact (bool_decide_unpack _ Logic.I)
    | split
    | progress simpl ]; try (vm_compute; first [done | discriminate | split; discriminate]).

Lemma sample_table_wf : FdbMsgServiceTable_wf sample_table.
Proof. solve_wf. Qed.

Lemma service_table_roundtrip_witness :
  builder_build (serializer_new true (replicate 2048 0)) sample_table =
    Some (FdbMsgServiceTable_wire sample_table,
          Z.of_nat (length (FdbMsgServiceTable_wire sample_table))) /\
  exists t', @parser_parse _ _ 0 false (Some (FdbMsgServiceTable_wire sample_table))
               (Z.of_nat (length (FdbMsgServiceTable_wire sample_table)))
               (mkServiceTable [] (mkExportableSvcAddress [])) = Some (t', true) /\
    FdbMsgServiceTable_eq sample_table t'.
Proof.
  apply (service_table_roundtrip 0 (serializer_new true (replicate 2048 0)) false).
  - reflexivity.
  - exact sample_table_wf.
  - vm_compute. discriminate.
Defined.

(** C34: Decoding a message is memory safe whatever the peer sent: for the message
    header, for every type of request an endpoint, a name server or a host server
    parses, and for the tables a name server or host server reads from its peers,
    decoding any payload of at most 2^31 - 65536 bytes returns: it never reads
    outside the payload and never overflows its position. In a longer payload the
    position of the reader, an int, may overflow when a string length is added. *)
Theorem untrusted_requests_decode (I : Indet) (le : bool) (buf : list Z) :
  Forall (in_u 8) buf -> Z.of_nat (length buf) <= INT32_MAX - 65536 ->
  let size := Z.of_nat (length buf) in
  (forall old : CFdbMessageHeader, is_Some (msg_deserialize le (Some buf) size old)) /\
  (forall old : FdbSessionInfo, is_Some (msg_deserialize le (Some buf) size old)) /\
  (forall old : FdbAuthentication, is_Some (msg_deserialize le (Some buf) size old)) /\
  (forall old : CFdbMsgTable, is_Some (msg_deserialize le (Some buf) size old)) /\
  (forall old : FdbMsgServerName, is_Some (msg_deserialize le (Some buf) size old)) /\
  (forall old : FdbMsgAddrBindResults, is_Some (msg_deserialize le (Some buf) size old)) /\
  (forall old : FdbMsgAddressList, is_Some (msg_deserialize le (Some buf) size old)) /\
  (forall old : FdbMsgHostRegisterReq, is_Some (msg_deserialize le (Some buf) size old)) /\
  (forall old : FdbMsgHostAddress, is_Some (msg_deserialize le (Some buf) size old)) /\
  (forall old : FdbMsgDomainRegisterReq, is_Some (msg_deserialize le (Some buf) size old)) /\
  (forall old : FdbMsgDomainAddress, is_Some (msg_deserialize le (Some buf) size old)) /\
  (forall old : FdbMsgExportableSvcAddress, is_Some (msg_deserialize le (Some buf) size old)) /\
  (forall old : FdbMsgQueryPeerInfo, is_Some (msg_deserialize le (Some buf) size old)) /\
  (forall old : FdbMsgErrorInfo, is_Some (msg_deserialize le (Some buf) size old)) /\
  (forall old : FdbMsgHostRegisterAck, is_Some (msg_deserialize le (Some buf) size old)) /\
  (forall old : FdbMsgHostInfo, is_Some (msg_deserialize le (Some buf) size old)) /\
  (forall old : FdbMsgHostAddressList, is_Some (msg_deserialize le (Some buf) size old)) /\
  (forall old : FdbMsgServiceTable, is_Some (msg_deserialize le (Some buf) size old)) /\
  (forall old : FdbMsgAllExportableService, is_Some (msg_deserialize le (Some buf) size old)).
Proof.
  intros Hb Hl size.
  repeat split; intros old; destruct (msg_deserialize_safe I old le buf Hb Hl) as (y & ok & E);
    fold size in E; rewrite E; by eexists.
Qed.

Lemma untrusted_requests_decode_witness :
  is_Some (@msg_deserialize FdbMsgServerName _ 0 true (Some [255; 255; 1]) 3
             (mkServerName EmptyString EmptyString 0 0 0)).
Proof.
  apply (untrusted_requests_decode 0 true [255; 255; 1]).
  - apply (bool_decide_unpack _). vm_compute. exact Logic.I.
  - vm_compute. discriminate.
Defined.

(** A string of 65535 bytes is lost on the wire: the 16-bit length with the
    terminator wraps to 0, the serializer emits an empty length and none of the
    bytes, and the reader keeps the string its object held before. *)
Theorem long_string_lost (str old : string) :
  Z.of_nat (String.length str) = 65535 ->
  writes (put_string str) (le_bytes 2 0) /\ reads (get_string old) (le_bytes 2 0) old.
Proof.
  intros Hl. split.
  - unfold put_string, addString. rewrite Hl.
    change (u16 (u16 65535 + 1)) with 0.
    intros s Hs Hp.
    destruct (writes_int 2 0 ltac:(lia) ltac:(lia) s Hs Hp) as (s1 & E1 & O1 & C1 & L1 & P1).
    unfold ser_seq. rewrite E1. simpl.
    destruct (writes_raw [] s1 O1) as (s2 & E2 & O2 & C2 & L2 & P2);
      [rewrite P1; change (length (@nil Z)) with 0%nat; lia|].
    exists s2. rewrite app_nil_r in C2. simpl in P2. rewrite C2, C1, L2, L1, P2, P1.
    split; [|repeat split; try apply O2; try done; change (length (le_bytes 2 0)) with 2%nat; lia].
    rewrite <- E2. unfold addRawData. change (Z.of_nat (length (@nil Z))) with 0.
    destruct (addMemory (u32 0) s1); [simpl|done].
    rewrite (proj2 (Z.leb_le 0 _)) by lia. done.
  - intros d pre post Hb Hs Hnz Hl' Hp He. unfold get_string.
    rewrite (reads_int false 2 0 0 ltac:(lia) ltac:(lia) ltac:(unfold in_int, in_u; lia)
      d pre post) by done.
    simpl. by rewrite He.
Qed.

Lemma long_string_lost_witness :
  let str := String.concat EmptyString (replicate 65535 "a"%string) in
  writes (put_string str) (le_bytes 2 0) /\ reads (get_string "kept") (le_bytes 2 0) "kept"%string.
Proof. intros str. apply (long_string_lost str "kept"). vm_compute. reflexivity. Defined.
