(* ===== verification/StdMap.v ===== *)
(** Ordered maps and sets.

    [std::map] and [std::set] iterate in the order of their keys, and the code
    sends messages, picks addresses and serialises tables in that order; a map
    is therefore the list of its entries in key order.  [KeyOrd] is the strict
    order [operator<] of the key; [m_find], [m_set] ([operator[]] followed by an
    assignment), [m_insert] ([insert], which keeps an existing entry) and
    [m_erase] are the operations, [m_sorted] the invariant, and the lemmas state
    the lookup behaviour of each operation and extensionality. *)
From S2P Require Import Prelude.

Class KeyOrd (K : Type) := {
  klt : K -> K -> bool;
  klt_irrefl k : klt k k = false;
  klt_trans a b c : klt a b = true -> klt b c = true -> klt a c = true;
  klt_total a b : klt a b = false -> klt b a = false -> a = b }.

#[export] Instance Z_ord : KeyOrd Z.
Proof.
  refine {| klt := Z.ltb |}.
  - apply Z.ltb_irrefl.
  - intros a b c. rewrite !Z.ltb_lt. lia.
  - intros a b. rewrite !Z.ltb_ge. lia.
Defined.

(** [std::string::operator<]: lexicographic on unsigned bytes. *)
Fixpoint str_ltb (a b : string) : bool :=
  match a, b with
  | _, EmptyString => false
  | EmptyString, String _ _ => true
  | String x a', String y b' =>
      if byte_of_ascii x <? byte_of_ascii y then true
      else if byte_of_ascii y <? byte_of_ascii x then false else str_ltb a' b'
  end.

Lemma byte_of_ascii_inj x y : byte_of_ascii x = byte_of_ascii y -> x = y.
Proof. intros E. by rewrite <- (ascii_byte_inv x), <- (ascii_byte_inv y), E. Qed.

#[export] Instance string_ord : KeyOrd string.
Proof.
  refine {| klt := str_ltb |}.
  - induction k as [|c k IH]; simpl; [done|]. by rewrite Z.ltb_irrefl.
  - intros a; induction a as [|x a IH]; intros [|y b] [|z c]; simpl; try done.
    bool_cases; try done; try lia. apply IH.
  - intros a; induction a as [|x a IH]; intros [|y b]; simpl; try done.
    bool_cases; try done; intros Ha Hb.
    rewrite (IH b Ha Hb). f_equal. apply byte_of_ascii_inj. lia.
Defined.

Abbreviation smap K V := (list (K * V)).

(** A [std::set] is a map to the unit type. *)
Abbreviation sset K := (smap K unit).

Section map.
Context {K : Type} `{KeyOrd K}.

Fixpoint m_find {V} (k : K) (m : smap K V) : option V :=
  match m with
  | [] => None
  | (k', v) :: m' => if klt k k' then None else if klt k' k then m_find k m' else Some v
  end.

Fixpoint m_set {V} (k : K) (v : V) (m : smap K V) : smap K V :=
  match m with
  | [] => [(k, v)]
  | (k', v') :: m' =>
      if klt k k' then (k, v) :: m
      else if klt k' k then (k', v') :: m_set k v m' else (k, v) :: m'
  end.

Definition m_insert {V} (k : K) (v : V) (m : smap K V) : smap K V :=
  match m_find k m with Some _ => m | None => m_set k v m end.

Fixpoint m_erase {V} (k : K) (m : smap K V) : smap K V :=
  match m with
  | [] => []
  | (k', v') :: m' =>
      if klt k k' then m else if klt k' k then (k', v') :: m_erase k m' else m'
  end.

(** A loop over the entries in which each iteration may change the value of
    its entry or erase it. *)
Fixpoint m_walk {V} (f : K -> V -> option V) (m : smap K V) : smap K V :=
  match m with
  | [] => []
  | (k, v) :: m' =>
      match f k v with Some v' => (k, v') :: m_walk f m' | None => m_walk f m' end
  end.

(** The value [operator[]] gives a reference to: a missing key gets [d]. *)
Definition m_at {V} (d : V) (k : K) (m : smap K V) : V := default d (m_find k m).

Definition m_empty {V} (m : smap K V) : bool := match m with [] => true | _ => false end.

(** The keys below every key of [m]. *)
Definition m_below {V} (k : K) (m : smap K V) : Prop := Forall (fun e => klt k e.1 = true) m.

Fixpoint m_sorted {V} (m : smap K V) : Prop :=
  match m with [] => True | (k, _) :: m' => m_below k m' /\ m_sorted m' end.

Lemma klt_asym a b : klt a b = true -> klt b a = false.
Proof.
  intros E. destruct (klt b a) eqn:E'; [|done].
  pose proof (klt_trans a b a E E') as E2. by rewrite klt_irrefl in E2.
Qed.

Lemma klt_ne a b : klt a b = true -> a <> b.
Proof. intros E ->. by rewrite klt_irrefl in E. Qed.

Lemma k_cases a b : klt a b = true \/ klt b a = true \/ a = b.
Proof.
  destruct (klt a b) eqn:E; [by left|]. destruct (klt b a) eqn:E'; [by right; left|].
  right; right. by apply klt_total.
Qed.

Lemma m_below_trans {V} a b (m : smap K V) : klt a b = true -> m_below b m -> m_below a m.
Proof. intros E Hb. eapply Forall_impl; [exact Hb|]. intros e. by apply klt_trans. Qed.

Lemma m_find_below {V} k (m : smap K V) : m_below k m -> m_find k m = None.
Proof. destruct m as [|[k' v] m]; [done|]. intros Hb. inversion_clear Hb. simpl in *. by case_match. Qed.

Lemma m_below_set {V} a k (v : V) m : klt a k = true -> m_below a m -> m_below a (m_set k v m).
Proof.
  intros E. induction m as [|[k' v'] m IH]; intros Hb; simpl.
  - by repeat constructor.
  - inversion_clear Hb. destruct (klt k k'); [by repeat constructor|].
    destruct (klt k' k); constructor; simpl; auto. by apply IH.
Qed.

Lemma m_below_erase {V} a k (m : smap K V) : m_below a m -> m_below a (m_erase k m).
Proof.
  induction m as [|[k' v'] m IH]; intros Hb; simpl; [done|]. inversion_clear Hb.
  destruct (klt k k'); [by constructor|]. destruct (klt k' k); [|done].
  constructor; [done|]. by apply IH.
Qed.

Lemma m_sorted_set {V} k (v : V) m : m_sorted m -> m_sorted (m_set k v m).
Proof.
  induction m as [|[k' v'] m IH]; simpl; [by repeat constructor|]. intros [Hb Hs].
  destruct (klt k k') eqn:E1; [|destruct (klt k' k) eqn:E2].
  - split; [|done]. constructor; [done|]. by apply (m_below_trans k k').
  - split; [by apply m_below_set|auto].
  - rewrite (klt_total k k') by done. done.
Qed.

Lemma m_sorted_insert {V} k (v : V) m : m_sorted m -> m_sorted (m_insert k v m).
Proof. unfold m_insert. destruct (m_find k m); auto using m_sorted_set. Qed.

Lemma m_sorted_erase {V} k (m : smap K V) : m_sorted m -> m_sorted (m_erase k m).
Proof.
  induction m as [|[k' v'] m IH]; simpl; [done|]. intros [Hb Hs].
  destruct (klt k k'); [done|]. destruct (klt k' k); [|done].
  split; [by apply m_below_erase|auto].
Qed.

Lemma m_find_set {V} k (v : V) m : m_find k (m_set k v m) = Some v.
Proof.
  induction m as [|[k' v'] m IH]; simpl; [by rewrite klt_irrefl|].
  destruct (klt k k') eqn:E1; simpl; [by rewrite klt_irrefl|].
  destruct (klt k' k) eqn:E2; simpl; [by rewrite E1, E2|by rewrite klt_irrefl].
Qed.

Lemma m_find_set_ne {V} k j (v : V) m : j <> k -> m_sorted m -> m_find j (m_set k v m) = m_find j m.
Proof.
  intros Hn. induction m as [|[k' v'] m IH]; simpl.
  - intros _. destruct (k_cases j k) as [E|[E|E]]; [by rewrite E| |done]. by rewrite (klt_asym k j), E.
  - intros [Hb Hs]. destruct (klt k k') eqn:E1; [|destruct (klt k' k) eqn:E2]; simpl.
    + destruct (klt j k) eqn:E3; [by rewrite (klt_trans j k k')|].
      destruct (klt k j) eqn:E4; [done|]. by destruct Hn; apply klt_total.
    + rewrite IH by done. done.
    + rewrite <- (klt_total k k') by done.
      destruct (k_cases j k) as [E|[E|E]]; [by rewrite E| |done]. by rewrite E, (klt_asym k j).
Qed.

Lemma m_find_erase {V} k (m : smap K V) : m_sorted m -> m_find k (m_erase k m) = None.
Proof.
  induction m as [|[k' v'] m IH]; simpl; [done|]. intros [Hb Hs].
  destruct (klt k k') eqn:E1; simpl; [by rewrite E1|].
  destruct (klt k' k) eqn:E2; simpl; [rewrite E1, E2; auto|].
  rewrite (klt_total k k') by done. by apply m_find_below.
Qed.

Lemma m_find_erase_ne {V} k j (m : smap K V) :
  j <> k -> m_sorted m -> m_find j (m_erase k m) = m_find j m.
Proof.
  intros Hn. induction m as [|[k' v'] m IH]; simpl; [done|]. intros [Hb Hs].
  destruct (klt k k') eqn:E1; [done|]. destruct (klt k' k) eqn:E2; simpl; [by rewrite IH|].
  assert (k = k') as <- by by apply klt_total.
  destruct (klt j k) eqn:E3; [by apply m_find_below, (m_below_trans j k)|].
  destruct (klt k j) eqn:E4; [done|]. by destruct Hn; apply klt_total.
Qed.

Lemma m_erase_none {V} k (m : smap K V) : m_find k m = None -> m_erase k m = m.
Proof.
  induction m as [|[k' v'] m IH]; simpl; [done|].
  destruct (klt k k'); [done|]. destruct (klt k' k); [|done]. intros E. by rewrite IH.
Qed.

Lemma m_find_In {V} k (v : V) m : m_sorted m -> m_find k m = Some v <-> (k, v) ∈ m.
Proof.
  induction m as [|[k' v'] m IH]; simpl.
  - split; [done|]. by rewrite elem_of_nil.
  - intros [Hb Hs]. rewrite elem_of_cons, <- (IH Hs).
    destruct (k_cases k k') as [E|[E|E]].
    + rewrite E. split; [done|]. intros [E'|E'].
      * simplify_eq. by rewrite klt_irrefl in E.
      * by rewrite m_find_below in E' by by apply (m_below_trans k k').
    + rewrite (klt_asym k' k), E by done. split; [by right|]. intros [E'|E']; [|done].
      simplify_eq. by rewrite klt_irrefl in E.
    + subst. rewrite klt_irrefl. split; [intros [= ->]; by left|].
      intros [E'|E']; [by simplify_eq|]. by rewrite m_find_below in E'.
Qed.

Lemma m_find_hd {V} k (v : V) m : m_find k ((k, v) :: m) = Some v.
Proof. simpl. by rewrite klt_irrefl. Qed.

Lemma m_ext {V} (m1 m2 : smap K V) :
  m_sorted m1 -> m_sorted m2 -> (forall k, m_find k m1 = m_find k m2) -> m1 = m2.
Proof.
  revert m2. induction m1 as [|[k v] m1 IH]; intros [|[k' v'] m2]; simpl; [done| | |].
  - intros _ _ E. specialize (E k'). by rewrite klt_irrefl in E.
  - intros _ _ E. specialize (E k). by rewrite klt_irrefl in E.
  - intros [B1 S1] [B2 S2] E.
    assert (k = k') as <-.
    { pose proof (E k) as Ek. pose proof (E k') as Ek'. rewrite klt_irrefl in Ek, Ek'.
      destruct (k_cases k k') as [L|[L|L]]; [by rewrite L in Ek|by rewrite L in Ek'|done]. }
    pose proof (E k) as Ek. rewrite klt_irrefl in Ek. simplify_eq. f_equal. apply IH; [done..|].
    intros j. specialize (E j). destruct (k_cases j k) as [L|[L|L]].
    + by rewrite !m_find_below by by apply (m_below_trans j k).
    + by rewrite (klt_asym k j), L in E.
    + subst. by rewrite !m_find_below.
Qed.

Lemma m_erase_In {V} k e (m : smap K V) : e ∈ m_erase k m -> e ∈ m.
Proof.
  induction m as [|[k' v'] m IH]; simpl; [done|].
  destruct (klt k k'); [done|]. destruct (klt k' k); rewrite ?elem_of_cons; tauto.
Qed.

Lemma m_set_In {V} k (v : V) e (m : smap K V) : e ∈ m_set k v m -> e = (k, v) \/ e ∈ m.
Proof.
  induction m as [|[k' v'] m IH]; simpl; [rewrite list_elem_of_singleton; auto|].
  destruct (klt k k'); [|destruct (klt k' k)]; rewrite ?elem_of_cons; tauto.
Qed.

Lemma m_below_walk {V} a (f : K -> V -> option V) m : m_below a m -> m_below a (m_walk f m).
Proof.
  induction m as [|[k v] m IH]; simpl; [done|]. intros Hb. inversion_clear Hb.
  destruct (f k v); [|by apply IH]. constructor; [done|]. by apply IH.
Qed.

Lemma m_sorted_walk {V} (f : K -> V -> option V) m : m_sorted m -> m_sorted (m_walk f m).
Proof.
  induction m as [|[k v] m IH]; simpl; [done|]. intros [Hb Hs].
  destruct (f k v); simpl; auto using m_below_walk.
Qed.

Lemma m_find_walk {V} k (f : K -> V -> option V) m :
  m_sorted m -> m_find k (m_walk f m) = m_find k m ≫= f k.
Proof.
  induction m as [|[k' v] m IH]; simpl; [done|]. intros [Hb Hs]. specialize (IH Hs).
  destruct (k_cases k k') as [E|[E|E]].
  - rewrite E. assert (m_below k m) by by apply (m_below_trans k k').
    destruct (f k' v); simpl; [by rewrite E|]. by apply m_find_below, m_below_walk.
  - rewrite (klt_asym k' k), E by done.
    destruct (f k' v); simpl; [by rewrite (klt_asym k' k), E by done|done].
  - subst. rewrite klt_irrefl. simpl. destruct (f k' v); simpl; [by rewrite klt_irrefl|].
    by apply m_find_below, m_below_walk.
Qed.

Lemma m_find_empty {V} (m : smap K V) : (forall k, m_find k m = None) -> m = [].
Proof. destruct m as [|[k v] m]; [done|]. intros E. specialize (E k). simpl in E. by rewrite klt_irrefl in E. Qed.
(** Sizes, also of what the values are expanded to by [f]. *)
Lemma m_erase_length {V} k (v : V) (m : smap K V) :
  m_find k m = Some v -> S (length (m_erase k m)) = length m.
Proof.
  induction m as [|[k' v'] m IH]; simpl; [done|].
  destruct (klt k k'); [done|]. destruct (klt k' k); [|done]. intros E. simpl. by rewrite IH.
Qed.

Lemma m_set_expand {V B} (f : K * V -> list B) k v0 v (m : smap K V) :
  m_find k m = Some v0 ->
  (length (flat_map f (m_set k v m)) + length (f (k, v0)))%nat
  = (length (flat_map f m) + length (f (k, v)))%nat.
Proof.
  induction m as [|[k' v'] m IH]; simpl; [done|].
  destruct (klt k k') eqn:E1; [done|]. destruct (klt k' k) eqn:E2; simpl; rewrite !length_app.
  - intros E. specialize (IH E). lia.
  - intros [= <-]. rewrite (klt_total k k') by done. lia.
Qed.

Lemma m_erase_expand {V B} (f : K * V -> list B) k v0 (m : smap K V) :
  m_find k m = Some v0 ->
  (length (flat_map f (m_erase k m)) + length (f (k, v0)))%nat = length (flat_map f m).
Proof.
  induction m as [|[k' v'] m IH]; simpl; [done|].
  destruct (klt k k') eqn:E1; [done|]. destruct (klt k' k) eqn:E2; simpl; rewrite !length_app.
  - intros E. specialize (IH E). lia.
  - intros [= <-]. rewrite (klt_total k k') by done. lia.
Qed.
End map.

(** ** Maps of maps *)

Section nested.
Context {K : Type} `{KeyOrd K} {V : Type}.
Implicit Types (P : V -> Prop) (m : smap K V).

(** Sorted, with values that satisfy [P]; [full] maps are not empty either. *)
Definition lvl P m : Prop := m_sorted m /\ Forall (fun e => P e.2) m.
Definition full P m : Prop := m <> [] /\ lvl P m.

Lemma lvl_nil P : lvl P [].
Proof. by split. Qed.

Lemma lvl_sorted P m : lvl P m -> m_sorted m.
Proof. by intros []. Qed.

Lemma lvl_find P m k v : lvl P m -> m_find k m = Some v -> P v.
Proof. intros [Hs Hp] E. apply m_find_In in E; [|done].
  rewrite Forall_forall in Hp. by apply Hp in E. Qed.

Lemma lvl_set P m k v : P v -> lvl P m -> lvl P (m_set k v m).
Proof.
  intros Hv [Hs Hp]. split; [by apply m_sorted_set|]. apply Forall_forall. intros e He.
  apply m_set_In in He as [->|He]; [done|]. rewrite Forall_forall in Hp. by apply Hp.
Qed.

Lemma lvl_erase P m k : lvl P m -> lvl P (m_erase k m).
Proof.
  intros [Hs Hp]. split; [by apply m_sorted_erase|]. apply Forall_forall. intros e He.
  apply m_erase_In in He. rewrite Forall_forall in Hp. by apply Hp.
Qed.

Lemma lvl_walk P m f : (forall k v v', P v -> f k v = Some v' -> P v') -> lvl P m -> lvl P (m_walk f m).
Proof.
  intros Hf [Hs Hp]. split; [by apply m_sorted_walk|].
  induction m as [|[k v] m IH]; simpl; [done|]. destruct Hs as [_ Hs]. inversion_clear Hp.
  destruct (f k v) eqn:E; [|by apply IH]. constructor; [by eapply Hf|by apply IH].
Qed.

Lemma m_set_ne m k v : m_set k v m <> [].
Proof. destruct m as [|[k' v'] m]; simpl; [done|]. by destruct (klt k k'), (klt k' k). Qed.

Lemma full_set P m k v : P v -> lvl P m -> full P (m_set k v m).
Proof. intros Hv Hm. split; [apply m_set_ne|by apply lvl_set]. Qed.

Lemma full_lvl P m : full P m -> lvl P m.
Proof. by intros []. Qed.

Lemma full_lvl_at P m : full P m \/ m = [] -> lvl P m.
Proof. intros [[]| ->]; [done|apply lvl_nil]. Qed.

(** A lookup [g] into the values that tells the values of [P] apart, and finds
    something in each, tells the maps of them apart. *)
Lemma nested_ext {A B} P (g : V -> A -> option B) m1 m2 :
  (forall v, P v -> exists a, is_Some (g v a)) ->
  (forall v1 v2, P v1 -> P v2 -> (forall a, g v1 a = g v2 a) -> v1 = v2) ->
  lvl P m1 -> lvl P m2 ->
  (forall k a, (m_find k m1 ≫= fun v => g v a) = (m_find k m2 ≫= fun v => g v a)) -> m1 = m2.
Proof.
  intros Hin Hinj H1 H2 E. apply m_ext; [by eapply lvl_sorted..|]. intros k.
  destruct (m_find k m1) as [v1|] eqn:E1, (m_find k m2) as [v2|] eqn:E2; [|exfalso..|done].
  - f_equal. apply Hinj; [by apply (lvl_find _ m1 k)|by apply (lvl_find _ m2 k)|]. intros a. specialize (E k a). by rewrite E1, E2 in E.
  - destruct (Hin v1) as [a [b Hb]]; [by apply (lvl_find _ m1 k)|]. specialize (E k a).
    rewrite E1, E2 in E. simpl in E. by rewrite Hb in E.
  - destruct (Hin v2) as [a [b Hb]]; [by apply (lvl_find _ m2 k)|]. specialize (E k a).
    rewrite E1, E2 in E. simpl in E. by rewrite Hb in E.
Qed.

Lemma full_inhabited {A B} P (g : V -> A -> option B) m :
  (forall v, P v -> exists a, is_Some (g v a)) ->
  full P m -> exists ka, is_Some (m_find ka.1 m ≫= fun v => g v ka.2).
Proof.
  intros Hin [Hne [Hs Hp]]. destruct m as [|[k v] m]; [done|]. inversion_clear Hp.
  destruct (Hin v) as [a Ha]; [done|]. exists (k, a). simpl. by rewrite klt_irrefl.
Qed.
End nested.

Section prune.
Context {K : Type} `{KeyOrd K} {K' : Type} `{KeyOrd K'} {V : Type}.

(** An inner map was changed through a reference to it: it is erased when that
    left it empty. *)
Definition m_prune (k : K) (inner : smap K' V) (m : smap K (smap K' V)) : smap K (smap K' V) :=
  if m_empty inner then m_erase k m else m_set k inner m.

(** The same for the entry a loop stands at. *)
Definition keep_full (inner : smap K' V) : option (smap K' V) :=
  if m_empty inner then None else Some inner.

Lemma m_empty_spec (m : smap K' V) : reflect (m = []) (m_empty m).
Proof. by destruct m; constructor. Qed.

Lemma lvl_prune (P : V -> Prop) k inner m :
  lvl P inner -> lvl (full P) m -> lvl (full P) (m_prune k inner m).
Proof.
  intros Hi Hm. unfold m_prune. destruct (m_empty_spec inner); [by apply lvl_erase|].
  by apply lvl_set.
Qed.

Lemma m_find_prune k inner m :
  m_sorted m -> m_find k (m_prune k inner m) = keep_full inner.
Proof.
  intros Hs. unfold m_prune, keep_full. destruct (m_empty inner); [by apply m_find_erase|].
  apply m_find_set.
Qed.

Lemma m_find_prune_ne k j inner m :
  m_sorted m -> j <> k -> m_find j (m_prune k inner m) = m_find j m.
Proof.
  intros Hs Hn. unfold m_prune. destruct (m_empty inner); [by apply m_find_erase_ne|].
  by apply m_find_set_ne.
Qed.

Lemma m_find_keep j (inner : smap K' V) : (keep_full inner ≫= m_find j) = m_find j inner.
Proof. by destruct inner. Qed.

Lemma full_keep (P : V -> Prop) inner inner' :
  lvl P inner -> keep_full inner = Some inner' -> full P inner'.
Proof. unfold keep_full. destruct (m_empty_spec inner); [done|]. by intros ? [= <-]. Qed.
End prune.

(** The lookups after an update, by cases on the key. *)
Section decide.
Context {K : Type} `{KeyOrd K} `{EqDecision K} {V : Type}.

Lemma m_find_set_dec j k (v : V) m :
  m_sorted m -> m_find j (m_set k v m) = if decide (j = k) then Some v else m_find j m.
Proof. intros Hs. case_decide; [subst; apply m_find_set|by apply m_find_set_ne]. Qed.

Lemma m_find_erase_dec j k (m : smap K V) :
  m_sorted m -> m_find j (m_erase k m) = if decide (j = k) then None else m_find j m.
Proof. intros Hs. case_decide; [subst; by apply m_find_erase|by apply m_find_erase_ne]. Qed.

Lemma m_find_insert_dec j k (v : V) m :
  m_sorted m ->
  m_find j (m_insert k v m) = if decide (j = k) then Some (default v (m_find k m)) else m_find j m.
Proof.
  intros Hs. unfold m_insert. destruct (m_find k m) eqn:E; [|by apply m_find_set_dec].
  case_decide; by subst.
Qed.

Lemma m_find_cons_dec j k (v : V) m :
  m_below k m -> m_find j ((k, v) :: m) = if decide (j = k) then Some v else m_find j m.
Proof.
  intros Hb. case_decide; [subst; apply m_find_hd|]. simpl.
  destruct (k_cases j k) as [E|[E|E]]; [|by rewrite (klt_asym k j), E|done].
  rewrite E. symmetry. by apply m_find_below, (m_below_trans j k).
Qed.

Context {K' : Type} `{KeyOrd K'}.

Lemma m_find_at i k (m : smap K (smap K' V)) : m_find i (m_at [] k m) = m_find k m ≫= m_find i.
Proof. unfold m_at. by destruct (m_find k m). Qed.

Lemma m_find_prune_dec j k i (inner : smap K' V) m :
  m_sorted m ->
  (m_find j (m_prune k inner m) ≫= m_find i)
  = if decide (j = k) then m_find i inner else m_find j m ≫= m_find i.
Proof.
  intros Hs. case_decide; [subst; rewrite m_find_prune by done; apply m_find_keep|].
  by rewrite m_find_prune_ne.
Qed.

Lemma lvl_at (P : V -> Prop) k (m : smap K (smap K' V)) : lvl (full P) m -> lvl P (m_at [] k m).
Proof.
  intros Hm. unfold m_at. destruct (m_find k m) eqn:E; simpl; [|apply lvl_nil].
  apply full_lvl, (lvl_find (full P) m k _ Hm E).
Qed.
End decide.

#[export] Hint Resolve m_sorted_set m_sorted_insert m_sorted_erase m_sorted_walk : fdb.
#[export] Hint Resolve lvl_nil lvl_sorted lvl_set lvl_erase full_set full_lvl lvl_prune
  full_keep lvl_at : fdb.
