(* ===== verification/Subscribe.v ===== *)
(** The subscription table of an object: src/fdbus/CEventSubscribeHandle.cpp.

    [CEventSubscribeHandle] keeps, per event code, session, object id and topic,
    the flag of a subscription, as a map of maps of maps of maps; its operations
    are the definitions of the first section, and broadcasting returns the list
    of messages handed to [CFdbSession::sendMessage], in order.  A [CFdbSession *]
    is the address of the session, [sid] reads its session id.  [sub_ok] says
    that every level is sorted and that no inner map is empty; [sub_find] is the
    abstract view, one flag per (event, session, object, topic), which determines
    a table of [sub_ok] completely. *)
From S2P Require Import Prelude StdMap CommonDefs.

(** ** The message as the event code uses it *)

Definition MSG_FLAG_NOREPLY_EXPECTED : Z := Z.shiftl 1 0.
Definition MSG_FLAG_INITIAL_RESPONSE : Z := Z.shiftl 1 6.
Definition MSG_FLAG_FORCE_UPDATE : Z := Z.shiftl 1 8.
Definition MSG_LOCAL_FLAG_SHIFT : Z := 24.
Definition MSG_FLAG_HEAD_OK : Z := Z.shiftl 1 (MSG_LOCAL_FLAG_SHIFT + 0).
Definition MSG_FLAG_NO_REFLECT : Z := Z.shiftl 1 (MSG_LOCAL_FLAG_SHIFT + 1).
Definition MSG_FLAG_ENABLE_LOG : Z := Z.shiftl 1 (MSG_LOCAL_FLAG_SHIFT + 3).
Definition MSG_FLAG_MANUAL_UPDATE : Z := Z.shiftl 1 (MSG_LOCAL_FLAG_SHIFT + 6).

(** The fields of [CFdbMessage] that decide where an event goes, and its payload
    ([None] when the message has no buffer). *)
Record CFdbMessage := mkMessage {
  mType : EFdbMessageType;
  mCode : Z;
  mSid : Z;
  mOid : Z;
  mFlag : Z;
  mTopic : string;
  mPayload : option (list Z);
  mPayloadSize : Z;
  mQOS : EFdbQOS }.

Definition flag_set (flag bit : Z) : bool := negb (Z.land flag bit =? 0).

Definition isNoReflect (msg : CFdbMessage) : bool := flag_set (mFlag msg) MSG_FLAG_NO_REFLECT.
Definition isForceUpdate (msg : CFdbMessage) : bool := flag_set (mFlag msg) MSG_FLAG_FORCE_UPDATE.

Definition msg_with_flag (msg : CFdbMessage) (bit : Z) (active : bool) : CFdbMessage :=
  mkMessage (mType msg) (mCode msg) (mSid msg) (mOid msg)
    (if active then Z.lor (mFlag msg) bit else Z.land (mFlag msg) (u32 (Z.lnot bit)))
    (mTopic msg) (mPayload msg) (mPayloadSize msg) (mQOS msg).
Definition setNoReflect (msg : CFdbMessage) (active : bool) : CFdbMessage :=
  msg_with_flag msg MSG_FLAG_NO_REFLECT active.
Definition forceUpdate (msg : CFdbMessage) (active : bool) : CFdbMessage :=
  msg_with_flag msg MSG_FLAG_FORCE_UPDATE active.

Definition msg_set_type (msg : CFdbMessage) (type : EFdbMessageType) : CFdbMessage :=
  mkMessage type (mCode msg) (mSid msg) (mOid msg) (mFlag msg) (mTopic msg)
    (mPayload msg) (mPayloadSize msg) (mQOS msg).

Definition updateObjectId (msg : CFdbMessage) (object_id : Z) : CFdbMessage :=
  if mOid msg =? object_id then msg
  else mkMessage (mType msg) (mCode msg) (mSid msg) object_id
         (Z.land (mFlag msg) (u32 (Z.lnot MSG_FLAG_HEAD_OK)))
         (mTopic msg) (mPayload msg) (mPayloadSize msg) (mQOS msg).

(** The C string a [std::string] shows through [c_str]. *)
Fixpoint c_str (s : string) : string :=
  match s with
  | EmptyString => EmptyString
  | String c s' => if byte_of_ascii c =? 0 then EmptyString else String c (c_str s')
  end.

Definition cstr_or_empty (topic : option string) : string := default EmptyString topic.
Definition is_empty_str (s : string) : bool := match s with EmptyString => true | _ => false end.

(** ** The table *)

Definition FDB_SUBFLAG_NO_REFLECT : Z := Z.shiftl 1 0.

Record CSubscribeItem := mkSubItem { si_mFlag : Z }.
Abbreviation SubItemTable_t := (smap string CSubscribeItem).
Abbreviation ObjectTable_t := (smap Z SubItemTable_t).
Abbreviation SessionTable_t := (smap Z ObjectTable_t).
Abbreviation SubscribeTable_t := (smap Z SessionTable_t).

Definition subscribe (t : SubscribeTable_t) (session msg obj_id : Z) (topic : option string)
    (flag : Z) : SubscribeTable_t :=
  let topic := cstr_or_empty topic in
  let sessions := m_at [] msg t in
  let objects := m_at [] session sessions in
  let subitems := m_at [] obj_id objects in
  m_set msg (m_set session (m_set obj_id (m_set topic (mkSubItem flag) subitems) objects) sessions) t.

(** [unsubscribe(session, msg, obj_id, topic)]: one topic, or every topic of the
    object when [topic] is null. *)
Definition unsubscribe (t : SubscribeTable_t) (session msg obj_id : Z) (topic : option string) :
    SubscribeTable_t :=
  match m_find msg t with
  | None => t
  | Some sessions =>
      let sessions :=
        match m_find session sessions with
        | None => sessions
        | Some objects =>
            let objects :=
              match m_find obj_id objects with
              | None => objects
              | Some subitems =>
                  match topic with
                  | Some topic => m_prune obj_id (m_erase topic subitems) objects
                  | None => m_erase obj_id objects
                  end
              end in
            m_prune session objects sessions
        end in
      m_prune msg sessions t
  end.

Definition unsubscribe_session (t : SubscribeTable_t) (session : Z) : SubscribeTable_t :=
  m_walk (fun _ sessions => keep_full (m_erase session sessions)) t.

Definition unsubscribe_object (t : SubscribeTable_t) (obj_id : Z) : SubscribeTable_t :=
  m_walk (fun _ sessions =>
    keep_full (m_walk (fun _ objects => keep_full (m_erase obj_id objects)) sessions)) t.

(** ** Broadcasting *)

(** A message handed to [session->sendMessage]. *)
Record Delivery := mkDelivery { dl_session : Z; dl_msg : CFdbMessage }.

Section broadcast.
(** [session->sid()]. *)
Context (sid : Z -> Z).

Definition broadcastOneMsg (session : Z) (msg : CFdbMessage) (sub_item : CSubscribeItem)
    (sender_sid sender_oid : Z) : list Delivery :=
  if isNoReflect msg && flag_set (si_mFlag sub_item) FDB_SUBFLAG_NO_REFLECT
     && (sender_sid =? sid session) && (sender_oid =? mOid msg)
  then [] else [mkDelivery session msg].

(** One of the lookups of the loop body: what is sent, and whether [sent] is set. *)
Definition broadcast_item (session : Z) (msg : CFdbMessage) (subitems : SubItemTable_t)
    (topic : string) (sender_sid sender_oid : Z) : bool * list Delivery :=
  match m_find topic subitems with
  | Some item => (true, broadcastOneMsg session msg item sender_sid sender_oid)
  | None => (false, [])
  end.

(** The loop over the objects of a session; it leaves the message with the id
    of the last object. *)
Fixpoint broadcast_objects (session : Z) (topic : string) (sender_sid sender_oid : Z)
    (objects : ObjectTable_t) (msg : CFdbMessage) : CFdbMessage * bool * list Delivery :=
  match objects with
  | [] => (msg, false, [])
  | (object_id, subitems) :: rest =>
      let msg := updateObjectId msg object_id in
      let '(sent1, out1) := broadcast_item session msg subitems topic sender_sid sender_oid in
      let '(sent2, out2) :=
        if is_empty_str topic then (false, [])
        else broadcast_item session msg subitems EmptyString sender_sid sender_oid in
      let '(msg, sent, out) := broadcast_objects session topic sender_sid sender_oid rest msg in
      (msg, sent1 || sent2 || sent, out1 ++ out2 ++ out)
  end.

Fixpoint broadcast_sessions (topic : string) (sender_sid sender_oid : Z)
    (sessions : SessionTable_t) (msg : CFdbMessage) : CFdbMessage * bool * list Delivery :=
  match sessions with
  | [] => (msg, false, [])
  | (session, objects) :: rest =>
      let '(msg, sent1, out1) := broadcast_objects session topic sender_sid sender_oid objects msg in
      let '(msg, sent, out) := broadcast_sessions topic sender_sid sender_oid rest msg in
      (msg, sent1 || sent, out1 ++ out)
  end.

(** [broadcast(msg, event)]: to the subscribers of an event. *)
Definition broadcast (t : SubscribeTable_t) (msg : CFdbMessage) (event : Z) :
    CFdbMessage * bool * list Delivery :=
  match m_find event t with
  | None => (msg, false, [])
  | Some sessions => broadcast_sessions (c_str (mTopic msg)) (mSid msg) (mOid msg) sessions msg
  end.

Fixpoint broadcast_own (session : Z) (sender_sid sender_oid : Z) (objects : ObjectTable_t)
    (msg : CFdbMessage) : CFdbMessage * bool * list Delivery :=
  match objects with
  | [] => (msg, false, [])
  | (object_id, subitems) :: rest =>
      if negb (FDB_OBJECT_GET_CLASS object_id =? FDB_OBJECT_GET_CLASS (mOid msg))
      then broadcast_own session sender_sid sender_oid rest msg
      else
        let msg := updateObjectId msg object_id in
        let topic := c_str (mTopic msg) in
        let '(sent1, out1) :=
          match m_find topic subitems with
          | Some item => (true, broadcastOneMsg session msg item sender_sid sender_oid)
          | None =>
              if is_empty_str topic then (false, [])
              else broadcast_item session msg subitems EmptyString sender_sid sender_oid
          end in
        let '(msg, sent, out) := broadcast_own session sender_sid sender_oid rest msg in
        (msg, sent1 || sent, out1 ++ out)
  end.

(** [broadcast(msg, session, event)]: to the subscribers of one session. *)
Definition broadcast_session (t : SubscribeTable_t) (msg : CFdbMessage) (session event : Z) :
    CFdbMessage * bool * list Delivery :=
  match m_find event t with
  | None => (msg, false, [])
  | Some sessions =>
      match m_find session sessions with
      | None => (msg, false, [])
      | Some objects => broadcast_own session (mSid msg) (mOid msg) objects msg
      end
  end.
End broadcast.

(** ** Queries *)

Definition s_insert {K} `{KeyOrd K} (k : K) (s : sset K) : sset K := m_insert k tt s.
Definition s_member {K} `{KeyOrd K} (k : K) (s : sset K) : bool := bool_decide (is_Some (m_find k s)).

Definition topics_of_objects (objects : ObjectTable_t) (topic_tbl : sset string) : sset string :=
  foldl (fun tbl o => foldl (fun tbl i => s_insert i.1 tbl) tbl o.2) topic_tbl objects.

Definition getSubscribeTable_sessions (sessions : SessionTable_t) (topic_tbl : sset string) :
    sset string :=
  foldl (fun tbl s => topics_of_objects s.2 tbl) topic_tbl sessions.

Definition getSubscribeTable_all (t : SubscribeTable_t) (table : smap Z (sset string)) :
    smap Z (sset string) :=
  foldl (fun table e =>
    m_set e.1 (getSubscribeTable_sessions e.2 (m_at [] e.1 table)) table) table t.

Definition getSubscribeTable_code (t : SubscribeTable_t) (code : Z) (topics : sset string) :
    sset string :=
  match m_find code t with
  | Some sessions => getSubscribeTable_sessions sessions topics
  | None => topics
  end.

Definition getSubscribeTable_session (t : SubscribeTable_t) (code session : Z)
    (topic_tbl : sset string) : sset string :=
  match m_find code t with
  | Some sessions =>
      match m_find session sessions with
      | Some objects => topics_of_objects objects topic_tbl
      | None => topic_tbl
      end
  | None => topic_tbl
  end.

(** The loop over the objects of a session stops at the first that takes the topic. *)
Fixpoint objects_take (topic : string) (objects : ObjectTable_t) : bool :=
  match objects with
  | [] => false
  | (_, subitems) :: rest =>
      match m_find topic subitems with
      | None =>
          if negb (is_empty_str topic) && bool_decide (is_Some (m_find EmptyString subitems))
          then true else objects_take topic rest
      | Some _ => true
      end
  end.

Definition getSubscribeTable_topic (t : SubscribeTable_t) (code : Z) (topic : option string)
    (session_tbl : sset Z) : sset Z :=
  match m_find code t with
  | Some sessions =>
      foldl (fun tbl s =>
        if objects_take (cstr_or_empty topic) s.2 then s_insert s.1 tbl else tbl)
        session_tbl sessions
  | None => session_tbl
  end.

(** ** Abstract view and invariant *)

Definition sub_find (t : SubscribeTable_t) (msg session obj_id : Z) (topic : string) :
    option CSubscribeItem :=
  (((m_find msg t ≫= m_find session) ≫= m_find obj_id) ≫= m_find topic).

Definition topics_ok : SubItemTable_t -> Prop := full (fun _ => True).
Definition objects_ok : ObjectTable_t -> Prop := full topics_ok.
Definition sessions_ok : SessionTable_t -> Prop := full objects_ok.
Definition sub_ok : SubscribeTable_t -> Prop := lvl sessions_ok.

(** Computes a lookup in an updated table, by cases on the keys. *)
Ltac find_cases :=
  repeat first
    [ progress simpl
    | rewrite m_find_at
    | rewrite m_find_set_dec by eauto 10 with fdb
    | rewrite m_find_erase_dec by eauto 10 with fdb
    | rewrite m_find_prune_dec by eauto 10 with fdb
    | case_bool_decide | case_decide ];
  simplify_eq; simpl in *; try done.

Ltac sub_unfold := unfold sub_ok, sessions_ok, objects_ok, topics_ok in *.

(** The abstract view determines the table. *)
Lemma sub_ok_ext t1 t2 : sub_ok t1 -> sub_ok t2 ->
  (forall msg session obj topic, sub_find t1 msg session obj topic = sub_find t2 msg session obj topic) ->
  t1 = t2.
Proof.
  set (gi (i : SubItemTable_t) (a : string) := m_find a i).
  set (go (o : ObjectTable_t) (a : Z * string) := m_find a.1 o ≫= fun i => gi i a.2).
  set (gs (s : SessionTable_t) (a : Z * (Z * string)) := m_find a.1 s ≫= fun o => go o a.2).
  assert (forall i, topics_ok i -> exists a, is_Some (gi i a)) as Ii.
  { intros [|[a x] i] [? ?]; [done|]. exists a. unfold gi. by rewrite m_find_hd. }
  assert (forall o, objects_ok o -> exists a, is_Some (go o a)) as Io
    by (intros; by apply (full_inhabited topics_ok)).
  assert (forall s, sessions_ok s -> exists a, is_Some (gs s a)) as Is
    by (intros; by apply (full_inhabited objects_ok)).
  intros H1 H2 E. apply (nested_ext sessions_ok gs); auto; clear H1 H2.
  - intros s1 s2 [_ H1] [_ H2] E'. apply (nested_ext objects_ok go); auto.
    + intros o1 o2 [_ H3] [_ H4] E3. apply (nested_ext topics_ok gi); auto.
      * intros i1 i2 [_ [H5 _]] [_ [H6 _]] E5. by apply m_ext.
      * intros k a. apply (E3 (k, a)).
    + intros k a. apply (E' (k, a)).
  - intros msg [s [o a]]. specialize (E msg s o a). unfold sub_find in E. unfold gs, go, gi. simpl.
    destruct (m_find msg t1) as [x|], (m_find msg t2) as [y|]; simpl in *; try done;
      try destruct (m_find s x) as [x'|]; try destruct (m_find s y) as [y'|]; simpl in *; try done;
      try destruct (m_find o x'); try destruct (m_find o y'); simpl in *; done.
Qed.

Definition same_key (c s o : Z) (tp : string) (msg session obj_id : Z) (topic : string) : bool :=
  bool_decide (c = msg) && bool_decide (s = session) && bool_decide (o = obj_id)
  && bool_decide (tp = topic).

Lemma subscribe_find t session msg obj_id topic flag :
  sub_ok t ->
  sub_ok (subscribe t session msg obj_id topic flag) /\
  forall c s o tp, sub_find (subscribe t session msg obj_id topic flag) c s o tp
    = if same_key c s o tp msg session obj_id (cstr_or_empty topic)
      then Some (mkSubItem flag) else sub_find t c s o tp.
Proof.
  intros Ht. unfold subscribe. sub_unfold. split; [auto 10 with fdb|].
  intros c s o tp. unfold sub_find, same_key. find_cases.
Qed.

(** C8: Subscribing keeps the table canonical and sets exactly the flag of its
    (event, session, object, topic), a null topic standing for the empty one. *)
Theorem subscribe_spec t session msg obj_id topic flag :
  sub_ok t ->
  sub_ok (subscribe t session msg obj_id topic flag) /\
  forall c s o tp, sub_find (subscribe t session msg obj_id topic flag) c s o tp
    = if same_key c s o tp msg session obj_id (cstr_or_empty topic)
      then Some (mkSubItem flag) else sub_find t c s o tp.
Proof. apply subscribe_find. Qed.

(** One topic, or every topic, of an object: the level of the objects. *)
Definition drop_topics (obj_id : Z) (topic : option string) (objects : ObjectTable_t) : ObjectTable_t :=
  match m_find obj_id objects with
  | None => objects
  | Some subitems =>
      match topic with
      | Some topic => m_prune obj_id (m_erase topic subitems) objects
      | None => m_erase obj_id objects
      end
  end.

Lemma drop_topics_spec obj_id topic objects :
  lvl topics_ok objects ->
  lvl topics_ok (drop_topics obj_id topic objects) /\
  forall o tp, (m_find o (drop_topics obj_id topic objects) ≫= m_find tp)
    = if bool_decide (o = obj_id) && from_option (fun x => bool_decide (tp = x)) true topic
      then None else m_find o objects ≫= m_find tp.
Proof.
  intros Ho. unfold drop_topics. destruct (m_find obj_id objects) as [items|] eqn:E.
  - pose proof (full_lvl _ _ (lvl_find _ _ _ _ Ho E)) as Hi. sub_unfold.
    destruct topic as [topic|]; (split; [auto with fdb|]); intros o tp; find_cases;
      by rewrite E.
  - split; [done|]. intros o tp. case_bool_decide; simplify_eq; simpl; [|done].
    rewrite E. simpl. by destruct (from_option _ _ _).
Qed.

Lemma unsubscribe_levels t session msg obj_id topic :
  unsubscribe t session msg obj_id topic =
  match m_find msg t with
  | None => t
  | Some sessions =>
      m_prune msg
        match m_find session sessions with
        | None => sessions
        | Some objects => m_prune session (drop_topics obj_id topic objects) sessions
        end t
  end.
Proof. done. Qed.

Lemma unsubscribe_topic_spec t session msg obj_id topic :
  sub_ok t ->
  sub_ok (unsubscribe t session msg obj_id topic) /\
  forall c s o tp, sub_find (unsubscribe t session msg obj_id topic) c s o tp
    = if bool_decide (c = msg) && bool_decide (s = session) && bool_decide (o = obj_id)
         && from_option (fun x => bool_decide (tp = x)) true topic
      then None else sub_find t c s o tp.
Proof.
  intros Ht. rewrite unsubscribe_levels.
  destruct (m_find msg t) as [sessions|] eqn:E1.
  - pose proof (full_lvl _ _ (lvl_find _ _ _ _ Ht E1)) as Hs.
    destruct (m_find session sessions) as [objects|] eqn:E2.
    + pose proof (full_lvl _ _ (lvl_find _ _ _ _ Hs E2)) as Ho.
      destruct (drop_topics_spec obj_id topic objects Ho) as [Hd Ed]. sub_unfold.
      split; [auto with fdb|]. intros c s o tp. unfold sub_find. find_cases; rewrite ?Ed, ?E1; simpl;
        rewrite ?E2; find_cases.
    + sub_unfold. split; [auto with fdb|]. intros c s o tp. unfold sub_find. find_cases; rewrite ?E1; simpl;
        rewrite ?E2; simpl; try done; by destruct (from_option _ _ _).
  - split; [done|]. intros c s o tp. case_bool_decide; simplify_eq; simpl; [|done].
    unfold sub_find. rewrite E1. simpl. by repeat case_match.
Qed.

Lemma unsubscribe_session_ok t session :
  sub_ok t ->
  sub_ok (unsubscribe_session t session) /\
  forall c s o tp, sub_find (unsubscribe_session t session) c s o tp
    = if bool_decide (s = session) then None else sub_find t c s o tp.
Proof.
  intros Ht. split.
  - apply lvl_walk; [|done]. intros k v v' [_ Hv]. apply full_keep. by apply lvl_erase.
  - intros c s o tp. unfold sub_find, unsubscribe_session. rewrite m_find_walk by eauto with fdb.
    destruct (m_find c t) as [sessions|] eqn:E; simpl; [|by case_bool_decide].
    pose proof (full_lvl _ _ (lvl_find _ _ _ _ Ht E)) as Hs. rewrite m_find_keep. find_cases.
Qed.

Lemma unsubscribe_object_ok t obj_id :
  sub_ok t ->
  sub_ok (unsubscribe_object t obj_id) /\
  forall c s o tp, sub_find (unsubscribe_object t obj_id) c s o tp
    = if bool_decide (o = obj_id) then None else sub_find t c s o tp.
Proof.
  intros Ht. split.
  - apply lvl_walk; [|done]. intros k v v' [_ Hv]. apply full_keep.
    apply lvl_walk; [|done]. intros k2 v2 v2' [_ Hv2]. apply full_keep. by apply lvl_erase.
  - intros c s o tp. unfold sub_find, unsubscribe_object. rewrite m_find_walk by eauto with fdb.
    destruct (m_find c t) as [sessions|] eqn:E; simpl; [|by case_bool_decide].
    pose proof (full_lvl _ _ (lvl_find _ _ _ _ Ht E)) as Hs.
    rewrite m_find_keep, m_find_walk by eauto with fdb.
    destruct (m_find s sessions) as [objects|] eqn:E'; simpl; [|by case_bool_decide].
    pose proof (full_lvl _ _ (lvl_find _ _ _ _ Hs E')) as Ho. rewrite m_find_keep. find_cases.
Qed.

(** C9: Unsubscribing one topic, every topic of an object on an event, every
    subscription of a session, or every subscription of an object id, keeps the
    table canonical, drops exactly those subscriptions and no others. *)
Theorem unsubscribe_spec t :
  sub_ok t ->
  (forall session msg obj_id topic,
     sub_ok (unsubscribe t session msg obj_id topic) /\
     forall c s o tp, sub_find (unsubscribe t session msg obj_id topic) c s o tp
       = if bool_decide (c = msg) && bool_decide (s = session) && bool_decide (o = obj_id)
            && from_option (fun x => bool_decide (tp = x)) true topic
         then None else sub_find t c s o tp) /\
  (forall session, sub_ok (unsubscribe_session t session) /\
     forall c s o tp, sub_find (unsubscribe_session t session) c s o tp
       = if bool_decide (s = session) then None else sub_find t c s o tp) /\
  (forall obj_id, sub_ok (unsubscribe_object t obj_id) /\
     forall c s o tp, sub_find (unsubscribe_object t obj_id) c s o tp
       = if bool_decide (o = obj_id) then None else sub_find t c s o tp).
Proof.
  intros Ht. split; [|split]; intros.
  - by apply unsubscribe_topic_spec.
  - by apply unsubscribe_session_ok.
  - by apply unsubscribe_object_ok.
Qed.

Lemma subscribe_ok t session msg obj_id topic flag :
  sub_ok t -> sub_ok (subscribe t session msg obj_id topic flag).
Proof. intros Ht. unfold subscribe. sub_unfold. auto 10 with fdb. Qed.

(** The tables a handle can hold: what any sequence of operations makes of the
    empty table. *)
Inductive sub_reach : SubscribeTable_t -> Prop :=
  | reach_empty : sub_reach []
  | reach_subscribe t session msg obj topic flag :
      sub_reach t -> sub_reach (subscribe t session msg obj topic flag)
  | reach_unsubscribe t session msg obj topic :
      sub_reach t -> sub_reach (unsubscribe t session msg obj topic)
  | reach_session t session : sub_reach t -> sub_reach (unsubscribe_session t session)
  | reach_object t obj : sub_reach t -> sub_reach (unsubscribe_object t obj).

Lemma sub_reach_ok t : sub_reach t -> sub_ok t.
Proof.
  induction 1; [apply lvl_nil|by apply subscribe_ok|by apply unsubscribe_topic_spec
    |by apply unsubscribe_session_ok|by apply unsubscribe_object_ok].
Qed.

(** Over every reachable table, dropping a subscription that was just made
    restores the very table there was before, whatever the interleaving that led
    to it, and a session that goes away leaves nothing behind. *)
Theorem unsubscribe_restores t session msg obj topic flag :
  sub_reach t ->
  (sub_find t msg session obj topic = None ->
   unsubscribe (subscribe t session msg obj (Some topic) flag) session msg obj (Some topic) = t) /\
  (forall c o tp, sub_find (unsubscribe_session t session) c session o tp = None).
Proof.
  intros Ht%sub_reach_ok. split.
  - intros Hf.
    destruct (subscribe_find t session msg obj (Some topic) flag Ht) as [Hs Es].
    destruct (unsubscribe_topic_spec _ session msg obj (Some topic) Hs) as [Hu Eu].
    apply sub_ok_ext; [done..|]. intros c s o tp. rewrite Eu, Es. unfold same_key. simpl.
    repeat case_bool_decide; simplify_eq; simpl; done.
  - intros c o tp. rewrite (proj2 (unsubscribe_session_ok t session Ht)).
    by rewrite bool_decide_true.
Qed.

Lemma unsubscribe_restores_witness :
  unsubscribe (subscribe [] 1 2 3 (Some "a"%string) 0) 1 2 3 (Some "a"%string) = [].
Proof. apply (unsubscribe_restores [] 1 2 3 "a" 0 reach_empty). reflexivity. Defined.

Lemma subscribe_spec_witness :
  sub_ok (subscribe [] 1 2 3 None 1) /\
  sub_find (subscribe [] 1 2 3 None 1) 2 1 3 EmptyString = Some (mkSubItem 1).
Proof.
  destruct (subscribe_spec [] 1 2 3 None 1 (lvl_nil _)) as [H E]. split; [exact H|].
  rewrite E. reflexivity.
Defined.

Lemma unsubscribe_spec_witness :
  sub_find (unsubscribe_object (subscribe [] 1 2 3 None 1) 3) 2 1 3 EmptyString = None.
Proof.
  destruct (unsubscribe_spec (subscribe [] 1 2 3 None 1) (subscribe_ok _ _ _ _ _ _ (lvl_nil _)))
    as (_ & _ & H).
  rewrite (proj2 (H 3)). reflexivity.
Defined.

(** ** What a broadcast delivers *)

Lemma updateObjectId_fields msg o :
  let m := updateObjectId msg o in
  mOid m = o /\ isNoReflect m = isNoReflect msg /\ mTopic m = mTopic msg /\ mSid m = mSid msg /\
  mCode m = mCode msg /\ mType m = mType msg /\ mPayload m = mPayload msg /\
  mPayloadSize m = mPayloadSize msg /\ mQOS m = mQOS msg.
Proof.
  unfold updateObjectId. destruct (Z.eqb_spec (mOid msg) o); [done|]. simpl.
  unfold isNoReflect, flag_set. simpl. rewrite <- Z.land_assoc. done.
Qed.

(** The message that arrives is the one broadcast but for the object id it is
    addressed to. *)
Definition same_event (m m' : CFdbMessage) : Prop :=
  isNoReflect m' = isNoReflect m /\ mTopic m' = mTopic m /\ mSid m' = mSid m /\
  mCode m' = mCode m /\ mType m' = mType m /\ mPayload m' = mPayload m /\
  mPayloadSize m' = mPayloadSize m /\ mQOS m' = mQOS m.

Lemma same_event_refl m : same_event m m.
Proof. by repeat split. Qed.

Lemma same_event_trans a b c : same_event a b -> same_event b c -> same_event a c.
Proof. unfold same_event. intros. destruct_and!. repeat split; congruence. Qed.

Lemma same_event_update m o : same_event m (updateObjectId m o).
Proof. pose proof (updateObjectId_fields m o). simpl in *. unfold same_event. destruct_and!. auto 10. Qed.

Definition copies (session obj : Z) (out : list Delivery) : nat :=
  length (filter (fun d => dl_session d = session /\ mOid (dl_msg d) = obj) out).

Lemma copies_app session obj a b : copies session obj (a ++ b) = (copies session obj a + copies session obj b)%nat.
Proof. unfold copies. by rewrite filter_app, length_app. Qed.

Section copies.
Context (sid : Z -> Z).

(** A subscription takes one copy, unless it asked not to see the events its own
    object publishes and this is one. *)
Definition item_copies (noreflect : bool) (sender_sid sender_oid session obj : Z)
    (item : option CSubscribeItem) : nat :=
  match item with
  | None => 0
  | Some i =>
      if noreflect && flag_set (si_mFlag i) FDB_SUBFLAG_NO_REFLECT
         && (sender_sid =? sid session) && (sender_oid =? obj) then 0 else 1
  end.

Lemma copies_one session msg item ssid soid s o :
  copies s o (broadcastOneMsg sid session msg item ssid soid)
  = if bool_decide (s = session /\ o = mOid msg)
    then item_copies (isNoReflect msg) ssid soid session (mOid msg) (Some item) else 0%nat.
Proof.
  unfold broadcastOneMsg, item_copies. destruct (_ && _ && _ && _).
  - by case_bool_decide.
  - unfold copies. rewrite filter_cons. simpl.
    case_decide as H1; case_bool_decide as H2; simpl; try done;
      [destruct H2|destruct H1]; intuition congruence.
Qed.

Lemma copies_item session msg items tp ssid soid s o :
  copies s o (broadcast_item sid session msg items tp ssid soid).2
  = if bool_decide (s = session /\ o = mOid msg)
    then item_copies (isNoReflect msg) ssid soid session (mOid msg) (m_find tp items) else 0%nat.
Proof.
  unfold broadcast_item. destruct (m_find tp items); [apply copies_one|]. simpl.
  by case_bool_decide.
Qed.

Definition object_copies (nr : bool) (topic : string) (ssid soid session obj : Z)
    (find : string -> option CSubscribeItem) : nat :=
  (item_copies nr ssid soid session obj (find topic)
   + if is_empty_str topic then 0 else item_copies nr ssid soid session obj (find EmptyString))%nat.

Lemma object_copies_none nr topic ssid soid session obj :
  object_copies nr topic ssid soid session obj (fun _ => None) = 0%nat.
Proof. unfold object_copies. simpl. by destruct (is_empty_str topic). Qed.

Lemma copies_objects session topic ssid soid objects : forall msg s o,
  m_sorted objects ->
  let '(msg', _, out) := broadcast_objects sid session topic ssid soid objects msg in
  same_event msg msg' /\
  copies s o out =
    if bool_decide (s = session)
    then object_copies (isNoReflect msg) topic ssid soid session o
           (fun tp => m_find o objects ≫= m_find tp)
    else 0%nat.
Proof.
  induction objects as [|[o' items] objects IH]; intros msg s o Hs.
  { simpl. split; [apply same_event_refl|]. rewrite object_copies_none. by case_bool_decide. }
  cbn [broadcast_objects]. destruct Hs as [Hb Hs].
  specialize (IH (updateObjectId msg o') s o Hs).
  pose proof (copies_item session (updateObjectId msg o') items topic ssid soid s o) as C1.
  pose proof (copies_item session (updateObjectId msg o') items EmptyString ssid soid s o) as C2.
  destruct (updateObjectId_fields msg o') as (Eo & En & _). rewrite Eo, En in C1, C2.
  pose proof (same_event_update msg o') as Eu.
  destruct (broadcast_item sid session (updateObjectId msg o') items topic ssid soid) as [b1 out1].
  destruct (broadcast_item sid session (updateObjectId msg o') items EmptyString ssid soid) as [b2 out2].
  destruct (broadcast_objects sid session topic ssid soid objects (updateObjectId msg o')) as [[msg' b] out].
  simpl in C1, C2. destruct IH as [Ie Ic].
  assert (exists b3 out3, (if is_empty_str topic then (false, []) else (b2, out2)) = (b3, out3) /\
    copies s o out3 = if is_empty_str topic then 0%nat else copies s o out2) as (b3 & out3 & -> & C3)
    by (destruct (is_empty_str topic); eauto).
  split; [by eapply same_event_trans|].
  rewrite !copies_app, C1, C3, C2, Ic, En, m_find_cons_dec by done. unfold object_copies.
  destruct (decide (s = session)) as [->|Hn].
  - rewrite (bool_decide_true (session = session)) by done. destruct (decide (o = o')) as [->|Ho].
    + rewrite bool_decide_true by done. rewrite (m_find_below _ _ Hb).
      destruct (is_empty_str topic); simpl; lia.
    + rewrite bool_decide_false by naive_solver. by destruct (is_empty_str topic).
  - rewrite !bool_decide_false by naive_solver. by destruct (is_empty_str topic).
Qed.

Lemma copies_sessions topic ssid soid sessions : forall msg s o,
  m_sorted sessions -> Forall (fun e => m_sorted e.2) sessions ->
  let '(msg', _, out) := broadcast_sessions sid topic ssid soid sessions msg in
  same_event msg msg' /\
  copies s o out = object_copies (isNoReflect msg) topic ssid soid s o
    (fun tp => (m_find s sessions ≫= m_find o) ≫= m_find tp).
Proof.
  induction sessions as [|[s' objects] sessions IH]; intros msg s o Hs Ho.
  { simpl. split; [apply same_event_refl|]. by rewrite object_copies_none. }
  cbn [broadcast_sessions]. destruct Hs as [Hb Hs]. inversion_clear Ho as [|?? Hob Hos].
  pose proof (copies_objects s' topic ssid soid objects msg s o Hob) as C1.
  destruct (broadcast_objects sid s' topic ssid soid objects msg) as [[msg1 b1] out1].
  specialize (IH msg1 s o Hs Hos).
  destruct (broadcast_sessions sid topic ssid soid sessions msg1) as [[msg2 b2] out2].
  destruct C1 as [Ee Ec], IH as [Ie Ic]. split; [by eapply same_event_trans|].
  rewrite copies_app, Ec, Ic, m_find_cons_dec by done. rewrite (proj1 Ee).
  case_bool_decide; case_decide; simplify_eq; [|done]. rewrite (m_find_below _ _ Hb). simpl.
  rewrite object_copies_none. lia.
Qed.

Lemma sent_objects session topic ssid soid objects : forall msg,
  (broadcast_objects sid session topic ssid soid objects msg).1.2 = objects_take topic objects.
Proof.
  induction objects as [|[o items] objects IH]; intros msg; simpl; [done|].
  specialize (IH (updateObjectId msg o)).
  destruct (broadcast_objects sid session topic ssid soid objects (updateObjectId msg o))
    as [[msg' b] out]. simpl in IH. subst b. unfold broadcast_item.
  destruct (m_find topic items); [by destruct (is_empty_str topic), (m_find EmptyString items)|].
  by destruct (is_empty_str topic), (m_find EmptyString items).
Qed.

Lemma sent_sessions topic ssid soid sessions : forall msg,
  (broadcast_sessions sid topic ssid soid sessions msg).1.2
  = existsb (fun e => objects_take topic e.2) sessions.
Proof.
  induction sessions as [|[s objects] sessions IH]; intros msg; simpl; [done|].
  pose proof (sent_objects s topic ssid soid objects msg) as E.
  destruct (broadcast_objects sid s topic ssid soid objects msg) as [[msg1 b1] out1].
  specialize (IH msg1). destruct (broadcast_sessions sid topic ssid soid sessions msg1) as [[? b] ?].
  simpl in *. by subst.
Qed.

Lemma broadcast_copies t msg event :
  sub_ok t ->
  let '(msg', sent, out) := broadcast sid t msg event in
  let topic := c_str (mTopic msg) in
  same_event msg msg' /\
  (forall session obj,
     copies session obj out
     = object_copies (isNoReflect msg) topic (mSid msg) (mOid msg) session obj
         (sub_find t event session obj)) /\
  sent = existsb (fun e => objects_take topic e.2) (m_at [] event t).
Proof.
  intros Ht. unfold broadcast, m_at, sub_find.
  destruct (m_find event t) as [sessions|] eqn:E; simpl.
  - pose proof (full_lvl _ _ (lvl_find _ _ _ _ Ht E)) as [Hs Ho].
    assert (Forall (fun e => m_sorted e.2) sessions) as Hos
      by (eapply Forall_impl; [exact Ho|]; by intros e [_ [? _]]).
    pose proof (fun s o => copies_sessions (c_str (mTopic msg)) (mSid msg) (mOid msg) sessions msg s o Hs Hos) as C.
    pose proof (sent_sessions (c_str (mTopic msg)) (mSid msg) (mOid msg) sessions msg) as S.
    destruct (broadcast_sessions sid (c_str (mTopic msg)) (mSid msg) (mOid msg) sessions msg) as [[msg' b] out].
    split; [by apply (C 0 0)|]. split; [intros; by apply C|done].
  - split; [apply same_event_refl|]. split; [|done]. intros s o. by rewrite object_copies_none.
Qed.

(** C10: Broadcasting an event hands every object of every session exactly the
    copies its subscriptions ask for: one for a subscription to the topic of the
    message and, unless that topic is the empty one, one more for a subscription to
    the empty topic, also when there is one for the topic as well, unlike the comment
    in the code has it; none to the publishing object that asked for no reflection;
    nothing else is sent, and the result says whether any subscription matched. *)
Theorem broadcast_delivers t msg event :
  sub_ok t ->
  let '(msg', sent, out) := broadcast sid t msg event in
  let topic := c_str (mTopic msg) in
  same_event msg msg' /\
  (forall session obj,
     copies session obj out
     = object_copies (isNoReflect msg) topic (mSid msg) (mOid msg) session obj
         (sub_find t event session obj)) /\
  sent = existsb (fun e => objects_take topic e.2) (m_at [] event t).
Proof. apply broadcast_copies. Qed.
End copies.

(** The message as [onBroadcast] tests build it: event 5 on topic "t". *)
Definition event_msg (sid oid flag : Z) (topic : string) : CFdbMessage :=
  mkMessage FDB_MT_BROADCAST 5 sid oid flag topic None 0 FDB_QOS_RELIABLE.

Lemma broadcast_delivers_witness :
  let t := subscribe (subscribe [] 10 5 1 (Some "t"%string) 0) 10 5 1 None 0 in
  let '(_, _, out) := broadcast (fun s => s) t (event_msg 3 1 0 "t") 5 in
  copies 10 1 out = 2%nat.
Proof.
  intros t.
  assert (sub_ok t) as Ht by (apply subscribe_ok, subscribe_ok, lvl_nil).
  pose proof (broadcast_delivers (fun s => s) t (event_msg 3 1 0 "t") 5 Ht) as H.
  destruct (broadcast (fun s => s) t (event_msg 3 1 0 "t") 5) as [[msg' sent] out].
  destruct H as (_ & H & _). rewrite H. vm_compute. reflexivity.
Defined.

Section copies_session.
Context (sid : Z -> Z).

(** The subscription of an object that takes a message of [topic]: the one to
    the topic itself, else the one to the empty topic. *)
Definition best_item (topic : string) (find : string -> option CSubscribeItem) :
    option CSubscribeItem :=
  match find topic with
  | Some i => Some i
  | None => if is_empty_str topic then None else find EmptyString
  end.

Definition own_copies (msg : CFdbMessage) (ssid soid session obj : Z)
    (find : string -> option CSubscribeItem) : nat :=
  if FDB_OBJECT_GET_CLASS obj =? FDB_OBJECT_GET_CLASS (mOid msg)
  then item_copies sid (isNoReflect msg) ssid soid session obj (best_item (c_str (mTopic msg)) find)
  else 0%nat.

Lemma own_copies_none msg ssid soid session obj :
  own_copies msg ssid soid session obj (fun _ => None) = 0%nat.
Proof. unfold own_copies, best_item. by destruct (_ =? _), (is_empty_str (c_str (mTopic msg))). Qed.

Lemma copies_own session ssid soid objects : forall msg s o,
  m_sorted objects ->
  copies s o (broadcast_own sid session ssid soid objects msg).2
  = if bool_decide (s = session)
    then own_copies msg ssid soid session o (fun tp => m_find o objects ≫= m_find tp) else 0%nat.
Proof.
  induction objects as [|[o' items] objects IH]; intros msg s o Hs.
  { simpl. rewrite own_copies_none. by case_bool_decide. }
  cbn [broadcast_own]. destruct Hs as [Hb Hs].
  destruct (FDB_OBJECT_GET_CLASS o' =? FDB_OBJECT_GET_CLASS (mOid msg)) eqn:Ec; cbn [negb].
  - pose proof (IH (updateObjectId msg o') s o Hs) as IH'. clear IH.
    destruct (updateObjectId_fields msg o') as (Eo & En & Et & _).
    set (m := updateObjectId msg o') in *.
    set (r1 := match m_find (c_str (mTopic m)) items with Some _ => _ | None => _ end).
    assert (copies s o r1.2 = if bool_decide (s = session /\ o = o')
      then item_copies sid (isNoReflect msg) ssid soid session o'
             (best_item (c_str (mTopic msg)) (fun tp => m_find tp items)) else 0%nat) as C1.
    { unfold r1, best_item. rewrite Et, <- En, <- Eo.
      destruct (m_find (c_str (mTopic msg)) items); [apply copies_one|].
      destruct (is_empty_str (c_str (mTopic msg))); [by destruct (bool_decide (s = session /\ o = mOid m))|apply copies_item]. }
    destruct r1 as [b1 out1]. destruct (broadcast_own sid session ssid soid objects m) as [[m' b] out].
    simpl in C1, IH'. cbn [snd]. rewrite copies_app, C1, IH', m_find_cons_dec by done.
    assert (own_copies m ssid soid session o = own_copies msg ssid soid session o) as ->.
    { unfold own_copies. rewrite Eo, En, Et. by rewrite (proj1 (Z.eqb_eq _ _) Ec). }
    destruct (decide (s = session)) as [->|Hn].
    + destruct (decide (o = o')) as [->|Ho].
      * rewrite !bool_decide_true by done. rewrite (m_find_below _ _ Hb). simpl.
        rewrite own_copies_none. unfold own_copies. rewrite Ec. lia.
      * rewrite bool_decide_false by tauto. done.
    + by rewrite !bool_decide_false by tauto.
  - rewrite IH by done. rewrite m_find_cons_dec by done. case_bool_decide; [|done].
    destruct (decide (o = o')) as [->|]; [|done]. unfold own_copies. by rewrite Ec.
Qed.

(** A broadcast to one session reaches only that session, only its
    objects of the class the message is addressed to, and each of them at most
    once: through the subscription to the topic, else through the one to the
    empty topic. *)
Theorem broadcast_session_delivers t msg session event s o :
  sub_ok t ->
  copies s o (broadcast_session sid t msg session event).2
  = if bool_decide (s = session)
    then own_copies msg (mSid msg) (mOid msg) session o (sub_find t event session o) else 0%nat.
Proof.
  intros Ht. unfold broadcast_session, sub_find.
  destruct (m_find event t) as [sessions|] eqn:E; simpl;
    [|rewrite own_copies_none; by case_bool_decide].
  pose proof (full_lvl _ _ (lvl_find _ _ _ _ Ht E)) as Hs.
  destruct (m_find session sessions) as [objects|] eqn:E'; simpl;
    [|rewrite own_copies_none; by case_bool_decide].
  pose proof (full_lvl _ _ (lvl_find _ _ _ _ Hs E')) as [Ho _]. by apply copies_own.
Qed.
End copies_session.

Lemma broadcast_session_delivers_witness :
  let t := subscribe (subscribe [] 10 5 1 (Some "t"%string) 0) 10 5 1 None 0 in
  copies 10 1 (broadcast_session (fun s => s) t (event_msg 3 1 0 "t") 10 5).2 = 1%nat.
Proof.
  intros t.
  rewrite (broadcast_session_delivers (fun s => s) t (event_msg 3 1 0 "t") 10 5 10 1);
    [reflexivity|apply subscribe_ok, subscribe_ok, lvl_nil].
Defined.
