(* ===== verification/EventObject.v ===== *)
(** Events of an object: the subscription, cache and broadcast part of
    src/fdbus/CFdbBaseObject.cpp.

    [CFdbBaseObject] keeps two subscription tables, one for single events and one
    for event groups, and a cache of the last value of each event and topic.
    Subscriptions go to the table their code belongs to; a broadcast goes to the
    subscribers of the event, of its group and of all groups; the cache decides
    whether an update is broadcast at all.  Memory allocation is taken to
    succeed; [None] is undefined behaviour of the memory functions. *)
From S2P Require Import Prelude StdMap CommonDefs Serializer Subscribe.

(** ** The cache *)

(** [CEventData]: the buffer ([None] is a null pointer) and the options. *)
Record CEventData := mkEventData {
  ed_mBuffer : option (list Z);
  ed_mSize : Z;
  ed_mAllowRoute : bool;
  ed_mAllowCache : bool }.

Definition CEventData_new : CEventData := mkEventData None 0 false true.

(** [new uint8_t[size]]; a negative size throws, and the buffer stays null. *)
Definition new_bytes {I : Indet} (size : Z) : option (list Z) :=
  if size <? 0 then None else Some (replicate (Z.to_nat size) indet).

(** The bytes [memcmp] and [memcpy] read; [None] when they read past the end. *)
Definition read_bytes (mem : list Z) (size : Z) : option (list Z) :=
  if (0 <=? size) && (size <=? Z.of_nat (length mem)) then Some (take (Z.to_nat size) mem) else None.

(** [memcpy(mBuffer, buffer, size)], the last step of [setEventCache]. *)
Definition cache_copy (e : CEventData) (buffer : option (list Z)) (size : Z) :
    option (bool * CEventData) :=
  match buffer with
  | Some b =>
      if size =? 0 then Some (true, e) else
      mem ← ed_mBuffer e;
      src ← read_bytes b size;
      if size <=? Z.of_nat (length mem)
      then Some (true, mkEventData (Some (src ++ drop (Z.to_nat size) mem)) (ed_mSize e)
                         (ed_mAllowRoute e) (ed_mAllowCache e))
      else None
  | None => Some (true, e)
  end.

Arguments cache_copy : simpl never.

Definition ed_set (e : CEventData) (mem : option (list Z)) (size : Z) : CEventData :=
  mkEventData mem size (ed_mAllowRoute e) (ed_mAllowCache e).

Definition setEventCache {I : Indet} (e : CEventData) (buffer : option (list Z)) (size : Z) :
    option (bool * CEventData) :=
  if size =? ed_mSize e then
    match ed_mBuffer e with
    | Some mem =>
        match buffer with
        | Some b =>
            x ← read_bytes mem size;
            y ← read_bytes b size;
            if bool_decide (x = y) then Some (false, e) else cache_copy e buffer size
        | None => cache_copy e buffer size
        end
    | None =>
        if size =? 0 then cache_copy e buffer size
        else
          match new_bytes size with
          | Some mem => cache_copy (ed_set e (Some mem) (ed_mSize e)) buffer size
          | None => cache_copy (ed_set e None 0) buffer size
          end
    end
  else
    let mem := if size =? 0 then None else new_bytes size in
    cache_copy (ed_set e mem size) buffer size.

(** The cache takes ownership of the buffer it is given. *)
Definition replaceCacheData (e : CEventData) (buffer : list Z) (size : Z) : CEventData :=
  ed_set e (Some buffer) size.

Definition ed_options (e : CEventData) (route cache : bool) : CEventData :=
  mkEventData (ed_mBuffer e) (ed_mSize e) route cache.

Abbreviation CacheDataTable_t := (smap string CEventData).
Abbreviation EventCacheTable_t := (smap Z CacheDataTable_t).

Definition cache_ref (c : EventCacheTable_t) (event : Z) (topic : string) : CEventData :=
  m_at CEventData_new topic (m_at [] event c).
Definition cache_put (c : EventCacheTable_t) (event : Z) (topic : string) (e : CEventData) :
    EventCacheTable_t :=
  m_set event (m_set topic e (m_at [] event c)) c.

(** [CEventCache::add] of a builder: [built] is the size and the bytes it makes;
    the entry exists even when building fails. *)
Definition cache_add_builder {I : Indet} (c : EventCacheTable_t) (event : Z)
    (topic : option string) (built : Z * list Z) (route cache : bool) :
    option (bool * EventCacheTable_t) :=
  let topic := cstr_or_empty topic in
  let e := ed_options (cache_ref c event topic) route cache in
  let '(size, bytes) := built in
  if size <? 0 then Some (false, cache_put c event topic e)
  else
    '(_, e) ← setEventCache e None size;
    match ed_mBuffer e with
    | Some mem =>
        src ← read_bytes bytes size;
        Some (true, cache_put c event topic
                      (ed_set e (Some (src ++ drop (Z.to_nat size) mem)) (ed_mSize e)))
    | None => if size =? 0 then Some (true, cache_put c event topic e) else None
    end.

Definition cache_add {I : Indet} (c : EventCacheTable_t) (event : Z) (topic : option string)
    (buffer : option (list Z)) (size : Z) (route cache : bool) : option (bool * EventCacheTable_t) :=
  let topic := cstr_or_empty topic in
  let e := ed_options (cache_ref c event topic) route cache in
  '(_, e) ← setEventCache e buffer size;
  Some (true, cache_put c event topic e).

Definition cache_replace (c : EventCacheTable_t) (id : Z) (topic : string)
    (buffer : option (list Z)) (size : Z) (route cache : bool) : EventCacheTable_t :=
  let e := cache_ref c id topic in
  let e := match buffer with
           | Some b => if size =? 0 then e else replaceCacheData e b size
           | None => e
           end in
  cache_put c id topic (ed_options e route cache).

Definition cache_get (c : EventCacheTable_t) (msg_code : Z) (topic : string) : option CEventData :=
  m_find msg_code c ≫= m_find topic.

Definition cache_erase (c : EventCacheTable_t) (msg_code : Z) (topic : string) : EventCacheTable_t :=
  match m_find msg_code c with
  | Some topics => m_prune msg_code (m_erase topic topics) c
  | None => c
  end.

Inductive EFdbEndpointRole :=
  | FDB_OBJECT_ROLE_SERVER | FDB_OBJECT_ROLE_NS_SERVER | FDB_OBJECT_ROLE_CLIENT
  | FDB_OBJECT_ROLE_UNKNOWN.

#[export] Instance EFdbEndpointRole_dec : EqDecision EFdbEndpointRole.
Proof. solve_decision. Defined.

(** [CEventCache::update]: -1 the cache has no say, 1 updated, 0 nothing to do. *)
Definition cache_update {I : Indet} (c : EventCacheTable_t) (msg : CFdbMessage)
    (allow_event_route : bool) (role : EFdbEndpointRole) : option (Z * EventCacheTable_t) :=
  let cached_event := cache_get c (mCode msg) (mTopic msg) in
  match cached_event with
  | Some e =>
      if negb (ed_mAllowCache e) then Some (-1, c) else
      let allow_event_route := ed_mAllowRoute e in
      if bool_decide (role <> FDB_OBJECT_ROLE_CLIENT)
         && (bool_decide (mType msg = FDB_MT_PUBLISH) && negb allow_event_route)
      then Some (-1, c)
      else
        '(updated, e) ← setEventCache e (mPayload msg) (mPayloadSize msg);
        let c := cache_put c (mCode msg) (mTopic msg) e in
        Some (if negb updated && negb (isForceUpdate msg) then 0 else 1, c)
  | None =>
      if bool_decide (role <> FDB_OBJECT_ROLE_CLIENT)
         && (bool_decide (mType msg = FDB_MT_PUBLISH) && negb allow_event_route)
      then Some (-1, c)
      else
        let e := cache_ref c (mCode msg) (mTopic msg) in
        let e := ed_options e allow_event_route (ed_mAllowCache e) in
        '(updated, e) ← setEventCache e (mPayload msg) (mPayloadSize msg);
        let c := cache_put c (mCode msg) (mTopic msg) e in
        Some (if negb updated && negb (isForceUpdate msg) then 0 else 1, c)
  end.

(** ** The object *)

Definition FDB_OBJ_ENABLE_EVENT_CACHE : Z := Z.shiftl 1 2.
Definition FDB_OBJ_ENABLE_EVENT_ROUTE : Z := Z.shiftl 1 4.

Record CFdbBaseObject := mkObject {
  o_mFlag : Z;
  o_mObjId : Z;
  o_mRole : EFdbEndpointRole;
  mEventSubscribeHandle : SubscribeTable_t;
  mGroupSubscribeHandle : SubscribeTable_t;
  mEventCache : EventCacheTable_t }.

Definition with_handles (o : CFdbBaseObject) (e g : SubscribeTable_t) : CFdbBaseObject :=
  mkObject (o_mFlag o) (o_mObjId o) (o_mRole o) e g (mEventCache o).
Definition with_cache (o : CFdbBaseObject) (c : EventCacheTable_t) : CFdbBaseObject :=
  mkObject (o_mFlag o) (o_mObjId o) (o_mRole o) (mEventSubscribeHandle o) (mGroupSubscribeHandle o) c.

Definition obj_subscribe (o : CFdbBaseObject) (session msg obj_id : Z) (topic : option string)
    (flag : Z) : CFdbBaseObject :=
  if fdbIsGroup msg
  then with_handles o (mEventSubscribeHandle o)
         (subscribe (mGroupSubscribeHandle o) session msg obj_id topic flag)
  else with_handles o (subscribe (mEventSubscribeHandle o) session msg obj_id topic flag)
         (mGroupSubscribeHandle o).

Definition obj_unsubscribe (o : CFdbBaseObject) (session msg obj_id : Z) (topic : option string) :
    CFdbBaseObject :=
  if fdbIsGroup msg
  then with_handles o (mEventSubscribeHandle o)
         (unsubscribe (mGroupSubscribeHandle o) session msg obj_id topic)
  else with_handles o (unsubscribe (mEventSubscribeHandle o) session msg obj_id topic)
         (mGroupSubscribeHandle o).

Definition obj_unsubscribe_session (o : CFdbBaseObject) (session : Z) : CFdbBaseObject :=
  with_handles o (unsubscribe_session (mEventSubscribeHandle o) session)
    (unsubscribe_session (mGroupSubscribeHandle o) session).

Definition obj_unsubscribe_object (o : CFdbBaseObject) (obj_id : Z) : CFdbBaseObject :=
  with_handles o (unsubscribe_object (mEventSubscribeHandle o) obj_id)
    (unsubscribe_object (mGroupSubscribeHandle o) obj_id).

Definition updateEventCache {I : Indet} (o : CFdbBaseObject) (msg : CFdbMessage) :
    option (Z * CFdbBaseObject) :=
  if flag_set (o_mFlag o) FDB_OBJ_ENABLE_EVENT_CACHE
  then
    '(action, c) ← cache_update (mEventCache o) msg
                     (flag_set (o_mFlag o) FDB_OBJ_ENABLE_EVENT_ROUTE) (o_mRole o);
    Some (action, with_cache o c)
  else
    Some (if bool_decide (mType msg = FDB_MT_PUBLISH)
             && negb (flag_set (o_mFlag o) FDB_OBJ_ENABLE_EVENT_ROUTE) then 1 else -1, o).

Section objects.
Context (sid : Z -> Z).

Definition broadcastMsg (o : CFdbBaseObject) (msg : CFdbMessage) :
    CFdbMessage * bool * list Delivery :=
  let msg := msg_set_type msg FDB_MT_BROADCAST in
  let code := mCode msg in
  let '(msg, sent1, out1) := broadcast sid (mEventSubscribeHandle o) msg code in
  let '(msg, sent2, out2) := broadcast sid (mGroupSubscribeHandle o) msg (fdbMakeGroup code) in
  if negb (fdbEventInGroup code FDB_EVENT_ALL_GROUPS) then
    let '(msg, sent3, out3) :=
      broadcast sid (mGroupSubscribeHandle o) msg (fdbMakeGroupEvent FDB_EVENT_ALL_GROUPS) in
    (msg, sent1 || sent2 || sent3, out1 ++ out2 ++ out3)
  else (msg, sent1 || sent2, out1 ++ out2).

Definition obj_broadcast {I : Indet} (o : CFdbBaseObject) (msg : CFdbMessage) :
    option (CFdbBaseObject * bool * list Delivery) :=
  '(action, o) ← updateEventCache o msg;
  if action =? 0 then Some (o, false, [])
  else let '(_, sent, out) := broadcastMsg o msg in Some (o, sent, out).

Definition obj_broadcast_session {I : Indet} (o : CFdbBaseObject) (msg : CFdbMessage)
    (session : Z) : option (CFdbBaseObject * bool * list Delivery) :=
  '(action, o) ← updateEventCache o msg;
  if action =? 0 then Some (o, true, []) else
  let msg := msg_set_type msg FDB_MT_BROADCAST in
  let code := mCode msg in
  let '(msg, sent, out1) := broadcast_session sid (mEventSubscribeHandle o) msg session code in
  if sent : bool then Some (o, true, out1) else
  let '(msg, sent, out2) :=
    broadcast_session sid (mGroupSubscribeHandle o) msg session (fdbMakeGroup code) in
  if sent : bool then Some (o, true, out1 ++ out2) else
  if fdbEventInGroup code FDB_EVENT_ALL_GROUPS then Some (o, false, out1 ++ out2) else
  let '(_, sent, out3) :=
    broadcast_session sid (mGroupSubscribeHandle o) msg session
      (fdbMakeGroupEvent FDB_EVENT_ALL_GROUPS) in
  Some (o, sent, out1 ++ out2 ++ out3).

(** [publish(msg, session)]: [send] is the result of [session->sendMessage]. *)
Definition obj_publish {I : Indet} (o : CFdbBaseObject) (msg : CFdbMessage)
    (session : option Z) (send : bool) : option (CFdbBaseObject * bool * list Delivery) :=
  '(action, o) ← updateEventCache o msg;
  match session with
  | Some s => if action =? 0 then Some (o, false, []) else Some (o, send, [mkDelivery s msg])
  | None => Some (o, false, [])
  end.

(** [broadcastCached]: a new subscriber of [items] gets the cached values; the
    empty topic asks for every cached topic of its event.  Each value travels in
    a message of its own, made from the subscribe request [msg]. *)
Definition cached_message (msg : CFdbMessage) (code : Z) (topic : string) (e : CEventData) :
    CFdbMessage :=
  forceUpdate
    (mkMessage FDB_MT_BROADCAST code (mSid msg) (mOid msg)
       (Z.lor (Z.lor MSG_FLAG_INITIAL_RESPONSE MSG_FLAG_NOREPLY_EXPECTED)
          (Z.land (mFlag msg) (Z.lor MSG_FLAG_MANUAL_UPDATE MSG_FLAG_ENABLE_LOG)))
       topic (ed_mBuffer e) (ed_mSize e) (mQOS msg)) true.

Fixpoint broadcast_each {I : Indet} (o : CFdbBaseObject) (session : Z) (msgs : list CFdbMessage) :
    option (CFdbBaseObject * list Delivery) :=
  match msgs with
  | [] => Some (o, [])
  | m :: rest =>
      '(o, _, out) ← obj_broadcast_session o m session;
      '(o, out') ← broadcast_each o session rest;
      Some (o, out ++ out')
  end.

Fixpoint broadcastCached {I : Indet} (o : CFdbBaseObject) (msg : CFdbMessage) (session : Z)
    (items : list (Z * option string)) : option (CFdbBaseObject * list Delivery) :=
  match items with
  | [] => Some (o, [])
  | (msg_code, topic) :: rest =>
      let topic := c_str (cstr_or_empty topic) in
      let msgs :=
        if is_empty_str topic then
          match m_find msg_code (mEventCache o) with
          | Some topics => map (fun e => cached_message msg msg_code (c_str e.1) e.2) topics
          | None => []
          end
        else
          match cache_get (mEventCache o) msg_code topic with
          | Some e => [cached_message msg msg_code topic e]
          | None => []
          end in
      '(o, out) ← broadcast_each o session msgs;
      '(o, out') ← broadcastCached o msg session rest;
      Some (o, out ++ out')
  end.

(** A request published to the object: what the framework does with it, in order. *)
Inductive PublishAction :=
  | Forward (d : Delivery)
  | OnPublish
  | AutoReply
  | SetEvent (msg : CFdbMessage).

(** [CFdbMessage(code, obj, topic, dest_sid, FDB_INVALID_ID, qos)] followed by
    [serialize(buffer, size)]. *)
Definition event_message (o : CFdbBaseObject) (code : Z) (topic : string) (dest_sid : Z)
    (qos : EFdbQOS) (payload : option (list Z)) (size : Z) : CFdbMessage :=
  mkMessage FDB_MT_BROADCAST code dest_sid (o_mObjId o) MSG_FLAG_NOREPLY_EXPECTED topic
    payload size qos.

Definition doPublish {I : Indet} (o : CFdbBaseObject) (msg : CFdbMessage) :
    option (CFdbBaseObject * list PublishAction) :=
  '(action, o) ← updateEventCache o msg;
  let '(published, acts) :=
    if action =? 1 then
      let out_msg := event_message o (mCode msg) (c_str (mTopic msg)) (mSid msg) (mQOS msg)
                       (mPayload msg) (mPayloadSize msg) in
      let out_msg := forceUpdate out_msg (isForceUpdate msg) in
      let out_msg := setNoReflect out_msg true in
      let '(_, sent, out) := broadcastMsg o out_msg in
      (sent, map Forward out ++ [OnPublish; AutoReply])
    else (false, []) in
  if negb (action =? 0) && negb published
  then Some (o, acts ++ [SetEvent (msg_set_type msg FDB_MT_SET_EVENT)])
  else Some (o, acts).
End objects.

(** ** Queries *)

Definition obj_getSubscribeTable_all (o : CFdbBaseObject) (table : smap Z (sset string)) :
    smap Z (sset string) :=
  getSubscribeTable_all (mGroupSubscribeHandle o)
    (getSubscribeTable_all (mEventSubscribeHandle o) table).

(** The tables and codes an event is looked up under. *)
Definition event_tables (o : CFdbBaseObject) (code : Z) : list (SubscribeTable_t * Z) :=
  [(mEventSubscribeHandle o, code); (mGroupSubscribeHandle o, fdbMakeGroup code)]
  ++ if negb (fdbEventInGroup code FDB_EVENT_ALL_GROUPS)
     then [(mGroupSubscribeHandle o, fdbMakeGroupEvent FDB_EVENT_ALL_GROUPS)] else [].

Definition obj_getSubscribeTable_code (o : CFdbBaseObject) (code : Z) (topics : sset string) :
    sset string :=
  foldl (fun tbl e => getSubscribeTable_code e.1 e.2 tbl) topics (event_tables o code).

Definition obj_getSubscribeTable_session (o : CFdbBaseObject) (code session : Z)
    (topic_tbl : sset string) : sset string :=
  foldl (fun tbl e => getSubscribeTable_session e.1 e.2 session tbl) topic_tbl (event_tables o code).

Definition obj_getSubscribeTable_topic (o : CFdbBaseObject) (code : Z) (topic : option string)
    (session_tbl : sset Z) : sset Z :=
  foldl (fun tbl e => getSubscribeTable_topic e.1 e.2 topic tbl) session_tbl (event_tables o code).

(** ** The cache holds the last value *)

(** A cached value: the buffer has the recorded size, a null one the size 0. *)
Definition ed_ok (e : CEventData) : Prop :=
  match ed_mBuffer e with Some mem => Z.of_nat (length mem) = ed_mSize e | None => ed_mSize e = 0 end.
Definition ed_content (e : CEventData) : list Z := default [] (ed_mBuffer e).
Definition cache_ok : EventCacheTable_t -> Prop := lvl (full ed_ok).

Lemma read_bytes_all mem : read_bytes mem (Z.of_nat (length mem)) = Some mem.
Proof.
  unfold read_bytes. rewrite Z.leb_refl, (proj2 (Z.leb_le _ _)) by lia. simpl.
  by rewrite Nat2Z.id, firstn_all.
Qed.

Lemma cache_copy_spec e b mem :
  ed_mBuffer e = Some mem -> length mem = length b -> ed_mSize e = Z.of_nat (length b) ->
  exists e', cache_copy e (Some b) (Z.of_nat (length b)) = Some (true, e') /\ ed_ok e' /\
    ed_content e' = b /\ ed_mAllowRoute e' = ed_mAllowRoute e /\ ed_mAllowCache e' = ed_mAllowCache e.
Proof.
  intros Em El Es. unfold cache_copy. destruct (Z.eqb_spec (Z.of_nat (length b)) 0) as [E|E].
  - exists e. unfold ed_ok, ed_content. rewrite Em. repeat split; [simpl; lia|].
    destruct b; [|simpl in *; lia]. by destruct mem.
  - rewrite Em. simpl. rewrite read_bytes_all. simpl. rewrite El, Z.leb_refl. eexists.
    split; [done|]. unfold ed_ok, ed_content. simpl.
    rewrite drop_ge, app_nil_r by lia. done.
Qed.

(** Setting a cached value stores the bytes; only an equal value is no update. *)
Lemma setEventCache_spec {I : Indet} e b :
  ed_ok e ->
  exists u e', setEventCache e (Some b) (Z.of_nat (length b)) = Some (u, e') /\ ed_ok e' /\
    ed_content e' = b /\ ed_mAllowRoute e' = ed_mAllowRoute e /\
    ed_mAllowCache e' = ed_mAllowCache e /\ (u = false <-> ed_mBuffer e = Some b).
Proof.
  intros He. unfold setEventCache.
  destruct (Z.eqb_spec (Z.of_nat (length b)) (ed_mSize e)) as [Es|Es].
  - unfold ed_ok in He. destruct (ed_mBuffer e) as [mem|] eqn:Em.
    + assert (read_bytes mem (Z.of_nat (length b)) = Some mem) as ->
        by (rewrite Es, <- He; apply read_bytes_all).
      rewrite read_bytes_all. simpl.
      case_bool_decide as Hb; [subst; exists false, e|].
      * unfold ed_ok, ed_content. rewrite Em. done.
      * destruct (cache_copy_spec e b mem Em) as (e' & -> & ? & ? & ? & ?); [lia|done|].
        exists true, e'. repeat split; try done. intros [= <-]. done.
    + rewrite <- Es in He. rewrite (proj2 (Z.eqb_eq _ _) He). unfold cache_copy.
      rewrite (proj2 (Z.eqb_eq _ _) He). exists true, e.
      unfold ed_ok, ed_content. rewrite Em. destruct b; [|simpl in *; lia].
      by repeat split.
  - assert (forall x, ed_mBuffer e = Some b -> x = false) as Hno.
    { intros x E. unfold ed_ok in He. rewrite E in He. done. }
    destruct (Z.eqb_spec (Z.of_nat (length b)) 0) as [E0|E0].
    + unfold cache_copy. rewrite (proj2 (Z.eqb_eq _ _) E0). exists true. eexists. split; [done|].
      unfold ed_ok, ed_content. simpl. destruct b; [|simpl in *; lia].
      repeat split; try done. apply Hno.
    + unfold new_bytes. destruct (Z.ltb_spec (Z.of_nat (length b)) 0); [lia|].
      rewrite Nat2Z.id.
      destruct (cache_copy_spec (ed_set e (Some (replicate (length b) indet)) (Z.of_nat (length b)))
        b (replicate (length b) indet)) as (e' & -> & ? & ? & ? & ?);
        [done|by rewrite length_replicate|done|].
      exists true, e'. repeat split; try done. apply Hno.
Qed.

Definition payload_ok (msg : CFdbMessage) (b : list Z) : Prop :=
  mPayload msg = Some b /\ mPayloadSize msg = Z.of_nat (length b).

(** Whether [update] leaves the event to the application. *)
Definition update_skips (c : EventCacheTable_t) (msg : CFdbMessage) (route : bool)
    (role : EFdbEndpointRole) : bool :=
  let e := cache_get c (mCode msg) (mTopic msg) in
  negb (from_option ed_mAllowCache true e)
  || bool_decide (role <> FDB_OBJECT_ROLE_CLIENT) && bool_decide (mType msg = FDB_MT_PUBLISH)
     && negb (from_option ed_mAllowRoute route e).

Lemma cache_put_ok c code topic e : ed_ok e -> cache_ok c -> cache_ok (cache_put c code topic e).
Proof. unfold cache_ok, cache_put. intros. auto 10 with fdb. Qed.

Lemma cache_get_put c code topic e code' topic' :
  cache_ok c ->
  cache_get (cache_put c code topic e) code' topic'
  = if bool_decide (code' = code) && bool_decide (topic' = topic) then Some e
    else cache_get c code' topic'.
Proof. unfold cache_ok, cache_get, cache_put. intros Hc. find_cases. Qed.

Lemma cache_ref_get c code topic :
  cache_ref c code topic = default CEventData_new (cache_get c code topic).
Proof. unfold cache_ref, cache_get, m_at at 1. by rewrite m_find_at. Qed.

(** What [update] promises once it stores the payload [b]. *)
Definition stored (c : EventCacheTable_t) (msg : CFdbMessage) (b : list Z) (action : Z)
    (c' : EventCacheTable_t) : Prop :=
  (action = 0 \/ action = 1) /\
  (action = 0 <-> cache_get c (mCode msg) (mTopic msg) ≫= ed_mBuffer = Some b
                  /\ isForceUpdate msg = false) /\
  (exists e, cache_get c' (mCode msg) (mTopic msg) = Some e /\ ed_content e = b) /\
  (forall code topic, (code, topic) <> (mCode msg, mTopic msg) ->
     cache_get c' code topic = cache_get c code topic).

Lemma cache_put_stored c msg b u e :
  cache_ok c -> ed_ok e -> ed_content e = b ->
  (cache_get c (mCode msg) (mTopic msg) ≫= ed_mBuffer = Some b <-> u = false) ->
  let c' := cache_put c (mCode msg) (mTopic msg) e in
  cache_ok c' /\ stored c msg b (if negb u && negb (isForceUpdate msg) then 0 else 1) c'.
Proof.
  intros Hc He Hb Hu c'. split; [by apply cache_put_ok|].
  split; [destruct (negb u && negb (isForceUpdate msg)); auto|]. split; [|split].
  - rewrite Hu. destruct u, (isForceUpdate msg); simpl; intuition lia || done.
  - exists e. unfold c'. rewrite cache_get_put, !bool_decide_true by done. done.
  - intros code topic Hn. unfold c'. rewrite cache_get_put by done.
    repeat case_bool_decide; simplify_eq; done.
Qed.

(** Updating the event cache never touches memory outside its buffers.  Where
    the cache applies, afterwards it holds exactly the payload of the message for
    its event and topic and what it held for every other, and the event is
    suppressed (0) exactly when the cached bytes were the same and no update is
    forced; where it does not apply the cache is left alone and the result is -1. *)
Theorem cache_update_spec {I : Indet} c msg b route role :
  cache_ok c -> payload_ok msg b ->
  exists action c', cache_update c msg route role = Some (action, c') /\ cache_ok c' /\
    if update_skips c msg route role then action = -1 /\ c' = c else stored c msg b action c'.
Proof.
  intros Hc [Hp Hs]. unfold cache_update, update_skips. rewrite Hp, Hs.
  destruct (cache_get c (mCode msg) (mTopic msg)) as [e|] eqn:Eg; simpl.
  - assert (ed_ok e) as He.
    { unfold cache_get in Eg. apply bind_Some in Eg as (topics & E1 & E2).
      apply (lvl_find ed_ok topics (mTopic msg)); [|done]. apply full_lvl, (lvl_find _ _ _ _ Hc E1). }
    destruct (ed_mAllowCache e); simpl; [|by exists (-1), c].
    rewrite <- andb_assoc. destruct (_ && (_ && _)); [by exists (-1), c|].
    destruct (setEventCache_spec e b He) as (u & e' & -> & He' & Hb & _ & _ & Hu).
    do 2 eexists. split; [done|]. apply cache_put_stored; try done. by rewrite Eg.
  - rewrite <- andb_assoc. destruct (_ && (_ && _)); [by exists (-1), c|].
    set (e := ed_options _ _ _).
    assert (ed_mBuffer e = None /\ ed_mSize e = 0) as [Eb Es].
    { unfold e. simpl. by rewrite cache_ref_get, Eg. }
    assert (ed_ok e) as He by (unfold ed_ok; by rewrite Eb).
    destruct (setEventCache_spec e b He) as (u & e' & -> & He' & Hb & _ & _ & Hu).
    do 2 eexists. split; [done|]. apply cache_put_stored; try done. by rewrite Eg, Hu, Eb.
Qed.

Lemma cache_update_spec_witness :
  let msg := mkMessage FDB_MT_PUBLISH 5 1 0 0 "t"%string (Some [7; 8]) 2 FDB_QOS_RELIABLE in
  exists action c', @cache_update 0 [] msg true FDB_OBJECT_ROLE_SERVER = Some (action, c') /\
    stored [] msg [7; 8] action c'.
Proof.
  intros msg.
  destruct (@cache_update_spec 0 [] msg [7; 8] true FDB_OBJECT_ROLE_SERVER) as (a & c' & E & _ & H).
  - apply lvl_nil.
  - by split.
  - exists a, c'. split; [exact E|exact H].
Defined.

(** ** Where a broadcast goes *)

Lemma fdbMakeGroup_group code : fdbMakeGroup code = fdbMakeGroupEvent (fdbEventGroup code).
Proof.
  unfold fdbMakeGroupEvent. rewrite fdbMakeGroup_arith, fdbMakeEventCode_arith.
  pose proof (fdbEventGroup_range code). rewrite Z.mod_small by lia. done.
Qed.

(** The copies of a plain event (no reflection rule) an object gets from one table:
    one for each subscription to the topic or to every topic. *)
Definition plain_copies (topic : string) (find : string -> option CSubscribeItem) : nat :=
  object_copies (fun _ => 0) false topic 0 0 0 0 find.

Lemma object_copies_false sid topic ssid soid session obj find :
  object_copies sid false topic ssid soid session obj find = plain_copies topic find.
Proof. unfold plain_copies, object_copies. by destruct (find topic), (find EmptyString). Qed.

Lemma broadcast_plain sid t msg event :
  sub_ok t -> isNoReflect msg = false ->
  let '(msg', _, out) := broadcast sid t msg event in
  same_event msg msg' /\
  forall session obj, copies session obj out
    = plain_copies (c_str (mTopic msg)) (sub_find t event session obj).
Proof.
  intros Ht Hn. pose proof (broadcast_copies sid t msg event Ht) as H.
  destruct (broadcast sid t msg event) as [[msg' sent] out]. destruct H as (He & Hc & _).
  split; [done|]. intros s o. by rewrite Hc, Hn, object_copies_false.
Qed.

(** A plain event reaches, through one broadcast of its object, the
    subscribers of the event, of its group, and of all groups (these once, when
    the event itself is of that group): as many copies as matching subscriptions. *)
Theorem broadcastMsg_delivers sid o msg session obj :
  sub_ok (mEventSubscribeHandle o) -> sub_ok (mGroupSubscribeHandle o) ->
  isNoReflect msg = false ->
  let code := mCode msg in
  let plain t event := plain_copies (c_str (mTopic msg)) (sub_find t event session obj) in
  copies session obj (broadcastMsg sid o msg).2
  = (plain (mEventSubscribeHandle o) code
     + plain (mGroupSubscribeHandle o) (fdbMakeGroupEvent (fdbEventGroup code))
     + if decide (fdbEventGroup code = FDB_EVENT_ALL_GROUPS) then 0
       else plain (mGroupSubscribeHandle o) (fdbMakeGroupEvent FDB_EVENT_ALL_GROUPS))%nat.
Proof.
  intros He Hg Hn code plain. unfold broadcastMsg. rewrite fdbMakeGroup_group.
  set (m0 := msg_set_type msg FDB_MT_BROADCAST). change (mCode m0) with code.
  pose proof (broadcast_plain sid _ m0 code He Hn) as H1.
  destruct (broadcast sid (mEventSubscribeHandle o) m0 code) as [[m1 s1] out1]. destruct H1 as [E1 C1].
  pose proof (broadcast_plain sid _ m1 (fdbMakeGroupEvent (fdbEventGroup code)) Hg) as H2.
  destruct E1 as (N1 & T1 & _). rewrite N1, T1 in H2. specialize (H2 Hn).
  destruct (broadcast sid (mGroupSubscribeHandle o) m1 _) as [[m2 s2] out2]. destruct H2 as [E2 C2].
  destruct E2 as (N2 & T2 & _).
  pose proof (broadcast_plain sid _ m2 (fdbMakeGroupEvent FDB_EVENT_ALL_GROUPS) Hg) as H3.
  rewrite N2, N1, T2, T1 in H3. specialize (H3 Hn).
  rewrite fdbEventInGroup_arith. change (FDB_EVENT_ALL_GROUPS mod 2 ^ 8) with FDB_EVENT_ALL_GROUPS.
  destruct (Z.eqb_spec (fdbEventGroup code) FDB_EVENT_ALL_GROUPS), (decide (fdbEventGroup code = FDB_EVENT_ALL_GROUPS));
    try done; simpl.
  - rewrite copies_app, C1, C2. apply eq_sym, Nat.add_0_r.
  - destruct (broadcast sid (mGroupSubscribeHandle o) m2 _) as [[m3 s3] out3]. destruct H3 as [_ C3].
    cbn [snd]. rewrite !copies_app, C1, C2, C3. apply Nat.add_assoc.
Qed.

(** An object with one subscriber of event 5, and one of its group 0. *)
Definition object_with (e g : SubscribeTable_t) (flag : Z) : CFdbBaseObject :=
  mkObject flag 0 FDB_OBJECT_ROLE_SERVER e g [].

Lemma broadcastMsg_delivers_witness :
  copies 10 1 (broadcastMsg (fun s => s)
    (object_with (subscribe [] 10 5 1 (Some "t"%string) 0)
       (subscribe [] 10 (fdbMakeGroupEvent 0) 1 None 0) 0) (event_msg 3 0 0 "t")).2 = 2%nat.
Proof.
  rewrite (broadcastMsg_delivers (fun s => s) _ (event_msg 3 0 0 "t") 10 1);
    [vm_compute; reflexivity|apply subscribe_ok, lvl_nil|apply subscribe_ok, lvl_nil|reflexivity].
Defined.

(** The rule against reflection is lost for group subscribers: the
    broadcast to the subscribers of the event leaves the message addressed to the
    last of them, and the comparison with the publishing object that follows for
    the groups uses that address.  Here the object 0 of session 1 publishes event
    5; it subscribed to the group without reflection and gets its own event as
    soon as some other object subscribed to the event, and not otherwise. *)
Theorem group_reflection_lost :
  let g := subscribe [] 1 (fdbMakeGroupEvent 0) 0 None FDB_SUBFLAG_NO_REFLECT in
  let msg := setNoReflect (event_msg 1 0 0 "t") true in
  copies 1 0 (broadcastMsg (fun s => s) (object_with [] g 0) msg).2 = 0%nat /\
  copies 1 0 (broadcastMsg (fun s => s) (object_with (subscribe [] 2 5 7 None 0) g 0) msg).2 = 1%nat.
Proof. split; vm_compute; reflexivity. Qed.

(** Without the event cache the routing option works the other way round
    from the table above [CEventCache::update]: an object that did not enable
    event routing forwards what is published to it, and one that did enable it
    hands it to the application only. *)
Theorem route_option_inverted {I : Indet} sid o msg :
  flag_set (o_mFlag o) FDB_OBJ_ENABLE_EVENT_CACHE = false ->
  mType msg = FDB_MT_PUBLISH ->
  updateEventCache o msg
  = Some (if flag_set (o_mFlag o) FDB_OBJ_ENABLE_EVENT_ROUTE then -1 else 1, o) /\
  (flag_set (o_mFlag o) FDB_OBJ_ENABLE_EVENT_ROUTE = true ->
   doPublish sid o msg = Some (o, [SetEvent (msg_set_type msg FDB_MT_SET_EVENT)])) /\
  (flag_set (o_mFlag o) FDB_OBJ_ENABLE_EVENT_ROUTE = false ->
   exists acts, doPublish sid o msg = Some (o, acts) /\ OnPublish ∈ acts).
Proof.
  intros Hc Ht.
  assert (updateEventCache o msg
    = Some (if flag_set (o_mFlag o) FDB_OBJ_ENABLE_EVENT_ROUTE then -1 else 1, o)) as E.
  { unfold updateEventCache. rewrite Hc, Ht.
    by destruct (flag_set (o_mFlag o) FDB_OBJ_ENABLE_EVENT_ROUTE). }
  split; [done|]. unfold doPublish. rewrite E. simpl. split; intros Hr; rewrite Hr; simpl; [done|].
  destruct (broadcastMsg sid o _) as [[m sent] out].
  destruct sent; simpl; (eexists; split; [done|]); set_solver.
Qed.

Lemma route_option_inverted_witness :
  let o := object_with [] [] FDB_OBJ_ENABLE_EVENT_ROUTE in
  let msg := mkMessage FDB_MT_PUBLISH 5 1 0 0 "t"%string None 0 FDB_QOS_RELIABLE in
  @doPublish (fun s => s) 0 o msg = Some (o, [SetEvent (msg_set_type msg FDB_MT_SET_EVENT)]).
Proof.
  intros o msg. apply (@route_option_inverted 0 (fun s => s) o msg); reflexivity.
Defined.
