(* ===== verification/SocketFactory.v ===== *)
(** Addresses as text: src/platform/socket/CBaseSocketFactory.cpp.

    The parser and the builders of fdbus URLs ([tcp://ip:port], [ipc://path],
    [svc://name:instance] and their secure variants) and of IPv4 addresses,
    with the C library functions they call ([sprintf("%u")], [std::to_string],
    [atoi], [std::stoi], [strrchr]) written out.  Lemmas and theorems: what each
    builder writes the parser reads back, and where it does not. *)
From S2P Require Import Prelude CommonDefs.
Local Open Scope string_scope.
Local Open Scope Z_scope.

(** ** Numbers as text *)

Definition digit (d : Z) : ascii := ascii_of_byte (48 + d).

Fixpoint dec_loop (fuel : nat) (n : Z) : string :=
  match fuel with
  | O => EmptyString
  | S fuel =>
      if n <? 10 then String (digit n) EmptyString
      else dec_loop fuel (n / 10) +:+ String (digit (n mod 10)) EmptyString
  end.

(** [sprintf("%u")] and [std::to_string] of an unsigned value; twenty digits hold
    any 64-bit value. *)
Definition to_dec (n : Z) : string := dec_loop 20 n.

Definition digit_val (c : ascii) : option Z :=
  let b := byte_of_ascii c in
  if (48 <=? b) && (b <=? 57) then Some (b - 48)
  else if (97 <=? b) && (b <=? 122) then Some (b - 87)
  else if (65 <=? b) && (b <=? 90) then Some (b - 55)
  else None.

Fixpoint scan_digits (base acc : Z) (any : bool) (s : string) : Z * bool :=
  match s with
  | EmptyString => (acc, any)
  | String c s' =>
      match digit_val c with
      | Some d => if d <? base then scan_digits base (acc * base + d) true s' else (acc, any)
      | None => (acc, any)
      end
  end.

Definition is_space (c : ascii) : bool :=
  let b := byte_of_ascii c in (b =? 32) || (9 <=? b) && (b <=? 13).

Fixpoint skip_space (s : string) : string :=
  match s with
  | String c s' => if is_space c then skip_space s' else s
  | EmptyString => s
  end.

(** The base [strtol] reads a number in, and where it starts, when asked for base 0. *)
Definition detect_base (s : string) : Z * string :=
  match s with
  | String z (String x (String h _ as rest)) =>
      if (byte_of_ascii z =? 48) && ((byte_of_ascii x =? 120) || (byte_of_ascii x =? 88))
         && match digit_val h with Some d => d <? 16 | None => false end
      then (16, rest) else if byte_of_ascii z =? 48 then (8, s) else (10, s)
  | String z _ => if byte_of_ascii z =? 48 then (8, s) else (10, s)
  | EmptyString => (10, s)
  end.

(** [strtol] without the limits of [long]; [None] when there is no number. *)
Definition strtol (base : Z) (s : string) : option Z :=
  let s := skip_space s in
  let '(neg, s) :=
    match s with
    | String c s' =>
        if byte_of_ascii c =? 45 then (true, s')
        else if byte_of_ascii c =? 43 then (false, s') else (false, s)
    | EmptyString => (false, s)
    end in
  let '(base, s) := if base =? 0 then detect_base s else (base, s) in
  let '(v, any) := scan_digits base 0 false s in
  if any then Some (if neg then - v else v) else None.

(** [std::stoi(s, 0, base)]; [None] is an exception. *)
Definition stoi_base (base : Z) (s : string) : option Z :=
  v ← strtol base s;
  if (- 2 ^ 31 <=? v) && (v <=? INT32_MAX) then Some v else None.

Definition stoi (s : string) : option Z := stoi_base 0 s.

(** [atoi]: [strtol] clamped to [long], cut to [int]. *)
Definition atoi (s : string) : Z :=
  i32 (Z.max (- 2 ^ 63) (Z.min (2 ^ 63 - 1) (default 0 (strtol 10 s)))).

(** ** Splitting *)

(** The text before and after the last [c]. *)
Fixpoint split_last (c : ascii) (s : string) : option (string * string) :=
  match s with
  | EmptyString => None
  | String x s' =>
      match split_last c s' with
      | Some (a, b) => Some (String x a, b)
      | None => if bool_decide (x = c) then Some (EmptyString, s') else None
      end
  end.

Fixpoint str_drop (n : nat) (s : string) : string :=
  match n, s with
  | S n, String _ s' => str_drop n s'
  | _, _ => s
  end.

(** The last character and the text before it. *)
Fixpoint str_back (s : string) : option (string * ascii) :=
  match s with
  | EmptyString => None
  | String c s' =>
      match str_back s' with
      | Some (a, x) => Some (String c a, x)
      | None => Some (EmptyString, c)
      end
  end.

Definition FDB_ANY_INSTANCE : string := "x".
Definition FDB_ANY_INSTANCE_CHAR : ascii := "x".

(** ** Parsing *)

Definition sa_set (a : CFdbSocketAddr) (addr : string) (port : Z) : CFdbSocketAddr :=
  mkSocketAddr (sa_mUrl a) (sa_mType a) addr (sa_mAddrDigit a) port (sa_mSecure a).

(** Square brackets around an IPv6 address are removed. *)
Definition strip_brackets (addr_str : string) : string :=
  match addr_str with
  | String b s' =>
      if bool_decide (b = "["%char) then
        match str_back s' with
        | Some (inner, c) => if bool_decide (c = "]"%char) then inner else addr_str
        | None => addr_str
        end
      else addr_str
  | EmptyString => addr_str
  end.

(** [None] is the failure the caller sees as a non-zero result. *)
Definition buildINetAddress (host_addr : string) (addr : CFdbSocketAddr) : option CFdbSocketAddr :=
  match split_last ":"%char host_addr with
  | None => None
  | Some (addr_str, port_str) =>
      let addr_str := strip_brackets addr_str in
      if bool_decide (port_str = "*") || bool_decide (port_str = "0")
      then Some (sa_set addr addr_str 0)
      else
        let port := u16 (atoi port_str) in
        if port =? 0 then None else Some (sa_set addr addr_str port)
  end.

Definition buildIPCAddress (addr_str : string) (addr : CFdbSocketAddr) : option CFdbSocketAddr :=
  Some (sa_set addr addr_str 0).

Definition buildSvcAddress (host_name : string) (addr : CFdbSocketAddr) : option CFdbSocketAddr :=
  match split_last ":"%char host_name with
  | Some (svc_name, inst_id) =>
      match str_back inst_id with
      | None => Some (sa_set addr svc_name FDB_DEFAULT_INSTANCE)
      | Some (group_str, last) =>
          if bool_decide (last = FDB_ANY_INSTANCE_CHAR) then
            match group_str with
            | EmptyString => Some (sa_set addr svc_name (fdbMakeGroupEvent FDB_EVENT_ALL_GROUPS))
            | _ =>
                group_id ← stoi group_str;
                Some (sa_set addr svc_name (fdbMakeGroupEvent (u32 group_id)))
            end
          else
            id ← stoi inst_id;
            Some (sa_set addr svc_name id)
      end
  | None => Some (sa_set addr host_name FDB_DEFAULT_INSTANCE)
  end.

(** [parseUrl]: success, and the address as it was left. *)
Definition parseUrl (url : option string) (addr : CFdbSocketAddr) : bool * CFdbSocketAddr :=
  match url with
  | None => (false, addr)
  | Some u =>
      match String.index 0 "://" u with
      | None => (false, addr)
      | Some pos =>
          let protocol := String.substring 0 pos u in
          let addr_str := str_drop (pos + 3) u in
          if bool_decide (protocol = EmptyString) || bool_decide (addr_str = EmptyString)
          then (false, addr)
          else
            let start type secure :=
              mkSocketAddr u type (sa_mAddr addr) (sa_mAddrDigit addr) (sa_mPort addr) secure in
            let finish (a : CFdbSocketAddr) (r : option CFdbSocketAddr) :=
              match r with Some a' => (true, a') | None => (false, a) end in
            if bool_decide (protocol = "tcp") then
              let a := start FDB_SOCKET_TCP false in finish a (buildINetAddress addr_str a)
            else if bool_decide (protocol = "udp") then
              let a := start FDB_SOCKET_UDP false in finish a (buildINetAddress addr_str a)
            else if bool_decide (protocol = "ipc") then
              let a := start FDB_SOCKET_IPC true in finish a (buildIPCAddress addr_str a)
            else if bool_decide (protocol = "svc") then
              let a := start FDB_SOCKET_SVC false in finish a (buildSvcAddress addr_str a)
            else if bool_decide (protocol = "tcps") then
              let a := start FDB_SOCKET_TCP true in finish a (buildINetAddress addr_str a)
            else if bool_decide (protocol = "udps") then
              let a := start FDB_SOCKET_UDP true in finish a (buildINetAddress addr_str a)
            else
              (false, start (sa_mType addr) false)
      end
  end.

(** ** Building *)

(** [buildUrl(url, ip_addr, port, secure)] with the port as text. *)
Definition buildUrl_port_str (ip_addr : option string) (port : string) (secure : bool) : string :=
  let url := if secure then FDB_URL_TCPS else FDB_URL_TCP in
  match ip_addr with
  | Some ip => url +:+ ip +:+ ":" +:+ port
  | None => url +:+ ":" +:+ port
  end.

Definition buildUrl_inet (ip_addr : option string) (port : Z) (secure : bool) : string :=
  buildUrl_port_str ip_addr (to_dec (u32 port)) secure.

Definition ip_text (ip_addr : Z) : string :=
  to_dec (Z.land (Z.shiftr ip_addr 0) 0xff) +:+ "." +:+
  to_dec (Z.land (Z.shiftr ip_addr 8) 0xff) +:+ "." +:+
  to_dec (Z.land (Z.shiftr ip_addr 16) 0xff) +:+ "." +:+
  to_dec (Z.land (Z.shiftr ip_addr 24) 0xff).

(** [buildUrl(url, ip_addr, port, secure, type)]: [url] is what the string held. *)
Definition buildUrl_ip (url : string) (ip_addr port : Z) (secure : bool) (type : EFdbSocketType) :
    string :=
  let url :=
    if bool_decide (type = FDB_SOCKET_TCP) then (if secure then FDB_URL_TCPS else FDB_URL_TCP)
    else if bool_decide (type = FDB_SOCKET_UDP) then (if secure then FDB_URL_UDPS else FDB_URL_UDP)
    else url in
  url +:+ ip_text ip_addr +:+ ":" +:+ to_dec (u16 port).

Definition getIPCPathBase : string := "@/tmp/fdb-ipc".
Definition getIPCUrlBase : string := FDB_URL_IPC +:+ getIPCPathBase.

Definition buildUrl_ipc (uds_id : Z) (ipc_path : option string) : string :=
  match ipc_path with
  | Some p => FDB_URL_IPC +:+ p
  | None => getIPCUrlBase +:+ to_dec (u32 uds_id)
  end.

Definition buildUrl_svc (svc_name : string) (instance_id : Z) : string :=
  let url := FDB_URL_SVC +:+ svc_name in
  if instance_id =? FDB_DEFAULT_INSTANCE then url
  else if fdbIsGroup instance_id
  then url +:+ ":" +:+ to_dec (fdbEventGroup instance_id) +:+ FDB_ANY_INSTANCE
  else url +:+ ":" +:+ to_dec (u32 instance_id).

Definition socket_addr_buildUrl (a : CFdbSocketAddr) : CFdbSocketAddr :=
  let url :=
    if bool_decide (sa_mType a = FDB_SOCKET_IPC) then FDB_URL_IPC +:+ ":" +:+ sa_mAddr a
    else buildUrl_inet (Some (sa_mAddr a)) (sa_mPort a) (sa_mSecure a) in
  mkSocketAddr url (sa_mType a) (sa_mAddr a) (sa_mAddrDigit a) (sa_mPort a) (sa_mSecure a).

(** ** IPv4 addresses *)

(** One number of a dotted address: up to three digits in front of a dot or the
    end; the digits, and the text that follows. *)
Fixpoint ip_digits (room : nat) (s : string) : option (list Z * string) :=
  match room with
  | O => Some ([], s)
  | S room =>
      match s with
      | EmptyString => Some ([], s)
      | String c s' =>
          let b := byte_of_ascii c in
          if b =? 46 then Some ([], s)
          else if (b <? 48) || (57 <? b) then None
          else '(ds, rest) ← ip_digits room s'; Some (b - 48 :: ds, rest)
      end
  end.

Fixpoint ip_number (ds : list Z) : Z :=
  match ds with
  | [] => 0
  | d :: ds' => d * 10 ^ Z.of_nat (length ds') + ip_number ds'
  end.

(** The loop over the four numbers; [t] of them are done. *)
Fixpoint ip_loop (more : nat) (t h : Z) (s : string) : option Z :=
  match more with
  | O => Some h
  | S more =>
      '(ds, rest) ← ip_digits 3 s;
      match ds with
      | [] => None
      | _ =>
          match more, rest with
          | S _, String c rest' =>
              if byte_of_ascii c =? 46 then
                let xxx := ip_number ds in
                if xxx >? 255 then None
                else ip_loop more (t + 1) (Z.lor h (Z.shiftl xxx (8 * t))) rest'
              else None
          | S _, EmptyString => None
          | O, EmptyString =>
              let xxx := ip_number ds in
              if xxx >? 255 then None else Some (Z.lor h (Z.shiftl xxx (8 * t)))
          | O, String _ _ => None
          end
      end
  end.

(** [parseIp]; [None] is the result [false]. *)
Definition parseIp (ip : option string) : option Z :=
  match ip with
  | None => Some 0
  | Some s =>
      if bool_decide (s = EmptyString) || bool_decide (s = "0") then Some 0
      else ip_loop 4 0 0 s
  end.

(** ** Interfaces of the host *)

Record IfDesc := mkIfDesc { if_mIpAddr : string; if_mMask : string; if_mIfName : string }.

Definition findByIp (tbl : list IfDesc) (ip_addr : string) : option IfDesc :=
  List.find (fun d => bool_decide (if_mIpAddr d = ip_addr)) tbl.
Definition findByName (tbl : list IfDesc) (name : string) : option IfDesc :=
  List.find (fun d => bool_decide (if_mIfName d = name)) tbl.

(** ** Reading back what was written *)

Lemma digit_byte d : 0 <= d < 10 -> byte_of_ascii (digit d) = 48 + d.
Proof.
  intros H. unfold byte_of_ascii, digit, ascii_of_byte. rewrite N_ascii_embedding by lia. lia.
Qed.

Lemma digit_val_digit d : 0 <= d < 10 -> digit_val (digit d) = Some d.
Proof.
  intros H. unfold digit_val. rewrite digit_byte by done.
  rewrite !(proj2 (Z.leb_le _ _)) by lia. simpl. f_equal. lia.
Qed.

Lemma str_app_assoc (a b c : string) : (a +:+ b) +:+ c = a +:+ (b +:+ c).
Proof. induction a as [|x a IH]; [done|]. exact (f_equal (String x) IH). Qed.

Lemma str_app_nil (a : string) : a +:+ EmptyString = a.
Proof. induction a as [|x a IH]; [done|]. exact (f_equal (String x) IH). Qed.

Lemma str_one_app c (a : string) : String c EmptyString +:+ a = String c a.
Proof. done. Qed.

Lemma str_length_app (a b : string) :
  String.length (a +:+ b) = (String.length a + String.length b)%nat.
Proof. induction a as [|x a IH]; [done|]. exact (f_equal S IH). Qed.

(** The text of a number is a run of decimal digits of that value, with no zero
    in front unless it is the number 0. *)
Inductive dec_text : Z -> string -> Prop :=
  | dec_one d : 0 <= d < 10 -> dec_text d (String (digit d) EmptyString)
  | dec_more n d s : 0 < n -> 0 <= d < 10 -> dec_text n s ->
      dec_text (n * 10 + d) (s +:+ String (digit d) EmptyString).

Lemma dec_loop_text fuel n :
  0 <= n < 10 ^ (Z.of_nat fuel + 1) -> dec_text n (dec_loop (S fuel) n).
Proof.
  revert n. induction fuel as [|fuel IH]; intros n Hn.
  - simpl in *. destruct (Z.ltb_spec n 10); [by constructor|lia].
  - rewrite Nat2Z.inj_succ, Z.add_succ_l, Z.pow_succ_r in Hn by lia.
    cbn [dec_loop]. destruct (Z.ltb_spec n 10); [apply dec_one; lia|].
    pose proof (Z.div_mod n 10 ltac:(lia)). pose proof (Z.mod_pos_bound n 10 ltac:(lia)).
    replace n with (n / 10 * 10 + n mod 10) at 1 by lia. constructor; [|lia|].
    + apply Z.div_str_pos. lia.
    + apply IH. split; [apply Z.div_pos; lia|]. apply Z.div_lt_upper_bound; lia.
Qed.

Lemma to_dec_text n : 0 <= n < 2 ^ 64 -> dec_text n (to_dec n).
Proof.
  intros H. apply (dec_loop_text 19). split; [lia|]. apply Z.lt_le_trans with (2 ^ 64); [lia|].
  vm_compute. discriminate.
Qed.

Lemma scan_digits_text n s : dec_text n s -> forall acc any rest,
  scan_digits 10 acc any (s +:+ rest)
  = scan_digits 10 (acc * 10 ^ Z.of_nat (String.length s) + n) true rest.
Proof.
  induction 1 as [d Hd|n d s Hn Hd Ht IH]; intros acc any rest.
  - simpl. rewrite digit_val_digit by done. rewrite (proj2 (Z.ltb_lt _ _)) by lia.
    f_equal.
  - rewrite str_app_assoc, IH. simpl. rewrite digit_val_digit by done.
    rewrite (proj2 (Z.ltb_lt _ _)) by lia. f_equal. rewrite str_length_app. simpl.
    rewrite Nat2Z.inj_add, Z.pow_add_r by lia. simpl. lia.
Qed.

(** No other character than a digit occurs in the text of a number. *)
Fixpoint str_all (P : ascii -> Prop) (s : string) : Prop :=
  match s with EmptyString => True | String c s' => P c /\ str_all P s' end.

Lemma str_all_app P a b : str_all P (a +:+ b) <-> str_all P a /\ str_all P b.
Proof. induction a as [|x a IH]; simpl; [tauto|]. rewrite IH. tauto. Qed.

Definition is_digit (c : ascii) : Prop := exists d, 0 <= d < 10 /\ c = digit d.

Lemma dec_text_digits n s : dec_text n s -> str_all is_digit s.
Proof.
  induction 1; [|apply str_all_app; split; [done|]]; (split; [by eexists|done]).
Qed.

Lemma dec_text_nonneg n s : dec_text n s -> 0 <= n.
Proof. induction 1; lia. Qed.

(** The first character: [0] only in the number 0, and then alone. *)
Lemma dec_text_head n s : dec_text n s ->
  exists d s', s = String (digit d) s' /\ 0 <= d < 10 /\ (d = 0 -> n = 0 /\ s' = EmptyString).
Proof.
  induction 1 as [d Hd|n d s Hn Hd Ht (e & s' & -> & He & H0)].
  - exists d, EmptyString. done.
  - exists e, (s' +:+ String (digit d) EmptyString). simpl. repeat split; try done; lia.
Qed.

(** A digit of the text is none of the characters with a meaning of its own. *)
Lemma digit_plain d : 0 <= d < 10 ->
  is_space (digit d) = false /\ (byte_of_ascii (digit d) =? 45) = false /\
  (byte_of_ascii (digit d) =? 43) = false /\ (byte_of_ascii (digit d) =? 48) = (d =? 0).
Proof.
  intros H. unfold is_space. rewrite digit_byte by done.
  repeat split; bool_cases; simpl; try done; lia.
Qed.

Lemma digit_ne d c : 0 <= d < 10 -> (byte_of_ascii c < 48 \/ 57 < byte_of_ascii c) -> digit d <> c.
Proof. intros H Hc <-. rewrite digit_byte in Hc by done. lia. Qed.

Lemma strtol_text base n s : dec_text n s -> base = 0 \/ base = 10 -> strtol base s = Some n.
Proof.
  intros Ht Hb. pose proof (scan_digits_text n s Ht 0 false EmptyString) as Hs.
  rewrite str_app_nil in Hs. rewrite Z.mul_0_l, Z.add_0_l in Hs. cbn [scan_digits] in Hs.
  destruct (dec_text_head n s Ht) as (d & s' & -> & Hd & H0).
  destruct (digit_plain d Hd) as (P1 & P2 & P3 & P4).
  unfold strtol. cbn [skip_space]. rewrite P1, P2, P3.
  destruct Hb as [-> | ->]; cbn [Z.eqb]; [|by rewrite Hs].
  destruct (Z.eqb_spec d 0) as [Ed|Ed].
  - destruct (H0 Ed) as [-> ->]. subst d. reflexivity.
  - assert (detect_base (String (digit d) s') = (10, String (digit d) s')) as ->; [|by rewrite Hs].
    unfold detect_base. rewrite P4. by destruct s' as [|? [|? ?]].
Qed.

Lemma stoi_text n s : dec_text n s -> n <= INT32_MAX -> stoi s = Some n.
Proof.
  intros Ht Hn. pose proof (dec_text_nonneg n s Ht). unfold stoi, stoi_base.
  rewrite (strtol_text 0 n s) by auto. simpl. unfold INT32_MAX in *.
  rewrite !(proj2 (Z.leb_le _ _)) by lia. done.
Qed.

Lemma stoi_text_big n s : dec_text n s -> INT32_MAX < n -> stoi s = None.
Proof.
  intros Ht Hn. unfold stoi, stoi_base. rewrite (strtol_text 0 n s) by auto. simpl.
  rewrite (proj2 (Z.leb_gt n _)) by done. by rewrite andb_false_r.
Qed.

Lemma atoi_text n s : dec_text n s -> n <= INT32_MAX -> atoi s = n.
Proof.
  intros Ht Hn. pose proof (dec_text_nonneg n s Ht). unfold atoi, INT32_MAX in *.
  rewrite (strtol_text 10 n s) by auto. simpl. rewrite Z.min_r, Z.max_r by lia.
  apply wrap_s_small; [lia|]. unfold in_s. lia.
Qed.

Lemma split_last_app c a b :
  str_all (fun x => x <> c) b -> split_last c (a +:+ String c b) = Some (a, b).
Proof.
  intros Hb.
  assert (split_last c b = None) as Hn.
  { induction b as [|x b IH]; [done|]. destruct Hb as [Hx Hb]. simpl. rewrite (IH Hb).
    by rewrite bool_decide_false. }
  induction a as [|x a IH]; simpl; [|by rewrite IH]. by rewrite Hn, bool_decide_true.
Qed.

Lemma split_last_none c s : str_all (fun x => x <> c) s -> split_last c s = None.
Proof.
  induction s as [|x s IH]; [done|]. intros [Hx Hs]. simpl. rewrite (IH Hs).
  by rewrite bool_decide_false.
Qed.

Lemma str_back_app a c : str_back (a +:+ String c EmptyString) = Some (a, c).
Proof. induction a as [|x a IH]; simpl; [done|]. by rewrite IH. Qed.

Lemma str_back_last s a c : str_back s = Some (a, c) -> forall P, str_all P s -> P c.
Proof.
  revert a. induction s as [|x s IH]; intros a E P Hs; [done|]. simpl in E.
  destruct Hs as [Hx Hs]. destruct (str_back s) as [[a' x']|].
  - simplify_eq. by apply (IH a').
  - by simplify_eq.
Qed.

Lemma str_all_impl (P Q : ascii -> Prop) s : (forall c, P c -> Q c) -> str_all P s -> str_all Q s.
Proof. intros H. induction s as [|x s IH]; simpl; [done|]. intros [? ?]; auto. Qed.

Lemma dec_text_free n s c : dec_text n s -> (byte_of_ascii c < 48 \/ 57 < byte_of_ascii c) ->
  str_all (fun x => x <> c) s.
Proof.
  intros Ht Hc. apply (str_all_impl is_digit); [|by eapply dec_text_digits].
  intros x (d & Hd & ->). by apply digit_ne.
Qed.

(** ** URLs *)

Lemma str_eqb_ne (a b : string) : a <> b -> bool_decide (a = b) = false.
Proof. intros. by apply bool_decide_false. Qed.

(** What [parseUrl] makes of a known protocol in front of a non-empty address. *)
Lemma parseUrl_tcp (x : string) old (secure : bool) :
  x <> EmptyString ->
  let u := (if secure then FDB_URL_TCPS else FDB_URL_TCP) +:+ x in
  let a := mkSocketAddr u FDB_SOCKET_TCP (sa_mAddr old) (sa_mAddrDigit old) (sa_mPort old) secure in
  parseUrl (Some u) old
  = match buildINetAddress x a with Some a' => (true, a') | None => (false, a) end.
Proof. intros Hx. destruct x as [|c x]; [done|]. by destruct secure. Qed.

Lemma parseUrl_svc (x : string) old :
  x <> EmptyString ->
  let u := FDB_URL_SVC +:+ x in
  let a := mkSocketAddr u FDB_SOCKET_SVC (sa_mAddr old) (sa_mAddrDigit old) (sa_mPort old) false in
  parseUrl (Some u) old
  = match buildSvcAddress x a with Some a' => (true, a') | None => (false, a) end.
Proof. intros Hx. destruct x as [|c x]; [done|]. done. Qed.

Lemma parseUrl_ipc (x : string) old :
  x <> EmptyString ->
  let u := FDB_URL_IPC +:+ x in
  parseUrl (Some u) old
  = (true, mkSocketAddr u FDB_SOCKET_IPC x (sa_mAddrDigit old) 0 true).
Proof. intros Hx. destruct x as [|c x]; [done|]. done. Qed.

(** The url of a parsed address is the text it was parsed from. *)
Lemma buildINet_url s a a' : buildINetAddress s a = Some a' -> sa_mUrl a' = sa_mUrl a.
Proof. unfold buildINetAddress. repeat case_match; intros; by simplify_eq. Qed.
Lemma buildIPC_url s a a' : buildIPCAddress s a = Some a' -> sa_mUrl a' = sa_mUrl a.
Proof. unfold buildIPCAddress. repeat case_match; intros; by simplify_eq. Qed.
Lemma buildSvc_url s a a' : buildSvcAddress s a = Some a' -> sa_mUrl a' = sa_mUrl a.
Proof. unfold buildSvcAddress, mbind, option_bind. repeat case_match; intros; by simplify_eq. Qed.

Lemma parseUrl_url u a b : parseUrl (Some u) a = (true, b) -> sa_mUrl b = u.
Proof.
  unfold parseUrl. destruct (String.index 0 _ u); [|done]. destruct (_ || _); [done|].
  repeat (case_bool_decide; [match goal with |- context [match ?x with Some _ => _ | None => _ end] => destruct x eqn:Eb end; [|done]; intros [= <-]; first [apply buildINet_url in Eb|apply buildIPC_url in Eb|apply buildSvc_url in Eb]; done|]). done.
Qed.

(** A port a 16-bit field holds is read back from its text. *)
Lemma inet_address_text ip port (a : CFdbSocketAddr) :
  0 <= port < 65536 ->
  buildINetAddress (ip +:+ ":" +:+ to_dec port) a = Some (sa_set a (strip_brackets ip) port).
Proof.
  intros Hp. pose proof (to_dec_text port ltac:(lia)) as Ht.
  unfold buildINetAddress. change (":" +:+ to_dec port) with (String ":" (to_dec port)).
  rewrite split_last_app by (apply (dec_text_free port); [done|vm_compute; auto]).
  destruct (dec_text_head _ _ Ht) as (d & s' & E & Hd & H0).
  rewrite (str_eqb_ne (to_dec port) "*") by (rewrite E; intros X; injection X as X _; revert X; apply digit_ne; [done|vm_compute; auto]).
  simpl. case_bool_decide as Hz.
  - rewrite E in Hz. injection Hz as Hz1 Hz2.
    assert (d = 0) as Ed.
    { apply (f_equal byte_of_ascii) in Hz1. rewrite digit_byte in Hz1 by done.
      change (byte_of_ascii "0"%char) with 48 in Hz1. lia. }
    by rewrite (proj1 (H0 Ed)).
  - rewrite (atoi_text port) by (done || unfold INT32_MAX; lia).
    rewrite wrap_u_small by (unfold in_u; lia).
    destruct (Z.eqb_spec port 0) as [->|]; [done|done].
Qed.

(** A TCP URL built from an address and a port is parsed back to that
    address, that port and that security, for every port of 16 bits. *)
Theorem tcp_url_roundtrip ip port secure old :
  0 <= port < 65536 -> strip_brackets ip = ip ->
  let url := buildUrl_inet (Some ip) port secure in
  parseUrl (Some url) old
  = (true, mkSocketAddr url FDB_SOCKET_TCP ip (sa_mAddrDigit old) port secure).
Proof.
  intros Hp Hip url. unfold url, buildUrl_inet, buildUrl_port_str.
  rewrite (wrap_u_small 32) by (unfold in_u; lia).
  rewrite parseUrl_tcp by (by destruct ip). rewrite inet_address_text, Hip by done. done.
Qed.

(** Every URL built with a port of 16 bits is parsed. *)
Lemma tcp_url_parses ip port secure old : 0 <= port < 65536 ->
  exists a, parseUrl (Some (buildUrl_inet (Some ip) port secure)) old = (true, a).
Proof.
  intros Hp. unfold buildUrl_inet, buildUrl_port_str. rewrite (wrap_u_small 32) by (unfold in_u; lia).
  rewrite parseUrl_tcp by (by destruct ip). rewrite inet_address_text by done. by eexists.
Qed.

Lemma tcp_url_roundtrip_witness :
  (parseUrl (Some "tcps://192.168.0.1:60008") CFdbSocketAddr_new).2
  = mkSocketAddr "tcps://192.168.0.1:60008" FDB_SOCKET_TCP "192.168.0.1" 0 60008 true.
Proof.
  change "tcps://192.168.0.1:60008" with (buildUrl_inet (Some "192.168.0.1") 60008 true).
  rewrite (tcp_url_roundtrip "192.168.0.1" 60008 true CFdbSocketAddr_new); [reflexivity|lia|reflexivity].
Defined.

Lemma u32_neg inst : in_s 32 inst -> inst < 0 -> u32 inst = inst + 2 ^ 32.
Proof.
  intros [H1 _] H2. unfold wrap_u. rewrite <- (Z_mod_plus_full inst 1).
  rewrite Z.mod_small; lia.
Qed.

Lemma group_instance inst : in_s 32 inst -> fdbIsGroup inst = true ->
  fdbMakeGroupEvent (fdbEventGroup inst) = inst.
Proof.
  rewrite fdbIsGroup_arith. intros Hi Hg. apply Z.eqb_eq in Hg.
  unfold fdbMakeGroupEvent. rewrite fdbMakeEventCode_arith, fdbEventGroup_arith.
  rewrite <- (wrap_s_wrap_u 32 inst) at 2 by (done || lia). f_equal.
  unfold wrap_u, FDB_EVENT_ID_MASK, in_s in *. Z.div_mod_to_equations. lia.
Qed.

(** The text after the colon of a service URL. *)
Definition instance_text (inst : Z) : string :=
  if fdbIsGroup inst then to_dec (fdbEventGroup inst) +:+ FDB_ANY_INSTANCE else to_dec (u32 inst).

Lemma svc_instance_text (name : string) inst (a : CFdbSocketAddr) :
  in_s 32 inst ->
  buildSvcAddress (name +:+ String ":" (instance_text inst)) a
  = if (0 <=? inst) || fdbIsGroup inst then Some (sa_set a name inst) else None.
Proof.
  intros Hi. unfold buildSvcAddress, instance_text.
  destruct (fdbIsGroup inst) eqn:Hg.
  - pose proof (fdbEventGroup_range inst) as Hr.
    pose proof (to_dec_text (fdbEventGroup inst) ltac:(lia)) as Ht.
    rewrite split_last_app by (apply str_all_app; split;
      [apply (dec_text_free (fdbEventGroup inst)); [done|vm_compute; auto]|by vm_compute]).
    unfold FDB_ANY_INSTANCE. rewrite str_back_app, bool_decide_true, orb_true_r by done.
    destruct (dec_text_head _ _ Ht) as (d & s' & E & _). rewrite E in *.
    rewrite (stoi_text (fdbEventGroup inst)) by (done || unfold INT32_MAX; lia). simpl.
    rewrite wrap_u_small by (unfold in_u; lia). by rewrite group_instance.
  - pose proof (u32_range inst). pose proof (to_dec_text (u32 inst) ltac:(lia)) as Ht.
    rewrite split_last_app by (apply (dec_text_free (u32 inst)); [done|vm_compute; auto]).
    destruct (str_back (to_dec (u32 inst))) as [[g l]|] eqn:Eb.
    + rewrite bool_decide_false.
      2: { intros ->. destruct (str_back_last _ _ _ Eb is_digit (dec_text_digits _ _ Ht)) as (d & Hd & X). 
           symmetry in X. revert X. apply digit_ne; [done|vm_compute; auto]. }
      rewrite orb_false_r. destruct (Z.leb_spec 0 inst).
      * rewrite wrap_u_small in Ht |- * by (unfold in_s, in_u in *; lia).
        by rewrite (stoi_text inst) by (done || unfold in_s, INT32_MAX in *; lia).
      * rewrite (stoi_text_big (u32 inst)); [done|done|].
        rewrite u32_neg by done. unfold in_s, INT32_MAX in *. lia.
    + destruct (dec_text_head _ _ Ht) as (d & s' & E & _). rewrite E in Eb. simpl in Eb.
      by destruct (str_back s') as [[]|].
Qed.

(** A service URL built from a name and an instance is parsed back to both,
    a whole group of instances included, except for a single instance whose id has
    the top bit set: it is written as an unsigned number, which [std::stoi] refuses,
    and the URL does not parse. *)
Theorem svc_url_roundtrip name inst old :
  name <> EmptyString -> in_s 32 inst ->
  str_all (fun c => c <> ":"%char) name ->
  let url := buildUrl_svc name inst in
  if (0 <=? inst) || fdbIsGroup inst
  then parseUrl (Some url) old
       = (true, mkSocketAddr url FDB_SOCKET_SVC name (sa_mAddrDigit old) inst false)
  else (parseUrl (Some url) old).1 = false.
Proof.
  intros Hn Hi Hc url.
  assert (url = FDB_URL_SVC +:+ name /\ inst = 0 \/
          url = FDB_URL_SVC +:+ (name +:+ String ":" (instance_text inst))) as [[-> ->]| ->].
  { unfold url, buildUrl_svc, instance_text, FDB_DEFAULT_INSTANCE.
    destruct (Z.eqb_spec inst 0); [by left|right].
    by destruct (fdbIsGroup inst); rewrite str_app_assoc. }
  - rewrite parseUrl_svc by done. simpl. unfold buildSvcAddress. by rewrite split_last_none.
  - rewrite parseUrl_svc by (by destruct name). rewrite svc_instance_text by done.
    by destruct ((0 <=? inst) || fdbIsGroup inst).
Qed.

Lemma svc_url_roundtrip_witness :
  (parseUrl (Some (buildUrl_svc "medical" (-2))) CFdbSocketAddr_new).1 = false /\
  (parseUrl (Some (buildUrl_svc "media" 7)) CFdbSocketAddr_new).2
  = mkSocketAddr "svc://media:7" FDB_SOCKET_SVC "media" 0 7 false.
Proof.
  split.
  - apply (svc_url_roundtrip "medical" (-2) CFdbSocketAddr_new);
      [discriminate|unfold in_s; lia|repeat split; discriminate].
  - assert (parseUrl (Some (buildUrl_svc "media" 7)) CFdbSocketAddr_new
      = (true, mkSocketAddr (buildUrl_svc "media" 7) FDB_SOCKET_SVC "media" 0 7 false)) as ->;
      [|reflexivity].
    apply (svc_url_roundtrip "media" 7 CFdbSocketAddr_new);
      [discriminate|unfold in_s; lia|repeat split; discriminate].
Defined.

(** [CFdbSocketAddr::buildUrl] puts a colon between the protocol and the
    path of a local address; the URL it makes parses to another path. *)
Theorem ipc_url_colon path digit port secure old :
  let a := mkSocketAddr "" FDB_SOCKET_IPC path digit port secure in
  parseUrl (Some (sa_mUrl (socket_addr_buildUrl a))) old
  = (true, mkSocketAddr (FDB_URL_IPC +:+ ":" +:+ path) FDB_SOCKET_IPC (":" +:+ path)
             (sa_mAddrDigit old) 0 true) /\ ":" +:+ path <> path.
Proof.
  intros a. split.
  - unfold a, socket_addr_buildUrl. simpl sa_mType. rewrite bool_decide_true by done.
    apply (parseUrl_ipc (":" +:+ path) old). done.
  - intros E. apply (f_equal String.length) in E. rewrite str_length_app in E. simpl in E. lia.
Qed.

(** ** IPv4 text *)

Lemma ip_digits_cons room d s : 0 <= d < 10 ->
  ip_digits (S room) (String (digit d) s)
  = '(ds, rest) ← ip_digits room s; Some (d :: ds, rest).
Proof.
  intros Hd. cbn [ip_digits]. rewrite digit_byte by done.
  destruct (Z.eqb_spec (48 + d) 46); [lia|]. destruct (Z.ltb_spec (48 + d) 48); [lia|].
  destruct (Z.ltb_spec 57 (48 + d)); [lia|]. simpl.
  destruct (ip_digits room s) as [[ds rest]|]; [|done]. simpl. do 2 f_equal. f_equal. lia.
Qed.

(** The end of a number: the end of the text or a dot. *)
Definition ip_stop (rest : string) : Prop := rest = EmptyString \/ exists r, rest = String "." r.

Lemma ip_digits_stop room rest : ip_stop rest -> ip_digits room rest = Some ([], rest).
Proof. intros [-> | [r ->]]; by destruct room. Qed.

Lemma ip_digits_dec b rest : 0 <= b < 256 -> ip_stop rest ->
  exists d ds, ip_digits 3 (to_dec b +:+ rest) = Some (d :: ds, rest) /\ ip_number (d :: ds) = b.
Proof.
  intros Hb Hr. unfold to_dec.
  assert (0 <= b mod 10 < 10) by (apply Z.mod_pos_bound; lia).
  assert (0 <= (b / 10) mod 10 < 10) by (apply Z.mod_pos_bound; lia).
  cbn [dec_loop]. destruct (Z.ltb_spec b 10).
  { change (String (digit b) "" +:+ rest) with (String (digit b) rest).
    rewrite ip_digits_cons, ip_digits_stop by (done || lia). exists b, []. split; [done|]. simpl. lia. }
  destruct (Z.ltb_spec (b / 10) 10).
  { rewrite str_app_assoc, !str_one_app.
    rewrite ip_digits_cons, ip_digits_cons, ip_digits_stop by (done || Z.div_mod_to_equations; lia).
    exists (b / 10), [b mod 10]. split; [done|]. simpl. Z.div_mod_to_equations. lia. }
  destruct (Z.ltb_spec (b / 10 / 10) 10); [|Z.div_mod_to_equations; lia].
  rewrite !str_app_assoc, !str_one_app.
  rewrite ip_digits_cons, ip_digits_cons, ip_digits_cons, ip_digits_stop
    by (done || Z.div_mod_to_equations; lia).
  exists (b / 10 / 10), [(b / 10) mod 10; b mod 10]. split; [done|]. simpl. Z.div_mod_to_equations. lia.
Qed.

(** One round of the loop in front of a dot, and the last one. *)
Lemma ip_loop_dot more t h b rest : 0 <= b < 256 ->
  ip_loop (S (S more)) t h (to_dec b +:+ String "." rest)
  = ip_loop (S more) (t + 1) (Z.lor h (Z.shiftl b (8 * t))) rest.
Proof.
  intros Hb. destruct (ip_digits_dec b (String "." rest)) as (d & ds & E & En); [done|right; eauto|].
  cbn [ip_loop]. rewrite E. cbn [mbind option_bind].
  change (byte_of_ascii "." =? 46) with true. cbv iota. rewrite En, Z.gtb_ltb.
  rewrite (proj2 (Z.ltb_ge _ _)) by lia. done.
Qed.

Lemma ip_loop_end t h b : 0 <= b < 256 ->
  ip_loop 1 t h (to_dec b) = Some (Z.lor h (Z.shiftl b (8 * t))).
Proof.
  intros Hb. destruct (ip_digits_dec b EmptyString) as (d & ds & E & En); [done|by left|].
  rewrite str_app_nil in E. cbn [ip_loop]. rewrite E. cbn [mbind option_bind].
  rewrite En, Z.gtb_ltb. rewrite (proj2 (Z.ltb_ge _ _)) by lia. done.
Qed.

Lemma byte_lor (a b n : Z) : 0 <= n -> 0 <= a < 2 ^ n -> 0 <= b -> Z.lor a (Z.shiftl b n) = a + b * 2 ^ n.
Proof.
  intros Hn Ha Hb. rewrite Z.shiftl_mul_pow2 by done.
  rewrite Z.lor_comm, <- Z.add_nocarry_lor; [lia|].
  apply Z.bits_inj'. intros i Hi. rewrite Z.land_spec, Z.bits_0, <- Z.shiftl_mul_pow2 by done.
  destruct (Z.lt_ge_cases i n); [by rewrite Z.shiftl_spec_low|].
  destruct (Z.eq_dec a 0) as [->|]; [by rewrite Z.bits_0, andb_false_r|].
  rewrite (Z.bits_above_log2 a), andb_false_r; [done|lia|].
  apply Z.log2_lt_pow2; [lia|]. apply Z.lt_le_trans with (2 ^ n); [lia|].
  apply Z.pow_le_mono_r; lia.
Qed.

Lemma byte_of ip n : 0 <= n -> 0 <= ip -> Z.land (Z.shiftr ip n) 0xff = (ip / 2 ^ n) mod 256.
Proof.
  intros Hn Hi. change 0xff with (Z.ones 8). by rewrite Z.land_ones, Z.shiftr_div_pow2.
Qed.

(** Every 32-bit IPv4 address survives the way through its dotted text. *)
Theorem ip_roundtrip ip : 0 <= ip < 2 ^ 32 -> parseIp (Some (ip_text ip)) = Some ip.
Proof.
  intros Hi. unfold parseIp, ip_text. rewrite !byte_of by lia.
  set (b0 := (ip / 2 ^ 0) mod 256). set (b1 := (ip / 2 ^ 8) mod 256).
  set (b2 := (ip / 2 ^ 16) mod 256). set (b3 := (ip / 2 ^ 24) mod 256).
  assert (0 <= b0 < 256 /\ 0 <= b1 < 256 /\ 0 <= b2 < 256 /\ 0 <= b3 < 256) as (H0 & H1 & H2 & H3)
    by (repeat split; apply Z.mod_pos_bound; lia).
  assert (ip = b0 + b1 * 2 ^ 8 + b2 * 2 ^ 16 + b3 * 2 ^ 24) as Eip
    by (unfold b0, b1, b2, b3; Z.div_mod_to_equations; lia).
  clearbody b0 b1 b2 b3. rewrite Eip. clear Eip Hi.
  set (rest := "." +:+ _).
  assert (bool_decide (to_dec b0 +:+ rest = EmptyString)
          || bool_decide (to_dec b0 +:+ rest = "0") = false) as ->.
  { destruct (dec_text_head _ _ (to_dec_text b0 ltac:(lia))) as (d & s' & E & _).
    rewrite E, !str_eqb_ne; [done| |done]. intros X. injection X as _ X. by destruct s'. }
  unfold rest. rewrite !(str_one_app "."%char). rewrite !ip_loop_dot, ip_loop_end by done.
  replace (8 * (0 + 1 + 1 + 1)) with 24 by lia. replace (8 * (0 + 1 + 1)) with 16 by lia.
  replace (8 * (0 + 1)) with 8 by lia. replace (8 * 0) with 0 by lia.
  rewrite (byte_lor 0 b0 0), (byte_lor _ b1 8), (byte_lor _ b2 16), (byte_lor _ b3 24) by lia.
  f_equal. lia.
Qed.

Lemma ip_roundtrip_witness : parseIp (Some "192.168.1.17") = Some 0x1101a8c0.
Proof.
  change "192.168.1.17" with (ip_text 0x1101a8c0). apply (ip_roundtrip 0x1101a8c0). lia.
Defined.
