(* ===== verification/AddressAllocator.v ===== *)
(** Address allocation: src/server/CAddressAllocator.cpp and src/utils/CNsConfig.h.

    The allocators of the name server: local (UDS) addresses numbered by a
    counter, TCP addresses of one interface over a range of ports that wraps
    around, and UDP ports, which the default build leaves to the system.  The
    name server and the host server have fixed addresses.  The build modelled is
    the default one for Linux: abstract UDS names, ports handed out by the name
    server. *)
From S2P Require Import Prelude CommonDefs SocketFactory.
Local Open Scope string_scope.
Local Open Scope Z_scope.

(** ** Configuration *)

(** The static members of [CNsConfig]. *)
Record CNsConfig := mkNsConfig {
  cfg_mMinPort : Z;
  cfg_mMaxPort : Z;
  cfg_mAddressBindRetryCnt : Z }.

Definition getNameServerIPCPath : string := "@/tmp/fdb-ns".
Definition getNameServerIPCUrl : string := FDB_URL_IPC +:+ getNameServerIPCPath.
Definition getHostServerIPCPath : string := "@/tmp/fdb-hs".
Definition getHostServerIPCUrl : string := FDB_URL_IPC +:+ getHostServerIPCPath.
Definition getIntNameServerTCPPort (c : CNsConfig) (secure : bool) : Z :=
  if secure then cfg_mMinPort c + 3 else cfg_mMinPort c + 2.
Definition getIntHostServerTCPPort (c : CNsConfig) (secure : bool) : Z :=
  if secure then cfg_mMinPort c + 1 else cfg_mMinPort c.
Definition getTCPPortMin (c : CNsConfig) : Z := cfg_mMinPort c + 5.
Definition getTCPPortMax (c : CNsConfig) : Z := cfg_mMaxPort c.

(** ** Addresses *)

Inductive FdbServerType :=
  | FDB_SVC_NAME_SERVER | FDB_SVC_HOST_SERVER | FDB_SVC_LOG_SERVER | FDB_SVC_USER
  | FDB_SVC_UNKNOWN.

#[export] Instance FdbServerType_dec : EqDecision FdbServerType.
Proof. solve_decision. Defined.

Definition getSvcType (svc_name : string) : FdbServerType :=
  if bool_decide (svc_name = FDB_NAME_SERVER_NAME) then FDB_SVC_NAME_SERVER
  else if bool_decide (svc_name = FDB_HOST_SERVER_NAME) then FDB_SVC_HOST_SERVER
  else FDB_SVC_USER.

Record CAllocatedAddress := mkAllocated {
  aa_mSocketAddr : CFdbSocketAddr;
  aa_mExportableLevel : Z;
  aa_mInterfaceId : Z }.

(** ** Local addresses *)

Record CIPCAddressAllocator := mkIPCAllocator { ipc_mSocketId : Z }.
Definition CIPCAddressAllocator_new : CIPCAddressAllocator := mkIPCAllocator 0.
Definition ipc_reset (a : CIPCAddressAllocator) : CIPCAddressAllocator := mkIPCAllocator 0.

Definition ipc_address (path url : string) (digit : Z) (secure : bool) : CAllocatedAddress :=
  mkAllocated (mkSocketAddr url FDB_SOCKET_IPC path digit 0 secure)
    FDB_EXPORTABLE_NODE_INTERNAL FDB_INVALID_ID.

(** [old] is the address the caller passes to be filled in; only its [mAddrDigit]
    survives. *)
Definition ipc_allocate (a : CIPCAddressAllocator) (old : CFdbSocketAddr) (svc_type : FdbServerType)
    (secure : bool) : CIPCAddressAllocator * CAllocatedAddress :=
  match svc_type with
  | FDB_SVC_NAME_SERVER =>
      (a, ipc_address getNameServerIPCPath getNameServerIPCUrl (sa_mAddrDigit old) secure)
  | FDB_SVC_HOST_SERVER =>
      (a, ipc_address getHostServerIPCPath getHostServerIPCUrl (sa_mAddrDigit old) secure)
  | _ =>
      let id := ipc_mSocketId a in
      let id_string := to_dec id in
      (mkIPCAllocator (u32 (id + 1)),
       ipc_address (getIPCPathBase +:+ id_string) (getIPCUrlBase +:+ id_string)
         (sa_mAddrDigit old) secure)
  end.

Definition ipc_allocateKnownAddr (old : CFdbSocketAddr) (svc_type : FdbServerType) (secure : bool) :
    option CAllocatedAddress :=
  match svc_type with
  | FDB_SVC_NAME_SERVER =>
      Some (ipc_address getNameServerIPCPath getNameServerIPCUrl (sa_mAddrDigit old) secure)
  | FDB_SVC_HOST_SERVER =>
      Some (ipc_address getHostServerIPCPath getHostServerIPCUrl (sa_mAddrDigit old) secure)
  | _ => None
  end.

(** ** TCP addresses *)

Record CTCPAddressAllocator := mkTCPAllocator {
  tcp_mMinPort : Z;
  tcp_mMaxPort : Z;
  tcp_mPort : Z;
  tcp_mInterfaceIp : string;
  tcp_mMask : string;
  tcp_mExportableLevel : Z;
  tcp_mInterfaceId : Z }.

(** The interface id is not initialised by the constructor; [id] is what is there. *)
Definition CTCPAddressAllocator_new (c : CNsConfig) (id : Z) : CTCPAddressAllocator :=
  mkTCPAllocator (getTCPPortMin c) (getTCPPortMax c) (getTCPPortMin c) EmptyString EmptyString
    FDB_EXPORTABLE_DOMAIN id.

Definition tcp_set (a : CTCPAddressAllocator) (ip mask : string) (level id : Z) :
    CTCPAddressAllocator :=
  mkTCPAllocator (tcp_mMinPort a) (tcp_mMaxPort a) (tcp_mPort a) ip mask level id.
Definition tcp_set_port (a : CTCPAddressAllocator) (port : Z) : CTCPAddressAllocator :=
  mkTCPAllocator (tcp_mMinPort a) (tcp_mMaxPort a) port (tcp_mInterfaceIp a) (tcp_mMask a)
    (tcp_mExportableLevel a) (tcp_mInterfaceId a).
Definition tcp_reset (a : CTCPAddressAllocator) : CTCPAddressAllocator :=
  tcp_set_port a (tcp_mMinPort a).

Definition tcp_address (a : CTCPAddressAllocator) (digit port : Z) (secure : bool) :
    CAllocatedAddress :=
  mkAllocated
    (mkSocketAddr (buildUrl_port_str (Some (tcp_mInterfaceIp a)) (to_dec (u32 port)) secure)
       FDB_SOCKET_TCP (tcp_mInterfaceIp a) digit port secure)
    (tcp_mExportableLevel a) (tcp_mInterfaceId a).

(** The port counter after handing out one port. *)
Definition tcp_next (a : CTCPAddressAllocator) : CTCPAddressAllocator :=
  let next := tcp_mPort a + 1 in
  tcp_set_port a (if next >? tcp_mMaxPort a then tcp_mMinPort a else next).

Definition tcp_allocate (c : CNsConfig) (a : CTCPAddressAllocator) (old : CFdbSocketAddr)
    (svc_type : FdbServerType) (secure : bool) : CTCPAddressAllocator * CAllocatedAddress :=
  match svc_type with
  | FDB_SVC_NAME_SERVER =>
      (a, tcp_address a (sa_mAddrDigit old) (getIntNameServerTCPPort c secure) secure)
  | FDB_SVC_HOST_SERVER =>
      (a, tcp_address a (sa_mAddrDigit old) (getIntHostServerTCPPort c secure) secure)
  | _ => (tcp_next a, tcp_address a (sa_mAddrDigit old) (tcp_mPort a) secure)
  end.

Definition tcp_allocateKnownAddr (c : CNsConfig) (a : CTCPAddressAllocator) (old : CFdbSocketAddr)
    (svc_type : FdbServerType) (secure : bool) : option CAllocatedAddress :=
  match svc_type with
  | FDB_SVC_NAME_SERVER =>
      Some (tcp_address a (sa_mAddrDigit old) (getIntNameServerTCPPort c secure) secure)
  | FDB_SVC_HOST_SERVER =>
      Some (tcp_address a (sa_mAddrDigit old) (getIntHostServerTCPPort c secure) secure)
  | _ => None
  end.

(** ** UDP ports *)

(** [CUDPPortAllocator::allocate] of the default build. *)
Definition udp_allocate : Z := FDB_INET_PORT_AUTO.

(** ** The allocators behind one interface *)

(** [IAddressAllocator] as [CNameServer::allocateAddress] uses it: a state and the
    address handed out next. *)
Class IAddressAllocator (A : Type) := {
  allocate : A -> CFdbSocketAddr -> FdbServerType -> bool -> A * CAllocatedAddress }.

#[export] Instance CIPCAddressAllocator_allocator : IAddressAllocator CIPCAddressAllocator :=
  {| allocate := ipc_allocate |}.

Definition CTCPAddressAllocator_allocator (c : CNsConfig) : IAddressAllocator CTCPAddressAllocator :=
  {| allocate := tcp_allocate c |}.

(** ** What an allocator promises *)

(** The addresses of [n] successive allocations for user services, each into the
    record the previous one filled. *)
Fixpoint alloc_run {A} `{IAddressAllocator A} (n : nat) (a : A) (old : CFdbSocketAddr)
    (secure : bool) : list CAllocatedAddress :=
  match n with
  | O => []
  | S n =>
      let '(a', r) := allocate a old FDB_SVC_USER secure in
      r :: alloc_run n a' (aa_mSocketAddr r) secure
  end.

Definition aa_url (r : CAllocatedAddress) : string := sa_mUrl (aa_mSocketAddr r).

(** Addresses handed out one after the other differ, up to the capacity of the
    allocator, and are all of one socket type. *)
Class AllocatorLaws (A : Type) `{IAddressAllocator A} := {
  al_ok : A -> Prop;
  al_capacity : A -> nat;
  al_type : EFdbSocketType;
  al_distinct a old secure n :
    al_ok a -> (n <= al_capacity a)%nat -> NoDup (map aa_url (alloc_run n a old secure));
  al_types a old secure n r :
    al_ok a -> r ∈ alloc_run n a old secure -> sa_mType (aa_mSocketAddr r) = al_type;
  al_preserved a old t secure : al_ok a -> al_ok (allocate a old t secure).1 }.

Lemma to_dec_inj m n : 0 <= m < 2 ^ 64 -> 0 <= n < 2 ^ 64 -> to_dec m = to_dec n -> m = n.
Proof.
  intros Hm Hn E. pose proof (strtol_text 10 m _ (to_dec_text m Hm)) as H1.
  pose proof (strtol_text 10 n _ (to_dec_text n Hn)) as H2. rewrite E, H2 in H1 by auto.
  injection (H1 ltac:(auto)). done.
Qed.

Lemma str_app_inj (p a b : string) : p +:+ a = p +:+ b -> a = b.
Proof. induction p as [|c p IH]; [done|]. intros E. injection E. auto. Qed.

(** A list made of the values of an injective function is duplicate free. *)
Lemma NoDup_map_inj {X Y} (f : X -> Y) (l : list X) :
  (forall x y, x ∈ l -> y ∈ l -> f x = f y -> x = y) -> NoDup l -> NoDup (map f l).
Proof.
  induction l as [|x l IH]; intros Hf Hl; [constructor|]. inversion_clear Hl as [|?? Hx Hl'].
  constructor; [|apply IH; [|done]; intros ? ? ? ?; apply Hf; by right].
  intros Hin. apply list_elem_of_fmap in Hin as (y & E & Hy).
  rewrite (Hf x y) in Hx; [done|left|by right|done].
Qed.

(** The ids a counter of 32 bits gives out. *)
Fixpoint ipc_ids (n : nat) (id : Z) : list Z :=
  match n with O => [] | S n => id :: ipc_ids n (u32 (id + 1)) end.

Lemma ipc_run_urls n a old secure :
  map aa_url (alloc_run n a old secure)
  = map (fun id => getIPCUrlBase +:+ to_dec id) (ipc_ids n (ipc_mSocketId a)).
Proof.
  revert a old. induction n as [|n IH]; intros a old; [done|]. cbn. f_equal.
  apply (IH (mkIPCAllocator _)).
Qed.

Lemma ipc_ids_in n id x : x ∈ ipc_ids n id -> 0 <= id < 2 ^ 32 ->
  exists k, (k < n)%nat /\ x = (id + Z.of_nat k) mod 2 ^ 32.
Proof.
  revert id. induction n as [|n IH]; intros id; simpl; [by rewrite elem_of_nil|].
  rewrite elem_of_cons. intros [->|Hx] Hid.
  - exists O. split; [lia|]. rewrite Z.add_0_r, Z.mod_small; lia.
  - destruct (IH _ Hx) as (k & Hk & ->); [apply Z.mod_pos_bound; lia|]. exists (S k).
    split; [lia|]. unfold wrap_u. rewrite Zplus_mod_idemp_l. f_equal. lia.
Qed.

Lemma ipc_ids_nodup n id : 0 <= id < 2 ^ 32 -> Z.of_nat n <= 2 ^ 32 -> NoDup (ipc_ids n id).
Proof.
  revert id. induction n as [|n IH]; intros id Hid Hn; [constructor|]. constructor.
  - intros Hin. apply ipc_ids_in in Hin as (k & Hk & E); [|apply Z.mod_pos_bound; lia].
    unfold wrap_u in E. rewrite Zplus_mod_idemp_l in E.
    destruct (Z.lt_ge_cases (id + 1 + Z.of_nat k) (2 ^ 32)).
    + rewrite Z.mod_small in E; lia.
    + rewrite <- (Z_mod_plus_full _ (-1)), Z.mod_small in E; lia.
  - apply IH; [apply Z.mod_pos_bound; lia|lia].
Qed.

#[export] Instance CIPCAddressAllocator_laws : AllocatorLaws CIPCAddressAllocator.
Proof.
  refine {| al_ok a := 0 <= ipc_mSocketId a < 2 ^ 32; al_capacity _ := Z.to_nat (2 ^ 32);
            al_type := FDB_SOCKET_IPC |}.
  - intros a old secure n Ha Hn. rewrite ipc_run_urls. apply NoDup_map_inj.
    + intros x y Hx Hy E. apply ipc_ids_in in Hx as (i & _ & ->); [|done].
      apply ipc_ids_in in Hy as (j & _ & ->); [|done].
      apply str_app_inj, to_dec_inj in E; [done| |];
        (match goal with |- 0 <= ?z mod _ < _ => pose proof (Z.mod_pos_bound z (2 ^ 32) ltac:(lia)) end; lia).
    + apply ipc_ids_nodup; [done|]. lia.
  - intros a old secure n r _. revert a old. induction n as [|n IH]; intros a old; cbn.
    + by rewrite elem_of_nil.
    + rewrite elem_of_cons. intros [->|Hr]; [done|]. by apply IH in Hr.
  - intros a old t secure Ha. destruct t; simpl; try done; apply Z.mod_pos_bound; lia.
Defined.

(** The ports of an interface go round its range. *)
Definition tcp_ok (a : CTCPAddressAllocator) : Prop :=
  0 <= tcp_mMinPort a <= tcp_mPort a /\ tcp_mPort a <= tcp_mMaxPort a < 65536.
Definition tcp_size (a : CTCPAddressAllocator) : Z := tcp_mMaxPort a - tcp_mMinPort a + 1.

Fixpoint tcp_ports (n : nat) (a : CTCPAddressAllocator) : list Z :=
  match n with O => [] | S n => tcp_mPort a :: tcp_ports n (tcp_next a) end.

Lemma tcp_next_ok a : tcp_ok a -> tcp_ok (tcp_next a) /\ tcp_size (tcp_next a) = tcp_size a.
Proof.
  unfold tcp_ok, tcp_size, tcp_next. intros H. simpl.
  rewrite Z.gtb_ltb. destruct (Z.ltb_spec (tcp_mMaxPort a) (tcp_mPort a + 1)); simpl; lia.
Qed.

Lemma tcp_next_port a : tcp_ok a ->
  tcp_mPort (tcp_next a) - tcp_mMinPort a = (tcp_mPort a - tcp_mMinPort a + 1) mod tcp_size a.
Proof.
  unfold tcp_ok, tcp_size, tcp_next. intros H. simpl.
  rewrite Z.gtb_ltb. destruct (Z.ltb_spec (tcp_mMaxPort a) (tcp_mPort a + 1)).
  - replace (tcp_mPort a - tcp_mMinPort a + 1) with (tcp_mMaxPort a - tcp_mMinPort a + 1) by lia.
    rewrite Z.mod_same; lia.
  - rewrite Z.mod_small; lia.
Qed.

Lemma tcp_ports_in n a x : x ∈ tcp_ports n a -> tcp_ok a ->
  exists k, (k < n)%nat /\
    x = tcp_mMinPort a + (tcp_mPort a - tcp_mMinPort a + Z.of_nat k) mod tcp_size a.
Proof.
  revert a. induction n as [|n IH]; intros a; simpl; [by rewrite elem_of_nil|].
  rewrite elem_of_cons. intros [->|Hx] Ha.
  - exists O. split; [lia|]. rewrite Z.add_0_r, Z.mod_small; [lia|]. unfold tcp_ok, tcp_size in *. lia.
  - destruct (tcp_next_ok a Ha) as [Hn Hs]. destruct (IH _ Hx Hn) as (k & Hk & ->). exists (S k).
    split; [lia|]. rewrite Hs. change (tcp_mMinPort (tcp_next a)) with (tcp_mMinPort a).
    rewrite (tcp_next_port a Ha), Zplus_mod_idemp_l. do 2 f_equal. lia.
Qed.

Lemma tcp_ports_nodup n a : tcp_ok a -> Z.of_nat n <= tcp_size a -> NoDup (tcp_ports n a).
Proof.
  revert a. induction n as [|n IH]; intros a Ha Hn; [constructor|].
  destruct (tcp_next_ok a Ha) as [Hok Hs]. constructor; [|apply IH; [done|lia]].
  intros Hin. apply tcp_ports_in in Hin as (k & Hk & E); [|done].
  rewrite Hs in E. change (tcp_mMinPort (tcp_next a)) with (tcp_mMinPort a) in E.
  rewrite (tcp_next_port a Ha), Zplus_mod_idemp_l in E. unfold tcp_ok in Ha.
  assert (0 < tcp_size a) by (unfold tcp_size; lia).
  destruct (Z.lt_ge_cases (tcp_mPort a - tcp_mMinPort a + 1 + Z.of_nat k) (tcp_size a)).
  - rewrite Z.mod_small in E; lia.
  - rewrite <- (Z_mod_plus_full _ (-1)), Z.mod_small in E; unfold tcp_size in *; lia.
Qed.

Lemma tcp_ports_range n a x : x ∈ tcp_ports n a -> tcp_ok a -> 0 <= x < 65536.
Proof.
  intros Hx Ha. apply tcp_ports_in in Hx as (k & _ & ->); [|done]. unfold tcp_ok, tcp_size in *.
  match goal with |- context [?z mod ?n] => pose proof (Z.mod_pos_bound z n) end. lia.
Qed.

Lemma tcp_url_inj a x y secure : 0 <= x < 65536 -> 0 <= y < 65536 ->
  aa_url (tcp_address a 0 x secure) = aa_url (tcp_address a 0 y secure) -> x = y.
Proof.
  unfold aa_url, tcp_address, buildUrl_port_str. simpl.
  intros Hx Hy E. rewrite !wrap_u_small in E by (unfold in_u; lia).
  by do 3 apply str_app_inj in E; apply to_dec_inj in E; try lia.
Qed.

Lemma tcp_run_urls c n a old secure :
  map aa_url (@alloc_run _ (CTCPAddressAllocator_allocator c) n a old secure)
  = map (fun p => aa_url (tcp_address a 0 p secure)) (tcp_ports n a).
Proof.
  revert a old. induction n as [|n IH]; intros a old; [done|].
  cbn [alloc_run allocate CTCPAddressAllocator_allocator tcp_allocate map tcp_ports].
  f_equal. rewrite IH. done.
Qed.

Definition CTCPAddressAllocator_laws (c : CNsConfig) :
  @AllocatorLaws CTCPAddressAllocator (CTCPAddressAllocator_allocator c).
Proof.
  refine (@Build_AllocatorLaws _ (CTCPAddressAllocator_allocator c) tcp_ok
            (fun a => Z.to_nat (tcp_size a)) FDB_SOCKET_TCP _ _ _).
  - intros a old secure n Ha Hn. rewrite tcp_run_urls. apply NoDup_map_inj.
    + intros x y Hx Hy. apply tcp_url_inj; by eapply tcp_ports_range.
    + apply tcp_ports_nodup; [done|]. unfold tcp_ok, tcp_size in *. lia.
  - intros a old secure n r Ha. clear Ha. revert a old. induction n as [|n IH]; intros a old; cbn.
    + by rewrite elem_of_nil.
    + rewrite elem_of_cons. intros [->|Hr]; [done|]. by apply IH in Hr.
  - intros a old t secure Ha. destruct t; simpl; try done; by apply tcp_next_ok.
Defined.
