(* ===== verification/SvcAddrUtils.v ===== *)
(** Service addresses between hosts: src/server/CSvcAddrUtils.cpp.

    Conversion of exported services to and from their messages, the comparison
    of service tables, removal of duplicates, and the clean-up of address lists
    that travel between hosts.  A session enters as the peer address
    [CFdbSession::peerIp] reports ([None]: no session); the table of local
    interfaces, which the code fetches from the system on demand, is an argument. *)
From S2P Require Import Prelude StdMap CommonDefs Serializer Codec WireBase NsMessages SocketFactory.
Open Scope Z_scope.

(** ** Data *)

Record CFdbSocketAddrInfo := mkAddrInfo {
  inf_mAddress : CFdbSocketAddr;
  inf_mUDPPort : Z;
  inf_mExportableLevel : Z;
  inf_mInterfaceId : Z }.

Definition CFdbSocketAddrInfo_new : CFdbSocketAddrInfo :=
  mkAddrInfo CFdbSocketAddr_new FDB_INET_PORT_INVALID FDB_EXPORTABLE_DOMAIN FDB_INVALID_ID.

Record CFdbSvcAddress := mkSvcAddress {
  sv_mAddrTbl : list CFdbSocketAddrInfo;
  sv_mInstanceId : Z;
  sv_mSvcName : string;
  sv_mEndpointName : string;
  sv_mHostName : string;
  sv_mDomainName : string;
  sv_mTokens : list string }.

Section utils.
Context {I : Indet}.

(** A new element of the list, value-initialised by [std::list::resize]. *)
Definition CFdbSvcAddress_new : CFdbSvcAddress :=
  mkSvcAddress [] 0 EmptyString EmptyString EmptyString EmptyString [].

Definition utils_setServiceInfo (exported_addr : CFdbSvcAddress) (l : FdbMsgAddressList) :
    FdbMsgAddressList :=
  populateTokens
    (mkAddressList (sv_mSvcName exported_addr) (sv_mHostName exported_addr)
       (sv_mEndpointName exported_addr) (sv_mDomainName exported_addr)
       (sv_mInstanceId exported_addr) false 0 (al_mAddressList l) (al_mTokenList l)
       (al_mOptions l)) (sv_mTokens exported_addr).

(** The level and whether it is a lower bound; [None]: level 0 is refused. *)
Definition getExportable (exportable : Z) : option (Z * bool) :=
  if exportable <? 0 then Some (- exportable, true)
  else if exportable =? 0 then None
  else Some (exportable, false).

Definition utils_checkExportable (current desired : Z) (at_least : bool) : bool :=
  if at_least then negb (current <? desired) else negb (current >? desired).

Definition setAddressItem (e : CFdbSocketAddrInfo) (m : FdbMsgAddressItem) : FdbMsgAddressItem :=
  set_interface_id
    (set_exportable_level
       (set_udp_port (fromSocketAddress m (inf_mAddress e)) (inf_mUDPPort e))
       (inf_mExportableLevel e)) (inf_mInterfaceId e).

(** The loop both variants of [populateFromHostInfo] run over the addresses. *)
Definition exportable_items (level : Z) (at_least : bool) (tbl : list CFdbSocketAddrInfo) :
    list FdbMsgAddressItem :=
  map (fun e => setAddressItem e FdbMsgAddressItem_new)
    (List.filter (fun e => utils_checkExportable (inf_mExportableLevel e) level at_least) tbl).

Definition populateFromHostInfo (exported_addr : CFdbSvcAddress) (l : FdbMsgAddressList)
    (exportable_level : Z) (remove : bool) : FdbMsgAddressList :=
  let l := utils_setServiceInfo exported_addr l in
  if remove then l else
  match getExportable exportable_level with
  | None => l
  | Some (level, at_least) =>
      al_set_addresses l
        (al_mAddressList l ++ exportable_items level at_least (sv_mAddrTbl exported_addr))
  end.

(** A service none of whose addresses may be exported is left out. *)
Fixpoint populateFromHostInfo_tbl (svc_addr_tbl : list CFdbSvcAddress)
    (svc_address_tbl : FdbMsgExportableSvcAddress) (exportable_level : Z) :
    FdbMsgExportableSvcAddress :=
  match svc_addr_tbl with
  | [] => svc_address_tbl
  | exported_addr :: rest =>
      match getExportable exportable_level with
      | None => svc_address_tbl
      | Some (level, at_least) =>
          match exportable_items level at_least (sv_mAddrTbl exported_addr) with
          | [] => populateFromHostInfo_tbl rest svc_address_tbl exportable_level
          | items =>
              let l := utils_setServiceInfo exported_addr FdbMsgAddressList_new in
              populateFromHostInfo_tbl rest
                (mkExportableSvcAddress
                   (ex_mSvcAddrList svc_address_tbl ++ [al_set_addresses l items]))
                exportable_level
          end
      end
  end.

Definition item_to_info (m : FdbMsgAddressItem) : CFdbSocketAddrInfo :=
  mkAddrInfo (toSocketAddress m CFdbSocketAddr_new) (ai_mUDPPort m) (ai_mExportableLevel m)
    (ai_mInterfaceId m).

(** [populateToHostInfo(addr_list, exported_addr)]: a list without addresses
    leaves the entry as it is. *)
Definition populateToHostInfo (l : FdbMsgAddressList) (e : CFdbSvcAddress) : CFdbSvcAddress :=
  match al_mAddressList l with
  | [] => e
  | items =>
      mkSvcAddress (sv_mAddrTbl e ++ map item_to_info items) (al_mInstanceId l)
        (al_mServiceName l) (al_mEndpointName l) (al_mHostName l) (al_mDomainName l)
        (dumpTokens l (sv_mTokens e))
  end.

Definition populateToHostInfo_tbl (svc_address_tbl : FdbMsgExportableSvcAddress)
    (svc_addr_tbl : list CFdbSvcAddress) : list CFdbSvcAddress :=
  svc_addr_tbl
  ++ map (fun l => populateToHostInfo l CFdbSvcAddress_new) (ex_mSvcAddrList svc_address_tbl).

(** ** Comparing tables *)

Definition same_service (e : CFdbSvcAddress) (l : FdbMsgAddressList) : bool :=
  bool_decide (sv_mSvcName e = al_mServiceName l)
  && bool_decide (sv_mInstanceId e = al_mInstanceId l).

(** What is appended to [added_svc_tbl] and to [removed_svc_tbl]. *)
Definition compareSvcTable (new_tbl : FdbMsgExportableSvcAddress) (current : list CFdbSvcAddress) :
    list CFdbSvcAddress * list CFdbSvcAddress :=
  let addr_tbl := ex_mSvcAddrList new_tbl in
  (map (fun l => populateToHostInfo l CFdbSvcAddress_new)
     (List.filter (fun l => negb (existsb (fun e => same_service e l) current)) addr_tbl),
   List.filter (fun e => negb (existsb (same_service e) addr_tbl)) current).

(** ** Duplicates *)

(** One address of the original against one of the duplicate. *)
Definition same_address (interfaces : list IfDesc) (orig dup : CFdbSocketAddrInfo) : bool :=
  if bool_decide (sa_mAddr (inf_mAddress dup) = FDB_IP_ALL_INTERFACE) then
    match findByIp interfaces (sa_mAddr (inf_mAddress orig)) with
    | Some _ => sa_mPort (inf_mAddress orig) =? sa_mPort (inf_mAddress dup)
    | None => false
    end
  else bool_decide (sa_mUrl (inf_mAddress orig) = sa_mUrl (inf_mAddress dup)).

Definition duplicate_of (interfaces : list IfDesc) (orig dup : CFdbSvcAddress) : bool :=
  bool_decide (sv_mSvcName orig = sv_mSvcName dup)
  && existsb (fun o => existsb (same_address interfaces o) (sv_mAddrTbl dup)) (sv_mAddrTbl orig).

Definition removeDuplicateService (interfaces : list IfDesc)
    (original duplicate : list CFdbSvcAddress) : list CFdbSvcAddress :=
  List.filter (fun o => negb (existsb (duplicate_of interfaces o) duplicate)) original.

(** ** Addresses for a peer *)

Definition is_host_local (it : FdbMsgAddressItem) : bool :=
  bool_decide (ai_mType it = FDB_SOCKET_IPC)
  || bool_decide (ai_mTCPIPCAddress it = FDB_LOCAL_HOST).

(** The all-interface address seen from the peer. *)
Definition at_peer (peer_ip : string) (it : FdbMsgAddressItem) : FdbMsgAddressItem :=
  set_tcp_ipc_address_url it peer_ip
    (buildUrl_inet (Some peer_ip) (ai_mTCPPort it) (ai_mIsSecure it)).

Definition is_all_if (peer_ip : string) (it : FdbMsgAddressItem) : bool :=
  bool_decide (ai_mTCPIPCAddress it = FDB_IP_ALL_INTERFACE)
  && negb (bool_decide (peer_ip = EmptyString)).

(** The three groups of candidates [validateUrl] sorts the addresses into. *)
Fixpoint sort_candidates (peer_ip : string) (pool : list FdbMsgAddressItem) :
    list FdbMsgAddressItem * list FdbMsgAddressItem * list FdbMsgAddressItem :=
  match pool with
  | [] => ([], [], [])
  | it :: rest =>
      let '(best, all_if, fallback) := sort_candidates peer_ip rest in
      if is_host_local it then (best, all_if, fallback)
      else if bool_decide (ai_mTCPIPCAddress it = peer_ip) then (it :: best, all_if, fallback)
      else if is_all_if peer_ip it then (best, at_peer peer_ip it :: all_if, fallback)
      else (best, all_if, it :: fallback)
  end.

Definition validateUrl (l : FdbMsgAddressList) (session : option string) : FdbMsgAddressList :=
  match session, al_mAddressList l with
  | Some peer_ip, (_ :: _) as pool =>
      let '(best, all_if, fallback) := sort_candidates peer_ip pool in
      match best, all_if, fallback with
      | _ :: _, _, _ => al_set_addresses l best
      | [], _ :: _, _ => al_set_addresses l all_if
      | [], [], _ :: _ => al_set_addresses l fallback
      | [], [], [] => l
      end
  | _, _ => l
  end.

Definition validateUrl_tbl (t : FdbMsgExportableSvcAddress) (session : option string) :
    FdbMsgExportableSvcAddress :=
  mkExportableSvcAddress (map (fun l => validateUrl l session) (ex_mSvcAddrList t)).

Fixpoint verify_loop (peer_ip : string) (pool : list FdbMsgAddressItem) : list FdbMsgAddressItem :=
  match pool with
  | [] => []
  | it :: rest =>
      if is_host_local it then verify_loop peer_ip rest
      else (if is_all_if peer_ip it then at_peer peer_ip it else it) :: verify_loop peer_ip rest
  end.

Definition verifyUrl (pool : list FdbMsgAddressItem) (session : option string) :
    list FdbMsgAddressItem :=
  match session with
  | None => pool
  | Some peer_ip =>
      match pool with
      | [] => pool
      | _ => if bool_decide (peer_ip = FDB_LOCAL_HOST) then pool else verify_loop peer_ip pool
      end
  end.

Definition verifyUrl_tbl (t : FdbMsgExportableSvcAddress) (session : option string) :
    FdbMsgExportableSvcAddress :=
  mkExportableSvcAddress
    (map (fun l => al_set_addresses l (verifyUrl (al_mAddressList l) session))
       (ex_mSvcAddrList t)).
End utils.

(** ** What leaves the host *)

(** An address that means something to another host: neither UDS nor loopback nor,
    when the address of the peer is known, all interfaces. *)
Definition routable (peer_ip : string) (it : FdbMsgAddressItem) : Prop :=
  is_host_local it = false /\ is_all_if peer_ip it = false.

(** A peer address another host can have. *)
Definition remote_peer (peer_ip : string) : Prop :=
  peer_ip <> FDB_LOCAL_HOST /\ peer_ip <> FDB_IP_ALL_INTERFACE.

Lemma at_peer_routable peer_ip it :
  remote_peer peer_ip -> is_host_local it = false -> routable peer_ip (at_peer peer_ip it).
Proof.
  intros [H1 H2] Hl. unfold routable, is_host_local, is_all_if, at_peer in *. simpl.
  apply orb_false_iff in Hl as [-> _]. rewrite !bool_decide_false by done. done.
Qed.

Lemma sort_candidates_spec peer_ip pool :
  remote_peer peer_ip ->
  let '(best, all_if, fallback) := sort_candidates peer_ip pool in
  Forall (routable peer_ip) (best ++ all_if ++ fallback) /\
  Forall (fun it => ai_mTCPIPCAddress it = peer_ip) (best ++ all_if) /\
  (best = [] -> all_if = [] -> fallback = [] -> Forall (fun it => is_host_local it = true) pool).
Proof.
  intros Hp. induction pool as [|it pool IH]; simpl; [done|].
  destruct (sort_candidates peer_ip pool) as [[best all_if] fallback].
  destruct IH as (H1 & H2 & H3). rewrite !Forall_app in *. destruct H1 as (B1 & A1 & F1), H2 as (B2 & A2).
  destruct (is_host_local it) eqn:El.
  { rewrite !Forall_app. repeat split; try done. intros. constructor; auto. }
  case_bool_decide as Ep; [|destruct (is_all_if peer_ip it) eqn:Ea];
    rewrite !Forall_app; repeat split; try done; constructor; try done.
  - split; [done|]. unfold is_all_if. rewrite Ep.
    by rewrite (bool_decide_false (peer_ip = FDB_IP_ALL_INTERFACE)) by apply Hp.
  - by apply at_peer_routable.
Qed.

(** The addresses [validateUrl] passes on for a remote peer are all routable,
    those of the interface the peer reached first; only a list without any such
    address, local ones alone, is passed on as it was, although the comment says
    that they are never broadcast. *)
Theorem validateUrl_routable l peer_ip :
  remote_peer peer_ip ->
  let pool := al_mAddressList (validateUrl l (Some peer_ip)) in
  Forall (routable peer_ip) pool \/
  Forall (fun it => is_host_local it = true) (al_mAddressList l) /\ pool = al_mAddressList l.
Proof.
  intros Hp. unfold validateUrl. destruct (al_mAddressList l) as [|it pool] eqn:E.
  { simpl. rewrite E. by left. }
  pose proof (sort_candidates_spec peer_ip (it :: pool) Hp) as H.
  destruct (sort_candidates peer_ip (it :: pool)) as [[best all_if] fallback].
  destruct H as (H1 & _ & H3). rewrite !Forall_app in H1. destruct H1 as (B1 & A1 & F1).
  destruct best, all_if, fallback; simpl; try (by left); [|by left..].
  right. rewrite E. split; [by apply H3|done].
Qed.

Lemma validateUrl_routable_witness :
  let it := mkAddressItem "0" 60007 FDB_SOCKET_TCP "tcp://0:60007" 0 false 1 0 0 in
  let l := al_set_addresses (@FdbMsgAddressList_new 0) [it] in
  Forall (routable "10.0.0.2") (al_mAddressList (validateUrl l (Some "10.0.0.2"%string))).
Proof.
  intros it l.
  destruct (validateUrl_routable l "10.0.0.2") as [H|[H _]]; [by split|exact H|].
  inversion H. discriminate.
Defined.

(** [verifyUrl] leaves a remote host nothing but routable addresses, in the
    order they came, and keeps every address that was not local. *)
Theorem verifyUrl_routable pool peer_ip :
  remote_peer peer_ip ->
  Forall (routable peer_ip) (verifyUrl pool (Some peer_ip)) /\
  verifyUrl pool (Some peer_ip)
  = map (fun it => if is_all_if peer_ip it then at_peer peer_ip it else it)
      (List.filter (fun it => negb (is_host_local it)) pool).
Proof.
  intros Hp.
  assert (verifyUrl pool (Some peer_ip) = verify_loop peer_ip pool) as ->.
  { unfold verifyUrl. destruct pool; [done|]. by rewrite bool_decide_false by apply Hp. }
  induction pool as [|it pool [IH1 IH2]]; simpl; [done|].
  destruct (is_host_local it) eqn:El; simpl; [done|]. split; [|by rewrite IH2].
  constructor; [|done]. destruct (is_all_if peer_ip it) eqn:Ea; [by apply at_peer_routable|done].
Qed.

Lemma verifyUrl_routable_witness :
  let it := mkAddressItem "127.0.0.1" 60007 FDB_SOCKET_TCP "tcp://127.0.0.1:60007" 0 false 1 0 0 in
  verifyUrl [it] (Some "10.0.0.2"%string) = [].
Proof. intros it. destruct (verifyUrl_routable [it] "10.0.0.2") as [_ ->]; [by split|reflexivity]. Defined.

(** ** Comparing tables *)

Definition svc_key (e : CFdbSvcAddress) : string * Z := (sv_mSvcName e, sv_mInstanceId e).
Definition list_key (l : FdbMsgAddressList) : string * Z := (al_mServiceName l, al_mInstanceId l).

Lemma same_service_key e l : same_service e l = true <-> svc_key e = list_key l.
Proof.
  unfold same_service, svc_key, list_key. rewrite andb_true_iff, !bool_decide_eq_true.
  split; [intros [-> ->]; done|by intros [= -> ->]].
Qed.

Lemma populateToHostInfo_key l e :
  al_mAddressList l <> [] -> svc_key (populateToHostInfo l e) = list_key l.
Proof. unfold populateToHostInfo. by destruct (al_mAddressList l). Qed.

Lemma exists_same_current l current :
  existsb (fun e => same_service e l) current = true <-> list_key l ∈ map svc_key current.
Proof.
  rewrite existsb_exists, list_elem_of_fmap. split.
  - intros (e & He & E). exists e. apply same_service_key in E. apply list_elem_of_In in He. done.
  - intros (e & E & He). exists e. apply list_elem_of_In in He. split; [done|]. by apply same_service_key.
Qed.

Lemma exists_same_new e new :
  existsb (same_service e) new = true <-> svc_key e ∈ map list_key new.
Proof.
  rewrite existsb_exists, list_elem_of_fmap. split.
  - intros (l & Hl & E). exists l. apply same_service_key in E. apply list_elem_of_In in Hl. done.
  - intros (l & E & Hl). exists l. apply list_elem_of_In in Hl. split; [done|]. by apply same_service_key.
Qed.

Lemma compare_added new_tbl current key :
  Forall (fun l => al_mAddressList l <> []) (ex_mSvcAddrList new_tbl) ->
  key ∈ map svc_key (compareSvcTable new_tbl current).1 <->
  key ∈ map list_key (ex_mSvcAddrList new_tbl) /\ key ∉ map svc_key current.
Proof.
  intros Hne. rewrite Forall_forall in Hne. simpl. rewrite map_map. split.
  - intros (l & -> & Hl)%list_elem_of_fmap. apply list_elem_of_In, filter_In in Hl as [Hl Hn].
    apply list_elem_of_In in Hl. apply negb_true_iff in Hn.
    rewrite populateToHostInfo_key by by apply Hne.
    split; [apply list_elem_of_fmap; by exists l|].
    intros Hc. apply exists_same_current in Hc. congruence.
  - intros [(l & -> & Hl)%list_elem_of_fmap Hc]. apply list_elem_of_fmap. exists l.
    rewrite populateToHostInfo_key by by apply Hne.
    split; [done|]. apply list_elem_of_In, filter_In. split; [by apply list_elem_of_In|].
    apply negb_true_iff, not_true_iff_false. by rewrite exists_same_current.
Qed.

Lemma compare_removed new_tbl current e :
  e ∈ (compareSvcTable new_tbl current).2 <->
  e ∈ current /\ svc_key e ∉ map list_key (ex_mSvcAddrList new_tbl).
Proof.
  simpl. rewrite list_elem_of_In, filter_In, <- list_elem_of_In.
  by rewrite negb_true_iff, <- not_true_iff_false, exists_same_new.
Qed.

(** The difference [compareSvcTable] computes is exact: dropping from the
    current table the services reported as removed and adding those reported as
    added gives a table of exactly the services (name and instance) of the new one,
    and nothing is reported that did not change. *)
Theorem compareSvcTable_updates new_tbl current :
  Forall (fun l => al_mAddressList l <> []) (ex_mSvcAddrList new_tbl) ->
  let '(added, removed) := compareSvcTable new_tbl current in
  (forall key,
     key ∈ map svc_key (filter (fun e => svc_key e ∉ map svc_key removed) current ++ added)
     <-> key ∈ map list_key (ex_mSvcAddrList new_tbl)) /\
  (forall key, key ∈ map svc_key added ->
     key ∈ map list_key (ex_mSvcAddrList new_tbl) /\ key ∉ map svc_key current) /\
  (forall e, e ∈ removed -> e ∈ current /\ svc_key e ∉ map list_key (ex_mSvcAddrList new_tbl)).
Proof.
  intros Hne. pose proof (compare_added new_tbl current) as Ha.
  pose proof (compare_removed new_tbl current) as Hr.
  destruct (compareSvcTable new_tbl current) as [added removed]. simpl in Ha, Hr.
  split; [|split; [intros key; by apply Ha|intros e; apply Hr]].
  intros key. rewrite map_app, elem_of_app, Ha, list_elem_of_fmap by done. split.
  - intros [(e & -> & He)|[]]; [|done]. apply list_elem_of_filter in He as [Hn He].
    destruct (decide (svc_key e ∈ map list_key (ex_mSvcAddrList new_tbl))) as [|Hno]; [done|].
    destruct Hn. apply list_elem_of_fmap. exists e. split; [done|]. by apply Hr.
  - intros Hk. destruct (decide (key ∈ map svc_key current)) as [Hc|]; [left|by right].
    apply list_elem_of_fmap in Hc as (e & -> & He). exists e. split; [done|].
    apply list_elem_of_filter. split; [|done]. intros Hx.
    apply list_elem_of_fmap in Hx as (e' & E & He'). apply Hr in He' as [_ He']. by rewrite E in Hk.
Qed.

Lemma compareSvcTable_updates_witness :
  let it := mkAddressItem "0" 60007 FDB_SOCKET_TCP "tcp://0:60007" 0 false 1 0 0 in
  let l := mkAddressList "media" "h" "e" "d" 0 true 0 [it] (mkTokens []) 0 in
  map svc_key (compareSvcTable (mkExportableSvcAddress [l]) []).1 = [("media"%string, 0)] /\
  forall e, e ∈ (compareSvcTable (mkExportableSvcAddress [l]) []).2 -> e ∈ @nil CFdbSvcAddress.
Proof.
  intros it l. split; [reflexivity|].
  apply (compareSvcTable_updates (mkExportableSvcAddress [l]) []).
  repeat constructor. discriminate.
Defined.
