(* ===== verification/NameServer.v ===== *)
(** The name server: src/server/CNameServer.cpp and CNameServer.h.

    [CNameServer] is the state of the server: the registry of services (by name,
    then by instance id), the address allocators, the host proxies and the five
    publishers with their subscribers.  Every handler is a function from the
    state and its request to the new state and the messages it sends, in order
    ([NsOut]).  What the server asks of its environment (sessions, the security
    configuration, the interfaces of the host, binding of sockets) is the record
    [NsEnv], an argument of the definitions. *)
From S2P Require Import Prelude StdMap CommonDefs Serializer Codec WireBase NsMessages SocketFactory AddressAllocator SvcAddrUtils Subscribe EventObject.
Open Scope list_scope.
Open Scope Z_scope.

(** ** Data *)

Inductive eAddressStatus := ADDR_FREE | ADDR_PENDING | ADDR_BOUND.

#[export] Instance eAddressStatus_dec : EqDecision eAddressStatus.
Proof. solve_decision. Defined.

Record CFdbAddressDesc := mkAddressDesc {
  ad_info : CFdbSocketAddrInfo;
  ad_mStatus : eAddressStatus;
  ad_mRebindCount : Z }.

Definition CFdbAddressDesc_new : CFdbAddressDesc := mkAddressDesc CFdbSocketAddrInfo_new ADDR_FREE 0.

Definition ad_addr (d : CFdbAddressDesc) : CFdbSocketAddr := inf_mAddress (ad_info d).
Definition ad_url (d : CFdbAddressDesc) : string := sa_mUrl (ad_addr d).
Definition ad_udp (d : CFdbAddressDesc) : Z := inf_mUDPPort (ad_info d).
Definition ad_level (d : CFdbAddressDesc) : Z := inf_mExportableLevel (ad_info d).
Definition ad_if (d : CFdbAddressDesc) : Z := inf_mInterfaceId (ad_info d).

Record CSvcRegistryEntry := mkEntry {
  re_mSid : Z;
  re_mAddrTbl : list CFdbAddressDesc;
  re_mTokens : list string;
  re_mAllowTcpSecure : bool;
  re_mAllowTcpNormal : bool;
  re_mExportableLevel : Z;
  re_mEndpointName : string;
  re_mSvcName : string;
  re_mSvcType : FdbServerType;
  re_mInstanceId : Z }.

Definition CSvcRegistryEntry_new : CSvcRegistryEntry :=
  mkEntry FDB_INVALID_ID [] [] false true FDB_EXPORTABLE_NODE_INTERNAL EmptyString EmptyString
    FDB_SVC_UNKNOWN FDB_DEFAULT_INSTANCE.

Definition re_set_sid (e : CSvcRegistryEntry) (sid : Z) : CSvcRegistryEntry :=
  mkEntry sid (re_mAddrTbl e) (re_mTokens e) (re_mAllowTcpSecure e) (re_mAllowTcpNormal e)
    (re_mExportableLevel e) (re_mEndpointName e) (re_mSvcName e) (re_mSvcType e) (re_mInstanceId e).
Definition re_set_addrs (e : CSvcRegistryEntry) (l : list CFdbAddressDesc) : CSvcRegistryEntry :=
  mkEntry (re_mSid e) l (re_mTokens e) (re_mAllowTcpSecure e) (re_mAllowTcpNormal e)
    (re_mExportableLevel e) (re_mEndpointName e) (re_mSvcName e) (re_mSvcType e) (re_mInstanceId e).

Abbreviation tSvcRegistryTbl := (smap Z CSvcRegistryEntry).
Abbreviation tRegistryTbl := (smap string tSvcRegistryTbl).
Abbreviation tTCPAllocatorTbl := (smap string CTCPAddressAllocator).

Record CNetInterface := mkNetInterface {
  ni_mAddress : string;
  ni_mExportableLevel : Z;
  ni_mInterfaceId : Z;
  ni_isIfName : bool }.

(** The messages and calls a handler makes, in order. *)
Inductive NsOut :=
  | OutStatus (code : FdbMsgStatusCode)
  | OutReply (l : FdbMsgAddressList)
  | OutBroadcast (pub : SubscribeType) (instance : Z) (l : FdbMsgAddressList) (svc : string)
  | OutBroadcastTo (pub : SubscribeType) (session instance : Z) (l : FdbMsgAddressList) (svc : string)
  | OutNotify (instance : Z) (l : FdbMsgAddressList) (svc : string)
  | OutPostSvcTable (proxy : string) (t : FdbMsgExportableSvcAddress)
  | OutConnectHost (proxy : string)
  | OutStaticHost (ip url : string)
  | OutProxyBroadcast (proxy : string) (t : SubscribeType) (instance : Z) (svc : string)
  | OutForwardListener (proxy : option string) (t : SubscribeType) (instance : Z) (svc : string).

Record NsEnv := mkNsEnv {
  env_cfg : CNsConfig;
  env_indet : Indet;
  env_interfaces : list IfDesc;
  env_network_list : string -> list CFdbSocketAddr;
  env_socket_type : Z -> option EFdbSocketType;
  env_security_level : Z -> string -> Z;
  env_remote_level : Z -> Z;
  env_pid : Z;
  env_bind : string -> option Z;
  env_valid_ip : string -> bool }.

Record CNameServer := mkNs {
  mRegistryTbl : tRegistryTbl;
  mIPCAllocator : CIPCAddressAllocator;
  mTCPAllocators : tTCPAllocatorTbl;
  mNetInterfaces : list CNetInterface;
  mHostName : string;
  mDomainName : string;
  mName : string;
  mSelfExportableLevel : Z;
  mMaxDomainExportableLevel : Z;
  mMinUpstreamExportableLevel : Z;
  mTCPSecure : bool;
  mHostProxyTbl : smap string bool;
  mInstanceIdAllocator : Z;
  mPublishers : SubscribeType -> CFdbBaseObject }.

Definition ns_with_registry (s : CNameServer) (r : tRegistryTbl) : CNameServer :=
  mkNs r (mIPCAllocator s) (mTCPAllocators s) (mNetInterfaces s) (mHostName s) (mDomainName s)
    (mName s) (mSelfExportableLevel s) (mMaxDomainExportableLevel s)
    (mMinUpstreamExportableLevel s) (mTCPSecure s) (mHostProxyTbl s) (mInstanceIdAllocator s)
    (mPublishers s).
Definition ns_with_allocators (s : CNameServer) (i : CIPCAddressAllocator) (t : tTCPAllocatorTbl) :
    CNameServer :=
  mkNs (mRegistryTbl s) i t (mNetInterfaces s) (mHostName s) (mDomainName s)
    (mName s) (mSelfExportableLevel s) (mMaxDomainExportableLevel s)
    (mMinUpstreamExportableLevel s) (mTCPSecure s) (mHostProxyTbl s) (mInstanceIdAllocator s)
    (mPublishers s).
Definition ns_with_hosts (s : CNameServer) (ifs : list CNetInterface) (domain : string)
    (p : smap string bool) : CNameServer :=
  mkNs (mRegistryTbl s) (mIPCAllocator s) (mTCPAllocators s) ifs (mHostName s) domain
    (mName s) (mSelfExportableLevel s) (mMaxDomainExportableLevel s)
    (mMinUpstreamExportableLevel s) (mTCPSecure s) p (mInstanceIdAllocator s) (mPublishers s).
Definition ns_with_instance (s : CNameServer) (id : Z) : CNameServer :=
  mkNs (mRegistryTbl s) (mIPCAllocator s) (mTCPAllocators s) (mNetInterfaces s) (mHostName s)
    (mDomainName s) (mName s) (mSelfExportableLevel s) (mMaxDomainExportableLevel s)
    (mMinUpstreamExportableLevel s) (mTCPSecure s) (mHostProxyTbl s) id (mPublishers s).

(** The server as its constructor leaves it; a negative level means the default. *)
Definition publisher_new (id : Z) : CFdbBaseObject :=
  mkObject 0 id FDB_OBJECT_ROLE_SERVER [] [] [].

Definition publisher_id (t : SubscribeType) : Z :=
  match t with
  | INTRA_NORMAL => 1 | INTRA_MONITOR => 2 | INTER_NORMAL => 3 | INTER_MONITOR => 4
  | MORE_ADDRESS => 5
  end.

Definition CNameServer_new (host_name : string) (self max_domain min_upstream : Z) (secure : bool) :
    CNameServer :=
  let level l := if l <? 0 then FDB_EXPORTABLE_DOMAIN else l in
  mkNs [] CIPCAddressAllocator_new [] [] host_name EmptyString host_name (level self)
    (level max_domain) (level min_upstream) secure [] FDB_AUTO_INSTANCE_BEGIN
    (fun t => publisher_new (publisher_id t)).

(** ** The registry *)

(** A reference to an entry: the keys it is stored under, and its value. *)
Abbreviation tRegistryRef := (string * Z * CSvcRegistryEntry)%type.

Definition refs_of (name : string) (l : list (Z * CSvcRegistryEntry)) : list tRegistryRef :=
  map (fun e => (name, e.1, e.2)) l.

(** [findService(it_name, instance_id, reg_tbl)]: the instances of one name. *)
Definition findService_in (it_name : string * tSvcRegistryTbl) (instance_id : Z) : list tRegistryRef :=
  let '(name, insts) := it_name in
  if fdbIsGroup instance_id then
    if fdbEventInGroup instance_id FDB_EVENT_ALL_GROUPS then refs_of name insts
    else refs_of name (List.filter (fun e => fdbSameGroup instance_id e.1) insts)
  else
    match m_find instance_id insts with Some e => [(name, instance_id, e)] | None => [] end.

(** [findService(svc_name, instance_id, reg_tbl)]: the empty name stands for every
    service; found is a non-empty result. *)
Definition findService (r : tRegistryTbl) (svc_name : string) (instance_id : Z) : list tRegistryRef :=
  if is_empty_str svc_name then flat_map (fun n => findService_in n instance_id) r
  else match m_find svc_name r with
       | Some insts => findService_in (svc_name, insts) instance_id
       | None => []
       end.

Definition found {A} (l : list A) : bool := match l with [] => false | _ => true end.

Definition eraseService (r : tRegistryTbl) (svc_name : string) (instance_id : Z) :
    bool * tRegistryTbl :=
  match m_find svc_name r with
  | Some insts =>
      (bool_decide (is_Some (m_find instance_id insts)),
       m_prune svc_name (m_erase instance_id insts) r)
  | None => (false, r)
  end.

(** The entries in the order the loops over the registry visit them. *)
Definition reg_refs (r : tRegistryTbl) : list tRegistryRef := flat_map (fun n => refs_of n.1 n.2) r.
Definition reg_entries (r : tRegistryTbl) : list CSvcRegistryEntry := map snd (reg_refs r).
Definition reg_addrs (r : tRegistryTbl) : list CFdbAddressDesc := flat_map re_mAddrTbl (reg_entries r).

(** An entry changed through a reference to it. *)
Definition reg_put (r : tRegistryTbl) (name : string) (id : Z) (e : CSvcRegistryEntry) : tRegistryTbl :=
  m_set name (m_set id e (m_at [] name r)) r.
Definition reg_get (r : tRegistryTbl) (name : string) (id : Z) : option CSvcRegistryEntry :=
  m_find name r ≫= m_find id.

Definition findAddress (r : tRegistryTbl) (type : EFdbSocketType) (url : string) :
    option CFdbAddressDesc :=
  List.find (fun d =>
    (bool_decide (type = FDB_SOCKET_MAX) || bool_decide (sa_mType (ad_addr d) = type))
    && bool_decide (ad_url d = url)) (reg_addrs r).

Definition findUDPPort (r : tRegistryTbl) (ip_address : string) (port : Z) : option CFdbAddressDesc :=
  List.find (fun d =>
    negb (bool_decide (sa_mType (ad_addr d) = FDB_SOCKET_IPC))
    && (bool_decide (sa_mAddr (ad_addr d) = ip_address) && (ad_udp d >? 0) && (ad_udp d =? port)))
    (reg_addrs r).

Definition hasPendingAddress (e : CSvcRegistryEntry) : bool :=
  existsb (fun d => bool_decide (ad_mStatus d = ADDR_PENDING)) (re_mAddrTbl e).

Definition addressRegistered (addr_list : list CFdbAddressDesc) (sckt_addr : CFdbSocketAddr) : bool :=
  existsb (fun d => bool_decide (ad_url d = sa_mUrl sckt_addr)) addr_list.

Definition isLocalService (r : tRegistryTbl) (x : CFdbSvcAddress) : bool :=
  existsb (fun e =>
    bool_decide (re_mSvcName e = sv_mSvcName x)
    && existsb (fun d =>
         existsb (fun k => bool_decide (ad_url d = sa_mUrl (inf_mAddress k))) (sv_mAddrTbl x))
         (re_mAddrTbl e)) (reg_entries r).

(** ** Address lists *)

Definition ns_checkExportable (d : CFdbAddressDesc) (max_exported_level : Z) : bool :=
  if ad_level d >? max_exported_level then false
  else if ad_level d =? FDB_EXPORTABLE_NODE_INTERNAL then
    negb (negb (max_exported_level =? FDB_EXPORTABLE_ANY)
          && negb (max_exported_level =? FDB_EXPORTABLE_NODE_INTERNAL))
  else true.

Section lists.
Context {I : Indet}.

Definition populateAddressItem (d : CFdbAddressDesc) (item : FdbMsgAddressItem) : FdbMsgAddressItem :=
  let item := fromSocketAddress item (ad_addr d) in
  let item := set_secure item (sa_mSecure (ad_addr d)) in
  let item := set_exportable_level item (ad_level d) in
  let item := set_interface_id item (ad_if d) in
  if ad_udp d =? FDB_INET_PORT_INVALID then item else set_udp_port item (ad_udp d).

(** [prepareAddress], for both kinds of lists: the items it appends. *)
Definition prepareAddress (d : CFdbAddressDesc) (max_exported_level : Z) : list FdbMsgAddressItem :=
  if ns_checkExportable d max_exported_level
  then [populateAddressItem d FdbMsgAddressItem_new] else [].

Definition add_addresses (l : FdbMsgAddressList) (items : list FdbMsgAddressItem) :
    FdbMsgAddressList := al_set_addresses l (al_mAddressList l ++ items).

Definition populateAddrList (tbl : list CFdbAddressDesc) (type : EFdbSocketType)
    (max_exported_level : Z) : list FdbMsgAddressItem :=
  flat_map (fun d =>
    if (bool_decide (type = FDB_SOCKET_MAX) || bool_decide (type = sa_mType (ad_addr d)))
       && bool_decide (ad_mStatus d = ADDR_BOUND)
    then prepareAddress d max_exported_level else []) tbl.

Definition populateNsAddrList (s : CNameServer) : list FdbMsgAddressItem :=
  match findService (mRegistryTbl s) FDB_NAME_SERVER_NAME FDB_DEFAULT_INSTANCE with
  | [] => []
  | (_, _, entry) :: _ =>
      flat_map (fun d =>
        if negb (bool_decide (sa_mType (ad_addr d) = FDB_SOCKET_IPC))
           && bool_decide (ad_mStatus d = ADDR_BOUND)
           && negb (bool_decide (sa_mAddr (ad_addr d) = FDB_LOCAL_HOST))
        then prepareAddress d (mMaxDomainExportableLevel s) else []) (re_mAddrTbl entry)
  end.

Definition ns_setServiceInfo (s : CNameServer) (l : FdbMsgAddressList) (svc_name endpoint_name : string)
    (is_local : bool) (pid instance_id : Z) : FdbMsgAddressList :=
  mkAddressList svc_name (mHostName s) endpoint_name (mDomainName s) instance_id is_local pid
    (al_mAddressList l) (al_mTokenList l) (al_mOptions l).

Definition setEntryInfo (s : CNameServer) (l : FdbMsgAddressList) (e : CSvcRegistryEntry)
    (is_local : bool) (pid : Z) : FdbMsgAddressList :=
  ns_setServiceInfo s l (c_str (re_mSvcName e)) (c_str (re_mEndpointName e)) is_local pid
    (re_mInstanceId e).

(** The exported services: per entry, its bound addresses of a level that goes
    upstream; an entry without any is left out. *)
Definition export_item (d : CFdbAddressDesc) : FdbMsgAddressItem :=
  set_interface_id
    (set_exportable_level
       (set_udp_port (fromSocketAddress FdbMsgAddressItem_new (ad_addr d)) (ad_udp d))
       (ad_level d)) (ad_if d).

Definition exported (s : CNameServer) (d : CFdbAddressDesc) : bool :=
  negb ((ad_level d <? mMinUpstreamExportableLevel s)
        || negb (bool_decide (ad_mStatus d = ADDR_BOUND))).

Definition populateExportAddrList (s : CNameServer) : list FdbMsgAddressList :=
  flat_map (fun e =>
    match List.filter (exported s) (re_mAddrTbl e) with
    | [] => []
    | descs => [add_addresses (setEntryInfo s FdbMsgAddressList_new e false 0) (map export_item descs)]
    end) (reg_entries (mRegistryTbl s)).
End lists.

(** ** Allocating addresses *)

(** [allocateUDPPort]: the port, [None] when the attempts are used up. *)
Fixpoint udp_loop (retries : nat) (r : tRegistryTbl) (ip_address : string) : option Z :=
  match retries with
  | O => None
  | S retries =>
      let p := udp_allocate in
      match findUDPPort r ip_address p with
      | None => Some p
      | Some _ => udp_loop retries r ip_address
      end
  end.

(** [while (--retries > 0)] with [retries = size + 8]. *)
Definition alloc_retries (r : tRegistryTbl) : nat := length r + 7.

Definition allocateUDPPort (r : tRegistryTbl) (ip_address : string) : option Z :=
  udp_loop (alloc_retries r) r ip_address.

Definition allocateUDPPortForClients (r : tRegistryTbl) (l : FdbMsgAddressList) : FdbMsgAddressList :=
  al_set_addresses l
    (map (fun it =>
       if bool_decide (ai_mType it = FDB_SOCKET_IPC) then it
       else match allocateUDPPort r (ai_mTCPIPCAddress it) with
            | Some p => set_udp_port it p
            | None => it
            end) (al_mAddressList l)).

Section allocate.
Context {A : Type} `{IAddressAllocator A}.

(** The loop of [allocateAddress]: the allocator, the address as it was left and
    the result. *)
Fixpoint alloc_loop (retries : nat) (r : tRegistryTbl) (a : A) (svc_type : FdbServerType)
    (cur : CAllocatedAddress) (secure : bool) : A * CAllocatedAddress * bool :=
  match retries with
  | O => (a, cur, false)
  | S retries =>
      let '(a, cur) := allocate a (aa_mSocketAddr cur) svc_type secure in
      let sckt := aa_mSocketAddr cur in
      if bool_decide (sa_mType sckt = FDB_SOCKET_TCP) && (sa_mPort sckt =? FDB_INET_PORT_AUTO)
      then (a, cur, true)
      else if negb (bool_decide (svc_type = FDB_SVC_USER)) then (a, cur, true)
      else match findAddress r (sa_mType sckt) (sa_mUrl sckt) with
           | None => (a, cur, true)
           | Some _ => alloc_loop retries r a svc_type cur secure
           end
  end.

Definition allocateAddress (r : tRegistryTbl) (a : A) (svc_type : FdbServerType)
    (cur : CAllocatedAddress) (secure : bool) : A * CAllocatedAddress * bool :=
  alloc_loop (alloc_retries r) r a svc_type cur secure.
End allocate.

(** A new element of a [tSocketAddrTbl], value-initialised by [std::vector::resize]. *)
Definition CAllocatedAddress_new : CAllocatedAddress := mkAllocated CFdbSocketAddr_new 0 0.

Section tcp.
Context (env : NsEnv).

Let tcp_if : IAddressAllocator CTCPAddressAllocator := CTCPAddressAllocator_allocator (env_cfg env).

Definition allocate_tcp (r : tRegistryTbl) (a : CTCPAddressAllocator) (t : FdbServerType)
    (cur : CAllocatedAddress) (secure : bool) : CTCPAddressAllocator * CAllocatedAddress * bool :=
  @allocateAddress _ tcp_if r a t cur secure.

(** The body of the loop over the configured networks of a service: the addresses
    it adds. *)
Definition allocate_network (r : tRegistryTbl) (a : CTCPAddressAllocator) (t : FdbServerType)
    (secure : bool) (it : CFdbSocketAddr) : CTCPAddressAllocator * list CAllocatedAddress :=
  if negb (bool_decide (sa_mType it = FDB_SOCKET_TCP)) then (a, [])
  else if negb (bool_decide (sa_mSecure it = secure)) then (a, [])
  else if negb (bool_decide (tcp_mInterfaceIp a = sa_mAddr it)) then (a, [])
  else
    match tcp_allocateKnownAddr (env_cfg env) a CFdbSocketAddr_new t secure with
    | Some known =>
        match findAddress r (sa_mType (aa_mSocketAddr known)) (aa_url known) with
        | Some _ => (a, [])
        | None => (a, [known])
        end
    | None =>
        if sa_mPort it =? FDB_INET_PORT_AUTO then
          let '(a, x, ok) := allocate_tcp r a t CAllocatedAddress_new secure in
          (a, if ok : bool then [x] else [])
        else
          match findAddress r (sa_mType it) (sa_mUrl it) with
          | Some _ => (a, [])
          | None => (a, [mkAllocated it 0 0])
          end
    end.

Fixpoint allocate_networks (r : tRegistryTbl) (a : CTCPAddressAllocator) (t : FdbServerType)
    (secure : bool) (l : list CFdbSocketAddr) : CTCPAddressAllocator * list CAllocatedAddress :=
  match l with
  | [] => (a, [])
  | it :: rest =>
      let '(a, xs) := allocate_network r a t secure it in
      let '(a, ys) := allocate_networks r a t secure rest in
      (a, xs ++ ys)
  end.

(** [allocateTCPAddress(allocator, addr_tbl, sckt_addr_tbl, secure)]. *)
Definition allocateTCPAddress_one (r : tRegistryTbl) (a : CTCPAddressAllocator)
    (e : CSvcRegistryEntry) (secure : bool) : CTCPAddressAllocator * list CAllocatedAddress :=
  match env_network_list env (re_mSvcName e) with
  | [] =>
      let '(a, x, ok) := allocate_tcp r a (re_mSvcType e) CAllocatedAddress_new secure in
      (a, if ok : bool then [x] else [])
  | l => allocate_networks r a (re_mSvcType e) secure l
  end.

Definition allocateTCPAddress_if (r : tRegistryTbl) (a : CTCPAddressAllocator)
    (e : CSvcRegistryEntry) : CTCPAddressAllocator * list CAllocatedAddress :=
  let '(a, xs) :=
    if re_mAllowTcpNormal e then allocateTCPAddress_one r a e false else (a, []) in
  let '(a, ys) :=
    if re_mAllowTcpSecure e then allocateTCPAddress_one r a e true else (a, []) in
  (a, xs ++ ys).

Fixpoint allocateTCPAddress_tbl (r : tRegistryTbl) (tbl : tTCPAllocatorTbl)
    (e : CSvcRegistryEntry) : tTCPAllocatorTbl * list CAllocatedAddress :=
  match tbl with
  | [] => ([], [])
  | (ip, a) :: rest =>
      let '(a, xs) :=
        if re_mExportableLevel e >=? tcp_mExportableLevel a then allocateTCPAddress_if r a e
        else (a, []) in
      let '(rest, ys) := allocateTCPAddress_tbl r rest e in
      ((ip, a) :: rest, xs ++ ys)
  end.

(** ** Interfaces *)

Fixpoint create_loop (ifs : list CNetInterface) (tbl : tTCPAllocatorTbl) : tTCPAllocatorTbl :=
  match ifs with
  | [] => tbl
  | n :: rest =>
      let if_desc := if ni_isIfName n then findByName (env_interfaces env) (ni_mAddress n)
                     else findByIp (env_interfaces env) (ni_mAddress n) in
      let net :=
        match if_desc with
        | Some d => Some (if_mIpAddr d, Some (if_mMask d))
        | None => if ni_isIfName n then None else Some (ni_mAddress n, None)
        end in
      let tbl :=
        match net with
        | Some (ip, mask) =>
            let a := m_at (CTCPAddressAllocator_new (env_cfg env) (env_indet env)) ip tbl in
            m_set ip (tcp_set a ip (default (tcp_mMask a) mask) (ni_mExportableLevel n)
                        (ni_mInterfaceId n)) tbl
        | None => tbl
        end in
      create_loop rest tbl
  end.

Definition createTCPAllocator (ifs : list CNetInterface) (tbl : tTCPAllocatorTbl) : tTCPAllocatorTbl :=
  let tbl := create_loop ifs tbl in
  if m_empty tbl then
    let a := CTCPAddressAllocator_new (env_cfg env) (env_indet env) in
    m_set FDB_IP_ALL_INTERFACE
      (tcp_set a FDB_IP_ALL_INTERFACE (tcp_mMask a) FDB_EXPORTABLE_DOMAIN FDB_INVALID_ID) tbl
  else tbl.

(** [allocateTCPAddress(addr_tbl, sckt_addr_tbl)]: the host server gets a table of
    its own. *)
Definition allocateTCPAddress (s : CNameServer) (e : CSvcRegistryEntry) :
    CNameServer * list CAllocatedAddress :=
  if bool_decide (re_mSvcType e = FDB_SVC_HOST_SERVER) then
    let tbl := createTCPAllocator (mNetInterfaces s) [] in
    (s, (allocateTCPAddress_tbl (mRegistryTbl s) tbl e).2)
  else
    let '(tbl, xs) := allocateTCPAddress_tbl (mRegistryTbl s) (mTCPAllocators s) e in
    (ns_with_allocators s (mIPCAllocator s) tbl, xs).

Definition allocateIPCAddress (s : CNameServer) (e : CSvcRegistryEntry) :
    CNameServer * list CAllocatedAddress :=
  let '(a, x, ok) :=
    allocateAddress (mRegistryTbl s) (mIPCAllocator s) (re_mSvcType e) CAllocatedAddress_new false in
  (ns_with_allocators s a (mTCPAllocators s), if ok : bool then [x] else []).

(** ** Addresses of a service *)

Let ns_indet : Indet := env_indet env.
#[local] Existing Instance ns_indet.

(** The loop of [addOneServiceAddress]: the entry keyed [name], [id] gets the
    addresses it does not have yet. *)
Fixpoint add_allocated (s : CNameServer) (name : string) (id : Z) (e : CSvcRegistryEntry)
    (xs : list CAllocatedAddress) (l : option FdbMsgAddressList) :
    CNameServer * CSvcRegistryEntry * option FdbMsgAddressList :=
  match xs with
  | [] => (s, e, l)
  | x :: rest =>
      if addressRegistered (re_mAddrTbl e) (aa_mSocketAddr x)
      then add_allocated s name id e rest l
      else
        let udp :=
          if bool_decide (sa_mType (aa_mSocketAddr x) = FDB_SOCKET_IPC) then FDB_INET_PORT_INVALID
          else default FDB_INET_PORT_INVALID
                 (allocateUDPPort (mRegistryTbl s) (sa_mAddr (aa_mSocketAddr x))) in
        let d := mkAddressDesc
                   (mkAddrInfo (aa_mSocketAddr x) udp (aa_mExportableLevel x) (aa_mInterfaceId x))
                   ADDR_PENDING 0 in
        let e := re_set_addrs e (re_mAddrTbl e ++ [d]) in
        let s := ns_with_registry s (reg_put (mRegistryTbl s) name id e) in
        let l := (fun l => add_addresses l (prepareAddress d FDB_EXPORTABLE_ANY)) <$> l in
        add_allocated s name id e rest l
  end.

Definition addOneServiceAddress (s : CNameServer) (name : string) (id : Z) (e : CSvcRegistryEntry)
    (inet_address : bool) (l : option FdbMsgAddressList) :
    CNameServer * CSvcRegistryEntry * option FdbMsgAddressList :=
  let '(s, xs) := if inet_address then allocateTCPAddress s e else allocateIPCAddress s e in
  add_allocated s name id e xs l.

Definition addServiceAddress (s : CNameServer) (name : string) (id : Z) (e : CSvcRegistryEntry)
    (inet_only : bool) (l : option FdbMsgAddressList) :
    CNameServer * CSvcRegistryEntry * option FdbMsgAddressList :=
  let l := (fun l =>
    setEntryInfo s l e true
      (if bool_decide (re_mSvcName e = FDB_NAME_SERVER_NAME) then env_pid env else 0)) <$> l in
  let '(s, e, l) := if inet_only then (s, e, l) else addOneServiceAddress s name id e false l in
  addOneServiceAddress s name id e true l.
End tcp.

(** ** Announcing services *)

Section announce.
Context (env : NsEnv).
Let ns_indet : Indet := env_indet env.
#[local] Existing Instance ns_indet.

(** The tokens up to a level, the level cut to the last token. *)
Definition clamp_level (tokens : list string) (level : Z) : Z :=
  if level >=? Z.of_nat (length tokens) then Z.of_nat (length tokens) - 1 else level.

(** A remote name server gets every token up to its level. *)
Definition populateTokensRemote (tokens : list string) (l : FdbMsgAddressList) (session : Z) :
    FdbMsgAddressList :=
  let level := env_remote_level env session in
  if (level >=? 0) && negb (Z.of_nat (length tokens) =? 0)
  then al_set_tokens l (map c_str (take (Z.to_nat (clamp_level tokens level + 1)) tokens))
  else al_set_tokens l [].

(** A local client gets the one token of its level. *)
Definition populateTokensLocal (tokens : list string) (l : FdbMsgAddressList) (session : Z) :
    FdbMsgAddressList :=
  let level := env_security_level env session (c_str (al_mServiceName l)) in
  if (level >=? 0) && negb (Z.of_nat (length tokens) =? 0)
  then al_set_tokens l (map c_str (take 1 (drop (Z.to_nat (clamp_level tokens level)) tokens)))
  else al_set_tokens l [].

Definition clear_tokens (l : FdbMsgAddressList) : FdbMsgAddressList := al_set_tokens l [].

(** The sessions subscribed at a publisher to a service, in the order of the set. *)
Definition subscribers (s : CNameServer) (pub : SubscribeType) (l : FdbMsgAddressList) : list Z :=
  map fst (obj_getSubscribeTable_topic (mPublishers s pub) (al_mInstanceId l)
             (Some (c_str (al_mServiceName l))) []).

(** [broadcastSvcAddrLocal(tokens, addr_list, session)]: the list as it is left,
    and what is sent. *)
Definition broadcastSvcAddrLocal_to (s : CNameServer) (tokens : list string)
    (l : FdbMsgAddressList) (session : Z) : FdbMsgAddressList * NsOut :=
  let l := populateTokensLocal tokens l session in
  let l := allocateUDPPortForClients (mRegistryTbl s) l in
  (clear_tokens l,
   OutBroadcastTo INTRA_NORMAL session (al_mInstanceId l) l (c_str (al_mServiceName l))).

Definition broadcastSvcAddrRemote_to (tokens : list string) (l : FdbMsgAddressList) (session : Z) :
    FdbMsgAddressList * NsOut :=
  let l := populateTokensRemote tokens l session in
  (clear_tokens l,
   OutBroadcastTo INTER_NORMAL session (al_mInstanceId l) l (c_str (al_mServiceName l))).

Fixpoint broadcast_sessions_to (send : FdbMsgAddressList -> Z -> FdbMsgAddressList * NsOut)
    (l : FdbMsgAddressList) (sessions : list Z) : FdbMsgAddressList * list NsOut :=
  match sessions with
  | [] => (l, [])
  | x :: rest =>
      let '(l, out) := send l x in
      let '(l, outs) := broadcast_sessions_to send l rest in
      (l, out :: outs)
  end.

Definition broadcastSvcAddrLocal (s : CNameServer) (tokens : list string) (l : FdbMsgAddressList) :
    FdbMsgAddressList * list NsOut :=
  broadcast_sessions_to (broadcastSvcAddrLocal_to s tokens) l (subscribers s INTRA_NORMAL l).

Definition broadcastSvcAddrRemote (s : CNameServer) (tokens : list string) (l : FdbMsgAddressList) :
    FdbMsgAddressList * list NsOut :=
  broadcast_sessions_to (broadcastSvcAddrRemote_to tokens) l (subscribers s INTER_NORMAL l).

Definition getSocketType (sid : Z) : EFdbSocketType := default FDB_SOCKET_TCP (env_socket_type env sid).

(** Is the session of the subscribing message still there? *)
Definition has_session (sid : Z) : bool := bool_decide (is_Some (env_socket_type env sid)).

(** [broadServiceAddress]: a service to the session that just subscribed to it. *)
Definition broadServiceAddress (s : CNameServer) (e : CSvcRegistryEntry) (session : Z)
    (t : SubscribeType) : list NsOut :=
  if bool_decide (t = INTER_NORMAL) && bool_decide (re_mSvcName e = FDB_NAME_SERVER_NAME) then []
  else if hasPendingAddress e then []
  else
    let monitor := bool_decide (t = INTRA_MONITOR) || bool_decide (t = INTER_MONITOR) in
    let skt_type := if monitor then FDB_SOCKET_MAX else getSocketType session in
    let level := if monitor then FDB_EXPORTABLE_ANY
                 else if bool_decide (t = INTRA_NORMAL) then FDB_EXPORTABLE_NODE_INTERNAL
                 else mMaxDomainExportableLevel s in
    let items := populateAddrList (re_mAddrTbl e) skt_type level in
    let items :=
      if bool_decide (skt_type = FDB_SOCKET_IPC) && negb (found items)
      then populateAddrList (re_mAddrTbl e) FDB_SOCKET_TCP (mMaxDomainExportableLevel s)
      else items in
    if negb (found items) then []
    else
      let is_local := negb (bool_decide (t = INTER_NORMAL) || bool_decide (t = INTER_MONITOR)) in
      let l := setEntryInfo s (add_addresses FdbMsgAddressList_new items) e is_local 0 in
      if bool_decide (t = INTRA_NORMAL) then
        let l := allocateUDPPortForClients (mRegistryTbl s) (populateTokensLocal (re_mTokens e) l session) in
        if has_session session then [OutNotify (al_mInstanceId l) l (c_str (al_mServiceName l))] else []
      else if bool_decide (t = INTER_NORMAL) then
        let l := populateTokensRemote (re_mTokens e) l session in
        if has_session session then [OutNotify (al_mInstanceId l) l (c_str (al_mServiceName l))] else []
      else [OutNotify (re_mInstanceId e) l (c_str (re_mSvcName e))].

(** [onServiceOnlineReg]: the services of this host, those the host proxies know,
    and the subscription passed on to the other hosts ([None]: the static ones). *)
Definition onServiceOnlineReg (s : CNameServer) (svc_name : string) (instance_id session : Z)
    (t : SubscribeType) : list NsOut :=
  let proxies := map fst (mHostProxyTbl s) in
  flat_map (fun ref => broadServiceAddress s ref.2 session t)
    (findService (mRegistryTbl s) svc_name instance_id)
  ++ map (fun p => OutProxyBroadcast p t instance_id svc_name) proxies
  ++ if bool_decide (t = INTER_NORMAL) || bool_decide (t = INTER_MONITOR) then []
     else if bool_decide (FDB_NAME_SERVER_NAME = svc_name) then []
     else map (fun p => OutForwardListener (Some p) t instance_id svc_name) proxies
          ++ [OutForwardListener None t instance_id svc_name].

(** ** Choosing addresses for an announcement *)

(** The last IPC address, the loopback addresses and the all-interface ones. *)
Definition best_local_ipc (tbl : list CFdbAddressDesc) : option CFdbAddressDesc :=
  last (List.filter (fun d => bool_decide (sa_mType (ad_addr d) = FDB_SOCKET_IPC)) tbl).
Definition is_tcp_at (ip : string) (d : CFdbAddressDesc) : bool :=
  negb (bool_decide (sa_mType (ad_addr d) = FDB_SOCKET_IPC))
  && bool_decide (sa_mAddr (ad_addr d) = ip).
Definition is_remote_tcp (d : CFdbAddressDesc) : bool :=
  negb (bool_decide (sa_mType (ad_addr d) = FDB_SOCKET_IPC))
  && negb (bool_decide (sa_mAddr (ad_addr d) = FDB_LOCAL_HOST)).

(** The deep copy of an all-interface address with the loopback address in it. *)
Definition at_loopback (d : CFdbAddressDesc) : CFdbAddressDesc :=
  let a := ad_addr d in
  let a := socket_addr_buildUrl
             (mkSocketAddr (sa_mUrl a) (sa_mType a) FDB_LOCAL_HOST (sa_mAddrDigit a) (sa_mPort a)
                (sa_mSecure a)) in
  mkAddressDesc (mkAddrInfo a (ad_udp d) (ad_level d) (ad_if d)) (ad_mStatus d) (ad_mRebindCount d).

(** [prepareAddressesToNotify]: the best local URL and the lists for local
    clients, for remote hosts and for monitors. *)
Definition prepareAddressesToNotify (s : CNameServer) (e : CSvcRegistryEntry) :
    string * FdbMsgAddressList * FdbMsgAddressList * FdbMsgAddressList :=
  let tbl := re_mAddrTbl e in
  let local0 := setEntryInfo s FdbMsgAddressList_new e true 0 in
  let remote0 := setEntryInfo s FdbMsgAddressList_new e false 0 in
  let all0 := setEntryInfo s FdbMsgAddressList_new e true 0 in
  let all := add_addresses all0 (flat_map (fun d => prepareAddress d FDB_EXPORTABLE_ANY) tbl) in
  let remote := add_addresses remote0
    (flat_map (fun d => if is_remote_tcp d then prepareAddress d (mMaxDomainExportableLevel s) else []) tbl) in
  let loopback := List.filter (is_tcp_at FDB_LOCAL_HOST) tbl in
  let all_if := List.filter (is_tcp_at FDB_IP_ALL_INTERFACE) tbl in
  let urls secure pick (ds : list CFdbAddressDesc) :=
    default EmptyString (ad_url <$> pick (List.filter (fun d => bool_decide (sa_mSecure (ad_addr d) = secure)) ds)) in
  let '(local, ipc_url, normal_url, secure_url) :=
    match best_local_ipc tbl with
    | Some d =>
        (add_addresses local0 (prepareAddress d FDB_EXPORTABLE_NODE_INTERNAL), ad_url d, EmptyString, EmptyString)
    | None =>
        match loopback with
        | _ :: _ =>
            (add_addresses local0 (flat_map (fun d => prepareAddress d FDB_EXPORTABLE_NODE_INTERNAL) loopback),
             EmptyString, urls false last loopback, urls true last loopback)
        | [] =>
            let copies := map at_loopback all_if in
            (add_addresses local0 (flat_map (fun d => prepareAddress d FDB_EXPORTABLE_DOMAIN) copies),
             EmptyString, urls false (@head _) copies, urls true (@head _) copies)
        end
    end in
  let best :=
    if negb (is_empty_str ipc_url) then ipc_url
    else if negb (is_empty_str secure_url) then secure_url
    else normal_url in
  (best, local, remote, clear_tokens all).
End announce.

(** ** Handlers *)

Section handlers.
Context (env : NsEnv).
Let ns_indet : Indet := env_indet env.
#[local] Existing Instance ns_indet.

(** The loop that picks an instance id of a group; [None]: the fuel ran out,
    [Some None]: there is no free id. *)
Fixpoint instance_loop (fuel : nat) (r : tRegistryTbl) (svc_name : string) (instance_id : Z)
    (allocator : Z) (wrap : bool) : option (Z * option Z) :=
  match fuel with
  | O => None
  | S fuel =>
      let next_id := allocator in
      let allocator := u32 (allocator + 1) in
      if next_id >? FDB_AUTO_INSTANCE_END then
        let allocator := FDB_AUTO_INSTANCE_BEGIN in
        if wrap then Some (allocator, None)
        else instance_loop fuel r svc_name instance_id allocator true
      else
        let instance_id := i32 (fdbMergeEventCode instance_id next_id) in
        if found (findService r svc_name instance_id)
        then instance_loop fuel r svc_name instance_id allocator wrap
        else Some (allocator, Some instance_id)
  end.

(** Two passes over the ids, and the two times the counter runs over. *)
Definition instance_fuel : nat :=
  Z.to_nat (2 * (FDB_AUTO_INSTANCE_END - FDB_AUTO_INSTANCE_BEGIN + 1) + 3).

(** The registration proper, once the instance id is known; [tokens] is what
    [CFdbToken::allocateToken] draws. *)
Definition alloc_service (s : CNameServer) (sid : Z) (req : FdbMsgServerName)
    (tokens : list string) (instance_id : Z) : CNameServer * list NsOut :=
  let svc_name := c_str (sn_mName req) in
  let old := default CSvcRegistryEntry_new (reg_get (mRegistryTbl s) svc_name instance_id) in
  let e := mkEntry sid (re_mAddrTbl old) tokens (sn_has_flag req FDB_NS_ALLOW_TCP_SECURE)
             (sn_has_flag req FDB_NS_ALLOW_TCP_NORMAL) (sn_mExportableLevel req)
             (sn_mEndpointName req) svc_name (getSvcType svc_name) instance_id in
  let s := ns_with_registry s (reg_put (mRegistryTbl s) svc_name instance_id e) in
  let reply := populateTokens FdbMsgAddressList_new tokens in
  let '(s, _, reply) := addServiceAddress env s svc_name instance_id e false (Some reply) in
  let reply := default FdbMsgAddressList_new reply in
  if found (al_mAddressList reply) then (s, [OutReply reply])
  else (s, [OutStatus FDB_ST_NOT_AVAILABLE]).

(** [onAllocServiceAddressReq], [None] for a request that does not decode. *)
Definition onAllocServiceAddressReq (s : CNameServer) (sid : Z) (req : option FdbMsgServerName)
    (tokens : list string) : option (CNameServer * list NsOut) :=
  match req with
  | None => Some (s, [OutStatus FDB_ST_MSG_DECODE_FAIL])
  | Some req =>
      let svc_name := c_str (sn_mName req) in
      let instance_id := sn_mInstanceId req in
      if fdbIsGroup instance_id then
        '(allocator, id) ← instance_loop instance_fuel (mRegistryTbl s) svc_name instance_id
                             (mInstanceIdAllocator s) false;
        let s := ns_with_instance s allocator in
        match id with
        | None => Some (s, [OutStatus FDB_ST_NO_RESOURCE])
        | Some id => Some (alloc_service s sid req tokens id)
        end
      else if found (findService (mRegistryTbl s) svc_name instance_id)
      then Some (s, [OutStatus FDB_ST_ALREADY_EXIST])
      else Some (alloc_service s sid req tokens instance_id)
  end.

(** ** Registration *)

Definition d_with (d : CFdbAddressDesc) (a : CFdbSocketAddr) (udp level id : Z) (rebind : Z) :
    CFdbAddressDesc :=
  mkAddressDesc (mkAddrInfo a udp level id) (ad_mStatus d) rebind.

(** An address for the descriptor [d] from the allocator of its kind: the new
    state, the address and whether there is one; [None] when no allocator serves
    the interface. *)
Definition rebind_alloc (s : CNameServer) (e : CSvcRegistryEntry) (d : CFdbAddressDesc) :
    option (CNameServer * CAllocatedAddress * bool) :=
  let a := ad_addr d in
  let secure := sa_mSecure a in
  if bool_decide (sa_mType a = FDB_SOCKET_IPC) then
    let '(i, x, ok) :=
      allocateAddress (mRegistryTbl s) (mIPCAllocator s) (re_mSvcType e) CAllocatedAddress_new secure in
    Some (ns_with_allocators s i (mTCPAllocators s), x, ok)
  else
    match m_find (sa_mAddr a) (mTCPAllocators s) with
    | Some t =>
        let '(t, x, ok) := allocate_tcp env (mRegistryTbl s) t (re_mSvcType e) CAllocatedAddress_new secure in
        Some (ns_with_allocators s (mIPCAllocator s) (m_set (sa_mAddr a) t (mTCPAllocators s)), x, ok)
    | None =>
        if bool_decide (re_mSvcName e = FDB_HOST_SERVER_NAME) then
          t ← m_find (sa_mAddr a) (createTCPAllocator env (mNetInterfaces s) []);
          let '(_, x, ok) := allocate_tcp env (mRegistryTbl s) t (re_mSvcType e) CAllocatedAddress_new secure in
          Some (s, x, ok)
        else None
    end.

Definition rebindToAddress (s : CNameServer) (e : CSvcRegistryEntry) (d : CFdbAddressDesc) :
    bool * CFdbAddressDesc * CNameServer * list NsOut :=
  let abandon (d : CFdbAddressDesc) (s : CNameServer) :=
    (false, d_with d (ad_addr d) (ad_udp d) (ad_level d) (ad_if d) 0, s, []) in
  if ad_mRebindCount d >=? cfg_mAddressBindRetryCnt (env_cfg env) then abandon d s
  else
    let count := ad_mRebindCount d + 1 in
    match rebind_alloc s e d with
    | None => abandon d s
    | Some (s', x, ok) =>
        let udp := if bool_decide (sa_mType (ad_addr d) = FDB_SOCKET_IPC) then FDB_INET_PORT_INVALID
                   else default FDB_INET_PORT_INVALID
                          (allocateUDPPort (mRegistryTbl s) (sa_mAddr (ad_addr d))) in
        let level := aa_mExportableLevel x in
        let id := aa_mInterfaceId x in
        if ok : bool then
          let '(parsed, a) := parseUrl (Some (aa_url x)) (ad_addr d) in
          if parsed : bool then
            let d := d_with d a udp level id count in
            let item := fromSocketAddress FdbMsgAddressItem_new (aa_mSocketAddr x) in
            let item := set_interface_id (set_exportable_level (set_secure item (sa_mSecure a)) level) id in
            let item := if udp =? FDB_INET_PORT_INVALID then item else set_udp_port item udp in
            let l := setEntryInfo s' (add_addresses FdbMsgAddressList_new [item]) e true 0 in
            (true, d, s', [OutBroadcast MORE_ADDRESS (al_mInstanceId l) l (c_str (re_mSvcName e))])
          else abandon (d_with d a (ad_udp d) level id count) s'
        else abandon (d_with d (ad_addr d) (ad_udp d) level id count) s'
    end.

(** The position and the value of the first address with a URL. *)
Definition find_url (tbl : list CFdbAddressDesc) (url : string) : option (nat * CFdbAddressDesc) :=
  list_find (fun d => ad_url d = url) tbl.

(** One bind result of a register request. *)
Definition register_item (s : CNameServer) (name : string) (id : Z) (e : CSvcRegistryEntry)
    (news : list CFdbAddressDesc) (m : FdbAddrBindStatus) :
    CNameServer * CSvcRegistryEntry * list CFdbAddressDesc * list NsOut :=
  let put s e := ns_with_registry s (reg_put (mRegistryTbl s) name id e) in
  match find_url (re_mAddrTbl e) (bs_mRequestAddr m) with
  | Some (i, d) =>
      if is_empty_str (bs_mBindAddr m) then
        if bool_decide (ad_mStatus d = ADDR_BOUND) then (s, e, news, [])
        else
          let '(ok, d, s, outs) := rebindToAddress s e d in
          let tbl := if ok : bool then <[i := d]> (re_mAddrTbl e) else delete i (re_mAddrTbl e) in
          let e := re_set_addrs e tbl in
          (put s e, e, news, outs)
      else
        let a := ad_addr d in
        let a :=
          if negb (bool_decide (sa_mType a = FDB_SOCKET_IPC))
             && negb (bool_decide (bs_mBindAddr m = sa_mUrl a))
          then let '(ok, b) := parseUrl (Some (c_str (bs_mBindAddr m))) CFdbSocketAddr_new in
               if ok : bool then b else a
          else a in
        let d := mkAddressDesc (mkAddrInfo a (bs_mUDPPort m) (ad_level d) (ad_if d)) ADDR_BOUND
                   (ad_mRebindCount d) in
        let e := re_set_addrs e (<[i := d]> (re_mAddrTbl e)) in
        (put s e, e, news, [])
  | None =>
      let '(ok, a) := parseUrl (Some (c_str (bs_mBindAddr m))) CFdbSocketAddr_new in
      let news :=
        if ok : bool
        then news ++ [mkAddressDesc (mkAddrInfo a FDB_INET_PORT_INVALID FDB_EXPORTABLE_DOMAIN FDB_INVALID_ID)
                        ADDR_BOUND 0]
        else news in
      (s, e, news, [])
  end.

Fixpoint register_items (s : CNameServer) (name : string) (id : Z) (e : CSvcRegistryEntry)
    (news : list CFdbAddressDesc) (ms : list FdbAddrBindStatus) :
    CNameServer * CSvcRegistryEntry * list CFdbAddressDesc * list NsOut :=
  match ms with
  | [] => (s, e, news, [])
  | m :: rest =>
      let '(s, e, news, outs) := register_item s name id e news m in
      let '(s, e, news, outs') := register_items s name id e news rest in
      (s, e, news, outs ++ outs')
  end.

Definition connectToHostServer (s : CNameServer) (hs_url : string) (is_local : bool) :
    CNameServer * list NsOut :=
  if is_empty_str hs_url then (s, [])
  else
    (ns_with_hosts s (mNetInterfaces s) (mDomainName s) (m_insert hs_url is_local (mHostProxyTbl s)),
     [OutConnectHost hs_url]).

Definition postSvcTable (s : CNameServer) : list NsOut :=
  let t := mkExportableSvcAddress (populateExportAddrList s) in
  map (fun p => OutPostSvcTable p.1 t) (mHostProxyTbl s).

(** The announcements of a service all of whose addresses are bound. *)
Definition announce_service (s : CNameServer) (svc_name : string) (instance_id : Z)
    (e : CSvcRegistryEntry) : CNameServer * list NsOut :=
  let '(best, local, remote, all) := prepareAddressesToNotify env s e in
  let '(s, outs0) :=
    if bool_decide (svc_name = FDB_HOST_SERVER_NAME) && negb (is_empty_str best)
    then connectToHostServer s best true else (s, []) in
  let outs1 :=
    if found (al_mAddressList all)
    then [OutBroadcast INTRA_MONITOR instance_id (set_is_local all true) (c_str svc_name);
          OutBroadcast INTER_MONITOR instance_id (set_is_local all false) (c_str svc_name)]
    else [] in
  let outs2 :=
    if found (al_mAddressList local) then (broadcastSvcAddrLocal env s (re_mTokens e) local).2 else [] in
  let outs3 :=
    if found (al_mAddressList remote) then (broadcastSvcAddrRemote env s (re_mTokens e) remote).2 else [] in
  (s, outs0 ++ outs1 ++ outs2 ++ outs3 ++ postSvcTable s).

Definition onRegisterServiceReq (s : CNameServer) (sid : Z) (req : option FdbMsgAddrBindResults) :
    CNameServer * list NsOut :=
  match req with
  | None => (s, [OutStatus FDB_ST_MSG_DECODE_FAIL])
  | Some req =>
      let svc_name := br_mServiceName req in
      let instance_id := br_mInstanceId req in
      if fdbIsGroup instance_id then (s, [OutStatus FDB_ST_BAD_PARAMETER])
      else
        match findService (mRegistryTbl s) (c_str svc_name) instance_id with
        | [] => (s, [OutStatus FDB_ST_NON_EXIST])
        | (name, id, entry) :: _ =>
            match br_mAddrList req with
            | [] => (ns_with_registry s (eraseService (mRegistryTbl s) (c_str svc_name) instance_id).2, [])
            | items =>
                let entry := re_set_sid entry sid in
                let s := ns_with_registry s (reg_put (mRegistryTbl s) name id entry) in
                let '(s, entry, news, outs) := register_items s name id entry [] items in
                let entry := re_set_addrs entry (re_mAddrTbl entry ++ news) in
                let s := ns_with_registry s (reg_put (mRegistryTbl s) name id entry) in
                if hasPendingAddress entry then (s, outs)
                else let '(s, outs') := announce_service s svc_name instance_id entry in (s, outs ++ outs')
            end
        end
  end.

(** ** Removal *)

Definition removeService (s : CNameServer) (svc_name : string) (instance_id : Z) :
    bool * CNameServer * list NsOut :=
  match findService (mRegistryTbl s) svc_name instance_id with
  | [] => (false, s, [])
  | (_, _, e) :: _ =>
      let l := setEntryInfo s FdbMsgAddressList_new e true 0 in
      let '(l, outs1) := broadcastSvcAddrLocal env s (re_mTokens e) l in
      let l := clear_tokens l in
      let out2 := OutBroadcast INTRA_MONITOR instance_id l svc_name in
      let l := set_is_local l false in
      let '(l, outs3) := broadcastSvcAddrRemote env s (re_mTokens e) l in
      let l := clear_tokens l in
      let out4 := OutBroadcast INTER_MONITOR instance_id l svc_name in
      let unbind := existsb (fun d =>
        (ad_level d >? FDB_EXPORTABLE_NODE_INTERNAL) && bool_decide (ad_mStatus d = ADDR_BOUND))
        (re_mAddrTbl e) in
      let '(ret, r) := eraseService (mRegistryTbl s) svc_name instance_id in
      let s := ns_with_registry s r in
      (ret, s, outs1 ++ [out2] ++ outs3 ++ [out4] ++ if unbind then postSvcTable s else [])
  end.

Definition onUnegisterServiceReq (s : CNameServer) (req : option FdbMsgServerName) :
    CNameServer * list NsOut :=
  match req with
  | None => (s, [OutStatus FDB_ST_MSG_DECODE_FAIL])
  | Some req =>
      if fdbIsGroup (sn_mInstanceId req) then (s, [OutStatus FDB_ST_BAD_PARAMETER])
      else let '(_, s, outs) := removeService s (c_str (sn_mName req)) (sn_mInstanceId req) in (s, outs)
  end.

(** ** The server's own addresses *)

(** [bindNsAddress]: binds what is not bound yet and drops what cannot be bound. *)
Fixpoint bindNsAddress (tbl : list CFdbAddressDesc) : list CFdbAddressDesc * bool :=
  match tbl with
  | [] => ([], true)
  | d :: rest =>
      let '(rest, success) := bindNsAddress rest in
      if bool_decide (ad_mStatus d = ADDR_BOUND) then (d :: rest, success)
      else
        match env_bind env (ad_url d) with
        | Some port =>
            let udp := if port >? FDB_INET_PORT_AUTO then port else FDB_INET_PORT_INVALID in
            (mkAddressDesc (mkAddrInfo (ad_addr d) udp (ad_level d) (ad_if d)) ADDR_BOUND
               (ad_mRebindCount d) :: rest, success)
        | None => (rest, false)
        end
  end.

Definition importNetInterface (s : CNameServer) (net_interface : string) : CNameServer :=
  if is_empty_str net_interface then s
  else
    let '(addr, level, id) :=
      match String.index 0 "+" net_interface with
      | None => (net_interface, FDB_EXPORTABLE_DOMAIN, FDB_INVALID_ID)
      | Some pos =>
          let property := str_drop (pos + 1) net_interface in
          let addr := String.substring 0 pos net_interface in
          match String.index 0 "+" property with
          | None => (addr, default FDB_EXPORTABLE_DOMAIN (stoi_base 10 property), FDB_INVALID_ID)
          | Some pos_id =>
              (addr, default FDB_EXPORTABLE_DOMAIN (stoi_base 10 (String.substring 0 pos_id property)),
               default FDB_INVALID_ID (stoi_base 10 (str_drop (pos_id + 1) property)))
          end
      end in
    ns_with_hosts s (mNetInterfaces s ++ [mkNetInterface addr level id (negb (env_valid_ip env addr))])
      (mDomainName s) (mHostProxyTbl s).

(** The loop of [onHostOnline]: every service but the host server gets addresses
    on the interfaces that came up. *)
Fixpoint host_online_loop (s : CNameServer) (keys : list (string * Z)) : CNameServer * list NsOut :=
  match keys with
  | [] => (s, [])
  | (name, id) :: rest =>
      let '(s, outs) :=
        match reg_get (mRegistryTbl s) name id with
        | None => (s, [])
        | Some e =>
            if bool_decide (re_mSvcName e = FDB_HOST_SERVER_NAME) then (s, [])
            else
              let '(s, e, l) := addServiceAddress env s name id e true (Some FdbMsgAddressList_new) in
              let l := default FdbMsgAddressList_new l in
              if found (al_mAddressList l) then
                if negb (bool_decide (re_mSvcName e = FDB_NAME_SERVER_NAME))
                then (s, [OutBroadcast MORE_ADDRESS (re_mInstanceId e) l (c_str (re_mSvcName e))])
                else
                  let e := re_set_addrs e (bindNsAddress (re_mAddrTbl e)).1 in
                  (ns_with_registry s (reg_put (mRegistryTbl s) name id e), [])
              else (s, [])
        end in
      let '(s, outs') := host_online_loop s rest in
      (s, outs ++ outs')
  end.

(** [onHostOnline]: [host] is the proxy, whether it is local and its domain. *)
Definition onHostOnline (s : CNameServer) (online local : bool) (domain : string) :
    CNameServer * list NsOut :=
  if negb online then (s, [])
  else if negb (m_empty (mTCPAllocators s)) then (s, [])
  else
    let s := if local then ns_with_hosts s (mNetInterfaces s) domain (mHostProxyTbl s) else s in
    let s := ns_with_allocators s (mIPCAllocator s)
               (createTCPAllocator env (mNetInterfaces s) (mTCPAllocators s)) in
    host_online_loop s (map fst (reg_refs (mRegistryTbl s))).

Fixpoint connect_hosts (s : CNameServer) (urls : list string) : CNameServer * list NsOut :=
  match urls with
  | [] => (s, [])
  | u :: rest =>
      let '(s, outs) := connectToHostServer s u false in
      let '(s, outs') := connect_hosts s rest in
      (s, outs ++ outs')
  end.

Definition static_hosts (urls : list string) : list NsOut :=
  flat_map (fun u =>
    let '(ok, a) := parseUrl (Some u) CFdbSocketAddr_new in
    if ok && bool_decide (sa_mType a = FDB_SOCKET_TCP) then [OutStaticHost (sa_mAddr a) u] else []) urls.

Record COnlineParams := mkOnlineParams {
  op_hosts : list string;
  op_interfaces : list string;
  op_static : list string;
  op_force_bind : bool }.

Definition online (s : CNameServer) (params : COnlineParams) (tokens : list string) :
    bool * CNameServer * list NsOut :=
  let s := foldl importNetInterface s (op_interfaces params) in
  let s := if op_force_bind params
           then ns_with_allocators s (mIPCAllocator s)
                  (createTCPAllocator env (mNetInterfaces s) (mTCPAllocators s))
           else s in
  let name := FDB_NAME_SERVER_NAME in
  let id := FDB_DEFAULT_INSTANCE in
  let old := default CSvcRegistryEntry_new (reg_get (mRegistryTbl s) name id) in
  let e := mkEntry FDB_INVALID_ID (re_mAddrTbl old) tokens (mTCPSecure s) true
             (mSelfExportableLevel s) (mName s) name (getSvcType name) (re_mInstanceId old) in
  let s := ns_with_registry s (reg_put (mRegistryTbl s) name id e) in
  let '(s, e, _) := addServiceAddress env s name id e false None in
  let '(tbl, success) := bindNsAddress (re_mAddrTbl e) in
  let s := ns_with_registry s (reg_put (mRegistryTbl s) name id (re_set_addrs e tbl)) in
  if negb success then (false, s, [])
  else
    let '(s, outs) := connect_hosts s (op_hosts params) in
    (true, s, outs ++ static_hosts (op_static params)).

(** One scan of [onOffline] over the registry: it stops at the first service of
    the session it can remove. *)
Fixpoint offline_scan (s : CNameServer) (sid : Z) (es : list CSvcRegistryEntry) :
    bool * CNameServer * list NsOut :=
  match es with
  | [] => (false, s, [])
  | e :: rest =>
      if re_mSid e =? sid then
        let '(rescan, s, outs) := removeService s (c_str (re_mSvcName e)) (re_mInstanceId e) in
        if rescan : bool then (true, s, outs)
        else let '(b, s, outs') := offline_scan s sid rest in (b, s, outs ++ outs')
      else offline_scan s sid rest
  end.

Fixpoint offline_loop (fuel : nat) (s : CNameServer) (sid : Z) : option (CNameServer * list NsOut) :=
  match fuel with
  | O => None
  | S fuel =>
      let '(rescan, s, outs) := offline_scan s sid (reg_entries (mRegistryTbl s)) in
      if rescan : bool then
        '(s, outs') ← offline_loop fuel s sid; Some (s, outs ++ outs')
      else Some (s, outs)
  end.

(** Each round but the last removes one entry. *)
Definition onOffline (s : CNameServer) (sid : Z) : option (CNameServer * list NsOut) :=
  offline_loop (S (length (reg_entries (mRegistryTbl s)))) s sid.
End handlers.
