(* ===== verification/NsProofs.v ===== *)
(** The registry of the name server: lookups, instance ids, addresses and requests
    for addresses.

    [reg_ok] is the invariant of the registry: sorted, without empty inner tables,
    every entry stored under its own name and instance id, which is never a group
    id.  [reg_get] is its abstract view, a function from name and instance id, and
    [touched] describes a change of one entry. *)
From S2P Require Import Prelude StdMap CommonDefs Serializer Codec WireBase NsMessages SocketFactory AddressAllocator SvcAddrUtils Subscribe EventObject NameServer.
Open Scope list_scope.
Open Scope Z_scope.

(** ** The abstract view *)

Definition reg_shape : tRegistryTbl -> Prop := lvl (full (fun _ => True)).

(** An entry that belongs under a key. *)
Definition entry_at (name : string) (id : Z) (e : CSvcRegistryEntry) : Prop :=
  re_mSvcName e = name /\ re_mInstanceId e = id /\ fdbIsGroup id = false /\ c_str name = name.

Record reg_ok (r : tRegistryTbl) : Prop := {
  rok_shape : reg_shape r;
  rok_keys name id e : reg_get r name id = Some e -> entry_at name id e }.

Lemma reg_get_put r name id e n i : reg_shape r ->
  reg_get (reg_put r name id e) n i
  = if bool_decide (n = name) && bool_decide (i = id) then Some e else reg_get r n i.
Proof. unfold reg_shape, reg_get, reg_put. intros Hr. find_cases. Qed.

Lemma reg_shape_put r name id e : reg_shape r -> reg_shape (reg_put r name id e).
Proof. unfold reg_shape, reg_put. intros. auto 10 with fdb. Qed.

Lemma reg_ok_put r name id e : reg_ok r -> entry_at name id e -> reg_ok (reg_put r name id e).
Proof.
  intros [Hs Hk] He. split; [by apply reg_shape_put|]. intros n i x. rewrite reg_get_put by done.
  case_bool_decide; [case_bool_decide|]; simpl; intros Hx; simplify_eq; auto.
Qed.

Lemma reg_ok_nil : reg_ok [].
Proof. split; [apply lvl_nil|done]. Qed.

Lemma reg_refs_in r name id e : reg_shape r ->
  (name, id, e) ∈ reg_refs r <-> reg_get r name id = Some e.
Proof.
  intros Hr. unfold reg_refs, reg_get. rewrite list_elem_of_In, in_flat_map. split.
  - intros ([n insts] & Hn & Hi). apply list_elem_of_In in Hn.
    apply list_elem_of_In, list_elem_of_fmap in Hi as ([i x] & [= -> -> ->] & Hx).
    apply (m_find_In _ _ _ (lvl_sorted _ _ Hr)) in Hn. rewrite Hn. simpl.
    apply m_find_In; [|done]. apply (lvl_sorted (fun _ => True)), full_lvl, (lvl_find _ _ _ _ Hr Hn).
  - destruct (m_find name r) as [insts|] eqn:E; simpl; [|done]. intros Hx.
    exists (name, insts). split; [apply list_elem_of_In, m_find_In; [by eapply lvl_sorted|done]|].
    apply list_elem_of_In, list_elem_of_fmap. exists (id, e). split; [done|].
    apply m_find_In; [|done]. apply (lvl_sorted (fun _ => True)), full_lvl, (lvl_find _ _ _ _ Hr E).
Qed.

Lemma eraseService_spec r name id : reg_shape r ->
  let '(erased, r') := eraseService r name id in
  erased = bool_decide (is_Some (reg_get r name id)) /\ reg_shape r' /\
  forall n i, reg_get r' n i
    = if bool_decide (n = name) && bool_decide (i = id) then None else reg_get r n i.
Proof.
  intros Hr. unfold eraseService, reg_get, reg_shape in *.
  destruct (m_find name r) as [insts|] eqn:E; simpl.
  - pose proof (full_lvl _ _ (lvl_find _ _ _ _ Hr E)) as Hi.
    split; [done|]. split; [auto with fdb|]. intros n i. find_cases; by rewrite E.
  - split; [done|]. split; [done|]. intros n i.
    case_bool_decide; simplify_eq; simpl; [|done]. rewrite E. by destruct (bool_decide _).
Qed.

Lemma eraseService_ok r name id : reg_ok r -> reg_ok (eraseService r name id).2.
Proof.
  intros [Hs Hk]. pose proof (eraseService_spec r name id Hs) as H.
  destruct (eraseService r name id) as [b r']. destruct H as (_ & Hs' & Hg). split; [done|].
  intros n i e. simpl. rewrite Hg. destruct (_ && _); [done|apply Hk].
Qed.

(** ** Looking services up *)

Definition is_name (svc_name n : string) : bool := is_empty_str svc_name || bool_decide (n = svc_name).

(** Which instance ids an id asks for: itself, its group, or all. *)
Definition id_matches (instance_id i : Z) : bool :=
  if fdbIsGroup instance_id
  then fdbEventInGroup instance_id FDB_EVENT_ALL_GROUPS || fdbSameGroup instance_id i
  else i =? instance_id.

Lemma findService_in_spec r n insts inst x : reg_shape r -> m_find n r = Some insts ->
  x ∈ findService_in (n, insts) inst <->
  exists i e, x = (n, i, e) /\ m_find i insts = Some e /\ id_matches inst i = true.
Proof.
  intros Hr E. pose proof (full_lvl _ _ (lvl_find _ _ _ _ Hr E)) as [Hs _].
  unfold findService_in, id_matches. destruct (fdbIsGroup inst); [destruct (fdbEventInGroup _ _)|]; simpl.
  - unfold refs_of. rewrite list_elem_of_fmap. split.
    + intros ([i e] & -> & Hx). exists i, e. by rewrite m_find_In.
    + intros (i & e & -> & Hx & _). exists (i, e). by rewrite <- m_find_In.
  - unfold refs_of. rewrite list_elem_of_fmap. split.
    + intros ([i e] & -> & Hx). apply list_elem_of_In, filter_In in Hx as [Hx Hg].
      apply list_elem_of_In in Hx. exists i, e. by rewrite m_find_In.
    + intros (i & e & -> & Hx & Hg). exists (i, e). split; [done|].
      apply list_elem_of_In, filter_In. rewrite <- list_elem_of_In, <- m_find_In by done. done.
  - destruct (m_find inst insts) as [e|] eqn:Ei; simpl.
    + rewrite list_elem_of_singleton. split.
      * intros ->. exists inst, e. by rewrite Z.eqb_refl.
      * intros (i & e' & -> & Hx & Hi). apply Z.eqb_eq in Hi. subst. by simplify_eq.
    + split; [by rewrite elem_of_nil|]. intros (i & e & _ & Hx & Hi). apply Z.eqb_eq in Hi. by subst; simplify_eq.
Qed.

Arguments findService_in : simpl never.

(** Exactly the services asked for are found, the empty name asking for all names. *)
Lemma findService_in_iff r svc inst n i e : reg_shape r ->
  (n, i, e) ∈ findService r svc inst <->
  reg_get r n i = Some e /\ is_name svc n = true /\ id_matches inst i = true.
Proof.
  intros Hr. unfold findService, is_name, reg_get.
  destruct (is_empty_str svc) eqn:Es; simpl.
  - rewrite list_elem_of_In, in_flat_map. split.
    + intros ([n' insts] & Hn & Hx). apply list_elem_of_In in Hn, Hx.
      apply (m_find_In _ _ _ (lvl_sorted _ _ Hr)) in Hn.
      apply (findService_in_spec r) in Hx as (i' & e' & [= -> -> ->] & Hf & Hm); [|done..].
      by rewrite Hn.
    + intros (Hg & _ & Hm). destruct (m_find n r) as [insts|] eqn:E; [|done]. exists (n, insts).
      split; [apply list_elem_of_In, m_find_In; [by eapply lvl_sorted|done]|].
      apply list_elem_of_In, (findService_in_spec r); [done..|]. by exists i, e.
  - rewrite bool_decide_eq_true. destruct (m_find svc r) as [insts|] eqn:E.
    + rewrite (findService_in_spec r) by done. split.
      * intros (i' & e' & [= -> -> ->] & Hf & Hm). by rewrite E.
      * intros (Hg & -> & Hm). rewrite E in Hg. by exists i, e.
    + split; [by rewrite elem_of_nil|]. intros (Hg & -> & _). by rewrite E in Hg.
Qed.

Lemma found_elem {A} (l : list A) : found l = true <-> exists x, x ∈ l.
Proof.
  destruct l as [|x l]; simpl; split; try done.
  - intros (x & Hx). by apply elem_of_nil in Hx.
  - exists x. by left.
Qed.

(** A lookup returns exactly the registered services it asks for: by name, or
    all names for the empty name, and by instance id, by the group of an id, or all
    instances. *)
Theorem findService_exact r svc inst n i e :
  reg_ok r ->
  (n, i, e) ∈ findService r svc inst <->
  reg_get r n i = Some e /\ is_name svc n = true /\ id_matches inst i = true.
Proof. intros [Hr _]. by apply findService_in_iff. Qed.

(** Two services for the examples: one in instance 3 of the default group, owned by
    session 7, and one owned by session 8. *)
Definition entry_a : CSvcRegistryEntry :=
  mkEntry 7 [] ["t0"; "t1"]%string false true FDB_EXPORTABLE_DOMAIN "ep" "a" FDB_SVC_USER 3.
Definition entry_b : CSvcRegistryEntry :=
  mkEntry 8 [] [] false true FDB_EXPORTABLE_DOMAIN "ep" "b" FDB_SVC_USER 0.
Definition reg_ab : tRegistryTbl := reg_put (reg_put [] "a" 3 entry_a) "b" 0 entry_b.
Definition ns_ab : CNameServer :=
  ns_with_registry (CNameServer_new "h" (-1) (-1) (-1) false) reg_ab.
Definition env_ab : NsEnv :=
  mkNsEnv (mkNsConfig 60000 65000 5) 0 [] (fun _ => []) (fun _ => None) (fun _ _ => 0) (fun _ => 0) 1
    (fun _ => None) (fun _ => true).

Lemma reg_ab_ok : reg_ok reg_ab.
Proof. apply reg_ok_put; [apply reg_ok_put; [apply reg_ok_nil|]|]; by repeat split. Qed.

Lemma findService_exact_witness :
  ("a"%string, 3, entry_a) ∈ findService reg_ab "" (fdbMakeGroupEvent 0).
Proof.
  apply (findService_exact reg_ab "" (fdbMakeGroupEvent 0) "a" 3 entry_a reg_ab_ok).
  vm_compute. auto.
Defined.

(** ** Instance ids *)

(** The id number [k] of the group an instance id belongs to. *)
Definition group_id (inst k : Z) : Z := i32 (fdbMergeEventCode inst k).

Definition auto_id (k : Z) : Prop := FDB_AUTO_INSTANCE_BEGIN <= k <= FDB_AUTO_INSTANCE_END.

Lemma group_id_group inst k : 0 <= k < 2 ^ 24 ->
  fdbEventGroup (group_id inst k) = fdbEventGroup inst /\ fdbEventCode (group_id inst k) = k.
Proof.
  intros Hk. unfold group_id. rewrite fdbMergeEventCode_arith by done.
  pose proof (fdbEventGroup_range inst) as Hg. set (g := fdbEventGroup inst) in *. clearbody g.
  rewrite fdbEventGroup_arith, fdbEventCode_arith. unfold wrap_u, wrap_s.
  Z.div_mod_to_equations. lia.
Qed.

Lemma group_id_idem inst j k : 0 <= j < 2 ^ 24 -> 0 <= k < 2 ^ 24 ->
  group_id (group_id inst j) k = group_id inst k.
Proof.
  intros Hj Hk. unfold group_id at 1 3. rewrite !fdbMergeEventCode_arith by done.
  by rewrite (proj1 (group_id_group inst j Hj)).
Qed.

Lemma auto_id_code k : auto_id k -> 0 <= k < 2 ^ 24.
Proof. unfold auto_id, FDB_AUTO_INSTANCE_BEGIN, FDB_AUTO_INSTANCE_END, FDB_EVENT_ID_MASK. lia. Qed.

(** The ids of a group are single instances. *)
Lemma group_id_single inst k : auto_id k -> fdbIsGroup (group_id inst k) = false.
Proof.
  intros Hk. destruct (group_id_group inst k (auto_id_code k Hk)) as [_ E].
  rewrite fdbEventCode_arith in E. rewrite fdbIsGroup_arith, E. apply Z.eqb_neq.
  unfold auto_id, FDB_AUTO_INSTANCE_END, FDB_EVENT_ID_MASK in Hk. lia.
Qed.

Definition taken (r : tRegistryTbl) (svc : string) (inst k : Z) : bool :=
  found (findService r svc (group_id inst k)).

(** The counter: at an id, or one past the last. *)
Definition counter_ok (a : Z) : Prop := FDB_AUTO_INSTANCE_BEGIN <= a <= FDB_AUTO_INSTANCE_END + 1.

Lemma counter_begin : counter_ok FDB_AUTO_INSTANCE_BEGIN.
Proof. unfold counter_ok, FDB_AUTO_INSTANCE_BEGIN, FDB_AUTO_INSTANCE_END, FDB_EVENT_ID_MASK. lia. Qed.

(** One pass of the loop from [a] to the last id. *)
Lemma instance_pass r svc wrap n : forall fuel a inst,
  counter_ok a -> a + Z.of_nat n = FDB_AUTO_INSTANCE_END + 1 -> (n < fuel)%nat ->
  (exists k a', auto_id k /\ taken r svc inst k = false /\ counter_ok a' /\
     instance_loop fuel r svc inst a wrap = Some (a', Some (group_id inst k))) \/
  (forall k, a <= k <= FDB_AUTO_INSTANCE_END -> taken r svc inst k = true) /\
  exists inst', (forall k, auto_id k -> group_id inst' k = group_id inst k) /\
    instance_loop fuel r svc inst a wrap
    = if wrap then Some (FDB_AUTO_INSTANCE_BEGIN, None)
      else instance_loop (fuel - S n) r svc inst' FDB_AUTO_INSTANCE_BEGIN true.
Proof.
  induction n as [|n IH]; intros [|fuel] a inst Ha En Hf; try lia; cbn [instance_loop].
  - right. split; [intros; lia|]. exists inst. split; [done|]. rewrite Z.gtb_ltb.
    rewrite (proj2 (Z.ltb_lt _ _)) by lia. destruct wrap; [done|]. by rewrite Nat.sub_succ, Nat.sub_0_r.
  - rewrite Z.gtb_ltb, (proj2 (Z.ltb_ge _ _)) by lia.
    assert (auto_id a) as Hk by (unfold auto_id, counter_ok in *; lia).
    fold (group_id inst a). fold (taken r svc inst a).
    destruct (taken r svc inst a) eqn:Et.
    + rewrite (wrap_u_small 32)
        by (unfold in_u, auto_id, FDB_AUTO_INSTANCE_BEGIN, FDB_AUTO_INSTANCE_END, FDB_EVENT_ID_MASK in *; lia).
      assert (forall k, auto_id k -> group_id (group_id inst a) k = group_id inst k) as Eg
        by (intros; apply group_id_idem; by apply auto_id_code).
      assert (forall k, auto_id k -> taken r svc (group_id inst a) k = taken r svc inst k) as Etk
        by (intros k Hki; unfold taken; by rewrite Eg).
      destruct (IH fuel (a + 1) (group_id inst a)) as [(k & a' & H1 & H2 & H3 & H4)|(Hall & inst' & Hi & E)];
        [unfold counter_ok, auto_id in *; lia|lia|lia| |].
      * left. exists k, a'. rewrite H4, Eg, <- (Etk k H1) by done. done.
      * right. split.
        -- intros k Hr. destruct (Z.eq_dec k a) as [->|]; [done|].
           rewrite <- Etk by (unfold auto_id in *; lia). apply Hall. lia.
        -- exists inst'. split; [intros k Hki; by rewrite Hi, Eg|]. rewrite E. done.
    + left. exists a. eexists. split; [done|]. split; [done|]. split; [|done].
      rewrite (wrap_u_small 32)
        by (unfold in_u, auto_id, FDB_AUTO_INSTANCE_BEGIN, FDB_AUTO_INSTANCE_END, FDB_EVENT_ID_MASK in *; lia).
      unfold counter_ok, auto_id in *. lia.
Qed.

Lemma instance_fuel_val :
  Z.of_nat instance_fuel = 2 * (FDB_AUTO_INSTANCE_END - FDB_AUTO_INSTANCE_BEGIN + 1) + 3.
Proof. unfold instance_fuel. rewrite Z2Nat.id; [reflexivity|]. vm_compute. discriminate. Qed.

#[local] Opaque instance_fuel.

(** The loop always ends with a free id of the group, or says that there is none. *)
Lemma instance_loop_spec r svc inst a :
  counter_ok a ->
  exists a' id, instance_loop instance_fuel r svc inst a false = Some (a', id) /\ counter_ok a' /\
    match id with
    | Some id => exists k, auto_id k /\ id = group_id inst k /\ taken r svc inst k = false
    | None => forall k, auto_id k -> taken r svc inst k = true
    end.
Proof.
  intros Ha. set (N := FDB_AUTO_INSTANCE_END - FDB_AUTO_INSTANCE_BEGIN + 1).
  pose proof instance_fuel_val as Hf. fold N in Hf. generalize dependent instance_fuel. intros F Hf.
  set (n1 := Z.to_nat (FDB_AUTO_INSTANCE_END + 1 - a)).
  assert (Z.of_nat n1 = FDB_AUTO_INSTANCE_END + 1 - a) as Hn1 by (unfold n1, counter_ok in *; lia).
  clearbody n1.
  destruct (instance_pass r svc false n1 F a inst Ha ltac:(lia) ltac:(unfold counter_ok, N in *; lia))
    as [(k & a' & H1 & H2 & H3 & H4)|(_ & inst' & Hi & E)].
  { exists a', (Some (group_id inst k)). split; [exact H4|]. split; [exact H3|]. by exists k. }
  assert (exists n2, Z.of_nat n2 = N) as [n2 Hn2] by (exists (Z.to_nat N); unfold N, counter_ok in *; lia).
  destruct (instance_pass r svc true n2 (F - S n1) FDB_AUTO_INSTANCE_BEGIN inst' counter_begin
    ltac:(unfold N in *; lia) ltac:(unfold counter_ok, N in *; lia))
    as [(k & a' & H1 & H2 & H3 & H4)|(Hall & _ & _ & E')].
  - exists a', (Some (group_id inst k)). unfold taken in *. rewrite E, H4, Hi by done.
    rewrite Hi in H2 by done. split; [reflexivity|]. split; [exact H3|]. by exists k.
  - exists FDB_AUTO_INSTANCE_BEGIN, None. rewrite E, E'. split; [reflexivity|].
    split; [apply counter_begin|]. intros k Hk. specialize (Hall k Hk). unfold taken in *.
    by rewrite Hi in Hall.
Qed.

(** Asking for any instance of a group always comes to an end: with an id of
    that group, in the automatic range, that no service of the name uses, or with
    [FDB_ST_NO_RESOURCE] exactly when all 65535 ids of the group are in use. *)
Theorem instance_alloc_total r svc inst a :
  counter_ok a ->
  exists a' id, instance_loop instance_fuel r svc inst a false = Some (a', id) /\ counter_ok a' /\
    match id with
    | Some id => fdbSameGroup id inst = true /\ fdbIsGroup id = false /\
        auto_id (fdbEventCode id) /\ found (findService r svc id) = false
    | None => forall k, auto_id k -> found (findService r svc (group_id inst k)) = true
    end.
Proof.
  intros Ha. destruct (instance_loop_spec r svc inst a Ha) as (a' & id & E & Hc & H).
  exists a', id. split; [done|]. split; [done|]. destruct id as [id|]; [|done].
  destruct H as (k & Hk & -> & Ht). destruct (group_id_group inst k (auto_id_code k Hk)) as [Eg Ec].
  rewrite fdbSameGroup_arith, Eg, Z.eqb_refl, Ec. split; [done|]. split; [by apply group_id_single|done].
Qed.

Lemma instance_alloc_total_witness :
  exists a', instance_loop instance_fuel [] "a"%string (fdbMakeGroupEvent 3) FDB_AUTO_INSTANCE_BEGIN false
    = Some (a', Some (fdbMakeEventCode 3 FDB_AUTO_INSTANCE_BEGIN)).
Proof.
  destruct (instance_alloc_total [] "a" (fdbMakeGroupEvent 3) FDB_AUTO_INSTANCE_BEGIN counter_begin)
    as (a' & id & E & _).
  exists (FDB_AUTO_INSTANCE_BEGIN + 1). vm_compute. reflexivity.
Defined.

(** ** Allocated addresses *)

Definition desc_of_type (t : EFdbSocketType) (d : CFdbAddressDesc) : bool :=
  bool_decide (t = FDB_SOCKET_MAX) || bool_decide (sa_mType (ad_addr d) = t).

(** The registered URLs of a socket type. *)
Definition used_urls (r : tRegistryTbl) (t : EFdbSocketType) : list string :=
  map ad_url (List.filter (desc_of_type t) (reg_addrs r)).

Lemma findAddress_none r t url : findAddress r t url = None <-> url ∉ used_urls r t.
Proof.
  unfold findAddress, used_urls. split.
  - intros Hn (d & -> & Hd)%list_elem_of_fmap. apply list_elem_of_In, filter_In in Hd as [Hd Ht].
    apply (find_none _ _ Hn) in Hd. unfold desc_of_type in Ht. rewrite Ht in Hd.
    by rewrite bool_decide_true in Hd.
  - intros Hu. destruct (List.find _ _) as [d|] eqn:E; [|done]. exfalso. apply Hu.
    apply find_some in E as [Hd Ht]. apply andb_true_iff in Ht as [Ht Hurl].
    apply bool_decide_eq_true in Hurl. apply list_elem_of_fmap. exists d. split; [done|].
    apply list_elem_of_In, filter_In. done.
Qed.

Section fresh.
Context {A : Type} `{AllocatorLaws A}.

Lemma alloc_loop_keeps n r t secure : forall a cur,
  al_ok a -> al_ok (alloc_loop n r a t cur secure).1.1.
Proof.
  induction n as [|n IH]; intros a cur Ha; simpl; [done|].
  pose proof (al_preserved a (aa_mSocketAddr cur) t secure Ha) as Ha'.
  destruct (allocate a (aa_mSocketAddr cur) t secure) as [a' x]. simpl in Ha'.
  destruct (bool_decide (sa_mType (aa_mSocketAddr x) = FDB_SOCKET_TCP)
            && (sa_mPort (aa_mSocketAddr x) =? FDB_INET_PORT_AUTO)); [done|].
  destruct (negb (bool_decide (t = FDB_SVC_USER))); [done|].
  destruct (findAddress r _ _); [by apply IH|done].
Qed.

(** An address handed out for a user service is in use by none. *)
Lemma alloc_loop_sound n r secure : forall a cur a' x,
  alloc_loop n r a FDB_SVC_USER cur secure = (a', x, true) ->
  sa_mPort (aa_mSocketAddr x) = FDB_INET_PORT_AUTO \/
  aa_url x ∉ used_urls r (sa_mType (aa_mSocketAddr x)).
Proof.
  induction n as [|n IH]; intros a cur a' x; simpl; [done|].
  destruct (allocate a (aa_mSocketAddr cur) FDB_SVC_USER secure) as [a1 y].
  destruct (bool_decide (sa_mType (aa_mSocketAddr y) = FDB_SOCKET_TCP)
            && (sa_mPort (aa_mSocketAddr y) =? FDB_INET_PORT_AUTO)) eqn:E1.
  { intros [= <- <-]. left. apply andb_true_iff in E1 as [_ E1]. by apply Z.eqb_eq. }
  simpl. destruct (findAddress r _ _) eqn:E2; [apply IH|].
  intros [= <- <-]. right. by apply findAddress_none.
Qed.

(** A failure means that every address tried is in use. *)
Lemma alloc_loop_failure n r secure : forall a cur a' x,
  al_ok a -> alloc_loop n r a FDB_SVC_USER cur secure = (a', x, false) ->
  forall url, url ∈ map aa_url (alloc_run n a (aa_mSocketAddr cur) secure) -> url ∈ used_urls r al_type.
Proof.
  induction n as [|n IH]; intros a cur a' x Ha; simpl; [by intros _ url Hu%elem_of_nil|].
  pose proof (al_preserved a (aa_mSocketAddr cur) FDB_SVC_USER secure Ha) as Hp.
  pose proof (al_types a (aa_mSocketAddr cur) secure 1) as Ht. simpl in Ht.
  destruct (allocate a (aa_mSocketAddr cur) FDB_SVC_USER secure) as [a1 y]. simpl in Hp.
  specialize (Ht y Ha ltac:(by left)).
  destruct (_ && _); [done|]. simpl. destruct (findAddress r _ _) as [d|] eqn:E2; [|done].
  intros E url. rewrite elem_of_cons. intros [->|Hu]; [|by eapply IH].
  rewrite <- Ht. destruct (decide (aa_url y ∈ used_urls r (sa_mType (aa_mSocketAddr y)))) as [|Hn]; [done|].
  apply findAddress_none in Hn. unfold aa_url in Hn. congruence.
Qed.

Lemma length_alloc_run n secure : forall a old, length (alloc_run n a old secure) = n.
Proof.
  induction n as [|n IH]; intros a old; simpl; [done|].
  destruct (allocate a old FDB_SVC_USER secure). simpl. by rewrite IH.
Qed.

(** Whatever the allocator, an address allocated for a user service is not
    the address of any registered service (or is left to the system), and the
    allocation succeeds whenever fewer addresses of its kind are registered than
    it makes attempts: the number of service names plus seven. *)
Theorem allocateAddress_fresh r a cur secure :
  al_ok a -> (alloc_retries r <= al_capacity a)%nat ->
  let '(a', x, ok) := allocateAddress r a FDB_SVC_USER cur secure in
  al_ok a' /\
  (ok = true -> sa_mPort (aa_mSocketAddr x) = FDB_INET_PORT_AUTO \/
                aa_url x ∉ used_urls r (sa_mType (aa_mSocketAddr x))) /\
  ((length (used_urls r al_type) < alloc_retries r)%nat -> ok = true).
Proof.
  intros Ha Hc. unfold allocateAddress.
  pose proof (alloc_loop_keeps (alloc_retries r) r FDB_SVC_USER secure a cur Ha) as Hk.
  destruct (alloc_loop (alloc_retries r) r a FDB_SVC_USER cur secure) as [[a' x] ok] eqn:E.
  split; [done|]. split; [intros ->; by eapply alloc_loop_sound|].
  intros Hu. destruct ok; [done|]. exfalso.
  pose proof (alloc_loop_failure _ _ _ _ _ _ _ Ha E) as Hall.
  pose proof (al_distinct a (aa_mSocketAddr cur) secure (alloc_retries r) Ha Hc) as Hd.
  pose proof (submseteq_length _ _ (NoDup_submseteq _ _ Hd Hall)) as Hl.
  rewrite length_map, length_alloc_run in Hl. lia.
Qed.
End fresh.

Lemma allocateAddress_fresh_witness :
  let '(_, _, ok) :=
    allocateAddress [] CIPCAddressAllocator_new FDB_SVC_USER CAllocatedAddress_new false in ok = true.
Proof.
  pose proof (allocateAddress_fresh [] CIPCAddressAllocator_new CAllocatedAddress_new false) as H.
  destruct (allocateAddress [] CIPCAddressAllocator_new FDB_SVC_USER CAllocatedAddress_new false)
    as [[a x] ok].
  apply H; [by split|change (7 <= Z.to_nat (2 ^ 32))%nat; lia|apply Nat.lt_0_succ].
Defined.

(** One service name with eight instances on the first eight ports of an interface. *)
Definition crowded_desc (port : Z) : CFdbAddressDesc :=
  mkAddressDesc
    (mkAddrInfo (mkSocketAddr (buildUrl_inet (Some "10.0.0.1"%string) port false) FDB_SOCKET_TCP
                   "10.0.0.1" 0 port false) 0 1 0) ADDR_BOUND 0.
Definition crowded_entry (i : Z) : Z * CSvcRegistryEntry :=
  (i, mkEntry 1 [crowded_desc (60005 + i)] [] false true 1 "e" "a" FDB_SVC_USER i).
Definition crowded : tRegistryTbl := [("a"%string, map crowded_entry [0; 1; 2; 3; 4; 5; 6; 7])].

(** The number of attempts counts service names, not registered addresses:
    with eight instances of one service on an interface, and the port counter back
    at the first port, allocation fails although all later ports are free. *)
Theorem crowded_allocation_fails :
  let cfg := mkNsConfig 60000 65000 5 in
  let a := tcp_set (CTCPAddressAllocator_new cfg 0) "10.0.0.1" "" 1 0 in
  let tcp := CTCPAddressAllocator_allocator cfg in
  let '(_, _, ok) := @allocateAddress _ tcp crowded a FDB_SVC_USER CAllocatedAddress_new false in
  ok = false /\ findAddress crowded FDB_SOCKET_TCP (buildUrl_inet (Some "10.0.0.1"%string) 60013 false) = None.
Proof. vm_compute. split; reflexivity. Qed.

(** ** The handlers leave every other entry alone *)

(** Everything but the addresses. *)
Definition ident (e e' : CSvcRegistryEntry) : Prop := e' = re_set_addrs e (re_mAddrTbl e').

Lemma ident_refl e : ident e e.
Proof. by destruct e. Qed.

Lemma ident_set e l : ident e (re_set_addrs e l).
Proof. done. Qed.

Lemma ident_trans e1 e2 e3 : ident e1 e2 -> ident e2 e3 -> ident e1 e3.
Proof. unfold ident. intros -> ->. done. Qed.

Lemma entry_at_ident name id e e' : ident e e' -> entry_at name id e -> entry_at name id e'.
Proof. unfold ident, entry_at. by intros ->. Qed.

(** From [s] to [s'] only the entry under a key changed, from [e] to [e'], and of
    it only the addresses. *)
Record touched (s : CNameServer) (name : string) (id : Z) (e : CSvcRegistryEntry)
    (s' : CNameServer) (e' : CSvcRegistryEntry) : Prop := {
  th_shape : reg_shape (mRegistryTbl s) -> reg_shape (mRegistryTbl s');
  th_get : reg_shape (mRegistryTbl s) -> reg_get (mRegistryTbl s) name id = Some e ->
    forall n i, reg_get (mRegistryTbl s') n i
      = if bool_decide (n = name) && bool_decide (i = id) then Some e' else reg_get (mRegistryTbl s) n i;
  th_ident : ident e e';
  th_inst : mInstanceIdAllocator s' = mInstanceIdAllocator s }.

Lemma get_self r name id (e : CSvcRegistryEntry) :
  reg_get r name id = Some e -> forall n i,
  reg_get r n i = if bool_decide (n = name) && bool_decide (i = id) then Some e else reg_get r n i.
Proof. intros E n i. do 2 (case_bool_decide; simpl; [subst|done]). done. Qed.

Lemma touched_same s name id e s' :
  mRegistryTbl s' = mRegistryTbl s -> mInstanceIdAllocator s' = mInstanceIdAllocator s ->
  touched s name id e s' e.
Proof. intros E Ei. split; rewrite ?E; try done; [by intros _; apply get_self|apply ident_refl]. Qed.

Lemma touched_put s name id e e' : ident e e' ->
  touched s name id e (ns_with_registry s (reg_put (mRegistryTbl s) name id e')) e'.
Proof.
  intros He. split; simpl; try done; [by apply reg_shape_put|]. intros Hs _ n i. by apply reg_get_put.
Qed.

Lemma touched_trans s1 s2 s3 name id e1 e2 e3 :
  touched s1 name id e1 s2 e2 -> touched s2 name id e2 s3 e3 -> touched s1 name id e1 s3 e3.
Proof.
  intros [A1 A2 A3 A4] [B1 B2 B3 B4].
  split; [auto| |by eapply ident_trans|congruence].
  intros Hs Hg n i. rewrite B2 by (auto; rewrite A2 by done; by rewrite !bool_decide_true).
  rewrite A2 by done. by destruct (_ && _).
Qed.

Lemma touched_ok s name id e s' e' :
  touched s name id e s' e' -> reg_ok (mRegistryTbl s) -> reg_get (mRegistryTbl s) name id = Some e ->
  reg_ok (mRegistryTbl s') /\ reg_get (mRegistryTbl s') name id = Some e'.
Proof.
  intros T [Hs Hk] Hg. split.
  - split; [by apply T|]. intros n i x. rewrite (th_get _ _ _ _ _ _ T Hs Hg).
    case_bool_decide; [case_bool_decide|]; simpl; intros Hx; simplify_eq; auto.
    apply (entry_at_ident _ _ e); [apply T|by apply Hk].
  - rewrite (th_get _ _ _ _ _ _ T Hs Hg). by rewrite !bool_decide_true.
Qed.

Lemma add_allocated_touched env name id xs : forall s e l,
  let '(s', e', _) := add_allocated env s name id e xs l in touched s name id e s' e'.
Proof.
  induction xs as [|x xs IH]; intros s e l; simpl; [by apply touched_same|].
  destruct (addressRegistered _ _); [apply IH|].
  match goal with |- context [add_allocated _ ?s1 _ _ ?e1 _ ?l1] => specialize (IH s1 e1 l1) end.
  destruct (add_allocated env _ name id _ xs _) as [[s' e'] l'].
  eapply touched_trans; [|exact IH]. apply touched_put. by apply ident_set.
Qed.

Lemma allocate_reg env s e (inet : bool) :
  let s' := (if inet then allocateTCPAddress env s e else allocateIPCAddress s e).1 in
  mRegistryTbl s' = mRegistryTbl s /\ mInstanceIdAllocator s' = mInstanceIdAllocator s.
Proof.
  destruct inet; simpl.
  - unfold allocateTCPAddress. destruct (bool_decide _); [done|].
    by destruct (allocateTCPAddress_tbl env _ _ _).
  - unfold allocateIPCAddress. by destruct (allocateAddress _ _ _ _ _) as [[? ?] ?].
Qed.

Lemma addOneServiceAddress_touched env s name id e inet l :
  let '(s', e', _) := addOneServiceAddress env s name id e inet l in touched s name id e s' e'.
Proof.
  unfold addOneServiceAddress. pose proof (allocate_reg env s e inet) as [Er Ei].
  destruct (if inet then allocateTCPAddress env s e else allocateIPCAddress s e) as [s1 xs]. simpl in Er, Ei.
  pose proof (add_allocated_touched env name id xs s1 e l) as T.
  destruct (add_allocated env s1 name id e xs l) as [[s' e'] l'].
  eapply touched_trans; [|exact T]. by apply touched_same.
Qed.

Lemma addServiceAddress_touched env s name id e inet l :
  let '(s', e', _) := addServiceAddress env s name id e inet l in touched s name id e s' e'.
Proof.
  unfold addServiceAddress. destruct inet; [apply addOneServiceAddress_touched|].
  match goal with |- context [addOneServiceAddress env s name id e false ?l1] =>
    pose proof (addOneServiceAddress_touched env s name id e false l1) as T1;
    destruct (addOneServiceAddress env s name id e false l1) as [[s1 e1] l2] end.
  pose proof (addOneServiceAddress_touched env s1 name id e1 true l2) as T2.
  destruct (addOneServiceAddress env s1 name id e1 true l2) as [[s2 e2] l3].
  by eapply touched_trans.
Qed.

(** ** Registration *)

Lemma c_str_idem x : c_str (c_str x) = c_str x.
Proof.
  induction x as [|c x IH]; simpl; [done|]. destruct (byte_of_ascii c =? 0) eqn:E; simpl; [done|].
  by rewrite E, IH.
Qed.

Lemma not_found_get r svc id :
  reg_shape r -> fdbIsGroup id = false -> found (findService r svc id) = false -> reg_get r svc id = None.
Proof.
  intros Hr Hg Hf. destruct (reg_get r svc id) as [e|] eqn:E; [|done].
  assert (found (findService r svc id) = true); [|congruence].
  apply found_elem. exists (svc, id, e). apply findService_in_iff; [done|]. split; [done|].
  unfold is_name, id_matches. rewrite Hg, Z.eqb_refl, bool_decide_true by done. by rewrite orb_true_r.
Qed.

(** The entry a request asks for. *)
Definition entry_for (e : CSvcRegistryEntry) (sid : Z) (req : FdbMsgServerName) (tokens : list string)
    (id : Z) : Prop :=
  re_mSid e = sid /\ re_mTokens e = tokens /\ re_mSvcName e = c_str (sn_mName req) /\
  re_mInstanceId e = id /\ re_mEndpointName e = sn_mEndpointName req /\
  re_mExportableLevel e = sn_mExportableLevel req.

(** The new service and only it appears in the registry. *)
Definition registered (s s' : CNameServer) (sid : Z) (req : FdbMsgServerName) (tokens : list string)
    (id : Z) : Prop :=
  let name := c_str (sn_mName req) in
  reg_get (mRegistryTbl s) name id = None /\
  exists e, entry_for e sid req tokens id /\
    forall n i, reg_get (mRegistryTbl s') n i
      = if bool_decide (n = name) && bool_decide (i = id) then Some e else reg_get (mRegistryTbl s) n i.

Lemma alloc_service_spec env s sid req tokens id :
  reg_ok (mRegistryTbl s) -> fdbIsGroup id = false ->
  reg_get (mRegistryTbl s) (c_str (sn_mName req)) id = None ->
  let '(s', outs) := alloc_service env s sid req tokens id in
  reg_ok (mRegistryTbl s') /\ registered s s' sid req tokens id /\
  mInstanceIdAllocator s' = mInstanceIdAllocator s /\
  (outs = [OutStatus FDB_ST_NOT_AVAILABLE] \/ exists l, outs = [OutReply l] /\ al_mAddressList l <> []).
Proof.
  intros Hr Hg Hn. unfold alloc_service. rewrite Hn. simpl default.
  set (name := c_str (sn_mName req)) in *. set (e := mkEntry sid _ tokens _ _ _ _ _ _ id).
  assert (entry_at name id e) as He by (repeat split; try done; apply c_str_idem).
  set (s1 := ns_with_registry s (reg_put (mRegistryTbl s) name id e)).
  assert (reg_ok (mRegistryTbl s1)) as Hr1 by by apply reg_ok_put.
  assert (reg_get (mRegistryTbl s1) name id = Some e) as Hg1.
  { simpl. rewrite reg_get_put by apply Hr. by rewrite !bool_decide_true. }
  match goal with |- context [addServiceAddress env s1 name id e false ?l0] =>
    pose proof (addServiceAddress_touched env s1 name id e false l0) as T;
    destruct (addServiceAddress env s1 name id e false l0) as [[s2 e2] reply] end.
  destruct (touched_ok _ _ _ _ _ _ T Hr1 Hg1) as [Hr2 _].
  assert (registered s s2 sid req tokens id) as Hreg.
  { split; [done|]. exists e2. split; [by rewrite (th_ident _ _ _ _ _ _ T)|]. intros n i.
    rewrite (th_get _ _ _ _ _ _ T (rok_shape _ Hr1) Hg1). simpl. rewrite reg_get_put by apply Hr.
    fold name. by destruct (_ && _). }
  destruct (found (al_mAddressList _)) eqn:Ef;
    (split; [done|]); (split; [done|]); (split; [apply T|]); [right|by left].
  eexists. split; [done|]. intros E. by rewrite E in Ef.
Qed.

(** C6: A request for service addresses is always answered, and keeps the registry
    consistent.  It either leaves the registry as it was, because the service exists,
    the group has no free instance or the request does not decode, or adds exactly
    one service: under the name asked for, with the instance asked for or a free one
    of the group, owned by the session that asked; the reply then carries at least
    one address, or says that none is available. *)
Theorem onAllocServiceAddressReq_spec env s sid req tokens :
  reg_ok (mRegistryTbl s) -> counter_ok (mInstanceIdAllocator s) ->
  exists s' outs, onAllocServiceAddressReq env s sid req tokens = Some (s', outs) /\
    reg_ok (mRegistryTbl s') /\ counter_ok (mInstanceIdAllocator s') /\
    (mRegistryTbl s' = mRegistryTbl s /\
       (exists code, outs = [OutStatus code] /\ code <> FDB_ST_NOT_AVAILABLE) \/
     exists q id, req = Some q /\ registered s s' sid q tokens id /\ fdbIsGroup id = false /\
       (if fdbIsGroup (sn_mInstanceId q) then fdbSameGroup id (sn_mInstanceId q) = true
        else id = sn_mInstanceId q) /\
       (outs = [OutStatus FDB_ST_NOT_AVAILABLE] \/ exists l, outs = [OutReply l] /\ al_mAddressList l <> [])).
Proof.
  intros Hr Hc. unfold onAllocServiceAddressReq. destruct req as [q|].
  2: { do 2 eexists. split; [reflexivity|]. do 2 (split; [done|]). left. split; [done|]. by eexists. }
  destruct (fdbIsGroup (sn_mInstanceId q)) eqn:Eg.
  - destruct (instance_loop_spec (mRegistryTbl s) (c_str (sn_mName q)) (sn_mInstanceId q) _ Hc)
      as (a' & id & E & Hc' & Hid).
    rewrite E. cbn [mbind option_bind]. destruct id as [id|].
    + destruct Hid as (k & Hk & -> & Ht). set (id := group_id _ k) in *.
      pose proof (group_id_single (sn_mInstanceId q) k Hk) as Hs. fold id in Hs.
      destruct (alloc_service env (ns_with_instance s a') sid q tokens id) as [s' outs] eqn:Ea.
      pose proof (alloc_service_spec env (ns_with_instance s a') sid q tokens id Hr Hs
        (not_found_get _ _ _ (rok_shape _ Hr) Hs Ht)) as H. rewrite Ea in H.
      destruct H as (H1 & H2 & H3 & H4). exists s', outs. split; [reflexivity|]. split; [done|].
      split; [by rewrite H3|]. right. exists q, id. split; [done|]. split; [done|]. split; [done|].
      split; [|done]. rewrite Eg. unfold id. rewrite fdbSameGroup_arith.
      rewrite (proj1 (group_id_group _ k (auto_id_code k Hk))). apply Z.eqb_refl.
    + do 2 eexists. split; [reflexivity|]. split; [done|]. split; [done|]. left. split; [done|]. by eexists.
  - destruct (found (findService (mRegistryTbl s) (c_str (sn_mName q)) (sn_mInstanceId q))) eqn:Ef.
    + do 2 eexists. split; [reflexivity|]. do 2 (split; [done|]). left. split; [done|]. by eexists.
    + destruct (alloc_service env s sid q tokens (sn_mInstanceId q)) as [s' outs] eqn:Ea.
      pose proof (alloc_service_spec env s sid q tokens (sn_mInstanceId q) Hr Eg
        (not_found_get _ _ _ (rok_shape _ Hr) Eg Ef)) as H. rewrite Ea in H.
      destruct H as (H1 & H2 & H3 & H4). exists s', outs. split; [reflexivity|]. split; [done|].
      split; [by rewrite H3|]. right. exists q, (sn_mInstanceId q). by rewrite Eg.
Qed.

Lemma onAllocServiceAddressReq_spec_witness :
  exists s' outs, onAllocServiceAddressReq env_ab ns_ab 9
    (Some (mkServerName "c" "ep" FDB_NS_ALLOW_TCP_NORMAL FDB_EXPORTABLE_DOMAIN 0)) []
    = Some (s', outs) /\ reg_ok (mRegistryTbl s').
Proof.
  destruct (onAllocServiceAddressReq_spec env_ab ns_ab 9
    (Some (mkServerName "c" "ep" FDB_NS_ALLOW_TCP_NORMAL FDB_EXPORTABLE_DOMAIN 0)) []
    reg_ab_ok counter_begin) as (s' & outs & E & Hr & _).
  exists s', outs. by split.
Defined.
