(* ===== verification/NsReach.v ===== *)
(** The name server over time: removal and the loss of a session, registration,
    what is announced to whom, and the states the handlers can reach. *)
From S2P Require Import Prelude StdMap CommonDefs Serializer Codec WireBase NsMessages SocketFactory AddressAllocator SvcAddrUtils Subscribe EventObject NameServer NsProofs.
Open Scope list_scope.
Open Scope Z_scope.

(** ** Removal *)

Lemma eraseService_length r name id e :
  reg_get r name id = Some e ->
  S (length (reg_entries (eraseService r name id).2)) = length (reg_entries r).
Proof.
  unfold reg_get, eraseService, reg_entries, reg_refs. rewrite !length_map.
  destruct (m_find name r) as [insts|] eqn:E; simpl; [|done]. intros Ei.
  pose proof (m_erase_length _ _ _ Ei) as Hl. unfold m_prune.
  destruct (m_empty_spec (m_erase id insts)) as [E0|_].
  - pose proof (m_erase_expand (fun n => refs_of n.1 n.2) _ _ _ E) as H. simpl in H.
    unfold refs_of in H at 2. rewrite length_map in H. rewrite E0 in Hl. simpl in Hl. lia.
  - pose proof (m_set_expand (fun n => refs_of n.1 n.2) _ _ (m_erase id insts) _ E) as H. simpl in H.
    unfold refs_of in H at 2 4. rewrite !length_map in H. lia.
Qed.

(** Lists that say that a service is gone. *)
Definition tokens_of (l : FdbMsgAddressList) : list string := tk_mTokens (al_mTokenList l).
Definition gone (l : FdbMsgAddressList) : Prop := al_mAddressList l = [] /\ tokens_of l = [].

Section removal.
Context (env : NsEnv).

Lemma broadcast_sessions_left (P : FdbMsgAddressList -> Prop) send sessions :
  (forall l x, P l -> P (send l x).1) ->
  forall l, P l -> P (broadcast_sessions_to send l sessions).1.
Proof.
  intros Hs. induction sessions as [|x sessions IH]; intros l Hl; simpl; [done|].
  specialize (Hs l x Hl). destruct (send l x) as [l' out]. specialize (IH l' Hs).
  by destruct (broadcast_sessions_to send l' sessions).
Qed.

Lemma local_left s tokens l :
  gone l -> gone (broadcastSvcAddrLocal env s tokens l).1.
Proof.
  unfold broadcastSvcAddrLocal. apply broadcast_sessions_left. intros l' x [Ha _].
  unfold gone, broadcastSvcAddrLocal_to, populateTokensLocal. simpl.
  by destruct (_ && _); simpl; rewrite Ha.
Qed.

Lemma remote_left s tokens l :
  gone l -> gone (broadcastSvcAddrRemote env s tokens l).1.
Proof.
  unfold broadcastSvcAddrRemote. apply broadcast_sessions_left. intros l' x [Ha _].
  unfold gone, broadcastSvcAddrRemote_to, populateTokensRemote. simpl.
  by destruct (_ && _); simpl; rewrite Ha.
Qed.

(** The removal of a registered service. *)
Lemma removeService_present s name id e :
  reg_ok (mRegistryTbl s) -> reg_get (mRegistryTbl s) name id = Some e ->
  exists outs l, removeService env s name id
    = (true, ns_with_registry s (eraseService (mRegistryTbl s) name id).2, outs) /\
    OutBroadcast INTRA_MONITOR id l name ∈ outs /\ gone l.
Proof.
  intros Hr Hg. destruct (rok_keys _ Hr _ _ _ Hg) as (_ & _ & Hsingle & _).
  assert ((name, id, e) ∈ findService (mRegistryTbl s) name id) as Hf.
  { apply findService_in_iff; [apply Hr|]. split; [done|].
    unfold is_name, id_matches. rewrite Hsingle, Z.eqb_refl, bool_decide_true by done.
    by rewrite orb_true_r. }
  unfold removeService.
  destruct (findService (mRegistryTbl s) name id) as [|[[n i] x] rest]; [by apply elem_of_nil in Hf|].
  match goal with |- context [broadcastSvcAddrLocal env s (re_mTokens x) ?l] =>
    pose proof (local_left s (re_mTokens x) l ltac:(by split)) as Hl;
    destruct (broadcastSvcAddrLocal env s (re_mTokens x) l) as [l1 outs1] end.
  simpl in Hl.
  destruct (broadcastSvcAddrRemote env s (re_mTokens x) _) as [l2 outs3].
  pose proof (eraseService_spec (mRegistryTbl s) name id (rok_shape _ Hr)) as He.
  destruct (eraseService (mRegistryTbl s) name id) as [b r']. destruct He as (-> & _).
  rewrite Hg. eexists _, (clear_tokens l1). split; [reflexivity|].
  split; [|by split; [apply Hl|]]. rewrite elem_of_app. right. by left.
Qed.
End removal.

(** ** The loss of a session *)

(** What is left of an entry when a session is lost. *)
Definition survives (sid : Z) (e : CSvcRegistryEntry) : option CSvcRegistryEntry :=
  if re_mSid e =? sid then None else Some e.

(** Every service of the session is announced as gone. *)
Definition announced_gone (r : tRegistryTbl) (sid : Z) (outs : list NsOut) : Prop :=
  forall n i e, reg_get r n i = Some e -> re_mSid e = sid ->
  exists l, OutBroadcast INTRA_MONITOR i l n ∈ outs /\ gone l.

Lemma reg_entries_in r e : reg_shape r ->
  e ∈ reg_entries r <-> exists n i, reg_get r n i = Some e.
Proof.
  intros Hr. unfold reg_entries. rewrite list_elem_of_fmap. split.
  - intros ([[n i] x] & -> & Hx). exists n, i. by apply reg_refs_in.
  - intros (n & i & Hg). exists (n, i, e). split; [done|]. by apply reg_refs_in.
Qed.

Lemma offline_scan_spec env s sid : reg_ok (mRegistryTbl s) ->
  forall es, (forall e, e ∈ es -> e ∈ reg_entries (mRegistryTbl s)) ->
  Forall (fun e => re_mSid e <> sid) es /\ offline_scan env s sid es = (false, s, []) \/
  exists n i e outs l, reg_get (mRegistryTbl s) n i = Some e /\ re_mSid e = sid /\
    offline_scan env s sid es
    = (true, ns_with_registry s (eraseService (mRegistryTbl s) n i).2, outs) /\
    OutBroadcast INTRA_MONITOR i l n ∈ outs /\ gone l.
Proof.
  intros Hr. induction es as [|e es IH]; intros Hin; simpl; [by left|].
  destruct (Z.eqb_spec (re_mSid e) sid) as [E|E].
  - right. destruct (proj1 (reg_entries_in _ _ (rok_shape _ Hr)) (Hin e ltac:(by left))) as (n & i & Hg).
    destruct (rok_keys _ Hr _ _ _ Hg) as (En & Ei & _ & Ec). rewrite En, Ei, Ec.
    destruct (removeService_present env s n i e Hr Hg) as (outs & l & -> & Hin' & Hl).
    by exists n, i, e, outs, l.
  - destruct IH as [[Hall ->]|H]; [intros x Hx; apply Hin; by right|left|by right].
    split; [by constructor|done].
Qed.

Lemma reg_ok_erase s n i :
  reg_ok (mRegistryTbl s) -> reg_ok (mRegistryTbl (ns_with_registry s (eraseService (mRegistryTbl s) n i).2)).
Proof. apply eraseService_ok. Qed.

Lemma erase_get r n i m j : reg_shape r ->
  reg_get (eraseService r n i).2 m j
  = if bool_decide (m = n) && bool_decide (j = i) then None else reg_get r m j.
Proof.
  intros Hr. pose proof (eraseService_spec r n i Hr) as H.
  destruct (eraseService r n i) as [b r']. apply H.
Qed.

Lemma offline_loop_spec env sid : forall fuel s,
  reg_ok (mRegistryTbl s) -> (length (reg_entries (mRegistryTbl s)) < fuel)%nat ->
  exists s' outs, offline_loop env fuel s sid = Some (s', outs) /\ reg_ok (mRegistryTbl s') /\
    (forall n i, reg_get (mRegistryTbl s') n i = reg_get (mRegistryTbl s) n i ≫= survives sid) /\
    announced_gone (mRegistryTbl s) sid outs /\
    s' = ns_with_registry s (mRegistryTbl s').
Proof.
  induction fuel as [|fuel IH]; intros s Hr Hf; [lia|]. simpl.
  destruct (offline_scan_spec env s sid Hr (reg_entries (mRegistryTbl s)) ltac:(done))
    as [[Hall ->]|(n & i & e & outs & l & Hg & Hs & -> & Ho & Hl)].
  - exists s, []. split; [done|]. split; [done|].
    assert (forall n i e, reg_get (mRegistryTbl s) n i = Some e -> re_mSid e <> sid) as Hne.
    { intros n i e Hg. rewrite Forall_forall in Hall. apply Hall, reg_entries_in; [apply Hr|by exists n, i]. }
    split; [|split; [|by destruct s]].
    + intros n i. destruct (reg_get (mRegistryTbl s) n i) as [e|] eqn:Hg; [|done]. simpl.
      unfold survives. by rewrite (proj2 (Z.eqb_neq _ _) (Hne n i e Hg)).
    + intros n i e Hg Hs. by destruct (Hne n i e Hg).
  - pose proof (eraseService_length _ _ _ _ Hg) as Hlen.
    destruct (IH (ns_with_registry s (eraseService (mRegistryTbl s) n i).2)) as (s' & outs' & E & Hr' & Hget & Han & Es).
    { by apply reg_ok_erase. }
    { simpl. lia. }
    rewrite E. simpl. exists s', (outs ++ outs'). split; [done|]. split; [done|]. split; [|split; [|done]].
    + intros m j. rewrite Hget. simpl. rewrite erase_get by apply Hr.
      destruct (bool_decide_reflect (m = n)) as [->|]; [|done].
      destruct (bool_decide_reflect (j = i)) as [->|]; [|done]. simpl. rewrite Hg. simpl.
      unfold survives. by rewrite (proj2 (Z.eqb_eq _ _) Hs).
    + intros m j x Hx Hxs. destruct (decide (m = n /\ j = i)) as [[-> ->]|Hne].
      { exists l. rewrite elem_of_app. by split; [left|]. }
      destruct (Han m j x) as (l' & Hin & Hl'); [|done|].
      { simpl. rewrite erase_get by apply Hr. do 2 (case_bool_decide; simpl; [|done]). tauto. }
      exists l'. rewrite elem_of_app. by split; [right|].
Qed.

(** C5: When a session is lost, the repeated scan of the registry ends, every
    service the session registered is removed and no other, and each removed service
    is announced to the monitors with neither addresses nor tokens.  Nothing else of
    the server changes. *)
Theorem onOffline_spec env s sid :
  reg_ok (mRegistryTbl s) ->
  exists s' outs, onOffline env s sid = Some (s', outs) /\ reg_ok (mRegistryTbl s') /\
    (forall n i, reg_get (mRegistryTbl s') n i = reg_get (mRegistryTbl s) n i ≫= survives sid) /\
    announced_gone (mRegistryTbl s) sid outs /\
    s' = ns_with_registry s (mRegistryTbl s').
Proof. intros Hr. apply offline_loop_spec; [done|lia]. Qed.

Lemma onOffline_spec_witness :
  exists s' outs, onOffline env_ab ns_ab 7 = Some (s', outs) /\
    reg_get (mRegistryTbl s') "a" 3 = None /\ reg_get (mRegistryTbl s') "b" 0 = Some entry_b.
Proof.
  destruct (onOffline_spec env_ab ns_ab 7 reg_ab_ok) as (s' & outs & E & _ & Hg & _).
  exists s', outs. rewrite !Hg. vm_compute reg_get. by split.
Defined.

(** ** Unregistration *)

Lemma removeService_spec env s name id :
  reg_ok (mRegistryTbl s) -> fdbIsGroup id = false ->
  let '(_, s', outs) := removeService env s name id in
  reg_ok (mRegistryTbl s') /\ s' = ns_with_registry s (mRegistryTbl s') /\
  (forall n i, reg_get (mRegistryTbl s') n i
    = if bool_decide (n = name) && bool_decide (i = id) then None else reg_get (mRegistryTbl s) n i) /\
  (is_empty_str name = false -> reg_get (mRegistryTbl s) name id = None -> outs = []).
Proof.
  intros Hr Hs. pose proof (fun n i => erase_get (mRegistryTbl s) name id n i (rok_shape _ Hr)) as Hget.
  unfold removeService. destruct (findService (mRegistryTbl s) name id) as [|[[n i] x] rest] eqn:E.
  - split; [done|]. split; [by destruct s|]. split; [|done]. intros n i.
    do 2 (case_bool_decide; simpl; [subst|done]).
    apply (not_found_get _ _ _ (rok_shape _ Hr) Hs). by rewrite E.
  - destruct (broadcastSvcAddrLocal env s _ _) as [l1 outs1].
    destruct (broadcastSvcAddrRemote env s _ _) as [l2 outs3].
    pose proof (eraseService_ok (mRegistryTbl s) name id Hr) as Hok.
    destruct (eraseService (mRegistryTbl s) name id) as [b r']. simpl in *.
    split; [done|]. split; [done|]. split; [done|]. intros Hne Hg.
    assert ((n, i, x) ∈ findService (mRegistryTbl s) name id) as Hin by (rewrite E; by left).
    apply findService_in_iff in Hin as (Hg' & Hn & Hi); [|apply Hr].
    unfold is_name, id_matches in *. rewrite Hne in Hn. rewrite Hs in Hi.
    apply bool_decide_eq_true in Hn. apply Z.eqb_eq in Hi. subst. congruence.
Qed.

(** Unregistering removes the service of that name and instance from the
    registry, and nothing else; nothing is sent when there is no such service, a
    group of instances is refused. *)
Theorem onUnegisterServiceReq_spec env s q :
  reg_ok (mRegistryTbl s) ->
  let name := c_str (sn_mName q) in
  let id := sn_mInstanceId q in
  let '(s', outs) := onUnegisterServiceReq env s (Some q) in
  reg_ok (mRegistryTbl s') /\ s' = ns_with_registry s (mRegistryTbl s') /\
  if fdbIsGroup id then s' = s /\ outs = [OutStatus FDB_ST_BAD_PARAMETER]
  else
    (forall n i, reg_get (mRegistryTbl s') n i
      = if bool_decide (n = name) && bool_decide (i = id) then None else reg_get (mRegistryTbl s) n i) /\
    (is_empty_str name = false -> reg_get (mRegistryTbl s) name id = None -> outs = []).
Proof.
  intros Hr. unfold onUnegisterServiceReq. destruct (fdbIsGroup (sn_mInstanceId q)) eqn:Eg.
  { split; [done|]. split; [by destruct s|done]. }
  pose proof (removeService_spec env s (c_str (sn_mName q)) (sn_mInstanceId q) Hr Eg) as H.
  by destruct (removeService env s _ _) as [[b s'] outs].
Qed.

Lemma onUnegisterServiceReq_spec_witness :
  reg_get (mRegistryTbl (onUnegisterServiceReq env_ab ns_ab
    (Some (mkServerName "a" "ep" 0 0 3))).1) "a" 3 = None.
Proof.
  pose proof (onUnegisterServiceReq_spec env_ab ns_ab (mkServerName "a" "ep" 0 0 3) reg_ab_ok) as H.
  destruct (onUnegisterServiceReq env_ab ns_ab _) as [s' outs]. destruct H as (_ & _ & H & _).
  simpl. by rewrite H.
Defined.

(** An unregister request with an empty name announces that a service of that
    instance id is gone, although it stays registered. *)
Theorem unregister_empty_name :
  let '(s', outs) := onUnegisterServiceReq env_ab ns_ab (Some (mkServerName "" "ep" 0 0 0)) in
  reg_get (mRegistryTbl s') "b" 0 = Some entry_b /\
  exists l, OutBroadcast INTRA_MONITOR 0 l "" ∈ outs /\ al_mServiceName l = "b"%string /\ gone l.
Proof. vm_compute. split; [done|]. eexists. split; [by left|done]. Qed.

(** ** Registration *)

(** [o] offers the owner of the service [e] the address [d] alone, without tokens. The address is
    not bound yet; for the service of a user the port is left to the system or no other service
    of the registry of [s] has the address. *)
Definition more_address (s : CNameServer) (name : string) (id : Z) (e : CSvcRegistryEntry)
    (d : CFdbAddressDesc) (o : NsOut) : Prop :=
  exists l it,
    o = OutBroadcast MORE_ADDRESS (re_mInstanceId e) l (c_str (re_mSvcName e)) /\
    al_mServiceName l = c_str (re_mSvcName e) /\ al_mInstanceId l = re_mInstanceId e /\
    al_mAddressList l = [it] /\ tokens_of l = [] /\
    ai_mTCPIPCUrl it = ad_url d /\ ai_mExportableLevel it = ad_level d /\ ai_mInterfaceId it = ad_if d /\
    (ad_udp d <> FDB_INET_PORT_INVALID -> ai_mUDPPort it = ad_udp d) /\ ad_mStatus d <> ADDR_BOUND /\
    (re_mSvcType e = FDB_SVC_USER -> ai_mTCPPort it <> FDB_INET_PORT_AUTO ->
     forall n i x c, reg_get (mRegistryTbl s) n i = Some x -> (n, i) <> (name, id) -> c ∈ re_mAddrTbl x ->
       sa_mType (ad_addr c) = ai_mType it -> ad_url c <> ai_mTCPIPCUrl it).

(** [o] offers an address that the entry has afterwards, [e'], unless the report [ms] itself
    names that address as well. *)
Definition offers (s : CNameServer) (name : string) (id : Z) (e e' : CSvcRegistryEntry)
    (ms : list FdbAddrBindStatus) (o : NsOut) : Prop :=
  exists d, more_address s name id e d o /\
    (d ∈ re_mAddrTbl e' \/ ad_url d ∈ (bs_mRequestAddr <$> ms)).

Lemma used_elsewhere r n i x c : reg_shape r -> reg_get r n i = Some x -> c ∈ re_mAddrTbl x ->
  ad_url c ∈ used_urls r (sa_mType (ad_addr c)).
Proof.
  intros Hr Hg Hc. unfold used_urls. apply list_elem_of_fmap. exists c. split; [done|].
  apply list_elem_of_In, filter_In. split.
  - unfold reg_addrs. apply in_flat_map. exists x. split; [|by apply list_elem_of_In].
    apply list_elem_of_In, reg_entries_in; [done|by exists n, i].
  - unfold desc_of_type. apply orb_true_iff. right. by apply bool_decide_eq_true.
Qed.

Section registration.
Context (env : NsEnv).

Lemma allocateAddress_unused {A} `{IAddressAllocator A} r (a : A) cur secure a' x :
  allocateAddress r a FDB_SVC_USER cur secure = (a', x, true) ->
  sa_mPort (aa_mSocketAddr x) = FDB_INET_PORT_AUTO \/ aa_url x ∉ used_urls r (sa_mType (aa_mSocketAddr x)).
Proof. apply alloc_loop_sound. Qed.

Lemma rebind_alloc_spec s e d s' x ok : rebind_alloc env s e d = Some (s', x, ok) ->
  mRegistryTbl s' = mRegistryTbl s /\ mInstanceIdAllocator s' = mInstanceIdAllocator s /\
  (ok = true -> re_mSvcType e = FDB_SVC_USER -> sa_mPort (aa_mSocketAddr x) = FDB_INET_PORT_AUTO \/
     aa_url x ∉ used_urls (mRegistryTbl s) (sa_mType (aa_mSocketAddr x))).
Proof.
  unfold rebind_alloc, allocate_tcp. destruct (bool_decide _).
  - destruct (allocateAddress _ _ _ _ _) as [[i y] b] eqn:E. intros [= <- <- <-]. split_and!; [done..|].
    intros -> Et. rewrite Et in E. by apply allocateAddress_unused in E.
  - destruct (m_find _ (mTCPAllocators s)) as [t|].
    + destruct (allocateAddress _ _ _ _ _) as [[i y] b] eqn:E. intros [= <- <- <-]. split_and!; [done..|].
      intros -> Et. rewrite Et in E. by apply allocateAddress_unused in E.
    + destruct (bool_decide _); [|done]. destruct (m_find _ _) as [t|]; [|done]. simpl.
      destruct (allocateAddress _ _ _ _ _) as [[i y] b] eqn:E. intros [= <- <- <-]. split_and!; [done..|].
      intros -> Et. rewrite Et in E. by apply allocateAddress_unused in E.
Qed.

(** A rejected address is given up, or replaced by one that is offered alone. *)
Lemma rebindToAddress_spec s name id e d :
  reg_shape (mRegistryTbl s) -> ad_mStatus d <> ADDR_BOUND ->
  let '(ok, d', s', outs) := rebindToAddress env s e d in
  mRegistryTbl s' = mRegistryTbl s /\ mInstanceIdAllocator s' = mInstanceIdAllocator s /\
  if ok : bool then exists o, outs = [o] /\ more_address s name id e d' o else outs = [].
Proof.
  intros Hs Hb. unfold rebindToAddress. destruct (_ >=? _); [by repeat split|].
  destruct (rebind_alloc env s e d) as [[[s' x] ok]|] eqn:E; [|by repeat split].
  apply rebind_alloc_spec in E as (Er & Ei & Hu).
  destruct ok; [|by repeat split]. destruct (parseUrl _ _) as [[] a] eqn:Ea; [|by repeat split].
  split; [done|]. split; [done|]. eexists. split; [done|].
  match goal with |- more_address _ _ _ _ _ (OutBroadcast _ _ ?l _) => exists l end.
  eexists. split; [done|]. split; [done|]. split; [done|]. split; [done|]. split; [done|].
  set (udp := if bool_decide (sa_mType (ad_addr d) = FDB_SOCKET_IPC) then FDB_INET_PORT_INVALID else _).
  apply parseUrl_url in Ea. specialize (Hu eq_refl).
  assert (forall it, let it' := if udp =? FDB_INET_PORT_INVALID then it else set_udp_port it udp in
    ai_mTCPIPCUrl it' = ai_mTCPIPCUrl it /\ ai_mExportableLevel it' = ai_mExportableLevel it /\
    ai_mInterfaceId it' = ai_mInterfaceId it /\ ai_mTCPPort it' = ai_mTCPPort it /\ ai_mType it' = ai_mType it /\
    (udp <> FDB_INET_PORT_INVALID -> ai_mUDPPort it' = udp)) as Hit.
  { intros it. destruct (Z.eqb_spec udp FDB_INET_PORT_INVALID); by split_and!. }
  clearbody udp. match goal with |- context [if udp =? _ then ?it else _] => destruct (Hit it) as (-> & -> & -> & -> & -> & Hp) end.
  split; [by unfold ad_url|]. split; [done|]. split; [done|]. split; [exact Hp|]. split; [done|].
  intros Et Hport n i y c Hg _ Hc Ety Hurl. destruct (Hu Et) as [|Hn]; [done|]. apply Hn.
  simpl in Ety, Hurl. rewrite <- Ety. unfold aa_url. rewrite <- Hurl. by eapply used_elsewhere.
Qed.

(** Other services are the same in both registries. *)
Lemma more_address_from s s' name id e e1 d o :
  touched s name id e s' e1 -> reg_shape (mRegistryTbl s) -> reg_get (mRegistryTbl s) name id = Some e ->
  more_address s' name id e1 d o -> more_address s name id e d o.
Proof.
  intros T Hs Hg (l & it & H). pose proof (th_ident _ _ _ _ _ _ T) as Hi. unfold ident in Hi. rewrite Hi in H.
  exists l, it. destruct H as (? & ? & ? & ? & ? & ? & ? & ? & ? & ? & Hu). split_and!; try done.
  intros Et Hp n i x c Hx Hne. apply (Hu Et Hp n i); [|done]. rewrite (th_get _ _ _ _ _ _ T Hs Hg).
  case_bool_decide; [|done]. case_bool_decide; [|done]. by subst.
Qed.

Lemma delete_elem {A} (l : list A) i x y : l !! i = Some x -> y ∈ l -> y = x \/ y ∈ delete i l.
Proof.
  intros Hx Hy. rewrite <- (take_drop_middle l i x Hx) in Hy. rewrite delete_take_drop.
  rewrite elem_of_app, elem_of_cons in Hy. rewrite elem_of_app. tauto.
Qed.

Lemma insert_elem {A} (l : list A) i x y z : l !! i = Some x -> y ∈ l -> y = x \/ y ∈ <[i := z]> l.
Proof.
  intros Hx Hy. rewrite <- (take_drop_middle l i x Hx) in Hy. rewrite insert_take_drop by (by eapply lookup_lt_Some).
  rewrite elem_of_app, elem_of_cons in Hy. rewrite elem_of_app, elem_of_cons. tauto.
Qed.

(** One reported address. *)
Lemma register_item_spec s name id e news m :
  reg_shape (mRegistryTbl s) ->
  let '(s', e', _, outs) := register_item env s name id e news m in
  touched s name id e s' e' /\
  Forall (fun o => exists d, more_address s name id e d o /\ d ∈ re_mAddrTbl e') outs /\
  (forall d, d ∈ re_mAddrTbl e -> d ∈ re_mAddrTbl e' \/ ad_url d = bs_mRequestAddr m).
Proof.
  intros Hs. unfold register_item. destruct (find_url _ _) as [[i d]|] eqn:Ef.
  - apply list_find_Some in Ef as (Hd & Hu & _).
    destruct (is_empty_str (bs_mBindAddr m)).
    + case_bool_decide; [split; [by apply touched_same|]; split; [done|by left]|].
      pose proof (rebindToAddress_spec s name id e d Hs ltac:(done)) as H0.
      destruct (rebindToAddress env s e d) as [[[ok d'] s'] outs]. destruct H0 as (Er & Ei & Ho).
      split; [eapply touched_trans; [by apply (touched_same s name id e s')|]; apply touched_put, ident_set|].
      destruct ok; simpl.
      * destruct Ho as (o & -> & Ho). split.
        { apply Forall_singleton. exists d'. split; [done|]. apply list_elem_of_lookup. exists i.
          apply list_lookup_insert_eq. by eapply lookup_lt_Some. }
        intros c Hc. destruct (insert_elem _ _ _ _ d' Hd Hc) as [->|]; [by right|by left].
      * subst. split; [done|]. intros c Hc. destruct (delete_elem _ _ _ _ Hd Hc) as [->|]; [by right|by left].
    + split; [apply touched_put, ident_set|]. split; [done|]. simpl.
      intros c Hc. match goal with |- c ∈ <[_:=?z]> _ \/ _ => destruct (insert_elem _ _ _ _ z Hd Hc) as [->|]; [by right|by left] end.
  - destruct (parseUrl _ _) as [ok a]. split; [by apply touched_same|]. split; [done|by left].
Qed.

Lemma register_items_spec name id ms : forall s e news,
  reg_shape (mRegistryTbl s) -> reg_get (mRegistryTbl s) name id = Some e ->
  let '(s', e', _, outs) := register_items env s name id e news ms in
  touched s name id e s' e' /\ Forall (offers s name id e e' ms) outs /\
  (forall d, d ∈ re_mAddrTbl e -> d ∈ re_mAddrTbl e' \/ ad_url d ∈ (bs_mRequestAddr <$> ms)).
Proof.
  induction ms as [|m ms IH]; intros s e news Hs Hg; simpl.
  { split; [by apply touched_same|]. split; [done|by left]. }
  pose proof (register_item_spec s name id e news m Hs) as H1.
  destruct (register_item env s name id e news m) as [[[s1 e1] news1] outs1].
  destruct H1 as (T1 & Ho1 & Hk1).
  assert (reg_get (mRegistryTbl s1) name id = Some e1) as Hg1.
  { rewrite (th_get _ _ _ _ _ _ T1 Hs Hg). by rewrite !bool_decide_true. }
  specialize (IH s1 e1 news1 (th_shape _ _ _ _ _ _ T1 Hs) Hg1).
  destruct (register_items env s1 name id e1 news1 ms) as [[[s2 e2] news2] outs2].
  destruct IH as (T2 & Ho2 & Hk2). split; [by eapply touched_trans|]. split.
  - apply Forall_app. split.
    + eapply Forall_impl; [exact Ho1|]. intros o (d & Hm & Hd). exists d. split; [done|].
      rewrite fmap_cons, elem_of_cons. destruct (Hk2 d Hd); tauto.
    + eapply Forall_impl; [exact Ho2|]. intros o (d & Hm & Hd). exists d.
      split; [by eapply more_address_from|]. rewrite fmap_cons, elem_of_cons. destruct Hd; tauto.
  - intros d Hd. rewrite elem_of_cons. destruct (Hk1 d Hd) as [Hd1|]; [destruct (Hk2 d Hd1); tauto|tauto].
Qed.

Lemma connectToHostServer_same s url local :
  let s' := (connectToHostServer s url local).1 in
  mRegistryTbl s' = mRegistryTbl s /\ mInstanceIdAllocator s' = mInstanceIdAllocator s.
Proof. unfold connectToHostServer. by destruct (is_empty_str url). Qed.

(** The addresses of a service as the monitors get them. *)
Definition monitored (e : CSvcRegistryEntry) : list FdbMsgAddressItem :=
  flat_map (fun d => @prepareAddress (env_indet env) d FDB_EXPORTABLE_ANY) (re_mAddrTbl e).

(** The addresses of a service as the remote hosts get them. *)
Definition remote_items (s : CNameServer) (e : CSvcRegistryEntry) : list FdbMsgAddressItem :=
  flat_map (fun d => if is_remote_tcp d
    then @prepareAddress (env_indet env) d (mMaxDomainExportableLevel s) else []) (re_mAddrTbl e).

Lemma notify_lists s e :
  let '(_, _, remote, all) := prepareAddressesToNotify env s e in
  al_mAddressList remote = remote_items s e /\ al_mAddressList all = monitored e /\
  al_mServiceName all = c_str (re_mSvcName e) /\ tokens_of all = [].
Proof.
  unfold prepareAddressesToNotify. destruct (best_local_ipc (re_mAddrTbl e)); [done|].
  by destruct (List.filter (is_tcp_at FDB_LOCAL_HOST) (re_mAddrTbl e)).
Qed.

Lemma announce_service_spec s svc id e :
  let '(s', outs) := announce_service env s svc id e in
  mRegistryTbl s' = mRegistryTbl s /\ mInstanceIdAllocator s' = mInstanceIdAllocator s /\
  (monitored e <> [] -> exists l, OutBroadcast INTRA_MONITOR id l (c_str svc) ∈ outs /\
     al_mAddressList l = monitored e /\ al_mServiceName l = c_str (re_mSvcName e)).
Proof.
  unfold announce_service.
  pose proof (notify_lists s e) as Hn.
  destruct (prepareAddressesToNotify env s e) as [[[best local] remote] all].
  destruct Hn as (_ & Ea & En & _).
  pose proof (connectToHostServer_same s best true) as Hc.
  destruct (bool_decide _ && negb _);
    [destruct (connectToHostServer s best true) as [s1 outs0]|]; simpl in *;
    (split; [by try apply Hc|]); (split; [by try apply Hc|]); intros Hne;
    exists (set_is_local all true); rewrite Ea;
    (destruct (monitored e) as [|it its] eqn:Em; [done|]); simpl;
    (split; [|by split]); rewrite ?elem_of_app, !elem_of_cons; tauto.
Qed.
End registration.

Lemma find_single r name id e : reg_ok r -> is_empty_str name = false ->
  reg_get r name id = Some e -> findService r name id = [(name, id, e)].
Proof.
  intros Hr Hne Hg. destruct (rok_keys _ Hr _ _ _ Hg) as (_ & _ & Hs & _). revert Hg.
  unfold findService, findService_in, reg_get. rewrite Hne, Hs.
  destruct (m_find name r) as [insts|]; simpl; [|done]. by intros ->.
Qed.

(** The offers are those of the service as it was, besides its owner. *)
Lemma offers_from s sid name id e e1 news ms o :
  reg_shape (mRegistryTbl s) ->
  offers (ns_with_registry s (reg_put (mRegistryTbl s) name id (re_set_sid e sid))) name id (re_set_sid e sid) e1 ms o ->
  offers s name id e (re_set_addrs e1 (re_mAddrTbl e1 ++ news)) ms o.
Proof.
  intros Hs (d & (l & it & H) & Hd). exists d. split; [|simpl; rewrite elem_of_app; tauto].
  exists l, it. destruct H as (? & ? & ? & ? & ? & ? & ? & ? & ? & ? & Hu). split_and!; try done.
  intros Et Hp n i x c Hx Hne. apply (Hu Et Hp n i); [|done]. simpl. rewrite reg_get_put by done.
  case_bool_decide; [|done]. case_bool_decide; [|done]. by subst.
Qed.

(** The report of the bound addresses, up to the announcement. *)
Lemma register_core env s sid name id e ms :
  reg_ok (mRegistryTbl s) -> reg_get (mRegistryTbl s) name id = Some e ->
  let s0 := ns_with_registry s (reg_put (mRegistryTbl s) name id (re_set_sid e sid)) in
  let '(s1, e1, news, outs) := register_items env s0 name id (re_set_sid e sid) [] ms in
  let e' := re_set_addrs e1 (re_mAddrTbl e1 ++ news) in
  let s2 := ns_with_registry s1 (reg_put (mRegistryTbl s1) name id e') in
  reg_ok (mRegistryTbl s2) /\ mInstanceIdAllocator s2 = mInstanceIdAllocator s /\
  Forall (offers s name id e e' ms) outs /\ ident (re_set_sid e sid) e' /\
  forall n i, reg_get (mRegistryTbl s2) n i
    = if bool_decide (n = name) && bool_decide (i = id) then Some e' else reg_get (mRegistryTbl s) n i.
Proof.
  intros Hr Hg. destruct (rok_keys _ Hr _ _ _ Hg) as (En & Ei & Hs & Ec).
  set (e0 := re_set_sid e sid). set (s0 := ns_with_registry s (reg_put (mRegistryTbl s) name id e0)).
  assert (reg_ok (mRegistryTbl s0)) as Hr0 by (apply reg_ok_put; [done|by split_and!]).
  assert (reg_get (mRegistryTbl s0) name id = Some e0) as Hg0.
  { simpl. rewrite reg_get_put by apply Hr. by rewrite !bool_decide_true. }
  pose proof (register_items_spec env name id ms s0 e0 [] (rok_shape _ Hr0) Hg0) as H. simpl.
  destruct (register_items env s0 name id e0 [] ms) as [[[s1 e1] news] outs]. destruct H as (T & Ho & _).
  set (e' := re_set_addrs e1 (re_mAddrTbl e1 ++ news)).
  pose proof (touched_trans _ _ _ _ _ _ _ _ T (touched_put s1 name id e1 e' ltac:(apply ident_set))) as T'.
  set (s2 := ns_with_registry s1 (reg_put (mRegistryTbl s1) name id e')) in *.
  destruct (touched_ok _ _ _ _ _ _ T' Hr0 Hg0) as [Hr2 _].
  split; [done|]. split; [apply (th_inst _ _ _ _ _ _ T')|].
  split; [by eapply Forall_impl; [exact Ho|intros o; apply (offers_from s sid), Hr]|]. split; [apply T'|].
  intros n i. change (reg_put _ _ _ e') with (mRegistryTbl s2).
  rewrite (th_get _ _ _ _ _ _ T' (rok_shape _ Hr0) Hg0). simpl.
  rewrite reg_get_put by apply Hr. by destruct (_ && _).
Qed.

(** C7: The report of the bound addresses of a registered service changes only
    that service: the reporting session becomes its owner, and besides its addresses
    nothing of it changes.  What is sent first are offers, each of one new address under the name
    and the instance of the service: an address its entry has afterwards (unless the report names
    it as well), not bound yet and, for the service of a user whose port is not left to the system, of no other
    service.  Until every address is bound nothing else is sent; once they are, the monitors get them all.
    An empty report removes the service. *)
Theorem onRegisterServiceReq_spec env s sid q e :
  let name := c_str (br_mServiceName q) in
  let id := br_mInstanceId q in
  reg_ok (mRegistryTbl s) -> is_empty_str name = false -> reg_get (mRegistryTbl s) name id = Some e ->
  let '(s', outs) := onRegisterServiceReq env s sid (Some q) in
  reg_ok (mRegistryTbl s') /\
  match br_mAddrList q with
  | [] => outs = [] /\ forall n i, reg_get (mRegistryTbl s') n i
      = if bool_decide (n = name) && bool_decide (i = id) then None else reg_get (mRegistryTbl s) n i
  | _ => exists e', ident (re_set_sid e sid) e' /\
      (forall n i, reg_get (mRegistryTbl s') n i
        = if bool_decide (n = name) && bool_decide (i = id) then Some e' else reg_get (mRegistryTbl s) n i) /\
      exists offered announced, outs = offered ++ announced /\
        Forall (offers s name id e e' (br_mAddrList q)) offered /\
        if hasPendingAddress e' then announced = []
        else monitored env e' <> [] -> exists l, OutBroadcast INTRA_MONITOR id l name ∈ announced /\
          al_mAddressList l = monitored env e' /\ al_mServiceName l = c_str (re_mSvcName e)
  end.
Proof.
  intros name id Hr Hne Hg. destruct (rok_keys _ Hr _ _ _ Hg) as (En & Ei & Hs & Ec).
  unfold onRegisterServiceReq. fold id name. rewrite Hs, (find_single _ _ _ _ Hr Hne Hg).
  destruct (br_mAddrList q) as [|it its].
  { split; [by apply eraseService_ok|]. split; [done|]. intros n i. by apply erase_get, Hr. }
  pose proof (register_core env s sid name id e (it :: its) Hr Hg) as H. cbv zeta in H |- *.
  destruct (register_items env _ name id _ [] (it :: its)) as [[[s1 e1] news] outs].
  destruct H as (Hr2 & _ & Ho & Hid & Hget).
  set (e' := re_set_addrs e1 (re_mAddrTbl e1 ++ news)) in *.
  destruct (hasPendingAddress e') eqn:Ep.
  { split; [done|]. exists e'. split; [done|]. split; [done|]. exists outs, [].
    rewrite app_nil_r, Ep. by split. }
  match goal with |- context [announce_service env ?s2 ?n ?i e'] =>
    pose proof (announce_service_spec env s2 n i e') as Ha;
    destruct (announce_service env s2 n i e') as [s3 outs'] end.
  destruct Ha as (Er & _ & Ha).
  rewrite Er. split; [done|]. exists e'. rewrite Ep. split; [done|]. split; [done|].
  exists outs, outs'. split; [done|]. split; [done|].
  intros Hm. destruct (Ha Hm) as (l & Hl & Hal & Hn). exists l. split; [done|]. split; [done|].
  rewrite Hn. by rewrite Hid.
Qed.

Lemma onRegisterServiceReq_spec_witness :
  exists e', reg_get (mRegistryTbl (onRegisterServiceReq env_ab ns_ab 9
    (Some (mkAddrBindResults "b" [mkAddrBindStatus "" "tcp://10.0.0.1:60004" 0] 0))).1) "b" 0 = Some e' /\
    re_mSid e' = 9.
Proof.
  pose proof (onRegisterServiceReq_spec env_ab ns_ab 9
    (mkAddrBindResults "b" [mkAddrBindStatus "" "tcp://10.0.0.1:60004" 0] 0) entry_b
    reg_ab_ok eq_refl eq_refl) as H.
  destruct (onRegisterServiceReq env_ab ns_ab 9 _) as [s' outs].
  destruct H as (_ & e' & Hi & Hg & _). exists e'. simpl in *. rewrite Hg. split; [done|]. by rewrite Hi.
Defined.

(** ** Tokens *)

(** The tokens a session of a security level is entitled to: a remote name server
    those up to its level, a local client the one of its level. *)
Definition granted_remote (tokens : list string) (level : Z) : list string :=
  if level <? 0 then [] else map c_str (take (Z.to_nat (level + 1)) tokens).
Definition granted_local (tokens : list string) (level : Z) : list string :=
  if level <? 0 then []
  else map c_str (option_list (tokens !! Z.to_nat (Z.min level (Z.of_nat (length tokens) - 1)))).

Lemma al_set_tokens_twice l t t' : al_set_tokens (al_set_tokens l t) t' = al_set_tokens l t'.
Proof. unfold al_set_tokens. simpl. f_equal. apply set_bit_twice. Qed.

Lemma populateTokensRemote_granted env tokens l x :
  populateTokensRemote env tokens l x = al_set_tokens l (granted_remote tokens (env_remote_level env x)).
Proof.
  unfold populateTokensRemote, granted_remote. set (k := env_remote_level env x). clearbody k.
  rewrite Z.geb_leb. destruct (Z.leb_spec 0 k), (Z.ltb_spec k 0); try lia; [|done].
  destruct (Z.eqb_spec (Z.of_nat (length tokens)) 0) as [E|E]; simpl.
  - destruct tokens; [|done]. by rewrite take_nil.
  - f_equal. unfold clamp_level. rewrite Z.geb_leb. destruct (Z.leb_spec (Z.of_nat (length tokens)) k); [|done].
    rewrite !take_ge by lia. done.
Qed.

Lemma populateTokensLocal_granted env tokens l x :
  populateTokensLocal env tokens l x
  = al_set_tokens l (granted_local tokens (env_security_level env x (c_str (al_mServiceName l)))).
Proof.
  unfold populateTokensLocal, granted_local. set (k := env_security_level _ _ _). clearbody k.
  rewrite Z.geb_leb. destruct (Z.leb_spec 0 k), (Z.ltb_spec k 0); try lia; [|done].
  destruct (Z.eqb_spec (Z.of_nat (length tokens)) 0) as [E|E]; simpl.
  - destruct tokens; [done|done].
  - f_equal. replace (clamp_level tokens k) with (Z.min k (Z.of_nat (length tokens) - 1)).
    2: { unfold clamp_level. rewrite Z.geb_leb. destruct (Z.leb_spec (Z.of_nat (length tokens)) k); lia. }
    destruct (lookup_lt_is_Some_2 tokens (Z.to_nat (Z.min k (Z.of_nat (length tokens) - 1)))) as [t Ht]; [lia|].
    rewrite Ht. by rewrite (drop_S _ _ _ Ht).
Qed.

(** A list goes to each session with its own tokens when sending changes nothing
    but the tokens. *)
Lemma broadcast_sessions_outs (send : FdbMsgAddressList -> Z -> FdbMsgAddressList * NsOut)
    (out : Z -> NsOut) (P : FdbMsgAddressList -> Prop) sessions :
  (forall l x, P l -> P (send l x).1 /\ (send l x).2 = out x) ->
  forall l, P l -> (broadcast_sessions_to send l sessions).2 = map out sessions.
Proof.
  intros Hs. induction sessions as [|x sessions IH]; intros l Hl; simpl; [done|].
  destruct (Hs l x Hl) as [Hl' Ho]. destruct (send l x) as [l' o]. specialize (IH l' Hl'). simpl in *.
  destruct (broadcast_sessions_to send l' sessions) as [l'' outs]. simpl in *. congruence.
Qed.

Lemma udp_clients_twice r l :
  allocateUDPPortForClients r (allocateUDPPortForClients r l) = allocateUDPPortForClients r l.
Proof.
  unfold allocateUDPPortForClients, al_set_addresses. simpl. f_equal. rewrite map_map. apply map_ext.
  intros it. destruct (bool_decide (ai_mType it = FDB_SOCKET_IPC)) eqn:E; [by rewrite E|].
  destruct (allocateUDPPort r (ai_mTCPIPCAddress it)) as [p|] eqn:Ep; simpl; rewrite E; [|by rewrite Ep].
  rewrite Ep. unfold set_udp_port. simpl. f_equal. apply set_bit_twice.
Qed.

(** Every session gets the announcement of a service with exactly the tokens
    of its own security level, whatever the sessions served before it: a remote name
    server the tokens up to its level, a local client the single token of its level
    (the last one when the level is higher), and none below level 0. *)
Theorem broadcast_tokens env s tokens l :
  let name := c_str (al_mServiceName l) in
  (broadcastSvcAddrRemote env s tokens l).2
  = map (fun x => OutBroadcastTo INTER_NORMAL x (al_mInstanceId l)
                    (al_set_tokens l (granted_remote tokens (env_remote_level env x))) name)
      (subscribers s INTER_NORMAL l) /\
  (broadcastSvcAddrLocal env s tokens l).2
  = map (fun x => OutBroadcastTo INTRA_NORMAL x (al_mInstanceId l)
                    (al_set_tokens (allocateUDPPortForClients (mRegistryTbl s) l)
                       (granted_local tokens (env_security_level env x name))) name)
      (subscribers s INTRA_NORMAL l).
Proof.
  split.
  - unfold broadcastSvcAddrRemote. apply (broadcast_sessions_outs _ _ (fun m =>
      forall t, al_set_tokens m t = al_set_tokens l t)); [|done]. intros m x Hm.
    unfold broadcastSvcAddrRemote_to, clear_tokens. rewrite populateTokensRemote_granted, Hm. simpl.
    split; [|done]. intros t. by rewrite !al_set_tokens_twice.
  - unfold broadcastSvcAddrLocal. set (u := allocateUDPPortForClients (mRegistryTbl s)).
    apply (broadcast_sessions_outs _ _ (fun m =>
      forall t, u (al_set_tokens m t) = al_set_tokens (u l) t /\ al_mServiceName m = al_mServiceName l)); [|done].
    intros m x Hm. unfold broadcastSvcAddrLocal_to, clear_tokens. fold u.
    rewrite populateTokensLocal_granted, (proj1 (Hm _)), (proj2 (Hm [])). simpl.
    split; [|done]. intros t. split; [|done]. rewrite !al_set_tokens_twice.
    change (al_set_tokens (u (u l)) t = al_set_tokens (u l) t). unfold u. by rewrite udp_clients_twice.
Qed.

(** ** What leaves the host *)

(** May an address of a level be sent where [max_level] is the limit? *)
Definition crosses (d : CFdbAddressDesc) (max_level : Z) : Prop :=
  ad_level d <= max_level /\
  (ad_level d = FDB_EXPORTABLE_NODE_INTERNAL ->
   max_level = FDB_EXPORTABLE_ANY \/ max_level = FDB_EXPORTABLE_NODE_INTERNAL).

Lemma ns_checkExportable_spec d m : ns_checkExportable d m = true <-> crosses d m.
Proof.
  unfold ns_checkExportable, crosses. rewrite Z.gtb_ltb.
  destruct (Z.ltb_spec m (ad_level d)); [split; [done|lia]|].
  destruct (Z.eqb_spec (ad_level d) FDB_EXPORTABLE_NODE_INTERNAL) as [E|E].
  - destruct (Z.eqb_spec m FDB_EXPORTABLE_ANY), (Z.eqb_spec m FDB_EXPORTABLE_NODE_INTERNAL); simpl;
      (split; [|done]) || (split; [done|]); intuition (auto; lia).
  - split; [|done]. by split.
Qed.

Lemma prepareAddress_in {I : Indet} d m it :
  it ∈ prepareAddress d m <-> it = populateAddressItem d FdbMsgAddressItem_new /\ crosses d m.
Proof.
  unfold prepareAddress. rewrite <- ns_checkExportable_spec.
  destruct (ns_checkExportable d m); rewrite ?list_elem_of_singleton, ?elem_of_nil; intuition congruence.
Qed.

Lemma flat_map_in {X Y} (f : X -> list Y) l y : y ∈ flat_map f l <-> exists x, x ∈ l /\ y ∈ f x.
Proof.
  rewrite list_elem_of_In, in_flat_map. split; intros (x & H); exists x;
    by rewrite !list_elem_of_In in *.
Qed.

Section boundary.
Context (env : NsEnv).
Let ns_indet : Indet := env_indet env.
#[local] Existing Instance ns_indet.

(** The addresses a remote host is told in an announcement. *)
Lemma remote_items_in s e it :
  it ∈ remote_items env s e <->
  exists d, d ∈ re_mAddrTbl e /\ it = populateAddressItem d FdbMsgAddressItem_new /\
    sa_mType (ad_addr d) <> FDB_SOCKET_IPC /\ sa_mAddr (ad_addr d) <> FDB_LOCAL_HOST /\
    crosses d (mMaxDomainExportableLevel s).
Proof.
  unfold remote_items. rewrite flat_map_in. apply exist_proper. intros d.
  destruct (is_remote_tcp d) eqn:E; unfold is_remote_tcp in E.
  - rewrite prepareAddress_in. apply andb_true_iff in E as [E1 E2].
    apply negb_true_iff, bool_decide_eq_false in E1, E2. tauto.
  - rewrite elem_of_nil. apply andb_false_iff in E.
    rewrite !negb_false_iff, !bool_decide_eq_true in E. tauto.
Qed.

Lemma populateAddrList_in tbl t m it :
  it ∈ populateAddrList tbl t m <->
  exists d, d ∈ tbl /\ (t = FDB_SOCKET_MAX \/ t = sa_mType (ad_addr d)) /\ ad_mStatus d = ADDR_BOUND /\
    it = populateAddressItem d FdbMsgAddressItem_new /\ crosses d m.
Proof.
  unfold populateAddrList. rewrite flat_map_in. apply exist_proper. intros d.
  destruct (_ && _) eqn:E.
  - rewrite prepareAddress_in. apply andb_true_iff in E as [E1 E2].
    rewrite orb_true_iff, !bool_decide_eq_true in E1. apply bool_decide_eq_true in E2. tauto.
  - rewrite elem_of_nil. apply andb_false_iff in E.
    rewrite orb_false_iff, !bool_decide_eq_false in E. tauto.
Qed.

(** [it] is one of the addresses [P] of the service, as it is. *)
Definition told (e : CSvcRegistryEntry) (P : CFdbAddressDesc -> Prop) (it : FdbMsgAddressItem) : Prop :=
  exists d, d ∈ re_mAddrTbl e /\ P d /\ it = populateAddressItem d FdbMsgAddressItem_new.

(** The addresses for those on other hosts: of the network, up to the level of the domain. *)
Definition for_domain (s : CNameServer) (d : CFdbAddressDesc) : Prop :=
  sa_mType (ad_addr d) <> FDB_SOCKET_IPC /\ sa_mAddr (ad_addr d) <> FDB_LOCAL_HOST /\
  crosses d (mMaxDomainExportableLevel s).

(** What an announcement says to other hosts: the subscribers the addresses for the domain and nothing
    else, the monitors every address of a valid level, without tokens. *)
Definition leaves_host (s : CNameServer) (e : CSvcRegistryEntry) (o : NsOut) : Prop :=
  match o with
  | OutBroadcastTo INTER_NORMAL _ _ l _ => forall it, it ∈ al_mAddressList l <-> told e (for_domain s) it
  | OutBroadcast INTER_MONITOR _ l _ =>
      tokens_of l = [] /\ forall it, it ∈ al_mAddressList l <-> told e (fun d => crosses d FDB_EXPORTABLE_ANY) it
  | OutBroadcast INTER_NORMAL _ _ _ | OutBroadcastTo INTER_MONITOR _ _ _ _ => False
  | _ => True
  end.

Lemma remote_told s e it : it ∈ remote_items env s e <-> told e (for_domain s) it.
Proof. rewrite remote_items_in. apply exist_proper. intros d. unfold for_domain. tauto. Qed.

Lemma monitored_told e it :
  it ∈ monitored env e <-> told e (fun d => crosses d FDB_EXPORTABLE_ANY) it.
Proof.
  unfold monitored. rewrite flat_map_in. apply exist_proper. intros d. fold ns_indet.
  rewrite prepareAddress_in. tauto.
Qed.

Lemma remote_broadcast_leaves s s' e tokens l :
  al_mAddressList l = remote_items env s e ->
  Forall (leaves_host s e) (broadcastSvcAddrRemote env s' tokens l).2.
Proof.
  intros El. destruct (broadcast_tokens env s' tokens l) as [-> _].
  apply Forall_fmap, Forall_true. intros x it. simpl. rewrite El. apply remote_told.
Qed.

Lemma local_broadcast_leaves s s' e tokens l :
  Forall (leaves_host s e) (broadcastSvcAddrLocal env s' tokens l).2.
Proof.
  destruct (broadcast_tokens env s' tokens l) as [_ ->]. by apply Forall_fmap, Forall_true.
Qed.

Lemma announce_leaves s svc id e : Forall (leaves_host s e) (announce_service env s svc id e).2.
Proof.
  unfold announce_service. pose proof (notify_lists env s e) as Hn.
  destruct (prepareAddressesToNotify env s e) as [[[best local] remote] all].
  destruct Hn as (Er & Ea & _ & Et).
  assert (Forall (leaves_host s e) (connectToHostServer s best true).2) as Hc
    by (unfold connectToHostServer; destruct (is_empty_str best); by repeat constructor).
  assert (forall s', Forall (leaves_host s e) (postSvcTable env s')) as Hp
    by (intros s'; by apply Forall_fmap, Forall_true).
  destruct (bool_decide _ && negb _);
    [destruct (connectToHostServer s best true) as [s1 outs0]|]; simpl in *;
    repeat apply Forall_app_2; try done; try apply Hp;
    destruct (found _); try apply local_broadcast_leaves; try (by apply remote_broadcast_leaves); try done;
    repeat constructor; simpl; try done; rewrite ?Ea; apply monitored_told.
Qed.

End boundary.

(** ** The exported table *)

Lemma exported_spec s d : exported s d = true <->
  mMinUpstreamExportableLevel s <= ad_level d /\ ad_mStatus d = ADDR_BOUND.
Proof.
  unfold exported. rewrite negb_orb, negb_involutive, andb_true_iff, bool_decide_eq_true, negb_true_iff.
  by rewrite Z.ltb_ge.
Qed.

Lemma populateExportAddrList_in {I : Indet} s l : reg_ok (mRegistryTbl s) ->
  l ∈ populateExportAddrList s <->
  exists name id e, reg_get (mRegistryTbl s) name id = Some e /\
    List.filter (exported s) (re_mAddrTbl e) <> [] /\
    l = add_addresses (setEntryInfo s FdbMsgAddressList_new e false 0)
          (map export_item (List.filter (exported s) (re_mAddrTbl e))).
Proof.
  intros Hr. unfold populateExportAddrList. rewrite flat_map_in. split.
  - intros (e & He & Hl). apply reg_entries_in in He as (n & i & Hg); [|apply Hr]. exists n, i, e.
    split; [done|]. destruct (List.filter _ _); [by apply elem_of_nil in Hl|].
    by apply list_elem_of_singleton in Hl.
  - intros (n & i & e & Hg & Hne & ->). exists e. split; [apply reg_entries_in; [apply Hr|by exists n, i]|].
    destruct (List.filter _ _); [done|]. by apply list_elem_of_singleton.
Qed.

(** The table exported to the host servers lists exactly the bound addresses
    of the registered services whose level reaches the upstream level of the domain,
    under the name and the instance of their service; no service is listed without
    an address. *)
Theorem export_table_exact {I : Indet} s name id it :
  reg_ok (mRegistryTbl s) ->
  Forall (fun l => al_mAddressList l <> []) (populateExportAddrList s) /\
  ((exists l, l ∈ populateExportAddrList s /\ al_mServiceName l = name /\ al_mInstanceId l = id /\
      it ∈ al_mAddressList l) <->
   exists e d, reg_get (mRegistryTbl s) name id = Some e /\ d ∈ re_mAddrTbl e /\ it = export_item d /\
     mMinUpstreamExportableLevel s <= ad_level d /\ ad_mStatus d = ADDR_BOUND).
Proof.
  intros Hr. split; [apply Forall_forall; intros l Hl|split].
  - apply populateExportAddrList_in in Hl as (n & i & e & Hg & Hne & ->); [|done]. simpl.
    by destruct (List.filter _ _).
  - intros (l & Hl & Hn & Hi & Hit).
    apply populateExportAddrList_in in Hl as (n & i & e & Hg & Hne & ->); [|done].
    destruct (rok_keys _ Hr _ _ _ Hg) as (En & Ei & _ & Ec). simpl in *.
    rewrite En, Ec in Hn. subst. apply list_elem_of_fmap in Hit as (d & -> & Hd).
    apply list_elem_of_In, filter_In in Hd as [Hd Hx]. rewrite exported_spec in Hx.
    exists e, d. by rewrite list_elem_of_In.
  - intros (e & d & Hg & Hd & -> & Hx). apply exported_spec in Hx.
    destruct (rok_keys _ Hr _ _ _ Hg) as (En & Ei & _ & Ec).
    assert (d ∈ List.filter (exported s) (re_mAddrTbl e)) as Hf
      by (apply list_elem_of_In, filter_In; by rewrite <- list_elem_of_In).
    eexists. split; [apply populateExportAddrList_in; [done|]; exists name, id, e; split; [done|]|].
    + split; [|done]. intros E. rewrite E in Hf. by apply elem_of_nil in Hf.
    + simpl. rewrite En, Ec. split; [done|]. split; [done|]. by apply list_elem_of_fmap; exists d.
Qed.

(** A bound address on an exported interface. *)
Definition desc_up : CFdbAddressDesc :=
  mkAddressDesc (mkAddrInfo (mkSocketAddr "tcp://10.0.0.1:60004" FDB_SOCKET_TCP "10.0.0.1" 0 60004 false)
                   0 FDB_EXPORTABLE_DOMAIN 0) ADDR_BOUND 0.
Definition ns_up : CNameServer :=
  ns_with_registry ns_ab (reg_put reg_ab "b" 0 (re_set_addrs entry_b [desc_up])).

Lemma export_table_exact_witness :
  exists l, l ∈ @populateExportAddrList 0 ns_up /\ al_mServiceName l = "b"%string /\
    al_mInstanceId l = 0 /\ @export_item 0 desc_up ∈ al_mAddressList l.
Proof.
  apply (@export_table_exact 0 ns_up "b" 0 (@export_item 0 desc_up)).
  - apply reg_ok_put; [apply reg_ab_ok|by repeat split].
  - exists (re_set_addrs entry_b [desc_up]), desc_up. split; [done|]. split; [by left|]. by vm_compute.
Defined.

(** ** Secrecy of the tokens *)

(** A message that more than one session can receive carries no token. *)
Definition no_leak (o : NsOut) : Prop :=
  match o with
  | OutBroadcast _ _ l _ => tokens_of l = []
  | OutPostSvcTable _ t => Forall (fun l => tokens_of l = []) (ex_mSvcAddrList t)
  | _ => True
  end.

Lemma offers_no_leak s name id e e' ms outs : Forall (offers s name id e e' ms) outs -> Forall no_leak outs.
Proof.
  intros H. eapply Forall_impl; [exact H|]. by intros o (d & (l & it & -> & _ & _ & _ & Ht & _) & _).
Qed.

Section secrecy.
Context (env : NsEnv).

Lemma postSvcTable_no_leak s : Forall no_leak (postSvcTable env s).
Proof.
  unfold postSvcTable. apply Forall_fmap, Forall_true. intros p. simpl.
  apply Forall_forall. intros l. unfold populateExportAddrList. rewrite flat_map_in.
  intros (e & _ & Hl). destruct (List.filter _ _); [by apply elem_of_nil in Hl|].
  by apply list_elem_of_singleton in Hl as ->.
Qed.

Lemma sessions_no_leak send sessions :
  (forall l x, no_leak (send l x).2) -> forall l, Forall no_leak (broadcast_sessions_to send l sessions).2.
Proof.
  intros Hs. induction sessions as [|x sessions IH]; intros l; simpl; [done|].
  specialize (Hs l x). destruct (send l x) as [l' o]. specialize (IH l').
  destruct (broadcast_sessions_to send l' sessions). by constructor.
Qed.

Lemma local_no_leak s tokens l : Forall no_leak (broadcastSvcAddrLocal env s tokens l).2.
Proof. by apply sessions_no_leak. Qed.

Lemma remote_no_leak s tokens l : Forall no_leak (broadcastSvcAddrRemote env s tokens l).2.
Proof. by apply sessions_no_leak. Qed.

Lemma announce_no_leak s svc id e : Forall no_leak (announce_service env s svc id e).2.
Proof.
  unfold announce_service. pose proof (notify_lists env s e) as Hn.
  destruct (prepareAddressesToNotify env s e) as [[[best local] remote] all].
  destruct Hn as (_ & _ & _ & Ht).
  assert (Forall no_leak (connectToHostServer s best true).2) as Hc
    by (unfold connectToHostServer; destruct (is_empty_str best); by repeat constructor).
  destruct (bool_decide _ && negb _);
    [destruct (connectToHostServer s best true) as [s1 outs0]|]; simpl in *;
    repeat apply Forall_app_2; try done; try apply postSvcTable_no_leak;
    destruct (found _); try apply local_no_leak; try apply remote_no_leak; by repeat constructor.
Qed.

Lemma remove_no_leak s name id : Forall no_leak (removeService env s name id).2.
Proof.
  unfold removeService. destruct (findService _ _ _) as [|[[n i] e] rest]; [done|].
  match goal with |- context [broadcastSvcAddrLocal env s ?t ?l] =>
    pose proof (local_no_leak s t l) as H1; destruct (broadcastSvcAddrLocal env s t l) as [l1 o1] end.
  match goal with |- context [broadcastSvcAddrRemote env s ?t ?l] =>
    pose proof (remote_no_leak s t l) as H2; destruct (broadcastSvcAddrRemote env s t l) as [l2 o2] end.
  destruct (eraseService _ _ _) as [b r']. simpl in *.
  repeat (apply Forall_app_2 || constructor || done). destruct (existsb _ _); [apply postSvcTable_no_leak|done].
Qed.

Lemma offline_no_leak sid : forall fuel s s' outs,
  offline_loop env fuel s sid = Some (s', outs) -> Forall no_leak outs.
Proof.
  assert (forall es s, Forall no_leak (offline_scan env s sid es).2) as Hscan.
  { induction es as [|e es IH]; intros s; simpl; [done|]. destruct (_ =? _); [|apply IH].
    pose proof (remove_no_leak s (c_str (re_mSvcName e)) (re_mInstanceId e)) as H.
    destruct (removeService env s _ _) as [[[] s1] o1]; [done|]. specialize (IH s1).
    destruct (offline_scan env s1 sid es) as [[b s2] o2]. by apply Forall_app_2. }
  induction fuel as [|fuel IH]; intros s s' outs; simpl; [done|].
  specialize (Hscan (reg_entries (mRegistryTbl s)) s).
  destruct (offline_scan env s sid _) as [[[] s1] o1]; [|by intros [= <- <-]].
  destruct (offline_loop env fuel s1 sid) as [[s2 o2]|] eqn:E; [|done]. simpl. intros [= <- <-].
  apply Forall_app_2; [done|by eapply IH].
Qed.

Lemma register_no_leak s sid req : reg_ok (mRegistryTbl s) -> Forall no_leak (onRegisterServiceReq env s sid req).2.
Proof.
  intros Hr. unfold onRegisterServiceReq. destruct req as [q|]; [|by repeat constructor].
  destruct (fdbIsGroup _); [by repeat constructor|].
  destruct (findService _ _ _) as [|[[n i] e] rest] eqn:Ef; [by repeat constructor|].
  destruct (br_mAddrList q) as [|it its]; [done|].
  assert ((n, i, e) ∈ findService (mRegistryTbl s) (c_str (br_mServiceName q)) (br_mInstanceId q)) as Hin
    by (rewrite Ef; by left).
  apply findService_in_iff in Hin as [Hg _]; [|apply Hr].
  pose proof (register_core env s sid n i e (it :: its) Hr Hg) as H. cbv zeta in H |- *.
  destruct (register_items env _ n i _ [] (it :: its)) as [[[s1 e1] news] outs].
  destruct H as (_ & _ & Ho%offers_no_leak & _). destruct (hasPendingAddress _); [done|].
  match goal with |- context [announce_service env ?s2 ?a ?b ?c] =>
    pose proof (announce_no_leak s2 a b c) as Ha; destruct (announce_service env s2 a b c) as [s3 o3] end.
  by apply Forall_app_2.
Qed.

(** An address list that is being filled keeps its tokens. *)
Lemma add_allocated_tokens name id xs : forall s e l,
  tokens_of <$> (add_allocated env s name id e xs l).2 = tokens_of <$> l.
Proof.
  induction xs as [|x xs IH]; intros s e l; simpl; [done|].
  destruct (addressRegistered _ _); [apply IH|]. rewrite IH. by destruct l.
Qed.

Lemma addServiceAddress_tokens s name id e inet l :
  tokens_of <$> (addServiceAddress env s name id e inet l).2 = tokens_of <$> l.
Proof.
  assert (forall s e b l, tokens_of <$> (addOneServiceAddress env s name id e b l).2 = tokens_of <$> l) as H1.
  { intros s0 e0 b l0. unfold addOneServiceAddress.
    destruct (if b then allocateTCPAddress env s0 e0 else allocateIPCAddress s0 e0).
    apply add_allocated_tokens. }
  unfold addServiceAddress. destruct inet; [rewrite H1; by destruct l|].
  match goal with |- context [addOneServiceAddress env s name id e false ?l1] =>
    pose proof (H1 s e false l1) as H2;
    destruct (addOneServiceAddress env s name id e false l1) as [[s1 e1] l2] end.
  rewrite H1. simpl in H2. rewrite H2. by destruct l.
Qed.

Lemma host_online_no_leak keys : forall s, Forall no_leak (host_online_loop env s keys).2.
Proof.
  induction keys as [|[n i] keys IH]; intros s; simpl; [done|].
  match goal with |- context [let '(_, _) := ?x in _] => assert (Forall no_leak x.2) as H; [|destruct x as [s1 o1]] end.
  - destruct (reg_get _ n i) as [e|]; [|done]. destruct (bool_decide _); [done|].
    match goal with |- context [addServiceAddress env s n i e true ?l] =>
      pose proof (addServiceAddress_tokens s n i e true l) as Ht;
      destruct (addServiceAddress env s n i e true l) as [[s1 e1] l1] end.
    destruct (found _); [|done]. destruct (negb _); [|done].
    destruct l1 as [l1|]; [|done]. constructor; [|done]. by injection Ht.
  - specialize (IH s1). destruct (host_online_loop env s1 keys) as [s2 o2]. by apply Forall_app_2.
Qed.
End secrecy.

(** ** Reachable states *)

(** What holds of the server between any two requests. *)
Definition ns_ok (s : CNameServer) : Prop :=
  reg_ok (mRegistryTbl s) /\ counter_ok (mInstanceIdAllocator s).

Section invariant.
Context (env : NsEnv).

Lemma ns_ok_same s s' :
  mRegistryTbl s' = mRegistryTbl s -> mInstanceIdAllocator s' = mInstanceIdAllocator s -> ns_ok s -> ns_ok s'.
Proof. unfold ns_ok. by intros -> ->. Qed.

Lemma register_keeps s sid req : ns_ok s -> ns_ok (onRegisterServiceReq env s sid req).1.
Proof.
  intros [Hr Hc]. unfold onRegisterServiceReq. destruct req as [q|]; [|done].
  destruct (fdbIsGroup _); [done|].
  destruct (findService _ _ _) as [|[[n i] e] rest] eqn:Ef; [done|].
  destruct (br_mAddrList q) as [|it its]; [by split; [apply eraseService_ok|]|].
  assert ((n, i, e) ∈ findService (mRegistryTbl s) (c_str (br_mServiceName q)) (br_mInstanceId q)) as Hin
    by (rewrite Ef; by left).
  apply findService_in_iff in Hin as [Hg _]; [|apply Hr].
  pose proof (register_core env s sid n i e (it :: its) Hr Hg) as H. cbv zeta in H |- *.
  destruct (register_items env _ n i _ [] (it :: its)) as [[[s1 e1] news] outs].
  destruct H as (Hr2 & Hi & _). rewrite <- Hi in Hc. destruct (hasPendingAddress _); [done|].
  match goal with |- context [announce_service env ?s2 ?a ?b ?c] =>
    pose proof (announce_service_spec env s2 a b c) as Ha; destruct (announce_service env s2 a b c) as [s3 o3] end.
  destruct Ha as (E1 & E2 & _). by apply (ns_ok_same _ _ E1 E2).
Qed.

Lemma unregister_keeps s req : ns_ok s -> ns_ok (onUnegisterServiceReq env s req).1.
Proof.
  intros [Hr Hc]. unfold onUnegisterServiceReq. destruct req as [q|]; [|done].
  destruct (fdbIsGroup _) eqn:Eg; [done|].
  pose proof (removeService_spec env s (c_str (sn_mName q)) (sn_mInstanceId q) Hr Eg) as H.
  destruct (removeService env s _ _) as [[b s'] outs]. destruct H as (Hr' & -> & _). done.
Qed.

(** A step of [onHostOnline] for one service. *)
Lemma host_online_keeps keys : forall s, ns_ok s -> ns_ok (host_online_loop env s keys).1.
Proof.
  induction keys as [|[n i] keys IH]; intros s Hs; simpl; [done|].
  match goal with |- context [let '(_, _) := ?x in _] => assert (ns_ok x.1) as H; [|destruct x as [s1 o1]] end.
  - destruct (reg_get _ n i) as [e|] eqn:Hg; [|done]. destruct (bool_decide _); [done|].
    match goal with |- context [addServiceAddress env s n i e true ?l] =>
      pose proof (addServiceAddress_touched env s n i e true l) as T;
      destruct (addServiceAddress env s n i e true l) as [[s1 e1] l1] end.
    destruct Hs as [Hr Hc]. destruct (touched_ok _ _ _ _ _ _ T Hr Hg) as [Hr1 Hg1].
    rewrite <- (th_inst _ _ _ _ _ _ T) in Hc.
    destruct (found _); [|done]. destruct (negb _); [done|]. split; [|done].
    apply reg_ok_put; [done|]. apply (rok_keys _ Hr1 _ _ _ Hg1).
  - specialize (IH s1 H). by destruct (host_online_loop env s1 keys) as [s2 o2].
Qed.

Lemma onHostOnline_keeps s online local domain : ns_ok s -> ns_ok (onHostOnline env s online local domain).1.
Proof.
  intros Hs. unfold onHostOnline. destruct (negb online); [done|]. destruct (negb (m_empty _)); [done|].
  apply host_online_keeps. by destruct local.
Qed.

Lemma import_same ifs : forall s,
  mRegistryTbl (foldl (importNetInterface env) s ifs) = mRegistryTbl s /\
  mInstanceIdAllocator (foldl (importNetInterface env) s ifs) = mInstanceIdAllocator s.
Proof.
  induction ifs as [|x ifs IH]; intros s; simpl; [done|]. destruct (IH (importNetInterface env s x)) as [-> ->].
  unfold importNetInterface. destruct (is_empty_str x); [done|].
  destruct (String.index 0 "+" x) as [p|]; [destruct (String.index 0 "+" _)|]; done.
Qed.

Lemma connect_hosts_same urls : forall s,
  mRegistryTbl (connect_hosts s urls).1 = mRegistryTbl s /\
  mInstanceIdAllocator (connect_hosts s urls).1 = mInstanceIdAllocator s.
Proof.
  induction urls as [|u urls IH]; intros s; simpl; [done|].
  pose proof (connectToHostServer_same s u false) as [E1 E2].
  destruct (connectToHostServer s u false) as [s1 o1]. destruct (IH s1) as [E3 E4].
  destruct (connect_hosts s1 urls) as [s2 o2]. simpl in *. by rewrite E3, E4.
Qed.

Lemma online_keeps s params tokens : ns_ok s -> ns_ok (online env s params tokens).1.2.
Proof.
  intros Hs. unfold online.
  destruct (import_same (op_interfaces params) s) as [E1 E2].
  set (s1 := foldl (importNetInterface env) s (op_interfaces params)) in *. clearbody s1.
  apply (ns_ok_same s s1 E1 E2) in Hs. clear E1 E2.
  set (s2 := if op_force_bind params then _ else s1).
  assert (ns_ok s2) as [Hr Hc] by (unfold s2; by destruct (op_force_bind params)). clearbody s2. clear Hs.
  set (e := mkEntry FDB_INVALID_ID _ tokens _ _ _ _ _ _ _).
  assert (entry_at FDB_NAME_SERVER_NAME FDB_DEFAULT_INSTANCE e) as He.
  { split_and!; try done. unfold e. simpl.
    destruct (reg_get (mRegistryTbl s2) FDB_NAME_SERVER_NAME FDB_DEFAULT_INSTANCE) eqn:E; [|done].
    by apply (rok_keys _ Hr) in E as (_ & ? & _). }
  pose proof (reg_ok_put _ _ _ _ Hr He) as Hr3.
  set (s3 := ns_with_registry s2 _).
  assert (reg_get (mRegistryTbl s3) FDB_NAME_SERVER_NAME FDB_DEFAULT_INSTANCE = Some e) as Hg3.
  { simpl. rewrite reg_get_put by apply Hr. by rewrite !bool_decide_true. }
  pose proof (addServiceAddress_touched env s3 FDB_NAME_SERVER_NAME FDB_DEFAULT_INSTANCE e false None) as T.
  destruct (addServiceAddress env s3 _ _ e false None) as [[s4 e4] l4].
  destruct (touched_ok _ _ _ _ _ _ T Hr3 Hg3) as [Hr4 Hg4].
  destruct (bindNsAddress env (re_mAddrTbl e4)) as [tbl success].
  set (s5 := ns_with_registry s4 _).
  assert (ns_ok s5) as H5.
  { split; [|simpl; by rewrite (th_inst _ _ _ _ _ _ T)]. apply reg_ok_put; [done|].
    apply (rok_keys _ Hr4 _ _ _ Hg4). }
  destruct (negb success); [done|]. destruct (connect_hosts_same (op_hosts params) s5) as [E1 E2].
  destruct (connect_hosts s5 (op_hosts params)) as [s6 o6]. by apply (ns_ok_same s5 s6).
Qed.
End invariant.

Definition ns_with_publishers (s : CNameServer) (p : SubscribeType -> CFdbBaseObject) : CNameServer :=
  mkNs (mRegistryTbl s) (mIPCAllocator s) (mTCPAllocators s) (mNetInterfaces s) (mHostName s)
    (mDomainName s) (mName s) (mSelfExportableLevel s) (mMaxDomainExportableLevel s)
    (mMinUpstreamExportableLevel s) (mTCPSecure s) (mHostProxyTbl s) (mInstanceIdAllocator s) p.

(** The requests and events the server handles, in any order, and what it sends. *)
Inductive ns_step (env : NsEnv) (s : CNameServer) : CNameServer -> list NsOut -> Prop :=
  | step_alloc sid req tokens s' outs :
      onAllocServiceAddressReq env s sid req tokens = Some (s', outs) -> ns_step env s s' outs
  | step_register sid req s' outs :
      onRegisterServiceReq env s sid req = (s', outs) -> ns_step env s s' outs
  | step_unregister req s' outs :
      onUnegisterServiceReq env s req = (s', outs) -> ns_step env s s' outs
  | step_offline sid s' outs :
      onOffline env s sid = Some (s', outs) -> ns_step env s s' outs
  | step_host online local domain s' outs :
      onHostOnline env s online local domain = (s', outs) -> ns_step env s s' outs
  | step_listen svc id session t :
      ns_step env s s (onServiceOnlineReg env s svc id session t)
  | step_subscribers p :
      ns_step env s (ns_with_publishers s p) [].

Inductive ns_reach (env : NsEnv) : CNameServer -> Prop :=
  | reach_online host self max_domain min_upstream secure params tokens :
      ns_reach env (online env (CNameServer_new host self max_domain min_upstream secure) params tokens).1.2
  | reach_step s s' outs : ns_reach env s -> ns_step env s s' outs -> ns_reach env s'.

(** A request for addresses is answered to its sender alone. *)
Definition answer (o : NsOut) : Prop :=
  match o with OutStatus _ | OutReply _ => True | _ => False end.

Lemma alloc_keeps env s sid req tokens : ns_ok s ->
  exists s' outs, onAllocServiceAddressReq env s sid req tokens = Some (s', outs) /\ ns_ok s' /\
    Forall answer outs.
Proof.
  intros [Hr Hc]. unfold onAllocServiceAddressReq.
  assert (forall s0 q id, ns_ok s0 -> fdbIsGroup id = false ->
    found (findService (mRegistryTbl s0) (c_str (sn_mName q)) id) = false ->
    exists s' outs, Some (alloc_service env s0 sid q tokens id) = Some (s', outs) /\ ns_ok s' /\
      Forall answer outs) as Hserve.
  { intros s0 q id [Hr0 Hc0] Hs Hf.
    pose proof (alloc_service_spec env s0 sid q tokens id Hr0 Hs
      (not_found_get _ _ _ (rok_shape _ Hr0) Hs Hf)) as H.
    destruct (alloc_service env s0 sid q tokens id) as [s' outs]. destruct H as (H1 & _ & H3 & H4).
    exists s', outs. split; [done|]. split; [by split; [|rewrite H3]|].
    destruct H4 as [->|(l & -> & _)]; by repeat constructor. }
  destruct req as [q|]; [|do 2 eexists; split; [reflexivity|]; split; [by split|by repeat constructor]].
  destruct (fdbIsGroup (sn_mInstanceId q)) eqn:Eg.
  - destruct (instance_loop_spec (mRegistryTbl s) (c_str (sn_mName q)) (sn_mInstanceId q) _ Hc)
      as (a' & id & E & Hc' & Hid).
    rewrite E. cbn [mbind option_bind]. destruct id as [id|].
    + destruct Hid as (k & Hk & -> & Ht). apply Hserve; [done|by apply group_id_single|done].
    + do 2 eexists. split; [reflexivity|]. split; [by split|by repeat constructor].
  - destruct (found _) eqn:Ef; [|by apply Hserve].
    do 2 eexists. split; [reflexivity|]. split; [by split|by repeat constructor].
Qed.

Lemma step_keeps env s s' outs : ns_step env s s' outs -> ns_ok s -> ns_ok s'.
Proof.
  intros Hst Hs. destruct Hst as [sid req tokens s' outs E|sid req s' outs E|req s' outs E
    |sid s' outs E|online local domain s' outs E|svc id session t|p].
  - destruct (alloc_keeps env s sid req tokens Hs) as (s1 & o1 & E1 & Hs1 & _). by simplify_eq.
  - pose proof (register_keeps env s sid req Hs) as H. by rewrite E in H.
  - pose proof (unregister_keeps env s req Hs) as H. by rewrite E in H.
  - destruct Hs as [Hr Hc].
    destruct (offline_loop_spec env sid (S (length (reg_entries (mRegistryTbl s)))) s Hr ltac:(lia))
      as (s1 & o1 & E1 & Hr1 & _ & _ & Es). unfold onOffline in E. simplify_eq. by rewrite Es.
  - pose proof (onHostOnline_keeps env s online local domain Hs) as H. by rewrite E in H.
  - done.
  - done.
Qed.

Lemma reach_keeps env s : ns_reach env s -> ns_ok s.
Proof.
  induction 1 as [|s s' outs _ IH Hst]; [|by eapply step_keeps].
  apply online_keeps. split; [apply reg_ok_nil|apply counter_begin].
Qed.

(** C1: In every state the server can reach, whatever it is asked and in whatever
    order, every service is stored under its own name and its own single instance,
    no name is left without instances and the counter of instance ids is in its
    range; so every request for addresses is answered and every lost session is
    cleaned up. *)
Theorem reachable_ok env s :
  ns_reach env s ->
  reg_ok (mRegistryTbl s) /\ counter_ok (mInstanceIdAllocator s) /\
  (forall sid req tokens, is_Some (onAllocServiceAddressReq env s sid req tokens)) /\
  (forall sid, is_Some (onOffline env s sid)).
Proof.
  intros H%reach_keeps. split; [apply H|]. split; [apply H|]. split.
  - intros sid req tokens. destruct (alloc_keeps env s sid req tokens H) as (s' & o & E & _).
    rewrite E. by eexists.
  - intros sid. destruct H as [Hr _].
    destruct (offline_loop_spec env sid (S (length (reg_entries (mRegistryTbl s)))) s Hr ltac:(lia))
      as (s1 & o1 & E & _). unfold onOffline. rewrite E. by eexists.
Qed.

Definition params_ab : COnlineParams := mkOnlineParams [] [] [] true.

Lemma reachable_ok_witness :
  is_Some (onOffline env_ab (online env_ab (CNameServer_new "h" (-1) (-1) (-1) false) params_ab []).1.2 7).
Proof.
  apply (reachable_ok env_ab (online env_ab (CNameServer_new "h" (-1) (-1) (-1) false) params_ab []).1.2).
  apply reach_online.
Defined.

Lemma step_no_leak env s s' outs : ns_step env s s' outs -> ns_ok s -> Forall no_leak outs.
Proof.
  intros Hst Hs. destruct Hst as [sid req tokens s' outs E|sid req s' outs E|req s' outs E
    |sid s' outs E|online local domain s' outs E|svc id session t|p].
  - destruct (alloc_keeps env s sid req tokens Hs) as (s1 & o1 & E1 & _ & Ho). simplify_eq.
    eapply Forall_impl; [exact Ho|]. by intros [].
  - pose proof (register_no_leak env s sid req (proj1 Hs)) as H. by rewrite E in H.
  - unfold onUnegisterServiceReq in E. destruct req as [q|]; [|simplify_eq; by repeat constructor].
    destruct (fdbIsGroup _); [simplify_eq; by repeat constructor|].
    pose proof (remove_no_leak env s (c_str (sn_mName q)) (sn_mInstanceId q)) as H.
    destruct (removeService env s _ _) as [[b s1] o1]. by simplify_eq.
  - by eapply offline_no_leak.
  - unfold onHostOnline in E. destruct (negb online); [by simplify_eq|].
    destruct (negb (m_empty _)); [by simplify_eq|].
    match type of E with host_online_loop _ ?s0 ?k = _ =>
      pose proof (host_online_no_leak env k s0) as H end. by rewrite E in H.
  - apply Forall_forall. intros o Ho. unfold onServiceOnlineReg in Ho.
    repeat rewrite elem_of_app in Ho. destruct Ho as [Ho|[Ho|Ho]].
    + apply flat_map_in in Ho as (ref & _ & Ho). unfold broadServiceAddress in Ho.
      repeat match type of Ho with context [if ?b then _ else _] => destruct b end;
        rewrite ?elem_of_nil, ?list_elem_of_singleton in Ho; by subst.
    + by apply list_elem_of_fmap in Ho as (p & -> & _).
    + destruct (_ || _); [by apply elem_of_nil in Ho|]. destruct (bool_decide _); [by apply elem_of_nil in Ho|].
      apply elem_of_app in Ho as [(p & -> & _)%list_elem_of_fmap| ->%list_elem_of_singleton]; done.
  - done.
Qed.

(** C13: Whatever the server is asked, in every reachable state, what it sends to
    more than one receiver, to monitors, to services or to the host servers, carries
    no token: tokens only leave in messages to a single session. *)
Theorem tokens_never_broadcast env s s' outs :
  ns_reach env s -> ns_step env s s' outs -> Forall no_leak outs.
Proof. intros Hs Hst. eapply step_no_leak; [done|]. by eapply reach_keeps. Qed.

Lemma tokens_never_broadcast_witness :
  let s := (online env_ab (CNameServer_new "h" (-1) (-1) (-1) false) params_ab []).1.2 in
  Forall no_leak (onUnegisterServiceReq env_ab s (Some (mkServerName FDB_NAME_SERVER_NAME "" 0 0 0))).2.
Proof.
  intros s.
  apply (tokens_never_broadcast env_ab s
    (onUnegisterServiceReq env_ab s (Some (mkServerName FDB_NAME_SERVER_NAME "" 0 0 0))).1).
  - apply reach_online.
  - eapply step_unregister. apply surjective_pairing.
Defined.

(** ** Configured ports *)

(** A service with a fixed port in the configuration gets that port on its
    interface, but the address carries no export level: whatever the level of the
    interface, the address is internal to the node and is never told to another
    host of the domain. *)
Theorem configured_port_internal env r a t it :
  sa_mType it = FDB_SOCKET_TCP -> tcp_mInterfaceIp a = sa_mAddr it ->
  tcp_allocateKnownAddr (env_cfg env) a CFdbSocketAddr_new t (sa_mSecure it) = None ->
  sa_mPort it <> FDB_INET_PORT_AUTO -> findAddress r FDB_SOCKET_TCP (sa_mUrl it) = None ->
  exists x, allocate_network env r a t (sa_mSecure it) it = (a, [x]) /\ aa_mSocketAddr x = it /\
    forall d m, ad_level d = aa_mExportableLevel x -> FDB_EXPORTABLE_DOMAIN <= m < FDB_EXPORTABLE_ANY ->
    @prepareAddress (env_indet env) d m = [].
Proof.
  intros Et Ei Ek Hp Hf. exists (mkAllocated it 0 0). unfold allocate_network.
  rewrite !bool_decide_true, Ek, (proj2 (Z.eqb_neq _ _) Hp), Et, Hf by done.
  split; [done|]. split; [done|]. intros d m Hl Hm. unfold prepareAddress.
  destruct (ns_checkExportable d m) eqn:E; [|done]. apply ns_checkExportable_spec in E as [_ E].
  unfold FDB_EXPORTABLE_DOMAIN, FDB_EXPORTABLE_NODE_INTERNAL in *. simpl in Hl. specialize (E Hl). lia.
Qed.

Lemma configured_port_internal_witness :
  let a := tcp_set (CTCPAddressAllocator_new (env_cfg env_ab) 0) "10.0.0.1" "" FDB_EXPORTABLE_DOMAIN 0 in
  let it := mkSocketAddr "tcp://10.0.0.1:5000" FDB_SOCKET_TCP "10.0.0.1" 0 5000 false in
  exists x, allocate_network env_ab reg_ab a FDB_SVC_USER false it = (a, [x]).
Proof.
  intros a it.
  destruct (configured_port_internal env_ab reg_ab a FDB_SVC_USER it) as (x & E & _); try by vm_compute.
  by exists x.
Defined.
