(* ===== verification/FdWatch.v ===== *)
(** The byte stream under a session: [CSysFdWatch] of src/worker/CSysFdWatch.cpp.

    A watch holds the bytes read but not yet consumed ([CInputDataChunk], one
    growing buffer) and the messages not yet fully written ([COutputDataChunk],
    a queue). The socket is a parameter of every operation that uses it: a
    [TxSocket] has the answers [send] gives, one per call, and the bytes it took.

    The theorems of this file are about writing: [out_ok] is the invariant of the
    queue, and whatever the socket accepts at each call, the bytes on the wire
    are those of the submitted messages, in order and without gaps. *)
From S2P Require Import Prelude Serializer.

(** [poll] events, with their values on Linux. *)
Definition POLLIN : Z := 1.
Definition POLLOUT : Z := 4.
Definition POLLERR : Z := 8.
Definition POLLHUP : Z := 16.

(** Whether the allocation of so many bytes succeeds. *)
Class Heap := heap_ok : Z -> bool.

(** ** The input buffer *)

Definition mDefaultInputChunkSize : Z := Z.shiftl 1 15 - 0xbad.
Definition mMaxInputChunkSize : Z := Z.shiftl mDefaultInputChunkSize 15.

(** [ic_mBuffer = None] is the null pointer. *)
Record CInputDataChunk := mkInChunk {
  ic_mBuffer : option (list Z);
  ic_mSize : Z;
  ic_mOffset : Z;
  ic_mConsumed : Z }.

Definition CInputDataChunk_new : CInputDataChunk := mkInChunk None 0 0 0.

Definition getTailSize (c : CInputDataChunk) : Z := ic_mSize c - ic_mOffset c - ic_mConsumed c.

(** The memory from [mBuffer + mOffset] on. *)
Definition getBufferHead (c : CInputDataChunk) : list Z :=
  drop (Z.to_nat (ic_mOffset c)) (default [] (ic_mBuffer c)).

Definition getExpectedSize (total_size : Z) (c : CInputDataChunk) : Z :=
  if total_size >? ic_mConsumed c then total_size - ic_mConsumed c else 0.

(** The bytes still missing, or 0 and the bytes copied to [output]. [memcpy] of a
    negative size or from outside the buffer is undefined. *)
Definition extractData (size : Z) (c : CInputDataChunk) : option (Z * list Z * CInputDataChunk) :=
  if size >? ic_mConsumed c then Some (size - ic_mConsumed c, [], c) else
  if (0 <=? size) && (size <=? Z.of_nat (length (getBufferHead c))) then
    Some (0, take (Z.to_nat size) (getBufferHead c),
          mkInChunk (ic_mBuffer c) (ic_mSize c) (ic_mOffset c + size) (ic_mConsumed c - size))
  else None.

Section input.
Context {H : Heap}.

(** What [memcpy] leaves in a block when the [n] bytes at [src] are copied to its
    start and source and target overlap: the C standard leaves this undefined,
    the platform's function decides. *)
Context (memcpy_overlap : list Z -> Z -> Z -> list Z).

Definition memcpy_down (buf : list Z) (src n : Z) : list Z :=
  if n <=? src
  then take (Z.to_nat n) (drop (Z.to_nat src) buf) ++ drop (Z.to_nat n) buf
  else memcpy_overlap buf src n.

(** The bytes that have arrived are moved to the start of the buffer when they
    leave too little room behind them. *)
Definition chunk_compact (size_expected : Z) (c : CInputDataChunk) : CInputDataChunk :=
  if negb (ic_mConsumed c =? 0) then
    if (getTailSize c <? size_expected) && negb (ic_mOffset c =? 0)
    then mkInChunk ((fun b => memcpy_down b (ic_mOffset c) (ic_mConsumed c)) <$> ic_mBuffer c)
           (ic_mSize c) 0 (ic_mConsumed c)
    else c
  else mkInChunk (ic_mBuffer c) (ic_mSize c) 0 (ic_mConsumed c).

(** Then it is enlarged when there is still too little room. The result of
    [realloc] is not tested. *)
Definition chunk_grow (size_expected : Z) (c : CInputDataChunk) : bool * CInputDataChunk :=
  if getTailSize c <? size_expected then
    let size_expected := if size_expected <? mDefaultInputChunkSize
                         then mDefaultInputChunkSize else size_expected in
    let new_size := ic_mSize c + size_expected in
    if new_size >? mMaxInputChunkSize then (false, c)
    else (true, mkInChunk (if heap_ok new_size then flip realloc new_size <$> ic_mBuffer c else None)
                  new_size (ic_mOffset c) (ic_mConsumed c))
  else (true, c).

Definition checkBufferSize (size_expected : Z) (c : CInputDataChunk) : bool * CInputDataChunk :=
  if size_expected >? mMaxInputChunkSize then (false, c) else
  match ic_mBuffer c with
  | None =>
      let small := mkInChunk None mDefaultInputChunkSize (ic_mOffset c) (ic_mConsumed c) in
      let new_size := size_expected + mDefaultInputChunkSize in
      if mDefaultInputChunkSize <? size_expected then
        if new_size >? mMaxInputChunkSize then (false, small)
        else if heap_ok new_size then (true, mkInChunk (Some (malloc new_size)) new_size 0 0)
        else (false, mkInChunk None new_size (ic_mOffset c) (ic_mConsumed c))
      else if heap_ok mDefaultInputChunkSize
        then (true, mkInChunk (Some (malloc mDefaultInputChunkSize)) mDefaultInputChunkSize 0 0)
        else (false, small)
  | Some _ => chunk_grow size_expected (chunk_compact size_expected c)
  end.

(** [CInputDataChunk::enable]. *)
Definition chunk_enable (enb : bool) (c : CInputDataChunk) : CInputDataChunk :=
  if enb then (checkBufferSize 0 c).2
  else match ic_mBuffer c with Some _ => CInputDataChunk_new | None => c end.
End input.

(** ** The output queue *)

(** [oc_mLogBuffer] is the log record to send once the message is out. *)
Record COutputDataChunk := mkOutChunk {
  oc_mBuffer : list Z;
  oc_mSize : Z;
  oc_mConsumed : Z;
  oc_mLogBuffer : option (list Z) }.

Definition COutputDataChunk_new {H : Heap} (msg : list Z) (consumed : Z) (log : option (list Z)) :
    COutputDataChunk :=
  let msg_size := Z.of_nat (length msg) in
  if heap_ok msg_size then mkOutChunk msg msg_size consumed log else mkOutChunk [] 0 0 log.

(** The answers of [send], one per call: negative for an error, otherwise the
    number of bytes the system has room for; none left means it would block.
    [tx_wire] is what was accepted so far. *)
Record TxSocket := mkTx { tx_room : list Z; tx_wire : list Z }.

Definition sock_send (data : list Z) (s : TxSocket) : Z * TxSocket :=
  match tx_room s with
  | [] => (0, s)
  | r :: room =>
      if r <? 0 then (-1, mkTx room (tx_wire s))
      else let n := Z.min r (Z.of_nat (length data)) in
           (n, mkTx room (tx_wire s ++ take (Z.to_nat n) data))
  end.

(** [w_loop] is the event loop the watch is attached to, with its flag
    [mRebuildPollFd]. *)
Record CSysFdWatch := mkWatch {
  w_mFlags : Z;
  w_mFatalError : bool;
  w_loop : option bool;
  w_mOutputChunkList : list COutputDataChunk }.

Definition rebuildPollFd (loop : option bool) : option bool := (fun _ => true) <$> loop.

Definition set_fatalError (enb : bool) (w : CSysFdWatch) : CSysFdWatch :=
  mkWatch (w_mFlags w) enb
    (if eqb (w_mFatalError w) enb then w_loop w else rebuildPollFd (w_loop w))
    (w_mOutputChunkList w).

Definition updateFlags (mask value : Z) (w : CSysFdWatch) : CSysFdWatch :=
  let flags := Z.lor (Z.land (w_mFlags w) (u32 (Z.lnot mask))) value in
  if w_mFlags w =? flags then w
  else mkWatch flags (w_mFatalError w) (rebuildPollFd (w_loop w)) (w_mOutputChunkList w).

Definition set_chunks (cs : list COutputDataChunk) (w : CSysFdWatch) : CSysFdWatch :=
  mkWatch (w_mFlags w) (w_mFatalError w) (w_loop w) cs.

Section output.
Context {H : Heap}.

(** Whether a logger is installed. *)
Context (logger : bool).

(** The log records handed to the logger once a message is out. *)
Definition send_log (log : option (list Z)) : list (list Z) :=
  match log with Some l => if logger then [l] else [] | None => [] end.

(** A null [msg_buffer] is [None]; a buffer and its size are one list. *)
Definition submitOutput (msg : option (list Z)) (log : option (list Z)) (w : CSysFdWatch)
    (s : TxSocket) : CSysFdWatch * TxSocket * list (list Z) :=
  match msg with
  | None => (w, s, [])
  | Some data =>
      let msg_size := Z.of_nat (length data) in
      if (msg_size =? 0) || w_mFatalError w then (w, s, []) else
      match w_mOutputChunkList w with
      | _ :: _ => (set_chunks (w_mOutputChunkList w ++ [COutputDataChunk_new data 0 log]) w, s, [])
      | [] =>
          let '(consumed, s) := sock_send data s in
          if consumed <? 0 then (set_fatalError true w, s, [])
          else if consumed <? msg_size
          then (updateFlags POLLOUT POLLOUT (set_chunks [COutputDataChunk_new data consumed log] w), s, [])
          else (w, s, send_log log)
      end
  end.

(** The loop of [processOutput]: the queue it leaves, the socket, whether the
    connection broke, and the records logged. *)
Fixpoint output_loop (cs : list COutputDataChunk) (s : TxSocket) :
    list COutputDataChunk * TxSocket * bool * list (list Z) :=
  match cs with
  | [] => ([], s, false, [])
  | c :: cs' =>
      if oc_mSize c =? 0 then output_loop cs' s else
      let buffer := drop (Z.to_nat (oc_mConsumed c)) (oc_mBuffer c) in
      let size := oc_mSize c - oc_mConsumed c in
      let '(consumed, s) := sock_send buffer s in
      if consumed <? 0 then ([], s, true, [])
      else if consumed <? size
      then (mkOutChunk (oc_mBuffer c) (oc_mSize c) (oc_mConsumed c + consumed) (oc_mLogBuffer c) :: cs',
            s, false, [])
      else let '(rest, s, bad, logs) := output_loop cs' s in
           (rest, s, bad, send_log (oc_mLogBuffer c) ++ logs)
  end.

(** With an empty queue only the empty [onOutput] is called. *)
Definition processOutput (w : CSysFdWatch) (s : TxSocket) : CSysFdWatch * TxSocket * list (list Z) :=
  match w_mOutputChunkList w with
  | [] => (w, s, [])
  | cs =>
      let '(rest, s, bad, logs) := output_loop cs s in
      let w := set_chunks rest (if bad then set_fatalError true w else w) in
      (match rest with [] => updateFlags POLLOUT 0 w | _ => w end, s, logs)
  end.
End output.

(** ** Writing is a first-in first-out byte stream *)

(** The bytes of the queue that are not on the wire yet. *)
Definition chunk_rest (c : COutputDataChunk) : list Z :=
  drop (Z.to_nat (oc_mConsumed c)) (oc_mBuffer c).
Definition pending (cs : list COutputDataChunk) : list Z := concat (chunk_rest <$> cs).

(** A chunk has bytes left to write, or is empty because its copy could not be allocated. *)
Definition chunk_ok (c : COutputDataChunk) : Prop :=
  oc_mSize c = Z.of_nat (length (oc_mBuffer c)) /\
  (0 <= oc_mConsumed c < oc_mSize c \/ oc_mSize c = 0 /\ oc_mConsumed c = 0).

(** Every chunk is one of these, and the loop polls for room exactly
    while the queue is not empty. *)
Record out_ok (w : CSysFdWatch) : Prop := {
  oo_chunks : Forall chunk_ok (w_mOutputChunkList w);
  oo_flags : in_u 32 (w_mFlags w);
  oo_poll : Z.testbit (w_mFlags w) 2 = negb (bool_decide (w_mOutputChunkList w = [])) }.

Lemma updateFlags_keeps mask value w :
  w_mOutputChunkList (updateFlags mask value w) = w_mOutputChunkList w /\
  w_mFatalError (updateFlags mask value w) = w_mFatalError w.
Proof. unfold updateFlags. by case_match. Qed.

Lemma updateFlags_flags mask value w :
  w_mFlags (updateFlags mask value w) = Z.lor (Z.land (w_mFlags w) (u32 (Z.lnot mask))) value.
Proof. unfold updateFlags. cbv zeta. by case_match; destruct_bool_hyp. Qed.

Lemma updateFlags_in_u mask value w :
  in_u 32 value -> in_u 32 (w_mFlags (updateFlags mask value w)).
Proof.
  intros Hv. rewrite updateFlags_flags. apply in_u_lor; [lia| |done].
  apply in_u_land; [lia|]. by apply wrap_u_range.
Qed.

Lemma updateFlags_poll w (on : bool) :
  Z.testbit (w_mFlags (updateFlags POLLOUT (if on then POLLOUT else 0) w)) 2 = on.
Proof.
  rewrite updateFlags_flags, Z.lor_spec, Z.land_spec. destruct on.
  - by rewrite orb_true_r.
  - by rewrite andb_false_r.
Qed.

(** An error, or a prefix of the data moves to the wire. *)
Lemma sock_send_spec data s :
  let '(n, s') := sock_send data s in
  (n < 0 /\ tx_wire s' = tx_wire s) \/
  (0 <= n <= Z.of_nat (length data) /\ tx_wire s' ++ drop (Z.to_nat n) data = tx_wire s ++ data).
Proof.
  unfold sock_send. destruct (tx_room s) as [|r room]; [right; split; [lia|done]|].
  bool_cases; [left; simpl; split; [lia|done]|right]. simpl. split; [lia|].
  by rewrite <- app_assoc, take_drop.
Qed.

Lemma pending_cons c cs : pending (c :: cs) = chunk_rest c ++ pending cs.
Proof. done. Qed.

Lemma pending_app cs1 cs2 : pending (cs1 ++ cs2) = pending cs1 ++ pending cs2.
Proof. unfold pending. by rewrite fmap_app, concat_app. Qed.

(** What of a message gets on its way: all of it if there is memory for a copy, else a part of
    its beginning. *)
Definition part_of {H : Heap} (part msg : list Z) : Prop :=
  part `prefix_of` msg /\ (heap_ok (Z.of_nat (length msg)) = true -> part = msg).

Lemma part_whole {H : Heap} msg : part_of msg msg.
Proof. by split. Qed.

Section output_laws.
Context {H : Heap} (logger : bool).

Lemma chunk_new_ok msg consumed log :
  0 <= consumed < Z.of_nat (length msg) ->
  chunk_ok (COutputDataChunk_new msg consumed log) /\
  part_of (take (Z.to_nat consumed) msg ++ chunk_rest (COutputDataChunk_new msg consumed log)) msg.
Proof.
  intros Hc. unfold COutputDataChunk_new. destruct (heap_ok _) eqn:Eh.
  - split; [split; [done|by left]|]. unfold chunk_rest. simpl. rewrite take_drop. apply part_whole.
  - split; [split; [done|by right]|]. unfold chunk_rest. simpl. rewrite app_nil_r.
    split; [by exists (drop (Z.to_nat consumed) msg); rewrite take_drop|congruence].
Qed.

Lemma chunk_empty c : chunk_ok c -> oc_mSize c = 0 -> chunk_rest c = [].
Proof. intros [Hs _] E. unfold chunk_rest. destruct (oc_mBuffer c); [by rewrite drop_nil|simpl in Hs; lia]. Qed.

Lemma output_loop_spec cs s :
  Forall chunk_ok cs ->
  let '(rest, s', bad, _) := output_loop logger cs s in
  Forall chunk_ok rest /\
  if bad then rest = [] /\ tx_wire s' `prefix_of` tx_wire s ++ pending cs
  else tx_wire s' ++ pending rest = tx_wire s ++ pending cs.
Proof.
  revert s. induction cs as [|c cs IH]; intros s Hok; simpl; [done|].
  inversion_clear Hok as [|? ? Hc0 Hcs]. rewrite pending_cons.
  destruct (Z.eqb_spec (oc_mSize c) 0) as [E0|Hne].
  { rewrite (chunk_empty c) by done. exact (IH s Hcs). }
  destruct Hc0 as [Hsz [Hc|[? _]]]; [|done].
  pose proof (sock_send_spec (chunk_rest c) s) as Hs. unfold chunk_rest in Hs.
  destruct (sock_send _ s) as [n s1].
  assert (Z.of_nat (length (chunk_rest c)) = oc_mSize c - oc_mConsumed c) as Hl
    by (unfold chunk_rest; rewrite length_drop; lia).
  destruct Hs as [[Hn Hw]|[Hn Hw]]; bool_cases; try lia.
  - repeat split; [done|]. rewrite Hw. by apply prefix_app_r.
  - split; [constructor; [|done]; split; simpl; [done|left; lia]|].
    rewrite pending_cons. unfold chunk_rest at 1; simpl.
    rewrite Z2Nat.inj_add, <- drop_drop by lia. rewrite !app_assoc. by rewrite Hw.
  - specialize (IH s1 Hcs). destruct (output_loop logger cs s1) as [[[rest s'] bad] logs].
    assert (tx_wire s1 = tx_wire s ++ chunk_rest c) as E.
    { rewrite drop_ge in Hw by (unfold chunk_rest in Hl; lia). by rewrite app_nil_r in Hw. }
    rewrite E in IH. rewrite app_assoc. exact IH.
Qed.

(** One event at a watch: a message is submitted, or the loop finds room. *)
Inductive OutEvent := Submit (msg : list Z) (log : option (list Z)) | Writable.

Definition out_step (ws : CSysFdWatch * TxSocket) (e : OutEvent) : CSysFdWatch * TxSocket :=
  match e with
  | Submit msg log => (submitOutput logger (Some msg) log ws.1 ws.2).1
  | Writable => (processOutput logger ws.1 ws.2).1
  end.

Definition submitted (e : OutEvent) : list Z := match e with Submit msg _ => msg | Writable => [] end.

(** The wire and the queue together hold the bytes [total], or the start of them
    once the connection is broken. *)
Definition streams (total : list Z) (ws : CSysFdWatch * TxSocket) : Prop :=
  out_ok ws.1 /\
  if w_mFatalError ws.1 then tx_wire ws.2 ++ pending (w_mOutputChunkList ws.1) `prefix_of` total
  else tx_wire ws.2 ++ pending (w_mOutputChunkList ws.1) = total.

Lemma streams_fatal total w s :
  out_ok w -> w_mFatalError w = true ->
  tx_wire s ++ pending (w_mOutputChunkList w) `prefix_of` total -> streams total (w, s).
Proof. intros Ho Hf Hp. split; [done|]. simpl. by rewrite Hf. Qed.

Lemma out_ok_fatal b w : out_ok w -> out_ok (set_fatalError b w).
Proof. intros []. by split. Qed.

Lemma submitOutput_streams total w s msg log :
  streams total (w, s) -> exists part, part_of part msg /\ streams (total ++ part) (out_step (w, s) (Submit msg log)).
Proof.
  intros [Ho Hst]. simpl in Ho |- *. destruct (Z.eqb_spec (Z.of_nat (length msg)) 0) as [E|Hne]; simpl.
  { destruct msg; [|done]. exists []. rewrite app_nil_r. split; [apply part_whole|by split]. }
  simpl in Hst. destruct (w_mFatalError w) eqn:Ef.
  { exists msg. split; [apply part_whole|]. split; [done|]. simpl. rewrite Ef. by apply prefix_app_r. }
  destruct (w_mOutputChunkList w) as [|c cs] eqn:Ecs.
  - pose proof (sock_send_spec msg s) as Hs. destruct (sock_send msg s) as [n s'].
    unfold pending in Hst. simpl in Hst. rewrite app_nil_r in Hst.
    destruct Hs as [[Hn Hw]|[Hn Hw]]; bool_cases; try lia; simpl.
    + exists msg. split; [apply part_whole|]. apply streams_fatal; [by apply out_ok_fatal|done|]. simpl. rewrite Ecs.
      rewrite Hw, app_nil_r, Hst. by apply prefix_app_r.
    + destruct (chunk_new_ok msg n log) as [Hc Hr]; [lia|]. eexists. split; [exact Hr|].
      destruct (updateFlags_keeps POLLOUT POLLOUT (set_chunks [COutputDataChunk_new msg n log] w)) as [El Eb]. split; simpl.
      * split; rewrite ?El; [by apply Forall_singleton| |].
        -- apply updateFlags_in_u. by vm_compute.
        -- by rewrite (updateFlags_poll _ true).
      * rewrite El, Eb. unfold pending. simpl. rewrite Ef, app_nil_r, <- Hst, app_assoc. f_equal.
        apply (app_inv_tail (drop (Z.to_nat n) msg)). by rewrite Hw, <- app_assoc, take_drop.
    + exists msg. split; [apply part_whole|]. split; [done|]. simpl. rewrite Ef, Ecs. rewrite drop_ge in Hw by lia.
      rewrite app_nil_r in Hw. by rewrite Hw, app_nil_r, Hst.
  - destruct (chunk_new_ok msg 0 log) as [Hc Hr]; [lia|]. eexists. split; [exact Hr|]. split; simpl.
    + destruct Ho as [O1 O2 O3]. rewrite Ecs in O1, O3. split; simpl; [|done|].
      * rewrite app_comm_cons. by apply Forall_app; split; [|apply Forall_singleton].
      * done.
    + rewrite Ef. rewrite app_comm_cons, pending_app. unfold pending at 2. simpl.
      by rewrite app_nil_r, app_assoc, Hst.
Qed.

Lemma processOutput_streams total w s :
  streams total (w, s) -> streams total (out_step (w, s) Writable).
Proof.
  intros [Ho Hst]. simpl in *. unfold processOutput.
  destruct (w_mOutputChunkList w) as [|c cs] eqn:Ecs.
  { split; [done|]. simpl. by rewrite Ecs. }
  pose proof (output_loop_spec (c :: cs) s) as Hl.
  destruct (output_loop logger (c :: cs) s) as [[[rest s'] bad] logs].
  destruct Hl as [Hok Hl]; [by rewrite <- Ecs; apply Ho|].
  set (w1 := set_chunks rest (if bad then set_fatalError true w else w)).
  assert (w_mFatalError w1 = w_mFatalError w || bad) as Ef by (subst w1; destruct bad; by rewrite ?orb_true_r, ?orb_false_r).
  set (w2 := match rest with [] => updateFlags POLLOUT 0 w1 | _ => w1 end).
  assert (w_mOutputChunkList w2 = rest /\ w_mFatalError w2 = w_mFatalError w1) as [El Eb].
  { subst w2. destruct rest; [|done]. apply (updateFlags_keeps POLLOUT 0 w1). }
  split; simpl.
  - split; rewrite ?El; [done| |]; subst w2; destruct rest as [|c' rest].
    + apply updateFlags_in_u. by vm_compute.
    + subst w1. destruct bad; apply Ho.
    + by rewrite (updateFlags_poll _ false).
    + subst w1. destruct bad; [by destruct Hl|]. simpl. pose proof (oo_poll _ Ho) as Hp. by rewrite Ecs in Hp.
  - rewrite El, Eb, Ef. destruct bad.
    + rewrite orb_true_r. destruct Hl as [-> Hp]. unfold pending at 1. simpl. rewrite app_nil_r.
      etrans; [exact Hp|]. destruct (w_mFatalError w); [done|]. by rewrite Hst.
    + rewrite orb_false_r, Hl. done.
Qed.

(** Whatever is submitted, whenever the loop finds room and however many bytes
    the socket takes at each call, ... *)
Lemma out_run_streams total ws evs :
  streams total ws -> exists parts, Forall2 part_of parts (submitted <$> evs) /\ streams (total ++ concat parts) (foldl out_step ws evs).
Proof.
  revert total ws. induction evs as [|e evs IH]; intros total [w s] Hs; simpl; [exists []; by rewrite app_nil_r|].
  assert (exists part, part_of part (submitted e) /\ streams (total ++ part) (out_step (w, s) e)) as (part & Hp & Hs').
  { destruct e as [msg log|]; simpl submitted; [by apply submitOutput_streams|].
    exists []. split; [apply part_whole|]. rewrite app_nil_r. by apply processOutput_streams. }
  destruct (IH _ _ Hs') as (parts & Hps & Hr). exists (part :: parts). split; [by constructor|].
  simpl. by rewrite app_assoc.
Qed.
End output_laws.

(** *** Progress *)

Lemma sock_send_room data r room wire :
  0 < r -> sock_send data (mkTx (r :: room) wire) =
    (Z.min r (Z.of_nat (length data)),
     mkTx room (wire ++ take (Z.to_nat (Z.min r (Z.of_nat (length data)))) data)).
Proof. intros Hr. unfold sock_send. simpl. by bool_cases; [lia|]. Qed.

Section progress.
Context {H : Heap} (logger : bool).

(** A socket that takes something at every call that the queue can need. *)
Definition willing (cs : list COutputDataChunk) (s : TxSocket) : Prop :=
  Forall (fun r => 0 < r) (tx_room s) /\ (length (pending cs) <= length (tx_room s))%nat.

(** The queue gets shorter by at least one byte, or is empty. *)
Lemma output_loop_progress cs s :
  Forall chunk_ok cs -> willing cs s ->
  let '(rest, s', bad, _) := output_loop logger cs s in
  bad = false /\ Forall chunk_ok rest /\ willing rest s' /\
  (rest = [] \/ (length (pending rest) < length (pending cs))%nat).
Proof.
  unfold willing. revert s.
  induction cs as [|c cs IH]; intros s Hok [Hr Hl]; simpl; [repeat split; auto; simpl; lia|].
  inversion_clear Hok as [|? ? Hc0 Hcs].
  destruct (Z.eqb_spec (oc_mSize c) 0) as [E0|Hne].
  { rewrite pending_cons, (chunk_empty c) in * by done. simpl in *. exact (IH s Hcs (conj Hr Hl)). }
  destruct Hc0 as [Hsz [Hc|[? _]]]; [|done].
  rewrite pending_cons, length_app in Hl. unfold chunk_rest in Hl. rewrite length_drop in Hl.
  destruct s as [[|r room] wire]; simpl in *; [lia|]. inversion_clear Hr as [|? ? Hr0 Hroom].
  rewrite sock_send_room, length_drop by done. bool_cases; try lia.
  - split; [done|]. split; [constructor; [split; simpl; [done|left; lia]|done]|]. simpl.
    rewrite !pending_cons, !length_app. unfold chunk_rest. rewrite !length_drop. simpl.
    repeat split; [done|lia|right; lia].
  - match goal with |- context [output_loop _ cs ?s1] => specialize (IH s1 Hcs) end.
    destruct (output_loop logger cs _) as [[[rest s'] bad] logs].
    destruct IH as (Hb & Hrest & Hr' & Hp); [split; [done|simpl; lia]|]. repeat split; try done; try apply Hr'.
    rewrite pending_cons, length_app. destruct Hp; [by left|right; lia].
Qed.

Definition drain (n : nat) (ws : CSysFdWatch * TxSocket) : CSysFdWatch * TxSocket :=
  Nat.iter n (fun ws => out_step logger ws Writable) ws.

Lemma drain_empty n w s :
  Forall chunk_ok (w_mOutputChunkList w) -> willing (w_mOutputChunkList w) s ->
  (length (pending (w_mOutputChunkList w)) <= n)%nat ->
  w_mOutputChunkList (drain (S n) (w, s)).1 = [] /\ w_mFatalError (drain (S n) (w, s)).1 = w_mFatalError w.
Proof.
  unfold drain. revert w s. induction n as [|n IH]; intros w s Hok Hw Hn; rewrite Nat.iter_succ_r; simpl out_step; unfold processOutput.
  all: destruct (w_mOutputChunkList w) as [|c cs] eqn:E.
  1: by simpl; rewrite E.
  2: { rewrite (surjective_pairing (w, s, _).1). apply IH; simpl; rewrite ?E; [done|done|simpl; lia]. }
  all: pose proof (output_loop_progress (c :: cs) s Hok Hw) as Hp.
  all: destruct (output_loop logger (c :: cs) s) as [[[rest s'] bad] logs].
  all: destruct Hp as (-> & Hrest & Hr & Hp); simpl.
  all: set (w1 := match rest with [] => updateFlags POLLOUT 0 (set_chunks rest w) | _ => set_chunks rest w end).
  all: assert (w_mOutputChunkList w1 = rest /\ w_mFatalError w1 = w_mFatalError w) as [El Ef]
    by (subst w1; destruct rest; [apply (updateFlags_keeps POLLOUT 0 (set_chunks [] w))|done]).
  - split; [|done]. rewrite El. destruct Hp as [->|Hp]; [done|lia].
  - rewrite <- Ef. apply (IH w1 s'); rewrite El; [done|done|]. destruct Hp as [->|Hp]; [simpl; lia|lia].
Qed.
End progress.

(** ** The properties *)

Definition watch_new : CSysFdWatch := mkWatch (POLLIN + POLLHUP + POLLERR) false (Some false) [].

Lemma watch_new_streams wire room : streams wire (watch_new, mkTx room wire).
Proof. split; [by split; vm_compute|]. simpl. by rewrite app_nil_r. Qed.

(** C4: The queue and the socket of a session behave as one byte stream. For
    every sequence of submitted messages and of moments at which the loop finds
    room, and whatever number of bytes the socket takes at each call, the bytes
    written followed by the bytes queued are those of the messages in the order
    of submission; once the connection is broken, what was written is a prefix of
    them. Of a message that has to be queued while there is no memory for its copy
    only the bytes taken at once count ([part_of]); all others are there as a whole.
    The loop polls for room exactly while something is queued. *)
Theorem output_fifo (H : Heap) (logger : bool) (room wire : list Z) (evs : list OutEvent) :
  exists parts, Forall2 part_of parts (submitted <$> evs) /\
  let '(w, s) := foldl (out_step logger) (watch_new, mkTx room wire) evs in
  let total := wire ++ concat parts in
  (if w_mFatalError w then tx_wire s `prefix_of` total
   else tx_wire s ++ pending (w_mOutputChunkList w) = total) /\
  Z.testbit (w_mFlags w) 2 = negb (bool_decide (w_mOutputChunkList w = [])).
Proof.
  destruct (out_run_streams logger wire _ evs (watch_new_streams wire room)) as (parts & Hp & Ho & Hs).
  exists parts. split; [done|].
  destruct (foldl (out_step logger) _ evs) as [w s]. split; [|apply Ho]. simpl in Hs.
  destruct (w_mFatalError w); [|done]. etrans; [|exact Hs]. by apply prefix_app_r.
Qed.

(** With memory for all copies nothing of the messages is missing. *)
Lemma parts_whole {H : Heap} parts msgs : (forall n, heap_ok n = true) -> Forall2 part_of parts msgs -> parts = msgs.
Proof. intros Hh. induction 1 as [|part msg ps ms [_ E] _ ->]; [done|]. by rewrite E. Qed.

Lemma output_fifo_witness :
  let evs := [Submit [1; 2; 3] None; Submit [4; 5] None; Writable; Writable] in
  let '(w, s) := foldl (@out_step (fun _ => true) true) (watch_new, mkTx [2; 1; 1] []) evs in
  w_mFatalError w = false /\ tx_wire s = [1; 2; 3; 4] /\ pending (w_mOutputChunkList w) = [5] /\
  (if w_mFatalError w then tx_wire s `prefix_of` [] ++ concat (submitted <$> evs)
   else tx_wire s ++ pending (w_mOutputChunkList w) = [] ++ concat (submitted <$> evs)) /\
  Z.testbit (w_mFlags w) 2 = negb (bool_decide (w_mOutputChunkList w = [])).
Proof.
  cbv zeta. split; [done|]. split; [done|]. split; [done|].
  destruct (output_fifo (fun _ => true) true [2; 1; 1] []
           [Submit [1; 2; 3] None; Submit [4; 5] None; Writable; Writable]) as (parts & Hp & Hf).
  rewrite (parts_whole parts _ (fun _ => eq_refl) Hp) in Hf. exact Hf.
Defined.

(** Everything submitted gets written: on an unbroken connection whose
    socket takes at least one byte whenever the loop finds room, one such moment
    per queued byte and one more is enough to empty the queue, and then the wire
    holds every message completely, as far as there was memory for it. *)
Theorem output_drains (H : Heap) (logger : bool) (room wire : list Z) (evs : list OutEvent)
    (w : CSysFdWatch) (s : TxSocket) :
  foldl (out_step logger) (watch_new, mkTx room wire) evs = (w, s) ->
  w_mFatalError w = false -> willing (w_mOutputChunkList w) s ->
  let '(w', s') := drain logger (S (length (pending (w_mOutputChunkList w)))) (w, s) in
  w_mOutputChunkList w' = [] /\ w_mFatalError w' = false /\
  exists parts, Forall2 part_of parts (submitted <$> evs) /\ tx_wire s' = wire ++ concat parts.
Proof.
  intros E Hf Hw.
  destruct (out_run_streams logger wire _ evs (watch_new_streams wire room)) as (parts & Hp & Hs).
  rewrite E in Hs.
  destruct (drain_empty logger (length (pending (w_mOutputChunkList w))) w s) as [Hd Hd']; [apply Hs|done|done|].
  set (n := S (length _)) in *.
  assert (streams (wire ++ concat parts) (drain logger n (w, s))) as [_ Hst].
  { unfold drain. clear -Hs. induction n as [|n IH]; [done|]. rewrite Nat.iter_succ.
    destruct (Nat.iter n _ _) as [w1 s1]. by apply processOutput_streams. }
  destruct (drain logger n (w, s)) as [w' s']. simpl in *. rewrite Hd', Hf, Hd in Hst.
  unfold pending in Hst. simpl in Hst. rewrite app_nil_r in Hst. rewrite Hd', Hf. split; [done|]. split; [done|]. by exists parts.
Qed.

(** When the copy of a message cannot be allocated after a part of it was written,
    the rest is dropped and the next message follows the part. *)
Example output_lost_tail :
  let '(w, s) := foldl (@out_step (fun n => n <? 3) true) (watch_new, mkTx [2; 9; 9] [])
                   [Submit [1; 2; 3] None; Submit [7; 8] None; Writable; Writable] in
  w_mFatalError w = false /\ tx_wire s = [1; 2; 7; 8].
Proof. by vm_compute. Qed.
