(* ===== verification/Framing.v ===== *)
(** Messages on the byte stream: the prefix of src/public/fdbus/CFdbMessage.h and
    the two ways a session reads, [CSysFdWatch::processInput] with
    [CFdbSession::onInputReady] (as bytes arrive) and [CFdbSession::onInput]
    (waiting for each message), src/fdbus/CBaseSession.cpp, CFdbSession.cpp.

    What a session does with a complete message is a parameter here,
    [processPayload], from the state of type [A] to the next one and whether the
    session has failed; [Session.v] gives it. [consume] is the specification: the
    messages of a byte string handled one after the other. *)
From S2P Require Import Prelude Serializer FdWatch.

(** ** The prefix *)

Record CFdbMsgPrefix := mkPrefix { mTotalLength : Z; mHeadLength : Z }.

Definition mPrefixSize : Z := 8.

Definition u32_of_bytes (b0 b1 b2 b3 : Z) : Z :=
  u32 (Z.lor (Z.lor (Z.lor (Z.shiftl b0 0) (Z.shiftl b1 8)) (Z.shiftl b2 16)) (Z.shiftl b3 24)).

(** The constructor from a buffer; fewer than 8 bytes are an access outside it. *)
Definition prefix_deserialize (buffer : list Z) : option CFdbMsgPrefix :=
  match buffer with
  | b0 :: b1 :: b2 :: b3 :: b4 :: b5 :: b6 :: b7 :: _ =>
      Some (mkPrefix (u32_of_bytes b0 b1 b2 b3) (u32_of_bytes b4 b5 b6 b7))
  | _ => None
  end.

Definition u32_byte (v shift : Z) : Z := u8 (Z.land (Z.shiftr v shift) 0xff).

Definition prefix_serialize (p : CFdbMsgPrefix) : list Z :=
  let t := mTotalLength p in
  let h := mHeadLength p in
  [u32_byte t 0; u32_byte t 8; u32_byte t 16; u32_byte t 24;
   u32_byte h 0; u32_byte h 8; u32_byte h 16; u32_byte h 24].

(** ** Reading as bytes arrive *)

(** The part of a session that reads: [CSysFdWatch::mFatalError] and
    [mInputChunk], [CBaseSession::mPayloadBuffer] and [mMsgPrefix], and the state
    the messages act on. *)
Record CRxSession (A : Type) := mkRx {
  rx_mFatalError : bool;
  rx_mPayloadBuffer : option (list Z);
  rx_mMsgPrefix : CFdbMsgPrefix;
  rx_mInputChunk : CInputDataChunk;
  rx_app : A }.
Arguments mkRx {A}.
Arguments rx_mFatalError {A}.
Arguments rx_mPayloadBuffer {A}.
Arguments rx_mMsgPrefix {A}.
Arguments rx_mInputChunk {A}.
Arguments rx_app {A}.

Section rx.
Context {H : Heap} (memcpy_overlap : list Z -> Z -> Z -> list Z).
Context {A : Type} (processPayload : CFdbMsgPrefix -> list Z -> A -> option (A * bool)).
Implicit Types st : CRxSession A.

Definition rx_fatal st : CRxSession A :=
  mkRx true (rx_mPayloadBuffer st) (rx_mMsgPrefix st) (rx_mInputChunk st) (rx_app st).
Definition rx_set_buffer (buf : option (list Z)) st : CRxSession A :=
  mkRx (rx_mFatalError st) buf (rx_mMsgPrefix st) (rx_mInputChunk st) (rx_app st).
Definition rx_set_chunk (c : CInputDataChunk) st : CRxSession A :=
  mkRx (rx_mFatalError st) (rx_mPayloadBuffer st) (rx_mMsgPrefix st) c (rx_app st).

Definition parsePrefix (data : list Z) st : option (CRxSession A) :=
  p ← prefix_deserialize data;
  let st := mkRx (rx_mFatalError st) (rx_mPayloadBuffer st) p (rx_mInputChunk st) (rx_app st) in
  let data_size := i32 (u32 (mTotalLength p - mPrefixSize)) in
  if data_size <? 0 then Some (rx_fatal st) else
  match rx_mPayloadBuffer st with
  | Some _ => Some st
  | None => if heap_ok (mTotalLength p)
            then Some (rx_set_buffer (Some (malloc (mTotalLength p))) st)
            else Some (rx_fatal st)
  end.

(** [processPayload()] on the bytes in the payload buffer after its 8 leading bytes,
    which are never read; the buffer is released after it. *)
Definition handle_payload (buffer : list Z) st : option (CRxSession A) :=
  '(app, bad) ← processPayload (rx_mMsgPrefix st) (drop (Z.to_nat mPrefixSize) buffer) (rx_app st);
  Some (mkRx (rx_mFatalError st || bad) None (rx_mMsgPrefix st) (rx_mInputChunk st) app).

(** The loop of [onInputReady]. *)
Fixpoint ready_loop (fuel : nat) st : option (Z * CRxSession A) :=
  match fuel with
  | O => None
  | S fuel =>
      if rx_mFatalError st then Some (0, rx_set_buffer None st) else
      match rx_mPayloadBuffer st with
      | Some _ =>
          '(size_expected, data, chunk) ←
             extractData (i32 (mTotalLength (rx_mMsgPrefix st))) (rx_mInputChunk st);
          if negb (size_expected =? 0) then Some (size_expected, st) else
          st ← handle_payload data (rx_set_chunk chunk st);
          ready_loop fuel st
      | None =>
          let size_expected := getExpectedSize mPrefixSize (rx_mInputChunk st) in
          if negb (size_expected =? 0) then Some (size_expected, st) else
          st ← parsePrefix (getBufferHead (rx_mInputChunk st)) st;
          ready_loop fuel st
      end
  end.

(** Every other round takes a message of at least 8 bytes out of the buffer. *)
Definition ready_fuel st : nat := 2 * Z.to_nat (ic_mConsumed (rx_mInputChunk st)) + 3.

Definition onInputReady st : option (Z * CRxSession A) := ready_loop (ready_fuel st) st.

(** [recv] into the free end of the buffer. *)
Definition chunk_fill (data : list Z) (c : CInputDataChunk) : option CInputDataChunk :=
  buf ← ic_mBuffer c;
  let pos := Z.to_nat (ic_mOffset c + ic_mConsumed c) in
  if bool_decide (pos + length data <= length buf)%nat
  then Some (mkInChunk (Some (take pos buf ++ data ++ drop (pos + length data) buf))
               (ic_mSize c) (ic_mOffset c) (ic_mConsumed c + Z.of_nat (length data)))
  else None.

(** The end of [processInput]: room is made for the bytes that are expected. *)
Definition make_room (size_expected : Z) st : option (CRxSession A) :=
  if size_expected <? 0 then Some st else
  let '(ok, c) := checkBufferSize memcpy_overlap size_expected (rx_mInputChunk st) in
  let st := rx_set_chunk c st in
  if (ok : bool) then Some st else snd <$> onInputReady (rx_fatal st).

(** [processInput] of a watch with an input buffer. [recv n] is the answer of the
    socket when [n] bytes are asked for, [None] for an error. *)
Definition processInput (recv : Z -> option (list Z)) st : option (CRxSession A) :=
  let tail_size := getTailSize (rx_mInputChunk st) in
  let st := if tail_size =? 0
            then rx_set_chunk (checkBufferSize memcpy_overlap 0 (rx_mInputChunk st)).2 st else st in
  match recv tail_size with
  | None => '(size_expected, st) ← onInputReady (rx_fatal st); make_room size_expected st
  | Some [] => make_room 0 st
  | Some data =>
      chunk ← chunk_fill data (rx_mInputChunk st);
      '(size_expected, st) ← onInputReady (rx_set_chunk chunk st);
      make_room size_expected st
  end.

(** ** Waiting for each message *)

(** A blocking socket: at each call so many bytes have arrived (negative for an
    error), of the bytes the peer has sent. *)
Record RxSocket := mkSock { rs_ready : list Z; rs_stream : list Z }.

Definition sock_recv (size : Z) (s : RxSocket) : option (list Z) * RxSocket :=
  match rs_ready s with
  | [] => (Some [], s)
  | k :: ready =>
      if k <? 0 then (None, mkSock ready (rs_stream s))
      else let n := Z.to_nat (Z.min k size) in
           (Some (take n (rs_stream s)), mkSock ready (drop n (rs_stream s)))
  end.

Definition FDB_RECV_RETRIES : Z := 1024 * 10.

(** [receiveData]: the bytes read, [None] when the session fails. *)
Fixpoint receive_loop (retries : nat) (size : Z) (got : list Z) (s : RxSocket) :
    option (list Z) * RxSocket :=
  match retries with
  | O => (None, s)
  | S retries =>
      match sock_recv size s with
      | (None, s) => (None, s)
      | (Some data, s) =>
          let size := size - Z.of_nat (length data) in
          if size <=? 0 then (Some (got ++ data), s)
          else receive_loop retries size (got ++ data) s
      end
  end.

Definition receiveData (size : Z) (s : RxSocket) : option (list Z) * RxSocket :=
  receive_loop (Z.to_nat FDB_RECV_RETRIES) size [] s.

Definition onInput (s : RxSocket) st : option (CRxSession A * RxSocket) :=
  if rx_mFatalError st then Some (rx_set_buffer None st, s) else
  match receiveData mPrefixSize s with
  | (None, s) => Some (rx_set_buffer None (rx_fatal st), s)
  | (Some prefix, s) =>
      st ← parsePrefix prefix st;
      if rx_mFatalError st then Some (rx_set_buffer None st, s) else
      buffer ← rx_mPayloadBuffer st;
      match receiveData (i32 (u32 (mTotalLength (rx_mMsgPrefix st) - mPrefixSize))) s with
      | (None, s) => Some (rx_set_buffer None (rx_fatal st), s)
      | (Some data, s) =>
          st ← handle_payload (take (Z.to_nat mPrefixSize) buffer ++ data) st;
          Some (st, s)
      end
  end.
End rx.

(** ** The prefix on the wire *)

Lemma u32_byte_spec v shift : u32_byte v shift = Z.land (Z.shiftr v shift) 255.
Proof.
  unfold u32_byte. apply wrap_u_small. apply in_u_land; [lia|by vm_compute].
Qed.

Lemma byte_bit v k n : 0 <= k -> 0 <= n ->
  Z.testbit (Z.shiftl (Z.land (Z.shiftr v k) 255) k) n = Z.testbit v n && (k <=? n) && (n <? k + 8).
Proof.
  intros Hk Hn. rewrite Z.shiftl_spec by done. destruct (Z.leb_spec k n).
  - rewrite Z.land_spec, Z.shiftr_spec by lia. change 255 with (Z.ones 8).
    rewrite Z.testbit_ones_nonneg by lia. replace (n - k + k) with n by lia.
    rewrite andb_true_r. f_equal. bool_cases; try done; lia.
  - rewrite Z.testbit_neg_r by lia. by rewrite andb_false_r.
Qed.

Lemma in_u_high v n : in_u 32 v -> 32 <= n -> Z.testbit v n = false.
Proof.
  intros Hv Hn. apply in_u_ones in Hv as <-; [|lia].
  rewrite Z.land_spec, Z.testbit_ones_nonneg by lia. bool_cases; [lia|]. apply andb_false_r.
Qed.

Lemma u32_of_bytes_byte v :
  in_u 32 v -> u32_of_bytes (u32_byte v 0) (u32_byte v 8) (u32_byte v 16) (u32_byte v 24) = v.
Proof.
  intros Hv. unfold u32_of_bytes. rewrite !u32_byte_spec.
  transitivity (u32 v); [f_equal|by apply wrap_u_small].
  apply Z.bits_inj'. intros n Hn. rewrite !Z.lor_spec, !byte_bit by lia.
  destruct (Z.lt_ge_cases n 32) as [L|L]; [|by rewrite in_u_high by done].
  destruct (Z.testbit v n); [|done]. rewrite !andb_true_l. bool_cases; try done; lia.
Qed.

Lemma prefix_roundtrip p rest :
  in_u 32 (mTotalLength p) -> in_u 32 (mHeadLength p) ->
  prefix_deserialize (prefix_serialize p ++ rest) = Some p.
Proof.
  intros Ht Hh. unfold prefix_serialize, prefix_deserialize. cbn [app].
  rewrite !u32_of_bytes_byte by done. by destruct p.
Qed.

Lemma prefix_deserialize_app bs more p :
  prefix_deserialize bs = Some p -> prefix_deserialize (bs ++ more) = Some p.
Proof. by do 8 (destruct bs as [|? bs]; [done|]). Qed.

Lemma prefix_deserialize_short bs :
  prefix_deserialize bs = None <-> Z.of_nat (length bs) < mPrefixSize.
Proof.
  unfold mPrefixSize. do 8 (destruct bs as [|? bs]; [by simpl; split; [lia|]|]).
  simpl. split; [done|lia].
Qed.

Lemma prefix_deserialize_take bs :
  prefix_deserialize (take (Z.to_nat mPrefixSize) bs) = prefix_deserialize bs.
Proof. by do 8 (destruct bs as [|? bs]; [done|]). Qed.

Lemma prefix_deserialize_range bs p :
  prefix_deserialize bs = Some p -> in_u 32 (mTotalLength p) /\ in_u 32 (mHeadLength p).
Proof.
  do 8 (destruct bs as [|? bs]; [done|]). intros [= <-]. by split; apply wrap_u_range.
Qed.

(** ** The specification: messages of a byte string *)

(** A prefix that fails the session: a length below 8, or so large that the rest
    of it is negative as an [int32_t]. *)
Definition prefix_bad (p : CFdbMsgPrefix) : bool := i32 (u32 (mTotalLength p - mPrefixSize)) <? 0.

(** Messages of at most half the largest buffer can always be read. *)
Definition FRAME_LIMIT : Z := mMaxInputChunkSize / 2.

(** Messages of at most half the first buffer never make it grow. *)
Definition SMALL_LIMIT : Z := mDefaultInputChunkSize / 2.

Lemma prefix_bad_spec p :
  in_u 32 (mTotalLength p) ->
  prefix_bad p = (mTotalLength p <? mPrefixSize) || (2 ^ 31 + mPrefixSize <=? mTotalLength p).
Proof.
  unfold prefix_bad, mPrefixSize, in_u. intros Ht. set (t := mTotalLength p) in *. clearbody t.
  unfold wrap_u, wrap_s. change (2 ^ (32 - 1)) with (2 ^ 31).
  destruct (Z.lt_ge_cases t 8) as [L|L].
  - rewrite <- (Z.mod_unique (t - 8) (2 ^ 32) (-1) (t - 8 + 2 ^ 32)) by lia.
    rewrite <- (Z.mod_unique (t - 8 + 2 ^ 32 + 2 ^ 31) (2 ^ 32) 1 (t - 8 + 2 ^ 31)) by lia.
    destruct (Z.ltb_spec t 8); [|lia]. simpl. apply Z.ltb_lt. lia.
  - rewrite (Z.mod_small (t - 8)) by lia. destruct (Z.lt_ge_cases t (2 ^ 31 + 8)) as [M|M].
    + rewrite Z.mod_small by lia. bool_cases; try done; lia.
    + rewrite <- (Z.mod_unique (t - 8 + 2 ^ 31) (2 ^ 32) 1 (t - 8 - 2 ^ 31)) by lia.
      bool_cases; try done; lia.
Qed.

Section consume.
Context {H : Heap} {A : Type} (processPayload : CFdbMsgPrefix -> list Z -> A -> option (A * bool)).
Context (limit : Z).

(** The state after the complete messages of [bs], the bytes after them, and
    whether the session has failed: the handler says so, a prefix is bad, or there is no
    memory for a message. [None] stands for a message above the limit,
    or undefined behaviour of the handler. *)
Fixpoint consume_loop (fuel : nat) (bs : list Z) (app : A) : option (A * list Z * bool) :=
  match fuel with
  | O => None
  | S fuel =>
      match prefix_deserialize bs with
      | None => Some (app, bs, false)
      | Some p =>
          let total := Z.to_nat (mTotalLength p) in
          if prefix_bad p then Some (app, bs, true)
          else if mTotalLength p >? limit then None
          else if negb (heap_ok (mTotalLength p)) then Some (app, bs, true)
          else if bool_decide (length bs < total)%nat then Some (app, bs, false)
          else '(app, bad) ← processPayload p (drop (Z.to_nat mPrefixSize) (take total bs)) app;
               if (bad : bool) then Some (app, drop total bs, true)
               else consume_loop fuel (drop total bs) app
      end
  end.

Definition consume (bs : list Z) (app : A) : option (A * list Z * bool) :=
  consume_loop (S (length bs)) bs app.

Lemma good_total bs p :
  prefix_deserialize bs = Some p -> prefix_bad p = false -> 8 <= mTotalLength p.
Proof.
  intros E Hb. apply prefix_deserialize_range in E as [Ht _].
  rewrite prefix_bad_spec in Hb by done. apply orb_false_iff in Hb as [Hb _].
  apply Z.ltb_ge in Hb. exact Hb.
Qed.

Lemma consume_fuel f1 f2 bs app :
  (length bs < f1)%nat -> (length bs < f2)%nat -> consume_loop f1 bs app = consume_loop f2 bs app.
Proof.
  revert f2 bs app. induction f1 as [|f1 IH]; intros [|f2] bs app H1 H2; try lia. simpl.
  destruct (prefix_deserialize bs) as [p|] eqn:E; [|done].
  destruct (prefix_bad p) eqn:Eb; [done|]. destruct (mTotalLength p >? limit); [done|].
  destruct (heap_ok (mTotalLength p)); [|done]. cbn [negb].
  case_bool_decide; [done|]. pose proof (good_total _ _ E Eb).
  destruct (processPayload p _ app) as [[app' [|]]|]; simpl; try done.
  apply IH; rewrite length_drop; lia.
Qed.

(** One message at a time. *)
Lemma consume_unfold bs app :
  consume bs app =
  match prefix_deserialize bs with
  | None => Some (app, bs, false)
  | Some p =>
      let total := Z.to_nat (mTotalLength p) in
      if prefix_bad p then Some (app, bs, true)
      else if mTotalLength p >? limit then None
      else if negb (heap_ok (mTotalLength p)) then Some (app, bs, true)
      else if bool_decide (length bs < total)%nat then Some (app, bs, false)
      else '(app, bad) ← processPayload p (drop (Z.to_nat mPrefixSize) (take total bs)) app;
           if (bad : bool) then Some (app, drop total bs, true) else consume (drop total bs) app
  end.
Proof.
  unfold consume at 1. simpl.
  destruct (prefix_deserialize bs) as [p|] eqn:E; [|done].
  destruct (prefix_bad p) eqn:Eb; [done|]. destruct (mTotalLength p >? limit); [done|].
  destruct (heap_ok (mTotalLength p)); [|done]. cbn [negb].
  case_bool_decide; [done|]. pose proof (good_total _ _ E Eb).
  destruct (processPayload p _ app) as [[app' [|]]|]; simpl; try done.
  apply consume_fuel; rewrite length_drop; lia.
Qed.

(** Induction over the messages of a byte string. *)
Lemma bytes_ind (P : list Z -> Prop) :
  (forall bs, (forall bs', (length bs' < length bs)%nat -> P bs') -> P bs) -> forall bs, P bs.
Proof. intros Hs bs. induction bs using (well_founded_induction (well_founded_ltof _ length)). by apply Hs. Qed.

(** Bytes that arrive later are handled as if they had been there from the start. *)
Lemma consume_app bs more app app' rest dead :
  consume bs app = Some (app', rest, dead) ->
  consume (bs ++ more) app = if dead then Some (app', rest ++ more, true) else consume (rest ++ more) app'.
Proof.
  revert app. induction bs as [bs IH] using bytes_ind. intros app E.
  rewrite consume_unfold in E. destruct (prefix_deserialize bs) as [p|] eqn:Ep; [|by simplify_eq].
  cbv zeta in E. destruct (prefix_bad p) eqn:Eb.
  { simplify_eq. rewrite consume_unfold, (prefix_deserialize_app _ _ _ Ep). by rewrite Eb. }
  destruct (mTotalLength p >? limit) eqn:El; [done|]. destruct (heap_ok (mTotalLength p)) eqn:Eh; cbn [negb] in E;
    [|by simplify_eq; rewrite consume_unfold, (prefix_deserialize_app _ _ _ Ep), Eb, El, Eh].
  case_bool_decide as Hl; [by simplify_eq|]. pose proof (good_total _ _ Ep Eb) as Ht.
  rewrite consume_unfold, (prefix_deserialize_app _ _ _ Ep), Eb, El, Eh. cbv zeta. cbn [negb].
  rewrite bool_decide_eq_false_2 by (rewrite length_app; lia).
  rewrite take_app_le, drop_app_le by lia.
  destruct (processPayload p _ app) as [[app1 [|]]|]; simpl in *; [by simplify_eq| |done].
  apply IH; [rewrite length_drop; lia|done].
Qed.

(** What can be handled as a whole can be handled as far as it has arrived. *)
Lemma consume_prefix bs more app r :
  consume (bs ++ more) app = Some r -> exists r', consume bs app = Some r'.
Proof.
  revert app. induction bs as [bs IH] using bytes_ind. intros app E.
  rewrite consume_unfold. destruct (prefix_deserialize bs) as [p|] eqn:Ep; [|by eexists].
  cbv zeta. destruct (prefix_bad p) eqn:Eb; [by eexists|].
  rewrite consume_unfold, (prefix_deserialize_app _ _ _ Ep), Eb in E. cbv zeta in E.
  destruct (mTotalLength p >? limit) eqn:El; [done|]. destruct (heap_ok (mTotalLength p)); cbn [negb] in *; [|by eexists].
  destruct (decide (length bs < Z.to_nat (mTotalLength p))%nat) as [Hl|Hl];
    [rewrite bool_decide_eq_true_2 by done; by eexists|rewrite bool_decide_eq_false_2 by done].
  pose proof (good_total _ _ Ep Eb) as Ht.
  rewrite bool_decide_eq_false_2 in E by (rewrite length_app; lia).
  rewrite take_app_le, drop_app_le in E by lia.
  destruct (processPayload p _ app) as [[app1 [|]]|]; simpl in *; [by eexists| |done].
  eapply IH; [rewrite length_drop; lia|exact E].
Qed.

(** The bytes left over are less than a message. *)
Lemma consume_rest bs app app' rest :
  consume bs app = Some (app', rest, false) -> consume rest app' = Some (app', rest, false).
Proof.
  revert app. induction bs as [bs IH] using bytes_ind. intros app E.
  pose proof E as E'. rewrite consume_unfold in E.
  destruct (prefix_deserialize bs) as [p|] eqn:Ep; [|by simplify_eq].
  cbv zeta in E. destruct (prefix_bad p) eqn:Eb; [done|].
  destruct (mTotalLength p >? limit) eqn:El; [done|].
  destruct (heap_ok (mTotalLength p)); [|done]. cbn [negb] in E. case_bool_decide as Hl; [by simplify_eq|]. pose proof (good_total _ _ Ep Eb) as Ht.
  destruct (processPayload p _ app) as [[app1 [|]]|]; simpl in *; [done| |done].
  eapply IH; [|exact E]. rewrite length_drop. lia.
Qed.
End consume.

(** ** Reading implements the specification *)

(** The buffer holds the bytes [held], which have arrived and are not consumed. *)
Record chunk_holds (c : CInputDataChunk) (held : list Z) : Prop := {
  ch_off : 0 <= ic_mOffset c;
  ch_len : ic_mConsumed c = Z.of_nat (length held);
  ch_fit : 0 <= getTailSize c;
  ch_size : mDefaultInputChunkSize <= ic_mSize c;
  ch_buf : exists front tail, ic_mBuffer c = Some (front ++ held ++ tail) /\
    ic_mOffset c = Z.of_nat (length front) /\ getTailSize c = Z.of_nat (length tail) }.

Lemma chunk_head c held :
  chunk_holds c held -> exists tail, getBufferHead c = held ++ tail.
Proof.
  intros [_ _ _ _ (front & tail & E & Ho & _)]. exists tail. unfold getBufferHead.
  rewrite E, Ho, Nat2Z.id. simpl. by rewrite drop_app_length.
Qed.

Lemma extractData_short c held size :
  chunk_holds c held -> Z.of_nat (length held) < size ->
  extractData size c = Some (size - Z.of_nat (length held), [], c).
Proof. intros Hc Hs. unfold extractData. rewrite (ch_len _ _ Hc). bool_cases; first [done|lia]. Qed.

Lemma extractData_holds c held size :
  chunk_holds c held -> (size <= length held)%nat ->
  exists c', extractData (Z.of_nat size) c = Some (0, take size held, c') /\
    chunk_holds c' (drop size held) /\ getTailSize c' = getTailSize c.
Proof.
  intros Hc Hs. destruct (chunk_head _ _ Hc) as [t Et]. unfold extractData.
  rewrite Et, (ch_len _ _ Hc), length_app. bool_cases; try lia. simpl.
  rewrite Nat2Z.id, take_app_le by lia. eexists. split; [done|].
  assert (getTailSize (mkInChunk (ic_mBuffer c) (ic_mSize c) (ic_mOffset c + Z.of_nat size)
            (Z.of_nat (length held) - Z.of_nat size)) = getTailSize c) as Ht.
  { unfold getTailSize. simpl. rewrite (ch_len _ _ Hc). lia. }
  split; [|exact Ht]. destruct Hc as [C1 C2 C3 C4 (front & tail & E & Ho & Hl)].
  split; rewrite ?Ht; simpl; rewrite ?length_drop; try lia.
  exists (front ++ take size held), tail. rewrite <- app_assoc, (app_assoc (take size held)), take_drop.
  rewrite length_app, length_take. repeat split; [done|lia|done].
Qed.

Lemma chunk_fill_holds c held data :
  chunk_holds c held -> Z.of_nat (length data) <= getTailSize c ->
  exists c', chunk_fill data c = Some c' /\ chunk_holds c' (held ++ data).
Proof.
  intros [C1 C2 C3 C4 (front & tail & E & Ho & Hl)] Hd. unfold chunk_fill. rewrite E. simpl.
  assert (Z.to_nat (ic_mOffset c + ic_mConsumed c) = length (front ++ held)) as ->
    by (rewrite length_app; lia).
  rewrite (app_assoc front held tail).
  rewrite bool_decide_eq_true_2 by (rewrite !length_app; lia).
  eexists. split; [done|]. rewrite take_app_length.
  assert (getTailSize (mkInChunk (Some ((front ++ held) ++ data ++ drop (length (front ++ held) + length data) ((front ++ held) ++ tail)))
     (ic_mSize c) (ic_mOffset c) (ic_mConsumed c + Z.of_nat (length data)))
     = getTailSize c - Z.of_nat (length data)) as Ht by (unfold getTailSize; simpl; lia).
  split; rewrite ?Ht; simpl; rewrite ?length_app; try lia.
  exists front, (drop (length data) tail). rewrite length_drop. repeat split; try lia.
  f_equal. rewrite <- drop_drop, drop_app_length' by by rewrite length_app. by rewrite <- !app_assoc.
Qed.

Section rx_laws.
Context {H : Heap} (memcpy_overlap : list Z -> Z -> Z -> list Z) (limit : Z).
Hypothesis limit_prefix : mPrefixSize <= limit.

(** Nothing is asked of [memcpy] or of the heap when messages are at most half the first
    buffer.  Larger ones take that the platform copies overlapping blocks as if the bytes were
    read before they are overwritten, and that the buffer can grow. *)
Definition memcpy_upwards : Prop := forall buf src n,
  memcpy_overlap buf src n = take (Z.to_nat n) (drop (Z.to_nat src) buf) ++ drop (Z.to_nat n) buf.
Hypothesis copies : limit <= SMALL_LIMIT \/
  (limit <= FRAME_LIMIT /\ memcpy_upwards /\ forall n, heap_ok n = true).

Lemma limit_frame : limit <= FRAME_LIMIT.
Proof. assert (SMALL_LIMIT <= FRAME_LIMIT) by by vm_compute. destruct copies as [|[? _]]; lia. Qed.

Lemma memcpy_down_spec buf src n :
  n <= src \/ memcpy_upwards ->
  memcpy_down memcpy_overlap buf src n =
  take (Z.to_nat n) (drop (Z.to_nat src) buf) ++ drop (Z.to_nat n) buf.
Proof. intros Hc. unfold memcpy_down. destruct (Z.leb_spec n src); [done|]. destruct Hc as [|Hc]; [lia|apply Hc]. Qed.

(** What is moved to the start of the buffer does not overlap its target, or the platform
    copies it well. *)
Lemma small_apart need c held :
  chunk_holds c held -> need + Z.of_nat (length held) <= limit -> getTailSize c < need ->
  ic_mConsumed c <= ic_mOffset c \/ memcpy_upwards.
Proof.
  intros Hc Hn Ht. destruct copies as [Hs|(_ & Hu & _)]; [left|by right].
  assert (2 * SMALL_LIMIT <= mDefaultInputChunkSize) by by vm_compute.
  pose proof (ch_size _ _ Hc). pose proof (ch_fit _ _ Hc). pose proof (ch_len _ _ Hc). unfold getTailSize in *. lia.
Qed.

(** There is room for [need] more bytes, or what is held and expected is within the limit. *)
Definition roomy (need : Z) (c : CInputDataChunk) (held : list Z) : Prop :=
  need <= getTailSize c \/ need + Z.of_nat (length held) <= limit.

Lemma chunk_compact_holds need c held :
  chunk_holds c held -> 0 <= need -> roomy need c held ->
  let c' := chunk_compact memcpy_overlap need c in
  chunk_holds c' held /\ ic_mSize c' = ic_mSize c /\
  (getTailSize c' < need -> ic_mOffset c' = 0).
Proof.
  intros Hc0 Hn Hr. pose proof Hc0 as [C1 C2 C3 C4 (front & tail & E & Ho & Hl)]. unfold chunk_compact.
  destruct (Z.eqb_spec (ic_mConsumed c) 0) as [E0|E0]; simpl.
  - assert (held = []) as -> by (destruct held; [done|simpl in C2; lia]).
    split; [|done]. split; simpl; try done; try (unfold getTailSize in *; simpl in *; lia).
    exists [], (front ++ tail). simpl in *. rewrite length_app. unfold getTailSize in *. simpl.
    repeat split; [done|lia].
  - destruct (Z.ltb_spec (getTailSize c) need) as [L|L]; simpl; [|by split; [split; eauto|split; [done|lia]]].
    destruct (Z.eqb_spec (ic_mOffset c) 0) as [E1|E1]; simpl; [by split; [split; eauto|]|].
    split; [|done]. split; simpl; try done; [unfold getTailSize in *; simpl; lia|].
    destruct Hr as [Hr|Hr]; [lia|]. pose proof (small_apart need c held Hc0 Hr L) as Hap.
    set (buf := front ++ held ++ tail). exists [], (drop (length held) buf).
    rewrite E. simpl. rewrite memcpy_down_spec by done. rewrite C2, Ho, !Nat2Z.id. subst buf.
    rewrite drop_app_length, take_app_length. repeat split.
    rewrite length_drop, !length_app. unfold getTailSize in *. simpl. lia.
Qed.

Lemma chunk_grow_holds need c held :
  chunk_holds c held -> 0 <= need -> (getTailSize c < need -> ic_mOffset c = 0) -> roomy need c held ->
  exists c', chunk_grow need c = (true, c') /\ chunk_holds c' held /\ need <= getTailSize c'.
Proof.
  intros Hc Hn Ho Hr. unfold chunk_grow. destruct (Z.ltb_spec (getTailSize c) need) as [L|L]; [|by eauto].
  specialize (Ho L). destruct Hr as [Hr|Hr]; [lia|]. destruct Hc as [C1 C2 C3 C4 (front & tail & E & Hf & Hl)].
  destruct copies as [Hs|(Hlim & _ & memory)].
  { assert (SMALL_LIMIT <= mDefaultInputChunkSize) by by vm_compute. unfold getTailSize in L. lia. }
  assert (front = []) as -> by (destruct front; [done|simpl in Hf; lia]).
  set (grow := if need <? mDefaultInputChunkSize then mDefaultInputChunkSize else need).
  assert (need <= grow /\ 0 <= grow <= FRAME_LIMIT) as [Hg Hg'].
  { subst grow. assert (mDefaultInputChunkSize <= FRAME_LIMIT /\ 0 <= mDefaultInputChunkSize) by by vm_compute.
    bool_cases; lia. }
  assert (ic_mSize c + grow <= mMaxInputChunkSize) as Hm.
  { assert (FRAME_LIMIT + FRAME_LIMIT = mMaxInputChunkSize) by by vm_compute.
    unfold getTailSize in L. lia. }
  destruct (ic_mSize c + grow >? mMaxInputChunkSize) eqn:Eg; [destruct_bool_hyp; rewrite Z.gtb_ltb in Eg; destruct_bool_hyp; lia|].
  rewrite memory, E. simpl. eexists. split; [done|].
  assert (getTailSize (mkInChunk (Some (realloc (held ++ tail) (ic_mSize c + grow))) (ic_mSize c + grow)
    (ic_mOffset c) (ic_mConsumed c)) = getTailSize c + grow) as Ht by (unfold getTailSize; simpl; lia).
  split; [|rewrite Ht; lia]. split; rewrite ?Ht; simpl; try done; try lia.
  exists [], (tail ++ replicate (Z.to_nat grow) 0). simpl. rewrite length_app, length_replicate.
  repeat split; [|done|lia]. f_equal. unfold realloc.
  unfold getTailSize in Hl. rewrite take_ge by (rewrite length_app; lia).
  rewrite <- app_assoc. repeat f_equal. rewrite length_app. lia.
Qed.

(** The buffer has room for what is expected afterwards, and holds the same bytes. *)
Lemma checkBufferSize_holds need c held :
  chunk_holds c held -> 0 <= need <= limit -> roomy need c held ->
  exists c', checkBufferSize memcpy_overlap need c = (true, c') /\ chunk_holds c' held /\
    need <= getTailSize c'.
Proof.
  intros Hc Hn Hr. pose proof limit_frame.
  destruct (chunk_compact_holds need c held Hc ltac:(lia) Hr) as (Hc1 & Hs1 & Ho1).
  destruct (ch_buf _ _ Hc) as (front & tail & E & _ & _).
  assert (FRAME_LIMIT <= mMaxInputChunkSize) by by vm_compute.
  unfold checkBufferSize. destruct (need >? mMaxInputChunkSize) eqn:Eg;
    [rewrite Z.gtb_ltb in Eg; destruct_bool_hyp; lia|].
  rewrite E. apply chunk_grow_holds; [done|lia|done|].
  destruct Hr as [Hr|Hr]; [|by right]. left. unfold getTailSize in *.
  pose proof (ch_off _ _ Hc). pose proof (ch_len _ _ Hc). pose proof (ch_len _ _ Hc1).
  destruct (Z.lt_ge_cases (ic_mSize (chunk_compact memcpy_overlap need c) - ic_mOffset (chunk_compact memcpy_overlap need c)
     - ic_mConsumed (chunk_compact memcpy_overlap need c)) need) as [L|L]; [|lia].
  specialize (Ho1 L). lia.
Qed.

Context {A : Type} (processPayload : CFdbMsgPrefix -> list Z -> A -> option (A * bool)).
Implicit Types st : CRxSession A.

(** A session between two reads: the bytes [held] are less than a message, or the
    prefix at their start has been parsed already. *)
Record rx_at st (held : list Z) : Prop := {
  ra_live : rx_mFatalError st = false;
  ra_chunk : chunk_holds (rx_mInputChunk st) held;
  ra_prefix : is_Some (rx_mPayloadBuffer st) ->
    prefix_deserialize held = Some (rx_mMsgPrefix st) /\ prefix_bad (rx_mMsgPrefix st) = false /\
    mTotalLength (rx_mMsgPrefix st) <= limit /\ heap_ok (mTotalLength (rx_mMsgPrefix st)) = true }.

Lemma i32_frame t : 0 <= t <= FRAME_LIMIT -> i32 t = t.
Proof.
  intros Ht. apply wrap_s_small; [lia|]. assert (FRAME_LIMIT < 2 ^ 31) by by vm_compute. split; lia.
Qed.

(** How far the loop of [onInputReady] is from its end. *)
Definition ready_measure st (held : list Z) : nat :=
  2 * length held + match rx_mPayloadBuffer st with Some _ => 1 | None => 2 end.

(** What [onInputReady] leaves behind when the specification leaves [app'] and [rest]. *)
Definition ready_result (app' : A) (rest : list Z) (dead : bool) (need : Z) st' : Prop :=
  rx_app st' = app' /\
  if dead then need = 0 /\ rx_mFatalError st' = true /\ exists h, chunk_holds (rx_mInputChunk st') h
  else rx_at st' rest /\ 0 < need /\ need + Z.of_nat (length rest) <= limit.

Lemma ready_dead fuel st h :
  rx_mFatalError st = true -> chunk_holds (rx_mInputChunk st) h -> (0 < fuel)%nat ->
  exists st', ready_loop processPayload fuel st = Some (0, st') /\ ready_result (rx_app st) [] true 0 st'.
Proof.
  intros Hf Hc Hfuel. destruct fuel as [|fuel]; [lia|]. simpl. rewrite Hf.
  eexists; split; [done|]. repeat split; try done. by exists h.
Qed.

Lemma ready_loop_spec fuel st held app' rest dead :
  rx_at st held -> (ready_measure st held <= fuel)%nat ->
  consume processPayload limit held (rx_app st) = Some (app', rest, dead) ->
  exists need st', ready_loop processPayload fuel st = Some (need, st') /\
    ready_result app' rest dead need st'.
Proof.
  revert st held. induction fuel as [|fuel IH]; intros st held Hst Hm Ec.
  { unfold ready_measure in Hm. destruct (rx_mPayloadBuffer st); lia. }
  destruct Hst as [Hl Hc Hp]. simpl. rewrite Hl. unfold ready_measure in Hm.
  rewrite consume_unfold in Ec. destruct (rx_mPayloadBuffer st) as [buf|] eqn:Eb.
  - destruct Hp as (Ep & Ebad & Elim & Eheap); [by eexists|]. rewrite Ep, Ebad in Ec. cbv zeta in Ec. pose proof limit_frame.
    pose proof (good_total _ _ Ep Ebad) as Ht. set (p := rx_mMsgPrefix st) in *.
    rewrite (i32_frame (mTotalLength p)) by lia.
    destruct (mTotalLength p >? limit) eqn:El; [rewrite Z.gtb_ltb in El; destruct_bool_hyp; lia|].
    rewrite Eheap in Ec. cbn [negb] in Ec. case_bool_decide as Hlen.
    + simplify_eq. rewrite (extractData_short _ rest) by (done || lia). simpl.
      destruct (Z.eqb_spec (mTotalLength p - Z.of_nat (length rest)) 0); [lia|]. simpl.
      eexists _, _. split; [done|]. split; [done|]. split; [|lia].
      split; [done|done|]. intros _. done.
    + destruct (extractData_holds _ _ (Z.to_nat (mTotalLength p)) Hc ltac:(lia)) as (c' & Ee & Hc' & Htail).
      rewrite Z2Nat.id in Ee by lia. rewrite Ee. simpl. unfold handle_payload. simpl. fold p.
      destruct (processPayload p _ (rx_app st)) as [[app1 bad]|]; simpl in *; [|done].
      rewrite Hl. simpl. destruct bad.
      * simplify_eq. edestruct (ready_dead fuel (mkRx true None p c' app') (drop (Z.to_nat (mTotalLength p)) held))
          as (st' & E' & Hr); [done|done|lia|]. simpl in Hr.
        eexists _, _. split; [exact E'|]. exact Hr.
      * apply (IH _ (drop (Z.to_nat (mTotalLength p)) held));
          [|unfold ready_measure; simpl; rewrite length_drop; lia|exact Ec].
        split; [done|done|]. simpl. by intros [].
  - destruct (chunk_head _ _ Hc) as [t Et]. unfold getExpectedSize.
    rewrite (ch_len _ _ Hc). destruct (prefix_deserialize held) as [p|] eqn:Ep.
    + assert (mPrefixSize <= Z.of_nat (length held)) as Hlen.
      { destruct (Z.le_gt_cases mPrefixSize (Z.of_nat (length held))) as [|L]; [done|].
        apply prefix_deserialize_short in L. by rewrite Ep in L. }
      destruct (mPrefixSize >? Z.of_nat (length held)) eqn:E8; [rewrite Z.gtb_ltb in E8; destruct_bool_hyp; lia|].
      simpl. rewrite Et. unfold parsePrefix. rewrite (prefix_deserialize_app _ _ _ Ep). simpl.
      fold (prefix_bad p). cbv zeta in Ec. destruct (prefix_bad p) eqn:Ebad.
      * simplify_eq. simpl. edestruct (ready_dead fuel (rx_fatal (mkRx (rx_mFatalError st) (rx_mPayloadBuffer st) p (rx_mInputChunk st) (rx_app st))) rest)
          as (st' & E' & Hr); [done|done|lia|]. eexists _, _. split; [exact E'|]. exact Hr.
      * destruct (mTotalLength p >? limit) eqn:El; [done|]. destruct (heap_ok (mTotalLength p)) eqn:Eh; rewrite Eb; cbn [negb] in Ec.
        2: { simplify_eq. simpl. edestruct (ready_dead fuel (rx_fatal (mkRx (rx_mFatalError st) None p (rx_mInputChunk st) (rx_app st))) rest)
          as (st' & E' & Hr); [done|done|lia|]. eexists _, _. split; [exact E'|]. exact Hr. }
        simpl. apply (IH _ held); [| |by rewrite consume_unfold, Ep, Ebad, El, Eh].
        -- split; [done|done|]. intros _. simpl. repeat split; [done|done| |done].
           rewrite Z.gtb_ltb in El. by destruct_bool_hyp.
        -- unfold ready_measure. simpl. lia.
    + simplify_eq. apply prefix_deserialize_short in Ep.
      destruct (mPrefixSize >? Z.of_nat (length rest)) eqn:E8; [|rewrite Z.gtb_ltb in E8; destruct_bool_hyp; lia].
      destruct (Z.eqb_spec (mPrefixSize - Z.of_nat (length rest)) 0); [lia|]. simpl.
      eexists _, _. split; [done|]. split; [done|]. split; [|split; [lia|]].
      * split; [done|done|]. rewrite Eb. by intros [].
      * replace (mPrefixSize - Z.of_nat (length rest) + Z.of_nat (length rest)) with mPrefixSize by lia. done.
Qed.

(** A session ready to read: there is room for at least one byte. *)
Definition rx_ready st (held : list Z) : Prop := rx_at st held /\ 0 < getTailSize (rx_mInputChunk st).

Lemma make_room_live need st rest :
  rx_at st rest -> 0 < need -> need + Z.of_nat (length rest) <= limit ->
  exists st', make_room memcpy_overlap processPayload need st = Some st' /\
    rx_ready st' rest /\ rx_app st' = rx_app st.
Proof.
  intros [Hl Hc Hp] Hn Hlim. unfold make_room. destruct (Z.ltb_spec need 0); [lia|].
  destruct (checkBufferSize_holds need _ _ Hc) as (c' & E & Hc' & Ht); [lia|by right|].
  rewrite E. eexists. split; [done|]. split; [|done]. split; [by split|simpl; lia].
Qed.

Lemma make_room_dead st h :
  rx_mFatalError st = true -> chunk_holds (rx_mInputChunk st) h ->
  exists st', make_room memcpy_overlap processPayload 0 st = Some st' /\
    rx_mFatalError st' = true /\ rx_app st' = rx_app st.
Proof.
  intros Hf Hc. unfold make_room. simpl.
  destruct (checkBufferSize_holds 0 _ _ Hc) as (c' & E & Hc' & Ht); [unfold mPrefixSize in *; lia|left; apply Hc|].
  rewrite E. by eexists.
Qed.

(** A read of some bytes [data] for which there is room: the session handles them
    as the specification does, and is ready for the next read unless it has failed. *)
Lemma processInput_spec recv st held data app' rest dead :
  rx_ready st held -> recv (getTailSize (rx_mInputChunk st)) = Some data -> data <> [] ->
  Z.of_nat (length data) <= getTailSize (rx_mInputChunk st) ->
  consume processPayload limit (held ++ data) (rx_app st) = Some (app', rest, dead) ->
  exists st', processInput memcpy_overlap processPayload recv st = Some st' /\
    rx_app st' = app' /\ rx_mFatalError st' = dead /\ (dead = false -> rx_ready st' rest).
Proof.
  intros [[Hl Hc Hp] Ht] Er Hne Hfit Ec. unfold processInput.
  destruct (Z.eqb_spec (getTailSize (rx_mInputChunk st)) 0); [lia|]. rewrite Er.
  destruct data as [|b data]; [done|].
  destruct (chunk_fill_holds _ _ _ Hc Hfit) as (c' & Ef & Hc'). rewrite Ef. simpl.
  destruct (ready_loop_spec (ready_fuel (rx_set_chunk c' st)) (rx_set_chunk c' st) (held ++ b :: data)
    app' rest dead) as (need & st1 & E1 & Happ & Hr); [|unfold ready_fuel, ready_measure; simpl|exact Ec|].
  - split; [done|done|]. intros Hs. destruct (Hp Hs) as (Ep & ? & ?). split; [|done].
    by apply prefix_deserialize_app.
  - rewrite (ch_len _ _ Hc'), Nat2Z.id. destruct (rx_mPayloadBuffer st); lia.
  - unfold onInputReady. rewrite E1. simpl. destruct dead.
    + destruct Hr as (-> & Hf & h & Hh). destruct (make_room_dead _ _ Hf Hh) as (st2 & E2 & Hf2 & Ha2).
      exists st2. split; [done|]. by rewrite Ha2.
    + destruct Hr as (Hat & Hn & Hlim). destruct (make_room_live _ _ _ Hat Hn Hlim) as (st2 & E2 & Hr2 & Ha2).
      exists st2. split; [done|]. split; [by rewrite Ha2|]. split; [apply Hr2|done].
Qed.

(** *** A connection *)

(** The loop calls [processInput] while the session has not failed; the peer has sent
    the bytes [stream], of which so many have arrived at each call. *)
Fixpoint rx_run (arrived : list Z) (stream : list Z) st : option (list Z * CRxSession A) :=
  match arrived with
  | [] => Some (stream, st)
  | k :: arrived =>
      if rx_mFatalError st then Some (stream, st) else
      let n := Z.to_nat (Z.min k (getTailSize (rx_mInputChunk st))) in
      st ← processInput memcpy_overlap processPayload (fun _ => Some (take n stream)) st;
      rx_run arrived (drop n stream) st
  end.

Lemma processInput_nothing st held :
  rx_ready st held ->
  exists st', processInput memcpy_overlap processPayload (fun _ => Some []) st = Some st' /\
    rx_ready st' held /\ rx_app st' = rx_app st.
Proof.
  intros [[Hl Hc Hp] Ht]. unfold processInput.
  destruct (Z.eqb_spec (getTailSize (rx_mInputChunk st)) 0); [lia|]. unfold make_room. simpl.
  unfold checkBufferSize. destruct (ch_buf _ _ Hc) as (front & tail & E & _). rewrite E.
  destruct (chunk_compact_holds 0 _ _ Hc ltac:(lia) ltac:(left; apply Hc)) as (Hc' & Hs & _).
  assert (getTailSize (rx_mInputChunk st) <= getTailSize (chunk_compact memcpy_overlap 0 (rx_mInputChunk st))) as Ht'.
  { unfold getTailSize in *. rewrite Hs, (ch_len _ _ Hc), (ch_len _ _ Hc').
    unfold chunk_compact, getTailSize. pose proof (ch_off _ _ Hc).
    destruct (ic_mConsumed (rx_mInputChunk st) =? 0); simpl; [lia|]. destruct (_ && _); simpl; lia. }
  unfold chunk_grow. destruct (Z.ltb_spec (getTailSize (chunk_compact memcpy_overlap 0 (rx_mInputChunk st))) 0); [lia|].
  eexists. split; [done|]. split; [|done]. split; [by split|]. simpl. lia.
Qed.

(** Between two calls no complete message is left in the buffer. *)
Definition rx_idle st (held : list Z) : Prop :=
  rx_ready st held /\ consume processPayload limit held (rx_app st) = Some (rx_app st, held, false).

Lemma rx_run_spec arrived stream st held app' rest dead :
  rx_idle st held -> Forall (fun k => 0 < k) arrived -> (length stream <= length arrived)%nat ->
  consume processPayload limit (held ++ stream) (rx_app st) = Some (app', rest, dead) ->
  exists unread st', rx_run arrived stream st = Some (unread, st') /\
    rx_app st' = app' /\ rx_mFatalError st' = dead /\ (dead = false -> unread = [] /\ rx_idle st' rest).
Proof.
  revert stream st held. induction arrived as [|k arrived IH]; intros stream st held [Hst Hidle] Hk Hlen Ec.
  - destruct stream; [|simpl in Hlen; lia]. rewrite app_nil_r in Ec. simplify_eq. simpl.
    eexists _, _. split; [done|]. split; [done|]. split; [apply Hst|]. done.
  - inversion_clear Hk as [|? ? Hk0 Hks]. simpl. rewrite (ra_live _ _ (proj1 Hst)).
    set (n := Z.to_nat (Z.min k (getTailSize (rx_mInputChunk st)))).
    assert (0 < n)%nat as Hn by (destruct Hst as [_ Ht]; lia).
    destruct (decide (take n stream = [])) as [E0|E0].
    { assert (stream = []) as -> by (destruct stream, n; [done|done|lia|done]).
      rewrite E0. destruct (processInput_nothing st held Hst) as (st1 & E1 & Hr1 & Ha1).
      rewrite E1. simpl. rewrite drop_nil. apply (IH [] st1 held);
        [split; [done|by rewrite Ha1]|done|simpl; lia|by rewrite Ha1]. }
    rewrite <- (take_drop n stream), app_assoc in Ec.
    destruct (consume_prefix processPayload _ _ _ _ _ Ec) as [[[app1 rest1] dead1] E1].
    rewrite (consume_app _ _ _ _ _ _ _ _ E1) in Ec.
    destruct (processInput_spec (fun _ => Some (take n stream)) st held (take n stream) app1 rest1 dead1)
      as (st1 & Ep & Ha1 & Hf1 & Hr1); try done.
    { rewrite length_take. lia. }
    rewrite Ep. simpl. destruct dead1.
    + simplify_eq. assert (rx_run arrived (drop n stream) st1 = Some (drop n stream, st1)) as ->.
      { destruct arrived; [done|]. simpl. by rewrite Hf1. }
      by eexists _, _.
    + apply (IH (drop n stream) st1 rest1); [|done| |by rewrite Ha1].
      * split; [by apply Hr1|]. rewrite Ha1. by eapply consume_rest.
      * rewrite length_drop. simpl in Hlen. destruct stream; simpl in *; lia.
Qed.
End rx_laws.

(** ** Waiting for each message comes to the same *)

Section sync.
Context {H : Heap}.
Context {A : Type} (processPayload : CFdbMsgPrefix -> list Z -> A -> option (A * bool)).
Context (limit : Z).
Hypothesis limit_frames : limit <= FRAME_LIMIT.
Implicit Types st : CRxSession A.

(** Every call finds at least [k] bytes, and there are answers for [n] calls. *)
Definition steady (k : Z) (n : nat) (s : RxSocket) : Prop :=
  Forall (fun r => k <= r) (rs_ready s) /\ (n <= length (rs_ready s))%nat.

Lemma receive_loop_spec k retries size got s :
  0 < k -> (0 < retries)%nat -> 0 <= size <= Z.of_nat retries * k -> steady k (S (Z.to_nat size)) s ->
  (Z.to_nat size <= length (rs_stream s))%nat ->
  exists ready, receive_loop retries size got s =
    (Some (got ++ take (Z.to_nat size) (rs_stream s)), mkSock ready (drop (Z.to_nat size) (rs_stream s))) /\
    Forall (fun r => k <= r) ready /\
    (length (rs_ready s) <= length ready + S (Z.to_nat size))%nat.
Proof.
  intros Hk. revert size got s. induction retries as [|retries IH]; intros size got s Hr Hsz [Hs Hlen] Hst; [lia|].
  destruct s as [[|r ready] stream]; simpl in *; [lia|]. inversion_clear Hs as [|? ? Hr0 Hready].
  unfold sock_recv. simpl. destruct (Z.ltb_spec r 0); [lia|].
  rewrite length_take. destruct (Z.leb_spec (size - Z.of_nat (Z.to_nat (Z.min r size) `min` length stream)) 0).
  - replace (Z.to_nat (Z.min r size)) with (Z.to_nat size) by lia.
    exists ready. repeat split; [done|lia].
  - destruct retries as [|retries]; [lia|].
    destruct (IH (size - Z.of_nat (Z.to_nat (Z.min r size) `min` length stream))
      (got ++ take (Z.to_nat (Z.min r size)) stream) (mkSock ready (drop (Z.to_nat (Z.min r size)) stream)))
      as (ready' & E & Hf & Hl); [lia|nia|split; [done|simpl; lia]|simpl; rewrite length_drop; lia|].
    exists ready'. rewrite E. simpl. split; [|split; [done|simpl in Hl; lia]].
    rewrite <- app_assoc, take_take_drop, drop_drop. f_equal; [f_equal; f_equal|f_equal]; f_equal; lia.
Qed.

(** The smallest number of bytes per call with which any message arrives in time. *)
Definition STEADY : Z := FRAME_LIMIT / FDB_RECV_RETRIES + 1.

Lemma receiveData_spec size s :
  0 <= size <= FRAME_LIMIT -> steady STEADY (S (Z.to_nat size)) s ->
  (Z.to_nat size <= length (rs_stream s))%nat ->
  exists ready, receiveData size s =
    (Some (take (Z.to_nat size) (rs_stream s)), mkSock ready (drop (Z.to_nat size) (rs_stream s))) /\
    Forall (fun r => STEADY <= r) ready /\ (length (rs_ready s) <= length ready + S (Z.to_nat size))%nat.
Proof.
  intros Hs Hst Hl. apply receive_loop_spec; [by vm_compute|by vm_compute; lia| |done|done].
  rewrite Z2Nat.id by by vm_compute.
  assert (FRAME_LIMIT <= FDB_RECV_RETRIES * STEADY) by by vm_compute. lia.
Qed.

(** One call of [onInput] on a stream that starts with a complete message. *)
Lemma onInput_spec s st p :
  rx_mFatalError st = false -> rx_mPayloadBuffer st = None ->
  prefix_deserialize (rs_stream s) = Some p -> prefix_bad p = false ->
  mTotalLength p <= limit -> heap_ok (mTotalLength p) = true -> (Z.to_nat (mTotalLength p) <= length (rs_stream s))%nat ->
  steady STEADY (2 * length (rs_stream s)) s ->
  let total := Z.to_nat (mTotalLength p) in
  exists ready, steady STEADY (2 * length (drop total (rs_stream s))) (mkSock ready (drop total (rs_stream s))) /\
    onInput processPayload s st =
    ('(app, bad) ← processPayload p (drop (Z.to_nat mPrefixSize) (take total (rs_stream s))) (rx_app st);
     Some (mkRx bad None p (rx_mInputChunk st) app, mkSock ready (drop total (rs_stream s)))).
Proof.
  intros Hf Hb Ep Hbad Hlim Hheap Hlen [Hs Hn]. cbv zeta. pose proof (good_total _ _ Ep Hbad) as H8.
  set (t := Z.to_nat (mTotalLength p)) in *. unfold onInput. rewrite Hf.
  destruct (receiveData_spec mPrefixSize s) as (r1 & E1 & F1 & L1);
    [by vm_compute|split; [done|unfold mPrefixSize; lia]|unfold mPrefixSize; lia|].
  rewrite E1. unfold parsePrefix.
  rewrite prefix_deserialize_take, Ep. simpl. fold (prefix_bad p). rewrite Hbad, Hb, Hheap. simpl. rewrite Hf.
  assert (i32 (u32 (mTotalLength p - mPrefixSize)) = mTotalLength p - mPrefixSize) as ->.
  { unfold mPrefixSize in *. rewrite wrap_u_small; [apply i32_frame; lia|].
    assert (FRAME_LIMIT < 2 ^ 32) by by vm_compute. split; lia. }
  set (s1 := mkSock r1 _). unfold mPrefixSize in *.
  destruct (receiveData_spec (mTotalLength p - 8) s1) as (r2 & E2 & F2 & L2);
    [lia|split; [done|simpl; lia]|simpl; rewrite length_drop; lia|].
  rewrite E2. exists r2. simpl in L2. unfold handle_payload. simpl. rewrite length_drop. split.
  - split; [done|]. simpl. lia.
  - rewrite drop_app_length' by (rewrite length_take; unfold malloc, mPrefixSize; rewrite length_replicate; lia).
    rewrite drop_drop, skipn_firstn_comm.
    replace (Z.to_nat 8 + Z.to_nat (mTotalLength p - 8))%nat with t by lia.
    replace (Z.to_nat (mTotalLength p - 8)) with (t - Z.to_nat 8)%nat by lia.
    unfold mPrefixSize. destruct (processPayload p _ (rx_app st)) as [[app bad]|]; [|done].
    done.
Qed.

(** [onInput] whenever bytes are there. *)
Fixpoint sync_run (calls : nat) (s : RxSocket) st : option (RxSocket * CRxSession A) :=
  match calls with
  | O => Some (s, st)
  | S calls =>
      if rx_mFatalError st || bool_decide (rs_stream s = []) then Some (s, st) else
      '(st, s) ← onInput processPayload s st; sync_run calls s st
  end.

Lemma sync_run_spec calls s st app' :
  rx_mFatalError st = false -> rx_mPayloadBuffer st = None -> (length (rs_stream s) <= calls)%nat ->
  steady STEADY (2 * length (rs_stream s)) s ->
  consume processPayload limit (rs_stream s) (rx_app st) = Some (app', [], false) ->
  exists s' st', sync_run calls s st = Some (s', st') /\ rx_app st' = app' /\ rx_mFatalError st' = false /\
    rs_stream s' = [].
Proof.
  revert s st. induction calls as [|calls IH]; intros s st Hf Hb Hlen Hst Ec.
  { destruct (rs_stream s) eqn:E; [|simpl in Hlen; lia]. rewrite consume_unfold in Ec. simpl in Ec.
    simplify_eq. simpl. by eexists _, _. }
  simpl. rewrite Hf. simpl. case_bool_decide as E0.
  { rewrite E0, consume_unfold in Ec. simpl in Ec. simplify_eq. by eexists _, _. }
  rewrite consume_unfold in Ec. destruct (prefix_deserialize (rs_stream s)) as [p|] eqn:Ep; [|by simplify_eq].
  cbv zeta in Ec. destruct (prefix_bad p) eqn:Eb; [done|].
  destruct (mTotalLength p >? limit) eqn:El; [done|]. rewrite Z.gtb_ltb in El. destruct_bool_hyp.
  destruct (heap_ok (mTotalLength p)) eqn:Eh; [|done]. cbn [negb] in Ec.
  case_bool_decide as Hl; [by simplify_eq|]. pose proof (good_total _ _ Ep Eb) as H8.
  destruct (onInput_spec s st p) as (ready & Hst' & E); try done; [lia|]. rewrite E.
  destruct (processPayload p _ (rx_app st)) as [[app bad]|]; simpl in *; [|done].
  destruct bad; [done|]. apply IH; try done. simpl. rewrite length_drop. lia.
Qed.
End sync.

(** ** The properties *)

(** A new session, reading as bytes arrive or waiting for each message. *)
Definition rx_new {H : Heap} (memcpy_overlap : list Z -> Z -> Z -> list Z) {A} (async : bool) (app : A) :
    CRxSession A :=
  mkRx false None (mkPrefix 0 0)
    (if async then chunk_enable memcpy_overlap true CInputDataChunk_new else CInputDataChunk_new) app.

Lemma rx_new_idle {H : Heap} limit mo {A} (pp : CFdbMsgPrefix -> list Z -> A -> option (A * bool)) app :
  heap_ok mDefaultInputChunkSize = true -> rx_idle limit pp (rx_new mo true app) [].
Proof.
  intros Hm. split; [|done]. unfold rx_new, chunk_enable, checkBufferSize.
  replace (0 >? mMaxInputChunkSize) with false by by vm_compute. simpl.
  destruct (Z.ltb_spec mDefaultInputChunkSize 0) as [L|L]; [by vm_compute in L|]. rewrite Hm.
  split; [|by vm_compute]. split; [done| |by intros []].
  split; simpl; [done|done|by vm_compute|done|].
  exists [], (malloc mDefaultInputChunkSize). repeat split.
Qed.

(** A session that reads as bytes arrive: what the handler sees is what [consume] gives it. *)
Lemma async_run (H : Heap) memcpy_overlap limit (A : Type) (processPayload : CFdbMsgPrefix -> list Z -> A -> option (A * bool))
    arrived stream app app' rest dead :
  mPrefixSize <= limit ->
  (limit <= SMALL_LIMIT \/ (limit <= FRAME_LIMIT /\ memcpy_upwards memcpy_overlap /\ forall n, heap_ok n = true)) ->
  heap_ok mDefaultInputChunkSize = true ->
  Forall (fun k => 0 < k) arrived -> (length stream <= length arrived)%nat ->
  consume processPayload limit stream app = Some (app', rest, dead) ->
  exists unread st,
    rx_run memcpy_overlap processPayload arrived stream (rx_new memcpy_overlap true app) = Some (unread, st) /\
    rx_app st = app' /\ rx_mFatalError st = dead /\
    (dead = false -> unread = [] /\ chunk_holds (rx_mInputChunk st) rest).
Proof.
  intros H8 Hc Hm Ha Hl Ec.
  destruct (rx_run_spec memcpy_overlap limit H8 Hc processPayload arrived stream
    (rx_new memcpy_overlap true app) [] app' rest dead) as (unread & st & E & Happ & Hf & Hr); try done.
  { by apply rx_new_idle. }
  exists unread, st. split; [done|]. split; [done|]. split; [done|]. intros Hd.
  destruct (Hr Hd) as [Hu' [[Hat _] _]]. split; [done|]. apply Hat.
Qed.

(** C3: Messages do not depend on how the bytes arrive. For every division of
    the received bytes into reads, every handler of messages and every stream
    whose messages are at most [SMALL_LIMIT] (14889) bytes long, half the first input buffer,
    a session that has this buffer and reads as
    bytes arrive never touches memory outside its buffers or copies overlapping blocks, ends in
    the state the specification [consume] gives for the whole stream, and fails exactly when
    the specification does: on a bad prefix, when there is no memory for a message, or when the
    handler says so. Once at least as many reads as bytes have happened,
    nothing is left unread. A session that waits for each message ends in the
    same state on a stream of complete messages, of at most [FRAME_LIMIT] bytes, that arrive
    with at least [STEADY] bytes at every call. *)
Theorem framing_independent (H : Heap) (memcpy_overlap : list Z -> Z -> Z -> list Z) (A : Type)
    (processPayload : CFdbMsgPrefix -> list Z -> A -> option (A * bool))
    (limit : Z) (arrived ready stream : list Z) (app app' : A) (rest : list Z) (dead : bool) :
  mPrefixSize <= limit <= FRAME_LIMIT ->
  consume processPayload limit stream app = Some (app', rest, dead) ->
  (limit <= SMALL_LIMIT -> heap_ok mDefaultInputChunkSize = true ->
   Forall (fun k => 0 < k) arrived -> (length stream <= length arrived)%nat ->
   exists unread st,
    rx_run memcpy_overlap processPayload arrived stream (rx_new memcpy_overlap true app) = Some (unread, st) /\
    rx_app st = app' /\ rx_mFatalError st = dead /\
    (dead = false -> unread = [] /\ chunk_holds (rx_mInputChunk st) rest)) /\
  (dead = false -> rest = [] -> steady STEADY (2 * length stream) (mkSock ready stream) ->
   exists s st,
    sync_run processPayload (length stream) (mkSock ready stream) (rx_new memcpy_overlap false app) = Some (s, st) /\
    rx_app st = app' /\ rx_mFatalError st = false /\ rs_stream s = []).
Proof.
  intros Hlim Ec. split.
  - intros Hs Hm Ha Hl. apply (async_run H memcpy_overlap limit); try done; [lia|by left].
  - intros -> -> Hs. by apply (sync_run_spec processPayload limit (proj2 Hlim)).
Qed.

(** Larger messages, up to half the largest buffer, are read as well where the platform copies
    overlapping blocks as if every byte were read before it is overwritten, and there is memory. *)
Theorem large_messages_framed (H : Heap) memcpy_overlap (A : Type) (processPayload : CFdbMsgPrefix -> list Z -> A -> option (A * bool))
    arrived stream app app' rest dead :
  memcpy_upwards memcpy_overlap -> (forall n, heap_ok n = true) ->
  Forall (fun k => 0 < k) arrived -> (length stream <= length arrived)%nat ->
  consume processPayload FRAME_LIMIT stream app = Some (app', rest, dead) ->
  exists unread st,
    rx_run memcpy_overlap processPayload arrived stream (rx_new memcpy_overlap true app) = Some (unread, st) /\
    rx_app st = app' /\ rx_mFatalError st = dead /\
    (dead = false -> unread = [] /\ chunk_holds (rx_mInputChunk st) rest).
Proof.
  intros Hu Hm Ha Hl. apply (async_run H memcpy_overlap FRAME_LIMIT); try done; by right.
Qed.

(** Two messages in five pieces, to a handler that collects the payloads. *)
Definition collect (p : CFdbMsgPrefix) (data : list Z) (seen : list (list Z)) :
    option (list (list Z) * bool) := Some (seen ++ [data], false).

Definition memmove (buf : list Z) (src n : Z) : list Z :=
  take (Z.to_nat n) (drop (Z.to_nat src) buf) ++ drop (Z.to_nat n) buf.

Definition two_messages : list Z :=
  prefix_serialize (mkPrefix 10 2) ++ [1; 2] ++ prefix_serialize (mkPrefix 9 1) ++ [3].

(** A [memcpy] that loses overlapping blocks. *)
Definition memcpy_loses (buf : list Z) (src n : Z) : list Z := [].

Lemma framing_independent_witness :
  let mo := memcpy_loses in
  let heap : Heap := fun _ => true in
  (exists unread st,
    rx_run mo collect (replicate 19 4) two_messages (rx_new mo true []) = Some (unread, st) /\
    rx_app st = [[1; 2]; [3]] /\ rx_mFatalError st = false /\
    (false = false -> unread = [] /\ chunk_holds (rx_mInputChunk st) [])) /\
  (exists s st,
    sync_run collect (length two_messages) (mkSock (replicate 38 50000) two_messages) (rx_new mo false []) = Some (s, st) /\
    rx_app st = [[1; 2]; [3]] /\ rx_mFatalError st = false /\ rs_stream s = []).
Proof.
  destruct (framing_independent (fun _ => true) memcpy_loses (list (list Z)) collect SMALL_LIMIT (replicate 19 4)
    (replicate 38 50000) two_messages [] [[1; 2]; [3]] [] false) as [Ha Hs].
  - by vm_compute.
  - reflexivity.
  - split; [apply Ha|apply Hs]; try reflexivity; try done.
    + by repeat constructor.
    + split; [|by vm_compute; lia]. by repeat constructor.
Defined.

(** The limit is needed: the code moves what is left in the buffer with [memcpy], which the C
    standard leaves undefined for overlapping blocks, and they overlap when a message is larger
    than half the buffer. A [memcpy] that copies the last byte first repeats the end
    of the block; a message that spans a compaction of the buffer is then lost. *)
Definition memcpy_from_end (buf : list Z) (src n : Z) : list Z :=
  let m := n / src + 1 in
  drop (Z.to_nat (m * src - n))
    (concat (replicate (Z.to_nat m) (take (Z.to_nat src) (drop (Z.to_nat n) buf)))) ++ drop (Z.to_nat n) buf.

Example overlapping_memcpy_corrupts :
  let heap : Heap := fun _ => true in
  let stream := prefix_serialize (mkPrefix 8 0) ++ prefix_serialize (mkPrefix 30000 1)
                ++ replicate (Z.to_nat 20000) 1 ++ replicate (Z.to_nat 9992) 2 in
  let run mo := (fun r => foldl Z.add 0 (concat (rx_app r.2))) <$>
                  rx_run mo collect [30000; 30000] stream (rx_new mo true []) in
  run memmove = Some 39984 /\ run memcpy_from_end <> Some 39984.
Proof. vm_compute. split; [reflexivity|discriminate]. Qed.
