(* ===== verification/Message.v ===== *)
(** The message object: src/fdbus/CFdbMessage.cpp and src/public/fdbus/CFdbMessage.h.

    [FdbMessage] has all members of [CFdbMessage]; its buffer is explicit memory,
    laid out as the header comment says: padding, prefix, head, payload. The
    operations that build, fill, send and decode a message are functions on it;
    [None] is an access outside the buffer. The process the message lives in is
    [MsgEnv]: byte order, logger and text rendering. The theorem of this file
    composes the wire formats: what [buildHeader] puts on the wire is what the
    receiving constructor takes off it. *)
From S2P Require Import Prelude Serializer Codec CommonDefs WireBase WireTheorems StdMap Subscribe FdWatch Framing.

(** ** Flags *)

Definition MSG_GLOBAL_FLAG_MASK : Z := 0xffffff.
Definition MSG_FLAG_SYNC_REPLY : Z := Z.shiftl 1 2.
Definition MSG_FLAG_ERROR : Z := Z.shiftl 1 4.
Definition MSG_FLAG_STATUS : Z := Z.shiftl 1 5.
Definition MSG_FLAG_REPLIED : Z := Z.shiftl 1 (MSG_LOCAL_FLAG_SHIFT + 2).
Definition MSG_FLAG_EXTERNAL_BUFFER : Z := Z.shiftl 1 (MSG_LOCAL_FLAG_SHIFT + 4).

Definition FDB_CODE_SUBSCRIBE : Z := 0.
Definition FDB_CODE_UNSUBSCRIBE : Z := 1.

(** [FdbMsgStatusCode] as numbers. *)
Definition ST_OK : Z := 0.
Definition ST_AUTO_REPLY_OK : Z := -11.
Definition ST_TIMEOUT : Z := -16.
Definition ST_INVALID_ID : Z := -17.
Definition ST_PEER_VANISH : Z := -18.
Definition ST_UNABLE_TO_SEND : Z := -20.
Definition ST_MSG_DECODE_FAIL : Z := -23.
Definition ST_OBJECT_NOT_FOUND : Z := -29.
Definition ST_AUTHENTICATION_FAIL : Z := -30.

Definition mMaxHeadSize : Z := 256.
Definition maxReservedSize : Z := mPrefixSize + mMaxHeadSize.

(** ** The object *)

Record CFdbMsgMetadata := mkMetadata {
  mSendTime : Z; mArriveTime : Z; mReplyTime : Z; mReceiveTime : Z }.
Definition CFdbMsgMetadata_new : CFdbMsgMetadata := mkMetadata 0 0 0 0.

(** [m_mTimer] is the interval of the timer, when there is one; [m_mContext] tells
    whether the context is set. *)
Record FdbMessage := mkMsg {
  m_mType : EFdbMessageType;
  m_mCode : Z;
  m_mSn : Z;
  m_mPayloadSize : Z;
  m_mHeadSize : Z;
  m_mOffset : Z;
  m_mEpid : Z;
  m_mSid : Z;
  m_mOid : Z;
  m_mBuffer : option (list Z);
  m_mFlag : Z;
  m_mTimer : option Z;
  m_mStringData : string;
  m_mTopic : string;
  m_mTimeStamp : option CFdbMsgMetadata;
  m_mQOS : EFdbQOS;
  m_mContext : bool;
  m_mLifeTime : Z }.

(** Assignments to members. *)
Definition m_set_flag (f : Z) (m : FdbMessage) : FdbMessage :=
  mkMsg (m_mType m) (m_mCode m) (m_mSn m) (m_mPayloadSize m) (m_mHeadSize m) (m_mOffset m) (m_mEpid m)
    (m_mSid m) (m_mOid m) (m_mBuffer m) f (m_mTimer m) (m_mStringData m) (m_mTopic m) (m_mTimeStamp m)
    (m_mQOS m) (m_mContext m) (m_mLifeTime m).
Definition m_set_type (t : EFdbMessageType) (m : FdbMessage) : FdbMessage :=
  mkMsg t (m_mCode m) (m_mSn m) (m_mPayloadSize m) (m_mHeadSize m) (m_mOffset m) (m_mEpid m)
    (m_mSid m) (m_mOid m) (m_mBuffer m) (m_mFlag m) (m_mTimer m) (m_mStringData m) (m_mTopic m)
    (m_mTimeStamp m) (m_mQOS m) (m_mContext m) (m_mLifeTime m).
Definition m_set_code (c : Z) (m : FdbMessage) : FdbMessage :=
  mkMsg (m_mType m) c (m_mSn m) (m_mPayloadSize m) (m_mHeadSize m) (m_mOffset m) (m_mEpid m)
    (m_mSid m) (m_mOid m) (m_mBuffer m) (m_mFlag m) (m_mTimer m) (m_mStringData m) (m_mTopic m)
    (m_mTimeStamp m) (m_mQOS m) (m_mContext m) (m_mLifeTime m).
Definition m_set_sn (sn : Z) (m : FdbMessage) : FdbMessage :=
  mkMsg (m_mType m) (m_mCode m) sn (m_mPayloadSize m) (m_mHeadSize m) (m_mOffset m) (m_mEpid m)
    (m_mSid m) (m_mOid m) (m_mBuffer m) (m_mFlag m) (m_mTimer m) (m_mStringData m) (m_mTopic m)
    (m_mTimeStamp m) (m_mQOS m) (m_mContext m) (m_mLifeTime m).
Definition m_set_dest (epid sid oid : Z) (context : bool) (m : FdbMessage) : FdbMessage :=
  mkMsg (m_mType m) (m_mCode m) (m_mSn m) (m_mPayloadSize m) (m_mHeadSize m) (m_mOffset m) epid
    sid oid (m_mBuffer m) (m_mFlag m) (m_mTimer m) (m_mStringData m) (m_mTopic m)
    (m_mTimeStamp m) (m_mQOS m) context (m_mLifeTime m).
Definition m_set_timer (t : option Z) (m : FdbMessage) : FdbMessage :=
  mkMsg (m_mType m) (m_mCode m) (m_mSn m) (m_mPayloadSize m) (m_mHeadSize m) (m_mOffset m) (m_mEpid m)
    (m_mSid m) (m_mOid m) (m_mBuffer m) (m_mFlag m) t (m_mStringData m) (m_mTopic m)
    (m_mTimeStamp m) (m_mQOS m) (m_mContext m) (m_mLifeTime m).
Definition m_set_string (s : string) (m : FdbMessage) : FdbMessage :=
  mkMsg (m_mType m) (m_mCode m) (m_mSn m) (m_mPayloadSize m) (m_mHeadSize m) (m_mOffset m) (m_mEpid m)
    (m_mSid m) (m_mOid m) (m_mBuffer m) (m_mFlag m) (m_mTimer m) s (m_mTopic m)
    (m_mTimeStamp m) (m_mQOS m) (m_mContext m) (m_mLifeTime m).
Definition m_set_topic (s : string) (m : FdbMessage) : FdbMessage :=
  mkMsg (m_mType m) (m_mCode m) (m_mSn m) (m_mPayloadSize m) (m_mHeadSize m) (m_mOffset m) (m_mEpid m)
    (m_mSid m) (m_mOid m) (m_mBuffer m) (m_mFlag m) (m_mTimer m) (m_mStringData m) s
    (m_mTimeStamp m) (m_mQOS m) (m_mContext m) (m_mLifeTime m).
Definition m_set_stamp (t : option CFdbMsgMetadata) (m : FdbMessage) : FdbMessage :=
  mkMsg (m_mType m) (m_mCode m) (m_mSn m) (m_mPayloadSize m) (m_mHeadSize m) (m_mOffset m) (m_mEpid m)
    (m_mSid m) (m_mOid m) (m_mBuffer m) (m_mFlag m) (m_mTimer m) (m_mStringData m) (m_mTopic m)
    t (m_mQOS m) (m_mContext m) (m_mLifeTime m).
Definition incLifeTime (m : FdbMessage) : FdbMessage :=
  mkMsg (m_mType m) (m_mCode m) (m_mSn m) (m_mPayloadSize m) (m_mHeadSize m) (m_mOffset m) (m_mEpid m)
    (m_mSid m) (m_mOid m) (m_mBuffer m) (m_mFlag m) (m_mTimer m) (m_mStringData m) (m_mTopic m)
    (m_mTimeStamp m) (m_mQOS m) (m_mContext m) (i32 (m_mLifeTime m + 1)).

(** [replaceBuffer]: the old buffer is released. *)
Definition replaceBuffer (buffer : option (list Z)) (payload_size head_size offset : Z) (m : FdbMessage) :
    FdbMessage :=
  mkMsg (m_mType m) (m_mCode m) (m_mSn m) payload_size head_size offset (m_mEpid m)
    (m_mSid m) (m_mOid m) buffer (m_mFlag m) (m_mTimer m) (m_mStringData m) (m_mTopic m)
    (m_mTimeStamp m) (m_mQOS m) (m_mContext m) (m_mLifeTime m).

Definition m_flag_on (bit : Z) (m : FdbMessage) : FdbMessage := m_set_flag (Z.lor (m_mFlag m) bit) m.
Definition m_flag_off (bit : Z) (m : FdbMessage) : FdbMessage :=
  m_set_flag (Z.land (m_mFlag m) (u32 (Z.lnot bit))) m.

(** *** Queries *)

Definition isStatus (m : FdbMessage) : bool := flag_set (m_mFlag m) MSG_FLAG_STATUS.
Definition isError (m : FdbMessage) : bool :=
  Z.land (m_mFlag m) (Z.lor MSG_FLAG_ERROR MSG_FLAG_STATUS) =? Z.lor MSG_FLAG_ERROR MSG_FLAG_STATUS.
Definition isSubscribe (m : FdbMessage) : bool :=
  bool_decide (m_mType m = FDB_MT_SUBSCRIBE_REQ) && (m_mCode m =? FDB_CODE_SUBSCRIBE).
Definition isInitialResponse (m : FdbMessage) : bool := flag_set (m_mFlag m) MSG_FLAG_INITIAL_RESPONSE.
Definition isLogEnabled (m : FdbMessage) : bool := flag_set (m_mFlag m) MSG_FLAG_ENABLE_LOG.
Definition needReply (m : FdbMessage) : bool :=
  Z.land (m_mFlag m) (Z.lor MSG_FLAG_REPLIED MSG_FLAG_NOREPLY_EXPECTED) =? 0.
Definition expectReply (m : FdbMessage) : bool := negb (flag_set (m_mFlag m) MSG_FLAG_NOREPLY_EXPECTED).
Definition msg_sync (m : FdbMessage) : bool := flag_set (m_mFlag m) MSG_FLAG_SYNC_REPLY.
Definition enableLog (active : bool) (m : FdbMessage) : FdbMessage :=
  if active then m_flag_on MSG_FLAG_ENABLE_LOG m else m_flag_off MSG_FLAG_ENABLE_LOG m.

Definition getRawDataSize (m : FdbMessage) : Z := mPrefixSize + m_mHeadSize m + m_mPayloadSize m.
Definition getPayloadOffset (m : FdbMessage) : Z := m_mOffset m + mPrefixSize + m_mHeadSize m.
Definition getRawBuffer (m : FdbMessage) : option (list Z) := drop (Z.to_nat (m_mOffset m)) <$> m_mBuffer m.
Definition getPayloadBuffer (m : FdbMessage) : option (list Z) :=
  drop (Z.to_nat (getPayloadOffset m)) <$> m_mBuffer m.

Definition getMsgTypeName (type : EFdbMessageType) : string :=
  match type with
  | FDB_MT_UNKNOWN => "Unknown" | FDB_MT_REQUEST => "Request" | FDB_MT_REPLY => "Reply"
  | FDB_MT_SUBSCRIBE_REQ => "Subscribe" | FDB_MT_BROADCAST => "Broadcast"
  | FDB_MT_SIDEBAND_REQUEST => "SidebandRequest" | FDB_MT_SIDEBAND_REPLY => "SidebandReply"
  | FDB_MT_STATUS => "Status" | FDB_MT_GET_EVENT => "Get" | FDB_MT_RETURN_EVENT => "Return"
  | FDB_MT_PUBLISH => "Publish" | FDB_MT_SET_EVENT => "Set" | FDB_MT_raw _ => "Unknown"
  end%string.

(** The fields the event code works on. *)
Definition event_view (m : FdbMessage) : CFdbMessage :=
  mkMessage (m_mType m) (m_mCode m) (m_mSid m) (m_mOid m) (m_mFlag m) (m_mTopic m)
    (getPayloadBuffer m) (m_mPayloadSize m) (m_mQOS m).

(** ** Filling and decoding *)

(** The process: byte order of the host, whether messages of a type and sender
    are logged, and the text a payload is rendered as for the log. *)
Class MsgEnv := mkMsgEnv {
  me_le : bool;
  me_logger : bool;
  me_log : EFdbMessageType -> string -> bool;
  me_text : list Z -> string }.

Section message.
Context {E : MsgEnv}.

(** [object] is null, or an object with logging on or off. *)
Definition checkLogEnabled (object : option bool) (m : FdbMessage) : FdbMessage :=
  if default true object && negb (isLogEnabled m)
     && me_logger && me_log (m_mType m) (c_str (m_mStringData m))
  then m_flag_on MSG_FLAG_ENABLE_LOG m else m.

(** [allocCopyRawBuffer]: room for prefix and head, then the payload. *)
Definition allocCopyRawBuffer (payload : list Z) : option (list Z) :=
  Some (malloc maxReservedSize ++ payload).

(** [serialize(buffer, size)]; a null buffer has no bytes. *)
Definition serialize_raw (payload : list Z) (object : option bool) (m : FdbMessage) : FdbMessage :=
  let m := replaceBuffer (m_mBuffer m) (m_mPayloadSize m) mMaxHeadSize 0 m in
  let m := m_flag_on MSG_FLAG_EXTERNAL_BUFFER (checkLogEnabled object m) in
  replaceBuffer (allocCopyRawBuffer payload) (Z.of_nat (length payload)) (m_mHeadSize m) (m_mOffset m) m.

(** [serialize(builder)]: [built] is what the builder makes, [None] when it fails. *)
Definition serialize_builder (built : option (list Z)) (object : option bool) (m : FdbMessage) :
    bool * FdbMessage :=
  let m := replaceBuffer (m_mBuffer m) (m_mPayloadSize m) mMaxHeadSize 0 m in
  let m := m_flag_on MSG_FLAG_EXTERNAL_BUFFER (checkLogEnabled object m) in
  match built with
  | None => (false, m)
  | Some payload =>
      let m := replaceBuffer (allocCopyRawBuffer payload) (Z.of_nat (length payload))
                 (m_mHeadSize m) (m_mOffset m) m in
      let m := checkLogEnabled object m in
      (true, if isLogEnabled m && me_logger then m_set_string (me_text payload) m else m)
  end.

(** The payload of a status: its code and description. *)
Definition error_info (error_code : Z) (description : option string) : FdbMsgErrorInfo :=
  let info := mkErrorInfo error_code EmptyString 0 in
  match description with Some d => FdbMsgErrorInfo_set_description info d | None => info end.

Definition scratch : CFdbSimpleSerializer :=
  serializer_new me_le (replicate (Z.to_nat FDB_SCRATCH_CACHE_SIZE) 0).

(** [type = None] is [FDB_MT_UNKNOWN]: the type is kept. *)
Definition setStatusMsg (error_code : Z) (description : option string) (type : option EFdbMessageType)
    (m : FdbMessage) : FdbMessage :=
  let m := match type with Some t => m_set_type t m | None => m end in
  let m := if error_code <? ST_OK then m_flag_on MSG_FLAG_ERROR m else m in
  let m := m_flag_on (Z.lor MSG_FLAG_STATUS MSG_FLAG_REPLIED) m in
  (serialize_builder (fst <$> builder_build scratch (error_info error_code description)) None m).2.

(** [now] is the clock in nanoseconds. *)
Definition encodeDebugInfo (now : Z) (m : FdbMessage) (hdr : CFdbMessageHeader) :
    FdbMessage * CFdbMessageHeader :=
  match m_mTimeStamp m with
  | None => (m, hdr)
  | Some ts =>
      let type := match mh_mType hdr with
                  | FDB_MT_BROADCAST => if isInitialResponse m then FDB_MT_REPLY else FDB_MT_BROADCAST
                  | t => t end in
      match type with
      | FDB_MT_REPLY | FDB_MT_STATUS | FDB_MT_RETURN_EVENT =>
          (m, set_reply_time (set_send_or_arrive_time hdr (mArriveTime ts)) now)
      | FDB_MT_REQUEST | FDB_MT_SUBSCRIBE_REQ | FDB_MT_BROADCAST | FDB_MT_GET_EVENT
      | FDB_MT_PUBLISH | FDB_MT_SET_EVENT =>
          (m_set_stamp (Some (mkMetadata now (mArriveTime ts) (mReplyTime ts) (mReceiveTime ts))) m,
           set_send_or_arrive_time hdr now)
      | _ => (m, hdr)
      end
  end.

Definition decodeDebugInfo (now : Z) (hdr : CFdbMessageHeader) (m : FdbMessage) : FdbMessage :=
  match m_mTimeStamp m with
  | None => m
  | Some ts =>
      let type := match mh_mType hdr with
                  | FDB_MT_BROADCAST => if isInitialResponse m then FDB_MT_REPLY else FDB_MT_BROADCAST
                  | t => t end in
      match type with
      | FDB_MT_REPLY | FDB_MT_STATUS | FDB_MT_RETURN_EVENT =>
          m_set_stamp (Some (mkMetadata (mSendTime ts)
            (if has_send_or_arrive_time hdr then mh_mSendArriveTime hdr else mArriveTime ts)
            (if has_reply_time hdr then mh_mReplyTime hdr else mReplyTime ts) now)) m
      | FDB_MT_REQUEST | FDB_MT_SUBSCRIBE_REQ | FDB_MT_BROADCAST | FDB_MT_GET_EVENT
      | FDB_MT_PUBLISH | FDB_MT_SET_EVENT =>
          m_set_stamp (Some (mkMetadata
            (if has_send_or_arrive_time hdr then mh_mSendArriveTime hdr else mSendTime ts)
            now (mReplyTime ts) (mReceiveTime ts))) m
      | _ => m
      end
  end.

Definition enableTimeStamp (active : bool) (m : FdbMessage) : FdbMessage :=
  if active then
    match m_mTimeStamp m with None => m_set_stamp (Some CFdbMsgMetadata_new) m | Some _ => m end
  else m_set_stamp None m.

(** [CNanoTimer]: the time between two snapshots in microseconds (no clock reads
    [INVALID_TIME], the largest 64-bit number). *)
Definition span (start stop : Z) : Z :=
  if (start =? 0) || (stop =? 0) then 0 else wrap_u 64 (stop - start) / 1000.

(** [client_to_server], [server_to_reply], [reply_to_client] and [total]. *)
Definition parseTimestamp (md : option CFdbMsgMetadata) : Z * Z * Z * Z :=
  match md with
  | None => (0, 0, 0, 0)
  | Some md => (span (mSendTime md) (mArriveTime md), span (mArriveTime md) (mReplyTime md),
                span (mReplyTime md) (mReceiveTime md), span (mSendTime md) (mReceiveTime md))
  end.

(** Bytes copied to a place in a block. *)
Definition write_at (pos : Z) (src buf : list Z) : option (list Z) :=
  if (0 <=? pos) && (pos + Z.of_nat (length src) <=? Z.of_nat (length buf))
  then Some (take (Z.to_nat pos) buf ++ src ++ drop (Z.to_nat pos + length src) buf) else None.

Definition message_header (session_qos : EFdbQOS) (m : FdbMessage) : CFdbMessageHeader :=
  mkHeader (m_mType m) (i32 (m_mSn m)) (m_mCode m) (Z.land (m_mFlag m) MSG_GLOBAL_FLAG_MASK) (m_mOid m)
    (u32 (m_mPayloadSize m)) EmptyString 0 0 session_qos 0.

(** [session_qos] is what the session the message goes to offers. *)
Definition buildHeader (session_qos : EFdbQOS) (now : Z) (m : FdbMessage) : option (bool * FdbMessage) :=
  if flag_set (m_mFlag m) MSG_FLAG_HEAD_OK then Some (true, m) else
  let m := match m_mBuffer m with None => serialize_raw [] None m | Some _ => m end in
  let '(m, hdr) := encodeDebugInfo now m (message_header session_qos m) in
  let topic := c_str (m_mTopic m) in
  let hdr := if is_empty_str topic then hdr else set_broadcast_topic hdr topic in
  '(head, head_size) ← builder_build scratch hdr;
  if (head_size >? mMaxHeadSize) || (head_size <? 0) then Some (false, m) else
  let head_offset := maxReservedSize - head_size in
  let prefix_offset := head_offset - mPrefixSize in
  buf ← m_mBuffer m;
  buf ← write_at head_offset head buf;
  let m := replaceBuffer (Some buf) (m_mPayloadSize m) head_size prefix_offset m in
  buf ← write_at prefix_offset (prefix_serialize (mkPrefix (u32 (getRawDataSize m)) head_size)) buf;
  Some (true, m_flag_on MSG_FLAG_HEAD_OK (replaceBuffer (Some buf) (m_mPayloadSize m) head_size prefix_offset m)).

(** The bytes a session sends: [getRawDataSize] bytes at [getRawBuffer]. *)
Definition raw_bytes (m : FdbMessage) : option (list Z) :=
  raw ← getRawBuffer m;
  let n := getRawDataSize m in
  if (0 <=? n) && (n <=? Z.of_nat (length raw)) then Some (take (Z.to_nat n) raw) else None.

(** [CFdbMessage(head, session)]: a received message takes over the payload buffer
    of the session. *)
Definition msg_of_head (head : CFdbMessageHeader) (prefix : CFdbMsgPrefix) (buffer : option (list Z))
    (epid sid : Z) (sender : string) : FdbMessage :=
  mkMsg (mh_mType head) (mh_mCode head) (u32 (mh_mSn head)) (i32 (mh_mPayloadSize head))
    (i32 (mHeadLength prefix)) 0 epid sid (mh_mObjId head) buffer
    (Z.lor (Z.land (mh_mFlag head) MSG_GLOBAL_FLAG_MASK) MSG_FLAG_EXTERNAL_BUFFER) None sender
    (if has_broadcast_topic head then c_str (mh_mTopic head) else EmptyString)
    (if has_reply_time head || has_send_or_arrive_time head then Some CFdbMsgMetadata_new else None)
    (mh_mQOS head) false 0.

(** [deserialize]: the payload, parsed as a message of class [T]. *)
Definition msg_parse {T} `{Parcelable T} {I : Indet} (m : FdbMessage) (old : T) : option (T * bool) :=
  msg_deserialize me_le (getPayloadBuffer m) (m_mPayloadSize m) old.

(** [update]: a request takes the flags of its reply. *)
Definition msg_update (head : CFdbMessageHeader) (m : FdbMessage) : FdbMessage :=
  m_set_flag (Z.lor (Z.land (m_mFlag m) (u32 (Z.lnot MSG_GLOBAL_FLAG_MASK)))
                    (Z.land (mh_mFlag head) MSG_GLOBAL_FLAG_MASK)) m.

Definition decodeStatus {I : Indet} (m : FdbMessage) (error_code : Z) (description : string) :
    option (bool * Z * string) :=
  '(info, ok) ← msg_parse m (p_default I : FdbMsgErrorInfo);
  Some (if (ok : bool) then (true, er_mErrorCode info, er_mDescription info) else (false, error_code, description)).

(** *** Constructors *)

(** [CFdbMessage(code, qos)]. *)
Definition msg_new (code : Z) (qos : EFdbQOS) : FdbMessage :=
  mkMsg FDB_MT_REQUEST code (u32 FDB_INVALID_ID) 0 0 0 (u16 FDB_INVALID_ID) FDB_INVALID_ID (u32 FDB_INVALID_ID)
    None 0 None EmptyString EmptyString None qos false 0.

(** The object a message is made for: its endpoint and object id, whether its
    endpoint has a context, and whether time stamps are on. *)
Record MsgObject := mkMsgObject { ob_epid : Z; ob_objId : Z; ob_context : bool; ob_stamp : bool }.

Definition setDestination (obj : MsgObject) (dest_sid : Z) (m : FdbMessage) : FdbMessage :=
  m_set_dest (ob_epid obj) dest_sid (ob_objId obj) (ob_context obj) m.

Definition msg_stamp (obj : MsgObject) (m : FdbMessage) : FdbMessage :=
  if ob_stamp obj then m_set_stamp (Some CFdbMsgMetadata_new) m else m.

(** [CFdbMessage(code, obj, dest_sid, qos)]. *)
Definition msg_request (code : Z) (obj : MsgObject) (dest_sid : Z) (qos : EFdbQOS) : FdbMessage :=
  msg_stamp obj (setDestination obj dest_sid (msg_new code qos)).

(** [CFdbMessage(code, msg, topic)]: the initial response to a subscription. *)
Definition msg_response (code : Z) (msg : FdbMessage) (topic : option string) : FdbMessage :=
  mkMsg FDB_MT_BROADCAST code (m_mSn msg) 0 0 0 (m_mEpid msg) (m_mSid msg) (m_mOid msg) None
    (Z.lor (Z.lor MSG_FLAG_INITIAL_RESPONSE MSG_FLAG_NOREPLY_EXPECTED)
           (Z.land (m_mFlag msg) (Z.lor MSG_FLAG_MANUAL_UPDATE MSG_FLAG_ENABLE_LOG)))
    None EmptyString (cstr_or_empty topic) (m_mTimeStamp msg) (m_mQOS msg) (m_mContext msg) 0.

(** [CFdbMessage(code, obj, topic, dest_sid, dest_oid, qos)]. *)
Definition msg_event (code : Z) (obj : MsgObject) (topic : option string) (dest_sid dest_oid : Z)
    (qos : EFdbQOS) : FdbMessage :=
  let m := m_set_flag MSG_FLAG_NOREPLY_EXPECTED (m_set_type FDB_MT_BROADCAST (msg_new code qos)) in
  let m := setDestination obj dest_sid m in
  let m := match topic with Some t => m_set_topic t m | None => m end in
  let m := if dest_oid =? u32 FDB_INVALID_ID then m
           else m_set_dest (m_mEpid m) (m_mSid m) dest_oid (m_mContext m) m in
  msg_stamp obj m.

(** The constructor from another message: a copy with its own payload buffer; timer,
    time stamp, topic and sender name are not copied. *)
Definition msg_copy (msg : FdbMessage) : option FdbMessage :=
  payload ← match getPayloadBuffer msg with
            | Some p => if (0 <=? m_mPayloadSize msg) && (m_mPayloadSize msg <=? Z.of_nat (length p))
                        then Some (take (Z.to_nat (m_mPayloadSize msg)) p) else None
            | None => Some (malloc (m_mPayloadSize msg))
            end;
  Some (mkMsg (m_mType msg) (m_mCode msg) (m_mSn msg) (m_mPayloadSize msg) mMaxHeadSize 0 (m_mEpid msg)
          (m_mSid msg) (m_mOid msg) (allocCopyRawBuffer payload) (m_mFlag msg) None EmptyString EmptyString
          None (m_mQOS msg) (m_mContext msg) 0).
End message.

(** ** What is sent is what is received *)

Lemma c_str_nul_free s : nul_free (c_str s).
Proof.
  unfold nul_free. induction s as [|c s IH]; simpl; [constructor|].
  destruct (Z.eqb_spec (byte_of_ascii c) 0); simpl; by constructor.
Qed.

Lemma c_str_idemp s : c_str (c_str s) = c_str s.
Proof.
  induction s as [|c s IH]; simpl; [done|].
  destruct (byte_of_ascii c =? 0) eqn:E; simpl; [done|]. by rewrite E, IH.
Qed.

Lemma is_empty_str_spec s : is_empty_str s = true <-> s = EmptyString.
Proof. by destruct s. Qed.

(** A message ready to be sent: the payload behind the reserved room, members in
    the range of their types, and a topic the head has room for. *)
Record msg_ready (payload : list Z) (m : FdbMessage) : Prop := {
  mr_buffer : exists reserved, m_mBuffer m = Some (reserved ++ payload) /\
    Z.of_nat (length reserved) = maxReservedSize;
  mr_size : m_mPayloadSize m = Z.of_nat (length payload);
  mr_limit : Z.of_nat (length payload) <= INT32_MAX - maxReservedSize;
  mr_type : enum_ok (m_mType m);
  mr_code : in_s 32 (m_mCode m);
  mr_sn : in_u 32 (m_mSn m);
  mr_oid : in_u 32 (m_mOid m);
  mr_flag : in_u 32 (m_mFlag m);
  mr_stamp : forall ts, m_mTimeStamp m = Some ts -> in_u 64 (mArriveTime ts);
  mr_topic : Z.of_nat (String.length (c_str (m_mTopic m))) <= 214 }.

(** The header [buildHeader] makes. *)
Definition sent_header (qos : EFdbQOS) (now : Z) (m : FdbMessage) : CFdbMessageHeader :=
  let hdr := (encodeDebugInfo now m (message_header qos m)).2 in
  if is_empty_str (c_str (m_mTopic m)) then hdr else set_broadcast_topic hdr (c_str (m_mTopic m)).

Lemma in_u8_set_bit o mask : in_u 8 (set_bit o mask).
Proof. by apply wrap_u_range. Qed.

(** Time stamps change the optional members of the header only. *)
Lemma encodeDebugInfo_spec qos now m payload :
  msg_ready payload m -> in_u 64 now -> enum_ok qos ->
  exists ts opts sent replied,
    encodeDebugInfo now m (message_header qos m) =
      (m_set_stamp ts m,
       mkHeader (m_mType m) (i32 (m_mSn m)) (m_mCode m) (Z.land (m_mFlag m) MSG_GLOBAL_FLAG_MASK) (m_mOid m)
         (u32 (m_mPayloadSize m)) EmptyString sent replied qos opts) /\
    in_u 8 opts /\ in_u 64 sent /\ in_u 64 replied /\ has_bit opts mMaskHeadFilter = false.
Proof.
  intros Hm Hn Hq. unfold encodeDebugInfo.
  assert (m_set_stamp (m_mTimeStamp m) m = m) as Es by by destruct m.
  assert (in_u 8 0 /\ in_u 64 0 /\ has_bit 0 mMaskHeadFilter = false) as (? & ? & ?) by done.
  destruct (m_mTimeStamp m) as [ts|] eqn:Et.
  2:{ exists None, 0, 0, 0. by rewrite Es. }
  pose proof (mr_stamp _ _ Hm ts Et) as Ha.
  unfold message_header, set_reply_time, set_send_or_arrive_time. simpl.
  assert (in_u 8 (set_bit 0 mMaskSenderArriveTime) /\ in_u 8 (set_bit (set_bit 0 mMaskSenderArriveTime) mMaskReplyTime)
    /\ has_bit (set_bit 0 mMaskSenderArriveTime) mMaskHeadFilter = false
    /\ has_bit (set_bit (set_bit 0 mMaskSenderArriveTime) mMaskReplyTime) mMaskHeadFilter = false) as (? & ? & ? & ?) by done.
  repeat case_match;
    first [ exists (Some ts), (set_bit (set_bit 0 mMaskSenderArriveTime) mMaskReplyTime), (mArriveTime ts), now;
            split; [by rewrite Es|done]
          | exists (Some ts), 0, 0, 0; split; [by rewrite Es|done]
          | eexists (Some _), (set_bit 0 mMaskSenderArriveTime), now, 0; split; [reflexivity|done] ].
Qed.

Lemma length_header_wire h :
  Z.of_nat (length (CFdbMessageHeader_wire h)) =
  23 + (if has_broadcast_topic h then 3 + Z.of_nat (String.length (mh_mTopic h)) else 0)
     + (if has_send_or_arrive_time h then 8 else 0) + (if has_reply_time h then 8 else 0).
Proof.
  unfold CFdbMessageHeader_wire, wire_if, has_broadcast_topic, has_send_or_arrive_time, has_reply_time, str_wire.
  rewrite !length_app, !Nat2Z.inj_add, !length_le_bytes by lia.
  destruct (has_bit (mh_mOptions h) mMaskHeadFilter), (has_bit (mh_mOptions h) mMaskSenderArriveTime),
    (has_bit (mh_mOptions h) mMaskReplyTime);
    rewrite ?length_app, ?Nat2Z.inj_add, ?length_le_bytes, ?length_str_bytes by lia; simpl length; lia.
Qed.

(** The header of a ready message is well formed and fits the reserved room. *)
Lemma sent_header_spec qos now m payload :
  msg_ready payload m -> in_u 64 now -> enum_ok qos ->
  let h := sent_header qos now m in
  CFdbMessageHeader_wf h /\ 0 < Z.of_nat (length (CFdbMessageHeader_wire h)) <= mMaxHeadSize /\
  mh_mType h = m_mType m /\ mh_mSn h = i32 (m_mSn m) /\ mh_mCode h = m_mCode m /\
  mh_mFlag h = Z.land (m_mFlag m) MSG_GLOBAL_FLAG_MASK /\ mh_mObjId h = m_mOid m /\
  mh_mPayloadSize h = m_mPayloadSize m /\ mh_mQOS h = qos /\
  (if has_broadcast_topic h then mh_mTopic h = c_str (m_mTopic m) else c_str (m_mTopic m) = EmptyString).
Proof.
  intros Hm Hn Hq. destruct (encodeDebugInfo_spec qos now m payload Hm Hn Hq)
    as (ts & opts & sent & replied & E & Ho & Hs & Hr & Hf).
  unfold sent_header. rewrite E. cbv zeta. cbn [snd].
  assert (u32 (m_mPayloadSize m) = m_mPayloadSize m) as Ep.
  { apply wrap_u_small. rewrite (mr_size _ _ Hm). pose proof (mr_limit _ _ Hm). unfold INT32_MAX, maxReservedSize, in_u in *.
    assert (0 <= mPrefixSize + mMaxHeadSize) by by vm_compute. lia. }
  assert (in_u 32 (m_mPayloadSize m)) as Hsz by (rewrite <- Ep; by apply wrap_u_range).
  assert (in_u 32 (Z.land (m_mFlag m) MSG_GLOBAL_FLAG_MASK)) as Hfl by (apply in_u_land; [lia|by vm_compute]).
  pose proof (mr_topic _ _ Hm) as Ht.
  assert (str_ok EmptyString) as H0 by by split; [constructor|].
  assert (str_ok (c_str (m_mTopic m))) as H1 by (split; [apply c_str_nul_free|lia]).
  destruct Hm as [_ _ _ T1 T2 T3 T4 T5 _ _].
  destruct (is_empty_str (c_str (m_mTopic m))) eqn:Ee.
  - apply is_empty_str_spec in Ee. split; [|split].
    + split; simpl; try done; [by apply wrap_s_range|by rewrite Ep].
    + rewrite length_header_wire. unfold has_broadcast_topic. simpl. rewrite Hf.
      unfold mMaxHeadSize. repeat case_match; lia.
    + unfold has_broadcast_topic. simpl. rewrite Hf. by rewrite Ep.
  - assert (has_bit (set_bit opts mMaskHeadFilter) mMaskHeadFilter = true) as Hb by by apply has_set_bit.
    split; [|split].
    + split; simpl; try done; [by apply wrap_s_range|by rewrite Ep|by apply in_u8_set_bit].
    + rewrite length_header_wire. unfold has_broadcast_topic. simpl. rewrite Hb.
      unfold mMaxHeadSize. repeat case_match; lia.
    + unfold has_broadcast_topic. simpl. rewrite Hb. by rewrite Ep.
Qed.

Lemma write_at_spec front old back src :
  length old = length src ->
  write_at (Z.of_nat (length front)) src (front ++ old ++ back) = Some (front ++ src ++ back).
Proof.
  intros Hl. unfold write_at. rewrite !length_app, Hl.
  destruct (Z.leb_spec 0 (Z.of_nat (length front))); [|lia].
  destruct (Z.leb_spec (Z.of_nat (length front) + Z.of_nat (length src))
    (Z.of_nat (length front + (length src + length back)))); [|lia]. simpl.
  rewrite Nat2Z.id, take_app_length. f_equal. f_equal. f_equal.
  by rewrite app_assoc, drop_app_length' by (rewrite length_app; lia).
Qed.

Lemma split_reserved (reserved : list Z) (k : nat) :
  Z.of_nat (length reserved) = maxReservedSize -> Z.of_nat k <= mMaxHeadSize ->
  exists front pre old, reserved = front ++ pre ++ old /\ length pre = 8%nat /\ length old = k /\
    Z.of_nat (length front) = maxReservedSize - Z.of_nat k - mPrefixSize.
Proof.
  unfold maxReservedSize, mPrefixSize, mMaxHeadSize. intros Hl Hk.
  exists (take (256 - k) reserved), (take 8 (drop (256 - k) reserved)), (drop 8 (drop (256 - k) reserved)).
  rewrite !take_drop, length_take, length_drop, length_drop, length_take, length_drop. repeat split; lia.
Qed.

Lemma raw_bytes_at front raw ps hs f m :
  mPrefixSize + hs + ps = Z.of_nat (length raw) ->
  raw_bytes (m_flag_on f (replaceBuffer (Some (front ++ raw)) ps hs (Z.of_nat (length front)) m)) = Some raw.
Proof.
  intros Hn. unfold raw_bytes, getRawBuffer, getRawDataSize. simpl.
  rewrite Nat2Z.id, drop_app_length. simpl. rewrite Hn.
  destruct (Z.leb_spec 0 (Z.of_nat (length raw))); [|lia]. rewrite Z.leb_refl. simpl.
  by rewrite Nat2Z.id, firstn_all.
Qed.

Section send.
Context {E : MsgEnv}.

Lemma scratch_ok : Z.of_nat (length (mScratchCache scratch)) = FDB_SCRATCH_CACHE_SIZE.
Proof. by simpl. Qed.

(** The bytes of the head follow the prefix, the payload follows the head. *)
Lemma buildHeader_spec qos now m payload :
  msg_ready payload m -> in_u 64 now -> enum_ok qos -> flag_set (m_mFlag m) MSG_FLAG_HEAD_OK = false ->
  let head := CFdbMessageHeader_wire (sent_header qos now m) in
  let p := mkPrefix (mPrefixSize + Z.of_nat (length head) + Z.of_nat (length payload)) (Z.of_nat (length head)) in
  exists m', buildHeader qos now m = Some (true, m') /\
    raw_bytes m' = Some (prefix_serialize p ++ head ++ payload) /\
    flag_set (m_mFlag m') MSG_FLAG_HEAD_OK = true.
Proof.
  intros Hm Hn Hq Hf. destruct (sent_header_spec qos now m payload Hm Hn Hq) as (Hwf & Hlen & _).
  destruct (encodeDebugInfo_spec qos now m payload Hm Hn Hq) as (ts & opts & sent & replied & Ee & _).
  cbv zeta. unfold buildHeader. rewrite Hf.
  destruct (mr_buffer _ _ Hm) as (reserved & Eb & Hr). rewrite Eb.
  unfold sent_header in *. rewrite Ee in *. cbn [snd] in *. cbn [m_mTopic m_set_stamp].
  set (h := if is_empty_str _ then _ else _) in *. set (head := CFdbMessageHeader_wire h) in *.
  rewrite (@build_wire _ _ CFdbMessageHeader_laws scratch h scratch_ok Hwf)
    by (change (p_wire h) with head; unfold mMaxHeadSize, SER_LIMIT in *; lia).
  change (p_wire h) with head. cbn [mbind option_bind].
  destruct (Z.of_nat (length head) >? mMaxHeadSize) eqn:E1; [rewrite Z.gtb_ltb in E1; destruct_bool_hyp; lia|].
  destruct (Z.ltb_spec (Z.of_nat (length head)) 0); [lia|]. cbn [orb].
  destruct (split_reserved reserved (length head) Hr) as (front & pre & old & -> & Hp & Ho & Hfr); [lia|].
  replace (maxReservedSize - Z.of_nat (length head)) with (Z.of_nat (length (front ++ pre)))
    by (rewrite length_app, Hp; unfold mPrefixSize in Hfr; lia).
  cbn [m_mBuffer m_set_stamp]. rewrite Eb. cbn [mbind option_bind].
  replace ((front ++ pre ++ old) ++ payload) with ((front ++ pre) ++ old ++ payload) by by rewrite <- !app_assoc.
  rewrite write_at_spec by done. cbn [mbind option_bind].
  replace ((front ++ pre) ++ head ++ payload) with (front ++ pre ++ head ++ payload) by by rewrite <- !app_assoc.
  replace (Z.of_nat (length (front ++ pre)) - mPrefixSize) with (Z.of_nat (length front))
    by (rewrite length_app, Hp; unfold mPrefixSize; lia).
  rewrite write_at_spec by done. cbn [mbind option_bind].
  eexists. split; [reflexivity|]. split.
  - set (m1 := m_set_stamp ts m). unfold getRawDataSize at 1.
    cbn [m_mHeadSize m_mPayloadSize replaceBuffer].
    change (m_mPayloadSize m1) with (m_mPayloadSize m). rewrite (mr_size _ _ Hm).
    pose proof (mr_limit _ _ Hm) as Hl. rewrite wrap_u_small
      by (unfold in_u, INT32_MAX, maxReservedSize, mMaxHeadSize, mPrefixSize in *; lia).
    apply raw_bytes_at. rewrite !length_app. simpl. unfold mPrefixSize. lia.
  - simpl. unfold flag_set. rewrite Z.land_lor_distr_l, Z.land_diag. apply negb_true_iff, Z.eqb_neq.
    intros E0. apply Z.lor_eq_0_iff in E0 as [_ E0]. done.
Qed.
End send.

(** The bits that travel. *)
Lemma land_global_lor_external f :
  Z.land (Z.lor (Z.land f MSG_GLOBAL_FLAG_MASK) MSG_FLAG_EXTERNAL_BUFFER) MSG_GLOBAL_FLAG_MASK
  = Z.land f MSG_GLOBAL_FLAG_MASK.
Proof. rewrite Z.land_lor_distr_l, <- Z.land_assoc, Z.land_diag. simpl. by rewrite Z.lor_0_r. Qed.

(** The payload of a message made from a frame of the given sizes. *)
Lemma msg_of_head_payload h p pre head payload epid sid sender :
  length pre = 8%nat -> i32 (mHeadLength p) = Z.of_nat (length head) ->
  getPayloadBuffer (msg_of_head h p (Some (pre ++ head ++ payload)) epid sid sender) = Some payload.
Proof.
  intros Hp Hh. unfold getPayloadBuffer, getPayloadOffset. simpl. rewrite Hh.
  rewrite app_assoc, drop_app_length'; [done|]. rewrite length_app, Hp. unfold mPrefixSize. lia.
Qed.

(** C11: A message arrives as it was sent. For every message ready to be sent over
    a session, building its header succeeds and puts prefix, head and payload on
    the wire as one frame whose prefix states its length; the receiver, on a host
    of either byte order, parses the head and makes from it a message of the same
    type, code, serial number, object, topic, travelling flags and payload. *)
Theorem message_roundtrip (E : MsgEnv) (I : Indet) (le : bool) (qos : EFdbQOS) (now : Z) (m : FdbMessage)
    (payload : list Z) (old : CFdbMessageHeader) (epid sid : Z) (sender : string) :
  msg_ready payload m -> in_u 64 now -> enum_ok qos -> flag_set (m_mFlag m) MSG_FLAG_HEAD_OK = false ->
  exists m' raw p h, buildHeader qos now m = Some (true, m') /\ raw_bytes m' = Some raw /\
    prefix_deserialize raw = Some p /\ mTotalLength p = Z.of_nat (length raw) /\
    parser_parse le (Some (drop (Z.to_nat mPrefixSize) raw)) (i32 (mHeadLength p)) old = Some (h, true) /\
    let r := msg_of_head h p (Some raw) epid sid sender in
    m_mType r = m_mType m /\ m_mCode r = m_mCode m /\ m_mSn r = m_mSn m /\ m_mOid r = m_mOid m /\
    m_mTopic r = c_str (m_mTopic m) /\ m_mQOS r = qos /\ m_mPayloadSize r = m_mPayloadSize m /\
    getPayloadBuffer r = Some payload /\
    Z.land (m_mFlag r) MSG_GLOBAL_FLAG_MASK = Z.land (m_mFlag m) MSG_GLOBAL_FLAG_MASK.
Proof.
  intros Hm Hn Hq Hf. destruct (buildHeader_spec qos now m payload Hm Hn Hq Hf) as (m' & Eb & Er & _).
  destruct (sent_header_spec qos now m payload Hm Hn Hq) as (Hwf & Hlen & T1 & T2 & T3 & T4 & T5 & T6 & T7 & T8).
  set (sh := sent_header qos now m) in *. set (head := CFdbMessageHeader_wire sh) in *.
  set (p := mkPrefix (mPrefixSize + Z.of_nat (length head) + Z.of_nat (length payload)) (Z.of_nat (length head))) in *.
  pose proof (mr_limit _ _ Hm) as Hl.
  assert (in_u 32 (mTotalLength p) /\ in_u 32 (mHeadLength p)) as [Hp1 Hp2].
  { subst p. unfold in_u, INT32_MAX, maxReservedSize, mMaxHeadSize, mPrefixSize in *.
    cbn [mTotalLength mHeadLength]. lia. }
  assert (i32 (mHeadLength p) = Z.of_nat (length head)) as Hh.
  { apply wrap_s_small; [lia|]. subst p. unfold in_s, mMaxHeadSize in *. cbn [mHeadLength]. lia. }
  destruct (@parse_wire_in _ _ CFdbMessageHeader_laws I le sh old payload Hwf) as (h & Heq & Eh).
  { change (p_wire sh) with head. unfold mMaxHeadSize, INT32_MAX in *. lia. }
  exists m', (prefix_serialize p ++ head ++ payload), p, h.
  split; [done|]. split; [done|]. split; [by apply prefix_roundtrip|].
  split; [rewrite !length_app; subst p; unfold mPrefixSize; cbn [mTotalLength]; change (length (prefix_serialize _)) with 8%nat; lia|].
  split; [rewrite Hh, drop_app_length' by done; exact Eh|]. cbv zeta.
  destruct Heq as [Q1 Q2 Q3 Q4 Q5 Q6 Q7 Q8 Q9 _ _]. unfold msg_of_head.
  cbn [m_mType m_mCode m_mSn m_mOid m_mTopic m_mQOS m_mPayloadSize m_mFlag].
  rewrite <- Q1, <- Q2, <- Q3, <- Q4, <- Q5, <- Q6, <- Q7, T1, T2, T3, T4, T5, T6, T7.
  rewrite land_global_lor_external, <- Z.land_assoc, Z.land_diag.
  split; [done|]. split; [done|]. split; [|split; [done|]].
  { unfold wrap_s, wrap_u. rewrite Zminus_mod_idemp_l. replace (m_mSn m + 2 ^ (32 - 1) - 2 ^ (32 - 1)) with (m_mSn m) by lia.
    apply Z.mod_small, Hm. }
  split; [|split; [done|]].
  { unfold has_broadcast_topic in *. rewrite <- Q8.
    destruct (has_bit (mh_mOptions sh) mMaskHeadFilter); [|done]. rewrite <- Q9, T8, c_str_idemp; done. }
  split; [|split; [|done]].
  - apply wrap_s_small; [lia|]. rewrite (mr_size _ _ Hm). unfold in_s, INT32_MAX, maxReservedSize, mPrefixSize, mMaxHeadSize in *. lia.
  - by apply (msg_of_head_payload h p (prefix_serialize p) head payload epid sid sender).
Qed.

#[local] Instance sample_env : MsgEnv := mkMsgEnv true false (fun _ _ => false) (fun _ => EmptyString).

(** An event with a topic and a payload of three bytes. *)
Definition sample_event : FdbMessage :=
  serialize_raw [10; 20; 30] None
    (msg_event 5 (mkMsgObject 1 3 true true) (Some "weather"%string) 2 (u32 FDB_INVALID_ID) FDB_QOS_RELIABLE).

Lemma message_roundtrip_witness :
  exists m' raw p h, buildHeader FDB_QOS_RELIABLE 77 sample_event = Some (true, m') /\ raw_bytes m' = Some raw /\
    prefix_deserialize raw = Some p /\ mTotalLength p = Z.of_nat (length raw) /\
    @parser_parse _ _ 0 false (Some (drop (Z.to_nat mPrefixSize) raw)) (i32 (mHeadLength p)) sample_header = Some (h, true) /\
    let r := msg_of_head h p (Some raw) 9 4 "peer" in
    m_mType r = m_mType sample_event /\ m_mCode r = m_mCode sample_event /\ m_mSn r = m_mSn sample_event /\
    m_mOid r = m_mOid sample_event /\
    m_mTopic r = c_str (m_mTopic sample_event) /\ m_mQOS r = FDB_QOS_RELIABLE /\
    m_mPayloadSize r = m_mPayloadSize sample_event /\
    getPayloadBuffer r = Some [10; 20; 30] /\
    Z.land (m_mFlag r) MSG_GLOBAL_FLAG_MASK = Z.land (m_mFlag sample_event) MSG_GLOBAL_FLAG_MASK.
Proof.
  apply (message_roundtrip sample_env 0 false FDB_QOS_RELIABLE 77 sample_event [10; 20; 30] sample_header 9 4 "peer").
  - split.
    + exists (malloc maxReservedSize). split; reflexivity.
    + reflexivity.
    + vm_compute. discriminate.
    + by vm_compute.
    + vm_compute. split; [discriminate|reflexivity].
    + vm_compute. split; [discriminate|reflexivity].
    + vm_compute. split; [discriminate|reflexivity].
    + vm_compute. split; [discriminate|reflexivity].
    + intros ts [= <-]. vm_compute. split; [discriminate|reflexivity].
    + vm_compute. discriminate.
  - by vm_compute.
  - by vm_compute.
  - reflexivity.
Defined.
