(* ===== verification/Session.v ===== *)
(** A connection between two endpoints: [CBaseSession] and [CFdbSession] of
    src/fdbus/CBaseSession.cpp and CFdbSession.cpp, [CEntityContainer] of
    src/public/fdbus/CEntityContainer.h, and [CFdbMessage::doRequest].

    A session numbers the requests it sends, keeps them until the reply arrives,
    the time is up or the connection is lost, and hands incoming messages to the
    endpoint. Its operations are computations [SM]: from the session to a result,
    the next session and what it did ([SessOut]), or undefined behaviour. What the
    endpoint decides is [SessEnv]. The table of pending requests is
    [mPendingMsgTable]. *)
From S2P Require Import Prelude Serializer Codec CommonDefs WireBase WireTheorems StdMap Subscribe FdWatch Framing Message.

(** ** [CEntityContainer] *)

(** The index type is a 32-bit unsigned integer here. *)
Record CEntityContainer (EP : Type) := mkContainer {
  mEntryAllocator : Z;
  mEntryContainer : smap Z EP }.
Arguments mkContainer {EP}.
Arguments mEntryAllocator {EP}.
Arguments mEntryContainer {EP}.

Section container.
Context {EP : Type}.
Implicit Types c : CEntityContainer EP.

Definition FDB_FIRST_ENTRY_ID : Z := 0.
Definition CEntityContainer_new : CEntityContainer EP := mkContainer FDB_FIRST_ENTRY_ID [].

Definition allocateEntityId c : Z * CEntityContainer EP :=
  (mEntryAllocator c, mkContainer (u32 (mEntryAllocator c + 1)) (mEntryContainer c)).

(** [true] is the result 0. *)
Definition insertEntry (index : Z) (ep : EP) c : bool * CEntityContainer EP :=
  match m_find index (mEntryContainer c) with
  | None => (true, mkContainer (mEntryAllocator c) (m_set index ep (mEntryContainer c)))
  | Some _ => (false, c)
  end.

Definition retrieveEntry (index : Z) c : option EP := m_find index (mEntryContainer c).

Definition findEntry (eqb : EP -> bool) c : bool := existsb (fun e => eqb e.2) (mEntryContainer c).

Definition deleteEntry (index : Z) c : CEntityContainer EP :=
  mkContainer (mEntryAllocator c) (m_erase index (mEntryContainer c)).

(** [operator=] through the reference [retrieveEntry] returns. *)
Definition updateEntry (index : Z) (ep : EP) c : CEntityContainer EP :=
  mkContainer (mEntryAllocator c) (m_set index ep (mEntryContainer c)).
End container.

(** ** Statistics *)

Record CStatisticsData := mkStat {
  mSyncRequest : Z; mSyncReply : Z; mAsyncRequest : Z; mAsyncReply : Z; mBroadcast : Z; mPublish : Z;
  mSend : Z; mGetEvent : Z; mSetEvent : Z; mReturnEvent : Z; mSyncStatus : Z; mAsyncStatus : Z }.

Definition CStatisticsData_new : CStatisticsData := mkStat 0 0 0 0 0 0 0 0 0 0 0 0.

(** One counter up: which one, by its position in the record. *)
Definition stat_inc (f : Z) (st : CStatisticsData) : CStatisticsData :=
  let up i v := if f =? i then u32 (v + 1) else v in
  mkStat (up 0 (mSyncRequest st)) (up 1 (mSyncReply st)) (up 2 (mAsyncRequest st)) (up 3 (mAsyncReply st))
    (up 4 (mBroadcast st)) (up 5 (mPublish st)) (up 6 (mSend st)) (up 7 (mGetEvent st)) (up 8 (mSetEvent st))
    (up 9 (mReturnEvent st)) (up 10 (mSyncStatus st)) (up 11 (mAsyncStatus st)).

Definition doStatistics (type : EFdbMessageType) (flag : Z) (st : CStatisticsData) : CStatisticsData :=
  let sync := flag_set flag MSG_FLAG_SYNC_REPLY in
  match type with
  | FDB_MT_REQUEST =>
      if flag_set flag MSG_FLAG_NOREPLY_EXPECTED then stat_inc 6 st
      else if sync then stat_inc 0 st else stat_inc 2 st
  | FDB_MT_STATUS => if sync then stat_inc 10 st else stat_inc 11 st
  | FDB_MT_GET_EVENT => stat_inc 7 st
  | FDB_MT_SET_EVENT => stat_inc 8 st
  | FDB_MT_REPLY => if sync then stat_inc 1 st else stat_inc 3 st
  | FDB_MT_RETURN_EVENT => stat_inc 9 st
  | FDB_MT_BROADCAST => stat_inc 4 st
  | FDB_MT_PUBLISH => stat_inc 5 st
  | _ => st
  end.

(** ** The session *)

(** [mSocket] is open until the session is destroyed. *)
Record CFdbSession := mkSession {
  ss_mSid : Z;
  ss_mSenderName : string;
  ss_mPendingMsgTable : CEntityContainer FdbMessage;
  ss_mTx : CStatisticsData;
  ss_mRx : CStatisticsData;
  ss_mFatalError : bool }.

Definition CFdbSession_new (sid : Z) : CFdbSession :=
  mkSession sid EmptyString CEntityContainer_new CStatisticsData_new CStatisticsData_new false.

(** What a session does, in order. A message is handed to its object
    ([SoInvoke] to [SoPublish], [SoBroadcast]), a request is answered
    ([SoReply] to [SoStatus]) and its job ends ([SoTerminate]), bytes are
    written, a message goes out by UDP, a timer starts, the subscriptions
    of the object change, or the session leaves its endpoint. *)
Inductive SessOut :=
  | SoInvoke (m : FdbMessage) | SoSideband (m : FdbMessage) | SoGetEvent (m : FdbMessage)
  | SoSetEvent (m : FdbMessage) | SoPublish (m : FdbMessage)
  | SoBroadcast (m : FdbMessage)
  | SoReply (m : FdbMessage) | SoSidebandReply (m : FdbMessage) | SoReturnEvent (m : FdbMessage)
  | SoStatus (m : FdbMessage)
  | SoTerminate (m : FdbMessage)
  | SoWrite (raw : list Z) | SoDatagram (raw : list Z) (ip port : Z) | SoUdp (m : FdbMessage) | SoTimer (sn interval : Z)
  | SoSubscribe (code oid : Z) (topic : option string) (flag : Z)
  | SoUnsubscribe (code oid : Z) (topic : option string)
  | SoUnsubscribeObject (oid : Z)
  | SoDoSubscribe (m : FdbMessage)
  | SoAsyncError (m : FdbMessage) (code : Z)
  | SoLeave.

(** The endpoint behind the session. [se_udp] and [se_udp_ref] are what the UDP
    session of the socket, when there is one, does with a message it sends and with
    a request it sends and numbers (UdpSession.v). [se_object] is [getObject]: whether there is
    an object for the message, and whether it logs. [se_sideband] is the message
    after [onSidebandInvoke] and whether nobody kept a reference to it. *)
Class SessEnv := mkSessEnv {
  se_msg : MsgEnv;
  se_epid : Z;
  se_qos : EFdbQOS;
  se_async_write : bool;
  se_write : list Z -> bool;
  se_udp : option (FdbMessage -> bool * FdbMessage);
  se_udp_ref : FdbMessage -> bool * FdbMessage;
  se_object : FdbMessage -> bool -> option bool;
  se_auth : EFdbMessageType -> FdbMessage -> bool;
  se_sideband : FdbMessage -> FdbMessage * bool;
  se_clone : FdbMessage -> CFdbMessageHeader -> option FdbMessage }.
#[export] Existing Instance se_msg.

Definition SM (A : Type) : Type := CFdbSession -> option (A * CFdbSession * list SessOut).

#[export] Instance SM_ret : MRet SM := fun _ x s => Some (x, s, []).
#[export] Instance SM_bind : MBind SM := fun _ _ k m s =>
  match m s with
  | Some (x, s, o1) => match k x s with Some (y, s, o2) => Some (y, s, o1 ++ o2) | None => None end
  | None => None
  end.

Definition sm_out (o : SessOut) : SM unit := fun s => Some (tt, s, [o]).
Definition sm_lift {A} (x : option A) : SM A := fun s => (fun x => (x, s, [])) <$> x.
Definition sm_fatal : SM unit := fun s =>
  Some (tt, mkSession (ss_mSid s) (ss_mSenderName s) (ss_mPendingMsgTable s) (ss_mTx s) (ss_mRx s) true, []).
Definition sm_tx (f : CStatisticsData -> CStatisticsData) : SM unit := fun s =>
  Some (tt, mkSession (ss_mSid s) (ss_mSenderName s) (ss_mPendingMsgTable s) (f (ss_mTx s)) (ss_mRx s)
              (ss_mFatalError s), []).
Definition sm_rx (f : CStatisticsData -> CStatisticsData) : SM unit := fun s =>
  Some (tt, mkSession (ss_mSid s) (ss_mSenderName s) (ss_mPendingMsgTable s) (ss_mTx s) (f (ss_mRx s))
              (ss_mFatalError s), []).
Definition sm_table {A} (f : CEntityContainer FdbMessage -> A * CEntityContainer FdbMessage) : SM A := fun s =>
  let '(x, t) := f (ss_mPendingMsgTable s) in
  Some (x, mkSession (ss_mSid s) (ss_mSenderName s) t (ss_mTx s) (ss_mRx s) (ss_mFatalError s), []).
Definition sm_get : SM CFdbSession := fun s => Some (s, s, []).
Definition sm_when (b : bool) (m : SM unit) : SM unit := if b then m else mret tt.

(** The virtual members of [CBaseSession]: [sendMessage], and whether [doSubscribeReq] is
    overridden; that of [CBaseSession] does nothing. *)
Class SessVirtual := mkVirtual {
  sv_send : Z -> FdbMessage -> SM (bool * FdbMessage);
  sv_subscribes : bool }.

Section tcp.
Context {E : SessEnv}.

(** *** Sending *)

(** [CFdbSession::sendMessage] of a buffer: a failed write fails the session. *)
Definition write_bytes (raw : list Z) : SM bool :=
  if se_async_write then _ ← sm_out (SoWrite raw); mret true
  else s ← sm_get;
       if ss_mFatalError s then mret false else
       if se_write raw then _ ← sm_out (SoWrite raw); mret true
       else _ ← sm_fatal; mret false.

(** By datagram when best effort is enough and the connection is remote. *)
Definition send_udp (send : FdbMessage -> bool * FdbMessage) (m : FdbMessage) : SM (bool * FdbMessage) :=
  match se_udp with
  | Some _ => _ ← sm_out (SoUdp m); mret (send m)
  | None => mret (false, m)
  end.

(** [CFdbSession::sendMessage] of a message, which comes back with its header. *)
Definition sendMessage (now : Z) (m : FdbMessage) : SM (bool * FdbMessage) :=
  if negb (bool_decide (se_qos = FDB_QOS_LOCAL)) && bool_decide (m_mQOS m = FDB_QOS_BEST_EFFORTS)
  then send_udp (default (fun m => (false, m)) se_udp) m
  else if negb (bool_decide (se_qos = FDB_QOS_LOCAL))
          && bool_decide (m_mQOS m = FDB_QOS_SECURE_RELIABLE) && bool_decide (se_qos = FDB_QOS_RELIABLE)
  then mret (false, m)
  else
    _ ← sm_tx (doStatistics (m_mType m) (m_mFlag m));
    '(ok, m) ← sm_lift (buildHeader se_qos now m);
    if (ok : bool) then
      raw ← sm_lift (raw_bytes m);
      sent ← write_bytes raw;
      mret (sent, m)
    else mret (false, m).

(** [CBaseSession::sendMessageSync]: [send] is the [sendMessage] of the class of the
    session. *)
Definition sendMessageSync (send : FdbMessage -> SM (bool * FdbMessage)) (m : FdbMessage) : SM (bool * FdbMessage) :=
  sn ← sm_table allocateEntityId;
  '(ok, m) ← send (m_set_sn sn m);
  if (ok : bool) then
    let m := m_set_string EmptyString (replaceBuffer None 0 0 0 m) in
    _ ← sm_table (insertEntry (m_mSn m) m);
    mret (true, m)
  else
    let m := setStatusMsg ST_UNABLE_TO_SEND (Some "Fail when sending message!"%string) None m in
    _ ← sm_when (negb (msg_sync m)) (sm_out (SoReply m));
    mret (false, m).

Definition sendMessageRef (now : Z) (m : FdbMessage) : SM (bool * FdbMessage) :=
  if negb (bool_decide (se_qos = FDB_QOS_LOCAL)) && bool_decide (m_mQOS m = FDB_QOS_BEST_EFFORTS)
  then send_udp se_udp_ref m else sendMessageSync (sendMessage now) m.

(** [CFdbMessage::doRequest] once the session is found. *)
Definition doRequestOut (now : Z) (m : FdbMessage) : SM FdbMessage :=
  '(ok, m) ← (if flag_set (m_mFlag m) MSG_FLAG_NOREPLY_EXPECTED then sendMessage now m
              else '(ok, m) ← sendMessageRef now m;
                   _ ← match m_mTimer m with
                       | Some t => sm_when ok (sm_out (SoTimer (m_mSn m) t))
                       | None => mret tt
                       end;
                   mret (ok, m));
  if (ok : bool) then mret m else
  if flag_set (m_mFlag m) MSG_FLAG_SYNC_REPLY
  then mret (setStatusMsg ST_INVALID_ID (Some "Fail to send!"%string) None m)
  else _ ← sm_out (SoAsyncError m ST_INVALID_ID); mret m.

End tcp.

(** A TCP or local connection sends with [CFdbSession::sendMessage]. *)
#[export] Instance tcp_session {E : SessEnv} : SessVirtual := mkVirtual sendMessage true.

Section session.
Context {E : SessEnv} {V : SessVirtual} {I : Indet}.

Definition sendStatus (now : Z) (error_code : Z) (description : string) (m : FdbMessage) : SM unit :=
  if flag_set (m_mFlag m) MSG_FLAG_NOREPLY_EXPECTED then mret tt
  else _ ← sv_send now (setStatusMsg error_code (Some description) (Some FDB_MT_STATUS) m); mret tt.

(** [autoReply]: [unique] tells that nobody kept the request to answer it later. *)
Definition autoReply (now : Z) (unique : bool) (error_code : Z) (description : string) (m : FdbMessage) : SM unit :=
  sm_when (needReply m && unique) (sendStatus now error_code description m).

(** *** Completing requests *)

(** The callback for a request that is answered, by the type of the request. *)
Definition complete_out (m : FdbMessage) : SessOut :=
  match m_mType m with
  | FDB_MT_REQUEST => SoReply m
  | FDB_MT_SIDEBAND_REQUEST => SoSidebandReply m
  | FDB_MT_GET_EVENT => SoReturnEvent m
  | _ => SoStatus m
  end.

(** [terminateMessage(job, status, reason)]. *)
Definition terminateMessage (status : Z) (reason : string) (m : FdbMessage) : SM unit :=
  let m := setStatusMsg status (Some reason) None m in
  _ ← sm_when (negb (msg_sync m)) (sm_out (complete_out m));
  sm_out (SoTerminate m).

(** [terminateMessage(sn, status, reason)], run by the timer of the request. *)
Definition terminateMessageSn (sn : Z) (status : Z) (reason : string) : SM unit :=
  s ← sm_get;
  match retrieveEntry sn (ss_mPendingMsgTable s) with
  | Some m => _ ← terminateMessage status reason m; sm_table (fun t => (tt, deleteEntry sn t))
  | None => mret tt
  end.

Definition peepPendingMessage (sn : Z) (s : CFdbSession) : option FdbMessage :=
  retrieveEntry sn (ss_mPendingMsgTable s).

(** The end of [doResponse] for a request without a waiting caller. *)
Definition response_out (head : CFdbMessageHeader) (m : FdbMessage) : SM unit :=
  match m_mType m with
  | FDB_MT_REQUEST => sm_out (SoReply m)
  | FDB_MT_SIDEBAND_REQUEST => sm_out (SoSidebandReply m)
  | FDB_MT_GET_EVENT => sm_out (SoReturnEvent m)
  | _ => sm_when (bool_decide (mh_mType head = FDB_MT_STATUS)) (sm_out (SoStatus m))
  end.

(** [buffer] is the payload buffer of the session, taken over by the request. *)
Definition doResponse (now : Z) (head : CFdbMessageHeader) (prefix : CFdbMsgPrefix) (buffer : list Z) : SM unit :=
  s ← sm_get;
  let sn := u32 (mh_mSn head) in
  match retrieveEntry sn (ss_mPendingMsgTable s) with
  | None => mret tt
  | Some m =>
      if negb (m_mOid m =? mh_mObjId head) then
        _ ← terminateMessage ST_OBJECT_NOT_FOUND "Object ID does not match." m;
        sm_table (fun t => (tt, deleteEntry sn t))
      else
        m ← match se_object m false with
            | Some _ =>
                let m := decodeDebugInfo now head (msg_update head m) in
                let m := replaceBuffer (Some buffer) (i32 (mh_mPayloadSize head)) (i32 (mHeadLength prefix)) 0 m in
                _ ← sm_rx (doStatistics (m_mType m) (mh_mFlag head));
                _ ← sm_when (negb (msg_sync m)) (response_out head m);
                mret m
            | None => mret m
            end;
        _ ← sm_out (SoTerminate m);
        sm_table (fun t => (tt, deleteEntry sn t))
  end.

(** *** Receiving *)

Definition doBroadcast (now : Z) (head : CFdbMessageHeader) (prefix : CFdbMsgPrefix) (buffer : list Z) : SM unit :=
  s ← sm_get;
  let cloned :=
    if flag_set (mh_mFlag head) MSG_FLAG_INITIAL_RESPONSE
    then m ← retrieveEntry (u32 (mh_mSn head)) (ss_mPendingMsgTable s); se_clone m head
    else None in
  let m := match cloned with
           | Some m => m
           | None => msg_of_head head prefix (Some buffer) se_epid (ss_mSid s) (ss_mSenderName s)
           end in
  match se_object m false with
  | Some _ => sm_out (SoBroadcast (decodeDebugInfo now head m))
  | None => mret tt
  end.

(** The object the request is for is asked when the peer may do this. *)
Definition guarded (now : Z) (type : EFdbMessageType) (out : FdbMessage -> SessOut) (m : FdbMessage) : SM unit :=
  if se_auth type m then sm_out (out m)
  else sendStatus now ST_AUTHENTICATION_FAIL "Authentication failed!" m.

Definition doRequest (now : Z) (head : CFdbMessageHeader) (prefix : CFdbMsgPrefix) (buffer : list Z) : SM unit :=
  s ← sm_get;
  let m := msg_of_head head prefix (Some buffer) se_epid (ss_mSid s) (ss_mSenderName s) in
  match se_object m true with
  | Some logs =>
      let m := decodeDebugInfo now head (checkLogEnabled (Some logs) (m_set_dest (m_mEpid m) (m_mSid m) (m_mOid m) true m)) in
      match mh_mType head with
      | FDB_MT_REQUEST => guarded now FDB_MT_REQUEST SoInvoke m
      | FDB_MT_SIDEBAND_REQUEST =>
          _ ← sm_out (SoSideband m);
          let '(m, unique) := se_sideband m in
          autoReply now unique ST_AUTO_REPLY_OK "Automatically reply to request." m
      | FDB_MT_GET_EVENT => guarded now FDB_MT_GET_EVENT SoGetEvent m
      | FDB_MT_SET_EVENT => guarded now FDB_MT_SET_EVENT SoSetEvent m
      | FDB_MT_PUBLISH => guarded now FDB_MT_PUBLISH SoPublish m
      | _ => mret tt
      end
  | None => sendStatus now ST_OBJECT_NOT_FOUND "Object is not found." (enableLog true m)
  end.

(** The loop of [doSubscribeReq] over the items of the list; the result is [ret]. *)
Fixpoint subscribe_items (subscribe : bool) (oid : Z) (m : FdbMessage) (items : list CFdbMsgSubscribeItem)
    (ret : Z) : SM Z :=
  match items with
  | [] => mret ret
  | it :: items =>
      let topic := if CFdbMsgSubscribeItem_has_topic it then Some (c_str (su_mFilter it)) else None in
      let code := su_mCode it in
      ret ← (if subscribe then
               if se_auth FDB_MT_GET_EVENT m
               then _ ← sm_out (SoSubscribe code oid topic (su_mFlag it)); mret ret
               else _ ← sm_out (SoUnsubscribe code oid topic); mret (if 0 <=? ret then -2 else ret)
             else _ ← sm_out (SoUnsubscribe code oid topic); mret ret);
      subscribe_items subscribe oid m items ret
  end.

Definition doSubscribeReq (now : Z) (head : CFdbMessageHeader) (prefix : CFdbMsgPrefix) (buffer : list Z)
    (subscribe : bool) : SM unit :=
  s ← sm_get;
  let oid := mh_mObjId head in
  let m := msg_of_head head prefix (Some buffer) se_epid (ss_mSid s) (ss_mSenderName s) in
  match se_object m true with
  | None => sendStatus now ST_OBJECT_NOT_FOUND "Object is not found." (enableLog true m)
  | Some logs =>
      let m := m_set_type FDB_MT_BROADCAST (m_set_dest (m_mEpid m) (m_mSid m) (m_mOid m) true m) in
      let m := decodeDebugInfo now head (checkLogEnabled (Some logs) m) in
      '(lst, ok) ← sm_lift (msg_parse m (mkMsgTable []));
      let items := if (ok : bool) then mt_mSubscribeTbl lst else [] in
      ret ← subscribe_items subscribe oid m items (if (ok : bool) then 0 else -1);
      if ret <? 0 then
        if ret =? -2 then sendStatus now ST_AUTHENTICATION_FAIL "Authentication failed for some events!" (enableLog true m)
        else sendStatus now ST_MSG_DECODE_FAIL "Not valid CFdbMsgSubscribeList message!" (enableLog true m)
      else if subscribe then sm_out (SoDoSubscribe m)
      else match items with [] => sm_out (SoUnsubscribeObject oid) | _ => mret tt end
  end.

(** [CBaseSession::processPayload] on the [data] behind the prefix. The head is
    parsed with the length the prefix states. *)
Definition processPayload (now : Z) (prefix : CFdbMsgPrefix) (data : list Z) : SM unit :=
  if i32 (u32 (mTotalLength prefix - mPrefixSize)) <? 0 then sm_fatal else
  '(head, ok) ← sm_lift (parser_parse me_le (Some data) (i32 (mHeadLength prefix)) (p_default I : CFdbMessageHeader));
  if negb ok then sm_fatal else
  let buffer := malloc mPrefixSize ++ data in
  match mh_mType head with
  | FDB_MT_REQUEST | FDB_MT_SIDEBAND_REQUEST | FDB_MT_GET_EVENT | FDB_MT_PUBLISH | FDB_MT_SET_EVENT =>
      _ ← sm_rx (doStatistics (mh_mType head) (mh_mFlag head));
      doRequest now head prefix buffer
  | FDB_MT_RETURN_EVENT | FDB_MT_REPLY | FDB_MT_SIDEBAND_REPLY | FDB_MT_STATUS =>
      doResponse now head prefix buffer
  | FDB_MT_BROADCAST =>
      _ ← sm_rx (doStatistics (mh_mType head) (mh_mFlag head));
      doBroadcast now head prefix buffer
  | FDB_MT_SUBSCRIBE_REQ =>
      if mh_mCode head =? FDB_CODE_SUBSCRIBE then sm_when sv_subscribes (doSubscribeReq now head prefix buffer true)
      else if mh_mCode head =? FDB_CODE_UNSUBSCRIBE
      then sm_when sv_subscribes (doSubscribeReq now head prefix buffer false)
      else mret tt
  | _ => sm_fatal
  end.

(** *** Housekeeping and the end of a session *)

Definition FDB_MAX_MSG_LIFETIME : Z := 5.

(** One pass of the loop of [scanLifeTime]. *)
Definition scan_entry (sn : Z) (m : FdbMessage) : SM unit :=
  let m := incLifeTime m in
  _ ← sm_table (fun t => (tt, updateEntry sn m t));
  if m_mLifeTime m >? FDB_MAX_MSG_LIFETIME then
    _ ← terminateMessage ST_TIMEOUT "Message is destroyed since no reply from remote." m;
    sm_table (fun t => (tt, deleteEntry sn t))
  else mret tt.

Fixpoint scan_loop (entries : smap Z FdbMessage) : SM unit :=
  match entries with
  | [] => mret tt
  | (sn, m) :: entries => _ ← scan_entry sn m; scan_loop entries
  end.

Definition scanLifeTime : SM unit := s ← sm_get; scan_loop (mEntryContainer (ss_mPendingMsgTable s)).

(** The loop of the destructor: the first entry until none is left. *)
Fixpoint destroy_loop (entries : smap Z FdbMessage) : SM unit :=
  match entries with
  | [] => mret tt
  | (sn, m) :: entries =>
      _ ← terminateMessage ST_PEER_VANISH "TCP/UDS message is destroyed due to broken connection." m;
      _ ← sm_table (fun t => (tt, deleteEntry sn t));
      destroy_loop entries
  end.

(** [~CFdbSession]: then the session leaves its endpoint, which drops its subscriptions. *)
Definition session_destroy : SM unit :=
  s ← sm_get;
  _ ← destroy_loop (mEntryContainer (ss_mPendingMsgTable s));
  sm_out SoLeave.
End session.
