(* ===== verification/SessionProofs.v ===== *)
(** What a session promises about requests: every request it has sent is answered
    exactly once, by the reply, by its timer, by housekeeping or when the
    connection is lost, whatever the peer sends and in whatever order things
    happen.  [sess_step] is one event at a session, [sess_ok] the invariant of the
    table of pending requests. *)
From S2P Require Import Prelude Serializer Codec CommonDefs WireBase WireTheorems StdMap Subscribe FdWatch Framing Message Session.

(** ** Operations that leave the pending requests alone *)

(** The serial numbers of the requests whose jobs end. *)
Definition terminated (o : list SessOut) : list Z :=
  omap (fun x => match x with SoTerminate m => Some (m_mSn m) | _ => None end) o.

Lemma terminated_app o1 o2 : terminated (o1 ++ o2) = terminated o1 ++ terminated o2.
Proof. apply omap_app. Qed.

Definition quiet {A} (m : SM A) : Prop := forall s x s' o,
  m s = Some (x, s', o) -> ss_mPendingMsgTable s' = ss_mPendingMsgTable s /\ terminated o = [].

Lemma quiet_ret {A} (x : A) : quiet (mret x).
Proof. by intros s ? ? ? [= <- <- <-]. Qed.

Lemma quiet_bind {A B} (m : SM A) (k : A -> SM B) :
  quiet m -> (forall x, quiet (k x)) -> quiet (m ≫= k).
Proof.
  intros Hm Hk s y s2 o. unfold mbind, SM_bind.
  destruct (m s) as [[[x s1] o1]|] eqn:E1; [|done].
  destruct (k x s1) as [[[y' s2'] o2]|] eqn:E2; [|done]. intros [= <- <- <-].
  apply Hm in E1 as [T1 O1]. apply Hk in E2 as [T2 O2].
  rewrite terminated_app, O1, O2, T2, T1. done.
Qed.

Lemma quiet_lift {A} (x : option A) : quiet (sm_lift x).
Proof. intros s y s' o. unfold sm_lift. destruct x; [|done]. by intros [= <- <- <-]. Qed.
Lemma quiet_fatal : quiet sm_fatal.
Proof. by intros s ? ? ? [= <- <- <-]. Qed.
Lemma quiet_tx f : quiet (sm_tx f).
Proof. by intros s ? ? ? [= <- <- <-]. Qed.
Lemma quiet_rx f : quiet (sm_rx f).
Proof. by intros s ? ? ? [= <- <- <-]. Qed.
Lemma quiet_get : quiet sm_get.
Proof. by intros s ? ? ? [= <- <- <-]. Qed.
Lemma quiet_out x : (forall m, x <> SoTerminate m) -> quiet (sm_out x).
Proof. intros Hx s ? ? ? [= <- <- <-]. split; [done|]. destruct x; try done. by destruct (Hx m). Qed.

Create HintDb quiet discriminated.
#[export] Hint Resolve quiet_ret quiet_lift quiet_fatal quiet_tx quiet_rx quiet_get : quiet.
#[export] Hint Extern 1 (quiet (sm_out _)) => apply quiet_out; intros ?; discriminate : quiet.

(** Descends through binds, conditionals and matches. *)
Ltac solve_quiet :=
  repeat lazymatch goal with
  | |- quiet (_ ≫= _) => apply quiet_bind; [|intros ?]
  | |- quiet (sm_when ?b _) => destruct b; unfold sm_when
  | |- quiet (let '(_, _) := ?p in _) => destruct p
  | |- quiet (match ?x with _ => _ end) => destruct x
  | |- quiet (if ?x then _ else _) => destruct x
  | |- quiet _ => solve [auto with quiet nocore]
  end.

Section quiet_tcp.
Context {E : SessEnv}.

Lemma quiet_write raw : quiet (write_bytes raw).
Proof. unfold write_bytes. solve_quiet. Qed.
#[local] Hint Resolve quiet_write : quiet.

Lemma quiet_udp send m : quiet (send_udp send m).
Proof. unfold send_udp. solve_quiet. Qed.
#[local] Hint Resolve quiet_udp : quiet.

Lemma quiet_sendMessage now m : quiet (sendMessage now m).
Proof. unfold sendMessage. solve_quiet. Qed.
End quiet_tcp.
#[export] Hint Resolve quiet_sendMessage quiet_udp : quiet.

(** What is known of the way a session sends. *)
Class QuietSend (V : SessVirtual) := quiet_send : forall now m, quiet (@sv_send V now m).

#[export] Instance tcp_quiet {E : SessEnv} : QuietSend tcp_session := fun now m => quiet_sendMessage now m.

Section quiet.
Context {E : SessEnv} {V : SessVirtual} {Q : QuietSend V} {I : Indet}.

#[local] Hint Extern 1 (quiet (sv_send _ _)) => apply quiet_send : quiet.

Lemma quiet_sendStatus now code d m : quiet (sendStatus now code d m).
Proof. unfold sendStatus. solve_quiet. Qed.
#[local] Hint Resolve quiet_sendStatus : quiet.

Lemma quiet_guarded now t out m : (forall m', quiet (sm_out (out m'))) -> quiet (guarded now t out m).
Proof. intros Ho. unfold guarded. destruct (se_auth t m); [apply Ho|auto with quiet]. Qed.

Lemma quiet_doRequest now h p b : quiet (doRequest now h p b).
Proof.
  unfold doRequest, autoReply. solve_quiet; try (apply quiet_guarded; intros ?; auto with quiet).
Qed.

Lemma quiet_doBroadcast now h p b : quiet (doBroadcast now h p b).
Proof. unfold doBroadcast. apply quiet_bind; [auto with quiet|intros s]. cbv zeta. case_match; auto with quiet. Qed.

Lemma quiet_items b oid m items ret : quiet (subscribe_items b oid m items ret).
Proof.
  revert ret. induction items as [|it items IH]; intros ret; simpl; [auto with quiet|].
  apply quiet_bind; [solve_quiet|intros r; apply IH].
Qed.
#[local] Hint Resolve quiet_items : quiet.

Lemma quiet_doSubscribeReq now h p b sub : quiet (doSubscribeReq now h p b sub).
Proof.
  unfold doSubscribeReq. apply quiet_bind; [auto with quiet|intros s]. cbv zeta.
  case_match; [|auto with quiet]. apply quiet_bind; [auto with quiet|intros [lst ok]].
  apply quiet_bind; [auto with quiet|intros ret]. repeat case_match; auto with quiet.
Qed.
End quiet.

(** ** The table of pending requests *)

Abbreviation pending s := (mEntryContainer (ss_mPendingMsgTable s)).
Abbreviation allocator s := (mEntryAllocator (ss_mPendingMsgTable s)).

(** The serial numbers a request is awaited under. *)
Definition keys (s : CFdbSession) : list Z := (pending s).*1.

(** A pending request is stored under its own number, which the allocator has
    given out, and housekeeping has not met it more often than it may. *)
Definition entry_ok (alloc sn : Z) (m : FdbMessage) : Prop :=
  m_mSn m = sn /\ 0 <= sn < alloc /\ 0 <= m_mLifeTime m <= FDB_MAX_MSG_LIFETIME.

Definition sess_ok (s : CFdbSession) : Prop :=
  m_sorted (pending s) /\ 0 <= allocator s < 2 ^ 32
  /\ forall sn m, m_find sn (pending s) = Some m -> entry_ok (allocator s) sn m.

Lemma sess_ok_new sid : sess_ok (CFdbSession_new sid).
Proof. split_and!; done. Qed.

Lemma m_sorted_keys {V} (m : smap Z V) : m_sorted m -> NoDup m.*1.
Proof.
  induction m as [|[k v] m IH]; simpl; [constructor|]. intros [Hb Hs]. constructor; [|by apply IH].
  rewrite list_elem_of_fmap. intros ([k' v'] & -> & Hin).
  unfold m_below in Hb. rewrite Forall_forall in Hb. specialize (Hb _ Hin). by apply klt_ne in Hb.
Qed.

Lemma elem_of_keys s sn : m_sorted (pending s) -> sn ∈ keys s <-> is_Some (m_find sn (pending s)).
Proof.
  intros Hs. unfold keys. rewrite list_elem_of_fmap. split.
  - intros ([k m] & -> & Hin). exists m. by apply m_find_In.
  - intros [m Hm]. exists (sn, m). split; [done|]. by apply m_find_In.
Qed.

Lemma keys_erase {V} k (v : V) (m : smap Z V) :
  m_find k m = Some v -> m.*1 ≡ₚ k :: (m_erase k m).*1.
Proof.
  induction m as [|[k' v'] m IH]; cbn [m_find m_erase]; [done|].
  destruct (klt k k') eqn:E1; [done|]. destruct (klt k' k) eqn:E2.
  - intros E. rewrite !fmap_cons, (IH E). simpl. constructor.
  - intros _. by rewrite (klt_total k k').
Qed.

Lemma keys_set_old {V} k (v v0 : V) (m : smap Z V) : m_find k m = Some v0 -> (m_set k v m).*1 = m.*1.
Proof.
  induction m as [|[k' v'] m IH]; cbn [m_find m_set]; [done|].
  destruct (klt k k') eqn:E1; [done|]. destruct (klt k' k) eqn:E2.
  - intros E. by rewrite !fmap_cons, (IH E).
  - intros _. simpl. f_equal. by apply klt_total.
Qed.

Lemma keys_set_new {V} k (v : V) (m : smap Z V) : m_find k m = None -> (m_set k v m).*1 ≡ₚ k :: m.*1.
Proof.
  induction m as [|[k' v'] m IH]; cbn [m_find m_set]; [done|].
  destruct (klt k k') eqn:E1; [done|]. destruct (klt k' k) eqn:E2; [|done].
  intros E. rewrite !fmap_cons, (IH E). simpl. constructor.
Qed.

(** From [s] to [s'] the requests [T] leave the table, and the request [sn] has been
    met [d sn] more times by housekeeping. *)
Record advance (d : Z -> Z) (s s' : CFdbSession) (T : list Z) : Prop := mkAdvance {
  adv_alloc : allocator s' = allocator s;
  adv_sorted : m_sorted (pending s');
  adv_keys : keys s ≡ₚ keys s' ++ T;
  adv_entry : forall sn m', m_find sn (pending s') = Some m' ->
    exists m, m_find sn (pending s) = Some m /\ m_mSn m' = m_mSn m /\ m_mLifeTime m' = m_mLifeTime m + d sn;
  adv_bound : forall sn m', m_find sn (pending s') = Some m' -> m_mLifeTime m' <= FDB_MAX_MSG_LIFETIME }.

Lemma advance_trans d1 d2 s s1 s2 T1 T2 :
  advance d1 s s1 T1 -> advance d2 s1 s2 T2 -> advance (fun sn => d1 sn + d2 sn) s s2 (T1 ++ T2).
Proof.
  intros [a1 b1 c1 e1 l1] [a2 b2 c2 e2 l2]. split; [congruence|done| |..|done].
  - rewrite c1, c2. solve_Permutation.
  - intros sn m2 H2. apply e2 in H2 as (m1 & H1 & -> & ->). apply e1 in H1 as (m & H & -> & ->).
    exists m. split_and!; [done..|lia].
Qed.

Lemma advance_refl s s' : sess_ok s -> ss_mPendingMsgTable s' = ss_mPendingMsgTable s -> advance (fun _ => 0) s s' [].
Proof.
  intros (Hs & _ & He) E. split; unfold keys; rewrite ?E; [done..|by rewrite app_nil_r| |].
  - intros sn m Hm. exists m. split_and!; [done..|lia].
  - intros sn m Hm. by apply He in Hm as (_ & _ & _ & ?).
Qed.

Lemma advance_ext d d' s s' T T' : (forall sn, d sn = d' sn) -> T = T' -> advance d s s' T -> advance d' s s' T'.
Proof. intros Ed -> [? ? ? He ?]. split; try done. setoid_rewrite <- Ed. exact He. Qed.

Lemma advance_ok d s s' T : (forall sn, 0 <= d sn) -> sess_ok s -> advance d s s' T -> sess_ok s'.
Proof.
  intros Hd (Hs & Ha & He) [a b c e l]. split_and!; [done|rewrite a; lia..|].
  intros sn m' Hm'. pose proof (l _ _ Hm'). apply e in Hm' as (m & Hm & Esn & El).
  apply He in Hm as (? & ? & ?). rewrite a. specialize (Hd sn). split_and!; [congruence|lia..].
Qed.

(** ** The operations *)

(** A request whose job ends leaves the table. *)
Lemma advance_delete sn m s s' :
  sess_ok s -> m_find sn (pending s) = Some m ->
  ss_mPendingMsgTable s' = deleteEntry sn (ss_mPendingMsgTable s) -> advance (fun _ => 0) s s' [sn].
Proof.
  intros (Hs & _ & He) Hm E. split; unfold keys; rewrite E; cbn [deleteEntry mEntryContainer mEntryAllocator].
  - done.
  - by apply m_sorted_erase.
  - rewrite (keys_erase _ _ _ Hm). solve_Permutation.
  - intros j m'. rewrite m_find_erase_dec by done. case_decide; [done|]. intros Hm'. exists m'.
    split_and!; [done..|lia].
  - intros j m'. rewrite m_find_erase_dec by done. case_decide; [done|]. intros Hm'.
    by apply He in Hm' as (_ & _ & _ & ?).
Qed.

(** Housekeeping meets a request which may stay. *)
Lemma advance_update sn m s s' :
  sess_ok s -> m_find sn (pending s) = Some m -> m_mLifeTime m < FDB_MAX_MSG_LIFETIME ->
  ss_mPendingMsgTable s' = updateEntry sn (incLifeTime m) (ss_mPendingMsgTable s) ->
  advance (fun j => if decide (j = sn) then 1 else 0) s s' [].
Proof.
  intros (Hs & _ & He) Hm Hl E. pose proof (He _ _ Hm) as (_ & _ & Hb).
  unfold FDB_MAX_MSG_LIFETIME in *.
  assert (m_mLifeTime (incLifeTime m) = m_mLifeTime m + 1) as El.
  { simpl. apply wrap_s_small; unfold in_s; lia. }
  split; unfold keys; rewrite E; cbn [updateEntry mEntryContainer mEntryAllocator].
  - done.
  - by apply m_sorted_set.
  - by rewrite (keys_set_old _ _ _ _ Hm), app_nil_r.
  - intros j m'. rewrite m_find_set_dec by done. case_decide as D.
    + intros [= <-]. exists m. subst j. rewrite El. by destruct (decide (sn = sn)).
    + intros Hm'. exists m'. split_and!; [done..|lia].
  - intros j m'. rewrite m_find_set_dec by done. case_decide as D.
    + intros [= <-]. rewrite El. unfold FDB_MAX_MSG_LIFETIME; lia.
    + intros Hm'. by apply He in Hm' as (_ & _ & _ & ?).
Qed.

(** An operation that ends the jobs of the requests it takes out of the table. *)
Definition settles {A} (d : Z -> Z) (m : SM A) (s : CFdbSession) : Prop := forall x s' o,
  m s = Some (x, s', o) -> advance d s s' (terminated o).

Abbreviation settled m := (forall s, sess_ok s -> settles (fun _ => 0) m s).

Lemma settled_quiet {A} (m : SM A) : quiet m -> settled m.
Proof. intros Q s Hs x s' o Hm. apply Q in Hm as [Ht ->]. by apply advance_refl. Qed.

(** An operation that leaves the table alone and ends the job [sn]. *)
Definition ends {A} (sn : Z) (m : SM A) : Prop := forall s x s' o,
  m s = Some (x, s', o) -> ss_mPendingMsgTable s' = ss_mPendingMsgTable s /\ terminated o = [sn].

Lemma ends_bind {A B} sn (m : SM A) (k : A -> SM B) :
  quiet m -> (forall x, ends sn (k x)) -> ends sn (m ≫= k).
Proof.
  intros Hm Hk s y s2 o. unfold mbind, SM_bind.
  destruct (m s) as [[[x s1] o1]|] eqn:E1; [|done].
  destruct (k x s1) as [[[y' s2'] o2]|] eqn:E2; [|done]. intros [= <- <- <-].
  apply Hm in E1 as [T1 O1]. apply Hk in E2 as [T2 O2].
  rewrite terminated_app, O1, O2, T2, T1. done.
Qed.

Lemma ends_terminate m : ends (m_mSn m) (sm_out (SoTerminate m)).
Proof. by intros s ? ? ? [= <- <- <-]. Qed.

Lemma ends_delete {A} sn m (f : SM A) s :
  sess_ok s -> m_find sn (pending s) = Some m -> ends sn f ->
  settles (fun _ => 0) (_ ← f; sm_table (fun t => (tt, deleteEntry sn t))) s.
Proof.
  intros Hs Hm Hf x s' o. unfold mbind, SM_bind.
  destruct (f s) as [[[y s1] o1]|] eqn:E1; [|done]. apply Hf in E1 as [T1 O1].
  intros [= <- <- <-]. rewrite terminated_app, O1. eapply advance_delete; [done..|]. by rewrite <- T1.
Qed.

Section operations.
Context {E : SessEnv} {I : Indet}.

Lemma serialize_builder_keeps built object m :
  m_mSn (serialize_builder built object m).2 = m_mSn m
  /\ m_mLifeTime (serialize_builder built object m).2 = m_mLifeTime m.
Proof. unfold serialize_builder, checkLogEnabled. split; repeat case_match; done. Qed.

Lemma setStatusMsg_sn code descr type m : m_mSn (setStatusMsg code descr type m) = m_mSn m.
Proof.
  unfold setStatusMsg. cbv zeta. rewrite (proj1 (serialize_builder_keeps _ _ _)). by repeat case_match.
Qed.

Lemma decodeDebugInfo_sn now hdr m : m_mSn (decodeDebugInfo now hdr m) = m_mSn m.
Proof. unfold decodeDebugInfo. by repeat case_match. Qed.

Lemma terminateMessage_ends status reason m : ends (m_mSn m) (terminateMessage status reason m).
Proof.
  rewrite <- (setStatusMsg_sn status (Some reason) None m). unfold terminateMessage. cbv zeta.
  apply ends_bind; [|intros ?; apply ends_terminate].
  unfold complete_out. solve_quiet; case_match; auto with quiet.
Qed.

Lemma terminateMessageSn_settled sn status reason : settled (terminateMessageSn sn status reason).
Proof.
  intros s Hs. unfold terminateMessageSn, mbind, SM_bind at 1, sm_get. intros x s' o.
  unfold retrieveEntry. destruct (m_find sn (pending s)) as [m|] eqn:Em.
  - destruct ((_ : SM unit) s) as [[[y s1] o1]|] eqn:E1; [|done]. intros [= <- <- <-].
    pose proof (proj2 (proj2 Hs) _ _ Em) as (Esn & _).
    eapply ends_delete; [done..| |exact E1]. rewrite <- Esn. apply terminateMessage_ends.
  - intros [= <- <- <-]. by apply advance_refl.
Qed.

Lemma settles_get {A} d (k : CFdbSession -> SM A) s : settles d (k s) s -> settles d (s ← sm_get; k s) s.
Proof.
  intros Hk x s' o. unfold mbind, SM_bind, sm_get. destruct (k s s) as [[[y s1] o1]|] eqn:Ek; [|done].
  intros [= <- <- <-]. exact (Hk _ _ _ Ek).
Qed.

Lemma bind_assoc {A B C} (f : SM A) (g : A -> SM B) (h : B -> SM C) s :
  (x ← f; y ← g x; h y) s = (y ← (x ← f; g x); h y) s.
Proof.
  unfold mbind, SM_bind. destruct (f s) as [[[x s1] o1]|]; [|done].
  destruct (g x s1) as [[[y s2] o2]|]; [|done].
  destruct (h y s2) as [[[z s3] o3]|]; [|done]. by rewrite app_assoc.
Qed.

Lemma ends_job sn (f : SM FdbMessage) :
  quiet f -> (forall s m s' o, f s = Some (m, s', o) -> m_mSn m = sn) -> ends sn (m ← f; sm_out (SoTerminate m)).
Proof.
  intros Hq Hsn s x s' o. unfold mbind, SM_bind. destruct (f s) as [[[m s1] o1]|] eqn:Ef; [|done].
  intros [= <- <- <-]. apply Hsn in Ef as Em. apply Hq in Ef as [Ht Ho]. by rewrite terminated_app, Ho, <- Em.
Qed.

(** What the last of two operations before it returns. *)
Lemma ret_last {A B C} (f : SM A) (g : SM B) (y : C) s x s' o :
  (_ ← f; _ ← g; mret y) s = Some (x, s', o) -> x = y.
Proof.
  unfold mbind, SM_bind. destruct (f s) as [[[? s1] ?]|]; [|done].
  destruct (g s1) as [[[? s2] ?]|]; [|done]. by intros [= <- _ _].
Qed.

(** The reply to a request, or the answer that it was not for that object. *)
Lemma doResponse_settled now head prefix buffer : settled (doResponse now head prefix buffer).
Proof.
  intros s Hs. unfold doResponse. apply settles_get. cbv zeta. unfold retrieveEntry.
  destruct (m_find (u32 (mh_mSn head)) (pending s)) as [m|] eqn:Em;
    [|by apply settled_quiet; auto with quiet].
  pose proof (proj2 (proj2 Hs) _ _ Em) as (Esn & _). rewrite <- Esn in Em |- *.
  destruct (negb _).
  - eapply ends_delete; [done..|]. apply terminateMessage_ends.
  - intros x s' o. rewrite bind_assoc. apply (ends_delete _ m); [done..|].
    apply ends_job; [solve_quiet; unfold response_out; solve_quiet|].
    intros s1 y s2 o2. destruct (se_object m false) as [logs|]; [|by intros [= <- <- <-]].
    intros Hb. apply ret_last in Hb. subst y. simpl. by rewrite decodeDebugInfo_sn.
Qed.
Lemma sess_ok_table s s' : ss_mPendingMsgTable s' = ss_mPendingMsgTable s -> sess_ok s -> sess_ok s'.
Proof. unfold sess_ok. by intros ->. Qed.

Lemma settles_bind {A B} d1 d2 (m : SM A) (k : A -> SM B) s :
  settles d1 m s -> (forall x s' o, m s = Some (x, s', o) -> settles d2 (k x) s') ->
  settles (fun sn => d1 sn + d2 sn) (m ≫= k) s.
Proof.
  intros Hm Hk x s2 o. unfold mbind, SM_bind. destruct (m s) as [[[y s1] o1]|] eqn:Em; [|done].
  destruct (k y s1) as [[[z s2'] o2]|] eqn:Ek; [|done]. intros [= <- <- <-]. rewrite terminated_app.
  eapply advance_trans; [exact (Hm _ _ _ Em)|]. by eapply Hk.
Qed.

Lemma settles_ext {A} d d' (m : SM A) s : (forall sn, d sn = d' sn) -> settles d m s -> settles d' m s.
Proof. intros Hd Hm x s' o Hx. eapply advance_ext; [done..|]. by eapply Hm. Qed.

Lemma settled_bind {A B} (m : SM A) (k : A -> SM B) :
  quiet m -> (forall x, settled (k x)) -> settled (m ≫= k).
Proof.
  intros Hm Hk s Hs. apply (settles_ext (fun sn => 0 + 0)); [done|].
  apply settles_bind; [by apply settled_quiet|]. intros x s' o Hx. apply Hk.
  apply Hm in Hx as [Ht _]. by eapply sess_ok_table.
Qed.

(** Whatever the peer sends, over whatever kind of session. *)
Lemma processPayload_settled {V : SessVirtual} {Q : QuietSend V} now prefix data :
  settled (processPayload now prefix data).
Proof.
  unfold processPayload. case_match; [apply settled_quiet; auto with quiet|].
  apply settled_bind; [auto with quiet|intros [head ok]].
  destruct (negb ok); [apply settled_quiet; auto with quiet|]. cbv zeta.
  destruct (mh_mType head); try (apply doResponse_settled); apply settled_quiet;
    [try solve [auto with quiet]..].
  all: try (apply quiet_bind; [auto with quiet|intros _]; apply quiet_doRequest || apply quiet_doBroadcast).
  unfold sm_when. repeat case_match; auto with quiet; apply quiet_doSubscribeReq.
Qed.

(** *** Housekeeping *)

(** The request is one pass older, or its time is up. *)
Lemma scan_entry_run sn m s x s' o :
  scan_entry sn m s = Some (x, s', o) -> m_mSn m = sn ->
  let expired := m_mLifeTime (incLifeTime m) >? FDB_MAX_MSG_LIFETIME in
  let t := updateEntry sn (incLifeTime m) (ss_mPendingMsgTable s) in
  ss_mPendingMsgTable s' = (if expired then deleteEntry sn t else t)
  /\ terminated o = if expired then [sn] else [].
Proof.
  intros Hr Esn expired t. revert Hr. unfold scan_entry. cbv zeta. fold expired.
  unfold mbind at 1, SM_bind at 1, sm_table at 1. set (s1 := mkSession _ _ _ _ _ _). destruct expired.
  - destruct ((_ ← _; _ : SM unit) s1) as [[[y s2] o2]|] eqn:E2; [|done]. intros [= <- <- <-]. revert E2.
    unfold mbind, SM_bind. destruct (terminateMessage _ _ _ s1) as [[[z s3] o3]|] eqn:E3; [|done].
    apply terminateMessage_ends in E3 as [T3 O3]. intros [= <- <- <-].
    rewrite terminated_app, O3. simpl. by rewrite T3, Esn.
  - by intros [= <- <- <-].
Qed.

Lemma erase_set {V} k (v : V) (m : smap Z V) : m_sorted m -> m_erase k (m_set k v m) = m_erase k m.
Proof.
  intros Hs. apply m_ext; auto using m_sorted_erase, m_sorted_set.
  intros j. rewrite !m_find_erase_dec, m_find_set_dec by auto using m_sorted_set. by repeat case_decide.
Qed.

Abbreviation one sn := (fun j : Z => if decide (j = sn) then 1 else 0).

Lemma scan_entry_settles sn m s :
  sess_ok s -> m_find sn (pending s) = Some m -> settles (one sn) (scan_entry sn m) s.
Proof.
  intros Hs Hm x s' o Hr. pose proof (proj2 (proj2 Hs) _ _ Hm) as (Esn & _ & Hl).
  apply scan_entry_run in Hr as [Ht ->]; [|done]. revert Ht.
  assert (m_mLifeTime (incLifeTime m) = m_mLifeTime m + 1) as ->.
  { simpl. unfold FDB_MAX_MSG_LIFETIME in Hl. apply wrap_s_small; unfold in_s; lia. }
  bool_cases; intros Ht.
  - assert (advance (fun _ => 0) s s' [sn]) as [a b c e l].
    { eapply advance_delete; [done..|]. rewrite Ht. unfold deleteEntry, updateEntry. simpl.
      by rewrite erase_set by apply Hs. }
    split; [done..| |done]. intros j m' Hm'. destruct (decide (j = sn)) as [->|]; [|by apply e].
    rewrite Ht in Hm'. simpl in Hm'. rewrite m_find_erase in Hm'; [done|].
    by apply m_sorted_set, Hs.
  - eapply advance_update; [done..|lia|done].
Qed.

Lemma scan_entry_others sn m s x s' o j :
  sess_ok s -> m_find sn (pending s) = Some m -> scan_entry sn m s = Some (x, s', o) -> j <> sn ->
  m_find j (pending s') = m_find j (pending s).
Proof.
  intros Hs Hm Hr Hj. pose proof (proj2 (proj2 Hs) _ _ Hm) as (Esn & _).
  apply scan_entry_run in Hr as [-> _]; [|done]. assert (m_sorted (pending s)) by apply Hs.
  case_match; simpl; rewrite ?m_find_erase_dec, m_find_set_dec by auto using m_sorted_set;
    by rewrite ?decide_False.
Qed.

Lemma scan_loop_settles entries s :
  sess_ok s -> NoDup entries.*1 -> (forall sn m, (sn, m) ∈ entries -> m_find sn (pending s) = Some m) ->
  settles (fun j => if decide (j ∈ entries.*1) then 1 else 0) (scan_loop entries) s.
Proof.
  revert s. induction entries as [|[sn m] entries IH]; intros s Hs Hd Hf.
  - apply (settles_ext (fun _ => 0)); [intros ?; by rewrite decide_False by set_solver|].
    by apply (settled_quiet _ (quiet_ret tt)).
  - rewrite fmap_cons in Hd. apply NoDup_cons in Hd as [Hn Hd].
    assert (m_find sn (pending s) = Some m) as Hm by (apply Hf; left).
    apply (settles_ext (fun j => one sn j + if decide (j ∈ entries.*1) then 1 else 0)).
    { intros j. cbn beta. rewrite fmap_cons. repeat case_decide; rewrite elem_of_cons in *; naive_solver lia. }
    apply settles_bind; [by apply scan_entry_settles|]. intros x s' o Hr.
    apply IH; [|done|].
    + eapply advance_ok; [|done|exact (scan_entry_settles _ _ _ Hs Hm _ _ _ Hr)]. intros j. cbn beta. case_decide; lia.
    + intros sn' m' Hin. rewrite (scan_entry_others sn m s x s' o) by (done || (intros ->; apply Hn;
        apply list_elem_of_fmap; by exists (sn, m'))). apply Hf. by right.
Qed.

(** Every pending request is met once. *)
Lemma scanLifeTime_settles s :
  sess_ok s -> settles (fun j => if decide (j ∈ keys s) then 1 else 0) scanLifeTime s.
Proof.
  intros Hs. unfold scanLifeTime. apply settles_get. apply scan_loop_settles; [done|by apply m_sorted_keys, Hs|].
  intros sn m. by apply m_find_In, Hs.
Qed.

(** The destructor ends every job. *)
Lemma destroy_loop_settled entries s x s' o :
  sess_ok s -> pending s = entries -> destroy_loop entries s = Some (x, s', o) ->
  advance (fun _ => 0) s s' (terminated o) /\ pending s' = [].
Proof.
  revert s o. induction entries as [|[sn m] entries IH]; intros s o Hs Ep.
  - intros [= <- <- <-]. split; [|done]. by apply (advance_refl s s).
  - cbn [destroy_loop]. rewrite bind_assoc.
    assert (m_find sn (pending s) = Some m) as Hm by by rewrite Ep, m_find_hd.
    pose proof (proj2 (proj2 Hs) _ _ Hm) as (Esn & _).
    unfold mbind at 1, SM_bind at 1. destruct ((_ ← terminateMessage _ _ _; _) s) as [[[y s1] o1]|] eqn:E1; [|done].
    destruct (destroy_loop entries s1) as [[[z s2] o2]|] eqn:E2; [|done]. intros [= <- <- <-].
    assert (pending s1 = entries) as Ep1.
    { revert E1. unfold mbind, SM_bind. destruct (terminateMessage _ _ _ s) as [[[w s3] o3]|] eqn:E3; [|done].
      apply terminateMessage_ends in E3 as [T3 _]. intros [= <- <- <-].
      cbn [ss_mPendingMsgTable deleteEntry mEntryContainer]. rewrite T3, Ep. cbn [m_erase]. by rewrite klt_irrefl. }
    assert (advance (fun _ => 0) s s1 (terminated o1)) as Ha.
    { eapply (ends_delete sn m (terminateMessage _ _ m)); [done..| |exact E1].
      rewrite <- Esn. apply terminateMessage_ends. }
    assert (sess_ok s1) as Hs1 by by apply (advance_ok (fun _ => 0) s s1 (terminated o1)).
    destruct (IH _ _ Hs1 Ep1 E2) as [Hb Hnil]. split; [|done]. rewrite terminated_app.
    by apply (advance_ext _ _ _ _ _ _ (fun _ => eq_refl) eq_refl (advance_trans _ _ _ _ _ _ _ Ha Hb)).
Qed.

Lemma session_destroy_settled s x s' o :
  sess_ok s -> session_destroy s = Some (x, s', o) ->
  advance (fun _ => 0) s s' (terminated o) /\ pending s' = [].
Proof.
  intros Hs. unfold session_destroy, mbind, SM_bind, sm_get.
  destruct (destroy_loop _ s) as [[[y s1] o1]|] eqn:E1; [|done]. intros [= <- <- <-].
  simpl. rewrite terminated_app, app_nil_r. by eapply destroy_loop_settled.
Qed.
(** *** Sending *)

(** What an operation returns. *)
Definition gives {A} (P : A -> Prop) (m : SM A) : Prop := forall s x s' o, m s = Some (x, s', o) -> P x.

Lemma gives_ret {A} (P : A -> Prop) x : P x -> gives P (mret x).
Proof. by intros Hx s ? ? ? [= <- _ _]. Qed.

Lemma gives_bind {A B} P Q (m : SM A) (k : A -> SM B) :
  gives Q m -> (forall x, Q x -> gives P (k x)) -> gives P (m ≫= k).
Proof.
  intros Hm Hk s y s2 o. unfold mbind, SM_bind. destruct (m s) as [[[x s1] o1]|] eqn:E1; [|done].
  destruct (k x s1) as [[[y' s2'] o2]|] eqn:E2; [|done]. intros [= <- _ _]. apply Hm in E1. by eapply Hk.
Qed.

Lemma gives_any {A} (m : SM A) : gives (fun _ => True) m.
Proof. done. Qed.

Definition same_id (m m' : FdbMessage) : Prop := m_mSn m' = m_mSn m /\ m_mLifeTime m' = m_mLifeTime m.

Lemma encodeDebugInfo_keeps now m hdr : same_id m (encodeDebugInfo now m hdr).1.
Proof. unfold encodeDebugInfo, same_id. repeat case_match; done. Qed.

Lemma buildHeader_keeps qos now m ok m' : buildHeader qos now m = Some (ok, m') -> same_id m m'.
Proof.
  unfold buildHeader. case_match; [by intros [= <- <-]|]. set (m1 := match m_mBuffer m with None => serialize_raw [] None m | Some _ => m end).
  assert (same_id m m1) as [Hsn Hl].
  { unfold m1, serialize_raw, checkLogEnabled. split; repeat case_match; done. }
  destruct (encodeDebugInfo now m1 _) as [m2 hdr] eqn:Ed.
  pose proof (encodeDebugInfo_keeps now m1 (message_header qos m1)) as [Hsn2 Hl2]. rewrite Ed in Hsn2, Hl2.
  simpl in Hsn2, Hl2. destruct (builder_build scratch _) as [[head size]|]; simpl; [|done].
  case_match; [intros [= <- <-]; split; congruence|].
  destruct (m_mBuffer m2) as [buf|]; simpl; [|done]. destruct (write_at _ head buf) as [buf2|]; simpl; [|done].
  destruct (write_at _ _ buf2) as [buf3|]; simpl; [|done]. intros [= <- <-]. split; simpl; congruence.
Qed.

Abbreviation by_udp m :=
  (negb (bool_decide (se_qos = FDB_QOS_LOCAL)) && bool_decide (m_mQOS m = FDB_QOS_BEST_EFFORTS)).

Lemma sendMessage_keeps now m : by_udp m = false -> gives (fun r => same_id m r.2) (sendMessage now m).
Proof.
  intros Hu. unfold sendMessage. rewrite Hu. case_match.
  - by apply gives_ret.
  - eapply gives_bind; [apply gives_any|intros _ _].
    eapply (gives_bind _ (fun r => same_id m r.2)).
    { intros s [ok m'] s' o. unfold sm_lift. destruct (buildHeader _ _ _) as [[ok2 m2]|] eqn:Eb; [|done].
      simpl. intros [= <- <- _ _]. by eapply buildHeader_keeps. }
    intros [ok m'] Hm'. destruct ok; [|by apply gives_ret].
    repeat (eapply gives_bind; [apply gives_any|intros ? _]). by apply gives_ret.
Qed.

(** The requests a step has numbered and put into the table. *)
Definition accepted (s s' : CFdbSession) : list Z := filter (fun sn => allocator s <= sn) (keys s').

(** A step: requests enter under new numbers, others leave and their jobs end,
    and the ones that stay are [d] passes of housekeeping older. *)
Record conserves (d : Z -> Z) (s s' : CFdbSession) (T : list Z) : Prop := mkConserves {
  co_ok : sess_ok s';
  co_alloc : allocator s <= allocator s' <= allocator s + 1;
  co_keys : keys s ++ accepted s s' ≡ₚ keys s' ++ T;
  co_entry : forall sn m', sn ∈ keys s -> m_find sn (pending s') = Some m' ->
    exists m, m_find sn (pending s) = Some m /\ m_mLifeTime m' = m_mLifeTime m + d sn }.

Lemma keys_below s : sess_ok s -> Forall (fun sn => 0 <= sn < allocator s) (keys s).
Proof.
  intros (Hs & _ & He). apply Forall_forall. intros sn Hin. apply elem_of_keys in Hin as [m Hm]; [|done].
  by apply He in Hm as (_ & ? & _).
Qed.

Lemma accepted_below s s' : Forall (fun sn => 0 <= sn < allocator s) (keys s') -> accepted s s' = [].
Proof.
  unfold accepted. induction 1 as [|sn l Hsn Hl IH]; [done|]. rewrite filter_cons_False by lia. done.
Qed.

Lemma advance_conserves d s s' T :
  (forall sn, 0 <= d sn) -> sess_ok s -> advance d s s' T -> conserves d s s' T.
Proof.
  intros Hd Hs Ha. assert (sess_ok s') as Hs' by by eapply advance_ok.
  destruct Ha as [a b c e l]. split; [done|lia| |].
  - rewrite accepted_below, app_nil_r; [done|]. rewrite <- a. by apply keys_below.
  - intros sn m' _ Hm'. apply e in Hm' as (m & ? & _ & ?). eauto.
Qed.

Lemma conserves_number s s' :
  sess_ok s -> allocator s + 1 < 2 ^ 32 ->
  ss_mPendingMsgTable s' = mkContainer (allocator s + 1) (pending s) -> conserves (fun _ => 0) s s' [].
Proof.
  intros Hs Hn Et. assert (keys s' = keys s) as Ek by by unfold keys; rewrite Et.
  pose proof (keys_below _ Hs) as Hb. destruct Hs as (Hs & Ha & He). split.
  - unfold sess_ok. rewrite Et. simpl. split_and!; [done|lia..|].
    intros sn m Hm. apply He in Hm as (? & ? & ?). split_and!; [done|lia..].
  - rewrite Et. simpl. lia.
  - by rewrite accepted_below, Ek by by rewrite Ek.
  - intros sn m' _. rewrite Et. simpl. intros Hm. exists m'. split; [done|lia].
Qed.

Lemma conserves_insert m s s' :
  sess_ok s -> allocator s + 1 < 2 ^ 32 -> m_mSn m = allocator s -> m_mLifeTime m = 0 ->
  ss_mPendingMsgTable s' = mkContainer (allocator s + 1) (m_set (allocator s) m (pending s)) ->
  conserves (fun _ => 0) s s' [].
Proof.
  intros Hs Hn Hsn Hl Et. pose proof (keys_below _ Hs) as Hb. destruct Hs as (Hs & Ha & He).
  assert (m_find (allocator s) (pending s) = None) as Hf.
  { destruct (m_find _ _) eqn:Ef; [|done]. apply He in Ef as (_ & ? & _). lia. }
  assert (keys s' ≡ₚ allocator s :: keys s) as Ek by by unfold keys; rewrite Et; apply keys_set_new.
  split.
  - unfold sess_ok. rewrite Et. simpl. split_and!; [by apply m_sorted_set|lia..|].
    intros sn m'. rewrite m_find_set_dec by done. case_decide as D.
    + intros [= <-]. subst sn. unfold entry_ok, FDB_MAX_MSG_LIFETIME. lia.
    + intros Hm. apply He in Hm as (? & ? & ?). split_and!; [done|lia..].
  - rewrite Et. simpl. lia.
  - unfold accepted. rewrite Ek, filter_cons_True by lia.
    fold (accepted s s). rewrite accepted_below by done. solve_Permutation.
  - intros sn m' Hin. rewrite Et. simpl. rewrite m_find_set_dec by done. case_decide as D.
    + subst sn. rewrite elem_of_keys, Hf in Hin by done. by destruct Hin.
    + intros Hm. exists m'. split; [done|lia].
Qed.

Lemma quiet_unsent m : quiet (_ ← sm_when (negb (msg_sync m)) (sm_out (SoReply m)); mret (false, m)).
Proof. solve_quiet. Qed.

(** A request that could not be sent is not awaited; one that was, is. *)
Lemma sendMessageSync_conserves now m s x s' o :
  sess_ok s -> allocator s + 1 < 2 ^ 32 -> m_mLifeTime m = 0 -> by_udp m = false ->
  sendMessageSync (sendMessage now) m s = Some (x, s', o) -> conserves (fun _ => 0) s s' (terminated o).
Proof.
  intros Hs Hn Hl Hu. assert (u32 (allocator s + 1) = allocator s + 1) as En.
  { apply wrap_u_small. destruct Hs as (_ & ? & _). unfold in_u. lia. }
  unfold sendMessageSync. unfold mbind at 1, SM_bind at 1, sm_table at 1, allocateEntityId. rewrite En.
  set (s1 := mkSession _ _ _ _ _ _). destruct ((_ ≫= _ : SM _) s1) as [[[y s2] o2]|] eqn:E2; [|done].
  intros [= <- <- <-]. simpl. revert E2. unfold mbind at 1, SM_bind at 1.
  destruct (sendMessage now _ s1) as [[[[ok m1] s3] o3]|] eqn:E3; [|done].
  pose proof (sendMessage_keeps now (m_set_sn (allocator s) m) Hu _ _ _ _ E3) as [Hsn1 Hl1].
  apply quiet_sendMessage in E3 as [T3 O3]. destruct ok; cbv zeta.
  - unfold mbind, SM_bind, sm_table. simpl in Hsn1, Hl1. rewrite T3. unfold insertEntry. simpl. rewrite Hsn1.
    destruct (m_find (allocator s) (pending s)) as [m0|] eqn:Ef.
    { apply (proj2 (proj2 Hs)) in Ef as (_ & ? & _). lia. }
    intros [= <- <- <-]. rewrite !terminated_app, O3.
    by eapply (conserves_insert (m_set_string EmptyString (replaceBuffer None 0 0 0 m1))); simpl; try congruence.
  - intros Hlast.
    destruct ((_ ≫= _ : SM _) s3) as [[[z s4] o4]|] eqn:E4; [|done]. apply quiet_unsent in E4 as [T4 O4].
    revert Hlast. intros [= <- <- <-]. rewrite terminated_app, O3, O4. apply conserves_number; [done..|by rewrite T4, T3].
Qed.

(** [doRequestOut] sends the request, awaits it or not, and starts its timer. *)
Lemma doRequestOut_conserves now m s x s' o :
  sess_ok s -> allocator s + 1 < 2 ^ 32 -> m_mLifeTime m = 0 ->
  doRequestOut now m s = Some (x, s', o) -> conserves (fun _ => 0) s s' (terminated o).
Proof.
  intros Hs Hn Hl. set (P := fun {A} (f : SM A) => forall x s' o, f s = Some (x, s', o) ->
    conserves (fun _ => 0) s s' (terminated o)).
  assert (forall A (f : SM A), quiet f -> P A f) as Hq.
  { intros A f Hf y s1 o1 Hr. apply (settled_quiet _ Hf) in Hr; [|done]. by apply advance_conserves. }
  assert (forall A B (f : SM A) (k : A -> SM B), P A f -> (forall y, quiet (k y)) -> P B (f ≫= k)) as Hb.
  { intros A B f k Hf Hk y s2 o'. unfold mbind, SM_bind. destruct (f s) as [[[z s1] o1]|] eqn:E1; [|done].
    destruct (k z s1) as [[[w s2'] o2]|] eqn:E2; [|done]. intros [= <- <- <-].
    apply Hf in E1 as [c1 c2 c3 c4]. apply Hk in E2 as [T2 O2]. rewrite terminated_app, O2, app_nil_r.
    split; unfold accepted, keys; rewrite ?T2; try done. by eapply sess_ok_table. }
  apply Hb; [|intros [ok m']; solve_quiet]. case_match; [apply Hq, quiet_sendMessage|].
  apply Hb; [|intros [ok m']; solve_quiet]. unfold sendMessageRef.
  destruct (by_udp m) eqn:Hu; [apply Hq, quiet_udp|].
  intros y s1 o1. by apply sendMessageSync_conserves.
Qed.
End operations.

(** ** Runs of a session *)

(** What happens at a session while it lives: a request is sent, a frame arrives,
    the timer of a request expires, housekeeping runs. *)
Inductive SessEvent :=
  | EvRequest (now : Z) (m : FdbMessage)
  | EvReceive (now : Z) (prefix : CFdbMsgPrefix) (data : list Z)
  | EvTimeout (sn : Z)
  | EvScan.

Section runs.
Context {E : SessEnv} {I : Indet}.

Definition sess_step (e : SessEvent) : SM unit :=
  match e with
  | EvRequest now m => _ ← doRequestOut now m; mret tt
  | EvReceive now prefix data => processPayload now prefix data
  | EvTimeout sn => terminateMessageSn sn ST_TIMEOUT "Message is destroyed due to timeout."
  | EvScan => scanLifeTime
  end.

(** [sess_run evs s acc]: the session after the events, the numbers accepted on the
    way and what was done. *)
Fixpoint sess_run (evs : list SessEvent) (s : CFdbSession) : option (CFdbSession * list Z * list SessOut) :=
  match evs with
  | [] => Some (s, [], [])
  | e :: evs =>
      match sess_step e s with
      | Some (_, s1, o1) =>
          match sess_run evs s1 with
          | Some (s2, acc, o2) => Some (s2, accepted s s1 ++ acc, o1 ++ o2)
          | None => None
          end
      | None => None
      end
  end.

(** Requests are fresh messages. *)
Definition ev_ok (e : SessEvent) : Prop :=
  match e with EvRequest _ m => m_mLifeTime m = 0 | _ => True end.

Definition is_scan (e : SessEvent) : bool := match e with EvScan => true | _ => false end.

Definition scans (evs : list SessEvent) : Z := Z.of_nat (length (List.filter is_scan evs)).

(** How much older the request [sn] of [s] gets. *)
Definition ageing (e : SessEvent) (s : CFdbSession) (sn : Z) : Z :=
  if is_scan e then if decide (sn ∈ keys s) then 1 else 0 else 0.

Lemma sess_step_conserves e s x s' o :
  sess_ok s -> ev_ok e -> allocator s + 1 < 2 ^ 32 ->
  sess_step e s = Some (x, s', o) -> conserves (ageing e s) s s' (terminated o).
Proof.
  intros Hs He Hn. destruct e as [now m|now prefix data|sn|]; simpl.
  - unfold mbind, SM_bind. destruct (doRequestOut now m s) as [[[y s1] o1]|] eqn:Er; [|done].
    intros [= <- <- <-]. rewrite terminated_app, app_nil_r. by eapply doRequestOut_conserves.
  - intros Hr. apply processPayload_settled in Hr; [|done]. by apply advance_conserves.
  - intros Hr. apply terminateMessageSn_settled in Hr; [|done]. by apply advance_conserves.
  - intros Hr. apply scanLifeTime_settles in Hr; [|done].
    apply advance_conserves; [|done|done]. intros j. unfold ageing. simpl. case_decide; lia.
Qed.

Lemma sess_run_conserves evs s s' acc o :
  sess_ok s -> Forall ev_ok evs -> allocator s + Z.of_nat (length evs) < 2 ^ 32 ->
  sess_run evs s = Some (s', acc, o) ->
  sess_ok s' /\ keys s ++ acc ≡ₚ keys s' ++ terminated o
  /\ Forall (fun sn => allocator s <= sn) acc /\ NoDup acc
  /\ (forall sn m', sn ∈ keys s -> m_find sn (pending s') = Some m' ->
       exists m, m_find sn (pending s) = Some m /\ m_mLifeTime m' = m_mLifeTime m + scans evs).
Proof.
  revert s acc o. induction evs as [|e evs IH]; intros s acc o Hs He Hn; simpl.
  - intros [= <- <- <-]. split_and!; [done|done|constructor|constructor|]. intros sn m' _ Hm'. exists m'.
    split; [done|]. unfold scans. simpl. lia.
  - inversion_clear He as [|? ? He1 He2]. destruct (sess_step e s) as [[[x s1] o1]|] eqn:E1; [|done].
    destruct (sess_run evs s1) as [[[s2 acc2] o2]|] eqn:E2; [|done]. intros [= <- <- <-].
    simpl in Hn. apply sess_step_conserves in E1 as [Hs1 Ha1 Hk1 He']; [|done..|lia].
    apply IH in E2 as (Hs2 & Hk2 & Hf2 & Hd2 & He2'); [|done..|lia]. split_and!; [done| | | |].
    + rewrite terminated_app. rewrite app_assoc, Hk1. rewrite <- app_assoc, (Permutation_app_comm (terminated o1)).
      rewrite app_assoc, Hk2. solve_Permutation.
    + apply Forall_app. split; [|eapply Forall_impl; [exact Hf2|simpl; lia]].
      unfold accepted. apply Forall_forall. intros sn. rewrite list_elem_of_filter. tauto.
    + apply NoDup_app. split_and!; [apply NoDup_filter; apply m_sorted_keys, Hs1| |done].
      intros sn Hin. unfold accepted in Hin. apply list_elem_of_filter in Hin as [_ Hin].
      pose proof (keys_below _ Hs1) as Hb. rewrite Forall_forall in Hb, Hf2.
      intros Hin2. apply Hb in Hin. apply Hf2 in Hin2. lia.
    + intros sn m' Hin Hm'. assert (sn ∈ keys s1) as Hin1.
      { pose proof (keys_below _ Hs) as Hb. rewrite Forall_forall in Hb, Hf2. apply Hb in Hin.
        assert (sn ∈ keys s1 ++ acc2) as Hin2.
        { rewrite Hk2, elem_of_app. left. apply elem_of_keys; [apply Hs2|by exists m']. }
        apply elem_of_app in Hin2 as [|Hin2]; [done|]. apply Hf2 in Hin2. lia. }
      destruct (He2' sn m' Hin1 Hm') as (m1 & Hm1 & ->). destruct (He' sn m1 Hin Hm1) as (m & Hm & ->).
      exists m. split; [done|]. unfold ageing, scans. simpl.
      destruct (is_scan e); [rewrite decide_True by done|]; simpl; lia.
Qed.

(** *** Operations that always have a result *)

Definition total {A} (m : SM A) : Prop := forall s, is_Some (m s).

Lemma total_bind {A B} (m : SM A) (k : A -> SM B) : total m -> (forall x, total (k x)) -> total (m ≫= k).
Proof.
  intros Hm Hk s. unfold mbind, SM_bind. destruct (Hm s) as [[[x s1] o1] ->].
  destruct (Hk x s1) as [[[y s2] o2] ->]. eauto.
Qed.

Lemma total_terminate status reason m : total (terminateMessage status reason m).
Proof. unfold terminateMessage. apply total_bind; [unfold sm_when; case_match|]; by eexists. Qed.

Lemma total_scan : total scanLifeTime.
Proof.
  unfold scanLifeTime. apply total_bind; [by eexists|]. intros s0. generalize (pending s0).
  intros entries. induction entries as [|[sn m] entries IH]; [by eexists|].
  cbn [scan_loop]. apply total_bind; [|intros _; apply IH]. unfold scan_entry.
  apply total_bind; [by eexists|intros _]. case_match; [|by eexists].
  apply total_bind; [apply total_terminate|]. by eexists.
Qed.

Lemma total_destroy : total session_destroy.
Proof.
  unfold session_destroy. apply total_bind; [by eexists|]. intros s0. apply total_bind; [|by eexists].
  generalize (pending s0). intros entries. induction entries as [|[sn m] entries IH]; [by eexists|].
  cbn [destroy_loop]. apply total_bind; [apply total_terminate|intros _].
  apply total_bind; [by eexists|]. intros _. apply IH.
Qed.

Lemma sess_run_scans n s : is_Some (sess_run (replicate n EvScan) s).
Proof.
  revert s. induction n as [|n IH]; intros s; [by eexists|]. simpl.
  destruct (total_scan s) as [[[x s1] o1] ->]. destruct (IH s1) as [[[s2 acc] o2] ->]. by eexists.
Qed.

Lemma sess_run_scans_accept n s s' acc o :
  sess_ok s -> sess_run (replicate n EvScan) s = Some (s', acc, o) -> acc = [].
Proof.
  revert s s' acc o. induction n as [|n IH]; intros s s' acc o Hs; simpl; [by intros [= _ <- _]|].
  destruct (scanLifeTime s) as [[[x s1] o1]|] eqn:E1; [|done].
  destruct (sess_run _ s1) as [[[s2 acc2] o2]|] eqn:E2; [|done]. intros [= _ <- _].
  apply scanLifeTime_settles in E1; [|done].
  assert (sess_ok s1) as Hs1 by (eapply advance_ok; [|done..]; intros j; cbn beta; case_decide; lia).
  apply IH in E2; [|done]. rewrite E2, app_nil_r. apply accepted_below.
  rewrite <- (adv_alloc _ _ _ _ E1). by apply keys_below.
Qed.

(** After enough passes of housekeeping nothing that was pending still is. *)
Lemma sess_run_aged evs s s' acc o :
  sess_ok s -> Forall ev_ok evs -> allocator s + Z.of_nat (length evs) < 2 ^ 32 ->
  FDB_MAX_MSG_LIFETIME < scans evs -> sess_run evs s = Some (s', acc, o) ->
  Forall (fun sn => sn ∈ terminated o) (keys s).
Proof.
  intros Hs He Hn Hk Hr. apply sess_run_conserves in Hr as (Hs' & Hp & _ & _ & Hage); [|done..].
  apply Forall_forall. intros sn Hin. assert (sn ∈ keys s' ++ terminated o) as Hin' by (rewrite <- Hp; set_solver).
  apply elem_of_app in Hin' as [Hin'|]; [|done]. exfalso.
  apply elem_of_keys in Hin' as [m' Hm']; [|apply Hs']. destruct (Hage _ _ Hin Hm') as (m & Hm & El).
  apply (proj2 (proj2 Hs)) in Hm as (_ & _ & ?). apply (proj2 (proj2 Hs')) in Hm' as (_ & _ & ?). lia.
Qed.

(** C2: Every request a session has sent is answered exactly once. Over any run of
    a session, from its creation through requests, arbitrary frames from the peer,
    timeouts and passes of housekeeping, the numbers of the requests it accepted are
    distinct and are, up to order, those still pending and those whose job has
    ended; when the session is destroyed, which always succeeds, the jobs of all
    of them have ended, each once, and nothing is pending. The run has fewer than 2^32 events. *)
Theorem requests_end_once sid evs s acc o :
  Forall ev_ok evs -> Z.of_nat (length evs) < 2 ^ 32 ->
  sess_run evs (CFdbSession_new sid) = Some (s, acc, o) ->
  NoDup acc /\ acc ≡ₚ keys s ++ terminated o
  /\ exists s' o', session_destroy s = Some (tt, s', o')
       /\ pending s' = [] /\ acc ≡ₚ terminated (o ++ o').
Proof.
  intros He Hn Hr. pose proof Hr as Hc.
  apply sess_run_conserves in Hc as (Hs & Hp & _ & Hd & _); [|by apply sess_ok_new|done|change (0 + Z.of_nat (length evs) < 2 ^ 32); lia].
  split_and!; [done..|]. destruct (total_destroy s) as [[[[] s'] o'] Hdes].
  pose proof (session_destroy_settled _ _ _ _ Hs Hdes) as [[_ _ Hk _ _] Hnil].
  exists s', o'. split_and!; [done..|]. simpl in Hp. rewrite Hp, Hk, terminated_app. unfold keys. rewrite Hnil.
  solve_Permutation.
Qed.

(** C12: A request the peer never answers does not stay pending. Six passes of
    housekeeping always run and leave nothing of what was pending, and however else
    they are interleaved with requests, frames and timeouts, after six passes
    the job of every request that was pending before has ended. *)
Theorem requests_do_not_linger s :
  sess_ok s -> allocator s + 6 < 2 ^ 32 ->
  (exists s' acc o, sess_run (replicate 6 EvScan) s = Some (s', acc, o) /\ pending s' = []
     /\ keys s ≡ₚ terminated o)
  /\ (forall evs s' acc o, Forall ev_ok evs -> allocator s + Z.of_nat (length evs) < 2 ^ 32 ->
        FDB_MAX_MSG_LIFETIME < scans evs -> sess_run evs s = Some (s', acc, o) ->
        Forall (fun sn => sn ∈ terminated o) (keys s)).
Proof.
  intros Hs Hn. split; [|intros; by eapply sess_run_aged].
  destruct (sess_run_scans 6 s) as [[[s' acc] o] Hr]. exists s', acc, o.
  pose proof (sess_run_scans_accept _ _ _ _ _ Hs Hr) as ->. split; [done|].
  pose proof (sess_run_conserves (replicate 6 EvScan) _ _ _ _ Hs ltac:(by repeat constructor) ltac:(simpl; lia) Hr)
    as (Hs' & Hp & _). rewrite app_nil_r in Hp.
  assert (Forall (fun sn => sn ∈ terminated o) (keys s)) as Ht.
  { apply (sess_run_aged (replicate 6 EvScan) s s' []); [done|by repeat constructor|simpl; lia|done|done]. }
  assert (NoDup (keys s' ++ terminated o)) as Hd by (rewrite <- Hp; apply m_sorted_keys, Hs).
  assert (keys s' = []) as Hnil.
  { destruct (keys s') as [|sn l] eqn:Ek; [done|]. exfalso. apply NoDup_app in Hd as (_ & Hd & _).
    rewrite Forall_forall in Ht. apply (Hd sn); [left|]. apply Ht. rewrite Hp. set_solver. }
  unfold keys in Hnil. split; [by destruct (pending s')|]. rewrite Hp. unfold keys. by rewrite Hnil.
Qed.
End runs.

(** ** A session at work *)

#[local] Instance lab_env : SessEnv :=
  mkSessEnv (mkMsgEnv true false (fun _ _ => false) (fun _ => EmptyString)) 1 FDB_QOS_RELIABLE false (fun _ => true)
    None (fun m => (false, m)) (fun _ _ => Some false) (fun _ _ => true) (fun m => (m, true)) (fun _ _ => None).

(** A request for object 1, and the frame of a reply to the request [sn]. *)
Definition lab_request : FdbMessage :=
  m_set_timer (Some 1000) (m_set_dest 1 0 1 true (msg_new 7 FDB_QOS_RELIABLE)).

Definition lab_reply (sn : Z) : list Z :=
  let m := m_set_sn sn (m_set_type FDB_MT_REPLY lab_request) in
  default [] (r ← buildHeader FDB_QOS_RELIABLE 0 (serialize_raw [1; 2; 3] None m); raw_bytes r.2).

Definition lab_frame (raw : list Z) : SessEvent :=
  EvReceive 0 (default (mkPrefix 0 0) (prefix_deserialize (take 8 raw))) (drop 8 raw).

(** Three requests; the first is answered, the second times out, and one more answer
    to the first arrives. *)
Definition lab_events : list SessEvent :=
  [EvRequest 0 lab_request; EvRequest 0 lab_request; EvScan; EvRequest 0 lab_request;
   lab_frame (lab_reply 0); EvTimeout 1; lab_frame (lab_reply 0)].

Lemma requests_end_once_witness :
  exists s acc o, @sess_run _ 0 lab_events (CFdbSession_new 0) = Some (s, acc, o)
  /\ acc = [0; 1; 2] /\ keys s = [2] /\ terminated o = [0; 1] /\ acc ≡ₚ keys s ++ terminated o.
Proof.
  eexists _, _, _. split; [vm_compute; reflexivity|]. split_and!; [reflexivity..|].
  refine (proj1 (proj2 (@requests_end_once _ 0 0 lab_events _ _ _ _ _ _)));
    [by repeat constructor|done|vm_compute; reflexivity].
Defined.

(** The session of that run, with one request pending. *)
Definition lab_session : CFdbSession :=
  default (CFdbSession_new 0) ((fun r => r.1.1) <$> @sess_run _ 0 lab_events (CFdbSession_new 0)).

Lemma lab_session_ok : sess_ok lab_session.
Proof.
  assert (exists r, @sess_run _ 0 lab_events (CFdbSession_new 0) = Some r) as [[[s acc] o] Hr]
    by (eexists; vm_compute; reflexivity).
  unfold lab_session. rewrite Hr. simpl.
  by apply (@sess_run_conserves _ 0) in Hr as [? _]; [|apply sess_ok_new|repeat constructor|].
Qed.

Lemma requests_do_not_linger_witness :
  keys lab_session = [2] /\ exists s' acc o,
    @sess_run _ 0 (replicate 6 EvScan) lab_session = Some (s', acc, o) /\ pending s' = []
    /\ keys lab_session ≡ₚ terminated o.
Proof.
  split; [vm_compute; reflexivity|].
  refine (proj1 (@requests_do_not_linger _ 0 lab_session lab_session_ok _)). vm_compute. reflexivity.
Defined.
