(* ===== verification/Json.v ===== *)
(** The JSON values the configuration files are read as: [cJSON] and the accessors of
    src/utils/cJSON/cJSON.c which the configuration code uses.  A value is the tree
    a [cJSON] item is the root of; a null pointer is [None].  The parser from text to
    trees is a parameter of the code that uses it. *)
From S2P Require Import Prelude.

(** [valueint] of a number; [string] is the name of a child of an object. *)
Inductive cJSON :=
  | cJSON_False
  | cJSON_True
  | cJSON_NULL
  | cJSON_Number (valueint : Z)
  | cJSON_String (valuestring : string)
  | cJSON_Array (child : list cJSON)
  | cJSON_Object (child : list (string * cJSON)).

Implicit Types item : option cJSON.

Definition cJSON_IsTrue item : bool := match item with Some cJSON_True => true | _ => false end.
Definition cJSON_IsNull item : bool := match item with Some cJSON_NULL => true | _ => false end.
Definition cJSON_IsNumber item : bool := match item with Some (cJSON_Number _) => true | _ => false end.
Definition cJSON_IsString item : bool := match item with Some (cJSON_String _) => true | _ => false end.
Definition cJSON_IsArray item : bool := match item with Some (cJSON_Array _) => true | _ => false end.
Definition cJSON_IsObject item : bool := match item with Some (cJSON_Object _) => true | _ => false end.

(** The members; a member that does not belong to the type is zero. *)
Definition valueint item : Z := match item with Some (cJSON_Number n) => n | _ => 0 end.
Definition valuestring item : string := match item with Some (cJSON_String s) => s | _ => EmptyString end.

(** The children in order, with their names. *)
Definition json_children item : list (string * cJSON) :=
  match item with
  | Some (cJSON_Array l) => (fun x => (EmptyString, x)) <$> l
  | Some (cJSON_Object l) => l
  | _ => []
  end.

Definition cJSON_GetArraySize item : Z := Z.of_nat (length (json_children item)).

Definition cJSON_GetArrayItem item (index : Z) : option cJSON :=
  if index <? 0 then None else snd <$> json_children item !! Z.to_nat index.

(** [tolower] of the C locale. *)
Definition tolower (c : Z) : Z := if (65 <=? c) && (c <=? 90) then c + 32 else c.

Fixpoint case_insensitive_eq (s1 s2 : string) : bool :=
  match s1, s2 with
  | EmptyString, EmptyString => true
  | String a s1, String b s2 =>
      (tolower (byte_of_ascii a) =? tolower (byte_of_ascii b)) && case_insensitive_eq s1 s2
  | _, _ => false
  end.

Fixpoint find_child (name : string) (l : list (string * cJSON)) : option cJSON :=
  match l with
  | [] => None
  | (s, x) :: l => if case_insensitive_eq name s then Some x else find_child name l
  end.

(** The children of an array have no name: nothing is found there. *)
Definition cJSON_GetObjectItem item (name : string) : option cJSON :=
  match item with Some (cJSON_Object l) => find_child name l | _ => None end.

(** Reading the children by index is reading them in order. *)
Lemma children_by_index item (i : nat) :
  Z.of_nat i < cJSON_GetArraySize item ->
  exists x, cJSON_GetArrayItem item (Z.of_nat i) = Some x /\ (snd <$> json_children item) !! i = Some x.
Proof.
  unfold cJSON_GetArraySize, cJSON_GetArrayItem. intros Hi. rewrite (proj2 (Z.ltb_ge _ _)), Nat2Z.id by lia.
  destruct (lookup_lt_is_Some_2 (json_children item) i) as [[s x] Hx]; [lia|].
  exists x. by rewrite list_lookup_fmap, Hx.
Qed.
