(* ===== verification/Security.v ===== *)
(** Who may use what: src/security/ (CApiSecurityConfig, CServerSecurityConfig,
    CHostSecurityConfig, CFdbusSecurityConfig, CFdbToken) and the checks
    of [CBaseEndpoint].

    A configuration file gives each service the level a message or an event code needs
    ([CApiSecurityConfig]) and the level a user or group has
    ([CServerSecurityConfig]); hosts have levels too ([CHostSecurityConfig]). A client
    proves its level with the token of that level ([CFdbToken]), which the name
    server hands out. The parser of JSON, the user and group databases, the clock and
    the random numbers are parameters. *)
From S2P Require Import Prelude Json CommonDefs StdMap SocketFactory.

Definition FDB_SECURITY_LEVEL_NONE : Z := -1.
Definition FDB_SECURITY_LEVEL_UNKNOWN : Z := -2.
Definition FDB_CFG_NR_SECURE_LEVEL : Z := 4.
Definition FDB_CFG_TOKEN_LENGTH : Z := 32.

Open Scope string_scope.
Definition FDB_CFG_CONFIG_FILE_SUFFIX : string := ".fdb".
Open Scope list_scope.
Open Scope Z_scope.

(** ** [CFdbusSecurityConfig] *)

Record CFdbusSecurityConfig := mkSecurityConfig { mTokenLength : Z; mNrSecurityLevel : Z }.

Definition CFdbusSecurityConfig_new : CFdbusSecurityConfig :=
  mkSecurityConfig FDB_CFG_TOKEN_LENGTH FDB_CFG_NR_SECURE_LEVEL.

(** [parseSecurityConfig] on the parsed file; the error message is empty when there is none. *)
Definition fdbus_parseSecurityConfig (root : option cJSON) (c : CFdbusSecurityConfig) :
    CFdbusSecurityConfig * string :=
  if negb (cJSON_IsObject root) then (c, EmptyString) else
  let nr := cJSON_GetObjectItem root "number_of_secure_levels" in
  let '(c, err) :=
    match nr with
    | None => (c, EmptyString)
    | Some _ =>
        if cJSON_IsNumber nr then
          let v := valueint nr in
          (mkSecurityConfig (mTokenLength c) (if (v <=? 0) || (32 <=? v) then FDB_CFG_NR_SECURE_LEVEL else v), EmptyString)
        else (c, "not number - 1")
    end in
  let tl := cJSON_GetObjectItem root "token_length" in
  match tl with
  | None => (c, err)
  | Some _ =>
      if cJSON_IsNumber tl then
        let v := valueint tl in
        (mkSecurityConfig (if (v <? 8) || (512 <? v) then FDB_CFG_TOKEN_LENGTH else v) (mNrSecurityLevel c), err)
      else (c, "not number - 2")
  end.

(** ** [CApiSecurityConfig]: the level a code needs *)

Record CSecLevelRange := mkRange { mBegin : Z; mEnd : Z; mSecLevel : Z }.
Record CApiSecLevelTbl := mkApiTbl { at_mDefaultLevel : Z; mApiSecRangeTbl : list CSecLevelRange }.
Record CApiSecurityConfig := mkApiConfig {
  mMessageSecLevelTbl : CApiSecLevelTbl; mEventSecLevelTbl : CApiSecLevelTbl }.

Definition CApiSecLevelTbl_new : CApiSecLevelTbl := mkApiTbl FDB_SECURITY_LEVEL_NONE [].
Definition CApiSecurityConfig_new : CApiSecurityConfig := mkApiConfig CApiSecLevelTbl_new CApiSecLevelTbl_new.

Definition api_push (r : CSecLevelRange) (t : CApiSecLevelTbl) : CApiSecLevelTbl :=
  mkApiTbl (at_mDefaultLevel t) (mApiSecRangeTbl t ++ [r]).

(** One entry of the list: the table and an error message, empty when there is none. *)
Definition parseApiEntry (e : cJSON) (cfg : CApiSecLevelTbl) : CApiSecLevelTbl * string :=
  let sec_level := Some e in
  if negb (cJSON_IsObject sec_level) then (cfg, "not object - 1.") else
  let item_level := cJSON_GetObjectItem sec_level "level" in
  match item_level with
  | None => (cfg, "'level' is not found.")
  | Some _ =>
    if negb (cJSON_IsNumber item_level) then (cfg, "'level' should be number.") else
    let level := if valueint item_level <? 0 then FDB_SECURITY_LEVEL_NONE else valueint item_level in
    let item_default := cJSON_GetObjectItem sec_level "default" in
    if bool_decide (item_default <> None) && negb (cJSON_IsTrue item_default)
    then (cfg, "default should be true or false.") else
    let cfg := if cJSON_IsTrue item_default then mkApiTbl level (mApiSecRangeTbl cfg) else cfg in
    let item_group := cJSON_GetObjectItem sec_level "group" in
    if cJSON_IsNumber item_group then
      let group := fdbMakeGroupEvent (valueint item_group) in
      (api_push (mkRange group group level) cfg, EmptyString)
    else
    let item_from := cJSON_GetObjectItem sec_level "from" in
    match item_from with
    | None => (cfg, "'from' is not found.")
    | Some _ =>
      if negb (cJSON_IsNumber item_from) then (cfg, "'from' should be string or number.") else
      let item_to := cJSON_GetObjectItem sec_level "to" in
      match item_to with
      | None => (cfg, "'to' is not found.")
      | Some _ =>
        if negb (cJSON_IsNumber item_to) then (cfg, "'to' should be number.") else
        if valueint item_from <=? valueint item_to
        then (api_push (mkRange (valueint item_from) (valueint item_to) level) cfg, EmptyString)
        else (cfg, "'from' < 'to'.")
      end
    end
  end.

(** The loop ends at the first error. *)
Fixpoint parseApiEntries (l : list (string * cJSON)) (cfg : CApiSecLevelTbl) : CApiSecLevelTbl * string :=
  match l with
  | [] => (cfg, EmptyString)
  | (_, e) :: l =>
      let '(cfg, err) := parseApiEntry e cfg in
      if bool_decide (err = EmptyString) then parseApiEntries l cfg else (cfg, err)
  end.

Definition parseApiConfig (json : option cJSON) (cfg : CApiSecLevelTbl) : CApiSecLevelTbl * string :=
  if cJSON_IsArray json then parseApiEntries (json_children json) cfg else (cfg, "not array - 1.").

Definition api_parseSecurityConfig (root : option cJSON) (c : CApiSecurityConfig) : CApiSecurityConfig * string :=
  match root with
  | None => (c, "unable to parse json string.")
  | Some _ =>
    if negb (cJSON_IsObject root) then (c, EmptyString) else
    match cJSON_GetObjectItem root "message" with
    | None => (c, "'message' is not found!")
    | message =>
        let '(t, err) := parseApiConfig message (mMessageSecLevelTbl c) in
        let c := mkApiConfig t (mEventSecLevelTbl c) in
        if negb (bool_decide (err = EmptyString)) then (c, err) else
        match cJSON_GetObjectItem root "event" with
        | None => (c, "'event' is not found!")
        | event =>
            let '(t, err) := parseApiConfig event (mEventSecLevelTbl c) in
            (mkApiConfig (mMessageSecLevelTbl c) t, err)
        end
    end
  end.

(** [file] is the parsed configuration file, [None] inside when it does not parse,
    [None] when there is no file. *)
Definition importSecLevel (file : option (option cJSON)) (c : CApiSecurityConfig) : CApiSecurityConfig :=
  if negb (bool_decide (mApiSecRangeTbl (mMessageSecLevelTbl c) = []))
     || negb (bool_decide (mApiSecRangeTbl (mEventSecLevelTbl c) = [])) then c else
  match file with
  | None => c
  | Some root =>
      let '(c, err) := api_parseSecurityConfig root c in
      if bool_decide (err = EmptyString) then c
      else mkApiConfig (mkApiTbl (at_mDefaultLevel (mMessageSecLevelTbl c)) [])
                       (mkApiTbl (at_mDefaultLevel (mEventSecLevelTbl c)) [])
  end.

Fixpoint getSecLevel (msg_code default : Z) (l : list CSecLevelRange) : Z :=
  match l with
  | [] => default
  | r :: l => if (mBegin r <=? msg_code) && (msg_code <=? mEnd r) then mSecLevel r
              else getSecLevel msg_code default l
  end.

Definition getMessageSecLevel (c : CApiSecurityConfig) (msg_code : Z) : Z :=
  getSecLevel msg_code (at_mDefaultLevel (mMessageSecLevelTbl c)) (mApiSecRangeTbl (mMessageSecLevelTbl c)).
Definition getEventSecLevel (c : CApiSecurityConfig) (msg_code : Z) : Z :=
  getSecLevel msg_code (at_mDefaultLevel (mEventSecLevelTbl c)) (mApiSecRangeTbl (mEventSecLevelTbl c)).

(** ** [CServerSecurityConfig]: the level a user has at a service *)

(** The user and group databases: [getgrnam], [getpwnam], and the groups of a user
    from [getpwuid] and [getgrouplist], [None] when the user is unknown or has more
    than [FDB_MAX_GROUP] groups. *)
Class UserDb := mkUserDb {
  ud_getgrnam : string -> option Z;
  ud_getpwnam : string -> option Z;
  ud_groups : Z -> option (list Z) }.

Record CServerSecCfg := mkServerSec { sc_mDefaultLevel : Z; sc_mCredSecLevelTbl : smap Z Z }.
Record CPermissions := mkPermissions { mGid : CServerSecCfg; mUid : CServerSecCfg }.
Record CServerSecurityConfig := mkServerConfig {
  mServerSecLevelTbl : smap string CPermissions;
  mServiceNetworkList : smap string (list CFdbSocketAddr) }.

Definition CServerSecCfg_new : CServerSecCfg := mkServerSec FDB_SECURITY_LEVEL_NONE [].
Definition CPermissions_new : CPermissions := mkPermissions CServerSecCfg_new CServerSecCfg_new.
Definition CServerSecurityConfig_new : CServerSecurityConfig := mkServerConfig [] [].

Section server.
Context {U : UserDb}.

(** The loop of [addPermission] over the names and numbers. *)
Fixpoint addPermission_loop (l : list (string * cJSON)) (cfg : CServerSecCfg) (level : Z) (is_group : bool)
    (err_msg : string) : CServerSecCfg * string :=
  match l with
  | [] => (cfg, err_msg)
  | (_, x) :: l =>
      let add id := addPermission_loop l (mkServerSec (sc_mDefaultLevel cfg) (m_set id level (sc_mCredSecLevelTbl cfg)))
                      level is_group err_msg in
      match x with
      | cJSON_String s =>
          match (if is_group then ud_getgrnam s else ud_getpwnam s) with
          | Some id => add (u32 id)
          | None => (cfg, String.append err_msg (String.append (if is_group then "group " else "user ")
                                                  (String.append s " is not found.")))
          end
      | cJSON_Number n => add (u32 n)
      | _ => (cfg, "id should be number or string.")
      end
  end.

Definition server_addPermission (json : option cJSON) (cfg : CServerSecCfg) (level : Z) (is_group : bool)
    (err_msg : string) : CServerSecCfg * string :=
  if cJSON_IsArray json then addPermission_loop (json_children json) cfg level is_group err_msg
  else if cJSON_IsNull json then (mkServerSec level (sc_mCredSecLevelTbl cfg), err_msg)
  else (cfg, "'gid' or 'uid' should be array or null.").

(** A level below zero is none, one above the number of levels is that number. *)
Definition limit_level (nr level : Z) : Z :=
  let level := if level <? 0 then FDB_SECURITY_LEVEL_NONE else level in
  if nr <? level then nr else level.

(** An error of [addPermission] does not end the loop; other errors do, and then the
    result is [false]. *)
Fixpoint parsePermissions (nr : Z) (l : list (string * cJSON)) (perm : CPermissions) (err_msg : string) :
    CPermissions * string * bool :=
  match l with
  | [] => (perm, err_msg, true)
  | (_, e) :: l =>
      let sec_level := Some e in
      if negb (cJSON_IsObject sec_level) then (perm, "not object - 2.", false) else
      let item_level := cJSON_GetObjectItem sec_level "level" in
      match item_level with
      | None => (perm, "'level' is not found.", false)
      | Some _ =>
        if negb (cJSON_IsNumber item_level) then (perm, "'level' should be number.", false) else
        let level := limit_level nr (valueint item_level) in
        let item_gid := cJSON_GetObjectItem sec_level "gid" in
        let '(gid, err_msg) := match item_gid with
                               | Some _ => server_addPermission item_gid (mGid perm) level true err_msg
                               | None => (mGid perm, err_msg) end in
        let item_uid := cJSON_GetObjectItem sec_level "uid" in
        let '(uid, err_msg) := match item_uid with
                               | Some _ => server_addPermission item_uid (mUid perm) level false err_msg
                               | None => (mUid perm, err_msg) end in
        parsePermissions nr l (mkPermissions gid uid) err_msg
      end
  end.

(** The addresses in the list [network]. *)
Fixpoint parseNetwork (l : list (string * cJSON)) (network_list : list CFdbSocketAddr) (err_msg : string) :
    list CFdbSocketAddr * string :=
  match l with
  | [] => (network_list, err_msg)
  | (_, cJSON_String url) :: l =>
      let '(ok, addr) := parseUrl (Some url) CFdbSocketAddr_new in
      if (ok : bool) then parseNetwork l (network_list ++ [addr]) err_msg else (network_list, "bad url")
  | _ => (network_list, "not string - 1")
  end.

(** The part for [permission]: [true] when the function goes on to the networks. *)
Definition parsePermissionItem (nr : Z) (svc_name : string) (item_perm : option cJSON) (c : CServerSecurityConfig) :
    CServerSecurityConfig * string * bool :=
  match item_perm with
  | None => (c, EmptyString, true)
  | Some _ =>
    if negb (cJSON_IsArray item_perm) then (c, "not array - 1.", false) else
    let perm := m_at CPermissions_new svc_name (mServerSecLevelTbl c) in
    let '(perm, err_msg, go_on) := parsePermissions nr (json_children item_perm) perm EmptyString in
    (mkServerConfig (m_set svc_name perm (mServerSecLevelTbl c)) (mServiceNetworkList c), err_msg, go_on)
  end.

Definition parseServerSecurityConfig (nr : Z) (svc_name : string) (root : option cJSON) (c : CServerSecurityConfig) :
    CServerSecurityConfig * string :=
  match root with
  | None => (c, "unable to parse json string.")
  | Some _ =>
    if negb (cJSON_IsObject root) then (c, "not object - 1.") else
    let '(c, err_msg, go_on) := parsePermissionItem nr svc_name (cJSON_GetObjectItem root "permission") c in
    if negb go_on then (c, err_msg) else
    let network := cJSON_GetObjectItem root "network" in
    match network with
    | None => (c, err_msg)
    | Some _ =>
      if negb (cJSON_IsArray network) then (c, "not array - 2") else
      let '(lst, err_msg) := parseNetwork (json_children network) (m_at [] svc_name (mServiceNetworkList c)) err_msg in
      (mkServerConfig (mServerSecLevelTbl c) (m_set svc_name lst (mServiceNetworkList c)), err_msg)
    end
  end.

(** [parseServerConfigFile]: the service is the name of the file without its suffix;
    [read] is the parsed file, if it can be read. *)
Definition parseServerConfigFile (nr : Z) (read : option (option cJSON)) (cfg_file_name : string)
    (c : CServerSecurityConfig) : CServerSecurityConfig * string :=
  let name_len := String.length cfg_file_name in
  let suffix_len := String.length FDB_CFG_CONFIG_FILE_SUFFIX in
  if (name_len <=? suffix_len)%nat then (c, EmptyString) else
  if negb (String.eqb (String.substring (name_len - suffix_len) suffix_len cfg_file_name) FDB_CFG_CONFIG_FILE_SUFFIX)
  then (c, EmptyString) else
  match read with
  | Some root => parseServerSecurityConfig nr (String.substring 0 (name_len - suffix_len) cfg_file_name) root c
  | None => (c, String.append "unable to open " cfg_file_name)
  end.

Definition getNetworkList (c : CServerSecurityConfig) (svc_name : string) : option (list CFdbSocketAddr) :=
  m_find svc_name (mServiceNetworkList c).

Definition getGroupSecurityLevel (uid : Z) (sec_cfg : CServerSecCfg) : Z :=
  let grp_list := default [] (ud_groups uid) in
  let levels := omap (fun g => m_find g (sc_mCredSecLevelTbl sec_cfg)) grp_list in
  match grp_list, levels with
  | [], _ | _, [] => sc_mDefaultLevel sec_cfg
  | _, _ => foldl Z.max FDB_SECURITY_LEVEL_NONE levels
  end.

Definition getUserSecurityLevel (uid : Z) (sec_cfg : CServerSecCfg) : Z :=
  default (sc_mDefaultLevel sec_cfg) (m_find uid (sc_mCredSecLevelTbl sec_cfg)).

Definition server_getSecurityLevel (c : CServerSecurityConfig) (svc_name : string) (uid : Z) : Z :=
  match m_find svc_name (mServerSecLevelTbl c) with
  | None => FDB_SECURITY_LEVEL_NONE
  | Some perm => Z.max (getGroupSecurityLevel uid (mGid perm)) (getUserSecurityLevel uid (mUid perm))
  end.
End server.

(** ** [CHostSecurityConfig]: the level another host has *)

Record CHostSecCfg := mkHostSec { hc_mDefaultLevel : Z; hc_mCred : string; hc_mCredSecLevelTbl : smap string Z }.
Definition CHostSecurityConfig : Type := smap string CHostSecCfg.

(** A new element of the table; [parseHostSecurityConfig] sets the level at once. *)
Definition CHostSecCfg_new : CHostSecCfg := mkHostSec 0 EmptyString [].

Fixpoint host_addPermission_loop (l : list (string * cJSON)) (cfg : CHostSecCfg) (level : Z) (err_msg : string) :
    CHostSecCfg * string :=
  match l with
  | [] => (cfg, err_msg)
  | (_, cJSON_String id) :: l =>
      host_addPermission_loop l
        (mkHostSec (hc_mDefaultLevel cfg) (hc_mCred cfg) (m_set id level (hc_mCredSecLevelTbl cfg))) level err_msg
  | _ => (cfg, "not string - 1")
  end.

Definition host_addPermission (json : option cJSON) (cfg : CHostSecCfg) (level : Z) (err_msg : string) :
    CHostSecCfg * string :=
  match json with
  | Some (cJSON_Array _) => host_addPermission_loop (json_children json) cfg level err_msg
  | Some (cJSON_String s) =>
      if String.eqb s "default" then (mkHostSec level (hc_mCred cfg) (hc_mCredSecLevelTbl cfg), err_msg)
      else (cfg, "if 'id' is string, only array or 'default' is allowed.")
  | _ => (cfg, "'id' should be array or string")
  end.

(** The list [permission] of a host; [false] when the parse ends there. *)
Fixpoint parseHostPermissions (nr : Z) (l : list (string * cJSON)) (cfg : CHostSecCfg) (err_msg : string) :
    CHostSecCfg * string * bool :=
  match l with
  | [] => (cfg, err_msg, true)
  | (_, e) :: l =>
      let sec_level := Some e in
      if negb (cJSON_IsObject sec_level) then (cfg, "not object - 1", false) else
      let level := cJSON_GetObjectItem sec_level "level" in
      match level with
      | None => (cfg, "'level' is not found", false)
      | Some _ =>
        if negb (cJSON_IsNumber level) then (cfg, "'level' is not number", false) else
        let item_hosts := cJSON_GetObjectItem sec_level "hosts" in
        let '(cfg, err_msg) := match item_hosts with
                               | Some _ => host_addPermission item_hosts cfg (limit_level nr (valueint level)) err_msg
                               | None => (cfg, err_msg) end in
        parseHostPermissions nr l cfg err_msg
      end
  end.

(** One host of the object [host]. *)
Definition parseHostEntry (nr : Z) (host : cJSON) (cfg : CHostSecCfg) (err_msg : string) :
    CHostSecCfg * string * bool :=
  let cfg := mkHostSec FDB_SECURITY_LEVEL_NONE (hc_mCred cfg) (hc_mCredSecLevelTbl cfg) in
  let item_cred := cJSON_GetObjectItem (Some host) "cred" in
  if bool_decide (item_cred <> None) && negb (cJSON_IsString item_cred) then (cfg, "not string - 1", false) else
  let cfg := match item_cred with
             | Some _ => mkHostSec (hc_mDefaultLevel cfg) (valuestring item_cred) (hc_mCredSecLevelTbl cfg)
             | None => cfg end in
  let item_perms := cJSON_GetObjectItem (Some host) "permission" in
  match item_perms with
  | None => (cfg, err_msg, true)
  | Some _ => if cJSON_IsArray item_perms then parseHostPermissions nr (json_children item_perms) cfg err_msg
              else (cfg, "not array - 1", false)
  end.

Fixpoint parseHosts (nr : Z) (l : list (string * cJSON)) (c : CHostSecurityConfig) (err_msg : string) :
    CHostSecurityConfig * string :=
  match l with
  | [] => (c, err_msg)
  | (name, host) :: l =>
      if negb (cJSON_IsObject (Some host)) then (c, "not object - 2") else
      let '(cfg, err_msg, go_on) := parseHostEntry nr host (m_at CHostSecCfg_new name c) err_msg in
      let c := m_set name cfg c in
      if (go_on : bool) then parseHosts nr l c err_msg else (c, err_msg)
  end.

Definition parseHostSecurityConfig (nr : Z) (root : option cJSON) (c : CHostSecurityConfig) :
    CHostSecurityConfig * string :=
  if negb (cJSON_IsObject root) then (c, EmptyString) else
  let item_host := cJSON_GetObjectItem root "host" in
  match item_host with
  | None => (c, EmptyString)
  | Some _ => if cJSON_IsObject item_host then parseHosts nr (json_children item_host) c EmptyString
              else (c, "not number - 1")
  end.

Definition host_getSecurityLevel (c : CHostSecurityConfig) (this_host that_host : string) : Z :=
  match m_find this_host c with
  | None => FDB_SECURITY_LEVEL_NONE
  | Some cfg => default (hc_mDefaultLevel cfg) (m_find that_host (hc_mCredSecLevelTbl cfg))
  end.

Definition getCred (c : CHostSecurityConfig) (host_name : string) : option string := hc_mCred <$> m_find host_name c.

(** ** [CFdbToken]: proving a level *)

(** [rnd_rand seed i]: the [i]-th random number after [srand(seed)]; [rnd_clock k]: the
    [k]-th reading of the clock, in milliseconds. *)
Class Random := mkRandom {
  rnd_rand : Z -> nat -> Z;
  rnd_clock : nat -> Z }.

Definition alphanum : string := "0123456789ABCDEFGHIJKLMNOPQRSTUVWXYZabcdefghijklmnopqrstuvwxyz".

Section token.
Context {R : Random}.

(** [randomString] at the [k]-th reading of the clock. *)
Definition randomString (token_length : Z) (k : nat) : string :=
  String.string_of_list_ascii
    ((fun i => default Ascii.zero (String.get (Z.to_nat (rnd_rand (u32 (rnd_clock k)) i mod 62)) alphanum))
       <$> seq 0 (Z.to_nat token_length)).

(** The inner loop: strings are drawn until one is new. It returns the next reading. *)
Fixpoint draw_token (fuel : nat) (token_length : Z) (tokens : list string) (k : nat) : option (string * nat) :=
  match fuel with
  | O => None
  | S fuel =>
      let rand_string := randomString token_length k in
      if existsb (String.eqb rand_string) tokens then draw_token fuel token_length tokens (S k)
      else Some (rand_string, S k)
  end.

(** [allocateToken(tokens)]: one token for each level. *)
Fixpoint allocate_loop (fuel n : nat) (token_length : Z) (tokens : list string) (k : nat) : option (list string) :=
  match n with
  | O => Some tokens
  | S n => '(t, k) ← draw_token fuel token_length tokens k; allocate_loop fuel n token_length (tokens ++ [t]) k
  end.

Definition allocateToken (fuel : nat) (c : CFdbusSecurityConfig) : option (list string) :=
  allocate_loop fuel (Z.to_nat (mNrSecurityLevel c)) (mTokenLength c) [] 0.
End token.

(** The first token that is equal, as its level. *)
Fixpoint checkSecurityLevel_from (i : Z) (tokens : list string) (token : string) : Z :=
  match tokens with
  | [] => FDB_SECURITY_LEVEL_NONE
  | t :: tokens => if String.eqb t token then i else checkSecurityLevel_from (i + 1) tokens token
  end.

Definition checkSecurityLevel (tokens : list string) (token : option string) : Z :=
  match token with
  | None | Some EmptyString => FDB_SECURITY_LEVEL_NONE
  | Some t => checkSecurityLevel_from 0 tokens t
  end.

(** ** The checks of an endpoint *)

(** [CBaseEndpoint::importTokens]: whether the tokens changed, and the new ones. *)
Definition importTokens (mTokens in_tokens : list string) : bool * list string :=
  let need_update := negb (length in_tokens =? length mTokens)%nat
                     || negb (bool_decide (mTokens = in_tokens)) in
  (need_update, if need_update then in_tokens else mTokens).

(** The level of a session, [FDB_SECURITY_LEVEL_UNKNOWN] for a UDP session: that of
    its socket then. *)
Definition actual_security_level (session_level container_level : Z) : Z :=
  if session_level =? FDB_SECURITY_LEVEL_UNKNOWN then container_level else session_level.

Definition onMessageAuthentication (sec_cfg : option CApiSecurityConfig) (code session_level container_level : Z) : bool :=
  match sec_cfg with
  | Some c => getMessageSecLevel c code <=? actual_security_level session_level container_level
  | None => true
  end.

Definition onGetEventAuthentication (sec_cfg : option CApiSecurityConfig) (code session_level container_level : Z) : bool :=
  match sec_cfg with
  | Some c => getEventSecLevel c code <=? actual_security_level session_level container_level
  | None => true
  end.

Definition onSetEventAuthentication : bool := true.
Definition onPublishAuthentication : bool := true.

(** ** Tokens *)

Section token_proofs.
Context {R : Random}.

Lemma existsb_eqb_elem t tokens : (existsb (String.eqb t) tokens = true) <-> (t ∈ tokens).
Proof.
  rewrite existsb_exists. setoid_rewrite String.eqb_eq. setoid_rewrite <- list_elem_of_In. split; [|by eauto].
  by intros (? & ? & <-).
Qed.

Lemma draw_token_fresh fuel len tokens k t k' :
  draw_token fuel len tokens k = Some (t, k') -> (t ∉ tokens) /\ exists j, t = randomString len j.
Proof.
  revert k. induction fuel as [|fuel IH]; intros k; simpl; [done|].
  destruct (existsb _ tokens) eqn:Ex; [apply IH|]. intros [= <- <-]. split; [|eauto].
  intros Hin. apply existsb_eqb_elem in Hin. congruence.
Qed.

Lemma draw_token_total fuel len tokens k :
  (exists j, (j < fuel)%nat /\ randomString len (k + j) ∉ tokens) -> is_Some (draw_token fuel len tokens k).
Proof.
  revert k. induction fuel as [|fuel IH]; intros k (j & Hj & Hn); [lia|]. simpl.
  destruct (existsb _ tokens) eqn:Ex; [|eauto]. apply IH. destruct j as [|j].
  - rewrite Nat.add_0_r in Hn. by apply existsb_eqb_elem in Ex.
  - exists j. split; [lia|]. by replace (S k + j)%nat with (k + S j)%nat by lia.
Qed.

Abbreviation drawn len := (fun t => exists j, t = randomString len j).

Lemma allocate_loop_spec fuel n len tokens k r :
  NoDup tokens -> Forall (drawn len) tokens -> allocate_loop fuel n len tokens k = Some r ->
  NoDup r /\ length r = (length tokens + n)%nat /\ Forall (drawn len) r.
Proof.
  revert tokens k. induction n as [|n IH]; intros tokens k Hd Hs; simpl.
  - intros [= <-]. split_and!; [done|lia|done].
  - destruct (draw_token fuel len tokens k) as [[t k']|] eqn:Ed; simpl; [|done]. intros Hr.
    apply draw_token_fresh in Ed as [Hn Ht]. apply IH in Hr as (Hd' & Hl & Hs').
    + rewrite length_app in Hl. simpl in Hl. split_and!; [done|lia|done].
    + apply NoDup_app. split_and!; [done|intros x Hx ->%list_elem_of_singleton; by apply Hn|apply NoDup_singleton].
    + apply Forall_app. split; [done|]. by constructor.
Qed.

(** Among more different strings than there are tokens one is new. *)
Lemma fresh_string (l tokens : list string) :
  (length tokens < length (remove_dups l))%nat -> exists x, x ∈ l /\ x ∉ tokens.
Proof.
  intros Hl. destruct (decide (Forall (fun x => x ∈ tokens) (remove_dups l))) as [Ha|Hn].
  - rewrite Forall_forall in Ha. assert (remove_dups l ⊆+ tokens) as Hs%submseteq_length; [|lia].
    apply NoDup_submseteq; [apply NoDup_remove_dups|done].
  - apply not_Forall_Exists, Exists_exists in Hn as (x & Hx & Hn); [|apply _].
    rewrite elem_of_remove_dups in Hx. by exists x.
Qed.

Lemma draw_token_next fuel len tokens k t k' :
  draw_token fuel len tokens k = Some (t, k') -> (k < k' <= k + fuel)%nat.
Proof.
  revert k. induction fuel as [|fuel IH]; intros k; simpl; [done|].
  destruct (existsb _ tokens); [intros Hr; apply IH in Hr; lia|intros [= _ <-]; lia].
Qed.

(** The clock moves on: any [fuel] readings up to the [b]-th give [n] different strings. *)
Definition clock_moves (fuel n b : nat) (len : Z) : Prop :=
  Forall (fun k => (n <= length (remove_dups (randomString len <$> seq k fuel)))%nat) (seq 0 b).

Lemma allocate_loop_total fuel n m len tokens k :
  (0 < fuel)%nat -> (length tokens + n <= m)%nat -> clock_moves fuel m (m * fuel) len -> (k <= length tokens * fuel)%nat ->
  is_Some (allocate_loop fuel n len tokens k).
Proof.
  intros Hf. revert tokens k. induction n as [|n IH]; intros tokens k Hn Hc Hk; simpl; [eauto|].
  assert (is_Some (draw_token fuel len tokens k)) as [[t k'] Hd].
  { apply draw_token_total. unfold clock_moves in Hc. rewrite Forall_forall in Hc.
    specialize (Hc k ltac:(apply elem_of_seq; nia)).
    destruct (fresh_string (randomString len <$> seq k fuel) tokens) as (x & Hx & Hnx); [lia|].
    apply list_elem_of_fmap in Hx as (i & -> & Hi). apply elem_of_seq in Hi. exists (i - k)%nat.
    split; [lia|]. by replace (k + (i - k))%nat with i by lia. }
  rewrite Hd. simpl. apply draw_token_next in Hd. apply IH; [rewrite length_app; simpl; lia|done|].
  rewrite length_app. simpl. lia.
Qed.

Lemma check_from_nth i tokens n t :
  NoDup tokens -> tokens !! n = Some t -> checkSecurityLevel_from i tokens t = i + Z.of_nat n.
Proof.
  revert i n. induction tokens as [|t0 tokens IH]; intros i n Hd Hn; [done|].
  apply NoDup_cons in Hd as [Hnin Hd]. simpl. destruct (String.eqb_spec t0 t) as [->|Hne].
  - destruct n as [|n]; [lia|]. simpl in Hn. apply list_elem_of_lookup_2 in Hn. done.
  - destruct n as [|n]; [by simplify_eq/=|]. simpl in Hn. rewrite (IH _ n) by done. lia.
Qed.

Lemma check_from_none i tokens t : t ∉ tokens -> checkSecurityLevel_from i tokens t = FDB_SECURITY_LEVEL_NONE.
Proof.
  revert i. induction tokens as [|t0 tokens IH]; intros i Hn; [done|]. simpl.
  destruct (String.eqb_spec t0 t) as [->|]; [set_solver|]. apply IH. set_solver.
Qed.

Lemma randomString_length len k : String.length (randomString len k) = Z.to_nat len.
Proof.
  unfold randomString. rewrite <- length_str_bytes. generalize (seq 0 (Z.to_nat len)), (length_seq (Z.to_nat len) 0).
  intros l <-. induction l as [|x l IH]; simpl; [done|]. by rewrite <- IH.
Qed.

(** The numbers a configuration file can set are in their ranges. *)
Definition security_ok (c : CFdbusSecurityConfig) : Prop :=
  8 <= mTokenLength c <= 512 /\ 1 <= mNrSecurityLevel c < 32.

Lemma fdbus_parse_ok root c : security_ok c -> security_ok (fdbus_parseSecurityConfig root c).1.
Proof.
  unfold fdbus_parseSecurityConfig, security_ok, FDB_CFG_TOKEN_LENGTH, FDB_CFG_NR_SECURE_LEVEL.
  intros Hc. repeat (case_match; simpl in *; simplify_eq); try lia;
    repeat match goal with
    | H : context [(_ || _)] |- _ => apply orb_false_iff in H as [? ?]
    end; destruct_bool_hyp; simpl in *; try lia.
Qed.

(** C33: A token proves its level. With whatever configuration file, drawing the
    tokens ends as long as the clock moves on (any [fuel] readings give as many
    different strings as there are levels), there is one token for each level, the
    token of a level is recognised as that level, and any other string proves nothing. *)
Theorem tokens_prove_levels fuel root :
  let c := (fdbus_parseSecurityConfig root CFdbusSecurityConfig_new).1 in
  let n := Z.to_nat (mNrSecurityLevel c) in
  (0 < fuel)%nat -> clock_moves fuel n (n * fuel) (mTokenLength c) ->
  exists tokens, allocateToken fuel c = Some tokens
  /\ length tokens = n
  /\ (forall i t, tokens !! i = Some t -> checkSecurityLevel tokens (Some t) = Z.of_nat i)
  /\ (forall t, t ∉ tokens -> checkSecurityLevel tokens (Some t) = FDB_SECURITY_LEVEL_NONE).
Proof.
  intros c n Hf Hc. assert (security_ok c) as [Hlen Hnr] by (apply fdbus_parse_ok; done).
  destruct (allocate_loop_total fuel n n (mTokenLength c) [] 0) as [tokens Ht]; [done..|simpl; lia|].
  exists tokens. split; [done|]. apply allocate_loop_spec in Ht as (Hd & Hl & Hs); [|constructor..].
  rewrite Forall_forall in Hs. split_and!; [done| |].
  - intros i t Hi. pose proof (check_from_nth 0 tokens i t Hd Hi) as Hc'. rewrite Z.add_0_l in Hc'. rewrite <- Hc'.
    apply list_elem_of_lookup_2, Hs in Hi as [j ->].
    pose proof (randomString_length (mTokenLength c) j). destruct (randomString _ j); [simpl in *; lia|done].
  - intros t Hn. destruct t; [done|]. by apply check_from_none.
Qed.
End token_proofs.

(** A clock that reads each millisecond twice. *)
#[local] Instance lab_random : Random := mkRandom (fun seed i => seed + Z.of_nat i) (fun k => Z.of_nat (k / 2)).

Lemma tokens_prove_levels_witness :
  exists tokens, allocateToken 8 CFdbusSecurityConfig_new = Some tokens
  /\ length tokens = 4%nat
  /\ (forall i t, tokens !! i = Some t -> checkSecurityLevel tokens (Some t) = Z.of_nat i)
  /\ (forall t, t ∉ tokens -> checkSecurityLevel tokens (Some t) = FDB_SECURITY_LEVEL_NONE).
Proof.
  apply (tokens_prove_levels 8 None); [lia|]. unfold clock_moves. apply (bool_decide_unpack _). vm_compute. exact I.
Defined.

(** ** Policies *)

(** What an entry of a configuration file names: a range of codes, the event code of a
    group, or nothing. *)
Inductive entry_codes :=
| Codes_range (from to : Z)
| Codes_group (group : Z)
| Codes_none.

(** An entry: its level, whether that is to be the default level too, and its codes. *)
Record policy_entry := mkPolicyEntry { pe_level : Z; pe_default : bool; pe_codes : entry_codes }.

Definition json_entry (e : policy_entry) : cJSON :=
  cJSON_Object
    ([("level", cJSON_Number (pe_level e))] ++ (if pe_default e then [("default", cJSON_True)] else [])
     ++ match pe_codes e with
        | Codes_range from to => [("from", cJSON_Number from); ("to", cJSON_Number to)]
        | Codes_group group => [("group", cJSON_Number group)]
        | Codes_none => []
        end).

(** A configuration file: its policy and whatever else it holds. *)
Definition json_policy (messages events : list policy_entry) (rest : list (string * cJSON)) : cJSON :=
  cJSON_Object ([("message", cJSON_Array (json_entry <$> messages)); ("event", cJSON_Array (json_entry <$> events))]
                ++ rest).

(** The level of an entry: a negative one is none. *)
Definition entry_level (e : policy_entry) : Z :=
  if pe_level e <? 0 then FDB_SECURITY_LEVEL_NONE else pe_level e.

(** The codes an entry is for. *)
Definition entry_range (e : policy_entry) : option (Z * Z) :=
  match pe_codes e with
  | Codes_range from to => if from <=? to then Some (from, to) else None
  | Codes_group group => Some (fdbMakeGroupEvent group, fdbMakeGroupEvent group)
  | Codes_none => None
  end.

Definition usable (e : policy_entry) : Prop := entry_range e <> None.

#[export] Instance usable_dec e : Decision (usable e).
Proof. unfold usable. apply _. Defined.

Definition covers (code : Z) (e : policy_entry) : Prop :=
  match entry_range e with Some (from, to) => from <= code <= to | None => False end.

#[export] Instance covers_dec code e : Decision (covers code e).
Proof. unfold covers. destruct (entry_range e) as [[? ?]|]; apply _. Defined.

(** The level for the codes no entry is for: the last one given as default. *)
Definition default_level (l : list policy_entry) : Z :=
  foldl (fun d e => if pe_default e then entry_level e else d) FDB_SECURITY_LEVEL_NONE l.

(** What a policy asks for a code: the level of the first entry that is for it. *)
Definition required (code : Z) (l : list policy_entry) : Z :=
  from_option (fun p => entry_level p.2) (default_level l) (list_find (covers code) l).

(** The entries that are read: all of them, or those up to the first unusable one. *)
Fixpoint entries_read (l : list policy_entry) : list policy_entry :=
  match l with
  | [] => []
  | e :: l => e :: (if decide (usable e) then entries_read l else [])
  end.

(** The levels a file asks for messages and events. One with an entry that names no
    codes is not in force: of it only default levels are left, those read before
    the error. *)
Definition message_required (ms es : list policy_entry) (code : Z) : Z :=
  if decide (Forall usable ms /\ Forall usable es) then required code ms else default_level (entries_read ms).

Definition event_required (ms es : list policy_entry) (code : Z) : Z :=
  if decide (Forall usable ms) then
    if decide (Forall usable es) then required code es else default_level (entries_read es)
  else FDB_SECURITY_LEVEL_NONE.

(** The row of the table for an entry. *)
Definition entry_row (e : policy_entry) : list CSecLevelRange :=
  match entry_range e with Some (from, to) => [mkRange from to (entry_level e)] | None => [] end.

Lemma parse_entry e cfg :
  let '(t, err) := parseApiEntry (json_entry e) cfg in
  at_mDefaultLevel t = (if pe_default e then entry_level e else at_mDefaultLevel cfg)
  /\ mApiSecRangeTbl t = mApiSecRangeTbl cfg ++ entry_row e /\ (err = EmptyString <-> usable e).
Proof.
  destruct cfg, e as [level [] []]; unfold parseApiEntry, json_entry, entry_row, usable, entry_range, entry_level, api_push;
    simpl; try destruct (_ <=? _); simpl; by rewrite ?app_nil_r.
Qed.

Lemma parse_entries l cfg :
  let '(t, err) := parseApiEntries ((fun x => (EmptyString, x)) <$> (json_entry <$> l)) cfg in
  at_mDefaultLevel t
    = foldl (fun d e => if pe_default e then entry_level e else d) (at_mDefaultLevel cfg) (entries_read l)
  /\ (err = EmptyString <-> Forall usable l)
  /\ (Forall usable l -> mApiSecRangeTbl t = mApiSecRangeTbl cfg ++ (l ≫= entry_row)).
Proof.
  revert cfg. induction l as [|e l IH]; intros cfg; [by rewrite app_nil_r|]. simpl.
  pose proof (parse_entry e cfg) as Ep. destruct (parseApiEntry (json_entry e) cfg) as [c err].
  destruct Ep as (Ed & Er & Eu). case_bool_decide as Herr.
  - specialize (IH c). destruct (parseApiEntries _ c) as [t err']. destruct IH as (Hd & He & Hr).
    rewrite decide_True by (by apply Eu). rewrite Hd, Ed, Forall_cons. split_and!; [done|naive_solver|].
    intros [_ Hl]. rewrite (Hr Hl), Er. by rewrite <- app_assoc.
  - rewrite decide_False by (by rewrite <- Eu). simpl. rewrite Forall_cons. split_and!; [done|naive_solver|naive_solver].
Qed.

Lemma entries_read_all l : Forall usable l -> entries_read l = l.
Proof. induction 1 as [|e l He _ IH]; [done|]. simpl. by rewrite decide_True, IH. Qed.

Lemma getSecLevel_required code d l :
  getSecLevel code d (l ≫= entry_row) = from_option (fun p => entry_level p.2) d (list_find (covers code) l).
Proof.
  induction l as [|e l IH]; [done|]. rewrite bind_cons. simpl. unfold entry_row at 1.
  assert (covers code e <-> match entry_range e with Some (f, t) => (f <=? code) && (code <=? t) = true | None => False end)
    as Hc by (unfold covers; destruct (entry_range e) as [[f t]|]; [rewrite andb_true_iff, !Z.leb_le|]; done).
  destruct (entry_range e) as [[f t]|]; simpl.
  - destruct (decide (covers code e)) as [Hy|Hy].
    + apply Hc in Hy. by rewrite Hy.
    + destruct ((f <=? code) && (code <=? t)) eqn:E; [by exfalso; apply Hy, Hc|].
      rewrite IH. by destruct (list_find (covers code) l) as [[i r']|].
  - rewrite decide_False by (by intros ?%Hc). rewrite IH. by destruct (list_find (covers code) l) as [[i r']|].
Qed.

Lemma import_policy ms es rest :
  let c := importSecLevel (Some (Some (json_policy ms es rest))) CApiSecurityConfig_new in
  (forall code, getMessageSecLevel c code = message_required ms es code)
  /\ (forall code, getEventSecLevel c code = event_required ms es code).
Proof.
  unfold importSecLevel. cbn [CApiSecurityConfig_new].
  rewrite !bool_decide_true by done. cbn [negb orb]. unfold api_parseSecurityConfig.
  change (cJSON_GetObjectItem (Some (json_policy ms es rest)) "message") with (Some (cJSON_Array (json_entry <$> ms))).
  change (cJSON_GetObjectItem (Some (json_policy ms es rest)) "event") with (Some (cJSON_Array (json_entry <$> es))).
  unfold parseApiConfig. cbn [cJSON_IsObject cJSON_IsArray json_policy negb json_children].
  unfold message_required, event_required, getMessageSecLevel, getEventSecLevel.
  pose proof (parse_entries ms (mMessageSecLevelTbl CApiSecurityConfig_new)) as Hm.
  destruct (parseApiEntries _ (mMessageSecLevelTbl _)) as [tm em]. destruct Hm as (Dm & Em & Rm). simpl in Dm, Rm.
  case_bool_decide as Hem; cbn [negb].
  2: { rewrite bool_decide_false by done. simpl. split; intros code; rewrite decide_False by naive_solver; [|done].
       by rewrite Dm. }
  apply Em in Hem. specialize (Rm Hem). simpl.
  pose proof (parse_entries es (mEventSecLevelTbl CApiSecurityConfig_new)) as He.
  simpl mEventSecLevelTbl in He |- *.
  destruct (parseApiEntries (_ <$> (json_entry <$> es)) _) as [te ee]. destruct He as (De & Ee & Re). simpl in De, Re.
  case_bool_decide as Hee; simpl; split; intros code.
  1,2: apply Ee in Hee; rewrite !decide_True by done.
  - rewrite Dm, Rm, entries_read_all by done. apply getSecLevel_required.
  - rewrite De, (Re Hee), entries_read_all by done. apply getSecLevel_required.
  - rewrite decide_False by naive_solver. by rewrite Dm.
  - rewrite decide_True by done. rewrite decide_False by naive_solver. by rewrite De.
Qed.

(** C32: The policy of a configuration file is the one an endpoint applies. For a
    file whose entries give a level to a range of codes or to an event group, some
    of them as the default, a peer may send a message, or read an event, exactly
    when its level reaches the one of the first entry for the code, or, when there
    is none, the last default. A file in which one entry names no codes, or an
    empty range, is not in force at all, neither for messages nor for events: every
    code needs only the default level that was read before the error. An entry that
    sets nothing but the default level, as the shipped examples have, is such an
    entry. A UDP peer has the level of its connection. *)
Theorem policy_enforced ms es rest code session_level container_level :
  let c := importSecLevel (Some (Some (json_policy ms es rest))) CApiSecurityConfig_new in
  let level := actual_security_level session_level container_level in
  (onMessageAuthentication (Some c) code session_level container_level = true
   <-> message_required ms es code <= level)
  /\ (onGetEventAuthentication (Some c) code session_level container_level = true
      <-> event_required ms es code <= level).
Proof.
  intros c level. destruct (import_policy ms es rest) as [Em Ee]. fold c in Em, Ee.
  unfold onMessageAuthentication, onGetEventAuthentication. rewrite Em, Ee, !Z.leb_le. done.
Qed.

(** The lists of the shipped example src/example/config/server/, and the file. *)
Definition example_default : policy_entry := mkPolicyEntry (-1) true Codes_none.
Definition example_ranges : list policy_entry :=
  [mkPolicyEntry 0 false (Codes_range 101 200); mkPolicyEntry 1 false (Codes_range 201 300);
   mkPolicyEntry 2 false (Codes_range 301 400); mkPolicyEntry 3 false (Codes_range 401 500)].
Definition example_group : policy_entry := mkPolicyEntry 2 false (Codes_group 3).
Definition example_events : list policy_entry := example_group :: example_ranges.

(** Without its default entry the example is in force. With it, it is not, and a peer
    of no level may send the messages it keeps for level 3. *)
Example example_policy_in_force :
  message_required example_ranges example_events 450 = 3
  /\ event_required example_ranges example_events (fdbMakeGroupEvent 3) = 2
  /\ event_required example_ranges example_events 150 = 0.
Proof. repeat split. Qed.

Example default_entry_drops_policy :
  let c := importSecLevel (Some (Some (json_policy (example_default :: example_ranges)
             (example_default :: example_events) []))) CApiSecurityConfig_new in
  getMessageSecLevel c 450 = -1 /\ onMessageAuthentication (Some c) 450 FDB_SECURITY_LEVEL_NONE 0 = true.
Proof. split; reflexivity. Qed.

(** A level above the number of levels is cut to that number, for which there is no
    token: tokens are numbered from zero. *)
Example highest_level_has_no_token : limit_level 4 9 = 4 /\ length (replicate 4 ""%string) = 4%nat.
Proof. done. Qed.

(** *** The level of a user *)

Section user_level.
Context {U : UserDb}.

Lemma foldl_max_spec d l : d <= foldl Z.max d l /\ Forall (fun x => x <= foldl Z.max d l) l
  /\ (foldl Z.max d l = d \/ foldl Z.max d l ∈ l).
Proof.
  revert d. induction l as [|x l IH]; intros d; simpl; [split_and!; [lia|done|by left]|].
  destruct (IH (Z.max d x)) as (H1 & H2 & H3). split_and!; [lia|constructor; [lia|done]|].
  destruct H3 as [->|H3]; [|right; by right]. destruct (Z.max_spec d x) as [[_ ->]|[_ ->]]; [right; left|by left].
Qed.

(** The level a user gets is a level the configuration gives it: as a user, through one
    of its groups, or by default; and none of its groups and not the user itself
    would have given more. *)
Lemma server_level_granted c svc_name uid perm :
  m_find svc_name (mServerSecLevelTbl c) = Some perm ->
  let level := server_getSecurityLevel c svc_name uid in
  getUserSecurityLevel uid (mUid perm) <= level
  /\ (forall g l, g ∈ default [] (ud_groups uid) -> m_find g (sc_mCredSecLevelTbl (mGid perm)) = Some l -> l <= level).
Proof.
  intros Hp level. unfold level, server_getSecurityLevel. rewrite Hp. split; [lia|].
  intros g l Hg Hl. assert (l <= getGroupSecurityLevel uid (mGid perm)); [|lia].
  unfold getGroupSecurityLevel. set (grps := default [] (ud_groups uid)) in *.
  assert (l ∈ omap (fun g => m_find g (sc_mCredSecLevelTbl (mGid perm))) grps) as Hin.
  { apply list_elem_of_omap. eauto. }
  pose proof (foldl_max_spec FDB_SECURITY_LEVEL_NONE
    (omap (fun g => m_find g (sc_mCredSecLevelTbl (mGid perm))) grps)) as (_ & Hf & _).
  rewrite Forall_forall in Hf. apply Hf in Hin as Hle.
  destruct grps; [set_solver|]. destruct (omap _ _); [set_solver|]. done.
Qed.
End user_level.
