(* ===== verification/UdpSession.v ===== *)
(** The sockets of an endpoint and datagrams: [CFdbSessionContainer] of
    src/fdbus/CFdbSessionContainer.cpp, [CFdbUDPSession] of src/fdbus/CFdbUDPSession.cpp
    with its socket, and how messages and subscriptions are checked against the
    levels of Security.v.

    A container holds the connections accepted or made on one socket and at most one UDP
    session. The UDP session is a session like the others (Session.v) with its own
    table of pending requests; a datagram is attributed to the connection whose
    peer announced the address it came from. *)
From S2P Require Import Prelude Serializer Codec CommonDefs WireBase WireTheorems StdMap Subscribe FdWatch Framing SocketFactory Message Session SessionProofs Json Security.

(** ** [CFdbSessionContainer] *)

(** What the container and its endpoint ask a [CFdbSession]: its number, the UDP address
    its peer announced, its security level, and its socket. *)
Record SessView := mkSessView {
  sv_sid : Z;
  sv_mPeerUDPIpDigit : Z;
  sv_mPeerUDPPort : Z;
  sv_mSecurityLevel : Z;
  sv_secure : bool;
  sv_addr : CFdbSocketAddr;
  sv_peer : string * Z }.

#[export] Instance CFdbSocketAddr_eq : EqDecision CFdbSocketAddr.
Proof. solve_decision. Defined.
#[export] Instance SessView_eq : EqDecision SessView.
Proof. solve_decision. Defined.

(** The socket of a UDP session: its port, and the peer [setUDPDestAddr] sets. *)
Record UdpSocket := mkUdpSocket { us_mPort : Z; us_mPeerUDPIp : Z; us_mPeerUDPPort : Z }.

Definition UdpSocket_new (port : Z) : UdpSocket := mkUdpSocket port 0 FDB_INET_PORT_INVALID.

Record CFdbSessionContainer := mkSessContainer {
  cn_mSkid : Z;
  cn_mSocket : CFdbSocketAddr;
  cn_mSecure : bool;
  cn_mEnableSessionDestroyHook : bool;
  cn_mUDPSession : option UdpSocket;
  cn_mPendingUDPPort : Z;
  cn_mConnectedSessionTable : list SessView }.

Definition container_new (skid : Z) (socket : CFdbSocketAddr) (udp_port : Z) (secure : bool) : CFdbSessionContainer :=
  mkSessContainer skid socket secure true None udp_port [].

Definition FDB_VALID_PORT (port : Z) : bool := FDB_INET_PORT_AUTO <? port.

Inductive EFdbSecureType := FDB_SEC_INSECURE | FDB_SEC_SECURE | FDB_SEC_TRY_SECURE | FDB_SEC_NO_CHECK.

Section container.
Implicit Types (c : CFdbSessionContainer) (s : SessView).

Definition cn_set_sessions (l : list SessView) c : CFdbSessionContainer :=
  mkSessContainer (cn_mSkid c) (cn_mSocket c) (cn_mSecure c) (cn_mEnableSessionDestroyHook c) (cn_mUDPSession c)
    (cn_mPendingUDPPort c) l.
Definition cn_set_udp (u : option UdpSocket) (port : Z) c : CFdbSessionContainer :=
  mkSessContainer (cn_mSkid c) (cn_mSocket c) (cn_mSecure c) (cn_mEnableSessionDestroyHook c) u port
    (cn_mConnectedSessionTable c).

Definition getDefaultSession c : option SessView := head (cn_mConnectedSessionTable c).

(** Sessions are compared by address; numbers are different for different sessions. *)
Definition cn_addSession s c : CFdbSessionContainer :=
  if existsb (fun x => sv_sid x =? sv_sid s) (cn_mConnectedSessionTable c) then c
  else cn_set_sessions (cn_mConnectedSessionTable c ++ [s]) c.

Fixpoint remove_first (f : SessView -> bool) (l : list SessView) : list SessView :=
  match l with [] => [] | x :: l => if f x then l else x :: remove_first f l end.

Definition cn_removeSession s c : CFdbSessionContainer :=
  cn_set_sessions (remove_first (fun x => sv_sid x =? sv_sid s) (cn_mConnectedSessionTable c)) c.

(** [bindUDPSocket]: [enabled] is [UDPEnabled] of the endpoint, [bind] whether one of the
    attempts to bind the address succeeds. The port kept is the one asked for. *)
Definition bindUDPSocket (enabled : bool) (bind : string -> Z -> bool -> bool) (ip_address : option string)
    (udp_port : Z) c : bool * CFdbSessionContainer :=
  if negb enabled then (false, c) else
  let port := if udp_port =? FDB_INET_PORT_INVALID then cn_mPendingUDPPort c else udp_port in
  let c := cn_set_udp (cn_mUDPSession c) port c in
  if port =? FDB_INET_PORT_INVALID then (false, c) else
  let tcp_addr := cn_mSocket c in
  if bool_decide (sa_mType tcp_addr = FDB_SOCKET_IPC) then (false, c) else
  if match cn_mUDPSession c with Some u => us_mPort u =? port | None => false end then (true, c) else
  if bind (default (sa_mAddr tcp_addr) ip_address) port (sa_mSecure tcp_addr)
  then (true, cn_set_udp (Some (UdpSocket_new port)) port c)
  else (false, cn_set_udp None port c).

Definition findTcpSession (peer_ip peer_port : Z) c : option SessView :=
  find (fun s => (peer_ip =? sv_mPeerUDPIpDigit s) && (peer_port =? sv_mPeerUDPPort s)) (cn_mConnectedSessionTable c).

(** [CFdbSession::connected] and [bound]. *)
Definition sess_connected (addr : CFdbSocketAddr) s : bool :=
  bool_decide (sa_mType (sv_addr s) = sa_mType addr)
  && (if bool_decide (sa_mType (sv_addr s) = FDB_SOCKET_IPC) then String.eqb (sa_mAddr (sv_addr s)) (sa_mAddr addr)
      else String.eqb (sv_peer s).1 (sa_mAddr addr) && ((sv_peer s).2 =? sa_mPort addr)).

Definition sess_bound (addr : CFdbSocketAddr) s : bool :=
  let session_addr := sv_addr s in
  bool_decide (sa_mType session_addr = sa_mType addr)
  && (if bool_decide (sa_mType session_addr = FDB_SOCKET_IPC) then String.eqb (sa_mAddr session_addr) (sa_mAddr addr)
      else String.eqb (sa_mAddr session_addr) (sa_mAddr addr) && Bool.eqb (sa_mSecure session_addr) (sa_mSecure addr)
           && ((sa_mPort session_addr <=? FDB_INET_PORT_AUTO) || (sa_mPort session_addr =? sa_mPort addr))).

Definition connectedSession (addr : CFdbSocketAddr) c : option SessView :=
  find (sess_connected addr) (cn_mConnectedSessionTable c).
Definition connectedSession_sec (sec_type : EFdbSecureType) c : option SessView :=
  find (fun s => match sec_type with
                 | FDB_SEC_INSECURE => negb (sv_secure s)
                 | FDB_SEC_SECURE => sv_secure s
                 | _ => true
                 end) (cn_mConnectedSessionTable c).
Definition cn_bound (addr : CFdbSocketAddr) c : option SessView := find (sess_bound addr) (cn_mConnectedSessionTable c).

Definition container_checkSecurityLevel c : Z :=
  match cn_mUDPSession c with
  | None => FDB_SECURITY_LEVEL_NONE
  | Some u =>
      if negb (FDB_VALID_PORT (us_mPeerUDPPort u)) then FDB_SECURITY_LEVEL_NONE else
      match find (fun s => FDB_VALID_PORT (sv_mPeerUDPPort s)
                           && ((sv_mPeerUDPIpDigit s =? us_mPeerUDPIp u) && (sv_mPeerUDPPort s =? us_mPeerUDPPort u)))
                 (cn_mConnectedSessionTable c) with
      | Some s => sv_mSecurityLevel s
      | None => FDB_SECURITY_LEVEL_UNKNOWN
      end
  end.
End container.

(** ** [CFdbUDPSession] *)

Definition FDB_MAX_UDP_SIZE : Z := 65535.

(** The environment of a UDP session: its container, what the socket returns for a
    datagram sent (a negative number is an error), and the UDP address of the session
    a message is for. *)
Class UdpEnv := mkUdpEnv {
  ue_sess : SessEnv;
  ue_container : CFdbSessionContainer;
  ue_send : list Z -> Z -> Z -> Z;
  ue_dest : FdbMessage -> option (Z * Z) }.

Section udp.
Context {UE : UdpEnv}.
#[local] Existing Instance ue_sess.

Definition udp_qos : EFdbQOS := if cn_mSecure ue_container then FDB_QOS_SECURE_BEST_EFFORTS else FDB_QOS_BEST_EFFORTS.

(** [sendMessage(msg, ip, port)]: what the socket returns is taken as a truth value. *)
Definition udp_sendMessageTo (now : Z) (m : FdbMessage) (peer_ip peer_port : Z) : SM (bool * FdbMessage) :=
  '(ok, m) ← sm_lift (buildHeader udp_qos now m);
  if negb ok then mret (false, m) else
  _ ← sm_tx (doStatistics (m_mType m) (m_mFlag m));
  raw ← sm_lift (raw_bytes m);
  _ ← sm_out (SoDatagram raw peer_ip peer_port);
  mret (negb (ue_send raw peer_ip peer_port =? 0), m).

Definition udp_sendMessage (now : Z) (m : FdbMessage) : SM (bool * FdbMessage) :=
  match ue_dest m with
  | Some (ip, port) => udp_sendMessageTo now m ip port
  | None => mret (false, m)
  end.

#[local] Instance udp_session : SessVirtual := mkVirtual udp_sendMessage false.

Definition udp_sendMessageRef (now : Z) (m : FdbMessage) : SM (bool * FdbMessage) :=
  sendMessageSync (udp_sendMessage now) m.

Definition sm_sid (sid : Z) : SM unit := fun s =>
  Some (tt, mkSession sid (ss_mSenderName s) (ss_mPendingMsgTable s) (ss_mTx s) (ss_mRx s) (ss_mFatalError s), []).

(** [onInput]: [received] is the datagram with its sender, [None] when the socket fails.
    The buffer is larger than the datagram; the rest of it is indeterminate. *)
Definition udp_onInput {I : Indet} (now : Z) (received : option (list Z * Z * Z)) : SM unit :=
  s ← sm_get;
  if ss_mFatalError s then mret tt else
  match received with
  | None => sm_fatal
  | Some (data, peer_ip, peer_port) =>
      if Z.of_nat (length data) <? mPrefixSize then sm_fatal else
      let buffer := take (Z.to_nat FDB_MAX_UDP_SIZE) (data ++ malloc (FDB_MAX_UDP_SIZE - Z.of_nat (length data))) in
      prefix ← sm_lift (prefix_deserialize buffer);
      if i32 (u32 (mTotalLength prefix - mPrefixSize)) <? 0 then sm_fatal else
      _ ← match findTcpSession peer_ip peer_port ue_container with
          | Some tcp_session => sm_sid (sv_sid tcp_session)
          | None => mret tt
          end;
      processPayload now prefix (drop (Z.to_nat mPrefixSize) buffer)
  end.

(** [~CFdbUDPSession]. *)
Fixpoint udp_destroy_loop (entries : smap Z FdbMessage) : SM unit :=
  match entries with
  | [] => mret tt
  | (sn, m) :: entries =>
      _ ← terminateMessage ST_PEER_VANISH "UDP message is destroyed due to broken connection." m;
      _ ← sm_table (fun t => (tt, deleteEntry sn t));
      udp_destroy_loop entries
  end.
Definition udp_destroy : SM unit := s ← sm_get; udp_destroy_loop (mEntryContainer (ss_mPendingMsgTable s)).
End udp.

(** ** Datagrams and requests *)

Section udp_proofs.
Context {UE : UdpEnv}.
#[local] Existing Instances ue_sess udp_session.

Lemma quiet_udp_send now m : quiet (udp_sendMessage now m).
Proof. unfold udp_sendMessage, udp_sendMessageTo. solve_quiet. Qed.

#[local] Instance udp_quiet : QuietSend udp_session := quiet_udp_send.

Lemma quiet_sid sid : quiet (sm_sid sid).
Proof. by intros s ? ? ? [= <- <- <-]. Qed.
#[local] Hint Resolve quiet_sid : quiet.

(** A UDP session, too, ends the jobs of exactly the requests that leave its table,
    whatever datagrams arrive from whoever sends them. *)
Lemma udp_onInput_settled {I : Indet} now received s :
  sess_ok s -> settles (fun _ => 0) (udp_onInput now received) s.
Proof.
  intros Hs. unfold udp_onInput. apply settles_get.
  case_match; [by apply (settled_quiet _ (quiet_ret tt))|].
  destruct received as [[[data ip] port]|]; [|by apply (settled_quiet _ quiet_fatal)].
  case_match; [by apply (settled_quiet _ quiet_fatal)|]. cbv zeta.
  revert s Hs H H0. intros s Hs _ _. apply (settled_bind _ _ (quiet_lift _)); [|done]. intros prefix.
  case_match; [by apply settled_quiet, quiet_fatal|].
  apply settled_bind; [solve_quiet|intros _]. apply processPayload_settled.
Qed.
End udp_proofs.

(** *** Who sent a datagram *)

(** The requests an operation hands to objects. *)
Definition asked (o : list SessOut) : list FdbMessage :=
  omap (fun x => match x with
    | SoInvoke m | SoSideband m | SoGetEvent m | SoSetEvent m | SoPublish m => Some m
    | _ => None end) o.

(** They name the session they came by. *)
Definition names_sid {A} (m : SM A) : Prop := forall s x s' o,
  m s = Some (x, s', o) -> ss_mSid s' = ss_mSid s /\ Forall (fun m => m_mSid m = ss_mSid s) (asked o).

Lemma names_sid_bind {A B} (m : SM A) (k : A -> SM B) :
  names_sid m -> (forall x, names_sid (k x)) -> names_sid (m ≫= k).
Proof.
  intros Hm Hk s y s2 o. unfold mbind, SM_bind. destruct (m s) as [[[x s1] o1]|] eqn:E1; [|done].
  destruct (k x s1) as [[[y' s2'] o2]|] eqn:E2; [|done]. intros [= <- <- <-].
  apply Hm in E1 as [T1 O1]. apply Hk in E2 as [T2 O2]. rewrite T1 in *. split; [done|].
  unfold asked. rewrite omap_app. by apply Forall_app.
Qed.

Lemma names_sid_ret {A} (x : A) : names_sid (mret x).
Proof. intros s ? ? ? [= <- <- <-]. by split. Qed.
Lemma names_sid_lift {A} (x : option A) : names_sid (sm_lift x).
Proof. intros s y s' o. unfold sm_lift. destruct x; [|done]. intros [= <- <- <-]. by split. Qed.
Lemma names_sid_fatal : names_sid sm_fatal.
Proof. intros s ? ? ? [= <- <- <-]. by split. Qed.
Lemma names_sid_tx f : names_sid (sm_tx f).
Proof. intros s ? ? ? [= <- <- <-]. by split. Qed.
Lemma names_sid_rx f : names_sid (sm_rx f).
Proof. intros s ? ? ? [= <- <- <-]. by split. Qed.
Lemma names_sid_table {A} f : names_sid (@sm_table A f).
Proof. intros s ? ? ? . unfold sm_table. case_match. intros [= <- <- <-]. by split. Qed.
Lemma names_sid_get : names_sid sm_get.
Proof. intros s ? ? ? [= <- <- <-]. by split. Qed.
Lemma names_sid_out x : asked [x] = [] -> names_sid (sm_out x).
Proof. intros Hx s ? ? ? [= <- <- <-]. by rewrite Hx. Qed.

Create HintDb sid discriminated.
#[export] Hint Resolve names_sid_ret names_sid_lift names_sid_fatal names_sid_tx names_sid_rx names_sid_table
  names_sid_get : sid.
#[export] Hint Extern 1 (names_sid (sm_out _)) => apply names_sid_out; reflexivity : sid.

Ltac solve_sid :=
  repeat lazymatch goal with
  | |- names_sid (_ ≫= _) => apply names_sid_bind; [|intros ?]
  | |- names_sid (sm_when ?b _) => destruct b; unfold sm_when
  | |- names_sid (let '(_, _) := ?p in _) => destruct p
  | |- names_sid (match ?x with _ => _ end) => destruct x
  | |- names_sid (if ?x then _ else _) => destruct x
  | |- names_sid _ => solve [auto with sid nocore]
  end.

Definition names_at {A} (s : CFdbSession) (m : SM A) : Prop := forall x s' o,
  m s = Some (x, s', o) -> ss_mSid s' = ss_mSid s /\ Forall (fun m => m_mSid m = ss_mSid s) (asked o).

Lemma names_at_sid {A} (m : SM A) : (forall s, names_at s m) -> names_sid m.
Proof. done. Qed.
Lemma names_sid_at {A} (m : SM A) s : names_sid m -> names_at s m.
Proof. intros Hm x s' o. apply Hm. Qed.

Lemma names_at_get {A} (k : CFdbSession -> SM A) s : names_at s (k s) -> names_at s (s ← sm_get; k s).
Proof.
  intros Hk x s' o. unfold mbind, SM_bind, sm_get. destruct (k s s) as [[[y s1] o1]|] eqn:Ek; [|done].
  intros [= <- <- <-]. exact (Hk _ _ _ Ek).
Qed.

Lemma names_at_out x s : Forall (fun m => m_mSid m = ss_mSid s) (asked [x]) -> names_at s (sm_out x).
Proof. intros Hx ? ? ? [= <- <- <-]. by split. Qed.

Lemma names_at_bind {A B} (m : SM A) (k : A -> SM B) s :
  names_at s m -> (forall x, names_sid (k x)) -> names_at s (m ≫= k).
Proof.
  intros Hm Hk y s2 o. unfold mbind, SM_bind. destruct (m s) as [[[x s1] o1]|] eqn:E1; [|done].
  destruct (k x s1) as [[[y' s2'] o2]|] eqn:E2; [|done]. intros [= <- <- <-].
  apply Hm in E1 as [T1 O1]. apply Hk in E2 as [T2 O2]. rewrite T1 in *. split; [done|].
  unfold asked. rewrite omap_app. by apply Forall_app.
Qed.

Section udp_sender.
Context {UE : UdpEnv} {I : Indet}.
#[local] Existing Instances ue_sess udp_session.

Lemma names_udp_send now m : names_sid (udp_sendMessage now m).
Proof. unfold udp_sendMessage, udp_sendMessageTo. solve_sid. Qed.
#[local] Hint Resolve names_udp_send : sid.

Lemma names_sendStatus now code d m : names_sid (sendStatus now code d m).
Proof.
  unfold sendStatus. case_match; [auto with sid|]. apply names_sid_bind; [apply names_udp_send|auto with sid].
Qed.
#[local] Hint Resolve names_sendStatus : sid.

Lemma request_sid now head prefix buffer s logs :
  let m := msg_of_head head prefix (Some buffer) se_epid (ss_mSid s) (ss_mSenderName s) in
  m_mSid (decodeDebugInfo now head (checkLogEnabled (Some logs) (m_set_dest (m_mEpid m) (m_mSid m) (m_mOid m) true m)))
  = ss_mSid s.
Proof. unfold decodeDebugInfo, checkLogEnabled. by repeat case_match. Qed.

Lemma names_guarded now t out m s :
  (forall m, asked [out m] = [m]) -> m_mSid m = ss_mSid s -> names_at s (guarded now t out m).
Proof.
  intros Ho Hm. unfold guarded. case_match; [apply names_at_out; rewrite Ho; by constructor|].
  apply names_sid_at, names_sendStatus.
Qed.

Lemma names_doRequest now head prefix buffer : names_sid (doRequest now head prefix buffer).
Proof.
  apply names_at_sid. intros s. unfold doRequest. apply names_at_get. cbv zeta.
  case_match; [|apply names_sid_at, names_sendStatus].
  pose proof (request_sid now head prefix buffer s b) as Hm. cbv zeta in Hm.
  destruct (mh_mType head); try (by apply names_guarded); try (by apply names_sid_at, names_sid_ret).
  apply names_at_bind; [by apply names_at_out; constructor|]. intros _.
  unfold autoReply. case_match. unfold sm_when. case_match; [apply names_sendStatus|auto with sid].
Qed.

Lemma names_doBroadcast now head prefix buffer : names_sid (doBroadcast now head prefix buffer).
Proof. unfold doBroadcast. apply names_sid_bind; [auto with sid|intros s]. cbv zeta. case_match; auto with sid. Qed.

Lemma names_terminate status reason m : names_sid (terminateMessage status reason m).
Proof.
  unfold terminateMessage. apply names_sid_bind; [|intros _; auto with sid].
  unfold sm_when, complete_out. repeat case_match; auto with sid.
Qed.

Lemma names_doResponse now head prefix buffer : names_sid (doResponse now head prefix buffer).
Proof.
  unfold doResponse. apply names_sid_bind; [auto with sid|intros s]. cbv zeta.
  case_match; [|auto with sid]. case_match.
  - apply names_sid_bind; [apply names_terminate|auto with sid].
  - apply names_sid_bind; [|intros ?; solve_sid].
    case_match; [|auto with sid]. solve_sid; unfold response_out; solve_sid.
Qed.

Lemma names_processPayload now prefix data : names_sid (processPayload now prefix data).
Proof.
  unfold processPayload. case_match; [auto with sid|]. apply names_sid_bind; [auto with sid|intros [head ok]].
  case_match; [auto with sid|]. cbv zeta.
  destruct (mh_mType head); auto using names_doResponse with sid;
    try (apply names_sid_bind; [auto with sid|intros _]; auto using names_doRequest, names_doBroadcast).
  repeat case_match; auto with sid; exact (names_sid_ret tt).
Qed.

(** A datagram counts as sent by the connection whose peer announced the address
    it came from. When none did, the requests in it still reach the objects,
    as requests of the connection the last datagram before it was from. *)
Theorem udp_sender now data peer_ip peer_port s x s' o :
  udp_onInput now (Some (data, peer_ip, peer_port)) s = Some (x, s', o) ->
  let sender := match findTcpSession peer_ip peer_port ue_container with
                | Some t => sv_sid t
                | None => ss_mSid s end in
  Forall (fun m => m_mSid m = sender) (asked o) /\ (asked o <> [] -> ss_mSid s' = sender).
Proof.
  intros Hr sender. revert Hr. unfold udp_onInput. unfold mbind at 1, SM_bind at 1, sm_get.
  destruct (ss_mFatalError s); [by intros [= <- <- <-]|].
  destruct (Z.of_nat (length data) <? mPrefixSize); [by intros [= <- <- <-]|]. cbv zeta.
  unfold mbind at 1, SM_bind at 1, sm_lift. destruct (prefix_deserialize _) as [prefix|]; simpl; [|done].
  destruct (i32 _ <? 0); [by intros [= <- <- <-]|]. unfold mbind, SM_bind, sender.
  destruct (findTcpSession peer_ip peer_port ue_container) as [t|]; simpl;
    destruct (processPayload now prefix _ _) as [[[y s2] o2]|] eqn:E; try done; intros [= <- <- <-];
    apply names_processPayload in E as [Es Eo]; by split.
Qed.
End udp_sender.

(** A remote endpoint that logs nothing, with one connection, whose peer announced port
    7000 of the address 10; the UDP socket accepts everything. *)
Definition lab_view : SessView := mkSessView 5 10 7000 3 false CFdbSocketAddr_new (EmptyString, 0).
Definition lab_container : CFdbSessionContainer :=
  cn_addSession lab_view (cn_set_udp (Some (UdpSocket_new 6000)) 6000 (container_new 1 CFdbSocketAddr_new 6000 false)).
Definition lab_sess : SessEnv :=
  mkSessEnv (mkMsgEnv true false (fun _ _ => false) (fun _ => EmptyString)) 1 FDB_QOS_BEST_EFFORTS false (fun _ => true)
    None (fun m => (false, m)) (fun _ _ => Some false) (fun _ _ => true) (fun m => (m, true)) (fun _ _ => None).
Definition lab_udp : UdpEnv := mkUdpEnv lab_sess lab_container (fun raw _ _ => Z.of_nat (length raw)) (fun _ => Some (10, 7000)).

Definition lab_datagram : list Z :=
  let m := m_set_dest 1 0 1 true (msg_new 7 FDB_QOS_BEST_EFFORTS) in
  default [] (r ← @buildHeader (@se_msg lab_sess) FDB_QOS_BEST_EFFORTS 0 (@serialize_raw (@se_msg lab_sess) [1; 2; 3] None m);
              raw_bytes r.2).

(** The UDP session after a datagram from the peer of session 5. *)
Definition lab_after : CFdbSession :=
  match @udp_onInput lab_udp 0 0 (Some (lab_datagram, 10, 7000)) (CFdbSession_new (-1)) with
  | Some (_, s, _) => s
  | None => CFdbSession_new (-1)
  end.

(** The next datagram is from a stranger: its request names session 5. *)
Lemma udp_sender_witness :
  exists s' o, @udp_onInput lab_udp 0 0 (Some (lab_datagram, 66, 6666)) lab_after = Some (tt, s', o)
    /\ length (asked o) = 1%nat /\ Forall (fun m => m_mSid m = 5) (asked o).
Proof.
  assert (match @udp_onInput lab_udp 0 0 (Some (lab_datagram, 66, 6666)) lab_after with
          | Some (_, _, o) => length (asked o) | None => O end = 1%nat) as Hl by (vm_compute; reflexivity).
  assert (ss_mSid lab_after = 5) as Hsid by (vm_compute; reflexivity).
  revert Hl Hsid. generalize lab_after. intros s Hl Hsid.
  assert (findTcpSession 66 6666 (@ue_container lab_udp) = None) as Hf by reflexivity.
  pose proof (@udp_sender lab_udp 0 0 lab_datagram 66 6666 s tt) as Hs. rewrite Hf, Hsid in Hs. revert Hs Hl.
  generalize (@udp_onInput lab_udp 0 0 (Some (lab_datagram, 66, 6666)) s). intros r Hs Hl.
  destruct r as [[[[] s'] o]|]; [|discriminate Hl]. exists s', o. split; [reflexivity|]. split; [exact Hl|].
  exact (proj1 (Hs s' o eq_refl)).
Defined.

(** A datagram that is too short, from anyone, ends the UDP service of the socket: the
    session is marked as failed and ignores everything from then on. *)
Example short_datagram_ends_udp :
  exists s1, @udp_onInput lab_udp 0 0 (Some ([1; 2; 3], 66, 6666)) (CFdbSession_new (-1)) = Some (tt, s1, [])
  /\ forall received, @udp_onInput lab_udp 0 0 received s1 = Some (tt, s1, []).
Proof. eexists. split; [reflexivity|]. intros received. reflexivity. Qed.

(** *** The level of a datagram *)

(** No operation tells the UDP socket who its peer is. *)
Definition udp_unset (c : CFdbSessionContainer) : Prop :=
  match cn_mUDPSession c with Some u => us_mPeerUDPPort u = FDB_INET_PORT_INVALID | None => True end.

Lemma bind_unset enabled bind ip port c : udp_unset c -> udp_unset (bindUDPSocket enabled bind ip port c).2.
Proof. unfold bindUDPSocket, udp_unset. intros Hc. repeat (case_match; simpl in *; simplify_eq); done. Qed.

(** A container after binding UDP sockets and adding and removing connections. *)
Inductive container_reach : CFdbSessionContainer -> Prop :=
  | cr_new skid socket port secure : container_reach (container_new skid socket port secure)
  | cr_bind c enabled bind ip port : container_reach c -> container_reach (bindUDPSocket enabled bind ip port c).2
  | cr_add c s : container_reach c -> container_reach (cn_addSession s c)
  | cr_remove c s : container_reach c -> container_reach (cn_removeSession s c)
  | cr_update c l : container_reach c -> container_reach (cn_set_sessions l c).

Lemma container_reach_unset c : container_reach c -> udp_unset c.
Proof.
  induction 1 as [|? ? ? ? ? _ IH|? ? _ IH|? ? _ IH|? ? _ IH]; [done|by apply bind_unset| |exact IH|exact IH].
  unfold cn_addSession. case_match; exact IH.
Qed.

(** A datagram never has the level of its sender. The level of a UDP session is
    meant to be that of the connection whose peer sent the datagram, and unknown when
    there is none; it is always "none", so that every peer, known or not, can use
    by UDP exactly what needs no level. *)
Theorem udp_level_is_none c cfg code :
  container_reach c ->
  container_checkSecurityLevel c = FDB_SECURITY_LEVEL_NONE
  /\ (onMessageAuthentication (Some cfg) code FDB_SECURITY_LEVEL_UNKNOWN (container_checkSecurityLevel c) = true
      <-> getMessageSecLevel cfg code <= FDB_SECURITY_LEVEL_NONE).
Proof.
  intros Hc. apply container_reach_unset in Hc.
  assert (container_checkSecurityLevel c = FDB_SECURITY_LEVEL_NONE) as E.
  { unfold container_checkSecurityLevel, udp_unset in *. destruct (cn_mUDPSession c) as [u|]; [|done].
    by rewrite Hc. }
  split; [done|]. rewrite E. unfold onMessageAuthentication. simpl. apply Z.leb_le.
Qed.

Lemma udp_level_is_none_witness :
  let c := cn_addSession lab_view
             (bindUDPSocket true (fun _ _ _ => true) None 6000 (container_new 1 CFdbSocketAddr_new 6000 false)).2 in
  is_Some (cn_mUDPSession c) /\ container_checkSecurityLevel c = FDB_SECURITY_LEVEL_NONE.
Proof.
  split; [by eexists|].
  apply (udp_level_is_none _ CApiSecurityConfig_new 7). apply cr_add, cr_bind, cr_new.
Defined.

(** ** Subscribing to protected events *)

(** An endpoint with the policy [cfg] for a session of a level. *)
Definition endpoint_auth (cfg : option CApiSecurityConfig) (session_level container_level : Z)
    (type : EFdbMessageType) (m : FdbMessage) : bool :=
  match type with
  | FDB_MT_REQUEST => onMessageAuthentication cfg (m_mCode m) session_level container_level
  | FDB_MT_GET_EVENT => onGetEventAuthentication cfg (m_mCode m) session_level container_level
  | FDB_MT_SET_EVENT => onSetEventAuthentication
  | FDB_MT_PUBLISH => onPublishAuthentication
  | _ => true
  end.

Definition subscribe_out (oid : Z) (it : CFdbMsgSubscribeItem) : SessOut :=
  SoSubscribe (su_mCode it) oid (if CFdbMsgSubscribeItem_has_topic it then Some (c_str (su_mFilter it)) else None)
    (su_mFlag it).

Section subscription.
Context {E : SessEnv} {I : Indet}.

Lemma subscribe_items_all oid m items s :
  se_auth FDB_MT_GET_EVENT m = true ->
  subscribe_items true oid m items 0 s = Some (0, s, subscribe_out oid <$> items).
Proof.
  intros Ha. induction items as [|it items IH]; [done|]. cbn [subscribe_items]. rewrite Ha.
  unfold mbind, SM_bind, sm_out, mret, SM_ret. cbn [app]. rewrite IH. done.
Qed.

Lemma request_code now head prefix buffer epid sid sender logs :
  let m := msg_of_head head prefix (Some buffer) epid sid sender in
  m_mCode (decodeDebugInfo now head (checkLogEnabled (Some logs)
    (m_set_type FDB_MT_BROADCAST (m_set_dest (m_mEpid m) (m_mSid m) (m_mOid m) true m)))) = mh_mCode head.
Proof. unfold decodeDebugInfo, checkLogEnabled. by repeat case_match. Qed.

(** The level of an event is not checked when it is subscribed to. A peer whose
    level reaches the one of code 0, the code of every subscribe request, is
    subscribed to every event it lists, whatever levels the policy gives these events. *)
Theorem subscription_ignores_event_level cfg level container_level now head prefix buffer s lst logs :
  (forall m, se_auth FDB_MT_GET_EVENT m = endpoint_auth (Some cfg) level container_level FDB_MT_GET_EVENT m) ->
  (forall m, se_object m true = Some logs) ->
  mh_mCode head = FDB_CODE_SUBSCRIBE ->
  getEventSecLevel cfg FDB_CODE_SUBSCRIBE <= actual_security_level level container_level ->
  msg_parse (msg_of_head head prefix (Some buffer) se_epid (ss_mSid s) (ss_mSenderName s)) (mkMsgTable [])
    = Some (lst, true) ->
  exists m, doSubscribeReq now head prefix buffer true s
    = Some (tt, s, (subscribe_out (mh_mObjId head) <$> mt_mSubscribeTbl lst) ++ [SoDoSubscribe m]).
Proof.
  intros Ha Ho Hc Hl Hp. unfold doSubscribeReq. unfold mbind at 1, SM_bind at 1, sm_get. cbv zeta. rewrite Ho.
  set (m0 := msg_of_head _ _ _ _ _ _).
  set (m := decodeDebugInfo now head (checkLogEnabled (Some logs) _)).
  assert (m_mCode m = FDB_CODE_SUBSCRIBE) as Hm by (rewrite <- Hc; apply request_code).
  assert (msg_parse m (mkMsgTable []) = Some (lst, true)) as ->.
  { rewrite <- Hp. unfold m, decodeDebugInfo, checkLogEnabled. by repeat case_match. }
  assert (se_auth FDB_MT_GET_EVENT m = true) as Hauth.
  { rewrite Ha. simpl. rewrite Hm. by apply Z.leb_le. }
  exists m. unfold mbind, SM_bind, sm_lift. cbn [fmap option_fmap option_map app].
  rewrite (subscribe_items_all _ _ _ _ Hauth). done.
Qed.
End subscription.

(** The policy of the shipped example for events, without its default entry; the session
    has proved no level. *)
Definition lab_policy : CApiSecurityConfig :=
  importSecLevel (Some (Some (json_policy [] example_ranges []))) CApiSecurityConfig_new.

Definition lab_guard : SessEnv :=
  mkSessEnv (@se_msg lab_sess) 1 FDB_QOS_RELIABLE false (fun _ => true) None (fun m => (false, m))
    (fun _ _ => Some false) (endpoint_auth (Some lab_policy) FDB_SECURITY_LEVEL_NONE FDB_SECURITY_LEVEL_NONE)
    (fun m => (m, true)) (fun _ _ => None).

(** A subscribe request for event 450, which needs level 3. *)
Definition lab_item : CFdbMsgSubscribeItem := mkSubscribeItem 450 EmptyString 0 0.
Definition lab_payload : list Z :=
  match builder_build (@scratch (@se_msg lab_sess)) (mkMsgTable [lab_item]) with Some (p, _) => p | None => [] end.
Definition lab_head : CFdbMessageHeader :=
  mkHeader FDB_MT_SUBSCRIBE_REQ 0 FDB_CODE_SUBSCRIBE 0 1 (Z.of_nat (length lab_payload)) EmptyString 0 0 FDB_QOS_RELIABLE 0.

Lemma subscription_ignores_event_level_witness :
  getEventSecLevel lab_policy 450 = 3
  /\ exists m, @doSubscribeReq lab_guard (@tcp_session lab_guard) 0 0 lab_head (mkPrefix 8 0)
       (malloc mPrefixSize ++ lab_payload) true (CFdbSession_new 5)
     = Some (tt, CFdbSession_new 5, [subscribe_out 1 lab_item; SoDoSubscribe m]).
Proof.
  split; [reflexivity|].
  apply (@subscription_ignores_event_level lab_guard 0 lab_policy FDB_SECURITY_LEVEL_NONE FDB_SECURITY_LEVEL_NONE 0
    lab_head (mkPrefix 8 0) (malloc mPrefixSize ++ lab_payload) (CFdbSession_new 5) (mkMsgTable [lab_item]) false);
    try reflexivity; vm_compute; discriminate.
Defined.

(** ** Timers of best-effort requests *)

(** The UDP session numbers a best-effort request in its own table, but the timer of
    the request is bound to the TCP session and this number. Here the first request of a
    connection is reliable, the second is best effort and times out: the job
    that ends is that of the first, and the second stays pending. *)
Definition lab_udp_ref (m : FdbMessage) : bool * FdbMessage :=
  match @udp_sendMessageRef lab_udp 0 m (CFdbSession_new (-1)) with Some (r, _, _) => r | None => (false, m) end.

Definition lab_mixed : SessEnv :=
  mkSessEnv (@se_msg lab_sess) 1 FDB_QOS_RELIABLE false (fun _ => true) (Some (fun m => (true, m))) lab_udp_ref
    (fun _ _ => Some false) (fun _ _ => true) (fun m => (m, true)) (fun _ _ => None).

Definition lab_ask (qos : EFdbQOS) (timer : option Z) : FdbMessage :=
  m_set_timer timer (m_set_dest 1 0 1 true (msg_new 7 qos)).

Example udp_timeout_ends_other_request :
  match @sess_run lab_mixed 0 [EvRequest 0 (lab_ask FDB_QOS_RELIABLE None);
                               EvRequest 0 (lab_ask FDB_QOS_BEST_EFFORTS (Some 1000)); EvTimeout 0]
          (CFdbSession_new 5) with
  | Some (s, acc, o) => acc = [0] /\ terminated o = [0] /\ keys s = []
      /\ omap (fun x => match x with SoTimer sn t => Some (sn, t) | _ => None end) o = [(0, 1000)]
  | None => False
  end.
Proof. vm_compute. split_and!; reflexivity. Qed.

(** ** Frames that lie about their lengths *)

(** The length of the head is taken from the frame and not compared with what was
    received: a head length of 0 makes the parser read without bounds, one that is larger
    than the frame makes it read behind the frame. Both runs are undefined. *)
Example forged_head_length :
  let p := @processPayload lab_guard (@tcp_session lab_guard) 0 0 in
  p (mkPrefix 9 0) [1] (CFdbSession_new 5) = None /\ p (mkPrefix 9 100) [1] (CFdbSession_new 5) = None.
Proof. vm_compute. by split. Qed.
