(* ===== verification/Worker.v ===== *)
(** Worker threads: [CBaseWorker] of src/worker/CBaseWorker.cpp with its job queues, and
    [CBaseJob] of src/public/fdbus/CBaseJob.h.

    A worker takes the jobs out of its two queues and runs them, urgent ones first. Other
    threads, and the jobs themselves, send jobs, ask the worker to discard what is queued
    or to exit. [wk_step] is one such action; the worker thread advances by [WaStep],
    one job or one look at the urgent queue at a time, so that every interleaving with
    the other actions is a sequence of steps. The locks of the code make each of
    these actions atomic. *)
From S2P Require Import Prelude.

(** ** Jobs and queues *)

(** What [run] does: something of the application, [CUnlockJobQueueJob] or
    [CExitRequestJob]. *)
Inductive JobKind := JkUser | JkUnlock | JkExit (code : Z).

Record CBaseJob := mkJob { jb_id : Z; jb_forceRun : bool; jb_kind : JobKind }.

#[export] Instance JobKind_eq : EqDecision JobKind.
Proof. solve_decision. Defined.
#[export] Instance CBaseJob_eq : EqDecision CBaseJob.
Proof. solve_decision. Defined.

Record CJobQueue := mkQueue { jq_mMaxSize : Z; jq_mDiscardCnt : Z; jq_mJobQueue : list CBaseJob }.

Implicit Types q : CJobQueue.

Definition CJobQueue_new (max_size : Z) : CJobQueue := mkQueue max_size 0 [].

Definition jq_size q : Z := Z.of_nat (length (jq_mJobQueue q)).

Definition enqueue (job : CBaseJob) q : bool * CJobQueue :=
  if (jq_mMaxSize q =? 0) || (jq_size q <? jq_mMaxSize q)
  then (true, mkQueue (jq_mMaxSize q) (jq_mDiscardCnt q) (jq_mJobQueue q ++ [job]))
  else (false, q).

Definition dumpJobs q : list CBaseJob * CJobQueue :=
  (jq_mJobQueue q, mkQueue (jq_mMaxSize q) (jq_mDiscardCnt q) []).

Definition jq_discardJobs q : CJobQueue := mkQueue (jq_mMaxSize q) (jq_mDiscardCnt q + 1) (jq_mJobQueue q).
Definition pickupJobs q : CJobQueue :=
  mkQueue (jq_mMaxSize q) (if 0 <? jq_mDiscardCnt q then jq_mDiscardCnt q - 1 else jq_mDiscardCnt q) (jq_mJobQueue q).
Definition jobDiscarded q : bool := 0 <? jq_mDiscardCnt q.
Definition sizeLimit (size : Z) q : CJobQueue := mkQueue size (jq_mDiscardCnt q) (jq_mJobQueue q).

(** ** The worker *)

(** A call of [processJobQueue] in progress: the urgent jobs it is going through, the
    normal jobs it has still to run, and whether it has looked at the urgent queue
    since it ran a normal job. *)
Record JobFrame := mkFrame { fr_urgent : list CBaseJob; fr_normal : list CBaseJob; fr_polled : bool }.

(** [wk_frames]: the calls of [processJobQueue], the innermost first; there is more than
    one when a job calls [flush]. [wk_open_n] and [wk_open_u]: the calls of
    [discardJobs] which have not sent their unlock job yet. *)
Record CBaseWorker := mkWorker {
  wk_mExitCode : Z;
  wk_mNormalJobQueue : CJobQueue;
  wk_mUrgentJobQueue : CJobQueue;
  wk_frames : list JobFrame;
  wk_open_n : nat;
  wk_open_u : nat }.

Implicit Types w : CBaseWorker.

Definition CBaseWorker_new (normal_queue_size urgent_queue_size : Z) : CBaseWorker :=
  mkWorker 0 (CJobQueue_new normal_queue_size) (CJobQueue_new urgent_queue_size) [] 0 0.

Definition wk_queue (urgent : bool) w : CJobQueue := if urgent then wk_mUrgentJobQueue w else wk_mNormalJobQueue w.

Definition wk_set_queue (urgent : bool) q w : CBaseWorker :=
  mkWorker (wk_mExitCode w) (if urgent then wk_mNormalJobQueue w else q) (if urgent then q else wk_mUrgentJobQueue w)
    (wk_frames w) (wk_open_n w) (wk_open_u w).
Definition wk_set_frames (f : list JobFrame) w : CBaseWorker :=
  mkWorker (wk_mExitCode w) (wk_mNormalJobQueue w) (wk_mUrgentJobQueue w) f (wk_open_n w) (wk_open_u w).
Definition wk_open (urgent : bool) w : nat := if urgent then wk_open_u w else wk_open_n w.
Definition wk_set_open (urgent : bool) (n : nat) w : CBaseWorker :=
  mkWorker (wk_mExitCode w) (wk_mNormalJobQueue w) (wk_mUrgentJobQueue w) (wk_frames w)
    (if urgent then wk_open_n w else n) (if urgent then n else wk_open_u w).

Definition jobQueued w : bool := negb (jq_size (wk_mNormalJobQueue w) =? 0) || negb (jq_size (wk_mUrgentJobQueue w) =? 0).

Definition doExit (exit_code : Z) w : CBaseWorker :=
  mkWorker exit_code (wk_mNormalJobQueue w) (wk_mUrgentJobQueue w) (wk_frames w) (wk_open_n w) (wk_open_u w).

Definition updateDiscardStatus (discard urgent : bool) w : CBaseWorker :=
  let q := wk_queue urgent w in
  wk_set_queue urgent (if discard then jq_discardJobs q else pickupJobs q) w.

Definition wk_send (job : CBaseJob) (urgent : bool) w : bool * CBaseWorker :=
  if negb (wk_mExitCode w =? 0) then (false, w) else
  let '(ok, q) := enqueue job (wk_queue urgent w) in
  (ok, wk_set_queue urgent q w).

(** [run] of a job, in the queue [urgent] tells. *)
Definition job_run (job : CBaseJob) (urgent : bool) w : CBaseWorker :=
  match jb_kind job with
  | JkUser => w
  | JkUnlock => updateDiscardStatus false urgent w
  | JkExit code => doExit code w
  end.

(** [runOneJob]: then the job ends. *)
Definition runOneJob (job : CBaseJob) (urgent run_job : bool) w : CBaseWorker :=
  if run_job then job_run job urgent w else w.

Definition run_urgent (job : CBaseJob) w : bool := negb (jobDiscarded (wk_mUrgentJobQueue w)) || jb_forceRun job.
Definition run_normal (job : CBaseJob) w : bool :=
  (negb (jobDiscarded (wk_mNormalJobQueue w)) || jb_forceRun job) && (wk_mExitCode w =? 0).

(** What happened to a job when its turn came: the queue it was in, and whether it ran. *)
Record JobEnd := mkEnd { je_job : CBaseJob; je_urgent : bool; je_ran : bool }.

(** [processJobQueue] is entered: both queues are emptied under the lock. *)
Definition processJobQueue w : CBaseWorker :=
  let '(normal_jobs, nq) := dumpJobs (wk_mNormalJobQueue w) in
  let '(urgent_jobs, uq) := dumpJobs (wk_mUrgentJobQueue w) in
  wk_set_frames (mkFrame urgent_jobs normal_jobs false :: wk_frames w)
    (wk_set_queue false nq (wk_set_queue true uq w)).

(** One step of the innermost call: the next urgent job it has taken, a look at the
    urgent queue, the next normal job, or its end. *)
Definition process_step w : CBaseWorker * list JobEnd :=
  match wk_frames w with
  | [] => (w, [])
  | mkFrame urgent normal polled :: frames =>
      match urgent with
      | j :: urgent =>
          let run := run_urgent j w in
          (runOneJob j true run (wk_set_frames (mkFrame urgent normal polled :: frames) w), [mkEnd j true run])
      | [] =>
          if polled then
            match normal with
            | j :: normal =>
                let run := run_normal j w in
                (runOneJob j false run (wk_set_frames (mkFrame [] normal false :: frames) w), [mkEnd j false run])
            | [] => (wk_set_frames frames w, [])
            end
          else
            let '(jobs, uq) := dumpJobs (wk_mUrgentJobQueue w) in
            (wk_set_frames (mkFrame jobs normal true :: frames) (wk_set_queue true uq w), [])
      end
  end.

(** The actions of the threads. [WaSend] sends a job of the application. [WaDiscardBegin] and [WaDiscardEnd] are the two halves of
    [discardJobs]; [WaDispatch] is the event loop calling [processJobQueue], which [CBaseWorker::run]
    lets it do until there is an exit code, and
    [WaFlush] a running job doing so through [flush]. *)
Inductive WkAction :=
  | WaSend (id : Z) (force urgent : bool)
  | WaDiscardBegin (urgent : bool)
  | WaDiscardEnd (id : Z) (urgent : bool)
  | WaExit (id code : Z)
  | WaDispatch
  | WaFlush
  | WaStep.

Definition user_job (id : Z) (force : bool) : CBaseJob := mkJob id force JkUser.
Definition unlock_job (id : Z) : CBaseJob := mkJob id true JkUnlock.
Definition exit_job (id code : Z) : CBaseJob := mkJob id true (JkExit code).

(** The second half of [discardJobs]. *)
Definition discard_end (id : Z) (urgent : bool) w : CBaseWorker :=
  match wk_open urgent w with
  | O => w
  | S n =>
      let '(ok, w) := wk_send (unlock_job id) urgent (wk_set_open urgent n w) in
      if (ok : bool) then w else updateDiscardStatus false urgent w
  end.

Definition wk_step (a : WkAction) w : CBaseWorker * list JobEnd :=
  match a with
  | WaSend id force urgent => ((wk_send (user_job id force) urgent w).2, [])
  | WaDiscardBegin urgent => (updateDiscardStatus true urgent (wk_set_open urgent (S (wk_open urgent w)) w), [])
  | WaDiscardEnd id urgent => (discard_end id urgent w, [])
  | WaExit id code => ((wk_send (exit_job id code) false w).2, [])
  | WaDispatch => (match wk_frames w with
                   | [] => if wk_mExitCode w =? 0 then processJobQueue w else w
                   | _ => w
                   end, [])
  | WaFlush => (match wk_frames w with [] => w | _ => processJobQueue w end, [])
  | WaStep => process_step w
  end.

Fixpoint wk_run (acts : list WkAction) w : CBaseWorker * list JobEnd :=
  match acts with
  | [] => (w, [])
  | a :: acts => let '(w, o1) := wk_step a w in let '(w, o2) := wk_run acts w in (w, o1 ++ o2)
  end.

(** ** What is accepted, pending and ended *)

(** The jobs an action puts into the queue [u]. *)
Definition accepts (u : bool) (a : WkAction) w : list CBaseJob :=
  let try (job : CBaseJob) (urgent : bool) (w : CBaseWorker) :=
    if (eqb urgent u && (wk_send job urgent w).1)%bool then [job] else [] in
  match a with
  | WaSend id force urgent => try (user_job id force) urgent w
  | WaDiscardEnd id urgent =>
      match wk_open urgent w with O => [] | S n => try (unlock_job id) urgent (wk_set_open urgent n w) end
  | WaExit id code => try (exit_job id code) false w
  | _ => []
  end.

Fixpoint accepted (u : bool) (acts : list WkAction) w : list CBaseJob :=
  match acts with
  | [] => []
  | a :: acts => accepts u a w ++ accepted u acts (wk_step a w).1
  end.

Definition fr_jobs (u : bool) (f : JobFrame) : list CBaseJob := if u then fr_urgent f else fr_normal f.

(** The jobs sent to the queue [u] which have not had their turn: those the calls of
    [processJobQueue] have taken, then those in the queue. *)
Definition pending (u : bool) w : list CBaseJob := (wk_frames w ≫= fr_jobs u) ++ jq_mJobQueue (wk_queue u w).

Definition ended (u : bool) (outs : list JobEnd) : list CBaseJob :=
  je_job <$> filter (fun o => je_urgent o = u) outs.

Definition is_flush (a : WkAction) : bool := match a with WaFlush => true | _ => false end.
Definition no_flush (acts : list WkAction) : bool := negb (existsb is_flush acts).

Lemma ended_app u o1 o2 : ended u (o1 ++ o2) = ended u o1 ++ ended u o2.
Proof. unfold ended. by rewrite filter_app, fmap_app. Qed.

Lemma wk_run_cons a acts w :
  wk_run (a :: acts) w = ((wk_run acts (wk_step a w).1).1, (wk_step a w).2 ++ (wk_run acts (wk_step a w).1).2).
Proof. simpl. destruct (wk_step a w) as [w1 o1]. simpl. destruct (wk_run acts w1) as [w2 o2]. done. Qed.

Lemma wk_run_app acts1 acts2 w :
  wk_run (acts1 ++ acts2) w = ((wk_run acts2 (wk_run acts1 w).1).1, (wk_run acts1 w).2 ++ (wk_run acts2 (wk_run acts1 w).1).2).
Proof.
  revert w. induction acts1 as [|a acts IH]; intros w; [apply surjective_pairing|].
  rewrite <- app_comm_cons, !wk_run_cons. simpl. rewrite IH. simpl. by rewrite app_assoc.
Qed.

Lemma wk_queue_set u u' q w : wk_queue u (wk_set_queue u' q w) = if eqb u' u then q else wk_queue u w.
Proof. by destruct u, u'. Qed.

Lemma wk_queue_frames u f w : wk_queue u (wk_set_frames f w) = wk_queue u w.
Proof. by destruct u. Qed.

Lemma wk_queue_open u u' n w : wk_queue u (wk_set_open u' n w) = wk_queue u w.
Proof. by destruct u. Qed.

(** The list of jobs of a queue changes only by [enqueue] and [dumpJobs]. *)
Lemma jobs_updateDiscardStatus d u u' w :
  jq_mJobQueue (wk_queue u (updateDiscardStatus d u' w)) = jq_mJobQueue (wk_queue u w).
Proof. unfold updateDiscardStatus. by destruct u, u', d. Qed.

Lemma frames_updateDiscardStatus d u w : wk_frames (updateDiscardStatus d u w) = wk_frames w.
Proof. done. Qed.

Lemma jobs_runOneJob u j u' run w : jq_mJobQueue (wk_queue u (runOneJob j u' run w)) = jq_mJobQueue (wk_queue u w).
Proof.
  destruct run; [|done]. simpl. unfold job_run.
  destruct (jb_kind j); [done|apply jobs_updateDiscardStatus|by destruct u].
Qed.

Lemma frames_runOneJob j u' run w : wk_frames (runOneJob j u' run w) = wk_frames w.
Proof. destruct run; [|done]. simpl. unfold job_run. by destruct (jb_kind j). Qed.

Lemma pending_runOneJob u j u' run w : pending u (runOneJob j u' run w) = pending u w.
Proof. unfold pending. by rewrite jobs_runOneJob, frames_runOneJob. Qed.

Lemma pending_updateDiscardStatus u d u' w : pending u (updateDiscardStatus d u' w) = pending u w.
Proof. unfold pending. by rewrite jobs_updateDiscardStatus, frames_updateDiscardStatus. Qed.

Lemma pending_send u job urgent w :
  pending u (wk_send job urgent w).2 = pending u w ++ (if eqb urgent u && (wk_send job urgent w).1 then [job] else []).
Proof.
  unfold wk_send, pending. destruct (wk_mExitCode w =? 0); simpl; [|by rewrite andb_false_r, app_nil_r].
  unfold enqueue. destruct (_ || _); simpl; rewrite wk_queue_set; destruct urgent, u; simpl;
    rewrite ?app_nil_r, ?app_assoc; done.
Qed.

Lemma frames_send job urgent w : wk_frames (wk_send job urgent w).2 = wk_frames w.
Proof. unfold wk_send. destruct (negb _); [done|]. by destruct (enqueue _ _). Qed.

Lemma pending_discard_end u id urgent w :
  pending u (discard_end id urgent w) = pending u w ++ accepts u (WaDiscardEnd id urgent) w.
Proof.
  unfold discard_end. simpl. destruct (wk_open urgent w) as [|n]; [by rewrite app_nil_r|].
  pose proof (pending_send u (unlock_job id) urgent (wk_set_open urgent n w)) as H.
  replace (pending u (wk_set_open urgent n w)) with (pending u w) in H by (unfold pending; by rewrite wk_queue_open).
  destruct (wk_send _ _ _) as [[] w']; simpl in *; [done|]. by rewrite pending_updateDiscardStatus.
Qed.

Lemma frames_discard_end id urgent w : wk_frames (discard_end id urgent w) = wk_frames w.
Proof.
  unfold discard_end. destruct (wk_open urgent w) as [|n]; [done|].
  pose proof (frames_send (unlock_job id) urgent (wk_set_open urgent n w)) as H.
  by destruct (wk_send _ _ _) as [[] w'].
Qed.

(** Every action but [WaFlush] keeps at most one call of [processJobQueue]. *)
Lemma frames_step a w :
  is_flush a = false -> (length (wk_frames w) <= 1)%nat -> (length (wk_frames (wk_step a w).1) <= 1)%nat.
Proof.
  destruct a as [id force u|u|id u|id code| | |]; simpl; intros Hf Hl; try done.
  - by rewrite frames_send.
  - by rewrite frames_discard_end.
  - by rewrite frames_send.
  - destruct (wk_frames w) eqn:Hw; [destruct (_ =? 0); simpl; rewrite ?Hw; simpl; lia|by rewrite Hw].
  - unfold process_step. destruct (wk_frames w) as [|[[|j l] [|k m] []] fs] eqn:Hw; simpl in *;
      rewrite ?frames_runOneJob; simpl; rewrite ?Hw; simpl; lia.
Qed.

(** Entering [processJobQueue] moves the queued jobs in front of what other calls of it
    have taken. *)
Lemma pending_processJobQueue u w :
  pending u (processJobQueue w) = jq_mJobQueue (wk_queue u w) ++ (wk_frames w ≫= fr_jobs u).
Proof.
  unfold pending, processJobQueue. simpl.
  rewrite wk_queue_frames. destruct u; simpl; by rewrite app_nil_r.
Qed.

(** One step ends the first pending job of a queue or leaves what is pending. *)
Lemma pending_process_step u w :
  (length (wk_frames w) <= 1)%nat -> ended u (process_step w).2 ++ pending u (process_step w).1 = pending u w.
Proof.
  unfold process_step. destruct (wk_frames w) as [|[[|j l] [|k m] []] [|f fs]] eqn:Hw; intros Hl; simpl in Hl;
    try lia; try done; cbn [fst snd]; rewrite ?pending_runOneJob; unfold pending, ended; rewrite ?Hw;
    destruct u; simpl; rewrite ?app_nil_r; try done; by rewrite ?wk_queue_frames.
Qed.

Lemma pending_step u a w :
  is_flush a = false -> (length (wk_frames w) <= 1)%nat ->
  ended u (wk_step a w).2 ++ pending u (wk_step a w).1 = pending u w ++ accepts u a w.
Proof.
  destruct a as [id force urgent|urgent|id urgent|id code| | |]; intros Hf Hl; try done.
  - apply pending_send.
  - simpl. rewrite app_nil_r, pending_updateDiscardStatus. unfold pending. by rewrite wk_queue_open.
  - apply pending_discard_end.
  - apply pending_send.
  - simpl. rewrite app_nil_r. destruct (wk_frames w) eqn:Hw; [|done]. destruct (_ =? 0); [|done].
    rewrite pending_processJobQueue. unfold pending. rewrite Hw. simpl. by rewrite app_nil_r.
  - simpl. rewrite app_nil_r. by apply pending_process_step.
Qed.

(** With several calls in progress the order between them is lost. *)
Lemma pending_step_perm u a w : ended u (wk_step a w).2 ++ pending u (wk_step a w).1 ≡ₚ pending u w ++ accepts u a w.
Proof.
  destruct a as [id force urgent|urgent|id urgent|id code| | |].
  - simpl. rewrite pending_send. reflexivity.
  - simpl. rewrite app_nil_r, pending_updateDiscardStatus. unfold pending. by rewrite wk_queue_open.
  - simpl. by rewrite pending_discard_end.
  - simpl. rewrite pending_send. reflexivity.
  - simpl. rewrite app_nil_r. destruct (wk_frames w) eqn:Hw; [|done]. destruct (_ =? 0); [|done].
    rewrite pending_processJobQueue. unfold pending. rewrite Hw. simpl. by rewrite app_nil_r.
  - simpl. rewrite app_nil_r. destruct (wk_frames w) eqn:Hw; [done|].
    rewrite pending_processJobQueue. unfold pending. rewrite Hw. apply Permutation_app_comm.
  - simpl. rewrite app_nil_r. unfold process_step.
    destruct (wk_frames w) as [|[[|j l] [|k m] []] fs] eqn:Hw; try done; cbn [fst snd];
      rewrite ?pending_runOneJob; unfold pending, ended; rewrite ?Hw, ?wk_queue_frames; destruct u; simpl;
      rewrite ?app_nil_r, ?wk_queue_frames; first [done|solve_Permutation].
Qed.

Lemma no_flush_cons a acts : no_flush (a :: acts) = true <-> is_flush a = false /\ no_flush acts = true.
Proof. unfold no_flush. simpl. destruct (is_flush a); simpl; split; [done|by intros [? _]|done|by intros [_ ?]]. Qed.

(** C28: Every job a worker accepts has its turn at most once and none is lost or made
    up, whatever the other threads and the jobs themselves do in between: at any time
    the jobs accepted into a queue are those which have had their turn and those
    pending. Unless a job flushes its own worker, they have their turn in the order in
    which they were accepted. *)
Theorem worker_jobs_once u acts w :
  (length (wk_frames w) <= 1)%nat ->
  let '(w', outs) := wk_run acts w in
  ended u outs ++ pending u w' ≡ₚ pending u w ++ accepted u acts w /\
  (no_flush acts = true -> ended u outs ++ pending u w' = pending u w ++ accepted u acts w).
Proof.
  intros Hl. destruct (wk_run acts w) as [w' outs] eqn:E.
  change w' with (w', outs).1. change outs with (w', outs).2 at 1 3. rewrite <- E. clear E w' outs. split.
  - clear Hl. revert w. induction acts as [|a acts IH]; intros w; [by rewrite app_nil_r|].
    rewrite wk_run_cons. simpl. rewrite ended_app, <- app_assoc, IH, !app_assoc. f_equiv. apply pending_step_perm.
  - revert w Hl. induction acts as [|a acts IH]; intros w Hl Hf; [by rewrite app_nil_r|].
    apply no_flush_cons in Hf as [Ha Hf].
    rewrite wk_run_cons. simpl. rewrite ended_app, <- app_assoc, IH by (done || by apply frames_step).
    by rewrite !app_assoc, pending_step.
Qed.

(** *** Priority of urgent jobs *)

(** Whether a normal job may still start before the first [k] pending urgent jobs have had
    their turn: the look at the urgent queue which precedes it is done and some of
    them were queued after it. *)
Definition may_overtake (k : nat) w : nat :=
  match wk_frames w with
  | mkFrame urgent _ true :: _ => if decide (length urgent < k)%nat then 1%nat else 0%nat
  | _ => 0%nat
  end.

Lemma may_overtake_frames k w w' : wk_frames w = wk_frames w' -> may_overtake k w = may_overtake k w'.
Proof. unfold may_overtake. by intros ->. Qed.

Lemma may_overtake_le k w : (may_overtake k w <= 1)%nat.
Proof. unfold may_overtake. destruct (wk_frames w) as [|[? ? []] ?]; repeat case_decide; lia. Qed.

(** The number of the [k] urgent jobs left falls with every urgent job, and a normal job
    uses up the one chance. *)
Lemma overtake_process_step k w :
  (length (wk_frames w) <= 1)%nat -> (0 < k <= length (pending true w))%nat ->
  (length (ended true (process_step w).2) < k)%nat ->
  (length (ended false (process_step w).2) + may_overtake (k - length (ended true (process_step w).2)) (process_step w).1
     <= may_overtake k w)%nat.
Proof.
  unfold process_step, pending, may_overtake.
  destruct (wk_frames w) as [|[[|j l] [|j' m] []] [|f fs]] eqn:Hw; simpl; intros Hl Hk; try lia; intros He;
    rewrite ?frames_runOneJob, ?Hw; simpl; rewrite ?length_app in Hk; simpl in *; repeat case_decide; simpl in *; try lia.
Qed.

Lemma overtake_step k a w :
  is_flush a = false -> (length (wk_frames w) <= 1)%nat -> (0 < k <= length (pending true w))%nat ->
  (length (ended true (wk_step a w).2) < k)%nat ->
  (length (ended false (wk_step a w).2) + may_overtake (k - length (ended true (wk_step a w).2)) (wk_step a w).1
     <= may_overtake k w)%nat.
Proof.
  destruct a as [id force u|u|id u|id code| | |]; intros Hf Hl Hk He; try done; try by apply overtake_process_step.
  all: simpl; rewrite Nat.sub_0_r.
  - by rewrite (may_overtake_frames k _ w) by apply frames_send.
  - done.
  - by rewrite (may_overtake_frames k _ w) by apply frames_discard_end.
  - by rewrite (may_overtake_frames k _ w) by apply frames_send.
  - destruct (wk_frames w) as [|f fs] eqn:Hw; [|done]. destruct (_ =? 0); [|done].
    unfold may_overtake at 1. simpl. lia.
Qed.

(** Urgent jobs go first: at whatever moment, until all the urgent jobs pending
    at that moment have had their turn at most one normal job has one, provided no job
    flushes its own worker. *)
Theorem urgent_first acts w :
  (length (wk_frames w) <= 1)%nat -> no_flush acts = true ->
  (length (ended true (wk_run acts w).2) < length (pending true w))%nat ->
  (length (ended false (wk_run acts w).2) <= 1)%nat.
Proof.
  intros Hl Hf He. etrans; [|apply (may_overtake_le (length (pending true w)) w)].
  remember (length (pending true w)) as k eqn:Hk. apply Nat.eq_le_incl in Hk. revert w k Hl Hf Hk He.
  induction acts as [|a acts IH]; intros w k Hl Hf Hk He; [simpl; lia|].
  apply no_flush_cons in Hf as [Ha Hf]. rewrite wk_run_cons in *. simpl in *.
  rewrite ended_app, length_app in *. etrans; [|apply overtake_step; try done; lia].
  apply Nat.add_le_mono_l, IH; try done; [by apply frames_step| |lia].
  pose proof (f_equal length (pending_step true a w Ha Hl)) as Hp. rewrite !length_app in Hp. lia.
Qed.

(** *** Discarding jobs *)

Definition is_unlock (j : CBaseJob) : bool := match jb_kind j with JkUnlock => true | _ => false end.
Definition unlocks (l : list CBaseJob) : nat := length (filter is_unlock l).

(** A job of the worker's own is forced to run, and exit jobs are not urgent. *)
Definition job_wf (u : bool) (j : CBaseJob) : Prop :=
  match jb_kind j with JkUser => True | JkUnlock => jb_forceRun j = true | JkExit _ => u = false end.

(** Until the worker exits, a queue is told to discard once for every unlock job on its
    way and every [discardJobs] which is about to send one. *)
Record discard_ok w : Prop := {
  dk_wf : forall u, Forall (job_wf u) (pending u w);
  dk_cnt : wk_mExitCode w = 0 -> forall u,
    jq_mDiscardCnt (wk_queue u w) = Z.of_nat (unlocks (pending u w) + wk_open u w) }.

Lemma unlocks_app l1 l2 : unlocks (l1 ++ l2) = (unlocks l1 + unlocks l2)%nat.
Proof. unfold unlocks. by rewrite filter_app, length_app. Qed.

Lemma unlocks_cons j l : unlocks (j :: l) = ((if is_unlock j then 1 else 0) + unlocks l)%nat.
Proof. unfold unlocks. rewrite filter_cons. by destruct (is_unlock j); repeat case_decide. Qed.

Lemma unlocks_perm l1 l2 : l1 ≡ₚ l2 -> unlocks l1 = unlocks l2.
Proof. intros H. unfold unlocks. by rewrite H. Qed.

Lemma cnt_update d u u' w :
  jq_mDiscardCnt (wk_queue u (updateDiscardStatus d u' w)) =
  if eqb u' u then jq_mDiscardCnt (if d then jq_discardJobs (wk_queue u w) else pickupJobs (wk_queue u w))
  else jq_mDiscardCnt (wk_queue u w).
Proof. unfold updateDiscardStatus. rewrite wk_queue_set. by destruct u, u', d. Qed.

Lemma cnt_send u job urgent w : jq_mDiscardCnt (wk_queue u (wk_send job urgent w).2) = jq_mDiscardCnt (wk_queue u w).
Proof.
  unfold wk_send, enqueue. destruct (negb _); [done|]. destruct (_ || _); simpl; rewrite wk_queue_set; by destruct u, urgent.
Qed.

Lemma exit_send job urgent w : wk_mExitCode (wk_send job urgent w).2 = wk_mExitCode w.
Proof. unfold wk_send. destruct (negb _); [done|]. by destruct (enqueue _ _). Qed.

Lemma open_send u job urgent w : wk_open u (wk_send job urgent w).2 = wk_open u w.
Proof. unfold wk_send. destruct (negb _); [done|]. by destruct (enqueue _ _). Qed.

Lemma open_set_open u u' n w : wk_open u (wk_set_open u' n w) = if eqb u' u then n else wk_open u w.
Proof. by destruct u, u'. Qed.

Lemma pickup_pos q n : jq_mDiscardCnt q = Z.of_nat (S n) -> jq_mDiscardCnt (pickupJobs q) = Z.of_nat n.
Proof. unfold pickupJobs. simpl. intros ->. destruct (Z.ltb_spec 0 (Z.of_nat (S n))); lia. Qed.

(** What one action ends in a queue, and when it runs it. *)
Lemma step_end u a w :
  filter (fun o => je_urgent o = u) (wk_step a w).2 = [] \/
  exists e, filter (fun o => je_urgent o = u) (wk_step a w).2 = [e] /\
    je_ran e = (negb (jobDiscarded (wk_queue u w)) || jb_forceRun (je_job e)) && (u || (wk_mExitCode w =? 0)).
Proof.
  destruct a; try by left. simpl. unfold process_step.
  destruct (wk_frames w) as [|[[|j l] [|k m] []] fs]; try by left.
  all: destruct u; simpl; first [by left|right; eexists; split; [reflexivity|]]; simpl; by rewrite ?andb_true_r.
Qed.

Lemma accepts_wf u a w : Forall (job_wf u) (accepts u a w).
Proof.
  destruct a as [id force urgent|urgent|id urgent|id code| | |]; simpl; try done.
  - case_match; repeat constructor.
  - destruct (wk_open urgent w); [done|]. case_match; repeat constructor.
  - case_match eqn:E; [|done]. apply andb_true_iff in E as [E _]. repeat constructor. by destruct u.
Qed.

Lemma pending_wf_step u a w : Forall (job_wf u) (pending u w) -> Forall (job_wf u) (pending u (wk_step a w).1).
Proof.
  intros H. pose proof (pending_step_perm u a w) as P.
  assert (Forall (job_wf u) (pending u w ++ accepts u a w)) as H2 by (apply Forall_app_2; [done|apply accepts_wf]).
  rewrite <- P in H2. by apply Forall_app in H2 as [_ H2].
Qed.

(** The job whose turn it is: the count, the pending unlock jobs and the exit code. *)
Lemma discard_ok_runOneJob j u run w :
  let w0 := runOneJob j u run w in
  job_wf u j -> (jb_forceRun j = true -> (u || (wk_mExitCode w =? 0)) = true -> run = true) ->
  (u = false -> wk_mExitCode w <> 0 -> run = false) ->
  (wk_mExitCode w = 0 -> forall u', jq_mDiscardCnt (wk_queue u' w) =
     Z.of_nat (unlocks (if eqb u u' then j :: pending u' w else pending u' w) + wk_open u' w)) ->
  wk_mExitCode w0 = 0 -> forall u', jq_mDiscardCnt (wk_queue u' w0) = Z.of_nat (unlocks (pending u' w0) + wk_open u' w0).
Proof.
  intros w0 Hj Hrun Hno Hc He u'. subst w0. unfold job_wf in Hj.
  rewrite pending_runOneJob. destruct run; simpl in *.
  - unfold job_run in *. destruct (jb_kind j) eqn:Hk.
    + rewrite (Hc He). destruct (eqb u u'); [|done]. rewrite unlocks_cons. unfold is_unlock at 1. by rewrite Hk.
    + specialize (Hc He u'). rewrite cnt_update. destruct (eqb u u'); [|done].
      rewrite unlocks_cons in Hc. unfold is_unlock at 1 in Hc. rewrite Hk in Hc. by apply pickup_pos.
    + subst u. destruct (decide (wk_mExitCode w = 0)) as [E|E]; [|by specialize (Hno eq_refl E)].
      specialize (Hc E u'). replace (wk_queue u' (doExit code w)) with (wk_queue u' w) by by destruct u'.
      rewrite Hc. destruct (eqb _ u'); [|done]. rewrite unlocks_cons. unfold is_unlock at 1. by rewrite Hk.
  - rewrite (Hc He). destruct (eqb u u'); [|done]. rewrite unlocks_cons. unfold is_unlock at 1.
    destruct (jb_kind j); [done| |done]. rewrite He, orb_true_r in Hrun. by specialize (Hrun Hj eq_refl).
Qed.

Lemma exit_runOneJob_back j u run w :
  job_wf u j -> (u = false -> wk_mExitCode w <> 0 -> run = false) ->
  wk_mExitCode (runOneJob j u run w) = 0 -> wk_mExitCode w = 0.
Proof.
  intros Hj Hno. destruct run; [|done]. simpl. unfold job_run, job_wf in *. destruct (jb_kind j); [done|done|].
  intros _. subst u. destruct (decide (wk_mExitCode w = 0)) as [|E]; [done|]. by specialize (Hno eq_refl E).
Qed.

Lemma run_normal_force j w : jb_forceRun j = true -> (wk_mExitCode w =? 0) = true -> run_normal j w = true.
Proof. unfold run_normal. intros -> ->. by rewrite orb_true_r. Qed.

Lemma run_normal_exit j w : wk_mExitCode w <> 0 -> run_normal j w = false.
Proof. unfold run_normal. intros H. by rewrite (proj2 (Z.eqb_neq _ _) H), andb_false_r. Qed.

Lemma run_urgent_force j w : jb_forceRun j = true -> run_urgent j w = true.
Proof. unfold run_urgent. intros ->. by rewrite orb_true_r. Qed.

Lemma pending_same_cnt (w w' : CBaseWorker) :
  (forall u, pending u w' ≡ₚ pending u w) -> (forall u, jq_mDiscardCnt (wk_queue u w') = jq_mDiscardCnt (wk_queue u w)) ->
  (forall u, wk_open u w' = wk_open u w) -> wk_mExitCode w' = wk_mExitCode w -> discard_ok w -> discard_ok w'.
Proof.
  intros Hp Hc Ho He [Hwf Hcnt]. split.
  - intros u. by rewrite Hp.
  - intros E u. rewrite He in E. by rewrite Hc, Ho, (unlocks_perm _ _ (Hp u)), Hcnt.
Qed.

(** The exit code, once set, stays. *)
Lemma exit_step a w :
  discard_ok w -> wk_mExitCode (wk_step a w).1 = 0 -> wk_mExitCode w = 0.
Proof.
  intros [Hwf _]. destruct a as [id force urgent|urgent|id urgent|id code| | |]; simpl; try done.
  - by rewrite exit_send.
  - unfold discard_end. destruct (wk_open urgent w) as [|n]; [done|].
    pose proof (exit_send (unlock_job id) urgent (wk_set_open urgent n w)) as H.
    destruct (wk_send _ _ _) as [[] w']; simpl in *; by rewrite H.
  - by rewrite exit_send.
  - destruct (wk_frames w); [|done]. by destruct (_ =? 0).
  - by destruct (wk_frames w).
  - unfold process_step, pending in *. destruct (wk_frames w) as [|[[|j l] [|k m] []] fs]; simpl; try done.
    all: intros E; match type of E with wk_mExitCode (runOneJob ?j ?u ?r ?w') = 0 =>
      apply (exit_runOneJob_back j u r w'); [by specialize (Hwf u); simpl in Hwf; inversion Hwf| |done] end;
      try done; intros _; apply (run_normal_exit _ w).
Qed.

Lemma discard_ok_process w : discard_ok w -> discard_ok (process_step w).1.
Proof.
  intros Hok. split; [intros u; apply (pending_wf_step u WaStep), Hok|].
  destruct Hok as [Hwf Hcnt]. unfold process_step.
  destruct (wk_frames w) as [|[[|j l] [|k m] []] fs] eqn:Hw; cbn [fst]; try done.
  all: try (apply discard_ok_runOneJob;
    [match goal with |- job_wf ?u _ => specialize (Hwf u); unfold pending in Hwf; rewrite Hw in Hwf; by inversion Hwf end
    |intros; first [by apply run_urgent_force|by apply run_normal_force]
    |intros; first [done|by apply run_normal_exit]
    |]).
  all: simpl; intros E u'; specialize (Hcnt E u'); unfold pending in *; rewrite Hw in Hcnt; destruct u'; simpl in *; try done.
  all: rewrite Hcnt, app_nil_r, !unlocks_app; lia.
Qed.

Lemma discard_ok_discard_end id urgent w : discard_ok w -> discard_ok (discard_end id urgent w).
Proof.
  intros Hok. split; [intros u; apply (pending_wf_step u (WaDiscardEnd id urgent)), Hok|].
  destruct Hok as [_ Hcnt]. intros E u. rewrite pending_discard_end, unlocks_app.
  unfold discard_end in *. simpl. destruct (wk_open urgent w) as [|n] eqn:Ho; [rewrite Hcnt by done; simpl; change (unlocks []) with 0%nat; lia|].
  set (w1 := wk_set_open urgent n w) in *.
  assert (jq_mDiscardCnt (wk_queue u w1) = jq_mDiscardCnt (wk_queue u w)) as Hq by (subst w1; by rewrite wk_queue_open).
  pose proof (exit_send (unlock_job id) urgent w1) as He. pose proof (cnt_send u (unlock_job id) urgent w1) as Hs.
  pose proof (open_send u (unlock_job id) urgent w1) as Hop. subst w1. rewrite open_set_open in Hop.
  destruct (wk_send _ _ _) as [ok w'] eqn:Es. simpl in *. assert (wk_mExitCode w = 0) as Ew by (rewrite <- He; by destruct ok).
  specialize (Hcnt Ew u). destruct ok; simpl in *.
  - rewrite Hs, Hop, Hq, Hcnt, andb_true_r. destruct (eqb_spec urgent u) as [<-|]; [|simpl; change (unlocks []) with 0%nat; lia].
    rewrite Ho. change (unlocks [unlock_job id]) with 1%nat. lia.
  - rewrite andb_false_r, cnt_update. destruct (eqb_spec urgent u) as [<-|].
    + rewrite (pickup_pos _ (unlocks (pending urgent w) + n)).
      { change (wk_open urgent (updateDiscardStatus false urgent w')) with (wk_open urgent w'). rewrite Hop. change (unlocks []) with 0%nat. lia. }
      rewrite Hs, Hq, Hcnt, Ho. lia.
    + change (wk_open u (updateDiscardStatus false urgent w')) with (wk_open u w'). rewrite Hs, Hop, Hq, Hcnt. simpl. change (unlocks []) with 0%nat. lia.
Qed.

Lemma discard_ok_step a w : discard_ok w -> discard_ok (wk_step a w).1.
Proof.
  intros Hok.
  assert (forall w', (forall u, pending u w' ≡ₚ pending u w) -> (forall u, jq_mDiscardCnt (wk_queue u w') = jq_mDiscardCnt (wk_queue u w)) ->
    (forall u, wk_open u w' = wk_open u w) -> wk_mExitCode w' = wk_mExitCode w -> discard_ok w') as Hsame
    by (intros; by apply (pending_same_cnt w)).
  assert (forall job urgent, is_unlock job = false -> job_wf urgent job -> discard_ok (wk_send job urgent w).2) as Hsend.
  { intros job urgent Hu Hj. destruct Hok as [Hwf Hcnt]. split.
    - intros u. rewrite pending_send. apply Forall_app_2; [done|]. destruct (eqb_spec urgent u) as [<-|]; [|done].
      simpl. case_match; repeat constructor; done.
    - rewrite exit_send. intros E u. rewrite cnt_send, open_send, pending_send, Hcnt, unlocks_app by done.
      case_match; [|change (unlocks []) with 0%nat; lia]. rewrite unlocks_cons, Hu. change (unlocks []) with 0%nat. lia. }
  destruct a as [id force urgent|urgent|id urgent|id code| | |]; simpl.
  - by apply Hsend.
  - destruct Hok as [Hwf Hcnt]. split.
    + intros u. rewrite pending_updateDiscardStatus. unfold pending. rewrite wk_queue_open. apply Hwf.
    + intros E u. rewrite cnt_update, pending_updateDiscardStatus, !wk_queue_open.
      change (pending u (wk_set_open _ _ w)) with ((wk_frames w ≫= fr_jobs u) ++ jq_mJobQueue (wk_queue u (wk_set_open urgent (S (wk_open urgent w)) w))).
      rewrite wk_queue_open. change (_ ++ _) with (pending u w). specialize (Hcnt E u).
      change (wk_open u (updateDiscardStatus true urgent (wk_set_open urgent (S (wk_open urgent w)) w)))
        with (wk_open u (wk_set_open urgent (S (wk_open urgent w)) w)). rewrite open_set_open.
      destruct (eqb_spec urgent u) as [->|]; [|done]. simpl. rewrite Hcnt. lia.
  - by apply discard_ok_discard_end.
  - by apply Hsend.
  - destruct (wk_frames w) eqn:Hw; [|done]. destruct (_ =? 0); [|done].
    apply Hsame; [|by intros []..|done]. intros u. rewrite pending_processJobQueue, Hw. unfold pending. rewrite Hw. simpl. by rewrite app_nil_r.
  - destruct (wk_frames w) eqn:Hw; [done|]. apply Hsame; [|by intros []..|done].
    intros u. rewrite pending_processJobQueue, Hw. unfold pending. rewrite Hw. apply Permutation_app_comm.
  - by apply discard_ok_process.
Qed.

Definition begins_discard (u : bool) (a : WkAction) : bool :=
  match a with WaDiscardBegin u' => eqb u' u | _ => false end.

Lemma size_runOneJob u j u' run w : jq_mMaxSize (wk_queue u (runOneJob j u' run w)) = jq_mMaxSize (wk_queue u w).
Proof. destruct run; [|done]. simpl. unfold job_run. destruct (jb_kind j), u, u'; done. Qed.

Lemma size_send u job urgent w : jq_mMaxSize (wk_queue u (wk_send job urgent w).2) = jq_mMaxSize (wk_queue u w).
Proof.
  unfold wk_send, enqueue. destruct (negb _); [done|]. destruct (_ || _); simpl; rewrite wk_queue_set; by destruct u, urgent.
Qed.

Lemma size_step u a w : jq_mMaxSize (wk_queue u (wk_step a w).1) = jq_mMaxSize (wk_queue u w).
Proof.
  destruct a as [id force urgent|urgent|id urgent|id code| | |]; simpl; try apply size_send.
  - by destruct u, urgent.
  - unfold discard_end. destruct (wk_open urgent w) as [|n]; [done|].
    pose proof (size_send u (unlock_job id) urgent (wk_set_open urgent n w)) as H. rewrite wk_queue_open in H.
    destruct (wk_send _ _ _) as [[] w']; simpl in *; [done|]. by destruct u, urgent.
  - destruct (wk_frames w), (wk_mExitCode w =? 0), u; done.
  - destruct (wk_frames w), u; done.
  - unfold process_step. destruct (wk_frames w) as [|[[|j l] [|k m] []] fs]; cbn [fst]; rewrite ?size_runOneJob; by destruct u.
Qed.

Lemma wk_send_unlimited job urgent w :
  wk_mExitCode w = 0 -> jq_mMaxSize (wk_queue urgent w) = 0 -> (wk_send job urgent w).1 = true.
Proof. unfold wk_send, enqueue. by intros -> ->. Qed.

(** A [discardJobs] in progress sends its unlock job when the queue is not limited. *)
Lemma open_step u a w :
  wk_mExitCode w = 0 -> jq_mMaxSize (wk_queue u w) = 0 ->
  (wk_open u (wk_step a w).1 + unlocks (accepts u a w) = wk_open u w + (if begins_discard u a then 1 else 0))%nat.
Proof.
  intros He Hs. destruct a as [id force urgent|urgent|id urgent|id code| | |]; simpl.
  - rewrite open_send. case_match; [change (unlocks [user_job id force]) with 0%nat|change (unlocks []) with 0%nat]; lia.
  - change (unlocks []) with 0%nat. destruct urgent, u; simpl; lia.
  - unfold discard_end. destruct (wk_open urgent w) as [|n] eqn:Ho; [simpl; change (unlocks []) with 0%nat; lia|].
    pose proof (open_send u (unlock_job id) urgent (wk_set_open urgent n w)) as H. rewrite open_set_open in H.
    destruct (eqb_spec urgent u) as [->|Hn].
    + pose proof (wk_send_unlimited (unlock_job id) u (wk_set_open u n w) He ltac:(by rewrite wk_queue_open)) as Hok.
      destruct (wk_send _ _ _) as [ok w']; simpl in *. subst ok. simpl.
      change (unlocks [unlock_job id]) with 1%nat. lia.
    + cbn [andb]. change (unlocks []) with 0%nat. destruct (wk_send _ _ _) as [[] w']; simpl in *; [lia|].
      change (wk_open u (updateDiscardStatus false urgent w')) with (wk_open u w'). lia.
  - rewrite open_send. case_match; [change (unlocks [exit_job id code]) with 0%nat|change (unlocks []) with 0%nat]; lia.
  - change (unlocks []) with 0%nat. destruct (wk_frames w), (wk_mExitCode w =? 0), u; simpl; lia.
  - change (unlocks []) with 0%nat. destruct (wk_frames w), u; simpl; lia.
  - change (unlocks []) with 0%nat. unfold process_step, runOneJob, job_run.
    destruct (wk_frames w) as [|[[|j l] [|k m] []] fs]; cbn [fst]; repeat case_match; destruct u; simpl; lia.
Qed.

Definition ends_of (u : bool) (outs : list JobEnd) : list JobEnd := filter (fun o => je_urgent o = u) outs.

Lemma exit_run acts w : discard_ok w -> wk_mExitCode (wk_run acts w).1 = 0 -> wk_mExitCode w = 0.
Proof.
  revert w. induction acts as [|a acts IH]; intros w Hok; [done|]. rewrite wk_run_cons. simpl.
  intros H. apply IH in H; [|by apply discard_ok_step]. by apply exit_step in H.
Qed.

Lemma drop_app_unlocks k (l l' : list CBaseJob) :
  (k <= length l)%nat -> unlocks (drop k (l ++ l')) = (unlocks (drop k l) + unlocks l')%nat.
Proof. intros H. by rewrite drop_app_le, unlocks_app. Qed.

Lemma ended_ends u outs : ended u outs = je_job <$> ends_of u outs.
Proof. done. Qed.

(** The count of a queue says whether unlock jobs are on their way. *)
Lemma jobDiscarded_open u w :
  discard_ok w -> wk_mExitCode w = 0 -> jobDiscarded (wk_queue u w) = bool_decide (0 < unlocks (pending u w) + wk_open u w)%nat.
Proof.
  intros [_ H] E. unfold jobDiscarded. rewrite (H E). case_bool_decide; [apply Z.ltb_lt|apply Z.ltb_ge]; lia.
Qed.

(** What one action does to the first [k] pending jobs of an unlimited queue. *)
Lemma window_step u a w k :
  is_flush a = false -> (length (wk_frames w) <= 1)%nat -> wk_mExitCode w = 0 -> jq_mMaxSize (wk_queue u w) = 0 ->
  (k <= length (pending u w))%nat ->
  let n := length (ends_of u (wk_step a w).2) in
  (k - n <= length (pending u (wk_step a w).1))%nat /\
  (unlocks (drop (k - n) (pending u (wk_step a w).1)) + wk_open u (wk_step a w).1 =
   unlocks (drop (max k n) (pending u w)) + wk_open u w + (if begins_discard u a then 1 else 0))%nat.
Proof.
  intros Hf Hl He Hs Hk. pose proof (pending_step u a w Hf Hl) as Hp. pose proof (open_step u a w He Hs) as Ho.
  rewrite ended_ends in Hp. pose proof (f_equal length Hp) as Hlen. rewrite !length_app, length_fmap in Hlen.
  destruct (step_end u a w) as [E|(e & E & _)]; unfold ends_of in *; rewrite E in *; simpl in *.
  - rewrite Nat.sub_0_r, Nat.max_0_r, Hp, drop_app_unlocks by done. rewrite length_app. lia.
  - destruct (pending u w) as [|j l] eqn:Hw; simpl in *.
    { exfalso. by destruct a. }
    injection Hp as _ Hp. rewrite Hp, length_app. split; [lia|].
    destruct k as [|k]; simpl; rewrite ?Nat.sub_0_r, ?Nat.max_0_r; rewrite <- Nat.add_assoc, <- Ho.
    + rewrite !drop_0, unlocks_app. lia.
    + rewrite drop_app_unlocks by lia. lia.
Qed.

(** Before the last of the first [k] jobs has had its turn there is an unlock job behind it
    or about to be sent, so the jobs which need not run do not. *)
Lemma discarded_window u acts w k :
  discard_ok w -> (length (wk_frames w) <= 1)%nat -> jq_mMaxSize (wk_queue u w) = 0 -> no_flush acts = true ->
  wk_mExitCode (wk_run acts w).1 = 0 -> (k <= length (pending u w))%nat -> (1 <= unlocks (drop k (pending u w)) + wk_open u w)%nat ->
  forall (i : nat) (e : JobEnd), (i < k)%nat -> ends_of u (wk_run acts w).2 !! i = Some e -> je_ran e = jb_forceRun (je_job e).
Proof.
  revert w k. induction acts as [|a acts IH]; intros w k Hok Hl Hs Hf He Hk Ho i e Hi; [done|].
  apply no_flush_cons in Hf as [Ha Hf]. pose proof (exit_run _ _ Hok He) as Ew. rewrite wk_run_cons in He |- *. simpl in *.
  destruct (window_step u a w k Ha Hl Ew Hs Hk) as [Hk' Ho'].
  destruct (step_end u a w) as [E|(e0 & E & Hran)]; unfold ends_of in *; rewrite filter_app, E in *; simpl in *.
  - rewrite Nat.sub_0_r, Nat.max_0_r in *. apply (IH _ k); try done; [by apply discard_ok_step|by apply frames_step|by rewrite size_step|lia].
  - destruct i as [|i]; simpl.
    + intros [= <-]. rewrite Hran, Ew, orb_true_r, andb_true_r, jobDiscarded_open by done.
      rewrite bool_decide_eq_true_2; [done|].
      rewrite <- (take_drop k (pending u w)) at 1. rewrite unlocks_app. lia.
    + rewrite Nat.max_l in Ho' by lia.
      apply (IH _ (k - 1)%nat); try done; [by apply discard_ok_step|by apply frames_step|by rewrite size_step|lia..].
Qed.

(** Behind the last unlock job everything runs. *)
Lemma picked_up_window u acts w k :
  discard_ok w -> (length (wk_frames w) <= 1)%nat -> jq_mMaxSize (wk_queue u w) = 0 -> no_flush acts = true ->
  wk_mExitCode (wk_run acts w).1 = 0 -> existsb (begins_discard u) acts = false ->
  (k <= length (pending u w))%nat -> (unlocks (drop k (pending u w)) + wk_open u w = 0)%nat ->
  forall (i : nat) (e : JobEnd), (k <= i)%nat -> ends_of u (wk_run acts w).2 !! i = Some e -> je_ran e = true.
Proof.
  revert w k. induction acts as [|a acts IH]; intros w k Hok Hl Hs Hf He Hb Hk Ho i e Hi; [done|].
  apply no_flush_cons in Hf as [Ha Hf]. pose proof (exit_run _ _ Hok He) as Ew. rewrite wk_run_cons in He |- *. simpl in *.
  apply orb_false_iff in Hb as [Hb0 Hb]. destruct (window_step u a w k Ha Hl Ew Hs Hk) as [Hk' Ho']. rewrite Hb0 in Ho'.
  destruct (step_end u a w) as [E|(e0 & E & Hran)]; unfold ends_of in *; rewrite filter_app, E in *; simpl in *.
  - rewrite Nat.sub_0_r, Nat.max_0_r in *. apply (IH _ k); try done; [by apply discard_ok_step|by apply frames_step|by rewrite size_step|lia].
  - assert (unlocks (drop (k `max` 1) (pending u w)) <= unlocks (drop k (pending u w)))%nat as Hm.
    { rewrite <- (take_drop (k `max` 1 - k) (drop k (pending u w))). rewrite unlocks_app, drop_drop.
      replace (k + (k `max` 1 - k))%nat with (k `max` 1)%nat by lia. lia. }
    destruct i as [|i]; simpl.
    + intros [= <-]. assert (k = 0)%nat as -> by lia. rewrite drop_0 in Ho.
      rewrite Hran, Ew, orb_true_r, andb_true_r, jobDiscarded_open by done.
      by rewrite bool_decide_eq_false_2 by lia.
    + apply (IH _ (k - 1)%nat); try done; [by apply discard_ok_step|by apply frames_step|by rewrite size_step|lia..].
Qed.

Lemma discard_ok_new n m : discard_ok (CBaseWorker_new n m).
Proof. split; [by intros []|by intros _ []]. Qed.

Lemma discard_ok_run acts w : discard_ok w -> discard_ok (wk_run acts w).1.
Proof.
  revert w. induction acts as [|a acts IH]; intros w H; [done|]. rewrite wk_run_cons. by apply IH, discard_ok_step.
Qed.

Lemma frames_run acts w :
  no_flush acts = true -> (length (wk_frames w) <= 1)%nat -> (length (wk_frames (wk_run acts w).1) <= 1)%nat.
Proof.
  revert w. induction acts as [|a acts IH]; intros w Hf H; [done|]. apply no_flush_cons in Hf as [Ha Hf].
  rewrite wk_run_cons. by apply IH, frames_step.
Qed.

Lemma size_run u acts w : jq_mMaxSize (wk_queue u (wk_run acts w).1) = jq_mMaxSize (wk_queue u w).
Proof. revert w. induction acts as [|a acts IH]; intros w; [done|]. rewrite wk_run_cons. simpl. by rewrite IH, size_step. Qed.

(** [discardJobs] discards exactly what was pending. In any state a worker with
    an unlimited queue reaches without flushing itself, and as long as it does not
    exit: after [discardJobs] has begun, none of the jobs pending at that moment runs,
    unless it is forced to, no matter what is sent or discarded meanwhile; and
    when no [discardJobs] is in progress and none begins, every job behind the
    last pending unlock job runs. *)
Theorem discard_exact (u : bool) (n m : Z) pre acts w :
  (if u then m else n) = 0 -> no_flush pre = true -> no_flush acts = true ->
  w = (wk_run pre (CBaseWorker_new n m)).1 ->
  (wk_mExitCode (wk_run (WaDiscardBegin u :: acts) w).1 = 0 ->
   forall (i : nat) (e : JobEnd), (i < length (pending u w))%nat ->
     ends_of u (wk_run (WaDiscardBegin u :: acts) w).2 !! i = Some e -> je_ran e = jb_forceRun (je_job e)) /\
  (wk_mExitCode (wk_run acts w).1 = 0 -> existsb (begins_discard u) acts = false -> wk_open u w = 0%nat ->
   forall (k i : nat) (e : JobEnd), (k <= i)%nat -> (k <= length (pending u w))%nat -> unlocks (drop k (pending u w)) = 0%nat ->
     ends_of u (wk_run acts w).2 !! i = Some e -> je_ran e = true).
Proof.
  intros Hs Hp Hf Hw. assert (discard_ok w) as Hok by (subst w; apply discard_ok_run, discard_ok_new).
  assert (length (wk_frames w) <= 1)%nat as Hl by (subst w; apply frames_run; [done|simpl; lia]).
  assert (jq_mMaxSize (wk_queue u w) = 0) as Hsz by (subst w; rewrite size_run; by destruct u). clear Hw. split.
  - intros He i e Hi. rewrite wk_run_cons in He |- *. simpl in *.
    pose proof (exit_run _ _ (discard_ok_step (WaDiscardBegin u) w Hok) He) as Ew.
    pose proof (window_step u (WaDiscardBegin u) w (length (pending u w)) eq_refl Hl Ew Hsz (le_n _)) as [H1 H2].
    rewrite Nat.sub_0_r in *. apply (discarded_window u acts _ (length (pending u w))); try done.
    + by apply (discard_ok_step (WaDiscardBegin u)).
    + by rewrite <- Hsz, <- (size_step u (WaDiscardBegin u) w).
    + simpl in H2. rewrite eqb_reflx in H2. simpl. lia.
  - intros He Hb Ho k i e Hi Hk Hu. eapply (picked_up_window u acts w k); try done. lia.
Qed.

Lemma discard_exact_witness :
  let pre := [WaSend 1 false false; WaSend 2 true false] in
  let acts := [WaSend 3 false false; WaDiscardEnd 4 false; WaSend 5 false false; WaDispatch; WaStep; WaStep;
               WaStep; WaStep; WaStep; WaStep; WaStep; WaStep; WaStep; WaStep; WaStep; WaStep] in
  let w := (wk_run pre (CBaseWorker_new 0 0)).1 in
  ((fun e : JobEnd => (jb_id (je_job e), je_ran e)) <$> (wk_run (WaDiscardBegin false :: acts) w).2) =
    [(1, false); (2, true); (3, false); (4, true); (5, true)] /\
  (forall (i : nat) (e : JobEnd), (i < 2)%nat -> ends_of false (wk_run (WaDiscardBegin false :: acts) w).2 !! i = Some e ->
     je_ran e = jb_forceRun (je_job e)).
Proof.
  intros pre acts w. split; [vm_compute; reflexivity|]. intros i e Hi.
  refine (proj1 (discard_exact false 0 0 pre acts w _ _ _ _) _ i e _); try (vm_compute; reflexivity). exact Hi.
Defined.

(** A limited queue which is full has no room for the unlock job: [discardJobs] then takes its
    demand back and everything runs. *)
Example full_queue_not_discarded :
  (wk_run [WaSend 1 false false; WaDiscardBegin false; WaDiscardEnd 2 false; WaDispatch; WaStep; WaStep]
     (CBaseWorker_new 1 0)).2 = [mkEnd (user_job 1 false) false true].
Proof. reflexivity. Qed.

(** A job accepted between the start of a round and the exit job of that round stays queued
    for good: the worker leaves its loop without ending it. *)
Example job_stranded_by_exit :
  let '(w, outs) := wk_run [WaExit 1 5; WaDispatch; WaSend 2 false false; WaStep; WaStep; WaStep; WaStep; WaDispatch; WaStep]
    (CBaseWorker_new 0 0) in
  wk_mExitCode w = 5 /\ outs = [mkEnd (exit_job 1 5) false true] /\ pending false w = [user_job 2 false].
Proof. vm_compute. auto. Qed.

(** A job which flushes its own worker is overtaken by jobs sent later. *)
Example flush_reorders :
  ended false (wk_run [WaSend 1 false false; WaSend 2 false false; WaDispatch; WaStep; WaStep; WaSend 3 false false; WaFlush;
    WaStep; WaStep; WaStep; WaStep; WaStep; WaStep] (CBaseWorker_new 0 0)).2
  = [user_job 1 false; user_job 3 false; user_job 2 false].
Proof. reflexivity. Qed.

(** *** Progress *)

(** Steps which end the innermost call when nothing is sent meanwhile. *)
Definition frame_steps (f : JobFrame) : nat :=
  (length (fr_urgent f) + 2 * length (fr_normal f) + (if fr_polled f then 1 else 2))%nat.

Lemma wk_run_repeat_S n w : wk_run (repeat WaStep (S n)) w =
  ((wk_run (repeat WaStep n) (process_step w).1).1, (process_step w).2 ++ (wk_run (repeat WaStep n) (process_step w).1).2).
Proof. apply (wk_run_cons WaStep). Qed.

Definition job_ends (outs : list JobEnd) : list (CBaseJob * bool) := (fun o => (je_job o, je_urgent o)) <$> outs.

Lemma urgent_runOneJob j u run w :
  jq_mJobQueue (wk_mUrgentJobQueue w) = [] -> jq_mJobQueue (wk_mUrgentJobQueue (runOneJob j u run w)) = [].
Proof. intros <-. apply (jobs_runOneJob true). Qed.

(** Undisturbed, a call runs through its jobs and returns. *)
Lemma frame_drains f fs w :
  wk_frames w = f :: fs -> jq_mJobQueue (wk_mUrgentJobQueue w) = [] ->
  let '(w', outs) := wk_run (repeat WaStep (frame_steps f)) w in
  wk_frames w' = fs /\ jq_mJobQueue (wk_mUrgentJobQueue w') = [] /\
  jq_mJobQueue (wk_mNormalJobQueue w') = jq_mJobQueue (wk_mNormalJobQueue w) /\
  job_ends outs = ((., true) <$> fr_urgent f) ++ ((., false) <$> fr_normal f).
Proof.
  remember (frame_steps f) as n eqn:Hn. revert f w Hn. induction n as [|n IH]; intros [urg norm pol] w Hn Hw Hu.
  { unfold frame_steps in Hn. simpl in Hn. destruct pol; lia. }
  rewrite wk_run_repeat_S. unfold process_step. rewrite Hw.
  destruct urg as [|j urg]; [destruct pol; [destruct norm as [|j norm]|]|]; cbn [fst snd].
  - assert (n = 0)%nat as -> by (unfold frame_steps in Hn; simpl in Hn; lia). simpl. by rewrite Hu.
  - specialize (IH (mkFrame [] norm false) (runOneJob j false (run_normal j w) (wk_set_frames (mkFrame [] norm false :: fs) w))).
    rewrite frames_runOneJob in IH. specialize (IH ltac:(unfold frame_steps in *; simpl in *; lia) eq_refl
      ltac:(by apply urgent_runOneJob)).
    destruct (wk_run _ _) as [w' outs]. simpl in *. destruct IH as (-> & -> & -> & ->). split_and!; try done.
    apply (jobs_runOneJob false j false (run_normal j w) (wk_set_frames (mkFrame [] norm false :: fs) w)).
  - specialize (IH (mkFrame [] norm true) (wk_set_frames (mkFrame [] norm true :: fs) (wk_set_queue true (dumpJobs (wk_mUrgentJobQueue w)).2 w))).
    specialize (IH ltac:(unfold frame_steps in *; simpl in *; lia) eq_refl eq_refl).
    unfold dumpJobs in *. rewrite Hu. cbn [fst snd] in *.
    destruct (wk_run _ _) as [w' outs]. destruct IH as (H1 & H2 & H3 & H4). done.
  - specialize (IH (mkFrame urg norm pol) (runOneJob j true (run_urgent j w) (wk_set_frames (mkFrame urg norm pol :: fs) w))).
    rewrite frames_runOneJob in IH. specialize (IH ltac:(unfold frame_steps in *; simpl in *; lia) eq_refl
      ltac:(by apply urgent_runOneJob)).
    destruct (wk_run _ _) as [w' outs]. simpl in *. destruct IH as (-> & -> & -> & ->). split_and!; try done.
    apply (jobs_runOneJob false j true (run_urgent j w) (wk_set_frames (mkFrame urg norm pol :: fs) w)).
Qed.

(** C29: A round of the worker comes to an end and gives every queued job its turn: from
    an idle worker which has not exited, dispatching and a number of steps linear in
    the jobs queued leave both queues empty and the worker idle, the urgent jobs having
    had their turn first, then the normal ones, each in the order of its queue. *)
Theorem round_drains w :
  wk_frames w = [] -> wk_mExitCode w = 0 ->
  let U := jq_mJobQueue (wk_mUrgentJobQueue w) in let N := jq_mJobQueue (wk_mNormalJobQueue w) in
  let '(w', outs) := wk_run (WaDispatch :: repeat WaStep (length U + 2 * length N + 2)) w in
  wk_frames w' = [] /\ jobQueued w' = false /\ job_ends outs = ((., true) <$> U) ++ ((., false) <$> N).
Proof.
  intros Hw He U N. rewrite wk_run_cons. simpl. rewrite Hw, He. simpl.
  pose proof (frame_drains (mkFrame U N false) [] (processJobQueue w)) as H.
  specialize (H ltac:(unfold processJobQueue; simpl; by rewrite Hw) eq_refl).
  replace (length U + (length N + (length N + 0)) + 2)%nat with (frame_steps (mkFrame U N false)) by (unfold frame_steps; simpl; lia).
  destruct (wk_run _ _) as [w' outs]. simpl. destruct H as (? & Hu & Hn & ->). split_and!; try done.
  unfold jobQueued, jq_size. by rewrite Hu, Hn.
Qed.

Lemma round_drains_witness :
  let w := (wk_run [WaSend 1 false false; WaSend 2 false true; WaSend 3 false false; WaSend 4 false true] (CBaseWorker_new 0 0)).1 in
  job_ends (wk_run (WaDispatch :: repeat WaStep 8) w).2 =
    [(user_job 2 false, true); (user_job 4 false, true); (user_job 1 false, false); (user_job 3 false, false)] /\
  jobQueued (wk_run (WaDispatch :: repeat WaStep 8) w).1 = false.
Proof.
  intros w. generalize (round_drains w eq_refl eq_refl). vm_compute. intros (_ & H1 & H2).
  split; [exact H2|exact H1].
Defined.

Lemma worker_jobs_once_witness :
  let acts := [WaSend 1 false false; WaDispatch; WaSend 2 false false; WaStep; WaStep; WaDispatch; WaStep; WaStep; WaDispatch] in
  let '(w', outs) := wk_run acts (CBaseWorker_new 0 0) in
  ended false outs = [user_job 1 false] /\ ended false outs ++ pending false w' = [user_job 1 false; user_job 2 false].
Proof.
  intros acts. generalize (worker_jobs_once false acts (CBaseWorker_new 0 0) ltac:(simpl; lia)).
  vm_compute. intros [_ H]. split; [reflexivity|exact (H eq_refl)].
Defined.

Lemma urgent_first_witness :
  let w := (wk_run [WaSend 1 false false; WaSend 2 false false; WaDispatch; WaStep; WaSend 3 false true; WaSend 4 false true] (CBaseWorker_new 0 0)).1 in
  let acts := [WaStep; WaStep; WaStep] in
  ended true (wk_run acts w).2 = [user_job 3 false] /\ (length (ended false (wk_run acts w).2) <= 1)%nat.
Proof.
  split; [reflexivity|]. apply urgent_first; [vm_compute; lia|reflexivity|vm_compute; lia].
Defined.
