(* ===== verification/EventLoop.v ===== *)
(** Timers of event loops: [CBaseEventLoop] of src/worker/CBaseEventLoop.cpp with
    [CSysLoopTimer] (src/public/fdbus/CSysLoopTimer.h), and how
    [CBaseLoopTimer] of src/worker/CBaseWorker.cpp uses them in the thread of the loop.

    Timers are objects of the application, which it creates and destroys at will, also in
    the callback of a timer. The loop keeps pointers to them, so the model has a store:
    a timer is a number, [lp_timers] maps it to the object, and a look into the store
    which finds nothing ([None]) is an access to memory that has been freed. The clock
    ([sysdep_getsystemtime_milli]) is an argument. *)
From Stdlib Require Import Sorted.
From stdpp Require Import gmap.
From S2P Require Import Prelude.

(** ** Data *)

(** A timer of the class [CBaseLoopTimer]. There is one loop and one worker: [tm_mEventLoop]
    and [tm_mWorker] tell whether the pointers to them are set. *)
Record CSysLoopTimer := mkTimer {
  tm_mInterval : Z; tm_mRepeat : bool; tm_mEnable : bool; tm_mExpiration : Z; tm_mEventLoop : bool; tm_mWorker : bool }.

Record CBaseEventLoop := mkLoop {
  lp_timers : gmap Z CSysLoopTimer;
  lp_mTimerList : list Z;
  lp_mTimerWorkingList : list Z;
  lp_mTimerBlackList : gset Z;
  lp_mTimerRecursiveCnt : Z }.

Inductive EEnable := ENABLE | DISABLE | DONT_CARE.

Implicit Types lp : CBaseEventLoop.
Implicit Types tm : CSysLoopTimer.

Definition CSysLoopTimer_new (interval : Z) (rpt : bool) : CSysLoopTimer := mkTimer interval rpt false 0 false false.
Definition CBaseEventLoop_new : CBaseEventLoop := mkLoop ∅ [] [] ∅ 0.

Definition lp_set_timer (t : Z) tm lp : CBaseEventLoop :=
  mkLoop (<[t:=tm]> (lp_timers lp)) (lp_mTimerList lp) (lp_mTimerWorkingList lp) (lp_mTimerBlackList lp) (lp_mTimerRecursiveCnt lp).
Definition lp_set_work (l : list Z) lp : CBaseEventLoop :=
  mkLoop (lp_timers lp) (lp_mTimerList lp) l (lp_mTimerBlackList lp) (lp_mTimerRecursiveCnt lp).
Definition lp_set_list (l : list Z) lp : CBaseEventLoop :=
  mkLoop (lp_timers lp) l (lp_mTimerWorkingList lp) (lp_mTimerBlackList lp) (lp_mTimerRecursiveCnt lp).
Definition lp_set_black (s : gset Z) lp : CBaseEventLoop :=
  mkLoop (lp_timers lp) (lp_mTimerList lp) (lp_mTimerWorkingList lp) s (lp_mTimerRecursiveCnt lp).
Definition lp_set_cnt (n : Z) lp : CBaseEventLoop :=
  mkLoop (lp_timers lp) (lp_mTimerList lp) (lp_mTimerWorkingList lp) (lp_mTimerBlackList lp) n.

Definition tm_set_enable (enb : bool) tm : CSysLoopTimer :=
  mkTimer (tm_mInterval tm) (tm_mRepeat tm) enb (tm_mExpiration tm) (tm_mEventLoop tm) (tm_mWorker tm).
Definition tm_set_loop (attached : bool) tm : CSysLoopTimer :=
  mkTimer (tm_mInterval tm) (tm_mRepeat tm) (tm_mEnable tm) (tm_mExpiration tm) attached (tm_mWorker tm).
Definition tm_set_worker (b : bool) tm : CSysLoopTimer :=
  mkTimer (tm_mInterval tm) (tm_mRepeat tm) (tm_mEnable tm) (tm_mExpiration tm) (tm_mEventLoop tm) b.
Definition tm_arm (expiration : Z) tm : CSysLoopTimer :=
  mkTimer (tm_mInterval tm) (tm_mRepeat tm) true expiration (tm_mEventLoop tm) (tm_mWorker tm).

(** [fdb_remove_value_from_container]: the first occurrence goes. *)
Fixpoint remove_value (v : Z) (l : list Z) : list Z :=
  match l with
  | [] => []
  | x :: l => if x =? v then l else x :: remove_value v l
  end.

(** ** Timers *)

(** The place of a timer in the working list: in front of the first one that expires
    later. *)
Fixpoint insert_timer (h : gmap Z CSysLoopTimer) (expiration t : Z) (l : list Z) : option (list Z) :=
  match l with
  | [] => Some [t]
  | x :: l' =>
      match h !! x with
      | None => None
      | Some tm => if tm_mExpiration tm >? expiration then Some (t :: l) else (x ::.) <$> insert_timer h expiration t l'
      end
  end.

(** When a timer started at [time_start] expires, if its interval is valid. *)
Definition expiry (time_start init_value : Z) tm : option Z :=
  if init_value >? 0 then Some (wrap_u 64 (time_start + init_value))
  else if tm_mInterval tm >? 0 then Some (wrap_u 64 (time_start + tm_mInterval tm))
  else None.

Definition timer_stop (t : Z) tm lp : option CBaseEventLoop :=
  if tm_mEnable tm then
    if tm_mEventLoop tm
    then Some (lp_set_timer t (tm_set_enable false tm) (lp_set_work (remove_value t (lp_mTimerWorkingList lp)) lp))
    else None
  else Some lp.

Definition timer_enable (t : Z) (enb : bool) (time_start init_value now : Z) lp : option CBaseEventLoop :=
  tm ← lp_timers lp !! t;
  lp ← timer_stop t tm lp;
  if enb then
    let time_start := if time_start <=? 0 then now else time_start in
    match expiry time_start init_value tm with
    | None => Some lp
    | Some e =>
        if tm_mEventLoop tm then
          let tm := tm_arm e tm in
          let lp := lp_set_timer t tm lp in
          l ← insert_timer (lp_timers lp) e t (lp_mTimerWorkingList lp);
          Some (lp_set_work l lp)
        else None
    end
  else Some lp.

Definition timer_config (t : Z) (enb rpt : EEnable) (interval init_value now : Z) lp : option CBaseEventLoop :=
  tm ← lp_timers lp !! t;
  let rep := match rpt with ENABLE => true | DISABLE => false | DONT_CARE => tm_mRepeat tm end in
  let itv := if interval >? 0 then interval else tm_mInterval tm in
  let lp := lp_set_timer t (mkTimer itv rep (tm_mEnable tm) (tm_mExpiration tm) (tm_mEventLoop tm) (tm_mWorker tm)) lp in
  match enb with
  | ENABLE => timer_enable t true 0 init_value now lp
  | DISABLE => timer_enable t false 0 0 now lp
  | DONT_CARE => Some lp
  end.

(** ** The loop *)

Definition timerDestroyed (t : Z) lp : bool := bool_decide (t ∈ lp_mTimerBlackList lp).

Definition addTimerToBlacklist (t : Z) lp : CBaseEventLoop := lp_set_black ({[t]} ∪ lp_mTimerBlackList lp) lp.

Definition addTimer (t : Z) (enb : bool) (now : Z) lp : option CBaseEventLoop :=
  if bool_decide (t ∈ lp_mTimerList lp) then Some lp else
  tm ← lp_timers lp !! t;
  let lp := lp_set_timer t (tm_set_loop true tm) lp in
  let lp := lp_set_list (lp_mTimerList lp ++ [t]) lp in
  timer_enable t enb 0 0 now lp.

Definition removeTimer (t now : Z) lp : option CBaseEventLoop :=
  let lp := addTimerToBlacklist t lp in
  lp ← timer_enable t false 0 0 now lp;
  let lp := lp_set_list (remove_value t (lp_mTimerList lp)) lp in
  tm ← lp_timers lp !! t;
  Some (lp_set_timer t (tm_set_loop false tm) lp).

Fixpoint removeTimers (ts : list Z) (now : Z) lp : option CBaseEventLoop :=
  match ts with
  | [] => Some lp
  | t :: ts => lp ← removeTimer t now lp; removeTimers ts now lp
  end.

Definition uninstallTimers (now : Z) lp : option CBaseEventLoop := removeTimers (lp_mTimerList lp) now lp.

Definition getMostRecentTime (now : Z) lp : option Z :=
  match lp_mTimerWorkingList lp with
  | [] => Some (-1)
  | t :: _ =>
      tm ← lp_timers lp !! t;
      Some (if tm_mExpiration tm >? now then i32 (tm_mExpiration tm - now) else 0)
  end.

Definition beginTimerBlackList lp : CBaseEventLoop :=
  let lp' := lp_set_cnt (lp_mTimerRecursiveCnt lp + 1) lp in
  if lp_mTimerRecursiveCnt lp =? 0 then lp_set_black ∅ lp' else lp'.

Definition endTimerBlackList lp : CBaseEventLoop :=
  let lp := if lp_mTimerRecursiveCnt lp =? 0 then lp else lp_set_cnt (lp_mTimerRecursiveCnt lp - 1) lp in
  if lp_mTimerRecursiveCnt lp =? 0 then lp_set_black ∅ lp else lp.

(** *** Callbacks *)

(** What an application does with timers in the thread of the loop: create one, the
    operations of [CBaseLoopTimer], and destroy one, which detaches it first. *)
Inductive TimerOp :=
  | ToCreate (t interval : Z) (rpt : bool)
  | ToEnable (t interval : Z)
  | ToDisable (t : Z)
  | ToEnableRepeat (t interval init_value : Z)
  | ToEnableOneShot (t interval : Z)
  | ToAttach (t : Z) (enb : bool)
  | ToDetach (t : Z)
  | ToDestroy (t : Z).

(** The operations of a timer without a worker do nothing. *)
Definition loop_timer_config (t : Z) (enb rpt : EEnable) (interval init_value now : Z) lp : option CBaseEventLoop :=
  tm ← lp_timers lp !! t;
  if tm_mWorker tm then timer_config t enb rpt interval init_value now lp else Some lp.

Definition timer_attach (t : Z) (enb : bool) (now : Z) lp : option CBaseEventLoop :=
  tm ← lp_timers lp !! t;
  if tm_mWorker tm then timer_config t (if enb then ENABLE else DISABLE) DONT_CARE (-1) (-1) now lp
  else addTimer t enb now (lp_set_timer t (tm_set_worker true tm) lp).

Definition timer_detach (t now : Z) lp : option CBaseEventLoop :=
  tm ← lp_timers lp !! t;
  if tm_mWorker tm then
    lp ← removeTimer t now lp;
    tm ← lp_timers lp !! t;
    Some (lp_set_timer t (tm_set_worker false tm) lp)
  else Some lp.

Definition destroyTimer (t now : Z) lp : option CBaseEventLoop :=
  lp ← timer_detach t now lp;
  Some (mkLoop (delete t (lp_timers lp)) (lp_mTimerList lp) (lp_mTimerWorkingList lp) (lp_mTimerBlackList lp) (lp_mTimerRecursiveCnt lp)).

Definition timer_op (op : TimerOp) (now : Z) lp : option CBaseEventLoop :=
  match op with
  | ToCreate t interval rpt =>
      match lp_timers lp !! t with Some _ => None | None => Some (lp_set_timer t (CSysLoopTimer_new interval rpt) lp) end
  | ToEnable t interval => loop_timer_config t ENABLE DONT_CARE interval (-1) now lp
  | ToDisable t => loop_timer_config t DISABLE DONT_CARE (-1) (-1) now lp
  | ToEnableRepeat t interval init_value => loop_timer_config t ENABLE ENABLE interval init_value now lp
  | ToEnableOneShot t interval => loop_timer_config t ENABLE DISABLE interval (-1) now lp
  | ToAttach t enb => timer_attach t enb now lp
  | ToDetach t => timer_detach t now lp
  | ToDestroy t => destroyTimer t now lp
  end.

Fixpoint timer_ops (ops : list TimerOp) (now : Z) lp : option CBaseEventLoop :=
  match ops with
  | [] => Some lp
  | op :: ops => lp ← timer_op op now lp; timer_ops ops now lp
  end.

(** Who is to blame for an access to a destroyed timer. *)
Inductive LoopErr := AppFault | LoopFault.

(** [run] of a timer: what it does, and whether it throws then. *)
Definition TimerRun : Type := Z -> list TimerOp * bool.

Fixpoint take_due (h : gmap Z CSysLoopTimer) (now : Z) (l : list Z) : option (list Z) :=
  match l with
  | [] => Some []
  | t :: l =>
      tm ← h !! t;
      if now >=? tm_mExpiration tm then (t ::.) <$> take_due h now l else Some []
  end.

Fixpoint rearm (ts : list Z) (now : Z) lp : option CBaseEventLoop :=
  match ts with
  | [] => Some lp
  | t :: ts =>
      tm ← lp_timers lp !! t;
      lp ← timer_enable t (tm_mRepeat tm) now 0 now lp;
      rearm ts now lp
  end.

(** The second loop of [processTimers], with the timers whose [run] was called. *)
Fixpoint run_timers (run : TimerRun) (ts : list Z) (now : Z) lp : LoopErr + (CBaseEventLoop * list Z) :=
  match ts with
  | [] => inr (lp, [])
  | t :: ts =>
      if timerDestroyed t lp then run_timers run ts now lp else
      match lp_timers lp !! t with
      | None => inl LoopFault
      | Some _ =>
          match timer_ops (run t).1 now lp with
          | None => inl AppFault
          | Some lp =>
              match (if (run t).2 && negb (timerDestroyed t lp) then removeTimer t now lp else Some lp) with
              | None => inl LoopFault
              | Some lp =>
                  match run_timers run ts now lp with
                  | inl e => inl e
                  | inr (lp, fired) => inr (lp, t :: fired)
                  end
              end
          end
      end
  end.

Definition processTimers (run : TimerRun) (now : Z) lp : LoopErr + (CBaseEventLoop * list Z) :=
  match take_due (lp_timers lp) now (lp_mTimerWorkingList lp) with
  | None => inl LoopFault
  | Some [] => inr (lp, [])
  | Some tos =>
      match rearm tos now (beginTimerBlackList lp) with
      | None => inl LoopFault
      | Some lp =>
          match run_timers run tos now lp with
          | inl e => inl e
          | inr (lp, fired) => inr (endTimerBlackList lp, fired)
          end
      end
  end.

Definition hasRunningTimer lp : bool := match lp_mTimerWorkingList lp with [] => false | _ => true end.

(** ** The invariant *)

Definition expires (h : gmap Z CSysLoopTimer) (t : Z) : Z := default 0 (tm_mExpiration <$> h !! t).

(** The working list holds the enabled timers by the time they expire, the timer list the
    attached ones; both hold no timer twice and none that has been destroyed. *)
Record loop_ok lp : Prop := {
  lk_nodup : NoDup (lp_mTimerList lp);
  lk_sorted : StronglySorted (fun a b => expires (lp_timers lp) a <= expires (lp_timers lp) b) (lp_mTimerWorkingList lp);
  lk_wnodup : NoDup (lp_mTimerWorkingList lp);
  lk_work : forall t, t ∈ lp_mTimerWorkingList lp <-> exists tm, lp_timers lp !! t = Some tm /\ tm_mEnable tm = true;
  lk_list : forall t, t ∈ lp_mTimerList lp <-> exists tm, lp_timers lp !! t = Some tm /\ tm_mEventLoop tm = true;
  lk_enabled : forall t tm, lp_timers lp !! t = Some tm -> tm_mEnable tm = true -> tm_mEventLoop tm = true;
  lk_worker : forall t tm, lp_timers lp !! t = Some tm -> tm_mEventLoop tm = true -> tm_mWorker tm = true }.

Lemma elem_remove_value v l x : NoDup l -> x ∈ remove_value v l <-> x ∈ l /\ x <> v.
Proof.
  induction l as [|y l IH]; intros Hn; simpl; [set_solver|]. apply NoDup_cons in Hn as [Hy Hn].
  destruct (Z.eqb_spec y v) as [->|Hne]; [set_solver|]. rewrite !elem_of_cons, IH by done. set_solver.
Qed.

Lemma NoDup_remove_value v l : NoDup l -> NoDup (remove_value v l).
Proof.
  induction l as [|y l IH]; intros Hn; simpl; [done|]. pose proof (elem_remove_value v l y) as He.
  apply NoDup_cons in Hn as [Hy Hn]. destruct (y =? v); [done|]. constructor; [|by apply IH]. rewrite He by done. naive_solver.
Qed.

Lemma StronglySorted_remove_value R v l : StronglySorted R l -> StronglySorted R (remove_value v l).
Proof.
  induction 1 as [|y l H IH Hy]; simpl; [constructor|]. destruct (y =? v); [done|]. constructor; [done|].
  clear -Hy. induction Hy; simpl; [constructor|]. destruct (_ =? v); [done|by constructor].
Qed.

Lemma StronglySorted_ext {A} (R S : A -> A -> Prop) l :
  (forall a b, a ∈ l -> b ∈ l -> R a b -> S a b) -> StronglySorted R l -> StronglySorted S l.
Proof.
  intros H Hs. induction Hs as [|y l Hs IH Hy]; [constructor|]. constructor.
  - apply IH. set_solver.
  - rewrite Forall_forall in *. intros b Hb. apply H; [set_solver..|]. by apply Hy.
Qed.

(** Inserting keeps the order. *)
Lemma insert_timer_spec h e t l l' :
  insert_timer h e t l = Some l' -> expires h t = e ->
  StronglySorted (fun a b => expires h a <= expires h b) l ->
  l' ≡ₚ t :: l /\ StronglySorted (fun a b => expires h a <= expires h b) l'.
Proof.
  intros Hi He Hs. revert l' Hi. induction Hs as [|x l Hs IH Hx]; intros l' Hi; simpl in Hi.
  - injection Hi as <-. split; [done|]. repeat constructor.
  - destruct (h !! x) as [tm|] eqn:Hh; [|done].
    assert (expires h x = tm_mExpiration tm) as Ex by (unfold expires; by rewrite Hh).
    rewrite Z.gtb_ltb in Hi. destruct (Z.ltb_spec e (tm_mExpiration tm)).
    + injection Hi as <-. split; [done|]. constructor; [by constructor|]. constructor; [lia|].
      eapply Forall_impl; [exact Hx|]. simpl. lia.
    + destruct (insert_timer h e t l) as [l0|] eqn:E; simplify_eq/=.
      destruct (IH l0 eq_refl) as [Hp Hs']. split.
      * rewrite Hp. constructor.
      * constructor; [done|]. rewrite Hp. constructor; [lia|done].
Qed.

Lemma insert_timer_total h e t l : (forall x, x ∈ l -> is_Some (h !! x)) -> is_Some (insert_timer h e t l).
Proof.
  induction l as [|x l IH]; intros H; simpl; [done|]. destruct (H x) as [tm ->]; [set_solver|].
  destruct (_ >? e); [done|]. apply fmap_is_Some, IH. set_solver.
Qed.

Lemma remove_value_id v l : v ∉ l -> remove_value v l = l.
Proof.
  induction l as [|x l IH]; simpl; intros H; [done|]. destruct (Z.eqb_spec x v) as [->|]; [set_solver|].
  rewrite IH; [done|set_solver].
Qed.

(** Everything but the timers and the working list is the same. *)
Definition same_rest lp lp' : Prop :=
  lp_mTimerList lp' = lp_mTimerList lp /\ lp_mTimerBlackList lp' = lp_mTimerBlackList lp /\
  lp_mTimerRecursiveCnt lp' = lp_mTimerRecursiveCnt lp.

Lemma expires_insert_ne h t tm x : x <> t -> expires (<[t:=tm]> h) x = expires h x.
Proof. intros H. unfold expires. by rewrite lookup_insert_ne. Qed.

Lemma idle_not_working t tm lp :
  loop_ok lp -> lp_timers lp !! t = Some tm -> tm_mEnable tm = false -> t ∉ lp_mTimerWorkingList lp.
Proof. intros Hok Ht He. rewrite (lk_work _ Hok). intros (tm0 & E & ?). rewrite Ht in E. simplify_eq. congruence. Qed.

Lemma stop_spec t tm lp :
  loop_ok lp -> lp_timers lp !! t = Some tm -> exists lp',
    timer_stop t tm lp = Some lp' /\ loop_ok lp' /\ lp_timers lp' = <[t:=tm_set_enable false tm]> (lp_timers lp) /\
    lp_mTimerWorkingList lp' = remove_value t (lp_mTimerWorkingList lp) /\ same_rest lp lp'.
Proof.
  intros Hok Ht. unfold timer_stop. destruct (tm_mEnable tm) eqn:He.
  - rewrite (lk_enabled _ Hok _ _ Ht He). eexists. split; [done|]. split; [|done].
    destruct Hok as [Hl Hs Hw Hwk Hls Hen Hwo]. split; simpl.
    + done.
    + apply StronglySorted_remove_value. eapply StronglySorted_ext; [|exact Hs]. intros a b _ _. unfold expires.
      destruct (decide (a = t)) as [->|], (decide (b = t)) as [->|];
        rewrite ?lookup_insert_eq, ?lookup_insert_ne, ?Ht by done; done.
    + by apply NoDup_remove_value.
    + intros x. rewrite elem_remove_value, Hwk by done. destruct (decide (x = t)) as [->|].
      * rewrite lookup_insert_eq. naive_solver.
      * rewrite lookup_insert_ne by done. naive_solver.
    + intros x. rewrite Hls. destruct (decide (x = t)) as [->|]; [|by rewrite lookup_insert_ne].
      rewrite lookup_insert_eq, Ht. naive_solver.
    + intros x tm'. destruct (decide (x = t)) as [->|]; [rewrite lookup_insert_eq; by intros [= <-]|].
      rewrite lookup_insert_ne by done. apply Hen.
    + intros x tm'. destruct (decide (x = t)) as [->|]; [rewrite lookup_insert_eq; intros [= <-]; exact (Hwo t tm Ht)|].
      rewrite lookup_insert_ne by done. apply Hwo.
  - exists lp. split; [done|]. split; [done|]. rewrite remove_value_id.
    + split_and!; try done. rewrite insert_id; [done|]. rewrite Ht. f_equal. destruct tm; simpl in *; by subst.
    + by eapply idle_not_working.
Qed.

(** Arming a timer that is not running. *)
Lemma arm_ok t tm e lp :
  loop_ok lp -> lp_timers lp !! t = Some tm -> tm_mEnable tm = false -> tm_mEventLoop tm = true ->
  exists l, insert_timer (<[t:=tm_arm e tm]> (lp_timers lp)) e t (lp_mTimerWorkingList lp) = Some l /\
    loop_ok (lp_set_work l (lp_set_timer t (tm_arm e tm) lp)).
Proof.
  intros Hok Ht He Ha.
  assert (t ∉ lp_mTimerWorkingList lp) as Hnt by by eapply idle_not_working.
  destruct Hok as [Hl Hs Hw Hwk Hls Hen Hwo].
  destruct (insert_timer_total (<[t:=tm_arm e tm]> (lp_timers lp)) e t (lp_mTimerWorkingList lp)) as [l Hi].
  { intros x Hx. rewrite lookup_insert_ne by (intros ->; done). apply Hwk in Hx as (? & -> & _). done. }
  exists l. split; [done|]. apply insert_timer_spec in Hi as [Hp Hs'].
  - split; simpl.
    + done.
    + done.
    + rewrite Hp. by constructor.
    + intros x. rewrite Hp, elem_of_cons, Hwk. destruct (decide (x = t)) as [->|].
      * rewrite lookup_insert_eq. naive_solver.
      * rewrite lookup_insert_ne by done. naive_solver.
    + intros x. rewrite Hls. destruct (decide (x = t)) as [->|]; [|by rewrite lookup_insert_ne].
      rewrite lookup_insert_eq, Ht. naive_solver.
    + intros x tm'. destruct (decide (x = t)) as [->|]; [rewrite lookup_insert_eq; naive_solver|].
      rewrite lookup_insert_ne by done. apply Hen.
    + intros x tm'. destruct (decide (x = t)) as [->|]; [rewrite lookup_insert_eq; intros [= <-]; exact (Hwo t tm Ht)|].
      rewrite lookup_insert_ne by done. apply Hwo.
  - unfold expires. by rewrite lookup_insert_eq.
  - eapply StronglySorted_ext; [|exact Hs]. intros a b Hia Hib. rewrite !expires_insert_ne by (intros ->; done). done.
Qed.

(** The timer after [enable]. *)
Definition after_enable (enb : bool) (time_start init_value now : Z) tm : CSysLoopTimer :=
  match (if enb then expiry (if time_start <=? 0 then now else time_start) init_value tm else None) with
  | Some e => tm_arm e tm
  | None => tm_set_enable false tm
  end.

Lemma timer_enable_spec t tm enb ts iv now lp :
  loop_ok lp -> lp_timers lp !! t = Some tm -> (enb = true -> tm_mEventLoop tm = true) -> exists lp',
    timer_enable t enb ts iv now lp = Some lp' /\ loop_ok lp' /\ same_rest lp lp' /\
    lp_timers lp' = <[t:=after_enable enb ts iv now tm]> (lp_timers lp).
Proof.
  intros Hok Ht Ha. unfold timer_enable, after_enable. rewrite Ht. simpl.
  destruct (stop_spec t tm lp Hok Ht) as (lp1 & -> & Hok1 & Hm1 & Hw1 & Hr1). simpl.
  destruct enb; [|by exists lp1]. destruct (expiry _ _ _) as [e|]; [|by exists lp1]. rewrite Ha by done.
  destruct (arm_ok t (tm_set_enable false tm) e lp1) as (l & Hi & Hok2); try done.
  { by rewrite Hm1, lookup_insert_eq. } { by apply Ha. }
  change (tm_arm e (tm_set_enable false tm)) with (tm_arm e tm) in *. simpl. rewrite Hi. simpl.
  eexists. split; [done|]. split; [done|]. split; [done|]. simpl. by rewrite Hm1, insert_insert_eq.
Qed.

(** A new value for a timer which runs and is attached as before. *)
Lemma set_timer_ok t tm tm' lp :
  loop_ok lp -> lp_timers lp !! t = Some tm -> tm_mEnable tm' = tm_mEnable tm -> tm_mExpiration tm' = tm_mExpiration tm ->
  tm_mEventLoop tm' = tm_mEventLoop tm -> (tm_mEventLoop tm = true -> tm_mWorker tm' = true) -> loop_ok (lp_set_timer t tm' lp).
Proof.
  intros [Hl Hs Hw Hwk Hls Hen Hwo] Ht E1 E2 E3 E4.
  assert (forall x (P : CSysLoopTimer -> Prop), (P tm' <-> P tm) ->
    (exists tm0, <[t:=tm']> (lp_timers lp) !! x = Some tm0 /\ P tm0) <-> (exists tm0, lp_timers lp !! x = Some tm0 /\ P tm0)) as Hex.
  { intros x P HP. destruct (decide (x = t)) as [->|]; [|by rewrite lookup_insert_ne].
    rewrite lookup_insert_eq, Ht. split; intros (? & [= <-] & ?); eexists; (split; [done|by apply HP]). }
  split; simpl; try done.
  - eapply StronglySorted_ext; [|exact Hs]. intros a b _ _. unfold expires.
    destruct (decide (a = t)) as [->|], (decide (b = t)) as [->|];
      rewrite ?lookup_insert_eq, ?lookup_insert_ne, ?Ht by done; simpl; rewrite ?E2; done.
  - intros x. rewrite Hwk. symmetry. apply (Hex x (fun tm0 => tm_mEnable tm0 = true)). by rewrite E1.
  - intros x. rewrite Hls. symmetry. apply (Hex x (fun tm0 => tm_mEventLoop tm0 = true)). by rewrite E3.
  - intros x tm0. destruct (decide (x = t)) as [->|]; [|rewrite lookup_insert_ne by done; apply Hen].
    rewrite lookup_insert_eq. intros [= <-]. rewrite E1, E3. by apply (Hen t).
  - intros x tm0. destruct (decide (x = t)) as [->|]; [|rewrite lookup_insert_ne by done; apply Hwo].
    rewrite lookup_insert_eq. intros [= <-]. by rewrite E3.
Qed.

Lemma timer_enable_inv t enb ts iv now lp lp' :
  loop_ok lp -> timer_enable t enb ts iv now lp = Some lp' -> exists tm,
    lp_timers lp !! t = Some tm /\ loop_ok lp' /\ same_rest lp lp' /\
    lp_timers lp' = <[t:=after_enable enb ts iv now tm]> (lp_timers lp).
Proof.
  intros Hok He. destruct (lp_timers lp !! t) as [tm|] eqn:Ht; [|by unfold timer_enable in He; rewrite Ht in He].
  exists tm. split; [done|]. destruct (decide (enb = true -> tm_mEventLoop tm = true)) as [Ha|Ha].
  { destruct (timer_enable_spec t tm enb ts iv now lp Hok Ht Ha) as (? & E & H). rewrite E in He. by simplify_eq. }
  destruct enb, (tm_mEventLoop tm) eqn:Hl; try (exfalso; apply Ha; done).
  destruct (stop_spec t tm lp Hok Ht) as (lp1 & Es & Hok1 & Hm1 & _ & Hr1).
  unfold timer_enable in He. rewrite Ht in He. simpl in He. rewrite Es in He. simpl in He. rewrite Hl in He.
  unfold after_enable. destruct (expiry _ _ _); simplify_eq. done.
Qed.

Definition attached t lp : Prop := exists tm, lp_timers lp !! t = Some tm /\ tm_mEventLoop tm = true.

(** What a piece of an application's callback that detaches the timers [R] does to the
    loop: those of them which were attached are marked as destroyed, the others stay
    attached. *)
Record effect (R : gset Z) lp lp' : Prop := {
  ef_ok : loop_ok lp';
  ef_cnt : lp_mTimerRecursiveCnt lp' = lp_mTimerRecursiveCnt lp;
  ef_mono : lp_mTimerBlackList lp ⊆ lp_mTimerBlackList lp';
  ef_black : lp_mTimerBlackList lp' ⊆ lp_mTimerBlackList lp ∪ R;
  ef_removed : forall t, attached t lp -> t ∈ R -> t ∈ lp_mTimerBlackList lp';
  ef_kept : forall t, attached t lp -> t ∉ R -> attached t lp' }.

Lemma effect_refl lp : loop_ok lp -> effect ∅ lp lp.
Proof. intros H. split; try done. by rewrite union_empty_r_L. Qed.

Lemma effect_trans R1 R2 (lp lp1 lp2 : CBaseEventLoop) : effect R1 lp lp1 -> effect R2 lp1 lp2 -> effect (R1 ∪ R2) lp lp2.
Proof.
  intros [A1 A2 A3 A4 A5 A6] [B1 B2 B3 B4 B5 B6]. split; [done|congruence|by etrans|clear -A4 B4; set_solver| |].
  - intros t Ht HR. destruct (decide (t ∈ R1)) as [H1|H1]; [by apply B3, A5|]. apply B5; [by apply A6|]. by apply elem_of_union in HR as [|].
  - intros t Ht HR. apply not_elem_of_union in HR as [??]. apply B6; [by apply A6|done].
Qed.

(** A change of one timer which keeps it attached. *)
Lemma effect_insert t tm tm' lp lp' :
  lp_timers lp !! t = Some tm -> (tm_mEventLoop tm = true -> tm_mEventLoop tm' = true) -> loop_ok lp' ->
  lp_timers lp' = <[t:=tm']> (lp_timers lp) -> lp_mTimerBlackList lp' = lp_mTimerBlackList lp ->
  lp_mTimerRecursiveCnt lp' = lp_mTimerRecursiveCnt lp -> effect ∅ lp lp'.
Proof.
  intros Ht Ha Hok Hm Hb Hc. split; [done|done|by rewrite Hb|by rewrite Hb, union_empty_r_L|by intros ? _ ?%not_elem_of_empty|].
  intros x (tm0 & Hx & Hxa) _. unfold attached. rewrite Hm. destruct (decide (x = t)) as [->|].
  - rewrite lookup_insert_eq. eexists. split; [done|]. apply Ha. congruence.
  - rewrite lookup_insert_ne by done. eauto.
Qed.

Lemma after_enable_loop enb ts iv now tm : tm_mEventLoop (after_enable enb ts iv now tm) = tm_mEventLoop tm.
Proof. unfold after_enable. by destruct (if enb then _ else _). Qed.

Lemma effect_enable t enb ts iv now lp lp' : loop_ok lp -> timer_enable t enb ts iv now lp = Some lp' -> effect ∅ lp lp'.
Proof.
  intros Hok He. apply timer_enable_inv in He as (tm & Ht & Hok' & (_ & Hb & Hc) & Hm); [|done].
  apply (effect_insert t tm (after_enable enb ts iv now tm)); try done. by rewrite after_enable_loop.
Qed.

Lemma effect_config t enb rpt itv iv now lp lp' : loop_ok lp -> timer_config t enb rpt itv iv now lp = Some lp' -> effect ∅ lp lp'.
Proof.
  intros Hok. unfold timer_config. destruct (lp_timers lp !! t) as [tm|] eqn:Ht; [|done]. simpl.
  match goal with |- context [lp_set_timer t ?v lp] => set (tm' := v) end.
  assert (loop_ok (lp_set_timer t tm' lp)) as Hok'
    by (apply (set_timer_ok t tm); try done; exact (lk_worker _ Hok t tm Ht)).
  assert (effect ∅ lp (lp_set_timer t tm' lp)) as He by (by apply (effect_insert t tm tm')).
  destruct enb; intros H; [| |by injection H as <-].
  all: rewrite <- (union_empty_l_L ∅); eapply effect_trans; [exact He|]; by eapply effect_enable.
Qed.

(** Attaching, detaching and destroying a timer that does not run. *)
Lemma attach_ok t tm lp :
  loop_ok lp -> lp_timers lp !! t = Some tm -> tm_mEventLoop tm = false -> tm_mWorker tm = true ->
  loop_ok (lp_set_list (lp_mTimerList lp ++ [t]) (lp_set_timer t (tm_set_loop true tm) lp)).
Proof.
  intros Hok Ht Ha Hwk'. assert (tm_mEnable tm = false) as He.
  { destruct (tm_mEnable tm) eqn:E; [|done]. rewrite (lk_enabled _ Hok t tm Ht E) in Ha. done. }
  assert (t ∉ lp_mTimerList lp) as Hnt.
  { rewrite (lk_list _ Hok). intros (tm0 & E & ?). rewrite Ht in E. simplify_eq. congruence. }
  destruct (set_timer_ok t tm (tm_set_loop false tm) lp Hok Ht eq_refl eq_refl (eq_sym Ha)) as [Hl Hs Hw Hwk Hls Hen Hwo];
    [by rewrite Ha|]. simpl in *. split; simpl.
  - apply NoDup_app. split_and!; [done| |apply NoDup_singleton]. intros x Hx ->%list_elem_of_singleton. done.
  - eapply StronglySorted_ext; [|exact Hs]. intros a b _ _. unfold expires.
    destruct (decide (a = t)) as [->|], (decide (b = t)) as [->|]; rewrite ?lookup_insert_eq, ?lookup_insert_ne by done; done.
  - done.
  - intros x. rewrite Hwk. destruct (decide (x = t)) as [->|]; [|by rewrite !lookup_insert_ne].
    rewrite !lookup_insert_eq. split; intros (? & [= <-] & ?); eauto.
  - intros x. rewrite elem_of_app, list_elem_of_singleton, Hls. destruct (decide (x = t)) as [->|].
    + rewrite !lookup_insert_eq. split; [eauto|]. by right.
    + rewrite !lookup_insert_ne by done. split; [by intros [|]|by left].
  - intros x tm0. destruct (decide (x = t)) as [->|]; [rewrite lookup_insert_eq; by intros [= <-]|].
    rewrite lookup_insert_ne by done. specialize (Hen x tm0). by rewrite lookup_insert_ne in Hen.
  - intros x tm0. destruct (decide (x = t)) as [->|]; [rewrite lookup_insert_eq; by intros [= <-]|].
    rewrite lookup_insert_ne by done. specialize (Hwo x tm0). by rewrite lookup_insert_ne in Hwo.
Qed.

Lemma detach_ok t tm lp :
  loop_ok lp -> lp_timers lp !! t = Some tm -> tm_mEnable tm = false ->
  loop_ok (lp_set_timer t (tm_set_loop false tm) (lp_set_list (remove_value t (lp_mTimerList lp)) lp)).
Proof.
  intros [Hl Hs Hw Hwk Hls Hen Hwo] Ht He. split; simpl.
  - by apply NoDup_remove_value.
  - eapply StronglySorted_ext; [|exact Hs]. intros a b _ _. unfold expires.
    destruct (decide (a = t)) as [->|], (decide (b = t)) as [->|]; rewrite ?lookup_insert_eq, ?lookup_insert_ne, ?Ht by done; done.
  - done.
  - intros x. rewrite Hwk. destruct (decide (x = t)) as [->|]; [|by rewrite lookup_insert_ne].
    rewrite lookup_insert_eq, Ht. split; intros (? & [= <-] & ?); eauto.
  - intros x. rewrite elem_remove_value, Hls by done. destruct (decide (x = t)) as [->|].
    + rewrite lookup_insert_eq. split; [by intros [_ ?]|]. by intros (? & [= <-] & ?).
    + rewrite lookup_insert_ne by done. by split; [intros [? _]|].
  - intros x tm0. destruct (decide (x = t)) as [->|]; [|rewrite lookup_insert_ne by done; apply Hen].
    rewrite lookup_insert_eq. intros [= <-]. simpl. congruence.
  - intros x tm0. destruct (decide (x = t)) as [->|]; [rewrite lookup_insert_eq; by intros [= <-]|].
    rewrite lookup_insert_ne by done. apply Hwo.
Qed.

Lemma black_ok s lp : loop_ok lp -> loop_ok (lp_set_black s lp).
Proof. intros []. by split. Qed.

Lemma cnt_ok n lp : loop_ok lp -> loop_ok (lp_set_cnt n lp).
Proof. intros []. by split. Qed.

(** [removeTimer] succeeds on any timer, leaves it idle, detached and marked. *)
Lemma removeTimer_spec t tm now lp :
  loop_ok lp -> lp_timers lp !! t = Some tm -> exists lp',
    removeTimer t now lp = Some lp' /\ loop_ok lp' /\ lp_mTimerRecursiveCnt lp' = lp_mTimerRecursiveCnt lp /\
    lp_mTimerBlackList lp' = {[t]} ∪ lp_mTimerBlackList lp /\
    lp_timers lp' = <[t:=tm_set_loop false (tm_set_enable false tm)]> (lp_timers lp).
Proof.
  intros Hok Ht. unfold removeTimer, addTimerToBlacklist.
  destruct (timer_enable_spec t tm false 0 0 now (lp_set_black ({[t]} ∪ lp_mTimerBlackList lp) lp))
    as (lp1 & -> & Hok1 & (Hl & Hb & Hc) & Hm); try done; [by apply black_ok|].
  simpl in *. rewrite Hm, lookup_insert_eq. simpl. eexists. split; [done|]. split_and!; try done.
  - change (after_enable false 0 0 now tm) with (tm_set_enable false tm).
    apply detach_ok; [done|by rewrite Hm, lookup_insert_eq|done].
  - simpl. by rewrite Hm, insert_insert_eq.
Qed.

Lemma effect_removeTimer t now lp lp' : loop_ok lp -> removeTimer t now lp = Some lp' -> effect {[t]} lp lp'.
Proof.
  intros Hok Hr. destruct (lp_timers lp !! t) as [tm|] eqn:Ht.
  - destruct (removeTimer_spec t tm now lp Hok Ht) as (? & E & Hok' & Hc & Hb & Hm). rewrite E in Hr. simplify_eq.
    split; try done; [rewrite Hb; clear; set_solver..|rewrite Hb; intros x _; clear; set_solver|].
    intros x (tm0 & Hx & Ha) Hn%not_elem_of_singleton. exists tm0. by rewrite Hm, lookup_insert_ne.
  - unfold removeTimer, timer_enable in Hr. simpl in Hr. by rewrite Ht in Hr.
Qed.

Lemma effect_empty R lp lp' : effect R lp lp' -> R = ∅ -> effect ∅ lp lp'.
Proof. by intros H <-. Qed.

Lemma effect_addTimer t enb now lp lp' tm :
  loop_ok lp -> lp_timers lp !! t = Some tm -> tm_mEventLoop tm = false -> tm_mWorker tm = true ->
  addTimer t enb now lp = Some lp' -> effect ∅ lp lp'.
Proof.
  intros Hok Ht Ha Hw. unfold addTimer. case_bool_decide; [intros [= <-]; by apply effect_refl|].
  rewrite Ht. simpl. intros He. pose proof (attach_ok t tm lp Hok Ht Ha Hw) as Hok1.
  apply (effect_empty (∅ ∪ ∅)); [|set_solver]. eapply effect_trans; [|by eapply effect_enable].
  by apply (effect_insert t tm (tm_set_loop true tm)).
Qed.

Lemma delete_ok t lp :
  loop_ok lp -> ~ attached t lp ->
  loop_ok (mkLoop (delete t (lp_timers lp)) (lp_mTimerList lp) (lp_mTimerWorkingList lp) (lp_mTimerBlackList lp) (lp_mTimerRecursiveCnt lp)).
Proof.
  intros [Hl Hs Hw Hwk Hls Hen Hwo] Hn. assert (forall x tm, x <> t \/ lp_timers lp !! x = Some tm /\ tm_mEventLoop tm = true ->
    delete t (lp_timers lp) !! x = lp_timers lp !! x) as Hd.
  { intros x tm H. apply lookup_delete_ne. intros <-. destruct H as [|[H1 H2]]; [done|]. apply Hn. by exists tm. }
  split; simpl; try done.
  - eapply StronglySorted_ext; [|exact Hs]. intros a b Ia Ib. unfold expires.
    apply Hwk in Ia as (ta & Ea & Ha), Ib as (tb & Eb & Hb).
    rewrite (Hd a ta), (Hd b tb); [done|right; split; [done|by eapply Hen]..].
  - intros x. rewrite Hwk. split; intros (tm & E & H).
    + exists tm. rewrite (Hd x tm); [done|]. right. split; [done|by eapply Hen].
    + apply lookup_delete_Some in E as [_ E]. eauto.
  - intros x. rewrite Hls. split; intros (tm & E & H).
    + exists tm. rewrite (Hd x tm); [done|by right].
    + apply lookup_delete_Some in E as [_ E]. eauto.
  - intros x tm [_ E]%lookup_delete_Some. by eapply Hen.
  - intros x tm [_ E]%lookup_delete_Some. by eapply Hwo.
Qed.

Lemma create_ok t itv rpt lp : loop_ok lp -> lp_timers lp !! t = None -> loop_ok (lp_set_timer t (CSysLoopTimer_new itv rpt) lp).
Proof.
  intros [Hl Hs Hw Hwk Hls Hen Hwo] Ht.
  assert (forall x, x <> t \/ is_Some (lp_timers lp !! x) ->
    <[t:=CSysLoopTimer_new itv rpt]> (lp_timers lp) !! x = lp_timers lp !! x) as Hd.
  { intros x H. apply lookup_insert_ne. intros <-. destruct H as [|[tm H]]; [done|]. congruence. }
  split; simpl; try done.
  - eapply StronglySorted_ext; [|exact Hs]. intros a b Ia Ib. unfold expires.
    apply Hwk in Ia as (ta & Ea & Ha), Ib as (tb & Eb & Hb). rewrite (Hd a), (Hd b); eauto.
  - intros x. rewrite Hwk. destruct (decide (x = t)) as [->|]; [|by rewrite lookup_insert_ne].
    rewrite lookup_insert_eq, Ht. split; intros (? & E & ?); by simplify_eq.
  - intros x. rewrite Hls. destruct (decide (x = t)) as [->|]; [|by rewrite lookup_insert_ne].
    rewrite lookup_insert_eq, Ht. split; intros (? & E & ?); by simplify_eq.
  - intros x tm [[_ <-]|[_ E]]%lookup_insert_Some; [done|by eapply Hen].
  - intros x tm [[_ <-]|[_ E]]%lookup_insert_Some; [done|by eapply Hwo].
Qed.

(** The timers an operation detaches. *)
Definition op_removes (op : TimerOp) : gset Z :=
  match op with ToDetach t | ToDestroy t => {[t]} | _ => ∅ end.

Definition ops_remove (ops : list TimerOp) : gset Z := ⋃ (op_removes <$> ops).

Lemma effect_loop_config t enb rpt itv iv now lp lp' :
  loop_ok lp -> loop_timer_config t enb rpt itv iv now lp = Some lp' -> effect ∅ lp lp'.
Proof.
  intros Hok. unfold loop_timer_config. destruct (lp_timers lp !! t) as [tm|] eqn:Ht; [|done]. simpl.
  destruct (tm_mWorker tm); [by apply effect_config|]. intros [= <-]. by apply effect_refl.
Qed.

Lemma effect_detach t now lp lp' :
  loop_ok lp -> timer_detach t now lp = Some lp' -> effect {[t]} lp lp' /\ ~ attached t lp'.
Proof.
  intros Hok. unfold timer_detach. destruct (lp_timers lp !! t) as [tm|] eqn:Ht; [|done]. simpl.
  destruct (tm_mWorker tm) eqn:Hw.
  - destruct (removeTimer_spec t tm now lp Hok Ht) as (lp1 & E & Hok1 & Hc & Hb & Hm). rewrite E. simpl.
    rewrite Hm, lookup_insert_eq. simpl. intros [= <-]. split.
    + rewrite <- (union_empty_r_L {[t]}). eapply effect_trans; [by eapply effect_removeTimer|].
      apply (effect_insert t (tm_set_loop false (tm_set_enable false tm)) (tm_set_worker false (tm_set_loop false (tm_set_enable false tm))));
        try done; [by rewrite Hm, lookup_insert_eq|].
      apply (set_timer_ok t (tm_set_loop false (tm_set_enable false tm))); try done; by rewrite Hm, lookup_insert_eq.
    + intros (tm0 & E0 & Ha). simpl in E0. rewrite lookup_insert_eq in E0. by simplify_eq.
  - intros [= <-]. assert (~ attached t lp) as Hn.
    { intros (tm0 & E0 & Ha). rewrite Ht in E0. simplify_eq. rewrite (lk_worker _ Hok t tm0 Ht Ha) in Hw. done. }
    split; [|done]. split; try done; [set_solver|by intros x Hx ->%elem_of_singleton].
Qed.

Lemma effect_op op now lp lp' : loop_ok lp -> timer_op op now lp = Some lp' -> effect (op_removes op) lp lp'.
Proof.
  intros Hok. destruct op as [t itv rpt|t itv|t|t itv iv|t itv|t enb|t|t]; simpl; try by apply effect_loop_config.
  - destruct (lp_timers lp !! t) eqn:Ht; [done|]. intros [= <-]. pose proof (create_ok t itv rpt lp Hok Ht) as Hok'.
    split; try done; simpl; [by rewrite union_empty_r_L|].
    intros x (tm & E & Ha) _. exists tm. simpl. rewrite lookup_insert_ne; [done|]. intros <-. congruence.
  - unfold timer_attach. destruct (lp_timers lp !! t) as [tm|] eqn:Ht; [|done]. simpl.
    destruct (tm_mWorker tm) eqn:Hw; [by apply effect_config|]. intros He.
    assert (tm_mEventLoop tm = false) as Ha.
    { destruct (tm_mEventLoop tm) eqn:E; [|done]. by rewrite (lk_worker _ Hok t tm Ht E) in Hw. }
    assert (loop_ok (lp_set_timer t (tm_set_worker true tm) lp)) as Hok1 by (by eapply set_timer_ok).
    rewrite <- (union_empty_r_L ∅). eapply effect_trans; [by apply (effect_insert t tm (tm_set_worker true tm))|].
    eapply effect_addTimer; [done|simpl; apply lookup_insert_eq|done|done|done].
  - intros H. by apply effect_detach in H as [? _].
  - unfold destroyTimer. destruct (timer_detach t now lp) as [lp1|] eqn:E; [|done]. simpl. intros [= <-].
    apply effect_detach in E as [[A1 A2 A3 A4 A5 A6] Hn]; [|done]. split; simpl; try done; [by apply delete_ok|].
    intros x Hx Hr. destruct (A6 x Hx Hr) as (tm & E & Ha). exists tm. simpl. rewrite lookup_delete_ne; [done|].
    intros <-. set_solver.
Qed.

Lemma effect_ops ops now lp lp' : loop_ok lp -> timer_ops ops now lp = Some lp' -> effect (ops_remove ops) lp lp'.
Proof.
  revert lp. induction ops as [|op ops IH]; intros lp Hok; simpl; [intros [= <-]; by apply effect_refl|].
  destruct (timer_op op now lp) as [lp1|] eqn:E; [|done]. simpl. intros H.
  apply effect_op in E; [|done]. unfold ops_remove. simpl. eapply effect_trans; [exact E|]. apply IH; [apply E|done].
Qed.

(** ** A round of timers *)

(** What a round should run: the expired timers in turn, less those which one that
    ran before has detached or destroyed. A timer that throws is detached too. *)
Fixpoint spec_fires (run : TimerRun) (due : list Z) (removed : gset Z) : list Z :=
  match due with
  | [] => []
  | t :: due =>
      if bool_decide (t ∈ removed) then spec_fires run due removed
      else t :: spec_fires run due (removed ∪ (ops_remove (run t).1 ∪ (if (run t).2 then {[t]} else ∅)))
  end.

Lemma take_due_spec h now l :
  StronglySorted (fun a b => expires h a <= expires h b) l -> (forall t, t ∈ l -> is_Some (h !! t)) ->
  take_due h now l = Some (filter (fun t => expires h t <= now) l).
Proof.
  induction 1 as [|t l Hs IH Ht]; intros Hd; [done|]. simpl. destruct (Hd t) as [tm Hm]; [set_solver|]. rewrite Hm. simpl.
  assert (expires h t = tm_mExpiration tm) as He by (unfold expires; by rewrite Hm).
  rewrite filter_cons, He, Z.geb_leb. destruct (Z.leb_spec (tm_mExpiration tm) now).
  - rewrite decide_True, IH by (done || set_solver). done.
  - rewrite decide_False by lia. f_equal. symmetry. apply elem_of_nil_inv.
    intros x [Hx Hin]%list_elem_of_filter. rewrite Forall_forall in Ht. specialize (Ht x Hin). simpl in Ht. lia.
Qed.

Lemma rearm_spec ts now lp :
  loop_ok lp -> NoDup ts -> (forall t, t ∈ ts -> attached t lp) -> exists lp',
    rearm ts now lp = Some lp' /\ loop_ok lp' /\ same_rest lp lp' /\
    (forall t tm, t ∈ ts -> lp_timers lp !! t = Some tm -> lp_timers lp' !! t = Some (after_enable (tm_mRepeat tm) now 0 now tm)) /\
    (forall t, t ∉ ts -> lp_timers lp' !! t = lp_timers lp !! t).
Proof.
  intros Hok Hn. revert lp Hok. induction Hn as [|t ts Ht Hn IH]; intros lp Hok Ha; simpl.
  { exists lp. split_and!; try done. by intros t tm ?%elem_of_nil. }
  destruct (Ha t) as (tm & Hm & Hat); [set_solver|]. rewrite Hm. simpl.
  destruct (timer_enable_spec t tm (tm_mRepeat tm) now 0 now lp Hok Hm) as (lp1 & -> & Hok1 & Hr1 & Hm1); [done|].
  simpl. destruct (IH lp1 Hok1) as (lp2 & -> & Hok2 & Hr2 & Hin & Hout).
  { intros x Hx. destruct (Ha x) as (tm0 & E0 & ?); [set_solver|]. exists tm0. rewrite Hm1, lookup_insert_ne; [done|]. set_solver. }
  exists lp2. split; [done|]. split; [done|]. split_and!.
  - destruct Hr1 as (E1 & E2 & E3), Hr2 as (F1 & F2 & F3). split_and!; congruence.
  - intros x tm0 [->|Hx]%elem_of_cons E0.
    + rewrite Hout by done. rewrite Hm1, lookup_insert_eq. congruence.
    + apply Hin; [done|]. rewrite Hm1, lookup_insert_ne; [done|]. set_solver.
  - intros x Hx. rewrite Hout by set_solver. rewrite Hm1, lookup_insert_ne; [done|]. set_solver.
Qed.

Lemma run_timers_spec run ts now lp R :
  loop_ok lp -> (forall t, t ∈ ts -> attached t lp \/ t ∈ lp_mTimerBlackList lp) ->
  (forall t, t ∈ ts -> t ∈ lp_mTimerBlackList lp <-> t ∈ R) ->
  match run_timers run ts now lp with
  | inl e => e = AppFault
  | inr (lp', fired) => loop_ok lp' /\ lp_mTimerRecursiveCnt lp' = lp_mTimerRecursiveCnt lp /\ fired = spec_fires run ts R
  end.
Proof.
  revert lp R. induction ts as [|t ts IH]; intros lp R Hok Ha HR; simpl; [done|]. unfold timerDestroyed.
  rewrite (bool_decide_ext (t ∈ lp_mTimerBlackList lp) (t ∈ R)) by (apply HR; set_solver).
  case_bool_decide as Hd; [apply IH; set_solver|].
  assert (attached t lp) as Hat by (destruct (Ha t) as [|E]; [set_solver|done|apply HR in E; set_solver]).
  destruct (id Hat) as (tm & Hm & _). rewrite Hm.
  destruct (timer_ops (run t).1 now lp) as [lp1|] eqn:E; [|done]. apply effect_ops in E; [|done].
  set (X := ops_remove (run t).1) in *.
  assert (exists lp2, (if (run t).2 && negb (bool_decide (t ∈ lp_mTimerBlackList lp1)) then removeTimer t now lp1 else Some lp1) = Some lp2 /\
    effect (X ∪ (if (run t).2 then {[t]} else ∅)) lp lp2) as (lp2 & -> & E2).
  { destruct (run t).2; simpl; [|rewrite union_empty_r_L; eauto]. case_bool_decide as Hb; simpl.
    - exists lp1. split; [done|]. destruct E as [A1 A2 A3 A4 A5 A6]. split; try done; [clear -A4; set_solver| |].
      + intros x Hx [HX| ->%elem_of_singleton]%elem_of_union; [by apply A5|done].
      + intros x Hx [HX _]%not_elem_of_union. by apply A6.
    - assert (t ∉ X) as HX by (intros HX; apply Hb, (ef_removed _ _ _ E); done).
      destruct (ef_kept _ _ _ E t Hat HX) as (tm1 & Hm1 & _).
      destruct (removeTimer_spec t tm1 now lp1 (ef_ok _ _ _ E) Hm1) as (lp2 & E2 & _). exists lp2. split; [done|].
      eapply effect_trans; [exact E|]. apply (effect_removeTimer t now); [apply E|done]. }
  specialize (IH lp2 (R ∪ (X ∪ (if (run t).2 then {[t]} else ∅)))).
  destruct E2 as [A1 A2 A3 A4 A5 A6]. set (Y := X ∪ _) in *.
  assert (forall x, x ∈ ts -> attached x lp2 \/ x ∈ lp_mTimerBlackList lp2) as Ha2.
  { intros x Hx. destruct (Ha x) as [H|H]; [set_solver| |right; by apply A3].
    destruct (decide (x ∈ Y)); [right; by apply A5|left; by apply A6]. }
  specialize (IH A1 Ha2). destruct (run_timers run ts now lp2) as [e|[lp3 fired]].
  - apply IH. intros x Hx. specialize (HR x). specialize (Ha x). clear -Hx HR Ha A3 A4 A5. set_solver.
  - destruct IH as (H1 & H2 & ->); [|split_and!; [done|congruence|done]].
    intros x Hx. specialize (HR x). specialize (Ha x). clear -Hx HR Ha A3 A4 A5. set_solver.
Qed.

Lemma run_timers_quiet run ts now lp :
  (forall t, run t = ([], false)) -> (forall t, t ∈ ts -> attached t lp /\ t ∉ lp_mTimerBlackList lp) ->
  run_timers run ts now lp = inr (lp, ts).
Proof.
  intros Hq. induction ts as [|t ts IH]; intros Ha; simpl; [done|]. unfold timerDestroyed.
  destruct (Ha t) as [(tm & -> & _) Hb]; [set_solver|]. rewrite bool_decide_eq_false_2 by done. rewrite Hq. simpl.
  rewrite IH by set_solver. done.
Qed.

Definition due_timers (now : Z) lp : list Z := filter (fun t => expires (lp_timers lp) t <= now) (lp_mTimerWorkingList lp).

(** The state in which the callbacks of a round start. *)
Lemma round_start now lp :
  loop_ok lp -> lp_mTimerRecursiveCnt lp = 0 ->
  take_due (lp_timers lp) now (lp_mTimerWorkingList lp) = Some (due_timers now lp) /\
  exists lp1, rearm (due_timers now lp) now (beginTimerBlackList lp) = Some lp1 /\ loop_ok lp1 /\
    lp_mTimerBlackList lp1 = ∅ /\ lp_mTimerRecursiveCnt lp1 = 1 /\ (forall t, t ∈ due_timers now lp -> attached t lp1) /\
    (forall t tm, lp_timers lp !! t = Some tm -> lp_timers lp1 !! t =
       Some (if decide (t ∈ due_timers now lp) then after_enable (tm_mRepeat tm) now 0 now tm else tm)).
Proof.
  intros Hok Hc. split.
  { apply take_due_spec; [apply Hok|]. intros t (tm & -> & _)%(lk_work _ Hok). done. }
  assert (forall t, t ∈ due_timers now lp -> attached t lp) as Hd.
  { intros t [_ (tm & E & He)%(lk_work _ Hok)]%list_elem_of_filter. exists tm. split; [done|]. by apply (lk_enabled _ Hok t). }
  assert (loop_ok (beginTimerBlackList lp)) as Hok1
    by (unfold beginTimerBlackList; rewrite Hc; by apply black_ok, cnt_ok).
  assert (forall t, lp_timers (beginTimerBlackList lp) !! t = lp_timers lp !! t) as Hm
    by (intros t; unfold beginTimerBlackList; by rewrite Hc).
  destruct (rearm_spec (due_timers now lp) now (beginTimerBlackList lp)) as (lp1 & E & Hok2 & (_ & Hb & Hc1) & Hin & Hout).
  - done.
  - apply NoDup_filter, Hok.
  - intros t Ht. destruct (Hd t Ht) as (tm & ? & ?). exists tm. by rewrite Hm.
  - exists lp1. split_and!; try done.
    + rewrite Hb. unfold beginTimerBlackList. by rewrite Hc.
    + rewrite Hc1. unfold beginTimerBlackList. by rewrite Hc.
    + intros t Ht. destruct (Hd t Ht) as (tm & Et & Ha). exists (after_enable (tm_mRepeat tm) now 0 now tm).
      split; [|by rewrite after_enable_loop]. apply Hin; [done|]. by rewrite Hm.
    + intros t tm Ht. case_decide as Hdt; [apply Hin; [done|by rewrite Hm]|]. by rewrite Hout, Hm.
Qed.

(** A round, from any state that meets the invariant. *)
Lemma processTimers_spec run now lp :
  loop_ok lp -> lp_mTimerRecursiveCnt lp = 0 ->
  match processTimers run now lp with
  | inl e => e = AppFault
  | inr (lp', fired) =>
      loop_ok lp' /\ lp_mTimerRecursiveCnt lp' = 0 /\ fired = spec_fires run (due_timers now lp) ∅ /\
      ((forall t, run t = ([], false)) ->
       forall t tm, lp_timers lp !! t = Some tm -> lp_timers lp' !! t =
         Some (if decide (t ∈ due_timers now lp) then after_enable (tm_mRepeat tm) now 0 now tm else tm))
  end.
Proof.
  intros Hok Hc. destruct (round_start now lp Hok Hc) as (Ht & lp1 & Er & Hok1 & Hb & Hc1 & Ha & Hm).
  unfold processTimers. rewrite Ht. destruct (due_timers now lp) as [|t ts] eqn:Ed.
  { by split_and!. }
  rewrite Er. rewrite <- Ed in *.
  pose proof (run_timers_spec run (due_timers now lp) now lp1 ∅ Hok1 ltac:(eauto) ltac:(intros; by rewrite Hb)) as H.
  destruct (run_timers run _ now lp1) as [e|[lp2 fired]] eqn:E; [done|]. destruct H as (H1 & H2 & ->).
  unfold endTimerBlackList. rewrite H2, Hc1. simpl. split_and!; try done.
  - by apply black_ok, cnt_ok.
  - intros Hq t0 tm0 E0. rewrite run_timers_quiet in E; [|done|].
    + injection E as <- _. by apply Hm.
    + intros x Hx. split; [by apply Ha|]. by rewrite Hb.
Qed.

(** The states a loop goes through. *)
Inductive loop_reach : CBaseEventLoop -> Prop :=
  | lr_new : loop_reach CBaseEventLoop_new
  | lr_op op now lp lp' : loop_reach lp -> timer_op op now lp = Some lp' -> loop_reach lp'
  | lr_round run now lp lp' fired : loop_reach lp -> processTimers run now lp = inr (lp', fired) -> loop_reach lp'.

Lemma loop_reach_inv lp : loop_reach lp -> loop_ok lp /\ lp_mTimerRecursiveCnt lp = 0.
Proof.
  induction 1 as [|op now lp lp' _ [IH1 IH2] E|run now lp lp' fired _ [IH1 IH2] E].
  - split; [|done]. split; simpl; try (by constructor); intros t; rewrite ?lookup_empty; try done.
    all: split; [by intros ?%elem_of_nil|by intros (? & ? & _)].
  - apply effect_op in E; [|done]. split; [apply E|]. rewrite (ef_cnt _ _ _ E). done.
  - pose proof (processTimers_spec run now lp IH1 IH2) as H. rewrite E in H. by destruct H as (? & ? & _).
Qed.

(** C30: A round of timers runs exactly the timers it should. In every state a loop
    reaches it runs the enabled timers that have expired, in the order in
    which they expire, leaving out those that a timer before them has detached or
    destroyed; the loop never touches a timer that has been destroyed, whatever the
    callbacks do (only a callback that does so itself makes the round fail); the
    invariant holds again afterwards; and when the callbacks leave the timers
    alone, a repeating timer is armed again from now and a one-shot timer is off. *)
Theorem processTimers_exact run now lp :
  loop_reach lp ->
  match processTimers run now lp with
  | inl e => e = AppFault
  | inr (lp', fired) =>
      loop_ok lp' /\ lp_mTimerRecursiveCnt lp' = 0 /\ fired = spec_fires run (due_timers now lp) ∅ /\
      ((forall t, run t = ([], false)) ->
       forall t tm, lp_timers lp !! t = Some tm -> lp_timers lp' !! t =
         Some (if decide (t ∈ due_timers now lp) then after_enable (tm_mRepeat tm) now 0 now tm else tm))
  end.
Proof. intros [Hok Hc]%loop_reach_inv. by apply processTimers_spec. Qed.

(** [uninstallTimers], which the destructor of the loop calls. *)
Lemma removeTimers_spec ts now lp :
  loop_ok lp -> NoDup ts -> (forall t, t ∈ ts -> attached t lp) -> exists lp',
    removeTimers ts now lp = Some lp' /\ loop_ok lp' /\ (forall t, attached t lp' <-> attached t lp /\ t ∉ ts).
Proof.
  intros Hok Hn. revert lp Hok. induction Hn as [|t ts Ht Hn IH]; intros lp Hok Ha; simpl.
  { exists lp. split_and!; try done. intros t. split; [|by intros [? _]]. intros ?. split; [done|apply not_elem_of_nil]. }
  destruct (Ha t) as (tm & Hm & _); [set_solver|].
  destruct (removeTimer_spec t tm now lp Hok Hm) as (lp1 & -> & Hok1 & _ & _ & Hm1). simpl.
  assert (forall x, attached x lp1 <-> attached x lp /\ x <> t) as Hat.
  { intros x. unfold attached. rewrite Hm1. destruct (decide (x = t)) as [->|].
    - rewrite lookup_insert_eq. split; [by intros (? & [= <-] & ?)|by intros [_ ?]].
    - rewrite lookup_insert_ne by done. by split; [|intros [? _]]. }
  destruct (IH lp1 Hok1) as (lp2 & E & Hok2 & H2).
  { intros x Hx. apply Hat. split; [apply Ha; set_solver|]. by intros ->. }
  exists lp2. split_and!; [done|done|]. intros x. rewrite H2, Hat, elem_of_cons. naive_solver.
Qed.

(** Whatever an application does with its timers, in callbacks or outside, creating and
    destroying them included: in every state an event loop reaches, the working list
    holds exactly the enabled timers, each once and by the time it expires, the
    list of timers exactly the attached ones, and no list holds a destroyed timer.
    Destroying the loop detaches and stops every timer. *)
Theorem loop_reach_ok lp :
  loop_reach lp -> loop_ok lp /\ lp_mTimerRecursiveCnt lp = 0 /\
    forall now, exists lp', uninstallTimers now lp = Some lp' /\ lp_mTimerWorkingList lp' = [] /\ lp_mTimerList lp' = [].
Proof.
  intros [Hok Hc]%loop_reach_inv. split; [done|]. split; [done|]. intros now.
  destruct (removeTimers_spec (lp_mTimerList lp) now lp Hok (lk_nodup _ Hok)) as (lp' & E & Hok' & H).
  { intros t Ht. by apply (lk_list _ Hok). }
  exists lp'. split; [done|].
  assert (forall t, ~ attached t lp') as Hn by (intros t [Ha Hb]%H; apply Hb; by apply (lk_list _ Hok)).
  split; apply elem_of_nil_inv; intros t Ht.
  - apply (lk_work _ Hok') in Ht as (tm & Et & He). apply (Hn t). exists tm. split; [done|]. by apply (lk_enabled _ Hok' t).
  - apply (lk_list _ Hok') in Ht. by apply (Hn t).
Qed.

(** An event loop sleeps exactly until its next timer: [getMostRecentTime] is -1 (wait
    for ever) when no timer is enabled, 0 when one has expired, and otherwise the time
    to the earliest expiry of an enabled timer. The intervals are 32-bit numbers, so
    no timer is as far away as 2^31 milliseconds. *)
Theorem getMostRecentTime_exact now lp :
  loop_reach lp ->
  (forall t tm, lp_timers lp !! t = Some tm -> tm_mEnable tm = true -> tm_mExpiration tm - now < 2 ^ 31) ->
  exists w, getMostRecentTime now lp = Some w /\
    ((w = -1 /\ forall t tm, lp_timers lp !! t = Some tm -> tm_mEnable tm = false) \/
     (0 <= w /\ (forall t tm, lp_timers lp !! t = Some tm -> tm_mEnable tm = true -> w = 0 \/ now + w <= tm_mExpiration tm) /\
      exists t tm, lp_timers lp !! t = Some tm /\ tm_mEnable tm = true /\ tm_mExpiration tm <= now + w)).
Proof.
  intros [Hok _]%loop_reach_inv Hb. pose proof (lk_sorted _ Hok) as Hs. pose proof (lk_work _ Hok) as Hw.
  unfold getMostRecentTime. destruct (lp_mTimerWorkingList lp) as [|t l].
  { exists (-1). split; [done|]. left. split; [done|]. intros t tm Ht. destruct (tm_mEnable tm) eqn:E; [|done].
    assert (t ∈ ([] : list Z)) as ?%elem_of_nil; [|done]. apply Hw. eauto. }
  destruct (proj1 (Hw t)) as (tm & Ht & He); [set_solver|]. rewrite Ht. simpl. eexists. split; [done|]. right.
  assert (forall x tmx, lp_timers lp !! x = Some tmx -> tm_mEnable tmx = true -> tm_mExpiration tm <= tm_mExpiration tmx) as Hmin.
  { intros x tmx Hx Hex. assert (x ∈ t :: l) as Hin by (apply Hw; eauto).
    apply elem_of_cons in Hin as [->|Hin]; [rewrite Ht in Hx; by simplify_eq|].
    apply StronglySorted_inv in Hs as [_ Hf]. rewrite Forall_forall in Hf. specialize (Hf x Hin). simpl in Hf.
    unfold expires in Hf. rewrite Ht, Hx in Hf. done. }
  rewrite Z.gtb_ltb. specialize (Hb t tm Ht He). destruct (Z.ltb_spec now (tm_mExpiration tm)).
  - rewrite wrap_s_small by (unfold in_s; lia). split; [lia|]. split.
    + intros x tmx Hx Hex. specialize (Hmin x tmx Hx Hex). lia.
    + exists t, tm. split_and!; try done. lia.
  - split; [lia|]. split; [by left|]. exists t, tm. split_and!; try done. lia.
Qed.

Lemma reach_ops ops now lp lp' : loop_reach lp -> timer_ops ops now lp = Some lp' -> loop_reach lp'.
Proof.
  revert lp. induction ops as [|op ops IH]; intros lp Hr; simpl; [by intros [= <-]|].
  destruct (timer_op op now lp) as [lp1|] eqn:E; [|done]. simpl. apply IH. by eapply lr_op.
Qed.

(** Three timers: 1 repeats every 10 ms, 2 and 3 expire once after 5 and 7 ms. *)
Definition demo_ops : list TimerOp :=
  [ToCreate 1 10 true; ToCreate 2 5 false; ToCreate 3 7 false; ToAttach 1 true; ToAttach 2 true; ToAttach 3 true].
Definition demo_loop : CBaseEventLoop := default CBaseEventLoop_new (timer_ops demo_ops 100 CBaseEventLoop_new).

Lemma demo_reach : loop_reach demo_loop.
Proof. apply (reach_ops demo_ops 100 CBaseEventLoop_new); [constructor|]. vm_compute. reflexivity. Qed.

(** Timer 2 destroys timer 3. *)
Definition demo_run : TimerRun := fun t => if t =? 2 then ([ToDestroy 3], false) else ([], false).

Definition fired_of (r : LoopErr + (CBaseEventLoop * list Z)) : option (list Z) :=
  match r with inl _ => None | inr (_, fired) => Some fired end.

Lemma processTimers_exact_witness :
  fired_of (processTimers demo_run 110 demo_loop) = Some [2; 1] /\
  spec_fires demo_run (due_timers 110 demo_loop) ∅ = [2; 1].
Proof.
  assert (fired_of (processTimers demo_run 110 demo_loop) = Some [2; 1]) as E by (vm_compute; reflexivity).
  split; [exact E|]. generalize (processTimers_exact demo_run 110 demo_loop demo_reach).
  destruct (processTimers demo_run 110 demo_loop) as [e|[lp' fired]]; [discriminate|].
  intros (_ & _ & H & _). simpl in E. injection E as ->. symmetry. exact H.
Defined.

Lemma loop_reach_ok_witness : loop_ok demo_loop /\ lp_mTimerWorkingList demo_loop = [2; 3; 1].
Proof. split; [exact (proj1 (loop_reach_ok demo_loop demo_reach))|vm_compute; reflexivity]. Defined.

Lemma getMostRecentTime_exact_witness :
  getMostRecentTime 101 demo_loop = Some 4 /\
  exists t tm, lp_timers demo_loop !! t = Some tm /\ tm_mEnable tm = true /\ tm_mExpiration tm <= 105.
Proof.
  assert (getMostRecentTime 101 demo_loop = Some 4) as E by (vm_compute; reflexivity). split; [exact E|].
  destruct (getMostRecentTime_exact 101 demo_loop demo_reach) as (w & Hw & H).
  { intros t tm Ht _. assert (map_Forall (fun _ tm => tm_mExpiration tm <= 110) (lp_timers demo_loop)) as Hf.
    { apply (bool_decide_unpack _). vm_compute. exact I. }
    specialize (Hf t tm Ht). simpl in Hf. lia. }
  rewrite E in Hw. injection Hw as <-. destruct H as [[? _]|(_ & _ & H)]; [lia|exact H].
Defined.

(** A timer that another one stops in the same round runs all the same: stopping it, other
    than detaching it, leaves no mark. *)
Example disabled_timer_still_runs :
  fired_of (processTimers (fun t => if t =? 2 then ([ToDisable 3], false) else ([], false)) 107 demo_loop) = Some [2; 3].
Proof. vm_compute. reflexivity. Qed.

(** A timer that throws is taken from the loop but keeps its worker: enabling it later follows
    the null pointer to the loop. *)
Example thrown_timer_not_usable :
  match processTimers (fun t => ([], true)) 105 demo_loop with
  | inr (lp, fired) => fired = [2] /\ (tm_mEventLoop <$> lp_timers lp !! 2) = Some false /\
      (tm_mWorker <$> lp_timers lp !! 2) = Some true /\ timer_op (ToEnable 2 5) 106 lp = None
  | inl _ => False
  end.
Proof. vm_compute. auto. Qed.
