(* ===== verification/FdLoop.v ===== *)
(** File descriptors of event loops: [CFdEventLoop] of src/worker/CFdEventLoop.cpp with the part
    of [CSysFdWatch] (src/worker/CSysFdWatch.cpp) it works with, and
    [CBaseFdWatch] of src/worker/CBaseWorker.cpp in the thread of the loop.

    As for timers ([EventLoop]), watches are objects which the application creates and
    destroys, and a look into the store that finds nothing is an access to freed
    memory. What the callbacks of a watch ([onInput], [onOutput], [onHup], [onError])
    do is an argument; so is what [poll] reports. *)
From stdpp Require Import gmap.
From S2P Require Import Prelude FdWatch EventLoop.

(** ** Data *)

(** A watch of the class [CBaseFdWatch]; [lw_mEventLoop] and [lw_mWorker] tell whether the
    pointers are set. *)
Record LoopWatch := mkLw {
  lw_mFd : Z; lw_mFlags : Z; lw_mEnable : bool; lw_mFatalError : bool; lw_mEventLoop : bool; lw_mWorker : bool }.

Record PollFd := mkPollFd { pfd_fd : Z; pfd_events : Z; pfd_revents : Z }.

Record CFdEventLoop := mkFdLoop {
  fl_watches : gmap Z LoopWatch;
  fl_mPollFds : list PollFd;
  fl_mWatchList : list Z;
  fl_mWatchWorkingList : list Z;
  fl_mPollWatches : list Z;
  fl_mWatchBlackList : gset Z;
  fl_mWatchRecursiveCnt : Z;
  fl_mRebuildPollFd : bool }.

Implicit Types fl : CFdEventLoop.
Implicit Types lw : LoopWatch.

Definition LoopWatch_new (fd flags : Z) : LoopWatch := mkLw fd flags false false false false.
Definition CFdEventLoop_new : CFdEventLoop := mkFdLoop ∅ [] [] [] [] ∅ 0 false.

Definition fl_set_watch (w : Z) lw fl : CFdEventLoop :=
  mkFdLoop (<[w:=lw]> (fl_watches fl)) (fl_mPollFds fl) (fl_mWatchList fl) (fl_mWatchWorkingList fl) (fl_mPollWatches fl)
    (fl_mWatchBlackList fl) (fl_mWatchRecursiveCnt fl) (fl_mRebuildPollFd fl).
Definition fl_set_list (l : list Z) fl : CFdEventLoop :=
  mkFdLoop (fl_watches fl) (fl_mPollFds fl) l (fl_mWatchWorkingList fl) (fl_mPollWatches fl)
    (fl_mWatchBlackList fl) (fl_mWatchRecursiveCnt fl) (fl_mRebuildPollFd fl).
Definition fl_set_black (s : gset Z) fl : CFdEventLoop :=
  mkFdLoop (fl_watches fl) (fl_mPollFds fl) (fl_mWatchList fl) (fl_mWatchWorkingList fl) (fl_mPollWatches fl)
    s (fl_mWatchRecursiveCnt fl) (fl_mRebuildPollFd fl).
Definition fl_set_cnt (n : Z) fl : CFdEventLoop :=
  mkFdLoop (fl_watches fl) (fl_mPollFds fl) (fl_mWatchList fl) (fl_mWatchWorkingList fl) (fl_mPollWatches fl)
    (fl_mWatchBlackList fl) n (fl_mRebuildPollFd fl).
Definition fl_set_poll (fds : list PollFd) (ws : list Z) (rebuild : bool) fl : CFdEventLoop :=
  mkFdLoop (fl_watches fl) fds (fl_mWatchList fl) (fl_mWatchWorkingList fl) ws
    (fl_mWatchBlackList fl) (fl_mWatchRecursiveCnt fl) rebuild.
Definition fl_rebuildPollFd fl : CFdEventLoop := fl_set_poll (fl_mPollFds fl) (fl_mPollWatches fl) true fl.
Definition fl_delete (w : Z) fl : CFdEventLoop :=
  mkFdLoop (delete w (fl_watches fl)) (fl_mPollFds fl) (fl_mWatchList fl) (fl_mWatchWorkingList fl) (fl_mPollWatches fl)
    (fl_mWatchBlackList fl) (fl_mWatchRecursiveCnt fl) (fl_mRebuildPollFd fl).

(** ** Watches *)

Definition addWatchToList (wlist : list Z) (w : Z) (enable : bool) : bool * list Z :=
  let found := bool_decide (w ∈ wlist) in
  if enable then if found then (false, wlist) else (true, wlist ++ [w])
  else if found then (true, remove_value w wlist) else (false, wlist).

Definition registerWatch (w : Z) (enable : bool) fl : bool * CFdEventLoop :=
  let '(did, l) := addWatchToList (fl_mWatchList fl) w enable in (did, fl_set_list l fl).

Definition enableWatch (w : Z) (enable : bool) fl : bool * CFdEventLoop :=
  let '(did, l) := addWatchToList (fl_mWatchWorkingList fl) w enable in
  (did, mkFdLoop (fl_watches fl) (fl_mPollFds fl) (fl_mWatchList fl) l (fl_mPollWatches fl)
          (fl_mWatchBlackList fl) (fl_mWatchRecursiveCnt fl) true).

Definition watch_enable (w : Z) (enb : bool) fl : option CFdEventLoop :=
  lw ← fl_watches fl !! w;
  if lw_mEventLoop lw then
    let lw := mkLw (lw_mFd lw) (lw_mFlags lw) enb (if enb then false else lw_mFatalError lw) true (lw_mWorker lw) in
    Some (fl_set_watch w lw (enableWatch w enb fl).2)
  else Some fl.

Definition watch_fatalError (w : Z) (enb : bool) fl : option CFdEventLoop :=
  lw ← fl_watches fl !! w;
  let fl := if lw_mEventLoop lw && negb (eqb (lw_mFatalError lw) enb) then fl_rebuildPollFd fl else fl in
  Some (fl_set_watch w (mkLw (lw_mFd lw) (lw_mFlags lw) (lw_mEnable lw) enb (lw_mEventLoop lw) (lw_mWorker lw)) fl).

Definition lw_set_flags (flags : Z) lw : LoopWatch :=
  mkLw (lw_mFd lw) flags (lw_mEnable lw) (lw_mFatalError lw) (lw_mEventLoop lw) (lw_mWorker lw).
Definition lw_set_worker (b : bool) lw : LoopWatch :=
  mkLw (lw_mFd lw) (lw_mFlags lw) (lw_mEnable lw) (lw_mFatalError lw) (lw_mEventLoop lw) b.
Definition lw_set_loop (b : bool) lw : LoopWatch :=
  mkLw (lw_mFd lw) (lw_mFlags lw) (lw_mEnable lw) (lw_mFatalError lw) b (lw_mWorker lw).

Definition watch_updateFlags (w mask value : Z) fl : option CFdEventLoop :=
  lw ← fl_watches fl !! w;
  let flags := Z.lor (Z.land (lw_mFlags lw) (Z.lxor mask (Z.ones 32))) value in
  if lw_mFlags lw =? flags then Some fl
  else Some (fl_set_watch w (lw_set_flags flags lw) (if lw_mEventLoop lw then fl_rebuildPollFd fl else fl)).

(** The plain setter, which [CBaseFdWatch::flags] calls. *)
Definition watch_flags (w flags : Z) fl : option CFdEventLoop :=
  lw ← fl_watches fl !! w; Some (fl_set_watch w (lw_set_flags flags lw) fl).

(** ** The loop *)

Definition watchDestroyed (w : Z) fl : bool := bool_decide (w ∈ fl_mWatchBlackList fl).
Definition addWatchToBlacklist (w : Z) fl : CFdEventLoop := fl_set_black ({[w]} ∪ fl_mWatchBlackList fl) fl.

Definition beginWatchBlackList fl : CFdEventLoop :=
  let fl' := fl_set_cnt (fl_mWatchRecursiveCnt fl + 1) fl in
  if fl_mWatchRecursiveCnt fl =? 0 then fl_set_black ∅ fl' else fl'.

Definition endWatchBlackList fl : CFdEventLoop :=
  let fl := if fl_mWatchRecursiveCnt fl =? 0 then fl else fl_set_cnt (fl_mWatchRecursiveCnt fl - 1) fl in
  if fl_mWatchRecursiveCnt fl =? 0 then fl_set_black ∅ fl else fl.

Definition addWatch (w : Z) (enb : bool) fl : option CFdEventLoop :=
  let fl := (registerWatch w true fl).2 in
  lw ← fl_watches fl !! w;
  watch_enable w enb (fl_set_watch w (lw_set_loop true lw) fl).

Definition removeWatch (w : Z) fl : option CFdEventLoop :=
  let fl := addWatchToBlacklist w fl in
  let fl := (registerWatch w false fl).2 in
  fl ← watch_enable w false fl;
  lw ← fl_watches fl !! w;
  Some (fl_set_watch w (lw_set_loop false lw) fl).

(** [CBaseFdWatch::attach] with the worker of the loop, and with 0. *)
Definition watch_attach (w : Z) (enb : bool) fl : option CFdEventLoop :=
  lw ← fl_watches fl !! w;
  if lw_mWorker lw then watch_enable w enb fl
  else addWatch w enb (fl_set_watch w (lw_set_worker true lw) fl).

Definition watch_detach (w : Z) fl : option CFdEventLoop :=
  lw ← fl_watches fl !! w;
  if lw_mWorker lw then
    fl ← removeWatch w fl;
    lw ← fl_watches fl !! w;
    Some (fl_set_watch w (lw_set_worker false lw) fl)
  else Some fl.

Definition destroyWatch (w : Z) fl : option CFdEventLoop := fl ← watch_detach w fl; Some (fl_delete w fl).

Inductive WatchOp :=
  | WoCreate (w fd flags : Z)
  | WoEnable (w : Z) (enb : bool)
  | WoFatalError (w : Z) (enb : bool)
  | WoUpdateFlags (w mask value : Z)
  | WoFlags (w flags : Z)
  | WoAttach (w : Z) (enb : bool)
  | WoDetach (w : Z)
  | WoDestroy (w : Z).

(** [CBaseFdWatch::enable] and [flags] ask for a worker first. *)
Definition if_worker (w : Z) (f : CFdEventLoop -> option CFdEventLoop) fl : option CFdEventLoop :=
  lw ← fl_watches fl !! w; if lw_mWorker lw then f fl else Some fl.

Definition watch_op (op : WatchOp) fl : option CFdEventLoop :=
  match op with
  | WoCreate w fd flags =>
      match fl_watches fl !! w with Some _ => None | None => Some (fl_set_watch w (LoopWatch_new fd flags) fl) end
  | WoEnable w enb => if_worker w (watch_enable w enb) fl
  | WoFatalError w enb => watch_fatalError w enb fl
  | WoUpdateFlags w mask value => watch_updateFlags w mask value fl
  | WoFlags w flags => if_worker w (watch_flags w flags) fl
  | WoAttach w enb => watch_attach w enb fl
  | WoDetach w => watch_detach w fl
  | WoDestroy w => destroyWatch w fl
  end.

Fixpoint watch_ops (ops : list WatchOp) fl : option CFdEventLoop :=
  match ops with
  | [] => Some fl
  | op :: ops => fl ← watch_op op fl; watch_ops ops fl
  end.

(** ** Callbacks *)

Inductive WatchEvent := OnError | OnHup | OnInput | OnOutput.
#[export] Instance WatchEvent_eq : EqDecision WatchEvent.
Proof. solve_decision. Defined.

(** What a callback does, and whether it throws then. *)
Definition WatchRun : Type := WatchEvent -> Z -> list WatchOp * bool.

Definition callback (run : WatchRun) (ev : WatchEvent) (w : Z) fl : LoopErr + CFdEventLoop :=
  match watch_ops (run ev w).1 fl with None => inl AppFault | Some fl => inr fl end.

Definition on_loop {A} (r : option A) : LoopErr + A := match r with None => inl LoopFault | Some a => inr a end.

(** [enable(false)], [onError] and, should it throw, removal of the watch. *)
Definition watch_error (run : WatchRun) (w : Z) fl : LoopErr + CFdEventLoop :=
  match on_loop (watch_enable w false fl) with
  | inl e => inl e
  | inr fl =>
      match callback run OnError w fl with
      | inl e => inl e
      | inr fl =>
          if (run OnError w).2 && negb (watchDestroyed w fl)
          then on_loop (fl ← removeWatch w fl; destroyWatch w fl)
          else inr fl
      end
  end.

(** ** The descriptors to poll *)

Fixpoint scan_watches (h : gmap Z LoopWatch) (l : list Z) : option (list (Z * PollFd) * list Z) :=
  match l with
  | [] => Some ([], [])
  | w :: l =>
      lw ← h !! w;
      rest ← scan_watches h l;
      Some (if lw_mFd lw <? 0 then rest
            else if lw_mFatalError lw then (rest.1, w :: rest.2)
            else ((w, mkPollFd (lw_mFd lw) (wrap_s 16 (lw_mFlags lw)) 0) :: rest.1, rest.2))
  end.

Fixpoint fatal_errors (run : WatchRun) (ws : list Z) fl : LoopErr + CFdEventLoop :=
  match ws with
  | [] => inr fl
  | w :: ws =>
      match watch_error run w (beginWatchBlackList fl) with
      | inl e => inl e
      | inr fl => fatal_errors run ws (endWatchBlackList fl)
      end
  end.

(** [buildFdArray] calls itself until nothing has changed: [None] when the fuel is not
    enough. *)
Fixpoint buildFdArray (fuel : nat) (run : WatchRun) fl : option (LoopErr + CFdEventLoop) :=
  match fuel with
  | O => None
  | S fuel =>
      if fl_mRebuildPollFd fl then
        match scan_watches (fl_watches fl) (fl_mWatchWorkingList fl) with
        | None => Some (inl LoopFault)
        | Some (polled, fatal) =>
            match fatal_errors run fatal (fl_set_poll polled.*2 polled.*1 false fl) with
            | inl e => Some (inl e)
            | inr fl => buildFdArray fuel run fl
            end
        end
      else Some (inr fl)
  end.

(** ** Dispatch *)

Definition has (events flag : Z) : bool := negb (Z.land events flag =? 0).

(** A callback of one watch within a round, with what it adds to the trace. *)
Definition serve (run : WatchRun) (ev : WatchEvent) (w : Z) (fl : CFdEventLoop) : LoopErr + (CFdEventLoop * list (WatchEvent * Z)) :=
  match (match ev with OnError => watch_error run w fl | _ => callback run ev w fl end) with
  | inl e => inl e
  | inr fl => inr (fl, [(ev, w)])
  end.

Definition andthen (r : LoopErr + (CFdEventLoop * list (WatchEvent * Z)))
    (k : CFdEventLoop -> LoopErr + (CFdEventLoop * list (WatchEvent * Z))) : LoopErr + (CFdEventLoop * list (WatchEvent * Z)) :=
  match r with
  | inl e => inl e
  | inr (fl, tr) => match k fl with inl e => inl e | inr (fl, tr') => inr (fl, tr ++ tr') end
  end.

(** The body of the loop of [processWatches]. *)
Definition process_watch (run : WatchRun) (w events : Z) fl : LoopErr + (CFdEventLoop * list (WatchEvent * Z)) :=
  if watchDestroyed w fl then inr (fl, []) else
  match fl_watches fl !! w with
  | None => inl LoopFault
  | Some lw =>
      if lw_mFatalError lw then serve run OnError w fl
      else if negb (has events (POLLIN + POLLOUT + POLLERR + POLLHUP)) then inr (fl, [])
      else if has events POLLERR then serve run OnError w fl
      else if has events POLLHUP then serve run OnHup w fl
      else
        andthen (if has events POLLIN then serve run OnInput w fl else inr (fl, [])) (fun fl =>
        if has events POLLIN && watchDestroyed w fl then inr (fl, []) else
        andthen (if has events POLLOUT then serve run OnOutput w fl else inr (fl, [])) (fun fl =>
        if has events POLLOUT && watchDestroyed w fl then inr (fl, []) else
        match fl_watches fl !! w with
        | None => inl LoopFault
        | Some lw => if lw_mFatalError lw then serve run OnError w fl else inr (fl, [])
        end))
  end.

Fixpoint process_all (run : WatchRun) (ws : list (Z * Z)) fl : LoopErr + (CFdEventLoop * list (WatchEvent * Z)) :=
  match ws with
  | [] => inr (fl, [])
  | (w, events) :: ws => andthen (process_watch run w events fl) (process_all run ws)
  end.

(** The last watch first, so that the one of the job queue comes last. *)
Definition processWatches (run : WatchRun) (revents : list Z) fl : LoopErr + (CFdEventLoop * list (WatchEvent * Z)) :=
  match process_all run (rev (zip (fl_mPollWatches fl) revents)) (beginWatchBlackList fl) with
  | inl e => inl e
  | inr (fl, tr) => inr (endWatchBlackList fl, tr)
  end.

(** *** Input only *)

Fixpoint scan_input (h : gmap Z LoopWatch) (l : list Z) : option (list (Z * PollFd)) :=
  match l with
  | [] => Some []
  | w :: l =>
      lw ← h !! w;
      rest ← scan_input h l;
      Some (let events := Z.land (wrap_s 16 (lw_mFlags lw)) POLLIN in
            if (lw_mFd lw <? 0) || (events =? 0) then rest else (w, mkPollFd (lw_mFd lw) events 0) :: rest)
  end.

(** The first watch, that of the job queue, is left out. *)
Definition buildInputFdArray fl : option (list (Z * PollFd)) := scan_input (fl_watches fl) (tail (fl_mWatchWorkingList fl)).

Definition process_input (run : WatchRun) (w events : Z) fl : LoopErr + (CFdEventLoop * list (WatchEvent * Z)) :=
  if watchDestroyed w fl then inr (fl, []) else
  match fl_watches fl !! w with
  | None => inl LoopFault
  | Some _ => if has events POLLIN then serve run OnInput w fl else inr (fl, [])
  end.

Fixpoint input_all (run : WatchRun) (ws : list (Z * Z)) fl : LoopErr + (CFdEventLoop * list (WatchEvent * Z)) :=
  match ws with
  | [] => inr (fl, [])
  | (w, events) :: ws => andthen (process_input run w events fl) (input_all run ws)
  end.

Definition processInputWatches (run : WatchRun) (ws revents : list Z) fl : LoopErr + (CFdEventLoop * list (WatchEvent * Z)) :=
  match input_all run (rev (zip ws revents)) (beginWatchBlackList fl) with
  | inl e => inl e
  | inr (fl, tr) => inr (endWatchBlackList fl, tr)
  end.

Fixpoint removeWatches (ws : list Z) fl : option CFdEventLoop :=
  match ws with
  | [] => Some fl
  | w :: ws => fl ← removeWatch w fl; removeWatches ws fl
  end.

Definition uninstallWatches fl : option CFdEventLoop := removeWatches (fl_mWatchList fl) fl.

(** ** The invariant *)

Definition lw_attached (w : Z) fl : Prop := exists lw, fl_watches fl !! w = Some lw /\ lw_mEventLoop lw = true.

(** The lists say for every watch in the store whether it is enabled and attached. The
    watches to poll are attached as long as nothing has asked to rebuild the array. *)
Record fl_ok fl : Prop := {
  fk_nodup : NoDup (fl_mWatchList fl);
  fk_wnodup : NoDup (fl_mWatchWorkingList fl);
  fk_work : forall w, w ∈ fl_mWatchWorkingList fl <-> exists lw, fl_watches fl !! w = Some lw /\ lw_mEnable lw = true;
  fk_list : forall w, w ∈ fl_mWatchList fl <-> lw_attached w fl;
  fk_enabled : forall w lw, fl_watches fl !! w = Some lw -> lw_mEnable lw = true -> lw_mEventLoop lw = true;
  fk_worker : forall w lw, fl_watches fl !! w = Some lw -> lw_mEventLoop lw = true -> lw_mWorker lw = true;
  fk_poll : fl_mRebuildPollFd fl = false -> forall w, w ∈ fl_mPollWatches fl -> lw_attached w fl }.

Record weffect (R : gset Z) fl fl' : Prop := {
  we_ok : fl_ok fl';
  we_cnt : fl_mWatchRecursiveCnt fl' = fl_mWatchRecursiveCnt fl;
  we_rebuild : fl_mRebuildPollFd fl = true -> fl_mRebuildPollFd fl' = true;
  we_polled : fl_mPollWatches fl' = fl_mPollWatches fl;
  we_mono : fl_mWatchBlackList fl ⊆ fl_mWatchBlackList fl';
  we_removed : forall w, lw_attached w fl -> w ∈ R -> w ∈ fl_mWatchBlackList fl';
  we_kept : forall w, lw_attached w fl -> w ∉ R -> lw_attached w fl' }.

Lemma weffect_refl fl : fl_ok fl -> weffect ∅ fl fl.
Proof. intros H. by split. Qed.

Lemma weffect_trans R1 R2 (fl fl1 fl2 : CFdEventLoop) : weffect R1 fl fl1 -> weffect R2 fl1 fl2 -> weffect (R1 ∪ R2) fl fl2.
Proof.
  intros [A1 A2 A3 A4 A5 A6 A7] [B1 B2 B3 B4 B5 B6 B7]. split; [done|congruence|auto|congruence|by etrans| |].
  - intros w Hw HR. destruct (decide (w ∈ R1)) as [H1|H1]; [by apply B5, A6|].
    apply B6; [by apply A7|]. by apply elem_of_union in HR as [|].
  - intros w Hw HR. apply not_elem_of_union in HR as [??]. apply B7; [by apply A7|done].
Qed.

Lemma weffect_empty_trans R (fl fl1 fl2 : CFdEventLoop) : weffect ∅ fl fl1 -> weffect R fl1 fl2 -> weffect R fl fl2.
Proof. intros H1 H2. rewrite <- (union_empty_l_L R). by eapply weffect_trans. Qed.

Lemma weffect_trans_empty R (fl fl1 fl2 : CFdEventLoop) : weffect R fl fl1 -> weffect ∅ fl1 fl2 -> weffect R fl fl2.
Proof. intros H1 H2. rewrite <- (union_empty_r_L R). by eapply weffect_trans. Qed.

Lemma elem_addWatchToList l w enb x :
  NoDup l -> NoDup (addWatchToList l w enb).2 /\ (x ∈ (addWatchToList l w enb).2 <-> if decide (x = w) then enb = true else x ∈ l).
Proof.
  intros Hn. unfold addWatchToList. destruct enb; case_bool_decide as H; simpl.
  - split; [done|]. case_decide as E; [subst; naive_solver|done].
  - split; [|rewrite elem_of_app, list_elem_of_singleton; case_decide; naive_solver].
    apply NoDup_app. split_and!; [done| |apply NoDup_singleton]. intros y Hy ->%list_elem_of_singleton. done.
  - split; [by apply NoDup_remove_value|]. rewrite elem_remove_value by done. case_decide; naive_solver.
  - split; [done|]. case_decide as E; [subst; naive_solver|done].
Qed.

#[local] Arguments addWatchToList : simpl never.

(** Changing one watch, keeping it attached. *)
Lemma weffect_set w lw lw' fl fl' :
  fl_ok fl -> fl_watches fl !! w = Some lw -> lw_mEventLoop lw' = lw_mEventLoop lw ->
  (lw_mEventLoop lw = true -> lw_mWorker lw' = true) ->
  (lw_mEnable lw' = true -> lw_mEventLoop lw = true) ->
  fl_watches fl' = <[w:=lw']> (fl_watches fl) -> fl_mWatchList fl' = fl_mWatchList fl ->
  NoDup (fl_mWatchWorkingList fl') ->
  (forall x, x ∈ fl_mWatchWorkingList fl' <-> if decide (x = w) then lw_mEnable lw' = true else x ∈ fl_mWatchWorkingList fl) ->
  fl_mPollWatches fl' = fl_mPollWatches fl -> fl_mWatchBlackList fl' = fl_mWatchBlackList fl ->
  fl_mWatchRecursiveCnt fl' = fl_mWatchRecursiveCnt fl -> (fl_mRebuildPollFd fl = true -> fl_mRebuildPollFd fl' = true) ->
  weffect ∅ fl fl'.
Proof.
  intros [K1 K2 K3 K4 K5 K6 K7] Hw Hl Hwk He Hm Hls Hnd Hwork Hp Hb Hc Hr.
  assert (forall x, lw_attached x fl' <-> lw_attached x fl) as Ha.
  { intros x. unfold lw_attached. rewrite Hm. destruct (decide (x = w)) as [->|]; [|by rewrite lookup_insert_ne].
    rewrite lookup_insert_eq, Hw. split; intros (? & [= <-] & ?); eexists; (split; [done|congruence]). }
  assert (fl_ok fl') as Hok'.
  { split.
    - by rewrite Hls.
    - done.
    - intros x. rewrite Hwork, Hm. destruct (decide (x = w)) as [->|]; [|by rewrite K3, lookup_insert_ne].
      rewrite lookup_insert_eq. split; [eauto|]. by intros (? & [= <-] & ?).
    - intros x. by rewrite Hls, K4, Ha.
    - intros x lwx. rewrite Hm. destruct (decide (x = w)) as [->|]; [|rewrite lookup_insert_ne by done; apply K5].
      rewrite lookup_insert_eq. intros [= <-] E. rewrite Hl. by apply He.
    - intros x lwx. rewrite Hm. destruct (decide (x = w)) as [->|]; [|rewrite lookup_insert_ne by done; apply K6].
      rewrite lookup_insert_eq. intros [= <-] E. apply Hwk. by rewrite <- Hl.
    - intros Er x. rewrite Hp, Ha. apply K7. destruct (fl_mRebuildPollFd fl); [by rewrite Hr in Er|done]. }
  split; [done|done|done|done|by rewrite Hb|done|]. intros x Hx _. by apply Ha.
Qed.

Lemma weffect_enable w enb fl fl' : fl_ok fl -> watch_enable w enb fl = Some fl' -> weffect ∅ fl fl'.
Proof.
  intros Hok. unfold watch_enable. destruct (fl_watches fl !! w) as [lw|] eqn:Hw; [|done]. simpl.
  destruct (lw_mEventLoop lw) eqn:Hl; intros [= <-]; [|by apply weffect_refl]. unfold enableWatch.
  destruct (addWatchToList (fl_mWatchWorkingList fl) w enb) as [did l] eqn:El. simpl.
  assert (forall x, NoDup l /\ (x ∈ l <-> if decide (x = w) then enb = true else x ∈ fl_mWatchWorkingList fl)) as H.
  { intros x. pose proof (elem_addWatchToList (fl_mWatchWorkingList fl) w enb x (fk_wnodup _ Hok)) as H. by rewrite El in H. }
  match goal with |- weffect _ _ (fl_set_watch w ?v _) => apply (weffect_set w lw v) end; simpl; try done; simpl.
  - intros _. by apply (fk_worker _ Hok w).
  - apply (H w).
  - intros x. apply (H x).
Qed.

Lemma weffect_same w lw lw' fl fl' :
  fl_ok fl -> fl_watches fl !! w = Some lw -> lw_mEventLoop lw' = lw_mEventLoop lw -> lw_mEnable lw' = lw_mEnable lw ->
  (lw_mEventLoop lw = true -> lw_mWorker lw' = true) ->
  fl' = fl_set_watch w lw' fl \/ fl' = fl_set_watch w lw' (fl_rebuildPollFd fl) -> weffect ∅ fl fl'.
Proof.
  intros Hok Hw Hl He Hwk Hfl. eapply (weffect_set w lw lw'); try done.
  - rewrite He. by apply (fk_enabled _ Hok w).
  - by destruct Hfl as [->| ->].
  - by destruct Hfl as [->| ->].
  - destruct Hfl as [->| ->]; apply Hok.
  - intros x. assert (fl_mWatchWorkingList fl' = fl_mWatchWorkingList fl) as -> by by destruct Hfl as [->| ->].
    case_decide as E; [|done]. subst x. rewrite (fk_work _ Hok), Hw, He. split; [by intros (? & [= <-] & ?)|eauto].
  - by destruct Hfl as [->| ->].
  - by destruct Hfl as [->| ->].
  - by destruct Hfl as [->| ->].
  - by destruct Hfl as [->| ->].
Qed.

(** Attaching a watch that is detached, and detaching one. *)
Lemma weffect_addWatch w enb lw fl fl' :
  fl_ok fl -> fl_watches fl !! w = Some lw -> lw_mEventLoop lw = false -> lw_mWorker lw = true ->
  addWatch w enb fl = Some fl' -> weffect ∅ fl fl'.
Proof.
  intros Hok Hw Hl Hwk. unfold addWatch, registerWatch.
  destruct (addWatchToList (fl_mWatchList fl) w true) as [did l] eqn:El. simpl. rewrite Hw. simpl.
  assert (forall x, NoDup l /\ (x ∈ l <-> if decide (x = w) then true = true else x ∈ fl_mWatchList fl)) as H.
  { intros x. pose proof (elem_addWatchToList (fl_mWatchList fl) w true x (fk_nodup _ Hok)) as H. by rewrite El in H. }
  assert (weffect ∅ fl (fl_set_watch w (lw_set_loop true lw) (fl_set_list l fl))) as H1.
  { assert (forall x, lw_attached x (fl_set_watch w (lw_set_loop true lw) (fl_set_list l fl)) <-> x = w \/ lw_attached x fl) as Ha.
    { intros x. unfold lw_attached. simpl. destruct (decide (x = w)) as [->|]; [|rewrite lookup_insert_ne by done; naive_solver].
      rewrite lookup_insert_eq. split; [by left|]. eauto. }
    assert (lw_mEnable lw = false) as He.
    { destruct (lw_mEnable lw) eqn:E; [|done]. by rewrite (fk_enabled _ Hok w lw Hw E) in Hl. }
    destruct Hok as [K1 K2 K3 K4 K5 K6 K7]. split; try done.
    - split; simpl; try done.
      + apply (H w).
      + intros x. rewrite K3. destruct (decide (x = w)) as [->|]; [|by rewrite lookup_insert_ne].
        rewrite lookup_insert_eq, Hw. split; intros (? & [= <-] & E); simpl in *; congruence.
      + intros x. rewrite (proj2 (H x)), Ha. case_decide as E; [naive_solver|]. rewrite K4. naive_solver.
      + intros x lwx. destruct (decide (x = w)) as [->|]; [|rewrite lookup_insert_ne by done; apply K5].
        rewrite lookup_insert_eq. by intros [= <-].
      + intros x lwx. destruct (decide (x = w)) as [->|]; [|rewrite lookup_insert_ne by done; apply K6].
        rewrite lookup_insert_eq. by intros [= <-].
      + intros Er x Hx. apply Ha. right. by apply K7.
    - intros x Hx _. apply Ha. by right. }
  intros E. eapply weffect_empty_trans; [exact H1|]. eapply weffect_enable; [apply H1|exact E].
Qed.

(** A watch is off, detached and marked: the effect of its removal. *)
Lemma weffect_removed w lw lw' l fl fl' :
  fl_ok fl -> fl_watches fl !! w = Some lw ->
  (forall x, NoDup l /\ (x ∈ l <-> if decide (x = w) then false = true else x ∈ fl_mWatchList fl)) ->
  fl_watches fl' = <[w:=lw']> (fl_watches fl) -> lw_mEnable lw' = false -> lw_mEventLoop lw' = false ->
  fl_mWatchList fl' = l -> NoDup (fl_mWatchWorkingList fl') ->
  (forall x, x ∈ fl_mWatchWorkingList fl' <-> x <> w /\ x ∈ fl_mWatchWorkingList fl) ->
  fl_mPollWatches fl' = fl_mPollWatches fl -> fl_mWatchBlackList fl' = {[w]} ∪ fl_mWatchBlackList fl ->
  fl_mWatchRecursiveCnt fl' = fl_mWatchRecursiveCnt fl -> (fl_mRebuildPollFd fl = true -> fl_mRebuildPollFd fl' = true) ->
  (lw_mEventLoop lw = true -> fl_mRebuildPollFd fl' = true) -> weffect {[w]} fl fl'.
Proof.
  intros Hok Hw Hl0 Hm He Hl Hls Hnd Hwork Hp Hb Hc Hr Hr2. destruct Hok as [K1 K2 K3 K4 K5 K6 K7].
  assert (forall x, lw_attached x fl' <-> x <> w /\ lw_attached x fl) as Ha.
  { intros x. unfold lw_attached. rewrite Hm. destruct (decide (x = w)) as [->|].
    - rewrite lookup_insert_eq. split; [intros (? & [= <-] & ?); congruence|by intros [? _]].
    - rewrite lookup_insert_ne by done. naive_solver. }
  split; try done.
  - split.
    + rewrite Hls. apply (Hl0 w).
    + done.
    + intros x. rewrite Hwork, K3, Hm. destruct (decide (x = w)) as [->|]; [|rewrite lookup_insert_ne by done; naive_solver].
      rewrite lookup_insert_eq. split; [by intros [? _]|]. intros (? & [= <-] & ?). congruence.
    + intros x. rewrite Hls, (proj2 (Hl0 x)), Ha. case_decide as E; [naive_solver|]. rewrite K4. naive_solver.
    + intros x lwx. rewrite Hm. destruct (decide (x = w)) as [->|]; [|rewrite lookup_insert_ne by done; apply K5].
      rewrite lookup_insert_eq. intros [= <-]. congruence.
    + intros x lwx. rewrite Hm. destruct (decide (x = w)) as [->|]; [|rewrite lookup_insert_ne by done; apply K6].
      rewrite lookup_insert_eq. intros [= <-]. congruence.
    + intros Er x Hx. apply Ha. rewrite Hp in Hx.
      destruct (fl_mRebuildPollFd fl) eqn:Erb; [by rewrite Hr in Er|]. specialize (K7 eq_refl x Hx). split; [|done].
      intros ->. destruct K7 as (lw0 & E0 & Hlw0). rewrite Hw in E0. simplify_eq. by rewrite Hr2 in Er.
  - rewrite Hb. set_solver.
  - intros x _ ->%elem_of_singleton. rewrite Hb. set_solver.
  - intros x Hx Hn%not_elem_of_singleton. by apply Ha.
Qed.

Lemma removeWatch_spec w lw fl :
  fl_ok fl -> fl_watches fl !! w = Some lw -> exists fl' lw',
    removeWatch w fl = Some fl' /\ weffect {[w]} fl fl' /\ fl_watches fl' = <[w:=lw']> (fl_watches fl) /\
    lw_mEnable lw' = false /\ lw_mEventLoop lw' = false /\ lw_mWorker lw' = lw_mWorker lw /\ w ∈ fl_mWatchBlackList fl'.
Proof.
  intros Hok Hw. unfold removeWatch, addWatchToBlacklist, registerWatch. simpl.
  destruct (addWatchToList (fl_mWatchList fl) w false) as [did l] eqn:El.
  assert (forall x, NoDup l /\ (x ∈ l <-> if decide (x = w) then false = true else x ∈ fl_mWatchList fl)) as H.
  { intros x. pose proof (elem_addWatchToList (fl_mWatchList fl) w false x (fk_nodup _ Hok)) as H. by rewrite El in H. }
  unfold watch_enable, enableWatch. simpl. rewrite Hw. simpl.
  destruct (addWatchToList (fl_mWatchWorkingList fl) w false) as [did2 l2] eqn:El2.
  assert (forall x, NoDup l2 /\ (x ∈ l2 <-> if decide (x = w) then false = true else x ∈ fl_mWatchWorkingList fl)) as H2.
  { intros x. pose proof (elem_addWatchToList (fl_mWatchWorkingList fl) w false x (fk_wnodup _ Hok)) as H2. by rewrite El2 in H2. }
  destruct (lw_mEventLoop lw) eqn:Hl; simpl; rewrite ?lookup_insert_eq, ?Hw; simpl.
  - eexists. exists (mkLw (lw_mFd lw) (lw_mFlags lw) false (lw_mFatalError lw) false (lw_mWorker lw)).
    split; [reflexivity|]. simpl. rewrite insert_insert_eq. split_and!; try done; [|set_solver].
    apply (weffect_removed w lw (mkLw (lw_mFd lw) (lw_mFlags lw) false (lw_mFatalError lw) false (lw_mWorker lw)) l); simpl; try done.
    + apply insert_insert_eq.
    + apply (H2 w).
    + intros x. rewrite (proj2 (H2 x)). case_decide; naive_solver.
  - assert (lw_mEnable lw = false) as He.
    { destruct (lw_mEnable lw) eqn:E; [|done]. by rewrite (fk_enabled _ Hok w lw Hw E) in Hl. }
    eexists. exists (lw_set_loop false lw). split; [reflexivity|]. simpl. split_and!; try done; [|set_solver].
    apply (weffect_removed w lw (lw_set_loop false lw) l); simpl; try done.
    + apply Hok.
    + intros x. rewrite (fk_work _ Hok). split; [|by intros [_ ?]]. intros Hx. split; [|done]. intros ->.
      destruct Hx as (? & E & ?). rewrite Hw in E. simplify_eq. congruence.
    + congruence.
Qed.

Lemma weffect_removeWatch w fl fl' : fl_ok fl -> removeWatch w fl = Some fl' -> weffect {[w]} fl fl'.
Proof.
  intros Hok E. destruct (fl_watches fl !! w) as [lw|] eqn:Hw.
  - destruct (removeWatch_spec w lw fl Hok Hw) as (fl1 & lw1 & E1 & H & _). rewrite E1 in E. by simplify_eq.
  - unfold removeWatch, watch_enable, registerWatch, addWatchToBlacklist in E. simpl in E.
    destruct (addWatchToList (fl_mWatchList fl) w false); simpl in E. by rewrite Hw in E.
Qed.

Lemma detach_spec w lw fl :
  fl_ok fl -> fl_watches fl !! w = Some lw -> exists fl', watch_detach w fl = Some fl' /\ weffect {[w]} fl fl' /\ ~ lw_attached w fl'.
Proof.
  intros Hok Hw. unfold watch_detach. rewrite Hw. simpl. destruct (lw_mWorker lw) eqn:Hwk.
  - destruct (removeWatch_spec w lw fl Hok Hw) as (fl1 & lw1 & -> & H & Hm & He & Hl & _ & Hb). simpl.
    rewrite Hm, lookup_insert_eq. simpl. eexists. split; [done|]. split.
    + eapply weffect_trans_empty; [exact H|]. apply (weffect_same w lw1 (lw_set_worker false lw1)); try done.
      * apply H.
      * by rewrite Hm, lookup_insert_eq.
      * congruence.
      * by left.
    + intros (lw0 & E & Ha). simpl in E. rewrite lookup_insert_eq in E. simplify_eq. simpl in Ha. congruence.
  - assert (~ lw_attached w fl) as Hn.
    { intros (lw0 & E & Ha). rewrite Hw in E. simplify_eq. by rewrite (fk_worker _ Hok w lw0 Hw Ha) in Hwk. }
    exists fl. split; [done|]. split; [|done]. split; try done. by intros x Hx ->%elem_of_singleton.
Qed.

Lemma fl_delete_ok w fl : fl_ok fl -> ~ lw_attached w fl -> weffect ∅ fl (fl_delete w fl).
Proof.
  intros [K1 K2 K3 K4 K5 K6 K7] Hn.
  assert (forall x, lw_attached x (fl_delete w fl) <-> lw_attached x fl) as Ha.
  { intros x. unfold lw_attached. simpl. split; intros (lw & E & H); exists lw.
    - apply lookup_delete_Some in E as [_ E]. done.
    - rewrite lookup_delete_ne; [done|]. intros <-. apply Hn. by exists lw. }
  split; try done; [|intros x Hx _; by apply Ha]. split; simpl; try done.
  - intros x. rewrite K3. split; intros (lw & E & H); exists lw.
    + rewrite lookup_delete_ne; [done|]. intros <-. apply Hn. exists lw. split; [done|by eapply K5].
    + apply lookup_delete_Some in E as [_ E]. done.
  - intros x. by rewrite K4, Ha.
  - intros x lw [_ E]%lookup_delete_Some. by eapply K5.
  - intros x lw [_ E]%lookup_delete_Some. by eapply K6.
  - intros Er x Hx. by apply Ha, K7.
Qed.

Lemma fl_create_ok w fd flags fl :
  fl_ok fl -> fl_watches fl !! w = None -> weffect ∅ fl (fl_set_watch w (LoopWatch_new fd flags) fl).
Proof.
  intros [K1 K2 K3 K4 K5 K6 K7] Hw.
  assert (forall x, lw_attached x (fl_set_watch w (LoopWatch_new fd flags) fl) <-> lw_attached x fl) as Ha.
  { intros x. unfold lw_attached. simpl. destruct (decide (x = w)) as [->|]; [|by rewrite lookup_insert_ne].
    rewrite lookup_insert_eq, Hw. split; intros (? & E & ?); by simplify_eq. }
  split; try done; [|intros x Hx _; by apply Ha]. split; simpl; try done.
  - intros x. rewrite K3. destruct (decide (x = w)) as [->|]; [|by rewrite lookup_insert_ne].
    rewrite lookup_insert_eq, Hw. split; intros (? & E & ?); by simplify_eq.
  - intros x. by rewrite K4, Ha.
  - intros x lw [[_ <-]|[_ E]]%lookup_insert_Some; [done|by eapply K5].
  - intros x lw [[_ <-]|[_ E]]%lookup_insert_Some; [done|by eapply K6].
  - intros Er x Hx. by apply Ha, K7.
Qed.

(** The watches an operation detaches. *)
Definition wop_removes (op : WatchOp) : gset Z := match op with WoDetach w | WoDestroy w => {[w]} | _ => ∅ end.
Definition wops_remove (ops : list WatchOp) : gset Z := ⋃ (wop_removes <$> ops).

Lemma weffect_if_worker w f fl fl' :
  fl_ok fl -> (f fl = Some fl' -> weffect ∅ fl fl') -> if_worker w f fl = Some fl' -> weffect ∅ fl fl'.
Proof.
  intros Hok Hf. unfold if_worker. destruct (fl_watches fl !! w) as [lw|]; [|done]. simpl.
  destruct (lw_mWorker lw); [done|]. intros [= <-]. by apply weffect_refl.
Qed.

Lemma weffect_attach w enb fl fl' : fl_ok fl -> watch_attach w enb fl = Some fl' -> weffect ∅ fl fl'.
Proof.
  intros Hok. unfold watch_attach. destruct (fl_watches fl !! w) as [lw|] eqn:Hw; [|done]. simpl.
  destruct (lw_mWorker lw) eqn:Hwk; [by apply weffect_enable|]. intros E.
  assert (lw_mEventLoop lw = false) as Hl.
  { destruct (lw_mEventLoop lw) eqn:El; [|done]. by rewrite (fk_worker _ Hok w lw Hw El) in Hwk. }
  assert (weffect ∅ fl (fl_set_watch w (lw_set_worker true lw) fl)) as H1
    by (apply (weffect_same w lw (lw_set_worker true lw)); try done; by left).
  eapply weffect_empty_trans; [exact H1|].
  apply (weffect_addWatch w enb (lw_set_worker true lw)); try done; [apply H1|]. simpl. apply lookup_insert_eq.
Qed.

Lemma weffect_destroy w fl fl' : fl_ok fl -> destroyWatch w fl = Some fl' -> weffect {[w]} fl fl'.
Proof.
  intros Hok E. destruct (fl_watches fl !! w) as [lw|] eqn:Hw.
  - destruct (detach_spec w lw fl Hok Hw) as (fl1 & E1 & H1 & Hn). unfold destroyWatch in E. rewrite E1 in E. simpl in E.
    injection E as <-. eapply weffect_trans_empty; [exact H1|]. apply fl_delete_ok; [apply H1|done].
  - unfold destroyWatch, watch_detach in E. by rewrite Hw in E.
Qed.

(** The new value of the watch is the one the goal shows. *)
Ltac watch_same w lw := match goal with |- context [fl_set_watch w ?v _] => apply (weffect_same w lw v) end.

Lemma weffect_op op fl fl' : fl_ok fl -> watch_op op fl = Some fl' -> weffect (wop_removes op) fl fl'.
Proof.
  intros Hok. destruct op as [w fd flags|w enb|w enb|w mask value|w flags|w enb|w|w]; simpl.
  - destruct (fl_watches fl !! w) eqn:Hw; [done|]. intros [= <-]. by apply fl_create_ok.
  - apply weffect_if_worker; [done|]. by apply weffect_enable.
  - unfold watch_fatalError. destruct (fl_watches fl !! w) as [lw|] eqn:Hw; [|done]. simpl. intros [= <-].
    watch_same w lw; try done; [|by destruct (_ && _); [right|left]]. exact (fk_worker _ Hok w lw Hw).
  - unfold watch_updateFlags. destruct (fl_watches fl !! w) as [lw|] eqn:Hw; [|done]. simpl.
    destruct (_ =? _); intros [= <-]; [by apply weffect_refl|].
    watch_same w lw; try done; [|by destruct (lw_mEventLoop lw); [right|left]]. exact (fk_worker _ Hok w lw Hw).
  - apply weffect_if_worker; [done|]. unfold watch_flags. destruct (fl_watches fl !! w) as [lw|] eqn:Hw; [|done]. simpl.
    intros [= <-]. watch_same w lw; try done; [|by left]. exact (fk_worker _ Hok w lw Hw).
  - by apply weffect_attach.
  - intros E. destruct (fl_watches fl !! w) as [lw|] eqn:Hw; [|by unfold watch_detach in E; rewrite Hw in E].
    destruct (detach_spec w lw fl Hok Hw) as (fl1 & E1 & H1 & _). rewrite E1 in E. by simplify_eq.
  - by apply weffect_destroy.
Qed.

Lemma weffect_ops ops fl fl' : fl_ok fl -> watch_ops ops fl = Some fl' -> weffect (wops_remove ops) fl fl'.
Proof.
  revert fl. induction ops as [|op ops IH]; intros fl Hok; simpl; [intros [= <-]; by apply weffect_refl|].
  destruct (watch_op op fl) as [fl1|] eqn:E; [|done]. simpl. intros H.
  apply weffect_op in E; [|done]. unfold wops_remove. simpl. eapply weffect_trans; [exact E|]. apply IH; [apply E|done].
Qed.

(** ** A round of watches *)

(** The watch is either there or known to be gone. *)
Definition covered (w : Z) fl : Prop := lw_attached w fl \/ w ∈ fl_mWatchBlackList fl.

Definition weff fl fl' : Prop := exists R, weffect R fl fl'.

Lemma weff_trans (fl fl1 fl2 : CFdEventLoop) : weff fl fl1 -> weff fl1 fl2 -> weff fl fl2.
Proof. intros [R1 H1] [R2 H2]. exists (R1 ∪ R2). by eapply weffect_trans. Qed.

Lemma weff_refl fl : fl_ok fl -> weff fl fl.
Proof. intros H. exists ∅. by apply weffect_refl. Qed.

Lemma weff_ok fl fl' : weff fl fl' -> fl_ok fl'.
Proof. intros [R H]. apply H. Qed.

Lemma weff_covered w fl fl' : weff fl fl' -> covered w fl -> covered w fl'.
Proof.
  intros [R H] [Ha|Hb]; [|right; by apply (we_mono _ _ _ H)]. destruct (decide (w ∈ R)).
  - right. by apply (we_removed _ _ _ H).
  - left. by apply (we_kept _ _ _ H).
Qed.

Lemma weff_cnt fl fl' : weff fl fl' -> fl_mWatchRecursiveCnt fl' = fl_mWatchRecursiveCnt fl.
Proof. intros [R H]. apply H. Qed.

Lemma covered_attached w fl : covered w fl -> watchDestroyed w fl = false -> lw_attached w fl.
Proof. unfold watchDestroyed. intros [|] E%bool_decide_eq_false; done. Qed.

(** A result that blames the application, or a state [P] holds of. *)
Definition blames_app {A} (P : A -> Prop) (r : LoopErr + A) : Prop :=
  match r with inl e => e = AppFault | inr a => P a end.

Lemma callback_spec run ev w fl : fl_ok fl -> blames_app (weff fl) (callback run ev w fl).
Proof.
  intros Hok. unfold callback. destruct (watch_ops _ fl) as [fl'|] eqn:E; [|done].
  exists (wops_remove (run ev w).1). by apply weffect_ops.
Qed.

Lemma enable_total w enb fl : fl_ok fl -> lw_attached w fl -> exists fl',
  watch_enable w enb fl = Some fl' /\ weff fl fl' /\ fl_mRebuildPollFd fl' = true.
Proof.
  intros Hok (lw & Hw & Hl). destruct (watch_enable w enb fl) as [fl'|] eqn:E.
  - exists fl'. split; [done|]. split; [exists ∅; by eapply weffect_enable|].
    unfold watch_enable, enableWatch in E. rewrite Hw in E. simpl in E. rewrite Hl in E. injection E as <-. simpl.
    by destruct (addWatchToList _ w enb).
  - unfold watch_enable in E. rewrite Hw in E. simpl in E. by rewrite Hl in E.
Qed.

Lemma weff_rebuild fl fl' : weff fl fl' -> fl_mRebuildPollFd fl = true -> fl_mRebuildPollFd fl' = true.
Proof. intros [R H]. apply H. Qed.

Lemma watch_error_spec run w fl :
  fl_ok fl -> lw_attached w fl -> blames_app (fun fl' => weff fl fl' /\ fl_mRebuildPollFd fl' = true) (watch_error run w fl).
Proof.
  intros Hok Ha. unfold watch_error. destruct (enable_total w false fl Hok Ha) as (fl1 & -> & H1 & Hr1). simpl.
  pose proof (callback_spec run OnError w fl1 (weff_ok _ _ H1)) as Hc.
  destruct (callback run OnError w fl1) as [e|fl2]; [done|]. simpl in Hc.
  assert (weff fl fl2) as H2 by by eapply weff_trans. pose proof (weff_rebuild _ _ Hc Hr1) as Hr2.
  destruct (_ && _) eqn:Eb; [|done]. apply andb_true_iff in Eb as [_ Eb%negb_true_iff].
  destruct (covered_attached w fl2) as (lw2 & Hw2 & _); [eapply weff_covered; [done|by left]|done|].
  destruct (removeWatch_spec w lw2 fl2 (weff_ok _ _ H2) Hw2) as (fl3 & lw3 & E3 & H3 & Hm3 & _). rewrite E3. simpl.
  destruct (detach_spec w lw3 fl3 (we_ok _ _ _ H3)) as (fl4 & E4 & H4 & Hn); [by rewrite Hm3, lookup_insert_eq|].
  unfold destroyWatch. rewrite E4. simpl.
  assert (weff fl2 (fl_delete w fl4)) as H24.
  { eapply weff_trans; [by exists {[w]}|]. eapply weff_trans; [by exists {[w]}|]. exists ∅. apply fl_delete_ok; [apply H4|done]. }
  split; [by eapply weff_trans|exact (weff_rebuild _ _ H24 Hr2)].
Qed.

Definition trace_ok (w : Z) fl (r : CFdEventLoop * list (WatchEvent * Z)) : Prop := weff fl r.1 /\ Forall (fun x => x.2 = w) r.2.

Lemma serve_spec run ev w fl : fl_ok fl -> lw_attached w fl -> blames_app (trace_ok w fl) (serve run ev w fl).
Proof.
  intros Hok Ha. unfold serve.
  assert (blames_app (weff fl) (match ev with OnError => watch_error run w fl | _ => callback run ev w fl end)) as H.
  { destruct ev; try by apply callback_spec. pose proof (watch_error_spec run w fl Hok Ha) as H.
    destruct (watch_error run w fl); [done|]. by destruct H. }
  destruct (match ev with OnError => _ | _ => _ end); [done|]. simpl in *. split; [done|by repeat constructor].
Qed.

Lemma andthen_spec w fl r k :
  blames_app (trace_ok w fl) r -> (forall fl', weff fl fl' -> blames_app (trace_ok w fl') (k fl')) ->
  blames_app (trace_ok w fl) (andthen r k).
Proof.
  destruct r as [e|[fl1 tr1]]; simpl; [done|]. intros [H1 T1] Hk. specialize (Hk fl1 H1).
  destruct (k fl1) as [e|[fl2 tr2]]; [done|]. destruct Hk as [H2 T2]. simpl in *.
  split; [by eapply weff_trans|by apply Forall_app_2].
Qed.

Lemma stay_spec w fl : fl_ok fl -> blames_app (trace_ok w fl) (inr (fl, [])).
Proof. intros H. split; [by apply weff_refl|constructor]. Qed.

Lemma andthen_nil fl k : andthen (inr (fl, [])) k = k fl.
Proof. simpl. by destruct (k fl) as [|[]]. Qed.

(** A callback for [flag], if the watch is ready for it, and then [k] unless it is gone. *)
Lemma stage_spec run ev flag w events k fl :
  fl_ok fl -> lw_attached w fl ->
  (forall fl', fl_ok fl' -> lw_attached w fl' -> blames_app (trace_ok w fl') (k fl')) ->
  blames_app (trace_ok w fl)
    (andthen (if has events flag then serve run ev w fl else inr (fl, []))
       (fun fl => if has events flag && watchDestroyed w fl then inr (fl, []) else k fl)).
Proof.
  intros Hok Ha Hk. destruct (has events flag); [|rewrite andthen_nil; by apply Hk]. simpl.
  apply andthen_spec; [by apply serve_spec|]. intros fl1 H1. pose proof (weff_ok _ _ H1) as Hok1.
  destruct (watchDestroyed w fl1) eqn:Ed; [by apply stay_spec|]. apply Hk; [done|].
  apply covered_attached; [|done]. eapply weff_covered; [done|by left].
Qed.

Lemma process_watch_spec run w events fl : fl_ok fl -> covered w fl -> blames_app (trace_ok w fl) (process_watch run w events fl).
Proof.
  intros Hok Hcov. unfold process_watch. destruct (watchDestroyed w fl) eqn:Ed; [by apply stay_spec|].
  pose proof (covered_attached w fl Hcov Ed) as Ha. destruct (id Ha) as (lw & -> & _).
  destruct (lw_mFatalError lw); [by apply serve_spec|]. destruct (negb _); [by apply stay_spec|].
  destruct (has events POLLERR); [by apply serve_spec|]. destruct (has events POLLHUP); [by apply serve_spec|].
  apply stage_spec; [done|done|]. intros fl1 Hok1 Ha1. apply stage_spec; [done|done|]. intros fl2 Hok2 Ha2.
  destruct (id Ha2) as (lw2 & -> & _). destruct (lw_mFatalError lw2); [by apply serve_spec|by apply stay_spec].
Qed.

Lemma process_input_spec run w events fl : fl_ok fl -> covered w fl -> blames_app (trace_ok w fl) (process_input run w events fl).
Proof.
  intros Hok Hcov. unfold process_input. destruct (watchDestroyed w fl) eqn:Ed; [by apply stay_spec|].
  pose proof (covered_attached w fl Hcov Ed) as Ha. destruct (id Ha) as (lw & -> & _).
  destruct (has events POLLIN); [by apply serve_spec|by apply stay_spec].
Qed.

(** The trace of a list of watches: the callbacks of each in turn. *)
Definition trace_of (ws : list Z) fl (r : CFdEventLoop * list (WatchEvent * Z)) : Prop :=
  weff fl r.1 /\ exists trs, r.2 = concat trs /\ Forall2 (fun w tr => Forall (fun x => x.2 = w) tr) ws trs.

Lemma all_spec (step : Z -> Z -> CFdEventLoop -> LoopErr + (CFdEventLoop * list (WatchEvent * Z)))
    (all : list (Z * Z) -> CFdEventLoop -> LoopErr + (CFdEventLoop * list (WatchEvent * Z))) ws fl :
  (forall fl, all [] fl = inr (fl, [])) -> (forall w e ws fl, all ((w, e) :: ws) fl = andthen (step w e fl) (all ws)) ->
  (forall w e fl, fl_ok fl -> covered w fl -> blames_app (trace_ok w fl) (step w e fl)) ->
  fl_ok fl -> (forall w, w ∈ ws.*1 -> covered w fl) -> blames_app (trace_of ws.*1 fl) (all ws fl).
Proof.
  intros Hnil Hcons Hstep. revert fl. induction ws as [|[w e] ws IH]; intros fl Hok Hc.
  - rewrite Hnil. simpl. split; [by apply weff_refl|]. exists []. split; [done|constructor].
  - rewrite Hcons. pose proof (Hstep w e fl Hok (Hc w ltac:(set_solver))) as H1.
    destruct (step w e fl) as [er|[fl1 tr1]]; [done|]. destruct H1 as [H1 T1]. simpl in *.
    specialize (IH fl1 (weff_ok _ _ H1)). destruct (all ws fl1) as [er|[fl2 tr2]].
    + apply IH. intros x Hx. eapply weff_covered; [done|]. apply Hc. set_solver.
    + destruct IH as [H2 (trs & Et & T2)]; [intros x Hx; eapply weff_covered; [done|]; apply Hc; set_solver|].
      simpl in Et. subst tr2.
      split; [by eapply weff_trans|]. exists (tr1 :: trs). split; [done|]. by constructor.
Qed.

Lemma begin_ok fl : fl_ok fl -> fl_ok (beginWatchBlackList fl).
Proof. intros []. unfold beginWatchBlackList. destruct (_ =? 0); by split. Qed.

Lemma end_ok fl : fl_ok fl -> fl_ok (endWatchBlackList fl).
Proof. intros []. unfold endWatchBlackList. destruct (fl_mWatchRecursiveCnt fl =? 0); simpl; destruct (_ =? 0); by split. Qed.

Lemma begin_attached w fl : lw_attached w (beginWatchBlackList fl) <-> lw_attached w fl.
Proof. unfold beginWatchBlackList. by destruct (_ =? 0). Qed.

Lemma end_cnt fl fl' :
  fl_mWatchRecursiveCnt fl' = fl_mWatchRecursiveCnt (beginWatchBlackList fl) -> 0 <= fl_mWatchRecursiveCnt fl ->
  fl_mWatchRecursiveCnt (endWatchBlackList fl') = fl_mWatchRecursiveCnt fl.
Proof.
  unfold beginWatchBlackList, endWatchBlackList. intros E H.
  assert (fl_mWatchRecursiveCnt fl' = fl_mWatchRecursiveCnt fl + 1) as -> by (by destruct (fl_mWatchRecursiveCnt fl =? 0)).
  clear E. destruct (Z.eqb_spec (fl_mWatchRecursiveCnt fl + 1) 0); [lia|]. simpl. destruct (_ =? 0); simpl; lia.
Qed.

(** ** The array of descriptors *)

(** What there is to poll: the enabled watches with a descriptor and no fatal error. *)
Definition pollable (h : gmap Z LoopWatch) (w : Z) : bool :=
  match h !! w with Some lw => (0 <=? lw_mFd lw) && negb (lw_mFatalError lw) | None => false end.
Definition failed (h : gmap Z LoopWatch) (w : Z) : bool :=
  match h !! w with Some lw => (0 <=? lw_mFd lw) && lw_mFatalError lw | None => false end.
Definition poll_entry (h : gmap Z LoopWatch) (w : Z) : PollFd :=
  match h !! w with Some lw => mkPollFd (lw_mFd lw) (wrap_s 16 (lw_mFlags lw)) 0 | None => mkPollFd (-1) 0 0 end.

Lemma scan_watches_spec h l :
  (forall w, w ∈ l -> is_Some (h !! w)) ->
  exists polled, scan_watches h l = Some (polled, filter (failed h) l) /\
    polled.*1 = filter (pollable h) l /\ polled.*2 = poll_entry h <$> filter (pollable h) l.
Proof.
  induction l as [|w l IH]; intros H; simpl; [by exists []|].
  destruct (H w) as [lw Hw]; [set_solver|]. rewrite Hw. simpl. destruct IH as (polled & -> & IH1 & IH2); [set_solver|]. simpl.
  rewrite !filter_cons. assert (pollable h w = (0 <=? lw_mFd lw) && negb (lw_mFatalError lw)) as -> by (unfold pollable; by rewrite Hw).
  assert (failed h w = (0 <=? lw_mFd lw) && lw_mFatalError lw) as -> by (unfold failed; by rewrite Hw).
  destruct (Z.ltb_spec (lw_mFd lw) 0), (Z.leb_spec 0 (lw_mFd lw)); try lia; simpl; [by exists polled|].
  destruct (lw_mFatalError lw); simpl; [by exists polled|]. eexists. split; [done|].
  rewrite !fmap_cons, IH1, IH2. split; [done|]. f_equal. unfold poll_entry. by rewrite Hw.
Qed.

Lemma set_poll_ok fds ws fl :
  fl_ok fl -> (forall w, w ∈ ws -> lw_attached w fl) -> fl_ok (fl_set_poll fds ws false fl).
Proof. intros [] H. by split. Qed.

Lemma end_attached w fl : lw_attached w (endWatchBlackList fl) <-> lw_attached w fl.
Proof. unfold endWatchBlackList. destruct (fl_mWatchRecursiveCnt fl =? 0); simpl; by destruct (_ =? 0). Qed.

Lemma end_rebuild fl : fl_mRebuildPollFd (endWatchBlackList fl) = fl_mRebuildPollFd fl.
Proof. unfold endWatchBlackList. destruct (fl_mWatchRecursiveCnt fl =? 0); simpl; by destruct (_ =? 0). Qed.

(** When the error callbacks have come through, the invariant holds and, if there was a
    watch with an error, the array is to be built again. *)
Lemma watch_error_partial run w fl fl' :
  fl_ok fl -> watch_error run w fl = inr fl' -> weff fl fl'.
Proof.
  intros Hok. unfold watch_error. destruct (watch_enable w false fl) as [fl1|] eqn:E1; [|done]. simpl.
  assert (weff fl fl1) as H1 by (exists ∅; by eapply weffect_enable).
  pose proof (callback_spec run OnError w fl1 (weff_ok _ _ H1)) as Hc.
  destruct (callback run OnError w fl1) as [e|fl2]; [done|]. simpl in Hc.
  assert (weff fl fl2) as H2 by by eapply weff_trans. destruct (_ && _); [|by intros [= <-]].
  destruct (removeWatch w fl2) as [fl3|] eqn:E3; [|done]. simpl. apply weffect_removeWatch in E3; [|by apply (weff_ok fl)].
  destruct (destroyWatch w fl3) as [fl4|] eqn:E4; [|done]. simpl. apply weffect_destroy in E4; [|apply E3]. intros [= <-].
  eapply weff_trans; [exact H2|]. eapply weff_trans; [by exists {[w]}|by exists {[w]}].
Qed.

Lemma fatal_errors_partial run ws fl fl' :
  fl_ok fl -> 0 <= fl_mWatchRecursiveCnt fl -> fatal_errors run ws fl = inr fl' ->
  fl_ok fl' /\ fl_mWatchRecursiveCnt fl' = fl_mWatchRecursiveCnt fl /\
  (fl_mRebuildPollFd fl = true -> fl_mRebuildPollFd fl' = true).
Proof.
  revert fl. induction ws as [|w ws IH]; intros fl Hok Hc; simpl; [by intros [= <-]|].
  destruct (watch_error run w (beginWatchBlackList fl)) as [e|fl1] eqn:E; [done|]. intros H.
  apply watch_error_partial in E; [|by apply begin_ok]. pose proof (end_cnt fl fl1 (weff_cnt _ _ E) Hc) as Ec.
  apply IH in H as (H1 & H2 & H3); [|by apply end_ok, (weff_ok _ _ E)|lia]. split; [done|]. split; [congruence|].
  intros Hr. apply H3. rewrite end_rebuild. apply (weff_rebuild _ _ E). unfold beginWatchBlackList. by destruct (_ =? 0).
Qed.

Lemma fatal_errors_rebuild run w ws fl fl' :
  fl_ok fl -> lw_attached w fl -> 0 <= fl_mWatchRecursiveCnt fl -> fatal_errors run (w :: ws) fl = inr fl' -> fl_mRebuildPollFd fl' = true.
Proof.
  intros Hok Ha Hc. simpl.
  pose proof (watch_error_spec run w (beginWatchBlackList fl) (begin_ok _ Hok) (proj2 (begin_attached w fl) Ha)) as H.
  destruct (watch_error run w (beginWatchBlackList fl)) as [e|fl1]; [done|]. destruct H as [H1 Hr]. intros H.
  pose proof (end_cnt fl fl1 (weff_cnt _ _ H1) Hc) as Ec.
  apply fatal_errors_partial in H as (_ & _ & H); [apply H; by rewrite end_rebuild|by apply end_ok, (weff_ok _ _ H1)|lia].
Qed.

(** The array holds what there is to poll. *)
Definition polls_exactly fl : Prop :=
  (forall w, w ∈ fl_mWatchWorkingList fl -> failed (fl_watches fl) w = false) /\
  fl_mPollWatches fl = filter (pollable (fl_watches fl)) (fl_mWatchWorkingList fl) /\
  fl_mPollFds fl = poll_entry (fl_watches fl) <$> fl_mPollWatches fl.

Lemma scan_ok fl : fl_ok fl -> exists polled,
  scan_watches (fl_watches fl) (fl_mWatchWorkingList fl) = Some (polled, filter (failed (fl_watches fl)) (fl_mWatchWorkingList fl)) /\
  polled.*1 = filter (pollable (fl_watches fl)) (fl_mWatchWorkingList fl) /\
  polled.*2 = poll_entry (fl_watches fl) <$> polled.*1 /\ fl_ok (fl_set_poll polled.*2 polled.*1 false fl).
Proof.
  intros Hok. destruct (scan_watches_spec (fl_watches fl) (fl_mWatchWorkingList fl)) as (polled & E & H1 & H2).
  { intros w (lw & -> & _)%(fk_work _ Hok). done. }
  exists polled. split_and!; [done|done|congruence|]. apply set_poll_ok; [done|].
  intros w. rewrite H1. intros [_ Hw]%list_elem_of_filter. apply (fk_work _ Hok) in Hw as (lw & Hw & He).
  exists lw. split; [done|by apply (fk_enabled _ Hok w)].
Qed.

Lemma buildFdArray_partial n run fl fl' :
  fl_ok fl -> 0 <= fl_mWatchRecursiveCnt fl -> buildFdArray n run fl = Some (inr fl') ->
  fl_ok fl' /\ fl_mWatchRecursiveCnt fl' = fl_mWatchRecursiveCnt fl /\ fl_mRebuildPollFd fl' = false /\
  (fl_mRebuildPollFd fl = true -> polls_exactly fl').
Proof.
  revert fl. induction n as [|n IH]; intros fl Hok Hc; simpl; [done|].
  destruct (fl_mRebuildPollFd fl) eqn:Er; [|by intros [= <-]].
  destruct (scan_ok fl Hok) as (polled & -> & H1 & H2 & Hok1).
  destruct (filter (failed (fl_watches fl)) (fl_mWatchWorkingList fl)) as [|w ws] eqn:Ef.
  - simpl. destruct n; [done|]. simpl. intros [= <-]. split_and!; try done. intros _. split_and!; try done.
    intros w Hw. destruct (failed (fl_watches fl) w) eqn:E; [|done]. exfalso.
    assert (w ∈ filter (failed (fl_watches fl)) (fl_mWatchWorkingList fl)) as Hin by (apply list_elem_of_filter; by rewrite E).
    rewrite Ef in Hin. by apply elem_of_nil in Hin.
  - destruct (fatal_errors run (w :: ws) _) as [e|fl1] eqn:E; [done|].
    assert (lw_attached w fl) as Ha.
    { assert (w ∈ w :: ws) as Hin by set_solver. rewrite <- Ef in Hin. apply list_elem_of_filter in Hin as [_ Hin].
      apply (fk_work _ Hok) in Hin as (lw & Hw & He). exists lw. split; [done|by apply (fk_enabled _ Hok w)]. }
    pose proof (fatal_errors_rebuild run w ws _ fl1 Hok1 Ha Hc E) as Hr1.
    apply fatal_errors_partial in E as (Hok2 & Hc2 & _); [|done|done]. simpl in Hc2. intros H.
    apply IH in H as (A & B & C & D); [|done|lia]. split_and!; try done; [congruence|]. intros _. by apply D.
Qed.

(** *** Error callbacks that mind their own business *)

Definition calm_op (w : Z) (op : WatchOp) : bool :=
  match op with
  | WoEnable x false | WoUpdateFlags x _ _ | WoDetach x | WoDestroy x => x =? w
  | WoFatalError x _ => x =? w
  | _ => false
  end.

Definition calm (run : WatchRun) : Prop := forall w, forallb (calm_op w) (run OnError w).1 = true.

Definition is_off (w : Z) fl : Prop := forall lw, fl_watches fl !! w = Some lw -> lw_mEnable lw = false.

(** Nothing but [w] has changed, and [w] is off. *)
Definition only_off (w : Z) fl fl' : Prop :=
  (forall x, x <> w -> fl_watches fl' !! x = fl_watches fl !! x) /\ is_off w fl'.

Lemma enableWatch_watches w enb fl : fl_watches (enableWatch w enb fl).2 = fl_watches fl.
Proof. unfold enableWatch. by destruct (addWatchToList _ w enb). Qed.

Lemma registerWatch_watches w enb fl : fl_watches (registerWatch w enb fl).2 = fl_watches fl.
Proof. unfold registerWatch. by destruct (addWatchToList _ w enb). Qed.

Lemma enable_off w fl fl' : is_off w fl \/ lw_attached w fl -> watch_enable w false fl = Some fl' -> only_off w fl fl'.
Proof.
  intros Hoff. unfold watch_enable. destruct (fl_watches fl !! w) as [lw|] eqn:Hw; [|done]. simpl.
  destruct (lw_mEventLoop lw) eqn:Hl; intros [= <-].
  - split; simpl.
    + intros x Hx. by rewrite lookup_insert_ne, enableWatch_watches.
    + intros ?. simpl. rewrite lookup_insert_eq. by intros [= <-].
  - split; [done|]. destruct Hoff as [|(lw0 & E & ?)]; [done|]. rewrite Hw in E. simplify_eq. congruence.
Qed.

Lemma removeWatch_off w fl fl' : is_off w fl -> removeWatch w fl = Some fl' -> only_off w fl fl'.
Proof.
  intros Hoff. unfold removeWatch. destruct (watch_enable _ _ _) as [fl1|] eqn:E; [|done]. simpl.
  apply enable_off in E as [H1 H2]; [|left; unfold is_off; by rewrite registerWatch_watches].
  destruct (fl_watches fl1 !! w) as [lw|] eqn:Hw; [|done]. simpl. intros [= <-]. split; simpl.
  - intros x Hx. by rewrite lookup_insert_ne, H1, registerWatch_watches.
  - intros ?. simpl. rewrite lookup_insert_eq. intros [= <-]. exact (H2 lw Hw).
Qed.

Lemma only_off_trans w (fl fl1 fl2 : CFdEventLoop) : only_off w fl fl1 -> only_off w fl1 fl2 -> only_off w fl fl2.
Proof. intros [A1 _] [B1 B2]. split; [|done]. intros x Hx. by rewrite B1, A1. Qed.

Lemma set_off w lw fl fl' : fl_watches fl' = <[w:=lw]> (fl_watches fl) -> lw_mEnable lw = false -> only_off w fl fl'.
Proof.
  intros E H. split; [intros x Hx; by rewrite E, lookup_insert_ne|]. intros ?. rewrite E, lookup_insert_eq. by intros [= <-].
Qed.

Lemma detach_off w fl fl' : is_off w fl -> watch_detach w fl = Some fl' -> only_off w fl fl'.
Proof.
  intros Hoff. unfold watch_detach. destruct (fl_watches fl !! w) as [lw|] eqn:Hw; [|done]. simpl.
  destruct (lw_mWorker lw); [|by intros [= <-]].
  destruct (removeWatch w fl) as [fl1|] eqn:E; [|done]. simpl. apply removeWatch_off in E; [|done].
  destruct (fl_watches fl1 !! w) as [lw1|] eqn:Hw1; [|done]. simpl. intros [= <-].
  eapply only_off_trans; [exact E|]. eapply set_off; [done|]. exact (proj2 E lw1 Hw1).
Qed.

Lemma destroy_off w fl fl' : is_off w fl -> destroyWatch w fl = Some fl' -> only_off w fl fl'.
Proof.
  intros Hoff. unfold destroyWatch. destruct (watch_detach w fl) as [fl1|] eqn:E; [|done]. simpl. intros [= <-].
  apply detach_off in E; [|done]. eapply only_off_trans; [exact E|]. split; simpl.
  - intros x Hx. by rewrite lookup_delete_ne.
  - intros lw. simpl. by rewrite lookup_delete_eq.
Qed.

Lemma calm_op_off w op fl fl' : calm_op w op = true -> is_off w fl -> watch_op op fl = Some fl' -> only_off w fl fl'.
Proof.
  intros Hc Hoff. destruct op as [x fd flags|x [] |x enb|x mask value|x flags|x enb|x|x]; simpl in Hc; try done;
    apply Z.eqb_eq in Hc as ->; simpl.
  - unfold if_worker. destruct (fl_watches fl !! w) as [lw|] eqn:Hw; [|done]. simpl.
    destruct (lw_mWorker lw); [|by intros [= <-]]. apply enable_off. by left.
  - unfold watch_fatalError. destruct (fl_watches fl !! w) as [lw|] eqn:Hw; [|done]. simpl. intros [= <-].
    specialize (Hoff lw Hw). destruct (_ && _); by eapply set_off.
  - unfold watch_updateFlags. destruct (fl_watches fl !! w) as [lw|] eqn:Hw; [|done]. simpl.
    destruct (_ =? _); intros [= <-]; [done|]. specialize (Hoff lw Hw).
    destruct (lw_mEventLoop lw); by eapply set_off.
  - by apply detach_off.
  - by apply destroy_off.
Qed.

Lemma calm_ops_off w ops fl fl' :
  forallb (calm_op w) ops = true -> is_off w fl -> watch_ops ops fl = Some fl' -> only_off w fl fl'.
Proof.
  revert fl. induction ops as [|op ops IH]; intros fl; simpl; [by intros _ ? [= <-]|].
  intros [Hc Hcs]%andb_true_iff Hoff. destruct (watch_op op fl) as [fl1|] eqn:E; [|done]. simpl. intros H.
  apply (calm_op_off w) in E; [|done|done]. eapply only_off_trans; [exact E|]. apply IH; [done|exact (proj2 E)|done].
Qed.

Lemma watch_error_off run w fl fl' : calm run -> lw_attached w fl -> watch_error run w fl = inr fl' -> only_off w fl fl'.
Proof.
  intros Hcalm Ha. unfold watch_error, callback. destruct (watch_enable w false fl) as [fl1|] eqn:E1; [|done]. simpl.
  apply enable_off in E1; [|by right]. destruct (watch_ops (run OnError w).1 fl1) as [fl2|] eqn:E2; [|done].
  apply (calm_ops_off w) in E2; [|apply Hcalm|exact (proj2 E1)]. pose proof (only_off_trans w _ _ _ E1 E2) as E12.
  destruct (_ && _); [|by intros [= <-]]. destruct (removeWatch w fl2) as [fl3|] eqn:E3; [|done]. simpl.
  apply removeWatch_off in E3; [|exact (proj2 E2)]. destruct (destroyWatch w fl3) as [fl4|] eqn:E4; [|done]. simpl. intros [= <-].
  apply destroy_off in E4; [|exact (proj2 E3)]. eapply only_off_trans; [exact E12|]. by eapply only_off_trans.
Qed.

(** The error callbacks of a list of enabled watches: no access to a destroyed watch, and
    all of them are off afterwards while the others are as before. *)
Lemma fatal_errors_calm run ws fl :
  calm run -> fl_ok fl -> 0 <= fl_mWatchRecursiveCnt fl -> NoDup ws -> (forall w, w ∈ ws -> lw_attached w fl) ->
  blames_app (fun fl' => forall x, (x ∉ ws -> fl_watches fl' !! x = fl_watches fl !! x) /\ (x ∈ ws -> is_off x fl'))
    (fatal_errors run ws fl).
Proof.
  intros Hcalm Hok Hc Hn. revert fl Hok Hc. induction Hn as [|w ws Hw Hn IH]; intros fl Hok Hc Ha; simpl.
  { intros x. split; [done|by intros ?%elem_of_nil]. }
  assert (lw_attached w (beginWatchBlackList fl)) as Haw by (apply begin_attached, Ha; set_solver).
  pose proof (watch_error_spec run w _ (begin_ok _ Hok) Haw) as Hs.
  destruct (watch_error run w (beginWatchBlackList fl)) as [e|fl1] eqn:E; [done|]. destruct Hs as [Hs _].
  pose proof (watch_error_off run w _ _ Hcalm Haw E) as [A1 A2].
  assert (forall x, fl_watches (beginWatchBlackList fl) !! x = fl_watches fl !! x) as Hb
    by (intros x; unfold beginWatchBlackList; by destruct (_ =? 0)).
  assert (forall x, fl_watches (endWatchBlackList fl1) !! x = fl_watches fl1 !! x) as He
    by (intros x; unfold endWatchBlackList; destruct (fl_mWatchRecursiveCnt fl1 =? 0); simpl; by destruct (_ =? 0)).
  pose proof (end_cnt fl fl1 (weff_cnt _ _ Hs) Hc) as Ec.
  specialize (IH (endWatchBlackList fl1) (end_ok _ (weff_ok _ _ Hs)) ltac:(lia)).
  destruct (fatal_errors run ws (endWatchBlackList fl1)) as [e|fl2].
  - apply IH. intros x Hx. apply end_attached. destruct (Ha x) as (lw & Hx' & ?); [set_solver|]. exists lw.
    rewrite A1, Hb; [done|]. set_solver.
  - simpl in *. assert (forall w0, w0 ∈ ws -> lw_attached w0 (endWatchBlackList fl1)) as Hat.
    { intros x Hx. apply end_attached. destruct (Ha x) as (lw & Hx' & ?); [set_solver|]. exists lw.
      rewrite A1, Hb; [done|]. set_solver. }
    specialize (IH Hat). intros x. destruct (IH x) as [I1 I2]. split.
    + intros Hx. rewrite I1, He, A1, Hb; [done|set_solver..].
    + intros [->|Hx]%elem_of_cons; [|by apply I2]. intros lw. rewrite (proj1 (IH w)) by done. rewrite He. apply A2.
Qed.

Lemma buildFdArray_calm run fl :
  calm run -> fl_ok fl -> 0 <= fl_mWatchRecursiveCnt fl -> exists r, buildFdArray 3 run fl = Some r /\ blames_app (fun _ => True) r.
Proof.
  intros Hcalm Hok Hc. simpl. destruct (fl_mRebuildPollFd fl); [|by eexists].
  destruct (scan_ok fl Hok) as (polled & -> & _ & _ & Hok1).
  set (fatal := filter (failed (fl_watches fl)) (fl_mWatchWorkingList fl)).
  assert (forall w, w ∈ fatal -> lw_attached w fl) as Ha.
  { intros w [_ (lw & Hw & He)%(fk_work _ Hok)]%list_elem_of_filter. exists lw. split; [done|by apply (fk_enabled _ Hok w)]. }
  pose proof (fatal_errors_calm run fatal _ Hcalm Hok1 Hc (NoDup_filter _ _ (fk_wnodup _ Hok)) Ha) as Hf.
  destruct (fatal_errors run fatal _) as [e|fl1] eqn:E; [by eexists|]. simpl in Hf.
  apply fatal_errors_partial in E as (Hok2 & Hc2 & _); [|done|done]. simpl in Hc2.
  destruct (fl_mRebuildPollFd fl1) eqn:Er; [|by eexists].
  destruct (scan_ok fl1 Hok2) as (polled1 & -> & _ & _ & Hok3).
  assert (filter (failed (fl_watches fl1)) (fl_mWatchWorkingList fl1) = []) as ->; [|simpl; by eexists].
  apply elem_of_nil_inv. intros x [Hx Hin]%list_elem_of_filter. apply (fk_work _ Hok2) in Hin as (lw & Hl & He).
  destruct (Hf x) as [H1 H2]. destruct (decide (x ∈ fatal)) as [H|H]; [by rewrite (H2 H lw Hl) in He|].
  specialize (H1 H). apply H, list_elem_of_filter. split.
  - unfold failed in *. by rewrite <- H1.
  - apply (fk_work _ Hok). exists lw. by rewrite <- H1.
Qed.

(** The states an event loop goes through: operations on watches, building the array of
    descriptors, and rounds of watches, which [dispatch] starts once the array is
    up to date and [dispatchInput] at any time. *)
Inductive fl_reach : CFdEventLoop -> Prop :=
  | fr_new : fl_reach CFdEventLoop_new
  | fr_op op fl fl' : fl_reach fl -> watch_op op fl = Some fl' -> fl_reach fl'
  | fr_build n run fl fl' : fl_reach fl -> buildFdArray n run fl = Some (inr fl') -> fl_reach fl'
  | fr_watches run revents fl fl' tr :
      fl_reach fl -> fl_mRebuildPollFd fl = false -> processWatches run revents fl = inr (fl', tr) -> fl_reach fl'
  | fr_input run polled revents fl fl' tr :
      fl_reach fl -> buildInputFdArray fl = Some polled -> processInputWatches run polled.*1 revents fl = inr (fl', tr) -> fl_reach fl'.

Definition trace_safe (ws : list Z) fl (r : CFdEventLoop * list (WatchEvent * Z)) : Prop :=
  fl_ok r.1 /\ fl_mWatchRecursiveCnt r.1 = fl_mWatchRecursiveCnt fl /\
  exists trs, r.2 = concat trs /\ Forall2 (fun w tr => Forall (fun x => x.2 = w) tr) ws trs.

Lemma round_spec (all : list (Z * Z) -> CFdEventLoop -> LoopErr + (CFdEventLoop * list (WatchEvent * Z))) ws fl :
  blames_app (trace_of ws.*1 (beginWatchBlackList fl)) (all ws (beginWatchBlackList fl)) -> 0 <= fl_mWatchRecursiveCnt fl ->
  blames_app (trace_safe ws.*1 fl)
    match all ws (beginWatchBlackList fl) with inl e => inl e | inr (fl', tr) => inr (endWatchBlackList fl', tr) end.
Proof.
  destruct (all ws _) as [e|[fl' tr]]; [done|]. intros [H1 H2] Hc. simpl in *. split; [by apply end_ok, (weff_ok _ _ H1)|].
  split; [|done]. simpl. apply end_cnt; [by apply (weff_cnt _ _ H1)|done].
Qed.

Lemma zip_fst_elem {A B} (l : list A) (k : list B) x : x ∈ (zip l k).*1 -> x ∈ l.
Proof.
  revert k. induction l as [|y l IH]; intros [|b k]; simpl; try by intros ?%elem_of_nil.
  intros [->|H]%elem_of_cons; [set_solver|]. apply IH in H. set_solver.
Qed.

Lemma rev_fst_elem (l : list (Z * Z)) x : x ∈ (rev l).*1 -> x ∈ l.*1.
Proof.
  intros (p & -> & Hp)%list_elem_of_fmap. apply list_elem_of_fmap. exists p. split; [done|].
  by apply list_elem_of_In, in_rev, list_elem_of_In.
Qed.

Lemma processWatches_spec run revents fl :
  fl_ok fl -> 0 <= fl_mWatchRecursiveCnt fl -> fl_mRebuildPollFd fl = false ->
  blames_app (trace_safe (rev (zip (fl_mPollWatches fl) revents)).*1 fl) (processWatches run revents fl).
Proof.
  intros Hok Hc Hr. apply round_spec; [|done].
  apply (all_spec (process_watch run) (process_all run)); try done; [apply process_watch_spec|by apply begin_ok|].
  intros w Hw. left. apply begin_attached, (fk_poll _ Hok Hr), (zip_fst_elem _ revents).
  by apply rev_fst_elem.
Qed.

Lemma scan_input_sub h l polled : scan_input h l = Some polled -> forall w, w ∈ polled.*1 -> w ∈ l.
Proof.
  revert polled. induction l as [|x l IH]; intros polled; simpl; [intros [= <-] w; by intros ?%elem_of_nil|].
  destruct (h !! x) as [lw|]; [|done]. simpl. destruct (scan_input h l) as [rest|]; [|done]. simpl. intros [= <-] w.
  destruct (_ || _); [intros H; apply (IH rest eq_refl) in H; set_solver|].
  simpl. intros [->|H]%elem_of_cons; [set_solver|]. apply (IH rest eq_refl) in H. set_solver.
Qed.

Lemma processInputWatches_spec run polled revents fl :
  fl_ok fl -> 0 <= fl_mWatchRecursiveCnt fl -> buildInputFdArray fl = Some polled ->
  blames_app (trace_safe (rev (zip polled.*1 revents)).*1 fl) (processInputWatches run polled.*1 revents fl).
Proof.
  intros Hok Hc Hp. apply round_spec; [|done].
  apply (all_spec (process_input run) (input_all run)); try done; [apply process_input_spec|by apply begin_ok|].
  intros w Hw. left. apply begin_attached. apply rev_fst_elem, zip_fst_elem, (scan_input_sub _ _ _ Hp) in Hw.
  assert (w ∈ fl_mWatchWorkingList fl) as (lw & Hl & He)%(fk_work _ Hok).
  { destruct (fl_mWatchWorkingList fl); simpl in Hw; [done|set_solver]. }
  exists lw. split; [done|by apply (fk_enabled _ Hok w)].
Qed.

Lemma fl_reach_inv fl : fl_reach fl -> fl_ok fl /\ fl_mWatchRecursiveCnt fl = 0.
Proof.
  induction 1 as [|op fl fl' _ [IH1 IH2] E|n run fl fl' _ [IH1 IH2] E|run rev fl fl' tr _ [IH1 IH2] Hr E|run pl rev fl fl' tr _ [IH1 IH2] Hp E].
  - split; [|done]. unfold CFdEventLoop_new. split; simpl; try (by constructor); intros w; unfold lw_attached; simpl;
      rewrite ?lookup_empty; try done.
    all: first [by intros ? ?%elem_of_nil|split; [by intros ?%elem_of_nil|by intros (? & ? & _)]].
  - apply weffect_op in E; [|done]. split; [apply E|]. by rewrite (we_cnt _ _ _ E).
  - apply buildFdArray_partial in E as (? & ? & _); [|done|lia]. split; [done|congruence].
  - pose proof (processWatches_spec run rev fl IH1 ltac:(lia) Hr) as H. rewrite E in H. destruct H as (? & ? & _). simpl in *.
    split; [done|congruence].
  - pose proof (processInputWatches_spec run pl rev fl IH1 ltac:(lia) Hp) as H. rewrite E in H. destruct H as (? & ? & _). simpl in *.
    split; [done|congruence].
Qed.

(** C31: Watches may be destroyed at any time, in the callbacks of other watches too, without
    harm: in every state an event loop reaches, a round over the descriptors that
    [poll] has reported never touches a destroyed watch, whatever the callbacks do
    (only a callback that does so itself makes the round fail). It
    calls back the watches one after the other, the last polled first and so that of
    the job queue, which may destroy any other, last; and the lists agree with
    the watches again afterwards. The same holds of a round over the inputs only. *)
Theorem watches_safe run revents fl :
  fl_reach fl ->
  (fl_mRebuildPollFd fl = false -> blames_app (trace_safe (rev (zip (fl_mPollWatches fl) revents)).*1 fl) (processWatches run revents fl)) /\
  exists polled, buildInputFdArray fl = Some polled /\
    blames_app (trace_safe (rev (zip polled.*1 revents)).*1 fl) (processInputWatches run polled.*1 revents fl).
Proof.
  intros [Hok Hc]%fl_reach_inv. split; [intros Hr; apply processWatches_spec; [done|lia|done]|].
  assert (exists polled, buildInputFdArray fl = Some polled) as [polled Hp].
  { unfold buildInputFdArray. assert (forall w, w ∈ tail (fl_mWatchWorkingList fl) -> is_Some (fl_watches fl !! w)) as H.
    { intros w Hw. assert (w ∈ fl_mWatchWorkingList fl) as (lw & -> & _)%(fk_work _ Hok); [|done].
      destruct (fl_mWatchWorkingList fl); simpl in Hw; [done|set_solver]. }
    revert H. generalize (tail (fl_mWatchWorkingList fl)). clear. induction l as [|x l IH]; intros H; simpl; [by eexists|].
    destruct (H x) as [lw ->]; [set_solver|]. simpl. destruct IH as [rest ->]; [set_solver|]. by eexists. }
  exists polled. split; [done|]. apply processInputWatches_spec; [done|lia|done].
Qed.

(** What an event loop polls is what is enabled: once [buildFdArray] returns, no enabled watch with
    a valid descriptor has a pending fatal error, and the array holds exactly the enabled
    watches with a valid descriptor, with their flags. It does return, without
    touching a destroyed watch, when the error callbacks deal with their own watch only and do
    not switch it on again. *)
Theorem buildFdArray_exact run fl :
  fl_reach fl -> fl_mRebuildPollFd fl = true ->
  (forall n fl', buildFdArray n run fl = Some (inr fl') -> fl_ok fl' /\ fl_mRebuildPollFd fl' = false /\ polls_exactly fl') /\
  (calm run -> exists r, buildFdArray 3 run fl = Some r /\ blames_app (fun _ => True) r).
Proof.
  intros [Hok Hc]%fl_reach_inv Hr. split.
  - intros n fl' E. apply buildFdArray_partial in E as (? & _ & ? & H); [|done|lia]. auto.
  - intros Hcalm. apply buildFdArray_calm; [done|done|lia].
Qed.

Lemma fl_reach_ops ops fl fl' : fl_reach fl -> watch_ops ops fl = Some fl' -> fl_reach fl'.
Proof.
  revert fl. induction ops as [|op ops IH]; intros fl Hr; simpl; [by intros [= <-]|].
  destruct (watch_op op fl) as [fl1|] eqn:E; [|done]. simpl. apply IH. by eapply fr_op.
Qed.

(** The watch of the job queue (1) and two sockets. *)
Definition demo_watch_ops : list WatchOp :=
  [WoCreate 1 3 POLLIN; WoAttach 1 true; WoCreate 2 4 POLLIN; WoAttach 2 true; WoCreate 3 5 (POLLIN + POLLOUT); WoAttach 3 true].
Definition demo_watches : CFdEventLoop := default CFdEventLoop_new (watch_ops demo_watch_ops CFdEventLoop_new).

Lemma demo_watches_reach : fl_reach demo_watches.
Proof. apply (fl_reach_ops demo_watch_ops CFdEventLoop_new); [constructor|]. vm_compute. reflexivity. Qed.

(** Socket 3 destroys socket 2 when it has input. *)
Definition demo_callbacks : WatchRun := fun ev w => if w =? 3 then ([WoDestroy 2], false) else ([], false).

Definition demo_polled : CFdEventLoop :=
  match buildFdArray 3 demo_callbacks demo_watches with Some (inr fl) => fl | _ => CFdEventLoop_new end.

Definition trace (r : LoopErr + (CFdEventLoop * list (WatchEvent * Z))) : option (list (WatchEvent * Z)) :=
  match r with inl _ => None | inr (_, tr) => Some tr end.

Lemma demo_polled_reach : fl_reach demo_polled.
Proof. apply (fr_build 3 demo_callbacks demo_watches); [apply demo_watches_reach|]. vm_compute. reflexivity. Qed.

Lemma watches_safe_witness :
  trace (processWatches demo_callbacks [POLLIN; POLLIN; POLLIN] demo_polled) = Some [(OnInput, 3); (OnInput, 1)] /\
  blames_app (trace_safe [3; 2; 1] demo_polled) (processWatches demo_callbacks [POLLIN; POLLIN; POLLIN] demo_polled).
Proof.
  split; [vm_compute; reflexivity|].
  exact (proj1 (watches_safe demo_callbacks [POLLIN; POLLIN; POLLIN] demo_polled demo_polled_reach) eq_refl).
Defined.

Lemma buildFdArray_exact_witness : fl_mPollWatches demo_polled = [1; 2; 3] /\ polls_exactly demo_polled.
Proof.
  split; [vm_compute; reflexivity|].
  apply (proj1 (buildFdArray_exact demo_callbacks demo_watches demo_watches_reach eq_refl) 3%nat). vm_compute. reflexivity.
Defined.

(** Two watches fail and the error callback of the first destroys the second:
    [buildFdArray] then calls the destroyed watch, since it does not look whether it is
    still there. *)
Example build_uses_destroyed_watch :
  (fl ← watch_ops [WoFatalError 2 true; WoFatalError 3 true] demo_watches;
   buildFdArray 3 (fun ev w => if w =? 2 then ([WoDestroy 3], false) else ([], false)) fl) = Some (inl LoopFault).
Proof. vm_compute. reflexivity. Qed.

(** [CBaseFdWatch::flags] changes what a watch waits for without asking to build the array
    again: the loop goes on polling for the old events. *)
Example flags_not_polled :
  (fl ← watch_ops [WoFlags 2 (POLLIN + POLLOUT)] demo_polled;
   match buildFdArray 3 demo_callbacks fl with
   | Some (inr fl) => Some ((lw_mFlags <$> fl_watches fl !! 2), (pfd_events <$> fl_mPollFds fl))
   | _ => None
   end) = Some (Some 5, [1; 1; 5]).
Proof. vm_compute. reflexivity. Qed.
