(* ===== verification/Watchdog.v ===== *)
(** The watchdog of an object: [CFdbWatchdog] of src/fdbus/CFdbWatchdog.cpp, its message
    of src/fdbus/CFdbWatchdog.h, and how [CFdbBaseObject] creates, stops and removes it.

    A watchdog keeps one dog per connection to a process of the same host. At each
    expiration of its timer it sends a kick to every peer; a peer that does not feed its
    dog for some expirations is reported ([onBark]). The sessions of the endpoint are an
    argument: what [getSession] finds for a number, with what is read of the session. *)
From S2P Require Import Prelude Serializer Codec CommonDefs WireBase StdMap.

Definition FDB_WATCHDOG_INTERVAL : Z := 2000.
Definition FDB_WATCHDOG_RETRIES : Z := 5.

(** ** [CFdbMsgProcessList]: the processes that stopped responding *)

Record CFdbMsgProcessInfo := mkProcessInfo { pi_mClientName : string; pi_mPid : Z }.

Definition CFdbMsgProcessInfo_serialize (m : CFdbMsgProcessInfo) : SerM :=
  put_string (pi_mClientName m) ;;;
  put_int 4 (pi_mPid m).

Definition CFdbMsgProcessInfo_deserialize {I : Indet} (m : CFdbMsgProcessInfo) : DesM CFdbMsgProcessInfo :=
  client_name ← get_string (pi_mClientName m);
  pid ← get_int false 4 (pi_mPid m);
  mret (mkProcessInfo client_name pid).

#[export] Hint Unfold CFdbMsgProcessInfo_serialize CFdbMsgProcessInfo_deserialize : codec.

#[export] Instance CFdbMsgProcessInfo_parcelable : Parcelable CFdbMsgProcessInfo := {|
  p_default := fun I => mkProcessInfo EmptyString I;
  p_serialize := CFdbMsgProcessInfo_serialize;
  p_deserialize := @CFdbMsgProcessInfo_deserialize |}.

Record CFdbMsgProcessInfo_wf (m : CFdbMsgProcessInfo) : Prop := {
  piw_ClientName : str_ok (pi_mClientName m);
  piw_Pid : in_u 32 (pi_mPid m) }.

Definition CFdbMsgProcessInfo_wire (m : CFdbMsgProcessInfo) : list Z :=
  str_wire (pi_mClientName m) ++ le_bytes 4 (pi_mPid m).

#[export] Hint Unfold CFdbMsgProcessInfo_wire : codec.

#[export] Program Instance CFdbMsgProcessInfo_laws : ParcelableLaws CFdbMsgProcessInfo := {|
  p_wire := CFdbMsgProcessInfo_wire; p_wf := CFdbMsgProcessInfo_wf; p_eq := eq |}.
Next Obligation. intros I [x1 x2] old []. solve_class. Qed.
Next Obligation. solve_class_safe. Qed.

Record CFdbMsgProcessList := mkProcessList { pl_mProcessList : list CFdbMsgProcessInfo }.

Definition CFdbMsgProcessList_serialize (m : CFdbMsgProcessList) : SerM := serialize (pl_mProcessList m).

Definition CFdbMsgProcessList_deserialize {I : Indet} (m : CFdbMsgProcessList) : DesM CFdbMsgProcessList :=
  process_list ← deserialize (pl_mProcessList m);
  mret (mkProcessList process_list).

(** ** Dogs *)

Record CDog := mkDog { mRetries : Z; mDropped : bool }.

Definition dog_reset (retries : Z) : CDog := mkDog retries false.

(** [wd_mInterval] and [wd_mEnable] are the interval and the state of the timer. *)
Record CFdbWatchdog := mkWatchdog {
  wd_mDogs : smap Z CDog; wd_mMaxRetries : Z; wd_mInterval : Z; wd_mEnable : bool }.

(** What is read of a session: its number, whether its socket is of the type
    [FDB_SOCKET_IPC], its sender and its process. *)
Record DogPeer := mkDogPeer { dp_sid : Z; dp_ipc : bool; dp_senderName : string; dp_pid : Z }.

Inductive DogOut := DogBark (sid : Z) | DogKick (sid : Z).

Section watchdog.
Implicit Types wd : CFdbWatchdog.

Definition wd_set_dogs (dogs : smap Z CDog) wd : CFdbWatchdog :=
  mkWatchdog dogs (wd_mMaxRetries wd) (wd_mInterval wd) (wd_mEnable wd).

Definition CFdbWatchdog_new (interval max_retries : Z) : CFdbWatchdog :=
  mkWatchdog [] (if max_retries =? 0 then FDB_WATCHDOG_RETRIES else max_retries)
    (if interval =? 0 then FDB_WATCHDOG_INTERVAL else interval) false.

(** The build is not the one for Windows. *)
Definition addDog (p : DogPeer) wd : CFdbWatchdog :=
  if dp_ipc p then wd_set_dogs (m_set (dp_sid p) (dog_reset FDB_WATCHDOG_RETRIES) (wd_mDogs wd)) wd else wd.

Definition removeDog (sid : Z) wd : CFdbWatchdog * list DogOut :=
  match m_find sid (wd_mDogs wd) with
  | Some _ => (wd_set_dogs (m_erase sid (wd_mDogs wd)) wd, [DogBark sid])
  | None => (wd, [])
  end.

Definition feedDog (sid : Z) wd : CFdbWatchdog :=
  match m_find sid (wd_mDogs wd) with
  | Some _ => wd_set_dogs (m_set sid (dog_reset (wd_mMaxRetries wd)) (wd_mDogs wd)) wd
  | None => wd
  end.

(** One iteration of [run]: the dog it leaves, if it leaves one. *)
Definition run_dog (getSession : Z -> option DogPeer) (sid : Z) (dog : CDog) : option CDog * list DogOut :=
  match getSession sid with
  | None => (None, [])
  | Some _ =>
      if mRetries dog <=? 0 then (Some (mkDog (mRetries (dog_reset FDB_WATCHDOG_RETRIES)) true), [DogBark sid])
      else (Some (mkDog (i32 (mRetries dog - 1)) (mDropped dog)), [DogKick sid])
  end.

Fixpoint run_dogs (getSession : Z -> option DogPeer) (dogs : smap Z CDog) : smap Z CDog * list DogOut :=
  match dogs with
  | [] => ([], [])
  | (sid, dog) :: dogs =>
      let '(d, o1) := run_dog getSession sid dog in
      let '(ds, o2) := run_dogs getSession dogs in
      (match d with Some d => (sid, d) :: ds | None => ds end, o1 ++ o2)
  end.

Definition wd_run (getSession : Z -> option DogPeer) wd : CFdbWatchdog * list DogOut :=
  let '(dogs, o) := run_dogs getSession (wd_mDogs wd) in (wd_set_dogs dogs wd, o).

(** [enable(interval)] keeps the interval of the timer unless the new one is positive, and
    does not arm a timer whose interval is not. *)
Definition wd_start (interval max_retries : Z) wd : CFdbWatchdog :=
  let interval := if 0 <? interval then interval else wd_mInterval wd in
  mkWatchdog (wd_mDogs wd) (if max_retries =? 0 then wd_mMaxRetries wd else max_retries) interval (0 <? interval).

Definition wd_stop wd : CFdbWatchdog := mkWatchdog (wd_mDogs wd) (wd_mMaxRetries wd) (wd_mInterval wd) false.

Definition wd_getDroppedProcesses (getSession : Z -> option DogPeer) wd : list CFdbMsgProcessInfo :=
  omap (fun e => if mDropped e.2
                 then (fun p => mkProcessInfo (dp_senderName p) (u32 (dp_pid p))) <$> getSession e.1
                 else None) (wd_mDogs wd).

Definition queryDog (sid : Z) wd : Z :=
  match m_find sid (wd_mDogs wd) with Some d => if mDropped d then -1 else 0 | None => 1 end.
End watchdog.

(** ** The watchdog of an object *)

(** The members of [CFdbBaseObject] the watchdog is kept in: [mWatchdog] and the flag
    [FDB_OBJ_ENABLE_WATCHDOG]. *)
Record ObjDog := mkObjDog { od_mWatchdog : option CFdbWatchdog; od_enabled : bool }.

Inductive FdbWdogAction := FDB_WDOG_START | FDB_WDOG_STOP | FDB_WDOG_REMOVE.

Definition createWatchdog (sessions : list DogPeer) (interval max_retries : Z) (o : ObjDog) : ObjDog :=
  let wd := match od_mWatchdog o with
            | Some wd => wd
            | None => foldl (fun wd p => addDog p wd) (CFdbWatchdog_new interval max_retries) sessions
            end in
  mkObjDog (Some (wd_start 0 0 wd)) (od_enabled o).

Definition callWatchdogAction (sessions : list DogPeer) (action : FdbWdogAction) (interval max_retries : Z)
    (o : ObjDog) : ObjDog :=
  match action with
  | FDB_WDOG_START => mkObjDog (od_mWatchdog (createWatchdog sessions interval max_retries o)) true
  | FDB_WDOG_STOP => mkObjDog (wd_stop <$> od_mWatchdog o) (od_enabled o)
  | FDB_WDOG_REMOVE => match od_mWatchdog o with Some _ => mkObjDog None false | None => o end
  end.

(** The watchdog's part of [notifyOnline], of [notifyOffline] and of [onSidebandInvoke]. *)
Definition online_dog (sessions : list DogPeer) (p : DogPeer) (o : ObjDog) : ObjDog :=
  match od_mWatchdog o with
  | Some wd => mkObjDog (Some (addDog p wd)) (od_enabled o)
  | None => if od_enabled o then createWatchdog sessions 0 0 o else o
  end.

Definition offline_dog (sid : Z) (o : ObjDog) : ObjDog * list DogOut :=
  match od_mWatchdog o with
  | Some wd => let '(wd, out) := removeDog sid wd in (mkObjDog (Some wd) (od_enabled o), out)
  | None => (o, [])
  end.

Definition feed_watchdog (session : option Z) (o : ObjDog) : ObjDog :=
  match od_mWatchdog o, session with
  | Some wd, Some sid => mkObjDog (Some (feedDog sid wd)) (od_enabled o)
  | _, _ => o
  end.

Definition getDroppedProcesses (getSession : Z -> option DogPeer) (o : ObjDog) : list CFdbMsgProcessInfo :=
  match od_mWatchdog o with Some wd => wd_getDroppedProcesses getSession wd | None => [] end.

(** ** Sequences of calls *)

Inductive DogCall :=
  | DgAdd (p : DogPeer)
  | DgRemove (sid : Z)
  | DgFeed (sid : Z)
  | DgRun (getSession : Z -> option DogPeer).

Definition dog_call (c : DogCall) (wd : CFdbWatchdog) : CFdbWatchdog * list DogOut :=
  match c with
  | DgAdd p => (addDog p wd, [])
  | DgRemove sid => removeDog sid wd
  | DgFeed sid => (feedDog sid wd, [])
  | DgRun get => wd_run get wd
  end.

Fixpoint dog_calls (cs : list DogCall) (wd : CFdbWatchdog) : CFdbWatchdog * list DogOut :=
  match cs with
  | [] => (wd, [])
  | c :: cs => let '(wd, o1) := dog_call c wd in let '(wd, o2) := dog_calls cs wd in (wd, o1 ++ o2)
  end.

Definition out_sid (o : DogOut) : Z := match o with DogBark s | DogKick s => s end.
Definition outs_of (sid : Z) (o : list DogOut) : list DogOut := filter (fun x => out_sid x = sid) o.

(** ** One dog

    A watchdog is the product of its dogs: what a call does to the dog of [sid] and what
    it puts out for [sid] depend on that dog alone. *)
Definition dog_next (sid max_retries : Z) (c : DogCall) (d : option CDog) : option CDog * list DogOut :=
  match c with
  | DgAdd p => (if bool_decide (dp_sid p = sid) && dp_ipc p then Some (dog_reset FDB_WATCHDOG_RETRIES) else d, [])
  | DgRemove s => if bool_decide (s = sid) then (None, match d with Some _ => [DogBark sid] | None => [] end) else (d, [])
  | DgFeed s => (if bool_decide (s = sid) then (fun _ => dog_reset max_retries) <$> d else d, [])
  | DgRun get => match d with Some dog => run_dog get sid dog | None => (None, []) end
  end.

Fixpoint dog_nexts (sid max_retries : Z) (cs : list DogCall) (d : option CDog) : option CDog * list DogOut :=
  match cs with
  | [] => (d, [])
  | c :: cs =>
      let '(d, o1) := dog_next sid max_retries c d in
      let '(d, o2) := dog_nexts sid max_retries cs d in (d, o1 ++ o2)
  end.

(** The invariant: the entries are those of a map, and the retries stay inside their bounds. *)
Definition dog_in (max_retries : Z) (d : CDog) : Prop := 0 <= mRetries d <= Z.max FDB_WATCHDOG_RETRIES max_retries.
Definition wd_ok (wd : CFdbWatchdog) : Prop := lvl (dog_in (wd_mMaxRetries wd)) (wd_mDogs wd).

Lemma run_dog_sid get sid dog : Forall (fun o => out_sid o = sid) (run_dog get sid dog).2.
Proof. unfold run_dog. repeat case_match; repeat constructor. Qed.

Lemma outs_all sid o : Forall (fun x => out_sid x = sid) o -> outs_of sid o = o.
Proof.
  induction 1 as [|x l Hx _ IH]; [done|]. unfold outs_of in *. by rewrite filter_cons_True, IH.
Qed.

Lemma outs_none sid s o : s <> sid -> Forall (fun x => out_sid x = s) o -> outs_of sid o = [].
Proof.
  intros Hn. induction 1 as [|x l Hx _ IH]; [done|]. unfold outs_of in *. rewrite filter_cons_False; [done|congruence].
Qed.

Lemma outs_app sid o1 o2 : outs_of sid (o1 ++ o2) = outs_of sid o1 ++ outs_of sid o2.
Proof. apply filter_app. Qed.

Lemma run_dogs_below get k dogs : m_below k dogs -> m_below k (run_dogs get dogs).1.
Proof.
  induction dogs as [|[s d] dogs IH]; [done|]. intros Hb. inversion_clear Hb. simpl.
  destruct (run_dog get s d) as [[d'|] o1], (run_dogs get dogs) as [ds o2]; simpl in *;
    [constructor; [done|]|]; by apply IH.
Qed.

Lemma run_dogs_sorted get dogs : m_sorted dogs -> m_sorted (run_dogs get dogs).1.
Proof.
  induction dogs as [|[s d] dogs IH]; [done|]. intros [Hb Hs]. simpl.
  pose proof (run_dogs_below get s dogs Hb). specialize (IH Hs).
  destruct (run_dog get s d) as [[d'|] o1], (run_dogs get dogs) as [ds o2]; simpl in *; auto.
Qed.

Lemma run_dogs_find get sid dogs : m_sorted dogs ->
  m_find sid (run_dogs get dogs).1 = (m_find sid dogs ≫= fun d => (run_dog get sid d).1) /\
  outs_of sid (run_dogs get dogs).2 = match m_find sid dogs with Some d => (run_dog get sid d).2 | None => [] end.
Proof.
  induction dogs as [|[s d] dogs IH]; [done|]. intros [Hb Hs]. destruct (IH Hs) as [IH1 IH2].
  pose proof (run_dogs_below get s dogs Hb) as Hb'. pose proof (run_dogs_sorted get dogs Hs) as Hs'.
  pose proof (run_dog_sid get s d) as Ho. rewrite m_find_cons_dec by done. cbn [run_dogs].
  destruct (run_dogs get dogs) as [ds o2]. cbn [fst snd] in *. case_decide as Hd; [subst sid|].
  - rewrite (m_find_below s dogs) in IH2 by done. cbn [mbind option_bind].
    destruct (run_dog get s d) as [[d'|] o1]; cbn [fst snd] in *;
      rewrite outs_app, (outs_all s o1), IH2, app_nil_r by done; split; try done; [apply m_find_hd|].
    by apply m_find_below.
  - destruct (run_dog get s d) as [[d'|] o1]; cbn [fst snd] in *;
      rewrite outs_app, (outs_none sid s o1), IH2 by (try done; congruence); split; try done.
    rewrite m_find_cons_dec by done. by rewrite decide_False.
Qed.

Lemma run_dogs_ok get P dogs :
  (forall sid d d', P d -> (run_dog get sid d).1 = Some d' -> P d') -> lvl P dogs -> lvl P (run_dogs get dogs).1.
Proof.
  intros HP [Hs Hf]. split; [by apply run_dogs_sorted|]. clear Hs.
  induction Hf as [|[s d] dogs Hd _ IH]; [done|]. specialize (HP s d) as Hp. simpl in *.
  destruct (run_dog get s d) as [[d'|] o1], (run_dogs get dogs) as [ds o2]; simpl in *; [constructor|]; simpl; auto.
Qed.

Lemma run_dog_bounds get sid mx d d' : mx < 2 ^ 31 -> dog_in mx d ->
  (run_dog get sid d).1 = Some d' -> dog_in mx d'.
Proof.
  unfold run_dog, dog_in, FDB_WATCHDOG_RETRIES. intros Hm Hd E. repeat case_match; simplify_eq/=; [lia|].
  rewrite wrap_s_small by (unfold in_s; lia). lia.
Qed.

(** A call changes the dog of [sid] as it changes that dog alone. *)
Lemma dog_call_spec sid c wd : wd_ok wd -> 0 <= wd_mMaxRetries wd < 2 ^ 31 ->
  let r := dog_call c wd in let n := dog_next sid (wd_mMaxRetries wd) c (m_find sid (wd_mDogs wd)) in
  wd_ok r.1 /\ wd_mMaxRetries r.1 = wd_mMaxRetries wd /\
  m_find sid (wd_mDogs r.1) = n.1 /\ outs_of sid r.2 = n.2.
Proof.
  intros Hok Hm. pose proof Hok as [Hs Hr]. destruct c as [p|s|s|get]; cbn [dog_call dog_next fst snd].
  - unfold addDog. destruct (dp_ipc p); [|by rewrite andb_false_r].
    split_and!; [apply (lvl_set (dog_in _)); [unfold dog_in, FDB_WATCHDOG_RETRIES; simpl; lia|done]|done| |done].
    simpl. rewrite m_find_set_dec by done. case_decide; [rewrite bool_decide_true|rewrite bool_decide_false]; done.
  - unfold removeDog. destruct (m_find s (wd_mDogs wd)) eqn:E.
    + split_and!; [by apply (lvl_erase (dog_in _))|done| |].
      * simpl. rewrite m_find_erase_dec by done. case_decide; [rewrite bool_decide_true|rewrite bool_decide_false]; done.
      * unfold outs_of. simpl. case_bool_decide; [subst; rewrite E|]; rewrite ?filter_cons_True, ?filter_cons_False by done; done.
    + split_and!; try done; case_bool_decide; subst; rewrite ?E; done.
  - unfold feedDog. destruct (m_find s (wd_mDogs wd)) eqn:E.
    + split_and!; [apply (lvl_set (dog_in _)); [unfold dog_in, FDB_WATCHDOG_RETRIES; simpl; lia|done]|done| |done].
      simpl. rewrite m_find_set_dec by done. case_decide; [subst; rewrite bool_decide_true, E|rewrite bool_decide_false]; done.
    + split_and!; try done. case_bool_decide; subst; rewrite ?E; done.
  - unfold wd_run. pose proof (run_dogs_find get sid (wd_mDogs wd) Hs) as [E1 E2].
    pose proof (run_dogs_ok get _ _ (fun s d d' => run_dog_bounds get s (wd_mMaxRetries wd) d d' ltac:(lia)) Hok) as Hd.
    destruct (run_dogs get (wd_mDogs wd)) as [ds o]; simpl in *.
    split_and!; [done|done|rewrite E1|rewrite E2]; by destruct (m_find sid (wd_mDogs wd)).
Qed.

Lemma dog_calls_spec sid cs wd : wd_ok wd -> 0 <= wd_mMaxRetries wd < 2 ^ 31 ->
  let r := dog_calls cs wd in let n := dog_nexts sid (wd_mMaxRetries wd) cs (m_find sid (wd_mDogs wd)) in
  wd_ok r.1 /\ m_find sid (wd_mDogs r.1) = n.1 /\ outs_of sid r.2 = n.2.
Proof.
  revert wd. induction cs as [|c cs IH]; intros wd Hok Hm; [done|]. cbn [dog_calls dog_nexts].
  pose proof (dog_call_spec sid c wd Hok Hm) as (Hok' & Em & Ef & Eo).
  destruct (dog_call c wd) as [wd1 o1], (dog_next _ _ c _) as [d1 p1]; cbn [fst snd] in *. subst d1 p1.
  destruct (IH wd1 Hok' ltac:(lia)) as (Hok2 & Ef2 & Eo2). rewrite Em in Ef2, Eo2.
  destruct (dog_calls cs wd1) as [wd2 o2], (dog_nexts _ _ cs _) as [d2 p2]; cbn [fst snd] in *. subst d2 p2.
  by rewrite outs_app.
Qed.

(** ** When a dog barks *)

(** A call that neither adds, removes nor feeds the dog of [sid], whose session exists. *)
Definition dog_quiet (sid : Z) (c : DogCall) : bool :=
  match c with
  | DgAdd p => negb (dp_sid p =? sid)
  | DgRemove s | DgFeed s => negb (s =? sid)
  | DgRun get => match get sid with Some _ => true | None => false end
  end.

Fixpoint runs (cs : list DogCall) : Z :=
  match cs with [] => 0 | DgRun _ :: cs => Z.succ (runs cs) | _ :: cs => runs cs end.

(** Does a dog with [r] retries left, and not fed from now on, bark at the [k]-th run? *)
Definition bark_at (r k : Z) : bool := (r <? k) && ((k - r - 1) mod (FDB_WATCHDOG_RETRIES + 1) =? 0).

Definition expected (sid r k : Z) : DogOut := if bark_at r k then DogBark sid else DogKick sid.

Lemma expected_next sid r n : 0 <= r -> 0 <= n ->
  expected sid r <$> seqZ 1 (Z.succ n) =
  expected sid r 1 :: (expected sid (if r <=? 0 then FDB_WATCHDOG_RETRIES else r - 1) <$> seqZ 1 n).
Proof.
  intros Hr Hn. rewrite seqZ_cons, Z.pred_succ by lia. change (Z.succ 1) with (1 + 1).
  assert (forall k, 1 <= k -> bark_at r (k + 1) = bark_at (if r <=? 0 then FDB_WATCHDOG_RETRIES else r - 1) k) as E.
  { intros k Hk. unfold bark_at, FDB_WATCHDOG_RETRIES. destruct (Z.leb_spec r 0).
    - replace (k + 1 - r - 1) with k by lia. replace (k - 5 - 1) with (k + -1 * (5 + 1)) by lia.
      rewrite Z_mod_plus by lia. destruct (Z.eqb_spec (k mod (5 + 1)) 0) as [E|]; [|by rewrite !andb_false_r].
      rewrite !andb_true_r. apply Z.mod_divide in E as [q E]; [|lia]. destruct (Z.ltb_spec r (k + 1)), (Z.ltb_spec 5 k); lia.
    - f_equal; [destruct (Z.ltb_spec r (k + 1)), (Z.ltb_spec (r - 1) k); lia|]. do 2 f_equal; lia. }
  rewrite <- (fmap_add_seqZ 1 1 n), fmap_cons. f_equal. rewrite <- list_fmap_compose. apply list_fmap_ext.
  intros i k Hk. apply lookup_seqZ in Hk as [-> Hi]. unfold expected, compose. rewrite <- (Z.add_comm _ 1), E by lia. done.
Qed.

Lemma runs_nonneg cs : 0 <= runs cs.
Proof. induction cs as [|[] cs IH]; simpl; lia. Qed.

Lemma unfed_dog sid mx cs d : mx < 2 ^ 31 -> dog_in mx d -> forallb (dog_quiet sid) cs = true ->
  (dog_nexts sid mx cs (Some d)).2 = expected sid (mRetries d) <$> seqZ 1 (runs cs) /\
  mDropped <$> (dog_nexts sid mx cs (Some d)).1 = Some (mDropped d || (mRetries d <? runs cs)).
Proof.
  intros Hm. revert d. induction cs as [|c cs IH]; intros d Hd Hq.
  { destruct Hd. simpl. split; [done|]. destruct (Z.ltb_spec (mRetries d) 0); [lia|]. by rewrite orb_false_r. }
  apply andb_prop in Hq as [Hc Hq]. pose proof (runs_nonneg cs) as Hn.
  assert (dog_next sid mx c (Some d) = (Some d, []) /\ runs (c :: cs) = runs cs \/
          exists get p, c = DgRun get /\ get sid = Some p) as [[E Er]|(get & p & -> & Eg)].
  { destruct c as [p|s|s|get]; cbn [dog_next dog_quiet runs] in *.
    - left. destruct (Z.eqb_spec (dp_sid p) sid); [done|]. by rewrite bool_decide_false.
    - left. destruct (Z.eqb_spec s sid); [done|]. by rewrite bool_decide_false.
    - left. destruct (Z.eqb_spec s sid); [done|]. by rewrite bool_decide_false.
    - right. destruct (get sid) eqn:E; [|done]. eauto. }
  { specialize (IH d Hd Hq). rewrite Er. cbn [dog_nexts]. rewrite E. by destruct (dog_nexts sid mx cs (Some d)). }
  cbn [dog_nexts runs dog_next]. unfold run_dog. rewrite Eg. destruct Hd as [Hd Hd'].
  rewrite expected_next by lia. unfold expected at 1, bark_at at 1. unfold FDB_WATCHDOG_RETRIES at 1.
  destruct (Z.leb_spec (mRetries d) 0).
  - edestruct (IH (mkDog (mRetries (dog_reset FDB_WATCHDOG_RETRIES)) true)) as [E1 E2]; [split; unfold FDB_WATCHDOG_RETRIES; simpl; lia|done|].
    destruct (dog_nexts sid mx cs _) as [d2 p2]. cbn [fst snd] in *. rewrite E1, E2.
    replace (mRetries d) with 0 by lia. split; [done|]. f_equal. simpl. symmetry. apply orb_true_iff. right. apply Z.ltb_lt. lia.
  - assert (i32 (mRetries d - 1) = mRetries d - 1) as Ei.
    { apply wrap_s_small; [lia|]. unfold in_s. revert Hd'. unfold FDB_WATCHDOG_RETRIES. lia. }
    edestruct (IH (mkDog (i32 (mRetries d - 1)) (mDropped d))) as [E1 E2]; [split; simpl; lia|done|].
    destruct (dog_nexts sid mx cs _) as [d2 p2]. cbn [fst snd] in *. rewrite E1, E2. simpl. rewrite Ei.
    destruct (Z.ltb_spec (mRetries d) 1); [lia|]. split; [done|]. do 2 f_equal.
    destruct (Z.ltb_spec (mRetries d - 1) (runs cs)), (Z.ltb_spec (mRetries d) (Z.succ (runs cs))); lia.
Qed.

(** C35: A peer whose dog has [r] retries left and that stops feeding it is reported at the
    expiration [r + 1] of the watchdog's timer, then at every sixth one, and is kicked at all the
    others, whatever is done with the other dogs in between; it counts as dropped from its
    first report on. *)
Theorem unfed_dog_barks (sid : Z) (cs : list DogCall) (wd : CFdbWatchdog) (d : CDog) :
  wd_ok wd -> 0 <= wd_mMaxRetries wd < 2 ^ 31 -> m_find sid (wd_mDogs wd) = Some d ->
  forallb (dog_quiet sid) cs = true ->
  outs_of sid (dog_calls cs wd).2 = expected sid (mRetries d) <$> seqZ 1 (runs cs) /\
  queryDog sid (dog_calls cs wd).1 = (if mDropped d || (mRetries d <? runs cs) then -1 else 0).
Proof.
  intros Hok Hm Hd Hq. destruct (dog_calls_spec sid cs wd Hok Hm) as (_ & Ef & Eo).
  assert (dog_in (wd_mMaxRetries wd) d) as Hin by by apply (lvl_find _ _ _ _ Hok Hd).
  rewrite Hd in Ef, Eo. destruct (unfed_dog sid (wd_mMaxRetries wd) cs d ltac:(lia) Hin Hq) as [E1 E2].
  rewrite Eo, E1. split; [done|]. unfold queryDog. rewrite Ef.
  destruct (dog_nexts sid (wd_mMaxRetries wd) cs (Some d)) as [[d2|] o]; [|done]. simpl in *. injection E2 as ->. done.
Qed.

(** The peer's dog is fed often enough: never more than [limit] runs since the last feeding,
    of which there were [since] at the start. *)
Fixpoint fed_often (sid limit since : Z) (cs : list DogCall) : bool :=
  match cs with
  | [] => true
  | DgFeed s :: cs => fed_often sid limit (if s =? sid then 0 else since) cs
  | DgRun get :: cs => match get sid with Some _ => (since + 1 <=? limit) && fed_often sid limit (since + 1) cs | None => false end
  | DgAdd p :: cs => negb (dp_sid p =? sid) && fed_often sid limit since cs
  | DgRemove s :: cs => negb (s =? sid) && fed_often sid limit since cs
  end.

Lemma fed_dog sid mx cs : forall d since, 0 <= mx < 2 ^ 31 -> dog_in mx d -> mx - since <= mRetries d -> 0 <= since ->
  fed_often sid mx since cs = true -> DogBark sid ∉ (dog_nexts sid mx cs (Some d)).2 /\
  (mDropped d = false -> forall d', (dog_nexts sid mx cs (Some d)).1 = Some d' -> mDropped d' = false).
Proof.
  induction cs as [|c cs IH]; intros d since Hm Hd Hl Hs Hf.
  { split; [by apply not_elem_of_nil|]. simpl. congruence. }
  assert (forall d' since', (dog_next sid mx c (Some d)).1 = Some d' -> DogBark sid ∉ (dog_next sid mx c (Some d)).2 ->
    dog_in mx d' -> (mDropped d = false -> mDropped d' = false) -> mx - since' <= mRetries d' -> 0 <= since' ->
    fed_often sid mx since' cs = true ->
    DogBark sid ∉ (dog_nexts sid mx (c :: cs) (Some d)).2 /\
    (mDropped d = false -> forall d', (dog_nexts sid mx (c :: cs) (Some d)).1 = Some d' -> mDropped d' = false)) as Hstep.
  { intros d' since' E No Hd' Hdr Hl' Hs' Hf'. destruct (IH d' since' Hm Hd' Hl' Hs' Hf') as [I1 I2].
    cbn [dog_nexts]. destruct (dog_next sid mx c (Some d)) as [x o]. cbn [fst snd] in *. subst x.
    destruct (dog_nexts sid mx cs (Some d')) as [y o']. cbn [fst snd] in *. rewrite elem_of_app. split; [tauto|auto]. }
  destruct c as [p|s|s|get]; cbn [fed_often] in Hf.
  - apply andb_prop in Hf as [Hn Hf]. apply negb_true_iff, Z.eqb_neq in Hn.
    by apply (Hstep d since); simpl; rewrite ?bool_decide_false by done; auto using not_elem_of_nil.
  - apply andb_prop in Hf as [Hn Hf]. apply negb_true_iff, Z.eqb_neq in Hn.
    by apply (Hstep d since); simpl; rewrite ?bool_decide_false by done; auto using not_elem_of_nil.
  - destruct (Z.eqb_spec s sid) as [->|Hn].
    + apply (Hstep (dog_reset mx) 0); try done; simpl; rewrite ?bool_decide_true by done; auto using not_elem_of_nil;
        [unfold dog_in; simpl; lia|lia].
    + by apply (Hstep d since); simpl; rewrite ?bool_decide_false by done; auto using not_elem_of_nil.
  - destruct (get sid) eqn:Eg; [|done]. apply andb_prop in Hf as [Hc Hf]. apply Z.leb_le in Hc.
    destruct Hd as [Hd Hd']. assert (i32 (mRetries d - 1) = mRetries d - 1) as Ei.
    { apply wrap_s_small; [lia|]. unfold in_s. revert Hd'. unfold FDB_WATCHDOG_RETRIES. lia. }
    assert (dog_next sid mx (DgRun get) (Some d) = (Some (mkDog (i32 (mRetries d - 1)) (mDropped d)), [DogKick sid])) as E.
    { cbn [dog_next]. unfold run_dog. rewrite Eg. destruct (Z.leb_spec (mRetries d) 0); [lia|done]. }
    apply (Hstep (mkDog (i32 (mRetries d - 1)) (mDropped d)) (since + 1)); rewrite ?E; try done; simpl; rewrite ?Ei; try lia.
    + by rewrite list_elem_of_singleton.
    + split; simpl; lia.
Qed.

(** A peer that feeds its dog at least once in every [mMaxRetries] expirations is never reported. *)
Theorem fed_dog_never_barks (sid : Z) (cs : list DogCall) (wd : CFdbWatchdog) (d : CDog) :
  wd_ok wd -> 0 <= wd_mMaxRetries wd < 2 ^ 31 -> m_find sid (wd_mDogs wd) = Some d ->
  wd_mMaxRetries wd <= mRetries d -> fed_often sid (wd_mMaxRetries wd) 0 cs = true ->
  DogBark sid ∉ (dog_calls cs wd).2.
Proof.
  intros Hok Hm Hd Hr Hf Hin. destruct (dog_calls_spec sid cs wd Hok Hm) as (_ & _ & Eo).
  assert (dog_in (wd_mMaxRetries wd) d) as Hi by by apply (lvl_find _ _ _ _ Hok Hd).
  rewrite Hd in Eo. destruct (fed_dog sid (wd_mMaxRetries wd) cs d 0 Hm Hi ltac:(lia) ltac:(lia) Hf) as [Hno _].
  apply Hno. rewrite <- Eo. unfold outs_of. apply list_elem_of_filter. done.
Qed.

Lemma wd_new_ok interval max_retries : wd_ok (CFdbWatchdog_new interval max_retries).
Proof. apply lvl_nil. Qed.

(** ** On concrete watchdogs *)

Definition lab_peer (sid : Z) : DogPeer := mkDogPeer sid true EmptyString 77.
Definition lab_get (sid : Z) : option DogPeer := if bool_decide (sid ∈ [1; 2]) then Some (lab_peer sid) else None.
Definition lab_wd : CFdbWatchdog := addDog (lab_peer 2) (addDog (lab_peer 1) (CFdbWatchdog_new 0 0)).
Definition lab_calls : list DogCall := mjoin (replicate 7 [DgRun lab_get; DgFeed 1]).

(** The theorem on two dogs of which one is fed: the other one barks at the sixth run. *)
Lemma unfed_dog_barks_witness :
  outs_of 2 (dog_calls lab_calls lab_wd).2 = replicate 5 (DogKick 2) ++ [DogBark 2; DogKick 2] /\
  outs_of 1 (dog_calls lab_calls lab_wd).2 = replicate 7 (DogKick 1) /\
  queryDog 2 (dog_calls lab_calls lab_wd).1 = -1.
Proof.
  destruct (unfed_dog_barks 2 lab_calls lab_wd (dog_reset 5)) as [E1 E2]; [|by vm_compute|by vm_compute|by vm_compute|].
  - apply (lvl_set (dog_in 5)); [by vm_compute|]. apply (lvl_set (dog_in 5)); [by vm_compute|apply lvl_nil].
  - split; [exact E1|]. split; [by vm_compute|exact E2].
Defined.

(** [addDog] and [run] give a dog the retries of the default, not those the watchdog
    was created with: only a dog that has been fed has those. *)
Example added_dog_ignores_max :
  let wd := addDog (lab_peer 1) (CFdbWatchdog_new 0 2) in
  mRetries <$> m_find 1 (wd_mDogs wd) = Some 5 /\ mRetries <$> m_find 1 (wd_mDogs (feedDog 1 wd)) = Some 2.
Proof. by vm_compute. Qed.

(** Starting a watchdog that exists ignores the interval and the retries it is given. *)
Example restart_ignores_arguments :
  let o := callWatchdogAction [] FDB_WDOG_START 1000 3 (mkObjDog None false) in
  callWatchdogAction [] FDB_WDOG_START 500 9 o = o.
Proof. by vm_compute. Qed.
