(* ===== verification/Endpoint.v ===== *)
(** Endpoints: [CBaseEndpoint] of src/fdbus/CBaseEndpoint.cpp, [CBaseServer] of
    src/fdbus/CBaseServer.cpp and [CBaseClient] of src/fdbus/CBaseClient.cpp, with the
    destructors of sessions and sockets and the notification of objects
    (src/fdbus/CFdbBaseObject.cpp).

    An endpoint has sockets, each with the connections made on it, a table of the sessions
    by number, and objects that hear of every connection. Sessions are shared: the table
    of a socket, the table of the endpoint and the subscriptions of its objects hold
    pointers to them. A session is a number here, [co_heap] maps it to the object, and a look
    into the heap that finds nothing is an access to memory that has been freed. The socket
    container is known by its number [skid].

    The network and the application are arguments: which connections succeed and with what
    peers ([ep_net]), whether an object accepts a session ([ev_auth]), whether a UDP port can
    be bound, whether there is a name proxy. What the endpoint tells objects, sends to
    peers and asks the name proxy is its output. *)
From S2P Require Import Prelude CommonDefs StdMap Subscribe EventObject SocketFactory Session Security UdpSession EventLoop Watchdog.

(** ** Data *)

Definition FDB_OBJECT_MAIN : Z := 0.

(** A [CFdbSession]: what the containers read of it, its socket container, whether its socket
    is encrypted, its own address, its token and what its peer said of itself. *)
Record EpSess := mkEpSess {
  es_view : SessView; es_skid : Z; es_sock_secure : bool; es_self : string; es_token : string;
  es_senderName : string; es_pid : Z }.

(** A [CServerSocket] ([ek_host] is [None]) or a [CClientSocket] with its host. *)
Record EpSock := mkEpSock {
  ek_skid : Z; ek_addr : CFdbSocketAddr; ek_secure : bool; ek_hook : bool; ek_udp : option UdpSocket;
  ek_pending : Z; ek_host : option string; ek_table : list Z }.

(** The sessions, the sockets ([CEntityContainer] of the endpoint), the table [mSessionContainer]
    and the counts. [co_next] is the next object the allocator gives. *)
Record EpCore := mkCore {
  co_heap : smap Z EpSess; co_next : Z; co_sockets : CEntityContainer EpSock; co_sessions : CEntityContainer Z;
  co_mSecureSessionCnt : Z; co_mInsecureSessionCnt : Z }.

(** An object: [eo_ptr] is its address, [eo_obj] its subscriptions and its event cache. *)
Record EpObj := mkEpObj {
  eo_ptr : Z; eo_obj : CFdbBaseObject; eo_dog : ObjDog; eo_mOnlineChannelType : EFdbSecureType;
  eo_autoRemove : bool; eo_worker : bool; eo_migrate : bool }.

Inductive ConnectStatus := CONNECTED | CONNECTING | FAILURE | TIMEOUT.

Record Endpoint := mkEndpoint {
  ep_core : EpCore;
  ep_self : EpObj;
  ep_objects : CEntityContainer EpObj;
  ep_mSnAllocator : Z;
  ep_separate : bool;
  ep_reconnectEnabled : bool;
  ep_reconnectActivated : bool;
  ep_mNsName : string;
  ep_mInstanceId : Z;
  ep_mTokens : list string;
  ep_mConnectJobList : list Z;
  ep_net : list (option EpSess) }.

Inductive EpOut :=
  | OutSessionInfo (p udp_port : Z)
  | OutSubscribeEvents (oid : Z)
  | OutOnline (oid sid : Z) (first : bool) (qos : EFdbQOS)
  | OutOffline (oid sid : Z) (last : bool) (qos : EFdbQOS)
  | OutDog (oid : Z) (d : DogOut)
  | OutTerminate (p : Z)
  | OutAuth (p : Z) (tokens : list string)
  | OutReady (job : Z) (status : ConnectStatus)
  | OutAddAddressListener (instance_id : Z) (name : string)
  | OutRegisterService
  | OutListenOnService
  | OutRemoveAddressListener (instance_id : Z) (name : string)
  | OutUnregisterService
  | OutRemoveServiceListener (instance_id : Z) (name : string)
  | OutConnectPeers
  | OutImportSecLevel (name : string)
  | OutFlush (oid : Z)
  | OutDeleteObject (ptr : Z).

(** The environment: [authentication] of an object (0 is the endpoint), the switches of the
    endpoint, the UDP ports that can be bound, the name proxy, and [serverAlreadyRegistered]. *)
Class EpEnv := mkEpEnv {
  ev_auth : Z -> EpSess -> bool;
  ev_tcp_secure : bool;
  ev_udp : bool;
  ev_udp_bind : string -> Z -> bool -> bool;
  ev_name_proxy : bool;
  ev_registered : bool }.

Implicit Types c : EpCore.
Implicit Types ep : Endpoint.
Implicit Types s : EpSess.
Implicit Types k : EpSock.
Implicit Types o : EpObj.

Definition eo_objId o : Z := o_mObjId (eo_obj o).
Definition eo_role o : EFdbEndpointRole := o_mRole (eo_obj o).
Definition ep_role ep : EFdbEndpointRole := eo_role (ep_self ep).

Definition eo_set_obj (x : CFdbBaseObject) o : EpObj :=
  mkEpObj (eo_ptr o) x (eo_dog o) (eo_mOnlineChannelType o) (eo_autoRemove o) (eo_worker o) (eo_migrate o).
Definition eo_set_dog (d : ObjDog) o : EpObj :=
  mkEpObj (eo_ptr o) (eo_obj o) d (eo_mOnlineChannelType o) (eo_autoRemove o) (eo_worker o) (eo_migrate o).
Definition eo_set_migrate (b : bool) o : EpObj :=
  mkEpObj (eo_ptr o) (eo_obj o) (eo_dog o) (eo_mOnlineChannelType o) (eo_autoRemove o) (eo_worker o) b.
Definition obj_set_id (oid : Z) (x : CFdbBaseObject) : CFdbBaseObject :=
  mkObject (o_mFlag x) oid (o_mRole x) (mEventSubscribeHandle x) (mGroupSubscribeHandle x) (mEventCache x).

Definition sv_set_sid (sid : Z) (v : SessView) : SessView :=
  mkSessView sid (sv_mPeerUDPIpDigit v) (sv_mPeerUDPPort v) (sv_mSecurityLevel v) (sv_secure v) (sv_addr v) (sv_peer v).
Definition sv_set_level (l : Z) (v : SessView) : SessView :=
  mkSessView (sv_sid v) (sv_mPeerUDPIpDigit v) (sv_mPeerUDPPort v) l (sv_secure v) (sv_addr v) (sv_peer v).
Definition sv_set_udp (ip port : Z) (v : SessView) : SessView :=
  mkSessView (sv_sid v) ip port (sv_mSecurityLevel v) (sv_secure v) (sv_addr v) (sv_peer v).
Definition es_sid s : Z := sv_sid (es_view s).
Definition es_set_view (v : SessView) s : EpSess :=
  mkEpSess v (es_skid s) (es_sock_secure s) (es_self s) (es_token s) (es_senderName s) (es_pid s).
Definition es_set_token (t : string) s : EpSess :=
  mkEpSess (es_view s) (es_skid s) (es_sock_secure s) (es_self s) t (es_senderName s) (es_pid s).
Definition es_set_sender (name : string) (pid : Z) s : EpSess :=
  mkEpSess (es_view s) (es_skid s) (es_sock_secure s) (es_self s) (es_token s) name pid.

Definition ek_set_table (l : list Z) k : EpSock :=
  mkEpSock (ek_skid k) (ek_addr k) (ek_secure k) (ek_hook k) (ek_udp k) (ek_pending k) (ek_host k) l.
Definition ek_set_hook (b : bool) k : EpSock :=
  mkEpSock (ek_skid k) (ek_addr k) (ek_secure k) b (ek_udp k) (ek_pending k) (ek_host k) (ek_table k).
Definition ek_set_udp (u : option UdpSocket) (port : Z) k : EpSock :=
  mkEpSock (ek_skid k) (ek_addr k) (ek_secure k) (ek_hook k) u port (ek_host k) (ek_table k).

Definition co_set_heap (h : smap Z EpSess) c : EpCore :=
  mkCore h (co_next c) (co_sockets c) (co_sessions c) (co_mSecureSessionCnt c) (co_mInsecureSessionCnt c).
Definition co_set_sockets (t : CEntityContainer EpSock) c : EpCore :=
  mkCore (co_heap c) (co_next c) t (co_sessions c) (co_mSecureSessionCnt c) (co_mInsecureSessionCnt c).
Definition co_set_sessions (t : CEntityContainer Z) c : EpCore :=
  mkCore (co_heap c) (co_next c) (co_sockets c) t (co_mSecureSessionCnt c) (co_mInsecureSessionCnt c).
Definition co_set_counts (sec insec : Z) c : EpCore :=
  mkCore (co_heap c) (co_next c) (co_sockets c) (co_sessions c) sec insec.

(** [new CFdbSession]. *)
Definition co_new (s : EpSess) c : Z * EpCore :=
  (co_next c, mkCore (m_set (co_next c) s (co_heap c)) (co_next c + 1) (co_sockets c) (co_sessions c)
                (co_mSecureSessionCnt c) (co_mInsecureSessionCnt c)).

Definition ep_set_core (x : EpCore) ep : Endpoint :=
  mkEndpoint x (ep_self ep) (ep_objects ep) (ep_mSnAllocator ep) (ep_separate ep) (ep_reconnectEnabled ep)
    (ep_reconnectActivated ep) (ep_mNsName ep) (ep_mInstanceId ep) (ep_mTokens ep) (ep_mConnectJobList ep) (ep_net ep).
Definition ep_set_self (x : EpObj) ep : Endpoint :=
  mkEndpoint (ep_core ep) x (ep_objects ep) (ep_mSnAllocator ep) (ep_separate ep) (ep_reconnectEnabled ep)
    (ep_reconnectActivated ep) (ep_mNsName ep) (ep_mInstanceId ep) (ep_mTokens ep) (ep_mConnectJobList ep) (ep_net ep).
Definition ep_set_objects (x : CEntityContainer EpObj) (sn : Z) ep : Endpoint :=
  mkEndpoint (ep_core ep) (ep_self ep) x sn (ep_separate ep) (ep_reconnectEnabled ep)
    (ep_reconnectActivated ep) (ep_mNsName ep) (ep_mInstanceId ep) (ep_mTokens ep) (ep_mConnectJobList ep) (ep_net ep).
Definition ep_activateReconnect (b : bool) ep : Endpoint :=
  mkEndpoint (ep_core ep) (ep_self ep) (ep_objects ep) (ep_mSnAllocator ep) (ep_separate ep) (ep_reconnectEnabled ep)
    b (ep_mNsName ep) (ep_mInstanceId ep) (ep_mTokens ep) (ep_mConnectJobList ep) (ep_net ep).
Definition ep_set_name (name : string) (instance_id : Z) ep : Endpoint :=
  mkEndpoint (ep_core ep) (ep_self ep) (ep_objects ep) (ep_mSnAllocator ep) (ep_separate ep) (ep_reconnectEnabled ep)
    (ep_reconnectActivated ep) name instance_id (ep_mTokens ep) (ep_mConnectJobList ep) (ep_net ep).
Definition ep_set_tokens (l : list string) ep : Endpoint :=
  mkEndpoint (ep_core ep) (ep_self ep) (ep_objects ep) (ep_mSnAllocator ep) (ep_separate ep) (ep_reconnectEnabled ep)
    (ep_reconnectActivated ep) (ep_mNsName ep) (ep_mInstanceId ep) l (ep_mConnectJobList ep) (ep_net ep).
Definition ep_set_jobs (l : list Z) ep : Endpoint :=
  mkEndpoint (ep_core ep) (ep_self ep) (ep_objects ep) (ep_mSnAllocator ep) (ep_separate ep) (ep_reconnectEnabled ep)
    (ep_reconnectActivated ep) (ep_mNsName ep) (ep_mInstanceId ep) (ep_mTokens ep) l (ep_net ep).
Definition ep_set_net (l : list (option EpSess)) ep : Endpoint :=
  mkEndpoint (ep_core ep) (ep_self ep) (ep_objects ep) (ep_mSnAllocator ep) (ep_separate ep) (ep_reconnectEnabled ep)
    (ep_reconnectActivated ep) (ep_mNsName ep) (ep_mInstanceId ep) (ep_mTokens ep) (ep_mConnectJobList ep) l.

(** ** A state monad *)

Definition EM (A : Type) : Type := Endpoint -> option (A * Endpoint * list EpOut).

#[export] Instance EM_ret : MRet EM := fun _ x ep => Some (x, ep, []).
#[export] Instance EM_bind : MBind EM := fun _ _ f m ep =>
  match m ep with
  | Some (x, ep, o1) => match f x ep with Some (y, ep, o2) => Some (y, ep, o1 ++ o2) | None => None end
  | None => None
  end.

Definition em_get : EM Endpoint := fun ep => Some (ep, ep, []).
Definition em_mod (f : Endpoint -> Endpoint) : EM unit := fun ep => Some (tt, f ep, []).
Definition em_core (f : EpCore -> EpCore) : EM unit := em_mod (fun ep => ep_set_core (f (ep_core ep)) ep).
Definition em_out (l : list EpOut) : EM unit := fun ep => Some (tt, ep, l).
Definition em_when (b : bool) (m : EM unit) : EM unit := if b then m else mret tt.

(** Access to a session through a pointer, and to its socket. *)
Definition co_sess (p : Z) c : option EpSess := m_find p (co_heap c).
Definition co_sock (skid : Z) c : option EpSock := retrieveEntry skid (co_sockets c).
Definition em_sess (p : Z) : EM EpSess := fun ep => (fun s => (s, ep, [])) <$> co_sess p (ep_core ep).
Definition em_sock (skid : Z) : EM EpSock := fun ep => (fun k => (k, ep, [])) <$> co_sock skid (ep_core ep).

Definition co_put_sess (p : Z) s c : EpCore := co_set_heap (m_set p s (co_heap c)) c.
Definition co_put_sock (skid : Z) k c : EpCore := co_set_sockets (updateEntry skid k (co_sockets c)) c.

Fixpoint em_each {A} (f : A -> EM unit) (l : list A) : EM unit :=
  match l with [] => mret tt | x :: l => _ ← f x; em_each f l end.

Definition fdbValidFdbId (id : Z) : bool := negb (id =? FDB_INVALID_ID).

(** A socket container as UdpSession.v sees it. *)
Definition ek_container c k : CFdbSessionContainer :=
  mkSessContainer (ek_skid k) (ek_addr k) (ek_secure k) (ek_hook k) (ek_udp k) (ek_pending k)
    (omap (fun p => es_view <$> co_sess p c) (ek_table k)).

(** [CFdbSession::qos]. *)
Definition sess_qos s k : EFdbQOS :=
  if bool_decide (sa_mType (ek_addr k) = FDB_SOCKET_IPC) then FDB_QOS_LOCAL
  else if es_sock_secure s then FDB_QOS_SECURE_RELIABLE else FDB_QOS_RELIABLE.

Section endpoint.
Context {E : EpEnv}.

(** ** Notifying objects *)

Definition checkOnlineChannel (type : EFdbSecureType) (qos : EFdbQOS) : bool :=
  if match type with FDB_SEC_NO_CHECK => true | _ => bool_decide (qos = FDB_QOS_LOCAL) end then true else
  let type := match type with
              | FDB_SEC_TRY_SECURE => if ev_tcp_secure then FDB_SEC_SECURE else FDB_SEC_INSECURE
              | t => t
              end in
  match type with
  | FDB_SEC_INSECURE => bool_decide (qos = FDB_QOS_RELIABLE)
  | _ => bool_decide (qos = FDB_QOS_SECURE_RELIABLE)
  end.

(** [migrateToWorker] runs the callback at once when the object has no worker. *)
Definition migrateToWorker (out : EpOut) o : list EpOut := if eo_worker o && negb (eo_migrate o) then [] else [out].

Definition dog_peer s k : DogPeer :=
  mkDogPeer (es_sid s) (bool_decide (sa_mType (ek_addr k) = FDB_SOCKET_IPC)) (es_senderName s) (es_pid s).

(** The connected sessions in the order in which the loops over the sockets meet them. *)
Definition connected_sessions c : list Z := (mEntryContainer (co_sockets c)) ≫= fun e => ek_table e.2.

Definition connected_peer c (p : Z) : option DogPeer :=
  s ← co_sess p c; k ← co_sock (es_skid s) c; Some (dog_peer s k).

Definition updateSessionInfo (p : Z) : EM unit :=
  ep ← em_get;
  if bool_decide (ep_role ep = FDB_OBJECT_ROLE_SERVER) || bool_decide (ep_role ep = FDB_OBJECT_ROLE_CLIENT) then
    s ← em_sess p;
    k ← em_sock (es_skid s);
    if bool_decide (sa_mType (ek_addr k) = FDB_SOCKET_TCP) then
      let cn := ek_container (ep_core ep) k in
      let '(_, cn) :=
        if bool_decide (ep_role ep = FDB_OBJECT_ROLE_CLIENT)
        then bindUDPSocket ev_udp ev_udp_bind (Some (es_self s)) FDB_INET_PORT_INVALID cn
        else match cn_mUDPSession cn with
             | Some _ => (true, cn)
             | None => bindUDPSocket ev_udp ev_udp_bind None FDB_INET_PORT_INVALID cn
             end in
      _ ← em_core (co_put_sock (es_skid s) (ek_set_udp (cn_mUDPSession cn) (cn_mPendingUDPPort cn) k));
      em_out [OutSessionInfo p (match cn_mUDPSession cn with
                                | Some u => if FDB_VALID_PORT (us_mPort u) then us_mPort u else FDB_INET_PORT_INVALID
                                | None => FDB_INET_PORT_INVALID
                                end)]
    else em_out [OutSessionInfo p FDB_INET_PORT_INVALID]
  else mret tt.

(** [notifyOnline] and [notifyOffline] of an object, without the session info the endpoint
    sends to the peer. *)
Definition notifyOnline c (p : Z) (is_first : bool) o : option (EpObj * list EpOut) :=
  s ← co_sess p c;
  k ← co_sock (es_skid s) c;
  dog ← match od_mWatchdog (eo_dog o), od_enabled (eo_dog o) with
        | None, true => peers ← mapM (connected_peer c) (connected_sessions c); Some (online_dog peers (dog_peer s k) (eo_dog o))
        | _, _ => Some (online_dog [] (dog_peer s k) (eo_dog o))
        end;
  let o := eo_set_dog dog o in
  Some (o, if checkOnlineChannel (eo_mOnlineChannelType o) (sess_qos s k)
           then OutSubscribeEvents (eo_objId o) :: migrateToWorker (OutOnline (eo_objId o) (es_sid s) is_first (sess_qos s k)) o
           else []).

Definition notifyOffline c (p : Z) (is_last : bool) o : option (EpObj * list EpOut) :=
  s ← co_sess p c;
  k ← co_sock (es_skid s) c;
  let '(dog, barks) := offline_dog (es_sid s) (eo_dog o) in
  let o := eo_set_dog dog o in
  Some (o, (OutDog (eo_objId o) <$> barks) ++
           (if checkOnlineChannel (eo_mOnlineChannelType o) (sess_qos s k)
            then migrateToWorker (OutOffline (eo_objId o) (es_sid s) is_last (sess_qos s k)) o else [])).

(** The loop over the objects of the endpoint, and the call for the endpoint itself. *)
Fixpoint objs_each (f : EpObj -> option (EpObj * list EpOut)) (t : smap Z EpObj) : option (smap Z EpObj * list EpOut) :=
  match t with
  | [] => Some ([], [])
  | (oid, o) :: t => '(o, o1) ← f o; '(t, o2) ← objs_each f t; Some ((oid, o) :: t, o1 ++ o2)
  end.

Definition em_objects (f : EpCore -> EpObj -> option (EpObj * list EpOut)) : EM unit := fun ep =>
  '(t, out) ← objs_each (f (ep_core ep)) (mEntryContainer (ep_objects ep));
  Some (tt, ep_set_objects (mkContainer (mEntryAllocator (ep_objects ep)) t) (ep_mSnAllocator ep) ep, out).

Definition em_self (f : EpCore -> EpObj -> option (EpObj * list EpOut)) : EM unit := fun ep =>
  '(o, out) ← f (ep_core ep) (ep_self ep); Some (tt, ep_set_self o ep, out).

(** An object that refuses the session is not told of it. *)
Definition when_accepted (p : Z) (f : EpObj -> option (EpObj * list EpOut)) c o : option (EpObj * list EpOut) :=
  s ← co_sess p c; if ev_auth (eo_objId o) s then f o else Some (o, []).

(** ** Sessions *)

Definition registerSession (p : Z) : EM unit :=
  s ← em_sess p;
  em_core (fun c => let '(sid, t) := allocateEntityId (co_sessions c) in
                    let c := co_put_sess p (es_set_view (sv_set_sid sid (es_view s)) s) c in
                    co_set_sessions (insertEntry sid p t).2 c).

Definition unregisterSession (sid : Z) : EM unit := em_core (fun c => co_set_sessions (deleteEntry sid (co_sessions c)) c).

Definition getSession (sid : Z) ep : option Z := retrieveEntry sid (co_sessions (ep_core ep)).

Definition sock_addSession (p : Z) k : EpSock :=
  if existsb (Z.eqb p) (ek_table k) then k else ek_set_table (ek_table k ++ [p]) k.
Definition sock_removeSession (p : Z) k : EpSock := ek_set_table (remove_value p (ek_table k)) k.

Definition is_first_session (separate secure : bool) c : bool :=
  if separate then (if secure then co_mSecureSessionCnt c =? 0 else co_mInsecureSessionCnt c =? 0)
  else u32 (co_mSecureSessionCnt c + co_mInsecureSessionCnt c) =? 0.
Definition is_last_session (separate secure : bool) c : bool :=
  if separate then (if secure then co_mSecureSessionCnt c =? 1 else co_mInsecureSessionCnt c =? 1)
  else u32 (co_mSecureSessionCnt c + co_mInsecureSessionCnt c) =? 1.

Definition count_up (secure : bool) c : EpCore :=
  if secure then co_set_counts (u32 (co_mSecureSessionCnt c + 1)) (co_mInsecureSessionCnt c) c
  else co_set_counts (co_mSecureSessionCnt c) (u32 (co_mInsecureSessionCnt c + 1)) c.
Definition count_down (secure : bool) c : EpCore :=
  if secure
  then (if 0 <? co_mSecureSessionCnt c then co_set_counts (u32 (co_mSecureSessionCnt c - 1)) (co_mInsecureSessionCnt c) c else c)
  else (if 0 <? co_mInsecureSessionCnt c then co_set_counts (co_mSecureSessionCnt c) (u32 (co_mInsecureSessionCnt c - 1)) c else c).

Definition addConnectedSession (skid p : Z) : EM bool :=
  ep ← em_get;
  s ← em_sess p;
  if negb (ev_auth FDB_OBJECT_MAIN s) then mret false else
  k ← em_sock skid;
  let is_first := is_first_session (ep_separate ep) (ek_secure k) (ep_core ep) in
  _ ← em_core (count_up (ek_secure k));
  _ ← em_core (co_put_sock skid (sock_addSession p k));
  _ ← registerSession p;
  _ ← updateSessionInfo p;
  _ ← em_self (fun c => notifyOnline c p is_first);
  _ ← em_objects (fun c => when_accepted p (notifyOnline c p is_first) c);
  mret true.

Definition deleteConnectedSession (p : Z) : EM unit :=
  ep ← em_get;
  s ← em_sess p;
  k ← em_sock (es_skid s);
  let is_last := is_last_session (ep_separate ep) (ek_secure k) (ep_core ep) in
  _ ← em_core (count_down (ek_secure k));
  _ ← em_core (co_put_sock (es_skid s) (sock_removeSession p k));
  _ ← em_objects (fun c => notifyOffline c p is_last);
  _ ← em_self (fun c => notifyOffline c p is_last);
  unregisterSession (es_sid s).

Definition obj_forget (p : Z) o : option (EpObj * list EpOut) := Some (eo_set_obj (obj_unsubscribe_session (eo_obj o) p) o, []).

Definition unsubscribeSession (p : Z) : EM unit :=
  _ ← em_objects (fun _ => obj_forget p);
  em_self (fun _ => obj_forget p).

(** [~CFdbSession] without the hook of the socket: the pending requests are terminated, then
    the session leaves the endpoint. The result is its socket. *)
Definition destroySession (p : Z) : EM Z :=
  s ← em_sess p;
  _ ← em_out [OutTerminate p];
  _ ← deleteConnectedSession p;
  _ ← unsubscribeSession p;
  _ ← em_core (fun c => co_set_heap (m_erase p (co_heap c)) c);
  mret (es_skid s).

(** [delete container]: the sessions of the socket go with it. The hook of a client's socket is
    off by then, and the one of a server's socket does nothing. *)
Definition deleteSessions (skid : Z) : EM unit :=
  ep ← em_get;
  em_each (fun e => s ← em_sess e.2; if es_skid s =? skid then _ ← destroySession e.2; mret tt else mret tt)
    (mEntryContainer (co_sessions (ep_core ep))).

Definition deleteContainer (skid : Z) : EM unit :=
  k ← em_sock skid;
  _ ← em_when (match ek_host k with Some _ => true | None => false end) (em_core (co_put_sock skid (ek_set_hook false k)));
  _ ← deleteSessions skid;
  em_core (fun c => co_set_sockets (deleteEntry skid (co_sockets c)) c).

Definition addSocket k : EM unit := em_core (fun c => co_set_sockets (insertEntry (ek_skid k) k (co_sockets c)).2 c).

(** The loop [while (!containers.empty())] deletes the first socket of the table each time. *)
Fixpoint deleteSockets (fuel : nat) : EM unit :=
  match fuel with
  | O => mret tt
  | S fuel =>
      ep ← em_get;
      match mEntryContainer (co_sockets (ep_core ep)) with
      | [] => mret tt
      | (skid, _) :: _ => _ ← deleteContainer skid; deleteSockets fuel
      end
  end.

Definition deleteSocket (skid : Z) : EM unit :=
  ep ← em_get;
  if fdbValidFdbId skid
  then (match co_sock skid (ep_core ep) with Some _ => deleteContainer skid | None => mret tt end)
  else deleteSockets (length (mEntryContainer (co_sockets (ep_core ep)))).

(** ** Objects *)

Definition FDB_OBJECT_MAKE_ID (sn class : Z) : Z := u32 (Z.lor (Z.shiftl sn 16) (Z.land class 0xFFFF)).

(** An entry of the table whose value is the object at [ptr]. *)
Definition objects_has (ptr : Z) ep : bool := findEntry (fun o => eo_ptr o =? ptr) (ep_objects ep).

Definition findObject (obj_id : Z) (server_only : bool) ep : option EpObj :=
  snd <$> find (fun e => if server_only
                         then bool_decide (eo_role e.2 = FDB_OBJECT_ROLE_SERVER)
                              && (FDB_OBJECT_GET_CLASS obj_id =? FDB_OBJECT_GET_CLASS (eo_objId e.2))
                         else obj_id =? eo_objId e.2) (mEntryContainer (ep_objects ep)).

(** The loop of [addObject] over the connections there are: which of the channels still
    wait for their first session. *)
Fixpoint online_each c (client : bool) (l : list Z) (first_secure first_insecure : bool) o :
    option (EpObj * list EpOut) :=
  match l with
  | [] => Some (o, [])
  | p :: l =>
      s ← co_sess p c;
      k ← co_sock (es_skid s) c;
      if negb (ev_auth (eo_objId o) s) then online_each c client l first_secure first_insecure o else
      let is_first := if client then (if ek_secure k then first_secure else first_insecure)
                      else first_secure && first_insecure in
      '(o, o1) ← notifyOnline c p is_first o;
      '(o, o2) ← online_each c client l (first_secure && negb (ek_secure k)) (first_insecure && ek_secure k) o;
      Some (o, o1 ++ o2)
  end.

(** The loop of [removeObject], with its counts. *)
Fixpoint offline_each c (separate : bool) (l : list Z) (sec insec : Z) o : option (EpObj * list EpOut) :=
  match l with
  | [] => Some (o, [])
  | p :: l =>
      s ← co_sess p c;
      k ← co_sock (es_skid s) c;
      let counts := co_set_counts sec insec c in
      let is_last := is_last_session separate (ek_secure k) counts in
      let counts := count_down (ek_secure k) counts in
      '(o, o1) ← notifyOffline c p is_last o;
      '(o, o2) ← offline_each c separate l (co_mSecureSessionCnt counts) (co_mInsecureSessionCnt counts) o;
      Some (o, o1 ++ o2)
  end.

(** [allocateEntityId] until the number is not the one of the endpoint. *)
Definition allocate_object_id (t : CEntityContainer EpObj) : Z * CEntityContainer EpObj :=
  let '(id, t) := allocateEntityId t in if id =? FDB_OBJECT_MAIN then allocateEntityId t else (id, t).

Definition announce (oid : Z) o : EM (Z * EpObj) := fun ep =>
  '(o, out) ← online_each (ep_core ep) (bool_decide (ep_role ep = FDB_OBJECT_ROLE_CLIENT))
                (connected_sessions (ep_core ep)) true true o;
  Some ((oid, o), ep_set_objects (updateEntry oid o (ep_objects ep)) (ep_mSnAllocator ep) ep, out).

(** [addObject]: its result, and the object as it is left. *)
Definition addObject o : EM (Z * EpObj) :=
  let invalid := u32 FDB_INVALID_ID in
  let obj_id := eo_objId o in
  ep ← em_get;
  if obj_id =? FDB_OBJECT_MAIN then mret (invalid, o) else
  if objects_has (eo_ptr o) ep then mret (obj_id, o) else
  let '(obj_id, t) := if obj_id =? invalid then allocate_object_id (ep_objects ep) else (obj_id, ep_objects ep) in
  _ ← em_mod (ep_set_objects t (ep_mSnAllocator ep));
  match (if bool_decide (eo_role o = FDB_OBJECT_ROLE_SERVER) then findObject obj_id true ep else None) with
  | Some o' => mret (if eo_ptr o' =? eo_ptr o then obj_id else invalid, o)
  | None =>
      let oid := FDB_OBJECT_MAKE_ID (ep_mSnAllocator ep) obj_id in
      let o := eo_set_obj (obj_set_id oid (eo_obj o)) o in
      let '(ok, t) := insertEntry oid o t in
      _ ← em_mod (ep_set_objects t (u32 (ep_mSnAllocator ep + 1)));
      if negb ok then mret (invalid, o) else
      announce oid (eo_set_migrate true o)
  end.

(** [removeObject] of the object at [ptr]. The entry erased is the one of its number. *)
Definition removeObject (ptr : Z) : EM unit := fun ep =>
  match find (fun e => eo_ptr e.2 =? ptr) (mEntryContainer (ep_objects ep)) with
  | None => Some (tt, ep, [])
  | Some (_, o) =>
      let c := ep_core ep in
      '(o, out) ← offline_each c (ep_separate ep) (connected_sessions c) (co_mSecureSessionCnt c) (co_mInsecureSessionCnt c) o;
      Some (tt, ep_set_objects (deleteEntry (eo_objId o) (ep_objects ep)) (ep_mSnAllocator ep) ep,
            out ++ (if eo_worker o then [OutFlush (eo_objId o)] else [])
                ++ (if eo_autoRemove o then [OutDeleteObject ptr] else []))
  end.

(** [addToEndpoint], which [bind] and [connect] of an object end in: the number of the object
    is set first, also when the object is in the table already, and is the result. *)
Definition obj_renumber (role : EFdbEndpointRole) (obj_id : Z) o : EpObj :=
  let x := eo_obj o in
  eo_set_obj (mkObject (o_mFlag x) obj_id role (mEventSubscribeHandle x) (mGroupSubscribeHandle x) (mEventCache x)) o.

Definition addToEndpoint (role : EFdbEndpointRole) (obj_id : Z) o : EM Z :=
  _ ← em_objects (fun _ x => Some (if eo_ptr x =? eo_ptr o then obj_renumber role obj_id x else x, []));
  '(_, o) ← addObject (obj_renumber role obj_id o);
  mret (eo_objId o).

(** [getObject]: [onCreateObject] is called once when there is no object with the number. *)
Definition getObject (onCreateObject : EM unit) (obj_id : Z) (server_only : bool) : EM (option Z) :=
  if obj_id =? FDB_OBJECT_MAIN then ep ← em_get; mret (Some (eo_ptr (ep_self ep))) else
  ep ← em_get;
  match findObject obj_id server_only ep with
  | Some o => mret (Some (eo_ptr o))
  | None => _ ← onCreateObject; ep ← em_get; mret (eo_ptr <$> findObject obj_id server_only ep)
  end.

(** ** Choosing a session *)

Definition QosToSecureType (qos : EFdbQOS) : EFdbSecureType :=
  match qos with
  | FDB_QOS_SECURE_RELIABLE | FDB_QOS_SECURE_BEST_EFFORTS | FDB_QOS_LOCAL => FDB_SEC_SECURE
  | FDB_QOS_TRY_SECURE_RELIABLE | FDB_QOS_TRY_SECURE_BEST_EFFORTS => FDB_SEC_TRY_SECURE
  | _ => FDB_SEC_INSECURE
  end.

Fixpoint preferred_from (sec_type : EFdbSecureType) (l : list (Z * EpSock)) (fallback : option Z) : option Z :=
  match l with
  | [] => fallback
  | (_, k) :: l =>
      match head (ek_table k) with
      | None => preferred_from sec_type l fallback
      | Some p =>
          if bool_decide (sa_mType (ek_addr k) = FDB_SOCKET_IPC) then Some p else
          match sec_type with
          | FDB_SEC_INSECURE => if negb (ek_secure k) then Some p else preferred_from sec_type l fallback
          | FDB_SEC_SECURE => if ek_secure k then Some p else preferred_from sec_type l fallback
          | _ => if ek_secure k then Some p else preferred_from sec_type l (Some p)
          end
      end
  end.

Definition preferredPeer (qos : EFdbQOS) ep : option Z :=
  preferred_from (QosToSecureType qos) (mEntryContainer (co_sockets (ep_core ep))) None.

(** [connectedSession(addr)], [connectedSession(sec_type)] and [bound] of the endpoint: the
    first session of the first socket that has one. *)
Definition find_session (f : EpSess -> EpSock -> bool) c : option Z :=
  find (fun p => match co_sess p c with
                 | Some s => match co_sock (es_skid s) c with Some k => f s k | None => false end
                 | None => false
                 end) (connected_sessions c).

Definition ep_connectedSession (addr : CFdbSocketAddr) c : option Z := find_session (fun s _ => sess_connected addr (es_view s)) c.
Definition ep_connectedSession_sec (sec_type : EFdbSecureType) c : option Z :=
  find_session (fun s k => match sec_type with
                           | FDB_SEC_INSECURE => negb (ek_secure k)
                           | FDB_SEC_SECURE => ek_secure k
                           | _ => true
                           end) c.
Definition ep_bound (addr : CFdbSocketAddr) c : option Z := find_session (fun s _ => sess_bound addr (es_view s)) c.

(** ** Tokens *)

Definition ep_importTokens (in_tokens : list string) ep : bool * Endpoint :=
  let '(need_update, tokens) := importTokens (ep_mTokens ep) in_tokens in (need_update, ep_set_tokens tokens ep).

Definition updateSecurityLevel : EM unit :=
  ep ← em_get;
  em_each (fun p => s ← em_sess p;
                    em_core (co_put_sess p (es_set_view (sv_set_level (checkSecurityLevel (ep_mTokens ep) (Some (es_token s))) (es_view s)) s)))
    (connected_sessions (ep_core ep)).

(** [CBaseClient::updateSecurityLevel]: the tokens go to the server. *)
Definition client_updateSecurityLevel (p : Z) : EM unit :=
  ep ← em_get;
  em_when (negb (bool_decide (ep_mTokens ep = []))) (em_out [OutAuth p (ep_mTokens ep)]).

(** [onSidebandInvoke] of the server for [FDB_SIDEBAND_AUTH] with the tokens received, and of
    the endpoint for [FDB_SIDEBAND_SESSION_INFO]: [ip] is the address of the peer, if the socket has one. *)
Definition sideband_auth (sid : Z) (tokens : list string) : EM unit :=
  ep ← em_get;
  let token := default EmptyString (head tokens) in
  let level := match tokens with [] => FDB_SECURITY_LEVEL_NONE | _ => checkSecurityLevel (ep_mTokens ep) (Some token) end in
  match getSession sid ep with
  | None => mret tt
  | Some p => s ← em_sess p; em_core (co_put_sess p (es_set_token token (es_set_view (sv_set_level level (es_view s)) s)))
  end.

Definition sideband_session_info (sid : Z) (sender_name : string) (pid : Z) (udp_port : option Z) (ip : option Z) : EM unit :=
  ep ← em_get;
  match getSession sid ep with
  | None => mret tt
  | Some p =>
      s ← em_sess p;
      let s := es_set_sender sender_name pid s in
      let port := default FDB_INET_PORT_INVALID udp_port in
      em_core (co_put_sess p (match ip with
                              | Some ip => if FDB_VALID_PORT port then es_set_view (sv_set_udp ip port (es_view s)) s else s
                              | None => s
                              end))
  end.

(** ** The name proxy *)

Definition requestServiceAddress (server_name : option string) (instance_id : Z) : EM bool :=
  ep ← em_get;
  if bool_decide (ep_role ep = FDB_OBJECT_ROLE_NS_SERVER) then mret false else
  _ ← em_mod (fun ep => match server_name with Some n => ep_set_name n instance_id ep | None => ep end);
  ep ← em_get;
  if is_empty_str (ep_mNsName ep) || negb ev_name_proxy then mret false else
  if bool_decide (ep_role ep = FDB_OBJECT_ROLE_SERVER) then
    if ev_registered then mret false
    else _ ← em_out [OutAddAddressListener (ep_mInstanceId ep) (ep_mNsName ep); OutRegisterService; OutConnectPeers]; mret true
  else _ ← em_out [OutListenOnService; OutConnectPeers]; mret true.

Definition releaseServiceAddress : EM bool :=
  ep ← em_get;
  if bool_decide (ep_role ep = FDB_OBJECT_ROLE_NS_SERVER) || is_empty_str (ep_mNsName ep) || negb ev_name_proxy then mret false else
  _ ← em_out (if bool_decide (ep_role ep = FDB_OBJECT_ROLE_SERVER)
              then [OutRemoveAddressListener (ep_mInstanceId ep) (ep_mNsName ep); OutUnregisterService]
              else [OutRemoveServiceListener (ep_mInstanceId ep) (ep_mNsName ep)]);
  _ ← em_mod (fun ep => ep_set_name EmptyString (ep_mInstanceId ep) ep);
  mret true.

(** ** Making and losing connections *)

Definition notifyConnectReady (status : ConnectStatus) : EM unit :=
  ep ← em_get;
  _ ← em_out ((fun j => OutReady j status) <$> ep_mConnectJobList ep);
  em_mod (ep_set_jobs []).

(** [new CFdbSession(FDB_INVALID_ID, container, socket)]. *)
Definition newSession (skid : Z) (secure : bool) (s : EpSess) : EpSess :=
  let v := es_view s in
  mkEpSess (mkSessView FDB_INVALID_ID 0 FDB_INET_PORT_INVALID FDB_SECURITY_LEVEL_NONE secure (sv_addr v) (sv_peer v))
    skid (es_sock_secure s) (es_self s) EmptyString EmptyString 0.

Definition em_new (s : EpSess) : EM Z := fun ep => let '(p, c) := co_new s (ep_core ep) in Some (p, ep_set_core c ep, []).

(** What the attempts to connect end in. *)
Definition net_connect : EM (option EpSess) := fun ep =>
  match ep_net ep with [] => Some (None, ep, []) | r :: net => Some (r, ep_set_net net ep, []) end.

Definition createSocket_ok (addr : CFdbSocketAddr) : bool :=
  bool_decide (sa_mType addr = FDB_SOCKET_TCP) || bool_decide (sa_mType addr = FDB_SOCKET_IPC).

Definition allocate_skid : EM Z := fun ep =>
  let '(skid, t) := allocateEntityId (co_sockets (ep_core ep)) in
  Some (skid, ep_set_core (co_set_sockets t (ep_core ep)) ep, []).

(** The address a URL stands for ([FDB_SOCKET_SVC] for no URL), and the name and the instance
    of the service when it is one of a service. *)
Definition url_target (url : option string) : option (EFdbSocketType * CFdbSocketAddr * option string * Z) :=
  match url with
  | None => Some (FDB_SOCKET_SVC, CFdbSocketAddr_new, None, FDB_DEFAULT_INSTANCE)
  | Some _ =>
      let '(ok, addr) := parseUrl url CFdbSocketAddr_new in
      if negb ok then None
      else if bool_decide (sa_mType addr = FDB_SOCKET_SVC) then Some (FDB_SOCKET_SVC, addr, Some (sa_mAddr addr), sa_mPort addr)
      else Some (sa_mType addr, addr, None, FDB_DEFAULT_INSTANCE)
  end.

Definition secure_denied (addr : CFdbSocketAddr) : bool :=
  negb (bool_decide (sa_mType addr = FDB_SOCKET_IPC)) && sa_mSecure addr && negb ev_tcp_secure.

(** The hook of a socket, after its session was destroyed: a client's socket goes with its
    session, and the client connects again. *)
Definition onSessionDeleted (reconnect : string -> EM (option Z)) (skid : Z) : EM unit :=
  k ← em_sock skid;
  match ek_hook k, ek_host k with
  | true, Some _ =>
      ep ← em_get;
      _ ← deleteContainer skid;
      if negb (ep_reconnectEnabled ep && ep_reconnectActivated ep) then mret tt else
      ok ← requestServiceAddress None FDB_DEFAULT_INSTANCE;
      if (ok : bool) then mret tt else _ ← reconnect (sa_mUrl (ek_addr k)); mret tt
  | _, _ => mret tt
  end.

(** [delete session]. *)
Definition deleteSession (reconnect : string -> EM (option Z)) (p : Z) : EM unit :=
  skid ← destroySession p; onSessionDeleted reconnect skid.

(** [udp_port] of a connection that exists: the port waits until the UDP socket is there. *)
Definition offer_udp_port (skt_type : EFdbSocketType) (p udp_port : Z) : EM Z :=
  s ← em_sess p;
  k ← em_sock (es_skid s);
  if negb (bool_decide (skt_type = FDB_SOCKET_IPC)) && (FDB_INET_PORT_AUTO <=? udp_port)
     && negb (match ek_udp k with Some u => FDB_VALID_PORT (us_mPort u) | None => false end)
  then _ ← em_core (co_put_sock (es_skid s) (ek_set_udp (ek_udp k) udp_port k));
       _ ← updateSessionInfo p; mret (es_skid s)
  else mret (es_skid s).

(** [doConnect] once the address is known. *)
Definition connectAddress (reconnect : string -> EM (option Z)) (skt_type : EFdbSocketType) (addr : CFdbSocketAddr)
    (host_name : option string) (udp_port : Z) : EM (option Z) :=
  if secure_denied addr then _ ← notifyConnectReady FAILURE; mret None else
  ep ← em_get;
  match (match ep_connectedSession addr (ep_core ep) with
         | Some p => Some p
         | None => ep_connectedSession_sec (if sa_mSecure addr then FDB_SEC_SECURE else FDB_SEC_INSECURE) (ep_core ep)
         end) with
  | Some p => skid ← offer_udp_port skt_type p udp_port; _ ← notifyConnectReady CONNECTED; mret (Some skid)
  | None =>
      if negb (createSocket_ok addr) then _ ← notifyConnectReady FAILURE; mret None else
      skid ← allocate_skid;
      _ ← addSocket (mkEpSock skid addr (sa_mSecure addr) true None udp_port (Some (default EmptyString host_name)) []);
      r ← net_connect;
      match r with
      | None => _ ← deleteSocket skid; _ ← notifyConnectReady FAILURE; mret None
      | Some s =>
          p ← em_new (newSession skid (sa_mSecure addr) s);
          _ ← client_updateSecurityLevel p;
          ok ← addConnectedSession skid p;
          if (ok : bool) then _ ← em_mod (ep_activateReconnect true); _ ← notifyConnectReady CONNECTED; mret (Some skid)
          else _ ← deleteSession reconnect p;
               _ ← deleteSocket skid; _ ← notifyConnectReady FAILURE; mret None
      end
  end.

Fixpoint doConnect (fuel : nat) (url host_name : option string) (udp_port : Z) : EM (option Z) :=
  match fuel with
  | O => mret None
  | S fuel =>
      match url_target url with
      | None => _ ← notifyConnectReady FAILURE; mret None
      | Some (skt_type, addr, server_name, instance_id) =>
          if bool_decide (skt_type = FDB_SOCKET_SVC)
          then _ ← requestServiceAddress server_name instance_id; mret None
          else connectAddress (fun u => doConnect fuel (Some u) None FDB_INET_PORT_INVALID) skt_type addr host_name udp_port
      end
  end.

(** A connection attempt takes an entry of [ep_net] or fails, so a chain of reconnections is
    no longer than that list. *)
Definition connect_url (url host_name : option string) (udp_port : Z) : EM (option Z) :=
  ep ← em_get; doConnect (S (S (length (ep_net ep)))) url host_name udp_port.

Definition lose_session (p : Z) : EM unit := deleteSession (fun u => connect_url (Some u) None FDB_INET_PORT_INVALID) p.

(** [CBaseEndpoint::deleteSession(session_id)], which [kickOut] ends in. *)
Definition kickOut (sid : Z) : EM unit :=
  ep ← em_get; match getSession sid ep with Some p => lose_session p | None => mret tt end.

Definition doDisconnect (sid : Z) : EM unit :=
  ep ← em_get;
  skid ← (if fdbValidFdbId sid
          then match getSession sid ep with Some p => s ← em_sess p; mret (es_skid s) | None => mret FDB_INVALID_ID end
          else mret FDB_INVALID_ID);
  deleteSocket skid.

Definition self_migrate (b : bool) : EM unit := em_mod (fun ep => ep_set_self (eo_set_migrate b (ep_self ep)) ep).

Definition getDefaultSvcUrl (mName : string) ep : string :=
  FDB_URL_SVC +:+ (if is_empty_str (ep_mNsName ep) then mName else ep_mNsName ep).

(** [cbConnect]: [timeout] -1 means that the caller does not wait. *)
Definition cbConnect (mName url : string) (job timeout : Z) : EM ConnectStatus :=
  _ ← self_migrate true;
  ep ← em_get;
  _ ← em_when (negb (timeout =? -1)) (em_mod (ep_set_jobs (ep_mConnectJobList ep ++ [job])));
  _ ← connect_url (Some (if is_empty_str url then getDefaultSvcUrl mName ep else url)) None FDB_INET_PORT_INVALID;
  mret (if timeout =? -1 then CONNECTING else TIMEOUT).

Definition cbDisconnect (sid : Z) : EM unit :=
  _ ← doDisconnect sid;
  em_when (negb (fdbValidFdbId sid))
    (_ ← em_mod (ep_activateReconnect false); _ ← releaseServiceAddress; self_migrate false).

(** ** Servers *)

(** [doBind]: [bound] is whether one of the attempts to bind the address succeeds. *)
Definition doBind (bound : bool) (url : option string) (udp_port : Z) : EM (option Z) :=
  match url_target url with
  | None => mret None
  | Some (skt_type, addr, server_name, instance_id) =>
      if bool_decide (skt_type = FDB_SOCKET_SVC) then
      _ ← em_out (match server_name with Some n => [OutImportSecLevel n] | None => [] end);
      _ ← requestServiceAddress server_name instance_id; mret None
      else if secure_denied addr then mret None else
      ep ← em_get;
      match ep_bound addr (ep_core ep) with
      | Some p => s ← em_sess p; mret (Some (es_skid s))
      | None =>
          if negb (createSocket_ok addr) then mret None else
          skid ← allocate_skid;
          let k := mkEpSock skid addr (sa_mSecure addr) true None FDB_INET_PORT_INVALID None [] in
          let '(_, cn) := bindUDPSocket ev_udp ev_udp_bind None udp_port (ek_container (ep_core ep) k) in
          _ ← addSocket (ek_set_udp (cn_mUDPSession cn) (cn_mPendingUDPPort cn) k);
          if bound then mret (Some skid) else _ ← deleteContainer skid; mret None
      end
  end.

Definition cbBind (bound : bool) (mName url : string) : EM Z :=
  _ ← self_migrate true;
  ep ← em_get;
  r ← doBind bound (Some (if is_empty_str url then getDefaultSvcUrl mName ep else url)) FDB_INET_PORT_INVALID;
  mret (default FDB_INVALID_ID r).

Definition cbUnbind (skid : Z) : EM unit :=
  _ ← deleteSocket skid;
  em_when (negb (fdbValidFdbId skid)) (_ ← releaseServiceAddress; self_migrate false).

(** [CServerSocket::onInput]: [accepted] is the connection [accept] gives. *)
Definition server_onInput (skid : Z) (accepted : option EpSess) : EM unit :=
  k ← em_sock skid;
  match accepted with
  | None => mret tt
  | Some s =>
      p ← em_new (newSession skid (ek_secure k) s);
      ok ← addConnectedSession skid p;
      if (ok : bool) then mret tt else lose_session p
  end.

(** ** Subscriptions *)

(** A change of the object [oid] of the endpoint, or of the endpoint itself. *)
Definition on_object (oid : Z) (f : CFdbBaseObject -> CFdbBaseObject) : EM unit := fun ep =>
  if oid =? FDB_OBJECT_MAIN then Some (tt, ep_set_self (eo_set_obj (f (eo_obj (ep_self ep))) (ep_self ep)) ep, []) else
  match retrieveEntry oid (ep_objects ep) with
  | Some o => Some (tt, ep_set_objects (updateEntry oid (eo_set_obj (f (eo_obj o)) o) (ep_objects ep)) (ep_mSnAllocator ep) ep, [])
  | None => Some (tt, ep, [])
  end.

(** A session subscribes at an object: the table holds the pointer to the session. *)
Definition ep_subscribe (oid sid msg obj_id : Z) (topic : option string) (flag : Z) : EM unit :=
  ep ← em_get;
  match getSession sid ep with
  | Some p => on_object oid (fun x => obj_subscribe x p msg obj_id topic flag)
  | None => mret tt
  end.

(** ** The end of an endpoint *)

Fixpoint removeObjects (fuel : nat) : EM unit :=
  match fuel with
  | O => mret tt
  | S fuel =>
      ep ← em_get;
      match mEntryContainer (ep_objects ep) with
      | [] => mret tt
      | (_, o) :: _ => _ ← removeObject (eo_ptr o); removeObjects fuel
      end
  end.

(** [callDestroyEndpoint], without the registration at the context. *)
Definition callDestroyEndpoint (prepare : bool) : EM unit :=
  if prepare then ep ← em_get; removeObjects (length (mEntryContainer (ep_objects ep)))
  else deleteSocket FDB_INVALID_ID.

End endpoint.
