(* ===== verification/EndpointProofs.v ===== *)
(** What the model of Endpoint.v guarantees: the tables of an endpoint agree with each other
    and hold no pointer to a session that was destroyed, the counts are the numbers of
    connections, and objects are told of the first and of the last one. *)
From S2P Require Import Prelude CommonDefs StdMap Subscribe EventObject SocketFactory Session Security UdpSession EventLoop Watchdog Endpoint.

Implicit Types c : EpCore.
Implicit Types ep : Endpoint.
Implicit Types s : EpSess.
Implicit Types k : EpSock.

(** ** The invariant of the tables *)

(** The connections on sockets that are secure, or that are not. *)
Definition channel (secure : bool) (e : Z * EpSock) : list Z := if Bool.eqb (ek_secure e.2) secure then ek_table e.2 else [].
Definition connected (secure : bool) c : Z := Z.of_nat (length (flat_map (channel secure) (mEntryContainer (co_sockets c)))).

Definition sess_of (sid : Z) c : option Z := m_find sid (mEntryContainer (co_sessions c)).

Record core_ok c : Prop := {
  ck_heap : m_sorted (co_heap c);
  ck_next : forall p s, co_sess p c = Some s -> p < co_next c;
  ck_socks : m_sorted (mEntryContainer (co_sockets c));
  ck_skid : forall skid k, co_sock skid c = Some k -> ek_skid k = skid /\ 0 <= skid < mEntryAllocator (co_sockets c);
  ck_socknum : 0 <= mEntryAllocator (co_sockets c) <= 2 ^ 31;
  ck_sess : m_sorted (mEntryContainer (co_sessions c));
  ck_sid : forall sid p, sess_of sid c = Some p -> 0 <= sid < mEntryAllocator (co_sessions c);
  ck_sessnum : 0 <= mEntryAllocator (co_sessions c) <= 2 ^ 31;
  ck_reg : forall sid p, sess_of sid c = Some p -> exists s, co_sess p c = Some s /\ es_sid s = sid;
  ck_live : forall p s, co_sess p c = Some s ->
    sess_of (es_sid s) c = Some p /\ exists k, co_sock (es_skid s) c = Some k /\ p ∈ ek_table k;
  ck_table : forall skid k p, co_sock skid c = Some k -> p ∈ ek_table k -> exists s, co_sess p c = Some s /\ es_skid s = skid;
  ck_nodup : forall skid k, co_sock skid c = Some k -> NoDup (ek_table k);
  ck_secure : co_mSecureSessionCnt c = connected true c;
  ck_insecure : co_mInsecureSessionCnt c = connected false c;
  ck_bound : connected true c + connected false c <= mEntryAllocator (co_sessions c);
  ck_total : connected true c + connected false c = Z.of_nat (length (mEntryContainer (co_sessions c))) }.

Lemma connected_nonneg b c : 0 <= connected b c.
Proof. unfold connected. lia. Qed.

(** What a new table of a socket changes in the counts. *)
Lemma connected_put b skid k k' c : co_sock skid c = Some k ->
  connected b (co_put_sock skid k' c) =
  connected b c - Z.of_nat (length (channel b (skid, k))) + Z.of_nat (length (channel b (skid, k'))).
Proof.
  intros Ek. unfold connected, co_put_sock. simpl.
  pose proof (m_set_expand (channel b) skid k k' (mEntryContainer (co_sockets c)) Ek). lia.
Qed.

Lemma sock_put j skid k' c : m_sorted (mEntryContainer (co_sockets c)) ->
  co_sock j (co_put_sock skid k' c) = if decide (j = skid) then Some k' else co_sock j c.
Proof. intros Hs. unfold co_sock, co_put_sock, retrieveEntry, updateEntry. simpl. by apply m_find_set_dec. Qed.

(** A change of a socket that keeps its connections. *)
Lemma core_ok_sock skid k k' c : core_ok c -> co_sock skid c = Some k ->
  ek_skid k' = ek_skid k -> ek_secure k' = ek_secure k -> ek_table k' = ek_table k -> core_ok (co_put_sock skid k' c).
Proof.
  intros [] Ek E1 E2 E3.
  assert (forall b, connected b (co_put_sock skid k' c) = connected b c) as Hc.
  { intros b. rewrite (connected_put b skid k) by done. unfold channel. simpl. rewrite E2, E3. lia. }
  constructor; try done; rewrite ?Hc; try done.
  - by apply m_sorted_set.
  - intros skid0 k0. rewrite sock_put by done. case_decide; [intros [= <-]; subst; rewrite E1|]; eauto.
  - intros p s Hp. destruct (ck_live0 p s Hp) as [H1 (k1 & H2 & H3)]. split; [done|]. rewrite sock_put by done.
    case_decide; [|eauto]. exists k'. split; [done|]. subst. rewrite Ek in H2. simplify_eq. by rewrite E3.
  - intros skid0 k0 p. rewrite sock_put by done. case_decide; [intros [= <-]; subst; rewrite E3|]; eauto.
  - intros skid0 k0. rewrite sock_put by done. case_decide; [intros [= <-]; subst; rewrite E3|]; eauto.
Qed.

(** ** A session comes *)

Lemma m_set_length {V} (n : Z) (v : V) m : m_find n m = None -> length (m_set n v m) = S (length m).
Proof.
  induction m as [|[j x] m IH]; cbn [m_find m_set]; [done|]. destruct (klt n j); [done|]. destruct (klt j n); [|done].
  intros E. simpl. by rewrite IH.
Qed.

Definition core_add (skid p : Z) (k : EpSock) (s : EpSess) c : EpCore :=
  let c := co_put_sock skid (sock_addSession p k) (count_up (ek_secure k) c) in
  let '(sid, t) := allocateEntityId (co_sessions c) in
  co_set_sessions (insertEntry sid p t).2 (co_put_sess p (es_set_view (sv_set_sid sid (es_view s)) s) c).

Lemma core_add_rest skid p k s c : let c' := core_add skid p k s c in
  co_next c' = co_next c /\
  co_mSecureSessionCnt c' = (if ek_secure k then u32 (co_mSecureSessionCnt c + 1) else co_mSecureSessionCnt c) /\
  co_mInsecureSessionCnt c' = (if ek_secure k then co_mInsecureSessionCnt c else u32 (co_mInsecureSessionCnt c + 1)).
Proof. unfold core_add, count_up. simpl. by destruct (ek_secure k). Qed.

Lemma core_ok_add skid k s c : core_ok c -> co_sock skid c = Some k -> es_skid s = skid ->
  mEntryAllocator (co_sessions c) < 2 ^ 31 -> core_ok (core_add skid (co_next c) k s (co_new s c).2).
Proof.
  intros [] Ek Es Hb. set (p := co_next c). set (sid := mEntryAllocator (co_sessions c)).
  set (s' := es_set_view (sv_set_sid sid (es_view s)) s).
  assert (p ∉ ek_table k) as Hp.
  { intros Hp. destruct (ck_table0 _ _ _ Ek Hp) as (s0 & E0 & _). apply ck_next0 in E0. subst p. lia. }
  assert (sock_addSession p k = ek_set_table (ek_table k ++ [p]) k) as Ea.
  { unfold sock_addSession. destruct (existsb (Z.eqb p) (ek_table k)) eqn:E; [|done].
    apply existsb_exists in E as (x & Hx & Heq). apply Z.eqb_eq in Heq. subst x. by apply list_elem_of_In in Hx. }
  assert (sess_of sid c = None) as Hsid.
  { destruct (sess_of sid c) eqn:E; [|done]. apply ck_sid0 in E. subst sid. lia. }
  assert (u32 (sid + 1) = sid + 1) as Hu. { apply wrap_u_small; unfold in_u; subst sid; lia. }
  set (c' := core_add skid p k s (co_new s c).2).
  assert (co_heap c' = m_set p s' (m_set p s (co_heap c))) as Eh.
  { subst c'. unfold core_add, count_up. simpl. by destruct (ek_secure k). }
  assert (co_sockets c' = updateEntry skid (ek_set_table (ek_table k ++ [p]) k) (co_sockets c)) as Ekk.
  { subst c'. unfold core_add, count_up. simpl. rewrite Ea. by destruct (ek_secure k). }
  assert (co_sessions c' = mkContainer (sid + 1) (m_set sid p (mEntryContainer (co_sessions c)))) as Ess.
  { subst c'. unfold core_add, count_up, insertEntry, allocateEntityId, sess_of in *.
    destruct (ek_secure k); simpl; fold sid; rewrite Hsid; simpl; by rewrite Hu. }
  assert (forall j, co_sess j c' = if decide (j = p) then Some s' else co_sess j c) as Fh.
  { intros j. unfold co_sess. rewrite Eh, !m_find_set_dec by (repeat apply m_sorted_set; done). by repeat case_decide. }
  assert (forall j, co_sock j c' = if decide (j = skid) then Some (ek_set_table (ek_table k ++ [p]) k) else co_sock j c) as Fk.
  { intros j. unfold co_sock, retrieveEntry. rewrite Ekk. simpl. by apply m_find_set_dec. }
  assert (forall j, sess_of j c' = if decide (j = sid) then Some p else sess_of j c) as Fs.
  { intros j. unfold sess_of. rewrite Ess. simpl. by apply m_find_set_dec. }
  assert (forall b, connected b c' = connected b c + (if Bool.eqb (ek_secure k) b then 1 else 0)) as Fc.
  { intros b. pose proof (connected_put b skid k (ek_set_table (ek_table k ++ [p]) k) c Ek) as E.
    unfold connected, co_put_sock in *. rewrite Ekk. simpl in E. simpl. rewrite E. unfold channel. simpl.
    destruct (Bool.eqb (ek_secure k) b); [rewrite length_app; simpl|]; lia. }
  assert (connected true c + connected false c < 2 ^ 32) as Hlt by lia.
  pose proof (connected_nonneg true c) as N1. pose proof (connected_nonneg false c) as N2.
  pose proof (core_add_rest skid p k s (co_new s c).2) as (F1 & F2 & F3). fold c' in F1, F2, F3. clearbody c'.
  cbn [co_new snd co_next co_mSecureSessionCnt co_mInsecureSessionCnt] in F1, F2, F3.
  constructor.
  - rewrite Eh. by repeat apply m_sorted_set.
  - intros j s0. rewrite Fh, F1. case_decide; [subst; subst p; lia|]. intros E. apply ck_next0 in E. subst p. lia.
  - rewrite Ekk. simpl. by apply m_sorted_set.
  - intros j k0. rewrite Fk, Ekk. simpl. case_decide; [intros [= <-]; subst; simpl|]; eauto.
  - by rewrite Ekk.
  - rewrite Ess. simpl. by apply m_sorted_set.
  - intros j p0. rewrite Fs, Ess. simpl. case_decide; [subst sid; lia|]. intros E. apply ck_sid0 in E. subst sid. lia.
  - rewrite Ess. simpl. subst sid. lia.
  - intros j p0. rewrite Fs. case_decide.
    + intros [= <-]. exists s'. rewrite Fh, decide_True by done. by subst.
    + intros E. destruct (ck_reg0 _ _ E) as (s0 & E0 & E1). exists s0. rewrite Fh, decide_False; [done|].
      intros ->. apply ck_next0 in E0. subst p. lia.
  - intros j s0. rewrite Fh. case_decide.
    + intros [= <-]. subst j. rewrite Fs, decide_True by done. split; [done|]. rewrite Fk. simpl. rewrite decide_True by done.
      eexists. split; [done|]. simpl. apply elem_of_app. right. by apply list_elem_of_singleton.
    + intros E. destruct (ck_live0 _ _ E) as [H1 (k1 & H2 & H3)]. split.
      * rewrite Fs, decide_False; [done|]. intros Eq. rewrite Eq in H1. congruence.
      * rewrite Fk. case_decide as Hd; [|eauto]. eexists. split; [done|]. simpl. apply elem_of_app. left. congruence.
  - intros j k0 p0. rewrite Fk. case_decide.
    + intros [= <-] Hin. simpl in Hin. apply elem_of_app in Hin as [Hin|Hin].
      * destruct (ck_table0 _ _ _ Ek Hin) as (s0 & E0 & E1). exists s0. rewrite Fh, decide_False; [by subst|]. by intros ->.
      * apply list_elem_of_singleton in Hin as ->. exists s'. rewrite Fh, decide_True by done. by subst.
    + intros E Hin. destruct (ck_table0 _ _ _ E Hin) as (s0 & E0 & E1). exists s0. rewrite Fh, decide_False; [done|].
      intros ->. apply ck_next0 in E0. subst p. lia.
  - intros j k0. rewrite Fk. case_decide; [|eauto]. intros [= <-]. simpl. apply NoDup_app. split; [eauto|].
    split; [|apply NoDup_singleton]. intros x Hx ->%list_elem_of_singleton. done.
  - rewrite F2, Fc. simpl. rewrite ck_secure0. destruct (ek_secure k); simpl; [|lia]. apply wrap_u_small; unfold in_u; lia.
  - rewrite F3, Fc. simpl. rewrite ck_insecure0. destruct (ek_secure k); simpl; [lia|]. apply wrap_u_small; unfold in_u; lia.
  - rewrite !Fc, Ess. simpl. destruct (ek_secure k); simpl; subst sid; lia.
  - rewrite !Fc, Ess. simpl. rewrite m_set_length by done. destruct (ek_secure k); simpl; lia.
Qed.

(** ** A session goes *)

Definition core_del (p : Z) (s : EpSess) (k : EpSock) c : EpCore :=
  let c := co_put_sock (es_skid s) (sock_removeSession p k) (count_down (ek_secure k) c) in
  let c := co_set_sessions (deleteEntry (es_sid s) (co_sessions c)) c in
  co_set_heap (m_erase p (co_heap c)) c.

Lemma remove_value_length v l : NoDup l -> v ∈ l -> Z.of_nat (length (remove_value v l)) = Z.of_nat (length l) - 1.
Proof.
  induction 1 as [|x l Hx _ IH]; intros Hin; [by apply not_elem_of_nil in Hin|]. simpl.
  destruct (Z.eqb_spec x v) as [->|Hn]; [lia|]. apply elem_of_cons in Hin as [->|Hin]; [done|]. simpl length. specialize (IH Hin). lia.
Qed.

Lemma core_del_rest p s k c : let c' := core_del p s k c in
  co_next c' = co_next c /\ co_heap c' = m_erase p (co_heap c) /\
  co_sockets c' = updateEntry (es_skid s) (sock_removeSession p k) (co_sockets c) /\
  co_sessions c' = deleteEntry (es_sid s) (co_sessions c) /\
  co_mSecureSessionCnt c' = (if ek_secure k && (0 <? co_mSecureSessionCnt c) then u32 (co_mSecureSessionCnt c - 1) else co_mSecureSessionCnt c) /\
  co_mInsecureSessionCnt c' = (if negb (ek_secure k) && (0 <? co_mInsecureSessionCnt c) then u32 (co_mInsecureSessionCnt c - 1) else co_mInsecureSessionCnt c).
Proof.
  unfold core_del, count_down. destruct (ek_secure k); simpl;
    [destruct (0 <? co_mSecureSessionCnt c)|destruct (0 <? co_mInsecureSessionCnt c)]; done.
Qed.

Lemma core_ok_del p s k c : core_ok c -> co_sess p c = Some s -> co_sock (es_skid s) c = Some k -> core_ok (core_del p s k c).
Proof.
  intros [] Ep Ek. destruct (ck_live0 p s Ep) as [Hs (k1 & Hk & Hin)]. rewrite Ek in Hk. simplify_eq.
  rename k1 into k. pose proof (ck_nodup0 _ _ Ek) as Hnd.
  pose proof (core_del_rest p s k c) as (F1 & Eh & Ekk & Ess & F2 & F3). set (c' := core_del p s k c) in *. clearbody c'.
  assert (forall j, co_sess j c' = if decide (j = p) then None else co_sess j c) as Fh.
  { intros j. unfold co_sess. rewrite Eh. by apply m_find_erase_dec. }
  assert (forall j, co_sock j c' = if decide (j = es_skid s) then Some (sock_removeSession p k) else co_sock j c) as Fk.
  { intros j. unfold co_sock, retrieveEntry. rewrite Ekk. simpl. by apply m_find_set_dec. }
  assert (forall j, sess_of j c' = if decide (j = es_sid s) then None else sess_of j c) as Fs.
  { intros j. unfold sess_of. rewrite Ess. simpl. by apply m_find_erase_dec. }
  assert (forall b, connected b c' = connected b c - (if Bool.eqb (ek_secure k) b then 1 else 0)) as Fc.
  { intros b. pose proof (connected_put b (es_skid s) k (sock_removeSession p k) c Ek) as E.
    unfold connected, co_put_sock in *. rewrite Ekk. simpl in E. simpl. rewrite E. unfold channel. simpl.
    destruct (Bool.eqb (ek_secure k) b); [rewrite remove_value_length by done|]; lia. }
  assert (forall b, Bool.eqb (ek_secure k) b = true -> 0 < connected b c) as Hpos.
  { intros b Hb. specialize (Fc b). rewrite Hb in Fc. pose proof (connected_nonneg b c'). lia. }
  assert (connected true c + connected false c < 2 ^ 32) as Hlt by lia.
  pose proof (connected_nonneg true c) as N1. pose proof (connected_nonneg false c) as N2.
  constructor.
  - rewrite Eh. by apply m_sorted_erase.
  - intros j s0. rewrite Fh, F1. case_decide; [done|]. eauto.
  - rewrite Ekk. simpl. by apply m_sorted_set.
  - intros j k0. rewrite Fk, Ekk. simpl. case_decide; [intros [= <-]; subst; simpl|]; eauto.
  - by rewrite Ekk.
  - rewrite Ess. simpl. by apply m_sorted_erase.
  - intros j p0. rewrite Fs, Ess. simpl. case_decide; [done|]. eauto.
  - by rewrite Ess.
  - intros j p0. rewrite Fs. case_decide as Hd; [done|]. intros E. destruct (ck_reg0 _ _ E) as (s0 & E0 & E1).
    exists s0. rewrite Fh, decide_False; [done|]. intros ->. rewrite Ep in E0. congruence.
  - intros j s0. rewrite Fh. case_decide as Hd; [done|]. intros E. destruct (ck_live0 _ _ E) as [H1 (k1 & H2 & H3)]. split.
    + rewrite Fs, decide_False; [done|]. intros Eq. rewrite Eq in H1. congruence.
    + rewrite Fk. case_decide as Hd2; [|eauto]. eexists. split; [done|]. simpl. rewrite elem_remove_value by done. split; [congruence|done].
  - intros j k0 p0. rewrite Fk. case_decide.
    + intros [= <-] Hin0. simpl in Hin0. apply elem_remove_value in Hin0 as [Hin0 Hne]; [|done].
      destruct (ck_table0 _ _ _ Ek Hin0) as (s0 & E0 & E1). exists s0. rewrite Fh, decide_False by done. by subst.
    + intros E Hin0. destruct (ck_table0 _ _ _ E Hin0) as (s0 & E0 & E1). exists s0. rewrite Fh, decide_False; [done|].
      intros ->. rewrite Ep in E0. congruence.
  - intros j k0. rewrite Fk. case_decide; [|eauto]. intros [= <-]. simpl. by apply NoDup_remove_value.
  - rewrite F2, Fc, ck_secure0. destruct (ek_secure k) eqn:Es; simpl; [|lia].
    specialize (Hpos true eq_refl). destruct (Z.ltb_spec 0 (connected true c)); [|lia]. apply wrap_u_small; unfold in_u; lia.
  - rewrite F3, Fc, ck_insecure0. destruct (ek_secure k) eqn:Es; simpl; [lia|].
    specialize (Hpos false eq_refl). destruct (Z.ltb_spec 0 (connected false c)); [|lia]. apply wrap_u_small; unfold in_u; lia.
  - rewrite !Fc, Ess. simpl. destruct (ek_secure k); simpl; lia.
  - rewrite !Fc, Ess. simpl. pose proof (m_erase_length _ _ _ Hs). destruct (ek_secure k); simpl; lia.
Qed.

(** ** Sockets come and go *)

Lemma connected_set_fresh b skid k c : co_sock skid c = None ->
  Z.of_nat (length (flat_map (channel b) (m_set skid k (mEntryContainer (co_sockets c))))) =
  connected b c + Z.of_nat (length (channel b (skid, k))).
Proof.
  unfold connected, co_sock, retrieveEntry. generalize (mEntryContainer (co_sockets c)). intros m.
  induction m as [|[j v] m IH]; cbn [flat_map m_set m_find]; intros E; [rewrite app_nil_r; simpl length; lia|].
  destruct (klt skid j); [cbn [flat_map]; rewrite !length_app; lia|]. destruct (klt j skid); [|done].
  cbn [flat_map]. rewrite !length_app. specialize (IH E). lia.
Qed.

Definition core_socket (k : EpSock) (n : Z) c : EpCore := co_set_sockets (insertEntry n k (mkContainer (u32 (n + 1)) (mEntryContainer (co_sockets c)))).2 c.

Lemma core_ok_socket k c : core_ok c -> ek_table k = [] -> ek_skid k = mEntryAllocator (co_sockets c) ->
  mEntryAllocator (co_sockets c) < 2 ^ 31 ->
  core_ok (core_socket k (ek_skid k) c) /\ co_sock (ek_skid k) (core_socket k (ek_skid k) c) = Some k.
Proof.
  intros [] Et Esk Hb. set (n := ek_skid k) in *.
  assert (co_sock n c = None) as Hn. { destruct (co_sock n c) eqn:E; [|done]. apply ck_skid0 in E as [_ ?]. lia. }
  assert (u32 (n + 1) = n + 1) as Hu by (apply wrap_u_small; unfold in_u; lia).
  assert (core_socket k n c = co_set_sockets (mkContainer (n + 1) (m_set n k (mEntryContainer (co_sockets c)))) c) as Ec.
  { unfold core_socket, insertEntry. simpl. unfold co_sock, retrieveEntry in Hn. by rewrite Hn, Hu. }
  rewrite Ec. set (c' := co_set_sockets _ c).
  assert (forall j, co_sock j c' = if decide (j = n) then Some k else co_sock j c) as Fk by (intros j; by apply m_find_set_dec).
  assert (forall b, connected b c' = connected b c) as Fc.
  { intros b. unfold connected at 1. subst c'. simpl. rewrite connected_set_fresh by done. unfold channel. simpl. rewrite Et.
    destruct (Bool.eqb _ _); simpl; lia. }
  split; [|by rewrite Fk, decide_True]. constructor; rewrite ?Fc; try done.
  - by apply m_sorted_set.
  - intros j k0. rewrite Fk. simpl. case_decide; [intros [= <-]; subst; split; [done|lia]|]. intros E. apply ck_skid0 in E as [? ?]. split; [done|lia].
  - simpl. lia.
  - intros p s E. destruct (ck_live0 p s E) as [H1 (k1 & H2 & H3)]. split; [done|]. exists k1. rewrite Fk, decide_False; [done|]. congruence.
  - intros j k0 p. rewrite Fk. case_decide; [|apply ck_table0]. intros [= <-]. rewrite Et. by intros ?%not_elem_of_nil.
  - intros j k0. rewrite Fk. case_decide; [|apply ck_nodup0]. intros [= <-]. rewrite Et. apply NoDup_nil_2.
Qed.

Lemma core_ok_unsocket skid k c : core_ok c -> co_sock skid c = Some k -> ek_table k = [] ->
  core_ok (co_set_sockets (deleteEntry skid (co_sockets c)) c).
Proof.
  intros [] Ek Et. set (c' := co_set_sockets _ c).
  assert (forall j, co_sock j c' = if decide (j = skid) then None else co_sock j c) as Fk by (intros j; by apply m_find_erase_dec).
  assert (forall b, connected b c' = connected b c) as Fc.
  { intros b. unfold connected. subst c'. simpl. pose proof (m_erase_expand (channel b) skid k _ Ek) as E.
    unfold channel in E at 2. simpl in E. rewrite Et in E. destruct (Bool.eqb _ _); simpl in E; lia. }
  constructor; rewrite ?Fc; try done.
  - by apply m_sorted_erase.
  - intros j k0. rewrite Fk. case_decide; [done|]. eauto.
  - intros p s E. destruct (ck_live0 p s E) as [H1 (k1 & H2 & H3)]. split; [done|]. exists k1. rewrite Fk, decide_False; [done|].
    intros Eq. rewrite Eq, Ek in H2. simplify_eq. rewrite Et in H3. by apply not_elem_of_nil in H3.
  - intros j k0 p. rewrite Fk. case_decide; [done|]. eauto.
  - intros j k0. rewrite Fk. case_decide; [done|]. eauto.
Qed.

(** A change of a session that keeps its number and its socket. *)
Lemma core_ok_sess p s s' c : core_ok c -> co_sess p c = Some s -> es_sid s' = es_sid s -> es_skid s' = es_skid s ->
  core_ok (co_put_sess p s' c).
Proof.
  intros [] Ep E1 E2.
  assert (forall j, co_sess j (co_put_sess p s' c) = if decide (j = p) then Some s' else co_sess j c) as Fh
    by (intros j; by apply m_find_set_dec).
  constructor; try done.
  - by apply m_sorted_set.
  - intros j s0. rewrite Fh. case_decide; [subst|]; eauto.
  - intros j p0 E. destruct (ck_reg0 _ _ E) as (s0 & H1 & H2). rewrite Fh. case_decide; [|eauto]. exists s'. subst. split; [done|]. congruence.
  - intros j s0. rewrite Fh. case_decide; [|eauto]. intros [= <-]. subst. rewrite E1, E2. apply (ck_live0 p s Ep).
  - intros j k0 p0 E Hin. destruct (ck_table0 _ _ _ E Hin) as (s0 & H1 & H2). rewrite Fh. case_decide; [|eauto]. exists s'. subst. split; [done|]. congruence.
Qed.

(** ** What the endpoint's user is told

    The specification: a set of connected sessions. The first session of a set that was empty is
    announced as the first, the one that leaves it empty as the last. *)
Inductive Note := NoteUp (sid : Z) (first : bool) | NoteDown (sid : Z) (last : bool).

Definition spec_note (l : sset Z) (n : Note) : option (sset Z) :=
  match n with
  | NoteUp sid first => if negb (s_member sid l) && Bool.eqb first (m_empty l) then Some (m_set sid tt l) else None
  | NoteDown sid last =>
      if s_member sid l && Bool.eqb last (m_empty (m_erase sid l)) then Some (m_erase sid l) else None
  end.

Fixpoint spec_notes (l : sset Z) (ns : list Note) : option (sset Z) :=
  match ns with [] => Some l | n :: ns => spec_note l n ≫= fun l => spec_notes l ns end.

(** The notifications of the endpoint itself in its output. *)
Definition note_of (x : EpOut) : option Note :=
  match x with
  | OutOnline oid sid first _ => if oid =? FDB_OBJECT_MAIN then Some (NoteUp sid first) else None
  | OutOffline oid sid last _ => if oid =? FDB_OBJECT_MAIN then Some (NoteDown sid last) else None
  | _ => None
  end.
Definition notes (out : list EpOut) : list Note := omap note_of out.

Definition sids c : sset Z := (fun e => (e.1, tt)) <$> mEntryContainer (co_sessions c).

Lemma notes_app a b : notes (a ++ b) = notes a ++ notes b.
Proof. apply omap_app. Qed.

Lemma spec_notes_app a b l : spec_notes l (a ++ b) = spec_notes l a ≫= fun l => spec_notes l b.
Proof. revert l. induction a as [|n a IH]; intros l; simpl; [done|]. destruct (spec_note l n); simpl; auto. Qed.

Lemma sids_set {V} (n : Z) (v : V) m : (fun e => (e.1, tt)) <$> m_set n v m = m_set n tt ((fun e => (e.1, tt)) <$> m).
Proof.
  induction m as [|[j x] m IH]; cbn [m_set fmap list_fmap fst]; [done|]. destruct (klt n j); [done|]. destruct (klt j n); [|done].
  cbn [fmap list_fmap fst]. by rewrite <- IH.
Qed.

Lemma sids_erase {V} (n : Z) (m : smap Z V) : (fun e => (e.1, tt)) <$> m_erase n m = m_erase n ((fun e => (e.1, tt)) <$> m).
Proof.
  induction m as [|[j x] m IH]; cbn [m_erase fmap list_fmap fst]; [done|]. destruct (klt n j); [done|]. destruct (klt j n); [|done].
  cbn [fmap list_fmap fst]. by rewrite <- IH.
Qed.

Lemma sids_find {V} (n : Z) (m : smap Z V) : m_find n ((fun e => (e.1, tt)) <$> m) = (fun _ => tt) <$> m_find n m.
Proof.
  induction m as [|[j x] m IH]; cbn [m_find fmap list_fmap fst]; [done|]. destruct (klt n j); [done|]. destruct (klt j n); [|done]. apply IH.
Qed.

Lemma sids_empty c : m_empty (sids c) = (Z.of_nat (length (mEntryContainer (co_sessions c))) =? 0).
Proof. unfold sids. by destruct (mEntryContainer (co_sessions c)). Qed.

(** ** The whole invariant *)

Definition live c (p : Z) : Prop := is_Some (co_sess p c).

(** The subscriptions of an object are those of sessions there are. *)
Record obj_ok c (o : EpObj) : Prop := {
  ob_event : sub_ok (mEventSubscribeHandle (eo_obj o));
  ob_group : sub_ok (mGroupSubscribeHandle (eo_obj o));
  ob_live_event : forall msg p oid tp, is_Some (sub_find (mEventSubscribeHandle (eo_obj o)) msg p oid tp) -> live c p;
  ob_live_group : forall msg p oid tp, is_Some (sub_find (mGroupSubscribeHandle (eo_obj o)) msg p oid tp) -> live c p }.

Definition object_entry_ok c (e : Z * EpObj) : Prop := obj_ok c e.2 /\ eo_objId e.2 = e.1 /\ e.1 <> FDB_OBJECT_MAIN.

Record ep_inv ep : Prop := {
  ei_core : core_ok (ep_core ep);
  ei_self : obj_ok (ep_core ep) (ep_self ep);
  ei_main : eo_objId (ep_self ep) = FDB_OBJECT_MAIN;
  ei_sorted : m_sorted (mEntryContainer (ep_objects ep));
  ei_objects : Forall (object_entry_ok (ep_core ep)) (mEntryContainer (ep_objects ep)) }.

(** What no operation changes of the way the endpoint notifies its user. *)
Record stable ep ep' : Prop := {
  st_separate : ep_separate ep' = ep_separate ep;
  st_role : ep_role ep' = ep_role ep;
  st_worker : eo_worker (ep_self ep') = eo_worker (ep_self ep);
  st_channel : eo_mOnlineChannelType (ep_self ep') = eo_mOnlineChannelType (ep_self ep) }.

(** An endpoint whose user hears of all connections, in order and at once. *)
Definition plain ep : Prop :=
  ep_separate ep = false /\ eo_worker (ep_self ep) = false /\ eo_mOnlineChannelType (ep_self ep) = FDB_SEC_NO_CHECK.

Record goes ep ep' (out : list EpOut) : Prop := {
  go_inv : ep_inv ep';
  go_stable : stable ep ep';
  go_notes : plain ep -> spec_notes (sids (ep_core ep)) (notes out) = Some (sids (ep_core ep')) }.

Lemma stable_refl ep : stable ep ep.
Proof. by split. Qed.

Lemma stable_trans ep1 ep2 ep3 : stable ep1 ep2 -> stable ep2 ep3 -> stable ep1 ep3.
Proof. intros [] []. split; congruence. Qed.

Lemma plain_stable ep ep' : stable ep ep' -> plain ep -> plain ep'.
Proof. intros [] (? & ? & ?). split_and!; congruence. Qed.

Lemma goes_refl ep : ep_inv ep -> goes ep ep [].
Proof. intros Hi. by split; [|apply stable_refl|]. Qed.

Lemma goes_trans ep1 ep2 ep3 (o1 o2 : list EpOut) : goes ep1 ep2 o1 -> goes ep2 ep3 o2 -> goes ep1 ep3 (o1 ++ o2).
Proof.
  intros [I1 S1 N1] [I2 S2 N2]. split; [done|by apply (stable_trans ep1 ep2)|].
  intros Hp. rewrite notes_app, spec_notes_app, (N1 Hp). simpl. apply N2. by apply (plain_stable ep1).
Qed.

(** ** Total correctness of the operations *)

Definition em_total {A} (m : EM A) ep (Q : A -> Endpoint -> list EpOut -> Prop) : Prop :=
  exists x ep' out, m ep = Some (x, ep', out) /\ Q x ep' out.

Definition em_safe {A} (m : EM A) ep : Prop := em_total m ep (fun _ ep' out => goes ep ep' out).

Lemma em_total_ret {A} (x : A) ep Q : Q x ep [] -> em_total (mret x) ep Q.
Proof. intros HQ. by exists x, ep, []. Qed.

Lemma em_total_bind {A B} (m : EM A) (f : A -> EM B) ep Q :
  em_total m ep (fun x ep' o1 => em_total (f x) ep' (fun y ep'' o2 => Q y ep'' (o1 ++ o2))) -> em_total (m ≫= f) ep Q.
Proof.
  intros (x & ep1 & o1 & E1 & y & ep2 & o2 & E2 & HQ). exists y, ep2, (o1 ++ o2). split; [|done].
  unfold mbind, EM_bind. by rewrite E1, E2.
Qed.

Lemma em_total_mono {A} (m : EM A) ep (Q Q' : A -> Endpoint -> list EpOut -> Prop) :
  em_total m ep Q -> (forall x ep' out, Q x ep' out -> Q' x ep' out) -> em_total m ep Q'.
Proof. intros (x & ep' & out & E & HQ) Hi. exists x, ep', out. auto. Qed.

Lemma em_total_get ep Q : Q ep ep [] -> em_total em_get ep Q.
Proof. intros HQ. by exists ep, ep, []. Qed.
Lemma em_total_mod f ep Q : Q tt (f ep) [] -> em_total (em_mod f) ep Q.
Proof. intros HQ. by exists tt, (f ep), []. Qed.
Lemma em_total_core f ep Q : Q tt (ep_set_core (f (ep_core ep)) ep) [] -> em_total (em_core f) ep Q.
Proof. apply em_total_mod. Qed.
Lemma em_total_out l ep Q : Q tt ep l -> em_total (em_out l) ep Q.
Proof. intros HQ. by exists tt, ep, l. Qed.
Lemma em_total_sess p s ep Q : co_sess p (ep_core ep) = Some s -> Q s ep [] -> em_total (em_sess p) ep Q.
Proof. intros E HQ. exists s, ep, []. split; [|done]. unfold em_sess. by rewrite E. Qed.
Lemma em_total_sock skid k ep Q : co_sock skid (ep_core ep) = Some k -> Q k ep [] -> em_total (em_sock skid) ep Q.
Proof. intros E HQ. exists k, ep, []. split; [|done]. unfold em_sock. by rewrite E. Qed.

Lemma em_safe_ret {A} (x : A) ep : ep_inv ep -> em_safe (mret x) ep.
Proof. intros Hi. by apply em_total_ret, goes_refl. Qed.

Lemma em_safe_bind {A B} (m : EM A) (f : A -> EM B) ep :
  em_safe m ep -> (forall x ep' out, goes ep ep' out -> m ep = Some (x, ep', out) -> em_safe (f x) ep') -> em_safe (m ≫= f) ep.
Proof.
  intros (x & ep1 & o1 & E1 & G1) Hf. apply em_total_bind. exists x, ep1, o1. split; [done|].
  eapply em_total_mono; [by apply (Hf x ep1 o1)|]. simpl. intros y ep2 o2 G2. by apply (goes_trans ep ep1).
Qed.

(** [get] first, then something safe. *)
Lemma em_safe_get {B} (f : Endpoint -> EM B) ep : em_safe (f ep) ep -> em_safe (em_get ≫= f) ep.
Proof. intros Hf. apply em_total_bind, em_total_get. eapply em_total_mono; [exact Hf|]. done. Qed.

Lemma em_safe_when (b : bool) m ep : ep_inv ep -> (b = true -> em_safe m ep) -> em_safe (em_when b m) ep.
Proof. intros Hi Hm. destruct b; simpl; [auto|by apply em_safe_ret]. Qed.

Lemma obj_ok_mono c c' o : obj_ok c o -> (forall p, live c p -> live c' p) -> obj_ok c' o.
Proof. intros [] Hl. by split; eauto. Qed.

Lemma entries_mono c c' t : Forall (object_entry_ok c) t -> (forall p, live c p -> live c' p) -> Forall (object_entry_ok c') t.
Proof. intros Hf Hl. eapply Forall_impl; [exact Hf|]. intros e (? & ? & ?). split_and!; [by apply (obj_ok_mono c)|done|done]. Qed.

Lemma inv_core ep c' : ep_inv ep -> core_ok c' -> (forall p, live (ep_core ep) p -> live c' p) -> ep_inv (ep_set_core c' ep).
Proof. intros [] Hc Hl. split; simpl; try done; [by apply (obj_ok_mono (ep_core ep))|by apply (entries_mono (ep_core ep))]. Qed.

Lemma goes_core ep c' : ep_inv ep -> core_ok c' -> (forall p, live (ep_core ep) p -> live c' p) ->
  sids c' = sids (ep_core ep) -> goes ep (ep_set_core c' ep) [].
Proof. intros Hi Hc Hl Hs. split; [by apply inv_core|by split|]. intros _. simpl. by rewrite Hs. Qed.

Lemma goes_quiet ep out : ep_inv ep -> notes out = [] -> goes ep ep out.
Proof. intros Hi Hn. split; [done|by split|]. intros _. by rewrite Hn. Qed.

Lemma em_safe_out ep out : ep_inv ep -> notes out = [] -> em_safe (em_out out) ep.
Proof. intros Hi Hn. by apply em_total_out, goes_quiet. Qed.

Lemma em_safe_core ep f : ep_inv ep -> core_ok (f (ep_core ep)) -> (forall p, live (ep_core ep) p -> live (f (ep_core ep)) p) ->
  sids (f (ep_core ep)) = sids (ep_core ep) -> em_safe (em_core f) ep.
Proof. intros. apply em_total_core. by apply goes_core. Qed.

Lemma live_put_sess p s c q : m_sorted (co_heap c) -> live c q -> live (co_put_sess p s c) q.
Proof. intros Hs [x Hx]. unfold live, co_sess, co_put_sess. simpl. rewrite m_find_set_dec by done. case_decide; eauto. Qed.

(** The session and the socket behind a pointer that is not stale. *)
Lemma live_sock p s ep : ep_inv ep -> co_sess p (ep_core ep) = Some s -> exists k, co_sock (es_skid s) (ep_core ep) = Some k.
Proof. intros [] Hp. destruct (ck_live _ ei_core0 p s Hp) as [_ (k & Hk & _)]. eauto. Qed.

(** What losing sessions makes of the core. *)
Record shrunk c c' : Prop := {
  sk_socknum : mEntryAllocator (co_sockets c') = mEntryAllocator (co_sockets c);
  sk_sessnum : mEntryAllocator (co_sessions c') = mEntryAllocator (co_sessions c);
  sk_sess : forall q s, co_sess q c' = Some s -> co_sess q c = Some s;
  sk_sock : forall j k', co_sock j c' = Some k' -> exists k, co_sock j c = Some k /\ ek_secure k' = ek_secure k;
  sk_count : forall b, connected b c' <= connected b c }.

Lemma shrunk_refl c : shrunk c c.
Proof. split; eauto. intros; lia. Qed.

Lemma shrunk_trans c1 c2 c3 : shrunk c1 c2 -> shrunk c2 c3 -> shrunk c1 c3.
Proof.
  intros [A1 A2 A3 A4 A5] [B1 B2 B3 B4 B5]. split; [congruence|congruence|eauto| |].
  - intros j k' Hk. destruct (B4 _ _ Hk) as (k2 & Hk2 & E2). destruct (A4 _ _ Hk2) as (k1 & Hk1 & E1). exists k1. split; [done|congruence].
  - intros b. specialize (A5 b). specialize (B5 b). lia.
Qed.

Lemma m_set_length_in {V} (n : Z) (v v' : V) m : m_find n m = Some v -> length (m_set n v' m) = length m.
Proof.
  induction m as [|[j x] m IH]; cbn [m_find m_set]; [done|]. destruct (klt n j); [done|]. destruct (klt j n); [|done].
  intros Hf. simpl. by rewrite IH.
Qed.

(** A socket replaced by one whose table is no longer. *)
Lemma connected_shrink b skid k k' c : co_sock skid c = Some k -> ek_secure k' = ek_secure k ->
  (length (ek_table k') <= length (ek_table k))%nat -> connected b (co_put_sock skid k' c) <= connected b c.
Proof. intros Hk Hs Hl. rewrite (connected_put b skid k) by done. unfold channel. simpl. rewrite Hs. destruct (Bool.eqb _ _); simpl; lia. Qed.

(** Cores that differ in the UDP ports of sockets only. *)
Record udp_only c c' : Prop := {
  uo_ok : core_ok c';
  uo_heap : co_heap c' = co_heap c;
  uo_sessions : co_sessions c' = co_sessions c;
  uo_sock : forall skid k, co_sock skid c = Some k -> exists u port, co_sock skid c' = Some (ek_set_udp u port k);
  uo_shrunk : shrunk c c';
  uo_secure : co_mSecureSessionCnt c' = co_mSecureSessionCnt c;
  uo_insecure : co_mInsecureSessionCnt c' = co_mInsecureSessionCnt c }.

Lemma udp_only_refl c : core_ok c -> udp_only c c.
Proof. intros Hc. split; try done; [|apply shrunk_refl]. intros skid k Hk. exists (ek_udp k), (ek_pending k). rewrite Hk. by destruct k. Qed.

Lemma udp_only_put skid k u port c : core_ok c -> co_sock skid c = Some k -> udp_only c (co_put_sock skid (ek_set_udp u port k) c).
Proof.
  intros Hc Hk. split; try done; [by apply (core_ok_sock _ k)| |].
  - intros j kj Hj. rewrite sock_put by apply Hc. case_decide.
    + subst. rewrite Hk in Hj. simplify_eq. eauto.
    + exists (ek_udp kj), (ek_pending kj). rewrite Hj. by destruct kj.
  - split; try done.
    + intros j k'. rewrite sock_put by apply Hc. case_decide; [|eauto]. intros [= <-]. subst. eauto.
    + intros b. by apply (connected_shrink b skid k).
Qed.

Lemma udp_only_connected c c' b : core_ok c -> udp_only c c' -> connected b c' = connected b c.
Proof.
  intros Hc Hu. pose proof (uo_ok _ _ Hu) as Hc'.
  destruct b; [rewrite <- (ck_secure _ Hc'), <- (ck_secure _ Hc)|rewrite <- (ck_insecure _ Hc'), <- (ck_insecure _ Hc)]; apply Hu.
Qed.

Lemma udp_only_live c c' p : udp_only c c' -> live c p -> live c' p.
Proof. intros [_ Hh _ _ _]. unfold live, co_sess. by rewrite Hh. Qed.

Lemma udp_only_sids c c' : udp_only c c' -> sids c' = sids c.
Proof. intros [_ _ Hs _ _]. unfold sids. by rewrite Hs. Qed.

Lemma goes_udp ep c' out : ep_inv ep -> udp_only (ep_core ep) c' -> notes out = [] -> goes ep (ep_set_core c' ep) out.
Proof.
  intros Hi Hu Hn. split; [apply inv_core; [done|apply Hu|intros q; by apply udp_only_live]|by split|].
  intros _. rewrite Hn. simpl. by rewrite (udp_only_sids _ _ Hu).
Qed.

Section operations.
Context {E : EpEnv}.

Lemma updateSessionInfo_total p s ep : core_ok (ep_core ep) -> co_sess p (ep_core ep) = Some s ->
  exists c' out, updateSessionInfo p ep = Some (tt, ep_set_core c' ep, out) /\ udp_only (ep_core ep) c' /\ notes out = [].
Proof.
  intros Hc Hp. destruct (ck_live _ Hc p s Hp) as [_ (k & Hk & _)].
  unfold updateSessionInfo, mbind, EM_bind, em_get, em_sess, em_sock, em_core, em_mod, em_out. cbv zeta.
  assert (ep_set_core (ep_core ep) ep = ep) as Eid by by destruct ep.
  destruct (_ || _); [|exists (ep_core ep), []; rewrite Eid; split_and!; [done|by apply udp_only_refl|done]].
  rewrite Hp. cbn [fmap option_fmap option_map]. rewrite Hk. cbn [fmap option_fmap option_map].
  case_bool_decide.
  - match goal with |- context [let '(_, _) := ?x in _] => destruct x as [b cn] end. eexists _, _. split; [done|].
    split; [by apply udp_only_put|done].
  - exists (ep_core ep). eexists. rewrite Eid. split; [done|]. split; [by apply udp_only_refl|done].
Qed.

Lemma updateSessionInfo_safe p s ep : ep_inv ep -> co_sess p (ep_core ep) = Some s -> em_safe (updateSessionInfo p) ep.
Proof.
  intros Hi Hp. destruct (updateSessionInfo_total p s ep) as (c' & out & E1 & Hu & Hn); [apply Hi|done|].
  exists tt, (ep_set_core c' ep), out. split; [done|]. by apply goes_udp.
Qed.

(** *** Notifications *)

Definition online_out s k (first : bool) (o : EpObj) : list EpOut :=
  if checkOnlineChannel (eo_mOnlineChannelType o) (sess_qos s k)
  then OutSubscribeEvents (eo_objId o) :: migrateToWorker (OutOnline (eo_objId o) (es_sid s) first (sess_qos s k)) o else [].
Definition offline_out s k (last : bool) (o : EpObj) : list EpOut :=
  if checkOnlineChannel (eo_mOnlineChannelType o) (sess_qos s k)
  then migrateToWorker (OutOffline (eo_objId o) (es_sid s) last (sess_qos s k)) o else [].

Lemma connected_sessions_In c p : core_ok c ->
  p ∈ connected_sessions c <-> exists skid k, co_sock skid c = Some k /\ p ∈ ek_table k.
Proof.
  intros Hc. unfold connected_sessions. rewrite list_elem_of_bind. split.
  - intros ([skid k] & Hp & Hin). exists skid, k. split; [|done]. apply m_find_In; [apply Hc|done].
  - intros (skid & k & Hk & Hp). exists (skid, k). split; [done|]. apply m_find_In; [apply Hc|done].
Qed.

Lemma connected_live c p : core_ok c -> p ∈ connected_sessions c ->
  exists s k, co_sess p c = Some s /\ co_sock (es_skid s) c = Some k.
Proof.
  intros Hc (skid & k & Hk & Hp)%connected_sessions_In; [|done]. destruct (ck_table _ Hc _ _ _ Hk Hp) as (s & Hs & <-). eauto.
Qed.

Lemma notifyOnline_spec c p s k first o : core_ok c -> co_sess p c = Some s -> co_sock (es_skid s) c = Some k ->
  exists dog, notifyOnline c p first o = Some (eo_set_dog dog o, online_out s k first o).
Proof.
  intros Hc Hp Hk. unfold notifyOnline. rewrite Hp. cbn [mbind option_bind]. rewrite Hk. cbn [mbind option_bind].
  assert (is_Some (mapM (connected_peer c) (connected_sessions c))) as [peers Hpe].
  { apply mapM_is_Some_2, Forall_forall. intros q Hq. destruct (connected_live c q Hc Hq) as (s' & k' & E1 & E2).
    unfold compose, connected_peer. rewrite E1. simpl. rewrite E2. eauto. }
  destruct (od_mWatchdog (eo_dog o)), (od_enabled (eo_dog o)); try (eexists; reflexivity).
  rewrite Hpe. eexists. reflexivity.
Qed.

Lemma notifyOffline_spec c p s k last o : co_sess p c = Some s -> co_sock (es_skid s) c = Some k ->
  exists dog barks, notifyOffline c p last o = Some (eo_set_dog dog o, (OutDog (eo_objId o) <$> barks) ++ offline_out s k last o).
Proof.
  intros Hp Hk. unfold notifyOffline. rewrite Hp. cbn [mbind option_bind]. rewrite Hk. cbn [mbind option_bind].
  destruct (offline_dog (es_sid s) (eo_dog o)) as [dog barks]. by exists dog, barks.
Qed.

Lemma notes_dogs oid l : notes (OutDog oid <$> l) = [].
Proof. by induction l. Qed.

Lemma notes_online s k first o : eo_objId o <> FDB_OBJECT_MAIN -> notes (online_out s k first o) = [].
Proof.
  intros Hn. unfold online_out, migrateToWorker. destruct (checkOnlineChannel _ _); [|done].
  destruct (eo_worker o && negb (eo_migrate o)); [done|]. simpl. destruct (Z.eqb_spec (eo_objId o) FDB_OBJECT_MAIN); done.
Qed.

Lemma notes_offline s k last o : eo_objId o <> FDB_OBJECT_MAIN -> notes (offline_out s k last o) = [].
Proof.
  intros Hn. unfold offline_out, migrateToWorker. destruct (checkOnlineChannel _ _); [|done].
  destruct (eo_worker o && negb (eo_migrate o)); [done|]. simpl. destruct (Z.eqb_spec (eo_objId o) FDB_OBJECT_MAIN); done.
Qed.

Lemma notes_plain ep s k first : plain ep -> eo_objId (ep_self ep) = FDB_OBJECT_MAIN ->
  notes (online_out s k first (ep_self ep)) = [NoteUp (es_sid s) first] /\
  notes (offline_out s k first (ep_self ep)) = [NoteDown (es_sid s) first].
Proof. intros (_ & Hw & Hc) Hm. unfold online_out, offline_out, migrateToWorker. rewrite Hw, Hc. simpl. by rewrite Hm. Qed.

(** *** Loops over the objects *)

Lemma objs_each_spec f (Q : EpObj -> EpObj -> Prop) t :
  Forall (fun e => exists o' out, f e.2 = Some (o', out) /\ Q e.2 o' /\ notes out = []) t ->
  exists t' out, objs_each f t = Some (t', out) /\ Forall2 (fun e e' => e.1 = e'.1 /\ Q e.2 e'.2) t t' /\ notes out = [].
Proof.
  induction 1 as [|[oid o] t (o' & o1 & E1 & HQ & N1) _ (t' & o2 & E2 & HF & N2)]; [by exists [], []|].
  exists ((oid, o') :: t'), (o1 ++ o2). cbn [objs_each]. simpl in E1. rewrite E1. simpl. rewrite E2. simpl.
  rewrite notes_app, N1, N2. split_and!; [done|constructor; [done|done]|done].
Qed.

Lemma sorted_keys {V V'} (R : V -> V' -> Prop) (m : smap Z V) m' :
  Forall2 (fun e e' => e.1 = e'.1 /\ R e.2 e'.2) m m' -> m_sorted m -> m_sorted m'.
Proof.
  induction 1 as [|[n v] [n' v'] m m' [En _] HF IH]; [done|]. simpl in En. subst n'. intros [Hb Hs]. split; [|auto].
  clear -HF Hb. induction HF as [|[j x] [j' x'] m m' [Ej _] _ IH]; [apply Forall_nil_2|]. simpl in Ej. subst j'. inversion_clear Hb.
  constructor; [done|]. by apply IH.
Qed.

(** What every object keeps. *)
Definition kept c c' (o o' : EpObj) : Prop := (obj_ok c o -> obj_ok c' o') /\ eo_objId o' = eo_objId o.

(** A step for every object that keeps what the invariant says of it. *)
Definition obj_step c c' (f : EpObj -> option (EpObj * list EpOut)) (o : EpObj) : Prop :=
  exists o' out, f o = Some (o', out) /\ (obj_ok c o -> obj_ok c' o') /\ eo_objId o' = eo_objId o /\
    (eo_objId o <> FDB_OBJECT_MAIN -> notes out = []).

Lemma em_objects_total f c c' ep :
  (forall o, obj_step c c' (f (ep_core ep)) o) ->
  m_sorted (mEntryContainer (ep_objects ep)) -> Forall (object_entry_ok c) (mEntryContainer (ep_objects ep)) ->
  exists t out, em_objects f ep = Some (tt, ep_set_objects (mkContainer (mEntryAllocator (ep_objects ep)) t) (ep_mSnAllocator ep) ep, out) /\
    m_sorted t /\ Forall (object_entry_ok c') t /\ notes out = [].
Proof.
  intros Hf Hs Ho.
  destruct (objs_each_spec (f (ep_core ep)) (kept c c')
              (mEntryContainer (ep_objects ep))) as (t & out & E1 & HF & Hn).
  { eapply Forall_impl; [exact Ho|]. intros [oid o] (Hok & Hid & Hne). simpl in *.
    destruct (Hf o) as (o' & out & E1 & E2 & E3 & E4). exists o', out. split_and!; try done. apply E4. congruence. }
  exists t, out. unfold em_objects. rewrite E1. split_and!; [done|by apply (sorted_keys (kept c c') _ _ HF)| |done].
  clear -HF Ho. induction HF as [|[n x] [n' y] l l' [Ek [HQ Hid]] _ IH]; [done|]. inversion_clear Ho as [|? ? Hh Ht].
  constructor; [|auto]. destruct Hh as (H1 & H2 & H3). simpl in *. subst n'. unfold object_entry_ok. simpl. split_and!; [auto|congruence|done].
Qed.

Lemma obj_step_online c p s k first : core_ok c -> co_sess p c = Some s -> co_sock (es_skid s) c = Some k ->
  forall o, obj_step c c (when_accepted p (notifyOnline c p first) c) o.
Proof.
  intros Hc Hp Hk o. unfold obj_step, when_accepted. rewrite Hp. cbn [mbind option_bind].
  destruct (ev_auth (eo_objId o) s); [|by exists o, []].
  destruct (notifyOnline_spec c p s k first o Hc Hp Hk) as [dog Ed]. rewrite Ed.
  exists (eo_set_dog dog o), (online_out s k first o). split_and!; [done|by intros []|done|]. intros Hn. by apply notes_online.
Qed.

(** *** A session comes *)

Lemma is_first_spec separate secure c : core_ok c -> separate = false -> is_first_session separate secure c = m_empty (sids c).
Proof.
  intros Hc ->. rewrite sids_empty, <- (ck_total _ Hc). unfold is_first_session.
  rewrite (ck_secure _ Hc), (ck_insecure _ Hc). pose proof (ck_bound _ Hc). pose proof (ck_sessnum _ Hc).
  pose proof (connected_nonneg true c). pose proof (connected_nonneg false c).
  by rewrite wrap_u_small by (unfold in_u; lia).
Qed.

Lemma core_add_facts skid k s c : core_ok c -> co_sock skid c = Some k -> es_skid s = skid ->
  mEntryAllocator (co_sessions c) < 2 ^ 31 ->
  let sid := mEntryAllocator (co_sessions c) in let c' := core_add skid (co_next c) k s (co_new s c).2 in
  co_sess (co_next c) c' = Some (es_set_view (sv_set_sid sid (es_view s)) s) /\
  (exists k', co_sock skid c' = Some k' /\ ek_host k' = ek_host k) /\ sids c' = m_set sid tt (sids c) /\ s_member sid (sids c) = false /\
  (forall q, live c q -> live c' q).
Proof.
  intros Hc Hk Es Hb sid c'.
  assert (sess_of sid c = None) as Hsid.
  { destruct (sess_of sid c) eqn:Ex; [|done]. apply (ck_sid _ Hc) in Ex. subst sid. lia. }
  assert (co_heap c' = m_set (co_next c) (es_set_view (sv_set_sid sid (es_view s)) s) (m_set (co_next c) s (co_heap c))) as Eh.
  { subst c'. unfold core_add, count_up. simpl. by destruct (ek_secure k). }
  assert (co_sockets c' = updateEntry skid (sock_addSession (co_next c) k) (co_sockets c)) as Ekk.
  { subst c'. unfold core_add, count_up. simpl. by destruct (ek_secure k). }
  assert (mEntryContainer (co_sessions c') = m_set sid (co_next c) (mEntryContainer (co_sessions c))) as Ess.
  { subst c'. unfold core_add, count_up, insertEntry, allocateEntityId, sess_of in *.
    destruct (ek_secure k); simpl; fold sid; by rewrite Hsid. }
  pose proof (ck_heap _ Hc) as Hh.
  split_and!.
  - unfold co_sess. by rewrite Eh, m_find_set.
  - exists (sock_addSession (co_next c) k). unfold co_sock, retrieveEntry. rewrite Ekk. simpl.
    split; [apply m_find_set|]. unfold sock_addSession. by destruct (existsb _ _).
  - unfold sids. rewrite Ess. apply sids_set.
  - unfold s_member, sids. rewrite sids_find. unfold sess_of in Hsid. by rewrite Hsid.
  - intros q [x Hx]. unfold live, co_sess. rewrite Eh, !m_find_set_dec by (repeat apply m_sorted_set; done).
    repeat case_decide; eauto.
Qed.

Lemma ep_set_core_twice c1 c2 ep : ep_set_core c1 (ep_set_core c2 ep) = ep_set_core c1 ep.
Proof. done. Qed.

Lemma core_add_connected skid p k s c b : core_ok c -> core_ok (core_add skid p k s (co_new s c).2) ->
  connected b (core_add skid p k s (co_new s c).2) = connected b c + (if Bool.eqb (ek_secure k) b then 1 else 0).
Proof.
  intros Hc Hc'. destruct (core_add_rest skid p k s (co_new s c).2) as (_ & F1 & F2).
  set (c' := core_add skid p k s (co_new s c).2) in *. clearbody c'. cbn [co_new snd co_mSecureSessionCnt co_mInsecureSessionCnt] in F1, F2.
  pose proof (ck_bound _ Hc). pose proof (ck_sessnum _ Hc). pose proof (connected_nonneg true c). pose proof (connected_nonneg false c).
  rewrite (ck_secure _ Hc), (ck_secure _ Hc') in F1. rewrite (ck_insecure _ Hc), (ck_insecure _ Hc') in F2.
  destruct (ek_secure k), b; simpl; rewrite ?F1, ?F2, ?wrap_u_small by (unfold in_u; lia); lia.
Qed.

Lemma obj_ok_dog c d o : obj_ok c o -> obj_ok c (eo_set_dog d o).
Proof. intros []. by split. Qed.

Lemma core_add_numbers skid k s c : let c' := core_add skid (co_next c) k s (co_new s c).2 in
  mEntryAllocator (co_sockets c') = mEntryAllocator (co_sockets c) /\
  (0 <= mEntryAllocator (co_sessions c) <= 2 ^ 31 -> mEntryAllocator (co_sessions c') <= mEntryAllocator (co_sessions c) + 1).
Proof.
  unfold core_add, count_up, updateEntry, insertEntry. destruct (ek_secure k); cbn; (split; [by repeat case_match|]); intros Hr;
    (assert (u32 (mEntryAllocator (co_sessions c) + 1) = mEntryAllocator (co_sessions c) + 1) as -> by (apply wrap_u_small; unfold in_u; lia)); case_match; cbn; lia.
Qed.

(** [addConnectedSession] of a session that was just created. *)
Lemma addConnectedSession_total skid k s ep : ep_inv ep -> co_sock skid (ep_core ep) = Some k -> es_skid s = skid ->
  mEntryAllocator (co_sessions (ep_core ep)) < 2 ^ 31 -> ev_auth FDB_OBJECT_MAIN s = true ->
  em_total (addConnectedSession skid (co_next (ep_core ep))) (ep_set_core (co_new s (ep_core ep)).2 ep)
    (fun ok ep' out => ok = true /\ goes ep ep' out /\
       (forall b, connected b (ep_core ep') = connected b (ep_core ep) + (if Bool.eqb (ek_secure k) b then 1 else 0)) /\
       mEntryAllocator (co_sockets (ep_core ep')) = mEntryAllocator (co_sockets (ep_core ep)) /\
       mEntryAllocator (co_sessions (ep_core ep')) <= mEntryAllocator (co_sessions (ep_core ep)) + 1 /\
       exists k', co_sock skid (ep_core ep') = Some k' /\ ek_host k' = ek_host k).
Proof.
  intros Hi Hk Es Hb Ha. set (c := ep_core ep) in *. set (p := co_next c). set (sid := mEntryAllocator (co_sessions c)).
  pose proof (ei_core _ Hi) as Hc. pose proof (core_ok_add skid k s c Hc Hk Es Hb) as Hc2.
  pose proof (core_add_facts skid k s c Hc Hk Es Hb) as (F1 & (k2 & F2 & Fh) & F3 & F4 & F5). fold p sid in F1, F2, F3, F4, F5, Hc2.
  set (c2 := core_add skid p k s (co_new s c).2) in F1, F2, F3, F5, Hc2 |- *.
  apply em_total_bind, em_total_get. apply em_total_bind, (em_total_sess _ s); [apply m_find_set|]. rewrite Ha. cbn [negb].
  apply em_total_bind, (em_total_sock _ k); [done|]. cbv zeta.
  apply em_total_bind, em_total_core. apply em_total_bind, em_total_core. apply em_total_bind.
  apply em_total_bind, (em_total_sess _ s); [unfold count_up; destruct (ek_secure k); apply m_find_set|]. apply em_total_core.
  match goal with |- em_total _ ?st _ => change st with (ep_set_core c2 ep) end.
  destruct (updateSessionInfo_total p (es_set_view (sv_set_sid sid (es_view s)) s) (ep_set_core c2 ep)) as (c3 & o3 & E3 & Hu & N3); [done|done|].
  set (first := is_first_session _ _ _). set (s2 := es_set_view (sv_set_sid sid (es_view s)) s) in *.
  apply em_total_bind. exists tt, (ep_set_core c3 ep), o3. split; [done|]. cbn [ep_core ep_set_core] in Hu.
  assert (co_sess p c3 = Some s2) as Hp3 by (unfold co_sess; by rewrite (uo_heap _ _ Hu)).
  destruct (uo_sock _ _ Hu _ _ F2) as (u & port & Hk3). set (k3 := ek_set_udp u port k2) in *.
  assert (co_sock (es_skid s2) c3 = Some k3) as Hk3' by (subst s2; simpl; by rewrite Es).
  pose proof (uo_ok _ _ Hu) as Hc3.
  assert (forall q, live c q -> live c3 q) as Hl by (intros q Hq; by apply (udp_only_live c2), F5).
  destruct (notifyOnline_spec c3 p s2 k3 first (ep_self ep) Hc3 Hp3 Hk3') as [dog Ed].
  apply em_total_bind. exists tt, (ep_set_self (eo_set_dog dog (ep_self ep)) (ep_set_core c3 ep)), (online_out s2 k3 first (ep_self ep)).
  split; [unfold em_self; cbn [ep_core ep_set_core ep_self]; by rewrite Ed|].
  apply em_total_bind.
  destruct (em_objects_total (fun c => when_accepted p (notifyOnline c p first) c) c3 c3
              (ep_set_self (eo_set_dog dog (ep_self ep)) (ep_set_core c3 ep))) as (t & o4 & E4 & T1 & T2 & T3).
  { intros x. by apply (obj_step_online c3 p s2 k3). }
  { apply Hi. }
  { apply (entries_mono c); [apply Hi|done]. }
  eexists tt, _, o4. split; [exact E4|]. apply em_total_ret. split; [done|]. split; [split|split_and!].
  - split; cbn; try done; [apply obj_ok_dog, (obj_ok_mono c); [apply Hi|done]|apply Hi].
  - by split.
  - intros Hpl. rewrite !notes_app, N3, T3. cbn [app].
    destruct (notes_plain ep s2 k3 first Hpl (ei_main _ Hi)) as [-> _]. cbn [app]. cbn [ep_core ep_set_core ep_set_self ep_set_objects].
    change first with (is_first_session (ep_separate ep) (ek_secure k) c). rewrite is_first_spec; [|done|apply Hpl].
    change (notes []) with (@nil Note). cbn [app spec_notes spec_note mbind option_bind]. change (es_sid s2) with sid. change (ep_core ep) with c. rewrite F4, eqb_reflx. cbn [negb andb mbind option_bind].
    by rewrite (udp_only_sids _ _ Hu), F3.
  - intros b. pose proof (udp_only_connected _ _ b Hc2 Hu) as Hcnt. cbn [ep_core ep_set_objects ep_set_self ep_set_core].
    pose proof (core_add_connected skid p k s c b Hc Hc2) as Hadd. fold c2 in Hadd. change (ep_core ep) with c. lia.
  - cbn [ep_core ep_set_objects ep_set_self ep_set_core]. rewrite (sk_socknum _ _ (uo_shrunk _ _ Hu)). apply core_add_numbers.
  - cbn [ep_core ep_set_objects ep_set_self ep_set_core]. rewrite (sk_sessnum _ _ (uo_shrunk _ _ Hu)). apply core_add_numbers, (ck_sessnum _ Hc).
  - exists k3. by split.
Qed.

(** *** A session goes *)

Lemma obj_forget_ok c c' p o : obj_ok c o -> (forall q, q <> p -> live c q -> live c' q) ->
  obj_ok c' (eo_set_obj (obj_unsubscribe_session (eo_obj o) p) o).
Proof.
  intros [H1 H2 H3 H4] Hl.
  destruct (unsubscribe_session_ok _ p H1) as [U1 F1]. destruct (unsubscribe_session_ok _ p H2) as [U2 F2].
  split; simpl; try done; intros msg q oid tp; [rewrite F1|rewrite F2]; case_bool_decide; eauto; by intros [? ?].
Qed.

Lemma obj_step_offline c0 c p s k last : co_sess p c = Some s -> co_sock (es_skid s) c = Some k ->
  forall o, obj_step c0 c0 (notifyOffline c p last) o.
Proof.
  intros Hp Hk o. destruct (notifyOffline_spec c p s k last o Hp Hk) as (dog & barks & Ed). eexists _, _. split; [exact Ed|].
  split_and!; [apply obj_ok_dog|done|]. intros Hn. by rewrite notes_app, notes_dogs, notes_offline.
Qed.

Lemma obj_step_forget c c' p : (forall q, q <> p -> live c q -> live c' q) -> forall o, obj_step c c' (obj_forget p) o.
Proof. intros Hl o. eexists _, _. split; [done|]. split_and!; [|done|done]. intros Ho. by apply (obj_forget_ok c). Qed.

Lemma core_del_facts p s k c : core_ok c -> co_sess p c = Some s -> co_sock (es_skid s) c = Some k ->
  sids (core_del p s k c) = m_erase (es_sid s) (sids c) /\ s_member (es_sid s) (sids c) = true /\
  (forall q, q <> p -> live c q -> live (core_del p s k c) q).
Proof.
  intros Hc Hp Hk. destruct (core_del_rest p s k c) as (_ & Eh & _ & Es & _). destruct (ck_live _ Hc p s Hp) as [Hs _]. split_and!.
  - unfold sids. rewrite Es. apply sids_erase.
  - unfold s_member, sids. rewrite sids_find. unfold sess_of in Hs. by rewrite Hs.
  - intros q Hq Hl. unfold live, co_sess. rewrite Eh, m_find_erase_ne; [done|done|apply Hc].
Qed.

Lemma is_last_spec separate secure sid c : core_ok c -> separate = false -> s_member sid (sids c) = true ->
  is_last_session separate secure c = m_empty (m_erase sid (sids c)).
Proof.
  intros Hc -> Hm. unfold is_last_session. rewrite (ck_secure _ Hc), (ck_insecure _ Hc).
  pose proof (ck_bound _ Hc). pose proof (ck_sessnum _ Hc). pose proof (ck_total _ Hc) as Ht.
  pose proof (connected_nonneg true c). pose proof (connected_nonneg false c). rewrite wrap_u_small by (unfold in_u; lia).
  apply bool_decide_eq_true in Hm as [[] Hm]. pose proof (m_erase_length _ _ _ Hm) as Hl.
  assert (length (sids c) = length (mEntryContainer (co_sessions c))) as El by apply length_fmap. rewrite Ht, <- El, <- Hl.
  destruct (m_erase sid (sids c)); cbn [length m_empty]; [done|]. apply Z.eqb_neq. lia.
Qed.

Lemma destroySession_total p s k ep : ep_inv ep -> co_sess p (ep_core ep) = Some s -> co_sock (es_skid s) (ep_core ep) = Some k ->
  em_total (destroySession p) ep (fun skid ep' out => skid = es_skid s /\ ep_core ep' = core_del p s k (ep_core ep) /\ goes ep ep' out).
Proof.
  intros Hi Hp Hk. pose proof (ei_core _ Hi) as Hc. pose proof (core_ok_del p s k _ Hc Hp Hk) as Hcd.
  pose proof (core_del_facts p s k _ Hc Hp Hk) as (D1 & D2 & D3).
  apply em_total_bind, (em_total_sess _ s); [done|]. apply em_total_bind, em_total_out. apply em_total_bind.
  apply em_total_bind, em_total_get. apply em_total_bind, (em_total_sess _ s); [done|]. apply em_total_bind, (em_total_sock _ k); [done|].
  cbv zeta. set (last := is_last_session _ _ _). apply em_total_bind, em_total_core, em_total_bind, em_total_core.
  cbn [ep_core ep_set_core]. set (c1 := co_put_sock _ _ _).
  assert (co_sess p c1 = Some s) as Hp1 by (subst c1; unfold count_down; by repeat case_match).
  assert (co_sock (es_skid s) c1 = Some (sock_removeSession p k)) as Hk1 by apply m_find_set.
  apply em_total_bind.
  destruct (em_objects_total (fun c => notifyOffline c p last) (ep_core ep) (ep_core ep) (ep_set_core c1 ep)) as (t1 & o1 & E1 & T1 & T2 & T3);
    [by apply (obj_step_offline _ c1 p s _ last Hp1 Hk1)|apply Hi|apply Hi|].
  eexists tt, _, o1. split; [exact E1|].
  destruct (notifyOffline_spec c1 p s _ last (ep_self ep) Hp1 Hk1) as (dog & barks & Ed).
  apply em_total_bind. eexists tt, _, _. split; [unfold em_self; cbn [ep_core ep_set_core ep_self ep_set_objects]; by rewrite Ed|].
  apply em_total_core. cbn [ep_core ep_set_core ep_set_self ep_set_objects]. apply em_total_bind. apply em_total_bind.
  set (ep2 := ep_set_core _ _).
  destruct (em_objects_total (fun _ => obj_forget p) (ep_core ep) (core_del p s k (ep_core ep)) ep2) as (t2 & o2 & E2 & U1 & U2 & U3);
    [by apply obj_step_forget|done|done|].
  eexists tt, _, o2. split; [exact E2|]. eexists tt, _, []. split; [done|]. apply em_total_bind, em_total_core, em_total_ret.
  split_and!; [done|done|]. split.
  - split; cbn; try done; [|apply Hi]. apply (obj_forget_ok (ep_core ep) _ p (eo_set_dog dog (ep_self ep))); [apply obj_ok_dog, Hi|done].
  - by split.
  - intros Hpl. rewrite !notes_app, notes_dogs, T3, U3. destruct (notes_plain ep s (sock_removeSession p k) last Hpl (ei_main _ Hi)) as [_ ->].
    change last with (is_last_session (ep_separate ep) (ek_secure k) (ep_core ep)). rewrite (is_last_spec _ _ (es_sid s)); [|done|apply Hpl|done].
    change (notes [OutTerminate p]) with (@nil Note). change (notes []) with (@nil Note).
    cbn [app spec_notes spec_note mbind option_bind]. rewrite D2, eqb_reflx. cbn [andb mbind option_bind]. by rewrite <- D1.
Qed.

Lemma remove_value_short v l : (length (remove_value v l) <= length l)%nat.
Proof. induction l as [|x l IH]; simpl; [lia|]. destruct (x =? v); simpl; lia. Qed.

Lemma core_del_shrunk p s k c : core_ok c -> co_sess p c = Some s -> co_sock (es_skid s) c = Some k ->
  shrunk c (core_del p s k c) /\ length (mEntryContainer (co_sockets (core_del p s k c))) = length (mEntryContainer (co_sockets c)) /\
  (forall j, is_Some (co_sock j c) -> is_Some (co_sock j (core_del p s k c))) /\ co_sess p (core_del p s k c) = None.
Proof.
  intros Hc Hp Hk. destruct (core_del_rest p s k c) as (_ & Eh & Ek & Es & _). set (c' := core_del p s k c) in *. clearbody c'.
  assert (forall j, co_sock j c' = if decide (j = es_skid s) then Some (sock_removeSession p k) else co_sock j c) as Fk.
  { intros j. unfold co_sock, retrieveEntry. rewrite Ek. simpl. apply m_find_set_dec, Hc. }
  split_and!.
  - split.
    + by rewrite Ek.
    + by rewrite Es.
    + intros q x. unfold co_sess. rewrite Eh, m_find_erase_dec by apply Hc. by case_decide.
    + intros j k'. rewrite Fk. case_decide; [|eauto]. intros [= <-]. subst. eauto.
    + intros b. pose proof (connected_shrink b _ k (sock_removeSession p k) c Hk eq_refl (remove_value_short p _)) as Hx.
      unfold connected, co_put_sock in *. by rewrite Ek.
  - rewrite Ek. simpl. by apply (m_set_length_in _ k).
  - intros j Hj. rewrite Fk. case_decide; eauto.
  - unfold co_sess. rewrite Eh. apply m_find_erase, Hc.
Qed.

(** The sessions of [l] on the socket [skid] go. *)
Lemma deleteSessions_loop skid l ep : ep_inv ep -> NoDup l.*1 -> (forall e, e ∈ l -> sess_of e.1 (ep_core ep) = Some e.2) ->
  em_total (em_each (fun e => s ← em_sess e.2; if es_skid s =? skid then _ ← destroySession e.2; mret tt else mret tt) l) ep
    (fun _ ep' out => goes ep ep' out /\ shrunk (ep_core ep) (ep_core ep') /\
       length (mEntryContainer (co_sockets (ep_core ep'))) = length (mEntryContainer (co_sockets (ep_core ep))) /\
       (forall j, is_Some (co_sock j (ep_core ep)) -> is_Some (co_sock j (ep_core ep'))) /\
       forall e s, e ∈ l -> co_sess e.2 (ep_core ep') = Some s -> es_skid s <> skid).
Proof.
  revert ep. induction l as [|[sid p] l IH]; intros ep Hi Hnd Hl.
  { apply em_total_ret. split_and!; [by apply goes_refl|apply shrunk_refl|done|done|]. by intros e s ?%not_elem_of_nil. }
  rewrite fmap_cons in Hnd. apply NoDup_cons in Hnd as [Hn Hnd]. pose proof (ei_core _ Hi) as Hc.
  destruct (ck_reg _ Hc sid p (Hl (sid, p) (list_elem_of_here _ _))) as (s & Hs & Esid).
  cbn [em_each]. apply em_total_bind, em_total_bind, (em_total_sess _ s); [done|]. destruct (Z.eqb_spec (es_skid s) skid) as [Ek|Ek].
  - destruct (live_sock p s ep Hi Hs) as [k Hk]. apply em_total_bind.
    eapply em_total_mono; [by apply (destroySession_total p s k)|]. intros x ep1 o1 (_ & Ec & G1). apply em_total_ret.
    destruct (core_del_shrunk p s k _ Hc Hs Hk) as (S1 & S2 & S3 & S4). rewrite <- Ec in S1, S2, S3, S4.
    eapply em_total_mono; [apply (IH ep1 (go_inv _ _ _ G1) Hnd)|].
    + intros e He. pose proof (Hl e (list_elem_of_further _ _ _ He)) as Hse. rewrite Ec.
      destruct (core_del_rest p s k (ep_core ep)) as (_ & _ & _ & Es & _). unfold sess_of. rewrite Es. cbn [deleteEntry mEntryContainer].
      rewrite m_find_erase_ne; [done| |apply Hc]. intros Eq. apply Hn. rewrite Esid in Eq. simpl. rewrite <- Eq. apply list_elem_of_fmap. by exists e.
    + intros y ep2 o2 (G2 & T1 & T2 & T3 & T4). rewrite app_nil_l, app_nil_r.
      split_and!; [by apply (goes_trans ep ep1)|by apply (shrunk_trans _ (ep_core ep1))|congruence|eauto|].
      intros e s' [->|He]%elem_of_cons Hs'; [|by apply (T4 e)]. apply (sk_sess _ _ T1) in Hs'. simpl in Hs'. congruence.
  - apply em_total_ret. eapply em_total_mono; [apply (IH ep Hi Hnd)|].
    + intros e He. apply Hl. by apply list_elem_of_further.
    + intros y ep2 o2 (G2 & T1 & T2 & T3 & T4). split_and!; [done|done|done|done|].
      intros e s' [->|He]%elem_of_cons Hs'; [|by apply (T4 e)]. apply (sk_sess _ _ T1) in Hs'. simpl in Hs'. congruence.
Qed.

Lemma sorted_NoDup {V} (m : smap Z V) : m_sorted m -> NoDup m.*1.
Proof.
  induction m as [|[n v] m IH]; [intros; apply NoDup_nil_2|]. intros [Hb Hs]. apply NoDup_cons. split; [|auto].
  intros ([j w] & Ej & Hin)%list_elem_of_fmap_1. simpl in Ej. subst j. eapply Forall_forall in Hb; [|exact Hin].
  cbn [fst] in Hb. by rewrite klt_irrefl in Hb.
Qed.

Lemma deleteContainer_total skid k ep : ep_inv ep -> co_sock skid (ep_core ep) = Some k ->
  em_total (deleteContainer skid) ep (fun _ ep' out => goes ep ep' out /\ shrunk (ep_core ep) (ep_core ep') /\
    S (length (mEntryContainer (co_sockets (ep_core ep')))) = length (mEntryContainer (co_sockets (ep_core ep)))).
Proof.
  intros Hi Hk. apply em_total_bind, (em_total_sock _ k); [done|]. apply em_total_bind.
  set (b := match ek_host k with Some _ => true | None => false end).
  assert (exists k1, em_total (em_when b (em_core (co_put_sock skid (ek_set_hook false k)))) ep (fun _ ep' out =>
            goes ep ep' out /\ shrunk (ep_core ep) (ep_core ep') /\ co_sock skid (ep_core ep') = Some k1 /\
            length (mEntryContainer (co_sockets (ep_core ep'))) = length (mEntryContainer (co_sockets (ep_core ep))))) as [k1 H1].
  { destruct b; simpl.
    - exists (ek_set_hook false k). apply em_total_core. cbn [ep_core ep_set_core]. split_and!.
      + apply goes_core; [done|by apply (core_ok_sock _ k); [apply Hi|..]|done|done].
      + split; try done.
        * intros j k'. rewrite sock_put by apply Hi. case_decide; [|eauto]. intros [= <-]. subst. eauto.
        * intros b'. by apply (connected_shrink b' skid k).
      + apply m_find_set.
      + simpl. by apply (m_set_length_in _ k).
    - exists k. apply em_total_ret. split_and!; [by apply goes_refl|apply shrunk_refl|done|done]. }
  eapply em_total_mono; [exact H1|]. clear H1. intros [] ep1 o1 (G1 & S1 & K1 & L1). pose proof (go_inv _ _ _ G1) as Hi1.
  apply em_total_bind, em_total_bind, em_total_get.
  eapply em_total_mono; [apply (deleteSessions_loop skid (mEntryContainer (co_sessions (ep_core ep1))) ep1 Hi1)|].
  { apply sorted_NoDup, Hi1. }
  { intros [sid p] He. apply m_find_In; [apply Hi1|done]. }
  intros [] ep2 o2 (G2 & S2 & L2 & K2 & D2). pose proof (go_inv _ _ _ G2) as Hi2. pose proof (ei_core _ Hi2) as Hc2.
  destruct (K2 skid ltac:(eauto)) as [k2 Hk2].
  assert (ek_table k2 = []) as Et.
  { destruct (ek_table k2) as [|p l] eqn:Et; [done|]. exfalso.
    destruct (ck_table _ Hc2 skid k2 p Hk2) as (s & Hs & Es); [rewrite Et; apply list_elem_of_here|].
    pose proof (sk_sess _ _ S2 p s Hs) as Hs1. destruct (ck_live _ (ei_core _ Hi1) p s Hs1) as [Hr _].
    apply (D2 (es_sid s, p) s); [|done|done]. apply m_find_In; [apply Hi1|done]. }
  apply em_total_core. cbn [ep_core ep_set_core]. split_and!.
  - rewrite app_nil_l. apply (goes_trans ep ep1 _ o1); [done|]. rewrite app_nil_l. apply (goes_trans ep1 ep2 _ o2); [done|].
    apply goes_core; [done|by apply (core_ok_unsocket skid k2)|done|done].
  - apply (shrunk_trans _ (ep_core ep1)); [done|]. apply (shrunk_trans _ (ep_core ep2)); [done|]. split; try done.
    + intros j k'. unfold co_sock, retrieveEntry. simpl. rewrite m_find_erase_dec by apply Hc2. case_decide; [done|]. eauto.
    + intros b'. unfold connected. simpl. pose proof (m_erase_expand (channel b') skid k2 _ Hk2). lia.
  - simpl. rewrite (m_erase_length _ _ _ Hk2). congruence.
Qed.

(** *** Operations that keep the sessions or lose some *)

(** The outcome of an operation that takes in no session. *)
Definition loses ep ep' (out : list EpOut) : Prop := goes ep ep' out /\ shrunk (ep_core ep) (ep_core ep').

Lemma loses_refl ep : ep_inv ep -> loses ep ep [].
Proof. split; [by apply goes_refl|apply shrunk_refl]. Qed.

Lemma loses_trans ep1 ep2 ep3 o1 o2 : loses ep1 ep2 o1 -> loses ep2 ep3 o2 -> loses ep1 ep3 (o1 ++ o2).
Proof. intros [G1 S1] [G2 S2]. split; [by apply (goes_trans _ ep2)|by apply (shrunk_trans _ (ep_core ep2))]. Qed.

Lemma loses_quiet ep out : ep_inv ep -> notes out = [] -> loses ep ep out.
Proof. split; [by apply goes_quiet|apply shrunk_refl]. Qed.

(** A change of what the invariant does not speak about. *)
Lemma loses_rest ep ep' : ep_inv ep -> ep_core ep' = ep_core ep -> ep_objects ep' = ep_objects ep ->
  eo_obj (ep_self ep') = eo_obj (ep_self ep) -> eo_worker (ep_self ep') = eo_worker (ep_self ep) ->
  eo_mOnlineChannelType (ep_self ep') = eo_mOnlineChannelType (ep_self ep) -> ep_separate ep' = ep_separate ep -> loses ep ep' [].
Proof.
  intros [Hc Hs Hm Ht Ho] E1 E2 E3 E4 E5 E6. split; [|rewrite E1; apply shrunk_refl]. split.
  - split; rewrite ?E1, ?E2; try done; [|unfold eo_objId; by rewrite E3]. destruct Hs. split; rewrite E3; done.
  - split; try done. unfold ep_role, eo_role. by rewrite E3.
  - intros _. simpl. by rewrite E1.
Qed.

Definition em_loses {A} (m : EM A) ep : Prop := em_total m ep (fun _ ep' out => loses ep ep' out).

Lemma em_loses_ret {A} (x : A) ep : ep_inv ep -> em_loses (mret x) ep.
Proof. intros Hi. by apply em_total_ret, loses_refl. Qed.

Lemma em_loses_bind {A B} (m : EM A) (f : A -> EM B) ep :
  em_loses m ep -> (forall x ep' out, loses ep ep' out -> m ep = Some (x, ep', out) -> em_loses (f x) ep') -> em_loses (m ≫= f) ep.
Proof.
  intros (x & ep1 & o1 & E1 & G1) Hf. apply em_total_bind. exists x, ep1, o1. split; [done|].
  eapply em_total_mono; [by apply (Hf x ep1 o1)|]. simpl. intros y ep2 o2 G2. by apply (loses_trans ep ep1).
Qed.

Lemma em_loses_get {B} (f : Endpoint -> EM B) ep : em_loses (f ep) ep -> em_loses (em_get ≫= f) ep.
Proof. intros Hf. apply em_total_bind, em_total_get. eapply em_total_mono; [exact Hf|]. done. Qed.

Lemma em_loses_out ep out : ep_inv ep -> notes out = [] -> em_loses (em_out out) ep.
Proof. intros Hi Hn. by apply em_total_out, loses_quiet. Qed.

Lemma em_loses_mod ep f : ep_inv ep -> loses ep (f ep) [] -> em_loses (em_mod f) ep.
Proof. intros Hi Hl. by apply em_total_mod. Qed.

Lemma loses_inv ep ep' out : loses ep ep' out -> ep_inv ep'.
Proof. intros [G _]. apply (go_inv _ _ _ G). Qed.

(** Bind, then go on with the invariant of the new state. *)
Lemma em_loses_then {A B} (m : EM A) (f : A -> EM B) ep :
  em_loses m ep -> (forall x ep', ep_inv ep' -> em_loses (f x) ep') -> em_loses (m ≫= f) ep.
Proof. intros Hm Hf. apply em_loses_bind; [done|]. intros x ep' out Hl _. apply Hf. by apply (loses_inv ep _ out). Qed.

Lemma em_loses_when (b : bool) m ep : ep_inv ep -> em_loses m ep -> em_loses (em_when b m) ep.
Proof. intros Hi Hm. destruct b; simpl; [auto|by apply em_loses_ret]. Qed.

Lemma deleteSockets_total n ep : ep_inv ep -> (length (mEntryContainer (co_sockets (ep_core ep))) <= n)%nat ->
  em_total (deleteSockets n) ep (fun _ ep' out => loses ep ep' out /\ mEntryContainer (co_sockets (ep_core ep')) = []).
Proof.
  revert ep. induction n as [|n IH]; intros ep Hi Hn.
  { apply em_total_ret. split; [by apply loses_refl|]. destruct (mEntryContainer (co_sockets (ep_core ep))); [done|simpl in Hn; lia]. }
  cbn [deleteSockets]. apply em_total_bind, em_total_get.
  destruct (mEntryContainer (co_sockets (ep_core ep))) as [|[skid k] t] eqn:Et.
  { apply em_total_ret. split; [by apply loses_refl|done]. }
  apply em_total_bind. eapply em_total_mono; [apply (deleteContainer_total skid k ep Hi)|].
  - unfold co_sock, retrieveEntry. rewrite Et. apply m_find_hd.
  - intros [] ep1 o1 (G1 & S1 & L1). rewrite Et in L1. simpl in L1, Hn.
    eapply em_total_mono; [apply (IH ep1); [apply (go_inv _ _ _ G1)|lia]|]. intros [] ep2 o2 (L2 & E2). split; [|done].
    rewrite app_nil_l. by apply (loses_trans ep ep1).
Qed.

Lemma deleteSocket_loses skid ep : ep_inv ep -> em_loses (deleteSocket skid) ep.
Proof.
  intros Hi. apply em_loses_get. destruct (fdbValidFdbId skid).
  - destruct (co_sock skid (ep_core ep)) as [k|] eqn:Ek; [|by apply em_loses_ret].
    eapply em_total_mono; [by apply (deleteContainer_total skid k)|]. intros [] ep' out (G & S & _). by split.
  - eapply em_total_mono; [by apply deleteSockets_total|]. by intros [] ep' out [? _].
Qed.

Lemma notifyConnectReady_loses status ep : ep_inv ep -> em_loses (notifyConnectReady status) ep.
Proof.
  intros Hi. apply em_loses_get, em_loses_then.
  - apply em_loses_out; [done|]. by induction (ep_mConnectJobList ep).
  - intros [] ep' Hi'. apply em_loses_mod; [done|]. by apply loses_rest.
Qed.

Lemma requestServiceAddress_loses name id ep : ep_inv ep -> em_loses (requestServiceAddress name id) ep.
Proof.
  intros Hi. apply em_loses_get. case_bool_decide; [by apply em_loses_ret|]. apply em_loses_then.
  { apply em_loses_mod; [done|]. destruct name; by apply loses_rest. }
  intros [] ep1 Hi1. apply em_loses_get. destruct (_ || _); [by apply em_loses_ret|].
  repeat case_match; try by apply em_loses_ret.
  - apply em_loses_then; [by apply em_loses_out|]. intros [] ep2 Hi2. by apply em_loses_ret.
  - apply em_loses_then; [by apply em_loses_out|]. intros [] ep2 Hi2. by apply em_loses_ret.
Qed.

Lemma releaseServiceAddress_loses ep : ep_inv ep -> em_loses releaseServiceAddress ep.
Proof.
  intros Hi. apply em_loses_get. destruct (_ || _); [by apply em_loses_ret|]. apply em_loses_then.
  { apply em_loses_out; [done|]. by case_bool_decide. }
  intros [] ep1 Hi1. apply em_loses_then; [apply em_loses_mod; [done|by apply loses_rest]|]. intros [] ep2 Hi2. by apply em_loses_ret.
Qed.

Lemma self_migrate_loses b ep : ep_inv ep -> em_loses (self_migrate b) ep.
Proof. intros Hi. apply em_loses_mod; [done|]. by apply loses_rest. Qed.

Lemma updateSessionInfo_loses p s ep : ep_inv ep -> co_sess p (ep_core ep) = Some s -> em_loses (updateSessionInfo p) ep.
Proof.
  intros Hi Hp. destruct (updateSessionInfo_total p s ep) as (c' & out & E1 & Hu & Hn); [apply Hi|done|].
  exists tt, (ep_set_core c' ep), out. split; [done|]. split; [by apply goes_udp|]. apply Hu.
Qed.
End operations.
