(* ===== verification/EndpointReach.v ===== *)
(** Every operation of an endpoint keeps the invariant of EndpointProofs.v and tells its
    user of the first and of the last connection; the endpoints that any sequence of
    operations makes, and what they guarantee. *)
From S2P Require Import Prelude CommonDefs StdMap Subscribe EventObject SocketFactory Session Security UdpSession EventLoop Watchdog Endpoint EndpointProofs.

Implicit Types c : EpCore.
Implicit Types ep : Endpoint.
Implicit Types s : EpSess.
Implicit Types k : EpSock.

(** At most one connection that is secure, and one that is not. *)
Definition few c : Prop := forall b, connected b c <= 1.

(** The outcome of an operation of a client. *)
Definition takes ep ep' (out : list EpOut) : Prop := goes ep ep' out /\ (few (ep_core ep) -> few (ep_core ep')).

(** No more than 2^31 numbers have been given to sockets and to sessions. *)
Definition small ep : Prop :=
  mEntryAllocator (co_sockets (ep_core ep)) < 2 ^ 31 /\ mEntryAllocator (co_sessions (ep_core ep)) < 2 ^ 31.

Lemma loses_takes ep ep' out : loses ep ep' out -> takes ep ep' out.
Proof. intros [G S]. split; [done|]. intros Hf b. specialize (Hf b). pose proof (sk_count _ _ S b). lia. Qed.

Lemma takes_trans ep1 ep2 ep3 (o1 o2 : list EpOut) : takes ep1 ep2 o1 -> takes ep2 ep3 o2 -> takes ep1 ep3 (o1 ++ o2).
Proof. intros [G1 F1] [G2 F2]. split; [by apply (goes_trans _ ep2)|auto]. Qed.

Lemma loses_small ep ep' out : loses ep ep' out -> small ep -> small ep'.
Proof. intros [_ S] [H1 H2]. split; [rewrite (sk_socknum _ _ S)|rewrite (sk_sessnum _ _ S)]; done. Qed.

Definition em_takes {A} (m : EM A) ep : Prop := em_total m ep (fun _ ep' out => takes ep ep' out).

Lemma em_loses_takes {A} (m : EM A) ep : em_loses m ep -> em_takes m ep.
Proof. intros Hm. eapply em_total_mono; [exact Hm|]. intros x ep' out. apply loses_takes. Qed.

Lemma em_takes_ret {A} (x : A) ep : ep_inv ep -> em_takes (mret x) ep.
Proof. intros Hi. by apply em_loses_takes, em_loses_ret. Qed.

Lemma em_takes_get {B} (f : Endpoint -> EM B) ep : em_takes (f ep) ep -> em_takes (em_get ≫= f) ep.
Proof. intros Hf. apply em_total_bind, em_total_get. eapply em_total_mono; [exact Hf|]. done. Qed.

(** First something that takes no session in, then the rest. *)
Lemma em_takes_after {A B} (m : EM A) (f : A -> EM B) ep : em_loses m ep ->
  (forall x ep' out, ep_inv ep' -> (small ep -> small ep') -> m ep = Some (x, ep', out) -> em_takes (f x) ep') -> em_takes (m ≫= f) ep.
Proof.
  intros (x & ep1 & o1 & E1 & L1) Hf. apply em_total_bind. exists x, ep1, o1. split; [done|].
  eapply em_total_mono; [apply (Hf x ep1 o1); [by apply (loses_inv ep _ o1)|by apply (loses_small ep _ o1)|done]|].
  simpl. intros y ep2 o2 G2. apply (takes_trans ep ep1); [by apply loses_takes|done].
Qed.

(** First the rest, then something that takes no session in. *)
Lemma em_takes_before {A B} (m : EM A) (f : A -> EM B) ep : em_takes m ep ->
  (forall x ep', ep_inv ep' -> em_loses (f x) ep') -> em_takes (m ≫= f) ep.
Proof.
  intros (x & ep1 & o1 & E1 & [G1 F1]) Hf. apply em_total_bind. exists x, ep1, o1. split; [done|].
  eapply em_total_mono; [apply (Hf x ep1), (go_inv _ _ _ G1)|]. simpl. intros y ep2 o2 L2.
  apply (takes_trans ep ep1); [done|by apply loses_takes].
Qed.

(** At most one number each has been given to a socket and to a session. *)
Definition grew ep ep' : Prop :=
  mEntryAllocator (co_sockets (ep_core ep')) <= mEntryAllocator (co_sockets (ep_core ep)) + 1 /\
  mEntryAllocator (co_sessions (ep_core ep')) <= mEntryAllocator (co_sessions (ep_core ep)) + 1.

Lemma loses_grew ep ep' out : loses ep ep' out -> grew ep ep'.
Proof. intros [_ S]. split; [rewrite (sk_socknum _ _ S)|rewrite (sk_sessnum _ _ S)]; lia. Qed.

(** What making a connection or binding an address ends in: the socket it returns is there. *)
Definition makes ep (r : option Z) ep' (out : list EpOut) : Prop :=
  takes ep ep' out /\ grew ep ep' /\ forall skid, r = Some skid -> is_Some (co_sock skid (ep_core ep')).
Definition em_makes (m : EM (option Z)) ep : Prop := em_total m ep (makes ep).

Lemma em_makes_takes m ep : em_makes m ep -> em_takes m ep.
Proof. intros Hm. eapply em_total_mono; [exact Hm|]. by intros r ep' out [? _]. Qed.

Lemma em_makes_get (f : Endpoint -> EM (option Z)) ep : em_makes (f ep) ep -> em_makes (em_get ≫= f) ep.
Proof. intros Hf. apply em_total_bind, em_total_get. eapply em_total_mono; [exact Hf|]. done. Qed.

Lemma em_makes_after {B} (m : EM B) (f : B -> EM (option Z)) ep : em_loses m ep ->
  (forall x ep' out, ep_inv ep' -> m ep = Some (x, ep', out) -> em_makes (f x) ep') -> em_makes (m ≫= f) ep.
Proof.
  intros (x & ep1 & o1 & E1 & L1) Hf. apply em_total_bind. exists x, ep1, o1. split; [done|].
  eapply em_total_mono; [apply (Hf x ep1 o1); [by apply (loses_inv ep _ o1)|done]|]. simpl. intros r ep2 o2 (T2 & [G1 G2] & S2).
  split_and!; [apply (takes_trans ep ep1); [by apply loses_takes|done]| |done]. destruct L1 as [_ S]. unfold grew. rewrite <- (sk_socknum _ _ S), <- (sk_sessnum _ _ S). done.
Qed.

Section operations.
Context {E : EpEnv}.

(** [authentication] of the endpoint accepts every session, as the default does. *)
Context (accepts : forall s : EpSess, ev_auth FDB_OBJECT_MAIN s = true).

Lemma find_session_live (f : EpSess -> EpSock -> bool) c p : core_ok c -> find_session f c = Some p -> exists s, co_sess p c = Some s.
Proof.
  intros Hc [Hin _]%find_some. apply list_elem_of_In in Hin. destruct (connected_live c p Hc Hin) as (s & k & Hs & _). eauto.
Qed.

Lemma no_secure_session (b : bool) c : core_ok c ->
  ep_connectedSession_sec (if b then FDB_SEC_SECURE else FDB_SEC_INSECURE) c = None -> connected b c = 0.
Proof.
  intros Hc Hf. unfold connected. destruct (flat_map _ _) as [|p l] eqn:El; [done|]. exfalso.
  assert (In p (flat_map (channel b) (mEntryContainer (co_sockets c)))) as Hin by (rewrite El; by left).
  apply in_flat_map in Hin as ([skid k] & Hk & Hp). apply list_elem_of_In, m_find_In in Hk; [|apply Hc].
  unfold channel in Hp. simpl in Hp. destruct (Bool.eqb (ek_secure k) b) eqn:Eb; [|done]. apply list_elem_of_In in Hp.
  destruct (ck_table _ Hc skid k p Hk Hp) as (s & Hs & Es). unfold ep_connectedSession_sec, find_session in Hf.
  apply (find_none _ _) with (x := p) in Hf; [|apply list_elem_of_In, connected_sessions_In; eauto].
  rewrite Hs, Es in Hf. unfold co_sock, retrieveEntry in Hf. rewrite Hk in Hf. apply eqb_prop in Eb. rewrite Eb in Hf. by destruct b.
Qed.

Lemma core_socket_number k n c : core_ok c -> n = mEntryAllocator (co_sockets c) -> mEntryAllocator (co_sockets (core_socket k n c)) <= mEntryAllocator (co_sockets c) + 1.
Proof.
  intros Hc ->. pose proof (ck_socknum _ Hc). unfold core_socket, insertEntry. cbn.
  assert (u32 (mEntryAllocator (co_sockets c) + 1) = mEntryAllocator (co_sockets c) + 1) as -> by (apply wrap_u_small; unfold in_u; lia). case_match; cbn; lia.
Qed.

(** A new socket. *)
Lemma newSocket_loses k ep : ep_inv ep -> mEntryAllocator (co_sockets (ep_core ep)) < 2 ^ 31 ->
  ek_table k = [] -> ek_skid k = mEntryAllocator (co_sockets (ep_core ep)) ->
  goes ep (ep_set_core (core_socket k (ek_skid k) (ep_core ep)) ep) [] /\
  co_sock (ek_skid k) (core_socket k (ek_skid k) (ep_core ep)) = Some k /\
  (forall b, connected b (core_socket k (ek_skid k) (ep_core ep)) = connected b (ep_core ep)).
Proof.
  intros Hi Hb Et Es. pose proof (ei_core _ Hi) as Hc. destruct (core_ok_socket k (ep_core ep) Hc Et Es Hb) as [Hc' Hk'].
  split_and!; [by apply goes_core|done|]. intros [];
    [rewrite <- (ck_secure _ Hc'), <- (ck_secure _ Hc)|rewrite <- (ck_insecure _ Hc'), <- (ck_insecure _ Hc)]; done.
Qed.

Lemma offer_udp_port_loses skt p port s ep : ep_inv ep -> co_sess p (ep_core ep) = Some s ->
  em_total (offer_udp_port skt p port) ep (fun skid ep' out => loses ep ep' out /\ is_Some (co_sock skid (ep_core ep'))).
Proof.
  intros Hi Hp. destruct (live_sock p s ep Hi Hp) as [k Hk].
  apply em_total_bind, (em_total_sess _ s); [done|]. apply em_total_bind, (em_total_sock _ k); [done|].
  destruct (_ && _); [|apply em_total_ret; split; [by apply loses_refl|by exists k]].
  apply em_total_bind, em_total_core. pose proof (udp_only_put _ k (ek_udp k) port _ (ei_core _ Hi) Hk) as Hu.
  set (ep1 := ep_set_core _ ep). assert (loses ep ep1 []) as L1 by (split; [by apply goes_udp|apply Hu]).
  pose proof (loses_inv ep _ [] L1) as Hi1. destruct (updateSessionInfo_total p s ep1) as (c2 & o2 & E2 & Hu2 & N2); [apply Hi1|done|].
  apply em_total_bind. exists tt, (ep_set_core c2 ep1), o2. split; [done|]. apply em_total_ret. rewrite app_nil_r, !app_nil_l. split.
  - apply (loses_trans ep ep1 _ [] o2); [done|]. split; [by apply goes_udp|apply Hu2].
  - destruct (uo_sock _ _ Hu _ _ Hk) as (u & pt & Hk1). destruct (uo_sock _ _ Hu2 _ _ Hk1) as (u2 & pt2 & Hk2). by eexists.
Qed.

Lemma connectReady_total {A} (x : A) status ep : ep_inv ep ->
  em_total (_ ← notifyConnectReady status; mret x) ep (fun y ep' out => y = x /\ loses ep ep' out /\ ep_core ep' = ep_core ep).
Proof.
  intros Hi. destruct (notifyConnectReady_loses status ep Hi) as ([] & ep' & out & E1 & L1). apply em_total_bind. exists tt, ep', out. split; [done|].
  apply em_total_ret. rewrite app_nil_r. split_and!; [done|done|]. injection E1 as <- _. done.
Qed.

Lemma connectReady_makes r status ep : ep_inv ep -> (forall skid, r = Some skid -> is_Some (co_sock skid (ep_core ep))) ->
  em_makes (_ ← notifyConnectReady status; mret r) ep.
Proof.
  intros Hi Hr. eapply em_total_mono; [by apply connectReady_total|]. intros y ep' out (-> & L & Ec).
  split_and!; [by apply loses_takes|by apply (loses_grew _ _ out)|by rewrite Ec].
Qed.

Lemma connectReady_takes {A} (x : A) status ep : ep_inv ep -> em_takes (_ ← notifyConnectReady status; mret x) ep.
Proof.
  intros Hi. apply em_loses_takes, em_loses_then; [by apply notifyConnectReady_loses|]. intros [] ep' Hi'. by apply em_loses_ret.
Qed.

(** A connection that succeeded, on a socket without sessions. *)
Lemma connected_takes k s reconnect ep0 ep : takes ep0 ep [] -> ep_inv ep -> co_sock (ek_skid k) (ep_core ep) = Some k ->
  mEntryAllocator (co_sessions (ep_core ep)) < 2 ^ 31 -> connected (ek_secure k) (ep_core ep) = 0 ->
  em_total (
    p ← em_new (newSession (ek_skid k) (ek_secure k) s);
    _ ← client_updateSecurityLevel p;
    ok ← addConnectedSession (ek_skid k) p;
    if (ok : bool) then _ ← em_mod (ep_activateReconnect true); _ ← notifyConnectReady CONNECTED; mret (Some (ek_skid k))
    else _ ← deleteSession reconnect p; _ ← deleteSocket (ek_skid k); _ ← notifyConnectReady FAILURE; mret None) ep
    (fun r ep' out => takes ep0 ep' out /\ (mEntryAllocator (co_sockets (ep_core ep')) = mEntryAllocator (co_sockets (ep_core ep)) /\
       mEntryAllocator (co_sessions (ep_core ep')) <= mEntryAllocator (co_sessions (ep_core ep)) + 1) /\ forall skid, r = Some skid -> is_Some (co_sock skid (ep_core ep'))).
Proof.
  intros T0 Hi Hk Hb H0. set (s1 := newSession _ _ s).
  apply em_total_bind. eexists _, _, []. split; [done|]. cbn [fst snd].
  apply em_total_bind. apply em_total_bind, em_total_get.
  assert (em_total (em_when (negb (bool_decide (ep_mTokens (ep_set_core (co_new s1 (ep_core ep)).2 ep) = [])))
            (em_out [OutAuth (co_next (ep_core ep)) (ep_mTokens (ep_set_core (co_new s1 (ep_core ep)).2 ep))]))
            (ep_set_core (co_new s1 (ep_core ep)).2 ep)
            (fun _ ep' out => ep' = ep_set_core (co_new s1 (ep_core ep)).2 ep /\ notes out = [])) as Ht.
  { case_bool_decide; [by apply em_total_ret|by apply em_total_out]. }
  eapply em_total_mono; [exact Ht|]. intros [] ep1 o1 [-> N1]. apply em_total_bind.
  eapply em_total_mono; [apply (addConnectedSession_total (ek_skid k) k s1 ep); done|].
  intros ok ep2 o2 (-> & G2 & C2 & N2 & N2' & k2 & K2 & _). pose proof (go_inv _ _ _ G2) as Hi2.
  apply em_total_bind, em_total_mod. assert (loses ep2 (ep_activateReconnect true ep2) []) as L3 by (by apply loses_rest).
  eapply em_total_mono; [apply (connectReady_total (Some (ek_skid k)) CONNECTED), (loses_inv _ _ _ L3)|].
  intros x ep4 o4 (-> & L4 & Ec4). pose proof (loses_takes _ _ _ L4) as T4. rewrite !app_nil_l, (app_assoc o1 o2).
  split; [|by rewrite Ec4; split; [|intros skid [= <-]; exists k2]]. apply (takes_trans ep0 ep ep4 []); [done|].
  apply (takes_trans ep ep2 ep4 (o1 ++ o2)).
  - split; [apply (goes_trans ep ep ep2); [by apply goes_quiet|done]|]. intros Hf b. specialize (C2 b). specialize (Hf b).
    destruct (Bool.eqb (ek_secure k) b) eqn:Eb; [apply eqb_prop in Eb; subst b|]; lia.
  - apply (takes_trans ep2 (ep_activateReconnect true ep2) ep4 []); [by apply loses_takes|done].
Qed.

(** [connectAddress] of a client which has no such connection, up to the attempt to connect. *)
Lemma connectAddress_new reconnect addr host port ep : ep_inv ep -> small ep ->
  ep_connectedSession_sec (if sa_mSecure addr then FDB_SEC_SECURE else FDB_SEC_INSECURE) (ep_core ep) = None ->
  em_makes (
      skid ← allocate_skid;
      _ ← addSocket (mkEpSock skid addr (sa_mSecure addr) true None port (Some (default EmptyString host)) []);
      r ← net_connect;
      match r with
      | None => _ ← deleteSocket skid; _ ← notifyConnectReady FAILURE; mret None
      | Some s =>
          p ← em_new (newSession skid (sa_mSecure addr) s);
          _ ← client_updateSecurityLevel p;
          ok ← addConnectedSession skid p;
          if (ok : bool) then _ ← em_mod (ep_activateReconnect true); _ ← notifyConnectReady CONNECTED; mret (Some skid)
          else _ ← deleteSession reconnect p; _ ← deleteSocket skid; _ ← notifyConnectReady FAILURE; mret None
      end) ep.
Proof.
  intros Hi [Hb1 Hb2] Hno. set (n := mEntryAllocator (co_sockets (ep_core ep))).
  set (k := mkEpSock n addr (sa_mSecure addr) true None port (Some (default EmptyString host)) []).
  destruct (newSocket_loses k ep Hi Hb1 eq_refl eq_refl) as (G1 & Hk1 & Hcn). set (ep1 := ep_set_core _ ep) in G1.
  pose proof (no_secure_session _ _ (ei_core _ Hi) Hno) as H0. cbn [ek_skid k] in Hk1, Hcn, G1.
  apply em_total_bind. eexists n, _, []. split; [done|]. apply em_total_bind, em_total_core.
  match goal with |- em_total _ ?st _ => change st with ep1 end.
  assert (takes ep ep1 []) as T1.
  { split; [done|]. intros Hf b. cbn [ep_core ep1 ep_set_core]. rewrite Hcn. apply Hf. }
  assert (mEntryAllocator (co_sockets (ep_core ep1)) <= mEntryAllocator (co_sockets (ep_core ep)) + 1) as Hgr by (apply core_socket_number; [apply Hi|done]).
  apply em_total_bind. assert (exists r ep2, net_connect ep1 = Some (r, ep2, []) /\ loses ep1 ep2 [] /\ ep_core ep2 = ep_core ep1) as (r & ep2 & En & L2 & Ec2).
  { unfold net_connect. destruct (ep_net ep1) as [|r net]; eexists _, _; (split; [done|]); (split; [|done]); apply loses_rest; try done; apply G1. }
  exists r, ep2, []. split; [done|]. pose proof (loses_inv _ _ _ L2) as Hi2.
  assert (takes ep ep2 []) as T2 by (apply (takes_trans ep ep1 _ [] []); [done|by apply loses_takes]).
  destruct r as [s|].
  - eapply em_total_mono; [apply (connected_takes k s reconnect ep ep2); cbn [ek_skid ek_secure k]; [done|done|by rewrite Ec2| |]|].
    + rewrite Ec2. cbn [ep1 ep_core ep_set_core]. unfold core_socket. done.
    + rewrite Ec2. cbn [ep1 ep_core ep_set_core]. rewrite Hcn. done.
    + intros r' ep3 o3 (T3 & [N3 N3'] & S3). rewrite !app_nil_l. split_and!; [done| |done]. rewrite Ec2 in N3, N3'. split; [rewrite N3; exact Hgr|done].
  - destruct (deleteSocket_loses n ep2 Hi2) as ([] & ep3 & o3 & E3 & L3). apply em_total_bind. exists tt, ep3, o3. split; [exact E3|].
    eapply em_total_mono; [apply connectReady_total, (loses_inv _ _ _ L3)|]. intros x ep4 o4 (-> & L4 & _). rewrite !app_nil_l.
    pose proof (loses_trans _ _ _ _ _ L3 L4) as L5. split_and!; [|destruct L5 as [_ S5]|done].
    + apply (takes_trans ep ep2 _ []); [done|by apply loses_takes].
    + unfold grew. rewrite (sk_socknum _ _ S5), (sk_sessnum _ _ S5), Ec2. split; [exact Hgr|cbn; lia].
Qed.

Lemma none_makes {A} (m : EM A) ep : em_loses m ep -> em_makes (_ ← m; mret None) ep.
Proof.
  intros (x & ep1 & o1 & E1 & L1). apply em_total_bind. exists x, ep1, o1. split; [done|]. apply em_total_ret. rewrite app_nil_r.
  split_and!; [by apply loses_takes|by apply (loses_grew _ _ o1)|done].
Qed.

Lemma doConnect_makes n url host port ep : ep_inv ep -> small ep -> em_makes (doConnect (S n) url host port) ep.
Proof.
  intros Hi Hs. cbn [doConnect]. destruct (url_target url) as [[[[skt addr] name] id]|]; [|by apply connectReady_makes].
  case_bool_decide; [by apply none_makes, requestServiceAddress_loses|].
  unfold connectAddress. destruct (secure_denied addr); [by apply connectReady_makes|]. apply em_makes_get.
  destruct (match ep_connectedSession _ _ with Some p => _ | None => _ end) as [p|] eqn:Ef.
  - assert (exists s, co_sess p (ep_core ep) = Some s) as [s Hp].
    { destruct (ep_connectedSession addr (ep_core ep)) eqn:E1; simplify_eq; [|]; eapply find_session_live; eauto; apply Hi. }
    destruct (offer_udp_port_loses skt p port s ep Hi Hp) as (skid & ep1 & o1 & E1 & L1 & K1). apply em_makes_after; [by exists skid, ep1, o1|].
    intros skid' ep' out Hi' E'. rewrite E1 in E'. simplify_eq. apply connectReady_makes; [done|]. by intros ? [= <-].
  - destruct (ep_connectedSession addr (ep_core ep)); [done|]. destruct (negb (createSocket_ok addr)); [by apply connectReady_makes|].
    by apply connectAddress_new.
Qed.

Lemma doConnect_takes n url host port ep : ep_inv ep -> small ep -> em_takes (doConnect (S n) url host port) ep.
Proof. intros. by apply em_makes_takes, doConnect_makes. Qed.

(** *** What an attempt to connect does *)

(** The operation asks nothing of the network. *)
Definition em_keeps {A} (m : EM A) : Prop := forall ep x ep' out, m ep = Some (x, ep', out) -> ep_net ep' = ep_net ep.

Lemma em_keeps_ret {A} (x : A) : em_keeps (mret x).
Proof. by intros ep y ep' out [= _ <- _]. Qed.
Lemma em_keeps_get : em_keeps em_get.
Proof. by intros ep y ep' out [= _ <- _]. Qed.
Lemma em_keeps_mod f : (forall ep, ep_net (f ep) = ep_net ep) -> em_keeps (em_mod f).
Proof. intros Hf ep y ep' out [= <- <-]. apply Hf. Qed.
Lemma em_keeps_core f : em_keeps (em_core f).
Proof. by apply em_keeps_mod. Qed.
Lemma em_keeps_out l : em_keeps (em_out l).
Proof. by intros ep y ep' out [= <- <-]. Qed.
Lemma em_keeps_sess p : em_keeps (em_sess p).
Proof. intros ep y ep' out. unfold em_sess. destruct (co_sess p (ep_core ep)); [|done]. by intros [= _ <- _]. Qed.
Lemma em_keeps_sock skid : em_keeps (em_sock skid).
Proof. intros ep y ep' out. unfold em_sock. destruct (co_sock skid (ep_core ep)); [|done]. by intros [= _ <- _]. Qed.
Lemma em_keeps_bind {A B} (m : EM A) (f : A -> EM B) : em_keeps m -> (forall x, em_keeps (f x)) -> em_keeps (m ≫= f).
Proof.
  intros Hm Hf ep y ep' out. unfold mbind, EM_bind. destruct (m ep) as [[[x ep1] o1]|] eqn:E1; [|done].
  destruct (f x ep1) as [[[z ep2] o2]|] eqn:E2; [|done]. intros [= _ <- _]. rewrite (Hf x _ _ _ _ E2). apply (Hm _ _ _ _ E1).
Qed.
Lemma em_keeps_self f : em_keeps (em_self f).
Proof. intros ep y ep' out. unfold em_self. destruct (f _ _) as [[o o1]|]; [|done]. by intros [= <- <-]. Qed.
Lemma em_keeps_objects f : em_keeps (em_objects f).
Proof. intros ep y ep' out. unfold em_objects. destruct (objs_each _ _) as [[o o1]|]; [|done]. by intros [= <- <-]. Qed.
Create HintDb em_net.
#[local] Hint Resolve em_keeps_ret em_keeps_get em_keeps_core em_keeps_out em_keeps_sess em_keeps_sock em_keeps_self em_keeps_objects : em_net.
Ltac keeps_net := repeat first [solve [auto with em_net] | apply em_keeps_bind; [|intros] | progress cbv zeta | case_match | apply em_keeps_mod; done].

Lemma updateSessionInfo_keeps p : em_keeps (updateSessionInfo p).
Proof. unfold updateSessionInfo. keeps_net. Qed.
#[local] Hint Resolve updateSessionInfo_keeps : em_net.
Lemma addConnectedSession_keeps skid p : em_keeps (addConnectedSession skid p).
Proof. unfold addConnectedSession, registerSession. keeps_net. Qed.
Lemma offer_udp_port_keeps skt p port : em_keeps (offer_udp_port skt p port).
Proof. unfold offer_udp_port. keeps_net. Qed.
Lemma requestServiceAddress_keeps name id : em_keeps (requestServiceAddress name id).
Proof. unfold requestServiceAddress. keeps_net. Qed.

(** The connections there are, and what the network has in store. *)
Record same_links ep ep' : Prop := {
  sl_connected : forall b, connected b (ep_core ep') = connected b (ep_core ep);
  sl_net : ep_net ep' = ep_net ep }.

(** The address a client can connect to. *)
Definition usable_addr (url : option string) : option CFdbSocketAddr :=
  match url_target url with
  | Some (skt_type, addr, _, _) =>
      if bool_decide (skt_type = FDB_SOCKET_SVC) || secure_denied addr || negb (createSocket_ok addr) then None else Some addr
  | None => None
  end.

(** A connection to the address, or another one as secure. *)
Definition linked (addr : CFdbSocketAddr) ep : bool :=
  bool_decide (is_Some (ep_connectedSession addr (ep_core ep))) || (0 <? connected (sa_mSecure addr) (ep_core ep)).

(** An attempt to connect to a URL: unless the client is linked already, the network is asked,
    and when it answers there is one connection more, of the security of the address and with
    the name of the host. *)
Definition attempt (host : string) (url : option string) ep ep' : Prop :=
  match usable_addr url with
  | None => same_links ep ep'
  | Some addr =>
      if linked addr ep then same_links ep ep' else
      ep_net ep' = tail (ep_net ep) /\
      match head (ep_net ep) with
      | Some (Some s) =>
          (forall b, connected b (ep_core ep') = connected b (ep_core ep) + if Bool.eqb (sa_mSecure addr) b then 1 else 0) /\
          exists skid k, co_sock skid (ep_core ep') = Some k /\ ek_host k = Some host
      | _ => forall b, connected b (ep_core ep') = connected b (ep_core ep)
      end
  end.

Lemma some_secure_session (b : bool) c p : core_ok c ->
  ep_connectedSession_sec (if b then FDB_SEC_SECURE else FDB_SEC_INSECURE) c = Some p -> 0 < connected b c.
Proof.
  intros Hc Hf. unfold ep_connectedSession_sec, find_session in Hf. apply find_some in Hf as [Hin Hf]. apply list_elem_of_In in Hin.
  apply connected_sessions_In in Hin as (skid & k & Hk & Hp); [|done]. destruct (ck_table _ Hc skid k p Hk Hp) as (s & Hs & Es).
  rewrite Hs, Es, Hk in Hf. unfold connected. destruct (flat_map _ _) as [|q l] eqn:El; [|cbn; lia]. exfalso.
  assert (In p (flat_map (channel b) (mEntryContainer (co_sockets c)))) as H0; [|by rewrite El in H0].
  apply in_flat_map. exists (skid, k). split; [apply list_elem_of_In, m_find_In; [apply Hc|exact Hk]|].
  unfold channel. simpl. destruct (ek_secure k), b; cbn in Hf |- *; try done; by apply list_elem_of_In.
Qed.

(** A socket without sessions goes. *)
Lemma deleteSessions_none skid ep : ep_inv ep -> (forall p s, co_sess p (ep_core ep) = Some s -> es_skid s <> skid) -> deleteSessions skid ep = Some (tt, ep, []).
Proof.
  intros Hi Hn. unfold deleteSessions, mbind at 1, EM_bind, em_get.
  assert (forall e, e ∈ mEntryContainer (co_sessions (ep_core ep)) -> sess_of e.1 (ep_core ep) = Some e.2) as Hl.
  { intros [sid p] He. apply m_find_In; [apply Hi|done]. }
  induction (mEntryContainer (co_sessions (ep_core ep))) as [|[sid p] l IH]; [done|]. cbn [em_each].
  destruct (ck_reg _ (ei_core _ Hi) sid p (Hl (sid, p) (list_elem_of_here _ _))) as (s & Hs & _).
  unfold mbind, EM_bind, em_sess. cbn [snd]. rewrite Hs. cbn [fmap option_fmap option_map]. rewrite (proj2 (Z.eqb_neq _ _)) by (by apply (Hn p)).
  cbn [mret EM_ret]. assert (forall e, e ∈ l -> sess_of e.1 (ep_core ep) = Some e.2) as Hl' by (intros e He; apply Hl; by right).
  specialize (IH Hl'). unfold mbind, EM_bind, em_sess in IH. cbn in IH |- *. by destruct (em_each _ l ep) as [[[? ?] ?]|].
Qed.

Lemma deleteSocket_empty skid k ep : ep_inv ep -> fdbValidFdbId skid = true -> co_sock skid (ep_core ep) = Some k -> ek_table k = [] ->
  exists c' out, deleteSocket skid ep = Some (tt, ep_set_core c' ep, out) /\ forall b, connected b c' = connected b (ep_core ep).
Proof.
  intros Hi Hv Hk Ht. unfold deleteSocket, mbind at 1, EM_bind, em_get. rewrite Hv, Hk.
  set (k1 := match ek_host k with Some _ => ek_set_hook false k | None => k end).
  set (c1 := match ek_host k with Some _ => co_put_sock skid k1 (ep_core ep) | None => ep_core ep end).
  assert (core_ok c1) as Hc1 by (subst c1 k1; destruct (ek_host k); [by apply (core_ok_sock _ k); [apply Hi|..]|apply Hi]).
  assert (co_sock skid c1 = Some k1) as Hk1 by (subst c1 k1; destruct (ek_host k); [apply m_find_set|done]).
  assert (ek_table k1 = []) as Ht1 by (subst k1; by destruct (ek_host k)).
  assert (forall b, connected b c1 = connected b (ep_core ep)) as Hcn.
  { intros b. subst c1 k1. destruct (ek_host k); [|done]. rewrite (connected_put b skid k) by done. unfold channel. cbn. lia. }
  assert (ep_inv (ep_set_core c1 ep)) as Hi1.
  { apply inv_core; [done|done|]. intros q Hq. subst c1. by destruct (ek_host k). }
  assert (forall p s, co_sess p c1 = Some s -> es_skid s <> skid) as Hn.
  { intros p s Hp <-. destruct (ck_live _ Hc1 p s Hp) as [_ (k0 & Hk0 & Hin)]. rewrite Hk1 in Hk0. simplify_eq. rewrite Ht1 in Hin. by apply not_elem_of_nil in Hin. }
  exists (co_set_sockets (deleteEntry skid (co_sockets c1)) c1). eexists. split.
  - unfold deleteContainer, mbind, EM_bind, em_sock. rewrite Hk. cbn [fmap option_fmap option_map].
    pose proof (deleteSessions_none skid (ep_set_core c1 ep) Hi1 Hn) as Hd.
    assert (em_when (match ek_host k with Some _ => true | None => false end) (em_core (co_put_sock skid (ek_set_hook false k))) ep = Some (tt, ep_set_core c1 ep, [])) as ->.
    { subst c1 k1. destruct (ek_host k); cbn; [done|by destruct ep]. }
    rewrite Hd. reflexivity.
  - intros b. rewrite <- Hcn. unfold connected. cbn. pose proof (m_erase_expand (channel b) skid k1 _ Hk1) as He.
    assert (length (channel b (skid, k1)) = 0%nat) as Hl by (unfold channel; cbn; rewrite Ht1; by case_match). lia.
Qed.

Lemma ready_keeps {A} status (x : A) ep : exists out, (_ ← notifyConnectReady status; mret x) ep = Some (x, ep_set_jobs [] ep, out).
Proof. by eexists. Qed.

Lemma ready_attempts status (x : option Z) ep (Q : Endpoint -> Prop) : Q (ep_set_jobs [] ep) ->
  em_total (_ ← notifyConnectReady status; mret x) ep (fun _ ep' _ => Q ep').
Proof. intros HQ. by eexists _, _, _. Qed.

Lemma requestServiceAddress_core name id ep ok ep' out : requestServiceAddress name id ep = Some (ok, ep', out) -> ep_core ep' = ep_core ep.
Proof.
  unfold requestServiceAddress, mbind, EM_bind, em_get, em_mod, em_out, mret, EM_ret.
  assert (ep_core (match name with Some n => ep_set_name n id ep | None => ep end) = ep_core ep) as Hn by (by destruct name).
  cbv zeta. repeat case_match; intros; simplify_eq/=; done.
Qed.

Lemma offer_udp_port_links skt p port s ep : ep_inv ep -> co_sess p (ep_core ep) = Some s ->
  em_total (offer_udp_port skt p port) ep (fun _ ep' _ => forall b, connected b (ep_core ep') = connected b (ep_core ep)).
Proof.
  intros Hi Hp. destruct (live_sock p s ep Hi Hp) as [k Hk].
  apply em_total_bind, (em_total_sess _ s); [done|]. apply em_total_bind, (em_total_sock _ k); [done|].
  destruct (_ && _); [|by apply em_total_ret].
  apply em_total_bind, em_total_core. pose proof (udp_only_put _ k (ek_udp k) port _ (ei_core _ Hi) Hk) as Hu.
  set (ep1 := ep_set_core _ ep).
  destruct (updateSessionInfo_total p s ep1) as (c2 & o2 & E2 & Hu2 & N2); [apply Hu|done|].
  apply em_total_bind. exists tt, (ep_set_core c2 ep1), o2. split; [done|]. apply em_total_ret. intros b.
  cbn [ep_core ep_set_core]. rewrite (udp_only_connected _ _ b (uo_ok _ _ Hu) Hu2). apply (udp_only_connected _ _ b (ei_core _ Hi) Hu).
Qed.

(** The attempt, when the network is asked. *)
Lemma connect_asks reconnect addr host port ep : ep_inv ep -> small ep -> connected (sa_mSecure addr) (ep_core ep) = 0 ->
  em_total (
      skid ← allocate_skid;
      _ ← addSocket (mkEpSock skid addr (sa_mSecure addr) true None port (Some host) []);
      r ← net_connect;
      match r with
      | None => _ ← deleteSocket skid; _ ← notifyConnectReady FAILURE; mret None
      | Some s =>
          p ← em_new (newSession skid (sa_mSecure addr) s);
          _ ← client_updateSecurityLevel p;
          ok ← addConnectedSession skid p;
          if (ok : bool) then _ ← em_mod (ep_activateReconnect true); _ ← notifyConnectReady CONNECTED; mret (Some skid)
          else _ ← deleteSession reconnect p; _ ← deleteSocket skid; _ ← notifyConnectReady FAILURE; mret None
      end) ep (fun _ ep' _ => ep_net ep' = tail (ep_net ep) /\
        match head (ep_net ep) with
        | Some (Some s) =>
            (forall b, connected b (ep_core ep') = connected b (ep_core ep) + if Bool.eqb (sa_mSecure addr) b then 1 else 0) /\
            exists skid k, co_sock skid (ep_core ep') = Some k /\ ek_host k = Some host
        | _ => forall b, connected b (ep_core ep') = connected b (ep_core ep)
        end).
Proof.
  intros Hi [Hb1 Hb2] H0. set (n := mEntryAllocator (co_sockets (ep_core ep))).
  set (k := mkEpSock n addr (sa_mSecure addr) true None port (Some host) []).
  destruct (newSocket_loses k ep Hi Hb1 eq_refl eq_refl) as (G1 & Hk1 & Hcn). set (ep1 := ep_set_core _ ep) in G1.
  cbn [ek_skid k] in Hk1, Hcn, G1.
  apply em_total_bind. eexists n, _, []. split; [done|]. apply em_total_bind, em_total_core.
  match goal with |- em_total _ ?st _ => change st with ep1 end. pose proof (go_inv _ _ _ G1) as Hi1.
  apply em_total_bind. unfold net_connect. change (ep_net ep1) with (ep_net ep).
  assert (forall net b, connected b (ep_core (ep_set_net net ep1)) = connected b (ep_core ep)) as Hcn2 by done.
  assert (forall net, ep_inv (ep_set_net net ep1)) as Hi2.
  { intros net. apply (loses_inv ep1 _ []), loses_rest; done. }
  destruct (ep_net ep) as [|[s|] net] eqn:En.
  - eexists None, ep1, []. split; [cbv beta; change (ep_net ep1) with (ep_net ep); by rewrite En|].
    assert (fdbValidFdbId n = true) as Hv.
    { unfold fdbValidFdbId. destruct (Z.eqb_spec n FDB_INVALID_ID) as [E1|]; [|done]. pose proof (ck_socknum _ (ei_core _ Hi)). unfold FDB_INVALID_ID in E1. subst n. lia. }
    destruct (deleteSocket_empty n k ep1 Hi1 Hv Hk1 eq_refl) as (c' & out & Ed & Hc'). apply em_total_bind. exists tt, (ep_set_core c' ep1), out. split; [exact Ed|].
    apply ready_attempts. cbn [head tail]. split; [exact En|]. intros b. rewrite <- Hcn. apply Hc'.
  - eexists (Some s), (ep_set_net net ep1), []. split; [cbv beta; change (ep_net ep1) with (ep_net ep); by rewrite En|]. set (ep2 := ep_set_net net ep1).
    set (s1 := newSession n (sa_mSecure addr) s). apply em_total_bind. eexists _, _, []. split; [done|]. cbn [fst snd].
    apply em_total_bind. apply em_total_bind, em_total_get.
    assert (em_total (em_when (negb (bool_decide (ep_mTokens (ep_set_core (co_new s1 (ep_core ep2)).2 ep2) = [])))
              (em_out [OutAuth (co_next (ep_core ep2)) (ep_mTokens (ep_set_core (co_new s1 (ep_core ep2)).2 ep2))]))
              (ep_set_core (co_new s1 (ep_core ep2)).2 ep2) (fun _ ep' out => ep' = ep_set_core (co_new s1 (ep_core ep2)).2 ep2)) as Ht.
    { case_bool_decide; [by apply em_total_ret|by apply em_total_out]. }
    eapply em_total_mono; [exact Ht|]. intros [] ep3 o3 ->. apply em_total_bind.
    destruct (addConnectedSession_total n k s1 ep2 (Hi2 net) Hk1 eq_refl Hb2 (accepts s1)) as (ok & ep4 & o4 & Ea & -> & _ & C4 & _ & _ & k4 & K4 & Hh).
    pose proof (addConnectedSession_keeps _ _ _ _ _ _ Ea) as N4. exists true, ep4, o4. split; [exact Ea|].
    apply em_total_bind, em_total_mod. apply ready_attempts. cbn [head tail]. split; [exact N4|]. split; [|by exists n, k4].
    intros b. rewrite <- (Hcn2 net b). apply C4.
  - eexists None, (ep_set_net net ep1), []. split; [cbv beta; change (ep_net ep1) with (ep_net ep); by rewrite En|].
    assert (fdbValidFdbId n = true) as Hv.
    { unfold fdbValidFdbId. destruct (Z.eqb_spec n FDB_INVALID_ID) as [E1|]; [|done]. pose proof (ck_socknum _ (ei_core _ Hi)). unfold FDB_INVALID_ID in E1. subst n. lia. }
    destruct (deleteSocket_empty n k (ep_set_net net ep1) (Hi2 net) Hv Hk1 eq_refl) as (c' & out & Ed & Hc'). apply em_total_bind. exists tt, (ep_set_core c' (ep_set_net net ep1)), out. split; [exact Ed|].
    apply ready_attempts. cbn [head tail]. split; [done|]. intros b. rewrite <- (Hcn2 net b). apply Hc'.
Qed.

Lemma doConnect_attempts n url host port ep : ep_inv ep -> small ep ->
  em_total (doConnect (S n) url (Some host) port) ep (fun _ ep' _ => attempt host url ep ep').
Proof.
  intros Hi Hs. pose proof (ei_core _ Hi) as Hc. cbn [doConnect]. unfold attempt, usable_addr.
  destruct (url_target url) as [[[[skt addr] name] id]|] eqn:Eu; [|by apply ready_attempts].
  case_bool_decide as Esvc; cbn [orb].
  { destruct (requestServiceAddress_loses name id ep Hi) as (ok & ep1 & o1 & E1 & _). apply em_total_bind. exists ok, ep1, o1. split; [done|].
    apply em_total_ret. split; [|by apply (requestServiceAddress_keeps _ _ _ _ _ _ E1)]. intros b.
    by rewrite (requestServiceAddress_core _ _ _ _ _ _ E1). }
  unfold connectAddress. destruct (secure_denied addr) eqn:Ed; [by apply ready_attempts|]. cbn [orb].
  apply em_total_bind, em_total_get.
  destruct (match ep_connectedSession addr (ep_core ep) with Some p => Some p | None => _ end) as [p|] eqn:Ef.
  - assert (exists s, co_sess p (ep_core ep) = Some s) as [s Hp].
    { destruct (ep_connectedSession addr (ep_core ep)) eqn:E1; simplify_eq; eapply find_session_live; eauto. }
    assert (linked addr ep = true) as Hl.
    { unfold linked. destruct (ep_connectedSession addr (ep_core ep)) eqn:E1; [by rewrite bool_decide_true by eauto|].
      apply orb_true_iff. right. apply Z.ltb_lt. by apply (some_secure_session _ _ p). }
    assert (em_total (skid ← offer_udp_port skt p port; _ ← notifyConnectReady CONNECTED; mret (Some skid)) ep (fun _ ep' _ => same_links ep ep')) as Hq.
    { destruct (offer_udp_port_links skt p port s ep Hi Hp) as (skid & ep1 & o1 & E1 & C1). apply em_total_bind. exists skid, ep1, o1. split; [done|].
      apply ready_attempts. split; [exact C1|by apply (offer_udp_port_keeps _ _ _ _ _ _ _ E1)]. }
    eapply em_total_mono; [exact Hq|]. intros x ep' out Hq'. cbn. destruct (negb (createSocket_ok addr)); [done|]. by rewrite Hl.
  - destruct (ep_connectedSession addr (ep_core ep)) eqn:E1; [done|]. destruct (negb (createSocket_ok addr)) eqn:Ec; [by apply ready_attempts|].
    pose proof (no_secure_session _ _ Hc Ef) as H0.
    eapply em_total_mono; [by apply connect_asks|]. intros x ep' out Hq. cbn beta in Hq |- *.
    assert (linked addr ep = false) as ->; [|exact Hq]. unfold linked. rewrite E1, H0. by rewrite bool_decide_false by (by intros []).
Qed.

(** *** Losing sessions *)

Lemma em_takes_from {A} ep0 ep out0 (m : EM A) : takes ep0 ep out0 -> em_takes m ep ->
  em_total m ep (fun _ ep' out => takes ep0 ep' (out0 ++ out)).
Proof. intros T0 Hm. eapply em_total_mono; [exact Hm|]. simpl. intros x ep' out T. by apply (takes_trans ep0 ep). Qed.

Lemma destroySession_loses p s ep : ep_inv ep -> co_sess p (ep_core ep) = Some s ->
  em_total (destroySession p) ep (fun skid ep' out => skid = es_skid s /\ loses ep ep' out /\ is_Some (co_sock skid (ep_core ep'))).
Proof.
  intros Hi Hp. destruct (live_sock p s ep Hi Hp) as [k Hk].
  destruct (core_del_shrunk p s k _ (ei_core _ Hi) Hp Hk) as (S1 & _ & S3 & _).
  eapply em_total_mono; [by apply (destroySession_total p s k)|]. intros skid ep' out (-> & Ec & G). rewrite Ec.
  split_and!; [done|split; [done|by rewrite Ec]|by apply S3].
Qed.

Lemma lose_session_takes p s ep : ep_inv ep -> small ep -> co_sess p (ep_core ep) = Some s -> em_takes (lose_session p) ep.
Proof.
  intros Hi Hs Hp. apply em_total_bind. eapply em_total_mono; [by apply (destroySession_loses p s)|].
  intros skid ep1 o1 (-> & L1 & [k Hk]). pose proof (loses_inv _ _ _ L1) as Hi1.
  apply (em_takes_from ep ep1 o1); [by apply loses_takes|].
  apply em_total_bind, (em_total_sock _ k); [done|].
  destruct (ek_hook k), (ek_host k); try by apply em_takes_ret.
  apply em_takes_get, em_takes_after.
  { eapply em_total_mono; [by apply (deleteContainer_total _ k)|]. intros [] ep' out (G & S & _). by split. }
  intros [] ep2 o2 Hi2 Hs2 _. destruct (negb _); [by apply em_takes_ret|].
  apply em_takes_after; [by apply requestServiceAddress_loses|]. intros ok ep3 o3 Hi3 Hs3 _. destruct ok; [by apply em_takes_ret|].
  apply em_takes_before; [|intros x ep4 Hi4; by apply em_loses_ret].
  apply em_takes_get, doConnect_takes; [done|]. by apply Hs3, Hs2, (loses_small ep _ o1).
Qed.

Lemma getSession_live sid p ep : ep_inv ep -> getSession sid ep = Some p -> exists s, co_sess p (ep_core ep) = Some s.
Proof. intros Hi Hg. destruct (ck_reg _ (ei_core _ Hi) sid p Hg) as (s & Hs & _). eauto. Qed.

Lemma kickOut_takes sid ep : ep_inv ep -> small ep -> em_takes (kickOut sid) ep.
Proof.
  intros Hi Hs. apply em_takes_get. destruct (getSession sid ep) as [p|] eqn:Eg; [|by apply em_takes_ret].
  destruct (getSession_live sid p ep Hi Eg) as [s Hp]. by apply (lose_session_takes p s).
Qed.

Lemma doDisconnect_loses sid ep : ep_inv ep -> em_loses (doDisconnect sid) ep.
Proof.
  intros Hi. apply em_loses_get, em_loses_then; [|intros skid ep' Hi'; by apply deleteSocket_loses].
  destruct (fdbValidFdbId sid); [|by apply em_loses_ret]. destruct (getSession sid ep) as [p|] eqn:Eg; [|by apply em_loses_ret].
  destruct (getSession_live sid p ep Hi Eg) as [s Hp]. apply em_total_bind, (em_total_sess _ s); [done|]. by apply em_loses_ret.
Qed.

Lemma cbDisconnect_loses sid ep : ep_inv ep -> em_loses (cbDisconnect sid) ep.
Proof.
  intros Hi. apply em_loses_then; [by apply doDisconnect_loses|]. intros [] ep1 Hi1. apply em_loses_when; [done|].
  apply em_loses_then; [apply em_loses_mod; [done|by apply loses_rest]|]. intros [] ep2 Hi2.
  apply em_loses_then; [by apply releaseServiceAddress_loses|]. intros x ep3 Hi3. by apply self_migrate_loses.
Qed.

Lemma cbConnect_takes name url job timeout ep : ep_inv ep -> small ep -> em_takes (cbConnect name url job timeout) ep.
Proof.
  intros Hi Hs. apply em_takes_after; [by apply self_migrate_loses|]. intros [] ep1 o1 Hi1 Hs1 _. apply em_takes_get, em_takes_after.
  { apply em_loses_when; [done|]. apply em_loses_mod; [done|]. by apply loses_rest. }
  intros [] ep2 o2 Hi2 Hs2 _. apply em_takes_before; [|intros x ep3 Hi3; by apply em_loses_ret].
  apply em_takes_get, doConnect_takes; auto.
Qed.

(** *** Servers *)

Lemma em_takes_then {A B} (m : EM A) (f : A -> EM B) ep :
  em_takes m ep -> (forall x ep', ep_inv ep' -> em_takes (f x) ep') -> em_takes (m ≫= f) ep.
Proof.
  intros (x & ep1 & o1 & E1 & [G1 F1]) Hf. apply em_total_bind. exists x, ep1, o1. split; [done|].
  eapply em_total_mono; [apply (Hf x ep1), (go_inv _ _ _ G1)|]. simpl. intros y ep2 o2 T2. by apply (takes_trans ep ep1).
Qed.

Lemma ret_makes r ep : ep_inv ep -> (forall skid, r = Some skid -> is_Some (co_sock skid (ep_core ep))) -> em_makes (mret r) ep.
Proof. intros Hi Hr. apply em_total_ret. split_and!; [by apply loses_takes, loses_refl|by apply (loses_grew _ _ []), loses_refl|done]. Qed.

Lemma doBind_makes bound url port ep : ep_inv ep -> small ep -> em_makes (doBind bound url port) ep.
Proof.
  intros Hi [Hb _]. unfold doBind. destruct (url_target url) as [[[[skt addr] name] id]|]; [|by apply ret_makes].
  case_bool_decide.
  { apply em_makes_after; [apply em_loses_out; [done|by destruct name]|]. intros [] ep1 o1 Hi1 _. by apply none_makes, requestServiceAddress_loses. }
  destruct (secure_denied addr); [by apply ret_makes|]. apply em_makes_get.
  destruct (ep_bound addr (ep_core ep)) as [p|] eqn:Ef.
  { destruct (find_session_live _ _ _ (ei_core _ Hi) Ef) as [s Hp]. destruct (live_sock p s ep Hi Hp) as [k Hk].
    apply em_total_bind, (em_total_sess _ s); [done|]. apply ret_makes; [done|]. intros ? [= <-]. by exists k. }
  destruct (negb (createSocket_ok addr)); [by apply ret_makes|]. set (n := mEntryAllocator (co_sockets (ep_core ep))).
  apply em_total_bind. eexists n, _, []. split; [done|]. cbv zeta.
  match goal with |- context [let '(_, _) := ?x in _] => destruct x as [b cn] end.
  set (k := ek_set_udp _ _ _). destruct (newSocket_loses k ep Hi Hb eq_refl eq_refl) as (G1 & Hk1 & Hcn). cbn [k ek_set_udp ek_skid] in G1, Hk1, Hcn.
  apply em_total_bind, em_total_core. match goal with |- em_total _ ?st _ => change st with (ep_set_core (core_socket k n (ep_core ep)) ep) end.
  set (ep1 := ep_set_core (core_socket k n (ep_core ep)) ep). assert (takes ep ep1 []) as T1.
  { split; [done|]. intros Hf c'. cbn [ep_core ep1 ep_set_core]. rewrite Hcn. apply Hf. }
  assert (mEntryAllocator (co_sockets (ep_core ep1)) <= mEntryAllocator (co_sockets (ep_core ep)) + 1) as Hgr by (apply core_socket_number; [apply Hi|done]).
  pose proof (go_inv _ _ _ G1) as Hi1. destruct bound.
  - apply em_total_ret. split_and!; [done|split; [exact Hgr|cbn; lia]|]. intros ? [= <-]. by exists k.
  - assert (em_loses (deleteContainer n) ep1) as (x & ep2 & o2 & E2 & L2).
    { eapply em_total_mono; [by apply (deleteContainer_total n k)|]. intros [] ep' out (G & S & _). by split. }
    apply em_total_bind. exists x, ep2, o2. split; [exact E2|]. apply em_total_ret. rewrite ?app_nil_r, ?app_nil_l. split_and!; [|destruct L2 as [_ S2]|done].
    + apply (takes_trans ep ep1 ep2 []); [done|by apply loses_takes].
    + unfold grew. rewrite (sk_socknum _ _ S2), (sk_sessnum _ _ S2). split; [exact Hgr|cbn; lia].
Qed.

Lemma doBind_takes bound url port ep : ep_inv ep -> small ep -> em_takes (doBind bound url port) ep.
Proof. intros. by apply em_makes_takes, doBind_makes. Qed.

Lemma cbBind_takes bound name url ep : ep_inv ep -> small ep -> em_takes (cbBind bound name url) ep.
Proof.
  intros Hi Hs. apply em_takes_after; [by apply self_migrate_loses|]. intros [] ep1 o1 Hi1 Hs1 _. apply em_takes_get, em_takes_then.
  - apply doBind_takes; auto.
  - intros x ep2 Hi2. by apply em_takes_ret.
Qed.

Lemma cbUnbind_loses skid ep : ep_inv ep -> em_loses (cbUnbind skid) ep.
Proof.
  intros Hi. apply em_loses_then; [by apply deleteSocket_loses|]. intros [] ep1 Hi1. apply em_loses_when; [done|].
  apply em_loses_then; [by apply releaseServiceAddress_loses|]. intros x ep3 Hi3. by apply self_migrate_loses.
Qed.

Lemma server_onInput_goes skid k accepted ep : ep_inv ep -> small ep -> co_sock skid (ep_core ep) = Some k ->
  em_safe (server_onInput skid accepted) ep.
Proof.
  intros Hi [_ Hb] Hk. apply em_total_bind, (em_total_sock _ k); [done|]. destruct accepted as [s|]; [|by apply em_safe_ret].
  apply em_total_bind. eexists _, _, []. split; [done|]. cbn [fst snd]. apply em_total_bind.
  eapply em_total_mono; [by apply (addConnectedSession_total skid k)|]. intros ok ep1 o1 (-> & G1 & _). apply em_total_ret.
  by rewrite app_nil_r.
Qed.

(** *** Objects *)

Lemma online_each_spec c client l fs fi o : core_ok c -> (forall p, p ∈ l -> p ∈ connected_sessions c) ->
  exists dog out, online_each c client l fs fi o = Some (eo_set_dog dog o, out) /\ (eo_objId o <> FDB_OBJECT_MAIN -> notes out = []).
Proof.
  intros Hc. revert fs fi o. induction l as [|p l IH]; intros fs fi o Hl.
  { exists (eo_dog o), []. split; [|done]. cbn. by destruct o. }
  assert (forall q, q ∈ l -> q ∈ connected_sessions c) as Hl' by (intros q Hq; apply Hl; by apply list_elem_of_further).
  destruct (connected_live c p Hc (Hl p (list_elem_of_here _ _))) as (s & k & Hp & Hk).
  cbn [online_each]. rewrite Hp. cbn [mbind option_bind]. rewrite Hk. cbn [mbind option_bind].
  destruct (negb (ev_auth (eo_objId o) s)); [by apply IH|]. cbv zeta.
  match goal with |- context [notifyOnline c p ?b o] => destruct (notifyOnline_spec c p s k b o Hc Hp Hk) as [d1 E1]; rewrite E1; set (x := b) end.
  cbn [mbind option_bind].
  match goal with |- context [online_each c client l ?a ?b ?o] => destruct (IH a b o Hl') as (d2 & o2 & E2 & N2); rewrite E2 end.
  cbn [mbind option_bind]. exists d2, (online_out s k x o ++ o2). split; [done|]. intros Hn.
  rewrite notes_app, N2, notes_online by done. done.
Qed.

Lemma offline_each_spec c separate l a b o : core_ok c -> (forall p, p ∈ l -> p ∈ connected_sessions c) ->
  exists dog out, offline_each c separate l a b o = Some (eo_set_dog dog o, out) /\ (eo_objId o <> FDB_OBJECT_MAIN -> notes out = []).
Proof.
  intros Hc. revert a b o. induction l as [|p l IH]; intros a b o Hl.
  { exists (eo_dog o), []. split; [|done]. cbn. by destruct o. }
  assert (forall q, q ∈ l -> q ∈ connected_sessions c) as Hl' by (intros q Hq; apply Hl; by apply list_elem_of_further).
  destruct (connected_live c p Hc (Hl p (list_elem_of_here _ _))) as (s & k & Hp & Hk).
  cbn [offline_each]. rewrite Hp. cbn [mbind option_bind]. rewrite Hk. cbn [mbind option_bind]. cbv zeta.
  match goal with |- context [notifyOffline c p ?x o] => destruct (notifyOffline_spec c p s k x o Hp Hk) as (d1 & barks & E1); rewrite E1; set (y := x) end.
  cbn [mbind option_bind].
  match goal with |- context [offline_each c separate l ?a ?b ?o] => destruct (IH a b o Hl') as (d2 & o2 & E2 & N2); rewrite E2 end.
  cbn [mbind option_bind]. eexists d2, _. split; [done|]. intros Hn.
  rewrite !notes_app, notes_dogs, N2, notes_offline by done. done.
Qed.

(** A change of the objects that keeps what the invariant says of them. *)
Lemma goes_objects ep t sn out : ep_inv ep -> m_sorted (mEntryContainer t) -> Forall (object_entry_ok (ep_core ep)) (mEntryContainer t) ->
  notes out = [] -> goes ep (ep_set_objects t sn ep) out.
Proof. intros [] Hs Hf Hn. split; [by split|by split|]. intros _. by rewrite Hn. Qed.

Lemma entries_set c oid o t : object_entry_ok c (oid, o) -> Forall (object_entry_ok c) t -> Forall (object_entry_ok c) (m_set oid o t).
Proof.
  intros Ho Hf. apply Forall_forall. intros e He. apply m_set_In in He as [->|He]; [done|]. by apply (proj1 (Forall_forall _ _) Hf).
Qed.

Lemma entries_erase c oid t : Forall (object_entry_ok c) t -> Forall (object_entry_ok c) (m_erase oid t).
Proof. intros Hf. apply Forall_forall. intros e He. apply m_erase_In in He. by apply (proj1 (Forall_forall _ _) Hf). Qed.

Lemma make_id_main sn class : 0 < sn < 2 ^ 16 -> FDB_OBJECT_MAKE_ID sn class <> FDB_OBJECT_MAIN.
Proof.
  intros Hs He. unfold FDB_OBJECT_MAKE_ID, FDB_OBJECT_MAIN in He. change 65535 with (Z.ones 16) in He.
  rewrite Z.land_ones, Z.shiftl_mul_pow2 in He by lia. set (y := class mod 2 ^ 16) in *.
  assert (0 <= y < 2 ^ 16) as Hy by (apply Z.mod_pos_bound; lia).
  assert (Z.land (sn * 2 ^ 16) y = 0) as El.
  { rewrite <- (Z.mod_small y (2 ^ 16)), <- Z.land_ones by (done || lia). rewrite <- Z.shiftl_mul_pow2 by lia.
    apply Z.bits_inj_0. intros n. rewrite !Z.land_spec, Z.testbit_ones by lia.
    destruct (Z.ltb_spec n 16); [|by rewrite !andb_false_r]. destruct (Z.leb_spec 0 n); [|by rewrite !andb_false_r].
    rewrite Z.shiftl_spec_low by lia. done. }
  pose proof (Z.add_lor_land (sn * 2 ^ 16) y) as Ea. rewrite El, Z.add_0_r in Ea. rewrite Ea in He.
  rewrite wrap_u_small in He by (unfold in_u; lia). lia.
Qed.

Lemma takes_objects ep t sn out : ep_inv ep -> m_sorted (mEntryContainer t) -> Forall (object_entry_ok (ep_core ep)) (mEntryContainer t) ->
  notes out = [] -> takes ep (ep_set_objects t sn ep) out.
Proof. intros. split; [by apply goes_objects|done]. Qed.

Lemma addObject_takes o ep : ep_inv ep -> obj_ok (ep_core ep) o -> 0 < ep_mSnAllocator ep < 2 ^ 16 -> em_takes (addObject o) ep.
Proof.
  intros Hi Ho Hsn. apply em_takes_get. destruct (eo_objId o =? FDB_OBJECT_MAIN); [by apply em_takes_ret|].
  destruct (objects_has (eo_ptr o) ep); [by apply em_takes_ret|].
  assert (exists id t, (if eo_objId o =? u32 FDB_INVALID_ID then allocate_object_id (ep_objects ep) else (eo_objId o, ep_objects ep)) = (id, t)
            /\ mEntryContainer t = mEntryContainer (ep_objects ep)) as (id & t & Et & Em).
  { unfold allocate_object_id, allocateEntityId. destruct (_ =? _); [|by eexists _, _].
    destruct (mEntryAllocator (ep_objects ep) =? FDB_OBJECT_MAIN); by eexists _, _. }
  rewrite Et. apply em_total_bind, em_total_mod.
  assert (goes ep (ep_set_objects t (ep_mSnAllocator ep) ep) []) as G1 by (apply goes_objects; rewrite ?Em; try done; apply Hi).
  pose proof (go_inv _ _ _ G1) as Hi1. set (ep1 := ep_set_objects t _ ep) in *.
  destruct (if bool_decide _ then _ else None) as [o'|]; [apply em_total_ret; by split|].
  set (oid := FDB_OBJECT_MAKE_ID (ep_mSnAllocator ep) id). set (o1 := eo_set_obj (obj_set_id oid (eo_obj o)) o).
  assert (obj_ok (ep_core ep) o1) as Ho1 by (by destruct Ho; split).
  assert (object_entry_ok (ep_core ep) (oid, o1)) as He by (split_and!; [done|done|by apply make_id_main]).
  unfold insertEntry. destruct (m_find oid (mEntryContainer t)) as [x|] eqn:Ex.
  - apply em_total_bind, em_total_mod, em_total_ret. apply (takes_objects ep); rewrite ?Em; try done; apply Hi.
  - apply em_total_bind, em_total_mod. set (ep2 := ep_set_objects _ _ ep1).
    destruct (online_each_spec (ep_core ep2) (bool_decide (ep_role ep2 = FDB_OBJECT_ROLE_CLIENT)) (connected_sessions (ep_core ep2)) true true
                (eo_set_migrate true o1)) as (dog & out & E1 & N1); [apply Hi|done|].
    eexists _, _, out. split; [cbn [negb]; unfold announce; fold o1; by rewrite E1|].
    apply (takes_objects ep); [done| | |apply N1; by apply make_id_main].
    + cbn. rewrite Em. repeat apply m_sorted_set. apply Hi.
    + cbn. rewrite Em. repeat apply entries_set; [|done|apply Hi]. destruct He as (H1 & H2 & H3). split_and!; [|done|done].
      apply obj_ok_dog. by destruct H1; split.
Qed.

Lemma removeObject_total ptr ep : ep_inv ep ->
  em_total (removeObject ptr) ep (fun _ ep' out => loses ep ep' out /\
    forall oid o t, mEntryContainer (ep_objects ep) = (oid, o) :: t -> eo_ptr o = ptr -> mEntryContainer (ep_objects ep') = t).
Proof.
  intros Hi. unfold em_total, removeObject. destruct (find _ _) as [[oid o]|] eqn:Ef.
  - pose proof (find_some _ _ Ef) as [Hin Hptr]. apply list_elem_of_In in Hin. simpl in Hptr. apply Z.eqb_eq in Hptr.
    pose proof (proj1 (Forall_forall _ _) (ei_objects _ Hi) _ Hin) as (Ho & Hid & Hne). simpl in Hid, Hne.
    destruct (offline_each_spec (ep_core ep) (ep_separate ep) (connected_sessions (ep_core ep)) (co_mSecureSessionCnt (ep_core ep))
                (co_mInsecureSessionCnt (ep_core ep)) o) as (dog & out & E1 & N1); [apply Hi|done|].
    rewrite E1. eexists tt, _, _. split; [done|]. split; [split; [|apply shrunk_refl]|].
    + apply goes_objects; [done|apply m_sorted_erase, Hi|apply entries_erase, Hi|].
      rewrite notes_app, N1 by congruence. cbn [app eo_worker eo_autoRemove eo_set_dog]. by destruct (eo_worker o), (eo_autoRemove o).
    + intros oid0 o0 t Et Ep0. rewrite Et in Ef. simpl in Ef. rewrite Ep0, Z.eqb_refl in Ef. simplify_eq. cbn.
      change (eo_objId (eo_set_dog dog o)) with (eo_objId o). rewrite Et. cbn [m_erase]. by rewrite klt_irrefl.
  - eexists tt, ep, []. split; [done|]. split; [by apply loses_refl|]. intros oid o t Et Ep. rewrite Et in Ef. simpl in Ef.
    by rewrite Ep, Z.eqb_refl in Ef.
Qed.

Lemma removeObjects_total n ep : ep_inv ep -> (length (mEntryContainer (ep_objects ep)) <= n)%nat ->
  em_total (removeObjects n) ep (fun _ ep' out => loses ep ep' out /\ mEntryContainer (ep_objects ep') = []).
Proof.
  revert ep. induction n as [|n IH]; intros ep Hi Hn.
  { apply em_total_ret. split; [by apply loses_refl|]. destruct (mEntryContainer (ep_objects ep)); [done|simpl in Hn; lia]. }
  cbn [removeObjects]. apply em_total_bind, em_total_get. destruct (mEntryContainer (ep_objects ep)) as [|[oid o] t] eqn:Et.
  { apply em_total_ret. split; [by apply loses_refl|done]. }
  apply em_total_bind. eapply em_total_mono; [by apply removeObject_total|]. intros [] ep1 o1 [L1 R1].
  specialize (R1 oid o t Et eq_refl). simpl in Hn.
  eapply em_total_mono; [apply (IH ep1); [by apply (loses_inv ep _ o1)|rewrite R1; lia]|].
  intros [] ep2 o2 (L2 & E2). split; [|done]. rewrite app_nil_l. by apply (loses_trans ep ep1).
Qed.

Lemma callDestroyEndpoint_loses prepare ep : ep_inv ep -> em_loses (callDestroyEndpoint prepare) ep.
Proof.
  intros Hi. destruct prepare; simpl; [|by apply deleteSocket_loses]. apply em_loses_get.
  eapply em_total_mono; [by apply removeObjects_total|]. by intros [] ep' out [? _].
Qed.

(** *** Changes of sessions and subscriptions *)

Lemma put_sess_takes p s s' ep : ep_inv ep -> co_sess p (ep_core ep) = Some s -> es_sid s' = es_sid s -> es_skid s' = es_skid s ->
  takes ep (ep_set_core (co_put_sess p s' (ep_core ep)) ep) [].
Proof.
  intros Hi Hp E1 E2. split; [|done]. apply goes_core; [done|by apply (core_ok_sess p s); [apply Hi|..]| |done].
  intros q Hq. apply live_put_sess; [apply Hi|done].
Qed.

Lemma updateSecurityLevel_takes ep : ep_inv ep -> em_takes updateSecurityLevel ep.
Proof.
  intros Hi. apply em_takes_get. generalize (ep_mTokens ep). intros tokens.
  assert (forall p, p ∈ connected_sessions (ep_core ep) -> live (ep_core ep) p) as Hl.
  { intros p Hp. destruct (connected_live _ _ (ei_core _ Hi) Hp) as (s & k & Hs & _). by exists s. }
  revert Hl. generalize (connected_sessions (ep_core ep)). intros l. revert ep Hi.
  induction l as [|p l IH]; intros ep Hi Hl; [by apply em_takes_ret|]. cbn [em_each].
  destruct (Hl p (list_elem_of_here _ _)) as [s Hs]. apply em_total_bind, em_total_bind, (em_total_sess _ s); [done|]. apply em_total_core.
  match goal with |- em_total _ (ep_set_core (co_put_sess p ?x _) _) _ => set (s' := x) end.
  assert (takes ep (ep_set_core (co_put_sess p s' (ep_core ep)) ep) []) as T1 by (by apply (put_sess_takes p s)).
  apply (em_takes_from ep _ []); [done|]. apply IH; [apply T1|]. intros q Hq. apply live_put_sess; [apply Hi|].
  apply Hl. by apply list_elem_of_further.
Qed.

Lemma sideband_auth_takes sid tokens ep : ep_inv ep -> em_takes (sideband_auth sid tokens) ep.
Proof.
  intros Hi. apply em_takes_get. destruct (getSession sid ep) as [p|] eqn:Eg; [|by apply em_takes_ret].
  destruct (getSession_live sid p ep Hi Eg) as [s Hp]. apply em_total_bind, (em_total_sess _ s); [done|]. apply em_total_core.
  by apply (put_sess_takes p s).
Qed.

Lemma sideband_session_info_takes sid name pid port ip ep : ep_inv ep -> em_takes (sideband_session_info sid name pid port ip) ep.
Proof.
  intros Hi. apply em_takes_get. destruct (getSession sid ep) as [p|] eqn:Eg; [|by apply em_takes_ret].
  destruct (getSession_live sid p ep Hi Eg) as [s Hp]. apply em_total_bind, (em_total_sess _ s); [done|]. apply em_total_core.
  apply (put_sess_takes p s); [done|done| |]; destruct ip; try done; by destruct (FDB_VALID_PORT _).
Qed.

Lemma obj_subscribe_ok c o p msg obj topic flag : obj_ok c o -> live c p ->
  obj_ok c (eo_set_obj (obj_subscribe (eo_obj o) p msg obj topic flag) o).
Proof.
  intros [H1 H2 H3 H4] Hp. unfold obj_subscribe. destruct (fdbIsGroup msg); split; simpl; try done.
  - apply subscribe_find, H2.
  - intros m q oid tp. rewrite (proj2 (subscribe_find _ p msg obj topic flag H2)).
    destruct (same_key _ _ _ _ _ _ _ _) eqn:Ek; [|eauto]. intros _. unfold same_key in Ek. 
    apply andb_prop in Ek as [[[_ Eq]%andb_prop _]%andb_prop _]. apply bool_decide_eq_true in Eq. by subst.
  - apply subscribe_find, H1.
  - intros m q oid tp. rewrite (proj2 (subscribe_find _ p msg obj topic flag H1)).
    destruct (same_key _ _ _ _ _ _ _ _) eqn:Ek; [|eauto]. intros _. unfold same_key in Ek. 
    apply andb_prop in Ek as [[[_ Eq]%andb_prop _]%andb_prop _]. apply bool_decide_eq_true in Eq. by subst.
Qed.

Lemma ep_subscribe_takes oid sid msg obj topic flag ep : ep_inv ep -> em_takes (ep_subscribe oid sid msg obj topic flag) ep.
Proof.
  intros Hi. apply em_takes_get. destruct (getSession sid ep) as [p|] eqn:Eg; [|by apply em_takes_ret].
  destruct (getSession_live sid p ep Hi Eg) as [s Hp]. assert (live (ep_core ep) p) as Hl by (by exists s).
  unfold em_takes, em_total, on_object. destruct (oid =? FDB_OBJECT_MAIN).
  - eexists tt, _, []. split; [done|]. split; [|done]. pose proof Hi as [Hc Hs Hm Ht Ho]. split.
    + split; try done; [by apply obj_subscribe_ok|]. rewrite <- Hm. cbn. unfold eo_objId, obj_subscribe. cbn. by destruct (fdbIsGroup msg).
    + split; try done. unfold ep_role, eo_role, obj_subscribe. cbn. by destruct (fdbIsGroup msg).
    + done.
  - unfold retrieveEntry. destruct (m_find oid (mEntryContainer (ep_objects ep))) as [o|] eqn:Eo.
    + eexists tt, _, []. split; [done|]. split; [|done]. apply m_find_In in Eo; [|apply Hi].
      pose proof (proj1 (Forall_forall _ _) (ei_objects _ Hi) _ Eo) as (H1 & H2 & H3).
      apply goes_objects; [done|apply m_sorted_set, Hi|apply entries_set; [|apply Hi]|done].
      split_and!; [by apply obj_subscribe_ok| |done]. simpl in *. rewrite <- H2. unfold eo_objId, obj_subscribe. cbn. by destruct (fdbIsGroup msg).
    + eexists tt, ep, []. split; [done|]. split; [by apply goes_refl|done].
Qed.
End operations.

(** ** Sequences of operations *)

(** What an endpoint is asked to do, by the application, by peers and by the network. *)
Inductive EpOp :=
  | OpBind (bound : bool) (name url : string)
  | OpUnbind (skid : Z)
  | OpAccept (skid : Z) (conn : option EpSess)
  | OpConnect (name url : string) (job timeout : Z)
  | OpDisconnect (sid : Z)
  | OpKickOut (sid : Z)
  | OpAddObject (o : EpObj)
  | OpRemoveObject (ptr : Z)
  | OpSubscribe (oid sid msg obj_id : Z) (topic : option string) (flag : Z)
  | OpAuth (sid : Z) (tokens : list string)
  | OpSessionInfo (sid : Z) (sender_name : string) (pid : Z) (udp_port ip : option Z)
  | OpTokens (tokens : list string)
  | OpLevels
  | OpNet (conns : list (option EpSess))
  | OpDestroy (prepare : bool).

Definition em_unit {A} (m : EM A) : EM unit := _ ← m; mret tt.

Definition run_op {E : EpEnv} (op : EpOp) : EM unit :=
  match op with
  | OpBind bound name url => em_unit (cbBind bound name url)
  | OpUnbind skid => cbUnbind skid
  | OpAccept skid conn => server_onInput skid conn
  | OpConnect name url job timeout => em_unit (cbConnect name url job timeout)
  | OpDisconnect sid => cbDisconnect sid
  | OpKickOut sid => kickOut sid
  | OpAddObject o => em_unit (addObject o)
  | OpRemoveObject ptr => removeObject ptr
  | OpSubscribe oid sid msg obj topic flag => ep_subscribe oid sid msg obj topic flag
  | OpAuth sid tokens => sideband_auth sid tokens
  | OpSessionInfo sid name pid port ip => sideband_session_info sid name pid port ip
  | OpTokens tokens => em_mod (fun ep => (ep_importTokens tokens ep).2)
  | OpLevels => updateSecurityLevel
  | OpNet conns => em_mod (ep_set_net conns)
  | OpDestroy prepare => callDestroyEndpoint prepare
  end.

(** An object without subscriptions. *)
Definition bare (o : EpObj) : Prop := mEventSubscribeHandle (eo_obj o) = [] /\ mGroupSubscribeHandle (eo_obj o) = [].

(** Connections come in on a socket there is; a new object has no subscriptions; the numbers
    of sockets, sessions and objects have not been used up. *)
Definition op_ok ep (op : EpOp) : Prop :=
  small ep /\
  match op with
  | OpAccept skid _ => is_Some (co_sock skid (ep_core ep))
  | OpAddObject o => bare o /\ 0 < ep_mSnAllocator ep < 2 ^ 16
  | _ => True
  end.

(** A new endpoint. *)
Definition ep_start (self : EpObj) (separate reconnect : bool) : Endpoint :=
  mkEndpoint (mkCore [] 0 CEntityContainer_new CEntityContainer_new 0 0) self CEntityContainer_new 1 separate reconnect false
    EmptyString FDB_DEFAULT_INSTANCE [] [] [].

Inductive ep_reach {E : EpEnv} (ep0 : Endpoint) : Endpoint -> list EpOut -> Prop :=
  | ep_reach_start : ep_reach ep0 ep0 []
  | ep_reach_op ep out op ep' out' :
      ep_reach ep0 ep out -> op_ok ep op -> run_op op ep = Some (tt, ep', out') -> ep_reach ep0 ep' (out ++ out').

(** The operations of a client: it connects, and accepts nothing. *)
Definition client_op (op : EpOp) : bool := match op with OpAccept _ _ => false | _ => true end.

Inductive client_reach {E : EpEnv} (ep0 : Endpoint) : Endpoint -> Prop :=
  | client_reach_start : client_reach ep0 ep0
  | client_reach_op ep op ep' out' :
      client_reach ep0 ep -> op_ok ep op -> client_op op = true -> run_op op ep = Some (tt, ep', out') -> client_reach ep0 ep'.

Lemma bare_ok c o : bare o -> obj_ok c o.
Proof. intros [E1 E2]. split; rewrite ?E1, ?E2; try apply lvl_nil; by intros ? ? ? ? [? ?]. Qed.

Lemma ep_start_inv self separate reconnect : bare self -> eo_objId self = FDB_OBJECT_MAIN -> ep_inv (ep_start self separate reconnect).
Proof.
  intros Hb Hm. split; cbn; [|by apply bare_ok|done|done|by constructor].
  split; cbn; try done; try lia; by intros ? ? ?.
Qed.

Lemma connected_split c : Z.of_nat (length (connected_sessions c)) = connected true c + connected false c.
Proof.
  unfold connected, connected_sessions. generalize (mEntryContainer (co_sockets c)). intros m. induction m as [|[n k] m IH]; [done|].
  change (mbind (fun e : Z * EpSock => ek_table e.2) ((n, k) :: m)) with (ek_table k ++ (m ≫= fun e : Z * EpSock => ek_table e.2)).
  cbn [flat_map]. rewrite !length_app. unfold channel at 1 3. cbn [snd]. destruct (ek_secure k); cbn [Bool.eqb length]; lia.
Qed.

Section reach.
Context {E : EpEnv}.
Context (accepts : forall s : EpSess, ev_auth FDB_OBJECT_MAIN s = true).

Lemma em_safe_takes {A} (m : EM A) ep : em_takes m ep -> em_safe m ep.
Proof. intros Hm. eapply em_total_mono; [exact Hm|]. by intros x ep' out [? _]. Qed.

Lemma em_unit_takes {A} (m : EM A) ep : em_takes m ep -> em_takes (em_unit m) ep.
Proof. intros Hm. apply em_takes_before; [done|]. intros x ep' Hi. by apply em_loses_ret. Qed.

Lemma em_unit_safe {A} (m : EM A) ep : em_safe m ep -> em_safe (em_unit m) ep.
Proof. intros Hm. apply em_safe_bind; [done|]. intros x ep' out G _. apply em_safe_ret, (go_inv _ _ _ G). Qed.

Lemma importTokens_loses tokens ep : ep_inv ep -> loses ep (ep_importTokens tokens ep).2 [].
Proof. intros Hi. unfold ep_importTokens. destruct (importTokens _ _). by apply loses_rest. Qed.

(** Every operation but the acceptance of a connection. *)
Lemma run_op_takes op ep : ep_inv ep -> op_ok ep op -> client_op op = true -> em_takes (run_op op) ep.
Proof.
  intros Hi [Hs Hop] Hcl. destruct op; cbn [run_op client_op] in *; try discriminate Hcl.
  - apply em_unit_takes. by apply cbBind_takes.
  - apply em_loses_takes. by apply cbUnbind_loses.
  - apply em_unit_takes. by apply cbConnect_takes.
  - apply em_loses_takes. by apply cbDisconnect_loses.
  - by apply kickOut_takes.
  - apply em_unit_takes, addObject_takes; [done|apply bare_ok, Hop|apply Hop].
  - apply em_loses_takes. eapply em_total_mono; [by apply removeObject_total|]. by intros [] ep' out [? _].
  - by apply ep_subscribe_takes.
  - by apply sideband_auth_takes.
  - by apply sideband_session_info_takes.
  - apply em_loses_takes, em_loses_mod; [done|]. by apply importTokens_loses.
  - by apply updateSecurityLevel_takes.
  - apply em_loses_takes, em_loses_mod; [done|]. by apply loses_rest.
  - apply em_loses_takes. by apply callDestroyEndpoint_loses.
Qed.

Lemma run_op_goes op ep : ep_inv ep -> op_ok ep op -> em_safe (run_op op) ep.
Proof.
  intros Hi Hop. destruct (client_op op) eqn:Ec; [apply em_safe_takes; by apply run_op_takes|].
  destruct op; try discriminate Ec. destruct Hop as [Hs [k Hk]]. by apply (server_onInput_goes accepts _ k).
Qed.

Lemma ep_reach_goes ep0 ep out : ep_inv ep0 -> ep_reach ep0 ep out -> goes ep0 ep out.
Proof.
  intros H0. induction 1 as [|ep out op ep' out' Hr IH Hop Hrun]; [by apply goes_refl|].
  destruct (run_op_goes op ep (go_inv _ _ _ IH) Hop) as (x & ep1 & o1 & E1 & G1). rewrite Hrun in E1. simplify_eq.
  by apply (goes_trans ep0 ep).
Qed.

Lemma client_reach_few ep0 ep : ep_inv ep0 -> few (ep_core ep0) -> client_reach ep0 ep -> ep_inv ep /\ few (ep_core ep).
Proof.
  intros H0 F0. induction 1 as [|ep op ep' out' Hr [IHi IHf] Hop Hcl Hrun]; [done|].
  destruct (run_op_takes op ep IHi Hop Hcl) as (x & ep1 & o1 & E1 & [G1 F1]). rewrite Hrun in E1. simplify_eq.
  split; [apply (go_inv _ _ _ G1)|auto].
Qed.
End reach.

(** C15: Whatever an endpoint is asked to do, in any order, it never follows a pointer to a
    session that was destroyed, and its tables agree: the sessions it knows by number, the
    sessions of its sockets and the sessions there are the same ones, the counts are the numbers
    of secure and of other connections, and no object keeps a subscription of a session that is
    gone. The endpoint accepts every session, as [authentication] does by default: a session that
    was refused is counted out without having been counted in ([rejected_session_counted]). It is
    new at first, connections come in on sockets it has, new objects have no subscriptions, and
    the numbers of sockets, sessions and objects are not used up ([op_ok]). *)
Theorem endpoint_safe {E : EpEnv} (self : EpObj) (separate reconnect : bool) (ep : Endpoint) (out : list EpOut) (op : EpOp) :
  (forall s : EpSess, ev_auth FDB_OBJECT_MAIN s = true) -> bare self -> eo_objId self = FDB_OBJECT_MAIN ->
  ep_reach (ep_start self separate reconnect) ep out -> op_ok ep op ->
  ep_inv ep /\ exists ep' out', run_op op ep = Some (tt, ep', out') /\ ep_inv ep'.
Proof.
  intros Ha Hb Hm Hr Hop. pose proof (ep_reach_goes Ha _ _ _ (ep_start_inv self separate reconnect Hb Hm) Hr) as G.
  pose proof (go_inv _ _ _ G) as Hi. split; [done|]. destruct (run_op_goes Ha op ep Hi Hop) as ([] & ep' & out' & E1 & G1).
  exists ep', out'. split; [done|apply (go_inv _ _ _ G1)].
Qed.

(** C16: What the user of an endpoint is told is a run of the specification: every session is
    announced once when it comes and once when it goes, as the first exactly when there was none
    and as the last exactly when none is left, and the sessions announced and not yet gone are
    those the endpoint has. This is a new endpoint whose own notices come in its thread, for all kinds
    of connection together ([FDB_SEC_NO_CHECK], not [separate]), and that accepts every session, as
    [authentication] does by default; what is done to it is as in [endpoint_safe]. *)
Theorem endpoint_announces {E : EpEnv} (self : EpObj) (reconnect : bool) (ep : Endpoint) (out : list EpOut) :
  (forall s : EpSess, ev_auth FDB_OBJECT_MAIN s = true) -> bare self -> eo_objId self = FDB_OBJECT_MAIN ->
  eo_worker self = false -> eo_mOnlineChannelType self = FDB_SEC_NO_CHECK ->
  ep_reach (ep_start self false reconnect) ep out -> spec_notes [] (notes out) = Some (sids (ep_core ep)).
Proof.
  intros Ha Hb Hm Hw Hc Hr. pose proof (ep_reach_goes Ha _ _ _ (ep_start_inv self false reconnect Hb Hm) Hr) as G.
  by apply (go_notes _ _ _ G).
Qed.

(** C17: A client has at most one secure and at most one other connection at any time,
    however often it is asked to connect, and whatever it loses and connects again. The client
    accepts every session, as [authentication] does by default. *)
Theorem client_one_connection {E : EpEnv} (self : EpObj) (separate reconnect : bool) (ep : Endpoint) :
  (forall s : EpSess, ev_auth FDB_OBJECT_MAIN s = true) -> bare self -> eo_objId self = FDB_OBJECT_MAIN ->
  client_reach (ep_start self separate reconnect) ep ->
  co_mSecureSessionCnt (ep_core ep) <= 1 /\ co_mInsecureSessionCnt (ep_core ep) <= 1 /\
  (length (connected_sessions (ep_core ep)) <= 2)%nat.
Proof.
  intros Ha Hb Hm Hr. destruct (client_reach_few Ha _ _ (ep_start_inv self separate reconnect Hb Hm) ltac:(by intros []) Hr) as [Hi Hf].
  pose proof (ei_core _ Hi) as Hc. rewrite (ck_secure _ Hc), (ck_insecure _ Hc). split_and!; [apply Hf|apply Hf|].
  pose proof (Hf true). pose proof (Hf false). pose proof (connected_split (ep_core ep)). lia.
Qed.

(** ** Choosing a session *)

(** The sockets with a session, with the session a message would go to. *)
Definition candidates (l : list (Z * EpSock)) : list (EpSock * Z) :=
  omap (fun e => (fun p => (e.2, p)) <$> head (ek_table e.2)) l.

(** A socket on which a message of the type may travel: within the host, or as it asks for. *)
Definition fits (sec_type : EFdbSecureType) (k : EpSock) : bool :=
  bool_decide (sa_mType (ek_addr k) = FDB_SOCKET_IPC) ||
  match sec_type with FDB_SEC_INSECURE => negb (ek_secure k) | _ => ek_secure k end.

Definition preferred_spec (sec_type : EFdbSecureType) (l : list (EpSock * Z)) : option Z :=
  match find (fun e => fits sec_type e.1) l with
  | Some e => Some e.2
  | None => match sec_type with FDB_SEC_INSECURE | FDB_SEC_SECURE => None | _ => snd <$> last l end
  end.

Lemma candidates_cons n k l : candidates ((n, k) :: l) = match head (ek_table k) with Some p => (k, p) :: candidates l | None => candidates l end.
Proof. unfold candidates. simpl. by destruct (head (ek_table k)). Qed.

(** What is left when no socket fits. *)
Lemma last_fallback {A} (x : A * Z) (l : list (A * Z)) :
  snd <$> last (x :: l) = match snd <$> last l with Some p => Some p | None => Some x.2 end.
Proof. destruct l as [|y l]; [done|]. rewrite last_cons_cons. destruct (last (y :: l)) eqn:Ex; [done|]. by apply last_None in Ex. Qed.

Lemma preferred_from_spec sec_type l fallback :
  preferred_from sec_type l fallback =
  match preferred_spec sec_type (candidates l) with Some p => Some p | None => fallback end.
Proof.
  revert fallback. induction l as [|[n k] l IH]; intros fallback; [by destruct sec_type|].
  rewrite candidates_cons. cbn [preferred_from]. destruct (head (ek_table k)) as [p|]; [|apply IH].
  unfold preferred_spec. cbn [find fst]. unfold fits at 1. case_bool_decide as Ei; [done|]. cbn [orb].
  destruct sec_type, (ek_secure k); cbn [negb]; try done; rewrite IH; unfold preferred_spec; try done;
    (destruct (find _ _); [done|]; rewrite last_fallback; by destruct (snd <$> last _)).
Qed.

(** The session a message goes to is the first one on a socket that fits its quality of
    service: within the host, or encrypted, or not, as it asks for; a message that only prefers
    encryption goes to the last session there is when no socket fits. A message that must be
    encrypted never gets a session on a socket that is neither secure nor within the host. *)
Theorem preferredPeer_exact (qos : EFdbQOS) (ep : Endpoint) :
  let l := candidates (mEntryContainer (co_sockets (ep_core ep))) in
  preferredPeer qos ep = preferred_spec (QosToSecureType qos) l /\
  (QosToSecureType qos = FDB_SEC_SECURE -> forall p, preferredPeer qos ep = Some p ->
     exists k, (k, p) ∈ l /\ (sa_mType (ek_addr k) = FDB_SOCKET_IPC \/ ek_secure k = true)).
Proof.
  intros l. assert (preferredPeer qos ep = preferred_spec (QosToSecureType qos) l) as Ep.
  { unfold preferredPeer. rewrite preferred_from_spec. by destruct (preferred_spec _ _). }
  split; [done|]. intros Hq p. rewrite Ep, Hq. unfold preferred_spec. destruct (find _ l) as [[k q]|] eqn:Ef; [|done].
  intros [= <-]. apply find_some in Ef as [Hin Hf]. exists k. split; [by apply list_elem_of_In|]. simpl in Hf. unfold fits in Hf.
  apply orb_prop in Hf as [Hf%bool_decide_eq_true|Hf]; auto.
Qed.

(** ** On concrete endpoints *)

Definition op_okb ep (op : EpOp) : bool :=
  (mEntryAllocator (co_sockets (ep_core ep)) <? 2 ^ 31) && (mEntryAllocator (co_sessions (ep_core ep)) <? 2 ^ 31) &&
  match op with
  | OpAccept skid _ => match co_sock skid (ep_core ep) with Some _ => true | None => false end
  | OpAddObject o => match mEventSubscribeHandle (eo_obj o), mGroupSubscribeHandle (eo_obj o) with [], [] => true | _, _ => false end
                     && ((0 <? ep_mSnAllocator ep) && (ep_mSnAllocator ep <? 2 ^ 16))
  | _ => true
  end.

Lemma op_okb_ok ep op : op_okb ep op = true -> op_ok ep op.
Proof.
  unfold op_okb, op_ok, small. intros [[H1%Z.ltb_lt H2%Z.ltb_lt]%andb_prop H3]%andb_prop. split; [done|]. destruct op; try done.
  - destruct (co_sock skid (ep_core ep)); [by eexists|done].
  - apply andb_prop in H3 as [H3 [H4%Z.ltb_lt H5%Z.ltb_lt]%andb_prop]. split; [|done]. unfold bare.
    destruct (mEventSubscribeHandle _), (mGroupSubscribeHandle _); done.
Qed.

Fixpoint run_ops {E : EpEnv} (ops : list EpOp) ep : option (Endpoint * list EpOut) :=
  match ops with
  | [] => Some (ep, [])
  | op :: ops =>
      if op_okb ep op then
        match run_op op ep with
        | Some (_, ep, o1) => match run_ops ops ep with Some (ep, o2) => Some (ep, o1 ++ o2) | None => None end
        | None => None
        end
      else None
  end.

Lemma run_ops_reach {E : EpEnv} ep0 ops : forall ep out ep' out', ep_reach ep0 ep out -> run_ops ops ep = Some (ep', out') ->
  ep_reach ep0 ep' (out ++ out').
Proof.
  induction ops as [|op ops IH]; intros ep out ep' out' Hr Hrun; cbn [run_ops] in Hrun; [simplify_eq; by rewrite app_nil_r|].
  destruct (op_okb ep op) eqn:Eo; [|done]. destruct (run_op op ep) as [[[[] ep1] o1]|] eqn:E1; [|done].
  destruct (run_ops ops ep1) as [[ep2 o2]|] eqn:E2; simplify_eq. rewrite app_assoc. apply (IH ep1); [|done].
  by apply (ep_reach_op ep0 ep out op); [|apply op_okb_ok|].
Qed.

Lemma run_ops_client {E : EpEnv} ep0 ops : forallb client_op ops = true -> forall ep ep' out', client_reach ep0 ep -> run_ops ops ep = Some (ep', out') ->
  client_reach ep0 ep'.
Proof.
  induction ops as [|op ops IH]; intros Hc ep ep' out' Hr Hrun; cbn [run_ops] in Hrun; [by simplify_eq|].
  apply andb_prop in Hc as [Hc1 Hc]. destruct (op_okb ep op) eqn:Eo; [|done]. destruct (run_op op ep) as [[[[] ep1] o1]|] eqn:E1; [|done].
  destruct (run_ops ops ep1) as [[ep2 o2]|] eqn:E2; simplify_eq. apply (IH Hc ep1 _ o2); [|done].
  by apply (client_reach_op ep0 ep op _ o1); [|apply op_okb_ok|..].
Qed.

Definition lab_ep_env : EpEnv := mkEpEnv (fun _ _ => true) false true (fun _ _ _ => true) false false.
Definition lab_bare (ptr oid : Z) (role : EFdbEndpointRole) : EpObj :=
  mkEpObj ptr (mkObject 0 oid role [] [] []) (mkObjDog None false) FDB_SEC_NO_CHECK false false true.
Definition lab_conn (peer : string) : EpSess :=
  mkEpSess (mkSessView 0 0 0 0 false (mkSocketAddr EmptyString FDB_SOCKET_TCP "127.0.0.1"%string 0 60010 false) (peer, 60010)) 0 false
    "127.0.0.1"%string EmptyString EmptyString 0.
Definition lab_server : Endpoint := ep_start (lab_bare 1 0 FDB_OBJECT_ROLE_SERVER) false false.
Definition lab_client : Endpoint := ep_start (lab_bare 1 0 FDB_OBJECT_ROLE_CLIENT) false true.

(** A server accepts two clients, one of which subscribes; both leave. *)
Definition lab_ops : list EpOp :=
  [OpBind true EmptyString "tcp://127.0.0.1:60010"%string; OpAddObject (lab_bare 2 7 FDB_OBJECT_ROLE_SERVER);
   OpAccept 0 (Some (lab_conn "10.0.0.2"%string)); OpAccept 0 (Some (lab_conn "10.0.0.3"%string)); OpSubscribe 0 1 5 0 None 0;
   OpKickOut 1; OpUnbind (-1)].

Lemma endpoint_safe_witness : exists ep out, run_ops (E := lab_ep_env) lab_ops lab_server = Some (ep, out) /\ ep_inv ep.
Proof.
  destruct (run_ops (E := lab_ep_env) lab_ops lab_server) as [[ep out]|] eqn:Er; [|exfalso; vm_compute in Er; discriminate].
  exists ep, out. split; [reflexivity|]. pose proof (run_ops_reach (E := lab_ep_env) lab_server lab_ops _ _ _ _ (ep_reach_start _) Er) as Hr.
  refine (proj1 (endpoint_safe (E := lab_ep_env) (lab_bare 1 0 FDB_OBJECT_ROLE_SERVER) false false ep out (OpNet [])
                 (fun _ => eq_refl) (conj eq_refl eq_refl) eq_refl Hr _)).
  apply op_okb_ok. clear Hr. vm_compute in Er. injection Er as <- <-. reflexivity.
Defined.

Lemma endpoint_announces_witness : exists ep out, run_ops (E := lab_ep_env) lab_ops lab_server = Some (ep, out) /\
  notes out = [NoteUp 0 true; NoteUp 1 false; NoteDown 1 false; NoteDown 0 true] /\ spec_notes [] (notes out) = Some [].
Proof.
  destruct (run_ops (E := lab_ep_env) lab_ops lab_server) as [[ep out]|] eqn:Er; [|exfalso; vm_compute in Er; discriminate].
  exists ep, out. split; [reflexivity|]. pose proof (run_ops_reach (E := lab_ep_env) lab_server lab_ops _ _ _ _ (ep_reach_start _) Er) as Hr.
  pose proof (endpoint_announces (E := lab_ep_env) (lab_bare 1 0 FDB_OBJECT_ROLE_SERVER) false ep out
                (fun _ => eq_refl) (conj eq_refl eq_refl) eq_refl eq_refl eq_refl Hr) as Hn.
  clear Hr. vm_compute in Er. injection Er as <- <-. split; [reflexivity|]. exact Hn.
Defined.

(** A client connects twice to the same server, loses it and connects again. *)
Definition lab_client_ops : list EpOp :=
  [OpNet [Some (lab_conn "127.0.0.1"%string); Some (lab_conn "127.0.0.1"%string)]; OpConnect EmptyString "tcp://127.0.0.1:60010"%string 1 0;
   OpConnect EmptyString "tcp://127.0.0.1:60011"%string 2 0; OpKickOut 0].

Lemma client_one_connection_witness : exists ep out, run_ops (E := lab_ep_env) lab_client_ops lab_client = Some (ep, out) /\
  co_mInsecureSessionCnt (ep_core ep) = 1 /\ getSession 1 ep = Some 1 /\ co_mInsecureSessionCnt (ep_core ep) <= 1.
Proof.
  destruct (run_ops (E := lab_ep_env) lab_client_ops lab_client) as [[ep out]|] eqn:Er; [|exfalso; vm_compute in Er; discriminate].
  exists ep, out. split; [reflexivity|].
  pose proof (run_ops_client (E := lab_ep_env) lab_client lab_client_ops eq_refl _ _ _ (client_reach_start _) Er) as Hr.
  pose proof (client_one_connection (E := lab_ep_env) (lab_bare 1 0 FDB_OBJECT_ROLE_CLIENT) false true ep
                (fun _ => eq_refl) (conj eq_refl eq_refl) eq_refl Hr) as (_ & Hn & _).
  clear Hr. vm_compute in Er. injection Er as <- <-. split; [reflexivity|]. split; [reflexivity|]. exact Hn.
Defined.

(** Encrypted messages find no session on this server, the others find the first. *)
Lemma preferredPeer_exact_witness :
  match run_ops (E := lab_ep_env) (take 4 lab_ops) lab_server with
  | Some (ep, _) => preferredPeer FDB_QOS_RELIABLE ep = Some 0 /\ preferredPeer FDB_QOS_SECURE_RELIABLE ep = None
  | None => False
  end.
Proof.
  destruct (run_ops (E := lab_ep_env) (take 4 lab_ops) lab_server) as [[ep out]|] eqn:Er; [|exfalso; vm_compute in Er; discriminate].
  pose proof (proj1 (preferredPeer_exact FDB_QOS_RELIABLE ep)) as E1. pose proof (proj1 (preferredPeer_exact FDB_QOS_SECURE_RELIABLE ep)) as E2.
  rewrite E1, E2. clear E1 E2. vm_compute in Er. injection Er as <- <-. split; vm_compute; reflexivity.
Defined.

(** *** What goes wrong *)

(** An endpoint that refuses a session counts it when it is deleted: with one session there,
    refusing another one announces that the last one left. *)
Definition deny_env : EpEnv := mkEpEnv (fun oid s => negb (String.eqb (sv_peer (es_view s)).1 "10.0.0.3"%string)) false true (fun _ _ _ => true) false false.

Example rejected_session_counted :
  match run_ops (E := deny_env) [OpBind true EmptyString "tcp://127.0.0.1:60010"%string; OpAccept 0 (Some (lab_conn "10.0.0.2"%string));
                                 OpAccept 0 (Some (lab_conn "10.0.0.3"%string))] lab_server with
  | Some (ep, out) =>
      notes out = [NoteUp 0 true; NoteDown (-1) true] /\ co_mInsecureSessionCnt (ep_core ep) = 0 /\ connected false (ep_core ep) = 1 /\
      spec_notes [] (notes out) = None
  | None => False
  end.
Proof. vm_compute. done. Qed.

(** Disconnecting a session the client does not have closes all its connections. *)
Example disconnect_unknown_closes_all :
  match run_ops (E := lab_ep_env) [OpNet [Some (lab_conn "127.0.0.1"%string)]; OpConnect EmptyString "tcp://127.0.0.1:60010"%string 1 0;
                                OpDisconnect 99] lab_client with
  | Some (ep, out) => notes out = [NoteUp 0 true; NoteDown 0 true] /\ connected_sessions (ep_core ep) = []
  | None => False
  end.
Proof. vm_compute. done. Qed.

(** An object bound a second time gets a number that is not the one it is stored under: it
    cannot be removed any more. *)
Example rebound_object_stays :
  let o := lab_bare 2 9 FDB_OBJECT_ROLE_SERVER in
  match (_ ← addToEndpoint (E := lab_ep_env) FDB_OBJECT_ROLE_SERVER 7 o;
         _ ← addToEndpoint (E := lab_ep_env) FDB_OBJECT_ROLE_SERVER 8 o; removeObject (E := lab_ep_env) 2) lab_server with
  | Some (_, ep, _) => (fun e => (e.1, eo_ptr e.2, eo_objId e.2)) <$> mEntryContainer (ep_objects ep) = [(65536 + 7, 2, 8)]
  | None => False
  end.
Proof. vm_compute. done. Qed.

(** A second server object of a class is refused, but its [bind] returns the number it asked for. *)
Example refused_object_reported_bound :
  match (_ ← addToEndpoint (E := lab_ep_env) FDB_OBJECT_ROLE_SERVER 7 (lab_bare 2 0 FDB_OBJECT_ROLE_SERVER);
         addToEndpoint (E := lab_ep_env) FDB_OBJECT_ROLE_SERVER 7 (lab_bare 3 0 FDB_OBJECT_ROLE_SERVER)) lab_server with
  | Some (oid, ep, _) => oid = 7 /\ objects_has 3 ep = false
  | None => False
  end.
Proof. vm_compute. done. Qed.
