(* ===== verification/Context.v ===== *)
(** The endpoints of a context: [CFdbBaseContext] of src/fdbus/CFdbBaseContext.cpp.

    A context numbers its endpoints with 16 bits and finds them by number, the way messages
    name them. Endpoints are objects of the application: an endpoint is a number here, its
    address, and [cx_endpoints] holds what the context reads and writes of it. The model is
    that of the build without CONFIG_CREATE_EP_ASYNC, in which registration is synchronous. *)
From S2P Require Import Prelude CommonDefs StdMap EventObject Session.

(** ** Data *)

Record CtxEndpoint := mkCtxEndpoint {
  ce_epid : Z; ce_role : EFdbEndpointRole; ce_nsName : string; ce_instanceId : Z; ce_migrate : bool }.

Record CFdbBaseContext := mkContext { cx_endpoints : smap Z CtxEndpoint; cx_mEndpointContainer : CEntityContainer Z }.

Implicit Types cx : CFdbBaseContext.
Implicit Types e : CtxEndpoint.

(** [FdbEndpointId_t] has 16 bits: so has the invalid number. *)
Definition FDB_INVALID_EPID : Z := u16 FDB_INVALID_ID.
Definition valid_epid (id : Z) : bool := negb (id =? FDB_INVALID_EPID).

Definition allocateEndpointId (t : CEntityContainer Z) : Z * CEntityContainer Z :=
  (mEntryAllocator t, mkContainer (u16 (mEntryAllocator t + 1)) (mEntryContainer t)).

Definition ce_set_epid (id : Z) (migrate : bool) e : CtxEndpoint :=
  mkCtxEndpoint id (ce_role e) (ce_nsName e) (ce_instanceId e) migrate.

Definition getEndpoint (id : Z) cx : option Z := retrieveEntry id (cx_mEndpointContainer cx).

(** ** Registration *)

(** [doRegisterEndpoint]: [None] is an access to an endpoint that is not there. *)
Definition doRegisterEndpoint (p : Z) cx : option (Z * CFdbBaseContext) :=
  e ← m_find p (cx_endpoints cx);
  if valid_epid (ce_epid e) && findEntry (Z.eqb p) (cx_mEndpointContainer cx) then Some (ce_epid e, cx) else
  let '(id, t) := if valid_epid (ce_epid e) then (ce_epid e, cx_mEndpointContainer cx)
                  else allocateEndpointId (cx_mEndpointContainer cx) in
  Some (id, mkContext (m_set p (ce_set_epid id true e) (cx_endpoints cx)) (insertEntry id p t).2).

(** The endpoint written is the one whose registration is taken back. *)
Definition doUnregisterEndpoint (p : Z) cx : option CFdbBaseContext :=
  e ← m_find p (cx_endpoints cx);
  match retrieveEntry (ce_epid e) (cx_mEndpointContainer cx) with
  | Some _ => Some (mkContext (m_set p (ce_set_epid FDB_INVALID_EPID false e) (cx_endpoints cx))
                      (deleteEntry (ce_epid e) (cx_mEndpointContainer cx)))
  | None => Some cx
  end.

Definition registerEndpoint (p : Z) cx : option (Z * CFdbBaseContext) :=
  e ← m_find p (cx_endpoints cx);
  if valid_epid (ce_epid e) then Some (ce_epid e, cx) else doRegisterEndpoint p cx.

Definition serverAlreadyRegistered (p : Z) cx : option bool :=
  e ← m_find p (cx_endpoints cx);
  l ← mapM (fun x => (fun y => (x.2, y)) <$> m_find x.2 (cx_endpoints cx)) (mEntryContainer (cx_mEndpointContainer cx));
  Some (existsb (fun '(q, y) => bool_decide (ce_role y = FDB_OBJECT_ROLE_SERVER) && String.eqb (ce_nsName y) (ce_nsName e)
                  && (negb (fdbIsGroup (ce_instanceId y)) && (ce_instanceId y =? ce_instanceId e)) && negb (q =? p)) l).

(** [bind] and [connect] give an endpoint its service name and instance. *)
Definition setService (p : Z) (name : string) (instance_id : Z) cx : option CFdbBaseContext :=
  e ← m_find p (cx_endpoints cx);
  Some (mkContext (m_set p (mkCtxEndpoint (ce_epid e) (ce_role e) name instance_id (ce_migrate e)) (cx_endpoints cx)) (cx_mEndpointContainer cx)).

(** An endpoint is created with an invalid number; its destructor takes the registration back. *)
Definition newEndpoint (p : Z) (role : EFdbEndpointRole) cx : CFdbBaseContext :=
  mkContext (m_set p (mkCtxEndpoint FDB_INVALID_EPID role EmptyString 0 false) (cx_endpoints cx)) (cx_mEndpointContainer cx).

Definition deleteEndpoint (p : Z) cx : option CFdbBaseContext :=
  cx ← doUnregisterEndpoint p cx; Some (mkContext (m_erase p (cx_endpoints cx)) (cx_mEndpointContainer cx)).

Definition context_new : CFdbBaseContext := mkContext [] (mkContainer 0 []).

(** ** The invariant *)

Record context_ok cx : Prop := {
  xo_sorted : m_sorted (cx_endpoints cx);
  xo_table : m_sorted (mEntryContainer (cx_mEndpointContainer cx));
  xo_alloc : 0 <= mEntryAllocator (cx_mEndpointContainer cx) <= FDB_INVALID_EPID;
  xo_range : forall id p, getEndpoint id cx = Some p -> 0 <= id < mEntryAllocator (cx_mEndpointContainer cx);
  xo_epid : forall id p, getEndpoint id cx = Some p -> exists e, m_find p (cx_endpoints cx) = Some e /\ ce_epid e = id;
  xo_found : forall p e, m_find p (cx_endpoints cx) = Some e -> valid_epid (ce_epid e) = true -> getEndpoint (ce_epid e) cx = Some p }.

Inductive context_reach : CFdbBaseContext -> Prop :=
  | context_start : context_reach context_new
  | context_create cx p role : context_reach cx -> m_find p (cx_endpoints cx) = None -> context_reach (newEndpoint p role cx)
  | context_register cx p id cx' : context_reach cx -> mEntryAllocator (cx_mEndpointContainer cx) < FDB_INVALID_EPID ->
      registerEndpoint p cx = Some (id, cx') -> context_reach cx'
  | context_unregister cx p cx' : context_reach cx -> doUnregisterEndpoint p cx = Some cx' -> context_reach cx'
  | context_service cx p name id cx' : context_reach cx -> setService p name id cx = Some cx' -> context_reach cx'
  | context_delete cx p cx' : context_reach cx -> deleteEndpoint p cx = Some cx' -> context_reach cx'.

Lemma ctx_not_registered p e cx : context_ok cx -> m_find p (cx_endpoints cx) = Some e -> valid_epid (ce_epid e) = false ->
  forall id, getEndpoint id cx <> Some p.
Proof.
  intros [] He Hv id Hg. destruct (xo_epid0 _ _ Hg) as (e' & He' & Hid). rewrite He in He'. simplify_eq.
  apply xo_range0 in Hg. unfold valid_epid in Hv. apply negb_false_iff, Z.eqb_eq in Hv. lia.
Qed.

(** A change of an endpoint that keeps its number. *)
Lemma ctx_update p e e' cx : context_ok cx -> m_find p (cx_endpoints cx) = Some e -> ce_epid e' = ce_epid e ->
  context_ok (mkContext (m_set p e' (cx_endpoints cx)) (cx_mEndpointContainer cx)).
Proof.
  intros [] He Hid. split; try done; cbn.
  - by apply m_sorted_set.
  - intros id q Hg. destruct (xo_epid0 _ _ Hg) as (x & Hx & Ex). rewrite m_find_set_dec by done. case_decide; [|eauto].
    subst q. exists e'. split; [done|]. rewrite He in Hx. by simplify_eq.
  - intros q x. rewrite m_find_set_dec by done. case_decide; [|apply xo_found0]. intros [= <-]. subst q. rewrite Hid. by apply xo_found0.
Qed.

Lemma ctx_create p role cx : context_ok cx -> m_find p (cx_endpoints cx) = None -> context_ok (newEndpoint p role cx).
Proof.
  intros [] Hn. split; try done; cbn.
  - by apply m_sorted_set.
  - intros id q Hg. destruct (xo_epid0 _ _ Hg) as (x & Hx & Ex). rewrite m_find_set_dec by done. case_decide; [subst; congruence|eauto].
  - intros q x. rewrite m_find_set_dec by done. case_decide; [|apply xo_found0]. intros [= <-]. done.
Qed.

Lemma ctx_register p id cx cx' : context_ok cx -> mEntryAllocator (cx_mEndpointContainer cx) < FDB_INVALID_EPID ->
  registerEndpoint p cx = Some (id, cx') -> context_ok cx'.
Proof.
  intros Hok Hb. unfold registerEndpoint, doRegisterEndpoint. destruct (m_find p (cx_endpoints cx)) as [e|] eqn:He; [|done].
  cbn [mbind option_bind]. destruct (valid_epid (ce_epid e)) eqn:Hv; [intros [= <- <-]; done|]. cbn [andb].
  pose proof (ctx_not_registered p e cx Hok He Hv) as Hno. destruct Hok. unfold allocateEndpointId. set (n := mEntryAllocator _) in *.
  assert (u16 (n + 1) = n + 1) as Hu by (apply wrap_u_small; unfold in_u; change FDB_INVALID_EPID with 65535 in *; lia).
  assert (m_find n (mEntryContainer (cx_mEndpointContainer cx)) = None) as Hn.
  { destruct (m_find n _) eqn:Ef; [|done]. apply xo_range0 in Ef. lia. }
  intros [= <- <-]. unfold insertEntry. cbn [mEntryContainer]. rewrite Hn. cbn [snd]. split; cbn.
  - by apply m_sorted_set.
  - by apply m_sorted_set.
  - rewrite Hu. lia.
  - intros id q. unfold getEndpoint, retrieveEntry. cbn. rewrite m_find_set_dec, Hu by done. case_decide; [lia|].
    intros Hg. apply xo_range0 in Hg. lia.
  - intros id q. unfold getEndpoint, retrieveEntry. cbn. rewrite !m_find_set_dec by done. case_decide.
    + intros [= <-]. rewrite decide_True by done. subst. eauto.
    + intros Hg. rewrite decide_False by (intros ->; by apply (Hno id)). eauto.
  - intros q x. unfold getEndpoint, retrieveEntry. cbn. rewrite !m_find_set_dec by done. case_decide.
    + intros [= <-] _. subst. cbn. by rewrite decide_True.
    + intros Hq Hx. rewrite decide_False; [by apply xo_found0|]. intros Eq. specialize (xo_found0 _ _ Hq Hx).
      unfold getEndpoint, retrieveEntry in xo_found0. rewrite Eq in xo_found0. congruence.
Qed.

Lemma ctx_unregister p cx cx' : context_ok cx -> doUnregisterEndpoint p cx = Some cx' ->
  context_ok cx' /\ forall id, getEndpoint id cx' <> Some p.
Proof.
  intros Hok. unfold doUnregisterEndpoint. destruct (m_find p (cx_endpoints cx)) as [e|] eqn:He; [|done]. cbn [mbind option_bind].
  destruct (retrieveEntry (ce_epid e) (cx_mEndpointContainer cx)) as [q|] eqn:Eg; intros [= <-].
  - assert (valid_epid (ce_epid e) = true) as Hv.
    { pose proof (xo_range _ Hok _ _ Eg). pose proof (xo_alloc _ Hok). unfold valid_epid. apply negb_true_iff, Z.eqb_neq. lia. }
    pose proof (xo_found _ Hok p e He Hv) as Hf. unfold getEndpoint in Hf. rewrite Hf in Eg. simplify_eq. destruct Hok.
    assert (forall id r, getEndpoint id (mkContext (m_set q (ce_set_epid FDB_INVALID_EPID false e) (cx_endpoints cx))
              (deleteEntry (ce_epid e) (cx_mEndpointContainer cx))) = Some r -> getEndpoint id cx = Some r /\ id <> ce_epid e) as Hsub.
    { intros id r. unfold getEndpoint, retrieveEntry, deleteEntry. cbn. rewrite m_find_erase_dec by done. by case_decide. }
    assert (forall id, getEndpoint id cx = Some q -> id = ce_epid e) as Huniq.
    { intros id Hg. destruct (xo_epid0 _ _ Hg) as (x & Hx & Ex). rewrite He in Hx. by simplify_eq. }
    split; [split|].
    + by apply m_sorted_set.
    + by apply m_sorted_erase.
    + done.
    + intros id r Hg. apply Hsub in Hg as [Hg _]. by apply (xo_range0 id r).
    + intros id r Hg. apply Hsub in Hg as [Hg Hne]. cbn. rewrite m_find_set_dec, decide_False by (try done; intros ->; by apply Hne, Huniq). eauto.
    + intros r x. cbn. rewrite m_find_set_dec by done. case_decide; [intros [= <-]; done|]. intros Hr Hx.
      unfold getEndpoint, retrieveEntry, deleteEntry. cbn. rewrite m_find_erase_dec, decide_False; [by apply xo_found0| |done].
      intros Eq. specialize (xo_found0 _ _ Hr Hx). rewrite Eq in xo_found0. unfold getEndpoint in xo_found0. congruence.
    + intros id Hg. apply Hsub in Hg as [Hg Hne]. by apply Hne, Huniq.
  - split; [done|]. intros id Hg. destruct (xo_epid _ Hok _ _ Hg) as (x & Hx & Ex). rewrite He in Hx. simplify_eq. unfold getEndpoint in Hg. congruence.
Qed.

Lemma ctx_delete p cx cx' : context_ok cx -> deleteEndpoint p cx = Some cx' -> context_ok cx'.
Proof.
  intros Hok. unfold deleteEndpoint. destruct (doUnregisterEndpoint p cx) as [cx1|] eqn:Eu; [|done]. intros [= <-].
  destruct (ctx_unregister p cx cx1 Hok Eu) as [[] Hno]. split; try done; cbn.
  - by apply m_sorted_erase.
  - intros id q Hg. destruct (xo_epid0 id q Hg) as (x & Hx & Ex). rewrite m_find_erase_dec, decide_False; [eauto| |done]. intros ->. by apply (Hno id).
  - intros q x. rewrite m_find_erase_dec by done. case_decide; [done|]. apply xo_found0.
Qed.

Lemma context_reach_ok cx : context_reach cx -> context_ok cx.
Proof.
  induction 1 as [|cx p role _ IH Hn|cx p id cx' _ IH Hb Hr|cx p cx' _ IH Hu|cx p name id cx' _ IH Hs|cx p cx' _ IH Hd].
  - split; try done; by vm_compute.
  - by apply ctx_create.
  - by apply (ctx_register p id cx).
  - by apply (ctx_unregister p cx).
  - unfold setService in Hs. destruct (m_find p (cx_endpoints cx)) as [e|] eqn:He; simplify_eq/=. by apply (ctx_update p e).
  - by apply (ctx_delete p cx).
Qed.

(** The registered server with the service of [e], if there is one beside the endpoint [p]. *)
Definition rival_server (p : Z) e (q : Z) (y : CtxEndpoint) : Prop :=
  ce_role y = FDB_OBJECT_ROLE_SERVER /\ ce_nsName y = ce_nsName e /\ fdbIsGroup (ce_instanceId y) = false /\
  ce_instanceId y = ce_instanceId e /\ q <> p.

Lemma already_registered_spec p e cx : context_ok cx -> m_find p (cx_endpoints cx) = Some e ->
  exists b, serverAlreadyRegistered p cx = Some b /\
    (b = true <-> exists q y, m_find q (cx_endpoints cx) = Some y /\ valid_epid (ce_epid y) = true /\ rival_server p e q y).
Proof.
  intros Hok He. unfold serverAlreadyRegistered. rewrite He. cbn [mbind option_bind].
  assert (forall x, x ∈ mEntryContainer (cx_mEndpointContainer cx) -> getEndpoint x.1 cx = Some x.2) as Hin.
  { intros [id q] Hx. apply m_find_In; [apply Hok|done]. }
  assert (exists l, mapM (fun x => (fun y => (x.2, y)) <$> m_find x.2 (cx_endpoints cx)) (mEntryContainer (cx_mEndpointContainer cx)) = Some l) as [l Hl].
  { apply mapM_is_Some_2, Forall_forall. intros x Hx. destruct (xo_epid _ Hok _ _ (Hin x Hx)) as (y & Hy & _). unfold compose. rewrite Hy. by eexists. }
  rewrite Hl. eexists. split; [done|]. apply mapM_Some in Hl. rewrite existsb_exists. split.
  - intros ([q y] & Hq & Hb). apply list_elem_of_In in Hq. destruct (list_elem_of_lookup_1 _ _ Hq) as [i Hi].
    destruct (Forall2_lookup_r _ _ _ _ _ Hl Hi) as ([id r] & Hr & Hf). cbn in Hf. destruct (m_find r (cx_endpoints cx)) as [z|] eqn:Hz; simplify_eq/=.
    exists q, y. pose proof (Hin (id, q) (list_elem_of_lookup_2 _ _ _ Hr)) as Hg. cbn in Hg. split; [done|].
    destruct (xo_epid _ Hok _ _ Hg) as (y' & Hy' & Ey). rewrite Hz in Hy'. simplify_eq. split.
    + pose proof (xo_range _ Hok _ _ Hg). pose proof (xo_alloc _ Hok). unfold valid_epid. apply negb_true_iff, Z.eqb_neq. lia.
    + apply andb_prop in Hb as [[[H1%bool_decide_eq_true H2%String.eqb_eq]%andb_prop [H3 H4%Z.eqb_eq]%andb_prop]%andb_prop H5].
      apply negb_true_iff in H3. apply negb_true_iff, Z.eqb_neq in H5. done.
  - intros (q & y & Hq & Hv & H1 & H2 & H3 & H4 & H5). pose proof (xo_found _ Hok q y Hq Hv) as Hg. unfold getEndpoint, retrieveEntry in Hg.
    apply m_find_In in Hg; [|apply Hok]. destruct (list_elem_of_lookup_1 _ _ Hg) as [i Hi].
    destruct (Forall2_lookup_l _ _ _ _ _ Hl Hi) as (z & Hz & Hf). cbn in Hf. rewrite Hq in Hf. simplify_eq/=.
    exists (q, y). split; [apply list_elem_of_In; by apply (list_elem_of_lookup_2 _ i)|].
    rewrite (bool_decide_true _ H1), H2, String.eqb_refl, H3, H4, Z.eqb_refl. cbn. apply negb_true_iff. by apply Z.eqb_neq.
Qed.

(** C18: As long as fewer than 65535 numbers have been given to endpoints, an endpoint that has a
    number is found by it and by it alone, no two endpoints have the same one, and a service is
    reported as registered exactly when another registered server has its name and instance, which
    the number of a group never is;
    no number wraps around and no endpoint that was deleted is looked at. *)
Theorem endpoint_numbers (cx : CFdbBaseContext) : context_reach cx ->
  (forall p e, m_find p (cx_endpoints cx) = Some e -> valid_epid (ce_epid e) = true -> getEndpoint (ce_epid e) cx = Some p) /\
  (forall id p, getEndpoint id cx = Some p -> 0 <= id < FDB_INVALID_EPID /\ exists e, m_find p (cx_endpoints cx) = Some e /\ ce_epid e = id) /\
  (forall p e, m_find p (cx_endpoints cx) = Some e -> exists b, serverAlreadyRegistered p cx = Some b /\
     (b = true <-> exists q y, m_find q (cx_endpoints cx) = Some y /\ valid_epid (ce_epid y) = true /\ rival_server p e q y)).
Proof.
  intros Hr. pose proof (context_reach_ok cx Hr) as Hok. split_and!; [apply Hok| |].
  - intros id p Hg. split; [|by apply Hok]. pose proof (xo_range _ Hok _ _ Hg). pose proof (xo_alloc _ Hok). lia.
  - intros p e He. by apply already_registered_spec.
Qed.

(** Two servers with the same service, on a context without others, step by step. *)
Definition lab_created : CFdbBaseContext := newEndpoint 20 FDB_OBJECT_ROLE_SERVER (newEndpoint 10 FDB_OBJECT_ROLE_SERVER context_new).
Definition lab_numbered : CFdbBaseContext := default context_new (snd <$> registerEndpoint 10 lab_created).
Definition lab_registered : CFdbBaseContext := default context_new (snd <$> registerEndpoint 20 lab_numbered).
Definition lab_named : CFdbBaseContext := default context_new (setService 10 "media"%string 0 lab_registered).
Definition lab_context : CFdbBaseContext := default context_new (setService 20 "media"%string 0 lab_named).

Lemma lab_context_reach : context_reach lab_context.
Proof.
  assert (context_reach lab_created) as H1 by (apply context_create; [apply context_create; [apply context_start|]|]; reflexivity).
  assert (context_reach lab_numbered) as H2 by (apply (context_register lab_created 10 0); [done|reflexivity|reflexivity]).
  assert (context_reach lab_registered) as H3 by (apply (context_register lab_numbered 20 1); [done|reflexivity|reflexivity]).
  assert (context_reach lab_named) as H4 by (apply (context_service lab_registered 10 "media"%string 0); [done|reflexivity]).
  by apply (context_service lab_named 20 "media"%string 0).
Qed.

Lemma endpoint_numbers_witness : getEndpoint 1 lab_context = Some 20 /\ serverAlreadyRegistered 20 lab_context = Some true.
Proof.
  pose proof lab_context_reach as Hr.
  destruct (endpoint_numbers lab_context Hr) as (H1 & _ & H3). split.
  - apply (H1 20 (mkCtxEndpoint 1 FDB_OBJECT_ROLE_SERVER "media"%string 0 true)); vm_compute; reflexivity.
  - destruct (H3 20 (mkCtxEndpoint 1 FDB_OBJECT_ROLE_SERVER "media"%string 0 true)) as (b & Hb & Hi); [vm_compute; reflexivity|].
    rewrite Hb. f_equal. apply Hi. exists 10, (mkCtxEndpoint 0 FDB_OBJECT_ROLE_SERVER "media"%string 0 true).
    split_and!; vm_compute; try reflexivity; done.
Defined.

(** The number after 65534 is the invalid one, and the next is 0 again: an endpoint that gets the
    number of another one is not in the table, and its end takes the other one out. *)
Example numbers_wrap :
  let cx := mkContext [(10, mkCtxEndpoint 0 FDB_OBJECT_ROLE_SERVER EmptyString 0 true)] (mkContainer 65535 [(0, 10)]) in
  (cx ← Some (newEndpoint 30 FDB_OBJECT_ROLE_CLIENT (newEndpoint 20 FDB_OBJECT_ROLE_CLIENT cx));
   '(id20, cx) ← registerEndpoint 20 cx; '(id30, cx) ← registerEndpoint 30 cx;
   cx' ← deleteEndpoint 30 cx; Some (id20, valid_epid id20, id30, getEndpoint 0 cx, getEndpoint 0 cx'))
  = Some (65535, false, 0, Some 10, None).
Proof. reflexivity. Qed.
