(* ===== verification/Dispatcher.v ===== *)
(** The tables of handlers: src/fdbus/CFdbMsgDispatcher.cpp and the members of
    src/fdbus/CFdbBaseObject.cpp that use them.

    A server registers handlers for method codes ([CFdbMsgDispatcher]), a client for events
    ([CBaseEventDispatcher], a map from event codes to topics to registrations, each with a
    number of 32 bits). A handler is a value of an abstract type [H]; what is done with it is a
    [Call]: it is called at once or sent to a worker. The calling thread is the number [self]. *)
From S2P Require Import Prelude CommonDefs StdMap Codec WireBase Subscribe FdWatch Framing Message.

Section handlers.
Context {H : Type}.

(** ** Methods *)

Record CMsgHandleItem := mkMsgItem { mi_mCode : Z; mi_mCallback : option H; mi_mWorker : option Z }.
Abbreviation CMsgHandleTbl := (list CMsgHandleItem).
Abbreviation CFdbMsgDispatcher := (smap Z CMsgHandleItem).

Definition msgtbl_add (code : Z) (callback : option H) (worker : option Z) (t : CMsgHandleTbl) : bool * CMsgHandleTbl :=
  match callback with
  | None => (false, t)
  | Some _ => (true, t ++ [mkMsgItem code callback worker])
  end.

Definition msg_registerCallback (msg_tbl : CMsgHandleTbl) (d : CFdbMsgDispatcher) : bool * CFdbMsgDispatcher :=
  foldl (fun '(ret, d) it => match m_find (mi_mCode it) d with
                             | Some _ => (false, d)
                             | None => (ret, m_set (mi_mCode it) it d)
                             end) (true, d) msg_tbl.

Definition msg_enabled (d : CFdbMsgDispatcher) : bool := negb (m_empty d).

(** Called by the thread that dispatches, or sent to a worker; with an automatic reply after
    the handler, or without. *)
Inductive Call :=
  | CallHere (h : H)
  | CallOn (worker : Z) (auto_reply : bool) (h : H).

(** [!worker || worker->isSelf()] *)
Definition call_by (self : Z) (auto_reply : bool) (worker : option Z) (h : H) : Call :=
  match worker with
  | Some w => if w =? self then CallHere h else CallOn w auto_reply h
  | None => CallHere h
  end.
Definition or_worker (worker obj_worker : option Z) : option Z :=
  match worker with Some w => Some w | None => obj_worker end.

(** [None] is the result [false]: no handler. *)
Definition msg_processMessage (self : Z) (obj_worker : option Z) (code : Z) (d : CFdbMsgDispatcher) : option Call :=
  it ← m_find code d; h ← mi_mCallback it;
  Some (call_by self true (or_worker (mi_mWorker it) obj_worker) h).

(** ** Events *)

Record CEvtHandleItem := mkEvtItem {
  ei_mCode : Z; ei_mCallback : option H; ei_mTopic : string; ei_mWorker : option Z; ei_mFlag : Z }.
Abbreviation CEvtHandleTbl := (list CEvtHandleItem).

Record CBaseEventDispatcher := mkEvtDispatcher {
  ed_mRegistryTbl : smap Z (smap string (smap Z CEvtHandleItem));
  ed_mRegIdAllocator : Z }.
Definition CBaseEventDispatcher_new : CBaseEventDispatcher := mkEvtDispatcher [] 0.

Definition evttbl_add (code : Z) (callback : option H) (worker : option Z) (topic : option string) (flag : Z)
    (t : CEvtHandleTbl) : bool * CEvtHandleTbl :=
  match callback with
  | None => (false, t)
  | Some _ => (true, t ++ [mkEvtItem code callback (c_str (cstr_or_empty topic)) worker flag])
  end.
Definition evttbl_addGroup (group : Z) (callback : option H) (worker : option Z) (topic : option string) (flag : Z)
    (t : CEvtHandleTbl) : bool * CEvtHandleTbl :=
  evttbl_add (fdbMakeGroupEvent group) callback worker topic flag t.

(** [mRegistryTbl[code][topic][id] = item] *)
Definition register_one (it : CEvtHandleItem) (d : CBaseEventDispatcher) : Z * CBaseEventDispatcher :=
  let id := ed_mRegIdAllocator d in
  let topics := m_at [] (ei_mCode it) (ed_mRegistryTbl d) in
  (id, mkEvtDispatcher (m_set (ei_mCode it) (m_set (ei_mTopic it) (m_set id it (m_at [] (ei_mTopic it) topics)) topics) (ed_mRegistryTbl d))
         (u32 (id + 1))).

(** The numbers given come back in order: [registered_evt_tbl]. *)
Fixpoint evt_registerCallback (evt_tbl : CEvtHandleTbl) (d : CBaseEventDispatcher) : list Z * CBaseEventDispatcher :=
  match evt_tbl with
  | [] => ([], d)
  | it :: l => let '(id, d) := register_one it d in
               let '(ids, d) := evt_registerCallback l d in (id :: ids, d)
  end.

(** The registrations for one topic, all or those listed. *)
Definition pick_handles (registered : list Z) (callbacks : smap Z CEvtHandleItem) : list CEvtHandleItem :=
  match registered with
  | [] => callbacks.*2
  | _ => (filter (fun e : Z * CEvtHandleItem => e.1 ∈ registered) callbacks).*2
  end.

(** The topics looked up: that of the message, then the empty one, once. *)
Definition match_topics (topic : string) : list string :=
  if is_empty_str (c_str topic) then [EmptyString] else [c_str topic; EmptyString].

(** What [processMessage] appends to [handles_to_invoke]. *)
Definition evt_processMessage (code : Z) (topic : string) (registered : list Z) (d : CBaseEventDispatcher) : list CEvtHandleItem :=
  match m_find code (ed_mRegistryTbl d) with
  | None => []
  | Some topics => t ← match_topics topic; pick_handles registered (m_at [] t topics)
  end.

(** [migrateCallback] of [CFdbSetEvtDispatcher] and of [CFdbEventDispatcher]. *)
Definition setevt_migrateCallback (self : Z) (obj_worker : option Z) (it : CEvtHandleItem) : option Call :=
  call_by self true (or_worker (ei_mWorker it) obj_worker) <$> ei_mCallback it.
Definition evt_migrateCallback (self : Z) (it : CEvtHandleItem) : option Call :=
  call_by self false (ei_mWorker it) <$> ei_mCallback it.

(** [dispatchEvents]: the first handler gets the message itself and the others copies of it.
    [None] is a copy from outside of the message's buffer. *)
Definition dispatchEvents (migrate : CEvtHandleItem -> option Call) (handles : list CEvtHandleItem) (m : FdbMessage) :
    option (list (Call * FdbMessage)) :=
  match handles with
  | [] => Some []
  | it :: l =>
      copies ← mapM (fun it => (fun m' => (it, m')) <$> msg_copy m) l;
      Some (omap (fun e : CEvtHandleItem * FdbMessage => (fun c => (c, e.2)) <$> migrate e.1) ((it, m) :: copies))
  end.

(** One entry for every event and topic, with the flag of the oldest registration. *)
Definition dumpEvents (d : CBaseEventDispatcher) : list (Z * string * Z) :=
  '(code, topics) ← ed_mRegistryTbl d; '(topic, regids) ← topics;
  match regids with [] => [] | (_, it) :: _ => [(code, c_str topic, ei_mFlag it)] end.
Definition dumpEventDetails (d : CBaseEventDispatcher) : list CEvtHandleItem :=
  '(_, topics) ← ed_mRegistryTbl d; '(_, regids) ← topics; regids.*2.

(** ** The handlers of an object *)

(** [onBroadcast] and [onSetEvent]: the event, its group, all groups. *)
Definition event_scopes (code : Z) : list Z :=
  code :: (if fdbIsGroup code then [] else [fdbMakeGroup code])
       ++ (if fdbEventInGroup code FDB_EVENT_ALL_GROUPS then [] else [fdbMakeGroupEvent FDB_EVENT_ALL_GROUPS]).
Definition handles_to_invoke (m : FdbMessage) (registered : list Z) (d : CBaseEventDispatcher) : list CEvtHandleItem :=
  code ← event_scopes (m_mCode m); evt_processMessage code (m_mTopic m) registered d.

(** [afc] is the list of registrations a subscription request of the component framework
    carries; only the first values sent for it are restricted to them. *)
Definition onBroadcast (self : Z) (afc : option (list Z)) (m : FdbMessage) (d : CBaseEventDispatcher) : option (list (Call * FdbMessage)) :=
  let registered := match afc with Some l => if isInitialResponse m then l else [] | None => [] end in
  dispatchEvents (evt_migrateCallback self) (handles_to_invoke m registered d) m.
Definition onSetEvent (self : Z) (obj_worker : option Z) (m : FdbMessage) (d : CBaseEventDispatcher) : option (list (Call * FdbMessage)) :=
  dispatchEvents (setevt_migrateCallback self obj_worker) (handles_to_invoke m [] d) m.
Definition onInvoke (self : Z) (obj_worker : option Z) (m : FdbMessage) (d : CFdbMsgDispatcher) : option Call :=
  msg_processMessage self obj_worker (m_mCode m) d.

(** [doRegisterEventHandle]: the new numbers, and the events to subscribe to, when connected. *)
Definition doRegisterEventHandle (connected : bool) (evt_tbl : CEvtHandleTbl) (reg_handle : option (list Z)) (d : CBaseEventDispatcher) :
    CBaseEventDispatcher * option (list Z) * option (list (Z * string * Z) * list Z) :=
  let '(handle_tbl, d) := evt_registerCallback evt_tbl d in
  (d, (fun l => l ++ handle_tbl) <$> reg_handle,
   if connected then Some (map (fun it => (ei_mCode it, c_str (ei_mTopic it), ei_mFlag it)) evt_tbl, handle_tbl) else None).
End handlers.

(** ** What is dispatched *)

Section exact.
Context {H : Type}.
Implicit Types d : CBaseEventDispatcher (H := H).
Implicit Types l : list (CEvtHandleItem (H := H)).

(** The table as a flat list: registration [i] is the item at position [i]. *)
Definition numbered l : smap Z CEvtHandleItem := imap (fun i it => (Z.of_nat i, it)) l.
Definition under (code : Z) (topic : string) (e : Z * CEvtHandleItem (H := H)) : bool :=
  (ei_mCode e.2 =? code) && String.eqb (ei_mTopic e.2) topic.
Definition registered_for (code : Z) (topic : string) l : smap Z CEvtHandleItem := List.filter (under code topic) (numbered l).

Lemma numbered_app l it : numbered (l ++ [it]) = numbered l ++ [(Z.of_nat (length l), it)].
Proof. unfold numbered. rewrite imap_app. cbn. by rewrite Nat.add_0_r. Qed.

Lemma numbered_below l : Forall (fun e => e.1 < Z.of_nat (length l)) (numbered l).
Proof.
  apply Forall_forall. intros e He. apply list_elem_of_lookup_1 in He as [i Hi]. unfold numbered in Hi.
  rewrite list_lookup_imap in Hi. destruct (l !! i) eqn:E; simplify_eq/=. apply lookup_lt_Some in E. lia.
Qed.

Lemma m_set_last {V} (k : Z) (v : V) (m : smap Z V) : Forall (fun e => e.1 < k) m -> m_set k v m = m ++ [(k, v)].
Proof.
  induction 1 as [|[j u] m Hj _ IH]; [done|]. cbn [m_set app]. cbn in Hj. cbn [klt Z_ord].
  destruct (Z.ltb_spec k j); [lia|]. destruct (Z.ltb_spec j k); [by rewrite IH|lia].
Qed.

(** The nested table holds the flat one. *)
Record holds l d : Prop := {
  hd_codes : m_sorted (ed_mRegistryTbl d);
  hd_topics : forall code topics, m_find code (ed_mRegistryTbl d) = Some topics -> m_sorted topics;
  hd_alloc : ed_mRegIdAllocator d = Z.of_nat (length l);
  hd_find : forall code topic, m_at [] topic (m_at [] code (ed_mRegistryTbl d)) = registered_for code topic l }.

Lemma holds_new : holds [] (CBaseEventDispatcher_new (H := H)).
Proof. by split. Qed.

Lemma m_at_set {K V} `{KeyOrd K} `{EqDecision K} (dflt v : V) (k j : K) (m : smap K V) :
  m_sorted m -> m_at dflt j (m_set k v m) = if decide (j = k) then v else m_at dflt j m.
Proof. intros Hm. unfold m_at. rewrite m_find_set_dec by done. by case_decide. Qed.

Lemma holds_sorted_at l d code : holds l d -> m_sorted (m_at [] code (ed_mRegistryTbl d)).
Proof. intros Hd. unfold m_at. destruct (m_find code _) as [topics|] eqn:E; [by apply (hd_topics _ _ Hd code)|done]. Qed.

Lemma registered_for_snoc code topic l it :
  registered_for code topic (l ++ [it]) = registered_for code topic l ++ (if under code topic (Z.of_nat (length l), it) then [(Z.of_nat (length l), it)] else []).
Proof. unfold registered_for. by rewrite numbered_app, List.filter_app. Qed.

Lemma register_one_holds l d it : holds l d -> Z.of_nat (length l) + 1 < 2 ^ 32 ->
  (register_one it d).1 = Z.of_nat (length l) /\ holds (l ++ [it]) (register_one it d).2.
Proof.
  intros Hd Hb. pose proof (holds_sorted_at l d (ei_mCode it) Hd) as Hs. unfold register_one. cbn [fst snd]. rewrite (hd_alloc _ _ Hd). split; [done|].
  split; cbn [ed_mRegistryTbl ed_mRegIdAllocator].
  - by apply m_sorted_set, Hd.
  - intros code topics. rewrite m_find_set_dec by apply Hd. case_decide; [|apply (hd_topics _ _ Hd)]. intros [= <-]. by apply m_sorted_set.
  - rewrite length_app. cbn. rewrite Nat2Z.inj_add. apply wrap_u_small. unfold in_u. lia.
  - intros code topic. rewrite registered_for_snoc. unfold under. cbn [fst snd]. rewrite m_at_set by apply Hd. case_decide as Ec.
    + subst code. rewrite m_at_set by done. rewrite Z.eqb_refl, andb_true_l. case_decide as Et.
      * subst topic. rewrite String.eqb_refl, (hd_find _ _ Hd). apply m_set_last. apply Forall_forall. intros e He.
        apply list_elem_of_In, List.filter_In in He as [He _]. apply list_elem_of_In in He. by apply (proj1 (Forall_forall _ _) (numbered_below l)).
      * destruct (String.eqb_spec (ei_mTopic it) topic); [congruence|]. by rewrite app_nil_r, (hd_find _ _ Hd).
    + destruct (Z.eqb_spec (ei_mCode it) code); [congruence|]. by rewrite andb_false_l, app_nil_r, (hd_find _ _ Hd).
Qed.

Lemma register_holds l' l d : holds l d -> Z.of_nat (length l + length l') < 2 ^ 32 ->
  (evt_registerCallback l' d).1 = seqZ (Z.of_nat (length l)) (Z.of_nat (length l')) /\ holds (l ++ l') (evt_registerCallback l' d).2.
Proof.
  revert l d. induction l' as [|it l' IH]; intros l d Hd Hb; [by rewrite app_nil_r|]. cbn [evt_registerCallback]. cbn [length] in *.
  destruct (register_one_holds l d it Hd ltac:(lia)) as [E1 H1]. destruct (register_one it d) as [id d1]. cbn in E1, H1. subst id.
  destruct (IH (l ++ [it]) d1 H1 ltac:(rewrite length_app; cbn; lia)) as [E2 H2]. destruct (evt_registerCallback l' d1) as [ids d2]. cbn in *.
  rewrite <- app_assoc in H2. split; [|done]. rewrite E2, length_app. cbn. rewrite (seqZ_cons (Z.of_nat (length l))) by lia.
  f_equal. f_equal; lia.
Qed.

(** The reference: walk over the scopes of the event and its topics, and take from the flat list,
    in the order of registration, what is registered there and asked for. *)
Definition selected l (code : Z) (topic : string) (registered : list Z) : list CEvtHandleItem :=
  scope ← event_scopes code; t ← match_topics topic;
  (List.filter (fun e => under scope t e && (bool_decide (registered = []) || bool_decide (e.1 ∈ registered))) (numbered l)).*2.

Lemma filter_filter {A} (f g : A -> bool) (l : list A) : List.filter g (List.filter f l) = List.filter (fun x => f x && g x) l.
Proof. induction l as [|x l IH]; [done|]. cbn. destruct (f x); cbn; [destruct (g x)|]; by rewrite IH. Qed.

Lemma std_filter {A} (P : A -> Prop) `{!forall x, Decision (P x)} (l : list A) : filter P l = List.filter (fun x => bool_decide (P x)) l.
Proof. induction l as [|x l IH]; [done|]. rewrite filter_cons. cbn. case_decide; [rewrite bool_decide_true by done|rewrite bool_decide_false by done]; by rewrite IH. Qed.

Lemma pick_spec l registered code topic :
  pick_handles registered (registered_for code topic l) =
  (List.filter (fun e => under code topic e && (bool_decide (registered = []) || bool_decide (e.1 ∈ registered))) (numbered l)).*2.
Proof.
  unfold registered_for. destruct registered as [|r rs]; cbn [pick_handles].
  - f_equal. apply List.filter_ext. intros e. rewrite bool_decide_true by done. by rewrite andb_true_r.
  - rewrite std_filter, filter_filter. done.
Qed.

Lemma processMessage_spec l d code topic registered : holds l d ->
  evt_processMessage code topic registered d =
  t ← match_topics topic; (List.filter (fun e => under code t e && (bool_decide (registered = []) || bool_decide (e.1 ∈ registered))) (numbered l)).*2.
Proof.
  intros Hd. unfold evt_processMessage. pose proof (hd_find _ _ Hd code) as Hf. unfold m_at at 2 in Hf.
  destruct (m_find code (ed_mRegistryTbl d)) as [topics|]; cbn [default] in Hf.
  - apply list_bind_ext; [|done]. intros t. by rewrite Hf, pick_spec.
  - induction (match_topics topic) as [|t ts IH]; [done|]. cbn [mbind list_bind]. rewrite <- pick_spec, <- Hf. by destruct registered.
Qed.

Lemma handles_spec l d (m : FdbMessage) registered : holds l d ->
  handles_to_invoke m registered d = selected l (m_mCode m) (m_mTopic m) registered.
Proof. intros Hd. unfold handles_to_invoke, selected. apply list_bind_ext; [|done]. intros scope. by apply processMessage_spec. Qed.

(** A message whose payload lies in its buffer can be copied. *)
Definition payload_inside (m : FdbMessage) : bool :=
  match getPayloadBuffer m with
  | Some p => (0 <=? m_mPayloadSize m) && (m_mPayloadSize m <=? Z.of_nat (length p))
  | None => true
  end.

(** The part of a message its copies share. *)
Definition same_content (m m' : FdbMessage) : Prop :=
  m_mCode m' = m_mCode m /\ m_mType m' = m_mType m /\ m_mSn m' = m_mSn m /\ m_mSid m' = m_mSid m /\ m_mFlag m' = m_mFlag m /\
  m_mPayloadSize m' = m_mPayloadSize m /\
  forall p, getPayloadBuffer m = Some p -> getPayloadBuffer m' = Some (take (Z.to_nat (m_mPayloadSize m)) p).

Lemma msg_copy_total m : payload_inside m = true -> exists m', msg_copy m = Some m' /\ same_content m m' /\ m_mTopic m' = EmptyString.
Proof.
  unfold payload_inside, msg_copy. intros Hp. destruct (getPayloadBuffer m) as [p|] eqn:E; cbn [mbind option_bind].
  - rewrite Hp. cbn [mbind option_bind]. eexists. split; [done|]. split; [|done]. split_and!; try done. rewrite E. intros q [= <-]. cbn.
    by rewrite drop_app_length'.
  - eexists. split; [done|]. split; [|done]. split_and!; try done. by rewrite E.
Qed.

(** The handlers [hs] in their order: the first one gets the message, the others copies of it. *)
Definition called (migrate : CEvtHandleItem (H := H) -> option (Call (H := H))) (hs : list (CEvtHandleItem (H := H)))
    (m : FdbMessage) (calls : list (Call (H := H) * FdbMessage)) : Prop :=
  match hs with
  | [] => calls = []
  | it :: its => exists copies,
      calls = match migrate it with Some c => (c, m) :: copies | None => copies end /\
      copies.*1 = omap migrate its /\ Forall (fun c => same_content m c.2 /\ m_mTopic c.2 = EmptyString) copies
  end.

Lemma dispatch_total (migrate : CEvtHandleItem -> option (Call (H := H))) hs m : payload_inside m = true ->
  exists calls, dispatchEvents migrate hs m = Some calls /\ called migrate hs m calls.
Proof.
  intros Hp. destruct (msg_copy_total m Hp) as (m' & Ec & Hm'). destruct hs as [|it hs]; cbn [dispatchEvents].
  - by exists [].
  - assert (mapM (fun it => (fun m' => (it, m')) <$> msg_copy m) hs = Some ((fun it => (it, m')) <$> hs)) as ->.
    { induction hs as [|h hs IH]; [done|]. cbn. rewrite IH, Ec. done. }
    eexists. split; [done|]. cbn [called]. eexists. split; [cbn; by destruct (migrate it)|]. split.
    + induction hs as [|h hs IH]; cbn; [done|]; destruct (migrate h); cbn; by rewrite IH.
    + apply Forall_forall. intros [c x] Hx. apply list_elem_of_omap in Hx as ([it' y] & Hy & Ey). cbn in Ey.
      destruct (migrate it'); simplify_eq/=. apply list_elem_of_fmap in Hy as (h & [= -> ->] & _). done.
Qed.

End exact.

(** C20: A client that registered the handlers [l] calls, for an event it receives, exactly
    those whose code is that of the event, of its group or of all groups and whose topic is that
    of the event or empty, each one once and in this order, and within a code and topic in the
    order of registration; the first values sent for a subscription go to the handlers it was made
    for only. The first of these handlers gets the message itself, every other one a copy with the
    same header and payload, but without the topic. The payload lies in the buffer of the message, and the number of
    registrations fits the 32 bits of their ids. *)
Theorem dispatch_exact {H : Type} (self : Z) (l : list (CEvtHandleItem (H := H))) (afc : option (list Z)) (m : FdbMessage) :
  Z.of_nat (length l) < 2 ^ 32 -> payload_inside m = true ->
  let '(ids, d) := evt_registerCallback l CBaseEventDispatcher_new in
  let registered := match afc with Some r => if isInitialResponse m then r else [] | None => [] end in
  ids = seqZ 0 (Z.of_nat (length l)) /\
  exists calls, onBroadcast self afc m d = Some calls /\
    called (evt_migrateCallback self) (selected l (m_mCode m) (m_mTopic m) registered) m calls.
Proof.
  intros Hl Hp. destruct (register_holds l [] CBaseEventDispatcher_new holds_new ltac:(done)) as [E Hd].
  destruct (evt_registerCallback l CBaseEventDispatcher_new) as [ids d]. split; [done|]. unfold onBroadcast. cbn in Hd.
  rewrite (handles_spec l d m _ Hd). by apply dispatch_total.
Qed.

(** An event 5 with the topic "t" and handlers for it, for its group, for all events and for another one. *)
Definition lab_event : FdbMessage :=
  mkMsg FDB_MT_BROADCAST 5 0 2 0 0 0 0 0 (Some (repeat 0 (Z.to_nat mPrefixSize) ++ [7; 8])) 0 None EmptyString "t"%string None FDB_QOS_RELIABLE true 0.
Definition lab_item (code : Z) (topic : string) (worker : option Z) (h : nat) : CEvtHandleItem (H := nat) := mkEvtItem code (Some h) topic worker 0.
Definition lab_handlers : list (CEvtHandleItem (H := nat)) :=
  [lab_item 6 EmptyString None 1%nat; lab_item (fdbMakeGroupEvent FDB_EVENT_ALL_GROUPS) EmptyString (Some 9) 2%nat;
   lab_item 5 EmptyString None 3%nat; lab_item 5 "t"%string (Some 0) 4%nat; lab_item (fdbMakeGroup 5) "u"%string None 5%nat].

Lemma dispatch_exact_witness :
  let d := (evt_registerCallback lab_handlers CBaseEventDispatcher_new).2 in
  exists first second, onBroadcast 0 None lab_event d =
    Some [(CallHere 4%nat, lab_event); (CallHere 3%nat, first); (CallOn 9 false 2%nat, second)] /\
    same_content lab_event first /\ same_content lab_event second.
Proof.
  pose proof (dispatch_exact 0 lab_handlers None lab_event ltac:(reflexivity) ltac:(reflexivity)) as W.
  destruct (evt_registerCallback lab_handlers CBaseEventDispatcher_new) as [ids d]. destruct W as (_ & calls & E1 & E2).
  unfold called in E2. destruct (selected _ _ _ _) as [|it its] eqn:Es; [vm_compute in Es; discriminate|].
  vm_compute in Es. injection Es as <- <-. destruct E2 as (copies & -> & E2 & Hc).
  destruct copies as [|[c1 m1] [|[c2 m2] [|]]]; try discriminate E2. cbn in E2. injection E2 as -> ->.
  exists m1, m2. apply Forall_cons in Hc as [[H1 _] Hc]. apply Forall_cons in Hc as [[H2 _] _].
  split; [exact E1|]. by split.
Defined.

(** All handlers but the first see an event without its topic. *)
Example copies_lose_topic :
  option_map (map (fun c => m_mTopic c.2)) (onBroadcast 0 None lab_event (evt_registerCallback lab_handlers CBaseEventDispatcher_new).2)
  = Some ["t"%string; EmptyString; EmptyString].
Proof. vm_compute. reflexivity. Qed.

(** ** Methods *)

Section methods.
Context {H : Type}.
Implicit Types d : smap Z (CMsgHandleItem (H := H)).

Definition first_for (code : Z) (t : list (CMsgHandleItem (H := H))) : option CMsgHandleItem := find (fun it => mi_mCode it =? code) t.

(** The first registration of a code counts, over all tables registered, and a table is reported
    to clash exactly when one of its codes was taken before, by an earlier item of it or an
    earlier table. *)
Theorem msg_register_exact t d : m_sorted d ->
  let '(ok, d') := msg_registerCallback t d in
  m_sorted d' /\
  (forall code, m_find code d' = match m_find code d with Some it => Some it | None => first_for code t end) /\
  (ok = true <-> NoDup (mi_mCode <$> t) /\ Forall (fun it => m_find (mi_mCode it) d = None) t).
Proof.
  intros Hd. unfold msg_registerCallback. set (step := fun '(ret, d) it => _).
  enough (forall t ok0 d, m_sorted d -> let '(ok, d') := foldl step (ok0, d) t in
    m_sorted d' /\ (forall code, m_find code d' = match m_find code d with Some it => Some it | None => first_for code t end) /\
    (ok = true <-> ok0 = true /\ NoDup (mi_mCode <$> t) /\ Forall (fun it => m_find (mi_mCode it) d = None) t)) as Hall.
  { specialize (Hall t true d Hd). destruct (foldl step (true, d) t) as [ok d']. destruct Hall as (? & ? & E). split_and!; try done. rewrite E. tauto. }
  clear t d Hd. induction t as [|it t IH]; intros ok0 d Hd; cbn [foldl].
  - split_and!; [done| |split; [intros ->; split_and!; [done|constructor|done]|tauto]]. intros code. by destruct (m_find code d).
  - subst step. cbn beta iota. destruct (m_find (mi_mCode it) d) as [old|] eqn:Eo.
    + specialize (IH false d Hd). destruct (foldl _ (false, d) t) as [ok d']. destruct IH as (H1 & H2 & H3). split_and!; [done| |].
      * intros code. rewrite H2. destruct (m_find code d) eqn:Ec; [done|]. cbn. destruct (Z.eqb_spec (mi_mCode it) code); [congruence|done].
      * rewrite H3. split; [by intros [? _]|]. intros (_ & _ & Hf). apply Forall_cons in Hf as [Hf _]. congruence.
    + specialize (IH ok0 (m_set (mi_mCode it) it d) (m_sorted_set _ _ _ Hd)). destruct (foldl _ (ok0, m_set _ it d) t) as [ok d'].
      destruct IH as (H1 & H2 & H3). split_and!; [done| |].
      * intros code. rewrite H2, m_find_set_dec by done. cbn. case_decide as Ec.
        -- subst code. by rewrite Eo, Z.eqb_refl.
        -- destruct (Z.eqb_spec (mi_mCode it) code); [congruence|done].
      * rewrite H3. cbn [fmap list_fmap]. rewrite NoDup_cons, Forall_cons. rewrite !Forall_forall.
        split; intros (-> & Hn & Hf).
        -- split_and!; try done.
           ++ intros Hin. apply list_elem_of_fmap in Hin as (y & Ey & Hy). specialize (Hf y Hy). rewrite m_find_set_dec, decide_True in Hf by done. done.
           ++ intros y Hy. specialize (Hf y Hy). rewrite m_find_set_dec in Hf by done. by case_decide.
        -- destruct Hn as [Hni Hn]. destruct Hf as [_ Hf]. split_and!; try done. intros y Hy. rewrite m_find_set_dec by done. case_decide as Ec; [|by apply Hf].
           destruct Hni. apply list_elem_of_fmap. eauto.
Qed.
End methods.
