(* ===== verification/Answer.v ===== *)
(** How a request is answered: [doInvoke] and its relatives of src/fdbus/CFdbBaseObject.cpp, and
    [reply], [status] and [autoReply] of src/fdbus/CFdbMessage.cpp.

    A request is a job that threads share through counted references ([CBaseJob::Ptr]): the
    context hands it to the object, the object to a worker or a handler, the handler answers it
    or keeps a reference and answers later, and when nobody does the library answers by itself.
    The state [Answer] is one request with all that refers to it; [an_step] interleaves the
    threads. The context is the thread [0], other threads and their job queues are named by
    other numbers; jobs that have nothing to do with the request are not in the model, so that a
    queue may serve the request at any time. *)
From S2P Require Import Prelude Serializer Codec CommonDefs WireBase StdMap Subscribe FdWatch Framing Message Dispatcher.

(** ** State *)

Definition ST_NON_EXIST : Z := -21.

(** What a handler does with the request; an exception ends it early. *)
Inductive UserAct :=
  | UReply (payload : list Z)
  | UStatus (error_code : Z) (description : string)
  | UKeep.
Abbreviation Script := (list UserAct).

(** The function the request runs as a job. *)
Inductive Callable :=
  | CallNone
  | CallDispatch                  (* CFdbMessage::dispatchMsg *)
  | CallInvoke                    (* CFdbBaseObject::callInvoke *)
  | CallSubscribe                 (* CFdbBaseObject::callSubscribe *)
  | CallHandler (h : Script).     (* CFdbMessage::callbackWithAutoReply *)

(** What a thread has left to do. *)
Inductive Act :=
  | AOnInvoke
  | AUser (h : Script)
  | AAuto (description : string)  (* autoReply *)
  | ADispatch
  | ASend (worker : Z) (c : Callable)       (* sendAsync: the sender keeps its reference *)
  | ASendSwap (worker : Z) (c : Callable)   (* sendAsyncSwap: it gives it away *)
  | AReplyCache (payload : list Z)
  | ACached.

Inductive AnOut :=
  | AnUser                        (* a handler answered *)
  | AnAuto                        (* the library answered *)
  | AnSent (m : FdbMessage)       (* given to the session *)
  | AnCached
  | AnRefused                     (* a queue did not take the job *)
  | AnAbandoned                   (* a reference that was kept is dropped and there is no answer *)
  | AnMisrouted (m : FdbMessage). (* dispatched as something else than an answer *)

Record Thread := mkThread { th_acts : list Act; th_ref : bool }.
Record Answer := mkAnswer {
  an_msg : FdbMessage; an_func : Callable; an_threads : smap Z Thread; an_queued : list Z; an_kept : nat; an_out : list AnOut }.

(** The object: its worker, [enableMigrate], the handlers for methods, an [onInvoke] or
    [onSubscribe] of its own. *)
Record AnObj := mkAnObj {
  ao_worker : option Z; ao_migrate : bool; ao_handlers : smap Z (CMsgHandleItem (H := Script));
  ao_onInvoke : option Script; ao_onSubscribe : Script }.

Implicit Types st : Answer.
Implicit Types o : AnObj.

(** [use_count] *)
Definition refs st : nat :=
  (length (List.filter (fun e => th_ref e.2) (an_threads st)) + length (an_queued st) + an_kept st)%nat.

Definition an_set_msg (m : FdbMessage) st : Answer := mkAnswer m (an_func st) (an_threads st) (an_queued st) (an_kept st) (an_out st).
Definition an_emit (x : AnOut) st : Answer := mkAnswer (an_msg st) (an_func st) (an_threads st) (an_queued st) (an_kept st) (an_out st ++ [x]).
Definition an_keep (n : nat) st : Answer := mkAnswer (an_msg st) (an_func st) (an_threads st) (an_queued st) n (an_out st).
Definition an_set_threads (t : smap Z Thread) st : Answer := mkAnswer (an_msg st) (an_func st) t (an_queued st) (an_kept st) (an_out st).
Definition an_set_queued (q : list Z) st : Answer := mkAnswer (an_msg st) (an_func st) (an_threads st) q (an_kept st) (an_out st).

(** [setCallable] and [send]: [accept] tells whether the queue takes the job. *)
Definition an_send (accept : bool) (worker : Z) (c : Callable) st : Answer :=
  let st := mkAnswer (an_msg st) c (an_threads st) (an_queued st) (an_kept st) (an_out st) in
  if accept then an_set_queued (an_queued st ++ [worker]) st else an_emit AnRefused st.

Section answer.
Context {E : MsgEnv}.
(** Whether the session the request came from is still there. *)
Variable session_there : bool.

(** ** Answering *)

Definition msg_reply (accept : bool) (payload : list Z) st : Answer :=
  let m := an_msg st in
  if negb (m_mContext m) then an_set_msg (setStatusMsg ST_UNABLE_TO_SEND (Some "no context"%string) None m) st
  else if negb (expectReply m) then st
  else
    let m := m_flag_on MSG_FLAG_REPLIED (m_set_type FDB_MT_REPLY (serialize_raw payload None m)) in
    let st := an_send accept 0 CallDispatch (an_set_msg m st) in
    if accept then an_emit AnUser st
    else an_set_msg (setStatusMsg ST_UNABLE_TO_SEND (Some "Fail to send job to context"%string) None (m_flag_off MSG_FLAG_REPLIED m)) st.

Definition msg_status (accept : bool) (error_code : Z) (description : string) st : Answer :=
  let m := an_msg st in
  if negb (m_mContext m) then an_set_msg (setStatusMsg ST_UNABLE_TO_SEND (Some "no context"%string) None m) st
  else if negb (expectReply m) then st
  else
    let m := setStatusMsg error_code (Some description) (Some FDB_MT_STATUS) m in
    let st := an_send accept 0 CallDispatch (an_set_msg m st) in
    if accept then an_emit AnUser st
    else an_set_msg (setStatusMsg ST_UNABLE_TO_SEND (Some "Fail to send job to context"%string) None m) st.

(** [autoReply] with the reference of the calling thread; [have] tells that it has one. *)
Definition auto_reply (accept have : bool) (description : string) st : Answer :=
  if have && (refs st =? 1)%nat && needReply (an_msg st) then
    let m := setStatusMsg ST_AUTO_REPLY_OK (Some description) (Some FDB_MT_STATUS) (an_msg st) in
    let st := an_send accept 0 CallDispatch (an_set_msg m st) in
    if accept then an_emit AnAuto st else st
  else st.

(** [dispatchMsg]: answers go to the session. *)
Definition dispatch_msg st : Answer :=
  let m := an_msg st in
  match m_mType m with
  | FDB_MT_REPLY | FDB_MT_STATUS | FDB_MT_SIDEBAND_REPLY | FDB_MT_RETURN_EVENT =>
      if expectReply m && session_there then an_emit (AnSent m) st else st
  | _ => an_emit (AnMisrouted m) st
  end.

(** [replyEventCache]: in the context, past its queue. *)
Definition reply_cache (payload : list Z) st : Answer :=
  let m := an_msg st in
  if negb (expectReply m) then st else
  let m := m_flag_on MSG_FLAG_REPLIED (m_set_type FDB_MT_RETURN_EVENT (serialize_raw payload None m)) in
  let st := an_emit AnUser (an_set_msg m st) in
  if session_there then an_emit (AnSent m) st else st.

Definition user_act (accept : bool) (u : UserAct) st : Answer :=
  match u with
  | UReply payload => msg_reply accept payload st
  | UStatus code descr => msg_status accept code descr st
  | UKeep => an_keep (S (an_kept st)) st
  end.

(** ** The object *)

Variable o : AnObj.

Definition frame_of (c : Callable) : list Act :=
  match c with
  | CallNone => []
  | CallDispatch => [ADispatch]
  | CallInvoke => [AOnInvoke; AAuto "Automatically reply to request."]
  | CallSubscribe => [AUser (ao_onSubscribe o); AAuto "Automatically reply to subscribe request."]
  | CallHandler h => [AUser h; AAuto "Automatically reply to request."]
  end.

Definition migrate_to_worker (c : Callable) : list Act :=
  match ao_worker o with
  | Some w => if ao_migrate o then [ASendSwap w c] else []
  | None => frame_of c
  end.

Definition doInvoke : list Act :=
  if msg_enabled (ao_handlers o) then frame_of CallInvoke else migrate_to_worker CallInvoke.

Definition doSubscribe (event_cache : bool) : list Act :=
  if event_cache then [ACached; AAuto "Automatically reply to subscribe request."] else migrate_to_worker CallSubscribe.

(** [cached] is the cached event asked for. *)
Definition doGetEvent (event_cache : bool) (cached : option (list Z)) (not_found : string) : list Act :=
  if event_cache then
    match cached with
    | Some payload => [AReplyCache payload]
    | None => [AUser [UStatus ST_NON_EXIST not_found]]
    end
  else [AUser [UStatus ST_NON_EXIST "Event cache is not enabled!"%string]].

(** [onInvoke], unless the object has one of its own. *)
Definition on_invoke (self : Z) (m : FdbMessage) : list Act :=
  match ao_onInvoke o with
  | Some h => [AUser h]
  | None =>
      match onInvoke self (ao_worker o) m (ao_handlers o) with
      | None => []
      | Some (CallHere h) => [AUser h]
      | Some (CallOn w _ h) => [ASend w (CallHandler h)]
      end
  end.

(** ** Threads *)

(** The next action of the thread [self]; the acts that replace it, whether the thread still has
    its reference, and the state. *)
Definition act_step (accept : bool) (self : Z) (a : Act) (have : bool) st : list Act * bool * Answer :=
  match a with
  | AOnInvoke => (on_invoke self (an_msg st), have, st)
  | AUser [] => ([], have, st)
  | AUser (u :: us) => ([AUser us], have, user_act accept u st)
  | AAuto descr => ([], have, auto_reply accept have descr st)
  | ADispatch => ([], have, dispatch_msg st)
  | ASend w c => ([], have, an_send accept w c st)
  | ASendSwap w c => ([], negb accept, an_send accept w c st)
  | AReplyCache payload => ([], have, reply_cache payload st)
  | ACached => ([], have, an_emit AnCached st)
  end.

Inductive an_step : Answer -> Answer -> Prop :=
  | an_run st w q1 q2 :                        (* a worker takes the job from its queue *)
      an_queued st = q1 ++ w :: q2 -> m_find w (an_threads st) = None ->
      an_step st (an_set_threads (m_set w (mkThread (frame_of (an_func st)) true) (an_threads st)) (an_set_queued (q1 ++ q2) st))
  | an_act st self a l have accept acts have' st' :
      m_find self (an_threads st) = Some (mkThread (a :: l) have) ->
      act_step accept self a have st = (acts, have', st') ->
      an_step st (an_set_threads (m_set self (mkThread (acts ++ l) have') (an_threads st)) st')
  | an_end st self have :                      (* the thread drops its reference *)
      m_find self (an_threads st) = Some (mkThread [] have) ->
      an_step st (an_set_threads (m_erase self (an_threads st)) st)
  | an_late st u accept :                      (* the owner of a kept reference answers *)
      (0 < an_kept st)%nat -> u <> UKeep -> an_step st (user_act accept u st)
  | an_drop st n :                             (* and drops it *)
      an_kept st = S n ->
      an_step st (an_keep n (if needReply (an_msg st) then an_emit AnAbandoned st else st)).

(** The context has received the request. *)
Definition an_start (m : FdbMessage) (acts : list Act) : Answer :=
  mkAnswer m CallNone [(0, mkThread acts true)] [] 0 [].

Definition an_done st : bool := m_empty (an_threads st) && (length (an_queued st) =? 0)%nat && (an_kept st =? 0)%nat.
End answer.

(** ** Counting *)

(** The sum of [f] over the values of a map. *)
Definition total {V} (f : V -> nat) (m : smap Z V) : nat := sum_list ((fun e => f e.2) <$> m).

Lemma total_set {V} (f : V -> nat) k v (m : smap Z V) :
  (total f (m_set k v m) + default 0 (f <$> m_find k m) = total f m + f v)%nat.
Proof.
  unfold total. induction m as [|[j u] m IH]; cbn [m_set m_find]; [cbn; lia|].
  destruct (klt k j) eqn:E1; [cbn; lia|]. destruct (klt j k) eqn:E2; cbn in *; lia.
Qed.

Lemma total_erase {V} (f : V -> nat) k (m : smap Z V) :
  (total f (m_erase k m) + default 0 (f <$> m_find k m) = total f m)%nat.
Proof.
  unfold total. induction m as [|[j u] m IH]; cbn [m_erase m_find]; [done|].
  destruct (klt k j) eqn:E1; [cbn; lia|]. destruct (klt j k) eqn:E2; cbn in *; lia.
Qed.

Lemma total_in {V} (f : V -> nat) k v (m : smap Z V) : m_find k m = Some v -> (f v <= total f m)%nat.
Proof. intros Hf. pose proof (total_erase f k m) as Ht. rewrite Hf in Ht. cbn in Ht. lia. Qed.

(** ** Flags *)

Lemma shiftl_land_0 (f n : Z) : 0 <= n -> (Z.land f (Z.shiftl 1 n) =? 0) = negb (Z.testbit f n).
Proof.
  intros Hn. destruct (Z.testbit f n) eqn:Eb; cbn.
  - apply Z.eqb_neq. intros Hz. apply (f_equal (fun z => Z.testbit z n)) in Hz. rewrite Z.land_spec, Eb, Z.bits_0, Z.shiftl_1_l, Z.pow2_bits_true in Hz by lia. done.
  - apply Z.eqb_eq. apply Z.bits_inj'. intros i Hi. rewrite Z.land_spec, Z.bits_0, Z.shiftl_1_l, Z.pow2_bits_eqb by lia.
    destruct (Z.eqb_spec n i); [subst; by rewrite Eb|apply andb_false_r].
Qed.

(** The bits that matter: 0, no reply is expected, and 26, there is a reply. *)
Lemma expectReply_bit m : expectReply m = negb (Z.testbit (m_mFlag m) 0).
Proof. unfold expectReply, flag_set. rewrite negb_involutive. by apply shiftl_land_0. Qed.

Lemma needReply_bits m : needReply m = negb (Z.testbit (m_mFlag m) 26) && negb (Z.testbit (m_mFlag m) 0).
Proof.
  unfold needReply. rewrite Z.land_lor_distr_r. change MSG_FLAG_REPLIED with (Z.shiftl 1 26). change MSG_FLAG_NOREPLY_EXPECTED with (Z.shiftl 1 0).
  rewrite <- !shiftl_land_0 by lia. apply eq_true_iff_eq. by rewrite andb_true_iff, !Z.eqb_eq, Z.lor_eq_0_iff.
Qed.

(** What becomes of the request: the answer is for the same request and there is one. *)
Record answered_as (m m' : FdbMessage) : Prop := {
  as_sn : m_mSn m' = m_mSn m; as_code : m_mCode m' = m_mCode m; as_sid : m_mSid m' = m_mSid m; as_context : m_mContext m' = m_mContext m;
  as_expect : Z.testbit (m_mFlag m') 0 = Z.testbit (m_mFlag m) 0 }.

#[export] Instance answered_as_refl : Reflexive answered_as.
Proof. by split. Qed.
#[export] Instance answered_as_trans : Transitive answered_as.
Proof. intros x y z [] []. split; congruence. Qed.

Lemma flag_on_as n m : 0 < n -> answered_as m (m_flag_on (Z.shiftl 1 n) m).
Proof.
  intros Hn. split; try done. cbn [m_flag_on m_set_flag m_mFlag]. rewrite Z.lor_spec, Z.shiftl_1_l, Z.pow2_bits_false by lia. apply orb_false_r.
Qed.

Lemma flag_on_keeps bits i m : Z.testbit (m_mFlag m) i = true -> Z.testbit (m_mFlag (m_flag_on bits m)) i = true.
Proof. intros Hb. cbn. by rewrite Z.lor_spec, Hb. Qed.

Lemma checkLog_as {E : MsgEnv} obj m : answered_as m (checkLogEnabled obj m).
Proof. unfold checkLogEnabled. case_match; [|done]. by apply (flag_on_as 27). Qed.

Lemma checkLog_keeps {E : MsgEnv} obj i m : Z.testbit (m_mFlag m) i = true -> Z.testbit (m_mFlag (checkLogEnabled obj m)) i = true.
Proof. unfold checkLogEnabled. case_match; [|done]. apply flag_on_keeps. Qed.

Lemma replace_as b p h i m : answered_as m (replaceBuffer b p h i m).
Proof. by split. Qed.

Lemma serialize_raw_as {E : MsgEnv} payload obj m : answered_as m (serialize_raw payload obj m).
Proof.
  unfold serialize_raw. etransitivity; [apply (replace_as (m_mBuffer m) (m_mPayloadSize m) mMaxHeadSize 0)|].
  etransitivity; [apply (checkLog_as obj)|]. etransitivity; [by apply (flag_on_as 28)|]. apply replace_as.
Qed.

Lemma serialize_builder_as {E : MsgEnv} built obj m : answered_as m (serialize_builder built obj m).2 /\
  forall i, Z.testbit (m_mFlag m) i = true -> Z.testbit (m_mFlag (serialize_builder built obj m).2) i = true.
Proof.
  unfold serialize_builder. set (m1 := replaceBuffer _ _ mMaxHeadSize 0 m). set (m2 := m_flag_on MSG_FLAG_EXTERNAL_BUFFER (checkLogEnabled obj m1)).
  assert (answered_as m m2) as H2.
  { etransitivity; [apply (replace_as (m_mBuffer m) (m_mPayloadSize m) mMaxHeadSize 0)|]. etransitivity; [apply (checkLog_as obj)|]. by apply (flag_on_as 28). }
  assert (forall i, Z.testbit (m_mFlag m) i = true -> Z.testbit (m_mFlag m2) i = true) as K2.
  { intros i Hi. by apply flag_on_keeps, checkLog_keeps. }
  destruct built as [payload|]; [|done]. cbn [snd]. set (m3 := replaceBuffer _ _ _ _ m2).
  assert (answered_as m (checkLogEnabled obj m3)) as H3.
  { etransitivity; [apply H2|]. etransitivity; [|apply checkLog_as]. apply replace_as. }
  assert (forall i, Z.testbit (m_mFlag m) i = true -> Z.testbit (m_mFlag (checkLogEnabled obj m3)) i = true) as K3.
  { intros i Hi. apply checkLog_keeps. cbn. by apply K2. }
  destruct (_ && _); [|done]. split; [|done]. etransitivity; [apply H3|]. by split.
Qed.

Lemma setStatusMsg_as {E : MsgEnv} code descr type m : answered_as m (setStatusMsg code descr type m) /\
  Z.testbit (m_mFlag (setStatusMsg code descr type m)) 26 = true.
Proof.
  unfold setStatusMsg. set (m1 := match type with Some _ => _ | None => m end).
  assert (answered_as m m1) as H1 by (by subst m1; destruct type). set (m2 := if code <? ST_OK then m_flag_on MSG_FLAG_ERROR m1 else m1).
  assert (answered_as m m2) as H2 by (subst m2; destruct (code <? ST_OK); [etransitivity; [apply H1|by apply (flag_on_as 4)]|done]).
  set (m3 := m_flag_on (Z.lor MSG_FLAG_STATUS MSG_FLAG_REPLIED) m2).
  assert (answered_as m m3 /\ Z.testbit (m_mFlag m3) 26 = true) as [H3 K3].
  { split.
    - etransitivity; [apply H2|]. split; try done. cbn [m3 m_mFlag m_flag_on m_set_flag]. rewrite Z.lor_spec. apply orb_false_r.
    - subst m3. cbn [m_mFlag m_flag_on m_set_flag]. rewrite Z.lor_spec. apply orb_true_r. }
  destruct (serialize_builder_as (fst <$> builder_build scratch (error_info code descr)) None m3) as [H4 K4]. split; [|by apply K4].
  etransitivity; [apply H3|apply H4].
Qed.

Lemma setStatusMsg_type {E : MsgEnv} code descr t m : m_mType (setStatusMsg code descr (Some t) m) = t.
Proof.
  unfold setStatusMsg, serialize_builder. destruct (fst <$> _) as [payload|]; cbn; unfold checkLogEnabled; repeat case_match; done.
Qed.

(** The message [reply] makes. *)
Lemma reply_as {E : MsgEnv} t payload m : let m' := m_flag_on MSG_FLAG_REPLIED (m_set_type t (serialize_raw payload None m)) in
  answered_as m m' /\ Z.testbit (m_mFlag m') 26 = true /\ m_mType m' = t.
Proof.
  cbn zeta. split_and!; [|cbn [m_mFlag m_flag_on m_set_flag]; rewrite Z.lor_spec; apply orb_true_r|done].
  etransitivity; [apply (serialize_raw_as payload None)|]. etransitivity; [|by apply (flag_on_as 26)]. by split.
Qed.

Lemma total_le {V} (f g : V -> nat) (m : smap Z V) : Forall (fun e => (f e.2 <= g e.2)%nat) m -> (total f m <= total g m)%nat.
Proof. unfold total. induction 1 as [|e m He _ IH]; cbn; lia. Qed.

Lemma refs_total st : refs st = (total (fun th => Nat.b2n (th_ref th)) (an_threads st) + length (an_queued st) + an_kept st)%nat.
Proof. unfold refs, total. do 2 f_equal. induction (an_threads st) as [|[k th] l IH]; [done|]. cbn. destruct (th_ref th); cbn; by rewrite IH. Qed.

(** ** The invariant *)

(** How often the handlers and the library have answered, and how many answers went out. *)
Definition users (out : list AnOut) : nat := length (List.filter (fun x => match x with AnUser => true | _ => false end) out).
Definition autos (out : list AnOut) : nat := length (List.filter (fun x => match x with AnAuto => true | _ => false end) out).
Definition sents (out : list AnOut) : nat := length (List.filter (fun x => match x with AnSent _ => true | _ => false end) out).
Definition answers (out : list AnOut) : nat := (users out + autos out)%nat.

Section invariant.
Context {E : MsgEnv} (o : AnObj) (m0 : FdbMessage).

Definition service (c : Callable) : bool := match c with CallInvoke | CallSubscribe | CallHandler _ => true | _ => false end.

(** What may come before the automatic reply of a thread: nothing that hands the request on. *)
Definition safe_act (self : Z) (a : Act) : bool :=
  match a with
  | AUser _ | ACached => true
  | AOnInvoke => forallb (fun b => match b with AUser _ => true | _ => false end) (on_invoke o self m0)
  | _ => false
  end.
Definition serving_acts (self : Z) (acts : list Act) : Prop :=
  exists pre descr, acts = pre ++ [AAuto descr] /\ forallb (safe_act self) pre = true.

Definition is_serving (th : Thread) : bool := match last (th_acts th) with Some (AAuto _) => true | _ => false end.
Definition is_disp (th : Thread) : bool := match th_acts th with [ADispatch] => true | _ => false end.
Definition n_serv st : nat := total (fun th => Nat.b2n (is_serving th)) (an_threads st).
Definition n_disp st : nat := total (fun th => Nat.b2n (is_disp th)) (an_threads st).
Definition n_ref st : nat := total (fun th => Nat.b2n (th_ref th)) (an_threads st).
Definition q_disp st : nat := match an_func st with CallDispatch => length (an_queued st) | _ => 0%nat end.

Definition thread_ok (e : Z * Thread) : Prop :=
  th_acts e.2 = [] \/ (th_acts e.2 = [ADispatch] /\ th_ref e.2 = true) \/ (serving_acts e.1 (th_acts e.2) /\ th_ref e.2 = true).

Inductive stage st : Prop :=
  | st_queued w : an_queued st = [w] -> service (an_func st) = true -> serving_acts w (frame_of o (an_func st)) ->
      n_serv st = 0%nat -> n_ref st = 0%nat -> an_kept st = 0%nat -> answers (an_out st) = 0%nat -> stage st
  | st_serving : n_serv st = 1%nat -> autos (an_out st) = 0%nat -> (an_queued st = [] \/ an_func st = CallDispatch) ->
      (users (an_out st) = 0%nat -> n_ref st = 1%nat /\ an_queued st = []) -> stage st
  | st_served : n_serv st = 0%nat -> (an_queued st = [] \/ an_func st = CallDispatch) ->
      ((1 <= answers (an_out st))%nat \/ (1 <= an_kept st)%nat \/ AnAbandoned ∈ an_out st) -> stage st.

Record an_inv st : Prop := {
  ai_sorted : m_sorted (an_threads st);
  ai_as : answered_as m0 (an_msg st);
  ai_need : Z.testbit (m_mFlag (an_msg st)) 26 = negb (answers (an_out st) =? 0)%nat;
  ai_type : answers (an_out st) <> 0%nat -> m_mType (an_msg st) = FDB_MT_REPLY \/ m_mType (an_msg st) = FDB_MT_STATUS;
  ai_threads : Forall thread_ok (an_threads st);
  ai_count : (sents (an_out st) + n_disp st + q_disp st = answers (an_out st))%nat;
  ai_auto : (autos (an_out st) <= 1)%nat /\ (autos (an_out st) = 1%nat -> users (an_out st) = 0%nat /\ an_kept st = 0%nat /\ n_serv st = 0%nat);
  ai_out : forall x, AnMisrouted x ∉ an_out st;
  ai_sent : forall x, AnSent x ∈ an_out st -> answered_as m0 x /\ (m_mType x = FDB_MT_REPLY \/ m_mType x = FDB_MT_STATUS);
  ai_stage : stage st }.

Lemma serving_last self acts ref : serving_acts self acts -> is_serving (mkThread acts ref) = true /\ is_disp (mkThread acts ref) = false.
Proof. intros (pre & d & -> & _). unfold is_serving, is_disp. cbn. rewrite last_snoc. split; [done|]. by destruct pre as [|[] [|? ?]]. Qed.

Lemma thread_ok_serving e : thread_ok e -> is_serving e.2 = true -> th_ref e.2 = true.
Proof. destruct e as [k [acts ref]]. unfold thread_ok, is_serving. cbn. intros [->|[[-> ?]|[_ ?]]]; done. Qed.

Lemma n_serv_ref st : Forall thread_ok (an_threads st) -> (n_serv st <= n_ref st)%nat.
Proof.
  intros Hf. apply total_le. eapply Forall_impl; [exact Hf|]. intros e He. pose proof (thread_ok_serving e He). cbn. destruct (is_serving e.2), (th_ref e.2); cbn; try lia; naive_solver.
Qed.

(** A change of the thread [self], in the counts. *)
Lemma counts_set self th th' st : m_find self (an_threads st) = Some th ->
  (n_serv (an_set_threads (m_set self th' (an_threads st)) st) + Nat.b2n (is_serving th) = n_serv st + Nat.b2n (is_serving th'))%nat /\
  (n_disp (an_set_threads (m_set self th' (an_threads st)) st) + Nat.b2n (is_disp th) = n_disp st + Nat.b2n (is_disp th'))%nat /\
  (n_ref (an_set_threads (m_set self th' (an_threads st)) st) + Nat.b2n (th_ref th) = n_ref st + Nat.b2n (th_ref th'))%nat.
Proof.
  intros Hf. unfold n_serv, n_disp, n_ref. cbn [an_set_threads an_threads].
  pose proof (total_set (fun th => Nat.b2n (is_serving th)) self th' (an_threads st)) as H1.
  pose proof (total_set (fun th => Nat.b2n (is_disp th)) self th' (an_threads st)) as H2.
  pose proof (total_set (fun th => Nat.b2n (th_ref th)) self th' (an_threads st)) as H3. rewrite Hf in *. done.
Qed.

Lemma threads_set self th st : thread_ok (self, th) -> Forall thread_ok (an_threads st) -> Forall thread_ok (m_set self th (an_threads st)).
Proof. intros Ht Hf. apply Forall_forall. intros e He. apply m_set_In in He as [->|He]; [done|]. by apply (proj1 (Forall_forall _ _) Hf). Qed.

(** The serving thread goes on with its work. *)
Lemma inv_thread self acts acts' st : m_find self (an_threads st) = Some (mkThread acts true) -> serving_acts self acts -> serving_acts self acts' ->
  an_inv st -> an_inv (an_set_threads (m_set self (mkThread acts' true) (an_threads st)) st).
Proof.
  intros Hf Ha Ha' []. destruct (counts_set self _ (mkThread acts' true) st Hf) as (C1 & C2 & C3).
  destruct (serving_last self acts true Ha) as [S1 D1]. destruct (serving_last self acts' true Ha') as [S2 D2]. rewrite S1, S2 in C1. rewrite D1, D2 in C2. cbn [th_ref Nat.b2n] in C3.
  assert (n_serv (an_set_threads (m_set self (mkThread acts' true) (an_threads st)) st) = n_serv st) as N1 by lia.
  assert (n_disp (an_set_threads (m_set self (mkThread acts' true) (an_threads st)) st) = n_disp st) as N2 by lia.
  assert (n_ref (an_set_threads (m_set self (mkThread acts' true) (an_threads st)) st) = n_ref st) as N3 by lia.
  split; try done.
  - by apply m_sorted_set.
  - apply threads_set; [|done]. right; right. done.
  - by rewrite N2.
  - by rewrite N1.
  - destruct ai_stage0 as [w Q1 Q2 Q3 Q4 Q5 Q6 Q7|Q1 Q2 Q3 Q4|Q1 Q2 Q3].
    + by apply (st_queued _ w); rewrite ?N1, ?N3.
    + apply st_serving; rewrite ?N1, ?N3; done.
    + apply st_served; rewrite ?N1; done.
Qed.
Lemma users_snoc out x : users (out ++ [x]) = (users out + match x with AnUser => 1 | _ => 0 end)%nat.
Proof. unfold users. rewrite List.filter_app, length_app. by destruct x. Qed.
Lemma autos_snoc out x : autos (out ++ [x]) = (autos out + match x with AnAuto => 1 | _ => 0 end)%nat.
Proof. unfold autos. rewrite List.filter_app, length_app. by destruct x. Qed.
Lemma sents_snoc out x : sents (out ++ [x]) = (sents out + match x with AnSent _ => 1 | _ => 0 end)%nat.
Proof. unfold sents. rewrite List.filter_app, length_app. by destruct x. Qed.
Lemma answers_snoc out x : answers (out ++ [x]) = (answers out + match x with AnUser | AnAuto => 1 | _ => 0 end)%nat.
Proof. unfold answers. rewrite users_snoc, autos_snoc. destruct x; lia. Qed.

(** Something is noted that is no answer. *)
Definition plain_out (x : AnOut) : bool := match x with AnCached | AnAbandoned => true | _ => false end.

Lemma inv_emit x st : plain_out x = true -> an_inv st -> an_inv (an_emit x st).
Proof.
  intros Hx []. assert (users (an_out st ++ [x]) = users (an_out st)) as U by (rewrite users_snoc; destruct x; cbn in Hx; lia || done).
  assert (autos (an_out st ++ [x]) = autos (an_out st)) as A by (rewrite autos_snoc; destruct x; cbn in Hx; lia || done).
  assert (sents (an_out st ++ [x]) = sents (an_out st)) as S1 by (rewrite sents_snoc; destruct x; cbn in Hx; lia || done).
  assert (answers (an_out st ++ [x]) = answers (an_out st)) as N by (unfold answers; by rewrite U, A).
  split; cbn [an_emit an_threads an_msg an_out]; rewrite ?N, ?U, ?A, ?S1; try done.
  - intros y Hy. apply elem_of_app in Hy as [Hy|Hy%list_elem_of_singleton]; [by apply (ai_out0 y)|]. by subst.
  - intros y Hy. apply elem_of_app in Hy as [Hy|Hy%list_elem_of_singleton]; [by apply ai_sent0|]. by subst.
  - destruct ai_stage0 as [w Q1 Q2 Q3 Q4 Q5 Q6 Q7|Q1 Q2 Q3 Q4|Q1 Q2 Q3].
    + apply (st_queued _ w); try done. cbn [an_emit an_out]. by rewrite N.
    + apply st_serving; cbn [an_emit an_out]; rewrite ?U, ?A; done.
    + apply st_served; try done. cbn [an_emit an_out]. rewrite N. destruct Q3 as [?|[?|?]]; [by left|by right; left|right; right]. apply elem_of_app. by left.
Qed.

(** The request is answered by a handler. *)
Lemma inv_answer m' st : (1 <= n_serv st)%nat \/ (1 <= an_kept st)%nat -> answered_as (an_msg st) m' -> Z.testbit (m_mFlag m') 26 = true ->
  m_mType m' = FDB_MT_REPLY \/ m_mType m' = FDB_MT_STATUS -> an_inv st ->
  an_inv (mkAnswer m' CallDispatch (an_threads st) (an_queued st ++ [0]) (an_kept st) (an_out st ++ [AnUser])).
Proof.
  intros Hb Ha Hr Ht []. assert (autos (an_out st) = 0%nat) as A0 by (destruct ai_auto0 as [? Hx]; destruct (autos (an_out st)) as [|[|]]; [done|specialize (Hx eq_refl); lia|lia]).
  assert (q_disp st = length (an_queued st)) as Q0.
  { unfold q_disp. destruct ai_stage0 as [w Q1 Q2 Q3 Q4 Q5 Q6 Q7|Q1 Q2 [->| ->] Q4|Q1 [->| ->] Q3]; [lia|by destruct (an_func st)|done|by destruct (an_func st)|done]. }
  split; cbn [an_threads an_msg an_out an_kept]; rewrite ?answers_snoc, ?autos_snoc, ?users_snoc, ?sents_snoc; try done.
  - etransitivity; eassumption.
  - rewrite Hr. symmetry. apply negb_true_iff, Nat.eqb_neq. lia.
  - change (n_disp _) with (n_disp st). cbn [q_disp an_func an_queued]. rewrite length_app. cbn. lia.
  - lia.
  - intros y Hy. apply elem_of_app in Hy as [Hy|Hy%list_elem_of_singleton]; [by apply (ai_out0 y)|done].
  - intros y Hy. apply elem_of_app in Hy as [Hy|Hy%list_elem_of_singleton]; [by apply ai_sent0|done].
  - destruct ai_stage0 as [w Q1 Q2 Q3 Q4 Q5 Q6 Q7|Q1 Q2 Q3 Q4|Q1 Q2 Q3].
    + lia.
    + apply st_serving; cbn [an_out an_func]; rewrite ?users_snoc, ?autos_snoc; [done|lia|by right|lia].
    + apply st_served; cbn [an_out an_func]; rewrite ?answers_snoc; [done|by right|left; lia].
Qed.

Lemma inv_user accept u st : expectReply m0 = true -> m_mContext m0 = true -> (1 <= n_serv st)%nat \/ (1 <= an_kept st)%nat ->
  AnRefused ∉ an_out (user_act accept u st) -> an_inv st -> an_inv (user_act accept u st) /\ an_threads (user_act accept u st) = an_threads st.
Proof.
  intros He Hc Hb Hr Hi. pose proof (ai_as _ Hi) as [_ _ _ Ec Ee]. rewrite Hc in Ec.
  assert (expectReply (an_msg st) = true) as Ex by (rewrite expectReply_bit in *; by rewrite Ee).
  destruct u as [payload|code descr|]; cbn [user_act] in *.
  - unfold msg_reply in *. rewrite Ec, Ex in *. cbn [negb] in *. destruct (reply_as FDB_MT_REPLY payload (an_msg st)) as (R1 & R2 & R3).
    destruct accept; [|destruct Hr; cbn; apply elem_of_app; right; by apply list_elem_of_singleton]. split; [|done].
    apply (inv_answer _ st Hb R1 R2); [by left|done].
  - unfold msg_status in *. rewrite Ec, Ex in *. cbn [negb] in *. destruct (setStatusMsg_as code (Some descr) (Some FDB_MT_STATUS) (an_msg st)) as (R1 & R2).
    destruct accept; [|destruct Hr; cbn; apply elem_of_app; right; by apply list_elem_of_singleton]. split; [|done].
    apply (inv_answer _ st Hb R1 R2); [right; apply setStatusMsg_type|done].
  - split; [|done]. destruct Hi. split; try done; cbn [an_keep an_kept an_out].
    + destruct ai_auto0 as [A1 A2]. split; [done|]. intros Ha. specialize (A2 Ha). lia.
    + destruct ai_stage0 as [w Q1 Q2 Q3 Q4 Q5 Q6 Q7|Q1 Q2 Q3 Q4|Q1 Q2 Q3]; [lia|by apply st_serving|]. apply st_served; try done. right; left. cbn. lia.
Qed.

(** The thread that serves the request comes to its end: it answers unless there is an answer or
    somebody else has a reference. *)
Lemma inv_auto accept self descr st : expectReply m0 = true -> m_find self (an_threads st) = Some (mkThread [AAuto descr] true) ->
  AnRefused ∉ an_out (auto_reply accept true descr st) -> an_inv st ->
  an_inv (an_set_threads (m_set self (mkThread [] true) (an_threads st)) (auto_reply accept true descr st)).
Proof.
  intros He Hf Hr Hi. destruct Hi. destruct (counts_set self _ (mkThread [] true) st Hf) as (C1 & C2 & C3). cbn [is_serving is_disp th_acts th_ref last Nat.b2n] in *.
  assert (1 <= n_serv st)%nat as Hs by lia.
  destruct ai_stage0 as [w Q1 Q2 Q3 Q4 Q5 Q6 Q7|Q1 Q2 Q3 Q4|Q1 Q2 Q3]; [lia| |lia].
  set (st0 := an_set_threads (m_set self (mkThread [] true) (an_threads st)) st) in *.
  assert (n_serv st0 = 0%nat /\ n_disp st0 = n_disp st) as [N1 N2] by lia.
  assert (Forall thread_ok (an_threads st0)) as Ht by (apply threads_set; [by left|done]).
  assert (m_sorted (an_threads st0)) as Hm by by apply m_sorted_set.
  assert (needReply (an_msg st) = (users (an_out st) =? 0)%nat) as Hn.
  { rewrite needReply_bits, ai_need0, negb_involutive. rewrite expectReply_bit in He. rewrite (as_expect _ _ ai_as0), He, andb_true_r. unfold answers. by rewrite Q2, Nat.add_0_r. }
  unfold auto_reply in *. rewrite refs_total, Hn in *. change (total (fun th => Nat.b2n (th_ref th)) (an_threads st)) with (n_ref st) in *. cbn [andb] in *.
  destruct (((n_ref st + length (an_queued st) + an_kept st =? 1) && (users (an_out st) =? 0))%nat) eqn:Eb.
  - apply andb_prop in Eb as [E1%Nat.eqb_eq E2%Nat.eqb_eq]. destruct (Q4 E2) as [R1 R2].
    destruct accept; [|destruct Hr; cbn; apply elem_of_app; right; by apply list_elem_of_singleton].
    destruct (setStatusMsg_as ST_AUTO_REPLY_OK (Some descr) (Some FDB_MT_STATUS) (an_msg st)) as (S1 & S2).
    split; cbn [an_set_threads an_emit an_send an_set_queued an_set_msg an_threads an_msg an_out an_kept an_queued];
      rewrite ?answers_snoc, ?autos_snoc, ?users_snoc, ?sents_snoc; try done.
    + etransitivity; eassumption.
    + rewrite S2. symmetry. apply negb_true_iff, Nat.eqb_neq. lia.
    + right. apply setStatusMsg_type.
    + change (n_disp _) with (n_disp st0). change (q_disp _) with (length (an_queued st ++ [0])). rewrite R2.
      assert (q_disp st = 0%nat) as E0 by (unfold q_disp; rewrite R2; by destruct (an_func st)). unfold answers in *. cbn [app length]. lia.
    + split; [lia|]. intros _. split_and!; [lia|lia|done].
    + intros y Hy. apply elem_of_app in Hy as [Hy|Hy%list_elem_of_singleton]; [by apply (ai_out0 y)|done].
    + intros y Hy. apply elem_of_app in Hy as [Hy|Hy%list_elem_of_singleton]; [by apply ai_sent0|done].
    + apply st_served; cbn [an_set_threads an_emit an_send an_set_queued an_set_msg an_out an_func]; rewrite ?answers_snoc; [done|by right|left; lia].
  - change (an_inv st0). split; try done.
    + by change (q_disp st0) with (q_disp st); change (an_out st0) with (an_out st); rewrite N2.
    + destruct ai_auto0 as [A1 A2]. change (an_out st0) with (an_out st). split; [done|]. lia.
    + apply st_served; [done|done|]. change (an_out st0) with (an_out st). change (an_kept st0) with (an_kept st).
      destruct (decide (users (an_out st) = 0%nat)) as [Eu|Eu]; [|left; unfold answers; lia].
      destruct (Q4 Eu) as [R1 R2]. rewrite R1, R2, Eu in Eb. cbn in Eb. right; left. destruct (an_kept st); [done|lia].
Qed.

Lemma inv_dispatch self st : expectReply m0 = true -> m_find self (an_threads st) = Some (mkThread [ADispatch] true) -> an_inv st ->
  an_inv (an_set_threads (m_set self (mkThread [] true) (an_threads st)) (dispatch_msg true st)).
Proof.
  intros He Hf Hi. destruct Hi. destruct (counts_set self _ (mkThread [] true) st Hf) as (C1 & C2 & C3). cbn [is_serving is_disp th_acts th_ref last Nat.b2n] in *.
  assert (answers (an_out st) <> 0%nat) as Hz by lia.
  set (st0 := an_set_threads (m_set self (mkThread [] true) (an_threads st)) st) in *.
  assert (dispatch_msg true st = an_emit (AnSent (an_msg st)) st) as ->.
  { unfold dispatch_msg. rewrite expectReply_bit in *. rewrite (as_expect _ _ ai_as0), He. by destruct (ai_type0 Hz) as [-> | ->]. }
  assert (n_serv st0 = n_serv st /\ n_ref st0 = n_ref st /\ n_disp st = S (n_disp st0)) as (N1 & N2 & N3) by lia.
  split; cbn [an_set_threads an_emit an_threads an_msg an_out an_kept an_queued]; rewrite ?answers_snoc, ?autos_snoc, ?users_snoc, ?sents_snoc, ?Nat.add_0_r; try done.
  - by apply m_sorted_set.
  - apply threads_set; [by left|done].
  - change (n_disp _) with (n_disp st0). change (q_disp _) with (q_disp st). lia.
  - change (n_serv _) with (n_serv st0). by rewrite N1.
  - intros y Hy. apply elem_of_app in Hy as [Hy|Hy%list_elem_of_singleton]; [by apply (ai_out0 y)|done].
  - intros y Hy. apply elem_of_app in Hy as [Hy|Hy%list_elem_of_singleton]; [by apply ai_sent0|]. simplify_eq. split; [done|by apply ai_type0].
  - destruct ai_stage0 as [w Q1 Q2 Q3 Q4 Q5 Q6 Q7|Q1 Q2 Q3 Q4|Q1 Q2 Q3]; [done| |].
    + apply st_serving; cbn [an_set_threads an_emit an_out an_func an_queued]; rewrite ?autos_snoc, ?users_snoc, ?Nat.add_0_r; try done.
      * change (n_serv _) with (n_serv st0). by rewrite N1.
      * change (n_ref _) with (n_ref st0). by rewrite N2.
    + apply st_served; cbn [an_set_threads an_emit an_out an_func an_queued]; rewrite ?answers_snoc, ?Nat.add_0_r; try done.
      * change (n_serv _) with (n_serv st0). by rewrite N1.
      * left. lia.
Qed.

Lemma counts_new self th st : m_find self (an_threads st) = None ->
  n_serv (an_set_threads (m_set self th (an_threads st)) st) = (n_serv st + Nat.b2n (is_serving th))%nat /\
  n_disp (an_set_threads (m_set self th (an_threads st)) st) = (n_disp st + Nat.b2n (is_disp th))%nat /\
  n_ref (an_set_threads (m_set self th (an_threads st)) st) = (n_ref st + Nat.b2n (th_ref th))%nat.
Proof.
  intros Hf. unfold n_serv, n_disp, n_ref. cbn [an_set_threads an_threads].
  pose proof (total_set (fun th => Nat.b2n (is_serving th)) self th (an_threads st)) as H1.
  pose proof (total_set (fun th => Nat.b2n (is_disp th)) self th (an_threads st)) as H2.
  pose proof (total_set (fun th => Nat.b2n (th_ref th)) self th (an_threads st)) as H3. rewrite Hf in *. cbn [fmap option_fmap option_map default] in *. lia.
Qed.

Lemma inv_run w q1 q2 st : an_queued st = q1 ++ w :: q2 -> m_find w (an_threads st) = None -> an_inv st ->
  an_inv (an_set_threads (m_set w (mkThread (frame_of o (an_func st)) true) (an_threads st)) (an_set_queued (q1 ++ q2) st)).
Proof.
  intros Eq Hf []. destruct (counts_new w (mkThread (frame_of o (an_func st)) true) st Hf) as (C1 & C2 & C3). cbn [th_ref Nat.b2n] in C3.
  set (st0 := an_set_threads _ st) in *. set (st1 := an_set_threads _ _).
  change (n_serv st0) with (n_serv st1) in *. change (n_disp st0) with (n_disp st1) in *. change (n_ref st0) with (n_ref st1) in *.
  destruct ai_stage0 as [w' Q1 Q2 Q3 Q4 Q5 Q6 Q7|Q1 Q2 Q3 Q4|Q1 Q2 Q3].
  - assert (q1 = [] /\ q2 = [] /\ w' = w) as (-> & -> & ->).
    { rewrite Q1 in Eq. destruct q1 as [|? [|]]; simplify_eq/=; done. }
    destruct (serving_last w (frame_of o (an_func st)) true Q3) as [S1 D1]. rewrite S1 in C1. rewrite D1 in C2. cbn [Nat.b2n] in *.
    assert (q_disp st = 0%nat /\ q_disp st1 = 0%nat) as [E0 E1] by (unfold q_disp; cbn; by destruct (an_func st)).
    split; try done.
    + by apply m_sorted_set.
    + apply threads_set; [|done]. by right; right.
    + change (an_out st1) with (an_out st). lia.
    + change (an_out st1) with (an_out st). unfold answers in Q7. split; lia.
    + apply st_serving; change (an_out st1) with (an_out st); unfold answers in *; [lia|lia|by left|]. intros _. split; [lia|done].
  - destruct Q3 as [Q3|Q3]; [rewrite Q3 in Eq; by destruct q1|]. rewrite Q3 in C1, C2. cbn [frame_of is_serving is_disp th_acts last Nat.b2n] in *.
    assert (q_disp st = S (q_disp st1)) as Eq1 by (unfold q_disp; cbn; rewrite Q3, Eq, !length_app; cbn; lia).
    split; try done.
    + by apply m_sorted_set.
    + apply threads_set; [|done]. right; left. cbn. by rewrite Q3.
    + change (an_out st1) with (an_out st). lia.
    + change (an_out st1) with (an_out st). change (an_kept st1) with (an_kept st). split; [lia|]. intros Ha. exfalso. lia.
    + apply st_serving; change (an_out st1) with (an_out st); [lia|done|by right|]. intros Hu. destruct (Q4 Hu) as [_ Hq]. rewrite Hq in Eq. by destruct q1.
  - destruct Q2 as [Q2|Q2]; [rewrite Q2 in Eq; by destruct q1|]. rewrite Q2 in C1, C2. cbn [frame_of is_serving is_disp th_acts last Nat.b2n] in *.
    assert (q_disp st = S (q_disp st1)) as Eq1 by (unfold q_disp; cbn; rewrite Q2, Eq, !length_app; cbn; lia).
    split; try done.
    + by apply m_sorted_set.
    + apply threads_set; [|done]. right; left. cbn. by rewrite Q2.
    + change (an_out st1) with (an_out st). lia.
    + change (an_out st1) with (an_out st). change (an_kept st1) with (an_kept st). destruct ai_auto0 as [A1 A2]. split; [done|]. intros Ha. specialize (A2 Ha). lia.
    + apply st_served; change (an_out st1) with (an_out st); [lia|by right|done].
Qed.

Lemma inv_end self have st : m_find self (an_threads st) = Some (mkThread [] have) -> an_inv st -> an_inv (an_set_threads (m_erase self (an_threads st)) st).
Proof.
  intros Hf []. set (st1 := an_set_threads _ st).
  assert (n_serv st1 = n_serv st /\ n_disp st1 = n_disp st /\ (n_ref st1 <= n_ref st)%nat) as (C1 & C2 & C3).
  { unfold n_serv, n_disp, n_ref. cbn [st1 an_set_threads an_threads].
    pose proof (total_erase (fun th => Nat.b2n (is_serving th)) self (an_threads st)) as H1.
    pose proof (total_erase (fun th => Nat.b2n (is_disp th)) self (an_threads st)) as H2.
    pose proof (total_erase (fun th => Nat.b2n (th_ref th)) self (an_threads st)) as H3. rewrite Hf in *.
    cbn [fmap option_fmap option_map from_option id is_serving is_disp th_acts last Nat.b2n] in *. lia. }
  assert (Forall thread_ok (an_threads st1)) as Ht.
  { apply Forall_forall. intros e He. apply m_erase_In in He. by apply (proj1 (Forall_forall _ _) ai_threads0). }
  pose proof (n_serv_ref st1 Ht) as Hsr. split; try done.
  - by apply m_sorted_erase.
  - change (q_disp st1) with (q_disp st). change (an_out st1) with (an_out st). lia.
  - change (an_out st1) with (an_out st). change (an_kept st1) with (an_kept st). by rewrite C1.
  - destruct ai_stage0 as [w Q1 Q2 Q3 Q4 Q5 Q6 Q7|Q1 Q2 Q3 Q4|Q1 Q2 Q3].
    + apply (st_queued _ w); try done; lia.
    + apply st_serving; try done; [lia|]. intros Hu. destruct (Q4 Hu). split; [lia|done].
    + apply st_served; try done. lia.
Qed.

Lemma inv_drop n st : an_kept st = S n -> expectReply m0 = true -> an_inv st -> an_inv (an_keep n (if needReply (an_msg st) then an_emit AnAbandoned st else st)).
Proof.
  intros Hk He Hi. pose proof (ai_need _ Hi) as Hn. pose proof (as_expect _ _ (ai_as _ Hi)) as Hx.
  assert (needReply (an_msg st) = (answers (an_out st) =? 0)%nat) as En.
  { rewrite expectReply_bit in He. by rewrite needReply_bits, Hn, Hx, He, andb_true_r, negb_involutive. }
  set (st0 := if needReply (an_msg st) then _ else st).
  assert (an_inv st0) as Hi0 by (subst st0; destruct (needReply (an_msg st)); [by apply inv_emit|done]).
  assert (an_kept st0 = S n) as Hk0 by (subst st0; by destruct (needReply (an_msg st))).
  assert ((1 <= answers (an_out st0))%nat \/ AnAbandoned ∈ an_out st0) as Hor.
  { subst st0. rewrite En. destruct (answers (an_out st) =? 0)%nat eqn:Eb; [right; cbn; apply elem_of_app; right; by apply list_elem_of_singleton|].
    apply Nat.eqb_neq in Eb. left. lia. }
  clearbody st0. destruct Hi0. split; try done; cbn [an_keep an_kept an_out].
  - destruct ai_auto0 as [A1 A2]. split; [done|]. intros Ha. specialize (A2 Ha). lia.
  - destruct ai_stage0 as [w Q1 Q2 Q3 Q4 Q5 Q6 Q7|Q1 Q2 Q3 Q4|Q1 Q2 Q3]; [lia|by apply st_serving|]. apply st_served; try done. cbn. tauto.
Qed.

Lemma serving_cons self a l : serving_acts self (a :: l) ->
  (exists descr, a = AAuto descr /\ l = []) \/ (safe_act self a = true /\ serving_acts self l).
Proof.
  intros (pre & d & Eq & Hs). destruct pre as [|b pre]; simplify_eq/=; [left; eauto|].
  apply andb_prop in Hs as [H1 H2]. right. split; [done|]. by exists pre, d.
Qed.

Lemma serving_app self acts l : forallb (safe_act self) acts = true -> serving_acts self l -> serving_acts self (acts ++ l).
Proof. intros Ha (pre & d & -> & Hs). exists (acts ++ pre), d. rewrite forallb_app, Ha, Hs. by rewrite app_assoc. Qed.

Lemma on_invoke_code self m m' : m_mCode m = m_mCode m' -> on_invoke o self m = on_invoke o self m'.
Proof. intros Ec. unfold on_invoke, onInvoke. by rewrite Ec. Qed.

Lemma inv_act accept self a l have acts have' st st' : expectReply m0 = true -> m_mContext m0 = true ->
  m_find self (an_threads st) = Some (mkThread (a :: l) have) -> act_step true o accept self a have st = (acts, have', st') ->
  AnRefused ∉ an_out st' -> an_inv st -> an_inv (an_set_threads (m_set self (mkThread (acts ++ l) have') (an_threads st)) st').
Proof.
  intros He Hc Hf Ha Hr Hi. pose proof Hf as Hin. apply m_find_In in Hin; [|apply Hi].
  pose proof (proj1 (Forall_forall _ _) (ai_threads _ Hi) _ Hin) as [Ht|[[Ht Hh]|[Ht Hh]]]; cbn in Ht; [done| |]; cbn in Hh; subst have.
  - simplify_eq/=. by apply inv_dispatch.
  - assert (1 <= n_serv st)%nat as Hs.
    { destruct (serving_last _ _ true Ht) as [S1 _]. pose proof (total_in (fun th => Nat.b2n (is_serving th)) _ _ _ Hf) as Hb. cbn beta in Hb. rewrite S1 in Hb. done. }
    pose proof Ht as Hall. apply serving_cons in Ht as [(descr & -> & ->)|[Hsafe Hl]].
    + simplify_eq/=. by apply inv_auto.
    + destruct a as [|[|u us]| | | | | |]; cbn [safe_act] in Hsafe; try done; cbn [act_step] in Ha; simplify_eq.
      * rewrite (on_invoke_code self (an_msg st') m0) in * by apply (as_code _ _ (ai_as _ Hi)). apply (inv_thread self (AOnInvoke :: l)); try done.
        apply serving_app; [|done]. clear -Hsafe. induction (on_invoke o self m0) as [|b bs IH]; [done|]. cbn in *. apply andb_prop in Hsafe as [H1 H2]. rewrite IH by done. by destruct b.
      * by apply (inv_thread self (AUser [] :: l)).
      * destruct (inv_user accept u st He Hc (or_introl Hs) Hr Hi) as [Hu Et]. rewrite <- Et. apply (inv_thread self (AUser (u :: us) :: l)); try done; [by rewrite Et|].
        by apply (serving_app self [AUser us]).
      * apply (inv_thread self (ACached :: l) l (an_emit AnCached st)); try done. by apply inv_emit.
Qed.

Lemma step_out st st' : an_step true o st st' -> forall x, x ∈ an_out st -> x ∈ an_out st'.
Proof.
  assert (forall accept u st x, x ∈ an_out st -> x ∈ an_out (user_act accept u st)) as Hu.
  { intros accept u s x Hx. destruct u; cbn; unfold msg_reply, msg_status, an_send; repeat case_match; cbn; rewrite ?elem_of_app; tauto. }
  intros Hs x Hx. destruct Hs as [s w q1 q2 _ _|s self a l have accept acts have' s' Hf Ha|s self have _|s u accept _ _|s n Hk]; cbn.
  - done.
  - destruct a as [|[|u us]| | | | | |]; cbn [act_step] in Ha; simplify_eq; try done; try (by apply Hu).
    all: unfold auto_reply, dispatch_msg, reply_cache, an_send; repeat case_match; cbn; rewrite ?elem_of_app; tauto.
  - done.
  - by apply Hu.
  - destruct (needReply (an_msg s)); cbn; rewrite ?elem_of_app; tauto.
Qed.

Lemma inv_step st st' : expectReply m0 = true -> m_mContext m0 = true -> AnRefused ∉ an_out st' -> an_step true o st st' -> an_inv st -> an_inv st'.
Proof.
  intros He Hc Hr Hs Hi. destruct Hs as [s w q1 q2 Eq Hf|s self a l have accept acts have' s' Hf Ha|s self have Hf|s u accept Hk Hu|s n Hk].
  - by apply inv_run.
  - by apply (inv_act accept self a l have acts have' s s').
  - by apply (inv_end self have).
  - by apply (inv_user accept u s He Hc (or_intror Hk) Hr Hi).
  - by apply inv_drop.
Qed.

(** The first steps: the context serves the request, or hands it to the worker of the object. *)
Lemma inv_start_serving acts : expectReply m0 = true -> Z.testbit (m_mFlag m0) 26 = false -> serving_acts 0 acts -> an_inv (an_start m0 acts).
Proof.
  intros He Hr Ha. destruct (serving_last 0 acts true Ha) as [S1 D1]. split; try done.
  - cbn. split; [constructor|done].
  - constructor; [|done]. by right; right.
  - cbn [an_start an_out]. unfold n_disp, q_disp, total. cbn [an_start an_threads an_func an_queued fmap list_fmap sum_list snd]. rewrite D1. done.
  - split; [cbn; lia|]. done.
  - cbn. set_solver.
  - cbn. set_solver.
  - apply st_serving; [|done|by left|done]. unfold n_serv, total. cbn. by rewrite S1.
Qed.

Lemma inv_first_send w c st st' : service c = true -> serving_acts w (frame_of o c) -> expectReply m0 = true -> Z.testbit (m_mFlag m0) 26 = false ->
  st = an_start m0 [ASendSwap w c] -> AnRefused ∉ an_out st' -> an_step true o st st' -> an_inv st'.
Proof.
  intros Hv Ha He Hn Est Hr Hs. destruct Hs as [s w' q1 q2 Eq Hf|s self a l have accept acts have' s' Hf Hact|s self have Hf|s u accept Hk Hu|s n Hk]; subst s.
  - by destruct q1.
  - cbn in Hf. destruct (self <? 0) eqn:E1; [done|]. destruct (0 <? self) eqn:E2; [done|]. assert (self = 0) as -> by lia. simplify_eq/=.
    destruct accept; [|destruct Hr; cbn; by apply list_elem_of_singleton]. split; try done.
    + cbn. split; [constructor|done].
    + constructor; [|done]. by left.
    + cbn. by destruct c.
    + split; [cbn; lia|done].
    + cbn. set_solver.
    + cbn. set_solver.
    + by apply (st_queued _ w).
  - cbn in Hf. destruct (self <? 0) eqn:E1; [done|]. by destruct (0 <? self) eqn:E2.
  - cbn in Hk. lia.
  - done.
Qed.

End invariant.

(** ** Every request is answered *)

Inductive Served := SvInvoke | SvSubscribe (event_cache : bool).
Definition served_acts (o : AnObj) (k : Served) : list Act := match k with SvInvoke => doInvoke o | SvSubscribe c => doSubscribe o c end.

(** The handler does not have another worker than the thread the request arrives in. *)
Definition one_thread (o : AnObj) (m : FdbMessage) : bool :=
  match ao_onInvoke o, onInvoke 0 (ao_worker o) m (ao_handlers o) with
  | None, Some (CallOn _ _ _) => false
  | _, _ => true
  end.

Lemma served_cases o m k : (ao_worker o <> None -> ao_migrate o = true) -> one_thread o m = true ->
  serving_acts o m 0 (served_acts o k) \/
  exists w c, served_acts o k = [ASendSwap w c] /\ service c = true /\ serving_acts o m w (frame_of o c).
Proof.
  intros Hm H1. assert (safe_act o m 0 AOnInvoke = true) as S0.
  { cbn. unfold on_invoke, one_thread in *. destruct (ao_onInvoke o); [done|]. by destruct (onInvoke _ _ _ _) as [[]|]. }
  assert (forall w, msg_enabled (ao_handlers o) = false -> safe_act o m w AOnInvoke = true) as Sw.
  { intros w Hd. cbn. unfold on_invoke. destruct (ao_onInvoke o); [done|]. unfold onInvoke, msg_processMessage. destruct (ao_handlers o); done. }
  destruct k as [|cache]; cbn [served_acts]; unfold doInvoke, doSubscribe, migrate_to_worker.
  - destruct (msg_enabled (ao_handlers o)) eqn:Ed; [left; by exists [AOnInvoke], "Automatically reply to request."%string; cbn [forallb]; rewrite S0|].
    destruct (ao_worker o) as [w|]; [|left; by exists [AOnInvoke], "Automatically reply to request."%string; cbn [forallb]; rewrite S0].
    rewrite Hm by done. right. exists w, CallInvoke. split_and!; try done. exists [AOnInvoke], "Automatically reply to request."%string. cbn [forallb]. by rewrite Sw.
  - destruct cache; [left; by exists [ACached], "Automatically reply to subscribe request."%string|].
    destruct (ao_worker o) as [w|]; [|left; by exists [AUser (ao_onSubscribe o)], "Automatically reply to subscribe request."%string].
    rewrite Hm by done. right. exists w, CallSubscribe. split_and!; try done. by exists [AUser (ao_onSubscribe o)], "Automatically reply to subscribe request."%string.
Qed.

Lemma rtc_out {E : MsgEnv} o st st' : rtc (an_step true o) st st' -> AnRefused ∉ an_out st' -> AnRefused ∉ an_out st.
Proof. intros Hr Hn. induction Hr as [|x y z Hs _ IH]; [done|]. intros Hx. apply (IH Hn). by apply (step_out o x y). Qed.

Lemma rtc_inv {E : MsgEnv} o m0 st st' : expectReply m0 = true -> m_mContext m0 = true -> rtc (an_step true o) st st' -> AnRefused ∉ an_out st' ->
  an_inv o m0 st -> an_inv o m0 st'.
Proof.
  intros He Hc Hr Hn. induction Hr as [|x y z Hs Hr IH]; [done|]. intros Hi. apply (IH Hn).
  apply (inv_step o m0 x y He Hc); [by apply (rtc_out o y z)|done|done].
Qed.

Lemma inv_done {E : MsgEnv} o m0 st : an_inv o m0 st -> an_done st = true ->
  (sents (an_out st) = Nat.max 1 (users (an_out st)) \/ (AnAbandoned ∈ an_out st /\ sents (an_out st) = 0%nat)) /\
  (forall x, AnSent x ∈ an_out st -> answered_as m0 x /\ (m_mType x = FDB_MT_REPLY \/ m_mType x = FDB_MT_STATUS)).
Proof.
  intros [] Hd. split; [|done]. unfold an_done in Hd. apply andb_prop in Hd as [[H1 H2%Nat.eqb_eq]%andb_prop H3%Nat.eqb_eq].
  apply nil_length_inv in H2. destruct (an_threads st) eqn:Et; [|done].
  assert (n_serv st = 0 /\ n_disp st = 0 /\ q_disp st = 0)%nat as (N1 & N2 & N3).
  { unfold n_serv, n_disp, q_disp. rewrite Et, H2. by destruct (an_func st). }
  destruct ai_auto0 as [A1 A2]. unfold answers in *.
  destruct ai_stage0 as [w Q1 Q2 Q3 Q4 Q5 Q6 Q7|Q1 Q2 Q3 Q4|Q1 Q2 Q3]; [congruence|lia|].
  destruct (autos (an_out st)) as [|[|]] eqn:Ea; [|destruct (A2 eq_refl) as [Hu _]; left; lia|lia].
  destruct (users (an_out st)) as [|n] eqn:Eu; [|left; lia]. destruct Q3 as [Q3|[?|?]]; [unfold answers in Q3; lia|lia|]. right. split; [done|lia].
Qed.

(** C19: A request that asks for an answer gets exactly one, however the threads that serve
    it are interleaved: that of its handler, at once or later with a reference the handler kept,
    or that of the library when the handler returns without an answer and kept no reference; only
    a reference that is kept and dropped without an answer leaves it unanswered, and only a handler
    that answers more than once makes it more. The answer has the number of the request. This
    holds for all objects whose handlers run in the thread the object gets the request in and that
    are not retired, and for requests that came in through a context, as long as the job queues
    take the jobs and the session is there; with a handler in another thread the answer of the
    library can be lost ([auto_reply_lost]). *)
Theorem request_answered {E : MsgEnv} (o : AnObj) (m0 : FdbMessage) (k : Served) (st : Answer) :
  needReply m0 = true -> m_mContext m0 = true -> (ao_worker o <> None -> ao_migrate o = true) -> one_thread o m0 = true ->
  rtc (an_step true o) (an_start m0 (served_acts o k)) st -> an_done st = true -> AnRefused ∉ an_out st ->
  (sents (an_out st) = Nat.max 1 (users (an_out st)) \/ (AnAbandoned ∈ an_out st /\ sents (an_out st) = 0%nat)) /\
  (forall x, AnSent x ∈ an_out st -> answered_as m0 x /\ (m_mType x = FDB_MT_REPLY \/ m_mType x = FDB_MT_STATUS)).
Proof.
  intros Hn Hc Hm H1 Hr Hd Hf. rewrite needReply_bits in Hn. apply andb_prop in Hn as [Hn%negb_true_iff He]. rewrite <- expectReply_bit in He.
  apply (inv_done o m0); [|done]. destruct (served_cases o m0 k Hm H1) as [Ha|(w & c & Eq & Hs & Ha)].
  - apply (rtc_inv o m0 _ st He Hc Hr Hf). by apply inv_start_serving.
  - rewrite Eq in Hr. inversion Hr as [|x y z Hxy Hyz]; subst; [done|]. apply (rtc_inv o m0 y st He Hc Hyz Hf).
    apply (inv_first_send o m0 w c _ y Hs Ha He Hn eq_refl); [by apply (rtc_out o y st)|done].
Qed.

(** ** Concrete runs *)

(** A schedule, step by step. *)
Inductive Sched := SRun (w : Z) | SAct (self : Z) | SEnd (self : Z) | SLate (u : UserAct) | SDrop.

Definition sched_step {E : MsgEnv} (o : AnObj) (c : Sched) st : option Answer :=
  match c with
  | SRun w => match m_find w (an_threads st), an_queued st with
              | None, w' :: q => if w' =? w then Some (an_set_threads (m_set w (mkThread (frame_of o (an_func st)) true) (an_threads st)) (an_set_queued q st)) else None
              | _, _ => None
              end
  | SAct self => match m_find self (an_threads st) with
                 | Some (mkThread (a :: l) have) => let '(acts, have, st') := act_step true o true self a have st in
                                                    Some (an_set_threads (m_set self (mkThread (acts ++ l) have) (an_threads st)) st')
                 | _ => None
                 end
  | SEnd self => match m_find self (an_threads st) with
                 | Some (mkThread [] _) => Some (an_set_threads (m_erase self (an_threads st)) st)
                 | _ => None
                 end
  | SLate UKeep => None
  | SLate u => match an_kept st with O => None | S _ => Some (user_act true u st) end
  | SDrop => match an_kept st with O => None | S n => Some (an_keep n (if needReply (an_msg st) then an_emit AnAbandoned st else st)) end
  end.

Fixpoint sched_run {E : MsgEnv} (o : AnObj) (cs : list Sched) st : option Answer :=
  match cs with [] => Some st | c :: cs => st ← sched_step o c st; sched_run o cs st end.

Lemma sched_reach {E : MsgEnv} o cs st st' : sched_run o cs st = Some st' -> rtc (an_step true o) st st'.
Proof.
  revert st. induction cs as [|c cs IH]; intros st; cbn [sched_run]; [intros [= ->]; done|].
  destruct (sched_step o c st) as [st1|] eqn:E1; [|done]. cbn. intros Hc. apply rtc_l with st1; [|by apply IH]. clear Hc IH.
  destruct c as [w|self|self|u|]; cbn [sched_step] in E1.
  - destruct (m_find w (an_threads st)) eqn:Ef; [done|]. destruct (an_queued st) as [|w' q] eqn:Eq; [done|]. destruct (Z.eqb_spec w' w); simplify_eq.
    by apply (an_run true o st w [] q).
  - destruct (m_find self (an_threads st)) as [[[|a l] have]|] eqn:Ef; try done. destruct (act_step true o true self a have st) as [[acts have'] st2] eqn:Ea. simplify_eq.
    by apply (an_act true o st self a l have true).
  - destruct (m_find self (an_threads st)) as [[[|a l] have]|] eqn:Ef; simplify_eq. by apply (an_end true o st self have).
  - destruct u; [| |done]; (destruct (an_kept st) eqn:Ek; simplify_eq; apply an_late; [lia|done]).
  - destruct (an_kept st) as [|n] eqn:Ek; simplify_eq. by apply an_drop.
Qed.

Definition lab_answer_env : MsgEnv := mkMsgEnv true false (fun _ _ => false) (fun _ => EmptyString).
Definition lab_request : FdbMessage :=
  mkMsg FDB_MT_REQUEST 5 77 0 0 0 1 2 3 None 0 None EmptyString EmptyString None FDB_QOS_RELIABLE true 0.

(** A handler in the thread of the context that keeps the request and answers it later. *)
Definition lab_keeper : AnObj := mkAnObj None true [(5, mkMsgItem 5 (Some [UKeep]) None)] None [].
Definition lab_keeping : list Sched :=
  [SAct 0; SAct 0; SAct 0; SAct 0; SEnd 0; SLate (UReply [1; 2]); SDrop; SRun 0; SAct 0; SEnd 0].
Definition lab_kept : Answer := let E := lab_answer_env in
  default (an_start lab_request []) (sched_run lab_keeper lab_keeping (an_start lab_request (served_acts lab_keeper SvInvoke))).

Lemma request_answered_witness : needReply lab_request = true /\ users (an_out lab_kept) = 1%nat /\ sents (an_out lab_kept) = 1%nat.
Proof.
  split; [vm_compute; reflexivity|]. split; [vm_compute; reflexivity|].
  assert (rtc (an_step (E := lab_answer_env) true lab_keeper) (an_start lab_request (served_acts lab_keeper SvInvoke)) lab_kept) as Hr.
  { apply (sched_reach (E := lab_answer_env) lab_keeper lab_keeping). vm_compute. reflexivity. }
  destruct (request_answered (E := lab_answer_env) lab_keeper lab_request SvInvoke lab_kept) as [[H1|[H1 _]] _].
  - vm_compute. reflexivity.
  - reflexivity.
  - intros H. reflexivity.
  - vm_compute. reflexivity.
  - exact Hr.
  - vm_compute. reflexivity.
  - vm_compute. intros H. repeat (apply elem_of_cons in H as [H|H]; [discriminate|]). by apply not_elem_of_nil in H.
  - exact H1.
  - exfalso. vm_compute in H1. repeat (apply elem_of_cons in H1 as [H1|H1]; [discriminate|]). by apply not_elem_of_nil in H1.
Defined.

(** A handler with a worker of its own: the context keeps its reference while the worker serves
    the request, each of the two finds that the other one still has it, and nobody answers. *)
Definition lab_apart : AnObj := mkAnObj None true [(5, mkMsgItem 5 (Some []) (Some 1))] None [].
Example auto_reply_lost : let E := lab_answer_env in
  (fun st => (an_done st, sents (an_out st), answers (an_out st), length (an_out st))) <$>
    sched_run lab_apart [SAct 0; SAct 0; SRun 1; SAct 1; SAct 1; SAct 0; SEnd 0; SEnd 1] (an_start lab_request (served_acts lab_apart SvInvoke))
  = Some (true, 0%nat, 0%nat, 0%nat).
Proof. vm_compute. reflexivity. Qed.

(** The same request is answered when the context is done before the worker begins. *)
Example auto_reply_apart : let E := lab_answer_env in
  (fun st => (an_done st, sents (an_out st))) <$>
    sched_run lab_apart [SAct 0; SAct 0; SAct 0; SEnd 0; SRun 1; SAct 1; SAct 1; SEnd 1; SRun 0; SAct 0; SEnd 0] (an_start lab_request (served_acts lab_apart SvInvoke))
  = Some (true, 1%nat).
Proof. vm_compute. reflexivity. Qed.

(** An object that has been taken back ([enableMigrate] is off) does not answer. *)
Example retired_object_silent : let E := lab_answer_env in
  (fun st => (an_done st, sents (an_out st))) <$>
    sched_run (mkAnObj (Some 1) false [] None []) [SEnd 0] (an_start lab_request (served_acts (mkAnObj (Some 1) false [] None []) SvInvoke))
  = Some (true, 0%nat).
Proof. vm_compute. reflexivity. Qed.
