(* ===== verification/HostServer.v ===== *)
(** The host server: src/server/CHostServer.cpp, with its proxies to other host servers,
    src/server/CInterHostProxy.cpp and src/server/CBaseHostProxy.cpp.

    A host server connects the name servers of a domain (the local hosts) and passes service
    tables between them, the host servers below it (external domains) and those above it, to
    which it is connected through proxies. Its state is [CHostServer]; a handler takes the
    session a message came from and its contents ([None]: they cannot be decoded) and gives the
    next state and what is sent. The rest of the process is [HsEnv]. *)
From S2P Require Import Prelude StdMap CommonDefs Serializer Codec WireBase NsMessages SocketFactory SvcAddrUtils Subscribe Json Security.
Open Scope Z_scope.

(** ** Data *)

Record CLocalHostInfo := mkLocalHost {
  lh_mHostName : string; lh_mIpAddress : string; lh_mAddressTbl : list CFdbSocketAddr; lh_mHbCount : Z; lh_mReady : bool;
  lh_mAuthorized : bool; lh_mTokens : list string; lh_mSvcAddrTbl : list CFdbSvcAddress }.

Record CExternalDomainInfo := mkDomain {
  ed_mDomainName : string; ed_mHbCount : Z; ed_mReady : bool; ed_mAuthorized : bool; ed_mTokens : list string;
  ed_mSvcAddrTbl : list CFdbSvcAddress }.

(** [CConnectTimer]: off, or what it is for. *)
Inductive ConnectTimer := MODE_IDLE | MODE_RECONNECT_TO_SERVER | MODE_HEARTBEAT.

Record CInterHostProxy := mkHostProxy { hp_connected : bool; hp_mConnectTimer : ConnectTimer; hp_mDomainName : string; hp_mSvcAddrTbl : list CFdbSvcAddress }.

Record CHostServer := mkHostServer {
  hs_mLocalHostTbl : smap Z CLocalHostInfo; hs_mExternalDomainTbl : smap Z CExternalDomainInfo; hs_mHostProxyTbl : smap string CInterHostProxy;
  hs_mMaxDomainExportableLevel : Z; hs_mMinUpstreamExportableLevel : Z; hs_mHeartBeatTimer : bool }.

Implicit Types s : CHostServer.
Implicit Types h : CLocalHostInfo.

(** The interfaces of the machine, the peer and the own address of a session ([None]: it is
    gone; an empty address: it is local), the configuration of host levels, the name of the
    domain, and the sessions subscribed to [NTF_HOST_ONLINE]. *)
Class HsEnv := mkHsEnv {
  he_interfaces : list IfDesc;
  he_peerIp : Z -> option string;
  he_hostIp : Z -> string;
  he_hostSecurity : CHostSecurityConfig;
  he_name : string;
  he_subscribers : list Z }.

(** [to]: one session, or all that subscribed. *)
Inductive HsOut :=
  | HsStatus (code : FdbMsgStatusCode)
  | HsReply (ack : FdbMsgHostRegisterAck)
  | HsReplyServices (t : FdbMsgAllExportableService)
  | HsInternal (to : option Z) (t : FdbMsgExportableSvcAddress)   (* NTF_EXPORT_SVC_ADDRESS_INTERNAL *)
  | HsExternal (to : option Z) (t : FdbMsgExportableSvcAddress)   (* NTF_EXPORT_SVC_ADDRESS_EXTERNAL *)
  | HsHostOnline (to : option Z) (l : FdbMsgHostAddressList)      (* NTF_HOST_ONLINE *)
  | HsHeartBeat
  | HsKickOut (sid : Z)
  | HsPost (url : string) (t : FdbMsgExportableSvcAddress)        (* REQ_POST_DOMAIN_SVC_ADDRESS *)
  | HsDomainReady (url : string) (m : FdbMsgDomainAddress)        (* REQ_EXTERNAL_HOST_READY *)
  | HsRegisterDomain (url : string) (m : FdbMsgDomainRegisterReq)
  | HsSubscribeHeartBeat (url : string) | HsSubscribeExternal (url : string) | HsHeartBeatOk (url : string)
  | HsConnect (url : string) | HsDisconnect (url : string)
  | HsImportTokens (tokens : list string).

Definition hs_set_local l s : CHostServer :=
  mkHostServer l (hs_mExternalDomainTbl s) (hs_mHostProxyTbl s) (hs_mMaxDomainExportableLevel s) (hs_mMinUpstreamExportableLevel s) (hs_mHeartBeatTimer s).
Definition hs_set_domains d s : CHostServer :=
  mkHostServer (hs_mLocalHostTbl s) d (hs_mHostProxyTbl s) (hs_mMaxDomainExportableLevel s) (hs_mMinUpstreamExportableLevel s) (hs_mHeartBeatTimer s).
Definition hs_set_proxies p s : CHostServer :=
  mkHostServer (hs_mLocalHostTbl s) (hs_mExternalDomainTbl s) p (hs_mMaxDomainExportableLevel s) (hs_mMinUpstreamExportableLevel s) (hs_mHeartBeatTimer s).
Definition hs_set_timer b s : CHostServer :=
  mkHostServer (hs_mLocalHostTbl s) (hs_mExternalDomainTbl s) (hs_mHostProxyTbl s) (hs_mMaxDomainExportableLevel s) (hs_mMinUpstreamExportableLevel s) b.

Definition CHostServer_new (max_domain_exportable_level min_upstream_exportable_level : Z) : CHostServer :=
  mkHostServer [] [] [] (if max_domain_exportable_level <? 0 then FDB_EXPORTABLE_DOMAIN else max_domain_exportable_level)
    (if min_upstream_exportable_level <? 0 then FDB_EXPORTABLE_DOMAIN else min_upstream_exportable_level) false.

Definition NS_CFG_NR_HB_RETRIES : Z := 5.

Section server.
Context {I : Indet} {E : HsEnv}.

(** ** Service tables *)

Definition populate_all (tbls : list (list CFdbSvcAddress)) (t : FdbMsgExportableSvcAddress) (level : Z) : FdbMsgExportableSvcAddress :=
  foldl (fun t tbl => populateFromHostInfo_tbl tbl t level) t tbls.

Definition populateLocalHost (t : FdbMsgExportableSvcAddress) (level : Z) s : FdbMsgExportableSvcAddress :=
  populate_all (map (fun e => lh_mSvcAddrTbl e.2) (List.filter (fun e => lh_mReady e.2) (hs_mLocalHostTbl s))) t level.
Definition populateUpstreamHost (t : FdbMsgExportableSvcAddress) (level : Z) s : FdbMsgExportableSvcAddress :=
  populate_all (map (fun e => hp_mSvcAddrTbl e.2) (hs_mHostProxyTbl s)) t level.
Definition populateDownstreamHost (t : FdbMsgExportableSvcAddress) (level : Z) s : FdbMsgExportableSvcAddress :=
  populate_all (map (fun e => ed_mSvcAddrTbl e.2) (List.filter (fun e => ed_mReady e.2) (hs_mExternalDomainTbl s))) t level.

Definition svc_empty : FdbMsgExportableSvcAddress := mkExportableSvcAddress [].

Definition buildAddrTblForLocalHost s : FdbMsgExportableSvcAddress :=
  populateDownstreamHost (populateUpstreamHost svc_empty (hs_mMaxDomainExportableLevel s) s) (hs_mMaxDomainExportableLevel s) s.
Definition buildAddrTblForUpstreamHost s : FdbMsgExportableSvcAddress :=
  populateLocalHost (populateDownstreamHost svc_empty (- hs_mMinUpstreamExportableLevel s) s) (- hs_mMinUpstreamExportableLevel s) s.
Definition buildAddrTblForDownstreamHost s : FdbMsgExportableSvcAddress :=
  populateLocalHost (populateDownstreamHost (populateUpstreamHost svc_empty (hs_mMaxDomainExportableLevel s) s) (hs_mMaxDomainExportableLevel s) s)
    (hs_mMaxDomainExportableLevel s) s.

Definition broadcastToLocalHost (to : option Z) s : list HsOut := [HsInternal to (buildAddrTblForLocalHost s)].
Definition broadcastToDownstreamHost (to : option Z) s : list HsOut := [HsExternal to (buildAddrTblForDownstreamHost s)].
(** [postSvcTable] of each proxy. *)
Definition postToUpstreamHost s : list HsOut :=
  map (fun e => HsPost e.1 (buildAddrTblForUpstreamHost s)) (List.filter (fun e => hp_connected e.2) (hs_mHostProxyTbl s)).

Definition broadcastOnLocalSvcTableChanged s : list HsOut := broadcastToDownstreamHost None s ++ postToUpstreamHost s.
Definition broadcastOnDomainSvcTableChanged s : list HsOut :=
  broadcastToLocalHost None s ++ broadcastToDownstreamHost None s ++ postToUpstreamHost s.
Definition broadcastOnUpstreamSvcTableChanged s : list HsOut := broadcastToLocalHost None s ++ broadcastToDownstreamHost None s.

Definition sv_set_domain (name : string) (e : CFdbSvcAddress) : CFdbSvcAddress :=
  mkSvcAddress (sv_mAddrTbl e) (sv_mInstanceId e) (sv_mSvcName e) (sv_mEndpointName e) (sv_mHostName e) name (sv_mTokens e).
Definition lh_set_table (t : list CFdbSvcAddress) h : CLocalHostInfo :=
  mkLocalHost (lh_mHostName h) (lh_mIpAddress h) (lh_mAddressTbl h) (lh_mHbCount h) (lh_mReady h) (lh_mAuthorized h) (lh_mTokens h) t.
Definition ed_set_table (t : list CFdbSvcAddress) (d : CExternalDomainInfo) : CExternalDomainInfo :=
  mkDomain (ed_mDomainName d) (ed_mHbCount d) (ed_mReady d) (ed_mAuthorized d) (ed_mTokens d) t.

Definition updateLocalSvcTable (sid : Z) h (t : FdbMsgExportableSvcAddress) s : CHostServer * list HsOut :=
  let s := hs_set_local (m_set sid (lh_set_table (map (sv_set_domain he_name) (populateToHostInfo_tbl t [])) h) (hs_mLocalHostTbl s)) s in
  (s, broadcastOnLocalSvcTableChanged s).
Definition updateDomainSvcTable (sid : Z) (d : CExternalDomainInfo) (t : FdbMsgExportableSvcAddress) s : CHostServer * list HsOut :=
  let s := hs_set_domains (m_set sid (ed_set_table (populateToHostInfo_tbl t []) d) (hs_mExternalDomainTbl s)) s in
  (s, broadcastOnDomainSvcTableChanged s).
(** Services the local hosts have themselves are not taken over. *)
Definition updateUpstreamSvcTable (url : string) (p : CInterHostProxy) (t : FdbMsgExportableSvcAddress) s : CHostServer * list HsOut :=
  let tbl := foldl (fun tbl e => removeDuplicateService he_interfaces tbl (lh_mSvcAddrTbl e.2)) (populateToHostInfo_tbl t []) (hs_mLocalHostTbl s) in
  let s := hs_set_proxies (m_set url (mkHostProxy (hp_connected p) (hp_mConnectTimer p) (hp_mDomainName p) tbl) (hs_mHostProxyTbl s)) s in
  (s, broadcastOnUpstreamSvcTableChanged s).

(** ** Hosts *)

(** The token of [this_host] for [that_host]; the list is marked as present either way. *)
Definition addToken (this_host that_host : CLocalHostInfo) (a : FdbMsgHostAddress) : FdbMsgHostAddress :=
  let level := if lh_mAuthorized that_host
               then host_getSecurityLevel he_hostSecurity (c_str (lh_mHostName this_host)) (c_str (lh_mHostName that_host))
               else FDB_SECURITY_LEVEL_NONE in
  let tokens := if (level >=? 0) && (level <? Z.of_nat (length (lh_mTokens this_host)))
                then match lh_mTokens this_host !! Z.to_nat level with Some t => [c_str t] | None => [] end else [] in
  mkHostAddress (ha_mIpAddress a) (ha_mHostName a) (ha_mAddressList a) (mkTokens tokens) (ha_mSvcAddrList a) (Z.lor (ha_mOptions a) mMaskTokenList).

Definition populateHostAddress (session : option Z) h : FdbMsgHostAddress :=
  let ip := if bool_decide (lh_mIpAddress h = EmptyString) || bool_decide (lh_mIpAddress h = FDB_IP_ALL_INTERFACE)
            then match session with Some sid => he_hostIp sid | None => lh_mIpAddress h end else lh_mIpAddress h in
  mkHostAddress ip (lh_mHostName h) (map (fun a => set_udp_port (fromSocketAddress FdbMsgAddressItem_new a) FDB_INET_PORT_INVALID) (lh_mAddressTbl h))
    (mkTokens []) svc_empty 0.

(** Tells [sid] about the host [h], unless it is [h] or not ready. *)
Definition notifyHost (sid : Z) h (sid' : Z) s : list HsOut :=
  match m_find sid' (hs_mLocalHostTbl s) with
  | Some that => if (sid' =? sid) || negb (lh_mReady that) then []
                 else [HsHostOnline (Some sid') (mkHostAddressList [addToken h that (populateHostAddress (Some sid') h)] (buildAddrTblForLocalHost s))]
  | None => [HsHostOnline (Some sid') (mkHostAddressList [populateHostAddress (Some sid') h] (buildAddrTblForLocalHost s))]
  end.
Definition broadcastSingleHost (online : bool) (sid : Z) h s : list HsOut :=
  if online then sid' ← he_subscribers; notifyHost sid h sid' s
  else [HsHostOnline None (mkHostAddressList [populateHostAddress None h] svc_empty)].

(** ** Handlers *)

Definition hs_members s : Z := Z.of_nat (length (hs_mLocalHostTbl s) + length (hs_mExternalDomainTbl s)).

Definition host_ack (tokens : list string) : FdbMsgHostRegisterAck := mkHostRegisterAck he_name (mkTokens tokens) mMaskTokenList.

(** [tokens] is what [allocateToken] draws. *)
Definition onRegisterLocalHostReq (sid : Z) (req : option FdbMsgHostRegisterReq) (tokens : list string) s : CHostServer * list HsOut :=
  match req with
  | None => (s, [HsStatus FDB_ST_MSG_DECODE_FAIL])
  | Some req =>
      let ip_addr := c_str (hr_mIpAddress req) in
      let host_name := if is_empty_str (hr_mHostName req) then ip_addr else c_str (hr_mHostName req) in
      let authorized := match getCred he_hostSecurity host_name with
                        | Some cred => is_empty_str cred || negb (negb (FdbMsgHostRegisterReq_has_cred req) || is_empty_str (hr_mCred req) || negb (String.eqb cred (hr_mCred req)))
                        | None => true
                        end in
      let old := m_find sid (hs_mLocalHostTbl s) in
      let h := mkLocalHost host_name ip_addr (default [] (lh_mAddressTbl <$> old)) 0 false authorized tokens (default [] (lh_mSvcAddrTbl <$> old)) in
      let s := hs_set_local (m_set sid h (hs_mLocalHostTbl s)) s in
      (if hs_members s =? 1 then hs_set_timer true s else s, [HsReply (host_ack tokens)])
  end.

Definition onRegisterExternalDomainReq (sid : Z) (req : option FdbMsgDomainRegisterReq) (tokens : list string) s : CHostServer * list HsOut :=
  match req with
  | None => (s, [HsStatus FDB_ST_MSG_DECODE_FAIL])
  | Some req =>
      let old := m_find sid (hs_mExternalDomainTbl s) in
      let d := mkDomain (dr_mDomainName req) 0 false true tokens (default [] (ed_mSvcAddrTbl <$> old)) in
      let s := hs_set_domains (m_set sid d (hs_mExternalDomainTbl s)) s in
      (if hs_members s =? 1 then hs_set_timer true s else s, [HsReply (host_ack tokens)])
  end.

Definition onLocalHostReady (sid : Z) (req : option FdbMsgHostAddress) s : CHostServer * list HsOut :=
  match req with
  | None => (s, [HsStatus FDB_ST_MSG_DECODE_FAIL])
  | Some a =>
      match m_find sid (hs_mLocalHostTbl s) with
      | None => (s, [])
      | Some h =>
          let addrs := verifyUrl (ha_mAddressList a) (he_peerIp sid) in
          let h := mkLocalHost (lh_mHostName h) (lh_mIpAddress h) (lh_mAddressTbl h ++ map (fun it => toSocketAddress it CFdbSocketAddr_new) addrs)
                     (lh_mHbCount h) true (lh_mAuthorized h) (lh_mTokens h) (lh_mSvcAddrTbl h) in
          let '(s, out) := updateLocalSvcTable sid h (verifyUrl_tbl (ha_mSvcAddrList a) (he_peerIp sid)) s in
          (s, out ++ broadcastSingleHost true sid h s)
      end
  end.

Definition onExternalHostReady (sid : Z) (req : option FdbMsgDomainAddress) s : CHostServer * list HsOut :=
  match req with
  | None => (s, [HsStatus FDB_ST_MSG_DECODE_FAIL])
  | Some a =>
      match m_find sid (hs_mExternalDomainTbl s) with
      | None => (s, [])
      | Some d => updateDomainSvcTable sid (mkDomain (ed_mDomainName d) (ed_mHbCount d) true (ed_mAuthorized d) (ed_mTokens d) (ed_mSvcAddrTbl d))
                    (verifyUrl_tbl (da_mSvcAddrList a) (he_peerIp sid)) s
      end
  end.

Definition onPostLocalSvcAddress (sid : Z) (req : option FdbMsgExportableSvcAddress) s : CHostServer * list HsOut :=
  match req with
  | None => (s, [HsStatus FDB_ST_MSG_DECODE_FAIL])
  | Some t => match m_find sid (hs_mLocalHostTbl s) with
              | Some h => updateLocalSvcTable sid h (verifyUrl_tbl t (he_peerIp sid)) s
              | None => (s, [])
              end
  end.
Definition onPostDomainSvcAddress (sid : Z) (req : option FdbMsgExportableSvcAddress) s : CHostServer * list HsOut :=
  match req with
  | None => (s, [HsStatus FDB_ST_MSG_DECODE_FAIL])
  | Some t => match m_find sid (hs_mExternalDomainTbl s) with
              | Some d => updateDomainSvcTable sid d (verifyUrl_tbl t (he_peerIp sid)) s
              | None => (s, [])
              end
  end.

Definition onQueryExportableService s : CHostServer * list HsOut :=
  (s, [HsReplyServices (mkAllExportableService (populateUpstreamHost svc_empty FDB_EXPORTABLE_ANY s) (populateLocalHost svc_empty FDB_EXPORTABLE_ANY s)
                          (populateDownstreamHost svc_empty FDB_EXPORTABLE_ANY s))]).

(** The first host with the address is taken out; its services are not announced as gone. *)
Definition onUnregisterLocalHostReq (req : option FdbMsgHostAddress) s : CHostServer * list HsOut :=
  match req with
  | None => (s, [HsStatus FDB_ST_MSG_DECODE_FAIL])
  | Some a => match find (fun e => String.eqb (lh_mIpAddress e.2) (c_str (ha_mIpAddress a))) (hs_mLocalHostTbl s) with
              | Some (sid, h) => (hs_set_local (m_erase sid (hs_mLocalHostTbl s)) s, broadcastSingleHost false sid h s)
              | None => (s, [HsStatus FDB_ST_NON_EXIST])
              end
  end.

Definition hs_onQueryHostReq s : CHostServer * list HsOut := (s, [HsStatus FDB_ST_NOT_IMPLEMENTED]).

Definition lh_set_hb (c : Z) h : CLocalHostInfo :=
  mkLocalHost (lh_mHostName h) (lh_mIpAddress h) (lh_mAddressTbl h) c (lh_mReady h) (lh_mAuthorized h) (lh_mTokens h) (lh_mSvcAddrTbl h).
Definition ed_set_hb (c : Z) (d : CExternalDomainInfo) : CExternalDomainInfo :=
  mkDomain (ed_mDomainName d) c (ed_mReady d) (ed_mAuthorized d) (ed_mTokens d) (ed_mSvcAddrTbl d).

Definition onHeartbeatOk (sid : Z) s : CHostServer * list HsOut :=
  match m_find sid (hs_mLocalHostTbl s) with
  | Some h => (hs_set_local (m_set sid (lh_set_hb 0 h) (hs_mLocalHostTbl s)) s, [])
  | None => match m_find sid (hs_mExternalDomainTbl s) with
            | Some d => (hs_set_domains (m_set sid (ed_set_hb 0 d) (hs_mExternalDomainTbl s)) s, [])
            | None => (s, [])
            end
  end.

(** Members that missed too many are kicked out, which ends in [onOffline] later. *)
Definition broadcastHeartBeat s : CHostServer * list HsOut :=
  let local := map (fun e => (e.1, lh_set_hb (i32 (lh_mHbCount e.2 + 1)) e.2)) (hs_mLocalHostTbl s) in
  let domains := map (fun e => (e.1, ed_set_hb (i32 (ed_mHbCount e.2 + 1)) e.2)) (hs_mExternalDomainTbl s) in
  (hs_set_domains domains (hs_set_local local s),
   map (fun e => HsKickOut e.1) (List.filter (fun e => lh_mHbCount e.2 >=? NS_CFG_NR_HB_RETRIES) local)
   ++ map (fun e => HsKickOut e.1) (List.filter (fun e => ed_mHbCount e.2 >=? NS_CFG_NR_HB_RETRIES) domains) ++ [HsHeartBeat]).

Definition hs_onOffline (sid : Z) s : CHostServer * list HsOut :=
  let '(s, out) :=
    match m_find sid (hs_mLocalHostTbl s) with
    | Some h => let s' := hs_set_local (m_erase sid (hs_mLocalHostTbl s)) s in (s', broadcastSingleHost false sid h s ++ broadcastOnLocalSvcTableChanged s')
    | None => match m_find sid (hs_mExternalDomainTbl s) with
              | Some _ => let s := hs_set_domains (m_erase sid (hs_mExternalDomainTbl s)) s in (s, broadcastOnUpstreamSvcTableChanged s)
              | None => (s, [])
              end
    end in
  (if hs_members s =? 0 then hs_set_timer false s else s, out).

(** Subscriptions get the current tables at once. *)
Definition onHostOnlineReg (sid : Z) s : CHostServer * list HsOut :=
  let that := m_find sid (hs_mLocalHostTbl s) in
  let l := map (fun e => let a := populateHostAddress (Some sid) e.2 in match that with Some t => addToken e.2 t a | None => a end)
             (List.filter (fun e => negb (e.1 =? sid) && lh_mReady e.2) (hs_mLocalHostTbl s)) in
  (s, match l with [] => [] | _ => [HsHostOnline (Some sid) (mkHostAddressList l (buildAddrTblForLocalHost s))] end).
Definition onLocalSvcOnlineReg (sid : Z) s : CHostServer * list HsOut := (s, broadcastToLocalHost (Some sid) s).
Definition onExternalSvcOnlineReg (sid : Z) s : CHostServer * list HsOut := (s, broadcastToDownstreamHost (Some sid) s).

(** ** Proxies to host servers above *)

(** A [doConnect] that succeeds calls [proxy_onOnline], which stops the timer again. *)
Definition hs_connectToHostServer (url : string) (p : CInterHostProxy) s : CHostServer * list HsOut :=
  if hp_connected p then (s, [])
  else (hs_set_proxies (m_set url (mkHostProxy false MODE_RECONNECT_TO_SERVER (hp_mDomainName p) (hp_mSvcAddrTbl p)) (hs_mHostProxyTbl s)) s, [HsConnect url]).

Fixpoint hs_online (urls : list string) s : CHostServer * list HsOut :=
  match urls with
  | [] => (s, [])
  | url :: urls =>
      let url := c_str url in
      let '(s, out) := if is_empty_str url then (s, []) else
                       match m_find url (hs_mHostProxyTbl s) with
                       | Some _ => (s, [])
                       | None => let p := mkHostProxy false MODE_IDLE EmptyString [] in
                                 hs_connectToHostServer url p (hs_set_proxies (m_set url p (hs_mHostProxyTbl s)) s)
                       end in
      let '(s, out') := hs_online urls s in (s, out ++ out')
  end.

Definition hp_update (url : string) (f : CInterHostProxy -> CInterHostProxy) s : CHostServer :=
  match m_find url (hs_mHostProxyTbl s) with Some p => hs_set_proxies (m_set url (f p) (hs_mHostProxyTbl s)) s | None => s end.

Definition proxy_onOnline (url : string) s : CHostServer * list HsOut :=
  (hp_update url (fun p => mkHostProxy true MODE_IDLE (hp_mDomainName p) (hp_mSvcAddrTbl p)) s,
   [HsSubscribeHeartBeat url; HsRegisterDomain url (mkDomainRegisterReq he_name EmptyString 0)]).

Definition proxy_onOffline (url : string) s : CHostServer * list HsOut :=
  let s := hp_update url (fun p => mkHostProxy false MODE_RECONNECT_TO_SERVER (hp_mDomainName p) (hp_mSvcAddrTbl p)) s in
  match m_find url (hs_mHostProxyTbl s) with Some p => updateUpstreamSvcTable url p svc_empty s | None => (s, []) end.

(** The answer to [REQ_REGISTER_EXTERNAL_DOMAIN]. *)
Definition proxy_onReply (url : string) (ack : option FdbMsgHostRegisterAck) s : CHostServer * list HsOut :=
  match ack with
  | None => (s, [])
  | Some ack =>
      let s := hp_update url (fun p => mkHostProxy (hp_connected p) (hp_mConnectTimer p) (hk_mDomainName ack) (hp_mSvcAddrTbl p)) s in
      (s, (if FdbMsgHostRegisterAck_has_token_list ack then [HsImportTokens (tk_mTokens (hk_mTokenList ack))] else [])
          ++ [HsDomainReady url (mkDomainAddress he_name (buildAddrTblForUpstreamHost s) (mkTokens []) 0); HsSubscribeExternal url])
  end.

(** [session] is the address of the peer. *)
Definition proxy_onBroadcast (url : string) (session : option string) (t : option FdbMsgExportableSvcAddress) s : CHostServer * list HsOut :=
  match t, m_find url (hs_mHostProxyTbl s) with
  | Some t, Some p => updateUpstreamSvcTable url p (validateUrl_tbl t session) s
  | _, _ => (s, [])
  end.

Definition proxy_onHeartbeat (url : string) s : CHostServer * list HsOut :=
  (hp_update url (fun p => mkHostProxy (hp_connected p) MODE_HEARTBEAT (hp_mDomainName p) (hp_mSvcAddrTbl p)) s, [HsHeartBeatOk url]).

(** [onConnectTimer]: [isolate] does nothing for these proxies. *)
Definition proxy_onTimer (url : string) s : CHostServer * list HsOut :=
  match m_find url (hs_mHostProxyTbl s) with
  | None => (s, [])
  | Some p => match hp_mConnectTimer p with
              | MODE_RECONNECT_TO_SERVER => hs_connectToHostServer url p s
              | MODE_HEARTBEAT => (s, [HsDisconnect url])
              | MODE_IDLE => (s, [])
              end
  end.
End server.

(** ** What is announced where *)

Section tables.
Context {I : Indet} {E : HsEnv}.

(** The three tables of the server. *)
Definition local_services s : list CFdbSvcAddress := hs_mLocalHostTbl s ≫= fun e => if lh_mReady e.2 then lh_mSvcAddrTbl e.2 else [].
Definition upstream_services s : list CFdbSvcAddress := hs_mHostProxyTbl s ≫= fun e => hp_mSvcAddrTbl e.2.
Definition downstream_services s : list CFdbSvcAddress := hs_mExternalDomainTbl s ≫= fun e => if ed_mReady e.2 then ed_mSvcAddrTbl e.2 else [].

(** The reference: a service is announced with those of its addresses that satisfy [ok], if any. *)
Definition announced (ok : Z -> bool) (e : CFdbSvcAddress) : option FdbMsgAddressList :=
  match List.filter (fun a => ok (inf_mExportableLevel a)) (sv_mAddrTbl e) with
  | [] => None
  | addrs => Some (al_set_addresses (utils_setServiceInfo e FdbMsgAddressList_new) (map (fun a => setAddressItem a FdbMsgAddressItem_new) addrs))
  end.

(** The addresses [populateFromHostInfo] lets through at a level; none at level 0. *)
Definition level_ok (level : Z) : Z -> bool :=
  match getExportable level with Some (l, at_least) => fun x => utils_checkExportable x l at_least | None => fun _ => false end.

Lemma populate_announced level tbl t :
  ex_mSvcAddrList (populateFromHostInfo_tbl tbl t level) = ex_mSvcAddrList t ++ omap (announced (level_ok level)) tbl.
Proof.
  revert t. induction tbl as [|e tbl IH]; intros t; cbn [populateFromHostInfo_tbl]; [by rewrite app_nil_r|].
  cbn [omap list_omap]. unfold announced at 1, level_ok at 1. destruct (getExportable level) as [[l al]|] eqn:Eg.
  - unfold exportable_items. destruct (List.filter _ (sv_mAddrTbl e)) as [|a addrs]; cbn [map]; rewrite IH; cbn; [done|]. by rewrite <- app_assoc.
  - assert (forall l : list CFdbSocketAddrInfo, List.filter (fun _ => false) l = []) as Hf by (by induction l). rewrite Hf.
    rewrite <- (app_nil_r (ex_mSvcAddrList t)) at 1. f_equal. clear IH. induction tbl as [|x tbl IH]; [done|]. cbn [omap list_omap]. unfold announced at 1, level_ok at 1. rewrite Eg, Hf. exact IH.
Qed.

Lemma populate_all_announced level tbls t :
  ex_mSvcAddrList (populate_all tbls t level) = ex_mSvcAddrList t ++ (tbls ≫= omap (announced (level_ok level))).
Proof.
  unfold populate_all. revert t. induction tbls as [|tbl tbls IH]; intros t; cbn [foldl]; [by rewrite app_nil_r|].
  rewrite IH, populate_announced. cbn [mbind list_bind]. by rewrite <- app_assoc.
Qed.

Lemma omap_bind {A B C} (f : B -> option C) (g : A -> list B) (l : list A) : omap f (l ≫= g) = l ≫= (fun x => omap f (g x)).
Proof. induction l as [|x l IH]; [done|]. cbn [mbind list_bind]. by rewrite omap_app, IH. Qed.

Lemma bind_map {A B C} (f : A -> B) (g : B -> list C) (l : list A) : map f l ≫= g = l ≫= (fun x => g (f x)).
Proof. induction l as [|x l IH]; [done|]. cbn. by rewrite <- IH. Qed.

Lemma bind_filter {A B} (p : A -> bool) (g : A -> list B) (l : list A) : List.filter p l ≫= g = l ≫= (fun x => if p x then g x else []).
Proof. induction l as [|x l IH]; [done|]. cbn. destruct (p x); cbn; by rewrite IH. Qed.

Lemma if_omap {A B} (b : bool) (f : A -> option B) (l : list A) : omap f (if b then l else []) = if b then omap f l else [].
Proof. by destruct b. Qed.

Lemma populateLocalHost_services t level s :
  ex_mSvcAddrList (populateLocalHost t level s) = ex_mSvcAddrList t ++ omap (announced (level_ok level)) (local_services s).
Proof.
  unfold populateLocalHost, local_services. rewrite populate_all_announced, bind_map, bind_filter, omap_bind. f_equal. apply list_bind_ext; [|done]. intros e. by rewrite if_omap.
Qed.
Lemma populateUpstreamHost_services t level s :
  ex_mSvcAddrList (populateUpstreamHost t level s) = ex_mSvcAddrList t ++ omap (announced (level_ok level)) (upstream_services s).
Proof. unfold populateUpstreamHost, upstream_services. by rewrite populate_all_announced, bind_map, omap_bind. Qed.
Lemma populateDownstreamHost_services t level s :
  ex_mSvcAddrList (populateDownstreamHost t level s) = ex_mSvcAddrList t ++ omap (announced (level_ok level)) (downstream_services s).
Proof.
  unfold populateDownstreamHost, downstream_services. rewrite populate_all_announced, bind_map, bind_filter, omap_bind. f_equal. apply list_bind_ext; [|done]. intros e. by rewrite if_omap.
Qed.

Lemma ex_ext (t u : FdbMsgExportableSvcAddress) : ex_mSvcAddrList t = ex_mSvcAddrList u -> t = u.
Proof. destruct t, u. cbn. by intros ->. Qed.

Definition max_ok s (x : Z) : bool := x <=? hs_mMaxDomainExportableLevel s.
Definition min_ok s (x : Z) : bool := hs_mMinUpstreamExportableLevel s <=? x.

Lemma announced_ext f g e : (forall x, f x = g x) -> announced f e = announced g e.
Proof. intros H. unfold announced. by rewrite (List.filter_ext _ (fun a => g (inf_mExportableLevel a))). Qed.

Lemma omap_announced_ext f g (l : list CFdbSvcAddress) : (forall x, f x = g x) -> omap (announced f) l = omap (announced g) l.
Proof. intros H. induction l as [|e l IH]; [done|]. cbn. by rewrite (announced_ext f g), IH. Qed.

Lemma level_ok_max s : 0 < hs_mMaxDomainExportableLevel s -> forall x, level_ok (hs_mMaxDomainExportableLevel s) x = max_ok s x.
Proof.
  intros Hm x. unfold level_ok, getExportable, max_ok, utils_checkExportable. destruct (Z.ltb_spec (hs_mMaxDomainExportableLevel s) 0); [lia|].
  destruct (Z.eqb_spec (hs_mMaxDomainExportableLevel s) 0); [lia|]. rewrite Z.gtb_ltb, <- Z.leb_antisym. done.
Qed.
Lemma level_ok_min s : 0 < hs_mMinUpstreamExportableLevel s -> forall x, level_ok (- hs_mMinUpstreamExportableLevel s) x = min_ok s x.
Proof.
  intros Hm x. unfold level_ok, getExportable, min_ok, utils_checkExportable. destruct (Z.ltb_spec (- hs_mMinUpstreamExportableLevel s) 0); [|lia].
  rewrite Z.opp_involutive. by rewrite Z.leb_antisym.
Qed.

End tables.

(** C22: The table the name servers of the domain get lists exactly the services of the
    domains above and below with their addresses up to the level of the domain; the one posted to
    the host servers above lists exactly those of the domain itself and of the domains below
    with their addresses from the upstream level on, so that nothing learned from above goes back
    up; and the one for the host servers below lists all three. *)
Theorem host_boundary {I : Indet} {E : HsEnv} (s : CHostServer) :
  0 < hs_mMaxDomainExportableLevel s -> 0 < hs_mMinUpstreamExportableLevel s ->
  ex_mSvcAddrList (buildAddrTblForLocalHost s) = omap (announced (max_ok s)) (upstream_services s ++ downstream_services s) /\
  ex_mSvcAddrList (buildAddrTblForUpstreamHost s) = omap (announced (min_ok s)) (downstream_services s ++ local_services s) /\
  ex_mSvcAddrList (buildAddrTblForDownstreamHost s) = omap (announced (max_ok s)) (upstream_services s ++ downstream_services s ++ local_services s).
Proof.
  intros H1 H2. unfold buildAddrTblForLocalHost, buildAddrTblForUpstreamHost, buildAddrTblForDownstreamHost.
  rewrite !populateLocalHost_services, !populateDownstreamHost_services, !populateUpstreamHost_services. cbn [svc_empty ex_mSvcAddrList app].
  rewrite !omap_app, !(omap_announced_ext _ _ _ (level_ok_max s H1)), !(omap_announced_ext _ _ _ (level_ok_min s H2)), ?app_assoc. done.
Qed.

(** ** What the others know *)

Inductive HsOp :=
  | OpRegisterLocal (sid : Z) (req : option FdbMsgHostRegisterReq) (tokens : list string)
  | OpRegisterDomain (sid : Z) (req : option FdbMsgDomainRegisterReq) (tokens : list string)
  | OpLocalReady (sid : Z) (req : option FdbMsgHostAddress)
  | OpDomainReady (sid : Z) (req : option FdbMsgDomainAddress)
  | OpPostLocal (sid : Z) (req : option FdbMsgExportableSvcAddress)
  | OpPostDomain (sid : Z) (req : option FdbMsgExportableSvcAddress)
  | OpUnregister (req : option FdbMsgHostAddress)
  | OpQueryServices | OpQueryHost
  | OpHeartbeatOk (sid : Z) | OpHeartBeat
  | OpHsOffline (sid : Z)
  | OpHostOnlineReg (sid : Z) | OpLocalSvcReg (sid : Z) | OpExternalSvcReg (sid : Z)
  | OpUpstream (urls : list string)
  | OpProxyOnline (url : string) | OpProxyOffline (url : string)
  | OpProxyReply (url : string) (ack : option FdbMsgHostRegisterAck)
  | OpProxyTable (url : string) (session : option string) (t : option FdbMsgExportableSvcAddress)
  | OpProxyHeartbeat (url : string) | OpProxyTimer (url : string).

Definition hs_step {I : Indet} {E : HsEnv} (op : HsOp) s : CHostServer * list HsOut :=
  match op with
  | OpRegisterLocal sid req tokens => onRegisterLocalHostReq sid req tokens s
  | OpRegisterDomain sid req tokens => onRegisterExternalDomainReq sid req tokens s
  | OpLocalReady sid req => onLocalHostReady sid req s
  | OpDomainReady sid req => onExternalHostReady sid req s
  | OpPostLocal sid req => onPostLocalSvcAddress sid req s
  | OpPostDomain sid req => onPostDomainSvcAddress sid req s
  | OpUnregister req => onUnregisterLocalHostReq req s
  | OpQueryServices => onQueryExportableService s
  | OpQueryHost => hs_onQueryHostReq s
  | OpHeartbeatOk sid => onHeartbeatOk sid s
  | OpHeartBeat => broadcastHeartBeat s
  | OpHsOffline sid => hs_onOffline sid s
  | OpHostOnlineReg sid => onHostOnlineReg sid s
  | OpLocalSvcReg sid => onLocalSvcOnlineReg sid s
  | OpExternalSvcReg sid => onExternalSvcOnlineReg sid s
  | OpUpstream urls => hs_online urls s
  | OpProxyOnline url => proxy_onOnline url s
  | OpProxyOffline url => proxy_onOffline url s
  | OpProxyReply url ack => proxy_onReply url ack s
  | OpProxyTable url session t => proxy_onBroadcast url session t s
  | OpProxyHeartbeat url => proxy_onHeartbeat url s
  | OpProxyTimer url => proxy_onTimer url s
  end.

(** A table the others have, and whether it tells them all: no services have been taken out in
    silence since it was sent. *)
Record Sent := mkSent { st_table : FdbMsgExportableSvcAddress; st_told : bool }.

(** The tables of the name servers of the domain and of the host servers below, who
    get what is broadcast to all, and of the host servers above that have been told one since they
    were connected. *)
Record Views := mkViews { v_local : Sent; v_down : Sent; v_up : smap string Sent }.
Definition no_views : Views := mkViews (mkSent svc_empty true) (mkSent svc_empty true) [].

Definition see (v : Views) (out : HsOut) : Views :=
  match out with
  | HsInternal None t => mkViews (mkSent t true) (v_down v) (v_up v)
  | HsExternal None t => mkViews (v_local v) (mkSent t true) (v_up v)
  | HsPost url t => mkViews (v_local v) (v_down v) (m_set url (mkSent t true) (v_up v))
  | HsDomainReady url m => mkViews (v_local v) (v_down v) (m_set url (mkSent (da_mSvcAddrList m) true) (v_up v))
  | _ => v
  end.

(** The services a request takes out without a word: those of a host that registers again or
    unregisters, those of a domain that registers again, those of a domain that is lost, which are
    announced as gone to the host servers below only. *)
Definition any {A} (l : list A) : bool := match l with [] => false | _ :: _ => true end.
Definition host_offers (h : option CLocalHostInfo) : bool :=
  match h with Some h => lh_mReady h && any (lh_mSvcAddrTbl h) | None => false end.
Definition domain_offers (d : option CExternalDomainInfo) : bool :=
  match d with Some d => ed_mReady d && any (ed_mSvcAddrTbl d) | None => false end.

Definition host_taken s (op : HsOp) : bool :=
  match op with
  | OpRegisterLocal sid (Some _) _ => host_offers (m_find sid (hs_mLocalHostTbl s))
  | OpUnregister (Some a) => host_offers (find (fun e => String.eqb (lh_mIpAddress e.2) (c_str (ha_mIpAddress a))) (hs_mLocalHostTbl s) ≫= fun e => m_find e.1 (hs_mLocalHostTbl s))
  | _ => false
  end.
Definition domain_taken s (op : HsOp) : bool :=
  match op with OpRegisterDomain sid (Some _) _ => domain_offers (m_find sid (hs_mExternalDomainTbl s)) | _ => false end.
Definition domain_lost s (op : HsOp) : bool :=
  match op with
  | OpHsOffline sid => match m_find sid (hs_mLocalHostTbl s) with Some _ => false | None => domain_offers (m_find sid (hs_mExternalDomainTbl s)) end
  | _ => false
  end.

Definition unless (b : bool) (t : Sent) : Sent := mkSent (st_table t) (st_told t && negb b).
Definition not_told s (op : HsOp) (v : Views) : Views :=
  let h := host_taken s op in let d := domain_taken s op in let l := domain_lost s op in
  mkViews (unless d (v_local v)) (unless (h || d) (v_down v)) (map (fun e => (e.1, unless (h || d || l) e.2)) (v_up v)).

Definition see_op (op : HsOp) (out : list HsOut) s (v : Views) : Views :=
  let v := foldl see (not_told s op v) out in
  match op with OpProxyOffline url => mkViews (v_local v) (v_down v) (m_erase url (v_up v)) | _ => v end.

(** A proxy is answered while it is connected. *)
Definition op_fits s (op : HsOp) : bool :=
  match op with
  | OpProxyReply url _ => match m_find url (hs_mHostProxyTbl s) with Some p => hp_connected p | None => false end
  | _ => true
  end.

Inductive hs_reach {I : Indet} {E : HsEnv} : CHostServer -> Views -> Prop :=
  | hs_start max min : hs_reach (CHostServer_new max min) no_views
  | hs_next s v op : hs_reach s v -> op_fits s op = true ->
      hs_reach (hs_step op s).1 (see_op op (hs_step op s).2 s v).

Section views.
Context {I : Indet} {E : HsEnv}.

Record same_tables s s' : Prop := {
  sm_up : upstream_services s' = upstream_services s; sm_down : downstream_services s' = downstream_services s; sm_local : local_services s' = local_services s;
  sm_max : hs_mMaxDomainExportableLevel s' = hs_mMaxDomainExportableLevel s; sm_min : hs_mMinUpstreamExportableLevel s' = hs_mMinUpstreamExportableLevel s }.

#[export] Instance same_tables_refl : Reflexive same_tables.
Proof. by split. Qed.
#[export] Instance same_tables_trans : Transitive same_tables.
Proof. intros x y z [] []. split; congruence. Qed.

Lemma local_ext s s' : upstream_services s' = upstream_services s -> downstream_services s' = downstream_services s ->
  hs_mMaxDomainExportableLevel s' = hs_mMaxDomainExportableLevel s -> buildAddrTblForLocalHost s' = buildAddrTblForLocalHost s.
Proof.
  intros H1 H2 H3. apply ex_ext. unfold buildAddrTblForLocalHost. by rewrite !populateDownstreamHost_services, !populateUpstreamHost_services, H1, H2, H3.
Qed.
Lemma up_ext s s' : local_services s' = local_services s -> downstream_services s' = downstream_services s ->
  hs_mMinUpstreamExportableLevel s' = hs_mMinUpstreamExportableLevel s -> buildAddrTblForUpstreamHost s' = buildAddrTblForUpstreamHost s.
Proof.
  intros H1 H2 H3. apply ex_ext. unfold buildAddrTblForUpstreamHost. by rewrite !populateLocalHost_services, !populateDownstreamHost_services, H1, H2, H3.
Qed.
Lemma down_ext s s' : same_tables s s' -> buildAddrTblForDownstreamHost s' = buildAddrTblForDownstreamHost s.
Proof.
  intros [H1 H2 H3 H4 _]. apply ex_ext. unfold buildAddrTblForDownstreamHost.
  by rewrite !populateLocalHost_services, !populateDownstreamHost_services, !populateUpstreamHost_services, H1, H2, H3, H4.
Qed.

(** A change of an entry that keeps what it contributes. *)
Lemma bind_set {K V B} `{KeyOrd K} (f : K * V -> list B) k v (m : smap K V) :
  f (k, v) = match m_find k m with Some v0 => f (k, v0) | None => [] end -> m_set k v m ≫= f = m ≫= f.
Proof.
  induction m as [|[j u] m IH]; cbn [m_set m_find]; intros Hf.
  - cbn. rewrite Hf. done.
  - destruct (klt k j) eqn:E1; [cbn; by rewrite Hf|]. destruct (klt j k) eqn:E2.
    + cbn. by rewrite <- (IH Hf).
    + assert (k = j) as <- by by apply klt_total. cbn. by rewrite Hf.
Qed.

Lemma same_set_local sid h s : (if lh_mReady h then lh_mSvcAddrTbl h else []) =
    match m_find sid (hs_mLocalHostTbl s) with Some h0 => if lh_mReady h0 then lh_mSvcAddrTbl h0 else [] | None => [] end ->
  same_tables s (hs_set_local (m_set sid h (hs_mLocalHostTbl s)) s).
Proof. intros Hh. split; try done. unfold local_services. cbn. by apply (bind_set (fun e => if lh_mReady e.2 then lh_mSvcAddrTbl e.2 else [])). Qed.
Lemma same_set_domains sid d s : (if ed_mReady d then ed_mSvcAddrTbl d else []) =
    match m_find sid (hs_mExternalDomainTbl s) with Some d0 => if ed_mReady d0 then ed_mSvcAddrTbl d0 else [] | None => [] end ->
  same_tables s (hs_set_domains (m_set sid d (hs_mExternalDomainTbl s)) s).
Proof. intros Hd. split; try done. unfold downstream_services. cbn. by apply (bind_set (fun e => if ed_mReady e.2 then ed_mSvcAddrTbl e.2 else [])). Qed.
Lemma same_set_proxy url p s : hp_mSvcAddrTbl p = match m_find url (hs_mHostProxyTbl s) with Some p0 => hp_mSvcAddrTbl p0 | None => [] end ->
  same_tables s (hs_set_proxies (m_set url p (hs_mHostProxyTbl s)) s).
Proof. intros Hp. split; try done. unfold upstream_services. cbn. by apply (bind_set (fun e => hp_mSvcAddrTbl e.2)). Qed.
Lemma same_timer b s : same_tables s (hs_set_timer b s).
Proof. by split. Qed.

Lemma same_update url f s : (forall p, hp_mSvcAddrTbl (f p) = hp_mSvcAddrTbl p) -> same_tables s (hp_update url f s).
Proof.
  intros Hf. unfold hp_update. destruct (m_find url (hs_mHostProxyTbl s)) as [p|] eqn:Ep; [|done]. apply same_set_proxy. by rewrite Ep.
Qed.
Record views_ok s (v : Views) : Prop := {
  vo_local : st_told (v_local v) = true -> st_table (v_local v) = buildAddrTblForLocalHost s;
  vo_down : st_told (v_down v) = true -> st_table (v_down v) = buildAddrTblForDownstreamHost s;
  vo_proxies : m_sorted (hs_mHostProxyTbl s);
  vo_sorted : m_sorted (v_up v);
  vo_conn : forall url t, m_find url (v_up v) = Some t -> exists p, m_find url (hs_mHostProxyTbl s) = Some p /\ hp_connected p = true;
  vo_up : forall url t, m_find url (v_up v) = Some t -> st_told t = true -> st_table t = buildAddrTblForUpstreamHost s }.

(** Proxies stay connected. *)
Definition keeps_proxies s s' : Prop :=
  m_sorted (hs_mHostProxyTbl s') /\
  forall url p, m_find url (hs_mHostProxyTbl s) = Some p -> hp_connected p = true -> exists p', m_find url (hs_mHostProxyTbl s') = Some p' /\ hp_connected p' = true.

Lemma views_same s s' v : same_tables s s' -> keeps_proxies s s' -> views_ok s v -> views_ok s' v.
Proof.
  intros Hs [Hk1 Hk2] []. split; try done.
  - by rewrite (local_ext s s' (sm_up _ _ Hs) (sm_down _ _ Hs) (sm_max _ _ Hs)).
  - by rewrite (down_ext s s' Hs).
  - intros url t Hu. destruct (vo_conn0 url t Hu) as (p & Hp & Hc). by apply (Hk2 url p).
  - intros url t Hu. rewrite (up_ext s s' (sm_local _ _ Hs) (sm_down _ _ Hs) (sm_min _ _ Hs)). by apply (vo_up0 url).
Qed.

Definition quiet_out (o : HsOut) : bool := match o with HsInternal None _ | HsExternal None _ | HsPost _ _ | HsDomainReady _ _ => false | _ => true end.

Lemma see_quiet outs v : forallb quiet_out outs = true -> foldl see v outs = v.
Proof.
  revert v. induction outs as [|o outs IH]; intros v; cbn; [done|]. intros [Hq Ho]%andb_prop. rewrite <- (IH v Ho) at 2. f_equal. by destruct o as [| | |[]|[]| | | | | | | | | | | |].
Qed.

(** After a post to all proxies every one that has a table has the current one. *)
Lemma see_posts s v : m_sorted (v_up v) -> let v' := foldl see v (postToUpstreamHost s) in
  v_local v' = v_local v /\ v_down v' = v_down v /\ m_sorted (v_up v') /\
  forall url t, m_find url (v_up v') = Some t ->
    (exists p, (url, p) ∈ hs_mHostProxyTbl s /\ hp_connected p = true /\ t = mkSent (buildAddrTblForUpstreamHost s) true) \/
    (m_find url (v_up v) = Some t /\ forall p, (url, p) ∈ hs_mHostProxyTbl s -> hp_connected p = false).
Proof.
  unfold postToUpstreamHost. set (t0 := buildAddrTblForUpstreamHost s). revert v. induction (hs_mHostProxyTbl s) as [|[u p] l IH]; intros v Hs; cbn [List.filter map foldl].
  - split_and!; try done. intros url t Hf. right. split; [done|]. intros q Hq. by apply not_elem_of_nil in Hq.
  - cbn [snd]. destruct (hp_connected p) eqn:Ec; cbn [map foldl see fst].
    + destruct (IH (mkViews (v_local v) (v_down v) (m_set u (mkSent t0 true) (v_up v))) (m_sorted_set _ _ _ Hs)) as (H1 & H2 & H3 & H4). split_and!; try done.
      intros url t Hf. destruct (H4 url t Hf) as [(q & Hq & Hc & Et)|[Hq Hn]]; [left; exists q; split_and!; try done; by right|]. cbn in Hq.
      rewrite m_find_set_dec in Hq by done. case_decide; [simplify_eq; left; exists p; split_and!; try done; by left|].
      right. split; [done|]. intros q [[= -> ->]|Hq']%elem_of_cons; [done|by apply Hn].
    + destruct (IH v Hs) as (H1 & H2 & H3 & H4). split_and!; try done. intros url t Hf. destruct (H4 url t Hf) as [(q & Hq & Hc & Et)|[Hq Hn]]; [left; exists q; split_and!; try done; by right|].
      right. split; [done|]. intros q [[= -> ->]|Hq']%elem_of_cons; [done|by apply Hn].
Qed.

(** The server announces a change of its own or of lower tables to those above. *)
Lemma views_posted s v : m_sorted (hs_mHostProxyTbl s) -> m_sorted (v_up v) ->
  (forall url t, m_find url (v_up v) = Some t -> exists p, m_find url (hs_mHostProxyTbl s) = Some p /\ hp_connected p = true) ->
  (st_told (v_local v) = true -> st_table (v_local v) = buildAddrTblForLocalHost s) ->
  (st_told (v_down v) = true -> st_table (v_down v) = buildAddrTblForDownstreamHost s) -> views_ok s (foldl see v (postToUpstreamHost s)).
Proof.
  intros Hp Hv Hc Hl Hd. destruct (see_posts s v Hv) as (H1 & H2 & H3 & H4). split; try done; [by rewrite H1|by rewrite H2| |].
  - intros url t Hf. destruct (H4 url t Hf) as [(p & Hin & Hcp & _)|[Hin _]]; [|by apply (Hc url t)]. exists p. split; [by apply m_find_In|done].
  - intros url t Hf _. destruct (H4 url t Hf) as [(p & Hin & Hcp & ->)|[Hin Hn]]; [done|]. destruct (Hc url t Hin) as (p & Hfp & Hcp).
    apply m_find_In in Hfp; [|done]. by rewrite (Hn p Hfp) in Hcp.
Qed.

Lemma foldl_see_app v a b : foldl see v (a ++ b) = foldl see (foldl see v a) b.
Proof. apply foldl_app. Qed.

Lemma views_local_changed s l v : views_ok s v ->
  let s' := hs_set_local l s in views_ok s' (foldl see v (broadcastOnLocalSvcTableChanged s')).
Proof.
  intros [] s'. unfold broadcastOnLocalSvcTableChanged. rewrite foldl_see_app. cbn [broadcastToDownstreamHost foldl see].
  by apply views_posted.
Qed.

Lemma views_domain_changed s d v : views_ok s v ->
  let s' := hs_set_domains d s in views_ok s' (foldl see v (broadcastOnDomainSvcTableChanged s')).
Proof. intros [] s'. unfold broadcastOnDomainSvcTableChanged. rewrite !foldl_see_app. cbn [broadcastToLocalHost broadcastToDownstreamHost foldl see]. by apply views_posted. Qed.

(** A change of the tables from above, or the loss of a domain. *)
Lemma views_upstream_changed s s' v : views_ok s v -> keeps_proxies s s' ->
  (forall url t, m_find url (v_up v) = Some t -> st_told t = true -> buildAddrTblForUpstreamHost s' = buildAddrTblForUpstreamHost s) ->
  views_ok s' (foldl see v (broadcastOnUpstreamSvcTableChanged s')).
Proof.
  intros [] [Hk1 Hk2] Hu. cbn [broadcastOnUpstreamSvcTableChanged broadcastToLocalHost broadcastToDownstreamHost app foldl see]. split; try done; cbn.
  - intros url t Hf. destruct (vo_conn0 url t Hf) as (p & Hp & Hc). by apply (Hk2 url p).
  - intros url t Hf Ht. rewrite (Hu url t Hf Ht). by apply (vo_up0 url).
Qed.

Lemma keeps_refl s s' : m_sorted (hs_mHostProxyTbl s) -> hs_mHostProxyTbl s' = hs_mHostProxyTbl s -> keeps_proxies s s'.
Proof. intros Hs Heq. split; [by rewrite Heq|]. intros url p Hf Hc. rewrite Heq. eauto. Qed.

Lemma keeps_set url p s : m_sorted (hs_mHostProxyTbl s) ->
  (forall p0, m_find url (hs_mHostProxyTbl s) = Some p0 -> hp_connected p0 = true -> hp_connected p = true) ->
  keeps_proxies s (hs_set_proxies (m_set url p (hs_mHostProxyTbl s)) s).
Proof.
  intros Hs Hp. split; [by apply m_sorted_set|]. intros u q Hf Hc. cbn. rewrite m_find_set_dec by done. case_decide; [subst|eauto]. exists p. split; [done|by apply (Hp q)].
Qed.

Lemma keeps_update url f s : m_sorted (hs_mHostProxyTbl s) -> (forall p, hp_connected p = true -> hp_connected (f p) = true) -> keeps_proxies s (hp_update url f s).
Proof.
  intros Hs Hf. unfold hp_update. destruct (m_find url (hs_mHostProxyTbl s)) as [p|] eqn:Ep; [|by apply keeps_refl].
  apply keeps_set; [done|]. intros p0 Hp0. rewrite Ep in Hp0. simplify_eq. apply Hf.
Qed.

Lemma keeps_trans s1 s2 s3 : keeps_proxies s1 s2 -> keeps_proxies s2 s3 -> keeps_proxies s1 s3.
Proof. intros [H1 H2] [H3 H4]. split; [done|]. intros url p Hf Hc. destruct (H2 url p Hf Hc) as (p' & Hf' & Hc'). by apply (H4 url p'). Qed.

Lemma bind_quiet {A} (f : A -> list HsOut) l : (forall x, forallb quiet_out (f x) = true) -> forallb quiet_out (l ≫= f) = true.
Proof. intros Hf. induction l as [|x l IH]; [done|]. cbn [mbind list_bind]. by rewrite forallb_app, Hf, IH. Qed.

Lemma single_host_quiet b sid h s : forallb quiet_out (broadcastSingleHost b sid h s) = true.
Proof. destruct b; [|done]. apply bind_quiet. intros x. unfold notifyHost. repeat case_match; done. Qed.

Lemma map_quiet {A} (f : A -> HsOut) l : (forall x, quiet_out (f x) = true) -> forallb quiet_out (map f l) = true.
Proof. intros Hf. induction l as [|x l IH]; [done|]. cbn. by rewrite Hf, IH. Qed.

Lemma online_same urls s : m_sorted (hs_mHostProxyTbl s) ->
  same_tables s (hs_online urls s).1 /\ keeps_proxies s (hs_online urls s).1 /\ forallb quiet_out (hs_online urls s).2 = true.
Proof.
  revert s. induction urls as [|u urls IH]; intros s Hs; cbn [hs_online]; [split_and!; try done; by apply keeps_refl|].
  set (r := if is_empty_str (c_str u) then (s, []) else _).
  assert (same_tables s r.1 /\ keeps_proxies s r.1 /\ forallb quiet_out r.2 = true) as (R1 & R2 & R3).
  { subst r. destruct (is_empty_str (c_str u)); [split_and!; try done; by apply keeps_refl|].
    destruct (m_find (c_str u) (hs_mHostProxyTbl s)) as [p|] eqn:Ep; [split_and!; try done; by apply keeps_refl|]. cbn [hs_connectToHostServer hp_connected fst snd hp_mDomainName hp_mSvcAddrTbl].
    split_and!; [| |done].
    - etransitivity; [apply (same_set_proxy (c_str u) (mkHostProxy false MODE_IDLE EmptyString [])); by rewrite Ep|].
      apply (same_set_proxy (c_str u)). cbn. by rewrite m_find_set.
    - eapply keeps_trans; [apply (keeps_set (c_str u) (mkHostProxy false MODE_IDLE EmptyString [])); [done|]; intros p0 Hp0; congruence|].
      apply (keeps_set (c_str u)); cbn; [by apply m_sorted_set|]. intros p0 Hp0. rewrite m_find_set in Hp0. by simplify_eq/=. }
  destruct r as [s1 o1]. cbn [fst snd] in *. destruct (IH s1 (proj1 R2)) as (S1 & S2 & S3). destruct (hs_online urls s1) as [s2 o2]. cbn [fst snd] in *.
  split_and!; [by etransitivity|by eapply keeps_trans|by rewrite forallb_app, R3, S3].
Qed.

Lemma views_quiet s s' outs v : same_tables s s' -> keeps_proxies s s' -> forallb quiet_out outs = true -> views_ok s v -> views_ok s' (foldl see v outs).
Proof. intros H1 H2 H3 Hv. rewrite see_quiet by done. by apply (views_same s). Qed.

Lemma views_here s outs v : forallb quiet_out outs = true -> views_ok s v -> views_ok s (foldl see v outs).
Proof. intros H3 Hv. by rewrite see_quiet. Qed.

Lemma views_timer s v b : views_ok s v -> views_ok (hs_set_timer b s) v.
Proof. intros Hv. apply (views_same s); [by split|by apply keeps_refl; [apply Hv|]|done]. Qed.

(** Losing the connection to a host server above. *)
Lemma views_proxy_lost url s v : views_ok s v ->
  let r := proxy_onOffline url s in
  views_ok r.1 (mkViews (v_local (foldl see v r.2)) (v_down (foldl see v r.2)) (m_erase url (v_up (foldl see v r.2)))).
Proof.
  intros Hv. unfold proxy_onOffline. set (s1 := hp_update url _ s). pose proof (vo_proxies _ _ Hv) as Hps.
  assert (m_sorted (hs_mHostProxyTbl s1)) as Hp1 by (subst s1; unfold hp_update; destruct (m_find url (hs_mHostProxyTbl s)); [by apply m_sorted_set|done]).
  assert (same_tables s s1) as Hs1 by by apply same_update.
  assert (forall u p, u <> url -> m_find u (hs_mHostProxyTbl s) = Some p -> m_find u (hs_mHostProxyTbl s1) = Some p) as Hk1.
  { intros u p Hne Hf. subst s1. unfold hp_update. destruct (m_find url (hs_mHostProxyTbl s)); [|done]. cbn. by rewrite m_find_set_dec, decide_False. }
  destruct (m_find url (hs_mHostProxyTbl s1)) as [p|] eqn:Ep; cbn [fst snd foldl].
  - unfold updateUpstreamSvcTable. cbn [fst snd]. set (tbl := foldl _ _ _). set (s2 := hs_set_proxies _ s1).
    cbn [broadcastOnUpstreamSvcTableChanged broadcastToLocalHost broadcastToDownstreamHost app foldl see v_local v_down v_up].
    destruct Hv. split; try done; cbn [v_local v_down v_up].
    + by apply m_sorted_set.
    + by apply m_sorted_erase.
    + intros u t. rewrite m_find_erase_dec by done. case_decide; [done|]. intros Hf. destruct (vo_conn0 u t Hf) as (q & Hq & Hc).
      exists q. split; [|done]. cbn. rewrite m_find_set_dec, decide_False by done. by apply Hk1.
    + intros u t. rewrite m_find_erase_dec by done. case_decide; [done|]. intros Hf Ht. rewrite (vo_up0 u t Hf Ht). symmetry.
      apply up_ext; [apply Hs1|apply Hs1|apply Hs1].
  - assert (m_find url (hs_mHostProxyTbl s) = None) as En.
    { subst s1. unfold hp_update in Ep. destruct (m_find url (hs_mHostProxyTbl s)) eqn:E1; [|done]. cbn in Ep. by rewrite m_find_set in Ep. }
    assert (s1 = s) as -> by (subst s1; unfold hp_update; by rewrite En). destruct Hv. split; try done; cbn [v_local v_down v_up].
    + by apply m_sorted_erase.
    + intros u t. rewrite m_find_erase_dec by done. case_decide; [done|]. apply vo_conn0.
    + intros u t. rewrite m_find_erase_dec by done. case_decide; [done|]. by apply vo_up0.
Qed.

Lemma views_update_local sid h t s v : views_ok s v -> views_ok (updateLocalSvcTable sid h t s).1 (foldl see v (updateLocalSvcTable sid h t s).2).
Proof. intros Hv. unfold updateLocalSvcTable. cbn [fst snd]. by apply views_local_changed. Qed.

Lemma views_update_domain sid d t s v : views_ok s v -> views_ok (updateDomainSvcTable sid d t s).1 (foldl see v (updateDomainSvcTable sid d t s).2).
Proof. intros Hv. unfold updateDomainSvcTable. cbn [fst snd]. by apply views_domain_changed. Qed.

(** Marking tables as old. *)
Lemma find_unless (b : bool) url (m : smap string Sent) : m_find url (map (fun e => (e.1, unless b e.2)) m) = unless b <$> m_find url m.
Proof. induction m as [|[u t] m IH]; [done|]. cbn. by repeat case_match. Qed.

Lemma sorted_unless (b : bool) (m : smap string Sent) : m_sorted m -> m_sorted (map (fun e => (e.1, unless b e.2)) m).
Proof.
  induction m as [|[u t] m IH]; [done|]. cbn. intros [Hb Hs]. split; [|by apply IH].
  by apply Forall_fmap.
Qed.

(** What a request leaves untouched: the tables of those it is not kept from. *)
Record same_told s s' (d hd hdl : bool) : Prop := {
  sl_local : d = false -> buildAddrTblForLocalHost s' = buildAddrTblForLocalHost s;
  sl_down : hd = false -> buildAddrTblForDownstreamHost s' = buildAddrTblForDownstreamHost s;
  sl_up : hdl = false -> buildAddrTblForUpstreamHost s' = buildAddrTblForUpstreamHost s }.

Lemma views_unless s s' v d hd hdl : same_told s s' d hd hdl -> keeps_proxies s s' -> views_ok s v ->
  views_ok s' (mkViews (unless d (v_local v)) (unless hd (v_down v)) (map (fun e => (e.1, unless hdl e.2)) (v_up v))).
Proof.
  intros [L D U] [Hk1 Hk2] []. split; cbn [v_local v_down v_up unless st_told st_table]; try done.
  - intros [Ht Hd%negb_true_iff]%andb_prop. rewrite (L Hd). auto.
  - intros [Ht Hd%negb_true_iff]%andb_prop. rewrite (D Hd). auto.
  - by apply sorted_unless.
  - intros url t. rewrite find_unless. destruct (m_find url (v_up v)) as [t0|] eqn:Et; [|done]. intros _.
    destruct (vo_conn0 url t0 Et) as (p & Hp & Hc). by apply (Hk2 url p).
  - intros url t. rewrite find_unless. destruct (m_find url (v_up v)) as [t0|] eqn:Et; [|done]. cbn. intros [= <-].
    cbn. intros [Ht Hd%negb_true_iff]%andb_prop. rewrite (U Hd). by apply (vo_up0 url).
Qed.

Lemma same_told_tables s s' d hd hdl : same_tables s s' -> same_told s s' d hd hdl.
Proof.
  intros H. split; intros _; [apply local_ext; apply H|by apply down_ext|apply up_ext; apply H].
Qed.

Lemma same_told_hosts s l hd : same_tables s (hs_set_local l s) \/ hd = true -> same_told s (hs_set_local l s) false hd hd.
Proof. intros [H| ->]; [by apply same_told_tables|]. split; [|done|done]. intros _. by apply local_ext. Qed.

Lemma same_told_all s s' d : same_tables s s' \/ d = true -> same_told s s' d d d.
Proof. intros [H| ->]; [by apply same_told_tables|by split]. Qed.

Lemma any_nil {A} (l : list A) : any l = false -> l = [].
Proof. by destruct l. Qed.

Lemma host_silent h : host_offers (Some h) = false -> (if lh_mReady h then lh_mSvcAddrTbl h else []) = [].
Proof. cbn. destruct (lh_mReady h); [apply any_nil|done]. Qed.
Lemma domain_silent d : domain_offers (Some d) = false -> (if ed_mReady d then ed_mSvcAddrTbl d else []) = [].
Proof. cbn. destruct (ed_mReady d); [apply any_nil|done]. Qed.

(** A member that offers nothing is taken out. *)
Lemma bind_erase {K V B} `{KeyOrd K} (f : K * V -> list B) k (m : smap K V) :
  match m_find k m with Some v => f (k, v) = [] | None => True end -> m_erase k m ≫= f = m ≫= f.
Proof.
  induction m as [|[j u] m IH]; cbn [m_erase m_find]; [done|]. intros Hf.
  destruct (klt k j) eqn:E1; [done|]. destruct (klt j k) eqn:E2; [cbn; by rewrite (IH Hf)|].
  assert (k = j) as <- by by apply klt_total. cbn. by rewrite Hf.
Qed.

Lemma not_told_quiet s op v : host_taken s op = false -> domain_taken s op = false -> domain_lost s op = false ->
  views_ok s v -> views_ok s (not_told s op v).
Proof.
  intros H1 H2 H3 Hv. unfold not_told. rewrite H1, H2, H3. apply (views_unless s); [by apply same_told_tables| |done].
  by apply keeps_refl; [apply Hv|].
Qed.

Lemma not_told_out s op v s' outs : forallb quiet_out outs = true -> keeps_proxies s s' ->
  same_told s s' (domain_taken s op) (host_taken s op || domain_taken s op) (host_taken s op || domain_taken s op || domain_lost s op) ->
  views_ok s v -> views_ok s' (foldl see (not_told s op v) outs).
Proof. intros Hq Hk Hs Hv. rewrite see_quiet by done. by apply (views_unless s). Qed.

Lemma views_register s s1 outs v op : views_ok s v ->
  same_told s s1 (domain_taken s op) (host_taken s op || domain_taken s op) (host_taken s op || domain_taken s op || domain_lost s op) ->
  hs_mHostProxyTbl s1 = hs_mHostProxyTbl s -> forallb quiet_out outs = true ->
  views_ok (if hs_members s1 =? 1 then hs_set_timer true s1 else s1) (foldl see (not_told s op v) outs).
Proof.
  intros Hv Hs Hp Hq. assert (views_ok s1 (foldl see (not_told s op v) outs)) as H1.
  { apply (not_told_out s); try done. apply keeps_refl; [apply Hv|done]. }
  destruct (_ =? _); [by apply views_timer|done].
Qed.

Lemma views_lost sid s v : views_ok s v ->
  views_ok (hs_onOffline sid s).1 (foldl see (not_told s (OpHsOffline sid) v) (hs_onOffline sid s).2).
Proof.
  intros Hv. unfold hs_onOffline.
  set (r := match m_find sid (hs_mLocalHostTbl s) with Some _ => _ | None => _ end).
  assert (views_ok r.1 (foldl see (not_told s (OpHsOffline sid) v) r.2)) as Hr.
  { subst r. destruct (m_find sid (hs_mLocalHostTbl s)) as [h|] eqn:Eh; cbn [fst snd].
    - rewrite foldl_see_app, (see_quiet (broadcastSingleHost false sid h s)) by apply single_host_quiet. apply views_local_changed.
      apply not_told_quiet; try done. cbn. by rewrite Eh.
    - destruct (m_find sid (hs_mExternalDomainTbl s)) as [d|] eqn:Ed.
      + pose proof (vo_proxies _ _ Hv) as Hp.
        set (s' := hs_set_domains _ s). assert (views_ok s (not_told s (OpHsOffline sid) v)) as Hv0.
        { apply (views_unless s); [by apply same_told_tables|by apply keeps_refl|done]. }
        apply (views_upstream_changed s); [done|by apply keeps_refl|].
        intros url t. cbn [not_told v_up host_taken domain_taken domain_lost]. rewrite Eh, Ed, find_unless.
        destruct (m_find url (v_up v)) as [t0|]; [|done]. cbn [fmap option_fmap option_map]. intros [= <-]. cbn [unless st_told orb].
        intros [_ Hd%negb_true_iff]%andb_prop. apply up_ext; [done| |done]. unfold downstream_services. subst s'. cbn [hs_set_domains hs_mExternalDomainTbl].
        apply (bind_erase (fun e => if ed_mReady e.2 then ed_mSvcAddrTbl e.2 else [])). rewrite Ed. by apply domain_silent.
      + apply views_here; [done|]. apply not_told_quiet; try done. cbn. by rewrite Eh, Ed. }
  destruct r as [s1 o1]. cbn [fst snd] in *. destruct (_ =? _); [by apply views_timer|done].
Qed.

(** The requests that may take services out in silence. *)
Definition takes (op : HsOp) : bool :=
  match op with OpRegisterLocal _ _ _ | OpRegisterDomain _ _ _ | OpUnregister _ | OpHsOffline _ => true | _ => false end.

Lemma views_taken s v op : takes op = true -> views_ok s v ->
  views_ok (hs_step op s).1 (foldl see (not_told s op v) (hs_step op s).2).
Proof.
  intros Ht Hv. pose proof (vo_proxies _ _ Hv) as Hp.
  destruct op as [sid req tk|sid req tk|sid req|sid req|sid req|sid req|req| | |sid| |sid|sid|sid|sid|urls|url|url|url ack|url ses t|url|url]; try done; cbn [hs_step].
  - destruct req as [req|]; [|apply views_here; [done|by apply not_told_quiet]]. cbn [onRegisterLocalHostReq fst snd]. apply (views_register s); try done.
    cbn [host_taken domain_taken domain_lost]. rewrite !orb_false_r. apply same_told_hosts.
    destruct (host_offers _) eqn:Eo; [by right|left]. apply same_set_local. cbn.
    destruct (m_find sid (hs_mLocalHostTbl s)) as [h|]; [|done]. by rewrite host_silent.
  - destruct req as [req|]; [|apply views_here; [done|by apply not_told_quiet]]. cbn [onRegisterExternalDomainReq fst snd]. apply (views_register s); try done.
    cbn [host_taken domain_taken domain_lost]. rewrite !orb_false_r, !orb_false_l. apply same_told_all.
    destruct (domain_offers _) eqn:Eo; [by right|left]. apply same_set_domains. cbn.
    destruct (m_find sid (hs_mExternalDomainTbl s)) as [d|]; [|done]. by rewrite domain_silent.
  - destruct req as [a|]; [|apply views_here; [done|by apply not_told_quiet]]. unfold onUnregisterLocalHostReq.
    destruct (find _ (hs_mLocalHostTbl s)) as [[sid h]|] eqn:Ef; cbn [fst snd].
    + apply (not_told_out s); [apply single_host_quiet|by apply keeps_refl| |done].
      cbn [host_taken domain_taken domain_lost]. rewrite Ef. cbn [mbind option_bind fst]. rewrite !orb_false_r. apply same_told_hosts.
      destruct (host_offers _) eqn:Eo; [by right|left]. split; try done. unfold local_services. cbn [hs_set_local hs_mLocalHostTbl].
      apply (bind_erase (fun e => if lh_mReady e.2 then lh_mSvcAddrTbl e.2 else [])).
      destruct (m_find sid (hs_mLocalHostTbl s)) as [h0|]; [by apply host_silent|done].
    + apply views_here; [done|]. apply not_told_quiet; try done. cbn. by rewrite Ef.
  - by apply views_lost.
Qed.

Lemma views_step s v op : op_fits s op = true -> views_ok s v -> views_ok (hs_step op s).1 (see_op op (hs_step op s).2 s v).
Proof.
  intros Hc Hv0. pose proof (vo_proxies _ _ Hv0) as Hp. unfold see_op.
  destruct (takes op) eqn:Et; [destruct op; try done; by apply (views_taken s v)|].
  assert (views_ok s (not_told s op v)) as Hv by (by apply not_told_quiet; destruct op).
  set (v1 := not_told s op v) in *. clearbody v1. clear v Hv0. rename v1 into v.
  destruct op as [sid req tk|sid req tk|sid req|sid req|sid req|sid req|req| | |sid| |sid|sid|sid|sid|urls|url|url|url ack|url ses t|url|url]; cbn [hs_step see_op].
  - done.
  - done.
  - destruct req as [a|]; [|by apply views_here]. unfold onLocalHostReady. destruct (m_find sid (hs_mLocalHostTbl s)) as [h|]; [|by apply views_here].
    set (h1 := mkLocalHost _ _ _ _ _ _ _ _). set (t1 := verifyUrl_tbl _ _). pose proof (views_update_local sid h1 t1 s v Hv) as Hu.
    destruct (updateLocalSvcTable sid h1 t1 s) as [s1 o1]. cbn [fst snd] in *. rewrite foldl_see_app, (see_quiet (broadcastSingleHost true sid h1 s1)) by apply single_host_quiet. done.
  - destruct req as [a|]; [|by apply views_here]. unfold onExternalHostReady. destruct (m_find sid (hs_mExternalDomainTbl s)) as [d|]; [|by apply views_here]. by apply views_update_domain.
  - destruct req as [t|]; [|by apply views_here]. unfold onPostLocalSvcAddress. destruct (m_find sid (hs_mLocalHostTbl s)) as [h|]; [|by apply views_here]. by apply views_update_local.
  - destruct req as [t|]; [|by apply views_here]. unfold onPostDomainSvcAddress. destruct (m_find sid (hs_mExternalDomainTbl s)) as [d|]; [|by apply views_here]. by apply views_update_domain.
  - done.
  - by apply views_here.
  - by apply views_here.
  - unfold onHeartbeatOk. destruct (m_find sid (hs_mLocalHostTbl s)) as [h|] eqn:Eh.
    + apply (views_quiet s); try done; [|by apply keeps_refl]. apply same_set_local. by rewrite Eh.
    + destruct (m_find sid (hs_mExternalDomainTbl s)) as [d|] eqn:Ed; [|by apply views_here].
      apply (views_quiet s); try done; [|by apply keeps_refl]. apply same_set_domains. by rewrite Ed.
  - unfold broadcastHeartBeat. cbn [fst snd]. apply (views_quiet s); try done; [|by apply keeps_refl|].
    + split; try done; unfold downstream_services, local_services; cbn; by rewrite bind_map.
    + rewrite !forallb_app, !map_quiet by done. done.
  - done.
  - apply views_here; [|done]. unfold onHostOnlineReg. cbn [fst snd]. by case_match.
  - by apply views_here.
  - by apply views_here.
  - destruct (online_same urls s Hp) as (H1 & H2 & H3). by apply (views_quiet s).
  - apply (views_quiet s); try done; [by apply same_update|by apply keeps_update].
  - by apply views_proxy_lost.
  - destruct ack as [ack|]; [|by apply views_here]. cbn [op_fits] in Hc. unfold proxy_onReply. cbn [fst snd]. set (s1 := hp_update url _ s).
    assert (same_tables s s1) as Hs1 by by apply same_update. assert (keeps_proxies s s1) as Hk1 by by apply keeps_update.
    rewrite foldl_see_app, (see_quiet (if FdbMsgHostRegisterAck_has_token_list ack then _ else _)) by (by destruct (FdbMsgHostRegisterAck_has_token_list ack)). cbn [foldl see da_mSvcAddrList].
    pose proof (views_same s s1 v Hs1 Hk1 Hv) as []. split; try done; cbn [v_local v_down v_up].
    + by apply m_sorted_set.
    + intros u t. rewrite m_find_set_dec by done. case_decide; [|apply vo_conn0]. intros _. subst u.
      destruct (m_find url (hs_mHostProxyTbl s)) as [p|] eqn:Ep; [|done]. by apply (proj2 Hk1 url p).
    + intros u t. rewrite m_find_set_dec by done. case_decide; [by intros [= <-]|]. by apply vo_up0.
  - unfold proxy_onBroadcast. destruct t as [t|]; [|by apply views_here]. destruct (m_find url (hs_mHostProxyTbl s)) as [p|] eqn:Ep; [|by apply views_here].
    unfold updateUpstreamSvcTable. cbn [fst snd]. apply (views_upstream_changed s); try done. apply keeps_set; [done|]. intros p0 Hp0. rewrite Ep in Hp0. by simplify_eq.
  - apply (views_quiet s); try done; [by apply same_update|by apply keeps_update].
  - unfold proxy_onTimer. destruct (m_find url (hs_mHostProxyTbl s)) as [p|] eqn:Ep; [|by apply views_here]. destruct (hp_mConnectTimer p); try by apply views_here.
    unfold hs_connectToHostServer. destruct (hp_connected p) eqn:Ec; [by apply views_here|]. apply (views_quiet s); try done.
    + apply same_set_proxy. by rewrite Ep.
    + apply keeps_set; [done|]. intros p0 Hp0. rewrite Ep in Hp0. simplify_eq. congruence.
Qed.

Lemma views_reach s v : hs_reach s v -> views_ok s v.
Proof.
  induction 1 as [max min|s v op _ IH Hc]; [|by apply views_step]. by split.
Qed.

End views.

(** C21: Whatever happens to the hosts, the domains and the host servers above, the table the
    name servers of the domain were sent last, the one the host servers below were sent last and the one each connected
    host server above was sent last are the ones the server has now, unless services have been
    taken out in silence since. Four things do that: a host with services that registers again or unregisters is not
    announced below and above, a domain with services that registers again is announced to nobody, one
    that is lost is not announced above; the next table that is sent makes good for it. *)
Theorem views_current {I : Indet} {E : HsEnv} (s : CHostServer) (v : Views) : hs_reach s v ->
  (st_told (v_local v) = true -> st_table (v_local v) = buildAddrTblForLocalHost s) /\
  (st_told (v_down v) = true -> st_table (v_down v) = buildAddrTblForDownstreamHost s) /\
  (forall url t, m_find url (v_up v) = Some t -> st_told t = true -> st_table t = buildAddrTblForUpstreamHost s).
Proof. intros Hr. by destruct (views_reach s v Hr). Qed.

(** ** Tokens *)

(** The operations so far, the latest first. *)
Inductive hs_ran {I : Indet} {E : HsEnv} : list HsOp -> CHostServer -> Prop :=
  | ran_start max min : hs_ran [] (CHostServer_new max min)
  | ran_next ops s op : hs_ran ops s -> hs_ran (op :: ops) (hs_step op s).1.

(** The registration a session made last. *)
Definition registration (sid : Z) (op : HsOp) : option FdbMsgHostRegisterReq :=
  match op with OpRegisterLocal x (Some req) _ => if x =? sid then Some req else None | _ => None end.
Definition last_registration (sid : Z) (ops : list HsOp) : option FdbMsgHostRegisterReq := head (omap (registration sid) ops).

Definition registered_name (req : FdbMsgHostRegisterReq) : string :=
  if is_empty_str (hr_mHostName req) then c_str (hr_mIpAddress req) else c_str (hr_mHostName req).

(** A host proves who it is with the credential configured for its name; it need not when
    none is configured. *)
Definition proves {E : HsEnv} (req : FdbMsgHostRegisterReq) : Prop :=
  match getCred he_hostSecurity (registered_name req) with
  | Some cred => cred = EmptyString \/ (FdbMsgHostRegisterReq_has_cred req = true /\ hr_mCred req = cred)
  | None => True
  end.

(** A token of [this] host is granted to [that] one: when it registered [that] host proved who it is, and the
    token is the one of the level the configuration gives it. *)
Definition granted {E : HsEnv} (ops : list HsOp) s (receiver : Z) (token : string) : Prop :=
  exists sid this that t req, m_find sid (hs_mLocalHostTbl s) = Some this /\ m_find receiver (hs_mLocalHostTbl s) = Some that /\ sid <> receiver /\
    last_registration receiver ops = Some req /\ lh_mHostName that = registered_name req /\ proves req /\ token = c_str t /\
    0 <= host_getSecurityLevel he_hostSecurity (c_str (lh_mHostName this)) (c_str (lh_mHostName that)) /\
    lh_mTokens this !! Z.to_nat (host_getSecurityLevel he_hostSecurity (c_str (lh_mHostName this)) (c_str (lh_mHostName that))) = Some t.

(** Tokens travel only in a message to one session, and each is granted to it. *)
Definition only_granted (may : Z -> string -> Prop) (out : HsOut) : Prop :=
  match out with
  | HsHostOnline to l => forall a token, a ∈ hl_mAddressList l -> token ∈ tk_mTokens (ha_mTokenList a) -> exists sid, to = Some sid /\ may sid token
  | _ => True
  end.

Lemma only_granted_mono (P Q : Z -> string -> Prop) outs : (forall x t, P x t -> Q x t) -> Forall (only_granted P) outs -> Forall (only_granted Q) outs.
Proof.
  intros Hpq Ho. eapply Forall_impl; [exact Ho|]. intros [] Hx; try done. intros a token Ha Ht. destruct (Hx a token Ha Ht) as (sid & -> & Hp). exists sid. auto.
Qed.

(** *** Who is marked as authorised *)

Definition hosts_ok {E : HsEnv} (ops : list HsOp) s : Prop :=
  m_sorted (hs_mLocalHostTbl s) /\
  forall sid h, m_find sid (hs_mLocalHostTbl s) = Some h ->
    exists req, last_registration sid ops = Some req /\ lh_mHostName h = registered_name req /\ (lh_mAuthorized h = true -> proves req).

Section authorised.
Context {I : Indet} {E : HsEnv}.

Lemma authorised_proves sid req tk s : let s' := (onRegisterLocalHostReq sid (Some req) tk s).1 in
  exists h, hs_mLocalHostTbl s' = m_set sid h (hs_mLocalHostTbl s) /\ lh_mHostName h = registered_name req /\ (lh_mAuthorized h = true -> proves req).
Proof.
  eexists. split; [cbn; by case_match|]. split; [done|]. cbn [lh_mAuthorized]. unfold proves, registered_name.
  destruct (getCred _ _) as [cred|]; [|done]. intros [Hc|Hc]%orb_true_iff.
  - left. by destruct cred.
  - right. rewrite !negb_orb, !negb_involutive in Hc. by apply andb_prop in Hc as [[H1 _]%andb_prop ->%String.eqb_eq].
Qed.

(** The hosts of [l'] are hosts of [l] that kept their name and their mark. *)
Definition same_hosts (l l' : smap Z CLocalHostInfo) : Prop :=
  m_sorted l' /\ forall sid h', m_find sid l' = Some h' ->
    exists h, m_find sid l = Some h /\ lh_mHostName h' = lh_mHostName h /\ lh_mAuthorized h' = lh_mAuthorized h.

Lemma same_hosts_refl l : m_sorted l -> same_hosts l l.
Proof. intros Hs. split; [done|]. eauto. Qed.

Lemma same_hosts_set l sid h h' : m_sorted l -> m_find sid l = Some h -> lh_mHostName h' = lh_mHostName h -> lh_mAuthorized h' = lh_mAuthorized h ->
  same_hosts l (m_set sid h' l).
Proof.
  intros Hs Hf Hn Ha. split; [by apply m_sorted_set|]. intros x y. rewrite m_find_set_dec by done. case_decide; [intros [= <-]; subst; eauto|eauto].
Qed.

Lemma same_hosts_erase l sid : m_sorted l -> same_hosts l (m_erase sid l).
Proof. intros Hs. split; [by apply m_sorted_erase|]. intros x y. rewrite m_find_erase_dec by done. case_decide; [done|eauto]. Qed.

Lemma same_hosts_beat l : m_sorted l -> same_hosts l (map (fun e => (e.1, lh_set_hb (i32 (lh_mHbCount e.2 + 1)) e.2)) l).
Proof.
  intros Hs. split.
  - induction l as [|[x h] l IH]; [done|]. destruct Hs as [Hb Hs]. cbn. split; [by apply Forall_fmap|by apply IH].
  - intros x y. clear Hs. induction l as [|[z h] l IH]; [done|]. cbn. repeat case_match; try done. intros [= <-]. by exists h.
Qed.

Lemma online_hosts urls s : hs_mLocalHostTbl (hs_online urls s).1 = hs_mLocalHostTbl s.
Proof.
  revert s. induction urls as [|u urls IH]; intros s; cbn [hs_online]; [done|]. destruct (if is_empty_str (c_str u) then _ else _) as [s1 o1] eqn:Er.
  specialize (IH s1). destruct (hs_online urls s1) as [s2 o2]. cbn [fst] in *. rewrite IH.
  destruct (is_empty_str (c_str u)); [by simplify_eq|]. destruct (m_find (c_str u) (hs_mHostProxyTbl s)); [by simplify_eq|]. cbn in Er. by simplify_eq.
Qed.

(** Only a registration marks a host. *)
Lemma step_hosts op s : m_sorted (hs_mLocalHostTbl s) ->
  match op with OpRegisterLocal _ (Some _) _ => True | _ => same_hosts (hs_mLocalHostTbl s) (hs_mLocalHostTbl (hs_step op s).1) end.
Proof.
  intros Hs. pose proof (same_hosts_refl _ Hs) as Hr.
  assert (forall url f, hs_mLocalHostTbl (hp_update url f s) = hs_mLocalHostTbl s) as Hu by (intros url f; unfold hp_update; by case_match).
  destruct op as [sid req tk|sid req tk|sid req|sid req|sid req|sid req|req| | |sid| |sid|sid|sid|sid|urls|url|url|url ack|url ses t|url|url]; cbn [hs_step]; try done.
  - by destruct req.
  - destruct req as [req|]; [|done]. cbn. by case_match.
  - destruct req as [a|]; [|done]. unfold onLocalHostReady. destruct (m_find sid (hs_mLocalHostTbl s)) as [h|] eqn:Eh; [|done]. by apply (same_hosts_set _ _ h).
  - destruct req as [a|]; [|done]. unfold onExternalHostReady. by destruct (m_find sid (hs_mExternalDomainTbl s)).
  - destruct req as [a|]; [|done]. unfold onPostLocalSvcAddress. destruct (m_find sid (hs_mLocalHostTbl s)) as [h|] eqn:Eh; [|done]. by apply (same_hosts_set _ _ h).
  - destruct req as [a|]; [|done]. unfold onPostDomainSvcAddress. by destruct (m_find sid (hs_mExternalDomainTbl s)).
  - destruct req as [a|]; [|done]. unfold onUnregisterLocalHostReq. destruct (find _ _) as [[sid h]|]; [|done]. by apply same_hosts_erase.
  - unfold onHeartbeatOk. destruct (m_find sid (hs_mLocalHostTbl s)) as [h|] eqn:Eh; [by apply (same_hosts_set _ _ h)|]. by destruct (m_find sid (hs_mExternalDomainTbl s)).
  - by apply same_hosts_beat.
  - unfold hs_onOffline. destruct (m_find sid (hs_mLocalHostTbl s)) as [h|]; [|destruct (m_find sid (hs_mExternalDomainTbl s))];
      cbn [fst snd]; destruct (_ =? 0); try done; by apply same_hosts_erase.
  - by rewrite online_hosts.
  - cbn. by rewrite Hu.
  - unfold proxy_onOffline. case_match; cbn; by rewrite Hu.
  - destruct ack; [|done]. cbn. by rewrite Hu.
  - unfold proxy_onBroadcast. destruct t; [|done]. by destruct (m_find url _).
  - cbn. by rewrite Hu.
  - unfold proxy_onTimer, hs_connectToHostServer. by repeat case_match.
Qed.

Lemma hosts_ok_step ops s op : hosts_ok ops s -> hosts_ok (op :: ops) (hs_step op s).1.
Proof.
  intros [Hs Hh]. pose proof (step_hosts op s Hs) as Hst.
  assert ((forall sid, registration sid op = None) /\ same_hosts (hs_mLocalHostTbl s) (hs_mLocalHostTbl (hs_step op s).1) \/
          exists sid req tk, op = OpRegisterLocal sid (Some req) tk) as [[Hn [Hs' Hh']]|(sid & req & tk & ->)].
  { destruct op as [sid [req|] tk| | | | | | | | | | | | | | | | | | | | |]; first [right; by repeat eexists|by left]. }
  - split; [done|]. intros sid h' Hf. destruct (Hh' sid h' Hf) as (h & Hf0 & -> & ->). unfold last_registration. cbn [omap list_omap]. rewrite Hn.
    by apply (Hh sid).
  - cbn [hs_step]. destruct (authorised_proves sid req tk s) as (h & Et & Hn & Ha). unfold hosts_ok. cbv zeta in Et. rewrite Et. split; [by apply m_sorted_set|]. intros x y.
    rewrite m_find_set_dec by done. unfold last_registration. cbn [omap list_omap registration]. case_decide as Ex.
    + intros [= <-]. subst. rewrite Z.eqb_refl. by exists req.
    + rewrite (proj2 (Z.eqb_neq sid x)) by congruence. apply Hh.
Qed.

Lemma hosts_ok_ran ops s : hs_ran ops s -> hosts_ok ops s.
Proof. induction 1 as [max min|ops s op _ IH]; [by split|by apply hosts_ok_step]. Qed.
End authorised.

(** *** What is sent *)

(** A token of a host for another one which is marked as authorised. *)
Definition handed {E : HsEnv} s (receiver : Z) (token : string) : Prop :=
  exists sid this that t, m_find sid (hs_mLocalHostTbl s) = Some this /\ m_find receiver (hs_mLocalHostTbl s) = Some that /\ sid <> receiver /\
    lh_mAuthorized that = true /\ token = c_str t /\
    0 <= host_getSecurityLevel he_hostSecurity (c_str (lh_mHostName this)) (c_str (lh_mHostName that)) /\
    lh_mTokens this !! Z.to_nat (host_getSecurityLevel he_hostSecurity (c_str (lh_mHostName this)) (c_str (lh_mHostName that))) = Some t.
Definition tokens_ok {E : HsEnv} s : HsOut -> Prop := only_granted (handed s).

Section tokens.
Context {I : Indet} {E : HsEnv}.

Lemma addToken_granted sid receiver this that a token s : m_find sid (hs_mLocalHostTbl s) = Some this -> m_find receiver (hs_mLocalHostTbl s) = Some that -> sid <> receiver ->
  token ∈ tk_mTokens (ha_mTokenList (addToken this that a)) -> handed s receiver token.
Proof.
  intros H1 H2 Hne. cbn [addToken ha_mTokenList tk_mTokens]. destruct (lh_mAuthorized that) eqn:Ea.
  - set (level := host_getSecurityLevel _ _ _). destruct ((level >=? 0) && (level <? Z.of_nat (length (lh_mTokens this)))) eqn:El; [|by intros ?%not_elem_of_nil].
    apply andb_prop in El as [E1 E2]. destruct (lh_mTokens this !! Z.to_nat level) as [t|] eqn:Et; [|by intros ?%not_elem_of_nil].
    intros ->%list_elem_of_singleton. exists sid, this, that, t. split_and!; try done. fold level. lia.
  - cbn. by intros ?%not_elem_of_nil.
Qed.

Lemma notify_granted sid h h0 s x : m_find sid (hs_mLocalHostTbl s) = Some h0 -> lh_mTokens h0 = lh_mTokens h -> lh_mHostName h0 = lh_mHostName h -> Forall (tokens_ok s) (notifyHost sid h x s).
Proof.
  intros Hf Ht Hn. unfold notifyHost. destruct (m_find x (hs_mLocalHostTbl s)) as [that|] eqn:Ex.
  - destruct ((x =? sid) || negb (lh_mReady that)) eqn:Eb; [done|]. apply orb_false_iff in Eb as [Hne%Z.eqb_neq _]. constructor; [|done].
    intros a token ->%list_elem_of_singleton Hin. exists x. split; [done|]. apply (addToken_granted sid x h0 that (populateHostAddress (Some x) h)); [done|done|congruence|].
    unfold addToken in *. cbn [ha_mTokenList tk_mTokens] in *. by rewrite Ht, Hn.
  - constructor; [|done]. intros a token ->%list_elem_of_singleton Hin. cbn in Hin. by apply not_elem_of_nil in Hin.
Qed.

Lemma offline_granted sid h s s' : Forall (tokens_ok s') (broadcastSingleHost false sid h s).
Proof. constructor; [|done]. intros a token ->%list_elem_of_singleton Hin. cbn in Hin. by apply not_elem_of_nil in Hin. Qed.

Definition not_online (out : HsOut) : bool := match out with HsHostOnline _ _ => false | _ => true end.
Lemma tokens_plain s outs : forallb not_online outs = true -> Forall (tokens_ok s) outs.
Proof. intros Hf. apply Forall_forall. intros o Ho. rewrite forallb_forall in Hf. apply list_elem_of_In in Ho. specialize (Hf o Ho). by destruct o. Qed.

Lemma posts_plain s : forallb not_online (postToUpstreamHost s) = true.
Proof. unfold postToUpstreamHost. by induction (List.filter _ (hs_mHostProxyTbl s)). Qed.

Lemma local_changed_plain s : forallb not_online (broadcastOnLocalSvcTableChanged s) = true.
Proof. unfold broadcastOnLocalSvcTableChanged. rewrite forallb_app, posts_plain. done. Qed.
Lemma domain_changed_plain s : forallb not_online (broadcastOnDomainSvcTableChanged s) = true.
Proof. unfold broadcastOnDomainSvcTableChanged. rewrite !forallb_app, posts_plain. done. Qed.

Lemma map_plain {A} (f : A -> HsOut) l : (forall x, not_online (f x) = true) -> forallb not_online (map f l) = true.
Proof. intros Hf. induction l as [|x l IH]; [done|]. cbn. by rewrite Hf, IH. Qed.

Lemma online_plain urls s : forallb not_online (hs_online urls s).2 = true.
Proof.
  revert s. induction urls as [|u urls IH]; intros s; cbn [hs_online]; [done|]. destruct (if is_empty_str (c_str u) then _ else _) as [s1 o1] eqn:Er.
  specialize (IH s1). destruct (hs_online urls s1) as [s2 o2]. cbn [snd] in *. rewrite forallb_app, IH, andb_true_r.
  destruct (is_empty_str (c_str u)); [by simplify_eq|]. destruct (m_find (c_str u) (hs_mHostProxyTbl s)); [by simplify_eq|]. cbn in Er. by simplify_eq.
Qed.
Lemma step_tokens op s : m_sorted (hs_mLocalHostTbl s) -> Forall (tokens_ok (hs_step op s).1) (hs_step op s).2.
Proof.
  intros Hs. destruct op as [sid req tk|sid req tk|sid req|sid req|sid req|sid req|req| | |sid| |sid|sid|sid|sid|urls|url|url|url ack|url ses t|url|url]; cbn [hs_step]; try by apply tokens_plain.
  - apply tokens_plain. by destruct req.
  - apply tokens_plain. by destruct req.
  - destruct req as [a|]; [|by apply tokens_plain]. unfold onLocalHostReady. destruct (m_find sid (hs_mLocalHostTbl s)) as [h|]; [|done].
    set (h1 := mkLocalHost _ _ _ _ _ _ _ _). unfold updateLocalSvcTable. cbn [fst snd]. apply Forall_app. split; [apply tokens_plain, local_changed_plain|].
    apply Forall_forall. intros o Ho. apply list_elem_of_bind in Ho as (x & Ho & _). revert o Ho. apply Forall_forall.
    eapply notify_granted; [cbn; by rewrite m_find_set|done|done].
  - apply tokens_plain. destruct req as [a|]; [|done]. unfold onExternalHostReady. destruct (m_find sid (hs_mExternalDomainTbl s)); [apply domain_changed_plain|done].
  - apply tokens_plain. destruct req as [a|]; [|done]. unfold onPostLocalSvcAddress. destruct (m_find sid (hs_mLocalHostTbl s)); [apply local_changed_plain|done].
  - apply tokens_plain. destruct req as [a|]; [|done]. unfold onPostDomainSvcAddress. destruct (m_find sid (hs_mExternalDomainTbl s)); [apply domain_changed_plain|done].
  - destruct req as [a|]; [|by apply tokens_plain]. unfold onUnregisterLocalHostReq. destruct (find _ _) as [[sid h]|]; [|by apply tokens_plain]. apply offline_granted.
  - apply tokens_plain. unfold onHeartbeatOk. repeat case_match; done.
  - apply tokens_plain. unfold broadcastHeartBeat. cbn [snd]. by rewrite !forallb_app, !map_plain.
  - unfold hs_onOffline. destruct (m_find sid (hs_mLocalHostTbl s)) as [h|]; cbn [fst snd].
    + apply Forall_app. split; [apply offline_granted|]. apply tokens_plain, local_changed_plain.
    + destruct (m_find sid (hs_mExternalDomainTbl s)); cbn [fst snd]; by apply tokens_plain.
  - unfold onHostOnlineReg. cbn [fst snd]. set (l := map _ _).
    assert (forall a token, a ∈ l -> token ∈ tk_mTokens (ha_mTokenList a) -> handed s sid token) as Hl.
    { intros a token Ha Hin. apply list_elem_of_fmap in Ha as ([x h] & -> & Hx). apply list_elem_of_In, List.filter_In in Hx as [Hx Hb]. apply list_elem_of_In in Hx.
      apply m_find_In in Hx; [|done]. apply andb_prop in Hb as [Hne%negb_true_iff%Z.eqb_neq _]. cbn in Hne, Hin.
      destruct (m_find sid (hs_mLocalHostTbl s)) as [that|] eqn:Et; [|cbn in Hin; by apply not_elem_of_nil in Hin].
      by apply (addToken_granted x sid h that (populateHostAddress (Some sid) h)). }
    clearbody l. destruct l as [|a l]; [done|]. constructor; [|done]. intros b token Hb Hin. exists sid. split; [done|]. by apply (Hl b).
  - apply tokens_plain, online_plain.
  - apply tokens_plain. unfold proxy_onOffline. by destruct (m_find url _).
  - apply tokens_plain. destruct ack as [ack|]; [|done]. unfold proxy_onReply. cbn [snd]. by destruct (FdbMsgHostRegisterAck_has_token_list ack).
  - apply tokens_plain. unfold proxy_onBroadcast. destruct t; [|done]. by destruct (m_find url _).
  - apply tokens_plain. unfold proxy_onTimer, hs_connectToHostServer. repeat case_match; done.
Qed.

Lemma handed_granted ops s receiver token : hosts_ok ops s -> handed s receiver token -> granted ops s receiver token.
Proof.
  intros [_ Hh] (sid & this & that & t & H1 & H2 & Hne & Ha & Ht & Hl & Hk). destruct (Hh receiver that H2) as (req & Hr & Hn & Hp).
  exists sid, this, that, t, req. split_and!; try done. by apply Hp.
Qed.
End tokens.


(** ** On concrete servers *)

Definition lab_hs_env : HsEnv := mkHsEnv [] (fun _ => Some "10.0.0.7"%string) (fun _ => "10.0.0.1"%string) [("car"%string, mkHostSec 0 EmptyString [])] "home"%string [1; 2].
Definition lab_hs_indet : Indet := 0.
Definition lab_service (name : string) (level : Z) : FdbMsgExportableSvcAddress :=
  mkExportableSvcAddress [mkAddressList name "h"%string "e"%string "d"%string 0 false 0
    [mkAddressItem "10.0.0.7"%string 60000 FDB_SOCKET_TCP "tcp://10.0.0.7:60000"%string 0 false level 0 0] (mkTokens []) 0].
Definition lab_ack : FdbMsgHostRegisterAck := mkHostRegisterAck "above"%string (mkTokens []) 0.

(** A run of operations from a state with the views along it. *)
Fixpoint hs_run {I : Indet} {E : HsEnv} (ops : list HsOp) s (v : Views) : option (CHostServer * Views) :=
  match ops with
  | [] => Some (s, v)
  | op :: ops => if op_fits s op then let '(s', out) := hs_step op s in hs_run ops s' (see_op op out s v) else None
  end.

Lemma hs_run_reach {I : Indet} {E : HsEnv} ops s v s' v' : hs_reach s v -> hs_run ops s v = Some (s', v') -> hs_reach s' v'.
Proof.
  revert s v. induction ops as [|op ops IH]; intros s v Hr; cbn [hs_run]; [by intros [= <- <-]|]. destruct (op_fits s op) eqn:Ec; [|done].
  pose proof (hs_next s v op Hr Ec) as Hn. destruct (hs_step op s) as [s1 out]. apply (IH _ _ Hn).
Qed.

Open Scope string_scope.
(** A server connected to one above; the domain at session 7 offers a service. *)
Definition lab_ops : list HsOp :=
  [OpUpstream ["svc://above"]; OpProxyOnline "svc://above"; OpProxyReply "svc://above" (Some lab_ack);
   OpRegisterDomain 7 (Some (mkDomainRegisterReq "below" EmptyString 0)) [];
   OpDomainReady 7 (Some (mkDomainAddress "below" (lab_service "media" 3) (mkTokens []) 0))].
Close Scope string_scope.

Definition lab_hs (ops : list HsOp) : option (CHostServer * Views) :=
  @hs_run lab_hs_indet lab_hs_env ops (CHostServer_new 3 2) no_views.

Lemma views_current_witness : exists s v, lab_hs lab_ops = Some (s, v) /\
  length (ex_mSvcAddrList (st_table (v_local v))) = 1%nat /\
  st_table <$> m_find "svc://above"%string (v_up v) = Some (@buildAddrTblForUpstreamHost lab_hs_indet s).
Proof.
  destruct (lab_hs lab_ops) as [[s v]|] eqn:Er; [|vm_compute in Er; discriminate]. exists s, v. split; [reflexivity|].
  pose proof (@hs_run_reach lab_hs_indet lab_hs_env lab_ops _ _ s v (@hs_start lab_hs_indet lab_hs_env 3 2) Er) as Hr.
  destruct (@views_current lab_hs_indet lab_hs_env s v Hr) as (H1 & _ & H3). rewrite H1 by (vm_compute in Er; by injection Er as <- <-).
  destruct (m_find "svc://above"%string (v_up v)) as [t|] eqn:Eu.
  - cbn [fmap option_fmap option_map]. rewrite (H3 _ _ Eu); [|vm_compute in Er; injection Er as <- <-; vm_compute in Eu; by injection Eu as <-].
    vm_compute in Er. injection Er as <- <-. split; [vm_compute; reflexivity|reflexivity].
  - exfalso. vm_compute in Er. injection Er as <- <-. vm_compute in Eu. discriminate.
Defined.

(** A domain below that is lost stays announced to the host servers above, until the next table
    for them. *)
Example lost_domain_stays_above :
  let view r := (length (ex_mSvcAddrList (st_table (v_local r.2))), length (ex_mSvcAddrList (st_table (v_down r.2))),
                 (fun t => (st_told t, length (ex_mSvcAddrList (st_table t)))) <$> m_find "svc://above"%string (v_up r.2)) in
  view <$> lab_hs (lab_ops ++ [OpHsOffline 7]) = Some (0%nat, 0%nat, Some (false, 1%nat)) /\
  view <$> lab_hs (lab_ops ++ [OpHsOffline 7; OpRegisterDomain 8 (Some (mkDomainRegisterReq "next"%string EmptyString 0)) [];
                               OpPostDomain 8 (Some svc_empty)]) = Some (0%nat, 0%nat, Some (true, 0%nat)).
Proof. vm_compute. split; reflexivity. Qed.

(** A host that unregisters stays announced everywhere: the request only tells the other hosts. *)
Definition lab_host_ready : CHostServer := let I := lab_hs_indet in let E := lab_hs_env in
  (hs_step (OpLocalReady 1 (Some (mkHostAddress "10.0.0.7"%string "car"%string [] (mkTokens []) (lab_service "audio"%string 3) 0)))
    (hs_step (OpRegisterLocal 1 (Some (mkHostRegisterReq "10.0.0.7"%string "car"%string EmptyString 0)) ["secret"%string]) (CHostServer_new 3 2)).1).1.
Example unregistered_host_not_announced : let I := lab_hs_indet in let E := lab_hs_env in
  let r := hs_step (OpUnregister (Some (mkHostAddress "10.0.0.7"%string "car"%string [] (mkTokens []) svc_empty 0))) lab_host_ready in
  (length (ex_mSvcAddrList (buildAddrTblForDownstreamHost lab_host_ready)), length (ex_mSvcAddrList (buildAddrTblForDownstreamHost r.1)),
   existsb (fun o => match o with HsExternal _ _ | HsPost _ _ => true | _ => false end) r.2) = (1%nat, 0%nat, false).
Proof. vm_compute. reflexivity. Qed.

(** The notice that a host is gone still lists its addresses. *)
Example lost_host_keeps_addresses : let I := lab_hs_indet in let E := lab_hs_env in
  let item := mkAddressItem "10.0.0.7"%string 60001 FDB_SOCKET_TCP "tcp://10.0.0.7:60001"%string 0 false 1 0 0 in
  let s := (hs_step (OpLocalReady 1 (Some (mkHostAddress "10.0.0.7"%string "car"%string [item] (mkTokens []) svc_empty 0))) lab_host_ready).1 in
  omap (fun o => match o with HsHostOnline None l => Some (map (fun a => length (ha_mAddressList a)) (hl_mAddressList l)) | _ => None end) (hs_step (OpHsOffline 1) s).2
  = [[1%nat]].
Proof. vm_compute. reflexivity. Qed.

Lemma host_boundary_witness : let s := default (CHostServer_new 3 2) (fst <$> lab_hs lab_ops) in
  length (ex_mSvcAddrList (@buildAddrTblForUpstreamHost lab_hs_indet s)) = 1%nat.
Proof.
  intros s. destruct (@host_boundary lab_hs_indet lab_hs_env s) as (_ & -> & _); [vm_compute; reflexivity|vm_compute; reflexivity|]. vm_compute. reflexivity.
Defined.

(** Two hosts register; the second one has to know the credential configured for it. *)
Definition lab_cred_env : HsEnv := mkHsEnv [] (fun _ => Some "10.0.0.7"%string) (fun _ => "10.0.0.1"%string)
  [("box"%string, mkHostSec 0 "key"%string []); ("car"%string, mkHostSec 0 EmptyString [])] "home"%string [1; 2].
Definition lab_two_ops (cred : string) : list HsOp :=
  [OpRegisterLocal 2 (Some (mkHostRegisterReq "10.0.0.8"%string "box"%string cred 1)) [];
   OpLocalReady 1 (Some (mkHostAddress "10.0.0.7"%string "car"%string [] (mkTokens []) (lab_service "audio"%string 3) 0));
   OpRegisterLocal 1 (Some (mkHostRegisterReq "10.0.0.7"%string "car"%string EmptyString 0)) ["secret"%string]].
Definition lab_two_hosts (cred : string) : CHostServer := let I := lab_hs_indet in let E := lab_cred_env in
  foldr (fun op s => (hs_step op s).1) (CHostServer_new 3 2) (lab_two_ops cred).


(** With another credential the host is told about the other one, but gets no token. *)
Example wrong_credential_no_token : let I := lab_hs_indet in let E := lab_cred_env in
  let told cred := map (fun o => match o with HsHostOnline _ l => map (fun a => tk_mTokens (ha_mTokenList a)) (hl_mAddressList l) | _ => [] end)
                     (hs_step (OpHostOnlineReg 2) (lab_two_hosts cred)).2 in
  told "key"%string = [[["secret"%string]]] /\ told "guess"%string = [[[]]].
Proof. vm_compute. split; reflexivity. Qed.
