(* ===== verification/HostProxy.v ===== *)
(** The name server's connection to a host server and to other name servers:
    src/server/CIntraHostProxy.cpp, src/server/CNameProxyContainer.cpp and
    src/server/CInterNameProxy.cpp.

    The host server tells a name server which hosts are online; the name server connects to the
    name servers of these hosts ([NameProxy], kept by address) and passes on the services of
    other domains to its clients. What is asked of the name server itself is [HpEnv], what is
    done to it or sent is [HpOut]. *)
From S2P Require Import Prelude StdMap CommonDefs Serializer Codec WireBase NsMessages SocketFactory SvcAddrUtils Subscribe.
Open Scope Z_scope.

(** ** Data *)

Record NameProxy := mkNameProxy { np_mHostName : string; np_mNsUrl : string; np_connected : bool }.

Record CIntraHostProxy := mkIntraHostProxy { ih_mNameProxyTbl : smap string NameProxy; ih_mSvcAddrTbl : list CFdbSvcAddress; ih_connected : bool; ih_mSelfIp : string }.

Class HpEnv := mkHpEnv {
  hv_hostName : string;
  hv_sameSubnet : string -> bool;
  hv_tcpSecure : bool;
  hv_maxLevel : Z;
  hv_isLocalService : CFdbSvcAddress -> bool }.

Inductive HpOut :=
  | HpHostsLocal (l : FdbMsgHostAddressList)                  (* NTF_HOST_ONLINE_LOCAL *)
  | HpRemoteDropped (host_name : string)                      (* notifyRemoteNameServerDrop *)
  | HpDisconnect (ip : string)
  | HpConnect (ip url : string) (tokens : option (list string))
  | HpService (type : SubscribeType) (to : option Z) (tokens : list string) (l : FdbMsgAddressList)
  | HpAddListener (ip : string) (monitor : bool) (instance_id : Z) (svc_name : string)
  | HpRemoveListener (ip : string) (monitor : bool) (instance_id : Z) (svc_name : string).

Implicit Types x : CIntraHostProxy.
Implicit Types it : FdbMsgAddressItem.

Definition ih_set_proxies p x : CIntraHostProxy := mkIntraHostProxy p (ih_mSvcAddrTbl x) (ih_connected x) (ih_mSelfIp x).

Section proxy.
Context {I : Indet} {E : HpEnv}.

(** ** The address of another name server *)

(** The best addresses found so far: not secure, and secure. *)
Abbreviation Slot := (option (string * string)).
Record NsSlots := mkSlots {
  sl_all : Slot * Slot; sl_best : Slot * Slot; sl_second : Slot * Slot; sl_fallback : Slot * Slot }.
Definition no_slots : NsSlots := mkSlots (None, None) (None, None) (None, None) (None, None).

(** A slot is filled once. *)
Definition fill (secure : bool) (v : string * string) (s : Slot * Slot) : Slot * Slot :=
  let keep o := match o with Some _ => o | None => Some v end in
  if secure then (s.1, keep s.2) else (keep s.1, s.2).

Definition take_slot (host_ip peer_ip : string) (s : NsSlots) it : NsSlots :=
  let ip := ai_mTCPIPCAddress it in
  let v := (c_str ip, c_str (ai_mTCPIPCUrl it)) in
  let secure := ai_mIsSecure it in
  if bool_decide (ip = FDB_LOCAL_HOST) then s
  else if bool_decide (ip = FDB_IP_ALL_INTERFACE) && negb (bool_decide (peer_ip = EmptyString)) && negb (bool_decide (peer_ip = FDB_LOCAL_HOST))
  then mkSlots (fill secure (c_str peer_ip, buildUrl_inet (Some (c_str peer_ip)) (ai_mTCPPort it) secure) (sl_all s)) (sl_best s) (sl_second s) (sl_fallback s)
  else if hv_sameSubnet (c_str ip) then mkSlots (sl_all s) (fill secure v (sl_best s)) (sl_second s) (sl_fallback s)
  else if bool_decide (ip = host_ip) then mkSlots (sl_all s) (sl_best s) (fill secure v (sl_second s)) (sl_fallback s)
  else mkSlots (sl_all s) (sl_best s) (sl_second s) (fill secure v (sl_fallback s)).

Definition select (secure : bool) (s : NsSlots) : Slot :=
  let f (p : Slot * Slot) := if secure then p.2 else p.1 in
  match f (sl_best s), f (sl_second s), f (sl_all s) with
  | Some v, _, _ => Some v
  | None, Some v, _ => Some v
  | None, None, Some v => Some v
  | None, None, None => f (sl_fallback s)
  end.

(** Address and URL; [None]: there is none. *)
Definition getNsAddress (a : FdbMsgHostAddress) (peer_ip : string) : Slot :=
  let s := foldl (take_slot (ha_mIpAddress a) peer_ip) no_slots (ha_mAddressList a) in
  if hv_tcpSecure then match select true s with Some v => Some v | None => select false s end else select false s.

(** ** Name servers of other hosts *)

(** [~CInterNameProxy] takes the proxy out of the table and tells the clients. *)
Definition deleteNameProxy (ip : string) x : CIntraHostProxy * list HpOut :=
  match m_find ip (ih_mNameProxyTbl x) with
  | Some p => (ih_set_proxies (m_erase ip (ih_mNameProxyTbl x)) x, [HpRemoteDropped (np_mHostName p)])
  | None => (x, [])
  end.
Definition isolate (ip : string) x : CIntraHostProxy * list HpOut :=
  let '(x, out) := deleteNameProxy ip x in (x, HpDisconnect ip :: out).

(** One host of the notice; [online] is [online_host_list]. *)
Definition notify_host (host_ip peer_ip : string) (a : FdbMsgHostAddress) (online : list string) x : CIntraHostProxy * list HpOut * list string :=
  match getNsAddress a peer_ip with
  | None => (x, [], online)
  | Some (ns_ip, ns_url) =>
      if bool_decide (ns_ip = host_ip) || bool_decide (ha_mHostName a = hv_hostName) || bool_decide (ns_ip = FDB_LOCAL_HOST) || bool_decide (ns_ip = FDB_IP_ALL_INTERFACE)
      then (x, [], online) else
      match ha_mAddressList a with
      | [] =>
          match m_find ns_ip (ih_mNameProxyTbl x) with
          | Some p => let '(x, out) := deleteNameProxy ns_ip x in (x, HpRemoteDropped (np_mHostName p) :: out, online)
          | None => (x, [], online)
          end
      | _ =>
          match m_find ns_ip (ih_mNameProxyTbl x) with
          | Some _ => (x, [], online ++ [ns_ip])
          | None =>
              (ih_set_proxies (m_set ns_ip (mkNameProxy (c_str (ha_mHostName a)) ns_url false) (ih_mNameProxyTbl x)) x,
               [HpConnect ns_ip ns_url (if FdbMsgHostAddress_has_token_list a then Some (tk_mTokens (ha_mTokenList a)) else None)], online ++ [ns_ip])
          end
      end
  end.

Fixpoint notify_hosts (host_ip peer_ip : string) (l : list FdbMsgHostAddress) (online : list string) x : CIntraHostProxy * list HpOut * list string :=
  match l with
  | [] => (x, [], online)
  | a :: l => let '(x, out, online) := notify_host host_ip peer_ip a online x in
              let '(x, out', online) := notify_hosts host_ip peer_ip l online x in (x, out ++ out', online)
  end.

Fixpoint isolate_all (ips : list string) x : CIntraHostProxy * list HpOut :=
  match ips with
  | [] => (x, [])
  | ip :: ips => let '(x, out) := isolate ip x in let '(x, out') := isolate_all ips x in (x, out ++ out')
  end.

(** [session] is the own and the peer address of the session, [initial] tells that the notice
    answers the subscription. *)
Definition onHostOnlineNotify (session : option (string * string)) (initial : bool) (notice : option FdbMsgHostAddressList) x : CIntraHostProxy * list HpOut :=
  match session, notice with
  | Some (host_ip, peer_ip), Some l =>
      let '(x, out, online) := notify_hosts host_ip peer_ip (hl_mAddressList l) [] x in
      let out := HpHostsLocal l :: out in
      match online with
      | _ :: _ => if initial then let '(x, out') := isolate_all (List.filter (fun ip => negb (existsb (String.eqb ip) online)) (ih_mNameProxyTbl x).*1) x in (x, out ++ out')
                  else (x, out)
      | [] => (x, out)
      end
  | _, _ => (x, [])
  end.

Definition hp_addNameProxy (ip : string) (p : NameProxy) x : CIntraHostProxy := ih_set_proxies (m_set ip p (ih_mNameProxyTbl x)) x.

(** ** Listening to services at other name servers *)

Definition forwardServiceListener (type : SubscribeType) (instance_id : Z) (name : string) x : list HpOut :=
  e ← ih_mNameProxyTbl x;
  if bool_decide (e.1 = FDB_IP_ALL_INTERFACE) || negb (np_connected e.2) then [] else [HpAddListener e.1 (bool_decide (type = INTRA_MONITOR)) instance_id name].
Definition recallServiceListener (type : SubscribeType) (instance_id : Z) (name : string) x : list HpOut :=
  e ← ih_mNameProxyTbl x;
  if bool_decide (e.1 = FDB_IP_ALL_INTERFACE) || negb (np_connected e.2) then [] else [HpRemoveListener e.1 (bool_decide (type = INTRA_MONITOR)) instance_id name].

(** [CInterNameProxy::onServiceBroadcast]: [subscribers] is the number of clients that listen,
    [initial] the client whose subscription is answered. *)
Definition onServiceBroadcast (type : SubscribeType) (code : Z) (l : FdbMsgAddressList) (subscribers : nat) (peer_ip : option string) (initial : option Z) x : list HpOut :=
  let forward := if bool_decide (type = INTER_NORMAL) then INTRA_NORMAL else INTRA_MONITOR in
  match subscribers with
  | O => recallServiceListener type code (c_str (al_mServiceName l)) x
  | S _ =>
      let l := validateUrl l peer_ip in
      let cleared := al_set_tokens l [] in
      [HpService forward initial (if bool_decide (forward = INTRA_NORMAL) then dumpTokens l [] else []) cleared]
  end.

(** ** Services of other domains *)

Definition broadcastOneExtService (remove : bool) (type : SubscribeType) (to : option Z) (e : CFdbSvcAddress) x : list HpOut :=
  if negb (ih_connected x) || hv_isLocalService e then []
  else let l := populateFromHostInfo e FdbMsgAddressList_new hv_maxLevel remove in
       [HpService type to (if bool_decide (type = INTRA_NORMAL) then dumpTokens l [] else []) (al_set_tokens l [])].

Definition shall_broadcast (instance_id : Z) (e : CFdbSvcAddress) : bool :=
  if fdbIsGroup instance_id then fdbEventInGroup instance_id FDB_EVENT_ALL_GROUPS || fdbSameGroup instance_id (sv_mInstanceId e)
  else sv_mInstanceId e =? instance_id.

Definition broadcastExternalService (tbl : list CFdbSvcAddress) (remove : bool) (type : SubscribeType) (instance_id : Z) (svc_name : option string) (to : option Z) x : list HpOut :=
  let name := c_str (cstr_or_empty svc_name) in
  if is_empty_str name then e ← tbl; broadcastOneExtService remove type to e x
  else e ← tbl; if String.eqb (sv_mSvcName e) name && shall_broadcast instance_id e then broadcastOneExtService remove type to e x else [].

(** [NTF_EXPORT_SVC_ADDRESS_INTERNAL] *)
Definition onExternalTable (t : option FdbMsgExportableSvcAddress) x : CIntraHostProxy * list HpOut :=
  match t with
  | None => (x, [])
  | Some t =>
      let '(added, removed) := compareSvcTable t (ih_mSvcAddrTbl x) in
      let tell tbl remove type := broadcastExternalService tbl remove type 0 None None x in
      (mkIntraHostProxy (ih_mNameProxyTbl x) (populateToHostInfo_tbl t []) (ih_connected x) (ih_mSelfIp x),
       tell added false INTRA_NORMAL ++ tell removed true INTRA_NORMAL ++ tell added false INTRA_MONITOR ++ tell removed true INTRA_MONITOR)
  end.
End proxy.

(** ** The choice of an address *)

Section address.
Context {I : Indet} {E : HpEnv}.

(** How good an address is: in a subnet of ours, the address of the host, any interface of a
    remote host, any other; loopback addresses are not usable. *)
Definition ns_rank (host_ip peer_ip : string) it : option nat :=
  let ip := ai_mTCPIPCAddress it in
  if bool_decide (ip = FDB_LOCAL_HOST) then None
  else if bool_decide (ip = FDB_IP_ALL_INTERFACE) && negb (bool_decide (peer_ip = EmptyString)) && negb (bool_decide (peer_ip = FDB_LOCAL_HOST)) then Some 2%nat
  else if hv_sameSubnet (c_str ip) then Some 0%nat
  else if bool_decide (ip = host_ip) then Some 1%nat
  else Some 3%nat.
Definition ns_value (host_ip peer_ip : string) it : string * string :=
  match ns_rank host_ip peer_ip it with
  | Some 2%nat => (c_str peer_ip, buildUrl_inet (Some (c_str peer_ip)) (ai_mTCPPort it) (ai_mIsSecure it))
  | _ => (c_str (ai_mTCPIPCAddress it), c_str (ai_mTCPIPCUrl it))
  end.

(** The first address of a rank and kind. *)
Definition first_of (host_ip peer_ip : string) (secure : bool) (r : nat) (l : list FdbMsgAddressItem) : option (string * string) :=
  ns_value host_ip peer_ip <$> find (fun it => bool_decide (ns_rank host_ip peer_ip it = Some r) && eqb (ai_mIsSecure it) secure) l.
Definition or_else {A} (x y : option A) : option A := match x with Some _ => x | None => y end.
Definition first_ranked (host_ip peer_ip : string) (secure : bool) (l : list FdbMsgAddressItem) : option (string * string) :=
  let f r := first_of host_ip peer_ip secure r l in or_else (f 0%nat) (or_else (f 1%nat) (or_else (f 2%nat) (f 3%nat))).

Definition slot (secure : bool) (p : option (string * string) * option (string * string)) : option (string * string) := if secure then p.2 else p.1.

Lemma slot_fill secure secure' v p : slot secure (fill secure' v p) = if eqb secure' secure then or_else (slot secure p) (Some v) else slot secure p.
Proof. by destruct secure, secure', p as [[] []]. Qed.

Definition put_slot (r : nat) (secure : bool) (v : string * string) (s : NsSlots) : NsSlots :=
  match r with
  | 0%nat => mkSlots (sl_all s) (fill secure v (sl_best s)) (sl_second s) (sl_fallback s)
  | 1%nat => mkSlots (sl_all s) (sl_best s) (fill secure v (sl_second s)) (sl_fallback s)
  | 2%nat => mkSlots (fill secure v (sl_all s)) (sl_best s) (sl_second s) (sl_fallback s)
  | _ => mkSlots (sl_all s) (sl_best s) (sl_second s) (fill secure v (sl_fallback s))
  end.

Lemma take_slot_rank host_ip peer_ip s it :
  take_slot host_ip peer_ip s it = match ns_rank host_ip peer_ip it with None => s | Some r => put_slot r (ai_mIsSecure it) (ns_value host_ip peer_ip it) s end.
Proof. unfold ns_value, take_slot, ns_rank. destruct (bool_decide (ai_mTCPIPCAddress it = FDB_LOCAL_HOST)); [done|]. repeat (case_match; try done). Qed.

Lemma rank_bound host_ip peer_ip it r : ns_rank host_ip peer_ip it = Some r -> (r < 4)%nat.
Proof. unfold ns_rank. repeat case_match; intros; simplify_eq; lia. Qed.

(** What the loop has in its slots. *)
Lemma slots_spec host_ip peer_ip secure l s :
  let s' := foldl (take_slot host_ip peer_ip) s l in let f := first_of host_ip peer_ip secure in
  slot secure (sl_best s') = or_else (slot secure (sl_best s)) (f 0%nat l) /\ slot secure (sl_second s') = or_else (slot secure (sl_second s)) (f 1%nat l) /\
  slot secure (sl_all s') = or_else (slot secure (sl_all s)) (f 2%nat l) /\ slot secure (sl_fallback s') = or_else (slot secure (sl_fallback s)) (f 3%nat l).
Proof.
  revert s. induction l as [|it l IH]; intros s; cbn [foldl].
  - unfold first_of. cbn. repeat split; by destruct (slot secure _).
  - cbn zeta in IH |- *. destruct (IH (take_slot host_ip peer_ip s it)) as (H1 & H2 & H3 & H4). rewrite H1, H2, H3, H4, take_slot_rank. clear IH H1 H2 H3 H4.
    unfold first_of. cbn [find]. set (v := ns_value host_ip peer_ip it). destruct (ns_rank host_ip peer_ip it) as [r|] eqn:Er; [|done].
    pose proof (rank_bound _ _ _ _ Er) as Hr. destruct r as [|[|[|[|r]]]]; [..|lia]; cbn [put_slot sl_all sl_best sl_second sl_fallback].
    all: rewrite ?slot_fill; destruct (eqb (ai_mIsSecure it) secure) eqn:Es; rewrite ?andb_false_r; cbn; try done.
    all: repeat split; try done; by repeat match goal with |- context [slot ?b ?p] => destruct (slot b p) end.
Qed.

Lemma select_slots secure s : select secure s = or_else (slot secure (sl_best s)) (or_else (slot secure (sl_second s)) (or_else (slot secure (sl_all s)) (slot secure (sl_fallback s)))).
Proof. unfold select, slot. by destruct secure; repeat case_match. Qed.

Lemma select_ranked host_ip peer_ip secure l : select secure (foldl (take_slot host_ip peer_ip) no_slots l) = first_ranked host_ip peer_ip secure l.
Proof. rewrite select_slots. destruct (slots_spec host_ip peer_ip secure l no_slots) as (-> & -> & -> & ->). by destruct secure. Qed.

Lemma address_spec a peer_ip : getNsAddress a peer_ip =
  (let f secure := first_ranked (ha_mIpAddress a) peer_ip secure (ha_mAddressList a) in if hv_tcpSecure then or_else (f true) (f false) else f false).
Proof. unfold getNsAddress. rewrite !select_ranked. by destruct (first_ranked _ _ true _). Qed.

Lemma first_of_some host_ip peer_ip secure r l v : first_of host_ip peer_ip secure r l = Some v ->
  exists it, it ∈ l /\ v = ns_value host_ip peer_ip it /\ ns_rank host_ip peer_ip it = Some r /\ ai_mIsSecure it = secure.
Proof.
  unfold first_of. destruct (find _ l) as [it|] eqn:Ef; [|done]. intros [= <-]. apply find_some in Ef as [Hin Hb]. apply andb_prop in Hb as [H1%bool_decide_eq_true H2%eqb_prop].
  exists it. split_and!; try done. by apply list_elem_of_In.
Qed.
Lemma first_of_none host_ip peer_ip secure r l it : first_of host_ip peer_ip secure r l = None -> it ∈ l -> ai_mIsSecure it = secure -> ns_rank host_ip peer_ip it <> Some r.
Proof.
  unfold first_of. destruct (find _ l) as [y|] eqn:Ef; [done|]. intros _ Hin Hs Hr. apply list_elem_of_In in Hin. pose proof (find_none _ _ Ef it Hin) as Hb. cbn in Hb.
  rewrite Hr, Hs, bool_decide_true, eqb_reflx in Hb; done.
Qed.

(** The best address of a kind: usable, of that kind, and no other is better. *)
Definition best_address (host_ip peer_ip : string) (secure : bool) (l : list FdbMsgAddressItem) (v : string * string) : Prop :=
  exists it r, it ∈ l /\ v = ns_value host_ip peer_ip it /\ ns_rank host_ip peer_ip it = Some r /\ ai_mIsSecure it = secure /\
    forall it' r', it' ∈ l -> ai_mIsSecure it' = secure -> ns_rank host_ip peer_ip it' = Some r' -> (r <= r')%nat.
Definition no_address (host_ip peer_ip : string) (secure : bool) (l : list FdbMsgAddressItem) : Prop :=
  forall it, it ∈ l -> ai_mIsSecure it = secure -> ns_rank host_ip peer_ip it = None.

Lemma first_ranked_best host_ip peer_ip secure l :
  match first_ranked host_ip peer_ip secure l with Some v => best_address host_ip peer_ip secure l v | None => no_address host_ip peer_ip secure l end.
Proof.
  unfold first_ranked. pose proof (fun r it => first_of_none host_ip peer_ip secure r l it) as Hn. pose proof (fun r v => first_of_some host_ip peer_ip secure r l v) as Hf.
  assert (forall r v, first_of host_ip peer_ip secure r l = Some v -> (forall q, (q < r)%nat -> first_of host_ip peer_ip secure q l = None) -> best_address host_ip peer_ip secure l v) as Hbest.
  { intros r v Hv Hq. destruct (Hf r v Hv) as (it & Hin & -> & Hr & Hs). exists it, r. split_and!; try done. intros it' r' Hin' Hs' Hr'.
    destruct (le_lt_dec r r') as [|Hlt]; [done|]. exfalso. by apply (Hn r' it' (Hq r' Hlt)). }
  destruct (first_of host_ip peer_ip secure 0 l) as [v|] eqn:E0; cbn [or_else]; [apply (Hbest 0%nat v E0); intros q Hq; lia|].
  destruct (first_of host_ip peer_ip secure 1 l) as [v|] eqn:E1; cbn [or_else]; [apply (Hbest 1%nat v E1); intros q Hq; by assert (q = 0%nat) as -> by lia|].
  destruct (first_of host_ip peer_ip secure 2 l) as [v|] eqn:E2; cbn [or_else]; [apply (Hbest 2%nat v E2); intros q Hq; by assert (q = 0 \/ q = 1)%nat as [-> | ->] by lia|].
  destruct (first_of host_ip peer_ip secure 3 l) as [v|] eqn:E3; [apply (Hbest 3%nat v E3); intros q Hq; by assert (q = 0 \/ q = 1 \/ q = 2)%nat as [-> | [-> | ->]] by lia|].
  intros it Hin Hs. destruct (ns_rank host_ip peer_ip it) as [r|] eqn:Er; [|done]. pose proof (rank_bound _ _ _ _ Er). exfalso.
  destruct r as [|[|[|[|r]]]]; [by apply (Hn 0%nat it E0)|by apply (Hn 1%nat it E1)|by apply (Hn 2%nat it E2)|by apply (Hn 3%nat it E3)|lia].
Qed.

End address.

(** The address a name server connects to another one with is the best there is: with
    secure channels enabled a secure one when there is any, otherwise one that is not secure;
    among these one in a subnet of its own before the address of the host, before any interface
    of a remote host, before others; never a loopback address; and it finds one whenever there is
    one it may use. *)
Theorem ns_address_best {E : HpEnv} (a : FdbMsgHostAddress) (peer_ip : string) :
  let ip := ha_mIpAddress a in let l := ha_mAddressList a in
  match getNsAddress a peer_ip with
  | Some v => (hv_tcpSecure = true /\ best_address ip peer_ip true l v) \/
              ((hv_tcpSecure = true -> no_address ip peer_ip true l) /\ best_address ip peer_ip false l v)
  | None => no_address ip peer_ip false l /\ (hv_tcpSecure = true -> no_address ip peer_ip true l)
  end.
Proof.
  intros ip l. rewrite address_spec. cbn zeta. fold ip l. pose proof (first_ranked_best ip peer_ip true l) as H1. pose proof (first_ranked_best ip peer_ip false l) as H2.
  destruct hv_tcpSecure; [destruct (first_ranked ip peer_ip true l) as [v|]; cbn [or_else]; [by left|]|]; destruct (first_ranked ip peer_ip false l); auto.
  - by right.
  - split; [done|by intros].
Qed.

(** ** The hosts that are online *)

Section notice.
Context {I : Indet} {E : HpEnv} (host_ip peer_ip : string).

(** The address the name server of a host is reached with: it has one, and it is not ours. *)
Definition reach (a : FdbMsgHostAddress) : option string :=
  '(ip, _) ← getNsAddress a peer_ip;
  if bool_decide (ip = host_ip) || bool_decide (ha_mHostName a = hv_hostName) || bool_decide (ip = FDB_LOCAL_HOST) || bool_decide (ip = FDB_IP_ALL_INTERFACE) then None else Some ip.

Lemma address_some a v : getNsAddress a peer_ip = Some v -> ha_mAddressList a <> [].
Proof. intros H Hl. unfold getNsAddress in H. rewrite Hl in H. cbn in H. by destruct hv_tcpSecure. Qed.

Definition connects (ip : string) (out : list HpOut) : Prop := exists url tokens, HpConnect ip url tokens ∈ out.
Definition disconnects (ip : string) (out : list HpOut) : Prop := HpDisconnect ip ∈ out.

Lemma connects_app ip o1 o2 : connects ip (o1 ++ o2) <-> connects ip o1 \/ connects ip o2.
Proof. unfold connects. setoid_rewrite elem_of_app. naive_solver. Qed.

(** What hosts that are reached do to the table. *)
Definition grown (reached : list string) x x' (out : list HpOut) : Prop :=
  m_sorted (ih_mNameProxyTbl x') /\
  (forall ip p, m_find ip (ih_mNameProxyTbl x) = Some p -> m_find ip (ih_mNameProxyTbl x') = Some p) /\
  (forall ip, m_find ip (ih_mNameProxyTbl x) = None -> (is_Some (m_find ip (ih_mNameProxyTbl x')) <-> ip ∈ reached)) /\
  (forall ip, connects ip out <-> m_find ip (ih_mNameProxyTbl x) = None /\ ip ∈ reached) /\
  (forall ip, ~ disconnects ip out).

Lemma grown_none x : m_sorted (ih_mNameProxyTbl x) -> grown [] x x [].
Proof.
  intros Hs. split_and!; try done.
  - intros ip ->. split; [by intros [? [=]]|by intros ?%elem_of_nil].
  - intros ip. split; [by intros (? & ? & ?%elem_of_nil)|by intros [_ ?%elem_of_nil]].
  - by intros ip ?%elem_of_nil.
Qed.

Lemma notify_host_grows a online x : m_sorted (ih_mNameProxyTbl x) ->
  exists x' out, notify_host host_ip peer_ip a online x = (x', out, online ++ option_list (reach a)) /\ grown (option_list (reach a)) x x' out.
Proof.
  intros Hs. unfold notify_host, reach. destruct (getNsAddress a peer_ip) as [[ip url]|] eqn:Ea; cbn [mbind option_bind]; [|exists x, []; rewrite app_nil_r; by split; [|apply grown_none]].
  destruct (_ || _); [exists x, []; cbn; rewrite app_nil_r; by split; [|apply grown_none]|]. cbn [option_list option_rect]. pose proof (address_some _ _ Ea) as Hne.
  destruct (ha_mAddressList a) as [|i l]; [done|]. destruct (m_find ip (ih_mNameProxyTbl x)) as [p|] eqn:Ef; eexists _, _; (split; [done|]); cbn [option_list option_rect].
  - split_and!; try done.
    + intros j Hj. rewrite Hj, list_elem_of_singleton. split; [by intros [? [=]]|]. intros ->. congruence.
    + intros j. rewrite list_elem_of_singleton. split; [by intros (? & ? & ?%elem_of_nil)|]. intros [? ->]. congruence.
    + by intros j ?%elem_of_nil.
  - unfold grown. cbn [ih_mNameProxyTbl ih_set_proxies]. split_and!.
    + by apply m_sorted_set.
    + intros j p Hj. rewrite m_find_set_ne; [done|intros ->; congruence|done].
    + intros j Hj. rewrite list_elem_of_singleton. destruct (decide (j = ip)) as [->|Hjn]; [rewrite m_find_set; split; [done|by eexists]|].
      rewrite m_find_set_ne, Hj by done. split; [by intros [? [=]]|done].
    + intros j. rewrite list_elem_of_singleton. unfold connects. setoid_rewrite list_elem_of_singleton. naive_solver.
    + intros j ?%list_elem_of_singleton. done.
Qed.

Lemma grown_app l1 l2 x x1 x2 o1 o2 : grown l1 x x1 o1 -> grown l2 x1 x2 o2 -> grown (l1 ++ l2) x x2 (o1 ++ o2).
Proof.
  intros (_ & K1 & N1 & C1 & D1) (S2 & K2 & N2 & C2 & D2).
  assert (forall ip, m_find ip (ih_mNameProxyTbl x1) = None <-> m_find ip (ih_mNameProxyTbl x) = None /\ ip ∉ l1) as Hnone.
  { intros ip. destruct (m_find ip (ih_mNameProxyTbl x)) as [p|] eqn:Ex; [rewrite (K1 _ _ Ex); naive_solver|]. specialize (N1 ip Ex). destruct (m_find ip (ih_mNameProxyTbl x1)); naive_solver. }
  split_and!; try done.
  - intros ip p Hp. auto.
  - intros ip Hip. rewrite elem_of_app. destruct (decide (ip ∈ l1)) as [Hin|Hin].
    + split; [auto|]. intros _. destruct (proj2 (N1 ip Hip) Hin) as [p Hp]. exists p. auto.
    + rewrite N2 by (by apply Hnone). naive_solver.
  - intros ip. rewrite connects_app, C1, C2, Hnone, elem_of_app. destruct (decide (ip ∈ l1)); naive_solver.
  - intros ip [?|?]%elem_of_app; [by apply (D1 ip)|by apply (D2 ip)].
Qed.

Lemma notify_hosts_grow l : forall online x, m_sorted (ih_mNameProxyTbl x) ->
  exists x' out, notify_hosts host_ip peer_ip l online x = (x', out, online ++ omap reach l) /\ grown (omap reach l) x x' out.
Proof.
  induction l as [|a l IH]; intros online x Hs; cbn [notify_hosts].
  - exists x, []. cbn. rewrite app_nil_r. by split; [|apply grown_none].
  - destruct (notify_host_grows a online x Hs) as (x1 & o1 & -> & G1). destruct (IH (online ++ option_list (reach a)) x1 (proj1 G1)) as (x2 & o2 & -> & G2).
    exists x2, (o1 ++ o2). replace (omap reach (a :: l)) with (option_list (reach a) ++ omap reach l) by (cbn; by destruct (reach a)).
    rewrite <- app_assoc. split; [done|by eapply grown_app].
Qed.

(** Proxies of hosts that are gone are taken out. *)
Lemma isolate_all_spec ips : forall x, m_sorted (ih_mNameProxyTbl x) ->
  exists x' out, isolate_all ips x = (x', out) /\ m_sorted (ih_mNameProxyTbl x') /\
    (forall ip, m_find ip (ih_mNameProxyTbl x') = if bool_decide (ip ∈ ips) then None else m_find ip (ih_mNameProxyTbl x)) /\
    (forall ip, disconnects ip out <-> ip ∈ ips) /\ (forall ip, ~ connects ip out).
Proof.
  induction ips as [|k ips IH]; intros x Hs; cbn [isolate_all].
  - exists x, []. split_and!; try done.
    + intros ip. unfold disconnects. by rewrite !elem_of_nil.
    + by intros ip (? & ? & ?%elem_of_nil).
  - unfold isolate, deleteNameProxy. set (y := ih_set_proxies (m_erase k (ih_mNameProxyTbl x)) x).
    assert (m_sorted (ih_mNameProxyTbl y)) as Hy by (by apply m_sorted_erase).
    assert (forall z, z = x \/ z = y -> m_sorted (ih_mNameProxyTbl z)) as Hz by naive_solver.
    assert (exists z o, (let '(x0, out) := match m_find k (ih_mNameProxyTbl x) with Some p => (y, [HpRemoteDropped (np_mHostName p)]) | None => (x, []) end in (x0, HpDisconnect k :: out)) = (z, HpDisconnect k :: o) /\
      m_sorted (ih_mNameProxyTbl z) /\ (forall ip, m_find ip (ih_mNameProxyTbl z) = if bool_decide (ip = k) then None else m_find ip (ih_mNameProxyTbl x)) /\ (forall e, e ∈ o -> exists h, e = HpRemoteDropped h)) as (z & o & -> & Sz & Fz & Ho).
    { destruct (m_find k (ih_mNameProxyTbl x)) as [p|] eqn:Ek; eexists _, _; (split; [done|]); (split; [auto|]); split.
      - intros ip. cbn [y ih_mNameProxyTbl ih_set_proxies]. case_bool_decide as Hi; [subst; by apply m_find_erase|by apply m_find_erase_ne].
      - intros e ->%list_elem_of_singleton. by eexists.
      - intros ip. case_bool_decide as Hi; [by subst|done].
      - by intros e ?%elem_of_nil. }
    destruct (IH z Sz) as (x' & out & -> & S' & F' & D' & C'). eexists _, _. split; [done|]. split_and!; try done.
    + intros ip. rewrite F', Fz. repeat case_bool_decide; set_solver.
    + intros ip. unfold disconnects in *. rewrite elem_of_app, !elem_of_cons, D'. split; [intros [[[= ->]|Hin]|?]; auto; by destruct (Ho _ Hin)|naive_solver].
    + intros ip (u & t & [[|Hin]%elem_of_cons|Hin]%elem_of_app); [done|by destruct (Ho _ Hin)|]. apply (C' ip). by exists u, t.
Qed.
Lemma existsb_mem (ip : string) l : existsb (String.eqb ip) l = bool_decide (ip ∈ l).
Proof.
  apply eq_true_iff_eq. rewrite existsb_exists, bool_decide_eq_true, list_elem_of_In. setoid_rewrite String.eqb_eq. naive_solver.
Qed.

Lemma gone_spec (reached : list string) (m : smap string NameProxy) ip : m_sorted m ->
  ip ∈ List.filter (fun ip => negb (existsb (String.eqb ip) reached)) m.*1 <-> is_Some (m_find ip m) /\ ip ∉ reached.
Proof.
  intros Hs. rewrite list_elem_of_In, filter_In, <- list_elem_of_In, existsb_mem, negb_true_iff, bool_decide_eq_false, list_elem_of_fmap. split.
  - intros ([[k p] [-> Hin]] & Hn). split; [|done]. exists p. by apply m_find_In.
  - intros ([p Hp] & Hn). split; [|done]. exists (ip, p). split; [done|]. by apply m_find_In.
Qed.

Lemma match_ne {A B} (l : list A) (a b : B) : l <> [] -> match l with [] => a | _ :: _ => b end = b.
Proof. by destruct l. Qed.
Lemma match_keep {A B} (l : list A) (b : bool) (k y : B) : ~ (b = true /\ l <> []) -> match l with [] => k | _ :: _ => if b then y else k end = k.
Proof. destruct l, b; naive_solver. Qed.
End notice.

(** C24: What a notice of the host server about the hosts that are online does: the name server
    has a proxy for each host it reaches, in addition to the ones it had, which it keeps; it
    connects to the new ones and only to these. The first notice after the connection to the host
    server replaces the table: proxies of hosts it does not name are taken out and disconnected,
    unless it reaches no host at all. *)
Theorem online_hosts_have_proxies {E : HpEnv} (host_ip peer_ip : string) (initial : bool) (l : FdbMsgHostAddressList) (x : CIntraHostProxy) :
  m_sorted (ih_mNameProxyTbl x) ->
  let reached := omap (reach host_ip peer_ip) (hl_mAddressList l) in
  let dropped ip := initial && negb (bool_decide (reached = [])) && negb (bool_decide (ip ∈ reached)) in
  exists x' out, onHostOnlineNotify (Some (host_ip, peer_ip)) initial (Some l) x = (x', out) /\ m_sorted (ih_mNameProxyTbl x') /\
    forall ip, match m_find ip (ih_mNameProxyTbl x) with
               | Some p => m_find ip (ih_mNameProxyTbl x') = (if dropped ip then None else Some p)
               | None => is_Some (m_find ip (ih_mNameProxyTbl x')) <-> ip ∈ reached
               end /\
               (connects ip out <-> m_find ip (ih_mNameProxyTbl x) = None /\ ip ∈ reached) /\
               (disconnects ip out <-> is_Some (m_find ip (ih_mNameProxyTbl x)) /\ dropped ip = true).
Proof.
  intros Hs reached dropped. unfold onHostOnlineNotify. destruct (notify_hosts_grow host_ip peer_ip (hl_mAddressList l) [] x Hs) as (x1 & o1 & -> & S1 & K1 & N1 & C1 & D1).
  cbn [app]. fold reached in N1, C1 |- *.
  assert (forall ip, connects ip (HpHostsLocal l :: o1) <-> connects ip o1) as Hc by (intros; unfold connects; setoid_rewrite elem_of_cons; naive_solver).
  assert (forall ip, ~ disconnects ip (HpHostsLocal l :: o1)) as Hd by (intros ip [|]%elem_of_cons; [done|by apply (D1 ip)]).
  destruct (decide (initial = true /\ reached <> [])) as [[-> Hne]|Hk].
  - rewrite match_ne by done.
    destruct (isolate_all_spec (List.filter (fun ip => negb (existsb (String.eqb ip) reached)) (ih_mNameProxyTbl x1).*1) x1 S1) as (x2 & o2 & -> & S2 & F2 & D2 & C2).
    exists x2, ((HpHostsLocal l :: o1) ++ o2). split; [done|]. split; [done|]. intros ip.
    pose proof (gone_spec reached _ ip S1) as Hg. assert (dropped ip = negb (bool_decide (ip ∈ reached))) as -> by (unfold dropped; by rewrite bool_decide_false).
    rewrite F2, connects_app, Hc, C1. unfold disconnects in *. rewrite elem_of_app, D2, Hg, negb_true_iff, bool_decide_eq_false. specialize (C2 ip). specialize (Hd ip).
    destruct (m_find ip (ih_mNameProxyTbl x)) as [p|] eqn:Ex.
    + rewrite (K1 _ _ Ex) in *. split; [|naive_solver]. repeat case_bool_decide; naive_solver.
    + specialize (N1 ip Ex). rewrite N1 in *. split; [case_bool_decide; naive_solver|naive_solver].
  - assert (forall ip, dropped ip = false) as Hdrop by (intros ip; unfold dropped; destruct initial; [|done]; cbn [andb]; case_bool_decide; [done|naive_solver]).
    rewrite match_keep by done.
    eexists _, _. split; [done|]. split; [done|]. intros ip. rewrite Hdrop, Hc, C1. specialize (Hd ip). destruct (m_find ip (ih_mNameProxyTbl x)) as [p|] eqn:Ex.
    + rewrite (K1 _ _ Ex). naive_solver.
    + rewrite (N1 ip Ex). naive_solver.
Qed.

(** Host b is new, host a has a proxy already, host c is not named any more. *)
Definition lab_proxy_env : HpEnv := mkHpEnv "me"%string (fun _ => false) false 0 (fun _ => false).
Definition lab_host (ip name : string) : FdbMsgHostAddress :=
  mkHostAddress ip name [mkAddressItem ip 60002 FDB_SOCKET_TCP (("tcp://" ++ ip ++ ":60002")%string) 0 false 0 0 0] (mkTokens []) (mkExportableSvcAddress []) 0.
Definition lab_notice : FdbMsgHostAddressList := mkHostAddressList [lab_host "10.0.0.1"%string "a"%string; lab_host "10.0.0.2"%string "b"%string; lab_host "10.0.0.9"%string "me"%string] (mkExportableSvcAddress []).
Definition lab_proxies : CIntraHostProxy :=
  mkIntraHostProxy [("10.0.0.1"%string, mkNameProxy "a"%string "tcp://10.0.0.1:60002"%string true); ("10.0.0.3"%string, mkNameProxy "c"%string "tcp://10.0.0.3:60002"%string true)] [] true "10.0.0.9"%string.
Lemma online_hosts_have_proxies_witness :
  let '(x, out) := @onHostOnlineNotify lab_proxy_env (Some ("10.0.0.9"%string, "10.0.0.254"%string)) true (Some lab_notice) lab_proxies in
  is_Some (m_find "10.0.0.1"%string (ih_mNameProxyTbl x)) /\ is_Some (m_find "10.0.0.2"%string (ih_mNameProxyTbl x)) /\ m_find "10.0.0.3"%string (ih_mNameProxyTbl x) = None /\
  connects "10.0.0.2"%string out /\ disconnects "10.0.0.3"%string out.
Proof.
  destruct (@online_hosts_have_proxies lab_proxy_env "10.0.0.9"%string "10.0.0.254"%string true lab_notice lab_proxies ltac:(repeat constructor)) as (x & out & -> & _ & H).
  destruct (H "10.0.0.1"%string) as (H1 & _ & _), (H "10.0.0.2"%string) as (H2 & C2 & _), (H "10.0.0.3"%string) as (H3 & _ & D3). clear H. vm_compute in H1, H3.
  assert ("10.0.0.2"%string ∈ omap (@reach lab_proxy_env "10.0.0.9" "10.0.0.254") (hl_mAddressList lab_notice)) as Hr by (apply (bool_decide_unpack _); vm_compute; exact I).
  split; [exists (mkNameProxy "a"%string "tcp://10.0.0.1:60002"%string true); exact H1|]. split; [exact (proj2 H2 Hr)|]. split; [exact H3|].
  split; [exact (proj2 C2 (conj eq_refl Hr))|]. apply D3. split; [by eexists|vm_compute; reflexivity].
Defined.

(** A listener for monitors that nobody needs any more is taken back as one for clients. *)
Example recall_wrong_listener :
  onServiceBroadcast INTER_MONITOR 0 (mkAddressList EmptyString EmptyString EmptyString EmptyString 0 true 0 [] (mkTokens []) 0) 0 None None lab_proxies
  = [HpRemoveListener "10.0.0.1"%string false 0 EmptyString; HpRemoveListener "10.0.0.3"%string false 0 EmptyString].
Proof. vm_compute. reflexivity. Qed.
