(* ===== verification/IntraNameProxy.v ===== *)
(** The connection of a process to the name server: [CIntraNameProxy] of
    src/fdbus/CIntraNameProxy.cpp and [CBaseNameProxy] of src/utils/CBaseNameProxy.cpp.

    The proxy lives in the default context. What the name server announces it hands on to every
    context as a job; the job goes through the endpoints of its context and lets clients connect
    ([doConnectToServer]) or a server bind its addresses ([doBindAddress]). The endpoints are
    those of Endpoint: a job runs their operations, and [None] is again an access to memory that
    has been freed. What is sent to the name server, given to a context or told the application
    is [NpOut]. *)
From S2P Require Import Prelude CommonDefs StdMap Serializer Codec WireBase NsMessages Subscribe EventObject SocketFactory SvcAddrUtils Session Security UdpSession EventLoop Watchdog Endpoint EndpointProofs EndpointReach Context.
Open Scope Z_scope.

(** ** Data *)

(** [CConnectionInfo] *)
Record ConnInfo := mkConnInfo {
  ci_mSvcName : string; ci_mInstanceId : Z; ci_mEndpointName : string; ci_mHostName : string; ci_mDomainName : string; ci_mIsLocal : bool }.

(** An endpoint of a context: its number, its name, the flags and the export level it registers
    with, [validSvcName] of a server, [mIsLocal] and [connectionEnabled] of a client. *)
Record NpEndpoint := mkNpEndpoint {
  ne_epid : Z; ne_mName : string; ne_tcp : bool; ne_mExportableLevel : Z; ne_validSvcName : bool; ne_mIsLocal : bool;
  ne_enabled : ConnInfo -> bool; ne_env : EpEnv; ne_ep : Endpoint }.

(** The jobs it gives to contexts. *)
Inductive NpJob :=
  | JobConnect (l : FdbMsgAddressList) (is_init_response : bool) (ep_id : Z)
  | JobBind (l : FdbMsgAddressList) (force_rebind : bool) (ep_id : Z)
  | JobQuery.

Inductive NpOut :=
  | NpListen (instance_id : Z) (svc_name : string) (ctx_id ep_id : Z)     (* INTRA_NORMAL *)
  | NpUnlisten (instance_id : Z) (svc_name : string)
  | NpListenAddress (instance_id : Z) (svc_name : string)                 (* MORE_ADDRESS *)
  | NpUnlistenAddress (instance_id : Z) (svc_name : string)
  | NpAlloc (m : FdbMsgServerName) (ctx_id ep_id : Z)                     (* REQ_ALLOC_SERVICE_ADDRESS *)
  | NpUnregister (m : FdbMsgServerName)                                   (* REQ_UNREGISTER_SERVICE *)
  | NpRegister (m : FdbMsgAddrBindResults)                                (* REQ_REGISTER_SERVICE *)
  | NpSubscribe (codes : list Z)
  | NpGive (ctx_id : Z) (job : NpJob)
  | NpInterface (ep_id skid interface_id : Z)                             (* setInterfaceId *)
  | NpEp (ep_id : Z) (out : EpOut)
  | NpHostName (name : string)
  | NpDropped (l : list (string * Z))                                     (* the watchdog listener *)
  | NpMonitor (l : FdbMsgAddressList)
  | NpConnect (url : string).

Abbreviation Ctx := (smap Z NpEndpoint).

(** [np_timer]: the timer that connects again is running. *)
Record CIntraNameProxy := mkIntraNameProxy {
  np_isConnected : bool; np_mEnableReconnectToNS : bool; np_timer : bool; np_mNsUrl : string; np_mHostName : string;
  np_listener : bool; np_contexts : smap Z Ctx }.

Implicit Types e : NpEndpoint.
Implicit Types x : CIntraNameProxy.
Implicit Types l : FdbMsgAddressList.

Definition ne_set_ep (ep : Endpoint) e : NpEndpoint :=
  mkNpEndpoint (ne_epid e) (ne_mName e) (ne_tcp e) (ne_mExportableLevel e) (ne_validSvcName e) (ne_mIsLocal e) (ne_enabled e) (ne_env e) ep.
Definition ne_set_valid (b : bool) e : NpEndpoint :=
  mkNpEndpoint (ne_epid e) (ne_mName e) (ne_tcp e) (ne_mExportableLevel e) b (ne_mIsLocal e) (ne_enabled e) (ne_env e) (ne_ep e).
Definition ne_set_local (b : bool) e : NpEndpoint :=
  mkNpEndpoint (ne_epid e) (ne_mName e) (ne_tcp e) (ne_mExportableLevel e) (ne_validSvcName e) b (ne_enabled e) (ne_env e) (ne_ep e).
Definition ne_role e : EFdbEndpointRole := ep_role (ne_ep e).
Definition ne_set_instance (id : Z) e : NpEndpoint := ne_set_ep (ep_set_name (ep_mNsName (ne_ep e)) id (ne_ep e)) e.

(** An operation of the endpoint. *)
Definition ne_run {A} (m : EM A) e : option (A * NpEndpoint * list NpOut) :=
  match m (ne_ep e) with Some (r, ep, out) => Some (r, ne_set_ep ep e, map (NpEp (ne_epid e)) out) | None => None end.

(** ** Requests *)

Definition listenOnService (instance_id : Z) (svc_name : string) (ctx_id ep_id : Z) x : list NpOut :=
  if np_isConnected x then [NpListen instance_id (c_str svc_name) ctx_id ep_id] else [].
Definition np_removeServiceListener (instance_id : Z) (svc_name : string) x : list NpOut :=
  if np_isConnected x then [NpUnlisten instance_id (c_str svc_name)] else [].
Definition addAddressListener (instance_id : Z) (svc_name : string) x : list NpOut :=
  if np_isConnected x then [NpListenAddress instance_id (c_str svc_name)] else [].
Definition removeAddressListener (instance_id : Z) (svc_name : string) x : list NpOut :=
  if np_isConnected x then [NpUnlistenAddress instance_id (c_str svc_name)] else [].

Definition server_name (e : NpEndpoint) : FdbMsgServerName :=
  let m := mkServerName (ep_mNsName (ne_ep e)) (ne_mName e) 0 (ne_mExportableLevel e) (ep_mInstanceId (ne_ep e)) in
  sn_set_flag (sn_set_flag m FDB_NS_ALLOW_TCP_NORMAL (ne_tcp e)) FDB_NS_ALLOW_TCP_SECURE (@ev_tcp_secure (ne_env e)).
Definition registerService (ctx_id : Z) e x : list NpOut :=
  if np_isConnected x then [NpAlloc (server_name e) ctx_id (ne_epid e)] else [].
Definition unregisterService e x : list NpOut :=
  if np_isConnected x
  then [NpUnregister (mkServerName (ep_mNsName (ne_ep e)) EmptyString 0 FDB_EXPORTABLE_NODE_INTERNAL (ep_mInstanceId (ne_ep e)))] else [].

(** ** Connecting clients *)

Definition FDB_INET_PORT_NOBIND : Z := -1.

Definition hostConnected (host_name : string) (ep : Endpoint) : bool :=
  existsb (fun e : Z * EpSock => match ek_host e.2 with Some h => String.eqb h host_name | None => false end) (mEntryContainer (co_sockets (ep_core ep))).

Record Tally := mkTally { ta_udp_failure : bool; ta_udp_success : bool; ta_tcp_failure : bool }.
Definition no_tally : Tally := mkTally false false false.

(** [getUDPSocketInfo] of a socket gives a port. *)
Definition udp_port_of (k : EpSock) : option Z :=
  u ← ek_udp k; if FDB_VALID_PORT (us_mPort u) then Some (us_mPort u) else None.

Definition item_udp_port (it : FdbMsgAddressItem) : Z := if FdbMsgAddressItem_has_udp_port it then ai_mUDPPort it else FDB_INET_PORT_INVALID.

Definition connect_item (host_name : string) (it : FdbMsgAddressItem) (t : Tally) e : option (NpEndpoint * list NpOut * Tally) :=
  let udp_port := item_udp_port it in
  '(r, e, out) ← ne_run (@connect_url (ne_env e) (Some (c_str (ai_mTCPIPCUrl it))) (Some host_name) udp_port) e;
  match r with
  | None => Some (e, out, mkTally (ta_udp_failure t) (ta_udp_success t) true)
  | Some skid =>
      k ← co_sock skid (ep_core (ne_ep e));
      let t := if @ev_udp (ne_env e) && negb (bool_decide (ai_mType it = FDB_SOCKET_IPC)) && (FDB_INET_PORT_NOBIND <? udp_port)
               then match udp_port_of k with
                    | None => mkTally true (ta_udp_success t) (ta_tcp_failure t)
                    | Some _ => mkTally (ta_udp_failure t) true (ta_tcp_failure t)
                    end
               else t in
      Some (e, out ++ [NpInterface (ne_epid e) skid (ai_mInterfaceId it)], t)
  end.

Fixpoint connect_items (host_name : string) (items : list FdbMsgAddressItem) (t : Tally) e : option (NpEndpoint * list NpOut * Tally) :=
  match items with
  | [] => Some (e, [], t)
  | it :: items => '(e, out, t) ← connect_item host_name it t e; '(e, out', t) ← connect_items host_name items t e; Some (e, out ++ out', t)
  end.

(** What a client takes over of the announcement. *)
Definition adopt l e : NpEndpoint :=
  let e := if fdbIsGroup (ep_mInstanceId (ne_ep e)) then ne_set_instance (al_mInstanceId l) e else e in
  let e := if FdbMsgAddressList_has_token_list l then ne_set_ep (ep_importTokens (tk_mTokens (al_mTokenList l)) (ne_ep e)).2 e else e in
  ne_set_local (al_mIsLocal l) e.

Definition doConnectToAddress l e : option (NpEndpoint * list NpOut * Tally) :=
  connect_items (c_str (al_mHostName l)) (al_mAddressList l) no_tally (adopt l e).

(** The endpoint has the name and the instance of the service, and is the one that asked. *)
Definition np_match (role : EFdbEndpointRole) (l : FdbMsgAddressList) e : bool :=
  bool_decide (ne_role e = role) && String.eqb (ep_mNsName (ne_ep e)) (c_str (al_mServiceName l)) &&
  (fdbIsGroup (ep_mInstanceId (ne_ep e)) || (ep_mInstanceId (ne_ep e) =? al_mInstanceId l)).
Definition np_asked (ep_id : Z) e : bool := negb (valid_epid ep_id) || (ep_id =? ne_epid e).

Definition conn_info l : ConnInfo :=
  mkConnInfo (al_mServiceName l) (al_mInstanceId l) (al_mEndpointName l) (al_mHostName l) (al_mDomainName l) (al_mIsLocal l).

(** One endpoint of the loop. *)
Definition connect_client (ep_id : Z) l e : option (NpEndpoint * list NpOut * Tally) :=
  if negb (np_match FDB_OBJECT_ROLE_CLIENT l e && np_asked ep_id e) then Some (e, [], no_tally) else
  match al_mAddressList l with
  | [] => if hostConnected (c_str (al_mHostName l)) (ne_ep e)
          then '(_, e, out) ← ne_run (@doDisconnect (ne_env e) FDB_INVALID_ID) e; Some (e, out, no_tally)
          else Some (e, [], no_tally)
  | _ => if ne_enabled e (conn_info l) then doConnectToAddress l e else Some (e, [], no_tally)
  end.

Fixpoint connect_clients (ep_id : Z) l (cx : Ctx) : option (Ctx * list NpOut * list Tally) :=
  match cx with
  | [] => Some ([], [], [])
  | (id, e) :: cx => '(e, out, t) ← connect_client ep_id l e; '(cx, out', ts) ← connect_clients ep_id l cx; Some ((id, e) :: cx, out ++ out', t :: ts)
  end.

Definition tallies (f : Tally -> bool) (ts : list Tally) : nat := length (List.filter f ts).

(** How often the name server is asked for another UDP port. *)
Definition nr_request (is_offline is_init_response : bool) (ts : list Tally) : nat :=
  let udp_failure := tallies ta_udp_failure ts in
  let udp_success := tallies ta_udp_success ts in
  let tcp_failure := tallies ta_tcp_failure ts in
  if is_offline || (udp_failure =? 0)%nat then 0%nat else
  let nr := if negb is_init_response then udp_failure else if (udp_success =? 0)%nat then 1%nat else 0%nat in
  if negb (tcp_failure =? 0)%nat && (nr =? 0)%nat then 1%nat else nr.

Definition doConnectToServer (ctx_id ep_id : Z) l (is_init_response : bool) x (cx : Ctx) : option (Ctx * list NpOut) :=
  '(cx, out, ts) ← connect_clients ep_id l cx;
  let nr := nr_request (bool_decide (al_mAddressList l = [])) is_init_response ts in
  Some (cx, out ++ concat (replicate nr (listenOnService (al_mInstanceId l) (c_str (al_mServiceName l)) ctx_id ep_id x))).

(** ** Binding servers *)

Section bind.
(** The operating system: whether a URL can be bound, and the port a socket is bound to. *)
Variable bound : string -> bool.
Variable port_of : Z -> Z.

(** One address: what is reported of it. *)
Definition bind_item (it : FdbMsgAddressItem) e : option (NpEndpoint * list NpOut * FdbAddrBindStatus) :=
  let url := ai_mTCPIPCUrl it in
  '(r, e, out) ← ne_run (@doBind (ne_env e) (bound (c_str url)) (Some (c_str url)) (item_udp_port it)) e;
  match r with
  | None => Some (e, out, mkAddrBindStatus url EmptyString 0)
  | Some skid =>
      k ← co_sock skid (ep_core (ne_ep e));
      let tcp := bool_decide (ai_mType it = FDB_SOCKET_TCP) in
      let address := if tcp && negb (ai_mTCPPort it =? port_of skid)
                     then buildUrl_inet (Some (c_str (ai_mTCPIPCAddress it))) (port_of skid) (ai_mIsSecure it) else url in
      let udp_port := if tcp && @ev_udp (ne_env e) then default FDB_INET_PORT_INVALID (udp_port_of k) else FDB_INET_PORT_INVALID in
      Some (e, out ++ [NpInterface (ne_epid e) skid (ai_mInterfaceId it)], mkAddrBindStatus url address udp_port)
  end.

Fixpoint bind_items (items : list FdbMsgAddressItem) e : option (NpEndpoint * list NpOut * list FdbAddrBindStatus) :=
  match items with
  | [] => Some (e, [], [])
  | it :: items => '(e, out, b) ← bind_item it e; '(e, out', bs) ← bind_items items e; Some (e, out ++ out', b :: bs)
  end.

(** The server binds and reports. *)
Definition bind_server l (force_rebind : bool) e : option (NpEndpoint * list NpOut) :=
  let e := if fdbIsGroup (ep_mInstanceId (ne_ep e)) then ne_set_instance (al_mInstanceId l) e else e in
  let '(need_update, ep) := if FdbMsgAddressList_has_token_list l then ep_importTokens (tk_mTokens (al_mTokenList l)) (ne_ep e) else (false, ne_ep e) in
  let e := ne_set_ep ep e in
  '(_, e, out1) ← ne_run (em_when need_update updateSecurityLevel) e;
  '(_, e, out2) ← ne_run (em_when force_rebind (@deleteSocket (ne_env e) FDB_INVALID_ID)) e;
  '(e, out3, bs) ← bind_items (al_mAddressList l) e;
  Some (e, out1 ++ out2 ++ out3 ++ [NpRegister (mkAddrBindResults (al_mServiceName l) bs (al_mInstanceId l))]).

(** The first server of the context with the name; others are not asked. *)
Fixpoint doBindAddress (ctx_id ep_id : Z) l (force_rebind : bool) x (cx : Ctx) : option (Ctx * list NpOut) :=
  match cx with
  | [] => Some ([], [])
  | (id, e) :: cx' =>
      let skip := '(cx', out) ← doBindAddress ctx_id ep_id l force_rebind x cx'; Some ((id, e) :: cx', out) in
      if negb (np_match FDB_OBJECT_ROLE_SERVER l e) then skip
      else if valid_epid ep_id then
        if ep_id =? ne_epid e then '(e, out) ← bind_server l force_rebind (ne_set_valid true e); Some ((id, e) :: cx', out) else skip
      else if ne_validSvcName e then '(e, out) ← bind_server l force_rebind e; Some ((id, e) :: cx', out)
      else Some ((id, e) :: cx', NpRegister (mkAddrBindResults (al_mServiceName l) [] (al_mInstanceId l)) :: registerService ctx_id e x)
  end.

(** ** Jobs *)

Definition callQueryServiceAddress (cx : Ctx) : option (Ctx * list NpOut) :=
  foldr (fun '(id, e) acc => '(_, e, out) ← ne_run (@requestServiceAddress (ne_env e) None FDB_DEFAULT_INSTANCE) e; '(cx, out') ← acc; Some ((id, e) :: cx, out ++ out'))
    (Some ([], [])) cx.

(** A context runs a job it was given. *)
Definition run_job (ctx_id : Z) (job : NpJob) x : option (CIntraNameProxy * list NpOut) :=
  match m_find ctx_id (np_contexts x) with
  | None => Some (x, [])
  | Some cx =>
      '(cx, out) ← match job with
                   | JobConnect l is_init_response ep_id => doConnectToServer ctx_id ep_id l is_init_response x cx
                   | JobBind l force_rebind ep_id => doBindAddress ctx_id ep_id l force_rebind x cx
                   | JobQuery => callQueryServiceAddress cx
                   end;
      Some (mkIntraNameProxy (np_isConnected x) (np_mEnableReconnectToNS x) (np_timer x) (np_mNsUrl x) (np_mHostName x) (np_listener x)
              (m_set ctx_id cx (np_contexts x)), out)
  end.
End bind.

(** ** What the name server says *)

(** Unix domain sockets, then loopback addresses, then all interfaces, then others. *)
Inductive NpKind := KIpc | KLocal | KAll | KOther.
Definition item_kind (it : FdbMsgAddressItem) : NpKind :=
  if bool_decide (ai_mType it = FDB_SOCKET_IPC) then KIpc
  else if bool_decide (ai_mTCPIPCAddress it = FDB_LOCAL_HOST) then KLocal
  else if bool_decide (ai_mTCPIPCAddress it = FDB_IP_ALL_INTERFACE) then KAll else KOther.
#[export] Instance NpKind_eq : EqDecision NpKind.
Proof. solve_decision. Defined.

(** An address of all interfaces is replaced by the loopback address. *)
Definition at_local (it : FdbMsgAddressItem) : FdbMsgAddressItem :=
  match item_kind it with
  | KAll => set_tcp_ipc_address_url it FDB_LOCAL_HOST (buildUrl_inet (Some FDB_LOCAL_HOST) (ai_mTCPPort it) (ai_mIsSecure it))
  | _ => it
  end.
Definition url_candidates (k : NpKind) (pool : list FdbMsgAddressItem) : list FdbMsgAddressItem :=
  map at_local (List.filter (fun it => bool_decide (item_kind it = k)) pool).

(** [session] tells that there is one. *)
Definition np_validateUrl (session : bool) l : FdbMsgAddressList :=
  let pool := al_mAddressList l in
  if negb session || bool_decide (pool = []) then l else
  match url_candidates KIpc pool, url_candidates KLocal pool, url_candidates KAll pool, url_candidates KOther pool with
  | (_ :: _) as c, _, _, _ => al_set_addresses l c
  | [], (_ :: _) as c, _, _ => al_set_addresses l c
  | [], [], (_ :: _) as c, _ => al_set_addresses l c
  | [], [], [], (_ :: _) as c => al_set_addresses l c
  | [], [], [], [] => l
  end.

(** Every context, or the one that asked, gets the job. *)
Definition give_jobs (ctx_id : Z) (job : NpJob) x : list NpOut :=
  map (fun c => NpGive c job) (List.filter (fun c => negb (valid_epid ctx_id) || (ctx_id =? c)) (np_contexts x).*1).

(** [msg]: the payload as parsed, [session] and [isInitialResponse]. *)
Definition connectToServer (msg : option FdbMsgAddressList) (session is_init_response : bool) (ctx_id ep_id : Z) x : list NpOut :=
  match msg with
  | None => []
  | Some l => give_jobs ctx_id (JobConnect (np_validateUrl session l) is_init_response ep_id) x
  end.
Definition bindAddress (msg : option FdbMsgAddressList) (ctx_id ep_id : Z) x : list NpOut :=
  match msg with
  | None => []
  | Some l => give_jobs ctx_id (JobBind l (valid_epid ctx_id) ep_id) x
  end.
Definition queryServiceAddress x : list NpOut := map (fun c => NpGive c JobQuery) (np_contexts x).*1.

(** [req]: who subscribed, when the message answers a subscription made by [listenOnService]. *)
Definition np_onServiceBroadcast (msg : option FdbMsgAddressList) (session is_init_response : bool) (req : option (Z * Z)) x : list NpOut :=
  let '(ctx_id, ep_id) := match req with Some r => if is_init_response then r else (FDB_INVALID_EPID, FDB_INVALID_EPID) | None => (FDB_INVALID_EPID, FDB_INVALID_EPID) end in
  connectToServer msg session is_init_response ctx_id ep_id x.

(** [MORE_ADDRESS] *)
Definition onBindBroadcast (msg : option FdbMsgAddressList) x : list NpOut := bindAddress msg FDB_INVALID_EPID FDB_INVALID_EPID x.

(** The reply to [REQ_ALLOC_SERVICE_ADDRESS]. *)
Definition np_onReply (is_status : bool) (msg : option FdbMsgAddressList) (ctx_id ep_id : Z) x : list NpOut :=
  if is_status then [] else bindAddress msg ctx_id ep_id x.

Definition notifySvcOnlineMonitor (msg : option FdbMsgAddressList) (session : bool) : list NpOut :=
  match msg with Some l => [NpMonitor (np_validateUrl session l)] | None => [] end.

Definition NTF_HOST_INFO : Z := 2.
Definition NTF_WATCHDOG : Z := 3.
Definition onHostInfo (msg : option FdbMsgHostInfo) x : CIntraNameProxy * list NpOut :=
  match msg with
  | None => (x, [])
  | Some h => (mkIntraNameProxy (np_isConnected x) (np_mEnableReconnectToNS x) (np_timer x) (np_mNsUrl x) (hi_mName h) (np_listener x) (np_contexts x), [NpHostName (hi_mName h)])
  end.
Definition onWatchdog (msg : option CFdbMsgProcessList) x : list NpOut :=
  if negb (np_listener x) then [] else
  match msg with Some p => [NpDropped (map (fun i => (c_str (pi_mClientName i), pi_mPid i)) (pl_mProcessList p))] | None => [] end.
Definition doRegisterNsWatchdogListener x : CIntraNameProxy * list NpOut :=
  (mkIntraNameProxy (np_isConnected x) (np_mEnableReconnectToNS x) (np_timer x) (np_mNsUrl x) (np_mHostName x) true (np_contexts x),
   if np_isConnected x then [NpSubscribe [NTF_WATCHDOG]] else []).

(** ** The connection *)

Definition np_set_connection (connected timer : bool) x : CIntraNameProxy :=
  mkIntraNameProxy connected (np_mEnableReconnectToNS x) timer (np_mNsUrl x) (np_mHostName x) (np_listener x) (np_contexts x).

Definition np_onOnline x : CIntraNameProxy * list NpOut :=
  (np_set_connection true false x,
   NpSubscribe (NTF_HOST_INFO :: (if np_listener x then [NTF_WATCHDOG] else [])) :: queryServiceAddress x).
Definition np_onOffline x : CIntraNameProxy := np_set_connection false (np_mEnableReconnectToNS x || np_timer x) x.

(** [accepted]: the name server accepts the connection; then it is announced at once. *)
Definition connectToNameServer (accepted : bool) x : CIntraNameProxy * list NpOut :=
  if np_isConnected x then (x, []) else
  if accepted then let '(x, out) := np_onOnline x in (x, NpConnect (np_mNsUrl x) :: out)
  else (np_set_connection false true x, [NpConnect (np_mNsUrl x)]).
Definition np_onConnectTimer (accepted : bool) x : CIntraNameProxy * list NpOut :=
  let x := np_set_connection (np_isConnected x) false x in
  if np_mEnableReconnectToNS x then connectToNameServer accepted x else (x, []).

(** ** Jobs are safe *)

(** Numbers are left for [n] more sockets and sessions. *)
Definition room (n : nat) (ep : Endpoint) : Prop :=
  mEntryAllocator (co_sockets (ep_core ep)) + Z.of_nat n <= 2 ^ 31 /\ mEntryAllocator (co_sessions (ep_core ep)) + Z.of_nat n <= 2 ^ 31.

Lemma room_small n ep : room (S n) ep -> small ep.
Proof. intros [H1 H2]. split; lia. Qed.
Lemma room_grew n ep ep' : room (S n) ep -> grew ep ep' -> room n ep'.
Proof. intros [H1 H2] [G1 G2]. split; lia. Qed.
Lemma room_le n m ep : (m <= n)%nat -> room n ep -> room m ep.
Proof. intros Hm [H1 H2]. split; lia. Qed.
Lemma room_loses n ep ep' out : loses ep ep' out -> room n ep -> room n ep'.
Proof. intros [_ S] [H1 H2]. unfold room. by rewrite (sk_socknum _ _ S), (sk_sessnum _ _ S). Qed.

Record np_ok (n : nat) e : Prop := {
  no_inv : ep_inv (ne_ep e);
  no_room : room n (ne_ep e);
  no_accepts : forall s, @ev_auth (ne_env e) FDB_OBJECT_MAIN s = true }.

(** Operations of the endpoint, which take in at most one connection of each kind. *)
Definition ne_moved e e' : Prop := exists ep' out, e' = ne_set_ep ep' e /\ takes (ne_ep e) ep' out.

Lemma ne_moved_refl n e : np_ok n e -> ne_moved e e.
Proof. intros [Hi _ _]. exists (ne_ep e), []. split; [by destruct e|by apply loses_takes, loses_refl]. Qed.
Lemma ne_moved_trans e1 e2 e3 : ne_moved e1 e2 -> ne_moved e2 e3 -> ne_moved e1 e3.
Proof. intros (ep1 & o1 & -> & T1) (ep2 & o2 & -> & T2). exists ep2, (o1 ++ o2). split; [done|by eapply takes_trans]. Qed.
Lemma ne_moved_ok n e ep' out : np_ok n e -> takes (ne_ep e) ep' out -> room n ep' -> np_ok n (ne_set_ep ep' e).
Proof. intros [_ _ Ha] [G _] Hr. split; [apply (go_inv _ _ _ G)|done|done]. Qed.

Lemma ne_run_loses {A} n (m : EM A) e : np_ok n e -> em_loses m (ne_ep e) ->
  exists r ep' out, ne_run m e = Some (r, ne_set_ep ep' e, map (NpEp (ne_epid e)) out) /\ loses (ne_ep e) ep' out /\ np_ok n (ne_set_ep ep' e) /\ m (ne_ep e) = Some (r, ep', out).
Proof.
  intros Ho (r & ep' & out & Er & L). exists r, ep', out. unfold ne_run. rewrite Er. split_and!; [done|done| |done].
  apply (ne_moved_ok n e ep' out); [done|by apply loses_takes|by apply (room_loses n (ne_ep e) _ out), Ho].
Qed.

Lemma ne_run_makes n (m : EM (option Z)) e : np_ok (S n) e -> em_makes m (ne_ep e) ->
  exists r ep' out, ne_run m e = Some (r, ne_set_ep ep' e, map (NpEp (ne_epid e)) out) /\ ne_moved e (ne_set_ep ep' e) /\ np_ok n (ne_set_ep ep' e) /\
    forall skid, r = Some skid -> is_Some (co_sock skid (ep_core ep')).
Proof.
  intros Ho (r & ep' & out & Er & T & G & K). exists r, ep', out. unfold ne_run. rewrite Er. split_and!; [done|by exists ep', out| |done].
  destruct Ho as [_ Hr Ha]. split; [apply (go_inv _ _ _ (proj1 T))|by eapply room_grew|done].
Qed.

(** The addresses of an announcement are tried one after the other. *)
Fixpoint attempts {E : EpEnv} (host : string) (items : list FdbMsgAddressItem) (ep ep' : Endpoint) : Prop :=
  match items with
  | [] => ep' = ep
  | it :: items => exists ep1, attempt host (Some (c_str (ai_mTCPIPCUrl it))) ep ep1 /\ attempts host items ep1 ep'
  end.

Lemma connect_item_spec n host it t e : np_ok (S n) e ->
  exists e' out t', connect_item host it t e = Some (e', out, t') /\ ne_moved e e' /\ np_ok n e' /\ ne_env e' = ne_env e /\
    @attempt (ne_env e) host (Some (c_str (ai_mTCPIPCUrl it))) (ne_ep e) (ne_ep e').
Proof.
  intros Ho. unfold connect_item. set (m := @connect_url _ _ _ _). assert (em_makes m (ne_ep e)) as Hm.
  { unfold m, connect_url. apply em_makes_get, doConnect_makes; [apply Ho|apply Ho|by apply (room_small n), Ho]. }
  assert (em_total m (ne_ep e) (fun _ ep' _ => @attempt (ne_env e) host (Some (c_str (ai_mTCPIPCUrl it))) (ne_ep e) ep')) as Ha.
  { unfold m, connect_url. apply em_total_bind, em_total_get.
    eapply em_total_mono; [apply doConnect_attempts; [apply Ho|apply Ho|by apply (room_small n), Ho]|]. done. }
  destruct (ne_run_makes n m e Ho Hm) as (r & ep' & out & Er & M & Ho' & K). rewrite Er. cbn [mbind option_bind].
  assert (@attempt (ne_env e) host (Some (c_str (ai_mTCPIPCUrl it))) (ne_ep e) ep') as Ha'.
  { destruct Ha as (r0 & ep0 & o0 & E0 & Ha). unfold ne_run in Er. rewrite E0 in Er. injection Er as _ Er _. by rewrite <- Er. }
  destruct r as [skid|]; [|by eexists _, _, _].
  destruct (K skid eq_refl) as [k Hk]. cbn [ne_ep ne_set_ep]. rewrite Hk. cbn [mbind option_bind]. by eexists _, _, _.
Qed.

Lemma connect_items_spec n host items : forall t e, np_ok (length items + n) e ->
  exists e' out t', connect_items host items t e = Some (e', out, t') /\ ne_moved e e' /\ np_ok n e' /\
    @attempts (ne_env e) host items (ne_ep e) (ne_ep e').
Proof.
  induction items as [|it items IH]; intros t e Ho; cbn [connect_items attempts].
  - eexists _, _, _. split; [done|]. split; [by eapply ne_moved_refl|done].
  - destruct (connect_item_spec (length items + n) host it t e Ho) as (e1 & o1 & t1 & -> & M1 & Ho1 & Ee & A1). cbn [mbind option_bind].
    destruct (IH t1 e1 Ho1) as (e2 & o2 & t2 & -> & M2 & Ho2 & A2). eexists _, _, _. split; [done|]. split; [by eapply ne_moved_trans|].
    split; [done|]. exists (ne_ep e1). rewrite Ee in A2. by split.
Qed.

Lemma adopt_ok n l e : np_ok n e -> np_ok n (adopt l e) /\ loses (ne_ep e) (ne_ep (adopt l e)) [] /\ ne_epid (adopt l e) = ne_epid e.
Proof.
  intros Ho. pose proof (no_inv _ _ Ho) as Hi.
  assert (loses (ne_ep e) (ne_ep (adopt l e)) []) as L.
  { unfold adopt, ne_set_instance, ep_importTokens. destruct (fdbIsGroup _), (FdbMsgAddressList_has_token_list l); cbn; try (destruct (importTokens _ _)); by apply loses_rest. }
  split_and!; [|done|unfold adopt, ne_set_instance; by repeat case_match].
  split; [apply (loses_inv _ _ _ L)|by apply (room_loses n _ _ _ L), Ho|]. unfold adopt, ne_set_instance. intros s. repeat case_match; apply Ho.
Qed.

Lemma adopt_env l e : ne_env (adopt l e) = ne_env e.
Proof. unfold adopt, ne_set_instance. by repeat case_match. Qed.

(** What the announcement of a service does to an endpoint. *)
Definition followed (ep_id : Z) l e e' : Prop :=
  if negb (np_match FDB_OBJECT_ROLE_CLIENT l e && np_asked ep_id e) then e' = e else
  match al_mAddressList l with
  | [] => if hostConnected (c_str (al_mHostName l)) (ne_ep e) then mEntryContainer (co_sockets (ep_core (ne_ep e'))) = [] else e' = e
  | _ => if ne_enabled e (conn_info l)
         then ne_moved (adopt l e) e' /\
              @attempts (ne_env e) (c_str (al_mHostName l)) (al_mAddressList l) (ne_ep (adopt l e)) (ne_ep e')
         else e' = e
  end.

Lemma deleteAll_total {E : EpEnv} ep : ep_inv ep ->
  em_total (doDisconnect FDB_INVALID_ID) ep (fun _ ep' out => loses ep ep' out /\ mEntryContainer (co_sockets (ep_core ep')) = []).
Proof.
  intros Hi. apply em_total_bind, em_total_get. apply em_total_bind. cbn. apply em_total_ret. unfold deleteSocket. apply em_total_bind, em_total_get. cbn.
  eapply em_total_mono; [by apply deleteSockets_total|]. done.
Qed.

Definition keeps_few e e' : Prop := few (ep_core (ne_ep e)) -> few (ep_core (ne_ep e')).

Lemma connect_client_spec ep_id l e : np_ok (length (al_mAddressList l)) e ->
  exists e' out t, connect_client ep_id l e = Some (e', out, t) /\ followed ep_id l e e' /\ np_ok 0 e' /\ keeps_few e e'.
Proof.
  intros Ho. unfold connect_client, followed. assert (np_ok 0 e) as Ho0 by (destruct Ho as [? Hr ?]; split; [done|by apply (room_le _ 0) in Hr; [|lia]|done]).
  destruct (negb _); [by exists e, [], no_tally; split_and!; [..|intros ?]|]. destruct (al_mAddressList l) as [|it items] eqn:El.
  - destruct (hostConnected _ _); [|by exists e, [], no_tally; split_and!; [..|intros ?]]. destruct (@deleteAll_total (ne_env e) (ne_ep e) (no_inv _ _ Ho)) as ([] & ep' & out & E1 & L & Hn).
    destruct (ne_run_loses 0 (@doDisconnect (ne_env e) FDB_INVALID_ID) e Ho0) as (r & ep1 & o1 & -> & L1 & Ho1 & E2); [by exists tt, ep', out|].
    rewrite E1 in E2. simplify_eq. eexists _, _, _. split_and!; [done|done|done|]. exact (proj2 (loses_takes _ _ _ L1)).
  - destruct (ne_enabled e (conn_info l)); [|by exists e, [], no_tally; split_and!; [..|intros ?]]. unfold doConnectToAddress. rewrite El.
    destruct (adopt_ok _ l e Ho) as (Ha & La & _). rewrite <- (Nat.add_0_r (length (it :: items))) in Ha.
    destruct (connect_items_spec 0 (c_str (al_mHostName l)) (it :: items) no_tally (adopt l e) Ha) as (e' & out & t & -> & M & Ho' & A). eexists _, _, _.
    rewrite adopt_env in A. split_and!; [done|done|done|done|].
    destruct M as (ep' & o & -> & [_ F]). intros Hf. apply F, (loses_takes _ _ _ La), Hf.
Qed.

Lemma connect_clients_spec ep_id l cx : Forall (fun y => np_ok (length (al_mAddressList l)) y.2) cx ->
  exists cx' out ts, connect_clients ep_id l cx = Some (cx', out, ts) /\ Forall2 (fun y y' => y'.1 = y.1 /\ followed ep_id l y.2 y'.2 /\ np_ok 0 y'.2 /\ keeps_few y.2 y'.2) cx cx'.
Proof.
  induction 1 as [|[id e] cx Ho _ IH]; cbn [connect_clients]; [by eexists _, _, _|]. destruct (connect_client_spec ep_id l e Ho) as (e' & o1 & t & -> & F & Ho' & K').
  cbn [mbind option_bind]. destruct IH as (cx' & o2 & ts & -> & F2). eexists _, _, _. split; [done|]. by constructor.
Qed.

(** C26: What a context does with the announcement of a service, however its clients are
    connected: no pointer to a session or a socket that is gone is followed; clients of other
    services, of other instances and those that did not ask stay as they are; when the service is
    gone, exactly the clients that are connected to the host it was on lose all their connections;
    otherwise the clients that want it take over its instance and tokens and try the addresses in
    their order: unless there is a connection to the address or one as secure already, the network is asked for
    each address a client can use, and when it answers there is one connection more, on a socket
    with the name of the host. Clients keep one secure and one other connection at most, and those that do not want the service
    stay as they are. The endpoints of the context are in order, accept every session and have
    numbers left for the addresses. *)
Theorem clients_follow_service (ctx_id ep_id : Z) (l : FdbMsgAddressList) (is_init_response : bool) (x : CIntraNameProxy) (cx : Ctx) :
  Forall (fun y => np_ok (length (al_mAddressList l)) y.2) cx ->
  exists cx' out, doConnectToServer ctx_id ep_id l is_init_response x cx = Some (cx', out) /\
    Forall2 (fun y y' => y'.1 = y.1 /\ followed ep_id l y.2 y'.2 /\ np_ok 0 y'.2 /\ keeps_few y.2 y'.2) cx cx'.
Proof.
  intros Ho. unfold doConnectToServer. destruct (connect_clients_spec ep_id l cx Ho) as (cx' & out & ts & -> & F). eexists _, _. split; [done|].
  exact F.
Qed.

(** ** What a server reports *)

Definition same_numbers (ep ep' : Endpoint) : Prop :=
  mEntryAllocator (co_sockets (ep_core ep')) = mEntryAllocator (co_sockets (ep_core ep)) /\
  mEntryAllocator (co_sessions (ep_core ep')) = mEntryAllocator (co_sessions (ep_core ep)).

Lemma levels_numbers tokens ps : forall ep r ep' out,
  em_each (fun p => s ← em_sess p; em_core (co_put_sess p (es_set_view (sv_set_level (checkSecurityLevel tokens (Some (es_token s))) (es_view s)) s))) ps ep = Some (r, ep', out) ->
  same_numbers ep ep'.
Proof.
  induction ps as [|p ps IH]; intros ep r ep' out; cbn [em_each]; [by intros [= <- <- <-]|].
  unfold mbind, EM_bind, em_sess, em_core, em_mod. destruct (co_sess p (ep_core ep)) as [s|]; cbn [fmap option_fmap option_map]; [|done].
  case_match eqn:Er; [|done]. destruct p0 as [[] ?]. intros [= <- <- <-]. by apply IH in Er.
Qed.

Lemma levels_ok n e : np_ok n e -> exists ep' out, ne_run updateSecurityLevel e = Some (tt, ne_set_ep ep' e, map (NpEp (ne_epid e)) out) /\
  ne_moved e (ne_set_ep ep' e) /\ np_ok n (ne_set_ep ep' e).
Proof.
  intros Ho. destruct (updateSecurityLevel_takes (ne_ep e) (no_inv _ _ Ho)) as ([] & ep' & out & Er & T). exists ep', out. unfold ne_run. rewrite Er. split_and!; [done|by exists ep', out|].
  assert (same_numbers (ne_ep e) ep') as [N1 N2].
  { revert Er. unfold updateSecurityLevel, mbind at 1, EM_bind, em_get. case_match eqn:Ee; [|done]. destruct p as [[[] ep1] o1]. intros [= <- <-]. by apply levels_numbers in Ee. }
  apply (ne_moved_ok n e ep' out); [done|done|]. unfold room. rewrite N1, N2. apply Ho.
Qed.

Definition registers (out : list NpOut) : list FdbMsgAddrBindResults := omap (fun o => match o with NpRegister m => Some m | _ => None end) out.

Lemma registers_app o1 o2 : registers (o1 ++ o2) = registers o1 ++ registers o2.
Proof. apply omap_app. Qed.
Lemma registers_ep id out : registers (map (NpEp id) out) = [].
Proof. by induction out. Qed.

(** The report of an address: the URL asked for, and the one bound, which is the same unless the
    socket got another port, or none. *)
Definition reported (port_of : Z -> Z) (it : FdbMsgAddressItem) (b : FdbAddrBindStatus) : Prop :=
  bs_mRequestAddr b = ai_mTCPIPCUrl it /\
  (bs_mBindAddr b = EmptyString \/ bs_mBindAddr b = ai_mTCPIPCUrl it \/
   ai_mType it = FDB_SOCKET_TCP /\ exists skid, port_of skid <> ai_mTCPPort it /\ bs_mBindAddr b = buildUrl_inet (Some (c_str (ai_mTCPIPCAddress it))) (port_of skid) (ai_mIsSecure it)).

Section bind_proofs.
Context (bound : string -> bool) (port_of : Z -> Z).

Lemma bind_item_spec n it e : np_ok (S n) e ->
  exists e' out b, bind_item bound port_of it e = Some (e', out, b) /\ ne_moved e e' /\ np_ok n e' /\ registers out = [] /\ reported port_of it b.
Proof.
  intros Ho. unfold bind_item. set (m := @doBind _ _ _ _).
  destruct (ne_run_makes n m e Ho) as (r & ep' & out & -> & M & Ho' & K).
  { unfold m. apply doBind_makes; [apply Ho|by apply (room_small n), Ho]. }
  cbn [mbind option_bind]. destruct r as [skid|].
  - destruct (K skid eq_refl) as [k Hk]. cbn [ne_ep ne_set_ep]. rewrite Hk. cbn [mbind option_bind]. eexists _, _, _. split_and!; [done|done|done| |].
    + by rewrite registers_app, registers_ep.
    + split; [done|]. cbn [bs_mBindAddr]. right. case_bool_decide as Ht; cbn [andb]; [|by left]. destruct (Z.eqb_spec (ai_mTCPPort it) (port_of skid)); cbn [negb]; [by left|].
      right. split; [done|]. exists skid. split; [congruence|done].
  - eexists _, _, _. split_and!; [done|done|done|apply registers_ep|]. split; [done|by left].
Qed.

Lemma bind_items_spec n items : forall e, np_ok (length items + n) e ->
  exists e' out bs, bind_items bound port_of items e = Some (e', out, bs) /\ ne_moved e e' /\ np_ok n e' /\ registers out = [] /\ Forall2 (reported port_of) items bs.
Proof.
  induction items as [|it items IH]; intros e Ho; cbn [bind_items].
  - eexists _, _, _. split_and!; [done|by eapply ne_moved_refl|done|done|constructor].
  - destruct (bind_item_spec (length items + n) it e Ho) as (e1 & o1 & b & -> & M1 & Ho1 & R1 & B1). cbn [mbind option_bind].
    destruct (IH e1 Ho1) as (e2 & o2 & bs & -> & M2 & Ho2 & R2 & B2). eexists _, _, _.
    split_and!; [done|by eapply ne_moved_trans|done|by rewrite registers_app, R1, R2|by constructor].
Qed.

Lemma bind_server_spec l force e : np_ok (length (al_mAddressList l)) e ->
  exists ep' out bs, bind_server bound port_of l force e = Some (ne_set_ep ep' e, out) /\ np_ok 0 (ne_set_ep ep' e) /\
    registers out = [mkAddrBindResults (al_mServiceName l) bs (al_mInstanceId l)] /\ Forall2 (reported port_of) (al_mAddressList l) bs.
Proof.
  intros Ho. unfold bind_server. set (e1 := if fdbIsGroup _ then _ else e).
  assert (np_ok (length (al_mAddressList l)) e1 /\ forall ep', ne_set_ep ep' e1 = ne_set_ep ep' e) as [Ho1 I1].
  { unfold e1, ne_set_instance. destruct (fdbIsGroup _); [|done]. split; [|done]. apply (ne_moved_ok _ e _ []); [done| |apply Ho].
    apply loses_takes, loses_rest; try done. apply Ho. }
  destruct (if FdbMsgAddressList_has_token_list l then _ else _) as [need ep] eqn:Et.
  assert (np_ok (length (al_mAddressList l)) (ne_set_ep ep e1)) as Ho2.
  { assert (loses (ne_ep e1) ep []) as L.
    { destruct (FdbMsgAddressList_has_token_list l); [|injection Et as <- <-; apply loses_refl, Ho1].
      replace ep with (ep_importTokens (tk_mTokens (al_mTokenList l)) (ne_ep e1)).2 by (by rewrite Et). apply importTokens_loses, Ho1. }
    apply (ne_moved_ok _ e1 _ []); [done|by apply loses_takes|by apply (room_loses _ _ _ _ L), Ho1]. }
  set (e2 := ne_set_ep ep e1) in *.
  assert (exists ep3 o3, ne_run (em_when need updateSecurityLevel) e2 = Some (tt, ne_set_ep ep3 e2, map (NpEp (ne_epid e2)) o3) /\ np_ok (length (al_mAddressList l)) (ne_set_ep ep3 e2)) as (ep3 & o3 & -> & Ho3).
  { destruct need; cbn [em_when]; [destruct (levels_ok _ e2 Ho2) as (ep3 & o3 & -> & _ & ?); by exists ep3, o3|]. by exists ep, []. }
  cbn [mbind option_bind]. set (e3 := ne_set_ep ep3 e2) in *.
  destruct (ne_run_loses (length (al_mAddressList l)) (em_when force (@deleteSocket (ne_env e3) FDB_INVALID_ID)) e3 Ho3) as (r & ep4 & o4 & -> & _ & Ho4 & _).
  { destruct force; cbn [em_when]; [apply deleteSocket_loses, Ho3|apply em_loses_ret, Ho3]. }
  cbn [mbind option_bind]. set (e4 := ne_set_ep ep4 e3) in *. rewrite <- (Nat.add_0_r (length _)) in Ho4.
  destruct (bind_items_spec 0 (al_mAddressList l) e4 Ho4) as (e5 & o5 & bs & -> & (ep5 & ? & -> & _) & Ho5 & R5 & B5). cbn [mbind option_bind].
  exists ep5. eexists _, bs. rewrite <- I1. split; [done|]. split_and!; [done| |done]. by rewrite !registers_app, !registers_ep, R5.
Qed.

(** The server the addresses are for. *)
Definition np_target (ep_id : Z) l e : bool := np_match FDB_OBJECT_ROLE_SERVER l e && np_asked ep_id e.

(** Either no endpoint is meant and nothing happens, or the first one that is binds the addresses
    and reports, or gives back a name it does not own. *)
Inductive bind_outcome (ctx_id ep_id : Z) l x : Ctx -> Ctx -> list NpOut -> Prop :=
  | bind_nobody cx : Forall (fun y => np_target ep_id l y.2 = false) cx -> bind_outcome ctx_id ep_id l x cx cx []
  | bind_one pre id e post e' out bs : Forall (fun y => np_target ep_id l y.2 = false) pre -> np_target ep_id l e = true ->
      np_ok 0 e' -> ne_validSvcName e' = true -> (valid_epid ep_id = true \/ ne_validSvcName e = true) ->
      registers out = [mkAddrBindResults (al_mServiceName l) bs (al_mInstanceId l)] -> Forall2 (reported port_of) (al_mAddressList l) bs ->
      bind_outcome ctx_id ep_id l x (pre ++ (id, e) :: post) (pre ++ (id, e') :: post) out
  | bind_unowned pre id e post : Forall (fun y => np_target ep_id l y.2 = false) pre -> np_target ep_id l e = true ->
      valid_epid ep_id = false -> ne_validSvcName e = false ->
      bind_outcome ctx_id ep_id l x (pre ++ (id, e) :: post) (pre ++ (id, e) :: post)
        (NpRegister (mkAddrBindResults (al_mServiceName l) [] (al_mInstanceId l)) :: registerService ctx_id e x).

Lemma bind_outcome_skip ctx_id ep_id l x id e cx cx' out : np_target ep_id l e = false ->
  bind_outcome ctx_id ep_id l x cx cx' out -> bind_outcome ctx_id ep_id l x ((id, e) :: cx) ((id, e) :: cx') out.
Proof.
  intros Ht [cx0 Hf|pre i e0 post e' o bs Hp Ht' Ho Hv Hw Hr Hb|pre i e0 post Hp Ht' Hi Hv].
  - apply bind_nobody. by constructor.
  - apply (bind_one _ _ _ _ ((id, e) :: pre) i e0 post e' o bs); try done. by constructor.
  - apply (bind_unowned _ _ _ _ ((id, e) :: pre)); try done. by constructor.
Qed.

(** What a context does with addresses allocated for a service: no pointer to a session or
    a socket that is gone is followed, and the first server of that name and instance that asked
    is the only endpoint that changes. It makes exactly one report, with one entry for every
    address in the order of the list: the URL asked for and the one that was bound, which differ
    in the port at most, or none. A server that does not own the name gives it back and asks
    again. When there is no such server nothing is sent. *)
Theorem server_reports (ctx_id ep_id : Z) (l : FdbMsgAddressList) (force_rebind : bool) (x : CIntraNameProxy) (cx : Ctx) :
  Forall (fun y => np_ok (length (al_mAddressList l)) y.2) cx ->
  exists cx' out, doBindAddress bound port_of ctx_id ep_id l force_rebind x cx = Some (cx', out) /\ bind_outcome ctx_id ep_id l x cx cx' out.
Proof.
  induction 1 as [|[id e] cx Ho Hall IH]; cbn [doBindAddress]; [exists [], []; split; [done|by apply bind_nobody]|].
  destruct IH as (cx1 & o1 & E1 & IH). rewrite E1. cbn [mbind option_bind snd] in Ho |- *.
  assert (np_target ep_id l e = false -> exists cx' out, Some ((id, e) :: cx1, o1) = Some (cx', out) /\ bind_outcome ctx_id ep_id l x ((id, e) :: cx) cx' out) as Hskip.
  { intros Ht. eexists _, _. split; [done|by apply bind_outcome_skip]. }
  unfold np_target, np_asked in Hskip. destruct (np_match FDB_OBJECT_ROLE_SERVER l e) eqn:Em; cbn [negb andb] in Hskip |- *; [|by apply Hskip].
  destruct (valid_epid ep_id) eqn:Ev; cbn [negb orb] in Hskip.
  - destruct (ep_id =? ne_epid e) eqn:Ee; [|by apply Hskip].
    destruct (bind_server_spec l force_rebind (ne_set_valid true e)) as (ep' & out & bs & -> & Ho' & Hr & Hb); [destruct Ho; by split|].
    eexists _, _. split; [done|]. apply (bind_one _ _ _ _ [] id e cx _ out bs); try done; [|by left]. unfold np_target, np_asked. by rewrite Em, Ev, Ee.
  - assert (np_target ep_id l e = true) as Ht by (unfold np_target, np_asked; by rewrite Em, Ev). destruct (ne_validSvcName e) eqn:Es.
    + destruct (bind_server_spec l force_rebind e Ho) as (ep' & out & bs & -> & Ho' & Hr & Hb).
      eexists _, _. split; [done|]. apply (bind_one _ _ _ _ [] id e cx _ out bs); try done. by right.
    + eexists _, _. split; [done|]. by apply (bind_unowned _ _ _ _ [] id e cx).
Qed.
End bind_proofs.

(** ** Addresses on the own host *)

Definition kind_rank (k : NpKind) : nat := match k with KIpc => 0 | KLocal => 1 | KAll => 2 | KOther => 3 end.

Lemma url_candidates_in k pool it : it ∈ url_candidates k pool <-> exists it0, it0 ∈ pool /\ item_kind it0 = k /\ it = at_local it0.
Proof.
  unfold url_candidates. rewrite list_elem_of_fmap. setoid_rewrite list_elem_of_In. setoid_rewrite filter_In. setoid_rewrite bool_decide_eq_true. setoid_rewrite <- list_elem_of_In. naive_solver.
Qed.

Lemma url_candidates_none k pool : url_candidates k pool = [] -> forall it, it ∈ pool -> item_kind it <> k.
Proof. intros Hn it Hin Hk. assert (at_local it ∈ url_candidates k pool) as Hc by (apply url_candidates_in; eauto). rewrite Hn in Hc. by apply elem_of_nil in Hc. Qed.

(** The kind that is taken: the best there is. *)
Lemma validate_spec l : al_mAddressList l <> [] ->
  exists k, np_validateUrl true l = al_set_addresses l (url_candidates k (al_mAddressList l)) /\ url_candidates k (al_mAddressList l) <> [] /\
    forall it, it ∈ al_mAddressList l -> (kind_rank k <= kind_rank (item_kind it))%nat.
Proof.
  intros Hne. unfold np_validateUrl. rewrite bool_decide_false by done. cbn [negb orb].
  pose proof (fun k => url_candidates_none k (al_mAddressList l)) as Hn.
  assert (forall k, (forall j, (kind_rank j < kind_rank k)%nat -> url_candidates j (al_mAddressList l) = []) -> forall it, it ∈ al_mAddressList l -> (kind_rank k <= kind_rank (item_kind it))%nat) as Hb.
  { intros k Hk it Hin. destruct (le_lt_dec (kind_rank k) (kind_rank (item_kind it))) as [|Hlt]; [done|]. by destruct (Hn _ (Hk _ Hlt) it Hin). }
  destruct (url_candidates KIpc _) as [|a0 l0] eqn:E0; [|exists KIpc; rewrite E0; split_and!; [done|done|]; apply Hb; intros [] Hj; cbn in Hj; (lia || done)].
  destruct (url_candidates KLocal _) as [|a1 l1] eqn:E1; [|exists KLocal; rewrite E1; split_and!; [done|done|]; apply Hb; intros [] Hj; cbn in Hj; (lia || done)].
  destruct (url_candidates KAll _) as [|a2 l2] eqn:E2; [|exists KAll; rewrite E2; split_and!; [done|done|]; apply Hb; intros [] Hj; cbn in Hj; (lia || done)].
  destruct (url_candidates KOther _) as [|a3 l3] eqn:E3; [|exists KOther; rewrite E3; split_and!; [done|done|]; apply Hb; intros [] Hj; cbn in Hj; (lia || done)].
  destruct (al_mAddressList l) as [|it pool] eqn:El; [done|]. destruct (item_kind it) eqn:Ek; exfalso; [apply (Hn _ E0 it)|apply (Hn _ E1 it)|apply (Hn _ E2 it)|apply (Hn _ E3 it)]; try done; left.
Qed.

(** Of the addresses of a service announced on its own host a client gets those of the
    best kind there is - Unix domain sockets before loopback before all interfaces, which stand
    for the loopback address, before others - and all of them; a service with an address never
    looks as if it were gone, and one without never as if it were there. *)
Theorem local_addresses_best (l : FdbMsgAddressList) :
  let pool := al_mAddressList l in let result := al_mAddressList (np_validateUrl true l) in
  (result = [] <-> pool = []) /\ np_validateUrl true l = al_set_addresses l result /\
  (forall it, it ∈ result <-> exists it0, it0 ∈ pool /\ it = at_local it0 /\ forall it1, it1 ∈ pool -> (kind_rank (item_kind it0) <= kind_rank (item_kind it1))%nat) /\
  Forall (fun it => item_kind it <> KAll) result.
Proof.
  intros pool result. destruct (decide (pool = [])) as [Hp|Hp].
  - assert (np_validateUrl true l = l) as Hv by (unfold np_validateUrl; fold pool; by rewrite bool_decide_true). unfold result. rewrite Hv. fold pool. rewrite Hp.
    split_and!; [done|subst pool; destruct l; cbn in Hp |- *; by rewrite Hp| |constructor]. intros it. split; [by intros ?%elem_of_nil|by intros (? & ?%elem_of_nil & _)].
  - destruct (validate_spec l Hp) as (k & Hv & Hne & Hb). unfold result. rewrite Hv. cbn [al_mAddressList al_set_addresses]. fold pool in Hne, Hb |- *. split_and!; [naive_solver|done| |].
    + intros it. rewrite url_candidates_in. split.
      * intros (it0 & Hin & <- & ->). eauto.
      * intros (it0 & Hin & -> & Hm). exists it0. split_and!; try done. destruct (url_candidates k pool) as [|c cs] eqn:Ec; [done|].
        assert (c ∈ url_candidates k pool) as (it1 & Hin1 & Hk1 & _)%url_candidates_in by (rewrite Ec; left). specialize (Hm _ Hin1). specialize (Hb _ Hin). rewrite Hk1 in Hm. destruct (item_kind it0), k; cbn in *; (done || lia).
    + apply Forall_forall. intros it (it0 & _ & _ & ->)%url_candidates_in. unfold at_local. destruct (item_kind it0) eqn:Ek; try congruence.
      unfold item_kind in Ek |- *. cbn. case_bool_decide; [done|]. by case_bool_decide.
Qed.

(** ** Examples *)

Definition lab_ne (epid : Z) (role : EFdbEndpointRole) (net : list (option EpSess)) : NpEndpoint :=
  mkNpEndpoint epid "ep"%string true 0 true false (fun _ => true) lab_ep_env (ep_set_net net (ep_set_name "media"%string 0 (ep_start (lab_bare 1 0 role) false false))).
Lemma lab_ne_ok n epid role net : (n <= 16)%nat -> np_ok n (lab_ne epid role net).
Proof.
  intros Hn. split; [|split; cbn; unfold FDB_FIRST_ENTRY_ID; lia|done]. cbn [lab_ne ne_ep]. eapply loses_inv, loses_rest; [by apply (ep_start_inv (lab_bare 1 0 role) false false)|done..].
Qed.
Definition lab_item (ip : string) (port : Z) : FdbMsgAddressItem :=
  mkAddressItem ip port FDB_SOCKET_TCP (buildUrl_inet (Some ip) port false) 0 false 0 0 0.
Definition lab_list (host : string) (items : list FdbMsgAddressItem) : FdbMsgAddressList :=
  mkAddressList "media"%string host EmptyString EmptyString 0 true 0 items (mkTokens []) 0.
Definition lab_np : CIntraNameProxy := mkIntraNameProxy true true false EmptyString EmptyString false [].
Definition connections (e : NpEndpoint) : Z := co_mInsecureSessionCnt (ep_core (ne_ep e)).

(** A client connects; a second announcement of the service adds no connection. *)
Definition lab_ctx : Ctx := [(3, lab_ne 3 FDB_OBJECT_ROLE_CLIENT [Some (lab_conn "127.0.0.1"%string); Some (lab_conn "127.0.0.1"%string)]); (4, lab_ne 4 FDB_OBJECT_ROLE_SERVER [])].
Lemma clients_follow_service_witness : exists cx' out,
  doConnectToServer 0 FDB_INVALID_EPID (lab_list "box"%string [lab_item "127.0.0.1"%string 60010; lab_item "127.0.0.1"%string 60011]) false lab_np lab_ctx = Some (cx', out) /\
  map (fun y => connections y.2) cx' = [1; 0] /\ Forall (fun y => few (ep_core (ne_ep y.2))) cx'.
Proof.
  destruct (clients_follow_service 0 FDB_INVALID_EPID (lab_list "box"%string [lab_item "127.0.0.1"%string 60010; lab_item "127.0.0.1"%string 60011]) false lab_np lab_ctx) as (cx' & out & Er & HF).
  { do 2 (constructor; [apply lab_ne_ok; cbn; lia|]). constructor. }
  exists cx', out. split; [exact Er|]. split.
  - clear HF. revert Er. vm_compute. intros [= <- <-]. reflexivity.
  - clear Er. inversion HF as [|y y' l l' (_ & _ & _ & K1) H2]; subst. inversion H2 as [|z z' m m' (_ & _ & _ & K2) H3]; subst. inversion H3; subst.
    repeat constructor; [apply K1|apply K2]; intros []; vm_compute; discriminate.
Defined.

(** The service is gone: a client connected to its host is disconnected, one that is connected to
    another host is not. *)
Definition lab_connected (host : string) : option Ctx := fst <$> doConnectToServer 0 FDB_INVALID_EPID (lab_list host [lab_item "127.0.0.1"%string 60010]) false lab_np lab_ctx.
Example offline_disconnects :
  ((fun cx => map (fun y => connections y.2) cx) ∘ fst <$> (lab_connected "box"%string ≫= doConnectToServer 0 FDB_INVALID_EPID (lab_list "box"%string []) false lab_np)) = Some [0; 0] /\
  ((fun cx => map (fun y => connections y.2) cx) ∘ fst <$> (lab_connected "other"%string ≫= doConnectToServer 0 FDB_INVALID_EPID (lab_list "box"%string []) false lab_np)) = Some [1; 0].
Proof. vm_compute. split; reflexivity. Qed.

(** A server gets another port than it asked for and reports it. *)
Example other_port_reported :
  registers (default [] (snd <$> doBindAddress (fun _ => true) (fun _ => 34567) 0 4 (lab_list "box"%string [lab_item "127.0.0.1"%string 0]) true lab_np lab_ctx))
  = [mkAddrBindResults "media"%string [mkAddrBindStatus "tcp://127.0.0.1:0"%string "tcp://127.0.0.1:34567"%string FDB_INET_PORT_INVALID] 0].
Proof. vm_compute. reflexivity. Qed.
