(* ===== verification/Registration.v ===== *)
(** A service comes online: the name server (NameServer) and the name proxy of the process the
    server runs in (IntraNameProxy) together.

    The server asks for addresses; the name server allocates them and replies; the proxy lets the
    server bind them and reports; the name server takes the report and announces the service. *)
From S2P Require Import Prelude CommonDefs StdMap Serializer Codec WireBase NsMessages SocketFactory AddressAllocator SvcAddrUtils Subscribe EventObject NameServer NsProofs NsReach Session Security UdpSession EventLoop Watchdog Endpoint EndpointProofs EndpointReach Context IntraNameProxy.
Open Scope list_scope.
Open Scope Z_scope.

(** ** What the name server offers *)

Definition item_at (it : FdbMsgAddressItem) : string * EFdbSocketType := (ai_mTCPIPCUrl it, ai_mType it).
Definition desc_at (d : CFdbAddressDesc) : string * EFdbSocketType := (ad_url d, sa_mType (ad_addr d)).

(** The reply lists the addresses of the entry, which are all different and none of them bound. *)
Record offered (e : CSvcRegistryEntry) (l : FdbMsgAddressList) : Prop := {
  of_urls : map item_at (al_mAddressList l) = map desc_at (List.filter (fun d => ad_level d <=? FDB_EXPORTABLE_ANY) (re_mAddrTbl e));
  of_nodup : NoDup (map ad_url (re_mAddrTbl e));
  of_pending : Forall (fun d => ad_mStatus d = ADDR_PENDING) (re_mAddrTbl e) }.

Section offer.
Context (env : NsEnv).

Lemma prepare_any (d : CFdbAddressDesc) : map item_at (@prepareAddress (env_indet env) d FDB_EXPORTABLE_ANY) = if ad_level d <=? FDB_EXPORTABLE_ANY then [desc_at d] else [].
Proof.
  unfold prepareAddress, ns_checkExportable, populateAddressItem. rewrite Z.gtb_ltb, Z.leb_antisym. destruct (FDB_EXPORTABLE_ANY <? ad_level d); [done|]. cbn [negb].
  destruct (ad_level d =? FDB_EXPORTABLE_NODE_INTERNAL); cbn; by destruct (ad_udp d =? FDB_INET_PORT_INVALID).
Qed.

Lemma add_allocated_offered name id xs : forall s e l, offered e l ->
  let '(s', e', l') := add_allocated env s name id e xs (Some l) in
  exists l1, l' = Some l1 /\ offered e' l1 /\ al_mServiceName l1 = al_mServiceName l /\ al_mInstanceId l1 = al_mInstanceId l.
Proof.
  induction xs as [|x xs IH]; intros s e l Ho; cbn [add_allocated]; [by exists l|]. destruct (addressRegistered _ _) eqn:Ea; [by apply IH|].
  cbn [fmap option_fmap option_map]. match goal with |- context [add_allocated env ?s1 name id ?e1 xs (Some ?l1)] => specialize (IH s1 e1 l1); set (e' := e1) in *; set (l' := l1) in * end.
  assert (offered e' l') as Ho'.
  { destruct Ho as [Hu Hn Hp]. subst e' l'. cbn zeta. split; cbn [re_mAddrTbl re_set_addrs add_addresses al_set_addresses al_mAddressList].
    - unfold add_addresses. cbn [al_mAddressList al_set_addresses]. rewrite !map_app, Hu, prepare_any, List.filter_app, map_app. f_equal. cbn [List.filter]. by destruct (_ <=? _).
    - rewrite map_app. apply NoDup_app. split_and!; [done| |apply NoDup_singleton]. intros u Hin ->%list_elem_of_singleton. cbn [ad_url ad_addr ad_info inf_mAddress] in Hin.
      apply list_elem_of_fmap in Hin as (d & Hd & Hin). apply not_true_iff_false in Ea. apply Ea. unfold addressRegistered. apply existsb_exists. exists d.
      split; [by apply list_elem_of_In|]. by apply bool_decide_eq_true.
    - apply Forall_app. split; [done|]. by constructor. }
  destruct (add_allocated env _ name id e' xs (Some l')) as [[s2 e2] l2]. exact (IH Ho').
Qed.

Lemma addServiceAddress_offered s name id e l : offered e l ->
  let '(s', e', l') := addServiceAddress env s name id e false (Some l) in
  exists l1, l' = Some l1 /\ offered e' l1 /\ al_mServiceName l1 = c_str (re_mSvcName e) /\ al_mInstanceId l1 = re_mInstanceId e.
Proof.
  intros Ho. unfold addServiceAddress, addOneServiceAddress. cbn [fmap option_fmap option_map]. set (l0 := setEntryInfo s l e true _).
  assert (offered e l0) as Ho0 by (destruct Ho; by split). destruct (allocateIPCAddress s e) as [s1 xs1].
  pose proof (add_allocated_offered name id xs1 s1 e l0 Ho0) as H1. destruct (add_allocated env s1 name id e xs1 (Some l0)) as [[s2 e2] l2]. destruct H1 as (l3 & -> & Ho3 & N3 & I3).
  destruct (allocateTCPAddress env s2 e2) as [s4 xs4]. pose proof (add_allocated_offered name id xs4 s4 e2 l3 Ho3) as H5.
  destruct (add_allocated env s4 name id e2 xs4 (Some l3)) as [[s6 e6] l6]. destruct H5 as (l7 & -> & Ho7 & N7 & I7). exists l7. split_and!; [done|done|by rewrite N7, N3|by rewrite I7, I3].
Qed.

Lemma alloc_service_offered s sid req tokens id s' l : reg_ok (mRegistryTbl s) -> fdbIsGroup id = false ->
  reg_get (mRegistryTbl s) (c_str (sn_mName req)) id = None -> alloc_service env s sid req tokens id = (s', [OutReply l]) ->
  exists e, reg_get (mRegistryTbl s') (c_str (sn_mName req)) id = Some e /\ offered e l /\ al_mServiceName l = c_str (sn_mName req) /\ al_mInstanceId l = id.
Proof.
  intros Hr Hg Hn. unfold alloc_service. rewrite Hn. cbn [default from_option]. set (name := c_str (sn_mName req)) in *. set (e := mkEntry sid _ tokens _ _ _ _ _ _ id).
  assert (entry_at name id e) as He by (repeat split; try done; apply c_str_idem).
  set (s1 := ns_with_registry s (reg_put (mRegistryTbl s) name id e)). assert (reg_ok (mRegistryTbl s1)) as Hr1 by by apply reg_ok_put.
  assert (reg_get (mRegistryTbl s1) name id = Some e) as Hg1 by (simpl; rewrite reg_get_put by apply Hr; by rewrite !bool_decide_true).
  match goal with |- context [addServiceAddress env s1 name id e false (Some ?l0)] =>
    pose proof (addServiceAddress_touched env s1 name id e false (Some l0)) as T; pose proof (addServiceAddress_offered s1 name id e l0) as O;
    destruct (addServiceAddress env s1 name id e false (Some l0)) as [[s2 e2] reply] end.
  destruct (touched_ok _ _ _ _ _ _ T Hr1 Hg1) as [_ Hg2]. destruct O as (l1 & -> & Ho & Nm & Id).
  { split; cbn; constructor. }
  cbn [from_option Datatypes.id]. case_match; [|done]. intros [= <- <-]. exists e2. split_and!; [done|done| |done]. rewrite Nm. apply c_str_idem.
Qed.
End offer.

(** ** What becomes of the report *)

(** The address after its report. *)
Definition bound_desc (d : CFdbAddressDesc) (m : FdbAddrBindStatus) : CFdbAddressDesc :=
  let a := ad_addr d in
  let a := if negb (bool_decide (sa_mType a = FDB_SOCKET_IPC)) && negb (bool_decide (bs_mBindAddr m = sa_mUrl a))
           then let '(ok, b) := parseUrl (Some (c_str (bs_mBindAddr m))) CFdbSocketAddr_new in if ok : bool then b else a else a in
  mkAddressDesc (mkAddrInfo a (bs_mUDPPort m) (ad_level d) (ad_if d)) ADDR_BOUND (ad_mRebindCount d).

Lemma bound_desc_url d m : ad_url (bound_desc d m) = ad_url d \/ ad_url (bound_desc d m) = c_str (bs_mBindAddr m).
Proof.
  unfold bound_desc, ad_url. cbn [ad_addr ad_info inf_mAddress]. destruct (_ && _); [|by left].
  destruct (parseUrl _ _) as [[] b] eqn:Ep; [right|by left]. by apply parseUrl_url in Ep.
Qed.

Lemma find_url_app pre d rest : Forall (fun x => ad_url x <> ad_url d) pre -> find_url (pre ++ d :: rest) (ad_url d) = Some (length pre, d).
Proof.
  intros Hp. unfold find_url. rewrite list_find_app_r by (by apply list_find_None). cbn. by rewrite decide_True.
Qed.

(** No address was bound at a URL that was asked for by a later one. *)
Inductive no_clash : list FdbAddrBindStatus -> Prop :=
  | nc_nil : no_clash []
  | nc_cons b bs : Forall (fun b' => bs_mRequestAddr b' <> c_str (bs_mBindAddr b)) bs -> no_clash bs -> no_clash (b :: bs).

Lemma register_all env name id ms : forall s e pre rest,
  re_mAddrTbl e = pre ++ rest -> map bs_mRequestAddr ms = map ad_url rest -> NoDup (map ad_url rest) -> no_clash ms ->
  Forall (fun b => is_empty_str (bs_mBindAddr b) = false) ms -> Forall (fun x => ad_url x ∉ map ad_url rest) pre ->
  exists s', register_items env s name id e [] ms = (s', re_set_addrs e (pre ++ zip_with bound_desc rest ms), [], []).
Proof.
  induction ms as [|m ms IH]; intros s e pre rest Ht Hm Hn Hc Hb Hp; cbn [register_items].
  { destruct rest; [|done]. exists s. cbn. rewrite <- Ht. by destruct e. }
  destruct rest as [|d rest]; [done|]. cbn in Hm. injection Hm as Hd Hm. inversion Hc as [|? ? Hf Hc']; subst. inversion Hb as [|? ? Hb1 Hb2]; subst.
  cbn in Hn. apply NoDup_cons in Hn as [Hd1 Hn]. unfold register_item. rewrite Ht, Hd, find_url_app, Hb1.
  2: { eapply Forall_impl; [exact Hp|]. cbn. intros x Hx E. apply Hx. rewrite E. left. }
  set (e1 := re_set_addrs e _). set (s1 := ns_with_registry _ _).
  destruct (IH s1 e1 (pre ++ [bound_desc d m]) rest) as [s' Es']; try done.
  - subst e1. cbn [re_mAddrTbl re_set_addrs]. rewrite insert_app_r_alt, Nat.sub_diag by lia. cbn. by rewrite <- app_assoc.
  - apply Forall_app. split.
    + eapply Forall_impl; [exact Hp|]. cbn. intros x Hx E. apply Hx. by right.
    + constructor; [|constructor]. destruct (bound_desc_url d m) as [->| ->]; [done|]. rewrite <- Hm. intros (b & Eb & Hin)%list_elem_of_fmap.
      apply (proj1 (Forall_forall _ _) Hf b Hin). done.
  - rewrite Es'. exists s'. subst e1. cbn [re_set_addrs re_mAddrTbl zip_with]. by rewrite <- app_assoc.
Qed.

Lemma zip_bound ds ms : Forall (fun d => ad_mStatus d = ADDR_BOUND) (zip_with bound_desc ds ms).
Proof. revert ms. induction ds as [|d ds IH]; intros [|m ms]; cbn; constructor; auto. Qed.

Lemma bound_not_pending e : Forall (fun d => ad_mStatus d = ADDR_BOUND) (re_mAddrTbl e) -> hasPendingAddress e = false.
Proof.
  intros Hf. unfold hasPendingAddress. induction Hf as [|d ds Hd _ IH]; cbn; [done|]. rewrite IH, bool_decide_false; [done|]. by rewrite Hd.
Qed.

(** The report of all addresses that were offered, each of them bound. *)
Lemma report_completes env s sid name id e m : reg_ok (mRegistryTbl s) -> is_empty_str name = false -> reg_get (mRegistryTbl s) name id = Some e ->
  c_str (br_mServiceName m) = name -> br_mInstanceId m = id -> br_mAddrList m <> [] -> map bs_mRequestAddr (br_mAddrList m) = map ad_url (re_mAddrTbl e) ->
  NoDup (map ad_url (re_mAddrTbl e)) -> no_clash (br_mAddrList m) -> Forall (fun b => is_empty_str (bs_mBindAddr b) = false) (br_mAddrList m) ->
  let e' := re_set_addrs (re_set_sid e sid) (zip_with bound_desc (re_mAddrTbl e) (br_mAddrList m)) in
  let '(s', outs) := onRegisterServiceReq env s sid (Some m) in
  reg_get (mRegistryTbl s') name id = Some e' /\
  (monitored env e' <> [] -> exists l, OutBroadcast INTRA_MONITOR id l name ∈ outs /\ al_mAddressList l = monitored env e').
Proof.
  intros Hr Hne Hg <- <- Hms Hm Hn Hc Hb e'. destruct (rok_keys _ Hr _ _ _ Hg) as (En & Ei & Hs & Ec).
  unfold onRegisterServiceReq. rewrite Hs, (find_single _ _ _ _ Hr Hne Hg). destruct (br_mAddrList m) as [|b bs] eqn:Em; [done|]. clear Hms.
  pose proof (register_core env s sid (c_str (br_mServiceName m)) (br_mInstanceId m) e (b :: bs) Hr Hg) as H. cbv zeta in H |- *.
  destruct (register_all env (c_str (br_mServiceName m)) (br_mInstanceId m) (b :: bs)
    (ns_with_registry s (reg_put (mRegistryTbl s) (c_str (br_mServiceName m)) (br_mInstanceId m) (re_set_sid e sid))) (re_set_sid e sid) [] (re_mAddrTbl e)) as [s' Es]; try done.
  rewrite Es in H |- *. cbn [app] in H |- *. rewrite app_nil_r in H |- *. destruct H as (_ & _ & _ & _ & Hget).
  change (re_set_addrs (re_set_addrs _ _) _) with e' in Hget |- *. rewrite bound_not_pending by apply zip_bound.
  match goal with |- context [announce_service env ?s2 ?n ?i e'] => pose proof (announce_service_spec env s2 n i e') as Ha; destruct (announce_service env s2 n i e') as [s3 outs'] end.
  destruct Ha as (Er & _ & Ha). rewrite Er. cbn [mRegistryTbl ns_with_registry] in Hget |- *. split.
  - by rewrite Hget, !bool_decide_true.
  - intros Hmon. destruct (Ha Hmon) as (l & Hl & Hal & _). exists l. split; [|done]. cbn. done.
Qed.

(** A request that is answered with addresses. *)
Lemma alloc_request env s sid q tokens s1 l : reg_ok (mRegistryTbl s) -> counter_ok (mInstanceIdAllocator s) ->
  onAllocServiceAddressReq env s sid (Some q) tokens = Some (s1, [OutReply l]) ->
  exists s0 id, reg_ok (mRegistryTbl s0) /\ fdbIsGroup id = false /\ reg_get (mRegistryTbl s0) (c_str (sn_mName q)) id = None /\
    alloc_service env s0 sid q tokens id = (s1, [OutReply l]).
Proof.
  intros Hr Hc. unfold onAllocServiceAddressReq. destruct (fdbIsGroup (sn_mInstanceId q)) eqn:Eg.
  - destruct (instance_loop_spec (mRegistryTbl s) (c_str (sn_mName q)) (sn_mInstanceId q) _ Hc) as (a' & id & E & _ & Hid). rewrite E. cbn [mbind option_bind].
    destruct id as [id|]; [|done]. destruct Hid as (k & Hk & -> & Ht). intros [= Ea]. pose proof (group_id_single (sn_mInstanceId q) k Hk) as Hs.
    exists (ns_with_instance s a'), (group_id (sn_mInstanceId q) k). split_and!; [done|done|by apply not_found_get; [apply Hr|..]|done].
  - destruct (found _) eqn:Ef; [done|]. intros [= Ea]. exists s, (sn_mInstanceId q). split_and!; try done. by apply not_found_get; [apply Hr|..].
Qed.

Lemma filter_all {A} (f : A -> bool) (l : list A) : Forall (fun x => f x = true) l -> List.filter f l = l.
Proof. induction 1 as [|x l Hx _ IH]; cbn; [done|]. by rewrite Hx, IH. Qed.

Lemma reported_urls port_of items bs : Forall2 (reported port_of) items bs -> map bs_mRequestAddr bs = map ai_mTCPIPCUrl items.
Proof. induction 1 as [|it b items bs [H _] _ IH]; cbn; [done|]. by rewrite H, IH. Qed.

(** The address is the one the server reported as bound, with its UDP port. *)
Definition located (m : FdbAddrBindStatus) (d : CFdbAddressDesc) : Prop :=
  ad_mStatus d = ADDR_BOUND /\ c_str (ad_url d) = c_str (bs_mBindAddr m) /\ ad_udp d = bs_mUDPPort m.

Definition not_nul (c : ascii) : Prop := byte_of_ascii c <> 0.

Lemma c_str_whole x : str_all not_nul x -> c_str x = x.
Proof. induction x as [|c x IH]; cbn; [done|]. intros [Hc Hx]. destruct (Z.eqb_spec (byte_of_ascii c) 0); [done|by rewrite IH]. Qed.

Lemma c_str_not_nul x : str_all not_nul (c_str x).
Proof. induction x as [|c x IH]; cbn; [done|]. by destruct (Z.eqb_spec (byte_of_ascii c) 0). Qed.

Lemma url_c_str ip port secure : 0 <= port < 65536 ->
  c_str (buildUrl_inet (Some (c_str ip)) port secure) = buildUrl_inet (Some (c_str ip)) port secure.
Proof.
  intros Hp. apply c_str_whole. unfold buildUrl_inet, buildUrl_port_str. rewrite (wrap_u_small 32) by (unfold in_u; lia).
  rewrite !str_all_app. split; [by destruct secure|]. split; [apply c_str_not_nul|]. split; [done|].
  apply (str_all_impl is_digit); [|apply (dec_text_digits port), to_dec_text; lia].
  intros c (d & Hd & ->). unfold not_nul. rewrite digit_byte by done. lia.
Qed.

Lemma bound_located port_of it m d : (forall skid, 0 <= port_of skid < 65536) -> item_at it = desc_at d ->
  reported port_of it m -> is_empty_str (bs_mBindAddr m) = false -> located m (bound_desc d m).
Proof.
  intros Hport [= Hu Ht] (_ & Hb) He. split; [done|]. split; [|done].
  unfold bound_desc, ad_url. cbn [ad_addr ad_info inf_mAddress]. case_bool_decide as Hi; cbn [negb andb].
  { destruct Hb as [Hb|[->|[Hty _]]]; [by rewrite Hb in He|by rewrite Hu|congruence]. }
  case_bool_decide as Hs; cbn [negb]; [by rewrite Hs|].
  destruct Hb as [Hb|[Hb|(_ & skid & _ & Hb)]]; [by rewrite Hb in He|unfold ad_url in Hu; congruence|].
  destruct (tcp_url_parses (c_str (ai_mTCPIPCAddress it)) (port_of skid) (ai_mIsSecure it) CFdbSocketAddr_new (Hport skid)) as [a Ea].
  rewrite <- Hb in Ea. assert (c_str (bs_mBindAddr m) = bs_mBindAddr m) as Hc.
  { rewrite Hb. apply url_c_str. apply Hport. }
  rewrite Hc, Ea. apply parseUrl_url in Ea. by rewrite Ea.
Qed.

Lemma zip_located port_of items ds ms : (forall skid, 0 <= port_of skid < 65536) -> map item_at items = map desc_at ds ->
  Forall2 (reported port_of) items ms -> Forall (fun b => is_empty_str (bs_mBindAddr b) = false) ms ->
  Forall2 located ms (zip_with bound_desc ds ms).
Proof.
  intros Hport Hi Hr. revert ds Hi. induction Hr as [|it m items ms Hm _ IH]; intros [|d ds] Hi; [intros _; constructor|done|done|].
  intros He. apply Forall_cons in He as [He Hes]. injection Hi as Hu Ht Hi. cbn [zip_with]. constructor; [|by apply IH].
  apply (bound_located port_of it); try done. unfold item_at, desc_at. congruence.
Qed.


(** The server "media" comes online. *)
Definition lab_request : FdbMsgServerName := mkServerName "media"%string "ep"%string FDB_NS_ALLOW_TCP_NORMAL FDB_EXPORTABLE_DOMAIN 0.
Definition lab_ns : CNameServer := ns_with_allocators ns_ab (mIPCAllocator ns_ab) (createTCPAllocator env_ab [] []).
Definition lab_offer : option (CNameServer * list NsOut) := onAllocServiceAddressReq env_ab lab_ns 9 (Some lab_request) [].
Definition lab_server_state : CNameServer := default lab_ns (fst <$> lab_offer).
Definition lab_reply : FdbMsgAddressList := match snd <$> lab_offer with Some [OutReply l] => l | _ => lab_list EmptyString [] end.
Definition lab_services : Ctx := [(4, lab_ne 4 FDB_OBJECT_ROLE_SERVER [])].

Definition lab_report : FdbMsgAddrBindResults :=
  mkAddrBindResults "media"%string [mkAddrBindStatus "ipc://@/tmp/fdb-ipc0"%string "ipc://@/tmp/fdb-ipc0"%string (-2); mkAddrBindStatus "tcp://0:60005"%string "tcp://0:34567"%string (-2)] 0.

Lemma lab_offered : lab_offer = Some (lab_server_state, [OutReply lab_reply]).
Proof.
  assert ((fun r => match r.2 with [OutReply _] => true | _ => false end) <$> lab_offer = Some true) as H by (vm_compute; reflexivity).
  unfold lab_server_state, lab_reply. destruct lab_offer as [[s1 outs]|]; [|done]. cbn in H |- *. by destruct outs as [|[] []].
Qed.

