(* ===== verification/Query.v ===== *)
(** Queries that are passed on to other hosts: src/server/CNameServer.cpp,
    src/server/CNameProxyContainer.cpp, src/server/CInterNameProxy.cpp and
    src/server/CIntraHostProxy.cpp.

    To list the services of a system the name server asks the name servers of all hosts it has
    a proxy for, and to list the exported services it asks its host servers.  The messages of a
    query share two tables on the heap: the addresses that have not answered yet and what has
    been collected.  The last answer sends the reply and frees both.  [QState] is this heap with
    the messages that are under way; following a pointer to tables that were freed is [None].
    A query message ends once ([requests_end_once] of SessionProofs): by a reply, by a status,
    or because it could not be sent.

    [GatherQuery] is what the two kinds of queries have in common.  The section [tables] has the
    tables of hosts and services that the answers are made of. *)
From S2P Require Import Prelude StdMap CommonDefs Serializer Codec WireBase NsMessages SocketFactory AddressAllocator SvcAddrUtils Subscribe EventObject NameServer HostProxy Watchdog.
From stdpp Require Import gmap.
Open Scope list_scope.
Open Scope Z_scope.

(** ** The messages and tables of a query *)

(** [CQueryServiceMsg] and [CQueryExportedServiceMsg]: the shared tables (both pointers, as they
    are allocated and freed together), the request and the address that is asked. *)
Record QueryMsg := mkQueryMsg { qm_mTbl : nat; qm_mReq : nat; qm_mHostIp : string }.

#[export] Instance QueryMsg_dec : EqDecision QueryMsg.
Proof. solve_decision. Defined.

(** [fdb_remove_value_from_container] on a list: the first one that is equal. *)
Fixpoint drop_one {A} `{EqDecision A} (v : A) (l : list A) : list A :=
  match l with
  | [] => []
  | x :: l => if decide (x = v) then l else x :: drop_one v l
  end.

Lemma drop_one_perm {A} `{EqDecision A} (v : A) l : v ∈ l -> l ≡ₚ v :: drop_one v l.
Proof.
  induction l as [|x l IH]; simpl; [by intros ?%not_elem_of_nil|]. case_decide as Hx; [by subst|].
  intros [->|Hin]%elem_of_cons; [done|]. rewrite (IH Hin) at 1. by constructor.
Qed.

Section gather.
Context {T : Type} (merge : T -> T -> T).

Record QTables := mkQTables { qt_mPendingReqTbl : list string; qt_mSvcTbl : T }.
Record QState := mkQState { qs_new : nat; qs_heap : gmap nat QTables; qs_sent : list QueryMsg }.
Inductive QOut := QReply (req : nat) (t : T).

Definition QState_new : QState := mkQState 0 ∅ [].

(** The end of one message, with what it brought. *)
Definition finalizeQuery (svc_tbl : option T) (m : QueryMsg) (s : QState) : option (QState * list QOut) :=
  q ← qs_heap s !! qm_mTbl m;
  let tbl := match svc_tbl with Some t => merge (qt_mSvcTbl q) t | None => qt_mSvcTbl q end in
  let pending := drop_one (qm_mHostIp m) (qt_mPendingReqTbl q) in
  let s := mkQState (qs_new s) (qs_heap s) (drop_one m (qs_sent s)) in
  match pending with
  | [] => Some (mkQState (qs_new s) (delete (qm_mTbl m) (qs_heap s)) (qs_sent s), [QReply (qm_mReq m) tbl])
  | _ => Some (mkQState (qs_new s) (<[qm_mTbl m := mkQTables pending tbl]> (qs_heap s)) (qs_sent s), [])
  end.

(** The end of a query handler, once the messages went out: without any the request is
    answered at once and the tables are freed. *)
Definition finishAsking (pending : list string) (svc_tbl : T) (req : nat) (msgs : list QueryMsg) (s : QState) : QState * list QOut :=
  match msgs with
  | [] => (mkQState (S (qs_new s)) (qs_heap s) (qs_sent s), [QReply req svc_tbl])
  | _ => (mkQState (S (qs_new s)) (<[qs_new s := mkQTables pending svc_tbl]> (qs_heap s)) (qs_sent s ++ msgs), [])
  end.
End gather.

Arguments QTables : clear implicits.
Arguments QState : clear implicits.
Arguments QOut : clear implicits.

(** How a query message ends: it could not be sent, a status came (an error, a timeout, the
    loss of the peer), or a reply came, with a payload that could be read or not. *)
Inductive QueryEnd (T : Type) :=
  | QeAsyncError
  | QeStatus
  | QeReply (payload : option T).
Arguments QeAsyncError {T}.
Arguments QeStatus {T}.
Arguments QeReply {T} payload.

(** ** The tables of this host *)

Section tables.
Context {I : Indet}.

(** The session that asks: the address it uses on this host, if it is not local. *)
Abbreviation hostIp := (option string).

(** [setHostInfo] on a new entry. *)
Definition setHostInfo (ns : CNameServer) (host_ip : hostIp) : FdbMsgHostAddress :=
  let m := p_default I in
  mkHostAddress (default FDB_IP_ALL_INTERFACE host_ip) (mHostName ns) (ha_mAddressList m ++ populateNsAddrList ns)
    (ha_mTokenList m) (ha_mSvcAddrList m) (ha_mOptions m).

(** The process behind a service: that of its session, of the name server itself, or none. *)
Definition service_pid (session_pid : Z -> option Z) (own_pid : Z) (e : CSvcRegistryEntry) : Z :=
  match session_pid (re_mSid e) with
  | Some pid => pid
  | None => if bool_decide (re_mSvcName e = FDB_NAME_SERVER_NAME) then own_pid else 0
  end.

Definition dumpExportedSvcInfo (p : CIntraHostProxy) (svc_info_tbl : FdbMsgExportableSvcAddress) : FdbMsgExportableSvcAddress :=
  populateFromHostInfo_tbl (ih_mSvcAddrTbl p) svc_info_tbl FDB_EXPORTABLE_ANY.

Definition populateServerTable (ns : CNameServer) (proxies : smap string CIntraHostProxy) (session_pid : Z -> option Z) (own_pid : Z)
    (host_ip : hostIp) (is_local : bool) : FdbMsgServiceTable :=
  let services :=
    match mRegistryTbl ns with
    | [] => [mkServiceInfo (ns_setServiceInfo ns FdbMsgAddressList_new EmptyString EmptyString is_local 0 FDB_DEFAULT_INSTANCE) (setHostInfo ns host_ip)]
    | r => map (fun e =>
             let l := add_addresses FdbMsgAddressList_new (populateAddrList (re_mAddrTbl e) FDB_SOCKET_MAX FDB_EXPORTABLE_ANY) in
             mkServiceInfo (setEntryInfo ns l e is_local (service_pid session_pid own_pid e)) (setHostInfo ns host_ip)) (reg_entries r)
    end in
  mkServiceTable services (fold_left (fun t p => dumpExportedSvcInfo p.2 t) proxies (mkExportableSvcAddress [])).

(** [CNameProxyContainer::getHostTbl] *)
Definition container_getHostTbl (tbl : smap string NameProxy) (host_tbl : list FdbMsgHostAddress) : list FdbMsgHostAddress :=
  host_tbl ++ map (fun p =>
    let m := p_default I in
    let '(_, ns_addr) := parseUrl (Some (c_str (np_mNsUrl p.2))) CFdbSocketAddr_new in
    mkHostAddress p.1 (np_mHostName p.2) (ha_mAddressList m ++ [set_udp_port (fromSocketAddress FdbMsgAddressItem_new ns_addr) FDB_INET_PORT_INVALID])
      (ha_mTokenList m) (ha_mSvcAddrList m) (ha_mOptions m)) tbl.

(** [CNameServer::getHostTbl]: the hosts known through the host servers, those configured, and
    this one. *)
Definition getHostTbl (ns : CNameServer) (proxies : smap string CIntraHostProxy) (statics : smap string NameProxy) (host_ip : hostIp) : FdbMsgHostAddressList :=
  let host_tbl := fold_left (fun l p => container_getHostTbl (ih_mNameProxyTbl p.2) l) proxies [] in
  mkHostAddressList (container_getHostTbl statics host_tbl ++ [setHostInfo ns host_ip]) (mkExportableSvcAddress []).

(** Requests that are answered at once. *)
Definition onQueryServiceInterMachineReq ns proxies session_pid own_pid (host_ip : hostIp) : FdbMsgServiceTable :=
  populateServerTable ns proxies session_pid own_pid host_ip false.

Definition onQueryHostReq (ns : CNameServer) (proxies : smap string CIntraHostProxy) (statics : smap string NameProxy) (host_ip : hostIp) : FdbMsgHostAddressList :=
  getHostTbl ns proxies statics host_ip.

(** Subscriptions that are answered with the present state. *)
Definition ns_onHostOnlineReg (code : Z) (ns : CNameServer) (proxies : smap string CIntraHostProxy) (statics : smap string NameProxy) (host_ip : hostIp) :
    Z * FdbMsgHostAddressList := (code, getHostTbl ns proxies statics host_ip).

Definition onHostInfoReg (code : Z) (ns : CNameServer) : Z * FdbMsgHostInfo := (code, mkHostInfo (mHostName ns)).

Definition onWatchdogReg (code : Z) (getSession : Z -> option DogPeer) (o : ObjDog) : Z * list CFdbMsgProcessInfo :=
  (code, getDroppedProcesses getSession o).
End tables.

(** ** Services of all hosts *)

Definition service_tables_joined (dst src : FdbMsgServiceTable) : FdbMsgServiceTable :=
  mkServiceTable (vt_mServiceTbl dst ++ vt_mServiceTbl src) (vt_mExportedSvcTbl dst).

Definition finalizeServiceQuery := finalizeQuery service_tables_joined.

(** [CNameProxyContainer::prepareQueryService] *)
Definition prepareQueryService (tbl : smap string NameProxy) (pending_tbl : list string) : list string :=
  pending_tbl ++ map fst tbl.

(** [CInterNameProxy::queryServiceTbl]; [invoke] is whether the message is taken for sending. *)
Definition queryServiceTbl (invoke : bool) (p : NameProxy) : bool :=
  if np_connected p then invoke else false.

(** [CNameProxyContainer::sendQueryServiceReq]: the messages that were taken. *)
Definition sendQueryServiceReq (invoke : string -> bool) (tables req : nat) (tbl : smap string NameProxy) : list QueryMsg :=
  flat_map (fun p => let m := mkQueryMsg tables req p.1 in
                     if queryServiceTbl (invoke p.1) p.2 then [m] else []) tbl.

(** What a query of services meets: the proxies there are, whether messages are taken for
    sending, the name server, and the session that asks. *)
Record ServiceQuery := mkServiceQuery {
  sq_mHostProxyTbl : smap string CIntraHostProxy;
  sq_mStaticNameProxy : smap string NameProxy;
  sq_invoke : option string -> string -> bool;
  sq_server : CNameServer;
  sq_indet : Indet;
  sq_session_pid : Z -> option Z;
  sq_own_pid : Z;
  sq_hostIp : option string }.

Definition sq_local (a : ServiceQuery) : FdbMsgServiceTable :=
  populateServerTable (I := sq_indet a) (sq_server a) (sq_mHostProxyTbl a) (sq_session_pid a) (sq_own_pid a) (sq_hostIp a) true.

Definition onQueryServiceReq (a : ServiceQuery) (req : nat) (s : QState FdbMsgServiceTable) : QState FdbMsgServiceTable * list (QOut FdbMsgServiceTable) :=
  let pending_req := fold_left (fun l p => prepareQueryService (ih_mNameProxyTbl p.2) l) (sq_mHostProxyTbl a) [] in
  let pending_req := prepareQueryService (sq_mStaticNameProxy a) pending_req in
  let msgs := flat_map (fun p => sendQueryServiceReq (sq_invoke a (Some p.1)) (qs_new s) req (ih_mNameProxyTbl p.2)) (sq_mHostProxyTbl a) in
  let msgs := msgs ++ sendQueryServiceReq (sq_invoke a None) (qs_new s) req (sq_mStaticNameProxy a) in
  finishAsking pending_req (sq_local a) req msgs s.

(** [CQueryServiceMsg::onAsyncError], and [CInterNameProxy::onReply] for a query. *)
Definition np_query_ends (e : QueryEnd FdbMsgServiceTable) (m : QueryMsg) : QState FdbMsgServiceTable -> option (QState FdbMsgServiceTable * list (QOut FdbMsgServiceTable)) :=
  match e with
  | QeAsyncError => finalizeServiceQuery None m
  | QeStatus => finalizeServiceQuery None m
  | QeReply (Some svc_tbl) => finalizeServiceQuery (Some svc_tbl) m
  | QeReply None => finalizeServiceQuery None m
  end.

(** ** Services exported by all domains *)

Definition tables_joined (dst src : FdbMsgExportableSvcAddress) : FdbMsgExportableSvcAddress :=
  mkExportableSvcAddress (ex_mSvcAddrList dst ++ ex_mSvcAddrList src).

Definition all_tables_joined (dst src : FdbMsgAllExportableService) : FdbMsgAllExportableService :=
  mkAllExportableService (tables_joined (ae_mUpstreamTable dst) (ae_mUpstreamTable src))
    (tables_joined (ae_mLocalTable dst) (ae_mLocalTable src))
    (tables_joined (ae_mDownstreamTable dst) (ae_mDownstreamTable src)).

Definition finalizeExportableServiceQuery := finalizeQuery all_tables_joined.

Definition sendQueryExportableServiceReq (invoke : bool) (p : CIntraHostProxy) : bool :=
  if ih_connected p then invoke else false.

Record ExportQuery := mkExportQuery {
  xq_mHostProxyTbl : smap string CIntraHostProxy;
  xq_invoke : string -> bool }.

Definition no_exported : FdbMsgAllExportableService :=
  mkAllExportableService (mkExportableSvcAddress []) (mkExportableSvcAddress []) (mkExportableSvcAddress []).

Definition onQueryExportableServiceReq (a : ExportQuery) (req : nat) (s : QState FdbMsgAllExportableService) : QState FdbMsgAllExportableService * list (QOut FdbMsgAllExportableService) :=
  let pending_req := map fst (xq_mHostProxyTbl a) in
  let msgs := flat_map (fun p => let m := mkQueryMsg (qs_new s) req p.1 in
                                 if sendQueryExportableServiceReq (xq_invoke a p.1) p.2 then [m] else []) (xq_mHostProxyTbl a) in
  finishAsking pending_req no_exported req msgs s.

(** [CQueryExportedServiceMsg::onAsyncError], and [CIntraHostProxy::onReply] for a query. *)
Definition hp_query_ends (e : QueryEnd FdbMsgAllExportableService) (m : QueryMsg) : QState FdbMsgAllExportableService -> option (QState FdbMsgAllExportableService * list (QOut FdbMsgAllExportableService)) :=
  match e with
  | QeAsyncError => finalizeExportableServiceQuery None m
  | QeStatus => finalizeExportableServiceQuery None m
  | QeReply (Some svc_tbl) => finalizeExportableServiceQuery (Some svc_tbl) m
  | QeReply None => finalizeExportableServiceQuery None m
  end.

(** ** What the two have in common *)

(** [gq_targets]: the addresses that are asked in order, and whether the message to each goes
    out; [gq_local]: what is known without asking. *)
Class GatherQuery (A T : Type) := {
  gq_targets : A -> list (string * bool);
  gq_local : A -> T;
  gq_merge : T -> T -> T;
  gq_ask : A -> nat -> QState T -> QState T * list (QOut T);
  gq_end : QueryEnd T -> QueryMsg -> QState T -> option (QState T * list (QOut T)) }.

Definition messages_to (tables req : nat) (l : list (string * bool)) : list QueryMsg :=
  map (fun p => mkQueryMsg tables req p.1) (List.filter snd l).

(** What a query that ended brought. *)
Definition brought {T} (e : QueryEnd T) : option T := match e with QeReply r => r | _ => None end.

Class GatherLaws A T `{GatherQuery A T} : Prop := {
  gq_ask_law (a : A) req (s : QState T) :
    gq_ask a req s = finishAsking (map fst (gq_targets a)) (gq_local a) req (messages_to (qs_new s) req (gq_targets a)) s;
  gq_end_law e m (s : QState T) : gq_end e m s = finalizeQuery gq_merge (brought e) m s }.

#[export] Instance ServiceQuery_gather : GatherQuery ServiceQuery FdbMsgServiceTable := {|
  gq_targets := fun a =>
    let targets o tbl := map (fun p => (p.1, queryServiceTbl (sq_invoke a o p.1) p.2)) tbl in
    flat_map (fun p => targets (Some p.1) (ih_mNameProxyTbl p.2)) (sq_mHostProxyTbl a) ++ targets None (sq_mStaticNameProxy a);
  gq_local := sq_local; gq_merge := service_tables_joined;
  gq_ask := onQueryServiceReq; gq_end := np_query_ends |}.

#[export] Instance ExportQuery_gather : GatherQuery ExportQuery FdbMsgAllExportableService := {|
  gq_targets := fun a => map (fun p => (p.1, sendQueryExportableServiceReq (xq_invoke a p.1) p.2)) (xq_mHostProxyTbl a);
  gq_local := fun _ => no_exported; gq_merge := all_tables_joined;
  gq_ask := onQueryExportableServiceReq; gq_end := hp_query_ends |}.

Lemma fold_prepare (l : smap string CIntraHostProxy) acc :
  fold_left (fun l p => prepareQueryService (ih_mNameProxyTbl p.2) l) l acc = acc ++ flat_map (fun p => map fst (ih_mNameProxyTbl p.2)) l.
Proof.
  revert acc. induction l as [|p l IH]; intros acc; simpl; [by rewrite app_nil_r|].
  rewrite IH. unfold prepareQueryService. by rewrite <- (assoc_L (++)).
Qed.

Lemma messages_to_app tables req l k : messages_to tables req (l ++ k) = messages_to tables req l ++ messages_to tables req k.
Proof. unfold messages_to. by rewrite List.filter_app, map_app. Qed.

(** Sending to a table of proxies is sending to its targets. *)
Lemma messages_to_map {V} tables req (sent : string * V -> bool) (l : smap string V) :
  messages_to tables req (map (fun p => (p.1, sent p)) l) = flat_map (fun p => if sent p then [mkQueryMsg tables req p.1] else []) l.
Proof. unfold messages_to. induction l as [|p l IH]; simpl; [done|]. destruct (sent p); simpl; by rewrite IH. Qed.

#[export] Instance ServiceQuery_laws : GatherLaws ServiceQuery FdbMsgServiceTable.
Proof.
  split.
  - intros a req s. cbn [gq_ask gq_targets gq_local ServiceQuery_gather]. unfold onQueryServiceReq. cbv zeta.
    rewrite fold_prepare, messages_to_app, messages_to_map. unfold prepareQueryService. cbn [app]. f_equal.
    + rewrite map_app, map_map. f_equal. induction (sq_mHostProxyTbl a) as [|p l IH]; cbn [flat_map]; [done|].
      by rewrite map_app, map_map, IH.
    + f_equal. induction (sq_mHostProxyTbl a) as [|p l IH]; cbn [flat_map]; [done|].
      by rewrite messages_to_app, messages_to_map, IH.
  - by intros [| |[]] m s.
Qed.

#[export] Instance ExportQuery_laws : GatherLaws ExportQuery FdbMsgAllExportableService.
Proof.
  split.
  - intros a req s. cbn [gq_ask gq_targets gq_local ExportQuery_gather]. unfold onQueryExportableServiceReq. cbv zeta.
    by rewrite map_map, messages_to_map.
  - by intros [| |[]] m s.
Qed.

(** ** Runs *)

Inductive QEvent (A T : Type) :=
  | QvAsk (a : A)
  | QvEnd (m : QueryMsg) (e : QueryEnd T).
Arguments QvAsk {A T} a.
Arguments QvEnd {A T} m e.

Section runs.
Context {A T : Type} `{GatherLaws A T}.
Implicit Types s : QState T.
Implicit Types o : list (QOut T).

(** A request is numbered by its arrival; only a message that is under way can end. *)
Definition q_step (v : QEvent A T) s : option (QState T * list (QOut T)) :=
  match v with
  | QvAsk a => Some (gq_ask a (qs_new s) s)
  | QvEnd m e => gq_end e m s
  end.

Definition q_can (v : QEvent A T) s : Prop := match v with QvAsk _ => True | QvEnd m _ => m ∈ qs_sent s end.

Inductive q_run : QState T -> list (QEvent A T) -> QState T -> list (QOut T) -> Prop :=
  | q_run_nil s : q_run s [] s []
  | q_run_cons s v s1 o1 l s2 o2 :
      q_can v s -> q_step v s = Some (s1, o1) -> q_run s1 l s2 o2 -> q_run s (v :: l) s2 (o1 ++ o2).

(** The messages of a query that are under way, its replies, and what its messages brought. *)
Definition sent_for (id : nat) s : list QueryMsg := filter (fun m => qm_mTbl m = id) (qs_sent s).
Definition asked_for (id : nat) s : list string := qm_mHostIp <$> sent_for id s.
Definition replies_to (id : nat) o : list T := omap (fun r => let 'QReply req t := r in if decide (req = id) then Some t else None) o.
Definition results_of (id : nat) (l : list (QEvent A T)) : list T :=
  omap (fun v => match v with QvEnd m e => if decide (qm_mTbl m = id) then brought e else None | QvAsk _ => None end) l.

Record q_ok s : Prop := {
  qk_msgs m : m ∈ qs_sent s -> (qm_mTbl m < qs_new s)%nat /\ qm_mReq m = qm_mTbl m;
  qk_heap id q : qs_heap s !! id = Some q -> (id < qs_new s)%nat /\ asked_for id s ⊆+ qt_mPendingReqTbl q;
  qk_live m : m ∈ qs_sent s -> is_Some (qs_heap s !! qm_mTbl m) }.

(** ** One step *)

Lemma replies_to_app id o o' : replies_to id (o ++ o') = replies_to id o ++ replies_to id o'.
Proof. unfold replies_to. apply omap_app. Qed.

Lemma sent_for_perm m s s' : m ∈ qs_sent s -> qs_sent s' = drop_one m (qs_sent s) ->
  sent_for (qm_mTbl m) s ≡ₚ m :: sent_for (qm_mTbl m) s'.
Proof.
  intros Hm E. unfold sent_for. rewrite E. rewrite (drop_one_perm _ _ Hm) at 1.
  by rewrite filter_cons_True.
Qed.

Lemma sent_for_other m id s s' : m ∈ qs_sent s -> qs_sent s' = drop_one m (qs_sent s) -> qm_mTbl m <> id ->
  sent_for id s ≡ₚ sent_for id s'.
Proof.
  intros Hm E Hne. unfold sent_for. rewrite E. rewrite (drop_one_perm _ _ Hm) at 1.
  by rewrite filter_cons_False.
Qed.

Lemma sent_for_messages id tables req l :
  filter (fun m => qm_mTbl m = id) (messages_to tables req l) = if decide (tables = id) then messages_to tables req l else [].
Proof.
  unfold messages_to. induction (List.filter snd l) as [|p k IH]; simpl; [by case_decide|].
  rewrite filter_cons. simpl. case_decide; [by rewrite IH|done].
Qed.

Lemma asked_messages tables req l : qm_mHostIp <$> messages_to tables req l = map fst (List.filter snd l).
Proof. unfold messages_to. induction (List.filter snd l) as [|p k IH]; simpl; [done|]. by rewrite <- IH. Qed.

(** The end of a message of a well formed state. *)
Lemma end_cases m e s : q_ok s -> m ∈ qs_sent s -> exists q s' o,
  qs_heap s !! qm_mTbl m = Some q /\ gq_end e m s = Some (s', o)
  /\ qs_new s' = qs_new s /\ qs_sent s' = drop_one m (qs_sent s)
  /\ qt_mPendingReqTbl q ≡ₚ qm_mHostIp m :: drop_one (qm_mHostIp m) (qt_mPendingReqTbl q)
  /\ (forall id, id <> qm_mTbl m -> qs_heap s' !! id = qs_heap s !! id)
  /\ let t := match brought e with Some t => gq_merge (qt_mSvcTbl q) t | None => qt_mSvcTbl q end in
     match drop_one (qm_mHostIp m) (qt_mPendingReqTbl q) with
     | [] => qs_heap s' !! qm_mTbl m = None /\ o = [QReply (qm_mTbl m) t]
     | p => qs_heap s' !! qm_mTbl m = Some (mkQTables p t) /\ o = []
     end.
Proof.
  intros Hs Hm. destruct (qk_live _ Hs m Hm) as [q Hq]. exists q.
  assert (qm_mHostIp m ∈ qt_mPendingReqTbl q) as Hp.
  { eapply elem_of_submseteq; [|by apply (qk_heap _ Hs _ _ Hq)].
    apply list_elem_of_fmap. exists m. split; [done|]. by apply list_elem_of_filter. }
  pose proof (drop_one_perm _ _ Hp) as Hperm.
  destruct (qk_msgs _ Hs m Hm) as [_ Hreq].
  rewrite gq_end_law. unfold finalizeQuery. rewrite Hq. cbn [mbind option_bind].
  rewrite Hreq. destruct (drop_one (qm_mHostIp m) (qt_mPendingReqTbl q)) as [|ip l] eqn:El; eexists _, _;
    (split; [done|]); (split; [done|]); simpl;
    (split; [done|]); (split; [done|]); (split; [done|]).
  - split; [intros id Hne; by rewrite lookup_delete_ne|]. by rewrite lookup_delete_eq.
  - split; [intros id Hne; by rewrite lookup_insert_ne|]. by rewrite lookup_insert_eq.
Qed.

Lemma ask_sent a s s' o id : gq_ask a (qs_new s) s = (s', o) ->
  qs_new s' = S (qs_new s)
  /\ sent_for id s' = sent_for id s ++ (if decide (qs_new s = id) then messages_to (qs_new s) (qs_new s) (gq_targets a) else []).
Proof.
  rewrite gq_ask_law. unfold finishAsking, sent_for.
  destruct (messages_to _ _ _) as [|m0 l] eqn:El; intros [= <- <-]; simpl; (split; [done|]).
  - case_decide; by rewrite app_nil_r.
  - by rewrite filter_app, <- El, sent_for_messages.
Qed.

Lemma ask_heap a s s' o id : gq_ask a (qs_new s) s = (s', o) -> id <> qs_new s -> qs_heap s' !! id = qs_heap s !! id /\ replies_to id o = [].
Proof.
  rewrite gq_ask_law. unfold finishAsking. intros E Hne. destruct (messages_to _ _ _) as [|m0 l]; simplify_eq/=.
  - split; [done|]. unfold replies_to. simpl. by rewrite decide_False by congruence.
  - by rewrite lookup_insert_ne.
Qed.

Lemma sent_none s id : q_ok s -> (qs_new s <= id)%nat -> sent_for id s = [].
Proof.
  intros Hs Hid. destruct (sent_for id s) as [|m l] eqn:E; [done|].
  assert (m ∈ sent_for id s) as [<- Hm]%list_elem_of_filter by (rewrite E; by left).
  pose proof (qk_msgs _ Hs m Hm). lia.
Qed.

Lemma heap_none s id : q_ok s -> (qs_new s <= id)%nat -> qs_heap s !! id = None.
Proof. intros Hs Hid. destruct (_ !! id) as [q|] eqn:E; [|done]. apply (qk_heap _ Hs) in E. lia. Qed.

Lemma asked_filter_sub (l : list (string * bool)) : map fst (List.filter snd l) ⊆+ map fst l.
Proof. induction l as [|[ip []] l IH]; simpl; [done|by constructor|by constructor]. Qed.

Lemma ask_ok a s s' o : q_ok s -> gq_ask a (qs_new s) s = (s', o) -> q_ok s'.
Proof.
  intros Hs E. destruct (ask_sent a s s' o 0 E) as [Hn _].
  assert (forall m, m ∈ qs_sent s' -> m ∈ qs_sent s \/ (m ∈ messages_to (qs_new s) (qs_new s) (gq_targets a) /\ qm_mTbl m = qs_new s /\ qm_mReq m = qs_new s)) as Hel.
  { intros m Hm. assert (m ∈ sent_for (qm_mTbl m) s') as Hf by by apply list_elem_of_filter.
    destruct (ask_sent a s s' o (qm_mTbl m) E) as [_ Hf']. rewrite Hf' in Hf.
    apply elem_of_app in Hf as [Hf%list_elem_of_filter|Hf]; [by left; destruct Hf|]. right.
    case_decide as Hd; [|by apply not_elem_of_nil in Hf]. split; [done|]. split; [done|].
    unfold messages_to in Hf. apply list_elem_of_In, in_map_iff in Hf as (p & <- & _). done. }
  split.
  - intros m [Hm|(Hm & -> & ->)]%Hel; [|lia]. destruct (qk_msgs _ Hs m Hm). split; [lia|done].
  - intros id q Hq. destruct (decide (id = qs_new s)) as [->|Hne].
    + split; [lia|]. revert Hq. unfold asked_for. rewrite (proj2 (ask_sent a s s' o (qs_new s) E)), (sent_none s (qs_new s) Hs) by lia.
      rewrite decide_True by done. cbn [app]. rewrite asked_messages.
      revert E. rewrite gq_ask_law. unfold finishAsking.
      destruct (messages_to _ _ _) eqn:Em; intros [= <- <-]; simpl.
      * by rewrite heap_none by (done || lia).
      * rewrite lookup_insert_eq. intros [= <-]. simpl. apply asked_filter_sub.
    + rewrite (proj1 (ask_heap a s s' o id E Hne)) in Hq. destruct (qk_heap _ Hs id q Hq). split; [lia|].
      unfold asked_for. rewrite (proj2 (ask_sent a s s' o id E)), decide_False by congruence. by rewrite app_nil_r.
  - intros m [Hm|(Hm & -> & _)]%Hel.
    + pose proof (qk_msgs _ Hs m Hm). rewrite (proj1 (ask_heap a s s' o (qm_mTbl m) E ltac:(lia))). by apply (qk_live _ Hs).
    + revert E. rewrite gq_ask_law. unfold finishAsking.
      destruct (messages_to _ _ _); [by apply not_elem_of_nil in Hm|]. intros [= <- <-]; simpl. by rewrite lookup_insert_eq.
Qed.

Lemma query_end_ok m e s s' o : q_ok s -> m ∈ qs_sent s -> gq_end e m s = Some (s', o) -> q_ok s'.
Proof.
  intros Hs Hm E. destruct (end_cases m e s Hs Hm) as (q & s1 & o1 & Hq & E1 & Hn & Hsent & Hp & Hother & Hcase). simplify_eq.
  pose proof (drop_one_perm _ _ Hm) as Hperm. rewrite <- Hsent in Hperm.
  assert (forall k, k ∈ qs_sent s' -> k ∈ qs_sent s) as Hsub by (intros k Hk; rewrite Hperm; by right).
  pose proof (sent_for_perm m s s' Hm Hsent) as Hmine.
  destruct (qk_heap _ Hs _ _ Hq) as [Hlt Hask].
  assert (asked_for (qm_mTbl m) s' ⊆+ drop_one (qm_mHostIp m) (qt_mPendingReqTbl q)) as Hask'.
  { unfold asked_for in *. rewrite Hmine, Hp in Hask. simpl in Hask. by apply (submseteq_app_inv_l _ _ [qm_mHostIp m]). }
  split.
  - intros k Hk. rewrite Hn. by apply (qk_msgs _ Hs), Hsub.
  - intros id q' Hq'. rewrite Hn. destruct (decide (id = qm_mTbl m)) as [->|Hne].
    + split; [done|]. destruct (drop_one _ (qt_mPendingReqTbl q)); destruct Hcase as [Hc _]; [congruence|].
      rewrite Hc in Hq'. simplify_eq. done.
    + rewrite Hother in Hq' by done. destruct (qk_heap _ Hs _ _ Hq'). split; [done|]. unfold asked_for in *.
      by rewrite <- (sent_for_other m id s s' Hm Hsent) by congruence.
  - intros k Hk. destruct (decide (qm_mTbl k = qm_mTbl m)) as [Heq|Hne].
    + assert (qm_mHostIp k ∈ asked_for (qm_mTbl m) s') as Hin.
      { apply list_elem_of_fmap. exists k. split; [done|]. by apply list_elem_of_filter. }
      eapply elem_of_submseteq in Hin; [|exact Hask']. rewrite Heq.
      destruct (drop_one _ (qt_mPendingReqTbl q)); [by apply not_elem_of_nil in Hin|]. destruct Hcase as [-> _]. done.
    + rewrite Hother by done. by apply (qk_live _ Hs), Hsub.
Qed.

Lemma q_run_ok s l s' o : q_run s l s' o -> q_ok s -> q_ok s'.
Proof.
  induction 1 as [|s v s1 o1 l s2 o2 Hc E _ IH]; [done|]. intros Hs. apply IH.
  destruct v as [a|m e]; simpl in *; [simplify_eq; by eapply ask_ok|by eapply query_end_ok].
Qed.

Lemma QState_new_ok : q_ok QState_new.
Proof. split; simpl; [intros m ?%not_elem_of_nil; done|intros id q; by rewrite lookup_empty|intros m ?%not_elem_of_nil; done]. Qed.

(** ** The life of one query *)

(** A query waits with all its hosts asked, waits for a host that was not asked, or is over. *)
Definition q_waiting (id : nat) (t : T) s : Prop :=
  sent_for id s <> [] /\ exists p, qs_heap s !! id = Some (mkQTables p t) /\ p ≡ₚ asked_for id s.
Definition q_stuck (id : nat) s : Prop :=
  exists q, qs_heap s !! id = Some q /\ (length (sent_for id s) < length (qt_mPendingReqTbl q))%nat.
Definition q_over (id : nat) s : Prop := qs_heap s !! id = None /\ sent_for id s = [].

Definition joined (t : T) (l : list T) : T := fold_left gq_merge l t.

(** The event is not about this query. *)
Definition q_elsewhere (id : nat) (v : QEvent A T) : Prop := match v with QvEnd m _ => qm_mTbl m <> id | QvAsk _ => True end.

Lemma q_elsewhere_or id v : q_elsewhere id v \/ exists m e, v = QvEnd m e /\ qm_mTbl m = id.
Proof. destruct v as [a|m e]; [by left|]. destruct (decide (qm_mTbl m = id)); [right; eauto|by left]. Qed.

(** A step of another query changes nothing for this one. *)
Lemma step_other id v s s' o :
  q_ok s -> (id < qs_new s)%nat -> q_can v s -> q_step v s = Some (s', o) ->
  q_elsewhere id v ->
  qs_heap s' !! id = qs_heap s !! id /\ sent_for id s ≡ₚ sent_for id s' /\ replies_to id o = [] /\ results_of id [v] = [] /\ (qs_new s <= qs_new s')%nat.
Proof.
  intros Hs Hid Hc E Hv. destruct v as [a|m e]; simpl in Hc, E.
  - apply Some_inj in E. destruct (ask_heap a s s' o id E ltac:(lia)) as [-> ->]. destruct (ask_sent a s s' o id E) as [-> ->].
    rewrite decide_False by lia. rewrite app_nil_r. repeat split; try done. lia.
  - destruct (end_cases m e s Hs Hc) as (q & s1 & o1 & Hq & E1 & Hn & Hsent & Hp & Hother & Hcase). simplify_eq.
    rewrite Hother by congruence. rewrite (sent_for_other m id s s' Hc Hsent Hv). unfold results_of. simpl. rewrite decide_False by done.
    repeat split; try done; [|lia].
    cbv zeta in Hcase. destruct (drop_one (qm_mHostIp m) _); destruct Hcase as [_ ->]; [|done]. unfold replies_to. simpl. by rewrite decide_False by congruence.
Qed.

(** The end of a message of this query: one host less is asked and pending; the reply goes out
    when none is pending. *)
Lemma step_mine m e s s' o : q_ok s -> m ∈ qs_sent s -> gq_end e m s = Some (s', o) ->
  exists q, qs_heap s !! qm_mTbl m = Some q /\ sent_for (qm_mTbl m) s ≡ₚ m :: sent_for (qm_mTbl m) s'
  /\ qs_new s' = qs_new s
  /\ exists p, qt_mPendingReqTbl q ≡ₚ qm_mHostIp m :: p
  /\ let t := joined (qt_mSvcTbl q) (results_of (qm_mTbl m) [QvEnd (A := A) m e]) in
     (p = [] /\ qs_heap s' !! qm_mTbl m = None /\ replies_to (qm_mTbl m) o = [t]
      \/ p <> [] /\ qs_heap s' !! qm_mTbl m = Some (mkQTables p t) /\ replies_to (qm_mTbl m) o = []).
Proof.
  intros Hs Hm E. destruct (end_cases m e s Hs Hm) as (q & s1 & o1 & Hq & E1 & Hn & Hsent & Hp & _ & Hcase). simplify_eq.
  exists q. split; [done|]. split; [by apply sent_for_perm|]. split; [done|]. eexists. split; [exact Hp|].
  unfold results_of. simpl. rewrite decide_True by done.
  cbv zeta in Hcase. destruct (drop_one (qm_mHostIp m) _) as [|ip p]; destruct Hcase as [-> ->]; [left|right]; unfold replies_to; simpl.
  - rewrite decide_True by done. by destruct (brought e).
  - by destruct (brought e).
Qed.

Lemma step_waiting id t v s s' o :
  q_ok s -> (id < qs_new s)%nat -> q_can v s -> q_step v s = Some (s', o) -> q_waiting id t s ->
  let t' := joined t (results_of id [v]) in
  (id < qs_new s')%nat /\ (q_waiting id t' s' /\ replies_to id o = [] \/ q_over id s' /\ replies_to id o = [t']).
Proof.
  intros Hs Hid Hc E [Hne (p & Hq & Hp)]. cbv zeta.
  destruct (q_elsewhere_or id v) as [Hv|(m & e & -> & <-)].
  - destruct (step_other id v s s' o Hs Hid Hc E Hv) as (Hh & Hsf & -> & -> & Hn). split; [lia|]. left. split; [|done].
    split; [intros Hnil; rewrite Hnil in Hsf; by apply Permutation_nil_r in Hsf|].
    exists p. rewrite Hh. split; [done|]. unfold asked_for in *. by rewrite <- Hsf.
  - destruct (step_mine m e s s' o Hs Hc E) as (q & Hq' & Hsf & Hn & p' & Hp' & Hcase). simplify_eq/=. split; [lia|].
    assert (p' ≡ₚ asked_for (qm_mTbl m) s') as Hp''.
    { unfold asked_for in *. rewrite Hsf in Hp. simpl in Hp. rewrite Hp' in Hp. by apply Permutation_cons_inv in Hp. }
    destruct Hcase as [(-> & Hh & Hr)|(Hpn & Hh & Hr)]; [right|left].
    + split; [|done]. split; [done|]. apply Permutation_nil_l in Hp''. unfold asked_for in Hp''. symmetry in Hp''. by apply fmap_nil_inv in Hp''.
    + split; [|done]. split; [|by exists p']. intros Hnil. apply Hpn. unfold asked_for in Hp''. rewrite Hnil in Hp''. by apply Permutation_nil_r in Hp''.
Qed.

Lemma step_stuck id v s s' o :
  q_ok s -> (id < qs_new s)%nat -> q_can v s -> q_step v s = Some (s', o) -> q_stuck id s ->
  (id < qs_new s')%nat /\ q_stuck id s' /\ replies_to id o = [].
Proof.
  intros Hs Hid Hc E (q & Hq & Hlt).
  destruct (q_elsewhere_or id v) as [Hv|(m & e & -> & <-)].
  - destruct (step_other id v s s' o Hs Hid Hc E Hv) as (Hh & Hsf & -> & _ & Hn). split; [lia|]. split; [|done].
    exists q. by rewrite Hh, <- (Permutation_length Hsf).
  - destruct (step_mine m e s s' o Hs Hc E) as (q' & Hq' & Hsf & Hn & p' & Hp' & Hcase). simplify_eq/=. split; [lia|].
    apply Permutation_length in Hsf, Hp'. simpl in Hsf, Hp'.
    destruct Hcase as [(-> & Hh & Hr)|(Hpn & Hh & Hr)]; [simpl in Hp'; lia|].
    split; [|done]. eexists. split; [exact Hh|]. simpl. lia.
Qed.

Lemma step_over id v s s' o :
  q_ok s -> (id < qs_new s)%nat -> q_can v s -> q_step v s = Some (s', o) -> q_over id s ->
  (id < qs_new s')%nat /\ q_over id s' /\ replies_to id o = [] /\ results_of id [v] = [].
Proof.
  intros Hs Hid Hc E [Hh Hsf].
  assert (q_elsewhere id v) as Hv.
  { destruct v as [a|m e]; [done|]. intros <-. simpl in Hc. destruct (qk_live _ Hs m Hc). congruence. }
  destruct (step_other id v s s' o Hs Hid Hc E Hv) as (Hh' & Hsf' & -> & -> & Hn). split; [lia|].
  split; [|done]. split; [by rewrite Hh'|]. rewrite Hsf in Hsf'. by apply Permutation_nil_l in Hsf'.
Qed.

(** Along a run. *)
Lemma results_cons id v l : results_of id (v :: l) = results_of id [v] ++ results_of id l.
Proof. unfold results_of. simpl. by destruct (match v with QvEnd _ _ => _ | _ => _ end). Qed.

Lemma step_ok v s s' o : q_ok s -> q_can v s -> q_step v s = Some (s', o) -> q_ok s'.
Proof. intros Hs Hc E. eapply q_run_ok; [|exact Hs]. eapply (q_run_cons _ v); [done..|constructor]. Qed.

Lemma run_over id s l s' o : q_run s l s' o -> q_ok s -> (id < qs_new s)%nat -> q_over id s ->
  q_over id s' /\ replies_to id o = [] /\ results_of id l = [].
Proof.
  induction 1 as [|s v s1 o1 l s2 o2 Hc E _ IH]; [done|]. intros Hs Hid Hov.
  destruct (step_over id v s s1 o1 Hs Hid Hc E Hov) as (Hid' & Hov' & Hr & Hres).
  destruct IH as (? & Hr' & Hres'); [by eapply step_ok|done..|]. by rewrite replies_to_app, results_cons, Hr, Hr', Hres, Hres'.
Qed.

Lemma run_stuck id s l s' o : q_run s l s' o -> q_ok s -> (id < qs_new s)%nat -> q_stuck id s -> replies_to id o = [].
Proof.
  induction 1 as [|s v s1 o1 l s2 o2 Hc E _ IH]; [done|]. intros Hs Hid Hst.
  destruct (step_stuck id v s s1 o1 Hs Hid Hc E Hst) as (Hid' & Hst' & Hr).
  rewrite replies_to_app, Hr. apply IH; [by eapply step_ok|done..].
Qed.

Lemma run_waiting id t s l s' o : q_run s l s' o -> q_ok s -> (id < qs_new s)%nat -> q_waiting id t s ->
  let t' := joined t (results_of id l) in
  q_waiting id t' s' /\ replies_to id o = [] \/ q_over id s' /\ replies_to id o = [t'].
Proof.
  intros Hr. revert t. induction Hr as [|s v s1 o1 l s2 o2 Hc E Hr IH]; intros t Hs Hid Hw; [by left|]. cbv zeta.
  rewrite replies_to_app, results_cons. unfold joined. rewrite fold_left_app.
  destruct (step_waiting id t v s s1 o1 Hs Hid Hc E Hw) as (Hid' & [[Hw' ->]|[Hov ->]]).
  - apply IH; [by eapply step_ok|done..].
  - destruct (run_over id s1 l s2 o2 Hr) as (Hov' & -> & ->); [by eapply step_ok|done..|]. by right.
Qed.

(** Where a query starts. *)
Lemma targets_all (l : list (string * bool)) : forallb snd l = true -> List.filter snd l = l.
Proof. induction l as [|[ip []] l IH]; simpl; [done|intros; by rewrite IH|done]. Qed.

Lemma targets_some (l : list (string * bool)) : forallb snd l = false -> (length (List.filter snd l) < length l)%nat.
Proof.
  assert (forall k : list (string * bool), (length (List.filter snd k) <= length k)%nat) as Hle
    by (intros k; induction k as [|[ip []] k IH]; simpl; lia).
  induction l as [|[ip []] l IH]; simpl; [done|intros; specialize (IH ltac:(done)); lia|]. specialize (Hle l). lia.
Qed.

Lemma ask_starts a s s' o : q_ok s -> gq_ask a (qs_new s) s = (s', o) ->
  match List.filter snd (gq_targets a) with
  | [] => q_over (qs_new s) s' /\ replies_to (qs_new s) o = [gq_local a]
  | _ => replies_to (qs_new s) o = [] /\ if forallb snd (gq_targets a) then q_waiting (qs_new s) (gq_local a) s' else q_stuck (qs_new s) s'
  end.
Proof.
  intros Hs E. destruct (ask_sent a s s' o (qs_new s) E) as [_ Hsf]. rewrite decide_True in Hsf by done.
  rewrite (sent_none s) in Hsf by (done || lia). cbn [app] in Hsf.
  revert E. rewrite gq_ask_law. unfold finishAsking. unfold messages_to in *.
  destruct (List.filter snd (gq_targets a)) as [|x k] eqn:Ef; cbn [map] in *; intros [= <- <-].
  - split; [split; [apply (heap_none s); [done|lia]|done]|]. unfold replies_to. simpl. by rewrite decide_True.
  - split; [done|]. destruct (forallb snd _) eqn:Ea.
    + split; [by rewrite Hsf|]. eexists. split; [by apply lookup_insert_eq|]. unfold asked_for. rewrite Hsf.
      rewrite (targets_all _ Ea) in Ef. rewrite Ef. simpl. by rewrite <- list_fmap_compose.
    + eexists. split; [by apply lookup_insert_eq|]. rewrite Hsf. simpl. apply targets_some in Ea. rewrite Ef in Ea. simpl in Ea.
      rewrite !length_map. done.
Qed.

(** A query in any run: no message touches tables that were freed, and the replies. *)
Lemma gather_answered l0 s o0 a s1 o1 l s2 o2 :
  q_run QState_new l0 s o0 -> gq_ask a (qs_new s) s = (s1, o1) -> q_run s1 l s2 o2 ->
  (forall m e, m ∈ qs_sent s2 -> is_Some (gq_end e m s2))
  /\ replies_to (qs_new s) (o1 ++ o2) =
       match List.filter snd (gq_targets a) with
       | [] => [gq_local a]
       | _ => if forallb snd (gq_targets a)
              then match sent_for (qs_new s) s2 with [] => [joined (gq_local a) (results_of (qs_new s) l)] | _ => [] end
              else []
       end.
Proof.
  intros Hr0 Ha Hr. pose proof (q_run_ok _ _ _ _ Hr0 QState_new_ok) as Hs.
  pose proof (ask_ok a s s1 o1 Hs Ha) as Hs1. pose proof (q_run_ok _ _ _ _ Hr Hs1) as Hs2.
  destruct (ask_sent a s s1 o1 0 Ha) as [Hn _]. assert (qs_new s < qs_new s1)%nat as Hid by lia. split.
  - intros m e Hm. destruct (end_cases m e s2 Hs2 Hm) as (q & s' & o & _ & -> & _). eauto.
  - pose proof (ask_starts a s s1 o1 Hs Ha) as Hst. rewrite replies_to_app.
    destruct (List.filter snd _) as [|x k]; destruct Hst as [Hst1 Hst2].
    + destruct (run_over _ _ _ _ _ Hr Hs1 Hid Hst1) as (_ & -> & _). by rewrite Hst2.
    + rewrite Hst1. cbn [app]. destruct (forallb snd _).
      * destruct (run_waiting _ _ _ _ _ _ Hr Hs1 Hid Hst2) as [[[Hne _] ->]|[[_ ->] ->]]; [|done]. by destruct (sent_for _ s2).
      * by apply (run_stuck _ _ _ _ _ Hr).
Qed.
End runs.

Arguments q_run {A T _} _ _ _ _.

(** ** The answers of the name server *)

(** C39: Queries the name server passes on to other hosts, for services and for exported
    services.  Whatever queries overlap, and however and in whatever order their messages end
    (a reply, a payload that cannot be read, a status, a failure to send), no message touches
    tables that were freed.  A query that reaches nobody is answered at once with what is known
    here; one whose messages all went out is answered exactly once, when the last of them has
    ended, with what is known here followed by what came back, in order, errors counting as
    nothing; one with a host that could not be asked is never answered. *)
Theorem queries_answered :
  (forall l0 s o0 (a : ServiceQuery) s1 o1 l s2 o2,
     q_run (A := ServiceQuery) QState_new l0 s o0 -> onQueryServiceReq a (qs_new s) s = (s1, o1) -> q_run (A := ServiceQuery) s1 l s2 o2 ->
     (forall m e, m ∈ qs_sent s2 -> is_Some (np_query_ends e m s2))
     /\ replies_to (qs_new s) (o1 ++ o2) =
          match List.filter snd (gq_targets a) with
          | [] => [sq_local a]
          | _ => if forallb snd (gq_targets a)
                 then match sent_for (qs_new s) s2 with [] => [fold_left service_tables_joined (results_of (qs_new s) l) (sq_local a)] | _ => [] end
                 else []
          end)
  /\ (forall l0 s o0 (a : ExportQuery) s1 o1 l s2 o2,
     q_run (A := ExportQuery) QState_new l0 s o0 -> onQueryExportableServiceReq a (qs_new s) s = (s1, o1) -> q_run (A := ExportQuery) s1 l s2 o2 ->
     (forall m e, m ∈ qs_sent s2 -> is_Some (hp_query_ends e m s2))
     /\ replies_to (qs_new s) (o1 ++ o2) =
          match List.filter snd (gq_targets a) with
          | [] => [no_exported]
          | _ => if forallb snd (gq_targets a)
                 then match sent_for (qs_new s) s2 with [] => [fold_left all_tables_joined (results_of (qs_new s) l) no_exported] | _ => [] end
                 else []
          end).
Proof.
  split; intros l0 s o0 a s1 o1 l s2 o2.
  - exact (gather_answered (A := ServiceQuery) l0 s o0 a s1 o1 l s2 o2).
  - exact (gather_answered (A := ExportQuery) l0 s o0 a s1 o1 l s2 o2).
Qed.

Lemma joined_services (l : list FdbMsgServiceTable) t :
  vt_mServiceTbl (fold_left service_tables_joined l t) = vt_mServiceTbl t ++ flat_map vt_mServiceTbl l.
Proof. revert t. induction l as [|x l IH]; intros t; simpl; [by rewrite app_nil_r|]. rewrite IH. simpl. by rewrite <- (assoc_L (++)). Qed.

(** A name server lists each of its services, by name and instance, and a single entry without
    a name when it has none. *)
Lemma populateServerTable_lists {I : Indet} ns proxies session_pid own_pid host_ip is_local :
  map (fun i => (al_mServiceName (vi_mServiceAddr i), al_mInstanceId (vi_mServiceAddr i))) (vt_mServiceTbl (populateServerTable ns proxies session_pid own_pid host_ip is_local)) =
  match mRegistryTbl ns with [] => [(EmptyString, FDB_DEFAULT_INSTANCE)] | r => map (fun e => (c_str (re_mSvcName e), re_mInstanceId e)) (reg_entries r) end.
Proof. unfold populateServerTable. destruct (mRegistryTbl ns) as [|x r]; [done|]. cbn [vt_mServiceTbl]. by rewrite map_map. Qed.

(** Two hosts are asked; one answers, the other one times out. *)
Definition lab_query (connected : bool) : ServiceQuery :=
  mkServiceQuery [("hs"%string, mkIntraHostProxy [("10.0.0.1"%string, mkNameProxy "a" "tcp://10.0.0.1:60002" true);
                                                  ("10.0.0.2"%string, mkNameProxy "b" "tcp://10.0.0.2:60002" connected)] [] true "10.0.0.9")] []
    (fun _ _ => true) (CNameServer_new "me" 0 0 0 false) 0 (fun _ => None) 1 None.

Definition lab_answer : FdbMsgServiceTable :=
  mkServiceTable [mkServiceInfo (mkAddressList "svc" "a" "ep" EmptyString 0 true 7 [] (mkTokens []) 0)
                    (mkHostAddress "10.0.0.1" "a" [] (mkTokens []) (mkExportableSvcAddress []) 0)] (mkExportableSvcAddress []).

Definition lab_ends : list (QEvent ServiceQuery FdbMsgServiceTable) :=
  [QvEnd (mkQueryMsg 0 0 "10.0.0.2") QeStatus; QvEnd (mkQueryMsg 0 0 "10.0.0.1") (QeReply (Some lab_answer))].

(** The events of a list from a state. *)
Definition q_exec (l : list (QEvent ServiceQuery FdbMsgServiceTable)) (s : QState FdbMsgServiceTable) : option (QState FdbMsgServiceTable * list (QOut FdbMsgServiceTable)) :=
  fold_left (fun r v => '(s, o) ← r; '(s', o') ← q_step v s; Some (s', o ++ o')) l (Some (s, [])).

Lemma queries_answered_witness :
  exists s2 o2, q_run (A := ServiceQuery) (onQueryServiceReq (lab_query true) 0 QState_new).1 lab_ends s2 o2
  /\ replies_to 0 ((onQueryServiceReq (lab_query true) 0 QState_new).2 ++ o2) = [service_tables_joined (sq_local (lab_query true)) lab_answer].
Proof.
  eexists _, _.
  eassert (q_run (A := ServiceQuery) (onQueryServiceReq (lab_query true) 0 QState_new).1 lab_ends _ _) as Hr.
  { eapply q_run_cons; [vm_compute; right; left|vm_compute; reflexivity|].
    eapply q_run_cons; [vm_compute; left|vm_compute; reflexivity|]. apply q_run_nil. }
  split; [exact Hr|].
  pose proof (proj1 queries_answered [] QState_new [] (lab_query true) _ _ lab_ends _ _ (q_run_nil _) (surjective_pairing _) Hr) as [_ E].
  etransitivity; [exact E|vm_compute; reflexivity].
Defined.

(** A host whose proxy is not connected is counted as pending and never asked: the answer of
    the other one is collected, and the request is not answered. *)
Example unreachable_host_blocks :
  let '(s, o) := onQueryServiceReq (lab_query false) 0 QState_new in
  match q_exec [QvEnd (mkQueryMsg 0 0 "10.0.0.1") (QeReply (Some lab_answer))] s with
  | Some (s', o') => o ++ o' = [] /\ qs_sent s' = [] /\ qt_mPendingReqTbl <$> (qs_heap s' !! 0%nat) = Some ["10.0.0.2"%string]
  | None => False
  end.
Proof. vm_compute. by split. Qed.
