(* ===== verification/HostLink.v ===== *)
(** How a name server joins a host server: src/server/CIntraHostProxy.cpp and
    src/server/CBaseHostProxy.cpp.

    Once connected, the name server registers its host, takes the tokens it is given, binds its
    own addresses on the network, reports them, and then subscribes to the hosts of the domain.
    [HostLink] is the part of [CIntraHostProxy] this is about, with the tokens of the name
    server; [HlOut] is what is sent.  The handlers of the name server are those of NameServer.v,
    and [host_joins] runs the exchange against the handlers of HostServer.v. *)
From S2P Require Import Prelude StdMap CommonDefs Serializer Codec WireBase NsMessages SocketFactory AddressAllocator SvcAddrUtils Subscribe EventObject NameServer Security HostServer HostProxy Watchdog Query.
Open Scope list_scope.
Open Scope Z_scope.

(** ** Data *)

Record HostLink := mkHostLink {
  hn_mSelfIp : string;
  hn_mDomainName : string;
  hn_mConnectTimer : ConnectTimer;
  hn_connected : bool;
  hn_tokens : list string }.

Inductive HlOut :=
  | HlSubscribeHeartBeat
  | HlRegister (m : FdbMsgHostRegisterReq)       (* REQ_REGISTER_LOCAL_HOST *)
  | HlUnregister (m : FdbMsgHostRegisterReq)     (* REQ_UNREGISTER_LOCAL_HOST *)
  | HlReady (m : FdbMsgHostAddress)              (* REQ_LOCAL_HOST_READY *)
  | HlSubscribeHosts                             (* NTF_HOST_ONLINE and NTF_EXPORT_SVC_ADDRESS_INTERNAL *)
  | HlPost (t : FdbMsgExportableSvcAddress)      (* REQ_POST_LOCAL_SVC_ADDRESS *)
  | HlHeartBeatOk
  | HlHostsLocal (l : FdbMsgHostAddressList)     (* NTF_HOST_ONLINE_LOCAL, to the clients of the name server *)
  | HlUpdateLevels (tokens : list string)        (* updateSecurityLevel of the name server *)
  | HlNs (o : NsOut).

Implicit Types x : HostLink.

Section link.
Context (env : NsEnv).
Let link_indet : Indet := env_indet env.
#[local] Existing Instance link_indet.

(** The address this host goes by. *)
Definition link_ip x : string :=
  if bool_decide (hn_mSelfIp x = EmptyString) || bool_decide (hn_mSelfIp x = FDB_LOCAL_HOST)
  then FDB_IP_ALL_INTERFACE else c_str (hn_mSelfIp x).

(** [hostOnline(code)]; no credential is set. *)
Definition register_req (ns : CNameServer) x : FdbMsgHostRegisterReq :=
  mkHostRegisterReq (link_ip x) (mHostName ns) EmptyString 0.
Definition hostOnline (ns : CNameServer) x : list HlOut := [HlRegister (register_req ns x)].
Definition hostOffline (ns : CNameServer) x : list HlOut := [HlUnregister (register_req ns x)].

(** [session_ip] is what [hostIp] of the new session gives; nothing for a local one. *)
Definition ih_onOnline (ns : CNameServer) (session_ip : option string) x : HostLink * list HlOut :=
  let ip := if bool_decide (hn_mSelfIp x = EmptyString) then default (hn_mSelfIp x) session_ip else hn_mSelfIp x in
  let x := mkHostLink ip (hn_mDomainName x) MODE_IDLE true (hn_tokens x) in
  (x, HlSubscribeHeartBeat :: hostOnline ns x).

Definition ih_onOffline (ns : CNameServer) (proxies : smap string CIntraHostProxy) (statics : smap string NameProxy) (session_ip : option string) x :
    CNameServer * HostLink * list HlOut :=
  let '(ns, outs) := onHostOnline env ns false true (hn_mDomainName x) in
  (ns, mkHostLink (hn_mSelfIp x) (hn_mDomainName x) MODE_RECONNECT_TO_SERVER false (hn_tokens x),
   map HlNs outs ++ [HlHostsLocal (getHostTbl ns proxies statics session_ip)]).

Definition ih_onHeartbeatOk x : HostLink * list HlOut :=
  (mkHostLink (hn_mSelfIp x) (hn_mDomainName x) MODE_HEARTBEAT (hn_connected x) (hn_tokens x), [HlHeartBeatOk]).

Definition ih_postSvcTable (t : FdbMsgExportableSvcAddress) x : list HlOut := if hn_connected x then [HlPost t] else [].

(** The report of this host: its address, the addresses of its name server and the services it
    exports. *)
Definition host_report (ns : CNameServer) x : FdbMsgHostAddress :=
  let m := p_default (env_indet env) in
  mkHostAddress (link_ip x) (mHostName ns) (ha_mAddressList m ++ populateNsAddrList ns) (ha_mTokenList m)
    (mkExportableSvcAddress (populateExportAddrList ns)) (ha_mOptions m).

(** The answer to the registration; [local] is whether the host server is on this host. *)
Definition ih_onRegisterAck (local : bool) (ack : option FdbMsgHostRegisterAck) (ns : CNameServer) x : CNameServer * HostLink * list HlOut :=
  match ack with
  | None => (ns, x, [])
  | Some ack =>
      let '(updated, tokens) := if FdbMsgHostRegisterAck_has_token_list ack then importTokens (hn_tokens x) (tk_mTokens (hk_mTokenList ack))
                                else (false, hn_tokens x) in
      let x := mkHostLink (hn_mSelfIp x) (hk_mDomainName ack) (hn_mConnectTimer x) (hn_connected x) tokens in
      let '(ns, outs) := onHostOnline env ns true local (hk_mDomainName ack) in
      (ns, x, (if updated : bool then [HlUpdateLevels tokens] else []) ++ map HlNs outs ++ [HlReady (host_report ns x); HlSubscribeHosts])
  end.

End link.

(** ** Joining *)

(** What the host server does with a message of the link, on session [sid]. *)
Definition host_receives {I : Indet} {E : HsEnv} (sid : Z) (drawn : list string) (o : HlOut) (s : CHostServer) : CHostServer * list HsOut :=
  match o with
  | HlRegister m => onRegisterLocalHostReq sid (Some m) drawn s
  | HlReady m => onLocalHostReady sid (Some m) s
  | HlSubscribeHosts => let '(s, o) := onHostOnlineReg sid s in let '(s, o') := onLocalSvcOnlineReg sid s in (s, o ++ o')
  | HlPost t => onPostLocalSvcAddress sid (Some t) s
  | HlHeartBeatOk => onHeartbeatOk sid s
  | _ => (s, [])
  end.

Fixpoint host_receives_all {I : Indet} {E : HsEnv} (sid : Z) (drawn : list string) (l : list HlOut) (s : CHostServer) : CHostServer * list HsOut :=
  match l with
  | [] => (s, [])
  | o :: l => let '(s, out) := host_receives sid drawn o s in let '(s, out') := host_receives_all sid drawn l s in (s, out ++ out')
  end.

(** ** Remaining services of the name server *)

(** [sameSubnet] over the interfaces with an allocator; [same] is the comparison of the platform,
    of two addresses under a mask. *)
Definition ns_sameSubnet (same : string -> string -> string -> bool) (ip_addr : string) (ns : CNameServer) : bool :=
  existsb (fun a => same ip_addr (c_str (tcp_mInterfaceIp a.2)) (c_str (tcp_mMask a.2))) (mTCPAllocators ns).

(** Subscriptions of this host's clients, repeated to a name server that comes online: by
    instance, then by name. *)
Definition forwardServiceSubscription (ip : string) (p : NameProxy) (ns : CNameServer) : list HpOut :=
  let listeners monitor publisher :=
    flat_map (fun i => flat_map (fun n => if np_connected p then [HpAddListener ip monitor i.1 (c_str n.1)] else []) i.2)
      (obj_getSubscribeTable_all (mPublishers ns publisher) []) in
  listeners false INTRA_NORMAL ++ listeners true INTRA_MONITOR.

(** Listeners taken back from all other name servers. *)
Definition ns_recallServiceListener (instance_id : Z) (name : string) (type : SubscribeType) (proxies : list CIntraHostProxy) (statics : CIntraHostProxy) : list HpOut :=
  flat_map (recallServiceListener type instance_id name) proxies ++ recallServiceListener type instance_id name statics.

(** [onBark]: a client that missed its watchdog is announced to the subscribers of
    [NTF_WATCHDOG]; the process id goes out as an unsigned number. *)
Definition onBark (sender_name : string) (pid : Z) : list CFdbMsgProcessInfo := [mkProcessInfo (c_str sender_name) (u32 pid)].

(** [notifyRemoteNameServerDrop]: monitors are told of a name server without addresses.  The
    name of the host that was lost is not used; the message carries the name of this one. *)
Definition notifyRemoteNameServerDrop {I : Indet} (host_name : string) (ns : CNameServer) : list NsOut :=
  let l := ns_setServiceInfo ns FdbMsgAddressList_new (c_str FDB_NAME_SERVER_NAME) (c_str (mName ns)) false 0 FDB_DEFAULT_INSTANCE in
  [OutBroadcast INTRA_MONITOR FDB_DEFAULT_INSTANCE l FDB_NAME_SERVER_NAME].

(** ** Theorems *)

Lemma importTokens_taken old new : (importTokens old new).2 = new.
Proof.
  unfold importTokens. simpl. destruct (negb _) eqn:E1; simpl; [done|]. destruct (negb (bool_decide _)) eqn:E2; [done|].
  apply negb_false_iff, bool_decide_eq_true in E2. done.
Qed.

(** What the link sends is for the host server from the report on. *)
Lemma host_receives_ns {I : Indet} {E : HsEnv} sid drawn b t (outs : list NsOut) l s :
  host_receives_all sid drawn ((if b : bool then [HlUpdateLevels t] else []) ++ map HlNs outs ++ l) s = host_receives_all sid drawn l s.
Proof.
  assert (host_receives_all sid drawn (map HlNs outs ++ l) s = host_receives_all sid drawn l s) as Hns.
  { induction outs as [|o outs IH]; simpl; [done|]. rewrite IH. by destruct (host_receives_all sid drawn l s). }
  destruct b; simpl; rewrite Hns; [|done]. by destruct (host_receives_all sid drawn l s).
Qed.

Lemma register_spec {I : Indet} {E : HsEnv} sid m drawn s s' o : onRegisterLocalHostReq sid (Some m) drawn s = (s', o) ->
  exists h, o = [HsReply (host_ack drawn)] /\ m_find sid (hs_mLocalHostTbl s') = Some h
  /\ lh_mReady h = false /\ lh_mTokens h = drawn /\ lh_mHbCount h = 0
  /\ lh_mHostName h = (if is_empty_str (hr_mHostName m) then c_str (hr_mIpAddress m) else c_str (hr_mHostName m))
  /\ lh_mAddressTbl h = default [] (lh_mAddressTbl <$> m_find sid (hs_mLocalHostTbl s)).
Proof.
  unfold onRegisterLocalHostReq. cbv zeta. intros [= <- <-]. eexists. split; [done|].
  split; [destruct (_ =? 1); apply m_find_set|by repeat split].
Qed.

Lemma ready_spec {I : Indet} {E : HsEnv} sid m h s s' o : m_find sid (hs_mLocalHostTbl s) = Some h -> onLocalHostReady sid (Some m) s = (s', o) ->
  exists h', m_find sid (hs_mLocalHostTbl s') = Some h'
  /\ lh_mReady h' = true /\ lh_mTokens h' = lh_mTokens h /\ lh_mHbCount h' = lh_mHbCount h /\ lh_mHostName h' = lh_mHostName h
  /\ lh_mAddressTbl h' = lh_mAddressTbl h ++ map (fun it => toSocketAddress it CFdbSocketAddr_new) (verifyUrl (ha_mAddressList m) (he_peerIp sid)).
Proof.
  intros Hh. unfold onLocalHostReady, updateLocalSvcTable. rewrite Hh. cbv zeta. intros [= <- <-]. eexists.
  split; [apply m_find_set|]. by repeat split.
Qed.

(** The answer to a subscription names the other hosts that are ready. *)
Lemma hosts_reg_spec {I : Indet} {E : HsEnv} sid s : exists o, onHostOnlineReg sid s = (s, o) /\
  match List.filter (fun e => negb (e.1 =? sid) && lh_mReady e.2) (hs_mLocalHostTbl s) with
  | [] => o = []
  | l => exists a, o = [HsHostOnline (Some sid) (mkHostAddressList a (buildAddrTblForLocalHost s))] /\ map ha_mHostName a = map (fun e => lh_mHostName e.2) l
  end.
Proof.
  unfold onHostOnlineReg. eexists. split; [done|]. destruct (List.filter _ _) as [|e l]; cbn [map]; [done|].
  eexists. split; [done|]. cbn [map]. rewrite map_map. f_equal; [by destruct (m_find sid _)|].
  apply map_ext. intros e'. by destruct (m_find sid _).
Qed.

Lemma ack_spec env local {E : HsEnv} drawn ns x ns' x' sent : ih_onRegisterAck env local (Some (host_ack drawn)) ns x = (ns', x', sent) ->
  exists upd outs, sent = (if upd : bool then [HlUpdateLevels drawn] else []) ++ map HlNs outs ++ [HlReady (host_report env ns' x'); HlSubscribeHosts]
  /\ hn_mDomainName x' = he_name /\ hn_tokens x' = drawn.
Proof.
  unfold ih_onRegisterAck. cbn [host_ack hk_mDomainName hk_mTokenList tk_mTokens]. change (FdbMsgHostRegisterAck_has_token_list _) with true. cbn match.
  pose proof (importTokens_taken (hn_tokens x) drawn) as Ht. destruct (importTokens _ _) as [upd tokens]. simpl in Ht. subst tokens.
  destruct (onHostOnline _ _ _ _ _) as [ns1 outs]. intros [= <- <- <-]. by exists upd, outs.
Qed.

(** A name server that comes online at a host server and gets its answer is a member when its
    messages have arrived, in the order it sends them: registered under its session as ready,
    under the name it gave or its address, with the tokens the name server now checks its
    clients against and the addresses its name server bound; and its subscription is answered
    with exactly the other hosts that are ready. *)
Theorem host_joins env {I : Indet} {E : HsEnv} sid drawn local (ns : CNameServer) x session_ip s s1 o1 s2 o2 :
  let '(x1, sent1) := ih_onOnline ns session_ip x in
  host_receives_all sid drawn sent1 s = (s1, o1) ->
  exists ack, o1 = [HsReply ack] /\
  let '(ns2, x2, sent2) := ih_onRegisterAck env local (Some ack) ns x1 in
  host_receives_all sid drawn sent2 s1 = (s2, o2) ->
  hn_mDomainName x2 = he_name /\ hn_tokens x2 = drawn /\
  (exists h, m_find sid (hs_mLocalHostTbl s2) = Some h
     /\ lh_mReady h = true /\ lh_mTokens h = drawn /\ lh_mHbCount h = 0
     /\ lh_mHostName h = (if is_empty_str (mHostName ns) then c_str (link_ip x1) else c_str (mHostName ns))
     /\ lh_mAddressTbl h = default [] (lh_mAddressTbl <$> m_find sid (hs_mLocalHostTbl s))
          ++ map (fun it => toSocketAddress it CFdbSocketAddr_new) (verifyUrl (populateNsAddrList (I := env_indet env) ns2) (he_peerIp sid)))
  /\ (exists o3 o4, o2 = o3 ++ o4 ++ broadcastToLocalHost (Some sid) s2
     /\ match List.filter (fun e => negb (e.1 =? sid) && lh_mReady e.2) (hs_mLocalHostTbl s2) with
        | [] => o4 = []
        | l => exists a, o4 = [HsHostOnline (Some sid) (mkHostAddressList a (buildAddrTblForLocalHost s2))] /\ map ha_mHostName a = map (fun e => lh_mHostName e.2) l
        end).
Proof.
  unfold ih_onOnline. set (x1 := mkHostLink _ _ _ _ _). cbn [hostOnline host_receives_all host_receives].
  destruct (onRegisterLocalHostReq _ _ _ _) as [s0 o0] eqn:Ereg. cbn [app]. intros [= <- <-].
  destruct (register_spec _ _ _ _ _ _ Ereg) as (h & -> & Hh & Hready & Htok & Hhb & Hname & Haddr).
  eexists. split; [by rewrite app_nil_r|].
  destruct (ih_onRegisterAck _ _ _ _ _) as [[ns2 x2] sent2] eqn:Eack.
  destruct (ack_spec _ _ _ _ _ _ _ _ Eack) as (upd & outs & -> & Hdom & Htok2). intros E2. split; [done|]. split; [done|].
  rewrite host_receives_ns in E2. cbn [host_receives_all host_receives] in E2.
  destruct (onLocalHostReady _ _ _) as [s3 o3] eqn:Eready.
  destruct (ready_spec _ _ _ _ _ _ Hh Eready) as (h' & Hh' & Hr' & Ht' & Hb' & Hn' & Ha').
  destruct (hosts_reg_spec sid s3) as (o4 & Ereg4 & Ho4). rewrite Ereg4 in E2. cbn [onLocalSvcOnlineReg app] in E2.
  injection E2 as <- <-. split.
  - exists h'. split; [done|]. split; [done|]. split; [congruence|]. split; [congruence|]. split; [by rewrite Hn', Hname|].
    by rewrite Ha', Haddr.
  - exists o3, o4. split; [|done]. by rewrite app_nil_r.
Qed.
