(* ===== verification/EventRouter.v ===== *)
(** The event router: src/fdbus/CFdbEventRouter.cpp.

    A server that is a router has a client for each peer router.  An event that is published to
    it goes on to every peer but the one it came from, which is recognised by the name the
    sending endpoint announced; a peer that comes online is sent the cached events.

    [routeMessage] keeps nothing about events it has seen.  [flood] is what becomes of one event
    among routers whose peers are connected: what each of them sends is [routeMessage]. *)
From S2P Require Import Prelude StdMap CommonDefs Serializer Codec WireBase NsMessages SocketFactory Subscribe EventObject.
Open Scope list_scope.
Open Scope Z_scope.

(** ** Data *)

(** [CEventRouterProxy]: the peer it is for, its own name, and the service it is connected to
    ([mNsName] of its endpoint, set by [connect]). *)
Record CEventRouterProxy := mkRouterProxy { er_mPeerName : string; er_name : string; er_nsName : string }.

Abbreviation tPeerTbl := (list CEventRouterProxy).

(** The part of a message a router passes on. *)
Record RoutedEvent := mkRouted {
  rv_code : Z; rv_topic : string; rv_payload : list Z; rv_force : bool; rv_qos : EFdbQOS }.

Inductive RouterOut :=
  | RtConnect (url : string)
  | RtPublish (peer : string) (e : RoutedEvent)
  | RtCached (code : Z) (topic : string) (buffer : option (list Z)) (size : Z).

(** ** Operations *)

Definition addPeer (peer_name : option string) (tbl : tPeerTbl) : tPeerTbl :=
  tbl ++ [mkRouterProxy (c_str (default EmptyString peer_name)) EmptyString EmptyString].

(** [endpoint_name] is the service name of the router.  A proxy with a name has connected. *)
Definition connectToPeer (endpoint_name : string) (p : CEventRouterProxy) : CEventRouterProxy * list RouterOut :=
  if negb (is_empty_str (er_name p)) then (p, [])
  else (mkRouterProxy (er_mPeerName p) (c_str endpoint_name) (er_mPeerName p), [RtConnect (FDB_URL_SVC +:+ er_mPeerName p)]).

Definition connectPeers (endpoint_name : string) (tbl : tPeerTbl) : tPeerTbl * list RouterOut :=
  (map (fun p => (connectToPeer endpoint_name p).1) tbl, flat_map (fun p => (connectToPeer endpoint_name p).2) tbl).

Definition forward_qos (q : EFdbQOS) : EFdbQOS := match q with FDB_QOS_LOCAL => FDB_QOS_TRY_SECURE_RELIABLE | _ => q end.

Fixpoint routeMessage (sender_name : string) (tbl : tPeerTbl) (e : RoutedEvent) : list RouterOut :=
  match tbl with
  | [] => []
  | p :: tbl =>
      if String.eqb sender_name (er_nsName p) then routeMessage sender_name tbl e
      else let e := mkRouted (rv_code e) (rv_topic e) (rv_payload e) (rv_force e) (forward_qos (rv_qos e)) in
           RtPublish (er_nsName p) (mkRouted (rv_code e) (c_str (rv_topic e)) (rv_payload e) (rv_force e) (rv_qos e))
             :: routeMessage sender_name tbl e
  end.

(** [CBaseEndpoint::onPublish]: the event is handled, then routed if its session is there. *)
Definition ep_onPublish (session : option string) (tbl : tPeerTbl) (e : RoutedEvent) : list RouterOut :=
  match session with Some sender_name => routeMessage sender_name tbl e | None => [] end.

(** [CFdbBaseObject::publishCachedEvents]: every cached event and topic, to one session. *)
Definition publishCachedEvents (o : CFdbBaseObject) : list RouterOut :=
  flat_map (fun events => map (fun data => RtCached events.1 (c_str data.1) (ed_mBuffer data.2) (ed_mSize data.2)) events.2) (mEventCache o).

(** [CEventRouterProxy::onOnline] with [syncEventPool]: the first connection of a proxy, if it
    is still there. *)
Definition router_onOnline (first session : bool) (endpoint : CFdbBaseObject) : list RouterOut :=
  if first then (if session then publishCachedEvents endpoint else []) else [].

(** ** One event among routers *)

(** The peers of a router by name, in the order of its table. *)
Section flood.
Context (peers : string -> list string).

Definition table_of (me : string) : tPeerTbl := map (fun p => mkRouterProxy p me p) (peers me).

Definition published_to (o : list RouterOut) : list string := omap (fun r => match r with RtPublish p _ => Some p | _ => None end) o.

(** The routers an event reaches that arrives at [me] from [sender], each as often as it gets
    it; nothing when the chain of routers is longer than [fuel]. *)
Fixpoint flood (fuel : nat) (e : RoutedEvent) (sender me : string) : option (list string) :=
  match fuel with
  | O => None
  | S n => rest ← mapM (flood n e me) (published_to (routeMessage sender (table_of me) e)); Some (me :: concat rest)
  end.

Lemma route_targets sender me e : published_to (routeMessage sender (table_of me) e) = filter (fun p => p <> sender) (peers me).
Proof.
  unfold table_of. revert e. induction (peers me) as [|p l IH]; intros e; cbn [map routeMessage]; [done|]. cbn [er_nsName].
  rewrite filter_cons. destruct (String.eqb_spec sender p) as [->|Hne].
  - rewrite decide_False by tauto. apply IH.
  - rewrite decide_True by congruence. unfold published_to. simpl. f_equal. apply IH.
Qed.

(** ** Trees of routers *)

Inductive rtree := RNode (name : string) (l : list rtree).
Definition rt_name (t : rtree) : string := let 'RNode n _ := t in n.
Fixpoint rt_names (t : rtree) : list string := let 'RNode n l := t in n :: flat_map rt_names l.

(** The peers of every router are the router above it and those below it. *)
Fixpoint arranged (above : list string) (t : rtree) : Prop :=
  let 'RNode n l := t in
  peers n ≡ₚ above ++ map rt_name l /\ (fix all l := match l with [] => True | t :: l => arranged [n] t /\ all l end) l.

Lemma rtree_induction (P : rtree -> Prop) : (forall n l, Forall P l -> P (RNode n l)) -> forall t, P t.
Proof.
  intros HP. fix IH 1. intros [n l]. apply HP. induction l as [|t l IHl]; constructor; [apply IH|apply IHl].
Qed.

Lemma arranged_node above n l : arranged above (RNode n l) <-> peers n ≡ₚ above ++ map rt_name l /\ Forall (arranged [n]) l.
Proof.
  simpl. split; intros [Hp Ha]; (split; [done|]); clear Hp; induction l as [|t l IH]; try done.
  - destruct Ha. constructor; [done|]. by apply IH.
  - inversion_clear Ha. split; [done|]. by apply IH.
Qed.

Lemma rt_name_in t : rt_name t ∈ rt_names t.
Proof. destruct t. left. Qed.

Lemma size_below t l : t ∈ l -> (length (rt_names t) <= length (flat_map rt_names l))%nat.
Proof.
  induction l as [|t' l IH]; [by intros ?%not_elem_of_nil|]. simpl. rewrite length_app.
  intros [->|Hin]%elem_of_cons; [lia|]. specialize (IH Hin). lia.
Qed.

Lemma names_below t l x : t ∈ l -> x ∈ rt_names t -> x ∈ flat_map rt_names l.
Proof. intros Ht Hx. apply list_elem_of_In, in_flat_map. exists t. by split; apply list_elem_of_In. Qed.

Lemma NoDup_below t l : t ∈ l -> NoDup (flat_map rt_names l) -> NoDup (rt_names t).
Proof.
  induction l as [|t' l IH]; [by intros ?%not_elem_of_nil|]. simpl. rewrite NoDup_app. intros [->|Hin]%elem_of_cons (? & _ & ?); [done|]. by apply IH.
Qed.

(** The children of a router, in the order of its table. *)
Lemma targets_below sender n l above :
  peers n ≡ₚ above ++ map rt_name l -> Forall (fun x => x = sender) above -> sender ∉ map rt_name l ->
  exists l', l' ≡ₚ l /\ filter (fun p => p <> sender) (peers n) = map rt_name l'.
Proof.
  intros Hp Ha Hs. assert (filter (fun p => p <> sender) (peers n) ≡ₚ map rt_name l) as Hf.
  { rewrite Hp, filter_app. assert (filter (fun p => p <> sender) above = []) as ->.
    { clear Hp. induction Ha as [|x k Hx _ IH]; [done|]. by rewrite filter_cons_False by tauto. }
    cbn [app]. clear Hp. induction (map rt_name l) as [|x k IH]; [done|]. apply not_elem_of_cons in Hs as [Hx Hk].
    rewrite filter_cons_True by congruence. constructor. by apply IH. }
  apply Permutation_map_inv in Hf as (l' & -> & Hl'). exists l'. by split.
Qed.

Lemma flood_tree e t : forall fuel sender above,
  arranged above t -> Forall (fun x => x = sender) above -> NoDup (rt_names t) -> sender ∉ rt_names t ->
  (length (rt_names t) <= fuel)%nat -> exists r, flood fuel e sender (rt_name t) = Some r /\ r ≡ₚ rt_names t.
Proof.
  induction t as [n l IH] using rtree_induction. intros fuel sender above [Hp Hl]%arranged_node Ha Hnd Hs Hfuel.
  cbn [rt_names rt_name] in *. apply NoDup_cons in Hnd as [Hn Hnd]. apply not_elem_of_cons in Hs as [_ Hs].
  destruct fuel as [|fuel]; [simpl in Hfuel; lia|]. cbn [flood].
  rewrite route_targets. destruct (targets_below sender n l above Hp Ha) as (l' & Hl' & ->).
  { intros Hin. apply list_elem_of_In, in_map_iff in Hin as (t & <- & Ht%list_elem_of_In). apply Hs, (names_below t); [done|apply rt_name_in]. }
  assert (exists rs, mapM (flood fuel e n) (map rt_name l') = Some rs /\ concat rs ≡ₚ flat_map rt_names l') as (rs & -> & Hrs).
  { assert (forall t, t ∈ l' -> t ∈ l) as Hsub by (intros t; by rewrite Hl'). clear Hl' Hp.
    induction l' as [|t l' IHl']; [by exists []|]. destruct IHl' as (rs & Ers & Hrs); [intros; apply Hsub; by right|].
    assert (t ∈ l) as Ht by (apply Hsub; by left). rewrite Forall_forall in IH, Hl.
    destruct (IH t Ht fuel n [n]) as (r & Er & Hr); [by apply Hl|by repeat constructor|by eapply NoDup_below| | |].
    - intros Hin. by apply Hn, (names_below t).
    - pose proof (size_below t l Ht). simpl in Hfuel. lia.
    - exists (r :: rs). cbn [map mapM]. rewrite Er. cbn [mbind option_bind]. rewrite Ers. cbn [mbind option_bind concat flat_map]. split; [done|]. by rewrite Hr, Hrs. }
  cbn [mbind option_bind]. eexists. split; [done|]. constructor. rewrite Hrs. by rewrite Hl'.
Qed.
End flood.

(** Routers whose connections form a tree, wherever in the tree an event is published: every
    router gets the event exactly once, and the routing ends after as many hops as there are
    routers. *)
Theorem routed_once_in_trees peers e t sender :
  arranged peers [] t -> NoDup (rt_names t) -> sender ∉ rt_names t ->
  exists r, flood peers (length (rt_names t)) e sender (rt_name t) = Some r /\ r ≡ₚ rt_names t.
Proof. intros. by apply (flood_tree peers e t _ _ []). Qed.

Definition lab_routed : RoutedEvent := mkRouted 5 EmptyString [1; 2] false FDB_QOS_LOCAL.

Definition line_of_three (r : string) : list string :=
  if String.eqb r "A" then ["B"] else if String.eqb r "B" then ["C"; "A"] else if String.eqb r "C" then ["B"] else [].

Lemma routed_once_in_trees_witness :
  exists r, flood line_of_three 3 lab_routed "app" "B" = Some r /\ r ≡ₚ ["B"; "A"; "C"].
Proof.
  apply (routed_once_in_trees line_of_three lab_routed (RNode "B" [RNode "A" []; RNode "C" []]) "app").
  - repeat split; [apply Permutation_swap|..]; reflexivity.
  - apply (bool_decide_unpack _). vm_compute. exact I.
  - apply (bool_decide_unpack _). vm_compute. exact I.
Defined.

(** Three routers that are peers of each other: the name of the sender keeps an event from going
    straight back, but not from going around, and the routing never ends. *)
Definition ring_of_three (r : string) : list string :=
  if String.eqb r "A" then ["B"; "C"] else if String.eqb r "B" then ["A"; "C"] else if String.eqb r "C" then ["A"; "B"] else [].

Theorem ring_never_ends fuel e : flood ring_of_three fuel e "app" "A" = None.
Proof.
  assert (forall n u v, u <> v -> v ∈ ["A"; "B"; "C"]%string -> flood ring_of_three n e u v = None) as Hloop.
  { induction n as [|n IH]; intros u v Hne Hv; [done|]. cbn [flood]. rewrite route_targets.
    assert (exists w k, filter (fun p => p <> u) (ring_of_three v) = w :: k /\ v <> w /\ w ∈ ["A"; "B"; "C"]%string) as (w & k & -> & Hvw & Hw).
    { repeat (apply elem_of_cons in Hv as [->|Hv]); try by apply not_elem_of_nil in Hv.
      all: cbn. all: repeat (case_decide; simplify_eq); eexists _, _; (split; [reflexivity|]); (split; [done|]); set_solver. }
    cbn [mapM]. rewrite (IH v w Hvw Hw). done. }
  destruct fuel; [done|]. apply Hloop; [done|]. left.
Qed.
