(* ===== verification/TopicTables.v ===== *)
(** The topics of a data pool: the messages and tables of src/public/fdbus/dp_common.h, and the
    rules of src/datapool/CDataPool.cpp that tell whether a topic has been created and whether a
    topic that was created may serve a subscription.

    A topic has a number (an event code, or a group of them) and a name; the empty name stands
    for every name. The owner of topics sends its table to its clients as a list, from which they
    rebuild it ([topics_replicated]). *)
From S2P Require Import Prelude CommonDefs StdMap Serializer Codec WireBase NsMessages Subscribe.
Open Scope Z_scope.

(** ** Tables and messages *)

Record CTopicInfo := mkTopicInfo { ti_mTopic : string; ti_mTopicId : Z; ti_mPoolName : string; ti_mDomainId : Z }.
Abbreviation tTopicTbl := (smap Z (smap string CTopicInfo)).

(** [FdbMsgTopicItem] *)
Definition CTopicInfo_serialize (m : CTopicInfo) : SerM :=
  put_string (ti_mTopic m) ;;; put_int 4 (ti_mTopicId m) ;;; put_string (ti_mPoolName m) ;;; put_int 1 (ti_mDomainId m).
Definition CTopicInfo_deserialize {I : Indet} (m : CTopicInfo) : DesM CTopicInfo :=
  topic ← get_string (ti_mTopic m);
  topic_id ← get_int true 4 (ti_mTopicId m);
  pool_name ← get_string (ti_mPoolName m);
  domain_id ← get_int false 1 (ti_mDomainId m);
  mret (mkTopicInfo topic topic_id pool_name domain_id).
#[export] Hint Unfold CTopicInfo_serialize CTopicInfo_deserialize : codec.

#[export] Instance CTopicInfo_parcelable : Parcelable CTopicInfo := {|
  p_default := fun I => mkTopicInfo EmptyString indet EmptyString indet;
  p_serialize := CTopicInfo_serialize;
  p_deserialize := @CTopicInfo_deserialize |}.

Record CTopicInfo_wf (m : CTopicInfo) : Prop := {
  tiw_Topic : str_ok (ti_mTopic m);
  tiw_TopicId : in_s 32 (ti_mTopicId m);
  tiw_PoolName : str_ok (ti_mPoolName m);
  tiw_DomainId : in_u 8 (ti_mDomainId m) }.
Definition CTopicInfo_wire (m : CTopicInfo) : list Z :=
  str_wire (ti_mTopic m) ++ le_bytes 4 (ti_mTopicId m) ++ str_wire (ti_mPoolName m) ++ le_bytes 1 (ti_mDomainId m).
#[export] Hint Unfold CTopicInfo_wire : codec.

#[export] Program Instance CTopicInfo_laws : ParcelableLaws CTopicInfo := {|
  p_wire := CTopicInfo_wire; p_wf := CTopicInfo_wf; p_eq := eq |}.
Next Obligation. intros I x old []. solve_class. Qed.
Next Obligation. solve_class_safe. Qed.

(** [FdbMsgTopics] *)
Record FdbMsgTopics := mkTopics { mt_mTopicList : list CTopicInfo }.
Definition FdbMsgTopics_serialize (m : FdbMsgTopics) : SerM := serialize (mt_mTopicList m).
Definition FdbMsgTopics_deserialize {I : Indet} (m : FdbMsgTopics) : DesM FdbMsgTopics :=
  l ← deserialize (mt_mTopicList m); mret (mkTopics l).
#[export] Hint Unfold FdbMsgTopics_serialize FdbMsgTopics_deserialize : codec.

#[export] Instance FdbMsgTopics_parcelable : Parcelable FdbMsgTopics := {|
  p_default := fun _ => mkTopics [];
  p_serialize := FdbMsgTopics_serialize;
  p_deserialize := @FdbMsgTopics_deserialize |}.
Definition FdbMsgTopics_wire (m : FdbMsgTopics) : list Z := p_wire (mt_mTopicList m).
#[export] Hint Unfold FdbMsgTopics_wire : codec.
Record FdbMsgTopics_wf (m : FdbMsgTopics) : Prop := { mtw_TopicList : p_wf (mt_mTopicList m) }.
Record FdbMsgTopics_eq (x y : FdbMsgTopics) : Prop := { mte_TopicList : p_eq (mt_mTopicList x) (mt_mTopicList y) }.
#[export] Program Instance FdbMsgTopics_laws : ParcelableLaws FdbMsgTopics := {|
  p_wire := FdbMsgTopics_wire; p_wf := FdbMsgTopics_wf; p_eq := FdbMsgTopics_eq |}.
Next Obligation.
  intros I x old []. member (mt_mTopicList x) (mt_mTopicList old) as (y0 & E0 & C0). solve_class.
Qed.
Next Obligation. solve_class_safe. Qed.

(** [FdbMsgTopicsQuery] *)
Record FdbMsgTopicsQuery := mkTopicsQuery { tq_mOwnedTopics : FdbMsgTopics; tq_mAvailableTopics : FdbMsgTopics }.
Definition FdbMsgTopicsQuery_serialize (m : FdbMsgTopicsQuery) : SerM :=
  serialize (tq_mOwnedTopics m) ;;; serialize (tq_mAvailableTopics m).
Definition FdbMsgTopicsQuery_deserialize {I : Indet} (m : FdbMsgTopicsQuery) : DesM FdbMsgTopicsQuery :=
  owned ← deserialize (tq_mOwnedTopics m); available ← deserialize (tq_mAvailableTopics m); mret (mkTopicsQuery owned available).

(** [fromTopicInfo] appends to the list. *)
Definition fromTopicInfo (info_list : tTopicTbl) (m : FdbMsgTopics) : FdbMsgTopics :=
  mkTopics (mt_mTopicList m ++ ('(_, topics) ← info_list; topics.*2)).
Definition topic_put (info : CTopicInfo) (t : tTopicTbl) : tTopicTbl :=
  m_set (ti_mTopicId info) (m_set (ti_mTopic info) info (m_at [] (ti_mTopicId info) t)) t.
Definition toTopicInfo (m : FdbMsgTopics) (info_list : tTopicTbl) : tTopicTbl :=
  foldl (fun t info => topic_put info t) info_list (mt_mTopicList m).

(** ** Which topics go together *)

Definition topicMatched_id (id_intended it_stored : Z) : bool :=
  (it_stored =? id_intended) ||
  ((fdbIsGroup id_intended || fdbIsGroup it_stored) &&
   (fdbEventInGroup id_intended FDB_EVENT_ALL_GROUPS || fdbEventInGroup it_stored FDB_EVENT_ALL_GROUPS || fdbSameGroup id_intended it_stored)).
Definition topicMatched_topic (topic_intended topic_stored : string) : bool :=
  String.eqb topic_stored topic_intended || is_empty_str topic_stored || is_empty_str topic_intended.

(** One entry of the loop of [topicCreated]. *)
Definition topic_covers (topic : string) (topic_id : Z) (info : CTopicInfo) : bool :=
  (is_empty_str (ti_mTopic info) || String.eqb (ti_mTopic info) topic) &&
  ((ti_mTopicId info =? topic_id) ||
   (fdbIsGroup (ti_mTopicId info) && (fdbEventInGroup (ti_mTopicId info) FDB_EVENT_ALL_GROUPS || fdbSameGroup (ti_mTopicId info) topic_id))).
Definition topicCreated (topic : string) (topic_id : Z) (topic_tbl : tTopicTbl) : bool :=
  match m_find topic_id topic_tbl ≫= m_find topic with
  | Some _ => true
  | None => existsb (fun e : Z * smap string CTopicInfo => existsb (fun e' : string * CTopicInfo => topic_covers topic topic_id e'.2) e.2) topic_tbl
  end.

(** ** A table and its copy *)

(** Topics are stored under their own number and name. *)
Definition topics_at (t : tTopicTbl) (id : Z) (topic : string) : option CTopicInfo := m_find id t ≫= m_find topic.
Definition topics_keyed (t : tTopicTbl) : Prop :=
  forall id topic info, topics_at t id topic = Some info -> ti_mTopicId info = id /\ ti_mTopic info = topic.
Definition topics_ok (t : tTopicTbl) : Prop := lvl (full (fun _ => True)) t /\ topics_keyed t.

Lemma topics_at_put info t id topic : lvl (full (fun _ => True)) t ->
  topics_at (topic_put info t) id topic = if bool_decide (id = ti_mTopicId info) && bool_decide (topic = ti_mTopic info) then Some info else topics_at t id topic.
Proof. unfold topics_at, topic_put. intros Ht. find_cases. Qed.
Lemma topic_put_lvl info t : lvl (full (fun _ => True)) t -> lvl (full (fun _ => True)) (topic_put info t).
Proof. intros. unfold topic_put. auto 10 with fdb. Qed.
Lemma topic_put_ok info t : topics_ok t -> topics_ok (topic_put info t).
Proof.
  intros [Hl Hk]. split; [by apply topic_put_lvl|]. intros id topic i. rewrite topics_at_put by done.
  repeat case_bool_decide; cbn [andb]; [by intros [= <-]|by apply Hk..].
Qed.

Lemma topics_ext t1 t2 : lvl (full (fun _ => True)) t1 -> lvl (full (fun _ => True)) t2 -> (forall id topic, topics_at t1 id topic = topics_at t2 id topic) -> t1 = t2.
Proof.
  intros H1 H2 E. apply (nested_ext (full (fun _ : CTopicInfo => True)) (fun v a => m_find a v)); [| |done|done|exact E].
  - intros [|[k v] m] [Hne _]; [done|]. exists k. by rewrite m_find_hd.
  - intros v1 v2 [_ [S1 _]] [_ [S2 _]]. by apply m_ext.
Qed.

(** What a table lists. *)
Definition topics_of (t : tTopicTbl) : list CTopicInfo := '(_, topics) ← t; topics.*2.
Lemma elem_topics_of t info : topics_ok t -> info ∈ topics_of t <-> topics_at t (ti_mTopicId info) (ti_mTopic info) = Some info.
Proof.
  intros [Hl Hk]. assert (info ∈ topics_of t <-> exists id topic, topics_at t id topic = Some info) as ->.
  { unfold topics_of, topics_at. rewrite list_elem_of_bind. split.
    - intros ([id topics] & Hin & Ht). apply list_elem_of_fmap in Hin as ([topic i] & -> & Hin). exists id, topic.
      rewrite (proj2 (m_find_In id topics t (lvl_sorted _ _ Hl)) Ht). cbn. apply m_find_In; [|done].
      apply m_find_In in Ht; [|by eapply lvl_sorted]. by eapply lvl_sorted, full_lvl, (lvl_find _ _ _ _ Hl Ht).
    - intros (id & topic & (topics & Ht & Hi)%bind_Some). exists (id, topics). pose proof (lvl_find _ _ _ _ Hl Ht) as [_ Hs].
      split; [|by apply m_find_In; [eapply lvl_sorted|]]. apply list_elem_of_fmap. exists (topic, info). split; [done|]. apply m_find_In; [by eapply lvl_sorted|done]. }
  split; [|by eauto]. intros (id & topic & E). by destruct (Hk _ _ _ E) as [-> ->].
Qed.

(** Topics with the same number and name are the same. *)
Definition functional (l : list CTopicInfo) : Prop :=
  forall i j, i ∈ l -> j ∈ l -> ti_mTopicId i = ti_mTopicId j -> ti_mTopic i = ti_mTopic j -> i = j.
Lemma functional_of t : topics_ok t -> functional (topics_of t).
Proof. intros Hok i j Hi Hj E1 E2. apply elem_topics_of in Hi, Hj; [|done..]. rewrite E1, E2 in Hi. congruence. Qed.

Lemma toTopicInfo_at l : forall t id topic info, topics_ok t -> functional l ->
  topics_at (foldl (fun t i => topic_put i t) t l) id topic = Some info <->
  (info ∈ l /\ ti_mTopicId info = id /\ ti_mTopic info = topic) \/
  (topics_at t id topic = Some info /\ forall i, i ∈ l -> ~ (ti_mTopicId i = id /\ ti_mTopic i = topic)).
Proof.
  induction l as [|i l IH]; intros t id topic info Hok Hf; cbn [foldl].
  - setoid_rewrite elem_of_nil. tauto.
  - rewrite IH; [|by apply topic_put_ok|by intros ? ? ? ?; apply Hf; right]. rewrite topics_at_put by apply Hok. setoid_rewrite elem_of_cons. split.
    + intros [(Hin & H)|[H1 H2]]; [left; split; [by right|done]|]. revert H1. repeat case_bool_decide; cbn [andb]; subst; [intros [= <-]; left; split; [by left|done]|..];
        (intros H1; right; split; [done|]; intros j [->|Hj]; [naive_solver|by apply H2]).
    + intros [([->|Hin] & <- & <-)|[H1 H2]].
      * destruct (decide (Exists (fun j => ti_mTopicId j = ti_mTopicId i /\ ti_mTopic j = ti_mTopic i) l)) as [(j & Hj & E1 & E2)%Exists_exists|Hn].
        -- left. split; [|done]. rewrite <- (Hf j i); [done|by right|by left|done|done].
        -- right. rewrite !bool_decide_true by done. split; [done|]. intros j Hj HE. apply Hn, Exists_exists. eauto.
      * by left.
      * right. split; [|by intros j Hj; apply H2; right]. pose proof (H2 i (or_introl eq_refl)) as Hne. repeat case_bool_decide; subst; naive_solver.
Qed.
Lemma toTopicInfo_ok m t : topics_ok t -> topics_ok (toTopicInfo m t).
Proof. unfold toTopicInfo. generalize (mt_mTopicList m) as l. intros l. revert t. induction l as [|i l IH]; intros t Hok; [done|]. by apply IH, topic_put_ok. Qed.

Lemma topics_ok_nil : topics_ok [].
Proof. split; [apply lvl_nil|done]. Qed.

Lemma topics_rebuilt t : topics_ok t -> toTopicInfo (fromTopicInfo t (mkTopics [])) [] = t.
Proof.
  intros Hok. apply topics_ext; [apply toTopicInfo_ok, topics_ok_nil|apply Hok|]. intros id topic. unfold toTopicInfo, fromTopicInfo. cbn [mt_mTopicList app].
  change (mbind _ t) with (topics_of t). apply option_eq. intros info. rewrite toTopicInfo_at; [|apply topics_ok_nil|by apply functional_of]. rewrite elem_topics_of by done. split.
  - intros [(H & <- & <-)|[H _]]; [done|done].
  - intros H. left. destruct (proj2 Hok _ _ _ H) as [-> ->]. done.
Qed.

(** [topicCreated] asks for a topic that covers the one asked for. *)
Lemma topicCreated_spec topic id t : topics_ok t ->
  topicCreated topic id t = true <-> exists info, info ∈ topics_of t /\ topic_covers topic id info = true.
Proof.
  intros Hok. unfold topicCreated. change (m_find id t ≫= m_find topic) with (topics_at t id topic).
  assert (existsb (fun e : Z * smap string CTopicInfo => existsb (fun e' : string * CTopicInfo => topic_covers topic id e'.2) e.2) t = true <-> exists info, info ∈ topics_of t /\ topic_covers topic id info = true) as Hex.
  { rewrite existsb_exists. unfold topics_of. setoid_rewrite list_elem_of_bind. split.
    - intros ([k ts] & Hin & ([s i] & Hi & Hc)%existsb_exists). exists i. split; [|done]. exists (k, ts). split; [|by apply list_elem_of_In].
      apply list_elem_of_fmap. exists (s, i). split; [done|by apply list_elem_of_In].
    - intros (i & ([k ts] & ([s i'] & -> & Hi)%list_elem_of_fmap & Hin) & Hc). exists (k, ts). split; [by apply list_elem_of_In|]. apply existsb_exists. exists (s, i'). split; [by apply list_elem_of_In|done]. }
  destruct (topics_at t id topic) as [info|] eqn:E; [|exact Hex]. split; [|done]. intros _. exists info. destruct (proj2 Hok _ _ _ E) as [E1 E2].
  split; [apply elem_topics_of; [done|by rewrite E1, E2]|]. unfold topic_covers. rewrite E1, E2, String.eqb_refl, Z.eqb_refl. by destruct (is_empty_str topic).
Qed.

(** What covers a topic is noticed as matching it: no subscription that could be served is
    passed over. *)
Lemma covers_matched topic id info : topic_covers topic id info = true ->
  topicMatched_id (ti_mTopicId info) id = true /\ topicMatched_topic (ti_mTopic info) topic = true.
Proof.
  unfold topic_covers, topicMatched_id, topicMatched_topic. rewrite !andb_true_iff, !orb_true_iff, !andb_true_iff, !orb_true_iff, !String.eqb_eq, !Z.eqb_eq.
  intros [Ht Hi]. split; intuition (subst; auto).
Qed.

Definition topics_wf (t : tTopicTbl) : Prop :=
  topics_ok t /\ Forall CTopicInfo_wf (topics_of t) /\ Z.of_nat (length (FdbMsgTopics_wire (fromTopicInfo t (mkTopics [])))) <= INT32_MAX - 65536 /\ Z.of_nat (length (topics_of t)) < 65536.

(** The owner of topics sends its table as a list; whatever buffer the serializer
    starts with and whatever the client held before, the client reads the list and rebuilds
    exactly the table of the owner. *)
Theorem topics_replicated (I : Indet) (s : CFdbSimpleSerializer) (le : bool) (t : tTopicTbl) (old : FdbMsgTopics) :
  Z.of_nat (length (mScratchCache s)) = FDB_SCRATCH_CACHE_SIZE -> topics_wf t ->
  let m := fromTopicInfo t (mkTopics []) in
  builder_build s m = Some (FdbMsgTopics_wire m, Z.of_nat (length (FdbMsgTopics_wire m))) /\
  exists m', parser_parse le (Some (FdbMsgTopics_wire m)) (Z.of_nat (length (FdbMsgTopics_wire m))) old = Some (m', true) /\ toTopicInfo m' [] = t.
Proof.
  intros Hs (Hok & Hwf & Hl & Hn) m. assert (FdbMsgTopics_wf m) as Hm. { split. split; [exact Hwf|]. cbn [m fromTopicInfo mt_mTopicList app]. unfold topics_of in Hn. lia. } split.
  - apply (@build_wire _ _ FdbMsgTopics_laws s m); [done|done|]. etrans; [exact Hl|]. unfold SER_LIMIT, INT32_MAX. lia.
  - edestruct (@parse_wire _ _ FdbMsgTopics_laws I le m old) as (m' & P & E); [exact Hm| |].
    + split; [|exact Hl]. change (p_wire m) with (array_wire (mt_mTopicList m)). unfold array_wire. rewrite length_app. pose proof (length_le_bytes 2 (Z.of_nat (length (mt_mTopicList m)))). lia.
    + exists m'. split; [exact E|]. destruct P as [P]. cbn in P. apply Forall2_eq in P. destruct m' as [l']. cbn [mt_mTopicList] in P.
      rewrite <- P. exact (topics_rebuilt t Hok).
Qed.

Definition lab_topics : tTopicTbl :=
  topic_put (mkTopicInfo "speed" 5 "car" 0) (topic_put (mkTopicInfo "----" 7 "car" 0) (topic_put (mkTopicInfo EmptyString 5 "car" 0) [])).
Lemma lab_topics_wf : topics_wf lab_topics.
Proof.
  split_and!; [do 3 apply topic_put_ok; apply topics_ok_nil| |vm_compute; discriminate|reflexivity].
  change (topics_of lab_topics) with [mkTopicInfo EmptyString 5 "car" 0; mkTopicInfo "speed" 5 "car" 0; mkTopicInfo "----" 7 "car" 0].
  repeat (constructor; [split; first [apply (bool_decide_unpack _); vm_compute; exact Logic.I|vm_compute; by split]|]). constructor.
Qed.
Lemma topics_replicated_witness : let m := fromTopicInfo lab_topics (mkTopics []) in
  builder_build (serializer_new true (replicate 2048 0)) m = Some (FdbMsgTopics_wire m, Z.of_nat (length (FdbMsgTopics_wire m))) /\
  exists m', @parser_parse _ _ 0 false (Some (FdbMsgTopics_wire m)) (Z.of_nat (length (FdbMsgTopics_wire m))) (mkTopics [mkTopicInfo "old" 1 "x" 0]) = Some (m', true) /\
    toTopicInfo m' [] = lab_topics.
Proof. apply (topics_replicated 0 (serializer_new true (replicate 2048 0)) false); [reflexivity|exact lab_topics_wf]. Defined.

(** Topics of the whole pool, asked for by [subscribeData(listener)], are served only by an owner
    that created the whole pool: a topic with a name of its own does not cover them, although it
    matches them. *)
Example all_topics_not_served :
  topicCreated EmptyString (fdbMakeGroupEvent FDB_EVENT_ALL_GROUPS) lab_topics = false /\
  topicMatched_id 5 (fdbMakeGroupEvent FDB_EVENT_ALL_GROUPS) = true /\ topicMatched_topic "speed" EmptyString = true.
Proof. vm_compute. auto. Qed.
