(* ===== verification/DataPool.v ===== *)
(** The data pool: src/datapool (CDataPool.cpp, CDpServer.cpp, CDpClient.cpp) and the notification
    centre of src/public/fdbus/CNotificationCenter.h it tells applications of topics with.

    A pool has a server when it owns topics ([CDpServer]: a table of topics, the event cache and the
    subscriptions of Subscribe and EventObject) and a client for every other owner in its domain
    ([CDpClient]: a copy of the table of that owner and the handlers registered with it, those of
    Dispatcher). A listener the application adds to a topic is registered with the first client
    whose owner created the topic and waits in [mPendingSubscriptionHandle] until there is one; the
    listeners of a client that is destroyed are added again.

    Clients are pointers: [dp_clients] are the live ones, [mDpClientTbl] those the pool walks
    through. [None] is the use of a client that is gone, or of a list while it is being changed. *)
From S2P Require Import Prelude CommonDefs StdMap Serializer Codec WireBase NsMessages Subscribe EventObject SocketFactory AddressAllocator EventLoop Dispatcher Endpoint TopicTables.
Open Scope Z_scope.

(** ** Notifications *)

(** Each event has a set of notifications; the worker of each is kept with it. *)
Abbreviation tNotificationTbl := (smap Z (smap Z (option Z))).
Definition ntf_subscribe (event ntf : Z) (worker : option Z) (t : tNotificationTbl) : bool * tNotificationTbl :=
  let s := m_at [] event t in
  (match m_find ntf s with None => true | Some _ => false end, m_set event (m_insert ntf worker s) t).
Definition ntf_unsubscribe (event ntf : Z) (t : tNotificationTbl) : tNotificationTbl :=
  match m_find event t with None => t | Some s => m_prune event (m_erase ntf s) t end.

(** [run] is called at once, or sent to the worker of the notification. *)
Definition ntf_notify {T} (event : Z) (data : T) (t : tNotificationTbl) : list (Z * option Z * T) :=
  map (fun '(ntf, worker) => (ntf, worker, data)) (m_at [] event t).

(** ** Data *)

Definition FDB_DATAPOOL_SERVER_NAME : string := "org.fdbus.datapool".
Definition FDB_DP_DEFAULT_TOPIC_ID : Z := FDB_EVENT_ID_MASK - 1.
Definition FDB_DP_DEFAULT_TOPIC_STR : string := "----".
Definition NTF_TOPIC_CREATED : Z := 1.
Definition REQ_QUERY_TOPICS : Z := 1.

(** Listeners are numbers. *)
Abbreviation tSubscriptionHandleTbl := (smap Z (smap string (list Z))).

(** [dc_sessions]: how many sessions the client has. *)
Record CDpClient := mkDpClient {
  dc_mInstanceId : Z; dc_mNsName : string; dc_mHostName : string; dc_mTopicTbl : tTopicTbl;
  dc_events : CBaseEventDispatcher (H := Z); dc_sessions : nat }.

Record CDpServer := mkDpServer {
  ds_mInstanceId : Z; ds_mTopicTbl : tTopicTbl; ds_obj : CFdbBaseObject; ds_setevt : CBaseEventDispatcher (H := Z) }.

Record CDataPool := mkDataPool {
  dp_mName : string; dp_mDomainId : Z; dp_started : bool; dp_mHandleWorker : option Z; dp_mNoReflect : bool;
  dp_mDpServer : option CDpServer; dp_mDpClientTbl : list Z; dp_clients : smap Z CDpClient;
  dp_mPendingSubscriptionHandle : tSubscriptionHandleTbl; dp_mClientSubscriptionHandle : smap Z tSubscriptionHandleTbl;
  dp_mTopicAvailableNtfCenter : tNotificationTbl }.

Record CTopicAvailableInfo := mkAvailable { ta_mTopic : string; ta_mTopicId : Z; ta_mAvailable : bool }.

(** What a pool does besides changing itself. *)
Inductive DpOut :=
  | DpBind (url : string)
  | DpMonitor (svc_name : string) (instance_id : Z)
  | DpDisconnect (client : Z)
  | DpConnect (client : Z) (l : FdbMsgAddressList)                   (* doConnectToAddress *)
  | DpSubscribe (client : Z) (events : list (Z * string * Z)) (handles : list Z)
  | DpSubscribeTopics (client : Z)
  | DpTopics (m : FdbMsgTopics)                                      (* NTF_TOPIC_CREATED *)
  | DpDeliver (d : Delivery)
  | DpPublishBy (client : Z) (m : CFdbMessage)
  | DpNotify (ntf : Z) (worker : option Z) (info : CTopicAvailableInfo)
  | DpTopicList (q : FdbMsgTopicsQuery).

Implicit Types p : CDataPool.
Implicit Types c : CDpClient.

Definition CDataPool_new (domain_id : Z) (name : option string) : CDataPool :=
  mkDataPool (match name with Some n => c_str n | None => "DefaultPool"%string end) domain_id false None false None [] [] [] [] [].

Definition dp_set_server (s : option CDpServer) p : CDataPool :=
  mkDataPool (dp_mName p) (dp_mDomainId p) (dp_started p) (dp_mHandleWorker p) (dp_mNoReflect p) s (dp_mDpClientTbl p) (dp_clients p)
    (dp_mPendingSubscriptionHandle p) (dp_mClientSubscriptionHandle p) (dp_mTopicAvailableNtfCenter p).
Definition dp_set_table (l : list Z) p : CDataPool :=
  mkDataPool (dp_mName p) (dp_mDomainId p) (dp_started p) (dp_mHandleWorker p) (dp_mNoReflect p) (dp_mDpServer p) l (dp_clients p)
    (dp_mPendingSubscriptionHandle p) (dp_mClientSubscriptionHandle p) (dp_mTopicAvailableNtfCenter p).
Definition dp_set_clients (cs : smap Z CDpClient) p : CDataPool :=
  mkDataPool (dp_mName p) (dp_mDomainId p) (dp_started p) (dp_mHandleWorker p) (dp_mNoReflect p) (dp_mDpServer p) (dp_mDpClientTbl p) cs
    (dp_mPendingSubscriptionHandle p) (dp_mClientSubscriptionHandle p) (dp_mTopicAvailableNtfCenter p).
Definition dp_set_pending (t : tSubscriptionHandleTbl) p : CDataPool :=
  mkDataPool (dp_mName p) (dp_mDomainId p) (dp_started p) (dp_mHandleWorker p) (dp_mNoReflect p) (dp_mDpServer p) (dp_mDpClientTbl p) (dp_clients p)
    t (dp_mClientSubscriptionHandle p) (dp_mTopicAvailableNtfCenter p).
Definition dp_set_handles (t : smap Z tSubscriptionHandleTbl) p : CDataPool :=
  mkDataPool (dp_mName p) (dp_mDomainId p) (dp_started p) (dp_mHandleWorker p) (dp_mNoReflect p) (dp_mDpServer p) (dp_mDpClientTbl p) (dp_clients p)
    (dp_mPendingSubscriptionHandle p) t (dp_mTopicAvailableNtfCenter p).
Definition dp_set_center (t : tNotificationTbl) p : CDataPool :=
  mkDataPool (dp_mName p) (dp_mDomainId p) (dp_started p) (dp_mHandleWorker p) (dp_mNoReflect p) (dp_mDpServer p) (dp_mDpClientTbl p) (dp_clients p)
    (dp_mPendingSubscriptionHandle p) (dp_mClientSubscriptionHandle p) t.
Definition enableNoReflect (active : bool) p : CDataPool :=
  mkDataPool (dp_mName p) (dp_mDomainId p) (dp_started p) (dp_mHandleWorker p) active (dp_mDpServer p) (dp_mDpClientTbl p) (dp_clients p)
    (dp_mPendingSubscriptionHandle p) (dp_mClientSubscriptionHandle p) (dp_mTopicAvailableNtfCenter p).

Definition dc_set_topics (t : tTopicTbl) c : CDpClient := mkDpClient (dc_mInstanceId c) (dc_mNsName c) (dc_mHostName c) t (dc_events c) (dc_sessions c).
Definition dc_set_events (d : CBaseEventDispatcher) c : CDpClient := mkDpClient (dc_mInstanceId c) (dc_mNsName c) (dc_mHostName c) (dc_mTopicTbl c) d (dc_sessions c).
Definition dc_set_sessions (n : nat) c : CDpClient := mkDpClient (dc_mInstanceId c) (dc_mNsName c) (dc_mHostName c) (dc_mTopicTbl c) (dc_events c) n.

(** ** Starting *)

Definition CDpServer_new : CDpServer :=
  mkDpServer FDB_DEFAULT_INSTANCE [] (mkObject FDB_OBJ_ENABLE_EVENT_CACHE FDB_OBJECT_MAIN FDB_OBJECT_ROLE_SERVER [] [] []) CBaseEventDispatcher_new.
(** [ns_proxy]: there is a connection to a name server. *)
Definition dp_start (handle_worker : option Z) (topic_owner topic_borrower ns_proxy : bool) p : CDataPool * list DpOut :=
  if dp_started p then (p, []) else
  let p := mkDataPool (dp_mName p) (dp_mDomainId p) true handle_worker (dp_mNoReflect p) (dp_mDpServer p) (dp_mDpClientTbl p) (dp_clients p)
             (dp_mPendingSubscriptionHandle p) (dp_mClientSubscriptionHandle p) (dp_mTopicAvailableNtfCenter p) in
  let group := fdbMakeGroupEvent (dp_mDomainId p) in
  let '(p, out) := if topic_owner then (dp_set_server (Some CDpServer_new) p, [DpBind (buildUrl_svc FDB_DATAPOOL_SERVER_NAME group)]) else (p, []) in
  (p, out ++ (if topic_borrower && ns_proxy then [DpMonitor FDB_DATAPOOL_SERVER_NAME group] else [])).

(** ** Clients *)

Definition handle_push (topic_id : Z) (topic : string) (fn : Z) (t : tSubscriptionHandleTbl) : tSubscriptionHandleTbl :=
  let topics := m_at [] topic_id t in
  m_set topic_id (m_set topic (m_at [] topic topics ++ [fn]) topics) t.
Definition saveSubscribeHandleForClient (client topic_id : Z) (topic : string) (fn : Z) p : CDataPool :=
  dp_set_handles (m_set client (handle_push topic_id topic fn (m_at [] client (dp_mClientSubscriptionHandle p))) (dp_mClientSubscriptionHandle p)) p.

(** One listener of the loop. *)
Definition dc_register (client topic_id : Z) (topic : string) (fn : Z) p : option (CDataPool * list DpOut) :=
  c ← m_find client (dp_clients p);
  let '(_, evt_tbl) := evttbl_add topic_id (Some fn) (dp_mHandleWorker p) (Some topic) (if dp_mNoReflect p then FDB_SUBFLAG_NO_REFLECT else 0) [] in
  let '(d, _, sub) := doRegisterEventHandle (0 <? dc_sessions c)%nat evt_tbl None (dc_events c) in
  let p := dp_set_clients (m_set client (dc_set_events d c) (dp_clients p)) p in
  Some (saveSubscribeHandleForClient client topic_id topic fn p,
        match sub with Some (events, handles) => [DpSubscribe client events handles] | None => [] end).
Fixpoint dc_register_all (client topic_id : Z) (topic : string) (fns : list Z) p : option (CDataPool * list DpOut) :=
  match fns with
  | [] => Some (p, [])
  | fn :: fns => '(p, out) ← dc_register client topic_id topic fn p; '(p, out') ← dc_register_all client topic_id topic fns p; Some (p, out ++ out')
  end.

Definition dc_subscribeData (client topic_id : Z) (topic : string) (publish_listeners : list Z) p : option (bool * CDataPool * list DpOut) :=
  c ← m_find client (dp_clients p);
  if negb (topicCreated topic topic_id (dc_mTopicTbl c)) then Some (false, p, [])
  else '(p, out) ← dc_register_all client topic_id topic publish_listeners p; Some (true, p, out).

(** ** Listeners *)

(** The first client of the table that takes it. *)
Fixpoint first_client (ptrs : list Z) (topic_id : Z) (topic : string) (fn : Z) p : option (option Z * CDataPool * list DpOut) :=
  match ptrs with
  | [] => Some (None, p, [])
  | client :: ptrs =>
      '(subscribed, p, out) ← dc_subscribeData client topic_id topic [fn] p;
      if subscribed : bool then Some (Some client, p, out) else first_client ptrs topic_id topic fn p
  end.
Definition doSubscribeData (topic_id : Z) (topic : string) (fn : Z) p : option (option Z * CDataPool * list DpOut) :=
  '(by_, p, out) ← first_client (dp_mDpClientTbl p) topic_id topic fn p;
  match by_ with
  | Some _ => Some (by_, p, out)
  | None => Some (None, dp_set_pending (handle_push topic_id topic fn (dp_mPendingSubscriptionHandle p)) p, out)
  end.

Definition dp_notify (event_topic : string) (topic_id : Z) (created : bool) p : list DpOut :=
  map (fun '(ntf, worker, info) => DpNotify ntf worker info)
    (ntf_notify FDB_INVALID_ID (mkAvailable event_topic topic_id created) (dp_mTopicAvailableNtfCenter p)).

(** The pending listeners of one number, and of all: those the client takes are dropped. *)
Fixpoint take_topics (client : Z) (topic : string) (subs_id : Z) (id_list : smap string (list Z)) p :
    option (smap string (list Z) * CDataPool * list DpOut) :=
  match id_list with
  | [] => Some ([], p, [])
  | (subs_topic, fns) :: id_list =>
      '(kept, p, out) ← (if topicMatched_topic topic subs_topic
                         then '(subscribed, p, out) ← dc_subscribeData client subs_id (c_str subs_topic) fns p;
                              Some (if subscribed : bool then [] else [(subs_topic, fns)], p, out)
                         else Some ([(subs_topic, fns)], p, []));
      '(id_list, p, out') ← take_topics client topic subs_id id_list p;
      Some (kept ++ id_list, p, out ++ out')
  end.
Fixpoint take_pending (client topic_id : Z) (topic : string) (t : tSubscriptionHandleTbl) p :
    option (tSubscriptionHandleTbl * CDataPool * list DpOut) :=
  match t with
  | [] => Some ([], p, [])
  | (subs_id, id_list) :: t =>
      '(kept, p, out) ← (if topicMatched_id topic_id subs_id
                         then '(id_list, p, out) ← take_topics client topic subs_id id_list p;
                              Some (if m_empty id_list then [] else [(subs_id, id_list)], p, out)
                         else Some ([(subs_id, id_list)], p, []));
      '(t, p, out') ← take_pending client topic_id topic t p;
      Some (kept ++ t, p, out ++ out')
  end.
Definition onTopicCreated (topic_id : Z) (topic : string) (client : Z) p : option (CDataPool * list DpOut) :=
  '(t, p, out) ← take_pending client topic_id topic (dp_mPendingSubscriptionHandle p) p;
  let p := dp_set_pending t p in
  Some (p, out ++ dp_notify topic topic_id true p).

(** [NTF_TOPIC_CREATED] comes to a client. *)
Fixpoint topics_created (client : Z) (l : list CTopicInfo) p : option (CDataPool * list DpOut) :=
  match l with
  | [] => Some (p, [])
  | i :: l => '(p, out) ← onTopicCreated (ti_mTopicId i) (c_str (ti_mTopic i)) client p; '(p, out') ← topics_created client l p; Some (p, out ++ out')
  end.
Definition updateTopicList (client : Z) (m : FdbMsgTopics) p : option (CDataPool * list DpOut) :=
  c ← m_find client (dp_clients p);
  topics_created client (mt_mTopicList m) (dp_set_clients (m_set client (dc_set_topics (toTopicInfo m []) c) (dp_clients p)) p).

(** ** A client goes *)

(** The listeners of the client are added again. That the client itself takes one makes the list
    grow that is being read. *)
Fixpoint resubscribe (client : Z) (l : list (Z * string * Z)) p : option (CDataPool * list DpOut) :=
  match l with
  | [] => Some (p, [])
  | (topic_id, topic, fn) :: l =>
      '(by_, p, out) ← doSubscribeData topic_id (c_str topic) fn p;
      if bool_decide (by_ = Some client) then None else
      '(p, out') ← resubscribe client l p; Some (p, out ++ out')
  end.
Definition handles_of (t : tSubscriptionHandleTbl) : list (Z * string * Z) :=
  '(id, topics) ← t; '(topic, fns) ← topics; fn ← fns; [(id, topic, fn)].
Definition dp_unregister (client : Z) p : option (CDataPool * list DpOut) :=
  let p := dp_set_table (remove_value client (dp_mDpClientTbl p)) p in
  match m_find client (dp_mClientSubscriptionHandle p) with
  | None => Some (p, [])
  | Some t =>
      '(p, out) ← resubscribe client (handles_of t) p;
      Some (dp_set_handles (m_erase client (dp_mClientSubscriptionHandle p)) p, out)
  end.

(** [~CDpClient] *)
Definition dc_destroy (client : Z) p : option (CDataPool * list DpOut) :=
  c ← m_find client (dp_clients p);
  '(p, out) ← dp_unregister client p;
  Some (dp_set_clients (m_erase client (dp_clients p)) p,
        out ++ ('(_, topics) ← dc_mTopicTbl c; '(_, i) ← topics; dp_notify (c_str (ti_mTopic i)) (ti_mTopicId i) false p)).

(** A session of the client is lost: [checkAutoRemove]. *)
Definition dc_onHup (client : Z) p : option (CDataPool * list DpOut) :=
  match m_find client (dp_clients p) with
  | None => Some (p, [])
  | Some c =>
      let c := dc_set_sessions (pred (dc_sessions c)) c in
      let p := dp_set_clients (m_set client c (dp_clients p)) p in
      if (dc_sessions c =? 0)%nat then dc_destroy client p else Some (p, [])
  end.

(** ** Another owner appears or goes *)

Fixpoint find_client (host_name svc_name : string) (instance_id : Z) (ptrs : list Z) p : option (option Z) :=
  match ptrs with
  | [] => Some None
  | ptr :: ptrs =>
      c ← m_find ptr (dp_clients p);
      if (dc_mInstanceId c =? instance_id) && String.eqb (dc_mNsName c) svc_name && String.eqb (dc_mHostName c) host_name then Some (Some ptr)
      else find_client host_name svc_name instance_id ptrs p
  end.
Definition findClient (host_name svc_name : string) (instance_id : Z) p : option (option Z) :=
  find_client host_name svc_name instance_id (dp_mDpClientTbl p) p.

(** The network: how many sessions [doConnectToAddress] makes, and whether an address fails.
    [fresh] is the client that is created when there is none. *)
Definition with_auto_udp (l : FdbMsgAddressList) : FdbMsgAddressList :=
  al_set_addresses l (map (fun it => if FdbMsgAddressItem_has_udp_port it then set_udp_port it FDB_INET_PORT_AUTO else it) (al_mAddressList l)).
Definition dp_connect (l : FdbMsgAddressList) (fresh : Z) (sessions : nat) (tcp_failure : bool) p : option (CDataPool * list DpOut) :=
  let host_name := c_str (al_mHostName l) in
  let svc_name := c_str (al_mServiceName l) in
  let instance_id := al_mInstanceId l in
  if negb (fdbEventGroup instance_id =? dp_mDomainId p) then Some (p, []) else
  if al_mIsLocal l && match dp_mDpServer p with Some s => ds_mInstanceId s =? instance_id | None => false end then Some (p, []) else
  found ← findClient host_name svc_name instance_id p;
  let '(p, out) := match found ≫= fun ptr => (fun c => (ptr, c)) <$> m_find ptr (dp_clients p) with
                   | Some (ptr, c) => (dp_set_clients (m_set ptr (dc_set_sessions 0 c) (dp_clients p)) p, [DpDisconnect ptr])
                   | None => (p, [])
                   end in
  if bool_decide (al_mAddressList l = []) then Some (p, out) else
  let '(ptr, c) := match found ≫= fun ptr => (fun c => (ptr, c)) <$> m_find ptr (dp_clients p) with
                   | Some (ptr, c) => (ptr, c)
                   | None => (fresh, mkDpClient instance_id FDB_DATAPOOL_SERVER_NAME host_name [] CBaseEventDispatcher_new 0)
                   end in
  let p := dp_set_clients (m_set ptr (dc_set_sessions sessions c) (dp_clients p)) p in
  let out := out ++ DpConnect ptr (with_auto_udp l) :: (if (0 <? sessions)%nat then [DpSubscribeTopics ptr] else []) in
  Some (if tcp_failure then p else dp_set_table (dp_mDpClientTbl p ++ [ptr]) p, out).

(** ** The server *)

Definition ds_set_topics (t : tTopicTbl) (s : CDpServer) : CDpServer := mkDpServer (ds_mInstanceId s) t (ds_obj s) (ds_setevt s).
Definition ds_set_obj (o : CFdbBaseObject) (s : CDpServer) : CDpServer := mkDpServer (ds_mInstanceId s) (ds_mTopicTbl s) o (ds_setevt s).
Definition ds_set_setevt (d : CBaseEventDispatcher) (s : CDpServer) : CDpServer := mkDpServer (ds_mInstanceId s) (ds_mTopicTbl s) (ds_obj s) d.
Definition populateTopicList (t : tTopicTbl) (m : FdbMsgTopics) : FdbMsgTopics := fromTopicInfo t m.

Definition enableEventRoute (active : bool) (o : CFdbBaseObject) : CFdbBaseObject :=
  mkObject (if active then Z.lor (o_mFlag o) FDB_OBJ_ENABLE_EVENT_ROUTE else Z.land (o_mFlag o) (Z.lnot FDB_OBJ_ENABLE_EVENT_ROUTE))
    (o_mObjId o) (o_mRole o) (mEventSubscribeHandle o) (mGroupSubscribeHandle o) (mEventCache o).

Definition ds_createData (name : string) (domain_id : Z) (worker : option Z) (topic_id : Z) (topic : string) (data : option (list Z)) (size : Z)
    (modify_listener : option Z) (s : CDpServer) : CDpServer * list DpOut :=
  if topicCreated topic topic_id (ds_mTopicTbl s) then (s, []) else
  let s := ds_set_topics (topic_put (mkTopicInfo topic topic_id name domain_id) (ds_mTopicTbl s)) s in
  let s := match modify_listener with
           | Some fn => ds_set_setevt (evt_registerCallback (evttbl_add topic_id (Some fn) worker (Some topic) 0 []).2 (ds_setevt s)).2 s
           | None => s
           end in
  let allow_event_route := match modify_listener with Some _ => false | None => true end in
  let s := if (topic_id =? fdbMakeGroupEvent FDB_EVENT_ALL_GROUPS) && is_empty_str topic
           then ds_set_obj (enableEventRoute allow_event_route (ds_obj s)) s
           else ds_set_obj (with_cache (ds_obj s) (cache_replace (mEventCache (ds_obj s)) topic_id topic data size allow_event_route true)) s in
  (s, [DpTopics (populateTopicList (ds_mTopicTbl s) (mkTopics []))]).

(** Only when the last topic of a number is destroyed the clients are told. *)
Definition ds_destroyData (topic_id : Z) (topic : string) (s : CDpServer) : CDpServer * list DpOut :=
  match m_find topic_id (ds_mTopicTbl s) with
  | None => (s, [])
  | Some topics =>
      let s := ds_set_topics (m_prune topic_id (m_erase topic topics) (ds_mTopicTbl s)) s in
      (s, if m_empty (m_erase topic topics) then [DpTopics (populateTopicList (ds_mTopicTbl s) (mkTopics []))] else [])
  end.

(** [publishNoQueue] *)
Definition publish_message (obj_id : Z) (type : EFdbMessageType) (m : CFdbMessage) : CFdbMessage :=
  mkMessage type (mCode m) FDB_INVALID_ID obj_id (Z.lor (mFlag m) MSG_FLAG_NOREPLY_EXPECTED) (mTopic m) (mPayload m) (mPayloadSize m) (mQOS m).

Section pool.
Context {I : Indet} (sid : Z -> Z).

Definition ds_publishData (m : CFdbMessage) (s : CDpServer) : option (bool * CDpServer * list DpOut) :=
  if negb (topicCreated (c_str (mTopic m)) (mCode m) (ds_mTopicTbl s)) then Some (false, s, []) else
  '(o, sent, out) ← obj_broadcast sid (ds_obj s) (publish_message (o_mObjId (ds_obj s)) FDB_MT_BROADCAST m);
  Some (sent, ds_set_obj o s, map DpDeliver out).

Fixpoint publish_by_clients (m : CFdbMessage) (ptrs : list Z) p : option (list DpOut) :=
  match ptrs with
  | [] => Some []
  | ptr :: ptrs =>
      c ← m_find ptr (dp_clients p);
      if topicCreated (c_str (mTopic m)) (mCode m) (dc_mTopicTbl c) then Some [DpPublishBy ptr (publish_message FDB_OBJECT_MAIN FDB_MT_PUBLISH m)]
      else publish_by_clients m ptrs p
  end.
(** The server, or else the first client whose owner created the topic. *)
Definition doPublishData (m : CFdbMessage) p : option (CDataPool * list DpOut) :=
  '(done_, p, out) ← match dp_mDpServer p with
                    | Some s => '(sent, s, out) ← ds_publishData m s; Some (sent, dp_set_server (Some s) p, out)
                    | None => Some (false, p, [])
                    end;
  if done_ : bool then Some (p, out) else
  out' ← publish_by_clients m (dp_mDpClientTbl p) p; Some (p, out ++ out').

(** ** Lists of topics *)

Fixpoint available_topics (ptrs : list Z) (m : FdbMsgTopics) p : option FdbMsgTopics :=
  match ptrs with
  | [] => Some m
  | ptr :: ptrs => c ← m_find ptr (dp_clients p); available_topics ptrs (populateTopicList (dc_mTopicTbl c) m) p
  end.
Definition doGetTopicList p : option FdbMsgTopicsQuery :=
  available ← available_topics (dp_mDpClientTbl p) (mkTopics []) p;
  Some (mkTopicsQuery (match dp_mDpServer p with Some s => populateTopicList (ds_mTopicTbl s) (mkTopics []) | None => mkTopics [] end) available).

(** [NTF_TOPIC_CREATED] is subscribed by a client: it gets the table as it is. *)
Definition ds_ctrl_onSubscribe (codes : list Z) (s : CDpServer) : list DpOut :=
  flat_map (fun code => if code =? NTF_TOPIC_CREATED then [DpTopics (populateTopicList (ds_mTopicTbl s) (mkTopics []))] else []) codes.

Fixpoint notify_available (ptrs : list Z) (ntf : Z) p : option (list DpOut) :=
  match ptrs with
  | [] => Some []
  | ptr :: ptrs =>
      c ← m_find ptr (dp_clients p);
      out ← notify_available ptrs ntf p;
      Some (('(_, topics) ← dc_mTopicTbl c; '(_, i) ← topics; [DpNotify ntf (dp_mHandleWorker p) (mkAvailable (c_str (ti_mTopic i)) (ti_mTopicId i) true)]) ++ out)
  end.
(** [ntf]: the notification that was created. *)
Definition registerTopicAvailableListener (ntf : Z) p : option (CDataPool * list DpOut) :=
  let p := dp_set_center (ntf_subscribe FDB_INVALID_ID ntf (dp_mHandleWorker p) (dp_mTopicAvailableNtfCenter p)).2 p in
  out ← notify_available (dp_mDpClientTbl p) ntf p; Some (p, out).

(** ** What the application asks for *)

Inductive DpJob :=
  | JobCreate (topic_id : Z) (topic : string) (data : option (list Z)) (size : Z) (modify_listener : option Z)
  | JobDestroy (topic_id : Z) (topic : string)
  | JobSubscribe (topic_id : Z) (topic : string) (publish_listener : Z)
  | JobPublish (m : CFdbMessage)
  | JobTopics
  | JobListen (ntf : Z).

(** [None]: the call returns false. [build]: what the builder makes. *)
Definition createData_builder (topic_id : Z) (topic : option string) (build : option (list Z)) (modify_listener : option Z) p : option DpJob :=
  if negb (dp_started p) then None else
  data ← build; Some (JobCreate topic_id (c_str (cstr_or_empty topic)) (Some data) (Z.of_nat (length data)) modify_listener).
Definition createData_all (modify_listener : option Z) p : option DpJob :=
  if negb (dp_started p) then None else Some (JobCreate (fdbMakeGroupEvent FDB_EVENT_ALL_GROUPS) EmptyString None 0 modify_listener).
Definition createData_topic (topic : option string) (build : option (list Z)) (modify_listener : option Z) p : option DpJob :=
  createData_builder FDB_DP_DEFAULT_TOPIC_ID topic build modify_listener p.
Definition createData_id (topic_id : Z) (build : option (list Z)) (modify_listener : option Z) p : option DpJob :=
  createData_builder topic_id (Some FDB_DP_DEFAULT_TOPIC_STR) build modify_listener p.

(** With bytes of the caller; the outer [None] is a read outside of them. *)
Definition createData_raw (topic_id : Z) (topic : option string) (data : option (list Z)) (size : Z) (modify_listener : option Z) p : option (option DpJob) :=
  if negb (dp_started p) then Some None else
  raw ← match data with
        | Some b => if size =? 0 then Some None else if size <? 0 then Some None else Some <$> read_bytes b size
        | None => Some None
        end;
  Some (Some (JobCreate topic_id (c_str (cstr_or_empty topic)) raw size modify_listener)).

Definition destroyData (topic_id : Z) (topic : option string) p : option DpJob :=
  if negb (dp_started p) then None else Some (JobDestroy topic_id (c_str (cstr_or_empty topic))).
Definition destroyData_topic (topic : option string) p : option DpJob := destroyData FDB_DP_DEFAULT_TOPIC_ID topic p.
Definition destroyData_id (topic_id : Z) p : option DpJob := destroyData topic_id (Some FDB_DP_DEFAULT_TOPIC_STR) p.
(** The call without arguments does nothing and says it did. *)
Definition destroyData_all : bool := true.

Definition subscribeData (topic_id : Z) (topic : option string) (publish_listener : Z) p : option DpJob :=
  if negb (dp_started p) then None else Some (JobSubscribe topic_id (c_str (cstr_or_empty topic)) publish_listener).
Definition subscribeData_topic (topic : option string) (publish_listener : Z) p : option DpJob := subscribeData FDB_DP_DEFAULT_TOPIC_ID topic publish_listener p.
Definition subscribeData_id (topic_id publish_listener : Z) p : option DpJob := subscribeData topic_id (Some FDB_DP_DEFAULT_TOPIC_STR) publish_listener p.
Definition subscribeData_all (publish_listener : Z) p : option DpJob := subscribeData (fdbMakeGroupEvent FDB_EVENT_ALL_GROUPS) None publish_listener p.

Definition publishData (topic_id : Z) (topic : option string) (build : option (list Z)) (force_update : bool) (qos : EFdbQOS) p : option DpJob :=
  if negb (dp_started p) then None else
  data ← build;
  Some (JobPublish (forceUpdate (mkMessage FDB_MT_REQUEST topic_id FDB_INVALID_ID FDB_INVALID_ID 0 (c_str (cstr_or_empty topic)) (Some data) (Z.of_nat (length data)) qos) force_update)).
Definition publishData_topic (topic : option string) (build : option (list Z)) (force_update : bool) (qos : EFdbQOS) p : option DpJob :=
  publishData FDB_DP_DEFAULT_TOPIC_ID topic build force_update qos p.
Definition publishData_id (topic_id : Z) (build : option (list Z)) (force_update : bool) (qos : EFdbQOS) p : option DpJob :=
  publishData topic_id (Some FDB_DP_DEFAULT_TOPIC_STR) build force_update qos p.

(** ** What happens to a pool *)

Definition dp_run_job (job : DpJob) p : option (CDataPool * list DpOut) :=
  match job with
  | JobCreate topic_id topic data size modify_listener =>
      match dp_mDpServer p with
      | None => Some (p, [])
      | Some s => let '(s, out) := ds_createData (dp_mName p) (dp_mDomainId p) (dp_mHandleWorker p) topic_id (c_str topic) data size modify_listener s in
                  Some (dp_set_server (Some s) p, out)
      end
  | JobDestroy topic_id topic =>
      match dp_mDpServer p with
      | None => Some (p, [])
      | Some s => let '(s, out) := ds_destroyData topic_id (c_str topic) s in Some (dp_set_server (Some s) p, out)
      end
  | JobSubscribe topic_id topic fn => '(_, p, out) ← doSubscribeData topic_id (c_str topic) fn p; Some (p, out)
  | JobPublish m => doPublishData m p
  | JobTopics => q ← doGetTopicList p; Some (p, [DpTopicList q])
  | JobListen ntf => registerTopicAvailableListener ntf p
  end.

Inductive DpEvent :=
  | EvStart (handle_worker : option Z) (topic_owner topic_borrower ns_proxy : bool)
  | EvJob (job : DpJob)
  | EvService (l : FdbMsgAddressList) (fresh : Z) (sessions : nat) (tcp_failure : bool)   (* CServiceMonitor::run *)
  | EvTopics (client : Z) (m : option FdbMsgTopics)                                       (* CCtrlChannel::onBroadcast *)
  | EvHup (client : Z)
  | EvInstance (instance_id : Z)                                                          (* the server is given an instance *)
  | EvNoReflect (active : bool)
  | EvSubscribed (session code obj_id : Z) (topic : option string) (flag : Z)             (* by a peer of the server *)
  | EvUnsubscribed (session code obj_id : Z) (topic : option string)
  | EvSessionLost (session : Z)
  | EvPublished (m : CFdbMessage).                                                        (* by a peer of the server *)

Definition ds_update (f : CFdbBaseObject -> CFdbBaseObject) p : CDataPool :=
  match dp_mDpServer p with Some s => dp_set_server (Some (ds_set_obj (f (ds_obj s)) s)) p | None => p end.

Definition dp_step (ev : DpEvent) p : option (CDataPool * list DpOut) :=
  match ev with
  | EvStart handle_worker topic_owner topic_borrower ns_proxy => Some (dp_start handle_worker topic_owner topic_borrower ns_proxy p)
  | EvJob job => dp_run_job job p
  | EvService l fresh sessions tcp_failure => dp_connect l fresh sessions tcp_failure p
  | EvTopics client m => match m, m_find client (dp_clients p) with Some m, Some _ => updateTopicList client m p | _, _ => Some (p, []) end
  | EvHup client => dc_onHup client p
  | EvInstance id =>
      Some (match dp_mDpServer p with Some s => dp_set_server (Some (mkDpServer id (ds_mTopicTbl s) (ds_obj s) (ds_setevt s))) p | None => p end, [])
  | EvNoReflect active => Some (enableNoReflect active p, [])
  | EvSubscribed session code obj_id topic flag => Some (ds_update (fun o => obj_subscribe o session code obj_id topic flag) p, [])
  | EvUnsubscribed session code obj_id topic => Some (ds_update (fun o => obj_unsubscribe o session code obj_id topic) p, [])
  | EvSessionLost session => Some (ds_update (fun o => obj_unsubscribe_session o session) p, [])
  | EvPublished m =>
      match dp_mDpServer p with
      | None => Some (p, [])
      | Some s => '(o, acts) ← doPublish sid (ds_obj s) m;
                  Some (dp_set_server (Some (ds_set_obj o s)) p, flat_map (fun a => match a with Forward d => [DpDeliver d] | _ => [] end) acts)
      end
  end.
Fixpoint dp_run (evs : list DpEvent) p : option (CDataPool * list DpOut) :=
  match evs with
  | [] => Some (p, [])
  | ev :: evs => '(p, out) ← dp_step ev p; '(p, out') ← dp_run evs p; Some (p, out ++ out')
  end.
End pool.
