(* ===== verification/DataPoolReach.v ===== *)
(** Where the listeners of a data pool are: over any run of events each is either waiting or
    registered with exactly one live client, nothing that is gone is used, and a listener waits only
    as long as no owner the pool is connected to has created its topic. *)
From S2P Require Import Prelude CommonDefs StdMap Serializer Codec WireBase NsMessages Subscribe EventObject EventLoop Message Dispatcher Endpoint TopicTables DataPool.
Open Scope Z_scope.

(** ** Tables of listeners as lists *)

Section perm.
Context {K V : Type} `{KeyOrd K}.
Implicit Types m : smap K V.

Lemma m_find_perm k v m : m_find k m = Some v -> m ≡ₚ (k, v) :: m_erase k m.
Proof.
  induction m as [|[k' v'] m IH]; cbn [m_find m_erase]; [done|]. destruct (klt k k') eqn:E1; [done|]. destruct (klt k' k) eqn:E2.
  - intros E. rewrite (IH E) at 1. constructor.
  - intros [= <-]. by rewrite (klt_total k k').
Qed.
Lemma m_set_perm k v m : m_set k v m ≡ₚ (k, v) :: m_erase k m.
Proof.
  induction m as [|[k' v'] m IH]; cbn [m_set m_erase]; [done|]. destruct (klt k k') eqn:E1; [done|]. destruct (klt k' k) eqn:E2; [|done].
  rewrite IH. constructor.
Qed.
Context {B : Type} (f : K * V -> list B).
Lemma handles_bind_set k v m : (m_set k v m ≫= f) ≡ₚ f (k, v) ++ (m_erase k m ≫= f).
Proof. by rewrite m_set_perm. Qed.
Lemma handles_bind_at d k m : f (k, d) = [] -> (m ≫= f) ≡ₚ f (k, m_at d k m) ++ (m_erase k m ≫= f).
Proof.
  intros Hd. unfold m_at. destruct (m_find k m) as [v|] eqn:E; cbn [default from_option Datatypes.id].
  - by rewrite (m_find_perm k v m E) at 1.
  - by rewrite Hd, m_erase_none.
Qed.
End perm.

Definition topic_rows (id : Z) (topics : smap string (list Z)) : list (Z * string * Z) := '(topic, fns) ← topics; fn ← fns; [(id, topic, fn)].
Lemma row_map (id : Z) (topic : string) (fns : list Z) : (fn ← fns; [(id, topic, fn)]) = map (fun fn => (id, topic, fn)) fns.
Proof. induction fns as [|fn fns IH]; [done|]. cbn. by f_equal. Qed.

Lemma handle_push_perm id topic fn t : handles_of (handle_push id topic fn t) ≡ₚ (id, topic, fn) :: handles_of t.
Proof.
  unfold handles_of, handle_push. set (f := fun '(i, topics) => topic_rows i topics). change (fun '(id0, topics) => _) with f.
  rewrite (handles_bind_set f), (handles_bind_at f [] id t) by done. rewrite app_comm_cons. apply Permutation_app_tail. cbn [f].
  generalize (m_at [] id t) as topics. intros topics. unfold topic_rows. set (g := fun '(s, fns) => fn0 ← fns; [(id, s, fn0)]). change (fun '(topic0, fns) => _) with g.
  rewrite (handles_bind_set g), (handles_bind_at g [] topic topics) by done. rewrite app_comm_cons. apply Permutation_app_tail. cbn [g].
  rewrite !row_map, map_app. cbn [map]. by rewrite Permutation_app_comm.
Qed.

(** ** The invariant *)

(** The topic of a listener comes from a C string. *)
Definition plain_topics (t : tSubscriptionHandleTbl) : Prop := Forall (fun h : Z * string * Z => c_str h.1.2 = h.1.2) (handles_of t).
Definition registered (p : CDataPool) : list (Z * string * Z) := '(_, t) ← dp_mClientSubscriptionHandle p; handles_of t.
Definition pending (p : CDataPool) : list (Z * string * Z) := handles_of (dp_mPendingSubscriptionHandle p).
Definition handles_at (p : CDataPool) (client : Z) : list (Z * string * Z) := handles_of (m_at [] client (dp_mClientSubscriptionHandle p)).
Definition item_key (it : CEvtHandleItem (H := Z)) : Z * string * option Z := (ei_mCode it, ei_mTopic it, ei_mCallback it).
Definition key_of (h : Z * string * Z) : Z * string * option Z := (h.1.1, h.1.2, Some h.2).

(** The handlers of a client are those of the listeners that were given to it. *)
Definition client_exact (p : CDataPool) (client : Z) (c : CDpClient) : Prop :=
  exists l, holds l (dc_events c) /\ map item_key l ≡ₚ map key_of (handles_at p client).

Record dp_inv (p : CDataPool) : Prop := {
  di_clients : m_sorted (dp_clients p);
  di_handles : m_sorted (dp_mClientSubscriptionHandle p);
  di_nodup : NoDup (dp_mDpClientTbl p);
  di_live : forall client, client ∈ dp_mDpClientTbl p -> is_Some (m_find client (dp_clients p));
  di_owned : forall client, is_Some (m_find client (dp_mClientSubscriptionHandle p)) -> is_Some (m_find client (dp_clients p));
  di_topics : forall client c, m_find client (dp_clients p) = Some c -> topics_ok (dc_mTopicTbl c);
  di_plain : plain_topics (dp_mPendingSubscriptionHandle p) /\ Forall (fun h : Z * string * Z => c_str h.1.2 = h.1.2) (registered p);
  di_exact : forall client c, m_find client (dp_clients p) = Some c -> client_exact p client c }.

(** Everything but the handlers of clients. *)
Definition dc_view (c : CDpClient) : CDpClient := dc_set_events CBaseEventDispatcher_new c.
Definition rest (p : CDataPool) : CDataPool := dp_set_clients [] (dp_set_handles [] p).

(** The listeners [l] are given to a client. *)
Record added (client : Z) (l : list (Z * string * Z)) (p p' : CDataPool) : Prop := {
  ad_inv : dp_inv p';
  ad_rest : rest p' = rest p;
  ad_views : forall k, dc_view <$> m_find k (dp_clients p') = dc_view <$> m_find k (dp_clients p);
  ad_handles : forall k, k <> client -> m_find k (dp_mClientSubscriptionHandle p') = m_find k (dp_mClientSubscriptionHandle p);
  ad_registered : registered p' ≡ₚ l ++ registered p }.

Lemma registered_at p client : registered p ≡ₚ handles_at p client ++ ('(_, t) ← m_erase client (dp_mClientSubscriptionHandle p); handles_of t).
Proof. unfold registered, handles_at. rewrite (handles_bind_at (fun '(_, t) => handles_of t) [] client) by done. done. Qed.

Lemma added_refl client p : dp_inv p -> added client [] p p.
Proof. by split. Qed.
Lemma added_trans client l1 l2 p1 p2 p3 : added client l1 p1 p2 -> added client l2 p2 p3 -> added client (l1 ++ l2) p1 p3.
Proof.
  intros [I1 R1 V1 H1 P1] [I2 R2 V2 H2 P2]. split; [done|by rewrite R2|by intros k; rewrite V2|by intros k Hk; rewrite H2, H1|].
  rewrite P2, P1, !app_assoc. by rewrite (Permutation_app_comm l2 l1).
Qed.

Lemma dc_register_spec client id topic fn p : dp_inv p -> is_Some (m_find client (dp_clients p)) -> c_str topic = topic ->
  Z.of_nat (length (registered p)) + 1 < 2 ^ 32 -> exists p' out, dc_register client id topic fn p = Some (p', out) /\ added client [(id, topic, fn)] p p'.
Proof.
  intros Hi [c Hc] Ht Hn. unfold dc_register. rewrite Hc. cbn [mbind option_bind evttbl_add app from_option Datatypes.id cstr_or_empty]. rewrite Ht.
  set (it := mkEvtItem id (Some fn) topic _ _). unfold doRegisterEventHandle. destruct (evt_registerCallback [it] (dc_events c)) as [ids d] eqn:Er.
  eexists _, _. split; [done|].
  set (h := m_set client (handle_push id topic fn (m_at [] client (dp_mClientSubscriptionHandle p))) (dp_mClientSubscriptionHandle p)).
  set (cs := m_set client (dc_set_events d c) (dp_clients p)). change (added client [(id, topic, fn)] p (dp_set_handles h (dp_set_clients cs p))).
  assert (registered (dp_set_handles h (dp_set_clients cs p)) ≡ₚ (id, topic, fn) :: registered p) as Hreg.
  { rewrite (registered_at p client). unfold registered. cbn [dp_mClientSubscriptionHandle dp_set_handles]. unfold h. rewrite (handles_bind_set (fun '(_, t) => handles_of t)), handle_push_perm. done. }
  assert (forall k, handles_at (dp_set_handles h (dp_set_clients cs p)) k ≡ₚ (if decide (k = client) then [(id, topic, fn)] else []) ++ handles_at p k) as Hat.
  { intros k. unfold handles_at. cbn [dp_mClientSubscriptionHandle dp_set_handles]. unfold h. rewrite m_at_set by apply Hi. case_decide; [subst k; by rewrite handle_push_perm|done]. }
  split; [split|done| | |done].
  - by apply m_sorted_set, Hi.
  - by apply m_sorted_set, Hi.
  - apply Hi.
  - intros k Hk. cbn [dp_clients dp_set_handles dp_set_clients]. unfold cs. rewrite m_find_set_dec by apply Hi. case_decide; [done|by apply (di_live _ Hi)].
  - intros k. cbn [dp_mClientSubscriptionHandle dp_clients dp_set_handles dp_set_clients]. unfold h, cs. rewrite !m_find_set_dec by apply Hi. case_decide; [done|apply (di_owned _ Hi)].
  - intros k c'. cbn [dp_clients dp_set_handles dp_set_clients]. unfold cs. rewrite m_find_set_dec by apply Hi. case_decide; [|by apply (di_topics _ Hi)].
    intros [= <-]. exact (di_topics _ Hi client c Hc).
  - split; [exact (proj1 (di_plain _ Hi))|]. rewrite Hreg. constructor; [exact Ht|exact (proj2 (di_plain _ Hi))].
  - intros k c'. change (dp_clients (dp_set_handles h (dp_set_clients cs p))) with cs. unfold cs at 1. rewrite m_find_set_dec by apply Hi. unfold client_exact. case_decide as Hk.
    + intros [= <-]. subst k. destruct (di_exact _ Hi client c Hc) as (l & Hl & El).
      assert (Z.of_nat (length l) <= Z.of_nat (length (registered p))) as Hlen.
      { apply Permutation_length in El. rewrite !length_map in El. rewrite El, (registered_at p client), length_app. lia. }
      destruct (register_holds [it] l (dc_events c) Hl ltac:(cbn [length]; lia)) as [_ Hl']. rewrite Er in Hl'. exists (l ++ [it]). split; [exact Hl'|].
      rewrite Hat, decide_True by done. rewrite map_app, El. cbn [map app]. by rewrite Permutation_app_comm.
    + intros Hk'. destruct (di_exact _ Hi k c' Hk') as (l & Hl & El). exists l. split; [done|]. by rewrite Hat, decide_False by done.
  - intros k. cbn [dp_clients dp_set_handles dp_set_clients]. unfold cs. rewrite m_find_set_dec by apply Hi. case_decide; [|done]. subst k. by rewrite Hc.
  - intros k Hk. cbn [dp_mClientSubscriptionHandle dp_set_handles]. unfold h. by rewrite m_find_set_ne by (done || apply Hi).
Qed.

(** ** Registering with a client *)

Lemma added_live client l p p' k : added client l p p' -> is_Some (m_find k (dp_clients p)) <-> is_Some (m_find k (dp_clients p')).
Proof. intros A. pose proof (ad_views _ _ _ _ A k) as V. rewrite <- (fmap_is_Some dc_view), <- V, fmap_is_Some. done. Qed.
Lemma added_client client l p p' k c : added client l p p' -> m_find k (dp_clients p') = Some c -> exists c0, m_find k (dp_clients p) = Some c0 /\ dc_view c0 = dc_view c.
Proof. intros A Hc. pose proof (ad_views _ _ _ _ A k) as V. rewrite Hc in V. symmetry in V. apply fmap_Some in V as (c0 & H0 & ->). eauto. Qed.
Lemma added_table client l p p' : added client l p p' -> dp_mDpClientTbl p' = dp_mDpClientTbl p.
Proof. intros A. by injection (ad_rest _ _ _ _ A). Qed.
Lemma added_pending client l p p' : added client l p p' -> dp_mPendingSubscriptionHandle p' = dp_mPendingSubscriptionHandle p.
Proof. intros A. by injection (ad_rest _ _ _ _ A). Qed.
Lemma view_topics c c' : dc_view c = dc_view c' -> dc_mTopicTbl c = dc_mTopicTbl c'.
Proof. by intros [=]. Qed.

Lemma added_keeps client l p p' c : added client l p p' -> m_find client (dp_clients p) = Some c ->
  exists c', m_find client (dp_clients p') = Some c' /\ dc_mTopicTbl c' = dc_mTopicTbl c.
Proof.
  intros A Hc. destruct (proj1 (added_live _ _ _ _ client A) ltac:(by rewrite Hc)) as [c' Hc']. exists c'. split; [done|].
  destruct (added_client _ _ _ _ _ _ A Hc') as (c0 & H0 & V). rewrite Hc in H0. injection H0 as <-. symmetry. by apply view_topics.
Qed.

Lemma dc_register_all_spec client id topic fns : forall p, dp_inv p -> is_Some (m_find client (dp_clients p)) -> c_str topic = topic ->
  Z.of_nat (length (registered p) + length fns) < 2 ^ 32 ->
  exists p' out, dc_register_all client id topic fns p = Some (p', out) /\ added client (map (fun fn => (id, topic, fn)) fns) p p'.
Proof.
  induction fns as [|fn fns IH]; intros p Hi Hc Ht Hn; cbn [dc_register_all map length] in *; [by eexists _, _; split; [done|apply added_refl]|].
  destruct (dc_register_spec client id topic fn p Hi Hc Ht ltac:(lia)) as (p1 & o1 & -> & A1). cbn [mbind option_bind].
  destruct (IH p1) as (p2 & o2 & -> & A2); [apply A1|by apply (added_live _ _ _ _ client A1)|done|rewrite (ad_registered _ _ _ _ A1); cbn [app length]; lia|].
  eexists _, _. split; [done|]. exact (added_trans client [_] _ _ _ _ A1 A2).
Qed.

Lemma dc_subscribeData_spec client id topic fns p c : dp_inv p -> m_find client (dp_clients p) = Some c -> c_str topic = topic ->
  Z.of_nat (length (registered p) + length fns) < 2 ^ 32 ->
  exists p' out, dc_subscribeData client id topic fns p = Some (topicCreated topic id (dc_mTopicTbl c), p', out) /\
    if topicCreated topic id (dc_mTopicTbl c) then added client (map (fun fn => (id, topic, fn)) fns) p p' else p' = p.
Proof.
  intros Hi Hc Ht Hn. unfold dc_subscribeData. rewrite Hc. cbn [mbind option_bind]. destruct (topicCreated _ _ _); cbn [negb]; [|by eexists _, _].
  destruct (dc_register_all_spec client id topic fns p) as (p' & out & -> & A); [done|by rewrite Hc|done|done|]. by eexists _, _.
Qed.

(** ** Where a listener goes *)

(** No client of the table has the topic. *)
Definition uncovered (id : Z) (topic : string) (p : CDataPool) : Prop :=
  forall client c, client ∈ dp_mDpClientTbl p -> m_find client (dp_clients p) = Some c -> topicCreated topic id (dc_mTopicTbl c) = false.
Definition waits (p : CDataPool) : Prop := forall id topic fn, (id, topic, fn) ∈ pending p -> uncovered id topic p.

Lemma added_uncovered client l p p' id topic : added client l p p' -> uncovered id topic p -> uncovered id topic p'.
Proof.
  intros A Hu k c Hk Hc. rewrite (added_table _ _ _ _ A) in Hk. destruct (added_client _ _ _ _ _ _ A Hc) as (c0 & H0 & V). rewrite <- (view_topics _ _ V). by apply (Hu k).
Qed.
Lemma added_waits client l p p' : added client l p p' -> waits p -> waits p'.
Proof. intros A Hw id topic fn. unfold pending. rewrite (added_pending _ _ _ _ A). intros Hin. by eapply added_uncovered, Hw. Qed.

Lemma first_client_spec ptrs id topic fn p : dp_inv p -> (forall k, k ∈ ptrs -> is_Some (m_find k (dp_clients p))) -> c_str topic = topic ->
  Z.of_nat (length (registered p)) + 1 < 2 ^ 32 ->
  exists by_ p' out, first_client ptrs id topic fn p = Some (by_, p', out) /\
    match by_ with
    | Some k => k ∈ ptrs /\ added k [(id, topic, fn)] p p'
    | None => p' = p /\ forall k c, k ∈ ptrs -> m_find k (dp_clients p) = Some c -> topicCreated topic id (dc_mTopicTbl c) = false
    end.
Proof.
  intros Hi Hl Ht Hn. induction ptrs as [|k ptrs IH]; cbn [first_client].
  - eexists None, p, _. split_and!; [done|done|]. intros k c. by rewrite elem_of_nil.
  - destruct (Hl k ltac:(by left)) as [c Hc]. destruct (dc_subscribeData_spec k id topic [fn] p c Hi Hc Ht ltac:(cbn [length]; lia)) as (p1 & o1 & -> & A).
    cbn [mbind option_bind]. destruct (topicCreated topic id (dc_mTopicTbl c)) eqn:E; [exists (Some k); eexists _, _; split_and!; [done|by left|done]|]. subst p1.
    destruct IH as (by_ & p' & out & -> & Hs); [by intros j Hj; apply Hl; right|]. eexists by_, _, _. split; [done|]. destruct by_ as [j|].
    + destruct Hs. split; [by right|done].
    + destruct Hs as [-> Hf]. split; [done|]. intros j c' [->|Hj]%elem_of_cons Hc'; [congruence|by apply (Hf j)].
Qed.

Lemma set_pending_inv t p : dp_inv p -> plain_topics t -> dp_inv (dp_set_pending t p).
Proof. intros [] Ht. split; try done. by split; [|apply di_plain0]. Qed.

Lemma doSubscribeData_spec id topic fn p : dp_inv p -> c_str topic = topic -> Z.of_nat (length (registered p)) + 1 < 2 ^ 32 ->
  exists by_ p' out, doSubscribeData id topic fn p = Some (by_, p', out) /\
    match by_ with
    | Some k => k ∈ dp_mDpClientTbl p /\ added k [(id, topic, fn)] p p'
    | None => p' = dp_set_pending (handle_push id topic fn (dp_mPendingSubscriptionHandle p)) p /\ dp_inv p' /\ uncovered id topic p
    end.
Proof.
  intros Hi Ht Hn. unfold doSubscribeData. destruct (first_client_spec (dp_mDpClientTbl p) id topic fn p Hi (di_live _ Hi) Ht Hn) as (by_ & p' & out & -> & Hs).
  cbn [mbind option_bind]. destruct by_ as [k|]; [by eexists (Some k), _, _|]. destruct Hs as [-> Hf]. eexists None, _, _. split_and!; [done|done| |done].
  apply set_pending_inv; [done|]. unfold plain_topics. rewrite handle_push_perm. constructor; [done|apply Hi].
Qed.

(** ** An owner creates topics *)

Definition matched (id : Z) (topic : string) (h : Z * string * Z) : bool := topicMatched_id id h.1.1 && topicMatched_topic topic h.1.2.
Definition created (c : CDpClient) (h : Z * string * Z) : bool := topicCreated h.1.2 h.1.1 (dc_mTopicTbl c).

Lemma in_perm {A} (x : A) l1 l2 l3 : l1 ++ l2 ≡ₚ l3 -> x ∈ l1 -> x ∈ l3.
Proof. intros E Hx. rewrite <- E. apply elem_of_app. by left. Qed.

Lemma take_topics_spec client topic id t0 : forall p c, dp_inv p -> m_find client (dp_clients p) = Some c ->
  Forall (fun h : Z * string * Z => c_str h.1.2 = h.1.2) (topic_rows id t0) -> Z.of_nat (length (registered p) + length (topic_rows id t0)) < 2 ^ 32 ->
  exists t p' out l, take_topics client topic id t0 p = Some (t, p', out) /\ added client l p p' /\ topic_rows id t ++ l ≡ₚ topic_rows id t0 /\
    Forall (fun h : Z * string * Z => topicMatched_topic topic h.1.2 = true -> created c h = false) (topic_rows id t).
Proof.
  induction t0 as [|[s fns] t0 IH]; intros p c Hi Hc Hp Hn; cbn [take_topics].
  - eexists _, _, _, []. split_and!; [done|by apply added_refl|done|constructor].
  - assert (topic_rows id ((s, fns) :: t0) = map (fun fn => (id, s, fn)) fns ++ topic_rows id t0) as E0 by (unfold topic_rows; cbn [mbind list_bind]; by rewrite row_map).
    rewrite E0 in Hp, Hn |- *. apply Forall_app in Hp as [Hp1 Hp2]. rewrite length_app, length_map in Hn.
    assert (exists kept p1 o1 l1, (if topicMatched_topic topic s then '(subscribed, p, out) ← dc_subscribeData client id (c_str s) fns p; Some (if subscribed : bool then [] else [(s, fns)], p, out) else Some ([(s, fns)], p, [])) = Some (kept, p1, o1) /\
      added client l1 p p1 /\ topic_rows id kept ++ l1 ≡ₚ map (fun fn => (id, s, fn)) fns /\ Forall (fun h : Z * string * Z => topicMatched_topic topic h.1.2 = true -> created c h = false) (topic_rows id kept)) as (kept & p1 & o1 & l1 & -> & A1 & E1 & F1).
    { assert (topic_rows id [(s, fns)] = map (fun fn => (id, s, fn)) fns) as Er by (unfold topic_rows; cbn [mbind list_bind]; by rewrite row_map, app_nil_r).
      destruct (topicMatched_topic topic s) eqn:Em.
      - destruct fns as [|fn fns]; [|assert (c_str s = s) as Hs by (by inversion Hp1)].
        + destruct (dc_subscribeData client id (c_str s) [] p) as [[[b p1] o1]|] eqn:Es; [|by unfold dc_subscribeData in Es; rewrite Hc in Es; cbn in Es; destruct (topicCreated _ _ _)].
          assert (p1 = p) as -> by (unfold dc_subscribeData in Es; rewrite Hc in Es; cbn in Es; destruct (topicCreated _ _ _); cbn in Es; congruence).
          cbn [mbind option_bind]. eexists _, _, _, []. split_and!; [done|by apply added_refl|by destruct b|by destruct b; constructor].
        + rewrite Hs. destruct (dc_subscribeData_spec client id s (fn :: fns) p c Hi Hc Hs ltac:(lia)) as (p1 & o1 & -> & A). cbn [mbind option_bind].
          destruct (topicCreated s id (dc_mTopicTbl c)) eqn:Ec.
          * eexists _, _, _, _. split_and!; [done|exact A|done|constructor].
          * subst p1. eexists _, _, _, []. split_and!; [done|by apply added_refl|by rewrite app_nil_r, Er|]. rewrite Er. apply Forall_forall. intros h (f & -> & _)%list_elem_of_fmap _. exact Ec.
      - eexists _, _, _, []. split_and!; [done|by apply added_refl|by rewrite app_nil_r, Er|]. rewrite Er. apply Forall_forall. intros h (f & -> & _)%list_elem_of_fmap. cbn. congruence. }
    cbn [mbind option_bind]. destruct (added_keeps _ _ _ _ _ A1 Hc) as (c1 & Hc1 & Et).
    assert (length l1 <= length fns)%nat as Hl1 by (apply Permutation_length in E1; rewrite length_app, length_map in E1; lia).
    destruct (IH p1 c1) as (t & p2 & o2 & l2 & -> & A2 & E2 & F2); [apply A1|done|done|rewrite (ad_registered _ _ _ _ A1), length_app; lia|].
    assert (topic_rows id (kept ++ t) = topic_rows id kept ++ topic_rows id t) as Ea by (unfold topic_rows; by rewrite bind_app).
    eexists _, _, _, (l1 ++ l2). split_and!; [done|by eapply added_trans| |].
    + rewrite Ea, <- E1, <- E2. solve_Permutation.
    + rewrite Ea. apply Forall_app. split; [done|]. eapply Forall_impl; [exact F2|]. intros h. unfold created. by rewrite Et.
Qed.

Lemma take_pending_spec client id topic t0 : forall p c, dp_inv p -> m_find client (dp_clients p) = Some c ->
  plain_topics t0 -> Z.of_nat (length (registered p) + length (handles_of t0)) < 2 ^ 32 ->
  exists t p' out l, take_pending client id topic t0 p = Some (t, p', out) /\ added client l p p' /\ handles_of t ++ l ≡ₚ handles_of t0 /\
    Forall (fun h => matched id topic h = true -> created c h = false) (handles_of t).
Proof.
  assert (forall i r t, handles_of ((i, r) :: t) = topic_rows i r ++ handles_of t) as Hcons by done.
  induction t0 as [|[i r] t0 IH]; intros p c Hi Hc Hp Hn; cbn [take_pending].
  - eexists _, _, _, []. split_and!; [done|by apply added_refl|done|constructor].
  - unfold plain_topics in Hp. rewrite Hcons in Hp, Hn |- *. apply Forall_app in Hp as [Hp1 Hp2]. rewrite length_app in Hn.
    assert (exists kept p1 o1 l1, (if topicMatched_id id i then '(r, p, out) ← take_topics client topic i r p; Some (if m_empty r then [] else [(i, r)], p, out) else Some ([(i, r)], p, [])) = Some (kept, p1, o1) /\
      added client l1 p p1 /\ handles_of kept ++ l1 ≡ₚ topic_rows i r /\ Forall (fun h => matched id topic h = true -> created c h = false) (handles_of kept)) as (kept & p1 & o1 & l1 & -> & A1 & E1 & F1).
    { destruct (topicMatched_id id i) eqn:Em.
      - destruct (take_topics_spec client topic i r p c Hi Hc Hp1 ltac:(lia)) as (r' & p1 & o1 & l1 & -> & A & E & F). cbn [mbind option_bind]. eexists _, _, _, l1.
        assert (handles_of (if m_empty r' then [] else [(i, r')]) = topic_rows i r') as Ek by (destruct r'; cbn [m_empty]; [done|by rewrite Hcons, app_nil_r]).
        split_and!; [done|exact A|by rewrite Ek|]. rewrite Ek. eapply Forall_impl; [exact F|]. intros h Hh [_ Hm]%andb_prop. by apply Hh.
      - eexists _, _, _, []. split_and!; [done|by apply added_refl|by rewrite Hcons, !app_nil_r|]. rewrite Hcons, app_nil_r. apply Forall_forall. intros h Hh.
        unfold topic_rows in Hh. apply list_elem_of_bind in Hh as ([s fns] & Hh & _). rewrite row_map in Hh. apply list_elem_of_fmap in Hh as (f & -> & _). unfold matched. cbn [fst snd]. by rewrite Em. }
    cbn [mbind option_bind]. destruct (added_keeps _ _ _ _ _ A1 Hc) as (c1 & Hc1 & Et).
    assert (length l1 <= length (topic_rows i r))%nat as Hl1 by (apply Permutation_length in E1; rewrite length_app in E1; lia).
    destruct (IH p1 c1) as (t & p2 & o2 & l2 & -> & A2 & E2 & F2); [apply A1|done|done|rewrite (ad_registered _ _ _ _ A1), length_app; lia|].
    assert (handles_of (kept ++ t) = handles_of kept ++ handles_of t) as Ea by (unfold handles_of; by rewrite bind_app).
    eexists _, _, _, (l1 ++ l2). split_and!; [done|by eapply added_trans| |].
    + rewrite Ea, <- E1, <- E2. solve_Permutation.
    + rewrite Ea. apply Forall_app. split; [done|]. eapply Forall_impl; [exact F2|]. intros h. unfold created. by rewrite Et.
Qed.

(** Listeners go from the pending ones to clients. *)
Definition rest' (p : CDataPool) : CDataPool := dp_set_pending [] (rest p).
Record moved (p p' : CDataPool) : Prop := {
  mv_inv : dp_inv p';
  mv_rest : rest' p' = rest' p;
  mv_views : forall k, dc_view <$> m_find k (dp_clients p') = dc_view <$> m_find k (dp_clients p);
  mv_subset : forall h, h ∈ pending p' -> h ∈ pending p;
  mv_all : pending p' ++ registered p' ≡ₚ pending p ++ registered p }.
Lemma moved_refl p : dp_inv p -> moved p p.
Proof. by split. Qed.
Lemma moved_trans p1 p2 p3 : moved p1 p2 -> moved p2 p3 -> moved p1 p3.
Proof. intros [I1 R1 V1 S1 A1] [I2 R2 V2 S2 A2]. split; [done|by rewrite R2|by intros k; rewrite V2|by auto|by rewrite A2]. Qed.
Lemma moved_table p p' : moved p p' -> dp_mDpClientTbl p' = dp_mDpClientTbl p.
Proof. intros M. by injection (mv_rest _ _ M). Qed.
Lemma moved_client p p' k c : moved p p' -> m_find k (dp_clients p) = Some c -> exists c', m_find k (dp_clients p') = Some c' /\ dc_view c' = dc_view c.
Proof. intros M Hc. pose proof (mv_views _ _ M k) as V. rewrite Hc in V. by apply fmap_Some in V as (c' & H' & V'); eauto. Qed.

Lemma onTopicCreated_spec client id topic p c : dp_inv p -> m_find client (dp_clients p) = Some c ->
  Z.of_nat (length (registered p) + length (pending p)) < 2 ^ 32 ->
  exists p' out, onTopicCreated id topic client p = Some (p', out) /\ moved p p' /\ Forall (fun h => matched id topic h = true -> created c h = false) (pending p').
Proof.
  intros Hi Hc Hn. unfold onTopicCreated. destruct (take_pending_spec client id topic (dp_mPendingSubscriptionHandle p) p c Hi Hc (proj1 (di_plain _ Hi)) Hn) as (t & p1 & out & l & -> & A & E & F).
  cbn [mbind option_bind]. eexists _, _. split; [done|]. split; [split|exact F].
  - apply set_pending_inv; [apply A|]. pose proof (proj1 (di_plain _ Hi)) as Hp. unfold plain_topics in *. rewrite <- E in Hp. by apply Forall_app in Hp as [Hp _].
  - change (dp_set_pending [] (rest p1) = rest' p). by rewrite (ad_rest _ _ _ _ A).
  - apply A.
  - intros h Hh. by apply (in_perm _ _ _ _ E).
  - change (handles_of t ++ registered p1 ≡ₚ handles_of (dp_mPendingSubscriptionHandle p) ++ registered p). rewrite (ad_registered _ _ _ _ A), app_assoc. by rewrite E.
Qed.

Lemma created_view c c' h : dc_view c = dc_view c' -> created c h = created c' h.
Proof. intros V. unfold created. by rewrite (view_topics _ _ V). Qed.

Lemma topics_created_spec client l : forall p c, dp_inv p -> m_find client (dp_clients p) = Some c ->
  Z.of_nat (length (registered p) + length (pending p)) < 2 ^ 32 ->
  exists p' out, topics_created client l p = Some (p', out) /\ moved p p' /\
    Forall (fun h => forall i, i ∈ l -> matched (ti_mTopicId i) (c_str (ti_mTopic i)) h = true -> created c h = false) (pending p').
Proof.
  induction l as [|i l IH]; intros p c Hi Hc Hn; cbn [topics_created].
  - eexists _, _. split_and!; [done|by apply moved_refl|]. apply Forall_forall. intros h _ i. by rewrite elem_of_nil.
  - destruct (onTopicCreated_spec client (ti_mTopicId i) (c_str (ti_mTopic i)) p c Hi Hc Hn) as (p1 & o1 & -> & M1 & F1). cbn [mbind option_bind].
    destruct (moved_client _ _ _ _ M1 Hc) as (c1 & Hc1 & V1).
    destruct (IH p1 c1) as (p2 & o2 & -> & M2 & F2); [apply M1|done|pose proof (Permutation_length (mv_all _ _ M1)) as El; rewrite !length_app in El; lia|].
    eexists _, _. split_and!; [done|by eapply moved_trans|]. apply Forall_forall. intros h Hh j [->|Hj]%elem_of_cons Hm.
    + apply (proj1 (Forall_forall _ _) F1); [by apply (mv_subset _ _ M2)|done].
    + rewrite <- (created_view _ _ _ V1). by apply (proj1 (Forall_forall _ _) F2 h Hh j).
Qed.

(** ** Changing a client *)

Definition put_client (client : Z) (c : CDpClient) (p : CDataPool) : CDataPool := dp_set_clients (m_set client c (dp_clients p)) p.
Lemma put_client_inv client c p : dp_inv p -> topics_ok (dc_mTopicTbl c) -> client_exact p client c -> dp_inv (put_client client c p).
Proof.
  intros [] Ht He. split; try done; unfold put_client; cbn [dp_clients dp_set_clients].
  - by apply m_sorted_set.
  - intros k Hk. rewrite m_find_set_dec by done. case_decide; [done|by apply di_live0].
  - intros k Hk. rewrite m_find_set_dec by done. case_decide; [done|by apply di_owned0].
  - intros k c'. rewrite m_find_set_dec by done. case_decide; [by intros [= <-]|by apply di_topics0].
  - intros k c'. rewrite m_find_set_dec by done. case_decide; [intros [= <-]; by subst|by apply di_exact0].
Qed.
Lemma put_same_inv client c c' p : dp_inv p -> m_find client (dp_clients p) = Some c -> topics_ok (dc_mTopicTbl c') -> dc_events c' = dc_events c -> dp_inv (put_client client c' p).
Proof. intros Hi Hc Ht He. apply put_client_inv; [done|done|]. unfold client_exact. rewrite He. by apply (di_exact _ Hi). Qed.
Lemma put_client_find client c p k : dp_inv p -> m_find k (dp_clients (put_client client c p)) = if decide (k = client) then Some c else m_find k (dp_clients p).
Proof. intros Hi. apply m_find_set_dec, Hi. Qed.

(** A client whose topics stay, or which has none, keeps no listener from waiting. *)
Lemma put_waits client c p : dp_inv p -> (forall h, h ∈ pending p -> client ∈ dp_mDpClientTbl p -> created c h = false) -> waits p -> waits (put_client client c p).
Proof.
  intros Hi Hc Hw id topic fn Hin k c' Hk. rewrite put_client_find by done. case_decide; [|by apply (Hw _ _ _ Hin)].
  intros [= <-]. subst k. exact (Hc (id, topic, fn) Hin Hk).
Qed.

(** ** Updating the topics of a client *)

Lemma toTopicInfo_from l : forall t id topic info, topics_ok t -> topics_at (foldl (fun t i => topic_put i t) t l) id topic = Some info -> info ∈ l \/ topics_at t id topic = Some info.
Proof.
  induction l as [|i l IH]; intros t id topic info Hok; cbn [foldl]; [by right|]. intros Ha. apply IH in Ha as [Hl|Ha]; [by left; right| |by apply topic_put_ok].
  rewrite topics_at_put in Ha by apply Hok. destruct (_ && _); [|by right]. injection Ha as <-. left. by left.
Qed.

Lemma covered_by m topic id : c_str topic = topic -> topicCreated topic id (toTopicInfo m []) = true ->
  exists i, i ∈ mt_mTopicList m /\ topicMatched_id (ti_mTopicId i) id = true /\ topicMatched_topic (c_str (ti_mTopic i)) topic = true.
Proof.
  intros Ht. rewrite topicCreated_spec by apply toTopicInfo_ok, topics_ok_nil. intros (i & Hi & Hc). exists i.
  apply elem_topics_of in Hi; [|apply toTopicInfo_ok, topics_ok_nil]. split.
  - apply toTopicInfo_from in Hi as [?|[=]]; [done|apply topics_ok_nil].
  - assert (c_str (ti_mTopic i) = ti_mTopic i) as ->; [|by apply covers_matched].
    unfold topic_covers in Hc. apply andb_prop in Hc as [Hc _]. apply orb_prop in Hc as [Hc|Hc]; [by destruct (ti_mTopic i)|]. apply String.eqb_eq in Hc. by rewrite Hc.
Qed.

(** What steps keep, besides the listeners [l] they add. *)
Record keeps (l : list (Z * string * Z)) (p p' : CDataPool) : Prop := {
  ks_inv : dp_inv p';
  ks_server : dp_mDpServer p' = dp_mDpServer p;
  ks_waits : waits p -> waits p';
  ks_all : pending p' ++ registered p' ≡ₚ l ++ pending p ++ registered p }.

Lemma put_keeps client c c' p : dp_inv p -> m_find client (dp_clients p) = Some c -> topics_ok (dc_mTopicTbl c') -> dc_events c' = dc_events c ->
  dc_mTopicTbl c' = dc_mTopicTbl c -> keeps [] p (put_client client c' p).
Proof.
  intros Hi Hc Ht He Em. split; [by eapply put_same_inv|done| |done]. intros Hw. apply put_waits; [done| |done].
  intros [[id topic] fn] Hh Hk. unfold created. rewrite Em. exact (Hw _ _ _ Hh client c Hk Hc).
Qed.

Lemma updateTopicList_spec client m p c : dp_inv p -> m_find client (dp_clients p) = Some c ->
  Z.of_nat (length (registered p) + length (pending p)) < 2 ^ 32 ->
  exists p' out, updateTopicList client m p = Some (p', out) /\ keeps [] p p'.
Proof.
  intros Hi Hc Hn. unfold updateTopicList. rewrite Hc. cbn [mbind option_bind]. set (c1 := dc_set_topics (toTopicInfo m []) c).
  change (dp_set_clients _ _) with (put_client client c1 p).
  assert (dp_inv (put_client client c1 p)) as Hi1 by (eapply put_same_inv; [done|done|by apply toTopicInfo_ok, topics_ok_nil|done]).
  assert (m_find client (dp_clients (put_client client c1 p)) = Some c1) as Hc1 by (by rewrite put_client_find, decide_True).
  destruct (topics_created_spec client (mt_mTopicList m) _ c1 Hi1 Hc1 Hn) as (p' & out & -> & M & F). eexists _, _. split; [done|]. split.
  - apply M.
  - by injection (mv_rest _ _ M).
  - intros Hw id topic fn Hin k c' Hk Hc'. rewrite (moved_table _ _ M) in Hk.
    pose proof (mv_views _ _ M k) as V. rewrite Hc', put_client_find in V by done. case_decide as Ek.
    + injection V as V1 V2 V3 V4 _. subst k. destruct (topicCreated topic id (dc_mTopicTbl c')) eqn:E; [|done]. rewrite V4 in E.
      assert (c_str topic = topic) as Ht by exact (proj1 (Forall_forall _ _) (proj1 (di_plain _ (mv_inv _ _ M))) _ Hin).
      destruct (covered_by m topic id Ht E) as (i & Hi' & M1 & M2).
      assert (created c1 (id, topic, fn) = false) as Hf by (apply (proj1 (Forall_forall _ _) F _ Hin i Hi'); unfold matched; cbn [fst snd]; by rewrite M1, M2).
      change (topicCreated topic id (toTopicInfo m []) = false) in Hf. congruence.
    + symmetry in V. apply fmap_Some in V as (c0 & H0 & V). rewrite (view_topics _ _ V). apply (Hw id topic fn (mv_subset _ _ M _ Hin) k); done.
  - exact (mv_all _ _ M).
Qed.

(** ** A client goes *)

(** Listeners [l] find a new place, none of them with [client]. *)
Record placed_again (client : Z) (l : list (Z * string * Z)) (p p' : CDataPool) : Prop := {
  pa_inv : dp_inv p';
  pa_rest : rest' p' = rest' p;
  pa_views : forall k, dc_view <$> m_find k (dp_clients p') = dc_view <$> m_find k (dp_clients p);
  pa_handles : m_find client (dp_mClientSubscriptionHandle p') = m_find client (dp_mClientSubscriptionHandle p);
  pa_waits : waits p -> waits p';
  pa_all : pending p' ++ registered p' ≡ₚ l ++ pending p ++ registered p }.

Lemma doSubscribeData_placed client id topic fn p : dp_inv p -> c_str topic = topic -> client ∉ dp_mDpClientTbl p -> Z.of_nat (length (registered p)) + 1 < 2 ^ 32 ->
  exists by_ p' out, doSubscribeData id topic fn p = Some (by_, p', out) /\ by_ <> Some client /\ placed_again client [(id, topic, fn)] p p'.
Proof.
  intros Hi Ht Hk Hn. destruct (doSubscribeData_spec id topic fn p Hi Ht Hn) as (by_ & p' & out & -> & Hs). eexists by_, p', out. split; [done|]. destruct by_ as [k|].
  - destruct Hs as [Hin A]. assert (client <> k) as Hne by (by intros ->). split; [congruence|]. split; [apply A| |apply A|by apply (ad_handles _ _ _ _ A)|by apply (added_waits _ _ _ _ A)|].
    + change (dp_set_pending [] (rest p') = dp_set_pending [] (rest p)). by rewrite (ad_rest _ _ _ _ A).
    + unfold pending. rewrite (added_pending _ _ _ _ A), (ad_registered _ _ _ _ A). solve_Permutation.
  - destruct Hs as (-> & Hi' & Hu). split; [done|]. split; [done|done|done|done| |].
    + intros Hw i t f. unfold pending. cbn [dp_mPendingSubscriptionHandle dp_set_pending]. rewrite handle_push_perm. intros [[= -> -> ->]|Hin]%elem_of_cons; [exact Hu|exact (Hw i t f Hin)].
    + unfold pending. cbn [dp_mPendingSubscriptionHandle dp_set_pending]. by rewrite handle_push_perm.
Qed.

Lemma resubscribe_spec client l : forall p, dp_inv p -> Forall (fun h : Z * string * Z => c_str h.1.2 = h.1.2) l -> client ∉ dp_mDpClientTbl p ->
  Z.of_nat (length l + length (pending p) + length (registered p)) < 2 ^ 32 ->
  exists p' out, resubscribe client l p = Some (p', out) /\ placed_again client l p p'.
Proof.
  induction l as [|[[id topic] fn] l IH]; intros p Hi Hp Hk Hn; cbn [resubscribe]; [eexists _, _; split; [done|by split]|].
  inversion Hp as [|? ? Ht Hp']; subst. cbn [fst snd] in Ht. cbn [length] in Hn. rewrite Ht.
  destruct (doSubscribeData_placed client id topic fn p Hi Ht Hk ltac:(lia)) as (by_ & p1 & o1 & -> & Hb & P1). cbn [mbind option_bind].
  rewrite bool_decide_false by done. destruct P1 as [I1 R1 V1 H1 W1 A1].
  assert (dp_mDpClientTbl p1 = dp_mDpClientTbl p) as Et by (by injection R1). pose proof (Permutation_length A1) as El. cbn [app length] in El. rewrite !length_app in El.
  destruct (IH p1 I1 Hp' ltac:(by rewrite Et) ltac:(lia)) as (p2 & o2 & -> & [I2 R2 V2 H2 W2 A2]). eexists _, _. split; [done|].
  split; [done|by rewrite R2|by intros k; rewrite V2|by rewrite H2|by auto|]. rewrite A2, A1. solve_Permutation.
Qed.

(** The client is taken out of everything. *)
Definition without (client : Z) (p : CDataPool) : CDataPool :=
  dp_set_clients (m_erase client (dp_clients p)) (dp_set_handles (m_erase client (dp_mClientSubscriptionHandle p)) p).
Lemma without_inv client p : dp_inv p -> client ∉ dp_mDpClientTbl p -> dp_inv (without client p).
Proof.
  intros Hi Hk. assert (forall k, k <> client -> m_find k (dp_clients (without client p)) = m_find k (dp_clients p)) as Hf by (intros k Hne; apply m_find_erase_ne; [done|apply Hi]).
  assert (registered p ≡ₚ handles_at p client ++ registered (without client p)) as Hr by apply registered_at.
  split.
  - apply m_sorted_erase, Hi.
  - apply m_sorted_erase, Hi.
  - apply Hi.
  - intros k Hin. change (k ∈ dp_mDpClientTbl p) in Hin. rewrite Hf by (by intros ->). by apply (di_live _ Hi).
  - intros k. cbn [without dp_mClientSubscriptionHandle dp_set_clients dp_set_handles]. rewrite m_find_erase_dec by apply Hi. case_decide as Hc; [by intros []|]. intros Ho. rewrite Hf by done. by apply (di_owned _ Hi).
  - intros k c. unfold without at 1. cbn [dp_clients dp_set_clients]. rewrite m_find_erase_dec by apply Hi. case_decide; [done|by apply (di_topics _ Hi)].
  - split; [apply Hi|]. destruct (di_plain _ Hi) as [_ Hp]. rewrite Hr in Hp. by apply Forall_app in Hp as [_ Hp].
  - intros k c. change (dp_clients (without client p)) with (m_erase client (dp_clients p)). rewrite m_find_erase_dec by apply Hi. case_decide as Hne; [done|]. intros Hc.
    destruct (di_exact _ Hi k c Hc) as (l & Hl & El). exists l. split; [done|]. rewrite El. unfold handles_at, without. cbn [dp_mClientSubscriptionHandle dp_set_clients dp_set_handles].
    unfold m_at. by rewrite m_find_erase_ne by (done || apply Hi).
Qed.
Lemma without_waits client p : dp_inv p -> waits p -> waits (without client p).
Proof.
  intros Hi Hw id topic fn Hin k c Hk. unfold without. cbn [dp_clients dp_set_clients]. rewrite m_find_erase_dec by apply Hi. case_decide; [done|]. exact (Hw id topic fn Hin k c Hk).
Qed.

Lemma set_table_inv l p : dp_inv p -> NoDup l -> (forall k, k ∈ l -> is_Some (m_find k (dp_clients p))) -> dp_inv (dp_set_table l p).
Proof. intros [] Hn Hl. by split. Qed.

Lemma dc_destroy_spec client p c : dp_inv p -> m_find client (dp_clients p) = Some c ->
  Z.of_nat (2 * length (registered p) + length (pending p)) < 2 ^ 32 ->
  exists p' out, dc_destroy client p = Some (p', out) /\ keeps [] p p'.
Proof.
  intros Hi Hc Hn. unfold dc_destroy, dp_unregister. rewrite Hc. cbn [mbind option_bind]. set (p0 := dp_set_table (remove_value client (dp_mDpClientTbl p)) p).
  assert (forall k, k ∈ dp_mDpClientTbl p0 <-> k ∈ dp_mDpClientTbl p /\ k <> client) as Hel by (intros k; apply elem_remove_value, Hi).
  assert (client ∉ dp_mDpClientTbl p0) as Hk by (rewrite Hel; naive_solver).
  assert (dp_inv p0) as Hi0 by (apply set_table_inv; [done|by apply NoDup_remove_value, Hi|intros k [Hin _]%Hel; by apply (di_live _ Hi)]).
  assert (waits p -> waits p0) as Hw0 by (intros Hw id topic fn Hin k c' [Hk' _]%Hel; exact (Hw id topic fn Hin k c' Hk')).
  change (dp_mClientSubscriptionHandle p0) with (dp_mClientSubscriptionHandle p).
  assert (exists p1 out, match m_find client (dp_mClientSubscriptionHandle p) with
                         | None => Some (p0, [])
                         | Some t => '(p, out) ← resubscribe client (handles_of t) p0; Some (dp_set_handles (m_erase client (dp_mClientSubscriptionHandle p)) p, out)
                         end = Some (dp_set_handles (m_erase client (dp_mClientSubscriptionHandle p1)) p1, out) /\ placed_again client (handles_at p client) p0 p1) as (p1 & out & -> & [I1 R1 V1 H1 W1 A1]).
  { unfold handles_at, m_at. destruct (m_find client (dp_mClientSubscriptionHandle p)) as [t|] eqn:Et; cbn [from_option Datatypes.id].
    - pose proof (registered_at p client) as Hr. unfold handles_at, m_at in Hr. rewrite Et in Hr. cbn [from_option Datatypes.id] in Hr.
      destruct (resubscribe_spec client (handles_of t) p0) as (p1 & out & -> & P); [done| |done| |by exists p1, out].
      + destruct (di_plain _ Hi) as [_ Hp]. rewrite Hr in Hp. by apply Forall_app in Hp as [Hp _].
      + change (registered p0) with (registered p). change (pending p0) with (pending p). apply Permutation_length in Hr. rewrite length_app in Hr. lia.
    - exists p0, []. split; [|by split]. change (dp_mClientSubscriptionHandle p0) with (dp_mClientSubscriptionHandle p). rewrite m_erase_none by done. by destruct p. }
  cbn [mbind option_bind]. eexists _, _. split; [done|]. change (keeps [] p (without client p1)).
  assert (dp_mDpClientTbl p1 = dp_mDpClientTbl p0) as Et by (by injection R1). assert (client ∉ dp_mDpClientTbl p1) as Hk1 by (by rewrite Et).
  split; [by apply without_inv|by injection R1|intros Hw; apply without_waits; [done|by apply W1, Hw0]|].
  pose proof (registered_at p1 client) as Hr. assert (handles_at p1 client = handles_at p client) as E by (unfold handles_at, m_at; by rewrite H1).
  rewrite E in Hr. change (registered p1 ≡ₚ handles_at p client ++ registered (without client p1)) in Hr. cbn [app].
  change (pending (without client p1)) with (pending p1). change (pending p0 ++ registered p0) with (pending p ++ registered p) in A1.
  rewrite Hr in A1. apply (Permutation_app_inv_l (handles_at p client)). rewrite <- A1. solve_Permutation.
Qed.

(** ** Every step *)

Definition placed (p : CDataPool) : list (Z * string * Z) := pending p ++ registered p.
Definition server_ok (p : CDataPool) : Prop := match dp_mDpServer p with Some s => cache_ok (mEventCache (ds_obj s)) | None => True end.
Record dp_ok (p : CDataPool) : Prop := { dk_inv : dp_inv p; dk_waits : waits p; dk_server : server_ok p }.

(** The listeners an event adds. *)
Definition subscriptions (ev : DpEvent) : list (Z * string * Z) :=
  match ev with EvJob (JobSubscribe id topic fn) => [(id, c_str topic, fn)] | _ => [] end.

(** Messages and data have the size they say; a pointer of a new client is not in use; an owner
    that announces addresses is not one the pool has a client for. *)
Definition ev_ok (ev : DpEvent) (p : CDataPool) : Prop :=
  match ev with
  | EvJob (JobPublish m) | EvPublished m => exists b, payload_ok m b
  | EvJob (JobCreate _ _ (Some b) size _) => size = Z.of_nat (length b)
  | EvService l fresh _ _ =>
      m_find fresh (dp_clients p) = None /\
      (al_mAddressList l <> [] -> findClient (c_str (al_mHostName l)) (c_str (al_mServiceName l)) (al_mInstanceId l) p = Some None)
  | _ => True
  end.

Lemma pool_keeps_ok l p p' : keeps l p p' -> dp_ok p -> dp_ok p' /\ placed p' ≡ₚ l ++ placed p.
Proof. intros [I S W A] [Hi Hw Hs]. split; [|done]. split; [done|auto|]. unfold server_ok. by rewrite S. Qed.
Lemma pool_keeps_refl p : dp_inv p -> keeps [] p p.
Proof. by split. Qed.
Lemma pool_keeps_trans l1 l2 p1 p2 p3 : keeps l1 p1 p2 -> keeps l2 p2 p3 -> keeps (l1 ++ l2) p1 p3.
Proof.
  intros [I1 S1 W1 A1] [I2 S2 W2 A2]. split; [done|by rewrite S2|by auto|]. rewrite A2, A1. solve_Permutation.
Qed.

Lemma dc_onHup_spec client p : dp_inv p -> Z.of_nat (2 * length (registered p) + length (pending p)) < 2 ^ 32 ->
  exists p' out, dc_onHup client p = Some (p', out) /\ keeps [] p p'.
Proof.
  intros Hi Hn. unfold dc_onHup. destruct (m_find client (dp_clients p)) as [c|] eqn:Hc; [|by eexists _, _; split; [done|apply pool_keeps_refl]].
  set (c' := dc_set_sessions _ c). change (dp_set_clients _ p) with (put_client client c' p).
  assert (keeps [] p (put_client client c' p)) as K by (eapply put_keeps; [done|done|exact (di_topics _ Hi client c Hc)|done|done]).
  destruct (_ =? 0)%nat; [|by eexists _, _]. destruct (dc_destroy_spec client (put_client client c' p) c') as (p' & out & E & K'); [apply K|by rewrite put_client_find, decide_True|exact Hn|].
  eexists _, _. split; [exact E|]. exact (pool_keeps_trans [] [] _ _ _ K K').
Qed.

Lemma find_client_total host svc id ptrs p : (forall k, k ∈ ptrs -> is_Some (m_find k (dp_clients p))) ->
  exists r, find_client host svc id ptrs p = Some r /\ forall k, r = Some k -> k ∈ ptrs.
Proof.
  induction ptrs as [|k ptrs IH]; intros Hl; cbn [find_client]; [by exists None|]. destruct (Hl k ltac:(by left)) as [c ->]. cbn [mbind option_bind].
  destruct (_ && _); [exists (Some k); split; [done|by intros ? [= <-]; left]|]. destruct IH as (r & -> & Hr); [by intros j Hj; apply Hl; right|]. exists r. split; [done|]. intros j Hj. right. by apply Hr.
Qed.

Lemma new_client_keeps fresh c p b : dp_inv p -> m_find fresh (dp_clients p) = None -> dc_mTopicTbl c = [] -> dc_events c = CBaseEventDispatcher_new ->
  keeps [] p (if b : bool then put_client fresh c p else dp_set_table (dp_mDpClientTbl p ++ [fresh]) (put_client fresh c p)).
Proof.
  intros Hi Hf Ht He.
  assert (dp_inv (put_client fresh c p)) as Hi1.
  { apply put_client_inv; [done|rewrite Ht; apply topics_ok_nil|]. exists []. rewrite He. split; [apply holds_new|]. unfold handles_at, m_at.
    destruct (m_find fresh (dp_mClientSubscriptionHandle p)) eqn:E; [|done]. destruct (di_owned _ Hi fresh) as [? ?]; [by rewrite E|congruence]. }
  assert (fresh ∉ dp_mDpClientTbl p) as Hn by (intros [? ?]%(di_live _ Hi); congruence).
  assert (waits p -> waits (put_client fresh c p)) as Hw by (intros Hw; by apply put_waits).
  destruct b; [by split|]. split; [|done| |done].
  - apply set_table_inv; [done|apply NoDup_app; split_and!; [apply Hi|intros k Hk Hs; apply list_elem_of_singleton in Hs; by subst|by apply NoDup_singleton]|].
    intros k [Hk|Hk%list_elem_of_singleton]%elem_of_app; [by apply (di_live _ Hi1)|subst k; by rewrite put_client_find, decide_True].
  - intros Hw0 id topic fn Hin k c' Hk Hc'. cbn [dp_mDpClientTbl dp_set_table] in Hk. apply elem_of_app in Hk as [Hk|Hk%list_elem_of_singleton]; [exact (Hw Hw0 id topic fn Hin k c' Hk Hc')|]. subst k.
    change (m_find fresh (dp_clients (put_client fresh c p)) = Some c') in Hc'. rewrite put_client_find, decide_True in Hc' by done. injection Hc' as <-. by rewrite Ht.
Qed.

Lemma dp_connect_spec l fresh sessions tcp_failure p : dp_inv p -> m_find fresh (dp_clients p) = None ->
  (al_mAddressList l <> [] -> findClient (c_str (al_mHostName l)) (c_str (al_mServiceName l)) (al_mInstanceId l) p = Some None) ->
  exists p' out, dp_connect l fresh sessions tcp_failure p = Some (p', out) /\ keeps [] p p'.
Proof.
  intros Hi Hf Hc. unfold dp_connect. destruct (negb _); [by eexists _, _; split; [done|apply pool_keeps_refl]|]. destruct (_ && _); [by eexists _, _; split; [done|apply pool_keeps_refl]|].
  destruct (find_client_total (c_str (al_mHostName l)) (c_str (al_mServiceName l)) (al_mInstanceId l) (dp_mDpClientTbl p) p (di_live _ Hi)) as (r & E & Hr).
  change (find_client _ _ _ _ _) with (findClient (c_str (al_mHostName l)) (c_str (al_mServiceName l)) (al_mInstanceId l) p) in E. rewrite E. cbn [mbind option_bind].
  destruct (bool_decide (al_mAddressList l = [])) eqn:Eb.
  - destruct r as [k|]; cbn [mbind option_bind]; [|by eexists _, _; split; [done|apply pool_keeps_refl]]. destruct (di_live _ Hi k (Hr k eq_refl)) as [c Hk]. rewrite Hk. cbn [fmap option_fmap option_map].
    eexists _, _. split; [done|]. eapply put_keeps; [done|exact Hk|exact (di_topics _ Hi k c Hk)|done|done].
  - apply bool_decide_eq_false in Eb. rewrite (Hc Eb) in E. injection E as <-. cbn [mbind option_bind]. eexists _, _. split; [done|]. by apply new_client_keeps.
Qed.

Definition outcome (r : option (CDataPool * list DpOut)) (l : list (Z * string * Z)) (p : CDataPool) : Prop :=
  exists p' out, r = Some (p', out) /\ dp_ok p' /\ placed p' ≡ₚ l ++ placed p.
Lemma keeps_outcome r l p : dp_ok p -> (exists p' out, r = Some (p', out) /\ keeps l p p') -> outcome r l p.
Proof. intros Hok (p' & out & E & K). exists p', out. split; [done|]. by apply pool_keeps_ok. Qed.

(** The clients and listeners stay as they are. *)
Lemma same_outcome p p' out : dp_ok p -> dp_mDpClientTbl p' = dp_mDpClientTbl p -> dp_mPendingSubscriptionHandle p' = dp_mPendingSubscriptionHandle p ->
  dp_clients p' = dp_clients p -> dp_mClientSubscriptionHandle p' = dp_mClientSubscriptionHandle p -> server_ok p' -> outcome (Some (p', out)) [] p.
Proof.
  intros [Hi Hw Hs] Ht Hp C H S.
  exists p', out. assert (placed p' = placed p) as E by (unfold placed, pending, registered; by rewrite Hp, H). split; [done|]. split; [|by rewrite E].
  split; [|intros id topic fn Hin k c Hk Hc; unfold pending in Hin; rewrite Hp in Hin; rewrite Ht in Hk; rewrite C in Hc; exact (Hw id topic fn Hin k c Hk Hc)|done].
  destruct Hi. split; unfold client_exact, handles_at, registered; rewrite ?C, ?H, ?Ht, ?Hp; done.
Qed.
Ltac same := apply same_outcome; [done|done|done|done|done|].

(** ** The server *)

Section server.
Context {I : Indet} (sid : Z -> Z).

Lemma updateEventCache_total o msg b : cache_ok (mEventCache o) -> payload_ok msg b ->
  exists action o', updateEventCache o msg = Some (action, o') /\ cache_ok (mEventCache o').
Proof.
  intros Ho Hb. unfold updateEventCache. destruct (flag_set _ _); [|by eexists _, _].
  destruct (cache_update_spec (mEventCache o) msg b (flag_set (o_mFlag o) FDB_OBJ_ENABLE_EVENT_ROUTE) (o_mRole o) Ho Hb) as (action & c & -> & Hc & _). by eexists _, _.
Qed.
Lemma obj_broadcast_total o msg b : cache_ok (mEventCache o) -> payload_ok msg b ->
  exists o' sent out, obj_broadcast sid o msg = Some (o', sent, out) /\ cache_ok (mEventCache o').
Proof.
  intros Ho Hb. unfold obj_broadcast. destruct (updateEventCache_total o msg b Ho Hb) as (action & o' & -> & Ho'). cbn [mbind option_bind].
  destruct (action =? 0); [by eexists _, _, _|]. destruct (broadcastMsg sid o' msg) as [[? ?] ?]. by eexists _, _, _.
Qed.
Lemma doPublish_total o msg b : cache_ok (mEventCache o) -> payload_ok msg b -> exists o' acts, doPublish sid o msg = Some (o', acts) /\ cache_ok (mEventCache o').
Proof.
  intros Ho Hb. unfold doPublish. destruct (updateEventCache_total o msg b Ho Hb) as (action & o' & -> & Ho'). cbn [mbind option_bind].
  destruct (if action =? 1 then _ else _) as [sent acts]. destruct (_ && _); by eexists _, _.
Qed.

Lemma cache_replace_ok c id topic data size route cache : cache_ok c -> (forall b, data = Some b -> size = Z.of_nat (length b)) -> cache_ok (cache_replace c id topic data size route cache).
Proof.
  intros Hc Hd. unfold cache_replace. apply cache_put_ok; [|done].
  assert (ed_ok (cache_ref c id topic)) as Hr.
  { rewrite cache_ref_get. unfold cache_get. destruct (m_find id c) as [topics|] eqn:E1; [|done]. cbn [mbind option_bind]. destruct (m_find topic topics) as [e|] eqn:E2; [|done].
    apply (lvl_find ed_ok topics topic); [|done]. apply full_lvl, (lvl_find _ _ _ _ Hc E1). }
  destruct data as [b|]; [|exact Hr]. destruct (size =? 0); [exact Hr|]. unfold ed_ok. cbn. symmetry. by apply Hd.
Qed.

Lemma ds_createData_ok name domain worker id topic data size fn s : cache_ok (mEventCache (ds_obj s)) -> (forall b, data = Some b -> size = Z.of_nat (length b)) ->
  cache_ok (mEventCache (ds_obj (ds_createData name domain worker id topic data size fn s).1)).
Proof.
  intros Hs Hd. unfold ds_createData. destruct (topicCreated _ _ _); [done|]. cbn [fst]. destruct fn, (_ && _); cbn [ds_obj ds_set_obj ds_set_topics ds_set_setevt enableEventRoute with_cache mEventCache]; try done; by apply cache_replace_ok.
Qed.

Lemma publish_by_clients_total m ptrs p : (forall k, k ∈ ptrs -> is_Some (m_find k (dp_clients p))) -> is_Some (publish_by_clients m ptrs p).
Proof.
  induction ptrs as [|k ptrs IH]; intros Hl; cbn [publish_by_clients]; [done|]. destruct (Hl k ltac:(by left)) as [c ->]. cbn [mbind option_bind].
  destruct (topicCreated _ _ _); [done|]. apply IH. intros j Hj. apply Hl. by right.
Qed.
Lemma available_topics_total ptrs p : (forall k, k ∈ ptrs -> is_Some (m_find k (dp_clients p))) -> forall m, is_Some (available_topics ptrs m p).
Proof.
  induction ptrs as [|k ptrs IH]; intros Hl m; cbn [available_topics]; [done|]. destruct (Hl k ltac:(by left)) as [c ->]. cbn [mbind option_bind].
  apply IH. intros j Hj. apply Hl. by right.
Qed.
Lemma notify_available_total ptrs ntf p : (forall k, k ∈ ptrs -> is_Some (m_find k (dp_clients p))) -> is_Some (notify_available ptrs ntf p).
Proof.
  induction ptrs as [|k ptrs IH]; intros Hl; cbn [notify_available]; [done|]. destruct (Hl k ltac:(by left)) as [c ->]. cbn [mbind option_bind].
  destruct IH as [out ->]; [|done]. intros j Hj. apply Hl. by right.
Qed.

Lemma doPublishData_outcome m b p : dp_ok p -> payload_ok m b -> outcome (doPublishData sid m p) [] p.
Proof.
  intros Hok Hb. unfold doPublishData.
  assert (exists done_ p1 out, match dp_mDpServer p with
    | Some s => '(sent, s, out) ← ds_publishData sid m s; Some (sent, dp_set_server (Some s) p, out)
    | None => Some (false, p, []) end = Some (done_, p1, out) /\ server_ok p1 /\ exists s, p1 = dp_set_server s p) as (done_ & p1 & out & -> & Hs & s & ->).
  { pose proof (dk_server _ Hok) as Hs. unfold server_ok in Hs. destruct (dp_mDpServer p) as [s|] eqn:E.
    - unfold ds_publishData. destruct (negb _); cbn [mbind option_bind]; [by eexists _, _, _; split_and!; [done|exact Hs|eexists]|].
      destruct (obj_broadcast_total (ds_obj s) (publish_message (o_mObjId (ds_obj s)) FDB_MT_BROADCAST m) b Hs Hb) as (o & sent & out & -> & Ho).
      cbn [mbind option_bind]. by eexists _, _, _; split_and!; [done|exact Ho|eexists].
    - eexists _, _, _. split_and!; [done|unfold server_ok; by rewrite E|exists None; rewrite <- E; by destruct p]. }
  cbn [mbind option_bind]. destruct done_; [by same|]. destruct (publish_by_clients_total m (dp_mDpClientTbl (dp_set_server s p)) (dp_set_server s p)) as [o2 ->]; [apply (di_live _ (dk_inv _ Hok))|].
  cbn [mbind option_bind]. by same.
Qed.

Lemma ds_update_outcome f p out : dp_ok p -> (forall o, mEventCache (f o) = mEventCache o) -> outcome (Some (ds_update f p, out)) [] p.
Proof.
  intros Hok Hf. pose proof (dk_server _ Hok) as Hs. unfold server_ok in Hs. unfold ds_update. destruct (dp_mDpServer p) as [s|] eqn:E; same; unfold server_ok; [cbn; by rewrite Hf|by rewrite E].
Qed.

Lemma dp_run_job_outcome job p : dp_ok p -> ev_ok (EvJob job) p -> Z.of_nat (length (placed p)) + 1 < 2 ^ 32 ->
  outcome (dp_run_job sid job p) (subscriptions (EvJob job)) p.
Proof.
  intros Hok He Hn. pose proof (dk_server _ Hok) as Hs. unfold server_ok in Hs. destruct job as [id topic data size fn|id topic|id topic fn|m| |ntf]; cbn [dp_run_job subscriptions].
  - destruct (dp_mDpServer p) as [s|] eqn:E; [|same; unfold server_ok; by rewrite E].
    pose proof (ds_createData_ok (dp_mName p) (dp_mDomainId p) (dp_mHandleWorker p) id (c_str topic) data size fn s Hs) as Hc.
    destruct (ds_createData _ _ _ _ _ _ _ _ _) as [s' out]. same. apply Hc. intros b ->. exact He.
  - destruct (dp_mDpServer p) as [s|] eqn:E; [|same; unfold server_ok; by rewrite E]. unfold ds_destroyData. destruct (m_find _ _); by same.
  - unfold placed in Hn. rewrite length_app in Hn.
    destruct (doSubscribeData_placed (fresh (dp_mDpClientTbl p)) id (c_str topic) fn p (dk_inv _ Hok)) as (by_ & p' & out & -> & _ & [I1 R1 _ _ W1 A1]); [apply c_str_idemp|apply infinite_is_fresh|lia|].
    apply keeps_outcome; [done|]. eexists _, _. split; [done|]. split; [done|by injection R1|done|done].
  - destruct He as [b Hb]. by eapply doPublishData_outcome.
  - unfold doGetTopicList. destruct (available_topics_total (dp_mDpClientTbl p) p (di_live _ (dk_inv _ Hok)) (mkTopics [])) as [m ->]. cbn [mbind option_bind]. same. exact Hs.
  - unfold registerTopicAvailableListener. match goal with |- context [notify_available ?a ?b ?c] => destruct (notify_available_total a b c) as [o ->] end; [apply (di_live _ (dk_inv _ Hok))|].
    cbn [mbind option_bind]. same. exact Hs.
Qed.

Lemma dp_step_outcome ev p : dp_ok p -> ev_ok ev p -> Z.of_nat (2 * length (placed p)) + 1 < 2 ^ 32 -> outcome (dp_step sid ev p) (subscriptions ev) p.
Proof.
  intros Hok He Hn. pose proof (dk_server _ Hok) as Hs. pose proof (dk_inv _ Hok) as Hi. assert (length (placed p) = length (pending p) + length (registered p))%nat as El by apply length_app.
  destruct ev as [w o b n|job|l f n t|client m|client|id|a|s c o t g|s c o t|s|m]; cbn [dp_step subscriptions].
  - unfold dp_start. destruct (dp_started p), o; same; exact Hs || apply lvl_nil.
  - by apply dp_run_job_outcome; [|exact He|lia].
  - destruct He as [Hf Hc]. apply keeps_outcome; [done|]. by apply dp_connect_spec.
  - destruct m as [m|]; [|same; exact Hs]. destruct (m_find client (dp_clients p)) as [c|] eqn:Hc; [|same; exact Hs].
    apply keeps_outcome; [done|]. apply (updateTopicList_spec client m p c); [done|done|lia].
  - apply keeps_outcome; [done|]. apply dc_onHup_spec; [done|lia].
  - unfold server_ok in Hs. destruct (dp_mDpServer p) as [x|] eqn:E; same; [exact Hs|unfold server_ok; by rewrite E].
  - same. exact Hs.
  - apply ds_update_outcome; [done|]. intros x. unfold obj_subscribe. by destruct (fdbIsGroup _).
  - apply ds_update_outcome; [done|]. intros x. unfold obj_unsubscribe. by destruct (fdbIsGroup _).
  - by apply ds_update_outcome.
  - destruct He as [b Hb]. unfold server_ok in Hs. destruct (dp_mDpServer p) as [s|] eqn:E; [|same; unfold server_ok; by rewrite E].
    destruct (doPublish_total (ds_obj s) m b Hs Hb) as (x & acts & -> & Hx). cbn [mbind option_bind]. by same.
Qed.

(** ** Runs *)

Fixpoint run_ok (evs : list DpEvent) (p : CDataPool) : Prop :=
  match evs with
  | [] => True
  | ev :: evs => ev_ok ev p /\ match dp_step sid ev p with Some (p, _) => run_ok evs p | None => True end
  end.
Definition all_subscriptions (evs : list DpEvent) : list (Z * string * Z) := evs ≫= subscriptions.

Lemma dp_run_outcome evs : forall p, dp_ok p -> run_ok evs p -> Z.of_nat (2 * (length (placed p) + length (all_subscriptions evs))) + 1 < 2 ^ 32 ->
  outcome (dp_run sid evs p) (all_subscriptions evs) p.
Proof.
  induction evs as [|ev evs IH]; intros p Hok Hr Hn; cbn [dp_run]; [by eexists _, _|]. destruct Hr as [He Hr].
  assert (all_subscriptions (ev :: evs) = subscriptions ev ++ all_subscriptions evs) as Ea by done. rewrite Ea in Hn |- *. rewrite length_app in Hn.
  destruct (dp_step_outcome ev p Hok He ltac:(lia)) as (p1 & o1 & E1 & Hok1 & A1). rewrite E1 in Hr |- *. cbn [mbind option_bind].
  destruct (IH p1 Hok1 Hr) as (p2 & o2 & -> & Hok2 & A2); [apply Permutation_length in A1; rewrite length_app in A1; lia|].
  eexists _, _. split; [done|]. split; [done|]. rewrite A2, A1. solve_Permutation.
Qed.

Lemma dp_new_ok domain name : dp_ok (CDataPool_new domain name).
Proof.
  split; [|by intros id topic fn ?%elem_of_nil|done]. split; try done; try (by constructor).
  - intros k Hk. by apply elem_of_nil in Hk.
  - intros k [? [=]].
  - by split; constructor.
Qed.

(** C27: From a new data pool on, whatever owners appear and go, whatever topics they create and
    destroy and whatever the application does, as long as an owner the pool still has a client for
    does not announce addresses again ([announced_again_dangles]) and there are fewer than 2^31 - 1
    events: no client that is gone is used. Every listener the application
    added is in exactly one place, waiting or with one live client; the handlers of each client are
    exactly those of its listeners; and a listener waits only while no owner in the table of clients
    has created its topic. *)
Theorem listeners_placed (domain : Z) (name : option string) (evs : list DpEvent) :
  run_ok evs (CDataPool_new domain name) -> Z.of_nat (length evs) < 2 ^ 31 - 1 ->
  exists p out, dp_run sid evs (CDataPool_new domain name) = Some (p, out) /\
    pending p ++ registered p ≡ₚ all_subscriptions evs /\
    (forall client, handles_at p client <> [] -> is_Some (m_find client (dp_clients p))) /\
    (forall client c, m_find client (dp_clients p) = Some c -> client_exact p client c) /\
    (forall id topic fn, (id, topic, fn) ∈ pending p -> uncovered id topic p).
Proof.
  intros Hr Hn. assert (length (all_subscriptions evs) <= length evs)%nat as Hl.
  { clear. induction evs as [|ev evs IH]; [done|]. unfold all_subscriptions in *. cbn [mbind list_bind length]. rewrite length_app. assert (length (subscriptions ev) <= 1)%nat by (by destruct ev as [|[]| | | | | | | | |]; cbn; lia). lia. }
  destruct (dp_run_outcome evs _ (dp_new_ok domain name) Hr) as (p & out & E & [Hi Hw _] & A); [cbn [placed]; change (length (placed (CDataPool_new domain name))) with 0%nat; lia|].
  exists p, out. split_and!; [done|by rewrite app_nil_r in A| |apply Hi|exact Hw].
  intros client Hc. unfold handles_at, m_at in Hc. destruct (m_find client (dp_mClientSubscriptionHandle p)) as [t|] eqn:Et; [|done]. apply (di_owned _ Hi). by rewrite Et.
Qed.
End server.

(** ** Examples *)

(** A listener for "speed" waits, is registered when the owner on host "a" creates the topic, and
    goes to the owner on host "b" when that on "a" is lost; another one goes on waiting. *)
Definition lab_owner (host : string) : FdbMsgAddressList :=
  mkAddressList FDB_DATAPOOL_SERVER_NAME host EmptyString EmptyString (fdbMakeEventCode 0 7) false 0
    [mkAddressItem "10.0.0.1" 60001 FDB_SOCKET_TCP "tcp://10.0.0.1:60001" 0 false 0 0 0] (mkTokens []) 0.
Definition lab_speed : FdbMsgTopics := mkTopics [mkTopicInfo "speed" 5 "car" 0].
Definition lab_pool_run : list DpEvent :=
  [EvStart None false true true; EvJob (JobSubscribe 5 "speed" 1); EvJob (JobSubscribe 6 "speed" 2); EvService (lab_owner "a") 100 1 false; EvTopics 100 (Some lab_speed);
   EvService (lab_owner "b") 101 1 false; EvTopics 101 (Some lab_speed); EvHup 100].

Lemma listeners_placed_witness : exists p out,
  @dp_run 0 (fun x => x) lab_pool_run (CDataPool_new 0 None) = Some (p, out) /\ pending p ++ registered p ≡ₚ [(5, "speed"%string, 1); (6, "speed"%string, 2)] /\
  handles_at p 101 = [(5, "speed"%string, 1)] /\ uncovered 6 "speed" p.
Proof.
  destruct (@listeners_placed 0 (fun x => x) 0 None lab_pool_run) as (p & out & E & A & _ & _ & W).
  - vm_compute. repeat split; done.
  - vm_compute. reflexivity.
  - exists p, out. split; [exact E|]. split; [exact A|].
    assert ((fun r => (handles_at r.1 101, pending r.1)) <$> @dp_run 0 (fun x => x) lab_pool_run (CDataPool_new 0 None) = Some ([(5, "speed"%string, 1)], [(6, "speed"%string, 2)])) as Hv by (vm_compute; reflexivity).
    rewrite E in Hv. injection Hv as H1 H2. split; [exact H1|]. apply (W 6 "speed"%string 2). rewrite H2. by left.
Defined.

(** An owner that announces its addresses again is put into the table of clients a second time.
    When its session is lost then, its listener is added again to the client that is being
    destroyed, whose list of listeners grows while it is read; without a listener, the pool keeps a
    pointer to the client that is gone and uses it for the next listener. *)
Example announced_again_dangles :
  let again := [EvStart None false true true; EvService (lab_owner "a") 100 1 false; EvTopics 100 (Some lab_speed); EvService (lab_owner "a") 101 1 false] in
  (dp_mDpClientTbl ∘ fst <$> @dp_run 0 (fun x => x) again (CDataPool_new 0 None)) = Some [100; 100] /\
  @dp_run 0 (fun x => x) (again ++ [EvJob (JobSubscribe 5 "speed" 1); EvHup 100]) (CDataPool_new 0 None) = None /\
  @dp_run 0 (fun x => x) (again ++ [EvHup 100; EvJob (JobSubscribe 5 "speed" 1)]) (CDataPool_new 0 None) = None.
Proof. vm_compute. auto. Qed.

(** One of two topics with the same number is destroyed: no client is told, and clients go on
    taking it for created. *)
Example destroy_not_told :
  let s := (ds_createData "car" 0 None 5 "gear" None 0 None (ds_createData "car" 0 None 5 "speed" None 0 None CDpServer_new).1).1 in
  let '(s', out) := ds_destroyData 5 "speed" s in
  topicCreated "speed" 5 (ds_mTopicTbl s) = true /\ topicCreated "speed" 5 (ds_mTopicTbl s') = false /\ out = [].
Proof. vm_compute. auto. Qed.

(** Data published by an owner whose topic has no subscriber is also published by the pool as a
    client, when another owner has the topic too. *)
Example published_twice :
  let evs := [EvStart None true true true; EvJob (JobCreate 5 "speed" None 0 None); EvService (lab_owner "a") 100 1 false; EvTopics 100 (Some lab_speed);
    EvJob (JobPublish (mkMessage FDB_MT_REQUEST 5 0 0 0 "speed" (Some [1]) 1 FDB_QOS_RELIABLE))] in
  ((fun r => (existsb (fun o => match o with DpPublishBy _ _ => true | _ => false end) r.2,
              s ← dp_mDpServer r.1; ed_content <$> cache_get (mEventCache (ds_obj s)) 5 "speed"))
     <$> @dp_run 0 (fun x => x) evs (CDataPool_new 0 None)) = Some (true, Some [1]).
Proof. vm_compute. reflexivity. Qed.
