(* ===== verification/LogCache.v ===== *)
(** The cache of logs: [CFdbLogCache] of src/log/CFdbLogCache.cpp. A producer keeps its logs there
    until it is connected to the log server, and the log server keeps logs for new clients.

    The size of the cache counts the bytes of the logs and of the items that hold them, in 32 bits;
    [None] is an overflow of that arithmetic. *)
From S2P Require Import Prelude CommonDefs.
Open Scope Z_scope.

(** ** Data *)

(** [sizeof(CDataItem)]: a pointer and three numbers of 32 bits. *)
Definition sizeof_CDataItem : Z := 24.
Record CDataItem := mkDataItem { di_mLogData : list Z; di_mSize : Z; di_mCode : Z; di_mId : Z }.
Record CFdbLogCache := mkLogCache { lc_mCache : list CDataItem; lc_mMaxSize : Z; lc_mCacheSize : Z; lc_mDataId : Z; lc_mStopIfFull : bool; lc_mFull : bool }.
Implicit Types c : CFdbLogCache.
Implicit Types it : CDataItem.

Definition CFdbLogCache_new (max_size : Z) (stop_if_full : bool) : CFdbLogCache :=
  mkLogCache [] (if max_size <? 0 then 0 else max_size) 0 0 stop_if_full false.

Definition lc_set (items : list CDataItem) (size : Z) (full : bool) c : CFdbLogCache :=
  mkLogCache items (lc_mMaxSize c) size (lc_mDataId c) (lc_mStopIfFull c) full.

(** ** Operations *)

Definition lc_removeAll c : CFdbLogCache := lc_set [] 0 false c.

Definition popOne c : CFdbLogCache :=
  match lc_mCache c with
  | [] => c
  | head :: _ =>
      let size := i32 (lc_mCacheSize c - (di_mSize head + sizeof_CDataItem)) in
      let c := lc_set (lc_mCache c) size (lc_mFull c) c in
      let c := if size <? 0 then lc_removeAll c else c in
      match lc_mCache c with
      | [] => lc_set [] 0 (lc_mFull c) c
      | _ :: l => lc_set l (lc_mCacheSize c) (lc_mFull c) c
      end
  end.

(** A signed sum of 32 bits. *)
Definition sum_i32 (a b : Z) : option Z := if bool_decide (in_s 32 (a + b)) then Some (a + b) else None.
Definition needed (size : Z) c : option Z := s ← sum_i32 (lc_mCacheSize c) size; sum_i32 s sizeof_CDataItem.

(** The loop of [push]; each round drops an item, so as many rounds as there are items, and one
    more for an empty cache, are enough. *)
Fixpoint lc_make_room (fuel : nat) (size : Z) c : option CFdbLogCache :=
  match fuel with
  | O => None
  | S fuel =>
      n ← needed size c;
      if lc_mMaxSize c <? n then
        let c := popOne (lc_set (lc_mCache c) (lc_mCacheSize c) true c) in
        match lc_mCache c with [] => Some c | _ => lc_make_room fuel size c end
      else Some c
  end.

Definition lc_append (data : list Z) (size code : Z) c : CFdbLogCache :=
  mkLogCache (lc_mCache c ++ [mkDataItem data size code (lc_mDataId c)]) (lc_mMaxSize c) (i32 (lc_mCacheSize c + (size + sizeof_CDataItem)))
    (u32 (lc_mDataId c + 1)) (lc_mStopIfFull c) (lc_mFull c).
Definition lc_push (data : list Z) (code : Z) c : option CFdbLogCache :=
  let size := Z.of_nat (length data) in
  if (lc_mMaxSize c =? 0) || (size <=? 0) then Some c else
  if lc_mStopIfFull c then
    n ← needed size c;
    if lc_mMaxSize c <? n then Some (lc_set (lc_mCache c) (lc_mCacheSize c) true c) else Some (lc_append data size code c)
  else lc_append data size code <$> lc_make_room (S (length (lc_mCache c))) size c.

(** [dump(log_producer)]: what is sent, in order. *)
Definition lc_dump c : CFdbLogCache * list (Z * list Z) :=
  (mkLogCache [] (lc_mMaxSize c) 0 0 (lc_mStopIfFull c) false, map (fun it => (di_mCode it, di_mLogData it)) (lc_mCache c)).

(** [dump(object, session, size)]: the oldest logs until more than [size] bytes were sent, or all. *)
Fixpoint dump_items (size size_sent : Z) (l : list CDataItem) : list (Z * list Z) :=
  match l with
  | [] => []
  | it :: l => let size_sent := size_sent + di_mSize it in
               (di_mCode it, di_mLogData it) :: (if (0 <? size) && (size <? size_sent) then [] else dump_items size size_sent l)
  end.
Definition lc_dump_session (size : Z) c : list (Z * list Z) := if size =? 0 then [] else dump_items size 0 (lc_mCache c).

Fixpoint shrink (fuel : nat) (max_size : Z) c : CFdbLogCache :=
  match fuel with
  | O => c
  | S fuel => if max_size <? lc_mCacheSize c
              then let c := popOne c in match lc_mCache c with [] => c | _ => shrink fuel max_size c end
              else c
  end.
Definition lc_resize (max_size : Z) c : CFdbLogCache :=
  if (max_size <? 0) || (max_size =? lc_mMaxSize c) then c else
  let c := shrink (S (length (lc_mCache c))) max_size c in
  mkLogCache (lc_mCache c) max_size (lc_mCacheSize c) (lc_mDataId c) (lc_mStopIfFull c) (lc_mFull c).

(** ** What is kept *)

Definition weight it : Z := di_mSize it + sizeof_CDataItem.
Fixpoint weights (l : list CDataItem) : Z := match l with [] => 0 | it :: l => weight it + weights l end.

(** The fewest of the oldest logs are dropped for the rest to fit in [room]; at most all. *)
Fixpoint newest (room : Z) (l : list CDataItem) : list CDataItem :=
  match l with [] => [] | _ :: l' => if room <? weights l then newest room l' else l end.

(** The size is that of the logs; it is at most the bound, or there is one log only. *)
Record lc_ok c : Prop := {
  lo_size : lc_mCacheSize c = weights (lc_mCache c);
  lo_items : Forall (fun it => 0 < di_mSize it < 2 ^ 28 /\ di_mSize it = Z.of_nat (length (di_mLogData it))) (lc_mCache c);
  lo_max : 0 <= lc_mMaxSize c < 2 ^ 29;
  lo_bound : lc_mCacheSize c <= lc_mMaxSize c \/ (lc_mStopIfFull c = false /\ length (lc_mCache c) = 1%nat) }.

Lemma weights_nonneg l : Forall (fun it => 0 < di_mSize it < 2 ^ 28 /\ di_mSize it = Z.of_nat (length (di_mLogData it))) l -> 0 <= weights l.
Proof. induction 1 as [|it l [H _] _ IH]; cbn [weights]; [lia|]. unfold weight, sizeof_CDataItem. lia. Qed.
Lemma weights_app l1 l2 : weights (l1 ++ l2) = weights l1 + weights l2.
Proof. induction l1 as [|it l1 IH]; cbn [app weights]; [done|]. lia. Qed.

Lemma popOne_ok it l c : lc_mCache c = it :: l -> lc_mCacheSize c = weights (it :: l) -> 0 <= weights l < 2 ^ 31 ->
  popOne c = lc_set l (weights l) (lc_mFull c) c.
Proof.
  intros El Es Hr. unfold popOne. rewrite El. cbn [weights] in Es. rewrite Es. replace (weight it + weights l - (di_mSize it + sizeof_CDataItem)) with (weights l) by (unfold weight; lia).
  rewrite wrap_s_small by (unfold in_s; lia). destruct (Z.ltb_spec (weights l) 0); [lia|]. by cbn [lc_set lc_mCache lc_mCacheSize lc_mFull lc_mMaxSize lc_mDataId lc_mStopIfFull].
Qed.
Lemma needed_ok size c : 0 <= size < 2 ^ 28 -> 0 <= lc_mCacheSize c < 2 ^ 30 -> needed size c = Some (lc_mCacheSize c + size + sizeof_CDataItem).
Proof. intros Hs Hc. unfold needed, sum_i32, sizeof_CDataItem. rewrite !bool_decide_true by (unfold in_s; lia). cbn. by rewrite bool_decide_true by (unfold in_s; lia). Qed.

(** The bound allows every intermediate sum. *)
Lemma lc_small c : lc_ok c -> 0 <= lc_mCacheSize c < 2 ^ 30.
Proof.
  intros [Hs Hi Hm Hb]. pose proof (weights_nonneg _ Hi). destruct Hb as [Hb|[_ Hl]]; [lia|].
  destruct (lc_mCache c) as [|it [|]] eqn:E; [done| |done]. inversion Hi as [|? ? [H1 _] _]; subst. rewrite Hs. cbn [weights]. unfold weight, sizeof_CDataItem. lia.
Qed.

Lemma make_room_spec size : 0 < size < 2 ^ 28 -> forall l c, lc_mCache c = l -> lc_ok c -> forall fuel, (length l < fuel)%nat ->
  exists full, lc_make_room fuel size c = Some (lc_set (newest (lc_mMaxSize c - size - sizeof_CDataItem) l) (weights (newest (lc_mMaxSize c - size - sizeof_CDataItem) l)) full c).
Proof.
  intros Hsz. induction l as [|it l IH]; intros c El Hok [|fuel] Hf; cbn [length] in Hf; try lia; cbn [lc_make_room].
  - rewrite needed_ok by (lia || by apply lc_small). cbn [mbind option_bind]. pose proof (lo_size _ Hok) as Hs. rewrite El in Hs. cbn [weights] in Hs.
    destruct (_ <? _); [|exists (lc_mFull c); cbn [newest weights]; f_equal; by destruct c; cbn in *; subst].
    unfold popOne, lc_set. cbn [lc_mCache]. rewrite El. cbn [lc_mCache newest weights]. exists true. f_equal. cbn. by rewrite Hs.
  - pose proof (lc_small c Hok) as Hsm. rewrite needed_ok by (lia || done). cbn [mbind option_bind]. pose proof (lo_size _ Hok) as Hs. rewrite El in Hs.
    pose proof (lo_items _ Hok) as Hi. rewrite El in Hi. inversion Hi as [|? ? [Hw _] Hi']; subst. pose proof (weights_nonneg _ Hi') as Hn.
    assert (weights l < 2 ^ 30) as Hl by (rewrite Hs in Hsm; cbn [weights] in Hsm; unfold weight, sizeof_CDataItem in Hsm; lia).
    cbn [newest]. destruct (Z.ltb_spec (lc_mMaxSize c) (lc_mCacheSize c + size + sizeof_CDataItem)) as [Hlt|Hge].
    + rewrite (popOne_ok it l) by (cbn [lc_mCache lc_mCacheSize lc_set]; done || lia).
      destruct (Z.ltb_spec (lc_mMaxSize c - size - sizeof_CDataItem) (weights (it :: l))); [|lia]. cbn [lc_set lc_mCache lc_mCacheSize lc_mFull lc_mMaxSize lc_mDataId lc_mStopIfFull].
      destruct l as [|it' l']; [by exists true|].
      destruct (IH (lc_set (it' :: l') (weights (it' :: l')) true c)) with (fuel := fuel) as (full & E); [done| |lia|exists full; exact E].
      split; [done|exact Hi'|apply Hok|]. left. destruct (lo_bound _ Hok) as [Hb|[_ Hb]]; [|by rewrite El in Hb].
      cbn [lc_set lc_mCacheSize lc_mMaxSize]. rewrite Hs in Hb. cbn [weights] in Hb |- *. unfold weight, sizeof_CDataItem in *. lia.
    + destruct (Z.ltb_spec (lc_mMaxSize c - size - sizeof_CDataItem) (weights (it :: l))); [lia|]. exists (lc_mFull c). f_equal. rewrite <- Hs. destruct c; cbn in *; by subst.
Qed.

Lemma newest_suffix room l : exists old, l = old ++ newest room l.
Proof.
  induction l as [|it l IH]; cbn [newest]; [by exists []|]. destruct (room <? weights (it :: l)); [|by exists []]. destruct IH as [old E]. exists (it :: old). cbn [app]. by rewrite <- E.
Qed.
Lemma newest_fits room l : weights (newest room l) <= room \/ newest room l = [].
Proof. induction l as [|it l IH]; [by right|]. cbn [newest]. destruct (Z.ltb_spec room (weights (it :: l))); [done|by left]. Qed.

(** A smaller bound drops the fewest of the oldest logs for the rest to fit. *)
Lemma shrink_spec max_size : 0 <= max_size -> forall l c, lc_mCache c = l -> lc_mCacheSize c = weights l -> weights l < 2 ^ 31 ->
  Forall (fun it => 0 < di_mSize it < 2 ^ 28 /\ di_mSize it = Z.of_nat (length (di_mLogData it))) l -> forall fuel, (length l < fuel)%nat ->
  shrink fuel max_size c = lc_set (newest max_size l) (weights (newest max_size l)) (lc_mFull c) c.
Proof.
  intros Hm. induction l as [|it l IH]; intros c El Es Hw Hi [|fuel] Hf; cbn [length] in Hf; try lia; cbn [shrink newest].
  - rewrite Es. cbn [weights]. destruct (Z.ltb_spec max_size 0); [lia|]. destruct c; cbn in *; by subst.
  - inversion Hi as [|? ? [Hx _] Hi']; subst. pose proof (weights_nonneg _ Hi'). cbn [weights] in Hw. unfold weight, sizeof_CDataItem in Hw. rewrite Es.
    destruct (Z.ltb_spec max_size (weights (it :: l))); [|destruct c; cbn in *; by subst].
    rewrite (popOne_ok it l) by (done || lia). cbn [lc_set lc_mCache]. destruct l as [|it' l']; [done|].
    rewrite (IH (lc_set (it' :: l') (weights (it' :: l')) (lc_mFull c) c)); done || lia.
Qed.
Lemma lc_resize_spec max_size c : lc_ok c -> max_size < 2 ^ 29 -> lc_ok (lc_resize max_size c) /\ exists old, lc_mCache c = old ++ lc_mCache (lc_resize max_size c).
Proof.
  intros Hok Hm. pose proof (lc_small c Hok) as Hsm. destruct Hok as [Hs Hi Hmx Hb]. unfold lc_resize. destruct (Z.ltb_spec max_size 0); [split; [done|by exists []]|]. destruct (Z.eqb_spec max_size (lc_mMaxSize c)); [split; [done|by exists []]|]. cbn [orb].
  rewrite (shrink_spec max_size ltac:(lia) (lc_mCache c) c eq_refl Hs) by (done || lia). destruct (newest_suffix max_size (lc_mCache c)) as [old E]. cbn [lc_set lc_mCache lc_mCacheSize lc_mDataId lc_mFull lc_mStopIfFull].
  split; [|by exists old]. rewrite E in Hi. apply Forall_app in Hi as [_ Hi]. split; cbn [lc_mCache lc_mCacheSize lc_mMaxSize]; [done|done|lia|]. left.
  destruct (newest_fits max_size (lc_mCache c)) as [Hf|Hf]; [done|]. rewrite Hf. done.
Qed.

(** A log is added: the sums never overflow, and the size stays that of the logs kept and at most
    the bound, or that of the one log kept. A cache that stops when it is full keeps the log exactly
    when it fits and notes otherwise that it is full; the other one drops the fewest of the oldest
    logs for the new one to fit, all of them if it never fits, and keeps the new one in any case. *)
Lemma lc_push_spec (c : CFdbLogCache) (data : list Z) (code : Z) :
  lc_ok c -> Z.of_nat (length data) < 2 ^ 28 ->
  exists c', lc_push data code c = Some c' /\ lc_ok c' /\
    if (lc_mMaxSize c =? 0) || (Z.of_nat (length data) =? 0) then c' = c
    else if lc_mStopIfFull c
    then if weights (lc_mCache c) + Z.of_nat (length data) + sizeof_CDataItem <=? lc_mMaxSize c
         then lc_mCache c' = lc_mCache c ++ [mkDataItem data (Z.of_nat (length data)) code (lc_mDataId c)] /\ lc_mFull c' = lc_mFull c
         else lc_mCache c' = lc_mCache c /\ lc_mFull c' = true
    else lc_mCache c' = newest (lc_mMaxSize c - Z.of_nat (length data) - sizeof_CDataItem) (lc_mCache c) ++ [mkDataItem data (Z.of_nat (length data)) code (lc_mDataId c)].
Proof.
  intros Hok Hl. pose proof (lc_small c Hok) as Hsm. unfold lc_push. set (size := Z.of_nat (length data)) in *. replace (size <=? 0) with (size =? 0) by lia.
  destruct ((lc_mMaxSize c =? 0) || (size =? 0)) eqn:E0; [by eexists|]. apply orb_false_iff in E0 as [Em Es]. apply Z.eqb_neq in Em, Es.
  assert (0 < size) as Hs by lia. set (it := mkDataItem data size code (lc_mDataId c)).
  assert (forall l full, Forall (fun it => 0 < di_mSize it < 2 ^ 28 /\ di_mSize it = Z.of_nat (length (di_mLogData it))) l -> weights l + weight it <= lc_mMaxSize c \/ (lc_mStopIfFull c = false /\ l = []) ->
    lc_ok (lc_append data size code (lc_set l (weights l) full c))) as Happ.
  { intros l full Hi Hb. pose proof (lo_max _ Hok). pose proof (weights_nonneg _ Hi).
    assert (weights l + (size + sizeof_CDataItem) < 2 ^ 30) as Hsum by (destruct Hb as [Hb|[_ ->]]; unfold weight, sizeof_CDataItem in *; cbn [weights di_mSize it] in *; lia).
    split; cbn [lc_append lc_set lc_mCache lc_mCacheSize lc_mMaxSize lc_mStopIfFull].
    - rewrite weights_app, wrap_s_small by (unfold in_s, sizeof_CDataItem in *; lia). cbn [weights]. unfold weight. cbn [di_mSize]. lia.
    - apply Forall_app. split; [done|]. repeat constructor; cbn [di_mSize di_mLogData]; lia.
    - done.
    - rewrite wrap_s_small by (unfold in_s, sizeof_CDataItem in *; lia). destruct Hb as [Hb|[Hst ->]]; [left; exact Hb|right; by split]. }
  destruct (lc_mStopIfFull c) eqn:Est.
  - rewrite needed_ok by (lia || done). cbn [mbind option_bind]. rewrite (lo_size _ Hok). destruct (Z.leb_spec (weights (lc_mCache c) + size + sizeof_CDataItem) (lc_mMaxSize c)) as [Hle|Hgt].
    + rewrite (proj2 (Z.ltb_ge _ _)) by done. eexists. split; [done|]. split; [|done].
      specialize (Happ (lc_mCache c) (lc_mFull c) (lo_items _ Hok)). rewrite <- (lo_size _ Hok) in Happ. replace (lc_set (lc_mCache c) (lc_mCacheSize c) (lc_mFull c) c) with c in Happ by (by destruct c).
      apply Happ. left. rewrite (lo_size _ Hok). unfold weight. cbn [di_mSize it]. lia.
    + rewrite (proj2 (Z.ltb_lt _ _)) by lia. eexists. split; [done|]. split; [|done]. destruct Hok as [H1 H2 H3 H4]. split; try done. cbn [lc_set lc_mCacheSize]. by rewrite <- H1.
  - destruct (make_room_spec size ltac:(lia) (lc_mCache c) c eq_refl Hok (S (length (lc_mCache c)))) as (full & ->); [lia|]. cbn [fmap option_fmap option_map]. eexists. split; [done|]. split; [|done].
    apply Happ; [|destruct (newest_fits (lc_mMaxSize c - size - sizeof_CDataItem) (lc_mCache c)) as [Hf|Hf]; [left|by right]].
    + destruct (newest_suffix (lc_mMaxSize c - size - sizeof_CDataItem) (lc_mCache c)) as [old E]. pose proof (lo_items _ Hok) as Hi. rewrite E in Hi. by apply Forall_app in Hi as [_ Hi].
    + unfold weight. cbn [di_mSize it]. lia.
Qed.

(** ** Many logs *)

(** The longest run of newest logs that fits, or the newest one if not even that fits. *)
Definition keep (max_size : Z) (l : list CDataItem) : list CDataItem :=
  match newest max_size l with [] => option_list (last l) | k => k end.

Lemma newest_mono r r' l : r' <= r -> newest r' (newest r l) = newest r' l.
Proof.
  intros Hr. induction l as [|it l IH]; [done|]. cbn [newest]. destruct (Z.ltb_spec r (weights (it :: l))); [|done].
  rewrite IH. destruct (Z.ltb_spec r' (weights (it :: l))); [done|lia].
Qed.
Lemma newest_neg r l : Forall (fun it => 0 < di_mSize it < 2 ^ 28 /\ di_mSize it = Z.of_nat (length (di_mLogData it))) l -> r < 0 -> newest r l = [].
Proof.
  intros Hi Hr. induction Hi as [|it l H Hi IH]; [done|]. cbn [newest]. pose proof (weights_nonneg (it :: l) ltac:(by constructor)).
  destruct (Z.ltb_spec r (weights (it :: l))); [done|lia].
Qed.
Lemma newest_snoc r l it : Forall (fun it => 0 < di_mSize it < 2 ^ 28 /\ di_mSize it = Z.of_nat (length (di_mLogData it))) l ->
  newest r (l ++ [it]) = if r <? weight it then [] else newest (r - weight it) l ++ [it].
Proof.
  intros Hi. induction Hi as [|x l Hx Hi IH].
  - cbn [app newest weights]. rewrite Z.add_0_r. by destruct (r <? weight it).
  - change ((x :: l) ++ [it]) with (x :: (l ++ [it])). cbn [newest]. change (weights (x :: l ++ [it])) with (weights ((x :: l) ++ [it])). rewrite weights_app, IH. change (weights [it]) with (weight it + 0).
    pose proof (weights_nonneg (x :: l) ltac:(by constructor)). destruct (Z.ltb_spec r (weight it)).
    + destruct (Z.ltb_spec r (weights (x :: l) + (weight it + 0))); [done|lia].
    + destruct (Z.ltb_spec r (weights (x :: l) + (weight it + 0))), (Z.ltb_spec (r - weight it) (weights (x :: l))); done || lia.
Qed.

Lemma keep_snoc max l it : Forall (fun it => 0 < di_mSize it < 2 ^ 28 /\ di_mSize it = Z.of_nat (length (di_mLogData it))) l -> 0 < weight it ->
  keep max (l ++ [it]) = newest (max - weight it) l ++ [it].
Proof.
  intros Hi Hw. unfold keep. rewrite newest_snoc, last_snoc by done. destruct (Z.ltb_spec max (weight it)).
  - rewrite newest_neg; [done|done|lia].
  - by destruct (newest (max - weight it) l).
Qed.
Lemma newest_keep max r l : Forall (fun it => 0 < di_mSize it < 2 ^ 28 /\ di_mSize it = Z.of_nat (length (di_mLogData it))) l -> r <= max -> newest r (keep max l) = newest r l.
Proof.
  intros Hi Hr. unfold keep. destruct (newest max l) as [|x k] eqn:E; [|by rewrite <- E, newest_mono].
  rewrite <- (newest_mono max r l Hr), E. destruct (last l) as [x|] eqn:El; [|done]. cbn [option_list newest].
  apply last_Some in El as [l' ->]. rewrite newest_snoc in E by (by apply Forall_app in Hi as [Hi _]). cbn [weights]. destruct (Z.ltb_spec max (weight x)); [|by destruct (newest (max - weight x) l')].
  change (option_list (Some x)) with [x]. cbn [newest weights]. destruct (Z.ltb_spec r (weight x + 0)); [done|lia].
Qed.

Fixpoint items_from (id : Z) (logs : list (Z * list Z)) : list CDataItem :=
  match logs with [] => [] | (code, data) :: logs => mkDataItem data (Z.of_nat (length data)) code id :: items_from (u32 (id + 1)) logs end.
Fixpoint push_all (logs : list (Z * list Z)) c : option CFdbLogCache :=
  match logs with [] => Some c | (code, data) :: logs => c ← lc_push data code c; push_all logs c end.
Definition log_ok (e : Z * list Z) : Prop := 0 < Z.of_nat (length e.2) < 2 ^ 28.

Lemma items_from_ok logs : forall id, Forall log_ok logs -> Forall (fun it => 0 < di_mSize it < 2 ^ 28 /\ di_mSize it = Z.of_nat (length (di_mLogData it))) (items_from id logs).
Proof. induction logs as [|[code data] logs IH]; intros id Hl; cbn [items_from]; [constructor|]. inversion Hl; subst. constructor; [done|by apply IH]. Qed.
Lemma items_from_app l1 l2 : forall id, exists id', items_from id (l1 ++ l2) = items_from id l1 ++ items_from id' l2.
Proof. induction l1 as [|[code data] l1 IH]; intros id; [by exists id|]. destruct (IH (u32 (id + 1))) as [id' E]. exists id'. cbn [app items_from]. by rewrite E. Qed.

Lemma push_all_keep logs : forall c old, Forall log_ok logs -> lc_ok c -> lc_mStopIfFull c = false -> 0 < lc_mMaxSize c ->
  Forall (fun it => 0 < di_mSize it < 2 ^ 28 /\ di_mSize it = Z.of_nat (length (di_mLogData it))) old -> lc_mCache c = keep (lc_mMaxSize c) old ->
  exists c', push_all logs c = Some c' /\ lc_ok c' /\ lc_mCache c' = keep (lc_mMaxSize c) (old ++ items_from (lc_mDataId c) logs).
Proof.
  induction logs as [|[code data] logs IH]; intros c old Hl Hok Hst Hm Ho Ec; cbn [push_all items_from]; [exists c; by rewrite app_nil_r|].
  inversion Hl as [|? ? Hd Hl']; subst. destruct Hd as [Hd1 Hd2]. cbn [snd] in Hd1, Hd2. set (it := mkDataItem data (Z.of_nat (length data)) code (lc_mDataId c)).
  assert (lc_mMaxSize c =? 0 = false) as Em by lia. assert (Z.of_nat (length data) =? 0 = false) as Ed by lia.
  assert (exists full, lc_push data code c = Some (lc_append data (Z.of_nat (length data)) code (lc_set (newest (lc_mMaxSize c - Z.of_nat (length data) - sizeof_CDataItem) (lc_mCache c)) (weights (newest (lc_mMaxSize c - Z.of_nat (length data) - sizeof_CDataItem) (lc_mCache c))) full c))) as [full Ep].
  { unfold lc_push. rewrite Em, Hst. replace (Z.of_nat (length data) <=? 0) with false by lia. cbn [orb].
    destruct (make_room_spec (Z.of_nat (length data)) ltac:(lia) (lc_mCache c) c eq_refl Hok (S (length (lc_mCache c))) ltac:(lia)) as (full & ->). by exists full. }
  destruct (lc_push_spec c data code Hok Hd2) as (c1 & E1 & Hok1 & Hc1). rewrite Em, Ed, Hst in Hc1. cbn [orb] in Hc1. rewrite Ep in E1 |- *. injection E1 as E1. cbn [mbind option_bind]. rewrite E1.
  destruct (IH c1 (old ++ [it])) as (c2 & E2 & Hok2 & Hc2); [done|done|by subst c1|by subst c1|apply Forall_app; split; [done|by repeat constructor]| |].
  - replace (lc_mMaxSize c1) with (lc_mMaxSize c) by (by subst c1). rewrite Hc1, Ec, newest_keep by (done || unfold sizeof_CDataItem; lia).
    rewrite keep_snoc by (done || unfold weight, sizeof_CDataItem; cbn [di_mSize it]; lia). unfold weight. cbn [di_mSize it]. do 2 f_equal. lia.
  - exists c2. split; [exact E2|]. split; [done|]. rewrite Hc2. replace (lc_mMaxSize c1) with (lc_mMaxSize c) by (by subst c1). replace (lc_mDataId c1) with (u32 (lc_mDataId c + 1)) by (by subst c1). by rewrite <- app_assoc.
Qed.

(** A cache that goes on when it is full, given any logs one after the other, keeps
    exactly the longest run of the newest ones that fits in its bound with the items that hold them,
    and the newest one if not even that fits; they are what is sent when it is emptied, in order.
    The bookkeeping in 32 bits never overflows, and what it says is the size of the logs kept. *)
Theorem log_cache_newest (max_size : Z) (logs : list (Z * list Z)) :
  0 < max_size < 2 ^ 29 -> Forall log_ok logs ->
  exists c, push_all logs (CFdbLogCache_new max_size false) = Some c /\ lc_mCacheSize c = weights (lc_mCache c) /\
    lc_mCache c = keep max_size (items_from 0 logs) /\ exists old, logs = old ++ (lc_dump c).2.
Proof.
  intros Hm Hl. assert ((if max_size <? 0 then 0 else max_size) = max_size) as Em by (destruct (Z.ltb_spec max_size 0); [lia|done]).
  destruct (push_all_keep logs (CFdbLogCache_new max_size false) [] Hl) as (c & E & Hok & Hc); try done; cbn [CFdbLogCache_new lc_mMaxSize]; rewrite ?Em; try lia.
  { split; cbn [CFdbLogCache_new lc_mMaxSize lc_mCacheSize lc_mCache]; rewrite ?Em; [done|constructor|lia|left; lia]. }
  exists c. split; [done|]. split; [apply Hok|]. cbn [CFdbLogCache_new lc_mMaxSize lc_mDataId app] in Hc. rewrite Em in Hc. split; [done|].
  assert (exists old, items_from 0 logs = old ++ lc_mCache c) as [old Eo].
  { rewrite Hc. unfold keep. destruct (newest max_size (items_from 0 logs)) as [|x k] eqn:En; [|rewrite <- En; apply newest_suffix].
    destruct (last (items_from 0 logs)) as [x|] eqn:El; cbn [option_list]; [apply last_Some in El as [l' ->]; by exists l'|exists (items_from 0 logs); by rewrite app_nil_r]. }
  exists (map (fun it => (di_mCode it, di_mLogData it)) old). cbn [lc_dump snd]. rewrite <- map_app, <- Eo. clear. generalize 0 as id. induction logs as [|[code data] logs IH]; intros id; cbn [items_from map]; [done|]. by rewrite <- IH.
Qed.

Lemma log_cache_newest_witness : exists c,
  push_all [(1, [1; 2; 3]); (2, [4]); (3, [5; 6])] (CFdbLogCache_new 60 false) = Some c /\ lc_mCacheSize c = 51 /\ (lc_dump c).2 = [(2, [4]); (3, [5; 6])].
Proof.
  destruct (log_cache_newest 60 [(1, [1; 2; 3]); (2, [4]); (3, [5; 6])]) as (c & E & S & K & _); [lia|repeat (constructor; [split; reflexivity|]); constructor|].
  exists c. split; [exact E|]. rewrite S. cbn [lc_dump snd]. rewrite K. split; reflexivity.
Defined.
