(* ===== verification/LogFiles.v ===== *)
(** The files of the log server: [CLogFileManager] of src/log/CLogFileManager.cpp, without
    compression (the default of the build).

    Logs are written to a file until it is large enough; then the next one is opened, and before
    that the oldest files are removed until what is left is within the bound. A file is known by a
    number of eight digits at the head of its name. What the file system answers is in the
    arguments: the listing of the directory, which names can be opened and how much of a log is
    written; the clock gives the date in a name. What the manager does to it, removing, opening and
    writing files, comes with the result of an operation, and [Disk] is the directory this leaves. *)
From S2P Require Import Prelude CommonDefs StdMap Serializer Subscribe SocketFactory.
From stdpp Require Import gmap strings.
Open Scope Z_scope.

(** ** Data *)

Record CFileInfo := mkFileInfo { fi_mFileName : string; fi_mFileSize : Z }.

(** [lf_current]: how much the open file holds. *)
Record CLogFileManager := mkLogFiles {
  lf_mFilePool : list CFileInfo; lf_mCurrentFileName : string; lf_mLogPath : string; lf_mBaseName : string; lf_mMaxStorageSize : Z; lf_mMaxFileSize : Z;
  lf_mCurrentStorageSize : Z; lf_mFileId : Z; lf_current : option Z; lf_mCompress : bool; lf_mStop : bool }.
Implicit Types f : CLogFileManager.

Definition mDefaultMaxStorageSize : Z := 64 * 1024 * 1024.
Definition mDefaultMaxFileSize : Z := 4 * 1024 * 1024.

Definition lf_set_pool (pool : list CFileInfo) (size : Z) f : CLogFileManager :=
  mkLogFiles pool (lf_mCurrentFileName f) (lf_mLogPath f) (lf_mBaseName f) (lf_mMaxStorageSize f) (lf_mMaxFileSize f) size (lf_mFileId f) (lf_current f) (lf_mCompress f) (lf_mStop f).
Definition lf_set_current (cur : option Z) f : CLogFileManager :=
  mkLogFiles (lf_mFilePool f) (lf_mCurrentFileName f) (lf_mLogPath f) (lf_mBaseName f) (lf_mMaxStorageSize f) (lf_mMaxFileSize f) (lf_mCurrentStorageSize f) (lf_mFileId f) cur (lf_mCompress f) (lf_mStop f).
Definition lf_set_stop (stop : bool) f : CLogFileManager :=
  mkLogFiles (lf_mFilePool f) (lf_mCurrentFileName f) (lf_mLogPath f) (lf_mBaseName f) (lf_mMaxStorageSize f) (lf_mMaxFileSize f) (lf_mCurrentStorageSize f) (lf_mFileId f) (lf_current f) (lf_mCompress f) stop.
Definition lf_set_id (id : Z) f : CLogFileManager :=
  mkLogFiles (lf_mFilePool f) (lf_mCurrentFileName f) (lf_mLogPath f) (lf_mBaseName f) (lf_mMaxStorageSize f) (lf_mMaxFileSize f) (lf_mCurrentStorageSize f) id (lf_current f) (lf_mCompress f) (lf_mStop f).
Definition lf_set_path (path : string) f : CLogFileManager :=
  mkLogFiles (lf_mFilePool f) (lf_mCurrentFileName f) path (lf_mBaseName f) (lf_mMaxStorageSize f) (lf_mMaxFileSize f) (lf_mCurrentStorageSize f) (lf_mFileId f) (lf_current f) (lf_mCompress f) (lf_mStop f).

(** ** Names *)

Definition FDB_LOG_FILE_INDEX_SIZE : nat := 8.

(** [k] digits. *)
Fixpoint fix_dec (k : nat) (n : Z) : string :=
  match k with O => EmptyString | S k => fix_dec k (n / 10) +:+ String (digit (n mod 10)) EmptyString end.
(** ["%08d"] *)
Definition fmt08 (n : Z) : string :=
  if n <? 0 then (if - 10 ^ 7 <? n then String "-" (fix_dec 7 (- n)) else String "-" (to_dec (- n)))
  else if n <? 10 ^ 8 then fix_dec FDB_LOG_FILE_INDEX_SIZE n else to_dec n.

Definition file_name_of (id : Z) (base date : string) (compress : bool) : string :=
  String.substring 0 1023 (fmt08 id +:+ "-" +:+ base +:+ "-" +:+ date +:+ (if compress then ".zip" else ".txt")).

Definition getFileIndex (file_name : string) : Z :=
  if (String.length file_name <=? FDB_LOG_FILE_INDEX_SIZE)%nat then -1 else
  if negb (bool_decide (String.get FDB_LOG_FILE_INDEX_SIZE file_name = Some "-"%char)) then -1 else
  default (-1) (stoi_base 10 (String.substring 0 FDB_LOG_FILE_INDEX_SIZE file_name)).

Definition getAbsPath (relative_name : option string) f : string :=
  lf_mLogPath f +:+ "/" +:+ match relative_name with Some n => n | None => lf_mCurrentFileName f end.

(** ** The directory *)

(** [size]: what [stat] says of the file, if anything. *)
Definition addFile (file_name : string) (size : option Z) f : CLogFileManager :=
  if String.eqb file_name "." || String.eqb file_name ".." then f else
  match size with
  | None => f
  | Some size =>
      let f := lf_set_pool (lf_mFilePool f) (lf_mCurrentStorageSize f + size) f in
      let index := getFileIndex file_name in
      if index <? 0 then f else
      let f := if lf_mFileId f <? index then lf_set_id index f else f in
      lf_set_pool (lf_mFilePool f ++ [mkFileInfo file_name size]) (lf_mCurrentStorageSize f) f
  end.

(** [std::sort] by name. *)
Definition compareAsc (a b : CFileInfo) : bool := str_ltb (fi_mFileName a) (fi_mFileName b).
Fixpoint insert_file (x : CFileInfo) (l : list CFileInfo) : list CFileInfo :=
  match l with [] => [x] | y :: l' => if compareAsc x y then x :: l else y :: insert_file x l' end.
Definition sort_files (l : list CFileInfo) : list CFileInfo := foldr insert_file [] l.

(** [listing]: the regular files of the directory, unless it cannot be read. *)
Definition scanDir (listing : option (list (string * option Z))) f : bool * CLogFileManager :=
  if is_empty_str (lf_mLogPath f) then (false, f) else
  match listing with
  | None => (false, f)
  | Some l =>
      let f := foldl (fun f '(name, size) => addFile name size f) f l in
      let f := lf_set_pool (sort_files (lf_mFilePool f)) (lf_mCurrentStorageSize f) f in
      (true, lf_set_id (i32 (lf_mFileId f + 1)) f)
  end.

(** ** Limits *)

Definition setStorageSize (max_storage_size max_file_size : Z) f : bool * CLogFileManager :=
  let file_size := if lf_mCompress f then Z.quot max_file_size 16 else max_file_size in
  if max_storage_size <=? file_size then (false, f) else
  (true, mkLogFiles (lf_mFilePool f) (lf_mCurrentFileName f) (lf_mLogPath f) (lf_mBaseName f) (max_storage_size - file_size) max_file_size (lf_mCurrentStorageSize f) (lf_mFileId f) (lf_current f) (lf_mCompress f) (lf_mStop f)).

(** The limits that are not set are those of [indet]. *)
Definition CLogFileManager_new {I : Indet} (log_path base_name : option string) (max_total_size max_file_size : Z) (do_compress : bool) (listing : option (list (string * option Z))) : CLogFileManager :=
  let f := mkLogFiles [] EmptyString (c_str (default EmptyString log_path)) (c_str (default "fdbus"%string base_name)) indet indet 0 (-1) None do_compress true in
  let '(ok, f) := setStorageSize (if max_total_size =? 0 then mDefaultMaxStorageSize else max_total_size) (if max_file_size =? 0 then mDefaultMaxFileSize else max_file_size) f in
  if ok && negb (is_empty_str (lf_mLogPath f)) then lf_set_stop false (scanDir listing f).2 else f.

(** ** Closing, opening, writing *)

Definition lf_sync (file_size : Z) f : CLogFileManager :=
  match lf_current f with
  | None => f
  | Some pos =>
      let file_size := if file_size =? 0 then pos else file_size in
      let f := lf_set_current None f in
      if 0 <? file_size
      then lf_set_pool (lf_mFilePool f ++ [mkFileInfo (lf_mCurrentFileName f) file_size]) (lf_mCurrentStorageSize f + file_size) f else f
  end.
Definition lf_stop f : CLogFileManager := lf_set_stop true (lf_sync 0 f).
Definition lf_start f : CLogFileManager := lf_set_stop false f.
Definition setWorkingPath (path : option string) (listing : option (list (string * option Z))) f : bool * CLogFileManager :=
  match path with
  | None => (false, f)
  | Some path => if is_empty_str (c_str path) || String.eqb (lf_mLogPath f) (c_str path) then (false, f)
                 else scanDir listing (lf_set_path (c_str path) (lf_set_pool [] 0 (lf_sync 0 f)))
  end.

(** What is done to the file system. *)
Inductive FsOp :=
| FsRemove (path : string)
| FsOpen (path : string)
| FsWrite (path : string) (n : Z).

(** The files that are removed come with the rest. Every round drops one. *)
Fixpoint remove_oldest (pool : list CFileInfo) (size max_size : Z) : list CFileInfo * Z * list CFileInfo :=
  if size <=? max_size then (pool, size, []) else
  match pool with
  | [] => ([], 0, [])
  | x :: pool =>
      let size := size - fi_mFileSize x in
      if size <? 0 then (pool, 0, [x])
      else let '(pool, size, removed) := remove_oldest pool size max_size in (pool, size, x :: removed)
  end.
Definition removeOldestLog f : CLogFileManager * list FsOp :=
  let '(pool, size, removed) := remove_oldest (lf_mFilePool f) (lf_mCurrentStorageSize f) (lf_mMaxStorageSize f) in
  (lf_set_pool pool size f, (fun x => FsRemove (getAbsPath (Some (fi_mFileName x)) f)) <$> removed).

Section files.
(** The time stamp of the file with a number, and what can be opened for writing. *)
Variable date : Z -> string.
Variable opens : string -> bool.

Definition nextFileName f : CLogFileManager :=
  mkLogFiles (lf_mFilePool f) (file_name_of (lf_mFileId f) (lf_mBaseName f) (date (lf_mFileId f)) (lf_mCompress f)) (lf_mLogPath f) (lf_mBaseName f) (lf_mMaxStorageSize f) (lf_mMaxFileSize f)
    (lf_mCurrentStorageSize f) (i32 (lf_mFileId f + 1)) (lf_current f) (lf_mCompress f) (lf_mStop f).

(** The loop goes on until a file can be opened: [None] when [fuel] is used up. *)
Fixpoint open_next (fuel : nat) f : option CLogFileManager :=
  match fuel with
  | O => None
  | S fuel => let f := nextFileName f in if opens (getAbsPath None f) then Some (lf_set_current (Some 0) f) else open_next fuel f
  end.

Definition checkFileSizeUncomp (fuel : nat) f : option (CLogFileManager * list FsOp) :=
  let f := match lf_current f with Some pos => if lf_mMaxFileSize f <=? pos then lf_sync pos f else f | None => f end in
  match lf_current f with
  | Some _ => Some (f, [])
  | None =>
      let '(f, removed) := removeOldestLog f in
      f ← open_next fuel f; Some (f, removed ++ [FsOpen (getAbsPath None f)])
  end.
(** Without the library for it nothing is compressed, and nothing is written either. *)
Definition checkFileSize (fuel : nat) f : option (CLogFileManager * list FsOp) :=
  if lf_mCompress f then Some (f, []) else checkFileSizeUncomp fuel f.

(** [written]: what [fwrite] writes. *)
Definition lf_store (fuel : nat) (ostring : string) (written : Z) f : option (bool * CLogFileManager * list FsOp) :=
  if lf_mStop f || is_empty_str (lf_mLogPath f) || is_empty_str ostring then Some (false, f, []) else
  '(f, done) ← checkFileSize fuel f;
  match lf_current f with
  | Some pos => Some (Z.of_nat (String.length ostring) =? written, lf_set_current (Some (pos + written)) f,
                      done ++ [FsWrite (getAbsPath None f) written])
  | None => Some (false, f, done)
  end.
End files.

(** ** Names and numbers *)

Lemma fix_dec_length k : forall n, String.length (fix_dec k n) = k.
Proof. induction k as [|k IH]; intros n; [done|]. cbn [fix_dec]. rewrite str_length_app, IH. cbn. lia. Qed.

Lemma scan_fix_dec k : forall n acc any rest, 0 <= n < 10 ^ Z.of_nat k ->
  scan_digits 10 acc any (fix_dec k n +:+ rest) = scan_digits 10 (acc * 10 ^ Z.of_nat k + n) (any || (0 <? k)%nat) rest.
Proof.
  induction k as [|k IH]; intros n acc any rest Hn.
  - change (10 ^ Z.of_nat 0) with 1 in *. replace (acc * 1 + n) with acc by lia. change (0 <? 0)%nat with false. by rewrite orb_false_r.
  - rewrite Nat2Z.inj_succ, Z.pow_succ_r in Hn |- * by lia. cbn [fix_dec]. rewrite str_app_assoc, IH by (split; [apply Z.div_pos; lia|apply Z.div_lt_upper_bound; lia]).
    change (String (digit (n mod 10)) EmptyString +:+ rest) with (String (digit (n mod 10)) rest). cbn [scan_digits]. pose proof (Z.mod_pos_bound n 10 ltac:(lia)). rewrite digit_val_digit by done. destruct (Z.ltb_spec (n mod 10) 10); [|lia].
    f_equal; [pose proof (Z.div_mod n 10 ltac:(lia)); lia|by rewrite orb_true_r].
Qed.

Lemma substring_prefix (a b : string) n : String.length a = n -> String.substring 0 n (a +:+ b) = a.
Proof. intros <-. induction a as [|x a IH]; [by destruct b|]. change (String x (String.substring 0 (String.length a) (a +:+ b)) = String x a). by rewrite IH. Qed.
Lemma substring_long (n : nat) (a b : string) : (String.length a <= n)%nat -> exists c, String.substring 0 n (a +:+ b) = a +:+ c.
Proof. revert n. induction a as [|x a IH]; intros n Hn; cbn in Hn; [by eexists|]. destruct n as [|n]; [lia|]. destruct (IH n) as [c E]; [lia|]. exists c. change (String x (String.substring 0 n (a +:+ b)) = String x (a +:+ c)). by rewrite E. Qed.
Lemma get_app (a b : string) : String.get (String.length a) (a +:+ b) = String.get 0 b.
Proof. induction a as [|x a IH]; [done|]. exact IH. Qed.

(** A name starts with its number and a dash. *)
Lemma file_name_head id base date compress : 0 <= id < 10 ^ 8 -> exists tail, file_name_of id base date compress = fix_dec FDB_LOG_FILE_INDEX_SIZE id +:+ String "-" tail.
Proof.
  intros Hid. unfold file_name_of, fmt08. destruct (Z.ltb_spec id 0); [lia|]. destruct (Z.ltb_spec id (10 ^ 8)); [|lia].
  pose proof (fix_dec_length FDB_LOG_FILE_INDEX_SIZE id) as Hl. set (d := fix_dec _ id) in *. rewrite <- str_app_assoc.
  destruct (substring_long 1023 (d +:+ "-") (base +:+ "-" +:+ date +:+ (if compress then ".zip" else ".txt"))) as [c E]; [rewrite str_length_app, Hl; cbn; lia|].
  exists c. rewrite E, str_app_assoc. done.
Qed.
Lemma getFileIndex_name id base date compress : 0 <= id < 10 ^ 8 -> getFileIndex (file_name_of id base date compress) = id.
Proof.
  intros Hid. destruct (file_name_head id base date compress Hid) as [tail ->]. unfold getFileIndex.
  pose proof (fix_dec_length FDB_LOG_FILE_INDEX_SIZE id) as Hl. rewrite str_length_app, Hl.
  destruct (Nat.leb_spec (FDB_LOG_FILE_INDEX_SIZE + String.length (String "-" tail)) FDB_LOG_FILE_INDEX_SIZE); [cbn [String.length] in *; lia|].
  assert (String.get FDB_LOG_FILE_INDEX_SIZE (fix_dec FDB_LOG_FILE_INDEX_SIZE id +:+ String "-" tail) = Some "-"%char) as -> by (by rewrite <- Hl at 1; rewrite get_app).
  rewrite bool_decide_true by done. cbn [negb]. rewrite substring_prefix by done.
  assert (strtol 10 (fix_dec FDB_LOG_FILE_INDEX_SIZE id) = Some id) as Hs.
  { pose proof (scan_fix_dec FDB_LOG_FILE_INDEX_SIZE id 0 false EmptyString Hid) as Hsc. rewrite str_app_nil in Hsc. cbn [scan_digits] in Hsc.
    assert (exists d s, fix_dec FDB_LOG_FILE_INDEX_SIZE id = String (digit d) s /\ 0 <= d < 10) as (d & s & Ed & Hd).
    { unfold FDB_LOG_FILE_INDEX_SIZE. simpl fix_dec. eexists _, _. split; [done|]. apply Z.mod_pos_bound. lia. }
    destruct (digit_plain d Hd) as (P1 & P2 & P3 & _). unfold strtol. rewrite Ed in Hsc |- *. cbn [skip_space]. rewrite P1, P2, P3. cbn [Z.eqb]. by rewrite Hsc. }
  unfold stoi_base. rewrite Hs. cbn [mbind option_bind]. unfold INT32_MAX. rewrite !(proj2 (Z.leb_le _ _)) by lia. done.
Qed.

(** Names with smaller numbers come first. *)
Lemma str_ltb_app (p a b : string) : str_ltb (p +:+ a) (p +:+ b) = str_ltb a b.
Proof. induction p as [|x p IH]; [done|]. change (str_ltb (String x (p +:+ a)) (String x (p +:+ b)) = str_ltb a b). cbn [str_ltb]. by rewrite Z.ltb_irrefl. Qed.
Lemma fix_dec_ltb k : forall n m a b, 0 <= n < m -> m < 10 ^ Z.of_nat k -> str_ltb (fix_dec k n +:+ a) (fix_dec k m +:+ b) = true.
Proof.
  induction k as [|k IH]; intros n m a b Hn Hm; [cbn in Hm; lia|]. rewrite Nat2Z.inj_succ, Z.pow_succ_r in Hm by lia. cbn [fix_dec]. rewrite !str_app_assoc.
  destruct (Z.lt_ge_cases (n / 10) (m / 10)) as [Hlt|Hge].
  - apply IH; [split; [apply Z.div_pos; lia|done]|apply Z.div_lt_upper_bound; lia].
  - assert (n / 10 = m / 10) as -> by (pose proof (Z.div_le_mono n m 10 ltac:(lia) ltac:(lia)); lia). rewrite str_ltb_app.
    change (str_ltb (String (digit (n mod 10)) a) (String (digit (m mod 10)) b) = true). cbn [str_ltb].
    assert (n mod 10 < m mod 10) by (pose proof (Z.div_mod n 10 ltac:(lia)); pose proof (Z.div_mod m 10 ltac:(lia)); pose proof (Z.div_le_mono n m 10 ltac:(lia) ltac:(lia)); lia).
    rewrite !digit_byte by (apply Z.mod_pos_bound; lia). destruct (Z.ltb_spec (48 + n mod 10) (48 + m mod 10)); [done|lia].
Qed.

(** ** The directory *)

(** The files of the file system with their sizes. *)
Abbreviation Disk := (gmap string Z).
Implicit Types disk : Disk.

(** [std::remove], [fopen] for writing, [fwrite]. *)
Definition fs_step disk (op : FsOp) : Disk :=
  match op with
  | FsRemove path => delete path disk
  | FsOpen path => <[path := 0]> disk
  | FsWrite path n => alter (fun size => size + n) path disk
  end.
Definition fs_run (ops : list FsOp) disk : Disk := foldl fs_step disk ops.

(** The files of a directory. *)
Definition in_dir (path name : string) : string := path +:+ "/" +:+ name.
Definition disk_of (path : string) (files : list (string * Z)) : Disk :=
  list_to_map ((fun e => (in_dir path e.1, e.2)) <$> files).

(** The name of a file in a directory; log files have a number. *)
Definition name_in (path p : string) : string := String.substring (S (String.length path)) (String.length p) p.
Definition is_log (path p : string) : bool := 0 <=? getFileIndex (name_in path p).

(** What the log files of a directory take. *)
Definition log_bytes (path : string) disk : Z :=
  map_fold (fun p size sum => if is_log path p then size + sum else sum) 0 disk.

(** The files that are opened. *)
Definition opened (ops : list FsOp) : list string :=
  omap (fun op => match op with FsOpen path => Some path | _ => None end) ops.

(** ** What the files take *)

Fixpoint total (l : list CFileInfo) : Z := match l with [] => 0 | x :: l => fi_mFileSize x + total l end.
Lemma total_app l1 l2 : total (l1 ++ l2) = total l1 + total l2.
Proof. induction l1 as [|x l1 IH]; cbn [app total]; [done|lia]. Qed.
Lemma total_nonneg l : Forall (fun x => 0 <= fi_mFileSize x) l -> 0 <= total l.
Proof. induction 1; cbn [total]; lia. Qed.

(** The oldest go, only while there is more than the bound allows. *)
Lemma remove_oldest_spec pool : forall size max_size, Forall (fun x => 0 <= fi_mFileSize x) pool -> total pool <= size -> 0 <= max_size ->
  let '(pool', size', removed) := remove_oldest pool size max_size in
  pool = removed ++ pool' /\ total pool' <= size' <= max_size /\ forall front x, removed = front ++ [x] -> max_size < size - total front.
Proof.
  induction pool as [|x pool IH]; intros size max_size Hn Ht Hm; cbn [remove_oldest].
  - destruct (Z.leb_spec size max_size); cbn [total] in *; (split; [done|split; [lia|by intros []]]).
  - destruct (Z.leb_spec size max_size); [split; [done|split; [lia|by intros []]]|]. inversion Hn as [|? ? Hx Hn']; subst. cbn [total] in Ht. pose proof (total_nonneg pool Hn').
    destruct (Z.ltb_spec (size - fi_mFileSize x) 0); [lia|]. specialize (IH (size - fi_mFileSize x) max_size Hn' ltac:(lia) Hm).
    destruct (remove_oldest pool (size - fi_mFileSize x) max_size) as [[pool' size'] removed]. destruct IH as (-> & Hs & Hf). split; [done|]. split; [done|].
    intros [|y front] z; cbn [app]; [intros _; cbn [total]; lia|]. intros [= <- E]. specialize (Hf front z E). cbn [total]. lia.
Qed.

Record lf_inv f : Prop := {
  li_sizes : Forall (fun x => 0 <= fi_mFileSize x) (lf_mFilePool f);
  li_sum : total (lf_mFilePool f) <= lf_mCurrentStorageSize f;
  li_pos : forall pos, lf_current f = Some pos -> 0 <= pos;
  li_storage : 0 < lf_mMaxStorageSize f;
  li_file : 0 < lf_mMaxFileSize f }.

(** [w]: the longest log. *)
Definition disk_ok (w : Z) f : Prop :=
  match lf_current f with
  | Some pos => total (lf_mFilePool f) <= lf_mMaxStorageSize f /\ pos < lf_mMaxFileSize f + w
  | None => total (lf_mFilePool f) < lf_mMaxStorageSize f + lf_mMaxFileSize f + w
  end.
Definition same_limits f f' : Prop := lf_mMaxStorageSize f' = lf_mMaxStorageSize f /\ lf_mMaxFileSize f' = lf_mMaxFileSize f /\ lf_mLogPath f' = lf_mLogPath f /\ lf_mCompress f' = lf_mCompress f.

Lemma sync_inv size f : lf_inv f -> 0 <= size -> lf_inv (lf_sync size f) /\ same_limits f (lf_sync size f) /\ lf_current (lf_sync size f) = None /\ lf_mFileId (lf_sync size f) = lf_mFileId f.
Proof.
  intros Hi Hs. destruct Hi as [H1 H2 H3 H4 H5]. unfold lf_sync. destruct (lf_current f) as [pos|] eqn:E; [|by repeat split; rewrite ?E]. specialize (H3 pos eq_refl).
  destruct (Z.ltb_spec 0 (if size =? 0 then pos else size)) as [Hp|Hp]; [|by repeat split].
  repeat split; try done; cbn [lf_set_current lf_set_pool lf_mFilePool lf_mCurrentStorageSize].
  - apply Forall_app. split; [done|]. repeat constructor. cbn. lia.
  - rewrite total_app. cbn [total fi_mFileSize]. lia.
Qed.
Lemma sync_disk w size f : disk_ok w f -> (lf_inv f) -> (forall pos, lf_current f = Some pos -> size = 0 \/ size = pos) -> 0 <= w -> disk_ok w (lf_sync size f).
Proof.
  intros Hd Hi Hs Hw. unfold disk_ok, lf_sync in *. destruct (lf_current f) as [pos|] eqn:E; [|by rewrite E]. destruct Hd as [Hd1 Hd2]. specialize (Hs pos eq_refl).
  assert ((if size =? 0 then pos else size) = pos) as -> by (destruct (Z.eqb_spec size 0), Hs; congruence || done).
  pose proof (li_file _ Hi). pose proof (li_storage _ Hi). destruct (Z.ltb_spec 0 pos); cbn [lf_set_current lf_set_pool lf_current lf_mFilePool lf_mMaxStorageSize lf_mMaxFileSize]; [|lia].
  rewrite total_app. cbn [total fi_mFileSize]. lia.
Qed.

(** *** The directory and the manager's table *)

(** The files the manager knows, with their sizes. *)
Definition tracked f : list (string * Z) :=
  ((fun x => (fi_mFileName x, fi_mFileSize x)) <$> lf_mFilePool f)
  ++ (match lf_current f with Some pos => [(lf_mCurrentFileName f, pos)] | None => [] end).

(** The log files on the disk are those the manager knows, empty ones apart. *)
Record on_disk f disk : Prop := {
  od_names : NoDup (tracked f).*1;
  od_index : Forall (fun x => 0 <= getFileIndex x.1 < lf_mFileId f) (tracked f);
  od_held : forall p size, disk !! p = Some size -> is_log (lf_mLogPath f) p = true ->
    size <= 0 \/ exists name, p = in_dir (lf_mLogPath f) name /\ (name, size) ∈ tracked f;
  od_current : forall pos, lf_current f = Some pos -> disk !! getAbsPath None f = Some pos }.

Lemma in_dir_inj path a b : in_dir path a = in_dir path b -> a = b.
Proof. unfold in_dir. induction path as [|x path IH]; intros E; [by injection E|]. apply IH. by injection E. Qed.

Lemma substring_all (b : string) : forall m, (String.length b <= m)%nat -> String.substring 0 m b = b.
Proof.
  induction b as [|x b IH]; intros m Hm; [by destruct m|]. destruct m as [|m]; cbn in Hm; [lia|].
  change (String x (String.substring 0 m b) = String x b). by rewrite IH by lia.
Qed.
Lemma substring_skip (a b : string) m : String.substring (String.length a) m (a +:+ b) = String.substring 0 m b.
Proof. induction a as [|x a IH]; [done|]. exact IH. Qed.
Lemma name_in_dir path name : name_in path (in_dir path name) = name.
Proof.
  unfold name_in, in_dir. rewrite <- str_app_assoc. replace (S (String.length path)) with (String.length (path +:+ "/")) by (rewrite str_length_app; cbn; lia).
  rewrite substring_skip. apply substring_all. rewrite !str_length_app. lia.
Qed.
Lemma is_log_in path name : is_log path (in_dir path name) = (0 <=? getFileIndex name).
Proof. unfold is_log. by rewrite name_in_dir. Qed.

Lemma log_bytes_insert path p size disk : disk !! p = None ->
  log_bytes path (<[p := size]> disk) = (if is_log path p then size else 0) + log_bytes path disk.
Proof.
  intros Hp. unfold log_bytes. rewrite map_fold_insert_L; [by destruct (is_log path p)|intros; repeat case_match; lia|done].
Qed.

(** What is known bounds what is there. *)
Lemma log_bytes_le path (l : list (string * Z)) : forall disk, NoDup l.*1 -> Forall (fun e => 0 <= e.2) l ->
  (forall p size, disk !! p = Some size -> is_log path p = true -> size <= 0 \/ exists name, p = in_dir path name /\ (name, size) ∈ l) ->
  log_bytes path disk <= foldr (fun e sum => e.2 + sum) 0 l.
Proof.
  induction l as [|[name n] l IH]; intros disk Hd Hn Hh.
  - cbn [foldr]. revert Hh. induction disk as [|p size disk Hp IHd] using map_ind; [done|]. intros Hh. rewrite log_bytes_insert by done.
    assert (log_bytes path disk <= 0).
    { apply IHd. intros p' size' Hp'. apply (Hh p'). rewrite lookup_insert_ne by congruence. done. }
    destruct (is_log path p) eqn:El; [|lia]. destruct (Hh p size (lookup_insert_eq _ _ _) El) as [|(? & _ & []%not_elem_of_nil)]. lia.
  - cbn [fmap list_fmap fst] in Hd. apply NoDup_cons in Hd as [Hni Hd]. apply Forall_cons in Hn as [Hn0 Hn]. cbn [snd foldr] in *.
    assert (log_bytes path (delete (in_dir path name) disk) <= foldr (fun e sum => e.2 + sum) 0 l).
    { apply IH; [done|done|]. intros p size [Hne Hp]%lookup_delete_Some Hl. destruct (Hh p size Hp Hl) as [|(x & -> & Hin)]; [by left|right].
      exists x. split; [done|]. apply elem_of_cons in Hin as [[= -> ->]|]; [done|done]. }
    destruct (disk !! in_dir path name) as [size|] eqn:E; [|rewrite delete_id in H by done; lia].
    rewrite <- (insert_delete_id disk (in_dir path name) size), log_bytes_insert by (done || by rewrite lookup_delete_eq).
    destruct (is_log path (in_dir path name)) eqn:El; [|lia]. destruct (Hh _ size E El) as [|(x & Ex & Hin)]; [lia|].
    apply in_dir_inj in Ex as <-. apply elem_of_cons in Hin as [[= ->]|Hin]; [lia|]. destruct Hni. apply list_elem_of_fmap. by exists (name, size).
Qed.

Lemma tracked_total f : foldr (fun e sum => e.2 + sum) 0 (tracked f) = total (lf_mFilePool f) + default 0 (lf_current f).
Proof.
  unfold tracked. rewrite foldr_app. generalize (lf_mFilePool f). intros l. destruct (lf_current f) as [pos|]; cbn [foldr snd default from_option Datatypes.id];
    induction l as [|x l IH]; cbn [fmap list_fmap foldr total fst snd]; try lia; rewrite IH; lia.
Qed.

Lemma on_disk_bytes f disk : on_disk f disk -> lf_inv f -> log_bytes (lf_mLogPath f) disk <= total (lf_mFilePool f) + default 0 (lf_current f).
Proof.
  intros Hd Hi. rewrite <- tracked_total. apply log_bytes_le; [apply Hd| |apply Hd]. unfold tracked. apply Forall_app. split.
  - apply Forall_fmap. eapply Forall_impl; [apply Hi|]. done.
  - destruct (lf_current f) as [pos|] eqn:E; [|constructor]. repeat constructor. by apply (li_pos _ Hi).
Qed.

Lemma sync_on_disk size f disk : on_disk f disk -> (forall pos, lf_current f = Some pos -> size = 0 \/ size = pos) -> on_disk (lf_sync size f) disk.
Proof.
  intros [N I H C] Hs. unfold lf_sync. destruct (lf_current f) as [pos|] eqn:E; [|split; rewrite ?E; done].
  replace (if size =? 0 then pos else size) with pos by (specialize (Hs pos eq_refl); destruct (Z.eqb_spec size 0); lia).
  unfold tracked in N, I, H. rewrite E in N, I, H. destruct (Z.ltb_spec 0 pos) as [Hp|Hp].
  - split; unfold tracked; cbn [lf_set_pool lf_set_current lf_mFilePool lf_current lf_mFileId lf_mLogPath]; rewrite ?app_nil_r, ?(fmap_app _ (lf_mFilePool f)); done.
  - split; unfold tracked; cbn [lf_set_pool lf_set_current lf_mFilePool lf_current lf_mFileId lf_mLogPath]; rewrite ?app_nil_r; try done.
    + rewrite fmap_app in N. by apply NoDup_app in N as [? _].
    + by apply Forall_app in I as [? _].
    + intros p n Hn Hl. destruct (H p n Hn Hl) as [|(x & -> & Hin)]; [by left|]. apply elem_of_app in Hin as [Hin|Hin]; [right; by exists x|].
      left. apply list_elem_of_singleton in Hin as [= _ ->]. done.
Qed.

Lemma fs_run_app ops1 ops2 disk : fs_run (ops1 ++ ops2) disk = fs_run ops2 (fs_run ops1 disk).
Proof. apply foldl_app. Qed.
Lemma opened_app ops1 ops2 : opened (ops1 ++ ops2) = opened ops1 ++ opened ops2.
Proof. apply omap_app. Qed.

Lemma fs_run_remove (names : list string) p : forall disk,
  fs_run (FsRemove <$> names) disk !! p = if decide (p ∈ names) then None else disk !! p.
Proof.
  induction names as [|n names IH]; intros disk; [by rewrite decide_False by apply not_elem_of_nil|].
  change (fs_run (FsRemove <$> names) (delete n disk) !! p = if decide (p ∈ n :: names) then None else disk !! p). rewrite IH.
  destruct (decide (p = n)) as [->|Hne].
  - rewrite (decide_True (P := n ∈ n :: names)) by left. case_decide; [done|]. by rewrite lookup_delete_eq.
  - rewrite lookup_delete_ne by done. destruct (decide (p ∈ names)); [by rewrite decide_True by (by right)|].
    rewrite decide_False; [done|]. by intros [|]%elem_of_cons.
Qed.

(** An operation as the directory sees it. *)
Record fs_moved f disk f' (done : list FsOp) : Prop := {
  mv_disk : on_disk f' (fs_run done disk);
  mv_path : lf_mLogPath f' = lf_mLogPath f;
  mv_others : forall p, is_log (lf_mLogPath f) p = false -> fs_run done disk !! p = disk !! p;
  mv_opened : (opened done = [] /\ lf_mFileId f' = lf_mFileId f) \/
    exists name, opened done = [in_dir (lf_mLogPath f) name] /\ getFileIndex name = lf_mFileId f /\ lf_mFileId f' = lf_mFileId f + 1 }.

Lemma fs_moved_trans f0 disk f1 d1 f2 d2 : fs_moved f0 disk f1 d1 -> opened d1 = [] -> lf_mFileId f1 = lf_mFileId f0 ->
  fs_moved f1 (fs_run d1 disk) f2 d2 -> fs_moved f0 disk f2 (d1 ++ d2).
Proof.
  intros [M1 P1 O1 N1] Ho Hid [M2 P2 O2 N2]. split; rewrite ?fs_run_app, ?opened_app; [done|congruence| |rewrite Ho, <- Hid, <- P1; exact N2].
  intros p Hp. rewrite O2 by congruence. by apply O1.
Qed.
Lemma fs_moved_quiet f disk f' : on_disk f' disk -> lf_mLogPath f' = lf_mLogPath f -> lf_mFileId f' = lf_mFileId f -> fs_moved f disk f' [].
Proof. intros. split; try done. by left. Qed.

Lemma sync_moved size f disk : on_disk f disk -> (forall pos, lf_current f = Some pos -> size = 0 \/ size = pos) -> fs_moved f disk (lf_sync size f) [].
Proof.
  intros H Hs. apply fs_moved_quiet; [by apply sync_on_disk| |]; unfold lf_sync; destruct (lf_current f); try done; by destruct (0 <? _).
Qed.

Lemma remove_moved f disk : on_disk f disk -> lf_inv f -> lf_current f = None -> let '(f', done) := removeOldestLog f in fs_moved f disk f' done /\ opened done = [].
Proof.
  intros Hd Hi Hc. unfold removeOldestLog.
  pose proof (remove_oldest_spec (lf_mFilePool f) (lf_mCurrentStorageSize f) (lf_mMaxStorageSize f) (li_sizes _ Hi) (li_sum _ Hi) ltac:(pose proof (li_storage _ Hi); lia)) as Hr.
  destruct (remove_oldest _ _ _) as [[pool size] removed]. destruct Hr as (Ep & _).
  set (gone := (fun x => in_dir (lf_mLogPath f) (fi_mFileName x)) <$> removed).
  assert (((fun x => FsRemove (getAbsPath (Some (fi_mFileName x)) f)) <$> removed) = FsRemove <$> gone) as -> by (unfold gone; by rewrite <- list_fmap_compose).
  assert (opened (FsRemove <$> gone) = []) as Ho by (by induction gone). destruct Hd as [N I H C]. unfold tracked in *. rewrite Hc, Ep, app_nil_r, fmap_app in *.
  split; [split|done]; cbn [lf_set_pool lf_mLogPath lf_mFileId]; [|done| |by left].
  - rewrite fmap_app in N. apply NoDup_app in N as (_ & N1 & N2). apply Forall_app in I as [_ I].
    split; unfold tracked; cbn [lf_set_pool lf_mLogPath lf_mFileId lf_current lf_mFilePool]; rewrite ?Hc, ?app_nil_r; try done.
    intros p n. rewrite fs_run_remove. case_decide as Hp; [done|]. intros Hn Hl. destruct (H p n Hn Hl) as [|(x & -> & Hin)]; [by left|right].
    exists x. split; [done|]. apply elem_of_app in Hin as [Hin|]; [|done]. destruct Hp. apply list_elem_of_fmap in Hin as (y & [= -> ->] & Hy).
    apply list_elem_of_fmap. by exists y.
  - intros p Hl. rewrite fs_run_remove. case_decide as Hp; [|done]. apply list_elem_of_fmap in Hp as (y & -> & Hy). rewrite is_log_in in Hl. apply Z.leb_gt in Hl.
    apply Forall_app in I as [I _]. rewrite Forall_fmap, Forall_forall in I. specialize (I y Hy). cbn in I. lia.
Qed.

Lemma write_moved n pos f disk : on_disk f disk -> lf_current f = Some pos ->
  fs_moved f disk (lf_set_current (Some (pos + n)) f) [FsWrite (getAbsPath None f) n].
Proof.
  intros [N I H C] Hc. pose proof (C pos Hc) as Hp. unfold tracked in *. rewrite Hc in *.
  assert (0 <= getFileIndex (lf_mCurrentFileName f) < lf_mFileId f) as Hid by (apply Forall_app in I as [_ I]; by inversion I).
  change (getAbsPath None f) with (in_dir (lf_mLogPath f) (lf_mCurrentFileName f)) in *. split; [|done| |by left].
  - split; unfold tracked; cbn [lf_set_current lf_current lf_mFilePool lf_mCurrentFileName lf_mFileId lf_mLogPath]; [by rewrite fmap_app in *| | |].
    + apply Forall_app in I as [I _]. apply Forall_app. split; [done|]. by apply Forall_singleton.
    + intros p m. cbn [fs_run foldl fs_step]. destruct (decide (p = in_dir (lf_mLogPath f) (lf_mCurrentFileName f))) as [->|Hne].
      * rewrite lookup_alter_eq, Hp. intros [= <-] _. right. eexists. split; [done|]. apply elem_of_app. right. by apply list_elem_of_singleton.
      * rewrite lookup_alter_ne by done. intros Hm Hl. destruct (H p m Hm Hl) as [|(x & -> & Hin)]; [by left|right].
        exists x. split; [done|]. apply elem_of_app in Hin as [Hin|Hin]; [apply elem_of_app; by left|]. apply list_elem_of_singleton in Hin as [= -> ->]. done.
    + intros m [= <-]. change (getAbsPath None _) with (in_dir (lf_mLogPath f) (lf_mCurrentFileName f)). cbn [fs_run foldl fs_step]. by rewrite lookup_alter_eq, Hp.
  - intros p Hl. cbn [fs_run foldl fs_step]. apply lookup_alter_ne. intros <-. rewrite is_log_in in Hl. apply Z.leb_gt in Hl. lia.
Qed.

Section run.
Variable date : Z -> string.
Variable opens : string -> bool.
Hypothesis writable : forall path, opens path = true.

(** The directory can be written to: the next name is opened at once. *)
Lemma open_next_ok fuel f : open_next date opens (S fuel) f = Some (lf_set_current (Some 0) (nextFileName date f)).
Proof. cbn [open_next]. by rewrite writable. Qed.

Lemma open_moved f disk : on_disk f disk -> lf_current f = None -> lf_mCompress f = false -> 0 <= lf_mFileId f < 10 ^ 8 ->
  fs_moved f disk (lf_set_current (Some 0) (nextFileName date f)) [FsOpen (getAbsPath None (nextFileName date f))].
Proof.
  intros [N I H C] Hc Hz Hid. unfold tracked in *. rewrite Hc, app_nil_r in *.
  set (name := file_name_of (lf_mFileId f) (lf_mBaseName f) (date (lf_mFileId f)) (lf_mCompress f)).
  assert (getFileIndex name = lf_mFileId f) as Hn by (by apply getFileIndex_name).
  assert (i32 (lf_mFileId f + 1) = lf_mFileId f + 1) as Hid' by (apply wrap_s_small; unfold in_s; lia).
  change (getAbsPath None (nextFileName date f)) with (in_dir (lf_mLogPath f) name). split; [|done| |right; by exists name].
  - split; unfold tracked; cbn [nextFileName lf_set_current lf_current lf_mFilePool lf_mCurrentFileName lf_mFileId lf_mLogPath]; rewrite ?Hid'; fold name.
    + rewrite fmap_app. apply NoDup_app. split; [done|]. split; [|apply NoDup_singleton]. intros x Hx Hin. apply list_elem_of_singleton in Hin as ->.
      apply list_elem_of_fmap in Hx as (e & E & He). rewrite Forall_forall in I. specialize (I e He). cbn in E. rewrite <- E in I. lia.
    + apply Forall_app. split; [eapply Forall_impl; [exact I|]; cbn beta; lia|]. apply Forall_singleton. cbn [fst]. lia.
    + intros p m. cbn [fs_run foldl fs_step]. destruct (decide (p = in_dir (lf_mLogPath f) name)) as [->|Hne].
      * rewrite lookup_insert_eq. intros [= <-]. by left.
      * rewrite lookup_insert_ne by done. intros Hm Hl. destruct (H p m Hm Hl) as [|(x & -> & Hin)]; [by left|right].
        exists x. split; [done|]. apply elem_of_app. by left.
    + intros m [= <-]. cbn [fs_run foldl fs_step]. apply lookup_insert_eq.
  - intros p Hl. cbn [fs_run foldl fs_step]. apply lookup_insert_ne. intros <-. rewrite is_log_in in Hl. apply Z.leb_gt in Hl. lia.
Qed.

Lemma check_moved fuel f disk f' done : lf_inv f -> on_disk f disk -> lf_mCompress f = false -> 0 <= lf_mFileId f < 10 ^ 8 ->
  checkFileSize date opens (S fuel) f = Some (f', done) -> fs_moved f disk f' done.
Proof.
  intros Hi Hd Hz Hid. unfold checkFileSize, checkFileSizeUncomp. rewrite Hz.
  set (f1 := match lf_current f with Some pos => if lf_mMaxFileSize f <=? pos then lf_sync pos f else f | None => f end).
  assert (fs_moved f disk f1 [] /\ lf_inv f1 /\ lf_mCompress f1 = false /\ lf_mFileId f1 = lf_mFileId f) as (M1 & I1 & Z1 & E1).
  { unfold f1. destruct (lf_current f) as [pos|] eqn:E; [|split_and!; try done; by apply fs_moved_quiet].
    destruct (lf_mMaxFileSize f <=? pos); [|split_and!; try done; by apply fs_moved_quiet].
    pose proof (li_pos _ Hi pos E). destruct (sync_inv pos f Hi ltac:(done)) as (I & (_ & _ & _ & L) & _ & N). split_and!; [|done|congruence|done].
    apply sync_moved; [done|]. intros p Hp. right. congruence. }
  destruct (lf_current f1) as [pos|] eqn:E; [intros [= <- <-]; exact M1|].
  pose proof (remove_moved f1 disk (mv_disk _ _ _ _ M1) I1 E) as Hr. destruct (removeOldestLog f1) as [f2 removed] eqn:Er. destruct Hr as [M2 O2].
  assert (lf_current f2 = None /\ lf_mCompress f2 = false /\ lf_mFileId f2 = lf_mFileId f1) as (C2 & Z2 & E2).
  { unfold removeOldestLog in Er. destruct (remove_oldest _ _ _) as [[? ?] ?]. injection Er as <- _. done. }
  rewrite open_next_ok. cbn [mbind option_bind]. intros [= <- <-]. change (removed ++ _) with ([] ++ (removed ++ [FsOpen (getAbsPath None (nextFileName date f2))])).
  apply (fs_moved_trans _ _ f1); [done|done|done|]. apply (fs_moved_trans _ _ f2); [done|done|done|]. apply open_moved; [apply M2|done|done|lia].
Qed.


(** Before a log is written there is an open file that is not full yet. *)
Lemma check_spec fuel f : lf_inv f -> lf_mCompress f = false ->
  exists f' removed pos, checkFileSize date opens (S fuel) f = Some (f', removed) /\ lf_inv f' /\ same_limits f f' /\ lf_mStop f' = lf_mStop f /\
    lf_current f' = Some pos /\ pos < lf_mMaxFileSize f' /\
    (f' = f \/
     (total (lf_mFilePool f') <= lf_mMaxStorageSize f' /\ lf_mFileId f' = i32 (lf_mFileId f + 1) /\
      lf_mCurrentFileName f' = file_name_of (lf_mFileId f) (lf_mBaseName f) (date (lf_mFileId f)) false)).
Proof.
  intros Hi Hc. unfold checkFileSize, checkFileSizeUncomp. rewrite Hc.
  set (f1 := match lf_current f with Some pos => if lf_mMaxFileSize f <=? pos then lf_sync pos f else f | None => f end).
  assert ((exists pos, lf_current f = Some pos /\ pos < lf_mMaxFileSize f /\ f1 = f) \/
    (lf_current f1 = None /\ lf_inv f1 /\ same_limits f f1 /\ lf_mStop f1 = lf_mStop f /\ lf_mFileId f1 = lf_mFileId f /\ lf_mBaseName f1 = lf_mBaseName f)) as [(pos & E & Hp & ->)|(E & Hi1 & Hl1 & Hs1 & Hid & Hb)].
  { unfold f1. destruct (lf_current f) as [pos|] eqn:E; [|right; by split_and!]. destruct (Z.leb_spec (lf_mMaxFileSize f) pos) as [Hle|Hlt]; [right|left; by exists pos].
    destruct (sync_inv pos f Hi ltac:(pose proof (li_file _ Hi); lia)) as (I & L & C & N). split_and!; try done; unfold lf_sync; rewrite E; by destruct (0 <? _). }
  - rewrite E. exists f, [], pos. split_and!; try done. by left.
  - rewrite E. unfold removeOldestLog. pose proof (remove_oldest_spec (lf_mFilePool f1) (lf_mCurrentStorageSize f1) (lf_mMaxStorageSize f1) (li_sizes _ Hi1) (li_sum _ Hi1) ltac:(pose proof (li_storage _ Hi1); lia)) as Hr.
    destruct (remove_oldest _ _ _) as [[pool size] removed]. destruct Hr as (Ep & Hs & _). cbv beta iota zeta. rewrite open_next_ok. cbn [mbind option_bind]. destruct Hl1 as (L1 & L2 & L3 & L4).
    eexists _, _, 0. split; [done|]. cbn [lf_set_current nextFileName lf_set_pool lf_mFilePool lf_mStop lf_current lf_mMaxFileSize lf_mMaxStorageSize lf_mFileId lf_mCurrentFileName lf_mBaseName lf_mCompress].
    split_and!; try done.
    + pose proof (li_sizes _ Hi1) as Hn. rewrite Ep in Hn. apply Forall_app in Hn as [_ Hn]. split; cbn; [done|lia|by intros ? [= <-]|apply Hi1|apply Hi1].
    + pose proof (li_file _ Hi1). lia.
    + right. rewrite Hid, Hb, L4, Hc. split_and!; [lia|done|done].
Qed.

(** ** Runs *)

Inductive LfOp := OpStore (s : string) (written : Z) | OpSync | OpStop | OpStart.
Definition op_ok (w : Z) (op : LfOp) : Prop :=
  match op with OpStore s written => 0 <= written <= Z.of_nat (String.length s) /\ Z.of_nat (String.length s) <= w | _ => True end.
Definition lf_step (fuel : nat) (op : LfOp) f : option (CLogFileManager * list FsOp) :=
  match op with
  | OpStore s written => '(_, f, done) ← lf_store date opens fuel s written f; Some (f, done)
  | OpSync => Some (lf_sync 0 f, [])
  | OpStop => Some (lf_stop f, [])
  | OpStart => Some (lf_start f, [])
  end.
(** The directory, and the files that are opened, come with the state. *)
Fixpoint lf_run (fuel : nat) (ops : list LfOp) f disk : option (CLogFileManager * Disk * list string) :=
  match ops with
  | [] => Some (f, disk, [])
  | op :: ops =>
      '(f, done) ← lf_step fuel op f;
      '(f, disk, names) ← lf_run fuel ops f (fs_run done disk);
      Some (f, disk, opened done ++ names)
  end.

Lemma step_moved fuel op f disk f' done : lf_inv f -> on_disk f disk -> lf_mCompress f = false -> 0 <= lf_mFileId f < 10 ^ 8 ->
  lf_step (S fuel) op f = Some (f', done) -> fs_moved f disk f' done.
Proof.
  intros Hi Hd Hz Hid. destruct op as [s written| | |]; cbn [lf_step].
  - unfold lf_store. destruct (_ || _ || _); [intros [= <- <-]; by apply fs_moved_quiet|].
    destruct (checkFileSize date opens (S fuel) f) as [[f1 d1]|] eqn:E; [|done]. apply (check_moved fuel f disk f1 d1 Hi Hd Hz Hid) in E as M.
    cbn [mbind option_bind]. destruct (lf_current f1) as [pos|] eqn:Ec; cbn [mbind option_bind]; intros [= <- <-]; [|exact M].
    pose proof (write_moved written pos f1 _ (mv_disk _ _ _ _ M) Ec) as [W1 W2 W3 W4]. destruct M as [M1 M2 M3 M4].
    split; rewrite ?fs_run_app, ?opened_app; [done|done| |change (opened [FsWrite _ written]) with (@nil string); by rewrite app_nil_r].
    intros p Hp. rewrite W3 by congruence. by apply M3.
  - intros [= <- <-]. apply sync_moved; [done|]. by left.
  - intros [= <- <-]. destruct (sync_moved 0 f disk Hd ltac:(by left)) as [[N I H C] M2 M3 M4]. split; [split; [exact N|exact I|exact H|exact C]|exact M2|exact M3|exact M4].
  - intros [= <- <-]. destruct Hd as [N I H C]. apply fs_moved_quiet; [split; [exact N|exact I|exact H|exact C]|done|done].
Qed.

(** One step: the disk stays bounded, and a file that is opened gets the next number. *)
Definition numbered f f' : Prop :=
  lf_mFileId f' = lf_mFileId f \/ (lf_mFileId f' = i32 (lf_mFileId f + 1) /\ lf_mCurrentFileName f' = file_name_of (lf_mFileId f) (lf_mBaseName f) (date (lf_mFileId f)) false).

Lemma lf_store_spec fuel w s written f : lf_inv f -> lf_mCompress f = false -> op_ok w (OpStore s written) ->
  exists b f' removed, lf_store date opens (S fuel) s written f = Some (b, f', removed) /\ lf_inv f' /\ same_limits f f' /\ lf_mStop f' = lf_mStop f /\ numbered f f' /\
    (disk_ok w f -> disk_ok w f') /\
    (lf_current f = None -> lf_mStop f = false -> is_empty_str (lf_mLogPath f) = false -> is_empty_str s = false -> disk_ok w f').
Proof.
  intros Hi Hc [Hw Hl]. unfold lf_store. destruct (lf_mStop f) eqn:E1, (is_empty_str (lf_mLogPath f)) eqn:E2, (is_empty_str s) eqn:E3; cbn [orb]; try (eexists _, _, _; split; [done|]; split_and!; [done|done|done|by left|done|done]).
  destruct (check_spec fuel f Hi Hc) as (f1 & removed & pos & -> & Hi1 & L1 & S1 & C1 & P1 & Hcase). cbn [mbind option_bind]. rewrite C1. eexists _, _, _. split; [done|].
  assert (0 <= pos) as Hpos by (by apply (li_pos _ Hi1)).
  split_and!; [|done|exact (eq_trans S1 E1)| | |].
  - destruct Hi1 as [I1 I2 I3 I4 I5]. split; try done. intros p [= <-]. lia.
  - destruct Hcase as [->|(_ & Hid & Hn)]; [by left|by right].
  - unfold disk_ok. cbn [lf_set_current lf_current lf_mFilePool lf_mMaxStorageSize lf_mMaxFileSize]. intros Hd. split; [|lia]. destruct Hcase as [->|(Ht & _)]; [|done]. by rewrite C1 in Hd; destruct Hd.
  - intros Hnone _ _ _. unfold disk_ok. cbn [lf_set_current lf_current lf_mFilePool lf_mMaxStorageSize lf_mMaxFileSize]. destruct Hcase as [->|(Ht & _)]; [congruence|]. split; [done|lia].
Qed.

Lemma lf_step_spec fuel w op f : lf_inv f -> lf_mCompress f = false -> op_ok w op -> 0 <= w ->
  exists f' done, lf_step (S fuel) op f = Some (f', done) /\ lf_inv f' /\ same_limits f f' /\ numbered f f' /\ (disk_ok w f -> disk_ok w f').
Proof.
  intros Hi Hc Ho Hw. destruct op as [s written| | |]; cbn [lf_step].
  - destruct (lf_store_spec fuel w s written f Hi Hc Ho) as (b & f' & removed & -> & I & L & _ & N & D & _). cbn [mbind option_bind]. by eexists _, _.
  - destruct (sync_inv 0 f Hi ltac:(lia)) as (I & L & C & N). eexists _, _. split_and!; [done|done|done|by left|]. intros Hd. apply sync_disk; [done|done|by left|done].
  - destruct (sync_inv 0 f Hi ltac:(lia)) as (I & L & C & N). eexists _, _. split; [done|]. split_and!; [by destruct I|done|by left|]. intros Hd. apply (sync_disk w 0 f Hd Hi); [by left|done].
  - eexists _, _. split; [done|]. split_and!; [by destruct Hi|done|by left|done].
Qed.

(** [first]: the first number the files that are opened may have. *)
Definition fresh_names (path : string) (first : Z) (names : list string) : Prop :=
  NoDup names /\ Forall (fun p => exists name, p = in_dir path name /\ first <= getFileIndex name) names.

Lemma lf_run_spec fuel w ops : forall f disk, lf_inv f -> on_disk f disk -> lf_mCompress f = false -> Forall (op_ok w) ops -> 0 <= w ->
  0 <= lf_mFileId f -> lf_mFileId f + Z.of_nat (length ops) < 10 ^ 8 ->
  exists f' disk' names, lf_run (S fuel) ops f disk = Some (f', disk', names) /\ lf_inv f' /\ on_disk f' disk' /\ same_limits f f' /\ (disk_ok w f -> disk_ok w f') /\
    fresh_names (lf_mLogPath f) (lf_mFileId f) names /\ (forall p, is_log (lf_mLogPath f) p = false -> disk' !! p = disk !! p).
Proof.
  induction ops as [|op ops IH]; intros f disk Hi Hd Hc Ho Hw Hid Hb; cbn [lf_run]; [exists f, disk, []; split_and!; try done; split; constructor|].
  inversion Ho as [|? ? Ho1 Ho2]; subst. cbn [length] in Hb. destruct (lf_step_spec fuel w op f Hi Hc Ho1 Hw) as (f1 & d1 & E1 & I1 & (L1 & L2 & L3 & L4) & _ & D1).
  destruct (step_moved fuel op f disk f1 d1 Hi Hd Hc ltac:(lia) E1) as [M1 P1 O1 N1]. rewrite E1. cbn [mbind option_bind].
  destruct (IH f1 (fs_run d1 disk)) as (f2 & disk2 & names & -> & I2 & K2 & (Q1 & Q2 & Q3 & Q4) & D2 & [U2 F2] & R2);
    [done|done|congruence|done|done|destruct N1 as [[_ ->]|(? & _ & _ & ->)]; lia|destruct N1 as [[_ ->]|(? & _ & _ & ->)]; lia|].
  eexists _, _, _. split; [done|]. split_and!; [done|done|repeat split; congruence|by auto| |intros p Hp; rewrite R2 by congruence; by apply O1].
  rewrite P1 in F2. destruct N1 as [[-> N1]|(name & -> & N1 & N2)]; [rewrite N1 in F2; by split|]. split; cbn [app].
  - apply NoDup_cons. split; [|done]. intros Hin. apply (proj1 (Forall_forall _ _) F2) in Hin as (x & Ex & Hx). apply in_dir_inj in Ex as <-. lia.
  - constructor; [exists name; split; [done|lia]|]. eapply Forall_impl; [exact F2|]. intros p (x & -> & Hx). exists x. split; [done|lia].
Qed.
End run.

(** ** A new manager *)

Lemma insert_perm x l : insert_file x l ≡ₚ x :: l.
Proof. induction l as [|y l IH]; [done|]. cbn [insert_file]. destruct (compareAsc x y); [done|]. rewrite IH. apply Permutation_swap. Qed.
Lemma sort_perm l : sort_files l ≡ₚ l.
Proof. induction l as [|x l IH]; [done|]. change (sort_files (x :: l)) with (insert_file x (sort_files l)). by rewrite insert_perm, IH. Qed.
Lemma total_perm l1 l2 : l1 ≡ₚ l2 -> total l1 = total l2.
Proof. induction 1; cbn [total]; lia. Qed.

Definition listing_ok (l : list (string * option Z)) : Prop := Forall (fun e => forall size, e.2 = Some size -> 0 <= size) l.
Lemma addFile_inv name size f : lf_inv f -> (forall n, size = Some n -> 0 <= n) ->
  lf_inv (addFile name size f) /\ same_limits f (addFile name size f) /\ lf_current (addFile name size f) = lf_current f /\ lf_mFileId f <= lf_mFileId (addFile name size f) /\
  lf_mFileId (addFile name size f) <= Z.max (lf_mFileId f) (getFileIndex name) /\
  (is_Some size -> String.eqb name "." || String.eqb name ".." = false -> getFileIndex name <= Z.max (-1) (lf_mFileId (addFile name size f))).
Proof.
  intros [H1 H2 H3 H4 H5] Hs. unfold addFile. destruct (String.eqb name "." || String.eqb name ".."); [by split_and!; [split| | |lia|lia|]|]. destruct size as [n|]; [|by split_and!; [split| | |lia|lia|intros [? [=]]]].
  specialize (Hs n eq_refl). destruct (Z.ltb_spec (getFileIndex name) 0).
  - split_and!; try done; cbn [lf_set_pool lf_mFileId]; try lia. split; try done. cbn. lia.
  - destruct (Z.ltb_spec (lf_mFileId (lf_set_pool (lf_mFilePool f) (lf_mCurrentStorageSize f + n) f)) (getFileIndex name)) as [Hlt|Hge]; cbn [lf_set_pool lf_mFileId] in *; split_and!; try done;
      cbn [lf_set_pool lf_set_id lf_mFileId]; try lia; split; try done; cbn; [apply Forall_app; split; [done|by repeat constructor]|rewrite total_app; cbn; lia|apply Forall_app; split; [done|by repeat constructor]|rewrite total_app; cbn; lia].
Qed.

Lemma add_all_inv l : forall f, lf_inv f -> listing_ok l -> -1 <= lf_mFileId f ->
  let f' := foldl (fun f '(name, size) => addFile name size f) f l in
  lf_inv f' /\ same_limits f f' /\ lf_current f' = lf_current f /\ lf_mFileId f <= lf_mFileId f' /\
  (forall b, lf_mFileId f <= b -> Forall (fun e => getFileIndex e.1 <= b) l -> lf_mFileId f' <= b) /\
  Forall (fun e => is_Some e.2 -> String.eqb e.1 "." || String.eqb e.1 ".." = false -> getFileIndex e.1 <= lf_mFileId f') l.
Proof.
  induction l as [|[name size] l IH]; intros f Hi Hl Hid; cbn [foldl]; [split_and!; done || lia || constructor|].
  inversion Hl as [|? ? Hs Hl']; subst. destruct (addFile_inv name size f Hi Hs) as (I1 & (A1 & A2 & A3 & A4) & C1 & M1 & B1 & N1).
  destruct (IH (addFile name size f) I1 Hl' ltac:(lia)) as (I2 & (B2 & B3 & B4 & B5) & C2 & M2 & B6 & N2). split_and!; [done|repeat split; congruence|congruence|lia| |].
  - intros b Hb Hf. inversion Hf as [|? ? Hf1 Hf2]; subst. cbn [fst] in Hf1. apply B6; [lia|done].
  - constructor; [|done]. cbn [fst snd]. intros Hsz Hd. specialize (N1 Hsz Hd). lia.
Qed.

(** What reading a directory and asking for the sizes gives. *)
Definition listing (files : list (string * Z)) : list (string * option Z) := (fun e => (e.1, Some e.2)) <$> files.
Definition log_files (files : list (string * Z)) : list CFileInfo :=
  (fun e => mkFileInfo e.1 e.2) <$> filter (fun e => 0 <= getFileIndex e.1) files.

Lemma add_pool files : forall f, lf_mFilePool (foldl (fun f '(name, size) => addFile name size f) f (listing files)) = lf_mFilePool f ++ log_files files.
Proof.
  induction files as [|[name size] files IH]; intros f; [by rewrite app_nil_r|]. unfold listing in *. cbn [fmap list_fmap foldl fst snd]. rewrite IH.
  unfold log_files. rewrite filter_cons. cbn [fst]. unfold addFile. destruct (String.eqb name "." || String.eqb name "..") eqn:E.
  { rewrite decide_False; [done|]. apply orb_true_iff in E as [->%String.eqb_eq| ->%String.eqb_eq]; vm_compute; by intros []. }
  destruct (Z.ltb_spec (getFileIndex name) 0); [rewrite decide_False by lia; done|]. rewrite decide_True by lia.
  destruct (_ <? getFileIndex name); cbn [lf_set_pool lf_set_id lf_mFilePool]; by rewrite <- app_assoc.
Qed.

Lemma disk_of_lookup path files p size : disk_of path files !! p = Some size -> exists e, e ∈ files /\ p = in_dir path e.1 /\ size = e.2.
Proof. intros H%elem_of_list_to_map_2%list_elem_of_fmap. destruct H as (e & [= -> ->] & He). by exists e. Qed.

Lemma new_on_disk path files f : lf_mLogPath f = path -> lf_mFilePool f = sort_files (log_files files) -> lf_current f = None -> NoDup files.*1 ->
  Forall (fun e => getFileIndex e.1 < lf_mFileId f) files -> on_disk f (disk_of path files).
Proof.
  intros Hp Hf Hc Hn Hi. assert (tracked f ≡ₚ filter (fun e => 0 <= getFileIndex e.1) files) as Ht.
  { unfold tracked. rewrite Hc, Hf, app_nil_r, sort_perm. unfold log_files. rewrite <- list_fmap_compose.
    rewrite (list_fmap_ext _ Datatypes.id); [by rewrite list_fmap_id|]. by intros ? [] _. }
  split.
  - rewrite Ht. eapply sublist_NoDup; [exact Hn|]. apply fmap_sublist, sublist_filter.
  - rewrite Ht. apply Forall_forall. intros e He%list_elem_of_filter. destruct He as [He Hin]. rewrite Forall_forall in Hi. specialize (Hi e Hin). cbn in Hi. lia.
  - rewrite Hp. intros p size Hs Hl. apply disk_of_lookup in Hs as (e & He & -> & ->). right. exists e.1. split; [done|]. rewrite Ht.
    rewrite is_log_in in Hl. apply Z.leb_le in Hl. apply list_elem_of_filter. split; [done|]. by destruct e.
  - intros pos. by rewrite Hc.
Qed.

(** C40: A log manager started on any directory, without compression and with any limit for the
    whole larger than that for one file: as long as files can be opened, every sequence of logs,
    stops and starts is dealt with, and from the first log on the log files in the directory take
    less than the limit and one log of the longest length together, those included that were there
    before. No file is opened that was in the directory or that was opened before, and the files
    that are not log files are left alone. Names have eight digits: there are less than 10^7 logs,
    and the numbers in the directory leave room for them. *)
Theorem log_disk_bounded {I : Indet} (date : Z -> string) (opens : string -> bool) (fuel : nat) (path base : string) (max_total max_file w : Z) (files : list (string * Z)) (s : string) (n : Z) (ops : list LfOp) :
  (forall path, opens path = true) -> is_empty_str (c_str path) = false -> 0 < max_file < max_total -> NoDup files.*1 -> Forall (fun e => 0 <= e.2) files ->
  is_empty_str s = false -> Forall (op_ok w) (OpStore s n :: ops) ->
  Forall (fun e => getFileIndex e.1 <= 10 ^ 8 - 3 - Z.of_nat (length ops)) files -> Z.of_nat (length ops) < 10 ^ 7 ->
  let before := disk_of (c_str path) files in
  exists f disk names,
    lf_run date opens (S fuel) (OpStore s n :: ops) (CLogFileManager_new (Some path) (Some base) max_total max_file false (Some (listing files))) before = Some (f, disk, names) /\
    log_bytes (c_str path) disk < max_total + w /\ NoDup names /\ Forall (fun p => before !! p = None) names /\
    forall p, is_log (c_str path) p = false -> disk !! p = before !! p.
Proof.
  intros Hop Hp Hm Hnd Hl Hs Ho Hidx Hops before. unfold CLogFileManager_new, setStorageSize. cbn [lf_mCompress].
  assert (max_total =? 0 = false /\ max_file =? 0 = false /\ max_total <=? max_file = false) as (-> & -> & ->) by lia.
  cbn [lf_mLogPath default from_option Datatypes.id andb negb]. rewrite Hp. cbn [negb]. unfold scanDir. cbn [lf_mLogPath]. rewrite Hp. cbn [snd].
  set (f00 := mkLogFiles _ _ _ _ _ _ _ _ _ _ _).
  assert (listing_ok (listing files)) as Hlo.
  { apply Forall_fmap. eapply Forall_impl; [exact Hl|]. intros [name size] Hz sz [= <-]. exact Hz. }
  destruct (add_all_inv (listing files) f00) as (Hi & (L1 & L2 & L3 & L4) & C & M & B & N); [split; cbn; try done; lia|done|cbn; lia|].
  pose proof (add_pool files f00) as Hpool.
  set (f1 := foldl _ f00 (listing files)) in *. cbn [f00 lf_mFilePool lf_mFileId lf_mMaxStorageSize lf_mMaxFileSize lf_mLogPath lf_mCompress lf_current] in *. cbn [app] in Hpool.
  specialize (B (10 ^ 8 - 3 - Z.of_nat (length ops)) ltac:(lia) ltac:(by apply Forall_fmap)). set (f2 := lf_set_stop false _).
  assert (lf_mFileId f2 = lf_mFileId f1 + 1) as Hid2 by (cbn; apply wrap_s_small; unfold in_s; lia).
  assert (lf_inv f2) as I2.
  { destruct Hi as [I1 I2 I3 I4 I5]. split; cbn; try done; [by rewrite sort_perm|by rewrite (total_perm _ _ (sort_perm _))]. }
  assert (Forall (fun e => getFileIndex e.1 < lf_mFileId f2) files) as Hbelow.
  { rewrite Hid2. apply Forall_forall. intros e He. unfold listing in N. rewrite Forall_fmap, Forall_forall in N. specialize (N e He (mk_is_Some _ _ eq_refl)). cbn [fst compose] in N.
    destruct (String.eqb e.1 "." || String.eqb e.1 "..") eqn:Ed; [|specialize (N eq_refl); lia].
    apply orb_true_iff in Ed as [->%String.eqb_eq| ->%String.eqb_eq]; cbn [getFileIndex String.length Nat.leb FDB_LOG_FILE_INDEX_SIZE]; lia. }
  assert (on_disk f2 before) as D2 by (apply new_on_disk; [exact L3|cbn; by rewrite Hpool|exact C|done|done]).
  apply Forall_cons in Ho as [Ho1 Ho2]. assert (0 <= w) as Hw by (destruct Ho1; lia).
  destruct (lf_store_spec date opens Hop fuel w s n f2 I2 L4 Ho1) as (b & f3 & d3 & E3 & I3 & (P1 & P2 & P3 & P4) & _ & Nu & _ & D).
  specialize (D C eq_refl ltac:(cbn; by rewrite L3, Hp) Hs).
  destruct (lf_run_spec date opens Hop fuel w (OpStore s n :: ops) f2 before I2 D2 L4 ltac:(by constructor) Hw) as (f & disk & names & E & If & Df & (K1 & K2 & K3 & K4) & _ & [U F] & R); [lia|cbn [length]; lia|].
  pose proof (step_moved date opens Hop fuel (OpStore s n) f2 before f3 d3 I2 D2 L4 ltac:(lia) ltac:(cbn [lf_step]; by rewrite E3)) as M3.
  change (lf_mLogPath f2) with (lf_mLogPath f1) in F, R, K3. exists f, disk, names. split; [done|]. rewrite L3 in F, R. split_and!; [|done| |done].
  - cbn [lf_run lf_step] in E. rewrite E3 in E. cbn [mbind option_bind] in E.
    destruct (lf_run_spec date opens Hop fuel w ops f3 (fs_run d3 before) I3 (mv_disk _ _ _ _ M3)) as (f' & disk' & names' & E' & _ & _ & _ & D' & _); [exact (eq_trans P4 L4)|done|done| | |].
    + destruct (mv_opened _ _ _ _ M3) as [[_ ->]|(? & _ & _ & ->)]; lia.
    + destruct (mv_opened _ _ _ _ M3) as [[_ ->]|(? & _ & _ & ->)]; lia.
    + rewrite E' in E. cbn [mbind option_bind] in E. injection E as <- _ _. specialize (D' D). pose proof (on_disk_bytes _ _ Df If) as Hb. rewrite K3, L3 in Hb.
      unfold disk_ok in *. cbn in K1, K2. rewrite K1, K2, L1, L2 in D'. destruct (lf_current f') as [pos|]; cbn [default from_option Datatypes.id] in *; lia.
  - eapply Forall_impl; [exact F|]. intros p (name & -> & Hname). destruct (before !! in_dir (c_str path) name) as [size|] eqn:Eb; [|done].
    apply disk_of_lookup in Eb as (e & He & Ee & _). apply in_dir_inj in Ee as ->. rewrite Forall_forall in Hbelow. specialize (Hbelow e He). cbv beta in Hbelow. lia.
Qed.

Definition demo_files : list (string * Z) := [("00000004-a.txt", 9); ("notes", 300); ("00000002-b.txt", 9)]%string.
Lemma log_disk_bounded_witness : exists f disk names,
  lf_run (fun _ => "2024-01-01"%string) (fun _ => true) 1 [OpStore "0123456789" 10; OpStore "01234" 5; OpStop; OpStart; OpStore "x" 1]
    (CLogFileManager_new (I := 7) (Some "/log"%string) (Some "fdbus"%string) 20 8 false (Some (listing demo_files))) (disk_of "/log" demo_files) = Some (f, disk, names) /\
  log_bytes "/log" disk < 20 + 10 /\ NoDup names /\ Forall (fun p => disk_of "/log" demo_files !! p = None) names /\
  forall p, is_log "/log" p = false -> disk !! p = disk_of "/log" demo_files !! p.
Proof.
  apply (log_disk_bounded (I := 7) (fun _ => "2024-01-01"%string) (fun _ => true) 0 "/log" "fdbus" 20 8 10); try done; try lia.
  - by apply (bool_decide_unpack _); vm_compute.
  - by apply (bool_decide_unpack _); vm_compute.
  - repeat (apply Forall_cons; split; [cbn; lia || done|]). by apply Forall_nil.
  - by apply (bool_decide_unpack _); vm_compute.
Defined.

(** The two old log files are removed, the notes stay. *)
Example demo_disk : exists f names,
  lf_run (fun _ => "d"%string) (fun _ => true) 1 [OpStore "0123456789" 10; OpStore "01234" 5]
    (CLogFileManager_new (I := 7) (Some "/log"%string) (Some "b"%string) 20 8 false (Some (listing demo_files))) (disk_of "/log" demo_files)
  = Some (f, list_to_map [("/log/notes", 300); ("/log/00000005-b-d.txt", 10); ("/log/00000006-b-d.txt", 5)]%string, names).
Proof. eexists _, _. vm_compute. done. Qed.

(** Where no file can be opened the search for the next name does not end. *)
Example no_file_no_end (date : Z -> string) (fuel : nat) f : open_next date (fun _ => false) fuel f = None.
Proof. revert f. induction fuel as [|fuel IH]; intros f; [done|]. apply IH. Qed.
