(* ===== verification/LogMessages.v ===== *)
(** The messages of the log service: the classes of src/public/fdbus/CLogProducer.h with their
    [serialize], [deserialize] and [ParcelableLaws]. *)
From S2P Require Import Prelude CommonDefs Serializer Codec WireBase NsMessages.
Open Scope Z_scope.

(** ** Numbers *)

Definition REQ_FDBUS_LOG : Z := 0.
Definition REQ_TRACE_LOG : Z := 1.
Definition REQ_SET_LOGGER_CONFIG : Z := 2.
Definition REQ_SET_TRACE_CONFIG : Z := 3.
Definition REQ_GET_LOGGER_CONFIG : Z := 4.
Definition REQ_GET_TRACE_CONFIG : Z := 5.
Definition NTF_LOGGER_CONFIG : Z := 6.
Definition NTF_TRACE_CONFIG : Z := 7.
Definition NTF_FDBUS_LOG : Z := 8.
Definition NTF_TRACE_LOG : Z := 9.
Definition REQ_LOG_START : Z := 10.
Definition REQ_LOG_SYNC : Z := 11.

(** [EFdbLogLevel] *)
Definition FDB_LL_DEBUG : Z := 1.
Definition FDB_LL_INFO : Z := 2.
Definition FDB_LL_SILENT : Z := 6.
Definition FDB_LL_MAX : Z := 7.
Definition clamp_log_level (level : Z) : Z := if FDB_LL_MAX <=? level then FDB_LL_SILENT else level.

(** ** [FdbMsgLogConfig] *)

Record FdbMsgLogConfig := mkLogConfig {
  lg_mGlobalEnable : bool; lg_mEnableRequest : bool; lg_mEnableReply : bool; lg_mEnableBroadcast : bool; lg_mEnableSubscribe : bool;
  lg_mRawDataClippingSize : Z; lg_mHostWhiteList : list string; lg_mEndpointWhiteList : list string; lg_mBusnameWhiteList : list string;
  lg_mReverseEndpointName : bool; lg_mReverseBusName : bool; lg_mStaticContent : bool }.

Definition FdbMsgLogConfig_serialize (m : FdbMsgLogConfig) : SerM :=
  put_bool (lg_mGlobalEnable m) ;;; put_bool (lg_mEnableRequest m) ;;; put_bool (lg_mEnableReply m) ;;; put_bool (lg_mEnableBroadcast m) ;;; put_bool (lg_mEnableSubscribe m) ;;;
  put_int 4 (lg_mRawDataClippingSize m) ;;;
  serialize (lg_mHostWhiteList m) ;;; serialize (lg_mEndpointWhiteList m) ;;; serialize (lg_mBusnameWhiteList m) ;;;
  put_bool (lg_mReverseEndpointName m) ;;; put_bool (lg_mReverseBusName m) ;;; put_bool (lg_mStaticContent m).
Definition FdbMsgLogConfig_deserialize {I : Indet} (m : FdbMsgLogConfig) : DesM FdbMsgLogConfig :=
  global_enable ← get_bool;
  enable_request ← get_bool;
  enable_reply ← get_bool;
  enable_broadcast ← get_bool;
  enable_subscribe ← get_bool;
  raw_data_clipping_size ← get_int true 4 (lg_mRawDataClippingSize m);
  host_white_list ← deserialize (lg_mHostWhiteList m);
  endpoint_white_list ← deserialize (lg_mEndpointWhiteList m);
  busname_white_list ← deserialize (lg_mBusnameWhiteList m);
  reverse_endpoint_name ← get_bool;
  reverse_bus_name ← get_bool;
  static_content ← get_bool;
  mret (mkLogConfig global_enable enable_request enable_reply enable_broadcast enable_subscribe raw_data_clipping_size
          host_white_list endpoint_white_list busname_white_list reverse_endpoint_name reverse_bus_name static_content).
#[export] Hint Unfold FdbMsgLogConfig_serialize FdbMsgLogConfig_deserialize : codec.

#[export] Instance FdbMsgLogConfig_parcelable : Parcelable FdbMsgLogConfig := {|
  p_default := fun I => mkLogConfig false false false false false I [] [] [] false false false;
  p_serialize := FdbMsgLogConfig_serialize;
  p_deserialize := @FdbMsgLogConfig_deserialize |}.

Record FdbMsgLogConfig_wf (m : FdbMsgLogConfig) : Prop := {
  lgw_RawDataClippingSize : in_s 32 (lg_mRawDataClippingSize m);
  lgw_HostWhiteList : p_wf (lg_mHostWhiteList m);
  lgw_EndpointWhiteList : p_wf (lg_mEndpointWhiteList m);
  lgw_BusnameWhiteList : p_wf (lg_mBusnameWhiteList m) }.
Definition FdbMsgLogConfig_wire (m : FdbMsgLogConfig) : list Z :=
  bool_wire (lg_mGlobalEnable m) ++ bool_wire (lg_mEnableRequest m) ++ bool_wire (lg_mEnableReply m) ++ bool_wire (lg_mEnableBroadcast m) ++ bool_wire (lg_mEnableSubscribe m) ++
  le_bytes 4 (lg_mRawDataClippingSize m) ++ p_wire (lg_mHostWhiteList m) ++ p_wire (lg_mEndpointWhiteList m) ++ p_wire (lg_mBusnameWhiteList m) ++
  bool_wire (lg_mReverseEndpointName m) ++ bool_wire (lg_mReverseBusName m) ++ bool_wire (lg_mStaticContent m).
#[export] Hint Unfold FdbMsgLogConfig_wire : codec.

#[export] Program Instance FdbMsgLogConfig_laws : ParcelableLaws FdbMsgLogConfig := {|
  p_wire := FdbMsgLogConfig_wire; p_wf := FdbMsgLogConfig_wf; p_eq := eq |}.
Next Obligation.
  intros I x old []. member (lg_mHostWhiteList x) (lg_mHostWhiteList old) as (y0 & E0 & C0). member (lg_mEndpointWhiteList x) (lg_mEndpointWhiteList old) as (y1 & E1 & C1).
  member (lg_mBusnameWhiteList x) (lg_mBusnameWhiteList old) as (y2 & E2 & C2). apply Forall2_eq in E0, E1, E2. subst. solve_class.
Qed.
Next Obligation. solve_class_safe. Qed.

(** ** [FdbTraceConfig] *)

Record FdbTraceConfig := mkTraceConfig {
  tr_mGlobalEnable : bool; tr_mLogLevel : Z; tr_mHostWhiteList : list string; tr_mTagWhiteList : list string; tr_mReverseTag : bool;
  tr_mCacheSize : Z; tr_mLogPath : string; tr_mMaxLogStorageSize : Z; tr_mMaxLogFileSize : Z }.

Definition FdbTraceConfig_serialize (m : FdbTraceConfig) : SerM :=
  put_bool (tr_mGlobalEnable m) ;;; put_int 1 (u8 (tr_mLogLevel m)) ;;; serialize (tr_mHostWhiteList m) ;;; serialize (tr_mTagWhiteList m) ;;; put_bool (tr_mReverseTag m) ;;;
  put_int 4 (tr_mCacheSize m) ;;; put_string (tr_mLogPath m) ;;; put_int 4 (tr_mMaxLogStorageSize m) ;;; put_int 4 (tr_mMaxLogFileSize m).
Definition FdbTraceConfig_deserialize {I : Indet} (m : FdbTraceConfig) : DesM FdbTraceConfig :=
  global_enable ← get_bool;
  level ← get_int false 1 indet;
  host_white_list ← deserialize (tr_mHostWhiteList m);
  tag_white_list ← deserialize (tr_mTagWhiteList m);
  reverse_tag ← get_bool;
  cache_size ← get_int true 4 (tr_mCacheSize m);
  log_path ← get_string (tr_mLogPath m);
  max_log_storage_size ← get_int true 4 (tr_mMaxLogStorageSize m);
  max_log_file_size ← get_int true 4 (tr_mMaxLogFileSize m);
  mret (mkTraceConfig global_enable (clamp_log_level level) host_white_list tag_white_list reverse_tag cache_size log_path max_log_storage_size max_log_file_size).
#[export] Hint Unfold FdbTraceConfig_serialize FdbTraceConfig_deserialize : codec.

#[export] Instance FdbTraceConfig_parcelable : Parcelable FdbTraceConfig := {|
  p_default := fun I => mkTraceConfig false I [] [] false I EmptyString I I;
  p_serialize := FdbTraceConfig_serialize;
  p_deserialize := @FdbTraceConfig_deserialize |}.

Record FdbTraceConfig_wf (m : FdbTraceConfig) : Prop := {
  trw_LogLevel : 0 <= tr_mLogLevel m < FDB_LL_MAX;
  trw_HostWhiteList : p_wf (tr_mHostWhiteList m);
  trw_TagWhiteList : p_wf (tr_mTagWhiteList m);
  trw_CacheSize : in_s 32 (tr_mCacheSize m);
  trw_LogPath : str_ok (tr_mLogPath m);
  trw_MaxLogStorageSize : in_s 32 (tr_mMaxLogStorageSize m);
  trw_MaxLogFileSize : in_s 32 (tr_mMaxLogFileSize m) }.
Definition FdbTraceConfig_wire (m : FdbTraceConfig) : list Z :=
  bool_wire (tr_mGlobalEnable m) ++ le_bytes 1 (u8 (tr_mLogLevel m)) ++ p_wire (tr_mHostWhiteList m) ++ p_wire (tr_mTagWhiteList m) ++ bool_wire (tr_mReverseTag m) ++
  le_bytes 4 (tr_mCacheSize m) ++ str_wire (tr_mLogPath m) ++ le_bytes 4 (tr_mMaxLogStorageSize m) ++ le_bytes 4 (tr_mMaxLogFileSize m).
#[export] Hint Unfold FdbTraceConfig_wire : codec.

#[export] Program Instance FdbTraceConfig_laws : ParcelableLaws FdbTraceConfig := {|
  p_wire := FdbTraceConfig_wire; p_wf := FdbTraceConfig_wf; p_eq := eq |}.
Next Obligation.
  intros I x old []. member (tr_mHostWhiteList x) (tr_mHostWhiteList old) as (y0 & E0 & C0). member (tr_mTagWhiteList x) (tr_mTagWhiteList old) as (y1 & E1 & C1).
  apply Forall2_eq in E0, E1. subst. assert (in_u 8 (tr_mLogLevel x)) by (unfold in_u, FDB_LL_MAX in *; lia).
  assert (clamp_log_level (tr_mLogLevel x) = tr_mLogLevel x) as Hc by (unfold clamp_log_level; destruct (Z.leb_spec FDB_LL_MAX (tr_mLogLevel x)); lia).
  eexists. split; [|unfold serialize, deserialize; simpl; autounfold with codec; unwrap; solve_codec]. rewrite Hc. by destruct x.
Qed.
Next Obligation. solve_class_safe. Qed.

(** ** [FdbLogStart] *)

Record FdbLogStart := mkLogStart { st_mCacheSize : Z }.
Definition FdbLogStart_serialize (m : FdbLogStart) : SerM := put_int 4 (st_mCacheSize m).
Definition FdbLogStart_deserialize {I : Indet} (m : FdbLogStart) : DesM FdbLogStart := cache_size ← get_int true 4 (st_mCacheSize m); mret (mkLogStart cache_size).
#[export] Hint Unfold FdbLogStart_serialize FdbLogStart_deserialize : codec.
#[export] Instance FdbLogStart_parcelable : Parcelable FdbLogStart := {|
  p_default := fun I => mkLogStart I; p_serialize := FdbLogStart_serialize; p_deserialize := @FdbLogStart_deserialize |}.
#[export] Program Instance FdbLogStart_laws : ParcelableLaws FdbLogStart := {|
  p_wire := fun m => le_bytes 4 (st_mCacheSize m); p_wf := fun m => in_s 32 (st_mCacheSize m); p_eq := eq |}.
Next Obligation. intros I x old H. cbn in H. solve_class. Qed.
Next Obligation. solve_class_safe. Qed.
