(* ===== verification/LogPrinter.v ===== *)
(** Logs on their way to the log server: how [CLogProducer::logFDBus] and [logTrace] of
    src/log/CLogProducer.cpp write them, and how [CLogPrinter] of src/log/CLogPrinter.cpp reads and
    prints them. [trace_text] and [log_text] are the lines that come of what was logged. *)
From S2P Require Import Prelude CommonDefs Serializer Codec WireBase NsMessages Subscribe Message SocketFactory LogMessages.
Open Scope Z_scope.

Definition FDB_LOG_APPEND_LINE_END : Z := 1.
Definition FDB_LOG_IS_STRING : Z := 2.
Definition FDB_LOG_STATIC_CONTENT : Z := 4.

(** ** Writing *)

(** What a log needs to know: the process, the host if the name server has told its name, the time
    stamp (at most 63 characters), the static options of the producer and its limit for raw data. *)
Record LogEnv := mkLogEnv {
  le_mPid : Z; le_host : option string; le_date : string; le_mAppendLineEnd : bool; le_mStaticContent : bool; le_mRawDataClippingSize : Z }.
Implicit Types e : LogEnv.

(** [<<] for the characters of a string. *)
Definition put_c (s : string) : SerM := put_cstr (str_bytes s ++ [0]).
Definition or_none (s : string) : string := if is_empty_str s then "None"%string else s.
Definition log_option e : Z := Z.lor (if le_mAppendLineEnd e then FDB_LOG_APPEND_LINE_END else 0) (if le_mStaticContent e then FDB_LOG_STATIC_CONTENT else 0).

Definition clip_size e (log_size : Z) : Z :=
  if (0 <=? le_mRawDataClippingSize e) && (le_mRawDataClippingSize e <? log_size) then le_mRawDataClippingSize e else log_size.
(** The payload: a text, or the first bytes of the message. *)
Definition put_log_data e (msg : FdbMessage) : SerM :=
  if negb (is_empty_str (m_mStringData msg)) then put_int 1 (Z.lor (log_option e) FDB_LOG_IS_STRING) ;;; put_string (m_mStringData msg)
  else
    let log_size := clip_size e (m_mPayloadSize msg) in
    put_int 1 (log_option e) ;;; put_int 4 log_size ;;; addRawData (default [] (getPayloadBuffer msg)) log_size.
Definition log_head e (msg : FdbMessage) (receiver_name : option string) (name ns_name : string) (session_qos : EFdbQOS) : SerM :=
  put_int 4 (u32 (le_mPid e)) ;;;
  put_c (default "None"%string (le_host e)) ;;;
  put_c (or_none name) ;;;
  put_c (or_none (c_str (default EmptyString receiver_name))) ;;;
  put_c (or_none ns_name) ;;;
  put_int 1 (u8 (e_val (m_mType msg))) ;;;
  put_int 4 (m_mCode msg) ;;;
  put_string (m_mTopic msg) ;;;
  put_string (le_date e) ;;;
  put_int 4 (m_mPayloadSize msg) ;;;
  put_int 4 (m_mSn msg) ;;;
  put_int 4 (m_mOid msg) ;;;
  put_int 1 (wrap_s 8 (e_val session_qos)).
Definition logFDBus_build e (msg : FdbMessage) (receiver_name : option string) (name ns_name : string) (session_qos : EFdbQOS) : SerM :=
  if negb (isLogEnabled msg) then ser_skip else log_head e msg receiver_name name ns_name session_qos ;;; put_log_data e msg.

Definition trace_head e (log_level : Z) (tag : string) : SerM :=
  put_int 4 (u32 (le_mPid e)) ;;;
  put_c tag ;;;
  put_c (default "Unknown"%string (le_host e)) ;;;
  put_c (le_date e) ;;;
  put_int 1 (u8 log_level) ;;;
  put_int 1 (log_option e).
Definition logTrace_build e (log_level : Z) (tag info : string) : SerM := trace_head e log_level tag ;;; put_c info.

(** A builder starts with an empty buffer. *)
Definition raw_build (le : bool) (m : SerM) : option (list Z) :=
  s ← m (serializer_new le (replicate (Z.to_nat FDB_SCRATCH_CACHE_SIZE) 0)); Some (content s).

(** ** Printing *)

Record LogInfo := mkLogInfo {
  li_mPid : Z; li_mHostName : string; li_mSender : string; li_mReceiver : string; li_mBusName : string; li_mTopic : string; li_mMsgType : Z; li_mMsgCode : Z;
  li_mTimeStamp : string; li_mPayloadSize : Z; li_mMsgSn : Z; li_mObjId : Z; li_mQOS : Z; li_mData : option string; li_mDataSize : Z; li_mOptions : Z }.
Record TraceInfo := mkTraceInfo { ti_mPid : Z; ti_mTag : string; ti_mHostName : string; ti_mTimeStamp : string; ti_mLogLevel : Z; ti_mOptions : Z; ti_mData : string }.

Definition endl : string := String "010" EmptyString.
(** A signed number in decimal. *)
Definition to_dec_s (n : Z) : string := if n <? 0 then String "-" (to_dec (- n)) else to_dec n.

Definition fdb_log_head (pid sn stamp : string) (i : LogInfo) : string :=
  "F+" +:+ pid +:+ "@" +:+ li_mHostName i +:+ "+" +:+ li_mSender i +:+ "->" +:+ li_mReceiver i +:+ "+" +:+ li_mBusName i +:+ "+" +:+ to_dec (li_mObjId i) +:+ "+" +:+
  getMsgTypeName (e_of (li_mMsgType i)) +:+ "+" +:+ to_dec_s (li_mMsgCode i) +:+ "+" +:+ li_mTopic i +:+ "+" +:+ sn +:+ "+" +:+ to_dec_s (li_mPayloadSize i) +:+ "+Q" +:+
  to_dec (u16 (li_mQOS i)) +:+ "+" +:+ stamp +:+ "+ {" +:+ endl.
Definition outputFdbLog (i : LogInfo) : string :=
  (if has_bit (li_mOptions i) FDB_LOG_STATIC_CONTENT then fdb_log_head "0" "0" "0" i
   else fdb_log_head (to_dec (li_mPid i)) (to_dec (if li_mMsgSn i =? u32 FDB_INVALID_ID then 0 else li_mMsgSn i)) (li_mTimeStamp i) i) +:+
  (if has_bit (li_mOptions i) FDB_LOG_IS_STRING then match li_mData i with Some d => d +:+ "}" +:+ endl | None => EmptyString end
   else "No log! Data size: " +:+ to_dec_s (li_mDataSize i) +:+ endl +:+ "}" +:+ endl) +:+
  (if has_bit (li_mOptions i) FDB_LOG_APPEND_LINE_END then endl else EmptyString).

Definition level_name : list string := ["D+V+"; "D+D+"; "D+I+"; "D+W+"; "D+E+"; "D+F+"; "D+S+"]%string.
(** [None]: the level is outside the table. *)
Definition outputTraceLog (i : TraceInfo) : option string :=
  name ← level_name !! Z.to_nat (ti_mLogLevel i);
  let static := has_bit (ti_mOptions i) FDB_LOG_STATIC_CONTENT in
  Some (name +:+ ti_mTag i +:+ "+" +:+ (if static then "0" else to_dec (ti_mPid i)) +:+ "@" +:+ ti_mHostName i +:+ "+" +:+
        (if static then "0" else ti_mTimeStamp i) +:+ "+ " +:+ ti_mData i +:+
        (if has_bit (ti_mOptions i) FDB_LOG_APPEND_LINE_END then endl else EmptyString)).

(** The characters at the position of the deserializer; [None] when no zero follows. *)
Definition chars_here (d : CFdbSimpleDeserializer) : option string :=
  buf ← d_mBuffer d; bs ← scan_cstr (drop (Z.to_nat (d_mPos d)) buf); Some (bytes_str bs).

(** The members of a log up to its options; the text is read after them. *)
Definition read_log_head {I : Indet} : DesM LogInfo :=
  pid ← get_int false 4 (u32 indet);
  host ← get_string EmptyString;
  sender ← get_string EmptyString;
  receiver ← get_string EmptyString;
  bus ← get_string EmptyString;
  type_ ← get_int false 1 (u8 indet);
  code ← get_int true 4 (i32 indet);
  topic ← get_string EmptyString;
  stamp ← get_string EmptyString;
  payload_size ← get_int true 4 (i32 indet);
  sn ← get_int false 4 (u32 indet);
  oid ← get_int false 4 (u32 indet);
  qos ← get_int true 1 (wrap_s 8 indet);
  mret (mkLogInfo pid host sender receiver bus topic type_ code stamp payload_size sn oid qos None (i32 indet) (u8 indet)).
Definition force_static (force : bool) (options : Z) : Z := if force then u8 (Z.lor options FDB_LOG_STATIC_CONTENT) else options.
Definition li_set (data : option string) (size options : Z) (i : LogInfo) : LogInfo :=
  mkLogInfo (li_mPid i) (li_mHostName i) (li_mSender i) (li_mReceiver i) (li_mBusName i) (li_mTopic i) (li_mMsgType i) (li_mMsgCode i) (li_mTimeStamp i) (li_mPayloadSize i)
    (li_mMsgSn i) (li_mObjId i) (li_mQOS i) data size options.
Definition printFdbLog {I : Indet} (d : CFdbSimpleDeserializer) (force_static_content : bool) : option string :=
  '(i, d) ← read_log_head d;
  '(options, d) ← get_int false 1 (li_mOptions i) d;
  '(data, size) ←
    (if has_bit options FDB_LOG_IS_STRING then
       '(str_len, d) ← get_int false 2 (u16 indet) d;
       data ← (if str_len =? 0 then Some None else Some <$> chars_here d);
       Some (data, str_len)
     else '(size, d) ← get_int true 4 (li_mDataSize i) d; Some (None, size));
  Some (outputFdbLog (li_set data size (force_static force_static_content options) i)).

Definition read_trace_head {I : Indet} : DesM TraceInfo :=
  pid ← get_int false 4 (u32 indet);
  tag ← get_string EmptyString;
  host ← get_string EmptyString;
  stamp ← get_string EmptyString;
  level ← get_int false 1 (u8 indet);
  options ← get_int false 1 (u8 indet);
  mret (mkTraceInfo pid tag host stamp level options EmptyString).
Definition printTraceLog {I : Indet} (d : CFdbSimpleDeserializer) (force_static_content : bool) : option string :=
  '(i, d) ← read_trace_head d;
  if FDB_LL_MAX <=? ti_mLogLevel i then Some EmptyString else
  '(str_len, d) ← get_int false 2 0 d;
  data ← (if str_len =? 0 then Some endl else chars_here d);
  outputTraceLog (mkTraceInfo (ti_mPid i) (ti_mTag i) (ti_mHostName i) (ti_mTimeStamp i) (ti_mLogLevel i) (force_static force_static_content (ti_mOptions i)) data).

(** ** What is read is what was written *)

Lemma put_c_string s : str_ok s -> put_c s = put_string s.
Proof.
  intros [Hn Hl]. unfold put_c, put_cstr, put_string. rewrite scan_cstr_app by done. cbn [mbind option_bind]. by rewrite length_str_bytes.
Qed.
Lemma codec_c old s : str_ok s -> codec (put_c s) (get_string old) (str_wire s) s.
Proof. intros Hs. rewrite put_c_string by done. by apply codec_string. Qed.

Lemma chars_here_spec d pre s post : d_mBuffer d = Some (pre ++ str_bytes s ++ 0 :: post) -> d_mPos d = Z.of_nat (length pre) -> nul_free s -> chars_here d = Some s.
Proof.
  intros Hb Hp Hn. unfold chars_here. rewrite Hb, Hp, Nat2Z.id. cbn [mbind option_bind]. rewrite drop_app_length, scan_cstr_app by done. cbn [mbind option_bind]. by rewrite bytes_str_bytes.
Qed.

(** ** The lines *)

(** Whether what changes from run to run is left out. *)
Definition is_static e (force : bool) : bool := force || le_mStaticContent e.
Definition line_end e : string := if le_mAppendLineEnd e then endl else EmptyString.

Definition level_letter (level : Z) : string :=
  match level with 0 => "V" | 1 => "D" | 2 => "I" | 3 => "W" | 4 => "E" | 5 => "F" | _ => "S" end%string.

(** The line of a trace: level, tag, process, host, time and text, between plus signs. *)
Definition trace_text e (force : bool) (level : Z) (tag info : string) : string :=
  String.concat "+"
    ["D"; level_letter level; tag;
     (if is_static e force then "0" else to_dec (u32 (le_mPid e))) +:+ "@" +:+ default "Unknown" (le_host e);
     (if is_static e force then "0" else le_date e);
     " " +:+ info]%string
  +:+ line_end e.

(** How many bytes of a payload go along with the log: all, unless there is a limit. *)
Definition bytes_along e (size : Z) : Z :=
  if decide (0 <= le_mRawDataClippingSize e) then Z.min (le_mRawDataClippingSize e) size else size.

(** The lines of a message: process, host, sender and receiver, bus, object, type, code, topic,
    serial number, payload size, quality and time, between plus signs; then its text, or how
    many bytes of its payload went along. These bytes themselves are not printed. *)
Definition log_text e (force : bool) (msg : FdbMessage) (receiver : option string) (name ns_name : string) (qos : EFdbQOS) : string :=
  String.concat "+"
    ["F";
     (if is_static e force then "0" else to_dec (u32 (le_mPid e))) +:+ "@" +:+ default "None" (le_host e);
     or_none name +:+ "->" +:+ or_none (c_str (default "" receiver));
     or_none ns_name; to_dec (m_mOid msg); getMsgTypeName (m_mType msg); to_dec_s (m_mCode msg); m_mTopic msg;
     (if is_static e force || bool_decide (m_mSn msg = u32 FDB_INVALID_ID) then "0" else to_dec (m_mSn msg));
     to_dec_s (m_mPayloadSize msg); "Q" +:+ to_dec (e_val qos);
     (if is_static e force then "0" else le_date e);
     " {"]%string
  +:+ endl
  +:+ (if is_empty_str (m_mStringData msg)
       then "No log! Data size: " +:+ to_dec_s (bytes_along e (m_mPayloadSize msg)) +:+ endl +:+ "}"
       else m_mStringData msg +:+ "}") +:+ endl
  +:+ line_end e.

(** What the log line is made from. *)
Definition trace_info e (force : bool) (level : Z) (tag info : string) : TraceInfo :=
  mkTraceInfo (u32 (le_mPid e)) tag (default "Unknown"%string (le_host e)) (le_date e) level (force_static force (log_option e)) info.
Definition log_info e (msg : FdbMessage) (receiver : option string) (name ns_name : string) (qos : EFdbQOS) (data : option string) (size options : Z) : LogInfo :=
  mkLogInfo (u32 (le_mPid e)) (default "None"%string (le_host e)) (or_none name) (or_none (c_str (default EmptyString receiver))) (or_none ns_name) (m_mTopic msg) (u8 (e_val (m_mType msg)))
    (m_mCode msg) (le_date e) (m_mPayloadSize msg) (m_mSn msg) (m_mOid msg) (wrap_s 8 (e_val qos)) data size options.
Definition env_ok e : Prop := str_ok (le_date e) /\ str_ok (default EmptyString (le_host e)).

Ltac log_member := lazymatch goal with |- codec (put_c _) _ _ _ => apply codec_c; assumption | |- codec (put_int 1 (wrap_s _ _)) _ _ _ => apply codec_int; [lia|lia|apply wrap_s_range; lia] | |- _ => codec_member end.
Ltac solve_log := repeat lazymatch goal with |- codec (_ ;;; _) _ _ _ => eapply codec_seq; [log_member|] | |- codec _ _ _ _ => eapply codec_last; [log_member|reflexivity] end.

Lemma host_ok e other : env_ok e -> str_ok other -> str_ok (default other (le_host e)).
Proof. intros [_ H] Ho. by destruct (le_host e). Qed.
Lemma option_ok e : in_u 8 (log_option e).
Proof. unfold log_option, in_u. destruct (le_mAppendLineEnd e), (le_mStaticContent e); vm_compute; split; congruence. Qed.

Lemma length_str_wire s : str_ok s -> Z.of_nat (length (str_wire s)) <= 65537.
Proof. intros [_ Hl]. unfold str_wire. rewrite !length_app, !Nat2Z.inj_add, length_le_bytes, length_str_bytes by lia. cbn [length]. lia. Qed.
Ltac wire_size := rewrite ?length_app, ?Nat2Z.inj_add, ?length_le_bytes by lia; repeat match goal with H : str_ok ?s |- context [length (str_wire ?s)] => pose proof (length_str_wire s H); generalize dependent (Z.of_nat (length (str_wire s))); intros end; lia.

Lemma trace_head_codec {I : Indet} e level tag : env_ok e -> 0 <= level < FDB_LL_MAX -> str_ok tag ->
  exists bs, codec (trace_head e level tag) read_trace_head bs (mkTraceInfo (u32 (le_mPid e)) tag (default "Unknown"%string (le_host e)) (le_date e) level (log_option e) EmptyString) /\
    Z.of_nat (length bs) <= 3 * 65540 + 6.
Proof.
  intros He Hl Ht. pose proof (host_ok e "Unknown" He ltac:(by apply (bool_decide_unpack _); vm_compute)) as Hh. destruct He as [Hd _]. pose proof (option_ok e) as Ho.
  assert (in_u 8 level) as Hu by (unfold in_u, FDB_LL_MAX in *; lia). eexists. split.
  - unfold trace_head, read_trace_head. rewrite (wrap_u_small 8 level) by done. solve_log.
  - wire_size.
Qed.

(** What [log_head] needs of its arguments. *)
Record log_args_ok e (msg : FdbMessage) (receiver : option string) (name ns_name : string) (qos : EFdbQOS) : Prop := {
  la_env : env_ok e; la_name : str_ok name; la_receiver : str_ok (c_str (default EmptyString receiver)); la_ns : str_ok ns_name; la_topic : str_ok (m_mTopic msg);
  la_type : enum_ok (m_mType msg); la_qos : 0 <= e_val qos < 128;
  la_code : in_s 32 (m_mCode msg); la_size : in_s 32 (m_mPayloadSize msg); la_sn : in_u 32 (m_mSn msg); la_oid : in_u 32 (m_mOid msg) }.
Lemma or_none_ok s : str_ok s -> str_ok (or_none s).
Proof. intros H. unfold or_none. destruct (is_empty_str s); [by apply (bool_decide_unpack _); vm_compute|done]. Qed.
Lemma log_head_codec {I : Indet} e msg receiver name ns_name qos : log_args_ok e msg receiver name ns_name qos ->
  exists bs, codec (log_head e msg receiver name ns_name qos) read_log_head bs (log_info e msg receiver name ns_name qos None (i32 indet) (u8 indet)) /\ Z.of_nat (length bs) <= 6 * 65540 + 30.
Proof.
  intros []. pose proof (host_ok e "None" la_env0 ltac:(by apply (bool_decide_unpack _); vm_compute)) as Hh. destruct la_env0 as [Hd _].
  apply or_none_ok in la_name0, la_receiver0, la_ns0. eexists. split.
  - unfold log_head, read_log_head. solve_log.
  - wire_size.
Qed.

Lemma raw_build_ok le m bs : writes m bs -> Z.of_nat (length bs) <= SER_LIMIT -> raw_build le m = Some bs.
Proof.
  intros W Hl. unfold raw_build. assert (Z.of_nat (length (replicate (Z.to_nat FDB_SCRATCH_CACHE_SIZE) 0)) = FDB_SCRATCH_CACHE_SIZE) as Hs by (by rewrite length_replicate).
  destruct (W (serializer_new le (replicate (Z.to_nat FDB_SCRATCH_CACHE_SIZE) 0))) as (s & -> & _ & C & _); [exact (ser_reset_ok (serializer_new le _) Hs)|cbn; lia|].
  cbn [mbind option_bind]. by rewrite C.
Qed.

(** Reading on in a buffer of which [pre] has been read. *)
Definition at_pos (le : bool) (pre rest : list Z) : CFdbSimpleDeserializer :=
  mkDeserializer (Some (pre ++ rest)) (Z.of_nat (length (pre ++ rest))) (Z.of_nat (length pre)) false le.
Lemma reads_on {A} (m : DesM A) le pre bs rest y : reads m bs y -> 0 < Z.of_nat (length (pre ++ bs ++ rest)) <= INT32_MAX - 65536 ->
  m (at_pos le pre (bs ++ rest)) = Some (y, at_pos le (pre ++ bs) rest).
Proof.
  intros R Hl. rewrite (R (at_pos le pre (bs ++ rest)) pre rest); cbn; try done; try lia.
  - unfold at_pos, des_set_pos. cbn. rewrite <- !app_assoc. do 3 f_equal. rewrite length_app. lia.
  - rewrite !length_app. lia.
Qed.
Lemma chars_at le pre s post : nul_free s -> chars_here (at_pos le pre (str_bytes s ++ 0 :: post)) = Some s.
Proof. intros Hn. by apply (chars_here_spec _ pre s post). Qed.

Lemma trace_printed {I : Indet} (le le' force : bool) e level tag info : env_ok e -> 0 <= level < FDB_LL_MAX -> str_ok tag -> str_ok info ->
  exists bs, raw_build le (logTrace_build e level tag info) = Some bs /\
    printTraceLog (deserializer_new le' (Some bs) (Z.of_nat (length bs))) force = outputTraceLog (trace_info e force level tag info).
Proof.
  intros He Hl Ht Hi. destruct (trace_head_codec e level tag He Hl Ht) as (hw & [W R] & Hhw). pose proof (length_str_wire info Hi) as Hiw. destruct (codec_c EmptyString info Hi) as [Wi _].
  exists (hw ++ str_wire info). split; [apply raw_build_ok; [by apply writes_seq|rewrite length_app; unfold SER_LIMIT; lia]|].
  change (deserializer_new le' _ _) with (at_pos le' [] (hw ++ str_wire info)). unfold printTraceLog.
  assert (0 < Z.of_nat (length (hw ++ str_wire info)) <= INT32_MAX - 65536) as Hb by (rewrite length_app; unfold str_wire in *; rewrite !length_app in *; cbn [length] in *; unfold INT32_MAX; lia).
  rewrite (reads_on _ le' [] hw (str_wire info) _ R) by done. cbn [mbind option_bind ti_mLogLevel app]. destruct (Z.leb_spec FDB_LL_MAX level); [lia|].
  destruct Hi as [Hn Hs]. unfold str_wire at 1.
  rewrite (reads_on _ le' hw (le_bytes 2 (Z.of_nat (String.length info) + 1)) (str_bytes info ++ [0]) (Z.of_nat (String.length info) + 1)); [|apply reads_int; try lia; unfold in_int, in_u; lia|exact Hb].
  cbn [mbind option_bind]. destruct (Z.eqb_spec (Z.of_nat (String.length info) + 1) 0); [lia|]. by rewrite chars_at.
Qed.

Lemma writes_raw_prefix p n : 0 <= n <= Z.of_nat (length p) -> writes (addRawData p n) (take (Z.to_nat n) p).
Proof.
  intros Hn. pose proof (writes_raw (take (Z.to_nat n) p)) as W. rewrite length_take_le, Z2Nat.id in W by lia. intros s Hs Hl. destruct (W s Hs Hl) as (s' & E & H).
  exists s'. split; [|done]. rewrite <- E. unfold addRawData. rewrite length_take_le, Z2Nat.id, Z.leb_refl, take_take, Nat.min_id by lia. by destruct (Z.leb_spec n (Z.of_nat (length p))); [|lia].
Qed.

(** The text or the bytes of a message, as far as they can be sent. *)
Definition log_data_ok (msg : FdbMessage) : Prop :=
  if is_empty_str (m_mStringData msg) then 0 <= m_mPayloadSize msg < 2 ^ 30 /\ m_mPayloadSize msg <= Z.of_nat (length (default [] (getPayloadBuffer msg)))
  else str_ok (m_mStringData msg).
Definition log_line e (force : bool) (msg : FdbMessage) (receiver : option string) (name ns_name : string) (qos : EFdbQOS) : string :=
  outputFdbLog (if is_empty_str (m_mStringData msg) then log_info e msg receiver name ns_name qos None (clip_size e (m_mPayloadSize msg)) (force_static force (log_option e))
    else log_info e msg receiver name ns_name qos (Some (m_mStringData msg)) (Z.of_nat (String.length (m_mStringData msg)) + 1) (force_static force (Z.lor (log_option e) FDB_LOG_IS_STRING))).

Lemma option_no_string e : has_bit (log_option e) FDB_LOG_IS_STRING = false.
Proof. unfold log_option. by destruct (le_mAppendLineEnd e), (le_mStaticContent e). Qed.
Lemma option_string e : has_bit (Z.lor (log_option e) FDB_LOG_IS_STRING) FDB_LOG_IS_STRING = true.
Proof. unfold log_option. by destruct (le_mAppendLineEnd e), (le_mStaticContent e). Qed.
Lemma Z_eqb_bool_decide (a b : Z) : (a =? b) = bool_decide (a = b).
Proof. case_bool_decide; [by apply Z.eqb_eq|by apply Z.eqb_neq]. Qed.

Lemma app_str_assoc (a b c : string) : (a +:+ b) +:+ c = a +:+ (b +:+ c).
Proof. induction a as [|x a IH]; [done|]. exact (f_equal (String x) IH). Qed.

Lemma static_bit e force o :
  In o [log_option e; Z.lor (log_option e) FDB_LOG_IS_STRING] ->
  has_bit (force_static force o) FDB_LOG_STATIC_CONTENT = is_static e force
  /\ has_bit (force_static force o) FDB_LOG_APPEND_LINE_END = le_mAppendLineEnd e
  /\ has_bit (force_static force o) FDB_LOG_IS_STRING = has_bit o FDB_LOG_IS_STRING.
Proof.
  unfold log_option, is_static. intros [<-|[<-|[]]];
    destruct e as [pid host date [] [] clip], force; by vm_compute.
Qed.

Lemma trace_line e force level tag info : 0 <= level < FDB_LL_MAX ->
  outputTraceLog (trace_info e force level tag info) = Some (trace_text e force level tag info).
Proof.
  intros Hl. unfold outputTraceLog, trace_info, trace_text, line_end. cbn [ti_mLogLevel ti_mOptions ti_mTag ti_mPid ti_mHostName ti_mTimeStamp ti_mData].
  destruct (static_bit e force (log_option e) ltac:(by left)) as (-> & -> & _).
  assert (level_name !! Z.to_nat level = Some ("D+" +:+ level_letter level +:+ "+")) as ->.
  { assert (In level (map Z.of_nat (seq 0 7))) as Hin
      by (apply in_map_iff; exists (Z.to_nat level); split; [lia|apply in_seq; unfold FDB_LL_MAX in Hl; lia]).
    simpl in Hin. repeat destruct Hin as [<-|Hin]; done. }
  cbn [mbind option_bind String.concat]. by rewrite !app_str_assoc.
Qed.

Lemma clip_bytes e size : clip_size e size = bytes_along e size.
Proof. unfold clip_size, bytes_along. repeat case_match; destruct_bool_hyp; lia. Qed.

Lemma message_line e force msg receiver name ns_name qos : log_args_ok e msg receiver name ns_name qos ->
  log_line e force msg receiver name ns_name qos = log_text e force msg receiver name ns_name qos.
Proof.
  intros []. destruct la_type0 as [Ht Hu]. unfold log_line, log_text, outputFdbLog, fdb_log_head, line_end. rewrite clip_bytes.
  assert (u16 (wrap_s 8 (e_val qos)) = e_val qos) as Hq.
  { rewrite (wrap_s_small 8), (wrap_u_small 16); unfold in_u, in_s; lia. }
  assert (u8 (e_val (m_mType msg)) = e_val (m_mType msg)) as Hty by (by apply wrap_u_small).
  destruct (is_empty_str (m_mStringData msg)); unfold log_info;
    cbn [li_mPid li_mHostName li_mSender li_mReceiver li_mBusName li_mTopic li_mMsgType li_mMsgCode li_mTimeStamp li_mPayloadSize li_mMsgSn li_mObjId li_mQOS li_mData li_mDataSize li_mOptions].
  - destruct (static_bit e force (log_option e) ltac:(by left)) as (-> & -> & ->). rewrite Hq, Hty, Ht, option_no_string.
    destruct (is_static e force); cbn [orb String.concat]; rewrite !app_str_assoc; [done|].
    rewrite <- Z_eqb_bool_decide. by destruct (_ =? _).
  - destruct (static_bit e force (Z.lor (log_option e) FDB_LOG_IS_STRING) ltac:(by right; left)) as (-> & -> & ->).
    rewrite Hq, Hty, Ht, option_string.
    destruct (is_static e force); cbn [orb String.concat]; rewrite !app_str_assoc; [done|].
    rewrite <- Z_eqb_bool_decide. by destruct (_ =? _).
Qed.

(** The log of a message without text ends in the bytes of its payload that go along. *)
Definition carries e (msg : FdbMessage) (bs : list Z) : Prop :=
  is_empty_str (m_mStringData msg) = true ->
  exists head, bs = head ++ take (Z.to_nat (bytes_along e (m_mPayloadSize msg))) (default [] (getPayloadBuffer msg)).

Lemma log_printed {I : Indet} (le le' force : bool) e msg receiver name ns_name qos : log_args_ok e msg receiver name ns_name qos -> isLogEnabled msg = true -> log_data_ok msg ->
  exists bs, raw_build le (logFDBus_build e msg receiver name ns_name qos) = Some bs /\ carries e msg bs /\
    printFdbLog (deserializer_new le' (Some bs) (Z.of_nat (length bs))) force = Some (log_text e force msg receiver name ns_name qos).
Proof.
  intros Ha He Hd. rewrite <- (message_line e force msg receiver name ns_name qos) by done. destruct (log_head_codec e msg receiver name ns_name qos Ha) as (hw & [W R] & Hhw). unfold logFDBus_build, log_data_ok, log_line, put_log_data in *. rewrite He. cbn [negb].
  pose proof (option_ok e) as Ho. destruct (is_empty_str (m_mStringData msg)) eqn:Es; cbn [negb].
  - set (n := clip_size e (m_mPayloadSize msg)). assert (0 <= n <= m_mPayloadSize msg) as Hn by (unfold n, clip_size; destruct (_ && _) eqn:E; [apply andb_prop in E|]; lia).
    set (p := default [] (getPayloadBuffer msg)) in *. set (bs := hw ++ le_bytes 1 (log_option e) ++ le_bytes 4 n ++ take (Z.to_nat n) p).
    assert (Z.of_nat (length bs) <= 2 ^ 30 + 500000 /\ 0 < Z.of_nat (length bs)) as [Hb Hb0] by (unfold bs; rewrite !length_app, !Nat2Z.inj_add, !length_le_bytes, length_take_le by lia; lia).
    exists bs. split; [apply raw_build_ok; [repeat apply writes_seq; try done; try (apply writes_int; lia); apply writes_raw_prefix; lia|unfold SER_LIMIT; lia]|].
    split; [intros _; exists (hw ++ le_bytes 1 (log_option e) ++ le_bytes 4 n); rewrite <- clip_bytes; unfold bs; by rewrite <- !app_assoc|].
    change (deserializer_new le' _ _) with (at_pos le' [] bs). unfold printFdbLog, bs. assert (forall m, m = length bs -> 0 < Z.of_nat m <= INT32_MAX - 65536) as Hok by (intros ? ->; unfold INT32_MAX; lia).
    rewrite (reads_on _ le' [] hw _ _ R) by (by apply Hok). cbn [mbind option_bind app].
    rewrite (reads_on _ le' hw (le_bytes 1 (log_option e)) _ (log_option e)); [|apply reads_int; try lia; done|by apply Hok]. cbn [mbind option_bind].
    rewrite option_no_string.
    rewrite (reads_on _ le' (hw ++ le_bytes 1 (log_option e)) (le_bytes 4 n) _ n); [|apply reads_int; try lia; unfold in_int, in_s; lia|rewrite <- app_assoc; by apply Hok]. done.
  - destruct Hd as [Hn Hs]. set (t := m_mStringData msg) in *. set (o := Z.lor (log_option e) FDB_LOG_IS_STRING). assert (in_u 8 o) as Hou by (unfold o, log_option, in_u; destruct (le_mAppendLineEnd e), (le_mStaticContent e); vm_compute; split; congruence).
    set (bs := hw ++ le_bytes 1 o ++ le_bytes 2 (Z.of_nat (String.length t) + 1) ++ str_bytes t ++ [0]).
    assert (Z.of_nat (length bs) <= 600000 /\ 0 < Z.of_nat (length bs)) as [Hb Hb0] by (unfold bs; rewrite !length_app, !Nat2Z.inj_add, !length_le_bytes, length_str_bytes by lia; cbn [length]; lia).
    exists bs. split; [apply raw_build_ok; [apply writes_seq; [done|]; apply writes_seq; [apply writes_int; lia|by apply writes_string]|unfold SER_LIMIT; lia]|].
    split; [unfold carries; fold t; by rewrite Es|].
    change (deserializer_new le' _ _) with (at_pos le' [] bs). unfold printFdbLog, bs. assert (forall m, m = length bs -> 0 < Z.of_nat m <= INT32_MAX - 65536) as Hok by (intros ? ->; unfold INT32_MAX; lia).
    rewrite (reads_on _ le' [] hw _ _ R) by (by apply Hok). cbn [mbind option_bind app].
    rewrite (reads_on _ le' hw (le_bytes 1 o) _ o); [|apply reads_int; try lia; done|by apply Hok]. cbn [mbind option_bind].
    assert (has_bit o FDB_LOG_IS_STRING = true) as -> by apply option_string.
    rewrite (reads_on _ le' (hw ++ le_bytes 1 o) (le_bytes 2 (Z.of_nat (String.length t) + 1)) _ (Z.of_nat (String.length t) + 1)); [|apply reads_int; try lia; unfold in_int, in_u; lia|rewrite <- app_assoc; by apply Hok].
    cbn [mbind option_bind]. destruct (Z.eqb_spec (Z.of_nat (String.length t) + 1) 0); [lia|]. rewrite (chars_at le' _ t []) by done. done.
Qed.

(** C37: What a process logs is what the log server or a log viewer prints, on a machine of
    either byte order. A trace is printed as one line: its level, tag, process and host, time and
    text, between plus signs. A message is printed as a line with process and host, sender and
    receiver, bus, object, type, code, topic, serial number, payload size, quality and time, and
    then its text; a message without text takes the first bytes of its payload along, as many as
    the limit of the producer allows, but only their number is printed. With static content asked
    for, process, serial number and time are 0. The strings have no zero byte and less than 65535
    bytes, a payload less than 1 GB. *)
Theorem logs_printed_as_written {I : Indet} (le le' force : bool) e :
  (forall level tag info, env_ok e -> 0 <= level < FDB_LL_MAX -> str_ok tag -> str_ok info ->
     exists bs, raw_build le (logTrace_build e level tag info) = Some bs /\
       printTraceLog (deserializer_new le' (Some bs) (Z.of_nat (length bs))) force = Some (trace_text e force level tag info)) /\
  (forall msg receiver name ns_name qos, log_args_ok e msg receiver name ns_name qos -> isLogEnabled msg = true -> log_data_ok msg ->
     exists bs, raw_build le (logFDBus_build e msg receiver name ns_name qos) = Some bs /\ carries e msg bs /\
       printFdbLog (deserializer_new le' (Some bs) (Z.of_nat (length bs))) force = Some (log_text e force msg receiver name ns_name qos)).
Proof.
  split; [|intros msg receiver name ns_name qos; apply log_printed].
  intros level tag info He Hl Ht Hi. rewrite <- trace_line by done. by apply trace_printed.
Qed.

Definition demo_env : LogEnv := mkLogEnv 4711 (Some "ecu"%string) "2024-01-01 10:00:00" true false 0.
Definition demo_msg : FdbMessage := enableLog true (msg_new 7 FDB_QOS_RELIABLE).
Lemma logs_printed_as_written_witness :
  (exists bs, raw_build true (logTrace_build demo_env 2 "nav" "ready") = Some bs /\
     printTraceLog (I := 0) (deserializer_new false (Some bs) (Z.of_nat (length bs))) false = Some ("D+I+nav+4711@ecu+2024-01-01 10:00:00+ ready" +:+ endl)) /\
  exists bs, raw_build true (logFDBus_build demo_env demo_msg (Some "client"%string) "server" "svc" FDB_QOS_RELIABLE) = Some bs /\
     printFdbLog (I := 0) (deserializer_new false (Some bs) (Z.of_nat (length bs))) true
     = Some ("F+0@ecu+server->client+svc+4294967295+Request+7++0+0+Q1+0+ {" +:+ endl +:+ "No log! Data size: 0" +:+ endl +:+ "}" +:+ endl +:+ endl).
Proof.
  split.
  - apply (proj1 (logs_printed_as_written (I := 0) true false false demo_env) 2 "nav"%string "ready"%string).
    + split; by apply (bool_decide_unpack _); vm_compute.
    + done.
    + by apply (bool_decide_unpack _); vm_compute.
    + by apply (bool_decide_unpack _); vm_compute.
  - destruct (proj2 (logs_printed_as_written (I := 0) true false true demo_env) demo_msg (Some "client"%string) "server"%string "svc"%string FDB_QOS_RELIABLE)
      as (bs & E & _ & P); [|done|by vm_compute|].
    + split; [split|..]; try (apply (bool_decide_unpack _); vm_compute; exact Logic.I); repeat split; vm_compute; congruence.
    + exists bs. split; [exact E|]. rewrite P. by vm_compute.
Defined.

(** A text that does not end is read beyond the message: its length is not looked at. *)
Example endless_text_read : exists bs, printTraceLog (I := 0) (deserializer_new true (Some bs) (Z.of_nat (length bs))) false = None.
Proof. exists ([0; 0; 0; 0] ++ [1; 0; 0] ++ [1; 0; 0] ++ [1; 0; 0] ++ [2; 0] ++ [1; 0; 65]). by vm_compute. Qed.
