(* ===== verification/LogProducer.v ===== *)
(** The log client of every process: [CLogProducer] of src/log/CLogProducer.cpp.

    What is logged depends on filters the log server sends. A log is sent by the thread of the
    context; other threads give it a job. Until there is a connection logs are kept in a cache that
    takes no more when it is full. *)
From S2P Require Import Prelude CommonDefs Serializer Codec WireBase NsMessages Subscribe Message LogMessages LogPrinter LogCache.
From stdpp Require Import gmap.
Open Scope Z_scope.

(** ** Data *)

(** The members a configuration sets. *)
Record LogFilter := mkLogFilter {
  fl_mLoggerDisableGlobal : bool; fl_mDisableRequest : bool; fl_mDisableReply : bool; fl_mDisableBroadcast : bool; fl_mDisableSubscribe : bool; fl_mRawDataClippingSize : Z;
  fl_mLogHostEnabled : bool; fl_mLogEndpointWhiteList : gset string; fl_mLogBusnameWhiteList : gset string; fl_mReverseEndpoints : bool; fl_mReverseBusNames : bool }.
Record TraceFilter := mkTraceFilter { tf_mLogLevel : Z; tf_mTraceDisableGlobal : bool; tf_mTraceHostEnabled : bool; tf_mTraceTagWhiteList : gset string; tf_mReverseTags : bool }.
(** [lp_connected]: there is a session; [lp_jobs]: logs on their way to the thread of the context. *)
Record CLogProducer := mkProducer { lp_log : LogFilter; lp_trace : TraceFilter; lp_mLogCache : option CFdbLogCache; lp_connected : bool; lp_jobs : list (Z * list Z) }.
Implicit Types p : CLogProducer.

Definition CLogProducer_new (log_cache_size : Z) : CLogProducer :=
  mkProducer (mkLogFilter false false false false false 0 true ∅ ∅ false false) (mkTraceFilter FDB_LL_INFO false true ∅ false)
    (if log_cache_size =? 0 then None else Some (CFdbLogCache_new log_cache_size true)) false [].
Definition lp_set_cache (c : option CFdbLogCache) p : CLogProducer := mkProducer (lp_log p) (lp_trace p) c (lp_connected p) (lp_jobs p).
Definition lp_set_jobs (jobs : list (Z * list Z)) p : CLogProducer := mkProducer (lp_log p) (lp_trace p) (lp_mLogCache p) (lp_connected p) jobs.
Definition lp_set_connected (b : bool) p : CLogProducer := mkProducer (lp_log p) (lp_trace p) (lp_mLogCache p) b (lp_jobs p).
Definition lp_set_log (f : LogFilter) p : CLogProducer := mkProducer f (lp_trace p) (lp_mLogCache p) (lp_connected p) (lp_jobs p).
Definition lp_set_trace (f : TraceFilter) p : CLogProducer := mkProducer (lp_log p) f (lp_mLogCache p) (lp_connected p) (lp_jobs p).

(** ** Filters *)

(** [host]: the name of this host once it is known. *)
Definition checkHostEnabled (host : option string) (host_tbl : list string) : bool :=
  match host_tbl, host with
  | [], _ | _, None => true
  | _, Some host => existsb (String.eqb host) host_tbl
  end.
Definition populateWhiteList (in_topic : list string) : gset string := list_to_set in_topic.

Definition logger_filter (host : option string) (cfg : FdbMsgLogConfig) : LogFilter :=
  mkLogFilter (negb (lg_mGlobalEnable cfg)) (negb (lg_mEnableRequest cfg)) (negb (lg_mEnableReply cfg)) (negb (lg_mEnableBroadcast cfg)) (negb (lg_mEnableSubscribe cfg))
    (lg_mRawDataClippingSize cfg) (checkHostEnabled host (lg_mHostWhiteList cfg)) (populateWhiteList (lg_mEndpointWhiteList cfg)) (populateWhiteList (lg_mBusnameWhiteList cfg))
    (lg_mReverseEndpointName cfg) (lg_mReverseBusName cfg).
Definition trace_filter (host : option string) (cfg : FdbTraceConfig) : TraceFilter :=
  mkTraceFilter (tr_mLogLevel cfg) (negb (tr_mGlobalEnable cfg)) (checkHostEnabled host (tr_mHostWhiteList cfg)) (populateWhiteList (tr_mTagWhiteList cfg)) (tr_mReverseTag cfg).

(** [le]: the byte order of the host. *)
Definition lp_onBroadcast {I : Indet} (le : bool) (host : option string) (code : Z) (payload : list Z) p : option CLogProducer :=
  if code =? NTF_LOGGER_CONFIG then
    '(cfg, ok) ← parser_parse le (Some payload) (Z.of_nat (length payload)) (dflt : FdbMsgLogConfig);
    Some (if ok : bool then lp_set_log (logger_filter host cfg) p else p)
  else if code =? NTF_TRACE_CONFIG then
    '(cfg, ok) ← parser_parse le (Some payload) (Z.of_nat (length payload)) (dflt : FdbTraceConfig);
    Some (if ok : bool then lp_set_trace (trace_filter host cfg) p else p)
  else Some p.

Definition checkLogEnabledByMessageType (type : EFdbMessageType) (f : LogFilter) : bool :=
  match type with
  | FDB_MT_REQUEST | FDB_MT_SIDEBAND_REQUEST | FDB_MT_GET_EVENT | FDB_MT_PUBLISH | FDB_MT_SET_EVENT => negb (fl_mDisableRequest f)
  | FDB_MT_REPLY | FDB_MT_STATUS | FDB_MT_SIDEBAND_REPLY | FDB_MT_RETURN_EVENT => negb (fl_mDisableReply f)
  | FDB_MT_BROADCAST => negb (fl_mDisableBroadcast f)
  | FDB_MT_SUBSCRIBE_REQ => negb (fl_mDisableSubscribe f)
  | _ => true
  end.
Definition checkCacheEnabled p : bool :=
  match lp_mLogCache p with Some c => lp_connected p || negb (lc_mFull c) | None => lp_connected p end.

Definition listed (name : string) (wl : gset string) : bool := bool_decide (name ∈ wl).
Definition endpoint_passes (sender : string) (receiver : option string) (f : LogFilter) : bool :=
  let receiver := c_str (default EmptyString receiver) in
  let wl := fl_mLogEndpointWhiteList f in
  if is_empty_str sender then
    if is_empty_str receiver then false else negb (xorb (fl_mReverseEndpoints f) (negb (listed receiver wl)))
  else if is_empty_str receiver then negb (xorb (fl_mReverseEndpoints f) (negb (listed sender wl)))
  else negb (xorb (fl_mReverseEndpoints f) (negb (listed sender wl) && negb (listed receiver wl))).
Definition bus_passes (bus_name : string) (f : LogFilter) : bool :=
  if is_empty_str bus_name then false else negb (xorb (fl_mReverseBusNames f) (negb (listed bus_name (fl_mLogBusnameWhiteList f)))).
(** [endpoint]: its name and the name of its bus. *)
Definition lp_checkLogEnabled (type : EFdbMessageType) (receiver_name : option string) (endpoint : option (string * string)) p : bool :=
  let f := lp_log p in
  if fl_mLoggerDisableGlobal f || negb (fl_mLogHostEnabled f) || negb (checkCacheEnabled p) then false else
  if negb (checkLogEnabledByMessageType type f) then false else
  match endpoint with
  | None => true
  | Some (name, ns_name) =>
      (bool_decide (fl_mLogEndpointWhiteList f = ∅) || endpoint_passes (c_str name) receiver_name f) &&
      (bool_decide (fl_mLogBusnameWhiteList f = ∅) || bus_passes (c_str ns_name) f)
  end.
Definition checkLogTraceEnabled (log_level : Z) (tag : string) p : bool :=
  let f := lp_trace p in
  if tf_mTraceDisableGlobal f || negb (tf_mTraceHostEnabled f) || negb (checkCacheEnabled p) || (tf_mLogLevel f <? log_level) || (FDB_LL_SILENT <=? log_level) then false else
  bool_decide (tf_mTraceTagWhiteList f = ∅) || negb (xorb (tf_mReverseTags f) (negb (listed tag (tf_mTraceTagWhiteList f)))).

(** ** Sending *)

Definition FDB_LOG_QOS : EFdbQOS := FDB_QOS_TRY_SECURE_RELIABLE.
Definition mMaxTraceLogSize : nat := 4096.
Definition log_ruler : string := "+==============================================================================+" +:+ endl.
Definition mLogHead : string :=
  log_ruler +:+ "|                                 START LOGGING...                             |" +:+ endl +:+ log_ruler.
Definition mBreakMark : string :=
  log_ruler +:+ "|                        WARNING: LOG MIGHT DROPPED!!!                         |" +:+ endl +:+ log_ruler.

Section sending.
Variable le : bool.
(** What the endpoint of the producer is to a message. *)
Variable obj : MsgObject.
Variables name ns_name : string.

(** In the thread of the context. [peer]: a session of the wanted quality is found. *)
Definition deliver (peer : bool) (code : Z) (buffer : list Z) p : option (CLogProducer * list (Z * list Z)) :=
  if lp_connected p then Some (p, if peer then [(code, buffer)] else [])
  else match lp_mLogCache p with
       | Some c => c ← lc_push buffer code c; Some (lp_set_cache (Some c) p, [])
       | None => Some (p, [])
       end.
Definition callSendLog (peer : bool) p : option (CLogProducer * list (Z * list Z)) :=
  match lp_jobs p with [] => Some (p, []) | (code, buffer) :: jobs => deliver peer code buffer (lp_set_jobs jobs p) end.
Definition sendLog (self peer : bool) (code : Z) (buffer : list Z) p : option (CLogProducer * list (Z * list Z)) :=
  if self then deliver peer code buffer p else Some (lp_set_jobs (lp_jobs p ++ [(code, buffer)]) p, []).

Definition lp_env (e : LogEnv) p : LogEnv := mkLogEnv (le_mPid e) (le_host e) (le_date e) (le_mAppendLineEnd e) (le_mStaticContent e) (fl_mRawDataClippingSize (lp_log p)).
Definition logFDBus (e : LogEnv) (self peer : bool) (msg : FdbMessage) (receiver_name : option string) (session_qos : EFdbQOS) p : option (CLogProducer * list (Z * list Z)) :=
  bs ← raw_build le (logFDBus_build (lp_env e p) msg receiver_name name ns_name session_qos);
  sendLog self peer REQ_FDBUS_LOG bs p.
Definition logTrace (e : LogEnv) (self peer : bool) (log_level : Z) (tag info : string) p : option (CLogProducer * list (Z * list Z)) :=
  bs ← raw_build le (logTrace_build (lp_env e p) log_level tag info);
  sendLog self peer REQ_TRACE_LOG bs p.
(** [fdb_log_debug] and the like; [text]: the format and its arguments, printed. *)
Definition FDB_DO_LOG (e : LogEnv) (self peer : bool) (log_level : Z) (tag text : string) p : option (CLogProducer * list (Z * list Z)) :=
  if negb (checkLogTraceEnabled log_level tag p) then Some (p, []) else
  logTrace e self peer log_level tag (String.substring 0 (mMaxTraceLogSize - 1) text) p.

(** ** The connection *)

Definition checkpoint_msg (check_point : string) : FdbMessage :=
  m_set_string check_point (enableLog true (msg_request 0 obj FDB_INVALID_ID FDB_QOS_RELIABLE)).
Definition sendCheckpoint (e : LogEnv) (self peer : bool) (check_point : string) p : option (CLogProducer * list (Z * list Z)) :=
  logFDBus e self peer (checkpoint_msg check_point) None FDB_LOG_QOS p.

(** The logs of the cache, one after the other; the cache has given them up. *)
Fixpoint send_all (self peer : bool) (logs : list (Z * list Z)) p : option (CLogProducer * list (Z * list Z)) :=
  match logs with
  | [] => Some (p, [])
  | (code, buffer) :: logs => '(p, out) ← sendLog self peer code buffer p; '(p, out') ← send_all self peer logs p; Some (p, out ++ out')
  end.
(** [e] and [e']: what a log needs to know at its head and at its end. A session has been added
    before. The events of the filters are subscribed to first. *)
Definition lp_onOnline (e e' : LogEnv) (self peer : bool) p : option (CLogProducer * list (Z * list Z)) :=
  match lp_mLogCache p with
  | None => Some (p, [])
  | Some c =>
      '(p, out1) ← sendCheckpoint e self peer mLogHead p;
      let cache_full := lc_mFull c in
      let '(c', logs) := lc_dump c in
      '(p, out2) ← send_all self peer logs (lp_set_cache (Some c') p);
      '(p, out3) ← (if cache_full then sendCheckpoint e' self peer mBreakMark p else Some (p, []));
      Some (p, out1 ++ out2 ++ out3)
  end.
End sending.

(** ** Logs before the connection *)

(** The logs that find room, each one tried in turn. *)
Fixpoint fitting (room : Z) (logs : list (Z * list Z)) : list (Z * list Z) :=
  match logs with
  | [] => []
  | l :: logs => let size := Z.of_nat (length l.2) + sizeof_CDataItem in if size <=? room then l :: fitting (room - size) logs else fitting room logs
  end.
Definition cached (c : CFdbLogCache) : list (Z * list Z) := map (fun it => (di_mCode it, di_mLogData it)) (lc_mCache c).

Lemma fitting_length room logs : (length (fitting room logs) <= length logs)%nat.
Proof. revert room. induction logs as [|l logs IH]; intros room; [done|]. cbn [fitting]. destruct (_ <=? _); cbn [length]; [specialize (IH (room - (Z.of_nat (length l.2) + sizeof_CDataItem)))|specialize (IH room)]; lia. Qed.

(** What happens before there is a connection: a log of the thread of the context, one of another
    thread, and the turn of a job. *)
Inductive LpOp := LogHere (l : Z * list Z) | LogThere (l : Z * list Z) | RunJob.
Definition lp_step (op : LpOp) p : option (CLogProducer * list (Z * list Z)) :=
  match op with
  | LogHere l => sendLog true true l.1 l.2 p
  | LogThere l => sendLog false true l.1 l.2 p
  | RunJob => callSendLog true p
  end.
Fixpoint lp_run (ops : list LpOp) p : option (CLogProducer * list (Z * list Z)) :=
  match ops with [] => Some (p, []) | op :: ops => '(p, out) ← lp_step op p; '(p, out') ← lp_run ops p; Some (p, out ++ out') end.
(** The logs in the order they come to the thread of the context, and those that wait for it. *)
Fixpoint arrivals (ops : list LpOp) (jobs : list (Z * list Z)) : list (Z * list Z) * list (Z * list Z) :=
  match ops with
  | [] => ([], jobs)
  | LogHere l :: ops => let '(done_, jobs) := arrivals ops jobs in (l :: done_, jobs)
  | LogThere l :: ops => arrivals ops (jobs ++ [l])
  | RunJob :: ops => match jobs with [] => arrivals ops [] | l :: jobs => let '(done_, jobs) := arrivals ops jobs in (l :: done_, jobs) end
  end.
Definition op_log_ok (op : LpOp) : Prop := match op with LogHere l | LogThere l => log_ok l | RunJob => True end.

Record offline c p : Prop := { of_cache : lp_mLogCache p = Some c; of_ok : lc_ok c; of_stop : lc_mStopIfFull c = true; of_max : 0 < lc_mMaxSize c; of_connected : lp_connected p = false }.

(** One log: it is kept if it fits, and otherwise the cache knows that one was dropped. *)
Lemma deliver_offline c p l : offline c p -> log_ok l ->
  exists c', deliver true l.1 l.2 p = Some (lp_set_cache (Some c') p, []) /\ offline c' (lp_set_cache (Some c') p) /\ lc_mMaxSize c' = lc_mMaxSize c /\
    if Z.of_nat (length l.2) + sizeof_CDataItem <=? lc_mMaxSize c - weights (lc_mCache c)
    then cached c' = cached c ++ [l] /\ lc_mFull c' = lc_mFull c /\ weights (lc_mCache c') = weights (lc_mCache c) + (Z.of_nat (length l.2) + sizeof_CDataItem)
    else cached c' = cached c /\ lc_mFull c' = true /\ weights (lc_mCache c') = weights (lc_mCache c).
Proof.
  intros [Hc Hok Hst Hm Hcon] Hl. unfold log_ok in Hl. unfold deliver. rewrite Hcon, Hc. destruct (lc_push_spec c l.2 l.1 Hok ltac:(lia)) as (c' & E & Hok' & Hspec). rewrite E. cbn [mbind option_bind].
  destruct ((lc_mMaxSize c =? 0) || (Z.of_nat (length l.2) =? 0)) eqn:E0; [lia|]. rewrite Hst in Hspec.
  assert (lc_mMaxSize c' = lc_mMaxSize c /\ lc_mStopIfFull c' = true) as [Em Es].
  { unfold lc_push in E. replace (Z.of_nat (length l.2) <=? 0) with (Z.of_nat (length l.2) =? 0) in E by lia. rewrite E0, Hst in E. destruct (needed _ c) as [n|]; [|done]. cbn [mbind option_bind] in E.
    destruct (lc_mMaxSize c <? n); injection E as <-; by rewrite ?Hst. }
  exists c'. split; [done|]. split; [by split; rewrite ?Em|]. split; [done|].
  destruct (Z.leb_spec (weights (lc_mCache c) + Z.of_nat (length l.2) + sizeof_CDataItem) (lc_mMaxSize c)), (Z.leb_spec (Z.of_nat (length l.2) + sizeof_CDataItem) (lc_mMaxSize c - weights (lc_mCache c))); try lia; destruct Hspec as [Hi Hf].
  - unfold cached. rewrite Hi, map_app, weights_app. split_and!; [by destruct l|done|]. unfold weights, weight. cbn [di_mSize]. lia.
  - unfold cached. by rewrite Hi.
Qed.

(** After [logs] have come to the thread of the context, and with [jobs] still on their way. *)
Record after (logs jobs : list (Z * list Z)) c p c' p' : Prop := {
  af_offline : offline c' p'; af_jobs : lp_jobs p' = jobs; af_log : lp_log p' = lp_log p;
  af_cached : cached c' = cached c ++ fitting (lc_mMaxSize c - weights (lc_mCache c)) logs;
  af_full : lc_mFull c' = lc_mFull c || negb (length (fitting (lc_mMaxSize c - weights (lc_mCache c)) logs) =? length logs)%nat }.
Lemma after_log l ops c p logs jobs : offline c p -> log_ok l ->
  (forall c1 p1, offline c1 p1 -> lp_jobs p1 = lp_jobs p -> exists c' p', lp_run ops p1 = Some (p', []) /\ after logs jobs c1 p1 c' p') ->
  exists c' p', ('(p, out) ← deliver true l.1 l.2 p; '(p, out') ← lp_run ops p; Some (p, out ++ out')) = Some (p', []) /\ after (l :: logs) jobs c p c' p'.
Proof.
  intros Hof Hl IH. destruct (deliver_offline c p l Hof Hl) as (c1 & -> & Hof1 & Hm & Hcase). cbn [mbind option_bind].
  destruct (IH c1 _ Hof1 eq_refl) as (c' & p' & -> & [Hof' Hj Hlg Hca Hfu]). cbn [mbind option_bind app]. exists c', p'. split; [done|].
  rewrite Hm in Hca, Hfu. set (sz := Z.of_nat (length l.2) + sizeof_CDataItem) in *. set (room := lc_mMaxSize c - weights (lc_mCache c)) in *.
  destruct (sz <=? room) eqn:Efit; destruct Hcase as (E1 & E2 & E3); rewrite E3 in Hca, Hfu.
  - replace (lc_mMaxSize c - (weights (lc_mCache c) + sz)) with (room - sz) in Hca, Hfu by lia.
    split; try done; cbn [fitting]; fold sz; fold room; rewrite Efit; [by rewrite Hca, E1, <- app_assoc|by rewrite Hfu, E2].
  - fold room in Hca, Hfu. split; try done; cbn [fitting]; fold sz; fold room; rewrite Efit; [by rewrite Hca, E1|].
    rewrite Hfu, E2. cbn [length orb]. pose proof (fitting_length room logs). destruct (Nat.eqb_spec (length (fitting room logs)) (S (length logs))); [lia|]. by rewrite orb_true_r.
Qed.

Lemma run_offline ops : forall c p, offline c p -> Forall op_log_ok ops -> Forall log_ok (lp_jobs p) ->
  exists c' p', lp_run ops p = Some (p', []) /\ after (arrivals ops (lp_jobs p)).1 (arrivals ops (lp_jobs p)).2 c p c' p'.
Proof.
  induction ops as [|op ops IH]; intros c p Hof Ho Hj; cbn [lp_run arrivals].
  { exists c, p. split; [done|]. split; try done; cbn [fst fitting length]; by rewrite ?app_nil_r, ?orb_false_r. }
  inversion Ho as [|? ? Ho1 Ho2]; subst. destruct op as [l|l|]; cbn [lp_step op_log_ok] in *.
  - unfold sendLog. destruct (arrivals ops (lp_jobs p)) as [logs jobs] eqn:Ea. cbn [fst snd]. apply after_log; [done|done|]. intros c1 p1 H1 Hj1. destruct (IH c1 p1 H1 Ho2) as (c' & p' & R); [by rewrite Hj1|]. rewrite Hj1, Ea in R. by exists c', p'.
  - destruct l as [code data]. destruct (IH c (lp_set_jobs (lp_jobs p ++ [(code, data)]) p)) as (c' & p' & E & []); [by destruct Hof; split|done|apply Forall_app; split; [done|by constructor]|].
    exists c', p'. unfold sendLog. cbn [mbind option_bind fst snd]. rewrite E. by split; [|split].
  - unfold callSendLog. destruct (lp_jobs p) as [|[code data] jobs] eqn:Ej.
    + cbn [mbind option_bind]. destruct (IH c p Hof Ho2) as (c' & p' & -> & R); [by rewrite Ej|]. rewrite Ej in R. cbn [mbind option_bind app]. by exists c', p'.
    + inversion Hj as [|? ? Hl Hj']; subst. destruct (arrivals ops jobs) as [logs jobs'] eqn:Ea. cbn [fst snd].
      destruct (after_log (code, data) ops c (lp_set_jobs jobs p) logs jobs') as (c' & p' & E & R); [by destruct Hof; split|done| |destruct R; exists c', p'; by split; [|split]].
      intros c1 p1 H1 Hj1. cbn [lp_set_jobs lp_jobs] in Hj1. destruct (IH c1 p1 H1 Ho2) as (c' & p' & R); [by rewrite Hj1|]. rewrite Hj1, Ea in R. by exists c', p'.
Qed.

(** ** Going online *)

Section online.
Variable le : bool.
Variable obj : MsgObject.
Variables name ns_name : string.

Lemma send_all_online logs : forall p, lp_connected p = true -> send_all true true logs p = Some (p, logs).
Proof.
  induction logs as [|[code data] logs IH]; intros p Hp; [done|]. cbn [send_all]. unfold sendLog, deliver. rewrite Hp. cbn [mbind option_bind]. rewrite IH by done. done.
Qed.
Lemma checkpoint_online e p text bs : lp_connected p = true -> raw_build le (logFDBus_build (lp_env e p) (checkpoint_msg obj text) None name ns_name FDB_LOG_QOS) = Some bs ->
  sendCheckpoint le obj name ns_name e true true text p = Some (p, [(REQ_FDBUS_LOG, bs)]).
Proof. intros Hp E. unfold sendCheckpoint, logFDBus. rewrite E. cbn [mbind option_bind]. unfold sendLog, deliver. by rewrite Hp. Qed.

Definition obj_ok : Prop := in_u 32 (ob_objId obj).
Lemma checkpoint_built e p text : env_ok e -> obj_ok -> str_ok name -> str_ok ns_name -> str_ok text -> is_empty_str text = false ->
  exists bs, raw_build le (logFDBus_build (lp_env e p) (checkpoint_msg obj text) None name ns_name FDB_LOG_QOS) = Some bs.
Proof.
  intros He Ho Hn Hns Ht Hte. destruct (log_printed (I := 0) le le false (lp_env e p) (checkpoint_msg obj text) None name ns_name FDB_LOG_QOS) as (bs & E & _); [| | |by exists bs].
  - assert (str_ok EmptyString) as H0 by (by apply (bool_decide_unpack _); vm_compute). unfold checkpoint_msg, msg_request, msg_stamp. destruct (ob_stamp obj); (split; try done; cbn; unfold in_s, in_u; try (vm_compute; split; congruence)).
  - unfold checkpoint_msg, msg_request, msg_stamp. by destruct (ob_stamp obj).
  - unfold log_data_ok. replace (m_mStringData (checkpoint_msg obj text)) with text by done. by rewrite Hte.
Qed.
End online.

Lemma fitting_all room logs : (length (fitting room logs) =? length logs)%nat = bool_decide (fitting room logs = logs).
Proof.
  case_bool_decide as E; [by rewrite E, Nat.eqb_refl|]. apply Nat.eqb_neq. intros El. apply E. clear E. revert room El. induction logs as [|l logs IH]; intros room El; [done|].
  cbn [fitting] in *. destruct (_ <=? _); cbn [length] in El; [f_equal; apply IH; lia|]. pose proof (fitting_length room logs). lia.
Qed.

(** Logs written before there is a connection, from whatever threads: when the log server
    is found it gets a head line, then those that found room in the cache in the order they came to
    the thread of the context, then a warning exactly when one did not find room. The cache is empty
    after that, and what is still on its way to the thread of the context stays so. *)
Theorem early_logs_delivered (le : bool) (obj : MsgObject) (name ns_name : string) (e e' : LogEnv) (size : Z) (ops : list LpOp) :
  0 < size < 2 ^ 29 -> env_ok e -> env_ok e' -> obj_ok obj -> str_ok name -> str_ok ns_name -> Forall op_log_ok ops ->
  let logs := (arrivals ops []).1 in
  exists p p' head mark, lp_run ops (CLogProducer_new size) = Some (p, []) /\
    raw_build le (logFDBus_build (lp_env e p) (checkpoint_msg obj mLogHead) None name ns_name FDB_LOG_QOS) = Some head /\
    raw_build le (logFDBus_build (lp_env e' p) (checkpoint_msg obj mBreakMark) None name ns_name FDB_LOG_QOS) = Some mark /\
    lp_onOnline le obj name ns_name e e' true true (lp_set_connected true p) =
      Some (p', (REQ_FDBUS_LOG, head) :: fitting size logs ++ (if bool_decide (fitting size logs = logs) then [] else [(REQ_FDBUS_LOG, mark)])) /\
    (exists c, lp_mLogCache p' = Some c /\ lc_mCache c = [] /\ lc_mFull c = false) /\ lp_jobs p' = (arrivals ops []).2.
Proof.
  intros Hs He He' Ho Hn Hns Hops logs. set (c0 := CFdbLogCache_new size true).
  assert (offline c0 (CLogProducer_new size)) as Hof.
  { assert (c0 = mkLogCache [] size 0 0 true false) as Ec by (unfold c0, CFdbLogCache_new; by destruct (Z.ltb_spec size 0); [lia|]).
    split; [unfold CLogProducer_new; cbn [lp_mLogCache]; by destruct (Z.eqb_spec size 0); [lia|]| |done|rewrite Ec; cbn; lia|done]. rewrite Ec. split; cbn; try done; [lia|left; lia]. }
  destruct (run_offline ops c0 _ Hof Hops) as (c & p & E & [[Hc Hok Hst Hm Hcon] Hj Hlg Hca Hfu]); [by constructor|].
  assert (lc_mMaxSize c0 = size) as Emax by (unfold c0, CFdbLogCache_new; cbn; destruct (Z.ltb_spec size 0); [lia|done]). rewrite Emax in Hca, Hfu. cbn [c0 CFdbLogCache_new lc_mCache cached map app weights lc_mFull orb] in Hca, Hfu. rewrite Z.sub_0_r in Hca, Hfu.
  change (arrivals ops (lp_jobs (CLogProducer_new size))) with (arrivals ops []) in *. fold logs in Hca, Hfu.
  destruct (checkpoint_built le obj name ns_name e p mLogHead) as [head Eh]; [done..|by apply (bool_decide_unpack _); vm_compute|done|].
  destruct (checkpoint_built le obj name ns_name e' p mBreakMark) as [mark Em]; [done..|by apply (bool_decide_unpack _); vm_compute|done|].
  set (p' := lp_set_cache (Some (lc_dump c).1) (lp_set_connected true p)). exists p, p', head, mark. split_and!; [done|done|done| | |].
  - unfold lp_onOnline. cbn [lp_set_connected lp_mLogCache]. rewrite Hc. rewrite (checkpoint_online le obj name ns_name e (lp_set_connected true p) mLogHead head eq_refl Eh). cbn [mbind option_bind lc_dump].
    change (mkLogCache [] (lc_mMaxSize c) 0 0 (lc_mStopIfFull c) false) with (lc_dump c).1. fold p'. rewrite send_all_online by done. cbn [mbind option_bind]. fold (cached c). rewrite Hca, Hfu, fitting_all.
    case_bool_decide; cbn [negb mbind option_bind]; [done|]. rewrite (checkpoint_online le obj name ns_name e' p' mBreakMark mark eq_refl Em). cbn [mbind option_bind]. done.
  - by eexists.
  - done.
Qed.

Lemma early_logs_delivered_witness : exists p p' head mark,
  lp_run [LogThere (1, [7; 7]); LogHere (0, [1; 2; 3]); RunJob; LogHere (0, repeat 5 100); LogThere (1, [9])] (CLogProducer_new 80) = Some (p, []) /\
  lp_onOnline true (mkMsgObject 1 0 true false) "log" "org.fdbus.log-server" demo_env demo_env true true (lp_set_connected true p) = Some (p', [(0, head); (0, [1; 2; 3]); (1, [7; 7]); (0, mark)]) /\
  lp_jobs p' = [(1, [9])].
Proof.
  assert (str_ok "log" /\ str_ok "org.fdbus.log-server") as [H1 H2] by (split; by apply (bool_decide_unpack _); vm_compute).
  assert (env_ok demo_env) as He by (split; by apply (bool_decide_unpack _); vm_compute).
  destruct (early_logs_delivered true (mkMsgObject 1 0 true false) "log" "org.fdbus.log-server" demo_env demo_env 80 [LogThere (1, [7; 7]); LogHere (0, [1; 2; 3]); RunJob; LogHere (0, repeat 5 100); LogThere (1, [9])])
    as (p & p' & head & mark & E & _ & _ & O & _ & J); [lia|done|done|unfold obj_ok, in_u; cbn; lia|done|done|repeat (apply Forall_cons; split; [unfold op_log_ok, log_ok; cbn; lia || done|]); by apply Forall_nil|].
  exists p, p', head, mark. split; [exact E|]. split; [rewrite O; by vm_compute|rewrite J; by vm_compute].
Defined.
