(* ===== verification/LogServer.v ===== *)
(** The log server and the log viewer: [CLogServer] of src/log/main_log_server.cpp, [CLogClient] of
    src/log/main_log_client.cpp and the configuration both keep in src/log/fdb_log_config.cpp.

    The server prints, stores, caches and forwards logs and tells the log clients of all processes
    what to log. It wants logs when somebody gets them: a terminal, a file, its cache or a viewer.
    [log_config_agreed]: whatever happens, every log client has the filters of the configuration the
    server holds. *)
From S2P Require Import Prelude CommonDefs Serializer Codec WireBase NsMessages Subscribe Message SocketFactory LogMessages LogPrinter LogCache LogFiles LogProducer.
From stdpp Require Import gmap.
Open Scope Z_scope.

(** ** The configuration *)

(** The members of [CFdbLogParams] for messages, for traces, and which of them the command line
    sets. Flags are numbers. *)
Record LoggerParams := mkLoggerParams {
  fdb_disable_request : Z; fdb_disable_reply : Z; fdb_disable_broadcast : Z; fdb_disable_subscribe : Z; fdb_disable_global_logger : Z; fdb_raw_data_clipping_size : Z;
  fdb_log_host_white_list : list string; fdb_log_endpoint_white_list : list string; fdb_log_busname_white_list : list string;
  fdb_reverse_endpoint_name : Z; fdb_reverse_bus_name : Z; fdb_static_content : Z }.
Record TraceParams := mkTraceParams {
  fdb_debug_trace_level : Z; fdb_disable_global_trace : Z; fdb_cache_size : Z; fdb_trace_host_white_list : list string; fdb_trace_tag_white_list : list string; fdb_reverse_tag : Z;
  fdb_log_path : string; fdb_max_log_storage_size : Z; fdb_max_log_file_size : Z }.
Record Configured := mkConfigured {
  cd_disable_request : bool; cd_disable_reply : bool; cd_disable_broadcast : bool; cd_disable_subscribe : bool; cd_disable_global_logger : bool; cd_raw_data_clipping_size : bool;
  cd_debug_trace_level : bool; cd_disable_global_trace : bool; cd_cache_size : bool; cd_reverse_endpoint_name : bool; cd_reverse_bus_name : bool; cd_reverse_tag : bool; cd_log_path : bool;
  cd_max_log_storage_size : bool; cd_max_log_file_size : bool; cd_static_content : bool }.
Inductive EFdbCfgMode := CFG_MODE_NONE | CFG_MODE_INCREMENTAL | CFG_MODE_ABSOLUTE.
Record CFdbLogParams := mkLogParams {
  pa_logger : LoggerParams; pa_trace : TraceParams; pa_configured : Configured;
  fdb_disable_std_output : Z; fdb_log_compress : Z; fdb_exportable_level : Z; fdb_config_mode : EFdbCfgMode; fdb_info_mode : Z; fdb_sync : Z }.
Implicit Types g : CFdbLogParams.
Definition pa_set_logger (l : LoggerParams) g : CFdbLogParams :=
  mkLogParams l (pa_trace g) (pa_configured g) (fdb_disable_std_output g) (fdb_log_compress g) (fdb_exportable_level g) (fdb_config_mode g) (fdb_info_mode g) (fdb_sync g).
Definition pa_set_trace (t : TraceParams) g : CFdbLogParams :=
  mkLogParams (pa_logger g) t (pa_configured g) (fdb_disable_std_output g) (fdb_log_compress g) (fdb_exportable_level g) (fdb_config_mode g) (fdb_info_mode g) (fdb_sync g).

Definition on (flag : Z) : bool := negb (flag =? 0).
Definition flag_of (b : bool) : Z := if b then 1 else 0.

Definition fdb_populate_white_list_cmd (out_filter white_list : list string) : list string := out_filter ++ map c_str white_list.

Definition fdb_fill_logger_config (config : FdbMsgLogConfig) (global_enabled : bool) g : FdbMsgLogConfig :=
  let l := pa_logger g in
  mkLogConfig global_enabled (negb (on (fdb_disable_request l))) (negb (on (fdb_disable_reply l))) (negb (on (fdb_disable_broadcast l))) (negb (on (fdb_disable_subscribe l)))
    (fdb_raw_data_clipping_size l) (fdb_populate_white_list_cmd (lg_mHostWhiteList config) (fdb_log_host_white_list l))
    (fdb_populate_white_list_cmd (lg_mEndpointWhiteList config) (fdb_log_endpoint_white_list l)) (fdb_populate_white_list_cmd (lg_mBusnameWhiteList config) (fdb_log_busname_white_list l))
    (on (fdb_reverse_endpoint_name l)) (on (fdb_reverse_bus_name l)) (on (fdb_static_content l)).
Definition fdb_fill_trace_config (config : FdbTraceConfig) (global_enabled : bool) g : FdbTraceConfig :=
  let t := pa_trace g in
  mkTraceConfig global_enabled (clamp_log_level (fdb_debug_trace_level t)) (fdb_populate_white_list_cmd (tr_mHostWhiteList config) (fdb_trace_host_white_list t))
    (fdb_populate_white_list_cmd (tr_mTagWhiteList config) (fdb_trace_tag_white_list t)) (on (fdb_reverse_tag t)) (fdb_cache_size t) (c_str (fdb_log_path t))
    (fdb_max_log_storage_size t) (fdb_max_log_file_size t).
Definition fdb_dump_logger_config (config : FdbMsgLogConfig) g : CFdbLogParams :=
  pa_set_logger (mkLoggerParams (flag_of (negb (lg_mEnableRequest config))) (flag_of (negb (lg_mEnableReply config))) (flag_of (negb (lg_mEnableBroadcast config)))
    (flag_of (negb (lg_mEnableSubscribe config))) (flag_of (negb (lg_mGlobalEnable config))) (lg_mRawDataClippingSize config) (lg_mHostWhiteList config) (lg_mEndpointWhiteList config)
    (lg_mBusnameWhiteList config) (flag_of (lg_mReverseEndpointName config)) (flag_of (lg_mReverseBusName config)) (flag_of (lg_mStaticContent config))) g.
Definition fdb_dump_trace_config (config : FdbTraceConfig) g : CFdbLogParams :=
  pa_set_trace (mkTraceParams (tr_mLogLevel config) (flag_of (negb (tr_mGlobalEnable config))) (tr_mCacheSize config) (tr_mHostWhiteList config) (tr_mTagWhiteList config)
    (flag_of (tr_mReverseTag config)) (tr_mLogPath config) (tr_mMaxLogStorageSize config) (tr_mMaxLogFileSize config)) g.

(** The members the command line sets replace those of [config]. *)
Definition upd {A} (b : bool) (new old : A) : A := if b then new else old.
Definition upd_list (white_list old : list string) : list string := match white_list with [] => old | _ => map c_str white_list end.
Definition nonempty (l : list string) : bool := match l with [] => false | _ => true end.
Definition fdb_update_logger_config (config : FdbMsgLogConfig) (global_enabled : bool) g : bool * FdbMsgLogConfig :=
  let l := pa_logger g in let d := pa_configured g in
  (cd_disable_global_logger d || cd_disable_request d || cd_disable_reply d || cd_disable_broadcast d || cd_disable_subscribe d || cd_raw_data_clipping_size d ||
   nonempty (fdb_log_host_white_list l) || nonempty (fdb_log_endpoint_white_list l) || nonempty (fdb_log_busname_white_list l) ||
   cd_reverse_endpoint_name d || cd_reverse_bus_name d || cd_static_content d,
   mkLogConfig (upd (cd_disable_global_logger d) global_enabled (lg_mGlobalEnable config))
     (upd (cd_disable_request d) (negb (on (fdb_disable_request l))) (lg_mEnableRequest config)) (upd (cd_disable_reply d) (negb (on (fdb_disable_reply l))) (lg_mEnableReply config))
     (upd (cd_disable_broadcast d) (negb (on (fdb_disable_broadcast l))) (lg_mEnableBroadcast config)) (upd (cd_disable_subscribe d) (negb (on (fdb_disable_subscribe l))) (lg_mEnableSubscribe config))
     (upd (cd_raw_data_clipping_size d) (fdb_raw_data_clipping_size l) (lg_mRawDataClippingSize config)) (upd_list (fdb_log_host_white_list l) (lg_mHostWhiteList config))
     (upd_list (fdb_log_endpoint_white_list l) (lg_mEndpointWhiteList config)) (upd_list (fdb_log_busname_white_list l) (lg_mBusnameWhiteList config))
     (upd (cd_reverse_endpoint_name d) (on (fdb_reverse_endpoint_name l)) (lg_mReverseEndpointName config)) (upd (cd_reverse_bus_name d) (on (fdb_reverse_bus_name l)) (lg_mReverseBusName config))
     (upd (cd_static_content d) (on (fdb_static_content l)) (lg_mStaticContent config))).
Definition fdb_update_trace_config (config : FdbTraceConfig) (global_enabled : bool) g : bool * FdbTraceConfig :=
  let t := pa_trace g in let d := pa_configured g in
  (cd_disable_global_trace d || cd_debug_trace_level d || cd_cache_size d || nonempty (fdb_trace_host_white_list t) || nonempty (fdb_trace_tag_white_list t) || cd_reverse_tag d || cd_log_path d ||
   cd_max_log_storage_size d || cd_max_log_file_size d,
   mkTraceConfig (upd (cd_disable_global_trace d) global_enabled (tr_mGlobalEnable config)) (upd (cd_debug_trace_level d) (clamp_log_level (fdb_debug_trace_level t)) (tr_mLogLevel config))
     (upd_list (fdb_trace_host_white_list t) (tr_mHostWhiteList config)) (upd_list (fdb_trace_tag_white_list t) (tr_mTagWhiteList config)) (upd (cd_reverse_tag d) (on (fdb_reverse_tag t)) (tr_mReverseTag config))
     (upd (cd_cache_size d) (fdb_cache_size t) (tr_mCacheSize config)) (upd (cd_log_path d) (c_str (fdb_log_path t)) (tr_mLogPath config))
     (upd (cd_max_log_storage_size d) (fdb_max_log_storage_size t) (tr_mMaxLogStorageSize config)) (upd (cd_max_log_file_size d) (fdb_max_log_file_size t) (tr_mMaxLogFileSize config))).

(** ** The server *)

Record CLogServer := mkLogServer {
  ls_g : CFdbLogParams; ls_mLoggerClientTbl : gset Z; ls_mTraceClientTbl : gset Z; ls_mLogCache : CFdbLogCache; ls_mFileManager : CLogFileManager;
  ls_mEnableGlogalLogger : bool; ls_mEnableGlobalTrace : bool; ls_exportable : Z }.
Implicit Types s : CLogServer.
Definition ls_set_clients (loggers tracers : gset Z) s : CLogServer :=
  mkLogServer (ls_g s) loggers tracers (ls_mLogCache s) (ls_mFileManager s) (ls_mEnableGlogalLogger s) (ls_mEnableGlobalTrace s) (ls_exportable s).
Definition ls_set_enable (logger trace : bool) s : CLogServer :=
  mkLogServer (ls_g s) (ls_mLoggerClientTbl s) (ls_mTraceClientTbl s) (ls_mLogCache s) (ls_mFileManager s) logger trace (ls_exportable s).
Definition ls_set_g (g : CFdbLogParams) s : CLogServer :=
  mkLogServer g (ls_mLoggerClientTbl s) (ls_mTraceClientTbl s) (ls_mLogCache s) (ls_mFileManager s) (ls_mEnableGlogalLogger s) (ls_mEnableGlobalTrace s) (ls_exportable s).
Definition ls_set_stores (c : CFdbLogCache) (f : CLogFileManager) s : CLogServer :=
  mkLogServer (ls_g s) (ls_mLoggerClientTbl s) (ls_mTraceClientTbl s) c f (ls_mEnableGlogalLogger s) (ls_mEnableGlobalTrace s) (ls_exportable s).

(** What the server does besides: events for all who subscribe, events for one session, replies,
    lines on the terminal, what it does to files and subscriptions it enters. *)
Inductive LsOut :=
  | LsBroadcast (code : Z) (payload : list Z) | LsSend (sid code : Z) (payload : list Z) | LsReply (payload : option (list Z)) | LsPrint (line : string)
  | LsFile (op : FsOp) | LsSubscribe (sid code : Z).

Definition logEnabled (f : CLogFileManager) : bool := 0 <=? lf_mFileId f.
Definition ls_checkLogEnabled (global_disable no_client_connected : bool) s : bool :=
  if global_disable then false else
  negb (lc_mMaxSize (ls_mLogCache s) =? 0) || negb (on (fdb_disable_std_output (ls_g s))) || negb no_client_connected || logEnabled (ls_mFileManager s).

(** A number of kilobytes in 32 bits. *)
Definition kB (n : Z) : option Z := if bool_decide (in_s 32 (n * 1024)) then Some (n * 1024) else None.

Definition logger_disabled s : bool := on (fdb_disable_global_logger (pa_logger (ls_g s))).
Definition trace_disabled s : bool := on (fdb_disable_global_trace (pa_trace (ls_g s))).

Section server.
Context {I : Indet}.
Variable le : bool.
Variable date : Z -> string.
Variable opens : string -> bool.
(** What [fwrite] writes of a line. *)
Variable written : string -> Z.
Variable fuel : nat.

Definition CLogServer_new g (listing : option (list (string * option Z))) : option CLogServer :=
  cache ← kB (fdb_cache_size (pa_trace g));
  storage ← kB (fdb_max_log_storage_size (pa_trace g));
  file ← kB (fdb_max_log_file_size (pa_trace g));
  let s := mkLogServer g ∅ ∅ (CFdbLogCache_new cache false) (CLogFileManager_new (Some (fdb_log_path (pa_trace g))) None storage file (on (fdb_log_compress g)) listing) false false
             (if fdb_exportable_level g <? 0 then FDB_EXPORTABLE_DOMAIN else fdb_exportable_level g) in
  Some (ls_set_enable (ls_checkLogEnabled (logger_disabled s) false s) (ls_checkLogEnabled (trace_disabled s) false s) s).

Definition build {T} `{Parcelable T} (x : T) : option (list Z) := fst <$> builder_build (serializer_new le (replicate (Z.to_nat FDB_SCRATCH_CACHE_SIZE) 0)) x.
Definition logger_payload s : option (list Z) := build (fdb_fill_logger_config dflt (ls_mEnableGlogalLogger s) (ls_g s)).
Definition trace_payload s : option (list Z) := build (fdb_fill_trace_config dflt (ls_mEnableGlobalTrace s) (ls_g s)).
Definition tell_logger s : option (list LsOut) := bs ← logger_payload s; Some [LsBroadcast NTF_LOGGER_CONFIG bs].
Definition tell_trace s : option (list LsOut) := bs ← trace_payload s; Some [LsBroadcast NTF_TRACE_CONFIG bs].

Definition onSubscribeFDBusLogger (sid : Z) s : option (CLogServer * list LsOut) :=
  let is_first := bool_decide (ls_mLoggerClientTbl s = ∅) in
  let s := if bool_decide (sid ∈ ls_mLoggerClientTbl s) then s else
           let s := ls_set_clients ({[sid]} ∪ ls_mLoggerClientTbl s) (ls_mTraceClientTbl s) s in
           ls_set_enable (ls_checkLogEnabled (logger_disabled s) false s) (ls_mEnableGlobalTrace s) s in
  out ← (if is_first then tell_logger s else Some []); Some (s, out).
Definition onSubscribeTraceLogger (sid : Z) s : option (CLogServer * list LsOut) :=
  let is_first := bool_decide (ls_mTraceClientTbl s = ∅) in
  let s := if bool_decide (sid ∈ ls_mTraceClientTbl s) then s else
           let s := ls_set_clients (ls_mLoggerClientTbl s) ({[sid]} ∪ ls_mTraceClientTbl s) s in
           ls_set_enable (ls_mEnableGlogalLogger s) (ls_checkLogEnabled (trace_disabled s) false s) s in
  out ← (if is_first then tell_trace s else Some []); Some (s, out).

Definition forwardLogData (code : Z) (payload : list Z) s : option (CLogServer * list LsOut) :=
  c ← lc_push payload code (ls_mLogCache s);
  let wanted := ((code =? NTF_FDBUS_LOG) && negb (bool_decide (ls_mLoggerClientTbl s = ∅))) || ((code =? NTF_TRACE_LOG) && negb (bool_decide (ls_mTraceClientTbl s = ∅))) in
  Some (ls_set_stores c (ls_mFileManager s) s, if wanted then [LsBroadcast code payload] else []).

(** A log comes in: [print] makes its line. *)
Definition showLog (print : CFdbSimpleDeserializer -> bool -> option string) (payload : list Z) s : option (CLogServer * list LsOut) :=
  if negb (on (fdb_disable_std_output (ls_g s))) || logEnabled (ls_mFileManager s) then
    line ← print (deserializer_new le (Some payload) (Z.of_nat (length payload))) (on (fdb_static_content (pa_logger (ls_g s))));
    let shown := if negb (on (fdb_disable_std_output (ls_g s))) then [LsPrint line] else [] in
    if logEnabled (ls_mFileManager s) then
      '(_, f, done) ← lf_store date opens fuel line (written line) (ls_mFileManager s);
      Some (ls_set_stores (ls_mLogCache s) f s, shown ++ map LsFile done)
    else Some (s, shown)
  else Some (s, []).
Definition onLog (print : CFdbSimpleDeserializer -> bool -> option string) (code : Z) (payload : list Z) s : option (CLogServer * list LsOut) :=
  '(s, out) ← showLog print payload s; '(s, out') ← forwardLogData code payload s; Some (s, out ++ out').

Definition onSetLogger (payload : list Z) s : option (CLogServer * list LsOut) :=
  '(in_config, ok) ← parser_parse le (Some payload) (Z.of_nat (length payload)) (dflt : FdbMsgLogConfig);
  if negb ok then Some (s, []) else
  let s := ls_set_g (fdb_dump_logger_config in_config (ls_g s)) s in
  let s := ls_set_enable (ls_checkLogEnabled (logger_disabled s) (bool_decide (ls_mLoggerClientTbl s = ∅)) s) (ls_mEnableGlobalTrace s) s in
  bs ← logger_payload s; Some (s, [LsBroadcast NTF_LOGGER_CONFIG bs; LsReply (Some bs)]).
(** [listing]: what is in the new directory. *)
Definition onSetTrace (payload : list Z) (listing : option (list (string * option Z))) s : option (CLogServer * list LsOut) :=
  '(in_config, ok) ← parser_parse le (Some payload) (Z.of_nat (length payload)) (dflt : FdbTraceConfig);
  if negb ok then Some (s, []) else
  let s := ls_set_g (fdb_dump_trace_config in_config (ls_g s)) s in
  let t := pa_trace (ls_g s) in
  cache ← kB (fdb_cache_size t);
  let c := lc_resize cache (ls_mLogCache s) in
  let f := (setWorkingPath (Some (fdb_log_path t)) listing (ls_mFileManager s)).2 in
  storage ← kB (fdb_max_log_storage_size t);
  file ← kB (fdb_max_log_file_size t);
  let f := (setStorageSize storage file f).2 in
  let s := ls_set_stores c f s in
  let s := ls_set_enable (ls_mEnableGlogalLogger s) (ls_checkLogEnabled (trace_disabled s) (bool_decide (ls_mTraceClientTbl s = ∅)) s) s in
  bs ← trace_payload s; Some (s, [LsBroadcast NTF_TRACE_CONFIG bs; LsReply (Some bs)]).
Definition onLogSync s : CLogServer * list LsOut := (ls_set_stores (ls_mLogCache s) (lf_sync 0 (ls_mFileManager s)) s, [LsReply None]).
(** There is no [break] at the end: a synchronisation follows. *)
Definition onLogStart (sid : Z) (payload : list Z) s : option (CLogServer * list LsOut) :=
  '(log_start, ok) ← parser_parse le (Some payload) (Z.of_nat (length payload)) (dflt : FdbLogStart);
  if negb ok then Some (s, []) else
  '(s, out1) ← onSubscribeFDBusLogger sid s;
  '(s, out2) ← onSubscribeTraceLogger sid s;
  cache_size ← (if 0 <? st_mCacheSize log_start then kB (st_mCacheSize log_start) else Some (st_mCacheSize log_start));
  let dumped := map (fun l : Z * list Z => LsSend sid l.1 l.2) (lc_dump_session cache_size (ls_mLogCache s)) in
  let '(s, out3) := onLogSync s in
  Some (s, LsSubscribe sid NTF_FDBUS_LOG :: out1 ++ LsSubscribe sid NTF_TRACE_LOG :: out2 ++ dumped ++ out3).

Definition ls_onInvoke (sid code : Z) (payload : list Z) (listing : option (list (string * option Z))) s : option (CLogServer * list LsOut) :=
  if code =? REQ_FDBUS_LOG then onLog printFdbLog NTF_FDBUS_LOG payload s
  else if code =? REQ_SET_LOGGER_CONFIG then onSetLogger payload s
  else if code =? REQ_GET_LOGGER_CONFIG then bs ← logger_payload s; Some (s, [LsReply (Some bs)])
  else if code =? REQ_TRACE_LOG then onLog printTraceLog NTF_TRACE_LOG payload s
  else if code =? REQ_SET_TRACE_CONFIG then onSetTrace payload listing s
  else if code =? REQ_GET_TRACE_CONFIG then bs ← trace_payload s; Some (s, [LsReply (Some bs)])
  else if code =? REQ_LOG_START then onLogStart sid payload s
  else if code =? REQ_LOG_SYNC then Some (onLogSync s)
  else Some (s, []).

Definition subscribe_item (sid code : Z) s : option (CLogServer * list LsOut) :=
  if code =? NTF_LOGGER_CONFIG then bs ← logger_payload s; Some (s, [LsSend sid NTF_LOGGER_CONFIG bs])
  else if code =? NTF_TRACE_CONFIG then bs ← trace_payload s; Some (s, [LsSend sid NTF_TRACE_CONFIG bs])
  else if code =? NTF_FDBUS_LOG then onSubscribeFDBusLogger sid s
  else if code =? NTF_TRACE_LOG then onSubscribeTraceLogger sid s
  else Some (s, []).
Fixpoint ls_onSubscribe (sid : Z) (codes : list Z) s : option (CLogServer * list LsOut) :=
  match codes with [] => Some (s, []) | code :: codes => '(s, out) ← subscribe_item sid code s; '(s, out') ← ls_onSubscribe sid codes s; Some (s, out ++ out') end.

Definition logger_gone (sid : Z) s : option (CLogServer * list LsOut) :=
  if bool_decide (sid ∈ ls_mLoggerClientTbl s) then
    let s := ls_set_clients (ls_mLoggerClientTbl s ∖ {[sid]}) (ls_mTraceClientTbl s) s in
    if bool_decide (ls_mLoggerClientTbl s = ∅) then
      let s := ls_set_enable (ls_checkLogEnabled (logger_disabled s) true s) (ls_mEnableGlobalTrace s) s in out ← tell_logger s; Some (s, out)
    else Some (s, [])
  else Some (s, []).
Definition tracer_gone (sid : Z) s : option (CLogServer * list LsOut) :=
  if bool_decide (sid ∈ ls_mTraceClientTbl s) then
    let s := ls_set_clients (ls_mLoggerClientTbl s) (ls_mTraceClientTbl s ∖ {[sid]}) s in
    if bool_decide (ls_mTraceClientTbl s = ∅) then
      let s := ls_set_enable (ls_mEnableGlogalLogger s) (ls_checkLogEnabled (trace_disabled s) true s) s in out ← tell_trace s; Some (s, out)
    else Some (s, [])
  else Some (s, []).
Definition ls_onOffline (sid : Z) s : option (CLogServer * list LsOut) :=
  '(s, out) ← logger_gone sid s; '(s, out') ← tracer_gone sid s; Some (s, out ++ out').
End server.

(** ** Configurations on their way *)

Section config.
Context {I : Indet}.

(** What can be sent. *)
Definition fine {T} `{ParcelableLaws T} (x : T) : Prop := p_wf x /\ 0 < Z.of_nat (length (p_wire x)) <= INT32_MAX - 65536.
Lemma build_fine {T} `{ParcelableLaws T} le (x : T) : fine x -> build le x = Some (p_wire x).
Proof. intros [Hw Hl]. unfold build. rewrite build_wire; [done|by cbn; rewrite length_replicate|done|unfold SER_LIMIT, INT32_MAX in *; lia]. Qed.

Lemma map_c_str l : p_wf l -> map c_str l = l.
Proof.
  intros [Hf _]. induction Hf as [|x l [Hx _] _ IH]; [done|]. cbn [map]. f_equal; [|done]. revert Hx. unfold nul_free. clear. induction x as [|ch x IHx]; [done|]. cbn. intros Hx. inversion_clear Hx.
  destruct (Z.eqb_spec (byte_of_ascii ch) 0); [done|]. by rewrite IHx.
Qed.
Lemma c_str_ok x : str_ok x -> c_str x = x.
Proof. intros Hx. assert (map c_str [x] = [x]) as E; [|by injection E]. apply map_c_str. split; [by constructor|cbn; lia]. Qed.
Lemma on_flag b : on (flag_of b) = b.
Proof. by destruct b. Qed.

Definition lg_set_global (b : bool) (m : FdbMsgLogConfig) : FdbMsgLogConfig :=
  mkLogConfig b (lg_mEnableRequest m) (lg_mEnableReply m) (lg_mEnableBroadcast m) (lg_mEnableSubscribe m) (lg_mRawDataClippingSize m) (lg_mHostWhiteList m) (lg_mEndpointWhiteList m)
    (lg_mBusnameWhiteList m) (lg_mReverseEndpointName m) (lg_mReverseBusName m) (lg_mStaticContent m).
Definition tr_set_global (b : bool) (m : FdbTraceConfig) : FdbTraceConfig :=
  mkTraceConfig b (tr_mLogLevel m) (tr_mHostWhiteList m) (tr_mTagWhiteList m) (tr_mReverseTag m) (tr_mCacheSize m) (tr_mLogPath m) (tr_mMaxLogStorageSize m) (tr_mMaxLogFileSize m).

(** What is taken over from a configuration is what is sent on, but for the global switch. *)
Lemma fill_dump_logger cfg b g : p_wf cfg -> fdb_fill_logger_config dflt b (fdb_dump_logger_config cfg g) = lg_set_global b cfg.
Proof. intros []. destruct cfg. cbn in *. unfold fdb_fill_logger_config. cbn. rewrite !on_flag, !map_c_str, !negb_involutive by done. done. Qed.
Lemma fill_dump_trace cfg b g : p_wf cfg -> fdb_fill_trace_config dflt b (fdb_dump_trace_config cfg g) = tr_set_global b cfg.
Proof.
  intros []. destruct cfg. cbn in *. unfold fdb_fill_trace_config. cbn. rewrite !on_flag, !map_c_str, c_str_ok by done. unfold tr_set_global. cbn. f_equal.
  unfold clamp_log_level. match goal with |- context [FDB_LL_MAX <=? ?x] => destruct (Z.leb_spec FDB_LL_MAX x) end; [lia|done].
Qed.
Lemma fine_logger_global cfg b : fine cfg -> fine (lg_set_global b cfg).
Proof. intros [[] Hl]. split; [by split|]. revert Hl. cbn. unfold FdbMsgLogConfig_wire. cbn. rewrite !length_app. unfold bool_wire. by destruct b, (lg_mGlobalEnable cfg). Qed.
Lemma fine_trace_global cfg b : fine cfg -> fine (tr_set_global b cfg).
Proof. intros [[] Hl]. split; [by split|]. revert Hl. cbn. unfold FdbTraceConfig_wire. cbn. rewrite !length_app. unfold bool_wire. by destruct b, (tr_mGlobalEnable cfg). Qed.
Lemma fill_logger_global b b' g : fdb_fill_logger_config dflt b g = lg_set_global b (fdb_fill_logger_config dflt b' g).
Proof. done. Qed.
Lemma fill_trace_global b b' g : fdb_fill_trace_config dflt b g = tr_set_global b (fdb_fill_trace_config dflt b' g).
Proof. done. Qed.

(** A log client gets what was sent. *)
Lemma hear_logger le host cfg p : fine cfg -> lp_onBroadcast le host NTF_LOGGER_CONFIG (p_wire cfg) p = Some (lp_set_log (logger_filter host cfg) p).
Proof. intros [Hw Hl]. destruct (parse_wire I le cfg dflt Hw Hl) as (y & <- & E). unfold lp_onBroadcast. cbn [Z.eqb NTF_LOGGER_CONFIG Pos.eqb]. rewrite E. done. Qed.
Lemma hear_trace le host cfg p : fine cfg -> lp_onBroadcast le host NTF_TRACE_CONFIG (p_wire cfg) p = Some (lp_set_trace (trace_filter host cfg) p).
Proof. intros [Hw Hl]. destruct (parse_wire I le cfg dflt Hw Hl) as (y & <- & E). unfold lp_onBroadcast. cbn [Z.eqb NTF_LOGGER_CONFIG NTF_TRACE_CONFIG Pos.eqb]. rewrite E. done. Qed.
End config.

(** ** The server and the log clients *)

Section system.
Context {I : Indet}.
Variable le : bool.
Variable date : Z -> string.
Variable opens : string -> bool.
Variable written : string -> Z.
Variable fuel : nat.
(** The log client at the other end of a session: the byte order of its host and the name of it. *)
Variable le_of : Z -> bool.
Variable host_of : Z -> option string.

Definition logger_cfg s : FdbMsgLogConfig := fdb_fill_logger_config dflt (ls_mEnableGlogalLogger s) (ls_g s).
Definition trace_cfg s : FdbTraceConfig := fdb_fill_trace_config dflt (ls_mEnableGlobalTrace s) (ls_g s).

Definition hear_one (sid : Z) (o : LsOut) p : option CLogProducer :=
  match o with
  | LsBroadcast code payload => lp_onBroadcast (le_of sid) (host_of sid) code payload p
  | LsSend sid' code payload => if sid' =? sid then lp_onBroadcast (le_of sid) (host_of sid) code payload p else Some p
  | _ => Some p
  end.
Fixpoint hear (sid : Z) (outs : list LsOut) p : option CLogProducer :=
  match outs with [] => Some p | o :: outs => p ← hear_one sid o p; hear sid outs p end.
Definition hear_all (outs : list LsOut) (l : list (Z * CLogProducer)) : option (list (Z * CLogProducer)) :=
  mapM (fun e : Z * CLogProducer => p ← hear e.1 outs e.2; Some (e.1, p)) l.

(** The log clients that subscribed to the configuration come with the server. *)
Record LogSystem := mkLogSystem { sy_server : CLogServer; sy_producers : list (Z * CLogProducer) }.
Inductive LsEv :=
  | EvProducer (sid cache_size : Z) | EvInvoke (sid code : Z) (payload : list Z) (listing : option (list (string * option Z))) | EvSubscribe (sid : Z) (codes : list Z) | EvOffline (sid : Z).
Definition sys_step (ev : LsEv) (y : LogSystem) : option LogSystem :=
  '(s, out, l) ←
    match ev with
    | EvProducer sid n => '(s, out) ← ls_onSubscribe le sid [NTF_LOGGER_CONFIG; NTF_TRACE_CONFIG] (sy_server y); Some (s, out, sy_producers y ++ [(sid, lp_set_connected true (CLogProducer_new n))])
    | EvInvoke sid code payload listing => '(s, out) ← ls_onInvoke le date opens written (S fuel) sid code payload listing (sy_server y); Some (s, out, sy_producers y)
    | EvSubscribe sid codes => '(s, out) ← ls_onSubscribe le sid codes (sy_server y); Some (s, out, sy_producers y)
    | EvOffline sid => '(s, out) ← ls_onOffline le sid (sy_server y); Some (s, out, List.filter (fun e => negb (e.1 =? sid)) (sy_producers y))
    end;
  l ← hear_all out l; Some (mkLogSystem s l).
Fixpoint sys_run (evs : list LsEv) (y : LogSystem) : option LogSystem := match evs with [] => Some y | ev :: evs => y ← sys_step ev y; sys_run evs y end.

Definition agree (sid : Z) s p : Prop := lp_log p = logger_filter (host_of sid) (logger_cfg s) /\ lp_trace p = trace_filter (host_of sid) (trace_cfg s).

(** Logs are wanted when a viewer is there, unless they are switched off. *)
Record ls_inv s : Prop := {
  lv_logger : fine (logger_cfg s); lv_trace : fine (trace_cfg s);
  lv_log_off : logger_disabled s = true -> ls_mEnableGlogalLogger s = false; lv_log_on : logger_disabled s = false -> ls_mLoggerClientTbl s <> ∅ -> ls_mEnableGlogalLogger s = true;
  lv_trace_off : trace_disabled s = true -> ls_mEnableGlobalTrace s = false; lv_trace_on : trace_disabled s = false -> ls_mTraceClientTbl s <> ∅ -> ls_mEnableGlobalTrace s = true;
  lv_cache : lc_ok (ls_mLogCache s); lv_codes : Forall (fun it => di_mCode it = NTF_FDBUS_LOG \/ di_mCode it = NTF_TRACE_LOG) (lc_mCache (ls_mLogCache s)) }.

Definition goes s s' (outs : list LsOut) : Prop := ls_inv s' /\ forall sid p, agree sid s p -> exists p', hear sid outs p = Some p' /\ agree sid s' p'.

Lemma hear_app sid o1 o2 p : hear sid (o1 ++ o2) p = p ← hear sid o1 p; hear sid o2 p.
Proof. revert p. induction o1 as [|o o1 IH]; intros p; [done|]. cbn [app hear]. destruct (hear_one sid o p); cbn [mbind option_bind]; [apply IH|done]. Qed.
Lemma ls_trans s1 s2 s3 o1 o2 : goes s1 s2 o1 -> goes s2 s3 o2 -> goes s1 s3 (o1 ++ o2).
Proof.
  intros [_ H1] [Hi H2]. split; [done|]. intros sid p Ha. destruct (H1 sid p Ha) as (p1 & E1 & A1). destruct (H2 sid p1 A1) as (p2 & E2 & A2). exists p2. by rewrite hear_app, E1.
Qed.

(** What does not concern the configuration. *)
Definition quiet (o : LsOut) : Prop := match o with LsBroadcast code _ | LsSend _ code _ => code <> NTF_LOGGER_CONFIG /\ code <> NTF_TRACE_CONFIG | _ => True end.
Lemma hear_quiet sid outs p : Forall quiet outs -> hear sid outs p = Some p.
Proof.
  induction 1 as [|o outs Ho _ IH]; [done|]. cbn [hear]. assert (hear_one sid o p = Some p) as ->; [|done].
  assert (forall code payload, code <> NTF_LOGGER_CONFIG /\ code <> NTF_TRACE_CONFIG -> lp_onBroadcast (le_of sid) (host_of sid) code payload p = Some p) as Hq.
  { intros code payload [H1 H2]. unfold lp_onBroadcast. by rewrite (proj2 (Z.eqb_neq _ _) H1), (proj2 (Z.eqb_neq _ _) H2). }
  destruct o; cbn [hear_one quiet] in *; try done; [by apply Hq|]. destruct (_ =? _); [by apply Hq|done].
Qed.
Lemma ls_quiet s s' outs : ls_inv s' -> logger_cfg s' = logger_cfg s -> trace_cfg s' = trace_cfg s -> Forall quiet outs -> goes s s' outs.
Proof. intros Hi E1 E2 Hq. split; [done|]. intros sid p [A1 A2]. exists p. split; [by apply hear_quiet|]. split; by rewrite ?E1, ?E2. Qed.
Lemma goes_logger s s' : ls_inv s' -> trace_cfg s' = trace_cfg s -> goes s s' [LsBroadcast NTF_LOGGER_CONFIG (p_wire (logger_cfg s'))].
Proof. intros Hi E. split; [done|]. intros sid p [A1 A2]. eexists. split; [cbn [hear hear_one]; by rewrite hear_logger by apply Hi|]. split; [done|by rewrite E]. Qed.
Lemma goes_trace s s' : ls_inv s' -> logger_cfg s' = logger_cfg s -> goes s s' [LsBroadcast NTF_TRACE_CONFIG (p_wire (trace_cfg s'))].
Proof. intros Hi E. split; [done|]. intros sid p [A1 A2]. eexists. split; [cbn [hear hear_one]; by rewrite hear_trace by apply Hi|]. split; [by rewrite E|done]. Qed.

Lemma logger_payload_ok s : fine (logger_cfg s) -> logger_payload le s = Some (p_wire (logger_cfg s)).
Proof. apply build_fine. Qed.
Lemma trace_payload_ok s : fine (trace_cfg s) -> trace_payload le s = Some (p_wire (trace_cfg s)).
Proof. apply build_fine. Qed.

(** ** Viewers come and go *)

Lemma check_off no_client s : ls_checkLogEnabled true no_client s = false.
Proof. done. Qed.
Lemma check_on s : ls_checkLogEnabled false false s = true.
Proof. unfold ls_checkLogEnabled. cbn [negb]. by rewrite orb_true_r. Qed.

Lemma inv_logger s s' : ls_inv s -> ls_g s' = ls_g s -> ls_mTraceClientTbl s' = ls_mTraceClientTbl s -> ls_mEnableGlobalTrace s' = ls_mEnableGlobalTrace s -> ls_mLogCache s' = ls_mLogCache s ->
  (logger_disabled s' = true -> ls_mEnableGlogalLogger s' = false) -> (logger_disabled s' = false -> ls_mLoggerClientTbl s' <> ∅ -> ls_mEnableGlogalLogger s' = true) -> ls_inv s'.
Proof.
  intros [] Eg Et Ee Ec Hoff Hon. split; try done; try (unfold trace_cfg, trace_disabled in *; by rewrite ?Eg, ?Ee, ?Et, ?Ec).
  unfold logger_cfg in *. rewrite Eg, (fill_logger_global _ (ls_mEnableGlogalLogger s)). by apply fine_logger_global.
Qed.
Lemma inv_tracer s s' : ls_inv s -> ls_g s' = ls_g s -> ls_mLoggerClientTbl s' = ls_mLoggerClientTbl s -> ls_mEnableGlogalLogger s' = ls_mEnableGlogalLogger s -> ls_mLogCache s' = ls_mLogCache s ->
  (trace_disabled s' = true -> ls_mEnableGlobalTrace s' = false) -> (trace_disabled s' = false -> ls_mTraceClientTbl s' <> ∅ -> ls_mEnableGlobalTrace s' = true) -> ls_inv s'.
Proof.
  intros [] Eg Et Ee Ec Hoff Hon. split; try done; try (unfold logger_cfg, logger_disabled in *; by rewrite ?Eg, ?Ee, ?Et, ?Ec).
  unfold trace_cfg in *. rewrite Eg, (fill_trace_global _ (ls_mEnableGlobalTrace s)). by apply fine_trace_global.
Qed.

Lemma subscribe_logger_goes sid s : ls_inv s -> exists s' outs, onSubscribeFDBusLogger le sid s = Some (s', outs) /\ goes s s' outs.
Proof.
  intros Hi. unfold onSubscribeFDBusLogger. destruct (bool_decide_reflect (sid ∈ ls_mLoggerClientTbl s)) as [Hin|Hin].
  { rewrite bool_decide_false by set_solver. eexists _, _. split; [done|]. by apply ls_quiet. }
  set (s1 := ls_set_enable _ _ _).
  assert (ls_mEnableGlogalLogger s1 = negb (logger_disabled s)) as E1 by (cbn; unfold logger_disabled; cbn; destruct (on _); [done|apply check_on]).
  assert (ls_inv s1) as Hi1.
  { apply (inv_logger s); try done; rewrite E1; [intros Hd|intros Hd _]; change (logger_disabled s1) with (logger_disabled s) in Hd; by rewrite Hd. }
  case_bool_decide as Hf; [|eexists _, _; split; [done|]; apply ls_quiet; try done].
  - unfold tell_logger. rewrite logger_payload_ok by apply Hi1. eexists _, _. split; [done|]. by apply goes_logger.
  - unfold logger_cfg. rewrite E1. change (ls_g s1) with (ls_g s). f_equal. destruct (logger_disabled s) eqn:Ed; [by rewrite (lv_log_off _ Hi Ed)|by rewrite (lv_log_on _ Hi Ed Hf)].
Qed.
Lemma subscribe_tracer_goes sid s : ls_inv s -> exists s' outs, onSubscribeTraceLogger le sid s = Some (s', outs) /\ goes s s' outs.
Proof.
  intros Hi. unfold onSubscribeTraceLogger. destruct (bool_decide_reflect (sid ∈ ls_mTraceClientTbl s)) as [Hin|Hin].
  { rewrite bool_decide_false by set_solver. eexists _, _. split; [done|]. by apply ls_quiet. }
  set (s1 := ls_set_enable _ _ _).
  assert (ls_mEnableGlobalTrace s1 = negb (trace_disabled s)) as E1 by (cbn; unfold trace_disabled; cbn; destruct (on _); [done|apply check_on]).
  assert (ls_inv s1) as Hi1.
  { apply (inv_tracer s); try done; rewrite E1; [intros Hd|intros Hd _]; change (trace_disabled s1) with (trace_disabled s) in Hd; by rewrite Hd. }
  case_bool_decide as Hf; [|eexists _, _; split; [done|]; apply ls_quiet; try done].
  - unfold tell_trace. rewrite trace_payload_ok by apply Hi1. eexists _, _. split; [done|]. by apply goes_trace.
  - unfold trace_cfg. rewrite E1. change (ls_g s1) with (ls_g s). f_equal. destruct (trace_disabled s) eqn:Ed; [by rewrite (lv_trace_off _ Hi Ed)|by rewrite (lv_trace_on _ Hi Ed Hf)].
Qed.

Lemma logger_gone_goes sid s : ls_inv s -> exists s' outs, logger_gone le sid s = Some (s', outs) /\ goes s s' outs.
Proof.
  intros Hi. unfold logger_gone. case_bool_decide as Hin; [|eexists _, _; split; [done|]; by apply ls_quiet]. cbn [ls_set_clients ls_mLoggerClientTbl].
  case_bool_decide as He.
  - set (s1 := ls_set_enable _ _ _). assert (ls_inv s1) as Hi1.
    { apply (inv_logger s); try done. intros Hd. change (logger_disabled s1) with (logger_disabled s) in Hd. cbn. unfold logger_disabled in *. cbn. by rewrite Hd. }
    unfold tell_logger. rewrite logger_payload_ok by apply Hi1. eexists _, _. split; [done|]. by apply goes_logger.
  - eexists _, _. split; [done|]. apply ls_quiet; try done. apply (inv_logger s); try done; [apply Hi|]. intros Hd _. apply Hi; [done|set_solver].
Qed.
Lemma tracer_gone_goes sid s : ls_inv s -> exists s' outs, tracer_gone le sid s = Some (s', outs) /\ goes s s' outs.
Proof.
  intros Hi. unfold tracer_gone. case_bool_decide as Hin; [|eexists _, _; split; [done|]; by apply ls_quiet]. cbn [ls_set_clients ls_mTraceClientTbl].
  case_bool_decide as He.
  - set (s1 := ls_set_enable _ _ _). assert (ls_inv s1) as Hi1.
    { apply (inv_tracer s); try done. intros Hd. change (trace_disabled s1) with (trace_disabled s) in Hd. cbn. unfold trace_disabled in *. cbn. by rewrite Hd. }
    unfold tell_trace. rewrite trace_payload_ok by apply Hi1. eexists _, _. split; [done|]. by apply goes_trace.
  - eexists _, _. split; [done|]. apply ls_quiet; try done. apply (inv_tracer s); try done; [apply Hi|]. intros Hd _. apply Hi; [done|set_solver].
Qed.

(** ** Logs come in *)

Hypothesis writable : forall path, opens path = true.

Lemma lf_store_total line n f : exists b f' removed, lf_store date opens (S fuel) line n f = Some (b, f', removed).
Proof.
  unfold lf_store. destruct (_ || _ || _); [by eexists _, _, _|]. assert (exists f1 removed, checkFileSize date opens (S fuel) f = Some (f1, removed)) as (f1 & removed & ->).
  { unfold checkFileSize, checkFileSizeUncomp. destruct (lf_mCompress f); [by eexists _, _|]. destruct (lf_current (match lf_current f with Some _ => _ | None => _ end)); [by eexists _, _|].
    destruct (removeOldestLog _) as [f2 removed]. rewrite open_next_ok by done. by eexists _, _. }
  cbn [mbind option_bind]. destruct (lf_current f1); by eexists _, _, _.
Qed.

Definition log_code (code : Z) : Prop := code = NTF_FDBUS_LOG \/ code = NTF_TRACE_LOG.
Lemma push_codes data code c : lc_ok c -> Forall (fun it => log_code (di_mCode it)) (lc_mCache c) -> log_code code -> Z.of_nat (length data) < 2 ^ 28 ->
  exists c', lc_push data code c = Some c' /\ lc_ok c' /\ Forall (fun it => log_code (di_mCode it)) (lc_mCache c').
Proof.
  intros Hok Hc Hcode Hl. destruct (lc_push_spec c data code Hok Hl) as (c' & E & Hok' & Hs). exists c'. split_and!; [done|done|].
  destruct (_ || _); [by subst|]. destruct (lc_mStopIfFull c); [destruct (_ <=? _); destruct Hs as [-> _]; [apply Forall_app; split; [done|by apply Forall_singleton]|done]|].
  rewrite Hs. apply Forall_app. split; [|by apply Forall_singleton]. destruct (newest_suffix (lc_mMaxSize c - Z.of_nat (length data) - sizeof_CDataItem) (lc_mCache c)) as [old Eo]. rewrite Eo in Hc. by apply Forall_app in Hc as [_ Hc].
Qed.

Lemma stores_goes c f s outs : ls_inv s -> lc_ok c -> Forall (fun it => log_code (di_mCode it)) (lc_mCache c) -> Forall quiet outs -> goes s (ls_set_stores c f s) outs.
Proof. intros [] Hc Hcodes Hq. apply ls_quiet; by try split. Qed.

Lemma code_quiet code : log_code code -> code <> NTF_LOGGER_CONFIG /\ code <> NTF_TRACE_CONFIG.
Proof. by intros [-> | ->]. Qed.

Lemma forward_goes code payload s : ls_inv s -> log_code code -> Z.of_nat (length payload) < 2 ^ 28 -> exists s' outs, forwardLogData code payload s = Some (s', outs) /\ goes s s' outs.
Proof.
  intros Hi Hc Hl. unfold forwardLogData. destruct (push_codes payload code (ls_mLogCache s) (lv_cache _ Hi) (lv_codes _ Hi) Hc Hl) as (c & -> & Hok & Hcodes). cbn [mbind option_bind]. eexists _, _. split; [done|].
  apply stores_goes; try done. destruct (_ || _); [constructor; [by apply code_quiet|constructor]|constructor].
Qed.

(** The payload of a log that ends where it should. *)
Definition printable (print : CFdbSimpleDeserializer -> bool -> option string) (payload : list Z) : Prop :=
  Z.of_nat (length payload) < 2 ^ 28 /\ forall force, is_Some (print (deserializer_new le (Some payload) (Z.of_nat (length payload))) force).
Lemma onLog_goes print code payload s : ls_inv s -> log_code code -> printable print payload -> exists s' outs, onLog le date opens written (S fuel) print code payload s = Some (s', outs) /\ goes s s' outs.
Proof.
  intros Hi Hc [Hl Hp]. unfold onLog.
  assert (exists s1 out1, showLog le date opens written (S fuel) print payload s = Some (s1, out1) /\ goes s s1 out1) as (s1 & out1 & -> & G1).
  { unfold showLog. destruct (_ || _); [|eexists _, _; split; [done|]; by apply ls_quiet]. destruct (Hp (on (fdb_static_content (pa_logger (ls_g s))))) as [line ->]. cbn [mbind option_bind].
    assert (Forall quiet (if negb (on (fdb_disable_std_output (ls_g s))) then [LsPrint line] else [])) as Hq by (destruct (negb _); by repeat constructor).
    destruct (logEnabled _); [|eexists _, _; split; [done|]; by apply ls_quiet]. destruct (lf_store_total line (written line) (ls_mFileManager s)) as (b & f & removed & ->). cbn [mbind option_bind].
    eexists _, _. split; [done|]. apply stores_goes; [done|apply Hi|apply Hi|]. apply Forall_app. split; [done|]. by apply Forall_map, Forall_true. }
  cbn [mbind option_bind]. destruct (forward_goes code payload s1 (proj1 G1) Hc Hl) as (s2 & out2 & -> & G2). cbn [mbind option_bind]. eexists _, _. split; [done|]. by apply (ls_trans s s1).
Qed.

(** ** Requests *)

Lemma parse_fine {T} `{ParcelableLaws T} (x old : T) : (forall y, p_eq x y -> y = x) -> fine x -> parser_parse le (Some (p_wire x)) (Z.of_nat (length (p_wire x))) old = Some (x, true).
Proof. intros He [Hw Hl]. destruct (parse_wire I le x old Hw Hl) as (y & Ey & E). by rewrite (He y Ey) in E. Qed.

Lemma set_logger_goes (cfg : FdbMsgLogConfig) s : ls_inv s -> fine cfg -> exists s' outs, onSetLogger le (p_wire cfg) s = Some (s', outs) /\ goes s s' outs.
Proof.
  intros Hi Hf. unfold onSetLogger. rewrite (parse_fine cfg) by (done || by intros). cbn [mbind option_bind negb]. set (s1 := ls_set_enable _ _ _).
  assert (logger_cfg s1 = lg_set_global (ls_mEnableGlogalLogger s1) cfg) as Ec by (apply fill_dump_logger, Hf).
  assert (ls_inv s1) as Hi1.
  { destruct Hi. split; try done; [rewrite Ec; by apply fine_logger_global| |].
    - intros Hd. change (ls_mEnableGlogalLogger s1) with (ls_checkLogEnabled (logger_disabled s1) (bool_decide (ls_mLoggerClientTbl s = ∅)) (ls_set_g (fdb_dump_logger_config cfg (ls_g s)) s)). by rewrite Hd.
    - intros Hd Hne. change (ls_mEnableGlogalLogger s1) with (ls_checkLogEnabled (logger_disabled s1) (bool_decide (ls_mLoggerClientTbl s = ∅)) (ls_set_g (fdb_dump_logger_config cfg (ls_g s)) s)).
      rewrite Hd, bool_decide_false by done. apply check_on. }
  rewrite logger_payload_ok by apply Hi1. cbn [mbind option_bind]. eexists _, _. split; [done|]. apply (ls_trans s s1 s1 [_] [_]); [by apply goes_logger|]. apply ls_quiet; try done. by repeat constructor.
Qed.

(** The sizes of a configuration are numbers of bytes in 32 bits. *)
Definition sizes_ok (t : FdbTraceConfig) : Prop := - 2 ^ 19 < tr_mCacheSize t < 2 ^ 19 /\ - 2 ^ 21 < tr_mMaxLogStorageSize t < 2 ^ 21 /\ - 2 ^ 21 < tr_mMaxLogFileSize t < 2 ^ 21.
Lemma kB_ok n : - 2 ^ 21 < n < 2 ^ 21 -> kB n = Some (n * 1024).
Proof. intros H. unfold kB. by rewrite bool_decide_true by (unfold in_s; lia). Qed.

Lemma set_trace_goes (cfg : FdbTraceConfig) listing s : ls_inv s -> fine cfg -> sizes_ok cfg -> exists s' outs, onSetTrace le (p_wire cfg) listing s = Some (s', outs) /\ goes s s' outs.
Proof.
  intros Hi Hf (H1 & H2 & H3). unfold onSetTrace. rewrite (parse_fine cfg) by (done || by intros). cbn [mbind option_bind negb ls_set_g ls_g fdb_dump_trace_config pa_set_trace pa_trace fdb_cache_size fdb_max_log_storage_size fdb_max_log_file_size].
  rewrite !kB_ok by lia. cbn [mbind option_bind]. set (s1 := ls_set_enable _ _ _).
  destruct (lc_resize_spec (tr_mCacheSize cfg * 1024) (ls_mLogCache s) (lv_cache _ Hi) ltac:(lia)) as [Hok [old Eold]].
  assert (trace_cfg s1 = tr_set_global (ls_mEnableGlobalTrace s1) cfg) as Ec by (apply fill_dump_trace, Hf).
  assert (ls_mEnableGlobalTrace s1 = ls_checkLogEnabled (trace_disabled s1) (bool_decide (ls_mTraceClientTbl s = ∅)) s1) as Ee by done.
  assert (ls_inv s1) as Hi1.
  { destruct Hi. split; try done; [rewrite Ec; by apply fine_trace_global| | |].
    - intros Hd. by rewrite Ee, Hd.
    - intros Hd Hne. rewrite Ee, Hd, bool_decide_false by done. apply check_on.
    - rewrite Eold in lv_codes0. by apply Forall_app in lv_codes0 as [_ ?]. }
  rewrite trace_payload_ok by apply Hi1. cbn [mbind option_bind]. eexists _, _. split; [done|]. apply (ls_trans s s1 s1 [_] [_]); [by apply goes_trace|]. apply ls_quiet; try done. by repeat constructor.
Qed.

Lemma sync_goes s : ls_inv s -> goes s (onLogSync s).1 (onLogSync s).2.
Proof. intros Hi. apply stores_goes; [done|apply Hi|apply Hi|by repeat constructor]. Qed.

Lemma dump_quiet sid size s : ls_inv s -> Forall quiet (map (fun l : Z * list Z => LsSend sid l.1 l.2) (lc_dump_session size (ls_mLogCache s))).
Proof.
  intros Hi. apply Forall_map. unfold lc_dump_session. destruct (size =? 0); [constructor|]. pose proof (lv_codes _ Hi) as Hc. generalize 0 at 1. induction Hc as [|it l Hit _ IH]; intros n; cbn [dump_items]; [constructor|].
  constructor; [by apply code_quiet|]. destruct (_ && _); [constructor|apply IH].
Qed.
Lemma quiet_goes s outs : ls_inv s -> Forall quiet outs -> goes s s outs.
Proof. intros Hi Hq. by apply ls_quiet. Qed.

Lemma start_goes sid (st : FdbLogStart) s : ls_inv s -> fine st -> st_mCacheSize st < 2 ^ 21 -> exists s' outs, onLogStart le sid (p_wire st) s = Some (s', outs) /\ goes s s' outs.
Proof.
  intros Hi Hf Hs. unfold onLogStart. rewrite (parse_fine st) by (done || by intros). cbn [mbind option_bind negb].
  destruct (subscribe_logger_goes sid s Hi) as (s1 & o1 & -> & G1). cbn [mbind option_bind]. destruct (subscribe_tracer_goes sid s1 (proj1 G1)) as (s2 & o2 & -> & G2). cbn [mbind option_bind].
  assert (exists size, (if 0 <? st_mCacheSize st then kB (st_mCacheSize st) else Some (st_mCacheSize st)) = Some size) as [size ->].
  { destruct (Z.ltb_spec 0 (st_mCacheSize st)); [rewrite kB_ok by lia|]; by eexists. }
  cbn [mbind option_bind]. pose proof (sync_goes s2 (proj1 G2)) as G3. destruct (onLogSync s2) as [s3 o3]. cbn [fst snd] in G3. eexists _, _. split; [done|].
  apply (ls_trans s s s3 [_]); [apply quiet_goes; [done|by repeat constructor]|]. apply (ls_trans s s1 s3); [done|]. apply (ls_trans s1 s1 s3 [_]); [apply quiet_goes; [apply G1|by repeat constructor]|].
  apply (ls_trans s1 s2 s3); [done|]. apply (ls_trans s2 s2 s3); [|done]. apply quiet_goes; [apply G2|]. apply dump_quiet, G2.
Qed.

(** What a request must look like. *)
Definition request_ok (code : Z) (payload : list Z) : Prop :=
  (code = REQ_FDBUS_LOG -> printable printFdbLog payload) /\ (code = REQ_TRACE_LOG -> printable printTraceLog payload) /\
  (code = REQ_SET_LOGGER_CONFIG -> exists cfg : FdbMsgLogConfig, payload = p_wire cfg /\ fine cfg) /\
  (code = REQ_SET_TRACE_CONFIG -> exists cfg : FdbTraceConfig, payload = p_wire cfg /\ fine cfg /\ sizes_ok cfg) /\
  (code = REQ_LOG_START -> exists st : FdbLogStart, payload = p_wire st /\ fine st /\ st_mCacheSize st < 2 ^ 21).
Lemma invoke_goes sid code payload listing s : ls_inv s -> request_ok code payload ->
  exists s' outs, ls_onInvoke le date opens written (S fuel) sid code payload listing s = Some (s', outs) /\ goes s s' outs.
Proof.
  intros Hi (R0 & R1 & R2 & R3 & R4). unfold ls_onInvoke.
  destruct (Z.eqb_spec code REQ_FDBUS_LOG) as [E|_]; [apply onLog_goes; [done|by left|by apply R0]|].
  destruct (Z.eqb_spec code REQ_SET_LOGGER_CONFIG) as [E|_]; [destruct (R2 E) as (cfg & -> & Hf); by apply set_logger_goes|].
  destruct (Z.eqb_spec code REQ_GET_LOGGER_CONFIG) as [E|_]; [rewrite logger_payload_ok by apply Hi; eexists _, _; split; [done|]; apply quiet_goes; [done|by repeat constructor]|].
  destruct (Z.eqb_spec code REQ_TRACE_LOG) as [E|_]; [apply onLog_goes; [done|by right|by apply R1]|].
  destruct (Z.eqb_spec code REQ_SET_TRACE_CONFIG) as [E|_]; [destruct (R3 E) as (cfg & -> & Hf & Hs); by apply set_trace_goes|].
  destruct (Z.eqb_spec code REQ_GET_TRACE_CONFIG) as [E|_]; [rewrite trace_payload_ok by apply Hi; eexists _, _; split; [done|]; apply quiet_goes; [done|by repeat constructor]|].
  destruct (Z.eqb_spec code REQ_LOG_START) as [E|_]; [destruct (R4 E) as (st & -> & Hf & Hs); by apply start_goes|].
  destruct (Z.eqb_spec code REQ_LOG_SYNC) as [E|_]; [eexists _, _; split; [done|]; by apply sync_goes|]. eexists _, _. split; [done|]. by apply quiet_goes.
Qed.

(** Telling one session the configuration does not change what the others know. *)
Lemma item_goes sid code s : ls_inv s -> exists s' outs, subscribe_item le sid code s = Some (s', outs) /\ goes s s' outs.
Proof.
  intros Hi. unfold subscribe_item.
  destruct (code =? NTF_LOGGER_CONFIG).
  { rewrite logger_payload_ok by apply Hi. eexists _, _. split; [done|]. split; [done|]. intros sid' p [A1 A2]. cbn [hear hear_one]. destruct (sid =? sid'); [rewrite hear_logger by apply Hi|]; by eexists. }
  destruct (code =? NTF_TRACE_CONFIG).
  { rewrite trace_payload_ok by apply Hi. eexists _, _. split; [done|]. split; [done|]. intros sid' p [A1 A2]. cbn [hear hear_one]. destruct (sid =? sid'); [rewrite hear_trace by apply Hi|]; by eexists. }
  destruct (code =? NTF_FDBUS_LOG); [by apply subscribe_logger_goes|]. destruct (code =? NTF_TRACE_LOG); [by apply subscribe_tracer_goes|]. eexists _, _. split; [done|]. by apply quiet_goes.
Qed.
Lemma subscribe_goes sid codes : forall s, ls_inv s -> exists s' outs, ls_onSubscribe le sid codes s = Some (s', outs) /\ goes s s' outs.
Proof.
  induction codes as [|code codes IH]; intros s Hi; cbn [ls_onSubscribe]; [eexists _, _; split; [done|]; by apply quiet_goes|].
  destruct (item_goes sid code s Hi) as (s1 & o1 & -> & G1). cbn [mbind option_bind]. destruct (IH s1 (proj1 G1)) as (s2 & o2 & -> & G2). cbn [mbind option_bind]. eexists _, _. split; [done|]. by apply (ls_trans s s1).
Qed.
Lemma offline_goes sid s : ls_inv s -> exists s' outs, ls_onOffline le sid s = Some (s', outs) /\ goes s s' outs.
Proof.
  intros Hi. unfold ls_onOffline. destruct (logger_gone_goes sid s Hi) as (s1 & o1 & -> & G1). cbn [mbind option_bind]. destruct (tracer_gone_goes sid s1 (proj1 G1)) as (s2 & o2 & -> & G2). cbn [mbind option_bind].
  eexists _, _. split; [done|]. by apply (ls_trans s s1).
Qed.

(** A log client that subscribes is told the configuration, whatever it had. *)
Lemma newcomer sid s p : ls_inv s -> exists outs, ls_onSubscribe le sid [NTF_LOGGER_CONFIG; NTF_TRACE_CONFIG] s = Some (s, outs) /\ exists p', hear sid outs p = Some p' /\ agree sid s p'.
Proof.
  intros Hi. assert (subscribe_item le sid NTF_LOGGER_CONFIG s = Some (s, [LsSend sid NTF_LOGGER_CONFIG (p_wire (logger_cfg s))])) as E1 by (unfold subscribe_item; cbn [Z.eqb NTF_LOGGER_CONFIG Pos.eqb]; by rewrite logger_payload_ok by apply Hi).
  assert (subscribe_item le sid NTF_TRACE_CONFIG s = Some (s, [LsSend sid NTF_TRACE_CONFIG (p_wire (trace_cfg s))])) as E2 by (unfold subscribe_item; cbn [Z.eqb NTF_LOGGER_CONFIG NTF_TRACE_CONFIG Pos.eqb]; by rewrite trace_payload_ok by apply Hi).
  cbn [ls_onSubscribe]. rewrite E1. cbn [mbind option_bind]. rewrite E2. cbn [mbind option_bind app]. eexists. split; [done|]. cbn [hear hear_one]. rewrite Z.eqb_refl.
  rewrite (hear_logger _ _ (logger_cfg s)) by apply Hi. cbn [mbind option_bind]. rewrite (hear_trace _ _ (trace_cfg s)) by apply Hi. by eexists.
Qed.

(** ** Runs *)

Lemma hear_all_ok outs s' l : Forall (fun e => exists p', hear e.1 outs e.2 = Some p' /\ agree e.1 s' p') l -> exists l', hear_all outs l = Some l' /\ Forall (fun e => agree e.1 s' e.2) l'.
Proof.
  induction 1 as [|[sid p] l (p' & E & A) _ (l' & E' & H')]; [by exists []|]. cbn [fst snd] in *. exists ((sid, p') :: l'). split; [|by constructor].
  unfold hear_all in *. cbn [mapM fst snd]. rewrite E. cbn [mbind option_bind]. by rewrite E'.
Qed.
Definition ev_ok (ev : LsEv) : Prop := match ev with EvInvoke _ code payload _ => request_ok code payload | _ => True end.
Definition sys_ok (y : LogSystem) : Prop := ls_inv (sy_server y) /\ Forall (fun e => agree e.1 (sy_server y) e.2) (sy_producers y).

Lemma sys_deliver s s' outs l : goes s s' outs -> Forall (fun e => agree e.1 s e.2) l -> exists l', hear_all outs l = Some l' /\ sys_ok (mkLogSystem s' l').
Proof.
  intros [Hi G] Hl. destruct (hear_all_ok outs s' l) as (l' & E & H); [eapply Forall_impl; [exact Hl|]; intros [sid p]; apply G|]. by exists l'.
Qed.
Lemma sys_step_ok ev y : sys_ok y -> ev_ok ev -> exists y', sys_step ev y = Some y' /\ sys_ok y'.
Proof.
  intros [Hi Hl] Ho. destruct ev as [sid n|sid code payload listing|sid codes|sid]; unfold sys_step; cbn [ev_ok] in *.
  - destruct (newcomer sid (sy_server y) (lp_set_connected true (CLogProducer_new n)) Hi) as (outs & E & p' & Ep & A). destruct (subscribe_goes sid [NTF_LOGGER_CONFIG; NTF_TRACE_CONFIG] (sy_server y) Hi) as (s1 & outs1 & E1 & [_ G]).
    rewrite E in E1. injection E1 as <- <-. rewrite E. cbn [mbind option_bind].
    destruct (hear_all_ok outs (sy_server y) (sy_producers y ++ [(sid, lp_set_connected true (CLogProducer_new n))])) as (l' & -> & H).
    { apply Forall_app. split; [eapply Forall_impl; [exact Hl|]; intros [sid' q]; apply G|]. apply Forall_singleton. by exists p'. }
    cbn [mbind option_bind]. by eexists.
  - destruct (invoke_goes sid code payload listing (sy_server y) Hi Ho) as (s1 & outs & -> & G). cbn [mbind option_bind]. destruct (sys_deliver _ _ _ _ G Hl) as (l' & -> & H). by eexists.
  - destruct (subscribe_goes sid codes (sy_server y) Hi) as (s1 & outs & -> & G). cbn [mbind option_bind]. destruct (sys_deliver _ _ _ _ G Hl) as (l' & -> & H). by eexists.
  - destruct (offline_goes sid (sy_server y) Hi) as (s1 & outs & -> & G). cbn [mbind option_bind].
    destruct (sys_deliver _ _ _ (List.filter (fun e => negb (e.1 =? sid)) (sy_producers y)) G) as (l' & -> & H); [|by eexists].
    clear -Hl. induction Hl as [|e l He _ IH]; [constructor|]. cbn [List.filter]. destruct (negb _); [by constructor|done].
Qed.
Lemma sys_run_ok evs : forall y, sys_ok y -> Forall ev_ok evs -> exists y', sys_run evs y = Some y' /\ sys_ok y'.
Proof.
  induction evs as [|ev evs IH]; intros y Hy Ho; [by eexists|]. inversion Ho as [|? ? Ho1 Ho2]; subst. destruct (sys_step_ok ev y Hy) as (y1 & E1 & H1); [done|]. destruct (IH y1 H1) as (y2 & E2 & H2); [done|]. exists y2. cbn [sys_run]. by rewrite E1.
Qed.

Lemma server_new_ok g listing : fine (fdb_fill_logger_config dflt true g) -> fine (fdb_fill_trace_config dflt true g) -> sizes_ok (fdb_fill_trace_config dflt true g) ->
  exists s, CLogServer_new g listing = Some s /\ ls_inv s.
Proof.
  intros Hl Ht (H1 & H2 & H3). cbn [fdb_fill_trace_config tr_mCacheSize tr_mMaxLogStorageSize tr_mMaxLogFileSize] in *. unfold CLogServer_new. rewrite !kB_ok by lia. cbn [mbind option_bind].
  set (s0 := mkLogServer _ _ _ _ _ _ _ _). eexists. split; [done|]. split.
  - unfold logger_cfg. rewrite (fill_logger_global _ true). by apply fine_logger_global.
  - unfold trace_cfg. rewrite (fill_trace_global _ true). by apply fine_trace_global.
  - intros Hd. change (logger_disabled s0 = true) in Hd. cbn [ls_set_enable ls_mEnableGlogalLogger]. by rewrite Hd.
  - by intros _ [].
  - intros Hd. change (trace_disabled s0 = true) in Hd. cbn [ls_set_enable ls_mEnableGlobalTrace]. by rewrite Hd.
  - by intros _ [].
  - cbn. unfold CFdbLogCache_new. split; cbn; try done; destruct (Z.ltb_spec (fdb_cache_size (pa_trace g) * 1024) 0); try lia; left; lia.
  - constructor.
Qed.
End system.

(** C36: The log server with any configuration that can be sent, over any run of log clients
    and viewers that come and go, requests and logs, every one of which is dealt with as long as files
    can be opened: the filters of every log client are always those of the configuration the server
    holds. Logs are switched on in all processes while a viewer is connected, unless they are
    disabled in the configuration, and off when they are. *)
Theorem log_config_agreed {I : Indet} (le : bool) (date : Z -> string) (opens : string -> bool) (written : string -> Z) (fuel : nat) (le_of : Z -> bool) (host_of : Z -> option string)
    (g : CFdbLogParams) (listing : option (list (string * option Z))) (evs : list LsEv) :
  (forall path, opens path = true) -> fine (fdb_fill_logger_config dflt true g) -> fine (fdb_fill_trace_config dflt true g) -> sizes_ok (fdb_fill_trace_config dflt true g) ->
  Forall (ev_ok le) evs ->
  exists s0 y, CLogServer_new g listing = Some s0 /\ sys_run le date opens written fuel le_of host_of evs (mkLogSystem s0 []) = Some y /\
    (forall sid p, (sid, p) ∈ sy_producers y -> lp_log p = logger_filter (host_of sid) (logger_cfg (sy_server y)) /\ lp_trace p = trace_filter (host_of sid) (trace_cfg (sy_server y))) /\
    (forall sid p, (sid, p) ∈ sy_producers y -> logger_disabled (sy_server y) = true -> fl_mLoggerDisableGlobal (lp_log p) = true) /\
    (forall sid p, (sid, p) ∈ sy_producers y -> trace_disabled (sy_server y) = true -> tf_mTraceDisableGlobal (lp_trace p) = true) /\
    (forall sid p, (sid, p) ∈ sy_producers y -> logger_disabled (sy_server y) = false -> ls_mLoggerClientTbl (sy_server y) <> ∅ -> fl_mLoggerDisableGlobal (lp_log p) = false) /\
    (forall sid p, (sid, p) ∈ sy_producers y -> trace_disabled (sy_server y) = false -> ls_mTraceClientTbl (sy_server y) <> ∅ -> tf_mTraceDisableGlobal (lp_trace p) = false).
Proof.
  intros Hw Hl Ht Hs Ho. destruct (server_new_ok g listing Hl Ht Hs) as (s0 & E0 & Hi0). destruct (sys_run_ok le date opens written fuel le_of host_of Hw evs (mkLogSystem s0 [])) as (y & E & Hi & Ha); [by split|done|].
  exists s0, y. split; [done|]. split; [done|].
  assert (forall sid p, (sid, p) ∈ sy_producers y -> agree host_of sid (sy_server y) p) as A by (intros sid p Hin; exact (proj1 (Forall_forall _ _) Ha (sid, p) Hin)).
  split_and!; [exact A|intros sid p Hin Hd|intros sid p Hin Hd|intros sid p Hin Hd Hne|intros sid p Hin Hd Hne]; destruct (A sid p Hin) as [EL ET]; rewrite ?EL, ?ET.
  - exact (proj2 (negb_true_iff _) (lv_log_off _ Hi Hd)).
  - exact (proj2 (negb_true_iff _) (lv_trace_off _ Hi Hd)).
  - exact (proj2 (negb_false_iff _) (lv_log_on _ Hi Hd Hne)).
  - exact (proj2 (negb_false_iff _) (lv_trace_on _ Hi Hd Hne)).
Qed.

(** A server without terminal and files; nothing is filtered. *)
Definition demo_params : CFdbLogParams :=
  mkLogParams (mkLoggerParams 0 0 0 0 0 0 [] [] [] 0 0 0) (mkTraceParams 2 0 0 [] [] 0 EmptyString 64 4)
    (mkConfigured false false false false false false false false false false false false false false false false) 1 0 (-1) CFG_MODE_NONE 0 0.
Definition demo_config : FdbMsgLogConfig := mkLogConfig true false true true true 16 [] ["nav"%string] [] true false false.
Lemma demo_fine : fine demo_config /\ (forall g, g = demo_params -> fine (fdb_fill_logger_config (dflt (I := 0)) true g)) /\ (forall g, g = demo_params -> fine (fdb_fill_trace_config (dflt (I := 0)) true g)).
Proof.
  assert (str_ok "nav") by (by apply (bool_decide_unpack _); vm_compute). assert (str_ok EmptyString) by (by apply (bool_decide_unpack _); vm_compute).
  split_and!; [|intros g ->..]; (split; [|vm_compute; split; congruence]); split; first [assumption | unfold in_s, FDB_LL_MAX; cbn; lia | split; [repeat (apply Forall_cons; split; [assumption|]); by apply Forall_nil|cbn; lia]].
Qed.
Lemma log_config_agreed_witness : exists s0 y,
  CLogServer_new (I := 0) demo_params None = Some s0 /\
  sys_run (I := 0) true (fun _ => EmptyString) (fun _ => true) (fun _ => 0) 0 (fun _ => false) (fun _ => Some "ecu"%string)
    [EvProducer 1 0; EvInvoke 2 REQ_LOG_START (p_wire (mkLogStart 0)) None; EvInvoke 3 REQ_SET_LOGGER_CONFIG (p_wire demo_config) None; EvOffline 3] (mkLogSystem s0 []) = Some y /\
  (forall sid p, (sid, p) ∈ sy_producers y -> lp_log p = logger_filter (Some "ecu"%string) (logger_cfg (I := 0) (sy_server y))).
Proof.
  destruct demo_fine as (F1 & F2 & F3).
  destruct (log_config_agreed (I := 0) true (fun _ => EmptyString) (fun _ => true) (fun _ => 0) 0 (fun _ => false) (fun _ => Some "ecu"%string) demo_params None
    [EvProducer 1 0; EvInvoke 2 REQ_LOG_START (p_wire (mkLogStart 0)) None; EvInvoke 3 REQ_SET_LOGGER_CONFIG (p_wire demo_config) None; EvOffline 3]) as (s0 & y & E0 & E & A & _).
  - done.
  - by apply F2.
  - by apply F3.
  - unfold sizes_ok. cbn. lia.
  - repeat (apply Forall_cons; split); try done; unfold ev_ok, request_ok; split_and!; try done.
    + intros _. exists (mkLogStart 0). split; [done|]. split; [|cbn; lia]. split; [vm_compute; split; congruence|vm_compute; split; congruence].
    + intros _. by exists demo_config.
  - exists s0, y. split; [exact E0|]. split; [exact E|]. intros sid p Hin. exact (proj1 (A sid p Hin)).
Defined.

(** ** The log viewer *)

(** Whether the replies about messages and about traces have come. *)
Record CLogClient := mkLogClient { vc_g : CFdbLogParams; vc_mLoggerCfgReplied : bool; vc_mTraceCfgReplied : bool }.
Implicit Types v : CLogClient.
Inductive VcOut := VcInvoke (code : Z) (payload : option (list Z)) | VcSend (code : Z) (payload : list Z) | VcPrint (line : string) | VcExit.
Definition CLogClient_new g : CLogClient := mkLogClient g false false.

Section viewer.
Context {I : Indet}.
Variable le : bool.

Definition vc_onBroadcast (code : Z) (payload : list Z) v : option (list VcOut) :=
  let d := deserializer_new le (Some payload) (Z.of_nat (length payload)) in
  let static := on (fdb_static_content (pa_logger (vc_g v))) in
  if code =? NTF_FDBUS_LOG then line ← printFdbLog d static; Some [VcPrint line]
  else if code =? NTF_TRACE_LOG then line ← printTraceLog d static; Some [VcPrint line]
  else Some [].

Definition vc_onOnline v : option (list VcOut) :=
  let g := vc_g v in
  let sync := if on (fdb_sync g) then [VcInvoke REQ_LOG_SYNC None] else [] in
  let ask := [VcInvoke REQ_GET_LOGGER_CONFIG None; VcInvoke REQ_GET_TRACE_CONFIG None] in
  rest ←
    (if on (fdb_info_mode g) then Some ask else
     match fdb_config_mode g with
     | CFG_MODE_ABSOLUTE =>
         l ← build le (fdb_fill_logger_config dflt (negb (on (fdb_disable_global_logger (pa_logger g)))) g);
         t ← build le (fdb_fill_trace_config dflt (negb (on (fdb_disable_global_trace (pa_trace g)))) g);
         Some [VcInvoke REQ_SET_LOGGER_CONFIG (Some l); VcInvoke REQ_SET_TRACE_CONFIG (Some t)]
     | CFG_MODE_INCREMENTAL => Some ask
     | CFG_MODE_NONE => st ← build le (mkLogStart (fdb_cache_size (pa_trace g))); Some [VcSend REQ_LOG_START st]
     end);
  Some (sync ++ rest).

Definition vc_exit v : list VcOut := if vc_mLoggerCfgReplied v && vc_mTraceCfgReplied v then [VcExit] else [].
Definition is_incremental g : bool := match fdb_config_mode g with CFG_MODE_INCREMENTAL => true | _ => false end.
(** [status]: the reply tells a status. *)
Definition vc_onReply (status : bool) (code : Z) (payload : list Z) v : option (CLogClient * list VcOut) :=
  let g := vc_g v in
  if status then Some (v, [VcExit]) else
  if (code =? REQ_SET_LOGGER_CONFIG) || (code =? REQ_GET_LOGGER_CONFIG) then
    '(in_config, ok) ← parser_parse le (Some payload) (Z.of_nat (length payload)) (dflt : FdbMsgLogConfig);
    if negb ok then let v := mkLogClient g true (vc_mTraceCfgReplied v) in Some (v, vc_exit v) else
    let '(updated, config) := fdb_update_logger_config in_config (negb (on (fdb_disable_global_logger (pa_logger g)))) g in
    if (code =? REQ_GET_LOGGER_CONFIG) && is_incremental g && updated then bs ← build le config; Some (v, [VcInvoke REQ_SET_LOGGER_CONFIG (Some bs)])
    else let v := mkLogClient (fdb_dump_logger_config in_config g) true (vc_mTraceCfgReplied v) in Some (v, vc_exit v)
  else if (code =? REQ_SET_TRACE_CONFIG) || (code =? REQ_GET_TRACE_CONFIG) then
    '(in_config, ok) ← parser_parse le (Some payload) (Z.of_nat (length payload)) (dflt : FdbTraceConfig);
    if negb ok then let v := mkLogClient g true (vc_mTraceCfgReplied v) in Some (v, vc_exit v) else
    let '(updated, config) := fdb_update_trace_config in_config (negb (on (fdb_disable_global_logger (pa_logger g)))) g in
    if (code =? REQ_GET_TRACE_CONFIG) && is_incremental g && updated then bs ← build le config; Some (v, [VcInvoke REQ_SET_TRACE_CONFIG (Some bs)])
    else let v := mkLogClient (fdb_dump_trace_config in_config g) (vc_mLoggerCfgReplied v) true in Some (v, vc_exit v)
  else if code =? REQ_LOG_SYNC then Some (v, [VcExit])
  else Some (v, []).
End viewer.

(** A viewer that is to switch traces off in the server, step by step: the switch it sends is that of
    messages, so they stay on. *)
Definition traces_off : CFdbLogParams :=
  mkLogParams (mkLoggerParams 0 0 0 0 0 0 [] [] [] 0 0 0) (mkTraceParams 2 1 0 [] [] 0 EmptyString 64 4)
    (mkConfigured false false false false false false false true false false false false false false false false) 0 0 (-1) CFG_MODE_INCREMENTAL 0 0.
Example traces_stay_on (I : Indet) (config : FdbTraceConfig) : tr_mGlobalEnable config = true ->
  fdb_update_trace_config config (negb (on (fdb_disable_global_logger (pa_logger traces_off)))) traces_off = (true, config).
Proof. intros E. destruct config. cbn in *. by subst. Qed.

(** Where nobody wants logs at the moment, changing anything in the configuration step by step
    switches them off for good: the viewer sends back the switch it was told. *)
Example change_switches_off {I : Indet} (le : bool) (g : CFdbLogParams) s : ls_inv s -> ls_mEnableGlogalLogger s = false -> cd_disable_global_logger (pa_configured g) = false ->
  fine (fdb_update_logger_config (logger_cfg s) (negb (on (fdb_disable_global_logger (pa_logger g)))) g).2 ->
  exists s' outs, onSetLogger le (p_wire (fdb_update_logger_config (logger_cfg s) (negb (on (fdb_disable_global_logger (pa_logger g)))) g).2) s = Some (s', outs) /\ logger_disabled s' = true.
Proof.
  intros Hi He Hc Hf. set (cfg := (fdb_update_logger_config _ _ _).2) in *. unfold onSetLogger. rewrite (parse_fine le cfg) by (done || by intros). cbn [mbind option_bind negb]. set (s1 := ls_set_enable _ _ _).
  assert (fine (logger_cfg s1)) as Hf1 by (change (logger_cfg s1) with (fdb_fill_logger_config dflt (ls_mEnableGlogalLogger s1) (fdb_dump_logger_config cfg (ls_g s))); rewrite fill_dump_logger by apply Hf; by apply fine_logger_global). rewrite logger_payload_ok by done. cbn [mbind option_bind]. eexists _, _. split; [done|].
  unfold logger_disabled, s1. cbn. unfold cfg, fdb_update_logger_config. cbn. rewrite Hc. cbn. by rewrite He.
Qed.
