(* ===== verification/Options.v ===== *)
(** Command lines: the option parser of src/utils/fdb_option_parser.cpp, which every tool of the
    repository uses, and [initLogConfig] of src/log/fdb_log_config.cpp, the one with the most options.

    An option is written [-x], [--name], [-x5], [-x 5] or [--name=5]. What is not an option, or not a
    right one, stays in the argument list. *)
From S2P Require Import Prelude CommonDefs Serializer Codec WireBase Subscribe Message SocketFactory LogMessages LogServer.
Open Scope Z_scope.

(** ** Numbers *)

(** [strtol] and where it stops: [None] when there is no number, and then it stops at the start. *)
Fixpoint scan_end (s : string) : string :=
  match s with
  | EmptyString => EmptyString
  | String c s' => match digit_val c with Some d => if d <? 10 then scan_end s' else s | None => s end
  end.
Definition number_end (s : string) : string :=
  let s := skip_space s in
  scan_end (match s with String c s' => if (byte_of_ascii c =? 45) || (byte_of_ascii c =? 43) then s' else s | EmptyString => s end).
Definition safe_strtoint (str : string) : option Z :=
  v ← strtol 10 str;
  if is_empty_str (number_end str) && (- 2 ^ 31 <=? v) && (v <=? INT32_MAX) then Some v else None.
(** [strtoul] clamped to 64 bits; a negative number wraps around. The bool is its success. *)
Definition parse_unsigned (value : string) : Z * bool :=
  match strtol 10 value with
  | None => (0, false)
  | Some v => (u32 (if 2 ^ 64 <=? Z.abs v then 2 ^ 64 - 1 else wrap_u 64 v), is_empty_str (number_end value) && (Z.abs v <? 2 ^ 64))
  end.

(** ** Options *)

Inductive fdb_option_type := FDB_OPTION_INTEGER | FDB_OPTION_UNSIGNED_INTEGER | FDB_OPTION_STRING | FDB_OPTION_BOOLEAN.
(** [op_data]: the number of the variable. *)
Record fdb_option := mkOption { op_type : fdb_option_type; op_name : option string; op_short : option ascii; op_data : nat }.
Implicit Types o : fdb_option.
(** The variables: numbers and pointers to text. *)
Inductive OptVar := VarInt (v : Z) | VarStr (v : option string).
Abbreviation vars := (list OptVar).

Definition is_bool o : bool := match op_type o with FDB_OPTION_BOOLEAN => true | _ => false end.

Definition handle_option o (value : string) (x : vars) : bool * vars :=
  match op_type o with
  | FDB_OPTION_INTEGER => match safe_strtoint value with Some v => (true, <[op_data o := VarInt v]> x) | None => (false, x) end
  | FDB_OPTION_UNSIGNED_INTEGER => let '(v, ok) := parse_unsigned value in (ok, <[op_data o := VarInt v]> x)
  | FDB_OPTION_STRING => (true, <[op_data o := VarStr (Some value)]> x)
  | FDB_OPTION_BOOLEAN => (false, x)
  end.

(** What follows the name [n] in [arg]. *)
Fixpoint after_name (n arg : string) : option string :=
  match n, arg with
  | EmptyString, _ => Some arg
  | String a n, String b arg => if Ascii.eqb a b then after_name n arg else None
  | String _ _, EmptyString => None
  end.
Definition equals_sign : ascii := "="%char.
Definition dash : ascii := "-"%char.

(** [arg]: the argument behind its two dashes. *)
Fixpoint long_option (options : list fdb_option) (arg : string) (x : vars) : bool * vars :=
  match options with
  | [] => (false, x)
  | o :: options =>
      match op_name o ≫= fun n => after_name n arg with
      | None => long_option options arg x
      | Some rest =>
          if is_bool o then if is_empty_str rest then (true, <[op_data o := VarInt 1]> x) else long_option options arg x
          else match rest with
               | String c value => if Ascii.eqb c equals_sign then handle_option o value x else long_option options arg x
               | EmptyString => long_option options arg x
               end
      end
  end.
Definition short_is (c : ascii) o : bool := match op_short o with Some s => Ascii.eqb s c | None => false end.
(** [c]: the character behind the dash; [rest]: what follows. *)
Fixpoint short_option (options : list fdb_option) (c : ascii) (rest : string) (x : vars) : bool * vars :=
  match options with
  | [] => (false, x)
  | o :: options =>
      if negb (short_is c o) then short_option options c rest x
      else if is_bool o then if is_empty_str rest then (true, <[op_data o := VarInt 1]> x) else short_option options c rest x
      else if is_empty_str rest then (false, x) else handle_option o rest x
  end.
Fixpoint short_option_with_arg (options : list fdb_option) (c : ascii) (param : string) (x : vars) : bool * vars :=
  match options with
  | [] => (false, x)
  | o :: options => if negb (short_is c o) || is_bool o then short_option_with_arg options c param x else handle_option o param x
  end.

(** The arguments that are left come with the variables. *)
Fixpoint parse_args (options : list fdb_option) (args : list string) (x : vars) : list string * vars :=
  match args with
  | [] => ([], x)
  | arg :: rest =>
      let keep x := let '(others, x) := parse_args options rest x in (arg :: others, x) in
      match arg with
      | String d (String c body) =>
          if negb (Ascii.eqb d dash) then keep x else
          if Ascii.eqb c dash then let '(ok, x) := long_option options body x in if ok : bool then parse_args options rest x else keep x
          else
            let '(ok, x) := short_option options c body x in
            if ok : bool then parse_args options rest x else
            match rest with
            | [] => keep x
            | param :: rest' => let '(ok, x) := short_option_with_arg options c param x in if ok : bool then parse_args options rest' x else keep x
            end
      | _ => keep x
      end
  end.
(** The first argument is the name of the program. *)
Definition fdb_parse_options (options : list fdb_option) (argv : list string) (x : vars) : list string * vars :=
  match argv with [] => ([], x) | prog :: args => let '(others, x) := parse_args options args x in (prog :: others, x) end.

(** ** Lists *)

(** [strsplit]: the parts between commas that are not empty. *)
Fixpoint split_comma (s : string) : list string :=
  match s with
  | EmptyString => [EmptyString]
  | String c s => if Ascii.eqb c "," then EmptyString :: split_comma s else match split_comma s with p :: l => String c p :: l | [] => [String c EmptyString] end
  end.
Definition strsplit (str : string) : list string := List.filter (fun p => negb (is_empty_str p)) (split_comma str).

(** ** The options of the log tools *)

Definition core_options : list fdb_option :=
  let b n c k := mkOption FDB_OPTION_BOOLEAN (Some n) (Some c) k in
  let i n c k := mkOption FDB_OPTION_INTEGER (Some n) (Some c) k in
  let t n c k := mkOption FDB_OPTION_STRING (Some n) (Some c) k in
  [ b "request" "q"%char 0; b "reply" "p"%char 1; b "broadcast" "b"%char 2; b "subscribe" "s"%char 3; b "no_fdbus" "f"%char 4; i "clip" "c"%char 5;
    t "log_endpoint" "e"%char 6; t "log_busname" "n"%char 7; t "log_hosts" "m"%char 8; i "level" "l"%char 9; b "no_trace" "d"%char 10;
    t "trace_tags" "t"%char 11; t "trace_hosts" "M"%char 12; t "reverse_selection" "r"%char 13; i "initial_cache_size" "g"%char 14; t "log_storage" "j"%char 15;
    b "static_content" "a"%char 16;
    b "output" "o"%char 17; b "output" "C"%char 18; i "exportable level" "y"%char 19;
    b "inc_cfg_mode" "x"%char 20; b "abs_cfg_mode" "a"%char 21; b "info_mode" "i"%char 22; b "sync" "k"%char 23;
    b "help" "h"%char 24 ]%string%nat.
(** The variables before the command line is read. *)
Definition init_vars : vars :=
  [VarInt (-1); VarInt (-1); VarInt (-1); VarInt (-1); VarInt (-1); VarInt (-1); VarStr None; VarStr None; VarStr None; VarInt (-1); VarInt (-1); VarStr None; VarStr None; VarStr None;
   VarInt (-1); VarStr None; VarInt 0; VarInt 0; VarInt 0; VarInt (-1); VarInt 0; VarInt 0; VarInt 0; VarInt 0; VarInt 0].
Definition var_int (k : nat) (x : vars) : Z := match x !! k with Some (VarInt v) => v | _ => 0 end.
Definition var_str (k : nat) (x : vars) : option string := match x !! k with Some (VarStr v) => v | _ => None end.

Definition fdb_populate_white_list (filter_str : option string) : list string := match filter_str with None => [] | Some s => strsplit s end.
(** [fdb_check_config_updated]: the value and whether it was set. *)
Definition fdb_check_config_updated (v init_value : Z) : Z * bool := if 0 <=? v then (v, true) else (init_value, false).
Definition letter_selected (c : ascii) (selections : list string) : bool := existsb (fun p => match p with String a _ => Ascii.eqb a c | EmptyString => false end) selections.

(** [None]: help is asked for. *)
Definition initLogConfig (argv : list string) : option CFdbLogParams :=
  let x := (fdb_parse_options core_options argv init_vars).2 in
  if on (var_int 24 x) then None else
  let mode := if on (var_int 20 x) then CFG_MODE_INCREMENTAL else if on (var_int 21 x) then CFG_MODE_ABSOLUTE else CFG_MODE_NONE in
  let level := if FDB_LL_MAX <=? var_int 9 x then FDB_LL_SILENT else var_int 9 x in
  let storage := match var_str 15 x with Some s => strsplit s | None => [] end in
  let '(path, path_set) := match storage with p :: _ => (p, true) | [] => (EmptyString, false) end in
  let max_storage := match storage with _ :: n :: _ => atoi n | _ => -1 end in
  let max_file := match storage with _ :: _ :: n :: _ => atoi n | _ => -1 end in
  let selections := match var_str 13 x with Some s => strsplit s | None => [] end in
  let rev_e := letter_selected "e" selections in let rev_n := letter_selected "n" selections in let rev_t := letter_selected "t" selections in
  let '(request, c0) := fdb_check_config_updated (var_int 0 x) 0 in
  let '(reply, c1) := fdb_check_config_updated (var_int 1 x) 0 in
  let '(broadcast, c2) := fdb_check_config_updated (var_int 2 x) 0 in
  let '(subscribe, c3) := fdb_check_config_updated (var_int 3 x) 0 in
  let '(no_logger, c4) := fdb_check_config_updated (var_int 4 x) 0 in
  let '(clip, c5) := fdb_check_config_updated (var_int 5 x) 0 in
  let '(level, c9) := fdb_check_config_updated level FDB_LL_INFO in
  let '(no_trace, c10) := fdb_check_config_updated (var_int 10 x) 0 in
  let '(cache, c14) := fdb_check_config_updated (var_int 14 x) 0 in
  let '(max_storage, cs) := fdb_check_config_updated max_storage (64 * 1024) in
  let '(max_file, cf) := fdb_check_config_updated max_file (4 * 1024) in
  Some (mkLogParams
    (mkLoggerParams request reply broadcast subscribe no_logger clip (fdb_populate_white_list (var_str 8 x)) (fdb_populate_white_list (var_str 6 x)) (fdb_populate_white_list (var_str 7 x))
       (flag_of rev_e) (flag_of rev_n) (var_int 16 x))
    (mkTraceParams level no_trace cache (fdb_populate_white_list (var_str 12 x)) (fdb_populate_white_list (var_str 11 x)) (flag_of rev_t) path max_storage max_file)
    (mkConfigured c0 c1 c2 c3 c4 c5 c9 c10 c14 rev_e rev_n rev_t path_set cs cf false)
    (var_int 17 x) (var_int 18 x) (var_int 19 x) mode (var_int 22 x) (var_int 23 x)).

(** The help says that [-a] asks for the absolute mode; it is taken for another option. *)
Example absolute_mode_unreachable : (fdb_config_mode <$> initLogConfig ["logviewer"; "-a"]%string) = Some CFG_MODE_NONE /\ ((fun g => fdb_static_content (pa_logger g)) <$> initLogConfig ["logviewer"; "-a"]%string) = Some 1.
Proof. by vm_compute. Qed.
(** A negative limit, for all of the payload or all cached logs, cannot be set. *)
Example clip_all_ignored : ((fun g => fdb_raw_data_clipping_size (pa_logger g)) <$> initLogConfig ["logsvc"; "-c"; "-1"]%string) = Some 0 /\
  ((fun g => fdb_cache_size (pa_trace g)) <$> initLogConfig ["logviewer"; "-g"; "-1"]%string) = Some 0.
Proof. by vm_compute. Qed.
Example options_read : ((fun g => (fdb_debug_trace_level (pa_trace g), fdb_log_endpoint_white_list (pa_logger g), fdb_log_path (pa_trace g), fdb_max_log_file_size (pa_trace g))) <$>
  initLogConfig ["logsvc"; "-l9"; "--log_endpoint=nav,,radio"; "-j"; "/log,100,10"; "rest"]%string) = Some (6, ["nav"; "radio"], "/log", 10)%string.
Proof. by vm_compute. Qed.

(** ** What comes of a command line *)

Lemma str_ok_tail c s : str_ok (String c s) -> str_ok s.
Proof. intros [Hn Hl]. unfold str_ok, nul_free in *. cbn [str_bytes String.length] in *. inversion Hn; subst. split; [done|lia]. Qed.
Lemma after_name_ok n : forall arg rest, after_name n arg = Some rest -> str_ok arg -> str_ok rest.
Proof. induction n as [|a n IH]; intros [|b arg] rest E Ha; cbn in E; try done; try (by injection E as <-). destruct (Ascii.eqb a b); [|done]. apply (IH arg rest E). by apply str_ok_tail in Ha. Qed.

Definition var_ok (v : OptVar) : Prop := match v with VarInt z => in_s 32 z | VarStr (Some s) => str_ok s | VarStr None => True end.
Definition plain o : Prop := op_type o <> FDB_OPTION_UNSIGNED_INTEGER.
Implicit Types x : vars.

Lemma set_ok k v x : Forall var_ok x -> var_ok v -> Forall var_ok (<[k := v]> x).
Proof. intros Hx Hv. by apply Forall_insert. Qed.
Lemma handle_ok o value x : plain o -> str_ok value -> Forall var_ok x -> Forall var_ok (handle_option o value x).2.
Proof.
  intros Hp Hv Hx. unfold handle_option. destruct (op_type o) eqn:E; [|exfalso; by apply Hp|by apply set_ok|done]. destruct (safe_strtoint value) as [v|] eqn:Ev; [|done]. apply set_ok; [done|].
  unfold safe_strtoint in Ev. destruct (strtol 10 value) as [v'|]; [|done]. cbn [mbind option_bind] in Ev. destruct (_ && _ && _) eqn:Eb; [|done]. injection Ev as <-.
  rewrite !andb_true_iff, !Z.leb_le in Eb. unfold INT32_MAX in Eb. cbn [var_ok]. unfold in_s. lia.
Qed.
Lemma one_ok : var_ok (VarInt 1).
Proof. cbn. unfold in_s. lia. Qed.
Lemma long_ok options arg x : Forall plain options -> str_ok arg -> Forall var_ok x -> Forall var_ok (long_option options arg x).2.
Proof.
  intros Ho Ha Hx. induction Ho as [|o options Hp _ IH]; [done|]. cbn [long_option]. destruct (op_name o) as [n|]; [|done]. cbn [mbind option_bind]. destruct (after_name n arg) as [rest|] eqn:E; [|done].
  apply after_name_ok in E; [|done]. destruct (is_bool o); [destruct (is_empty_str rest); [apply set_ok; [done|apply one_ok]|done]|]. destruct rest as [|c value]; [done|]. destruct (Ascii.eqb c equals_sign); [|done]. apply handle_ok; [done| |done]. by apply str_ok_tail in E.
Qed.
Lemma short_ok options c rest x : Forall plain options -> str_ok rest -> Forall var_ok x -> Forall var_ok (short_option options c rest x).2.
Proof.
  intros Ho Ha Hx. induction Ho as [|o options Hp _ IH]; [done|]. cbn [short_option]. destruct (negb _); [done|]. destruct (is_bool o); [destruct (is_empty_str rest); [apply set_ok; [done|apply one_ok]|done]|].
  destruct (is_empty_str rest); [done|]. by apply handle_ok.
Qed.
Lemma short_arg_ok options c param x : Forall plain options -> str_ok param -> Forall var_ok x -> Forall var_ok (short_option_with_arg options c param x).2.
Proof. intros Ho Ha Hx. induction Ho as [|o options Hp _ IH]; [done|]. cbn [short_option_with_arg]. destruct (_ || _); [done|]. by apply handle_ok. Qed.

Lemma parse_args_ok options : Forall plain options -> forall n args x, (length args <= n)%nat -> Forall str_ok args -> Forall var_ok x -> Forall var_ok (parse_args options args x).2.
Proof.
  intros Ho. induction n as [|n IH]; intros [|arg rest] x Hn Ha Hx; cbn [length] in Hn; try done; [lia|]. inversion Ha as [|? ? Ha1 Ha2]; subst.
  assert (forall x, Forall var_ok x -> Forall var_ok (let '(others, x) := parse_args options rest x in (arg :: others, x)).2) as Hk.
  { intros y Hy. specialize (IH rest y ltac:(lia) Ha2 Hy). by destruct (parse_args options rest y). }
  cbn [parse_args]. destruct arg as [|d [|c body]]; [by apply Hk..|]. destruct (negb _); [by apply Hk|]. apply str_ok_tail, str_ok_tail in Ha1. destruct (Ascii.eqb c dash).
  - pose proof (long_ok options body x Ho Ha1 Hx) as Hl. destruct (long_option options body x) as [[] y]; [by apply IH; [lia|..]|by apply Hk].
  - pose proof (short_ok options c body x Ho Ha1 Hx) as Hl. destruct (short_option options c body x) as [[] y]; [by apply IH; [lia|..]|]. destruct rest as [|param rest']; [by apply Hk|].
    inversion Ha2 as [|? ? Ha3 Ha4]; subst. pose proof (short_arg_ok options c param y Ho Ha3 Hl) as Hs. destruct (short_option_with_arg options c param y) as [[] z]; [cbn [length] in Hn; by apply IH; [lia|..]|by apply Hk].
Qed.

Lemma split_comma_ok s : Forall (fun p => nul_free s -> nul_free p /\ (String.length p <= String.length s)%nat) (split_comma s) /\ (length (split_comma s) <= S (String.length s))%nat.
Proof.
  induction s as [|c s [IH1 IH2]]; [split; [by constructor|done]|]. cbn [split_comma].
  assert (forall p, (nul_free s -> nul_free p /\ (String.length p <= String.length s)%nat) -> nul_free (String c s) -> nul_free p /\ (String.length p <= String.length (String c s))%nat) as Hw.
  { intros p Hp Hn. unfold nul_free in *. cbn [str_bytes String.length] in *. inversion Hn; subst. destruct (Hp ltac:(done)). split; [done|lia]. }
  destruct (Ascii.eqb c ",").
  - split; [|cbn [length String.length]; lia]. constructor; [intros _; split; [constructor|cbn; lia]|]. eapply Forall_impl; [exact IH1|]. exact Hw.
  - destruct (split_comma s) as [|p l]; [split; [|cbn; lia]; constructor; [|constructor]|].
    + intros Hn. unfold nul_free in *. cbn [str_bytes String.length] in *. inversion Hn; subst. split; [by repeat constructor|lia].
    + inversion IH1 as [|? ? Hp Hl]; subst. split; [|cbn [length String.length] in *; lia]. constructor; [|eapply Forall_impl; [exact Hl|]; exact Hw].
      intros Hn. unfold nul_free in *. cbn [str_bytes String.length] in *. inversion Hn; subst. destruct (Hp ltac:(done)). split; [by constructor|lia].
Qed.
Lemma strsplit_ok s : str_ok s -> p_wf (strsplit s).
Proof.
  intros [Hn Hl]. destruct (split_comma_ok s) as [H1 H2]. unfold strsplit. split.
  - apply Forall_forall. intros p Hp. apply list_elem_of_In, filter_In in Hp as [Hp _]. apply list_elem_of_In in Hp. destruct (proj1 (Forall_forall _ _) H1 p Hp Hn). split; [done|lia].
  - assert (length (List.filter (fun p => negb (is_empty_str p)) (split_comma s)) <= length (split_comma s))%nat; [|lia]. clear. induction (split_comma s) as [|p l IH]; [done|]. cbn. destruct (negb _); cbn; lia.
Qed.

Lemma var_int_ok k x : Forall var_ok x -> in_s 32 (var_int k x).
Proof. intros Hx. unfold var_int. destruct (x !! k) as [[v|]|] eqn:E; try (unfold in_s; lia). exact (proj1 (Forall_lookup _ _) Hx k _ E). Qed.
Lemma var_list_ok k x : Forall var_ok x -> p_wf (fdb_populate_white_list (var_str k x)).
Proof.
  intros Hx. unfold var_str. destruct (x !! k) as [[|[v|]]|] eqn:E; try (by split; [constructor|cbn; lia]). apply strsplit_ok. exact (proj1 (Forall_lookup _ _) Hx k _ E).
Qed.
Lemma updated_range v d a c : fdb_check_config_updated v d = (a, c) -> in_s 32 v -> 0 <= d < 2 ^ 31 -> 0 <= a < 2 ^ 31.
Proof. unfold fdb_check_config_updated, in_s. destruct (Z.leb_spec 0 v); intros [= <- <-]; lia. Qed.
Lemma updated_zero v a c : fdb_check_config_updated v 0 = (a, c) -> a = Z.max 0 v.
Proof. unfold fdb_check_config_updated. destruct (Z.leb_spec 0 v); intros [= <- _]; lia. Qed.
Lemma core_plain : Forall plain core_options.
Proof. repeat (constructor; [done|]). constructor. Qed.
Lemma init_ok : Forall var_ok init_vars.
Proof. repeat (constructor; [done || (cbn; unfold in_s; lia)|]). constructor. Qed.
Lemma parsed_ok argv : Forall str_ok argv -> Forall var_ok (fdb_parse_options core_options argv init_vars).2.
Proof.
  intros Ha. unfold fdb_parse_options. destruct argv as [|prog args]; [apply init_ok|]. inversion Ha; subst. pose proof (parse_args_ok core_options core_plain (length args) args init_vars ltac:(done) ltac:(done) init_ok) as H.
  by destruct (parse_args core_options args init_vars).
Qed.
(** A list of names as it is sent. *)
Lemma sent_list l : p_wf l -> p_wf (fdb_populate_white_list_cmd [] l).
Proof. intros H. unfold fdb_populate_white_list_cmd. cbn [app]. by rewrite map_c_str. Qed.
Lemma first_ok l : p_wf l -> str_ok (c_str (match l with p :: _ => p | [] => EmptyString end)).
Proof. intros [Hl _]. destruct Hl as [|p l Hp _]; [by apply (bool_decide_unpack _); vm_compute|]. by rewrite c_str_ok. Qed.
Lemma atoi_range s : in_s 32 (atoi s).
Proof. apply wrap_s_range. lia. Qed.

(** C38: Whatever arguments, each shorter than 65535 bytes, a log tool is called with, the
    configuration it takes from the command line can be sent: the level is one there is a name for,
    the limits are numbers of 32 bits that are not negative, and the lists of names fit in a message.
    A negative limit for the payload logged, or for the cached logs shown, is replaced by 0, which
    means nothing, although the header and the help document it to mean all; a negative limit for the
    storage is replaced by the default. *)
Theorem command_line_sendable {I : Indet} (argv : list string) (g : CFdbLogParams) (b : bool) :
  Forall str_ok argv -> initLogConfig argv = Some g ->
  let given := (fdb_parse_options core_options argv init_vars).2 in
  p_wf (fdb_fill_logger_config dflt b g) /\ p_wf (fdb_fill_trace_config dflt b g) /\
  0 <= fdb_debug_trace_level (pa_trace g) < FDB_LL_MAX /\
  fdb_raw_data_clipping_size (pa_logger g) = Z.max 0 (var_int 5 given) /\ fdb_cache_size (pa_trace g) = Z.max 0 (var_int 14 given) /\
  0 <= fdb_max_log_storage_size (pa_trace g) /\ 0 <= fdb_max_log_file_size (pa_trace g).
Proof.
  intros Ha E. pose proof (parsed_ok argv Ha) as Hx. unfold initLogConfig in E. set (x := (fdb_parse_options core_options argv init_vars).2) in *. cbv zeta. destruct (on (var_int 24 x)); [done|].
  set (storage := match var_str 15 x with Some s => strsplit s | None => [] end) in *. assert (p_wf storage) as Hst by (exact (var_list_ok 15 x Hx)). pose proof (first_ok storage Hst) as Hpath.
  set (max_storage := match storage with _ :: n :: _ => atoi n | _ => -1 end) in *. assert (in_s 32 max_storage) as H1 by (unfold max_storage; destruct storage as [|? [|? ?]]; [unfold in_s; lia..|apply atoi_range]).
  set (max_file := match storage with _ :: _ :: n :: _ => atoi n | _ => -1 end) in *. assert (in_s 32 max_file) as H2 by (unfold max_file; destruct storage as [|? [|? [|? ?]]]; [unfold in_s; lia..|apply atoi_range]).
  set (lv := if FDB_LL_MAX <=? var_int 9 x then FDB_LL_SILENT else var_int 9 x) in *.
  assert (in_s 32 lv /\ lv < FDB_LL_MAX) as [H3 H3'] by (pose proof (var_int_ok 9 x Hx); unfold lv, FDB_LL_MAX, FDB_LL_SILENT, in_s in *; destruct (Z.leb_spec 7 (var_int 9 x)); lia).
  clearbody lv max_storage max_file. destruct (match storage with p :: _ => (p, true) | [] => (EmptyString, false) end) as [path path_set] eqn:Ep.
  assert (str_ok (c_str path)) as Hp by (destruct storage; injection Ep as <- <-; exact Hpath).
  destruct (fdb_check_config_updated lv FDB_LL_INFO) as [level cl] eqn:El. assert (0 <= level < FDB_LL_MAX) as Hlv by (unfold fdb_check_config_updated, FDB_LL_INFO, FDB_LL_MAX in *; destruct (Z.leb_spec 0 lv); injection El as <- <-; lia).
  repeat match type of E with context [fdb_check_config_updated ?a ?d] => let e := fresh "E" in destruct (fdb_check_config_updated a d) as [? ?] eqn:e; pose proof e; apply updated_range in e; [|by try apply var_int_ok|unfold FDB_LL_INFO; lia] end.
  injection E as <-. cbn [pa_trace pa_logger fdb_debug_trace_level fdb_raw_data_clipping_size fdb_cache_size fdb_max_log_storage_size fdb_max_log_file_size].
  split_and!; try lia; try (by eapply updated_zero).
  - split; cbn; [unfold in_s; lia|apply sent_list, var_list_ok, Hx..].
  - split; cbn; [|apply sent_list, var_list_ok, Hx|apply sent_list, var_list_ok, Hx|unfold in_s; lia|exact Hp|unfold in_s; lia|unfold in_s; lia]. unfold clamp_log_level. destruct (Z.leb_spec FDB_LL_MAX level); lia.
Qed.

Lemma command_line_sendable_witness : exists g, initLogConfig ["logsvc"; "-l9"; "--log_endpoint=nav,,radio"; "-j"; "/log,100,10"; "rest"]%string = Some g /\
  p_wf (fdb_fill_logger_config (dflt (I := 0)) true g) /\ fdb_debug_trace_level (pa_trace g) < FDB_LL_MAX.
Proof.
  assert (Forall str_ok ["logsvc"; "-l9"; "--log_endpoint=nav,,radio"; "-j"; "/log,100,10"; "rest"]%string) as Ha by (by apply (bool_decide_unpack _); vm_compute).
  destruct (initLogConfig ["logsvc"; "-l9"; "--log_endpoint=nav,,radio"; "-j"; "/log,100,10"; "rest"]%string) as [g|] eqn:E; [|exfalso; by vm_compute in E].
  exists g. split; [done|]. destruct (command_line_sendable (I := 0) _ g true Ha E) as (H1 & _ & [_ H2] & _). split; [exact H1|exact H2].
Defined.

(** ** Options as they are meant *)

Inductive Item := ShortFlag (c : ascii) | LongFlag (n : string) | ShortJoined (c : ascii) (v : string) | ShortPair (c : ascii) (v : string) | LongValue (n v : string) | Other (arg : string).
Definition render (it : Item) : list string :=
  match it with
  | ShortFlag c => [String dash (String c EmptyString)]
  | LongFlag n => [String dash (String dash n)]
  | ShortJoined c v => [String dash (String c v)]
  | ShortPair c v => [String dash (String c EmptyString); v]
  | LongValue n v => [String dash (String dash (n +:+ String equals_sign v))]
  | Other arg => [arg]
  end.

Definition opt_value o (v : string) : option OptVar :=
  match op_type o with
  | FDB_OPTION_INTEGER => VarInt <$> safe_strtoint v
  | FDB_OPTION_UNSIGNED_INTEGER => if (parse_unsigned v).2 then Some (VarInt (parse_unsigned v).1) else None
  | FDB_OPTION_STRING => Some (VarStr (Some v))
  | FDB_OPTION_BOOLEAN => None
  end.
Definition named (n : string) o : bool := match op_name o with Some n' => String.eqb n' n | None => false end.
(** The variable an item sets, and to what. *)
Definition target (options : list fdb_option) (it : Item) : option (nat * OptVar) :=
  let flag o := if is_bool o then Some (op_data o, VarInt 1) else None in
  let value v o := if is_bool o then None else (op_data o,.) <$> opt_value o v in
  match it with
  | ShortFlag c => List.find (short_is c) options ≫= flag
  | LongFlag n => List.find (fun o => is_bool o && named n o) options ≫= flag
  | ShortJoined c v => List.find (fun o => short_is c o && negb (is_bool o)) options ≫= value v
  | ShortPair c v => List.find (short_is c) options ≫= value v
  | LongValue n v => List.find (fun o => named n o && negb (is_bool o)) options ≫= value v
  | Other _ => None
  end.

Fixpoint no_eq (s : string) : bool := match s with EmptyString => true | String c s => negb (Ascii.eqb c equals_sign) && no_eq s end.
Definition table_ok (options : list fdb_option) : Prop := Forall (fun o => forall n, op_name o = Some n -> no_eq n = true) options.
(** An argument that is no option: it has no dash, or the table knows nothing like it. *)
Definition wrong (options : list fdb_option) (arg : string) : Prop :=
  match arg with
  | String d (String c body) =>
      d <> dash \/
      (c = dash /\ Forall (fun o => forall n rest, op_name o = Some n -> after_name n body = Some rest -> if is_bool o then rest <> EmptyString else forall v, rest <> String equals_sign v) options) \/
      (c <> dash /\ Forall (fun o => short_is c o = true -> is_bool o = true /\ body <> EmptyString) options)
  | _ => True
  end.
Definition item_ok (options : list fdb_option) (it : Item) : Prop :=
  match it with
  | ShortFlag c | ShortPair c _ => c <> dash /\ is_Some (target options it)
  | ShortJoined c v => c <> dash /\ v <> EmptyString /\ is_Some (target options it)
  | LongFlag n => no_eq n = true /\ is_Some (target options it)
  | LongValue n _ => no_eq n = true /\ is_Some (target options it)
  | Other arg => wrong options arg
  end.

Lemma after_name_spec n : forall arg rest, after_name n arg = Some rest <-> arg = n +:+ rest.
Proof.
  induction n as [|a n IH]; intros arg rest; [change (EmptyString +:+ rest) with rest; destruct arg; cbn [after_name]; split; congruence|]. change (String a n +:+ rest) with (String a (n +:+ rest)). destruct arg as [|b arg]; [done|]. cbn [after_name].
  destruct (Ascii.eqb_spec a b) as [->|Hne]; [rewrite IH; split; [by intros ->|by intros [= ->]]|]. split; [done|]. by intros [= -> _].
Qed.
Lemma eq_split a : forall b u w, no_eq a = true -> no_eq b = true -> a +:+ String equals_sign u = b +:+ String equals_sign w -> a = b /\ u = w.
Proof.
  induction a as [|x a IH]; intros [|y b] u w Ha Hb E; cbn [no_eq] in *.
  - by injection E as ->.
  - change (String equals_sign u = String y (b +:+ String equals_sign w)) in E. injection E as <- _. cbn in Hb. done.
  - change (String x (a +:+ String equals_sign u) = String equals_sign w) in E. injection E as -> _. cbn in Ha. done.
  - change (String x (a +:+ String equals_sign u) = String y (b +:+ String equals_sign w)) in E. injection E as -> E. apply andb_true_iff in Ha as [_ Ha], Hb as [_ Hb]. destruct (IH b u w Ha Hb E) as [-> ->]. done.
Qed.
Lemma no_eq_app a u : no_eq (a +:+ String equals_sign u) = false.
Proof. induction a as [|x a IH]; [done|]. change (negb (Ascii.eqb x equals_sign) && no_eq (a +:+ String equals_sign u) = false). rewrite IH. apply andb_false_r. Qed.

Lemma handle_value o v x k w : is_bool o = false -> opt_value o v = Some w -> k = op_data o -> handle_option o v x = (true, <[k := w]> x).
Proof.
  unfold handle_option, opt_value, is_bool. intros Hb E ->. destruct (op_type o); try done; [destruct (safe_strtoint v); [by injection E as <-|done]| |by injection E as <-].
  destruct (parse_unsigned v) as [z []]; cbn in *; [by injection E as <-|done].
Qed.

Lemma short_flag_set options c x k w : target options (ShortFlag c) = Some (k, w) -> short_option options c EmptyString x = (true, <[k := w]> x).
Proof.
  cbn [target]. induction options as [|o options IH]; [done|]. cbn [List.find short_option]. destruct (short_is c o); cbn [negb]; [|done]. cbn [mbind option_bind]. destruct (is_bool o); [|done]. by intros [= <- <-].
Qed.
Lemma short_joined_set options c v x k w : v <> EmptyString -> target options (ShortJoined c v) = Some (k, w) -> short_option options c v x = (true, <[k := w]> x).
Proof.
  intros Hv. assert (is_empty_str v = false) as Ev by (by destruct v). cbn [target]. induction options as [|o options IH]; [done|]. cbn [List.find short_option]. destruct (short_is c o) eqn:Es; cbn [negb andb]; [|done].
  destruct (is_bool o) eqn:Eb; cbn [negb]; rewrite Ev; [done|]. cbn [mbind option_bind]. rewrite Eb. destruct (opt_value o v) as [w'|] eqn:Ew; [|done]. intros [= <- <-]. by apply handle_value.
Qed.
Lemma short_pair_set options c v x k w : target options (ShortPair c v) = Some (k, w) ->
  short_option options c EmptyString x = (false, x) /\ short_option_with_arg options c v x = (true, <[k := w]> x).
Proof.
  cbn [target]. induction options as [|o options IH]; [done|]. cbn [List.find short_option short_option_with_arg]. destruct (short_is c o) eqn:Es; cbn [negb orb]; [|done].
  cbn [mbind option_bind]. destruct (is_bool o) eqn:Eb; [done|]. destruct (opt_value o v) as [w'|] eqn:Ew; [|done]. intros [= <- <-]. split; [done|]. by apply handle_value.
Qed.
Lemma long_flag_set options n x k w : table_ok options -> no_eq n = true -> target options (LongFlag n) = Some (k, w) -> long_option options n x = (true, <[k := w]> x).
Proof.
  intros Ht Hn. cbn [target]. induction Ht as [|o options Ho _ IH]; [done|]. cbn [List.find long_option]. unfold named at 1.
  destruct (op_name o) as [n'|] eqn:En; cbn [mbind option_bind]; [|rewrite andb_false_r; exact IH]. specialize (Ho n' eq_refl).
  destruct (after_name n' n) as [rest|] eqn:Ea.
  - apply after_name_spec in Ea. destruct (is_bool o) eqn:Eb; cbn [andb].
    + destruct (String.eqb_spec n' n) as [->|Hne].
      * destruct rest as [|ch rest]; cbn [is_empty_str mbind option_bind]; [rewrite Eb; by intros [= <- <-]|].
        exfalso. apply (f_equal String.length) in Ea. rewrite str_length_app in Ea. cbn in Ea. lia.
      * destruct rest as [|ch rest]; cbn [is_empty_str]; [|done]. exfalso. apply Hne. by rewrite Ea, str_app_nil.
    + destruct rest as [|ch rest]; [done|]. destruct (Ascii.eqb_spec ch equals_sign) as [->|_]; [|done]. by rewrite Ea, no_eq_app in Hn.
  - destruct (String.eqb_spec n' n) as [->|_]; [|by rewrite andb_false_r]. exfalso. assert (after_name n n = Some EmptyString) as Hx by (apply after_name_spec; by rewrite str_app_nil). congruence.
Qed.
Lemma long_value_set options n v x k w : table_ok options -> no_eq n = true -> target options (LongValue n v) = Some (k, w) -> long_option options (n +:+ String equals_sign v) x = (true, <[k := w]> x).
Proof.
  intros Ht Hn. cbn [target]. induction Ht as [|o options Ho _ IH]; [done|]. cbn [List.find long_option]. unfold named at 1.
  destruct (op_name o) as [n'|] eqn:En; cbn [mbind option_bind]; [|exact IH]. specialize (Ho n' eq_refl).
  destruct (after_name n' (n +:+ String equals_sign v)) as [rest|] eqn:Ea.
  - apply after_name_spec in Ea. destruct (is_bool o) eqn:Eb; cbn [negb]; rewrite ?andb_false_r, ?andb_true_r.
    + destruct rest as [|ch rest]; cbn [is_empty_str]; [|exact IH]. rewrite str_app_nil in Ea. by rewrite <- Ea, no_eq_app in Ho.
    + assert (forall r, rest = String equals_sign r -> n = n' /\ v = r) as Hr by (intros r ->; by apply eq_split).
      destruct (String.eqb_spec n' n) as [->|Hne].
      * assert (rest = String equals_sign v) as ->.
        { assert (after_name n (n +:+ String equals_sign v) = Some (String equals_sign v)) as E1 by (by apply after_name_spec). apply after_name_spec in Ea. congruence. }
        rewrite Ascii.eqb_refl. cbn [mbind option_bind]. rewrite Eb. destruct (opt_value o v) as [w'|] eqn:Ew; [|done]. intros [= <- <-]. by apply handle_value.
      * destruct rest as [|ch rest]; [exact IH|]. destruct (Ascii.eqb_spec ch equals_sign) as [->|_]; [|exact IH]. destruct (Hr rest eq_refl) as [-> _]. done.
  - destruct (String.eqb_spec n' n) as [->|_]; [|exact IH]. exfalso. assert (after_name n (n +:+ String equals_sign v) = Some (String equals_sign v)) as Hx by (by apply after_name_spec). congruence.
Qed.

(** What is no option stays and changes nothing. *)
Lemma wrong_long options body x : Forall (fun o => forall n rest, op_name o = Some n -> after_name n body = Some rest -> if is_bool o then rest <> EmptyString else forall v, rest <> String equals_sign v) options ->
  long_option options body x = (false, x).
Proof.
  induction 1 as [|o options Ho _ IH]; [done|]. cbn [long_option]. destruct (op_name o) as [n|]; [|exact IH]. cbn [mbind option_bind]. destruct (after_name n body) as [rest|] eqn:Ea; [|exact IH]. specialize (Ho n rest eq_refl Ea).
  destruct (is_bool o); [by destruct rest|]. destruct rest as [|ch rest]; [exact IH|]. destruct (Ascii.eqb_spec ch equals_sign) as [->|_]; [|exact IH]. by destruct (Ho rest).
Qed.
Lemma wrong_short options c body x : Forall (fun o => short_is c o = true -> is_bool o = true /\ body <> EmptyString) options ->
  short_option options c body x = (false, x) /\ forall param, short_option_with_arg options c param x = (false, x).
Proof.
  induction 1 as [|o options Ho _ [IH1 IH2]]; [done|]. cbn [short_option short_option_with_arg]. destruct (short_is c o); cbn [negb orb]; [|done]. destruct (Ho eq_refl) as [-> Hb]. destruct body; done.
Qed.
Lemma wrong_kept options arg args x : wrong options arg -> parse_args options (arg :: args) x = (arg :: (parse_args options args x).1, (parse_args options args x).2).
Proof.
  intros Hw. cbn [parse_args]. destruct arg as [|d [|c body]]; [by destruct (parse_args options args x)..|]. destruct (Ascii.eqb_spec d dash) as [->|Hd]; cbn [negb]; [|by destruct (parse_args options args x)].
  cbn [wrong] in Hw. destruct Hw as [?|[[-> Hw]|[Hc Hw]]]; [done| |].
  - rewrite Ascii.eqb_refl, wrong_long by done. by destruct (parse_args options args x).
  - destruct (Ascii.eqb_spec c dash) as [->|_]; [done|]. destruct (wrong_short options c body x Hw) as [-> Hp]. destruct args as [|param args]; [done|]. rewrite Hp. by destruct (parse_args options (param :: args) x).
Qed.

Definition others_of (items : list Item) : list string := flat_map (fun it => match it with Other arg => [arg] | _ => [] end) items.
Definition assign (options : list fdb_option) (x : vars) (it : Item) : vars := match target options it with Some (k, w) => <[k := w]> x | None => x end.

(** A command line made of options in any of the five ways they can be written, and of
    arguments that are no options: every option sets its variable, in order, to what was written, and
    exactly the other arguments are left, in order; they change nothing. *)
Theorem options_read_as_written (options : list fdb_option) (prog : string) (items : list Item) (x : vars) :
  table_ok options -> Forall (item_ok options) items ->
  fdb_parse_options options (prog :: flat_map render items) x = (prog :: others_of items, foldl (assign options) x items).
Proof.
  intros Ht Hi. unfold fdb_parse_options. assert (parse_args options (flat_map render items) x = (others_of items, foldl (assign options) x items)) as ->; [|done].
  revert x. induction Hi as [|it items Hit _ IH]; intros x; [done|]. cbn [flat_map foldl]. unfold assign at 2, others_of. cbn [flat_map]. fold (others_of items).
  destruct it as [c|n|c v|c v|n v|arg]; cbn [render app item_ok] in *.
  - destruct Hit as [Hc [[k w] E]]. rewrite E. cbn [parse_args]. rewrite (proj2 (Ascii.eqb_neq c dash) Hc). cbn [Ascii.eqb negb]. rewrite (short_flag_set options c x k w E). apply IH.
  - destruct Hit as [Hn [[k w] E]]. rewrite E. cbn [parse_args]. rewrite Ascii.eqb_refl. cbn [negb]. rewrite (long_flag_set options n x k w Ht Hn E). apply IH.
  - destruct Hit as (Hc & Hv & [k w] & E). rewrite E. cbn [parse_args]. rewrite (proj2 (Ascii.eqb_neq c dash) Hc). rewrite Ascii.eqb_refl. cbn [negb]. rewrite (short_joined_set options c v x k w Hv E). apply IH.
  - destruct Hit as [Hc [[k w] E]]. rewrite E. destruct (short_pair_set options c v x k w E) as [E1 E2]. cbn [parse_args]. rewrite (proj2 (Ascii.eqb_neq c dash) Hc). rewrite Ascii.eqb_refl. cbn [negb]. rewrite E1, E2. apply IH.
  - destruct Hit as [Hn [[k w] E]]. rewrite E. cbn [parse_args]. rewrite Ascii.eqb_refl. cbn [negb]. rewrite (long_value_set options n v x k w Ht Hn E). apply IH.
  - rewrite wrong_kept by done. by rewrite IH.
Qed.

Lemma core_table : table_ok core_options.
Proof. repeat (constructor; [intros n [= <-]; done|]). constructor. Qed.
Lemma options_read_as_written_witness :
  fdb_parse_options core_options ["logsvc"; "-q"; "--log_hosts=a,b"; "-l"; "3"; "file"; "-z"; "-c10"; "--sync"]%string init_vars =
  (["logsvc"; "file"; "-z"]%string, <[23%nat := VarInt 1]> (<[5%nat := VarInt 10]> (<[9%nat := VarInt 3]> (<[8%nat := VarStr (Some "a,b"%string)]> (<[0%nat := VarInt 1]> init_vars))))).
Proof.
  apply (options_read_as_written core_options "logsvc" [ShortFlag "q"; LongValue "log_hosts" "a,b"; ShortPair "l" "3"; Other "file"; Other "-z"; ShortJoined "c" "10"; LongFlag "sync"] init_vars).
  - apply core_table.
  - repeat (apply Forall_cons; split); try (by apply Forall_nil).
    + split; [done|by eexists].
    + split; [done|by eexists].
    + split; [done|by eexists].
    + by left.
    + right; right. split; [done|]. repeat (constructor; [done|]). constructor.
    + split; [done|]. split; [done|by eexists].
    + split; [done|by eexists].
Defined.

(** A value that is no number, written without a space: the next argument is taken in its place. *)
Example wrong_value_takes_next : (fdb_parse_options core_options ["logsvc"; "-l9x"; "5"]%string init_vars).1 = ["logsvc"%string] /\ var_int 9 (fdb_parse_options core_options ["logsvc"; "-l9x"; "5"]%string init_vars).2 = 5.
Proof. by vm_compute. Qed.
